(* ===== verification/_CoqProject ===== *)
-Q . S2P
Prelude.v
PyVal.v
Errors.v
ErrorPolicy.v
LimitCounter.v
ParallelSlots.v
Auth.v
RateLimitPolicy.v
Billing.v
Microbatch.v
RouterState.v
Backend.v
Strategies.v
Router.v
Cooldown.v
Failover.v
Scopes.v
CallableTargets.v
Grants.v
MemoryCache.v
Backpressure.v
BatchModels.v
BatchDb.v
Scheduling.v
BatchItems.v
BatchOutbox.v
BatchBilling.v
WorkClaim.v
FairShare.v
BatchJobs.v
LeaseSweep.v
Calendar.v
Budget.v
WorkerFailure.v
BatchStorage.v
BatchArtifacts.v
ModelCapacity.v
FlowSnapshot.v
Worker.v
WorkerTurn.v
StorageBackends.v
CreateModels.v
CreateSession.v
CreatePromotion.v
CreateCleanup.v
CreateLife.v
CreateService.v
BatchService.v
ChatBatching.v
ChatPlan.v
ChatExecution.v
ChatLife.v
