(* ===== verification/Prelude.v ===== *)
(** * DeltaLLM gateway: a verification library

    DeltaLLM (src/ of the repository) is an LLM gateway: requests carry an API
    key, are checked against grants, rate limits and parallel slots, are routed
    to one of the deployments of a model group, retried and failed over, billed
    and, for batches, scheduled by workers.  This library models the decision
    core of that path and proves what makes it correct.  This file is the root
    and the prelude: results, the state-and-exception monad, clock readings,
    sums and list lemmas that every other file uses.

    ** Files, and the code they model (paths under src/src/)

    - [PyVal]: the Python values and conversions the code relies on ([int],
      [float], truth, dictionaries in insertion order, the [str] methods).
    - [Errors]: models/errors.py, guardrails/exceptions.py, httpx errors; one
      type [exn] of everything a call may raise.
    - [ErrorPolicy]: router/health_policy.py ([HealthPolicy]), the error classes
      and normalisation of router/failover.py ([FailoverErrors]), batch/retry.py
      ([BatchRetry]).
    - [LimitCounter], [ParallelSlots]: services/limit_counter.py; the second file
      is a step relation for tasks interleaving at the awaits of the local slots.
    - [Auth], [RateLimitPolicy]: UserAPIKeyAuth (the fields the modelled code
      reads), rate_limit_policy.py and the enforcement of
      middleware/rate_limit.py.
    - [Billing]: billing/cost.py and billing/pricing.py.
    - [Microbatch]: batch/embedding_microbatch.py.
    - [RouterState], [Backend]: router/state.py; [Backend] is the protocol
      DeploymentStateBackend as a type class with RedisStateBackend as instance.
    - [Strategies], [Router], [Cooldown], [Failover]: the files of the same names
      in router/, written against the type class.
    - [Scopes], [CallableTargets], [Grants]: services/runtime_scopes.py,
      governance/access_groups.py, services/callable_targets.py,
      services/callable_target_grants.py, services/model_visibility.py.
    - [MemoryCache]: cache/backends/memory.py.
    - [Backpressure]: batch/backpressure.py and batch/worker_backpressure.py.
    - [BatchModels], [BatchDb]: batch/models.py; the PostgreSQL tables of the
      batch code as lists of records, and the forms of SQL statement on them.
    - [BatchItems]: batch/repositories/item_repository.py.
    - [BatchOutbox], [BatchBilling]: the completion outbox
      (batch/repositories/completion_outbox_repository.py,
      batch/completion_outbox.py), bulk completion (batch/repository.py),
      billing/spend.py and billing/ledger.py; the second file is the system of
      their steps and what it bills.
    - [Scheduling], [WorkClaim], [FairShare]: batch/scheduling/ and the claim,
      recommendation and flow statements of batch/repositories/job_repository.py.
    - [BatchJobs], [LeaseSweep]: the job statements of job_repository.py and
      maintenance_repository.py, promotion (batch/create/promoter.py), the repair
      endpoints (api/admin/endpoints/batches.py) and the stale-lease sweep.
    - [Calendar], [Budget]: Python's datetime; billing/budget.py and the alert
      slots of billing/alerts.py.
    - [BatchStorage], [StorageBackends], [BatchArtifacts]: batch/storage.py (local
      files; the interface of the storages, the local and the S3 one, and their
      listings) and batch/worker_artifacts.py with
      batch/repositories/file_repository.py.
    - [ModelCapacity], [FlowSnapshot]: batch/scheduling/model_capacity.py and the
      backlog queries; the snapshot queries of job_repository.py that flows are
      refreshed from, the listings and previews of flows.
    - [WorkerFailure], [Worker], [WorkerTurn]: batch/worker_failure_handling.py
      and batch/worker_persistence.py; the modes, limits, pauses and diagnoses of
      batch/worker.py; its turn.
    - [CreateModels], [CreateSession], [CreatePromotion], [CreateCleanup],
      [CreateLife]: batch/create/ (models, session_repository and staging with
      session_stager, promoter, cleanup with admin_service), batch/scopes.py,
      batch/access.py; the last file is the system of their steps.
    - [CreateService], [BatchService]: batch/request_validation.py and
      batch/create/service.py; batch/service.py, the public endpoints' service.
    - [ChatBatching], [ChatPlan], [ChatExecution], [ChatLife]:
      batch/chat_batching.py with providers/resolution.py (settings, eligibility,
      results of a shared call); the planner and the runners of
      batch/chat_worker_execution.py; its execution of items and micro-batches
      with the policy leases of batch/worker_persistence.py; what an execution
      leaves behind.

    A class is a [Record] of its attributes; a method is a function of the same
    name in the monad [st] of its object, so that a raise keeps the mutations
    made before it.  Names, constants and branch order follow the source.

    ** How the parts interact

    [RateLimitPolicy] drives [LimitCounter] and its lease names a slot of
    [ParallelSlots].  [Router] picks through [Strategies], which read the
    backend and, for costs, [Billing].  [Failover] runs the chain of
    deployments through [Router]'s registry, counts active requests in the
    backend, classifies errors by [ErrorPolicy] and reports to [Cooldown],
    which writes the state that [Router] reads.  [Grants] decides on the
    catalog of [CallableTargets], whose names [Router]'s registry must know.
    [Backpressure] feeds the retry decision of [ErrorPolicy].

    The batch files share the state [BatchDb.db].  A statement is one atomic
    step, a transaction a step that undoes itself on an exception; processes
    interleave between steps.  [BatchItems] moves single items, [WorkClaim]
    claims slices of a job's items, [FairShare] chooses whose, [BatchOutbox]
    completes items and bills them, [BatchJobs] counts them and finalises the
    job, [LeaseSweep] takes leases back.  [BatchJobs.batch_step] is the whole
    system as one step relation, [BatchBilling.billing_step] the part that
    moves money.  [WorkerTurn.run_once] is one round of a worker: it asks
    [ModelCapacity] which model groups have capacity, claims from a flow
    ([FairShare], on a snapshot of [FlowSnapshot]) or from the group
    ([WorkClaim]), executes (a parameter), releases what is left, counts and
    finalises ([BatchArtifacts], which writes through [BatchStorage]); each
    statement comes with what others commit before it and with its fault.
    [Budget] reads the spend that [BatchBilling]'s ledger adds up.  A batch is
    born in a create session: [CreateSession] writes its requests through
    [StorageBackends] and inserts the row, [CreatePromotion] turns it into a job
    and items of [BatchDb.db] in one transaction, [CreateCleanup] removes what
    is left; [CreateLife.create_step] interleaves all of them with the batch
    system.  [CreateService.create_batch] is the client's call: it asks [Grants]
    for each line's model, stages and promotes, or answers for the session its
    idempotency key already has.  The chat items of a claimed slice are planned
    by [ChatPlan] into single calls and micro-batches; [ChatExecution] takes a
    lease of [RateLimitPolicy] for each item, reads the results with
    [ChatBatching], persists through [WorkerFailure] and [BatchOutbox], and
    hands failures to the failure handling of [WorkerFailure].

    ** What the theorems show

    - Admission: a multi-scope rate-limit check is all or nothing on Redis and
      locally alike; the checks built for a request satisfy its assumptions;
      without Redis slots never exceed the limit under any interleaving and are
      given back on every path (and which outage leaks one); the reported state
      and headers are those of the fullest check.
    - Runtime state: through any history of the degraded backend its active
      counts and cooldowns are those of an abstract one that forgets nothing
      ([degraded_refines_abstract]), although the pruner does; the dictionaries
      stay well formed; cooldowns last exactly their time; pruning removes
      exactly the stale entries.
    - Routing: only eligible deployments are selected, a cooled one never, each
      strategy meets its objective, weights are respected, and the registry
      holds configured deployments only.
    - Failover: chains are sound, calls are bounded, active counts balance on
      every path, a request's own fault stops the chain, failures trip the
      cooldown exactly above the threshold.
    - Errors: normalisation preserves the effect on health; the retry decisions
      before and after it differ exactly where [retry_diverges] says.
    - Money and usage: bills are finite, never negative and explained; cached
      tokens never cost more; splitting usage over a microbatch conserves it.
    - Access: the grant snapshot contains exactly what the rows grant, and a
      model is allowed exactly when the policy grants it; catalog targets can
      be routed.
    - Cache: the response cache is a bounded LRU map; a deferred model group
      stays deferred whatever Redis does.
    - Batch items: rows stay well formed, finished items never change, a worker
      whose claim was taken over can change nothing, and claiming drains a
      backlog.
    - Batch billing: through any interleaving, redelivery, lease loss and database
      fault every completed item is billed at most once, exactly once when its
      outbox row is sent, and the ledger is the sum of the spend log.
    - Batch scheduling: a claim takes a prefix of a claimable job's items within
      its limits and never exceeds the capacity; the ranking, refill and
      preview computed in Python are those of the SQL; deficits stay bounded,
      claims of queued jobs are paid for; and two ways in which a flow is never
      served.
    - Batch jobs: no reachable job is finalizing or terminal with work left, its
      counters are exact, a terminal job never changes again, an operator's
      verdict prevails (and how a race defeats it), and a sweep ends within its
      budget, takes only expired leases and, unless a statement of it fails,
      reclaims every one.
    - Batch worker: a round leaves no lease behind whether it returns or raises;
      a claim keeps to the capacity its group was selected with, however the
      queue changed since; an empty claim is diagnosed for what it is; an item
      that keeps failing is failed after at most [max_attempts] recorded failures
      (and which overflow records none); a group of completions is persisted
      entirely or requeued.
    - Chat items: the plan of a claim is an exact cover by compatible
      micro-batches and single calls, and the runners run each unit once within
      the limit of its deployment, until one raises and cancels the others;
      results go to the requests they answer, a
      completed item holds and bills the answer to its own request on every
      path, and the parallel slots taken come back (and which lost lease keeps
      them).
    - Artifacts: what is published is complete and readable line by line, in any
      chunking; a failed finalisation takes everything back and lets go of the
      batch (and how a lost acknowledgement unpublishes it).
    - Flows and capacity: the aggregates of a snapshot are exactly the runnable
      and the running work of each flow, their heads are what a claim would
      take; the selections are exactly the model groups with runnable jobs and
      room among their live deployments, and offer that room.
    - Create sessions: staging leaves a session with its artifact or nothing
      (unless the answer to its INSERT is lost, which leaves the row alone); a
      session is promoted at most once under any interleaving; what was staged
      becomes exactly the items of the batch, by a step of the batch system,
      within the limits of its scope and tenant; the cleanup never deletes the
      artifact of a live session (and which file name defeats it).
    - Batch requests: an idempotency key names one batch, whatever races; what is
      staged is one request per line, within the limits and allowed to the
      caller; an upload is recorded whole or leaves nothing, with the same
      exception; batches and files
      answer only to their owners (and the listing is wider than that).
    - Budgets: a request passes exactly when no scope has reached its limit;
      resets fall on the first date due, whatever the path to it, and each period
      closes once under concurrent checks.

    ** Conventions and bounds

    - Clock readings are integers in microseconds ([usec]); an operation reads
      the clock once unless the code between two readings can wait.  Python
      integers are unbounded, as [Z].  Floats are exact rationals with
      infinities and NaN ([pyfloat]); rounding is modelled where the code rounds
      ([Fl.round10]), not after each operation.  Strings are sequences of
      Latin-1 characters.
    - Redis, the upstream call, random draws, [exp], date parsing, JSON, hashes,
      the text of floats and the repositories' SQL are interfaces, arguments or
      section variables, with the documented laws as named hypotheses where a
      theorem needs them.  The Lua script of the rate limiter is code of the
      repository and is modelled over the server interface.
    - Outages are part of the client: a list that says for each coming round
      trip whether it fails, so theorems quantify over every pattern of them.
    - Fuel occurs in [Grants.read_pages], where every page but the last advances,
      so fuel above the number of rows is enough ([read_pages_honest]), and in
      [LeaseSweep.sweep_loop], where every pass but the last takes a row from the
      budget ([sweep_reclaims]), and in [Budget.month_reset_loop], where each
      round adds at least a month ([next_reset_is_first_due]).
      [Failover.attempts] counts its attempts down.
    - SQL is modelled statement by statement under READ COMMITTED with row locks:
      [held] predicates say which rows [SKIP LOCKED] skips.  Rows that an
      ORDER BY leaves tied keep the order of the list.  NOW() and fresh ids are
      arguments; SHA-256, [json.dumps] and [str] are section variables.
    - Where a theorem speaks of failing statements, each comes with a [fault]: it
      succeeds, it is rolled back, or it commits and its answer is lost.
    - Typed configuration values are taken as validated ([rpm] and [tpm] of
      deltallm_params, dataclass integers); a malformed free-form value raises
      as the conversion in the code does.

    ** Not modelled

    Task cancellation outside the pool of chat runners, logging and metrics; reading request bodies; HTTP and
    provider adapters; SQL of the other repositories; the preparation of
    chat items and the execution of embedding items, the heartbeat tasks (the
    leases they find lost are inputs) and the shadow decisions of the batch
    worker; the scheduler backfill; the validation of request bodies by
    pydantic; roles, MCP, prompts and guardrails: translation, I/O and SQL over
    the parts that are modelled. *)

From Stdlib Require Export ZArith QArith Lia Lqa String Ascii.
From stdpp Require Export base gmap strings list fin_maps.

(** QArith leaves [Q_scope] on top and Ascii its own: every file works in
    [Z_scope] over stdpp's. *)
Close Scope Q_scope.
Open Scope Z_scope.

Declare Scope py_scope.
Delimit Scope py_scope with py.
Open Scope py_scope.

Create HintDb py.
Create Rewrite HintDb py.

(** ** Results: a Python call returns a value or raises *)

Inductive res (E A : Type) : Type :=
  | Ret (a : A)
  | Raise (e : E).
Arguments Ret {E A} a.
Arguments Raise {E A} e.

#[export] Instance res_ret E : MRet (res E) := fun A a => Ret a.
#[export] Instance res_bind E : MBind (res E) := fun A B f m =>
  match m with Ret a => f a | Raise e => Raise e end.

Lemma res_bind_ret {E A B} (m : res E A) (f : A -> res E B) b :
  (m ≫= f) = Ret b -> exists a, m = Ret a /\ f a = Ret b.
Proof. destruct m as [a|e]; simpl; [eauto|discriminate]. Qed.

Lemma ret_inj {E A} (a b : A) : @Ret E A a = Ret b -> a = b.
Proof. by intros [= ->]. Qed.

Definition is_ret {E A} (r : res E A) : bool :=
  match r with Ret _ => true | Raise _ => false end.

(** ** State and exceptions: a raise keeps the mutations made before it *)

Definition st (S E A : Type) : Type := S -> S * res E A.

#[export] Instance st_ret S E : MRet (st S E) := fun A a s => (s, Ret a).
#[export] Instance st_bind S E : MBind (st S E) := fun A B f m s =>
  match m s with
  | (s', Ret a) => f a s'
  | (s', Raise e) => (s', Raise e)
  end.

Definition get_st {S E} : st S E S := fun s => (s, Ret s).
Definition put_st {S E} (s : S) : st S E unit := fun _ => (s, Ret tt).
Definition modify {S E} (f : S -> S) : st S E unit := fun s => (f s, Ret tt).
Definition raise {S E A} (e : E) : st S E A := fun s => (s, Raise e).

(** [try: m except Exception as e: h e] *)
Definition try_except {S E E' A} (m : st S E A) (h : E -> st S E' A) : st S E' A := fun s =>
  match m s with
  | (s', Ret a) => (s', Ret a)
  | (s', Raise e) => h e s'
  end.

(** [try: m finally: f]: an exception of [f] replaces the outcome of [m]. *)
Definition try_finally {S E A} (m : st S E A) (f : st S E unit) : st S E A := fun s =>
  match m s with
  | (s', r) => match f s' with
               | (s'', Ret _) => (s'', r)
               | (s'', Raise e) => (s'', Raise e)
               end
  end.

(** [for x in l: body x] *)
Fixpoint for_each {S E A} (l : list A) (body : A -> st S E unit) : st S E unit :=
  match l with
  | [] => mret tt
  | x :: l' => body x ≫= fun _ => for_each l' body
  end.

Section st_laws.
Context {S E A B : Type}.
Implicit Types (s : S).

Lemma bind_ret_inv (m : st S E A) (f : A -> st S E B) s s' b :
  (m ≫= f) s = (s', Ret b) ->
  exists s1 a, m s = (s1, Ret a) /\ f a s1 = (s', Ret b).
Proof.
  unfold mbind, st_bind. destruct (m s) as [s1 [a|e]]; [|discriminate].
  intros H. eauto.
Qed.

(** One step of a sequence. *)
Lemma bind_run (m : st S E A) (f : A -> st S E B) s s1 a : m s = (s1, Ret a) -> (m ≫= f) s = f a s1.
Proof. unfold mbind, st_bind. by intros ->. Qed.

Lemma bind_raise_inv (m : st S E A) (f : A -> st S E B) s s' e :
  (m ≫= f) s = (s', Raise e) ->
  m s = (s', Raise e) \/
  exists s1 a, m s = (s1, Ret a) /\ f a s1 = (s', Raise e).
Proof.
  unfold mbind, st_bind. destruct (m s) as [s1 [a|e1]]; intros H.
  - right. eauto.
  - left. simplify_eq. reflexivity.
Qed.

(** An invariant of the state kept by both halves is kept by the sequence. *)
Lemma bind_keeps (P : S -> Prop) (m : st S E A) (f : A -> st S E B) s :
  (forall s, P s -> P (fst (m s))) ->
  (forall a s, P s -> P (fst (f a s))) ->
  P s -> P (fst ((m ≫= f) s)).
Proof.
  intros Hm Hf Hs. unfold mbind, st_bind. specialize (Hm s Hs).
  destruct (m s) as [s1 [a|e]]; simpl in *; auto.
Qed.

(** Dropping the value keeps the state. *)
Lemma fst_bind_tt (m : st S E A) s : fst ((_ ← m; mret tt) s) = fst (m s).
Proof. unfold mbind, st_bind. by destruct (m s) as [s' [a|e]]. Qed.

(** So does mapping it. *)
Lemma fst_bind_ret {C} (m : st S E A) (f : A -> C) s : fst ((a ← m; mret (f a)) s) = fst (m s).
Proof. unfold mbind, st_bind. by destruct (m s) as [s' [a|e]]. Qed.
End st_laws.

Lemma for_each_keeps {S E A} (P : S -> Prop) (l : list A) (body : A -> st S E unit) s :
  (forall x s, x ∈ l -> P s -> P (fst (body x s))) ->
  P s -> P (fst (for_each l body s)).
Proof.
  revert s. induction l as [|x l IH]; intros s Hb Hs; [exact Hs|].
  simpl. apply bind_keeps; [|intros _ s' Hs'|exact Hs].
  - intros s' Hs'. apply Hb; [left|assumption].
  - apply IH; [|assumption]. intros y s1 Hy. apply Hb. right. exact Hy.
Qed.

(** ** Clock readings

    [time.time()] is read in integer microseconds. *)

Definition usec : Z := 1000000.

(** [int(t)] of a reading: whole seconds. *)
Definition secs (t : Z) : Z := t / usec.

(** [math.floor(t / window_seconds)] *)
Definition window_index (t window_seconds : Z) : Z := t / (window_seconds * usec).

(** ** Rational comparisons as booleans *)

Definition Qlt_bool (x y : Q) : bool := negb (Qle_bool y x).

Lemma Qlt_bool_iff x y : Qlt_bool x y = true <-> (x < y)%Q.
Proof.
  unfold Qlt_bool. rewrite negb_true_iff, <- not_true_iff_false, Qle_bool_iff.
  split; [apply Qnot_le_lt | apply Qlt_not_le].
Qed.

Lemma Qlt_bool_false x y : Qlt_bool x y = false <-> (y <= x)%Q.
Proof. rewrite <- not_true_iff_false, Qlt_bool_iff. split; [apply Qnot_lt_le | apply Qle_not_lt]. Qed.

(** ** Sums *)

Definition zsum (l : list Z) : Z := foldr Z.add 0 l.

Lemma zsum_cons x l : zsum (x :: l) = x + zsum l.
Proof. reflexivity. Qed.

Lemma zsum_app l1 l2 : zsum (l1 ++ l2) = zsum l1 + zsum l2.
Proof. induction l1 as [|x l1 IH]; [reflexivity|]. rewrite <- app_comm_cons, !zsum_cons, IH. lia. Qed.

Lemma zsum_nonneg l : Forall (fun x => 0 <= x) l -> 0 <= zsum l.
Proof. induction 1; [reflexivity|]. rewrite zsum_cons. lia. Qed.

Lemma zsum_replicate n x : zsum (replicate n x) = Z.of_nat n * x.
Proof. induction n as [|n IH]; cbn [replicate]; [reflexivity|]. rewrite zsum_cons, IH. lia. Qed.

Lemma zsum_perm l1 l2 : l1 ≡ₚ l2 -> zsum l1 = zsum l2.
Proof. induction 1; rewrite ?zsum_cons; lia. Qed.

#[export] Instance zsum_proper : Proper ((≡ₚ) ==> (=)) zsum.
Proof. exact zsum_perm. Qed.

(** ** Lists *)

Lemma NoDup_map_inj {A B} (f : A -> B) (l : list A) x y :
  NoDup (map f l) -> x ∈ l -> y ∈ l -> f x = f y -> x = y.
Proof.
  intros Hnd Hx Hy Heq. apply list_elem_of_lookup in Hx as [i Hi], Hy as [j Hj].
  pose proof (NoDup_lookup (map f l) i j (f x) Hnd) as Hij.
  rewrite !list_lookup_fmap, Hi, Hj in Hij. simpl in Hij. rewrite Heq in Hij.
  specialize (Hij eq_refl eq_refl). congruence.
Qed.

Lemma find_none_forall {A} (p : A -> bool) l x : find p l = None -> x ∈ l -> p x = false.
Proof. intros H Hx. by apply (find_none p l H), list_elem_of_In. Qed.

(** Number of elements satisfying a test, in [Z]. *)
Definition cnt {A} (p : A -> bool) (l : list A) : Z := zsum (map (fun x => if p x then 1 else 0) l).

Lemma cnt_cons {A} (p : A -> bool) x l : cnt p (x :: l) = (if p x then 1 else 0) + cnt p l.
Proof. reflexivity. Qed.

Lemma cnt_nonneg {A} (p : A -> bool) l : 0 <= cnt p l.
Proof. apply zsum_nonneg, Forall_fmap, Forall_true. intros x. simpl. case_match; lia. Qed.

Lemma cnt_app {A} (p : A -> bool) l1 l2 : cnt p (l1 ++ l2) = cnt p l1 + cnt p l2.
Proof. unfold cnt. by rewrite map_app, zsum_app. Qed.

Lemma cnt_insert {A} (p : A -> bool) l i x y :
  l !! i = Some x ->
  cnt p (<[i := y]> l) = cnt p l - (if p x then 1 else 0) + (if p y then 1 else 0).
Proof.
  revert i. induction l as [|z l IH]; intros [|i] Hi; simplify_eq/=; rewrite !cnt_cons; [lia|].
  rewrite (IH i) by done. lia.
Qed.

Lemma cnt_zero {A} (p : A -> bool) l : (forall x, x ∈ l -> p x = false) -> cnt p l = 0.
Proof.
  induction l as [|x l IH]; intros Hp; [done|]. rewrite cnt_cons, (Hp x) by left.
  rewrite IH; [done|]. intros y Hy. apply Hp. by right.
Qed.

Lemma sublist_elem {A} (l1 l2 : list A) x : sublist l1 l2 -> x ∈ l1 -> x ∈ l2.
Proof. induction 1; set_solver. Qed.
