(* ===== verification/PyVal.v ===== *)
(** * Python values

    The dynamically typed values the gateway reads from JSON bodies, model
    metadata and settings, with the built-in operations its code applies to
    them: truth value, [or], [dict.get], [int()], [float()], [str.strip],
    [str.lower], [str.startswith] and the like.  Strings are sequences of
    Latin-1 code points; floats are exact rationals with the infinities and
    NaN apart, and dictionaries are association lists in insertion order. *)

From S2P Require Import Prelude.

(** ** Strings *)

Module Str.

(** [str.isspace] of a code point below 256. *)
Definition isspace (a : ascii) : bool :=
  let n := nat_of_ascii a in
  (((9 <=? n) && (n <=? 13)) || ((28 <=? n) && (n <=? 32)) || (n =? 133) || (n =? 160))%nat.

Fixpoint drop_while (p : ascii -> bool) (l : list ascii) : list ascii :=
  match l with
  | [] => []
  | a :: l' => if p a then drop_while p l' else l
  end.

Definition strip_list (l : list ascii) : list ascii :=
  reverse (drop_while isspace (reverse (drop_while isspace l))).

Definition strip (s : string) : string :=
  string_of_list_ascii (strip_list (list_ascii_of_string s)).

(** [str.lower] of a code point below 256. *)
Definition lower_ascii (a : ascii) : ascii :=
  let n := nat_of_ascii a in
  if (((65 <=? n) && (n <=? 90)) || ((192 <=? n) && (n <=? 222) && negb (n =? 215)))%nat
  then ascii_of_nat (n + 32) else a.

Definition lower (s : string) : string :=
  string_of_list_ascii (map lower_ascii (list_ascii_of_string s)).

Definition is_empty (s : string) : bool := String.eqb s "".

Definition startswith (s pre : string) : bool := String.prefix pre s.

Definition rev (s : string) : string :=
  string_of_list_ascii (reverse (list_ascii_of_string s)).

Definition endswith (s suf : string) : bool := String.prefix (rev suf) (rev s).

(** [s[:-1]] *)
Definition drop_last (s : string) : string :=
  String.substring 0 (String.length s - 1) s.

(** [s[n:]] *)
Definition drop (n : nat) (s : string) : string :=
  String.substring n (String.length s - n) s.

(** [s[:n]] *)
Definition take (n : nat) (s : string) : string := String.substring 0 n s.

(** [pat in s] *)
Fixpoint contains (pat s : string) : bool :=
  String.prefix pat s ||
  match s with
  | EmptyString => false
  | String _ s' => contains pat s'
  end.

(** [str.split(c)] on one character. *)
Fixpoint split_aux (c : ascii) (cur s : list ascii) : list (list ascii) :=
  match s with
  | [] => [reverse cur]
  | a :: s' => if Ascii.eqb a c then reverse cur :: split_aux c [] s' else split_aux c (a :: cur) s'
  end.
Definition split (c : ascii) (s : string) : list string :=
  map string_of_list_ascii (split_aux c [] (list_ascii_of_string s)).

(** [str(n)] of an integer. *)
Fixpoint digits_aux (fuel : nat) (n : Z) (acc : string) : string :=
  match fuel with
  | O => acc
  | S f =>
    let acc' := String (ascii_of_nat (48 + Z.to_nat (n mod 10))) acc in
    if n <? 10 then acc' else digits_aux f (n / 10) acc'
  end.
Definition of_Z (n : Z) : string :=
  let a := Z.abs n in
  let d := digits_aux (S (Z.to_nat (Z.log2 (a + 1)))) a "" in
  if n <? 0 then String "-" d else d.

Definition join (sep : string) (l : list string) : string := String.concat sep l.

End Str.

Section strip_lemmas.
Implicit Types (l : list ascii) (s : string).

Lemma drop_while_idemp p l : Str.drop_while p (Str.drop_while p l) = Str.drop_while p l.
Proof. induction l as [|a l IH]; simpl; [done|]. destruct (p a) eqn:E; [done|]. simpl. by rewrite E. Qed.

Lemma drop_while_snoc p l a : p a = false -> Str.drop_while p (l ++ [a]) = Str.drop_while p l ++ [a].
Proof. intros H. induction l as [|b l IH]; simpl; [by rewrite H|]. by destruct (p b). Qed.

(** What [drop_while] leaves is empty or starts with a kept element. *)
Lemma drop_while_head p l :
  Str.drop_while p l = [] \/ exists a l', Str.drop_while p l = a :: l' /\ p a = false.
Proof. induction l as [|a l IH]; simpl; [by left|]. destruct (p a) eqn:E; [done|]. right; eauto. Qed.

Lemma drop_while_fixed p l a l' : l = a :: l' -> p a = false -> Str.drop_while p l = l.
Proof. intros -> H. simpl. by rewrite H. Qed.

Lemma drop_while_rstrip p l :
  Str.drop_while p (reverse (Str.drop_while p (reverse (Str.drop_while p l))))
  = reverse (Str.drop_while p (reverse (Str.drop_while p l))).
Proof.
  destruct (drop_while_head p l) as [->|(a & l' & -> & Ha)]; [done|].
  rewrite reverse_cons, drop_while_snoc by done.
  rewrite reverse_snoc. by rewrite (drop_while_fixed _ _ a (reverse (Str.drop_while p (reverse l')))).
Qed.

Lemma strip_list_idemp l : Str.strip_list (Str.strip_list l) = Str.strip_list l.
Proof.
  unfold Str.strip_list. by rewrite drop_while_rstrip, reverse_involutive, drop_while_rstrip.
Qed.

Lemma strip_idemp s : Str.strip (Str.strip s) = Str.strip s.
Proof. unfold Str.strip. rewrite list_ascii_of_string_of_list_ascii. by rewrite strip_list_idemp. Qed.
(** A prefix is recognised and cut off. *)
Lemma startswith_app s t : Str.startswith (s ++ t)%string s = true.
Proof. unfold Str.startswith. induction s as [|a s IH]; simpl; [by destruct t|]. by destruct (ascii_dec a a). Qed.

Lemma substring_whole s : String.substring 0 (String.length s) s = s.
Proof. induction s as [|a s IH]; simpl; congruence. Qed.

Lemma length_app_string (s t : string) : String.length (s ++ t)%string = (String.length s + String.length t)%nat.
Proof. induction s as [|a s IH]; simpl; [done|]. by rewrite IH. Qed.

Lemma drop_app_length (s t : string) : Str.drop (String.length s) (s ++ t)%string = t.
Proof.
  unfold Str.drop. rewrite length_app_string. replace (_ + _ - _)%nat with (String.length t) by lia.
  induction s as [|a s IH]; simpl; [apply substring_whole|done].
Qed.
End strip_lemmas.
#[export] Hint Rewrite strip_idemp : py.

(** ** Values *)

Inductive pyfloat : Type :=
  | FFin (q : Q)
  | FInf (negative : bool)
  | FNaN.

Inductive pyval : Type :=
  | PyNone
  | PyBool (b : bool)
  | PyInt (z : Z)
  | PyFloat (f : pyfloat)
  | PyStr (s : string)
  | PyList (l : list pyval)
  | PyDict (d : list (string * pyval)).

(** What the conversions raise. *)
Inductive pyexc : Type := TypeError | ValueError | OverflowError.
#[export] Instance pyexc_eq_dec : EqDecision pyexc.
Proof. solve_decision. Defined.

Definition truthy (v : pyval) : bool :=
  match v with
  | PyNone => false
  | PyBool b => b
  | PyInt z => negb (z =? 0)
  | PyFloat (FFin q) => negb (Qeq_bool q 0)
  | PyFloat _ => true
  | PyStr s => negb (Str.is_empty s)
  | PyList l => match l with [] => false | _ => true end
  | PyDict d => match d with [] => false | _ => true end
  end.

(** [v or d] *)
Definition py_or (v d : pyval) : pyval := if truthy v then v else d.

Definition is_none (v : pyval) : bool := match v with PyNone => true | _ => false end.

(** [isinstance(v, int)] holds of booleans too. *)
Definition is_int (v : pyval) : bool := match v with PyInt _ | PyBool _ => true | _ => false end.
Definition is_str (v : pyval) : bool := match v with PyStr _ => true | _ => false end.
Definition is_list (v : pyval) : bool := match v with PyList _ => true | _ => false end.

(** ** Dictionaries in insertion order *)

Section dict.
Context {V : Type}.
Implicit Types (d : list (string * V)) (k : string) (v : V).

Fixpoint dict_get d k : option V :=
  match d with
  | [] => None
  | (k', v) :: d' => if String.eqb k' k then Some v else dict_get d' k
  end.

(** [d[k] = v] keeps the place of a present key and appends a new one. *)
Fixpoint dict_set d k v : list (string * V) :=
  match d with
  | [] => [(k, v)]
  | (k', v') :: d' => if String.eqb k' k then (k', v) :: d' else (k', v') :: dict_set d' k v
  end.

(** [d.pop(k, None)] *)
Fixpoint dict_pop d k : list (string * V) :=
  match d with
  | [] => []
  | (k', v') :: d' => if String.eqb k' k then d' else (k', v') :: dict_pop d' k
  end.

Definition dict_has d k : bool := match dict_get d k with Some _ => true | None => false end.

Lemma dict_get_set d k v : dict_get (dict_set d k v) k = Some v.
Proof.
  induction d as [|[k' v'] d IH]; simpl; [by rewrite String.eqb_refl|].
  destruct (String.eqb k' k) eqn:E; simpl; by rewrite E.
Qed.

Lemma dict_get_set_ne d k k' v : k <> k' -> dict_get (dict_set d k v) k' = dict_get d k'.
Proof.
  intros Hne. induction d as [|[k1 v1] d IH]; simpl.
  - destruct (String.eqb_spec k k'); [done|reflexivity].
  - destruct (String.eqb_spec k1 k) as [->|]; simpl.
    + destruct (String.eqb_spec k k'); [done|reflexivity].
    + destruct (String.eqb k1 k'); auto.
Qed.

Lemma dict_get_elem d k v : dict_get d k = Some v -> (k, v) ∈ d.
Proof.
  induction d as [|[k' v'] d IH]; simpl; [done|].
  destruct (String.eqb_spec k' k) as [->|]; intros H; [simplify_eq; left|right; auto].
Qed.

Lemma dict_get_None d k : dict_get d k = None <-> k ∉ map fst d.
Proof.
  induction d as [|[k' v'] d IH]; simpl; [split; [intros _; apply not_elem_of_nil|done]|].
  rewrite not_elem_of_cons. destruct (String.eqb_spec k' k) as [->|]; [naive_solver|].
  rewrite IH. naive_solver.
Qed.
End dict.
#[export] Hint Rewrite @dict_get_set : py.

(** [d.get(k)] on a value that is a dictionary. *)
Definition vget (d : list (string * pyval)) (k : string) : pyval :=
  match dict_get d k with Some v => v | None => PyNone end.

(** [d.get(k, default)] *)
Definition vget_or (d : list (string * pyval)) (k : string) (dflt : pyval) : pyval :=
  match dict_get d k with Some v => v | None => dflt end.

(** ** Conversions *)

Definition Qtrunc (q : Q) : Z := Z.quot (Qnum q) (Zpos (Qden q)).

Definition is_digit (a : ascii) : bool :=
  let n := nat_of_ascii a in ((48 <=? n) && (n <=? 57))%nat.
Definition digit_val (a : ascii) : Z := Z.of_nat (nat_of_ascii a) - 48.

(** Digits with single underscores between them; returns the value, the number
    of digits and what follows. *)
Fixpoint digits_tail (l : list ascii) (acc : Z) (n : nat) : Z * nat * list ascii :=
  match l with
  | a :: ((b :: l'') as l') =>
    if is_digit a then digits_tail l' (acc * 10 + digit_val a) (S n)
    else if Ascii.eqb a "_" && is_digit b then digits_tail l' acc n
    else (acc, n, l)
  | [a] => if is_digit a then (acc * 10 + digit_val a, S n, []) else (acc, n, l)
  | [] => (acc, n, [])
  end.
Definition digits_part (l : list ascii) : option (Z * nat * list ascii) :=
  match l with
  | a :: l' => if is_digit a then Some (digits_tail l' (digit_val a) 1) else None
  | [] => None
  end.

Definition sign_part (l : list ascii) : bool * list ascii :=
  match l with
  | a :: l' => if Ascii.eqb a "-" then (true, l') else if Ascii.eqb a "+" then (false, l') else (false, l)
  | [] => (false, l)
  end.

(** [int(s)] in base ten. *)
Definition int_of_string (s : string) : res pyexc Z :=
  let '(neg, l) := sign_part (Str.strip_list (list_ascii_of_string s)) in
  match digits_part l with
  | Some (n, _, []) => Ret (if neg then - n else n)
  | _ => Raise ValueError
  end.

Definition py_int (v : pyval) : res pyexc Z :=
  match v with
  | PyInt z => Ret z
  | PyBool b => Ret (if b then 1 else 0)
  | PyFloat (FFin q) => Ret (Qtrunc q)
  | PyFloat (FInf _) => Raise OverflowError
  | PyFloat FNaN => Raise ValueError
  | PyStr s => int_of_string s
  | PyNone | PyList _ | PyDict _ => Raise TypeError
  end.

(** The least magnitude that rounds out of the double range. *)
Definition float_overflow : Z := 2 ^ 1024 - 2 ^ 970.

Definition pow10 (e : Z) : Q :=
  if 0 <=? e then inject_Z (10 ^ e) else (/ inject_Z (10 ^ (- e)))%Q.

Definition float_of_decimal (neg : bool) (mant e : Z) : pyfloat :=
  let q := Qred (inject_Z mant * pow10 e)%Q in
  if Qle_bool (inject_Z float_overflow) q then FInf neg else FFin (if neg then Qopp q else q).

(** The exponent part: nothing, or [e] with a signed integer to the end. *)
Definition exponent_part (l : list ascii) : option Z :=
  match l with
  | [] => Some 0
  | a :: l' =>
    if Ascii.eqb a "e" then
      let '(neg, l'') := sign_part l' in
      match digits_part l'' with
      | Some (n, _, []) => Some (if neg then - n else n)
      | _ => None
      end
    else None
  end.

(** [float(s)]: [inf], [infinity], [nan] and decimal literals. *)
Definition float_of_string (s : string) : res pyexc pyfloat :=
  let '(neg, l) := sign_part (map Str.lower_ascii (Str.strip_list (list_ascii_of_string s))) in
  let word := string_of_list_ascii l in
  if (String.eqb word "inf" || String.eqb word "infinity")%bool then Ret (FInf neg)
  else if String.eqb word "nan" then Ret FNaN
  else
    let '(ip, rest) := match digits_part l with
                       | Some (n, _, r) => (Some n, r)
                       | None => (None, l)
                       end in
    let '(fp, rest') := match rest with
                        | a :: r => if Ascii.eqb a "." then
                                      match digits_part r with
                                      | Some (n, k, r') => (Some (n, k), r')
                                      | None => (None, r)
                                      end
                                    else (None, rest)
                        | [] => (None, rest)
                        end in
    match ip, fp, exponent_part rest' with
    | None, None, _ | _, _, None => Raise ValueError
    | _, _, Some e =>
      let i := default 0 ip in
      let '(f, k) := default (0, 0%nat) fp in
      Ret (float_of_decimal neg (i * 10 ^ Z.of_nat k + f) (e - Z.of_nat k))
    end.

Definition py_float (v : pyval) : res pyexc pyfloat :=
  match v with
  | PyInt z => if float_overflow <=? Z.abs z then Raise OverflowError else Ret (FFin (inject_Z z))
  | PyBool b => Ret (FFin (if b then 1 else 0)%Q)
  | PyFloat f => Ret f
  | PyStr s => float_of_string s
  | PyNone | PyList _ | PyDict _ => Raise TypeError
  end.

Example int_of_string_ex : int_of_string " -1_024 " = Ret (-1024).
Proof. reflexivity. Qed.
Example float_of_string_ex : float_of_string "2.50e1" = Ret (FFin 25).
Proof. reflexivity. Qed.
Example float_of_string_bad : float_of_string "1.2.3" = Raise ValueError.
Proof. reflexivity. Qed.
