(* ===== verification/Errors.v ===== *)
(** * Exceptions of the gateway

    The [ProxyError] hierarchy of [src/models/errors.py] (with
    [GuardrailViolationError] of [src/guardrails/exceptions.py]), the httpx
    exceptions the routing code catches, and the remaining exception types it
    tells apart, as one type [exn]; attribute reads by [getattr] are functions
    on it. *)

From S2P Require Import Prelude PyVal.

(** ** The ProxyError classes *)

Inductive proxy_class : Type :=
  | ProxyError
  | AuthenticationError
  | RateLimitError
  | BudgetExceededError
  | ModelNotFoundError
  | ProxyTimeoutError
  | InvalidRequestError
  | PermissionDeniedError
  | ApprovalRequiredError
  | ServiceUnavailableError
  | GatewayCapacityError
  | GuardrailViolationError.

#[export] Instance proxy_class_eq_dec : EqDecision proxy_class.
Proof. solve_decision. Defined.

(** [isinstance] between the classes: only [GatewayCapacityError] has a proper
    parent other than [ProxyError]. *)
Definition subclass (c d : proxy_class) : bool :=
  bool_decide (d = ProxyError) || bool_decide (c = d)
  || (bool_decide (c = GatewayCapacityError) && bool_decide (d = ServiceUnavailableError)).

Definition class_status_code (c : proxy_class) : Z :=
  match c with
  | ProxyError => 500
  | AuthenticationError => 401
  | RateLimitError => 429
  | BudgetExceededError => 429
  | ModelNotFoundError => 404
  | ProxyTimeoutError => 408
  | InvalidRequestError => 400
  | PermissionDeniedError => 403
  | ApprovalRequiredError => 409
  | ServiceUnavailableError | GatewayCapacityError => 503
  | GuardrailViolationError => 400
  end.

Definition class_error_type (c : proxy_class) : string :=
  match c with
  | ProxyError => "server_error"
  | AuthenticationError => "authentication_error"
  | RateLimitError => "rate_limit_error"
  | BudgetExceededError => "budget_exceeded"
  | ModelNotFoundError => "model_not_found"
  | ProxyTimeoutError => "timeout_error"
  | InvalidRequestError => "invalid_request_error"
  | PermissionDeniedError => "permission_denied"
  | ApprovalRequiredError => "approval_required"
  | ServiceUnavailableError => "service_unavailable"
  | GatewayCapacityError => "gateway_capacity_error"
  | GuardrailViolationError => "guardrail_violation"
  end.

Definition class_message (c : proxy_class) : string :=
  match c with
  | ProxyError => "Internal server error"
  | AuthenticationError => "Invalid API key"
  | RateLimitError => "Rate limit exceeded"
  | BudgetExceededError => "Budget exceeded"
  | ModelNotFoundError => "Model not found"
  | ProxyTimeoutError => "Request timeout"
  | InvalidRequestError => "Invalid request"
  | PermissionDeniedError => "Permission denied"
  | ApprovalRequiredError => "Approval required"
  | ServiceUnavailableError => "Service unavailable"
  | GatewayCapacityError => "Gateway upstream connection pool exhausted"
  | GuardrailViolationError => "Guardrail violation"
  end.

Record proxy_error : Type := {
  pe_class : proxy_class;
  pe_status_code : Z;
  pe_message : string;
  pe_param : option string;
  pe_code : option string;
  pe_affects : option bool;
  pe_retry_after : option Z
}.

(** [ProxyError.__init__]: an empty or absent message is the class's. *)
Definition mk_proxy (c : proxy_class) (message param code : option string)
    (affects_deployment_health : option bool) (retry_after : option Z) : proxy_error :=
  {| pe_class := c;
     pe_status_code := class_status_code c;
     pe_message := match message with
                   | Some m => if Str.is_empty m then class_message c else m
                   | None => class_message c
                   end;
     pe_param := param;
     pe_code := code;
     pe_affects := affects_deployment_health;
     pe_retry_after := retry_after |}.

Definition mkRateLimitError (message param code : option string) (affects : option bool)
    (retry_after : option Z) : proxy_error :=
  mk_proxy RateLimitError message param code affects retry_after.

(** [kwargs.setdefault] fills the code and the health flag only when absent. *)
Definition mkGatewayCapacityError (message : option string) (code : option (option string))
    (affects : option (option bool)) : proxy_error :=
  mk_proxy GatewayCapacityError message None (default (Some "upstream_pool_timeout") code)
    (default (Some false) affects) None.

(** [GuardrailViolationError.__init__] sets its status on the instance. *)
Definition mkGuardrailViolationError (message : string) (violation_type : option string)
    (status_code : Z) (code : string) : proxy_error :=
  let p := mk_proxy GuardrailViolationError (Some message) violation_type (Some code) None None in
  {| pe_class := pe_class p; pe_status_code := status_code; pe_message := pe_message p;
     pe_param := pe_param p; pe_code := pe_code p; pe_affects := pe_affects p;
     pe_retry_after := pe_retry_after p |}.

Definition NO_HEALTHY_DEPLOYMENTS_CODE : string := "no_healthy_deployments".

(** ** Exceptions *)

(** What the code reads of an [httpx.Response]: its status, its text, the text
    its bytes decode to, its JSON body when it parses, and one header. *)
Record http_response : Type := {
  resp_status : Z;
  resp_text : string;
  resp_content : string;
  resp_json : option pyval;
  resp_retry_after : option string
}.

(** httpx errors without a response. *)
Inductive httpx_kind : Type :=
  | PoolTimeout
  | OtherTimeout      (* ConnectTimeout, ReadTimeout, WriteTimeout *)
  | OtherTransport    (* NetworkError, ProtocolError, ProxyError, UnsupportedProtocol *)
  | OtherRequest.     (* DecodingError, TooManyRedirects *)

#[export] Instance httpx_kind_eq_dec : EqDecision httpx_kind.
Proof. solve_decision. Defined.

(** Any other exception, with the attributes [getattr] may find on it. *)
Record other_exn : Type := {
  oe_message : string;
  oe_status_code : option Z;
  oe_response_status : option Z;
  oe_error_type : option string;
  oe_affects : option bool
}.

Inductive exn : Type :=
  | EProxy (p : proxy_error)
  | EHttp (k : httpx_kind) (message : string)
  | EHttpStatus (message : string) (r : http_response)
  | EAsyncioTimeout
  | EModelGroupDeferred (message : string) (retry_after_seconds : Z)
  | EResponseShape (message : string)
  | EOther (o : other_exn).

(** [str(exc)] *)
Definition exn_str (e : exn) : string :=
  match e with
  | EProxy p => pe_message p
  | EHttp _ m | EHttpStatus m _ => m
  | EAsyncioTimeout => ""
  | EModelGroupDeferred m _ | EResponseShape m => m
  | EOther o => oe_message o
  end.

Definition is_proxy (c : proxy_class) (e : exn) : bool :=
  match e with EProxy p => subclass (pe_class p) c | _ => false end.

(** [isinstance(e, httpx.TimeoutException)] *)
Definition is_httpx_timeout (e : exn) : bool :=
  match e with EHttp PoolTimeout _ | EHttp OtherTimeout _ => true | _ => false end.

(** [isinstance(e, httpx.TransportError)]: timeouts are transport errors. *)
Definition is_httpx_transport (e : exn) : bool :=
  match e with EHttp PoolTimeout _ | EHttp OtherTimeout _ | EHttp OtherTransport _ => true | _ => false end.

(** [getattr(exc, "status_code", None)] *)
Definition attr_status_code (e : exn) : option Z :=
  match e with
  | EProxy p => Some (pe_status_code p)
  | EOther o => oe_status_code o
  | _ => None
  end.

(** [getattr(exc, "error_type", None)] *)
Definition attr_error_type (e : exn) : option string :=
  match e with
  | EProxy p => Some (class_error_type (pe_class p))
  | EOther o => oe_error_type o
  | _ => None
  end.

(** [getattr(exc, "affects_deployment_health", None)] *)
Definition attr_affects (e : exn) : option bool :=
  match e with
  | EProxy p => pe_affects p
  | EOther o => oe_affects o
  | _ => None
  end.

(** [getattr(exc.response, "status_code", None)] *)
Definition attr_response_status (e : exn) : option Z :=
  match e with
  | EHttpStatus _ r => Some (resp_status r)
  | EOther o => oe_response_status o
  | _ => None
  end.

(** ** Retry-After headers *)

Section retry_after.
(** [email.utils.parsedate_to_datetime], as the microsecond instant (UTC) of
    an HTTP date; [None] when it raises. *)
Variable parsedate : string -> option Z.

(** [math.ceil] of a quotient. *)
Definition ceil_div (n d : Z) : Z := - ((- n) / d).
Definition Qceil (q : Q) : Z := ceil_div (Qnum q) (Zpos (Qden q)).

Definition parse_retry_after_header (now : Z) (value : option string) : option Z :=
  match value with
  | None => None
  | Some v =>
    let normalized := Str.strip v in
    if Str.is_empty normalized then None else
    match float_of_string normalized with
    | Ret (FFin q) => Some (Z.max 0 (Qceil q))
    | _ =>
      match parsedate normalized with
      | None => None
      | Some retry_at => Some (Z.max 0 (ceil_div (retry_at - now) usec))
      end
    end
  end.

Lemma parse_retry_after_nonneg now v n : parse_retry_after_header now v = Some n -> 0 <= n.
Proof.
  unfold parse_retry_after_header. intros H.
  repeat case_match; simplify_eq; lia.
Qed.
End retry_after.
