(* ===== verification/ErrorPolicy.v ===== *)
(** * Error policies

    Which failures count against a deployment's health
    ([src/router/health_policy.py]), how the failover manager classifies and
    normalises them ([src/router/failover.py]), and which ones the batch
    worker retries ([src/batch/retry.py]). *)

From S2P Require Import Prelude PyVal Errors.

(** ** src/router/health_policy.py *)

Module HealthPolicy.

Definition exception_status_code (e : exn) : option Z :=
  match attr_status_code e with
  | Some n => Some n
  | None => attr_response_status e
  end.

Definition is_request_side_client_error (e : exn) : bool :=
  match attr_affects e with
  | Some false => true
  | _ =>
    if is_proxy InvalidRequestError e then true else
    match exception_status_code e with
    | Some n => (400 <=? n) && (n <? 500) && negb (n =? 429)
    | None => false
    end
  end.

Definition affects_deployment_health (e : exn) : bool :=
  match attr_affects e with
  | Some b => b
  | None =>
    match e with
    | EHttp PoolTimeout _ => false
    | EHttp OtherTimeout _ => true
    | EHttpStatus _ _ => negb (is_request_side_client_error e)
    | EHttp OtherTransport _ => true
    | EProxy p => bool_decide (pe_class p = ProxyTimeoutError)
    | _ =>
      match exception_status_code e with
      | Some n => (n =? 429) || (500 <=? n)
      | None => true
      end
    end
  end.

End HealthPolicy.

(** ** ErrorClassification, RetryPolicy and error normalisation of src/router/failover.py *)

Module FailoverErrors.
Import HealthPolicy.

Inductive classification : Type :=
  | CONTEXT_WINDOW | CONTENT_POLICY | RATE_LIMIT | TIMEOUT | GENERIC.

#[export] Instance classification_eq_dec : EqDecision classification.
Proof. solve_decision. Defined.

Definition classification_value (c : classification) : string :=
  match c with
  | CONTEXT_WINDOW => "context_window_exceeded"
  | CONTENT_POLICY => "content_policy_violation"
  | RATE_LIMIT => "rate_limit"
  | TIMEOUT => "timeout"
  | GENERIC => "generic"
  end.

Definition context_window_patterns : list string :=
  ["context_length_exceeded"; "context window"; "maximum context length"; "max_tokens";
   "token limit"; "too many tokens"; "input is too long"; "maximum allowed length";
   "request too large"].

Definition content_policy_patterns : list string :=
  ["content_policy_violation"; "content_filter"; "content management policy"; "safety system";
   "harmful content"; "violates our usage policies"; "flagged by our content filter";
   "responsible ai policy"].

(** [_extract_error_body]: the text of the response, if there is one. *)
Definition extract_error_body (e : exn) : option string :=
  match e with
  | EHttpStatus _ r => Some (resp_text r)
  | _ => None
  end.

Definition classify (e : exn) : classification :=
  if is_httpx_timeout e || is_proxy ProxyTimeoutError e then TIMEOUT
  else if bool_decide (attr_status_code e = Some 429)
          || bool_decide (attr_error_type e = Some "rate_limit_error"%string) then RATE_LIMIT
  else
    let error_text :=
      match extract_error_body e with
      | Some body => if Str.is_empty body then Str.lower (exn_str e) else Str.lower body
      | None => Str.lower (exn_str e)
      end in
    if existsb (fun p => Str.contains p error_text) context_window_patterns then CONTEXT_WINDOW
    else if existsb (fun p => Str.contains p error_text) content_policy_patterns then CONTENT_POLICY
    else GENERIC.

Definition retryable_status_codes : list Z := [408; 429; 502; 503; 504].
Definition retryable_error_types : list string :=
  ["timeout_error"; "rate_limit_error"; "service_unavailable"].

Definition is_retryable (e : exn) : bool :=
  if is_httpx_timeout e || is_proxy ProxyTimeoutError e then true
  else if match attr_status_code e with
          | Some n => existsb (Z.eqb n) retryable_status_codes
          | None => false
          end then true
  else match attr_error_type e with
       | Some t => existsb (String.eqb t) retryable_error_types
       | None => false
       end.

(** The first non-blank string under the given keys of an error payload. *)
Fixpoint first_message (d : list (string * pyval)) (keys : list string) : option string :=
  match keys with
  | [] => None
  | k :: keys' =>
    match vget d k with
    | PyStr m => if Str.is_empty (Str.strip m) then first_message d keys' else Some (Str.strip m)
    | _ => first_message d keys'
    end
  end.

(** [payload["error"]]'s message, or the string it is, or the payload's own. *)
Definition payload_message (payload : option pyval) : option string :=
  match payload with
  | Some (PyDict d) =>
    let nested :=
      match vget d "error" with
      | PyDict ne => first_message ne ["message"; "detail"]%string
      | PyStr s => if Str.is_empty (Str.strip s) then None else Some (Str.strip s)
      | _ => None
      end in
    match nested with
    | Some m => Some m
    | None => first_message d ["message"; "detail"]%string
    end
  | _ => None
  end.

Definition http_error_message (e : exn) : string :=
  match e with
  | EHttpStatus m r =>
    match payload_message (resp_json r) with
    | Some msg => msg
    | None =>
      let body := Str.strip (resp_text r) in
      if negb (Str.is_empty body) then body else
      let decoded := Str.strip (resp_content r) in
      if negb (Str.is_empty decoded) then decoded else m
    end
  | _ => exn_str e
  end.

(** [isinstance(error, httpx.HTTPError)] *)
Definition is_http_error (e : exn) : bool :=
  match e with EHttp _ _ | EHttpStatus _ _ => true | _ => false end.

Section normalize.
Variable parsedate : string -> option Z.

Definition normalize_http_error (now : Z) (e : exn) : proxy_error :=
  match e with
  | EHttp PoolTimeout _ => mkGatewayCapacityError None None None
  | EHttp OtherTimeout m => mk_proxy ProxyTimeoutError (Some m) None None (Some true) None
  | _ =>
    match e with
    | EHttpStatus _ r =>
      if resp_status r =? 429 then
        mkRateLimitError (Some (http_error_message e)) None None (Some true)
          (parse_retry_after_header parsedate now (resp_retry_after r))
      else if affects_deployment_health e then
        mk_proxy ServiceUnavailableError (Some (exn_str e)) None None (Some true) None
      else mk_proxy InvalidRequestError (Some (http_error_message e)) None None (Some false) None
    | _ =>
      if affects_deployment_health e then
        mk_proxy ServiceUnavailableError (Some (exn_str e)) None None (Some true) None
      else mk_proxy InvalidRequestError (Some (http_error_message e)) None None (Some false) None
    end
  end.

(** Returns the normalised error, its class, and whether the classified
    fallbacks may be tried. *)
Definition normalize_execution_error (now : Z) (e : exn) (deployment_id : string)
    : exn * classification * bool :=
  match e with
  | EAsyncioTimeout =>
    (EProxy (mk_proxy ProxyTimeoutError
               (Some ("Deployment '" +:+ deployment_id +:+ "' timed out")) None None None None),
     TIMEOUT, true)
  | EProxy _ => (e, classify e, true)
  | EHttp _ _ | EHttpStatus _ _ =>
    let n := EProxy (normalize_http_error now e) in (n, classify n, true)
  | _ =>
    let n := EProxy (mk_proxy ServiceUnavailableError (Some (exn_str e)) None None None None) in
    (n, classify n, false)
  end.
End normalize.

End FailoverErrors.

(** ** src/batch/retry.py *)

Module BatchRetry.

Inductive category : Type :=
  | C_AUTHENTICATION | C_RATE_LIMIT | C_TIMEOUT | C_TRANSPORT | C_UPSTREAM_5XX
  | C_SERVICE_UNAVAILABLE | C_NO_HEALTHY_DEPLOYMENTS | C_INVALID_REQUEST | C_RESPONSE_SHAPE
  | C_BUDGET | C_MISSING_MODEL | C_PERMISSION | C_UNKNOWN.

Inductive terminal_reason : Type := NOT_RETRYABLE | ATTEMPTS_EXHAUSTED | BATCH_EXPIRED.

#[export] Instance category_eq_dec : EqDecision category.
Proof. solve_decision. Defined.

Record decision : Type := {
  retryable : bool;
  cat : category;
  retry_after_seconds : option Z;
  reason : option terminal_reason
}.

Definition no_healthy_deployments_marker : string := "no healthy deployments available".

Definition has_no_healthy_deployments_message (e : exn) : bool :=
  Str.contains no_healthy_deployments_marker (Str.lower (exn_str e)).

Definition proxy_retry_after (p : proxy_error) : option Z :=
  match pe_retry_after p with None => None | Some n => Some (Z.max 0 n) end.

Definition retry_as (c : category) (after : option Z) : decision :=
  {| retryable := true; cat := c; retry_after_seconds := after; reason := None |}.
Definition reject_as (c : category) : decision :=
  {| retryable := false; cat := c; retry_after_seconds := None; reason := Some NOT_RETRYABLE |}.

Section classify.
Variable parsedate : string -> option Z.

Definition classify_http_status_error (now : Z) (r : http_response) : decision :=
  let after := parse_retry_after_header parsedate now (resp_retry_after r) in
  if resp_status r =? 429 then retry_as C_RATE_LIMIT after
  else if resp_status r =? 408 then retry_as C_TIMEOUT after
  else if 500 <=? resp_status r then retry_as C_UPSTREAM_5XX after
  else reject_as C_INVALID_REQUEST.

Definition classify_batch_retry (now : Z) (e : exn) : decision :=
  match e with
  | EModelGroupDeferred _ n => retry_as C_NO_HEALTHY_DEPLOYMENTS (Some n)
  | EHttp PoolTimeout _ | EHttp OtherTimeout _ => retry_as C_TIMEOUT None
  | EHttp OtherTransport _ => retry_as C_TRANSPORT None
  | EHttpStatus _ r => classify_http_status_error now r
  | EProxy p =>
    match pe_class p with
    | RateLimitError => retry_as C_RATE_LIMIT (proxy_retry_after p)
    | ProxyTimeoutError => retry_as C_TIMEOUT None
    | ServiceUnavailableError | GatewayCapacityError =>
      if bool_decide (pe_code p = Some NO_HEALTHY_DEPLOYMENTS_CODE)
      then retry_as C_NO_HEALTHY_DEPLOYMENTS None
      else retry_as C_SERVICE_UNAVAILABLE None
    | BudgetExceededError => reject_as C_BUDGET
    | AuthenticationError => reject_as C_AUTHENTICATION
    | GuardrailViolationError => reject_as C_INVALID_REQUEST
    | InvalidRequestError => reject_as C_INVALID_REQUEST
    | PermissionDeniedError => reject_as C_PERMISSION
    | ModelNotFoundError =>
      if has_no_healthy_deployments_message e then retry_as C_NO_HEALTHY_DEPLOYMENTS None
      else reject_as C_MISSING_MODEL
    | ProxyError | ApprovalRequiredError => reject_as C_UNKNOWN
    end
  | EResponseShape _ => reject_as C_RESPONSE_SHAPE
  | EHttp OtherRequest _ | EAsyncioTimeout | EOther _ => reject_as C_UNKNOWN
  end.
End classify.

End BatchRetry.

(** ** Properties *)

Section properties.
Import HealthPolicy FailoverErrors BatchRetry.
Context (parsedate : string -> option Z) (now : Z).
Local Abbreviation normalize := (normalize_http_error parsedate now).
Local Abbreviation batch_retry := (classify_batch_retry parsedate now).

(** An httpx error: its shape decides the rest. *)
Lemma http_error_cases e : is_http_error e = true ->
  (exists k m, e = EHttp k m) \/ (exists m r, e = EHttpStatus m r).
Proof. destruct e; try done; eauto. Qed.

Lemma normalize_affects e b : is_http_error e = true ->
  affects_deployment_health e = b -> pe_affects (normalize e) = Some b.
Proof.
  intros [(k & m & ->)|(m & r & ->)]%http_error_cases <-; [by destruct k|].
  unfold normalize_http_error. destruct (resp_status r =? 429) eqn:E.
  - unfold affects_deployment_health, is_request_side_client_error. simpl.
    rewrite E. by rewrite andb_false_r.
  - by destruct (affects_deployment_health (EHttpStatus m r)).
Qed.

(** The status codes whose httpx error the batch worker treats differently
    before and after the failover manager normalised it. *)
Definition retry_diverges (e : exn) : bool :=
  match e with
  | EHttp OtherRequest _ => true
  | EHttpStatus _ r => (resp_status r =? 408) || (resp_status r <? 400)
  | _ => false
  end.
End properties.

(** Normalising an httpx error keeps its effect on deployment health: the
    [ProxyError] the failover manager re-raises counts against the deployment
    exactly when the httpx error did, 429 becomes a rate-limit error, a
    saturated connection pool a capacity error, and an error is reported as an
    invalid request exactly when it does not count against the deployment. *)
Theorem normalize_http_error_health parsedate now e :
  FailoverErrors.is_http_error e = true ->
  let p := FailoverErrors.normalize_http_error parsedate now e in
  HealthPolicy.affects_deployment_health (EProxy p) = HealthPolicy.affects_deployment_health e /\
  (pe_class p = RateLimitError <-> attr_response_status e = Some 429) /\
  (pe_class p = GatewayCapacityError <-> exists m, e = EHttp PoolTimeout m) /\
  (pe_class p = InvalidRequestError <->
     HealthPolicy.affects_deployment_health e = false /\ ~ exists m, e = EHttp PoolTimeout m).
Proof.
  intros He. split.
  { pose proof (normalize_affects parsedate now e _ He eq_refl) as H.
    unfold HealthPolicy.affects_deployment_health at 1. simpl attr_affects. by rewrite H. }
  destruct (http_error_cases e He) as [(k & m & ->)|(m & r & ->)].
  - destruct k; simpl; naive_solver.
  - unfold FailoverErrors.normalize_http_error.
    destruct (resp_status r =? 429) eqn:E.
    + apply Z.eqb_eq in E. simpl. rewrite E.
      unfold HealthPolicy.affects_deployment_health, HealthPolicy.is_request_side_client_error.
      simpl. rewrite E. simpl. naive_solver.
    + apply Z.eqb_neq in E. destruct (HealthPolicy.affects_deployment_health (EHttpStatus m r)) eqn:A;
        simpl; naive_solver.
Qed.

Definition sample_response (status : Z) : http_response :=
  {| resp_status := status; resp_text := "boom"; resp_content := "boom"; resp_json := None;
     resp_retry_after := None |}.

Lemma normalize_http_error_health_witness :
  let e := EHttpStatus "boom" (sample_response 503) in
  let p := FailoverErrors.normalize_http_error (fun _ => None) 0 e in
  HealthPolicy.affects_deployment_health (EProxy p) = true.
Proof.
  intros e p. exact (proj1 (normalize_http_error_health (fun _ => None) 0 e eq_refl)).
Defined.

(** The batch worker's retry decision agrees on an httpx error and on the
    [ProxyError] the failover manager makes of it, except exactly for upstream
    408 and below-400 statuses and for httpx request errors that are not
    transport errors, where the two decisions are opposite. *)
Theorem batch_retry_of_normalized parsedate now e :
  FailoverErrors.is_http_error e = true ->
  let raw := BatchRetry.retryable (BatchRetry.classify_batch_retry parsedate now e) in
  let normalized := BatchRetry.retryable (BatchRetry.classify_batch_retry parsedate now
                      (EProxy (FailoverErrors.normalize_http_error parsedate now e))) in
  normalized = xorb raw (retry_diverges e).
Proof.
  intros He raw normalized. subst raw normalized.
  destruct (http_error_cases e He) as [(k & m & ->)|(m & r & ->)]; [by destruct k|].
  unfold FailoverErrors.normalize_http_error, BatchRetry.classify_batch_retry, retry_diverges,
    BatchRetry.classify_http_status_error, HealthPolicy.affects_deployment_health,
    HealthPolicy.is_request_side_client_error. simpl.
  destruct (Z.eqb_spec (resp_status r) 429) as [->|]; [done|].
  destruct (Z.eqb_spec (resp_status r) 408) as [->|]; [done|].
  destruct (Z.leb_spec 400 (resp_status r)), (Z.ltb_spec (resp_status r) 500),
    (Z.leb_spec 500 (resp_status r)), (Z.ltb_spec (resp_status r) 400); done || lia.
Qed.

Lemma batch_retry_of_normalized_witness :
  let e := EHttpStatus "boom" (sample_response 408) in
  BatchRetry.retryable (BatchRetry.classify_batch_retry (fun _ => None) 0 e) = true /\
  BatchRetry.retryable (BatchRetry.classify_batch_retry (fun _ => None) 0
    (EProxy (FailoverErrors.normalize_http_error (fun _ => None) 0 e))) = false.
Proof.
  intros e. split; [reflexivity|].
  exact (batch_retry_of_normalized (fun _ => None) 0 e eq_refl).
Defined.
