(* ===== verification/LimitCounter.v ===== *)
(** * Rate-limit counters: src/services/limit_counter.py

    [LimitCounter] counts requests in Redis and, when Redis is absent or fails
    and the counter is not [fail_closed], in process-local dictionaries.  The
    Redis server is an interface ([RedisServer]) with its documented laws; the
    Lua script the counter sends it is code of the repository and is modelled
    on top of that interface. *)

From S2P Require Import Prelude PyVal Errors.

(** ** Data *)

Record RateLimitCheck : Type := mkCheck {
  scope : string;
  entity_id : string;
  limit : Z;
  amount : Z;
  window_seconds : Z
}.

Record RateLimitResult : Type := mkResult {
  checks : list RateLimitCheck;
  current_values : list Z;
  window_reset_at : Z;
  window_resets : list Z
}.

Definition empty_result : RateLimitResult := mkResult [] [] 0 [].

Inductive degraded : Type := fail_open | fail_closed.

#[export] Instance degraded_eq_dec : EqDecision degraded.
Proof. solve_decision. Defined.

(** ** The Redis server, by its commands *)

Class RedisServer (S : Type) := {
  srv_get : S -> string -> option Z;
  srv_incrby : S -> string -> Z -> S;
  srv_expire : S -> string -> Z -> S
}.

(** The value a key counts as: a missing key is zero. *)
Definition srv_val {S} `{RedisServer S} (s : S) (k : string) : Z := default 0 (srv_get s k).

(** INCRBY adds to the one key it names; EXPIRE does not change values. *)
Class RedisLaws (S : Type) `{RedisServer S} : Prop := {
  srv_incrby_get : forall s k n, srv_val (srv_incrby s k n) k = srv_val s k + n;
  srv_incrby_other : forall s k k' n, k <> k' -> srv_val (srv_incrby s k n) k' = srv_val s k';
  srv_expire_val : forall s k k' ttl, srv_val (srv_expire s k ttl) k' = srv_val s k'
}.

(** A client: the server's data, and for each coming call whether it fails. *)
Record redis_client (S : Type) : Type := mkClient {
  data : S;
  outages : list bool
}.
Arguments mkClient {S} data outages.
Arguments data {S} r.
Arguments outages {S} r.

(** ** State *)

Record counter (S : Type) : Type := mkCounter {
  redis : option (redis_client S);
  degraded_mode : degraded;
  fallback_counters : gmap string (Z * Z);
  fallback_parallel : gmap string Z
}.
Arguments mkCounter {S} redis degraded_mode fallback_counters fallback_parallel.
Arguments redis {S} c.
Arguments degraded_mode {S} c.
Arguments fallback_counters {S} c.
Arguments fallback_parallel {S} c.

(** [LimitCounter.__init__]: an unknown mode is [fail_open]. *)
Definition init_counter {S} (redis_client : option (redis_client S)) (mode : string) : counter S :=
  mkCounter redis_client (if String.eqb mode "fail_closed" then fail_closed else fail_open) ∅ ∅.

Section LimitCounter.
Context {S : Type} `{RedisServer S}.

Local Abbreviation op := (st (counter S) exn).

Definition set_counters (c : counter S) (m : gmap string (Z * Z)) : counter S :=
  mkCounter (redis c) (degraded_mode c) m (fallback_parallel c).
Definition set_parallel (c : counter S) (m : gmap string Z) : counter S :=
  mkCounter (redis c) (degraded_mode c) (fallback_counters c) m.
Definition set_redis (c : counter S) (r : option (redis_client S)) : counter S :=
  mkCounter r (degraded_mode c) (fallback_counters c) (fallback_parallel c).

Definition redis_error : exn :=
  EOther {| oe_message := "redis error"; oe_status_code := None; oe_response_status := None;
            oe_error_type := None; oe_affects := None |}.

Definition index_error : exn :=
  EOther {| oe_message := "list index out of range"; oe_status_code := None;
            oe_response_status := None; oe_error_type := None; oe_affects := None |}.

(** One awaited call of the client: it raises or runs on the server. *)
Definition redis_call {A} (f : S -> S * A) : op A := fun c =>
  match redis c with
  | None => (c, Raise redis_error)
  | Some r =>
    match outages r with
    | true :: o => (set_redis c (Some (mkClient (data r) o)), Raise redis_error)
    | o =>
      let '(s', a) := f (data r) in
      (set_redis c (Some (mkClient s' (tail o))), Ret a)
    end
  end.

Definition redis_incrby (key : string) (n : Z) : op Z :=
  redis_call (fun s => let s' := srv_incrby s key n in (s', srv_val s' key)).
Definition redis_incr (key : string) : op Z := redis_incrby key 1.
Definition redis_decr (key : string) : op Z := redis_incrby key (-1).
Definition redis_expire (key : string) (ttl : Z) : op unit :=
  redis_call (fun s => (srv_expire s key ttl, tt)).

(** [math.floor(time.time() / window_seconds)] *)
Definition window_id (now window_seconds : Z) : Z := window_index now window_seconds.

(** The instant the current window ends, in seconds. *)
Definition window_reset (now window_seconds : Z) : Z :=
  (window_index now window_seconds + 1) * window_seconds.

(** [now % window_seconds], in whole seconds. *)
Definition into_window (now window_seconds : Z) : Z := (now mod (window_seconds * usec)) / usec.

Definition backend_unavailable : exn :=
  EProxy (mk_proxy ServiceUnavailableError (Some "Rate limit backend unavailable"%string)
            None None None None).

Definition rate_limit_exceeded (scope : string) (retry_after : Z) : exn :=
  EProxy (mkRateLimitError (Some ("Rate limit exceeded for scope '" +:+ scope +:+ "'"))
            (Some scope) (Some (scope +:+ "_exceeded")) None (Some retry_after)).

(** [_handle_redis_degraded] *)
Definition handle_redis_degraded : op unit := fun c =>
  match degraded_mode c with
  | fail_closed => (c, Raise backend_unavailable)
  | fail_open => (c, Ret tt)
  end.

Definition fallback_key (now : Z) (scope entity_id : string) (window_seconds : Z) : string :=
  scope +:+ ":" +:+ entity_id +:+ ":" +:+ Str.of_Z (window_id now window_seconds).

Definition redis_key (now : Z) (scope entity_id : string) (window_seconds : Z) : string :=
  "ratelimit:" +:+ fallback_key now scope entity_id window_seconds.

(** [self._fallback_counters.get(key, (now + ws, 0))], restarted when expired. *)
Definition live_entry (m : gmap string (Z * Z)) (key : string) (now ws : Z) : Z * Z :=
  let '(expiry, current) := default (secs now + ws, 0) (m !! key) in
  if expiry <=? secs now then (secs now + ws, 0) else (expiry, current).

(** [_check_rate_limit_fallback]: counts first, then compares. *)
Definition check_rate_limit_fallback (now : Z) (scope entity_id : string) (limit amount : Z)
    : op unit := fun c =>
  match degraded_mode c with
  | fail_closed => (c, Raise backend_unavailable)
  | fail_open =>
    let key := fallback_key now scope entity_id 60 in
    let '(expiry, current) := live_entry (fallback_counters c) key now 60 in
    let current := current + amount in
    let c' := set_counters c (<[key := (expiry, current)]> (fallback_counters c)) in
    if limit <? current
    then (c', Raise (rate_limit_exceeded scope (Z.max 1 (expiry - secs now))))
    else (c', Ret tt)
  end.

(** [check_rate_limit] *)
Definition check_rate_limit (now : Z) (scope entity_id : string) (limit : option Z) (amount : Z)
    : op unit := fun c =>
  match limit with
  | None => (c, Ret tt)
  | Some limit =>
    if limit <=? 0 then (c, Ret tt) else
    match redis c with
    | None => check_rate_limit_fallback now scope entity_id limit amount c
    | Some _ =>
      let key := redis_key now scope entity_id 60 in
      match redis_incrby key amount c with
      | (c1, Raise _) =>
        (handle_redis_degraded ≫= fun _ =>
           check_rate_limit_fallback now scope entity_id limit amount) c1
      | (c1, Ret current) =>
        ((if current =? amount
          then try_except (redis_expire key 60) (fun _ => handle_redis_degraded)
          else mret tt) ≫= fun _ =>
         if limit <? current
         then raise (EProxy (mkRateLimitError None None None None (Some (60 - into_window now 60))))
         else mret tt) c1
      end
    end
  end.

(** ** The atomic multi-scope check *)

Definition active_checks (l : list RateLimitCheck) : list RateLimitCheck :=
  filter (fun c => 0 < limit c /\ 0 < amount c) l.

Definition check_key (now : Z) (c : RateLimitCheck) : string :=
  fallback_key now (scope c) (entity_id c) (window_seconds c).
Definition check_redis_key (now : Z) (c : RateLimitCheck) : string :=
  redis_key now (scope c) (entity_id c) (window_seconds c).

(** [min(c.window_seconds for c in normalized)] *)
Definition min_window (l : list RateLimitCheck) : Z :=
  match l with
  | [] => 0
  | c :: l' => foldr (fun c m => Z.min (window_seconds c) m) (window_seconds c) l'
  end.

(** The first loop of [_check_rate_limits_fallback]: nothing is written. *)
Fixpoint pending_updates (now : Z) (m : gmap string (Z * Z)) (l : list RateLimitCheck)
    : res exn (list (string * Z * Z)) :=
  match l with
  | [] => Ret []
  | c :: l' =>
    let key := check_key now c in
    let '(expiry, current) := live_entry m key now (window_seconds c) in
    let next_value := current + amount c in
    if limit c <? next_value
    then Raise (rate_limit_exceeded (scope c) (Z.max 1 (expiry - secs now)))
    else rest ← pending_updates now m l'; mret ((key, expiry, next_value) :: rest)
  end.

(** The second loop writes the pending updates in order. *)
Definition apply_updates (m : gmap string (Z * Z)) (l : list (string * Z * Z))
    : gmap string (Z * Z) :=
  foldl (fun m '(key, expiry, v) => <[key := (expiry, v)]> m) m l.

Definition check_rate_limits_fallback (now : Z) (checks : list RateLimitCheck)
    (window_reset_at : Z) (per_check_resets : list Z) : op RateLimitResult := fun c =>
  match degraded_mode c with
  | fail_closed => (c, Raise backend_unavailable)
  | fail_open =>
    let normalized := active_checks checks in
    match normalized with
    | [] => (c, Ret empty_result)
    | _ =>
      match pending_updates now (fallback_counters c) normalized with
      | Raise e => (c, Raise e)
      | Ret upd =>
        (set_counters c (apply_updates (fallback_counters c) upd),
         Ret (mkResult normalized (map (fun u => u.2) upd)
                (if window_reset_at =? 0
                 then window_reset (secs now * usec) (min_window normalized)
                 else window_reset_at) per_check_resets))
      end
    end
  end.

(** *** The Lua script *)

(** First loop: the index (from 1) of the first key that would go over. *)
Fixpoint script_scan (s : S) (i : Z) (l : list (string * Z * Z * Z)) : option Z :=
  match l with
  | [] => None
  | (key, amount, limit, _) :: l' =>
    if limit <? srv_val s key + amount then Some i else script_scan s (i + 1) l'
  end.

(** Second loop: INCRBY and EXPIRE each key, collecting the new values. *)
Fixpoint script_apply (s : S) (l : list (string * Z * Z * Z)) : S * list Z :=
  match l with
  | [] => (s, [])
  | (key, amount, _, ttl) :: l' =>
    let s1 := srv_incrby s key amount in
    let v := srv_val s1 key in
    let '(s2, vs) := script_apply (srv_expire s1 key ttl) l' in
    (s2, v :: vs)
  end.

Definition rate_limit_script (l : list (string * Z * Z * Z)) (s : S) : S * list Z :=
  match script_scan s 1 l with
  | Some i => (s, [0; i])
  | None => let '(s', vs) := script_apply s l in (s', [1; 0] ++ vs)
  end.

(** [check_rate_limits_atomic] *)
Definition check_rate_limits_atomic (now : Z) (checks : list RateLimitCheck)
    : op RateLimitResult := fun c =>
  let normalized := active_checks checks in
  match normalized with
  | [] => (c, Ret empty_result)
  | _ =>
    let resets := map (fun c => window_reset now (window_seconds c)) normalized in
    let reset_at := window_reset now (min_window normalized) in
    match redis c with
    | None => check_rate_limits_fallback now normalized reset_at resets c
    | Some _ =>
      let args := map (fun c => (check_redis_key now c, amount c, limit c, window_seconds c))
                    normalized in
      match redis_call (rate_limit_script args) c with
      | (c1, Raise _) =>
        (handle_redis_degraded ≫= fun _ =>
           check_rate_limits_fallback now normalized reset_at resets) c1
      | (c1, Ret raw) =>
        let ok := default 1 (head raw) in
        if ok =? 1 then
          (c1, Ret (mkResult normalized (firstn (length normalized) (skipn 2 raw)) reset_at resets))
        else
          let failed_index := default 1 (nth_error raw 1) - 1 in
          match nth_error normalized (Z.to_nat (Z.max 0 failed_index)) with
          | None => (c1, Raise index_error)
          | Some failed =>
            (c1, Raise (rate_limit_exceeded (scope failed)
                          (window_seconds failed - into_window now (window_seconds failed))))
          end
      end
    end
  end.

(** ** Parallel-request slots *)

Definition parallel_exceeded : exn :=
  EProxy (mkRateLimitError (Some "Parallel request limit exceeded"%string) None None None (Some 1)).

(** The two critical sections of [_acquire_parallel_fallback]. *)
Definition acquire_increment (key : string) (m : gmap string Z) : gmap string Z * Z :=
  let current := default 0 (m !! key) + 1 in (<[key := current]> m, current).
Definition acquire_undo (key : string) (m : gmap string Z) : gmap string Z :=
  <[key := Z.max 0 (default 1 (m !! key) - 1)]> m.

Definition acquire_parallel_fallback (scope entity_id : string) (limit : Z) : op unit := fun c =>
  match degraded_mode c with
  | fail_closed => (c, Raise backend_unavailable)
  | fail_open =>
    let key := scope +:+ ":" +:+ entity_id in
    let '(m, current) := acquire_increment key (fallback_parallel c) in
    if limit <? current
    then (set_parallel c (acquire_undo key m), Raise parallel_exceeded)
    else (set_parallel c m, Ret tt)
  end.

(** [_release_parallel_fallback] *)
Definition release_slot (key : string) (m : gmap string Z) : gmap string Z :=
  let current := Z.max 0 (default 0 (m !! key) - 1) in
  if current =? 0 then delete key m else <[key := current]> m.

Definition release_parallel_fallback (scope entity_id : string) : op unit := fun c =>
  (set_parallel c (release_slot (scope +:+ ":" +:+ entity_id) (fallback_parallel c)), Ret tt).

(** [acquire_parallel] *)
Definition acquire_parallel (scope entity_id : string) (limit : option Z) : op unit := fun c =>
  match limit with
  | None => (c, Ret tt)
  | Some limit =>
    if limit <=? 0 then (c, Ret tt) else
    match redis c with
    | None => acquire_parallel_fallback scope entity_id limit c
    | Some _ =>
      let key := "parallel:" +:+ scope +:+ ":" +:+ entity_id in
      match redis_incr key c with
      | (c1, Raise _) =>
        (handle_redis_degraded ≫= fun _ => acquire_parallel_fallback scope entity_id limit) c1
      | (c1, Ret current) =>
        ((if current =? 1
          then try_except (redis_expire key 300) (fun _ => handle_redis_degraded)
          else mret tt) ≫= fun _ =>
         if limit <? current then
           try_except (redis_decr key ≫= fun _ => mret tt) (fun _ => handle_redis_degraded) ≫= fun _ =>
           raise parallel_exceeded
         else mret tt) c1
      end
    end
  end.

(** [release_parallel] *)
Definition release_parallel (scope entity_id : string) : op unit := fun c =>
  match redis c with
  | None => release_parallel_fallback scope entity_id c
  | Some _ =>
    match redis_decr ("parallel:" +:+ scope +:+ ":" +:+ entity_id) c with
    | (c1, Ret _) => (c1, Ret tt)
    | (c1, Raise _) =>
      (handle_redis_degraded ≫= fun _ => release_parallel_fallback scope entity_id) c1
    end
  end.

End LimitCounter.

(** ** The admission contract *)

(** Where a counter's next call is counted. *)
Inductive backend : Type := Server | Local.

Definition over (cur : RateLimitCheck -> Z) (c : RateLimitCheck) : bool :=
  limit c <? cur c + amount c.

(** What an atomic check promises of the counts [cur] before and [cur'] after:
    all or nothing, the first check that would go over its limit is the one
    reported, and no other count moves. *)
Definition admission (now : Z) (cur cur' : RateLimitCheck -> Z) (l : list RateLimitCheck)
    (r : res exn RateLimitResult) : Prop :=
  (forall k, check_key now k ∉ map (check_key now) l -> cur' k = cur k) /\
  match find (over cur) l with
  | Some f =>
    (forall k, cur' k = cur k) /\
    exists after, 1 <= after /\ r = Raise (rate_limit_exceeded (scope f) after)
  | None =>
    (forall k, k ∈ l -> cur' k = cur k + amount k /\ cur' k <= limit k) /\
    exists reset resets,
      r = Ret (mkResult l (map (fun k => cur k + amount k) l) reset resets) /\
      resets = map (fun k => window_reset now (window_seconds k)) l
  end.

Section counts.
Context {S : Type} `{RedisServer S}.

Definition serving (c : counter S) : backend :=
  match redis c with
  | Some r => match outages r with true :: _ => Local | _ => Server end
  | None => Local
  end.

Definition counted (b : backend) (now : Z) (c : counter S) (k : RateLimitCheck) : Z :=
  match b with
  | Local => (live_entry (fallback_counters c) (check_key now k) now (window_seconds k)).2
  | Server => match redis c with
              | Some r => srv_val (data r) (check_redis_key now k)
              | None => 0
              end
  end.

(** Whether a fail-closed counter refuses the call. *)
Definition refuses (c : counter S) : bool :=
  match serving c, degraded_mode c with Local, fail_closed => true | _, _ => false end.
End counts.
Arguments counted : simpl never.

(** ** Lemmas on the local store *)

Lemma live_entry_fresh m key now ws expiry v :
  0 < ws -> (live_entry m key now ws).1 = expiry ->
  live_entry (<[key := (expiry, v)]> m) key now ws = (expiry, v).
Proof.
  unfold live_entry at 2. rewrite lookup_insert_eq. simpl.
  intros Hws <-. unfold live_entry.
  destruct (default (secs now + ws, 0) (m !! key)) as [e x].
  destruct (Z.leb_spec e (secs now)) as [Hle|Hgt]; simpl.
  - destruct (Z.leb_spec (secs now + ws) (secs now)); [lia|done].
  - destruct (Z.leb_spec e (secs now)); [lia|done].
Qed.

Lemma live_entry_other m key key' v now ws :
  key <> key' -> live_entry (<[key := v]> m) key' now ws = live_entry m key' now ws.
Proof. intros Hne. unfold live_entry. by rewrite lookup_insert_ne. Qed.

Definition update_of (now : Z) (m : gmap string (Z * Z)) (c : RateLimitCheck) : string * Z * Z :=
  let entry := live_entry m (check_key now c) now (window_seconds c) in
  (check_key now c, entry.1, entry.2 + amount c).

Definition local_count (now : Z) (m : gmap string (Z * Z)) (c : RateLimitCheck) : Z :=
  (live_entry m (check_key now c) now (window_seconds c)).2.

Lemma pending_updates_spec now m l :
  match find (over (local_count now m)) l with
  | Some f => exists after, 1 <= after /\
      pending_updates now m l = Raise (rate_limit_exceeded (scope f) after)
  | None => pending_updates now m l = Ret (map (update_of now m) l)
  end.
Proof.
  induction l as [|c l IH]; simpl; [done|].
  unfold over at 1, local_count at 1, update_of at 1.
  destruct (live_entry m (check_key now c) now (window_seconds c)) as [expiry current]; simpl.
  destruct (limit c <? current + amount c).
  - eexists. split; [|done]. lia.
  - destruct (find (over (local_count now m)) l) as [f|].
    + destruct IH as (after & Ha & ->). eauto.
    + by rewrite IH.
Qed.

Lemma apply_updates_other now m m' l k ws :
  k ∉ map (check_key now) l ->
  live_entry (apply_updates m (map (update_of now m') l)) k now ws = live_entry m k now ws.
Proof.
  revert m. induction l as [|c l IH]; intros m Hk; [done|]. simpl in *.
  apply not_elem_of_cons in Hk as [Hne Hk].
  rewrite IH by done. by apply live_entry_other.
Qed.

Lemma apply_updates_count now m m' l c :
  NoDup (map (check_key now) l) -> Forall (fun c => 0 < window_seconds c) l -> c ∈ l ->
  live_entry m (check_key now c) now (window_seconds c) =
    live_entry m' (check_key now c) now (window_seconds c) ->
  local_count now (apply_updates m (map (update_of now m') l)) c
    = local_count now m' c + amount c.
Proof.
  revert m. induction l as [|d l IH]; intros m Hnd Hws Hc Hm; [by apply elem_of_nil in Hc|].
  destruct (decide (check_key now c = check_key now d)) as [Heq|Hne].
  - assert (c = d) as -> by (apply (NoDup_map_inj _ _ _ _ Hnd); [done|left|done]).
    apply NoDup_cons in Hnd as [Hd Hnd]. apply Forall_cons in Hws as [Hdws Hws]. simpl.
    unfold local_count. rewrite apply_updates_other by done.
    rewrite live_entry_fresh; [done..|by rewrite Hm].
  - apply NoDup_cons in Hnd as [Hd Hnd]. apply Forall_cons in Hws as [Hdws Hws]. simpl.
    apply elem_of_cons in Hc as [->|Hc]; [done|].
    apply IH; try done. by rewrite live_entry_other.
Qed.

(** ** Lemmas on the script *)

Section script.
Context {S : Type} `{RedisLaws S}.

Definition script_args (now : Z) (l : list RateLimitCheck) : list (string * Z * Z * Z) :=
  map (fun c => (check_redis_key now c, amount c, limit c, window_seconds c)) l.

Definition server_count (now : Z) (s : S) (c : RateLimitCheck) : Z :=
  srv_val s (check_redis_key now c).

Lemma check_redis_key_inj now c d :
  check_redis_key now c = check_redis_key now d <-> check_key now c = check_key now d.
Proof. split; [intros H1; by simplify_eq/= | unfold check_redis_key, redis_key; fold (check_key now c) (check_key now d); congruence]. Qed.

Lemma script_scan_spec now s l i :
  match find (over (server_count now s)) l with
  | Some f => exists n, script_scan s i (script_args now l) = Some (i + Z.of_nat n) /\
                        nth_error l n = Some f
  | None => script_scan s i (script_args now l) = None
  end.
Proof.
  revert i. induction l as [|c l IH]; intros i; simpl; [done|].
  unfold over at 1, server_count at 1.
  destruct (limit c <? srv_val s (check_redis_key now c) + amount c).
  - exists 0%nat. split; [f_equal; lia|done].
  - specialize (IH (i + 1)). destruct (find (over (server_count now s)) l) as [f|]; [|done].
    destruct IH as (n & -> & Hn). exists (Datatypes.S n). split; [f_equal; lia|done].
Qed.

Lemma script_apply_other now s l k :
  k ∉ map (check_redis_key now) l ->
  srv_val (script_apply s (script_args now l)).1 k = srv_val s k.
Proof.
  revert s. induction l as [|c l IH]; intros s Hk; [done|]. simpl in *.
  apply not_elem_of_cons in Hk as [Hne Hk].
  specialize (IH (srv_expire (srv_incrby s (check_redis_key now c) (amount c))
                    (check_redis_key now c) (window_seconds c)) Hk).
  destruct (script_apply _ (script_args now l)) as [s2 vs]; simpl in *.
  by rewrite IH, srv_expire_val, srv_incrby_other.
Qed.

Lemma script_apply_spec now s l :
  NoDup (map (check_redis_key now) l) ->
  (script_apply s (script_args now l)).2 = map (fun c => server_count now s c + amount c) l /\
  forall c, c ∈ l ->
    server_count now (script_apply s (script_args now l)).1 c = server_count now s c + amount c.
Proof.
  revert s. induction l as [|d l IH]; intros s Hnd.
  { split; [done|]. intros c Hc. by apply elem_of_nil in Hc. }
  simpl in *. apply NoDup_cons in Hnd as [Hd Hnd].
  set (s1 := srv_expire (srv_incrby s (check_redis_key now d) (amount d))
               (check_redis_key now d) (window_seconds d)).
  pose proof (script_apply_other now s1 l (check_redis_key now d) Hd) as Hother.
  destruct (IH s1 Hnd) as [Hvs Hcounts].
  destruct (script_apply s1 (script_args now l)) as [s2 vs]; simpl in *.
  assert (Hs1 : forall c, c ∈ l -> server_count now s1 c = server_count now s c).
  { intros c Hc. unfold server_count, s1. rewrite srv_expire_val, srv_incrby_other; [done|].
    intros Heq. apply Hd. rewrite Heq. by apply list_elem_of_In, in_map, list_elem_of_In. }
  split.
  - f_equal; [apply srv_incrby_get|]. rewrite Hvs. apply map_ext_in. intros c Hc.
    by rewrite Hs1 by by apply list_elem_of_In.
  - intros c [->|Hc]%elem_of_cons.
    + unfold server_count. rewrite Hother. unfold s1. by rewrite srv_expire_val, srv_incrby_get.
    + by rewrite Hcounts, Hs1.
Qed.
End script.

(** ** Properties of the counter *)

Section properties.
Context {S : Type} `{RedisLaws S}.
Implicit Types (c : counter S) (k : RateLimitCheck).

Lemma check_rate_limits_fallback_admission now c l reset_at resets :
  degraded_mode c = fail_open -> active_checks l = l -> l <> [] ->
  NoDup (map (check_key now) l) -> Forall (fun k => 0 < window_seconds k) l ->
  resets = map (fun k => window_reset now (window_seconds k)) l ->
  let '(c', r) := check_rate_limits_fallback now l reset_at resets c in
  admission now (counted Local now c) (counted Local now c') l r /\
  redis c' = redis c /\ fallback_parallel c' = fallback_parallel c.
Proof.
  intros Hmode Hact Hne Hnd Hws ->. unfold check_rate_limits_fallback. rewrite Hmode, Hact.
  destruct l as [|d l0] eqn:El; [done|]. rewrite <- El in *. clear El d l0 Hne.
  pose proof (pending_updates_spec now (fallback_counters c) l) as Hspec.
  change (local_count now (fallback_counters c)) with (counted Local now c) in Hspec.
  unfold admission. destruct (find (over (counted Local now c)) l) as [f|] eqn:Ef.
  - destruct Hspec as (after & Ha & ->). eauto 10.
  - rewrite Hspec. split; [|done]. split; [|split].
    + intros k Hk. unfold counted; simpl. by rewrite apply_updates_other.
    + intros k Hk. split.
      * by apply apply_updates_count.
      * change (counted Local now (set_counters c _) k) with
          (local_count now (apply_updates (fallback_counters c) (map (update_of now (fallback_counters c)) l)) k).
        rewrite apply_updates_count by done.
        pose proof (find_none_forall _ _ k Ef Hk) as Hov.
        unfold over in Hov. apply Z.ltb_ge in Hov. exact Hov.
    + eexists _, _. split; [|done]. by rewrite map_map.
Qed.

Lemma script_admission now c r0 o l :
  redis c = Some r0 -> outages r0 = o -> head o <> Some true ->
  NoDup (map (check_key now) l) ->
  match redis_call (rate_limit_script (script_args now l)) c with
  | (c', Ret raw) =>
    fallback_counters c' = fallback_counters c /\ degraded_mode c' = degraded_mode c /\
    fallback_parallel c' = fallback_parallel c /\
    (forall k, check_key now k ∉ map (check_key now) l ->
       counted Server now c' k = counted Server now c k) /\
    match find (over (counted Server now c)) l with
    | Some f => exists n, raw = [0; Z.of_nat n + 1] /\ nth_error l n = Some f /\
                          forall k, counted Server now c' k = counted Server now c k
    | None => raw = [1; 0] ++ map (fun k => counted Server now c k + amount k) l /\
              forall k, k ∈ l -> counted Server now c' k = counted Server now c k + amount k
    end
  | (_, Raise _) => False
  end.
Proof.
  intros Hr Ho Hup Hnd.
  assert (Hndr : NoDup (map (check_redis_key now) l)).
  { apply NoDup_fmap_2_strong with (f := check_redis_key now); [|by eapply NoDup_fmap_1].
    intros x y Hx Hy Hxy. apply check_redis_key_inj in Hxy. by apply (NoDup_map_inj (check_key now) l). }
  unfold redis_call. rewrite Hr, Ho.
  assert (counted Server now c = server_count now (data r0)) as Hc.
  { unfold counted. by rewrite Hr. }
  rewrite Hc. pose proof (script_scan_spec now (data r0) l 1) as Hscan.
  unfold rate_limit_script.
  destruct (find (over (server_count now (data r0))) l) as [f|] eqn:Ef.
  - destruct Hscan as (n & -> & Hn).
    assert (Hn' : 1 + Z.of_nat n = Z.of_nat n + 1) by lia.
    destruct o as [|[] o]; [| by destruct Hup |]; simpl; (split_and!; [done..|]);
      exists n; by rewrite Hn'.
  - rewrite Hscan. destruct (script_apply_spec now (data r0) l Hndr) as [Hvs Hcnt].
    pose proof (script_apply_other now (data r0) l) as Hoth.
    destruct (script_apply (data r0) (script_args now l)) as [s2 vs]. simpl in *. subst vs.
    assert (forall k, check_key now k ∉ map (check_key now) l ->
              srv_val s2 (check_redis_key now k) = server_count now (data r0) k).
    { intros k Hk. apply Hoth. intros Hin. apply Hk.
      apply list_elem_of_fmap in Hin as (y & Hy & Hyl). apply check_redis_key_inj in Hy.
      rewrite Hy. by apply list_elem_of_fmap_2. }
    destruct o as [|[] o]; [| by destruct Hup |]; by split_and!.
Qed.
Lemma active_checks_idemp l : active_checks (active_checks l) = active_checks l.
Proof.
  unfold active_checks. induction l as [|k l IH]; [done|].
  rewrite filter_cons. case_decide; [|done]. by rewrite filter_cons_True, IH.
Qed.

Lemma into_window_bounds now ws : 0 < ws -> 0 <= into_window now ws < ws.
Proof.
  intros Hws. unfold into_window, usec. pose proof (Z.mod_pos_bound now (ws * 1000000)) as Hb.
  split; [apply Z.div_pos; lia|]. apply Z.div_lt_upper_bound; lia.
Qed.
#[local] Hint Resolve into_window_bounds : py.
End properties.

(** The client's reading of the script's reply. *)
Lemma admission_of_script {S} `{RedisLaws S} now (c : counter S) l reset_at resets :
  NoDup (map (check_key now) l) -> Forall (fun k => 0 < window_seconds k) l ->
  resets = map (fun k => window_reset now (window_seconds k)) l ->
  match redis_call (rate_limit_script (script_args now l)) c with
  | (c', Ret raw) =>
    fallback_counters c' = fallback_counters c /\ degraded_mode c' = degraded_mode c /\
    fallback_parallel c' = fallback_parallel c /\
    (forall k, check_key now k ∉ map (check_key now) l ->
       counted Server now c' k = counted Server now c k) /\
    match find (over (counted Server now c)) l with
    | Some f => exists n, raw = [0; Z.of_nat n + 1] /\ nth_error l n = Some f /\
                          forall k, counted Server now c' k = counted Server now c k
    | None => raw = [1; 0] ++ map (fun k => counted Server now c k + amount k) l /\
              forall k, k ∈ l -> counted Server now c' k = counted Server now c k + amount k
    end
  | (_, Raise _) => False
  end ->
  let '(c', r) :=
    match redis_call (rate_limit_script (script_args now l)) c with
    | (c1, Raise _) =>
      (handle_redis_degraded ≫= fun _ => check_rate_limits_fallback now l reset_at resets) c1
    | (c1, Ret raw) =>
      if default 1 (head raw) =? 1 then
        (c1, Ret (mkResult l (firstn (length l) (skipn 2 raw)) reset_at resets))
      else
        match nth_error l (Z.to_nat (Z.max 0 (default 1 (nth_error raw 1) - 1))) with
        | None => (c1, Raise index_error)
        | Some failed =>
          (c1, Raise (rate_limit_exceeded (scope failed)
                        (window_seconds failed - into_window now (window_seconds failed))))
        end
    end in
  fallback_parallel c' = fallback_parallel c /\
  admission now (counted Server now c) (counted Server now c') l r /\
  (Server = Server -> fallback_counters c' = fallback_counters c).
Proof.
  intros Hnd Hws Hresets Hs.
  destruct (redis_call (rate_limit_script (script_args now l)) c) as [c1 [raw|e]]; [|done].
  destruct Hs as (Hfc & Hdm & Hfp & Hoth & Hs). unfold admission.
  destruct (find (over (counted Server now c)) l) as [f|] eqn:Ef.
  - destruct Hs as (n & -> & Hn & Hsame). simpl.
    replace (Z.to_nat (Z.max 0 (Z.of_nat n + 1 - 1))) with n by lia. rewrite Hn.
    split_and!; try done. eexists. split; [|done].
    apply nth_error_In, list_elem_of_In in Hn.
    rewrite Forall_forall in Hws. pose proof (into_window_bounds now _ (Hws _ Hn)). lia.
  - destruct Hs as [-> Hcnt]. simpl. split_and!; try done.
    + intros k Hk. split; [by apply Hcnt|]. rewrite Hcnt by done.
      pose proof (find_none_forall _ _ k Ef Hk) as Hov. unfold over in Hov. by apply Z.ltb_ge in Hov.
    + exists reset_at, resets. split; [|done]. do 2 f_equal.
      rewrite drop_0, take_ge; [done|]. by rewrite length_fmap.
Qed.

(** C18: Admission of a multi-scope rate-limit check, whichever backend counts
    it.  If a backend is available (Redis answers, or the counter may fall back
    to its local dictionaries), the check is atomic: either no count changes
    and the first check that would go over its limit is reported with a
    positive retry delay, or every count grows by exactly its amount, stays
    within its limit and is returned, and no other key changes.  The Redis
    script and the local dictionaries therefore make the same decision.  If no
    backend is available the call raises 503 and changes no local count. *)
Theorem check_rate_limits_atomic_admission {S} `{RedisLaws S} (now : Z) (c : counter S)
    (checks0 : list RateLimitCheck) :
  let l := active_checks checks0 in
  l <> [] ->
  NoDup (map (check_key now) l) ->
  Forall (fun k => 0 < window_seconds k) l ->
  let '(c', r) := check_rate_limits_atomic now checks0 c in
  fallback_parallel c' = fallback_parallel c /\
  if refuses c
  then r = Raise backend_unavailable /\ fallback_counters c' = fallback_counters c
  else
    admission now (counted (serving c) now c) (counted (serving c) now c') l r /\
    (serving c = Server -> fallback_counters c' = fallback_counters c).
Proof.
  intros l Hne Hnd Hws. unfold check_rate_limits_atomic. fold l.
  destruct l as [|d l0] eqn:El; [done|]. rewrite <- El in *. clear Hne.
  assert (Hact : active_checks l = l) by apply active_checks_idemp. subst l.
  set (l := active_checks checks0) in *.
  set (resets := map (fun k => window_reset now (window_seconds k)) l).
  set (reset_at := window_reset now (min_window l)).
  assert (Hne : l <> []) by (rewrite El; done).
  assert (Hfb : forall c1 : counter S, degraded_mode c1 = fail_closed ->
            check_rate_limits_fallback now l reset_at resets c1 = (c1, Raise backend_unavailable)).
  { intros c1 Hm. unfold check_rate_limits_fallback. by rewrite Hm. }
  pose proof (fun c1 Hm => check_rate_limits_fallback_admission now c1 l reset_at resets Hm
                Hact Hne Hnd Hws eq_refl) as Hlocal.
  unfold refuses, serving. destruct (redis c) as [r0|] eqn:Hr.
  - destruct (outages r0) as [|[] o] eqn:Ho.
    + pose proof (script_admission now c r0 [] l Hr Ho ltac:(done) Hnd) as Hs.
      by eapply admission_of_script.
    + unfold redis_call. rewrite Hr, Ho. simpl. unfold mbind, st_bind, handle_redis_degraded. simpl.
      destruct (degraded_mode c) eqn:Hm; simpl; [|done].
      specialize (Hlocal (set_redis c (Some (mkClient (data r0) o))) Hm).
      destruct (check_rate_limits_fallback _ _ _ _ _) as [c' r]. naive_solver.
    + pose proof (script_admission now c r0 (false :: o) l Hr Ho ltac:(done) Hnd) as Hs.
      by eapply admission_of_script.
  - destruct (degraded_mode c) eqn:Hm.
    + specialize (Hlocal c Hm). destruct (check_rate_limits_fallback _ _ _ _ _) as [c' r].
      naive_solver.
    + by rewrite Hfb.
Qed.

(** A server kept as a finite map, to instantiate the interface. *)
#[export] Instance map_server : RedisServer (gmap string Z) := {
  srv_get m k := m !! k;
  srv_incrby m k n := <[k := default 0 (m !! k) + n]> m;
  srv_expire m k ttl := m
}.

#[export] Instance map_server_laws : RedisLaws (gmap string Z).
Proof.
  split; unfold srv_val; simpl.
  - intros s k n. by rewrite lookup_insert_eq.
  - intros s k k' n Hne. by rewrite lookup_insert_ne.
  - done.
Qed.

Definition sample_checks : list RateLimitCheck :=
  [mkCheck "org_rpm" "acme" 2 1 60; mkCheck "key_rpm" "k1" 1 1 60].

Lemma check_rate_limits_atomic_admission_witness :
  let c := init_counter (Some (mkClient (∅ : gmap string Z) [true])) "fail_open" in
  let '(c', r) := check_rate_limits_atomic 0 sample_checks c in
  refuses c = false /\
  admission 0 (counted (serving c) 0 c) (counted (serving c) 0 c') sample_checks r.
Proof.
  intros c.
  assert (Hnd : NoDup (map (check_key 0) (active_checks sample_checks))).
  { apply (bool_decide_unpack _). vm_compute. exact I. }
  pose proof (check_rate_limits_atomic_admission 0 c sample_checks ltac:(discriminate) Hnd
    ltac:(repeat constructor)) as Hthm.
  destruct (check_rate_limits_atomic 0 sample_checks c) as [c' r].
  destruct Hthm as [_ Hthm]. split; [reflexivity|]. exact (proj1 Hthm).
Defined.
