(* ===== verification/ParallelSlots.v ===== *)
(** * Concurrent acquisition of parallel-request slots in memory

    A limiter without Redis ([self.redis is None]), degraded mode "fail_open",
    counts in memory only: [_acquire_parallel_fallback] holds the lock twice: once to count the
    request, and once more to take the count back when it went over the limit.
    Other tasks run in between.  Tasks are interleaved here at the granularity
    of the critical sections; the sections themselves are the functions of
    [LimitCounter].  A limiter with Redis may take a slot in one place and return
    it in the other; the two examples at the end run such cases of
    [acquire_parallel] and [release_parallel], and the counts drift apart. *)

From S2P Require Import Prelude PyVal Errors LimitCounter.

(** Where a task is in [_acquire_parallel_fallback]: not holding a slot, over
    the limit and about to take its count back, or holding a slot. *)
Inductive phase : Type := Idle | Over | Holding.

#[export] Instance phase_eq_dec : EqDecision phase.
Proof. solve_decision. Defined.

Record world : Type := mkWorld {
  slots : gmap string Z;
  tasks : list (string * phase)
}.

Definition is_at (k : string) (p : phase) (t : string * phase) : bool := bool_decide (t = (k, p)).

Definition in_phase (w : world) (k : string) (p : phase) : Z := cnt (is_at k p) (tasks w).

Definition slot_count (w : world) (k : string) : Z := default 0 (slots w !! k).

Section slots.
(** The limit each entity is configured with ([max_parallel_requests]). *)
Context (lim : string -> Z).

(** A critical section of a limiter that counts in memory. *)
Inductive step : world -> world -> Prop :=
  | step_acquire w i k m current :
      tasks w !! i = Some (k, Idle) ->
      acquire_increment k (slots w) = (m, current) ->
      step w (mkWorld m (<[i := (k, if lim k <? current then Over else Holding)]> (tasks w)))
  | step_undo w i k :
      tasks w !! i = Some (k, Over) ->
      step w (mkWorld (acquire_undo k (slots w)) (<[i := (k, Idle)]> (tasks w)))
  | step_release w i k :
      tasks w !! i = Some (k, Holding) ->
      step w (mkWorld (release_slot k (slots w)) (<[i := (k, Idle)]> (tasks w))).

Definition slots_inv (w : world) : Prop :=
  forall k, slot_count w k = in_phase w k Holding + in_phase w k Over /\
            in_phase w k Holding <= Z.max 0 (lim k).

Lemma in_phase_insert w m i k p k' p' q :
  tasks w !! i = Some (k, p) ->
  in_phase (mkWorld m (<[i := (k, p')]> (tasks w))) k' q
    = in_phase w k' q - (if is_at k' q (k, p) then 1 else 0) + (if is_at k' q (k, p') then 1 else 0).
Proof. intros Hi. unfold in_phase. simpl. by apply cnt_insert. Qed.

Lemma is_at_spec k p k' p' : is_at k p (k', p') = (bool_decide (k' = k) && bool_decide (p' = p)).
Proof. unfold is_at. repeat case_bool_decide; naive_solver. Qed.

Lemma in_phase_nonneg w k p : 0 <= in_phase w k p.
Proof. apply cnt_nonneg. Qed.

(** A task in a phase is counted there. *)
Lemma in_phase_pos w i k p : tasks w !! i = Some (k, p) -> 1 <= in_phase w k p.
Proof.
  intros Hi. pose proof (cnt_insert (is_at k p) _ i _ (k, p) Hi) as H0.
  assert (0 <= cnt (is_at k p) (<[i := (k, match p with Idle => Over | _ => Idle end)]> (tasks w))) as H1
    by apply cnt_nonneg.
  rewrite (cnt_insert _ _ _ _ _ Hi), !is_at_spec in H1. unfold in_phase.
  rewrite !bool_decide_eq_true_2 in H1 by done. destruct p; simpl in *; lia.
Qed.

Lemma in_phase_idle w k q :
  (forall t, t ∈ tasks w -> t.1 = k -> t.2 = Idle) -> q <> Idle -> in_phase w k q = 0.
Proof.
  intros Hidle Hq. apply cnt_zero. intros [k1 p] Ht. rewrite is_at_spec.
  pose proof (Hidle (k1, p) Ht) as Hp. simpl in Hp.
  destruct (bool_decide_reflect (k1 = k)) as [Hk|]; [|done].
  rewrite (Hp Hk). simpl. by apply bool_decide_eq_false_2.
Qed.

Ltac slot_arith k k' :=
  destruct (decide (k' = k)) as [->|];
  [ rewrite ?lookup_insert_eq, ?lookup_delete_eq, ?(bool_decide_eq_true_2 (k = k)) by done
  | rewrite ?lookup_insert_ne, ?lookup_delete_ne, ?(bool_decide_eq_false_2 (k = k')) by done ];
  simpl.

Lemma step_inv w w' : slots_inv w -> step w w' -> slots_inv w'.
Proof.
  intros Hinv Hstep k'. pose proof (Hinv k') as [Hc Hl].
  destruct Hstep as [w i k m cur Hi Hinc | w i k Hi | w i k Hi];
    rewrite !(in_phase_insert _ _ _ _ _ _ _ _ Hi), !is_at_spec;
    pose proof (Hinv k) as [Hck _]; pose proof (in_phase_pos _ _ _ _ Hi) as Hpos;
    pose proof (in_phase_nonneg w k Holding); pose proof (in_phase_nonneg w k Over);
    unfold slot_count in *; simpl in *.
  - unfold acquire_increment in Hinc. simplify_eq.
    destruct (Z.ltb_spec (lim k) (default 0 (slots w !! k) + 1)); slot_arith k k'; lia.
  - unfold acquire_undo. slot_arith k k'; [|lia].
    destruct (slots w !! k); simpl in *; lia.
  - unfold release_slot. destruct (Z.eqb_spec (Z.max 0 (default 0 (slots w !! k) - 1)) 0);
      slot_arith k k'; lia.
Qed.

Definition idle_world (keys : list string) : world := mkWorld ∅ (map (fun k => (k, Idle)) keys).

Lemma idle_world_inv keys : slots_inv (idle_world keys).
Proof.
  intros k. unfold slot_count, in_phase. simpl. rewrite lookup_empty, !cnt_zero.
  - simpl. lia.
  - intros x (k' & -> & _)%list_elem_of_fmap. by rewrite is_at_spec, andb_false_r.
  - intros x (k' & -> & _)%list_elem_of_fmap. by rewrite is_at_spec, andb_false_r.
Qed.

Lemma reachable_inv keys w : rtc step (idle_world keys) w -> slots_inv w.
Proof.
  intros Hr. pose proof (idle_world_inv keys) as Hinv.
  induction Hr as [|w1 w2 w3 Hs _ IH]; [done|]. apply IH. by eapply step_inv.
Qed.

End slots.

(** C35: In a limiter without Redis, which counts parallel requests in memory
    only, however the tasks that take and return slots are interleaved, the
    count of an entity is the number of its tasks that hold a slot plus those
    about to take their count back, no more tasks than the entity's limit hold
    a slot at once, and once no task of the entity is under way its count is
    back to zero.  (With Redis a slot may be taken in one place and returned in
    the other, and none of this holds: [slot_taken_in_outage_leaks].) *)
Theorem parallel_slots_safe (lim : string -> Z) (keys : list string) (w : world) :
  rtc (step lim) (idle_world keys) w ->
  forall k,
    slot_count w k = in_phase w k Holding + in_phase w k Over /\
    in_phase w k Holding <= Z.max 0 (lim k) /\
    ((forall t, t ∈ tasks w -> t.1 = k -> t.2 = Idle) -> slot_count w k = 0).
Proof.
  intros Hr k. destruct (reachable_inv lim keys w Hr k) as [Hc Hl]. split_and!; [done..|].
  intros Hidle. by rewrite Hc, !in_phase_idle.
Qed.

Lemma parallel_slots_safe_witness :
  let w := mkWorld {["key:a" := 2]} [("key:a"%string, Holding); ("key:a"%string, Over)] in
  slot_count w "key:a" = 2 /\ in_phase w "key:a" Holding <= 1.
Proof.
  intros w. split; [vm_compute; reflexivity|].
  assert (rtc (step (fun _ => 1)) (idle_world ["key:a"; "key:a"]%string) w) as Hr.
  { eapply rtc_l; [eapply (step_acquire _ _ 0%nat); [reflexivity|vm_compute; reflexivity]|].
    eapply rtc_l; [eapply (step_acquire _ _ 1%nat); [reflexivity|vm_compute; reflexivity]|].
    exact (rtc_refl _ _). }
  exact (proj1 (proj2 (parallel_slots_safe (fun _ => 1) _ w Hr "key:a"%string))).
Defined.

(** ** With Redis *)

Definition mixed_counter (outages : list bool) : counter (gmap string Z) :=
  init_counter (Some (mkClient ∅ outages)) "fail_open".
Definition counts (c : counter (gmap string Z)) : option Z * option Z :=
  (match LimitCounter.redis c with Some r => data r !! "parallel:key:a" | None => None end, fallback_parallel c !! "key:a").

(** Taken in memory while Redis fails and returned in Redis: the memory count
    never comes back, and the Redis count is one too low. *)
Example slot_taken_in_outage_leaks :
  let '(c, _) := acquire_parallel "key" "a" (Some 1) (mixed_counter [true]) in
  let '(c, _) := release_parallel "key" "a" c in
  counts c = (Some (-1), Some 1).
Proof. vm_compute. reflexivity. Qed.

(** Taken in Redis and returned while it fails: with nobody under way, the next
    request is refused. *)
Example slot_returned_in_outage_leaks :
  let '(c, _) := acquire_parallel "key" "a" (Some 1) (mixed_counter [false; false; true]) in
  let '(c, _) := release_parallel "key" "a" c in
  let '(c, r) := acquire_parallel "key" "a" (Some 1) c in
  r = Raise parallel_exceeded /\ counts c = (Some 1, None).
Proof. vm_compute. split; reflexivity. Qed.
