(* ===== verification/Auth.v ===== *)
(** * The authenticated caller: UserAPIKeyAuth of src/models/responses.py

    With the fields the modelled code reads; budgets, spend, guardrails, the
    metadata of team and organization and the expiry are left out. *)

From S2P Require Import Prelude PyVal.

Record UserAPIKeyAuth : Type := mkAuth {
  api_key : string;
  user_id : option string;
  team_id : option string;
  organization_id : option string;
  models : list string;
  team_models : list string;
  tpm_limit : option Z;
  rpm_limit : option Z;
  key_tpm_limit : option Z;
  key_rpm_limit : option Z;
  user_tpm_limit : option Z;
  user_rpm_limit : option Z;
  team_tpm_limit : option Z;
  team_rpm_limit : option Z;
  org_tpm_limit : option Z;
  org_rpm_limit : option Z;
  team_model_rpm_limit : option (list (string * Z));
  team_model_tpm_limit : option (list (string * Z));
  org_model_rpm_limit : option (list (string * Z));
  org_model_tpm_limit : option (list (string * Z));
  max_parallel_requests : option Z;
  key_rph_limit : option Z;
  key_rpd_limit : option Z;
  key_tpd_limit : option Z;
  user_rph_limit : option Z;
  user_rpd_limit : option Z;
  user_tpd_limit : option Z;
  team_rph_limit : option Z;
  team_rpd_limit : option Z;
  team_tpd_limit : option Z;
  org_rph_limit : option Z;
  org_rpd_limit : option Z;
  org_tpd_limit : option Z;
  metadata : option (list (string * pyval))
}.

(** A caller with only its identity set. *)
Definition plain_auth (api_key : string) (user_id team_id organization_id : option string)
    : UserAPIKeyAuth :=
  mkAuth api_key user_id team_id organization_id [] [] None None None None None None None None
    None None None None None None None None None None None None None None None None None None None
    None.
