(* ===== verification/RateLimitPolicy.v ===== *)
(** * Rate-limit policy: src/rate_limit_policy.py and src/middleware/rate_limit.py

    Which counters a request is checked against, the state the response
    headers report, and the lease that gives the parallel slot back.  The
    counters themselves are [LimitCounter]'s. *)

From S2P Require Import Prelude PyVal Errors LimitCounter Auth.

(** ** estimate_tokens *)

(** The payload after Python turned it into text: [None], the characters of a
    [str] or of decoded [bytes], or the JSON dump of anything else. *)
Inductive payload : Type :=
  | NoPayload
  | TextPayload (text : string)
  | JsonPayload (dumped : string).

Definition strlen (s : string) : Z := Z.of_nat (String.length s).

Definition estimate_tokens (p : payload) : Z :=
  match p with
  | NoPayload => 0
  | TextPayload text => Z.max 1 (strlen text / 4)
  | JsonPayload dumped => Z.max 1 (strlen dumped / 4)
  end.

(** ** _model_limit *)

Definition positive (v : Z) : option Z := if 0 <? v then Some v else None.

(** The wildcard loop: keeps the first entry with the longest matching prefix. *)
Fixpoint best_wildcard (model : string) (limits : list (string * Z)) (best : Z * option Z)
    : Z * option Z :=
  match limits with
  | [] => best
  | (pattern, value) :: limits' =>
    let best' :=
      if Str.endswith pattern "*" then
        let prefix := Str.drop_last pattern in
        if Str.startswith model prefix && (best.1 <? strlen prefix)
        then (strlen prefix, positive value) else best
      else best in
    best_wildcard model limits' best'
  end.

Definition model_limit (limits : option (list (string * Z))) (model : option string) : option Z :=
  match limits, model with
  | Some limits, Some model =>
    if Str.is_empty model then None else
    match dict_get limits model with
    | Some exact => positive exact
    | None =>
      let best := best_wildcard model limits (-1, None) in
      if 0 <=? best.1 then best.2 else None
    end
  | _, _ => None
  end.

(** ** build_rate_limit_checks *)

(** [_add], [_add_h] and [_add_d] differ in the window. *)
Definition add_check (window : Z) (scope : string) (entity_id : option string) (limit : option Z)
    (amount : Z) : list RateLimitCheck :=
  match entity_id, limit with
  | Some entity, Some l =>
    if Str.is_empty entity || (l <=? 0) || (amount <=? 0) then []
    else [mkCheck scope entity l amount window]
  | _, _ => []
  end.

Definition or_else {A} (a b : option A) : option A := match a with Some x => Some x | None => b end.

(** [f"{id}:{model}" if id else None] *)
Definition model_entity (id : option string) (model : string) : option string :=
  match id with
  | Some i => if Str.is_empty i then None else Some (i +:+ ":" +:+ model)
  | None => None
  end.

Definition model_checks (auth : UserAPIKeyAuth) (tokens : Z) (model : string)
    : list RateLimitCheck :=
  let m := Some model in
  add_check 60 "team_model_rpm" (model_entity (team_id auth) model)
    (model_limit (team_model_rpm_limit auth) m) 1 ++
  add_check 60 "team_model_tpm" (model_entity (team_id auth) model)
    (model_limit (team_model_tpm_limit auth) m) tokens ++
  add_check 60 "org_model_rpm" (model_entity (organization_id auth) model)
    (model_limit (org_model_rpm_limit auth) m) 1 ++
  add_check 60 "org_model_tpm" (model_entity (organization_id auth) model)
    (model_limit (org_model_tpm_limit auth) m) tokens.

Definition build_rate_limit_checks (auth : UserAPIKeyAuth) (tokens : Z) (model : option string)
    : list RateLimitCheck :=
  let key := Some (api_key auth) in
  let key_rpm := or_else (key_rpm_limit auth) (rpm_limit auth) in
  let key_tpm := or_else (key_tpm_limit auth) (tpm_limit auth) in
  add_check 60 "org_rpm" (organization_id auth) (org_rpm_limit auth) 1 ++
  add_check 60 "team_rpm" (team_id auth) (team_rpm_limit auth) 1 ++
  add_check 60 "user_rpm" (user_id auth) (user_rpm_limit auth) 1 ++
  add_check 60 "key_rpm" key key_rpm 1 ++
  add_check 60 "org_tpm" (organization_id auth) (org_tpm_limit auth) tokens ++
  add_check 60 "team_tpm" (team_id auth) (team_tpm_limit auth) tokens ++
  add_check 60 "user_tpm" (user_id auth) (user_tpm_limit auth) tokens ++
  add_check 60 "key_tpm" key key_tpm tokens ++
  add_check 3600 "org_rph" (organization_id auth) (org_rph_limit auth) 1 ++
  add_check 3600 "team_rph" (team_id auth) (team_rph_limit auth) 1 ++
  add_check 3600 "user_rph" (user_id auth) (user_rph_limit auth) 1 ++
  add_check 3600 "key_rph" key (key_rph_limit auth) 1 ++
  add_check 86400 "org_rpd" (organization_id auth) (org_rpd_limit auth) 1 ++
  add_check 86400 "team_rpd" (team_id auth) (team_rpd_limit auth) 1 ++
  add_check 86400 "user_rpd" (user_id auth) (user_rpd_limit auth) 1 ++
  add_check 86400 "key_rpd" key (key_rpd_limit auth) 1 ++
  add_check 86400 "org_tpd" (organization_id auth) (org_tpd_limit auth) tokens ++
  add_check 86400 "team_tpd" (team_id auth) (team_tpd_limit auth) tokens ++
  add_check 86400 "user_tpd" (user_id auth) (user_tpd_limit auth) tokens ++
  add_check 86400 "key_tpd" key (key_tpd_limit auth) tokens ++
  match model with
  | Some m => if Str.is_empty m then [] else model_checks auth tokens m
  | None => []
  end.

(** ** compute_rate_limit_state *)

Record RateLimitState : Type := mkState {
  st_rpm_limit : Z;
  st_rpm_remaining : Z;
  st_rpm_reset : Z;
  st_rpm_scope : string;
  st_tpm_limit : Z;
  st_tpm_remaining : Z;
  st_tpm_reset : Z;
  st_tpm_scope : string;
  st_warning : option string
}.

Definition default_state : RateLimitState := mkState 0 0 0 "" 0 0 0 "" None.

Definition with_rpm (s : RateLimitState) (limit remaining reset : Z) (scope : string)
    : RateLimitState :=
  mkState limit remaining reset scope (st_tpm_limit s) (st_tpm_remaining s) (st_tpm_reset s)
    (st_tpm_scope s) (st_warning s).
Definition with_tpm (s : RateLimitState) (limit remaining reset : Z) (scope : string)
    : RateLimitState :=
  mkState (st_rpm_limit s) (st_rpm_remaining s) (st_rpm_reset s) (st_rpm_scope s) limit remaining
    reset scope (st_warning s).
Definition with_warning (s : RateLimitState) (w : option string) : RateLimitState :=
  mkState (st_rpm_limit s) (st_rpm_remaining s) (st_rpm_reset s) (st_rpm_scope s) (st_tpm_limit s)
    (st_tpm_remaining s) (st_tpm_reset s) (st_tpm_scope s) w.

(** [current / check.limit] *)
Definition usage_ratio (current limit : Z) : Q :=
  if 0 <? limit then (inject_Z current / inject_Z limit)%Q else 0%Q.

(** [is_rpm] and [is_tpm] by the scope's suffix, else by the amount. *)
Definition scope_kinds (c : RateLimitCheck) : bool * bool :=
  let ends := Str.endswith (scope c) in
  let is_rpm := ends "_rpm"%string || ends "_rpm_limit"%string || ends "_rph"%string || ends "_rpd"%string in
  let is_tpm := ends "_tpm"%string || ends "_tpm_limit"%string || ends "_tpd"%string in
  if is_rpm || is_tpm then (is_rpm, is_tpm)
  else if amount c =? 1 then (true, is_tpm) else (is_rpm, true).

(** The loop's variables: best ratios per kind, the greatest ratio, the state. *)
Record usage_scan : Type := mkScan {
  best_rpm_ratio : Q;
  best_tpm_ratio : Q;
  max_usage_ratio : Q;
  scan_state : RateLimitState
}.

Definition scan_check (u : usage_scan) (c : RateLimitCheck) (current reset : Z) : usage_scan :=
  let remaining := Z.max 0 (limit c - current) in
  let ratio := usage_ratio current (limit c) in
  let max_ratio := if Qlt_bool (max_usage_ratio u) ratio then ratio else max_usage_ratio u in
  let '(is_rpm, is_tpm) := scope_kinds c in
  let '(best_rpm, s1) :=
    if is_rpm && Qlt_bool (best_rpm_ratio u) ratio
    then (ratio, with_rpm (scan_state u) (limit c) remaining reset (scope c))
    else (best_rpm_ratio u, scan_state u) in
  let '(best_tpm, s2) :=
    if is_tpm && Qlt_bool (best_tpm_ratio u) ratio
    then (ratio, with_tpm s1 (limit c) remaining reset (scope c))
    else (best_tpm_ratio u, s1) in
  mkScan best_rpm best_tpm max_ratio s2.

(** The loop stops at the end of [current_values]; a missing window reset is
    the overall one. *)
Fixpoint scan_checks (u : usage_scan) (reset_at : Z) (cs : list RateLimitCheck) (vs rs : list Z)
    : usage_scan :=
  match cs, vs with
  | c :: cs', v :: vs' =>
    scan_checks (scan_check u c v (default reset_at (head rs))) reset_at cs' vs' (tail rs)
  | _, _ => u
  end.

Definition initial_scan : usage_scan := mkScan (-1) (-1) 0 default_state.

Definition usage_warning (max_ratio : Q) : option string :=
  if Qle_bool (95 # 100) max_ratio then Some "near_limit"%string
  else if Qle_bool (80 # 100) max_ratio then Some "approaching_limit"%string
  else None.

Definition compute_rate_limit_state (result : RateLimitResult) : RateLimitState :=
  match checks result, current_values result with
  | [], _ | _, [] => default_state
  | cs, vs =>
    let u := scan_checks initial_scan (window_reset_at result) cs vs (window_resets result) in
    with_warning (scan_state u) (usage_warning (max_usage_ratio u))
  end.

(** ** Acquiring and releasing the controls of a request *)

Record RateLimitLease : Type := mkLease {
  parallel_scope : option string;
  parallel_entity_id : option string
}.

Section controls.
Context {S : Type} `{RedisServer S}.
Local Abbreviation op := (st (counter S) exn).

Definition lease_of (auth : UserAPIKeyAuth) : RateLimitLease :=
  let entity :=
    if negb (Str.is_empty (api_key auth)) &&
       match max_parallel_requests auth with Some n => 0 <? n | None => false end
    then Some (api_key auth) else None in
  mkLease (match entity with Some _ => Some "key"%string | None => None end) entity.

Definition acquire_rate_limit_controls (now : Z) (auth : UserAPIKeyAuth) (tokens : Z)
    (model : option string) : op (RateLimitLease * RateLimitState) :=
  let checks := build_rate_limit_checks auth tokens model in
  result ← check_rate_limits_atomic now checks;
  let rate_limit_state := compute_rate_limit_state result in
  _ ← acquire_parallel "key" (api_key auth) (max_parallel_requests auth);
  mret (lease_of auth, rate_limit_state).

Definition release_rate_limit_controls (lease : RateLimitLease) : op unit :=
  match parallel_scope lease, parallel_entity_id lease with
  | Some scope, Some entity =>
    if Str.is_empty scope || Str.is_empty entity then mret tt else release_parallel scope entity
  | _, _ => mret tt
  end.

End controls.

(** ** src/middleware/rate_limit.py: the request's view *)

(** [_build_429_state] *)
Definition step_429 (now : Z) (violated_scope : string) (s : RateLimitState) (c : RateLimitCheck)
    : RateLimitState :=
  let ends := Str.endswith (scope c) in
  let is_rpm0 := ends "_rpm"%string || ends "_rph"%string || ends "_rpd"%string in
  let is_tpm0 := ends "_tpm"%string || ends "_tpd"%string in
  let '(is_rpm, is_tpm) :=
    if negb is_rpm0 && negb is_tpm0 then (amount c =? 1, negb (amount c =? 1))
    else (is_rpm0, is_tpm0) in
  let check_reset := window_reset now (window_seconds c) in
  let s1 := if is_rpm && ((st_rpm_limit s =? 0) || String.eqb (scope c) violated_scope)
            then with_rpm s (limit c) 0 check_reset (scope c) else s in
  if is_tpm && ((st_tpm_limit s1 =? 0) || String.eqb (scope c) violated_scope)
  then with_tpm s1 (limit c) 0 check_reset (scope c) else s1.

Definition build_429_state (now : Z) (checks : list RateLimitCheck) (param : option string)
    : RateLimitState :=
  foldl (step_429 now (default ""%string param))
    (with_warning default_state (Some "near_limit"%string)) checks.

Definition build_rate_limit_headers (s : RateLimitState) : list (string * string) :=
  (if (0 <? st_rpm_limit s) || (0 <? st_tpm_limit s) then
     [("x-ratelimit-limit-requests", Str.of_Z (st_rpm_limit s));
      ("x-ratelimit-remaining-requests", Str.of_Z (st_rpm_remaining s));
      ("x-ratelimit-reset-requests", Str.of_Z (st_rpm_reset s));
      ("x-ratelimit-limit-tokens", Str.of_Z (st_tpm_limit s));
      ("x-ratelimit-remaining-tokens", Str.of_Z (st_tpm_remaining s));
      ("x-ratelimit-reset-tokens", Str.of_Z (st_tpm_reset s))] ++
     let scope_parts :=
       (if Str.is_empty (st_rpm_scope s) then [] else [st_rpm_scope s]) ++
       (if Str.is_empty (st_tpm_scope s) then [] else [st_tpm_scope s]) in
     match scope_parts with
     | [] => []
     | _ => [("x-deltallm-ratelimit-scope", Str.join "," scope_parts)]
     end
   else []) ++
  match st_warning s with
  | Some w => if Str.is_empty w then [] else [("x-ratelimit-warning", w)]
  | None => []
  end%string.

(** The attributes the middleware keeps on [request.state]. *)
Record request_state : Type := mkRequest {
  user_api_key : option UserAPIKeyAuth;
  rate_limit_checked : bool;
  rate_limit_released : bool;
  rate_limit_parallel_key : option string;
  rate_limit_state : option RateLimitState
}.

Definition fresh_request (auth : option UserAPIKeyAuth) : request_state :=
  mkRequest auth false false None None.

Section request.
Context {S : Type} `{RedisServer S}.
Local Abbreviation rop := (st (counter S * request_state) exn).

(** An operation of the limiter, the request untouched. *)
Definition on_limiter {A} (m : st (counter S) exn A) : rop A := fun '(c, q) =>
  let '(c', r) := m c in ((c', q), r).

Definition set_request (f : request_state -> request_state) : rop unit :=
  modify (fun '(c, q) => (c, f q)).

Definition mark_checked (q : request_state) : request_state :=
  mkRequest (user_api_key q) true (rate_limit_released q) (rate_limit_parallel_key q)
    (rate_limit_state q).
Definition mark_released (q : request_state) : request_state :=
  mkRequest (user_api_key q) (rate_limit_checked q) true (rate_limit_parallel_key q)
    (rate_limit_state q).
Definition mark_state (s : RateLimitState) (q : request_state) : request_state :=
  mkRequest (user_api_key q) (rate_limit_checked q) (rate_limit_released q)
    (rate_limit_parallel_key q) (Some s).
Definition mark_acquired (key : option string) (q : request_state) : request_state :=
  mkRequest (user_api_key q) true (rate_limit_released q) key (rate_limit_state q).

(** [_check_and_acquire_rate_limits], with the tokens and the model that were
    read from the request body. *)
Definition check_and_acquire_rate_limits (now tokens : Z) (model : option string) : rop unit :=
  fun '(c, q) =>
  if rate_limit_checked q then ((c, q), Ret tt) else
  match user_api_key q with
  | None => ((c, mark_checked q), Ret tt)
  | Some auth =>
    match acquire_rate_limit_controls now auth tokens model c with
    | (c', Ret (lease, state)) =>
      ((c', mark_acquired (parallel_entity_id lease) (mark_state state q)), Ret tt)
    | (c', Raise e) =>
      if is_proxy RateLimitError e then
        let param := match e with EProxy p => pe_param p | _ => None end in
        let state := build_429_state now (build_rate_limit_checks auth tokens model) param in
        ((c', mark_state state q), Raise e)
      else ((c', q), Raise e)
    end
  end.

(** [_release_rate_limits] *)
Definition release_rate_limits : rop unit := fun '(c, q) =>
  if rate_limit_released q then ((c, q), Ret tt) else
  match rate_limit_parallel_key q with
  | None => ((c, mark_released q), Ret tt)
  | Some key =>
    if Str.is_empty key then ((c, mark_released q), Ret tt) else
    (on_limiter (release_parallel "key" key) ≫= fun _ => set_request mark_released) (c, q)
  end.

(** [enforce_rate_limits] around the handler of the request. *)
Definition enforce_rate_limits {A} (now tokens : Z) (model : option string) (handler : rop A) : rop A :=
  check_and_acquire_rate_limits now tokens model ≫= fun _ =>
  try_finally handler release_rate_limits.

End request.

(** ** Lemmas *)

(** The part of a key before its first colon. *)
Fixpoint before_colon (s : string) : string :=
  match s with
  | EmptyString => EmptyString
  | String a s' => if Ascii.eqb a ":" then EmptyString else String a (before_colon s')
  end.

Definition colon_free (s : string) : bool := String.eqb (before_colon s) s.

Lemma before_colon_app s t : colon_free s = true -> before_colon (s +:+ String ":" t) = s.
Proof.
  unfold colon_free. rewrite String.eqb_eq. induction s as [|a s IH]; simpl; [done|].
  destruct (Ascii.eqb a ":"); [done|]. intros [= Heq]. by rewrite IH.
Qed.

Definition known_scopes : list string :=
  ["org_rpm"; "team_rpm"; "user_rpm"; "key_rpm"; "org_tpm"; "team_tpm"; "user_tpm"; "key_tpm";
   "org_rph"; "team_rph"; "user_rph"; "key_rph"; "org_rpd"; "team_rpd"; "user_rpd"; "key_rpd";
   "org_tpd"; "team_tpd"; "user_tpd"; "key_tpd"; "team_model_rpm"; "team_model_tpm";
   "org_model_rpm"; "org_model_tpm"]%string.

(** A check [build_rate_limit_checks] may produce. *)
Definition wf_check (tokens : Z) (c : RateLimitCheck) : Prop :=
  0 < limit c /\ (amount c = 1 \/ amount c = tokens) /\ 0 < amount c /\ entity_id c <> ""%string /\
  window_seconds c ∈ [60; 3600; 86400].

Lemma add_check_scopes w s e l a : sublist (map scope (add_check w s e l a)) [s].
Proof. unfold add_check. repeat case_match; simpl; repeat constructor. Qed.

Lemma add_check_wf tokens w s e l a :
  w ∈ [60; 3600; 86400] -> a = 1 \/ a = tokens -> Forall (wf_check tokens) (add_check w s e l a).
Proof.
  intros Hw Ha. unfold add_check. destruct e as [e|], l as [l|]; try constructor.
  destruct (Str.is_empty e) eqn:He, (Z.leb_spec l 0), (Z.leb_spec a 0); simpl; constructor; [|constructor].
  unfold wf_check; simpl. split_and!; try done. intros ->. done.
Qed.
#[export] Hint Resolve add_check_scopes : py.

Lemma build_checks_scopes auth tokens model :
  sublist (map scope (build_rate_limit_checks auth tokens model)) known_scopes.
Proof.
  unfold build_rate_limit_checks, known_scopes. rewrite !map_app.
  repeat (apply (sublist_app _ [_]); [by apply add_check_scopes|]).
  destruct model as [m|]; [|apply sublist_nil_l]. destruct (Str.is_empty m); [apply sublist_nil_l|].
  unfold model_checks. rewrite !map_app.
  repeat (apply (sublist_app _ [_]); [by apply add_check_scopes|]). apply add_check_scopes.
Qed.

Lemma build_checks_wf auth tokens model :
  Forall (wf_check tokens) (build_rate_limit_checks auth tokens model).
Proof.
  unfold build_rate_limit_checks.
  repeat (apply Forall_app; split; [apply add_check_wf; [set_solver|auto]|]).
  destruct model as [m|]; [|constructor]. destruct (Str.is_empty m); [constructor|].
  unfold model_checks.
  repeat (apply Forall_app; split; [apply add_check_wf; [set_solver|auto]|]).
  apply add_check_wf; [set_solver|auto].
Qed.

Lemma check_keys_NoDup now (l : list RateLimitCheck) :
  NoDup (map scope l) -> Forall (fun c => colon_free (scope c) = true) l ->
  NoDup (map (check_key now) l).
Proof.
  intros Hnd Hcf. apply (NoDup_fmap_1 before_colon).
  replace (before_colon <$> map (check_key now) l) with (map scope l); [done|].
  rewrite <- list_fmap_compose. apply list_fmap_ext. intros i c Hc. simpl.
  symmetry. apply before_colon_app. rewrite Forall_lookup in Hcf. eauto.
Qed.

Lemma active_checks_all l :
  Forall (fun c => 0 < limit c /\ 0 < amount c) l -> active_checks l = l.
Proof.
  unfold active_checks. induction 1 as [|c l Hc _ IH]; [done|].
  by rewrite filter_cons_True, IH.
Qed.

(** ** Lemmas on the parallel slot of a key *)

Section slots.
Context {S : Type} `{RedisServer S}.
Implicit Types (c : counter S).

(** The local count of an API key's parallel requests. *)
Definition key_slots (c : counter S) (key : string) : Z :=
  default 0 (fallback_parallel c !! ("key:" +:+ key)).

Lemma acquire_parallel_local c key lim :
  redis c = None -> degraded_mode c = fail_open -> 0 <= key_slots c key -> 0 < lim ->
  exists m, acquire_parallel "key" key (Some lim) c =
    (set_parallel c m, if lim <? key_slots c key + 1 then Raise parallel_exceeded else Ret tt) /\
    key_slots (set_parallel c m) key = key_slots c key + (if lim <? key_slots c key + 1 then 0 else 1).
Proof.
  intros Hr Hm Hs Hl. unfold acquire_parallel. rewrite (proj2 (Z.leb_gt lim 0)), Hr by lia.
  unfold acquire_parallel_fallback. rewrite Hm. unfold acquire_increment.
  change ("key" +:+ ":" +:+ key)%string with ("key:" +:+ key)%string.
  fold (key_slots c key). destruct (lim <? key_slots c key + 1).
  - eexists. split; [done|]. unfold key_slots at 1, acquire_undo; simpl.
    rewrite !lookup_insert_eq. simpl. lia.
  - eexists. split; [done|]. unfold key_slots at 1; simpl. by rewrite lookup_insert_eq.
Qed.

Lemma release_parallel_local c key :
  redis c = None -> 0 < key_slots c key ->
  exists m, release_parallel "key" key c = (set_parallel c m, Ret tt) /\
            key_slots (set_parallel c m) key = key_slots c key - 1.
Proof.
  intros Hr Hs. unfold release_parallel. rewrite Hr. unfold release_parallel_fallback.
  change ("key" +:+ ":" +:+ key)%string with ("key:" +:+ key)%string.
  eexists. split; [done|]. unfold key_slots at 1, release_slot; simpl. fold (key_slots c key).
  destruct (Z.eqb_spec (Z.max 0 (key_slots c key - 1)) 0).
  - rewrite lookup_delete_eq. simpl. lia.
  - rewrite lookup_insert_eq. simpl. lia.
Qed.

(** Releasing a local slot never raises when the counter may degrade. *)
Lemma release_parallel_total c scope key :
  degraded_mode c = fail_open -> exists c', release_parallel scope key c = (c', Ret tt).
Proof.
  intros Hm. unfold release_parallel, redis_decr, redis_incrby, redis_call.
  destruct (redis c) as [[d [|[] o]]|] eqn:Hr; simpl; eauto.
  unfold mbind, st_bind, handle_redis_degraded; simpl. rewrite Hm. unfold release_parallel_fallback; eauto.
Qed.

(** A check without Redis leaves the slots alone. *)
Lemma check_local_keeps now c l c' r :
  redis c = None -> check_rate_limits_atomic now l c = (c', r) ->
  redis c' = None /\ degraded_mode c' = degraded_mode c /\ fallback_parallel c' = fallback_parallel c.
Proof.
  intros Hr. unfold check_rate_limits_atomic, check_rate_limits_fallback. rewrite Hr.
  intros Heq. repeat case_match; simplify_eq; done.
Qed.
End slots.

Section controls_lemmas.
Context {S : Type} `{RedisLaws S}.
Implicit Types (c : counter S).

Lemma build_checks_window auth tokens model k :
  k ∈ build_rate_limit_checks auth tokens model -> 0 < window_seconds k.
Proof.
  intros Hk. pose proof (build_checks_wf auth tokens model) as Hwf. rewrite Forall_forall in Hwf.
  destruct (Hwf k Hk) as (_ & _ & _ & _ & Hw). set_solver by lia.
Qed.

Lemma build_checks_active auth tokens model :
  active_checks (build_rate_limit_checks auth tokens model) = build_rate_limit_checks auth tokens model.
Proof.
  apply active_checks_all. eapply Forall_impl; [apply (build_checks_wf auth tokens model)|].
  intros k (Hl & _ & Ha & _). done.
Qed.

Lemma build_checks_keys now auth tokens model :
  NoDup (map (check_key now) (build_rate_limit_checks auth tokens model)).
Proof.
  pose proof (build_checks_scopes auth tokens model) as Hsub. apply check_keys_NoDup.
  - apply (sublist_NoDup _ known_scopes); [|exact Hsub]. apply (bool_decide_unpack _). vm_compute. exact I.
  - apply Forall_forall. intros k Hk.
    assert (Hcf : Forall (fun s => colon_free s = true) known_scopes) by (unfold known_scopes; by repeat constructor).
    rewrite Forall_forall in Hcf. apply Hcf. eapply sublist_elem; [exact Hsub|].
    by apply list_elem_of_fmap_2.
Qed.

(** The admission of the checks of a request on the local counters. *)
Lemma request_admission now c auth tokens model :
  redis c = None -> degraded_mode c = fail_open ->
  let l := build_rate_limit_checks auth tokens model in
  let '(c', r) := check_rate_limits_atomic now l c in
  redis c' = None /\ degraded_mode c' = fail_open /\ fallback_parallel c' = fallback_parallel c /\
  (forall k, check_key now k ∉ map (check_key now) l -> counted Local now c' k = counted Local now c k) /\
  match find (over (counted Local now c)) l with
  | Some f => (forall k, counted Local now c' k = counted Local now c k) /\
              exists after, 1 <= after /\ r = Raise (rate_limit_exceeded (scope f) after)
  | None => (forall k, k ∈ l -> counted Local now c' k = counted Local now c k + amount k /\
                                counted Local now c' k <= limit k) /\
            exists result, r = Ret result
  end.
Proof.
  intros Hr Hm l.
  destruct (decide (l = [])) as [Hnil|Hne].
  { unfold check_rate_limits_atomic. rewrite Hnil. simpl. split_and!; eauto. set_solver. }
  pose proof (fun c' r => check_local_keeps now c l c' r Hr) as Hkeep.
  assert (Hact : active_checks l = l) by apply build_checks_active.
  unfold check_rate_limits_atomic in *. rewrite Hact, Hr in *.
  destruct l as [|d l0] eqn:El; [done|]. assert (Hne' : l <> []) by (by rewrite El). rewrite <- El in *. clear Hne El d l0.
  match goal with |- context [check_rate_limits_fallback now l ?a ?b c] =>
    pose proof (check_rate_limits_fallback_admission now c l a b Hm Hact) as Ha;
    destruct (check_rate_limits_fallback now l a b c) as [c' r] end.
  destruct (Hkeep c' r eq_refl) as (Hr' & Hm' & Hp').
  destruct Ha as [[Hoth Ha] _].
  - exact Hne'.
  - apply build_checks_keys.
  - apply Forall_forall. intros k. apply build_checks_window.
  - done.
  - split_and!; try done; [congruence|].
    destruct (find (over (counted Local now c)) l) as [f|]; [done|].
    destruct Ha as [Hcnt (reset & resets & -> & _)]. eauto.
Qed.
End controls_lemmas.

(** A wildcard entry that covers the model, and the length it matches. *)
Definition wildcard_covers (model pattern : string) : bool :=
  Str.endswith pattern "*" && Str.startswith model (Str.drop_last pattern).
Definition wildcard_length (pattern : string) : Z := strlen (Str.drop_last pattern).

Lemma best_wildcard_spec model limits best :
  let r := best_wildcard model limits best in
  best.1 <= r.1 /\
  (forall p v, (p, v) ∈ limits -> wildcard_covers model p = true -> wildcard_length p <= r.1) /\
  (r = best \/ exists p v, (p, v) ∈ limits /\ wildcard_covers model p = true /\
                           r = (wildcard_length p, positive v)).
Proof.
  revert best. induction limits as [|[p v] limits IH]; intros best; simpl.
  { split_and!; [lia| |by left]. intros p v Hp. by apply elem_of_nil in Hp. }
  set (best' := if Str.endswith p "*" then _ else best).
  assert (Hb : best.1 <= best'.1 /\ (wildcard_covers model p = true -> wildcard_length p <= best'.1) /\
               (best' = best \/ (wildcard_covers model p = true /\
                                 best' = (wildcard_length p, positive v)))).
  { unfold best', wildcard_covers, wildcard_length.
    destruct (Str.endswith p "*"), (Str.startswith model (Str.drop_last p)); simpl;
      try (split_and!; [lia|done|by left]).
    destruct (Z.ltb_spec best.1 (strlen (Str.drop_last p))); simpl; split_and!; auto; lia. }
  destruct Hb as (Hge & Hcov & Hsrc). destruct (IH best') as (IHge & IHcov & IHsrc).
  split_and!; [lia| |].
  - intros q w [Hq|Hq]%elem_of_cons Hc; [simplify_eq; specialize (Hcov Hc); lia|eauto].
  - destruct IHsrc as [->|(q & w & Hq & Hc & ->)].
    + destruct Hsrc as [->|[Hc ->]]; [by left|]. right. exists p, v. split_and!; [left|done|done].
    + right. exists q, w. split_and!; [by right|done|done].
Qed.

(** The per-model limit of a team or organization: an exact entry decides
    (a non-positive one means no limit); otherwise the wildcard entry with the
    longest prefix of the model name does; otherwise there is no limit. *)
Theorem model_limit_resolution (limits : list (string * Z)) (model : string) :
  model <> ""%string ->
  match dict_get limits model with
  | Some exact => model_limit (Some limits) (Some model) = positive exact
  | None =>
    if existsb (fun e => wildcard_covers model e.1) limits then
      exists p v, (p, v) ∈ limits /\ wildcard_covers model p = true /\
        (forall p' v', (p', v') ∈ limits -> wildcard_covers model p' = true ->
           wildcard_length p' <= wildcard_length p) /\
        model_limit (Some limits) (Some model) = positive v
    else model_limit (Some limits) (Some model) = None
  end.
Proof.
  intros Hm. unfold model_limit. rewrite (proj2 (String.eqb_neq model "") Hm : Str.is_empty model = false).
  destruct (dict_get limits model) as [exact|]; [done|].
  destruct (best_wildcard_spec model limits (-1, None)) as (_ & Hcov & Hsrc).
  destruct (existsb _ limits) eqn:Eex.
  - apply existsb_exists in Eex as ([p v] & Hin & Hc). apply list_elem_of_In in Hin. simpl in Hc.
    destruct Hsrc as [Heq|(q & w & Hq & Hqc & Heq)].
    { specialize (Hcov p v Hin Hc). rewrite Heq in Hcov. unfold wildcard_length, strlen in Hcov.
      simpl in Hcov. lia. }
    exists q, w. rewrite Heq in *. split_and!; try done. simpl.
    by rewrite (proj2 (Z.leb_le 0 (wildcard_length q))) by (unfold wildcard_length, strlen; lia).
  - destruct Hsrc as [->|(q & w & Hq & Hqc & _)]; [done|].
    assert (existsb (fun e : string * Z => wildcard_covers model e.1) limits = true) as Hex;
      [|congruence].
    apply existsb_exists. exists (q, w). split; [by apply list_elem_of_In|done].
Qed.

Lemma model_limit_resolution_witness :
  let limits := [("gpt-*", 5); ("gpt-4*", 7)]%string in
  exists v, model_limit (Some limits) (Some "gpt-4o"%string) = positive v /\ positive v = Some 7.
Proof.
  intros limits. destruct (model_limit_resolution limits "gpt-4o" ltac:(discriminate))
    as (p & v & _ & _ & _ & Hm).
  exists v. split; [exact Hm|]. rewrite <- Hm. reflexivity.
Defined.

(** The checks built for a request satisfy what the atomic admission of
    [LimitCounter] needs: every one is active (positive limit and amount, a
    named entity), no two of them share a counter key, and their windows are
    the minute, the hour or the day; and every limit that binds the API key
    itself is among them, with the legacy alias used when the key-level limit
    is absent. *)
Theorem build_checks_admissible (now : Z) (auth : UserAPIKeyAuth) (tokens : Z) (model : option string) :
  let l := build_rate_limit_checks auth tokens model in
  active_checks l = l /\
  NoDup (map (check_key now) l) /\
  Forall (wf_check tokens) l /\
  (forall lim, api_key auth <> ""%string -> 0 < lim ->
     (or_else (key_rpm_limit auth) (rpm_limit auth) = Some lim ->
        mkCheck "key_rpm" (api_key auth) lim 1 60 ∈ l) /\
     (or_else (key_tpm_limit auth) (tpm_limit auth) = Some lim -> 0 < tokens ->
        mkCheck "key_tpm" (api_key auth) lim tokens 60 ∈ l) /\
     (key_rpd_limit auth = Some lim -> mkCheck "key_rpd" (api_key auth) lim 1 86400 ∈ l)).
Proof.
  intros l. split_and!; [apply build_checks_active|apply build_checks_keys|apply build_checks_wf|].
  intros lim Hk Hl.
  assert (Hadd : forall w s a, 0 < a ->
    mkCheck s (api_key auth) lim a w ∈ add_check w s (Some (api_key auth)) (Some lim) a).
  { intros w s a Ha. unfold add_check.
    rewrite (proj2 (String.eqb_neq _ _) Hk : Str.is_empty (api_key auth) = false).
    rewrite (proj2 (Z.leb_gt lim 0)), (proj2 (Z.leb_gt a 0)) by lia. left. }
  unfold l, build_rate_limit_checks. split_and!.
  - intros ->. set_solver by lia.
  - intros -> Ht. specialize (Hadd 60 "key_tpm"%string tokens Ht). set_solver.
  - intros ->. set_solver by lia.
Qed.

Definition sample_auth : UserAPIKeyAuth :=
  mkAuth "k1" None None (Some "acme"%string) [] [] None (Some 2) None None None None None None None
    (Some 5) None None None None (Some 1) None None None None None None None None None None None
    None None.

Lemma build_checks_admissible_witness :
  mkCheck "key_rpm" "k1" 2 1 60 ∈ build_rate_limit_checks sample_auth 10 None.
Proof.
  destruct (build_checks_admissible 0 sample_auth 10 None) as (_ & _ & _ & Hkey).
  destruct (Hkey 2 ltac:(discriminate) ltac:(lia)) as (Hrpm & _). exact (Hrpm eq_refl).
Defined.

(** Acquiring the controls of a request on the local counters.  Over some
    limit: the request is rejected naming the first such scope, and neither a
    count nor a slot changes.  Within the limits but with the key's parallel
    slots taken: it is rejected, its rate counts stay charged, and no slot
    changes hands.  Otherwise every count grows by its amount and stays within
    its limit, exactly one slot is taken when the key is limited, and the lease
    names that slot, unless the key is the empty string, whose slot no lease
    names. *)
Theorem acquire_controls_outcome {S} `{RedisLaws S} (now tokens : Z) (c : counter S)
    (auth : UserAPIKeyAuth) (model : option string) :
  redis c = None -> degraded_mode c = fail_open -> 0 <= key_slots c (api_key auth) ->
  let l := build_rate_limit_checks auth tokens model in
  let slots0 := key_slots c (api_key auth) in
  let limited := match max_parallel_requests auth with Some n => 0 <? n | None => false end in
  let full := match max_parallel_requests auth with Some n => n <? slots0 + 1 | None => false end in
  let '(c', r) := acquire_rate_limit_controls now auth tokens model c in
  match find (over (counted Local now c)) l with
  | Some f =>
    (forall k, counted Local now c' k = counted Local now c k) /\
    key_slots c' (api_key auth) = slots0 /\
    exists after, 1 <= after /\ r = Raise (rate_limit_exceeded (scope f) after)
  | None =>
    (forall k, k ∈ l -> counted Local now c' k = counted Local now c k + amount k /\
                        counted Local now c' k <= limit k) /\
    if limited && full
    then key_slots c' (api_key auth) = slots0 /\ r = Raise parallel_exceeded
    else key_slots c' (api_key auth) = slots0 + (if limited then 1 else 0) /\
         exists state, r = Ret (if limited && negb (Str.is_empty (api_key auth))
                                then mkLease (Some "key"%string) (Some (api_key auth))
                                else mkLease None None, state)
  end.
Proof.
  intros Hr Hm Hs l slots0 limited full.
  assert (Hlease : lease_of auth = if limited && negb (Str.is_empty (api_key auth))
      then mkLease (Some "key"%string) (Some (api_key auth)) else mkLease None None).
  { unfold lease_of. fold limited. rewrite andb_comm. by destruct (_ && _). }
  rewrite <- Hlease. clear Hlease.
  pose proof (request_admission now c auth tokens model Hr Hm) as Hadm. fold l in Hadm.
  unfold acquire_rate_limit_controls. fold l.
  unfold mbind, st_bind. cbv zeta in Hadm. fold l in Hadm.
  destruct (check_rate_limits_atomic now l c) as [c1 r1] eqn:Ec.
  destruct Hadm as (Hr1 & Hm1 & Hp1 & _ & Hadm).
  assert (Hs1 : key_slots c1 (api_key auth) = slots0) by (unfold key_slots, slots0; by rewrite Hp1).
  destruct (find (over (counted Local now c)) l) as [f|].
  - destruct Hadm as (Hsame & after & Ha & ->). eauto.
  - destruct Hadm as (Hcnt & result & ->). unfold limited, full.
    destruct (max_parallel_requests auth) as [n|] eqn:En.
    + destruct (Z.ltb_spec 0 n) as [Hn|Hn].
      * destruct (acquire_parallel_local c1 (api_key auth) n Hr1 Hm1 ltac:(lia) Hn) as (m & -> & Hm2).
        rewrite Hs1 in Hm2 |- *.
        destruct (n <? slots0 + 1); simpl; (split; [exact Hcnt|]); (split; [lia|]); eauto.
      * unfold acquire_parallel. rewrite (proj2 (Z.leb_le n 0)) by lia. simpl.
        split; [exact Hcnt|]. split; [lia|eauto].
    + simpl. split; [exact Hcnt|]. split; [lia|eauto].
Qed.

Lemma acquire_controls_outcome_witness :
  let c := init_counter (None : option (redis_client (gmap string Z))) "fail_open" in
  let '(c', r) := acquire_rate_limit_controls 0 sample_auth 10 None c in
  key_slots c' "k1" = 1 /\ exists state, r = Ret (mkLease (Some "key"%string) (Some "k1"%string), state).
Proof.
  intros c.
  pose proof (acquire_controls_outcome 0 10 c sample_auth None eq_refl eq_refl
    ltac:(vm_compute; discriminate)) as Hthm.
  destruct (acquire_rate_limit_controls 0 sample_auth 10 None c) as [c' r].
  exact (proj2 Hthm).
Defined.

(** The part the release relies on. *)
Lemma acquire_controls_slots {S} `{RedisLaws S} (now tokens : Z) (c : counter S)
    (auth : UserAPIKeyAuth) (model : option string) :
  redis c = None -> degraded_mode c = fail_open -> 0 <= key_slots c (api_key auth) ->
  let '(c', r) := acquire_rate_limit_controls now auth tokens model c in
  redis c' = None /\
  match r with
  | Raise _ => key_slots c' (api_key auth) = key_slots c (api_key auth)
  | Ret (lease, _) =>
    lease = lease_of auth /\
    key_slots c' (api_key auth) = key_slots c (api_key auth) +
      (if match max_parallel_requests auth with Some n => 0 <? n | None => false end then 1 else 0)
  end.
Proof.
  intros Hr Hm Hs. pose proof (request_admission now c auth tokens model Hr Hm) as Hadm.
  unfold acquire_rate_limit_controls, mbind, st_bind. cbv zeta in Hadm.
  destruct (check_rate_limits_atomic now _ c) as [c1 r1].
  destruct Hadm as (Hr1 & Hm1 & Hp1 & _ & _).
  assert (Hs1 : key_slots c1 (api_key auth) = key_slots c (api_key auth))
    by (unfold key_slots; by rewrite Hp1).
  destruct r1 as [result|e]; [|done].
  destruct (max_parallel_requests auth) as [n|]; [|simpl; split_and!; (done || lia)].
  destruct (Z.ltb_spec 0 n) as [Hn|Hn].
  - destruct (acquire_parallel_local c1 (api_key auth) n Hr1 Hm1 ltac:(lia) Hn) as (m & -> & Hm2).
    rewrite Hs1 in Hm2 |- *. destruct (n <? _); simpl; split_and!; (done || lia).
  - unfold acquire_parallel. rewrite (proj2 (Z.leb_le n 0)) by lia. simpl. split_and!; (done || lia).
Qed.

(** ** The reported state *)

Definition usage_entry : Type := RateLimitCheck * Z * Z.
Definition entry_ratio (e : usage_entry) : Q := usage_ratio e.1.2 (limit e.1.1).
(** What the headers say of one check, its count and its window reset. *)
Definition entry_fields (e : usage_entry) : Z * Z * Z * string :=
  (limit e.1.1, Z.max 0 (limit e.1.1 - e.1.2), e.2, scope e.1.1).

(** [fields] describe the most used check of a kind, or nothing. *)
Definition reports (kind : RateLimitCheck -> bool) (seen : list usage_entry)
    (fields : Z * Z * Z * string) : Prop :=
  ((forall e, e ∈ seen -> kind e.1.1 = false) /\ fields = (0, 0, 0, ""%string)) \/
  (exists e, e ∈ seen /\ kind e.1.1 = true /\ fields = entry_fields e /\
     forall e', e' ∈ seen -> kind e'.1.1 = true -> (entry_ratio e' <= entry_ratio e)%Q).

Definition rpm_fields (s : RateLimitState) : Z * Z * Z * string :=
  (st_rpm_limit s, st_rpm_remaining s, st_rpm_reset s, st_rpm_scope s).
Definition tpm_fields (s : RateLimitState) : Z * Z * Z * string :=
  (st_tpm_limit s, st_tpm_remaining s, st_tpm_reset s, st_tpm_scope s).

Section scan.

(** One kind's part of the loop invariant. *)
Definition best_so_far (kind : RateLimitCheck -> bool) (seen : list usage_entry) (best : Q)
    (fields : Z * Z * Z * string) : Prop :=
  reports kind seen fields /\
  (best = (-1)%Q \/ exists e, e ∈ seen /\ kind e.1.1 = true /\ best = entry_ratio e) /\
  (forall e, e ∈ seen -> kind e.1.1 = true -> (entry_ratio e <= best)%Q).

Definition max_so_far (seen : list usage_entry) (best : Q) : Prop :=
  (best = 0%Q \/ exists e, e ∈ seen /\ best = entry_ratio e) /\
  (forall e, e ∈ seen -> (entry_ratio e <= best)%Q).

Definition scan_inv (seen : list usage_entry) (u : usage_scan) : Prop :=
  best_so_far (fun c => (scope_kinds c).1) seen (best_rpm_ratio u) (rpm_fields (scan_state u)) /\
  best_so_far (fun c => (scope_kinds c).2) seen (best_tpm_ratio u) (tpm_fields (scan_state u)) /\
  max_so_far seen (max_usage_ratio u).

Lemma best_so_far_step kind seen best fields e :
  (0 <= entry_ratio e)%Q -> best_so_far kind seen best fields ->
  let better := kind e.1.1 && Qlt_bool best (entry_ratio e) in
  best_so_far kind (seen ++ [e]) (if better then entry_ratio e else best)
    (if better then entry_fields e else fields).
Proof.
  intros Hpos (Hrep & Hbest & Hle) better. unfold better.
  destruct (kind e.1.1) eqn:Ek; simpl.
  - destruct (Qlt_bool best (entry_ratio e)) eqn:El.
    + apply Qlt_bool_iff in El.
      assert (Hall : forall e', e' ∈ seen ++ [e] -> kind e'.1.1 = true -> (entry_ratio e' <= entry_ratio e)%Q).
      { intros e' [He'| ->%list_elem_of_singleton]%elem_of_app Hk; [|apply Qle_refl].
        apply Qlt_le_weak, Qle_lt_trans with best; auto. }
      split_and!; [right; exists e; set_solver|right; exists e; set_solver|exact Hall].
    + apply Qlt_bool_false in El. destruct Hbest as [->|(e0 & He0 & Hk0 & ->)]; [lra|].
      destruct Hrep as [[Hno _]|(e1 & He1 & Hk1 & Hf1 & Hm1)]; [by rewrite Hno in Hk0|].
      assert (Hall : forall e', e' ∈ seen ++ [e] -> kind e'.1.1 = true -> (entry_ratio e' <= entry_ratio e0)%Q).
      { intros e' [He'| ->%list_elem_of_singleton]%elem_of_app Hk; auto. }
      split_and!; [right; exists e1; split_and!; [set_solver|done|done|]|right; exists e0; set_solver|done].
      intros e' He' Hk. apply Qle_trans with (entry_ratio e0); auto.
  - assert (Hin : forall e', e' ∈ seen ++ [e] -> kind e'.1.1 = true -> e' ∈ seen).
    { intros e' [He'| ->%list_elem_of_singleton]%elem_of_app Hk; [done|congruence]. }
    split_and!; [|destruct Hbest as [|(e0 & ?)]; [by left|right; exists e0; set_solver]|auto].
    destruct Hrep as [[Hno Hf]|(e1 & He1 & Hk1 & Hf1 & Hm1)]; [left|right; exists e1].
    + split; [|done]. intros e' [He'| ->%list_elem_of_singleton]%elem_of_app; auto.
    + split_and!; [set_solver|auto..].
Qed.

Lemma max_so_far_step seen best e :
  max_so_far seen best ->
  max_so_far (seen ++ [e]) (if Qlt_bool best (entry_ratio e) then entry_ratio e else best).
Proof.
  intros [Hbest Hle]. destruct (Qlt_bool best (entry_ratio e)) eqn:El; split.
  - right. exists e. set_solver.
  - apply Qlt_bool_iff in El. intros e' [He'| ->%list_elem_of_singleton]%elem_of_app; [|apply Qle_refl].
    apply Qlt_le_weak, Qle_lt_trans with best; auto.
  - destruct Hbest as [|(e0 & ?)]; [by left|right; exists e0; set_solver].
  - apply Qlt_bool_false in El. intros e' [He'| ->%list_elem_of_singleton]%elem_of_app; auto.
Qed.

Lemma scan_inv_step seen u c v r :
  (0 <= usage_ratio v (limit c))%Q -> scan_inv seen u -> scan_inv (seen ++ [(c, v, r)]) (scan_check u c v r).
Proof.
  intros Hpos (Hr & Ht & Hm).
  apply (best_so_far_step _ _ _ _ (c, v, r)) in Hr; [|exact Hpos].
  apply (best_so_far_step _ _ _ _ (c, v, r)) in Ht; [|exact Hpos].
  apply (max_so_far_step _ _ (c, v, r)) in Hm.
  unfold scan_inv, scan_check. simpl in *. unfold entry_ratio in *. simpl in *.
  destruct (scope_kinds c) as [kr kt]; simpl in *.
  destruct (kr && _), (kt && _); simpl in *; done.
Qed.

Lemma scan_inv_all reset_at cs vs rs seen u :
  length vs = length cs -> length rs = length cs ->
  (forall e, e ∈ zip (zip cs vs) rs -> (0 <= entry_ratio e)%Q) ->
  scan_inv seen u -> scan_inv (seen ++ zip (zip cs vs) rs) (scan_checks u reset_at cs vs rs).
Proof.
  revert vs rs seen u. induction cs as [|c cs IH]; intros [|v vs] [|r rs] seen u Hv Hr Hp Hu;
    simplify_eq/=; [by rewrite app_nil_r|].
  rewrite (cons_middle (c, v, r)), app_assoc. apply IH; [done..| |].
  - intros e He. apply Hp. by right.
  - apply scan_inv_step; [apply (Hp (c, v, r)); left|exact Hu].
Qed.

Lemma scan_inv_initial : scan_inv [] initial_scan.
Proof. repeat split; try (left; split); try done; try (by left); set_solver. Qed.
End scan.

Lemma usage_ratio_nonneg v lim : 0 <= v -> (0 <= usage_ratio v lim)%Q.
Proof.
  intros Hv. unfold usage_ratio. destruct (Z.ltb_spec 0 lim); [|done].
  unfold Qle, Qdiv, Qmult, Qinv, inject_Z. destruct lim; simpl; lia.
Qed.

(** The rate-limit state the response headers are built from reports, for
    the request-count and for the token checks separately, a check used to the
    greatest share of its limit with what is left of it, never below zero, and
    its window's end, or zeros when there is no such check; the warning is
    [near_limit] when some check reached 95 percent of its limit,
    [approaching_limit] when the fullest is between 80 and 95 percent and none
    otherwise. *)
Theorem compute_state_reports (result : RateLimitResult) :
  length (current_values result) = length (checks result) ->
  length (window_resets result) = length (checks result) ->
  Forall (fun v => 0 <= v) (current_values result) ->
  let entries := zip (zip (checks result) (current_values result)) (window_resets result) in
  let s := compute_rate_limit_state result in
  reports (fun c => (scope_kinds c).1) entries (rpm_fields s) /\
  reports (fun c => (scope_kinds c).2) entries (tpm_fields s) /\
  let reached q := exists e, e ∈ entries /\ (q <= entry_ratio e)%Q in
  (st_warning s = Some "near_limit"%string <-> reached (95 # 100)%Q) /\
  (st_warning s = Some "approaching_limit"%string <-> reached (80 # 100)%Q /\ ~ reached (95 # 100)%Q) /\
  (st_warning s = None <-> ~ reached (80 # 100)%Q).
Proof.
  destruct result as [cs vs ra rs]. simpl. intros Hv Hr Hnn.
  pose proof (scan_inv_all ra cs vs rs [] initial_scan Hv Hr) as Hinv. simpl in Hinv.
  destruct Hinv as ((Hrpm & _) & (Htpm & _) & [Hmax Hle]); [|apply scan_inv_initial|].
  { intros [[c v] r] He. apply usage_ratio_nonneg. simpl. rewrite Forall_forall in Hnn. apply Hnn.
    apply elem_of_zip_l in He. by apply elem_of_zip_r in He. }
  assert (Hs : compute_rate_limit_state (mkResult cs vs ra rs) =
    let u := scan_checks initial_scan ra cs vs rs in
    with_warning (scan_state u) (usage_warning (max_usage_ratio u))).
  { by destruct cs, vs. }
  rewrite Hs. simpl. set (u := scan_checks _ _ _ _ _) in *. split_and!; [exact Hrpm|exact Htpm|..].
  all: assert (Hreach : forall q, (0 < q)%Q ->
    ((exists e, e ∈ zip (zip cs vs) rs /\ (q <= entry_ratio e)%Q) <-> (q <= max_usage_ratio u)%Q))
    by (intros q Hq; split; [intros (e & He & Hqe); apply Qle_trans with (entry_ratio e); auto|];
        intros Hqm; destruct Hmax as [Hz|(e & He & Hm)];
        [rewrite Hz in Hqm; exfalso; apply (Qlt_not_le 0 q); done|exists e; by rewrite <- Hm]).
  all: rewrite ?(Hreach (95 # 100)%Q eq_refl), ?(Hreach (80 # 100)%Q eq_refl); unfold usage_warning.
  all: set (m := max_usage_ratio u) in *; rewrite <- ?Qle_bool_iff.
  all: assert (Hmono : Qle_bool (95 # 100)%Q m = true -> Qle_bool (80 # 100)%Q m = true)
    by (rewrite !Qle_bool_iff; intros; by apply Qle_trans with (95 # 100)%Q).
  all: destruct (Qle_bool (95 # 100)%Q m) eqn:E95, (Qle_bool (80 # 100)%Q m) eqn:E80; naive_solver.
Qed.

Lemma compute_state_reports_witness :
  let c := mkCheck "key_rpm" "k" 10 1 60 in
  st_warning (compute_rate_limit_state (mkResult [c] [10] 60 [60])) = Some "near_limit"%string.
Proof.
  intros c.
  destruct (compute_state_reports (mkResult [c] [10] 60 [60]) eq_refl eq_refl) as (_ & _ & [_ Hnear] & _);
    [repeat constructor; lia|].
  apply Hnear. exists (c, 10, 60). split; [left|]. vm_compute. discriminate.
Defined.

(** ** The lease and the request *)

Section enforcement.
Context {S : Type} `{RedisLaws S}.
Implicit Types (c : counter S) (q : request_state).

(** What the enforcement code itself changes of a request. *)
Definition same_flags (q q' : request_state) : Prop :=
  rate_limit_checked q' = rate_limit_checked q /\
  rate_limit_released q' = rate_limit_released q /\
  rate_limit_parallel_key q' = rate_limit_parallel_key q.

Lemma release_rate_limits_marks c q :
  degraded_mode c = fail_open ->
  exists c' q', release_rate_limits (c, q) = ((c', q'), Ret tt) /\ rate_limit_released q' = true.
Proof.
  intros Hm. unfold release_rate_limits. destruct (rate_limit_released q) eqn:E; [eauto|].
  destruct (rate_limit_parallel_key q) as [key|]; [|by eexists _, _].
  destruct (Str.is_empty key); [by eexists _, _|].
  unfold mbind, st_bind, on_limiter.
  destruct (release_parallel_total c "key" key Hm) as [c' ->]. by eexists _, _.
Qed.

Lemma release_rate_limits_done s :
  rate_limit_released s.2 = true -> @release_rate_limits S _ s = (s, Ret tt).
Proof. destruct s as [c q]. simpl. by intros ->. Qed.

Lemma check_and_acquire_checked now tokens model s :
  rate_limit_checked s.2 = true -> @check_and_acquire_rate_limits S _ now tokens model s = (s, Ret tt).
Proof. destruct s as [c q]. simpl. by intros ->. Qed.

Lemma check_and_acquire_ret now tokens model c q s' :
  check_and_acquire_rate_limits now tokens model (c, q) = (s', Ret tt) ->
  rate_limit_checked s'.2 = true.
Proof.
  unfold check_and_acquire_rate_limits. intros Heq.
  repeat case_match; simplify_eq; done.
Qed.
End enforcement.

(** Enforcing the limits of a request a second time inside the first — the
    cache middleware enforces them around the endpoint's own dependency —
    charges and leases once: the nested run ends in the same counters, request
    state and outcome as a single one, whatever the handler does to the
    counters, as long as it leaves the request's enforcement flags alone. *)
Theorem enforce_nested_once {S} `{RedisLaws S} {A} (now tokens now' tokens' : Z)
    (model model' : option string) (handler : st (counter S * request_state) exn A) s :
  (forall s, same_flags s.2 (fst (handler s)).2 /\ degraded_mode (fst (handler s)).1 = fail_open) ->
  enforce_rate_limits now tokens model (enforce_rate_limits now' tokens' model' handler) s
  = enforce_rate_limits now tokens model handler s.
Proof.
  intros Hh. destruct s as [c q]. unfold enforce_rate_limits at 1 3. unfold mbind, st_bind.
  destruct (check_and_acquire_rate_limits now tokens model (c, q)) as [s1 [[]|e]] eqn:Ea; [|done].
  pose proof (check_and_acquire_ret _ _ _ _ _ _ Ea) as Hck.
  unfold try_finally, enforce_rate_limits. unfold mbind, st_bind.
  rewrite check_and_acquire_checked by done. unfold try_finally.
  destruct (Hh s1) as [_ Hmode]. destruct (handler s1) as [[c2 q2] r]. simpl in Hmode.
  destruct (release_rate_limits_marks c2 q2 Hmode) as (c3 & q3 & -> & Hrel).
  by rewrite release_rate_limits_done.
Qed.

Lemma enforce_nested_once_witness :
  let c := init_counter (None : option (redis_client (gmap string Z))) "fail_open" in
  let s := (c, fresh_request (Some sample_auth)) in
  let h : st (counter (gmap string Z) * request_state) exn unit :=
    fun '(c, q) => ((mkCounter None fail_open (fallback_counters c) (fallback_parallel c), q), Ret tt) in
  key_slots (fst (enforce_rate_limits 0 10 None (enforce_rate_limits 0 10 None h) s)).1 "k1" = 0.
Proof.
  intros c s h.
  rewrite (enforce_nested_once 0 10 0 10 None None h s) by (intros [c' q']; repeat split).
  vm_compute. reflexivity.
Defined.

(** The parallel slot of a request is given back on every path: whatever
    the handler returns or raises, and also when the acquisition itself is
    rejected, the local slot count of the request's key ends where it began,
    provided the handler does not touch the slots itself. *)
Theorem enforce_returns_slot {S} `{RedisLaws S} {A} (now tokens : Z) (model : option string)
    (handler : st (counter S * request_state) exn A) (c : counter S) (auth : UserAPIKeyAuth) :
  redis c = None -> degraded_mode c = fail_open -> 0 <= key_slots c (api_key auth) ->
  api_key auth <> ""%string ->
  (forall s, same_flags s.2 (fst (handler s)).2 /\ redis (fst (handler s)).1 = redis s.1 /\
             fallback_parallel (fst (handler s)).1 = fallback_parallel s.1) ->
  key_slots (fst (enforce_rate_limits now tokens model handler (c, fresh_request (Some auth)))).1
    (api_key auth) = key_slots c (api_key auth).
Proof.
  intros Hr Hm Hs Hk Hh.
  pose proof (acquire_controls_slots now tokens c auth model Hr Hm Hs) as Hout.
  unfold enforce_rate_limits, mbind, st_bind, check_and_acquire_rate_limits. simpl.
  destruct (acquire_rate_limit_controls now auth tokens model c) as [c1 [[lease state]|e]].
  2:{ destruct Hout as [_ Hsame]. by destruct (is_proxy RateLimitError e). }
  destruct Hout as (Hredis & -> & Hslots).
  unfold try_finally. specialize (Hh (c1, mark_acquired (parallel_entity_id (lease_of auth))
    (mark_state state (fresh_request (Some auth))))).
  destruct (handler _) as [[c2 q2] r]. simpl in *.
  destruct Hh as ((_ & Hrel & Hpk) & Hr2 & Hp2). rewrite Hrel, Hpk.
  assert (Hslots2 : key_slots c2 (api_key auth) = key_slots c1 (api_key auth))
    by (unfold key_slots; by rewrite Hp2).
  rewrite (proj2 (String.eqb_neq _ _) Hk : Str.is_empty (api_key auth) = false). simpl.
  destruct (match max_parallel_requests auth with Some n => 0 <? n | None => false end) eqn:El.
  - simpl. rewrite (proj2 (String.eqb_neq _ _) Hk : Str.is_empty (api_key auth) = false).
    unfold mbind, st_bind, on_limiter.
    destruct (release_parallel_local c2 (api_key auth)) as (m & -> & Hm2); [congruence|lia|].
    simpl. lia.
  - simpl. lia.
Qed.

Lemma enforce_returns_slot_witness :
  let c := init_counter (None : option (redis_client (gmap string Z))) "fail_open" in
  let h : st (counter (gmap string Z) * request_state) exn unit := fun s => (s, Raise index_error) in
  key_slots (fst (enforce_rate_limits 0 10 None h (c, fresh_request (Some sample_auth)))).1 "k1" = 0.
Proof.
  intros c h.
  exact (enforce_returns_slot 0 10 None h c sample_auth eq_refl eq_refl ltac:(vm_compute; discriminate)
    ltac:(discriminate) ltac:(intros s; repeat split)).
Defined.
