(* ===== verification/Billing.v ===== *)
(** * Pricing and cost: src/billing/cost.py and src/billing/pricing.py

    Floating point numbers are exact rationals with infinities and NaN;
    [round(x, 10)] rounds half to even.  Usage and model information are the
    untyped dictionaries of the source, so a conversion may raise. *)

From Stdlib Require Import Sorting.Sorted.
From S2P Require Import Prelude PyVal.

Abbreviation pydict := (list (string * pyval)).

(** ** Float arithmetic *)

Module Fl.

Definition of_Z (z : Z) : pyfloat := FFin (inject_Z z).
Definition zero : pyfloat := FFin 0.

(** The sign of a float that is not NaN. *)
Definition sgn (x : pyfloat) : Z :=
  match x with FFin q => Z.sgn (Qnum q) | FInf neg => if neg then -1 else 1 | FNaN => 0 end.

Definition mul (x y : pyfloat) : pyfloat :=
  match x, y with
  | FNaN, _ | _, FNaN => FNaN
  | FFin p, FFin q => FFin (p * q)
  | _, _ => let s := sgn x * sgn y in if s =? 0 then FNaN else FInf (s <? 0)
  end.

Definition add (x y : pyfloat) : pyfloat :=
  match x, y with
  | FNaN, _ | _, FNaN => FNaN
  | FFin p, FFin q => FFin (p + q)
  | FInf a, FInf b => if Bool.eqb a b then FInf a else FNaN
  | FInf a, FFin _ | FFin _, FInf a => FInf a
  end.

(** [x < y] *)
Definition ltb (x y : pyfloat) : bool :=
  match x, y with
  | FNaN, _ | _, FNaN => false
  | FFin p, FFin q => Qlt_bool p q
  | FInf a, FInf b => a && negb b
  | FInf a, FFin _ => a
  | FFin _, FInf b => negb b
  end.

Definition eqb (x y : pyfloat) : bool :=
  match x, y with
  | FFin p, FFin q => Qeq_bool p q
  | FInf a, FInf b => Bool.eqb a b
  | _, _ => false
  end.

(** [max(0.0, x)]: the first argument unless the second is greater. *)
Definition max0 (x : pyfloat) : pyfloat := if ltb zero x then x else zero.

Definition positive (x : pyfloat) : bool := ltb zero x.
Definition truthy (x : pyfloat) : bool := negb (eqb x zero).

Definition floor (q : Q) : Z := Qnum q / Zpos (Qden q).

Definition round_half_even (q : Q) : Z :=
  let f := floor q in
  let r := (q - inject_Z f)%Q in
  if Qlt_bool r (1 # 2) then f
  else if Qlt_bool (1 # 2) r then f + 1
  else if Z.even f then f else f + 1.

(** [round(x, 10)] *)
Definition round10 (x : pyfloat) : pyfloat :=
  match x with
  | FFin q => FFin (inject_Z (round_half_even (q * inject_Z (10 ^ 10))) / inject_Z (10 ^ 10))
  | _ => x
  end.
End Fl.

(** ** ModelPricing and the price map *)

Record ModelPricing : Type := mkPricing {
  input_cost_per_token : pyfloat;
  output_cost_per_token : pyfloat;
  input_cost_per_token_cache_hit : option pyfloat;
  output_cost_per_token_cache_hit : option pyfloat;
  cost_per_request : pyfloat;
  context_window : Z;
  max_output_tokens : option Z
}.

(** A price in units of 1e-9. *)
Definition nano (n : Z) : pyfloat := FFin (Qmake n 1000000000).

Definition listed (input output : Z) (input_cache_hit : option Z) (window : Z) : ModelPricing :=
  mkPricing (nano input) (nano output) (option_map nano input_cache_hit) None Fl.zero window None.

Definition DEFAULT_MODEL_COST_MAP : list (string * ModelPricing) := [
  ("gpt-4", listed 30000 60000 None 8192);
  ("gpt-4-32k", listed 60000 120000 None 32768);
  ("gpt-4-turbo", listed 10000 30000 (Some 5000) 128000);
  ("gpt-4o", listed 5000 15000 (Some 2500) 128000);
  ("gpt-4o-mini", listed 150 600 (Some 75) 128000);
  ("gpt-3.5-turbo", listed 500 1500 None 16385);
  ("text-embedding-3-small", listed 20 0 None 8192);
  ("text-embedding-3-large", listed 130 0 None 8192);
  ("claude-3-opus", listed 15000 75000 None 200000);
  ("claude-3-sonnet", listed 3000 15000 None 200000);
  ("claude-3-haiku", listed 250 1250 None 200000)]%string.

(** [sorted(keys, key=len, reverse=True)]: a stable sort. *)
Fixpoint insert_by_len (x : string) (l : list string) : list string :=
  match l with
  | [] => [x]
  | y :: l' => if (String.length y <=? String.length x)%nat then x :: l else y :: insert_by_len x l'
  end.
Definition longest_first (keys : list string) : list string := foldr insert_by_len [] keys.

(** [get_model_pricing] *)
Definition get_model_pricing (model : string) (cost_map : option (list (string * ModelPricing)))
    (custom_pricing : option ModelPricing) : option ModelPricing :=
  match custom_pricing with
  | Some p => Some p
  | None =>
    let pricing_map := match cost_map with
                       | Some ((_ :: _) as m) => m
                       | _ => DEFAULT_MODEL_COST_MAP
                       end in
    match dict_get pricing_map model with
    | Some p => Some p
    | None =>
      match find (fun prefix => Str.startswith model prefix) (longest_first (map fst pricing_map)) with
      | Some prefix => dict_get pricing_map prefix
      | None => None
      end
    end
  end.

Definition float_unless_none (v : pyval) (d : pyfloat) : res pyexc pyfloat :=
  if is_none v then Ret d else py_float v.

(** [resolve_batch_pricing] *)
Definition resolve_batch_pricing (sync_pricing : option ModelPricing) (model_info : pydict)
    : res pyexc (option ModelPricing) :=
  match sync_pricing with
  | None => Ret None
  | Some sync =>
    let batch_input := vget model_info "batch_input_cost_per_token" in
    let batch_output := vget model_info "batch_output_cost_per_token" in
    let multiplier := vget model_info "batch_price_multiplier" in
    if negb (is_none batch_input) || negb (is_none batch_output) then
      i ← float_unless_none batch_input (input_cost_per_token sync);
      o ← float_unless_none batch_output (output_cost_per_token sync);
      Ret (Some (mkPricing i o (input_cost_per_token_cache_hit sync)
                   (output_cost_per_token_cache_hit sync) (cost_per_request sync)
                   (context_window sync) (max_output_tokens sync)))
    else if negb (is_none multiplier) then
      m ← py_float multiplier;
      let scale x := Fl.mul x (Fl.max0 m) in
      Ret (Some (mkPricing (scale (input_cost_per_token sync)) (scale (output_cost_per_token sync))
                   (option_map scale (input_cost_per_token_cache_hit sync))
                   (option_map scale (output_cost_per_token_cache_hit sync))
                   (scale (cost_per_request sync)) (context_window sync) (max_output_tokens sync)))
    else Ret (Some sync)
  end.

(** [max(0, int(usage.get(key, default) or 0))] *)
Definition count_of (v : pyval) : res pyexc Z := n ← py_int (py_or v (PyInt 0)); Ret (Z.max 0 n).
Definition usage_count (usage : pydict) (key : string) : res pyexc Z :=
  count_of (vget_or usage key (PyInt 0)).

(** ** completion_cost *)

Definition prompt_cost_of (p : ModelPricing) (cache_hit : bool) (prompt cached : Z) : pyfloat :=
  let uncached := Z.max 0 (prompt - cached) in
  match input_cost_per_token_cache_hit p with
  | Some hit =>
    if cache_hit || (0 <? cached)
    then Fl.add (Fl.mul (Fl.of_Z cached) hit) (Fl.mul (Fl.of_Z uncached) (input_cost_per_token p))
    else Fl.mul (Fl.of_Z prompt) (input_cost_per_token p)
  | None => Fl.mul (Fl.of_Z prompt) (input_cost_per_token p)
  end.

Definition output_cost_of (p : ModelPricing) (cache_hit : bool) (completion : Z) : pyfloat :=
  match output_cost_per_token_cache_hit p with
  | Some hit => if cache_hit then Fl.mul (Fl.of_Z completion) hit
                else Fl.mul (Fl.of_Z completion) (output_cost_per_token p)
  | None => Fl.mul (Fl.of_Z completion) (output_cost_per_token p)
  end.

Definition completion_cost (model : string) (usage : pydict) (cache_hit : bool)
    (cost_map : option (list (string * ModelPricing))) (custom_pricing : option ModelPricing)
    (batch_tier : bool) (model_info : pydict) : res pyexc pyfloat :=
  let pricing := get_model_pricing model cost_map custom_pricing in
  pricing ← (if batch_tier then resolve_batch_pricing pricing model_info else Ret pricing);
  match pricing with
  | None => Ret Fl.zero
  | Some p =>
    prompt ← usage_count usage "prompt_tokens";
    completion ← usage_count usage "completion_tokens";
    cached ← usage_count usage "prompt_tokens_cached";
    let total := Fl.add (Fl.add (prompt_cost_of p cache_hit prompt cached)
                                (output_cost_of p cache_hit completion)) (cost_per_request p) in
    Ret (Fl.round10 total)
  end.

(** ** compute_billing_result *)

Record BillingResult : Type := mkBilling {
  cost : pyfloat;
  billing_unit : option string;
  pricing_fields_used : list string;
  usage_snapshot : pydict;
  unpriced_reason : option string
}.

(** [float(info.get(key) or 0)], which may raise. *)
Definition float_or_0 (v : pyval) : res pyexc pyfloat := py_float (py_or v (PyInt 0)).

(** [_float_or_zero]: only [TypeError] and [ValueError] are caught. *)
Definition float_or_zero (v : pyval) : res pyexc pyfloat :=
  match py_float (py_or v (PyInt 0)) with
  | Raise OverflowError => Raise OverflowError
  | Raise _ => Ret Fl.zero
  | Ret x => Ret x
  end.

(** [_compact_usage_snapshot] *)
Definition compact_usage_snapshot (values : pydict) : pydict :=
  filter (fun kv => truthy kv.2 = true) values.

Definition priced (unit : string) (fields : list string) (snapshot : pydict) (c : pyfloat)
    : BillingResult := mkBilling (Fl.round10 c) (Some unit) fields snapshot None.

(** [usage.get(key, usage.get(old, 0))] *)
Definition renamed (usage : pydict) (key old : string) : pyval :=
  vget_or usage key (vget_or usage old (PyInt 0)).

(** [max(0.0, float(v or 0))] *)
Definition duration_of (v : pyval) : res pyexc pyfloat :=
  d ← float_or_0 v; Ret (Fl.max0 d).

Definition any_positive (l : list pyfloat) : bool := existsb Fl.positive l.

(** Sum of the products, from the left as the source adds them. *)
Definition cost_sum (terms : list (pyfloat * pyfloat)) : pyfloat :=
  match terms with
  | [] => Fl.zero
  | (n, p) :: terms' => foldl (fun acc '(n, p) => Fl.add acc (Fl.mul n p)) (Fl.mul n p) terms'
  end.

(** Durations priced per second. *)
Definition second_cost (duration per_input per_output : pyfloat) : pyfloat :=
  Fl.mul duration (Fl.add per_input per_output).

Definition compute_audio_speech_billing (usage info : pydict) : res pyexc BillingResult :=
  pt ← usage_count usage "prompt_tokens";
  ct ← usage_count usage "completion_tokens";
  ia ← count_of (renamed usage "input_audio_tokens" "audio_tokens");
  oa ← usage_count usage "output_audio_tokens";
  ip ← float_or_zero (vget info "input_cost_per_token");
  op ← float_or_zero (vget info "output_cost_per_token");
  iap ← float_or_zero (vget info "input_cost_per_audio_token");
  oap ← float_or_zero (vget info "output_cost_per_audio_token");
  let token_usage := existsb (fun n => 0 <? n) [pt; ct; ia; oa] in
  let token_counts := [("prompt_tokens", PyInt pt); ("completion_tokens", PyInt ct);
                       ("input_audio_tokens", PyInt ia); ("output_audio_tokens", PyInt oa)]%string in
  if token_usage && any_positive [ip; op; iap; oap] then
    Ret (priced "token"
           ["input_cost_per_token"; "output_cost_per_token"; "input_cost_per_audio_token";
            "output_cost_per_audio_token"] token_counts
           (cost_sum [(Fl.of_Z pt, ip); (Fl.of_Z ct, op); (Fl.of_Z ia, iap); (Fl.of_Z oa, oap)]))
  else
  ic ← count_of (renamed usage "input_characters" "characters");
  oc ← usage_count usage "output_characters";
  icp ← float_or_zero (vget info "input_cost_per_character");
  ocp ← float_or_zero (vget info "output_cost_per_character");
  if ((0 <? ic) || (0 <? oc)) && any_positive [icp; ocp] then
    Ret (priced "character" ["input_cost_per_character"; "output_cost_per_character"]
           [("input_characters", PyInt ic); ("output_characters", PyInt oc)]%string
           (cost_sum [(Fl.of_Z ic, icp); (Fl.of_Z oc, ocp)]))
  else
  duration ← duration_of (vget_or usage "duration_seconds" (PyInt 0));
  isp ← float_or_zero (vget info "input_cost_per_second");
  osp ← float_or_zero (vget info "output_cost_per_second");
  if Fl.positive duration && any_positive [isp; osp] then
    Ret (priced "second" ["input_cost_per_second"; "output_cost_per_second"]
           [("duration_seconds"%string, PyFloat duration)] (second_cost duration isp osp))
  else
    Ret (mkBilling Fl.zero None []
           (compact_usage_snapshot
              (token_counts ++ [("input_characters", PyInt ic); ("output_characters", PyInt oc);
                                ("duration_seconds", PyFloat duration)]%string))
           (Some "missing_tts_pricing_or_usage"%string)).

Definition compute_audio_transcription_billing (usage info : pydict) : res pyexc BillingResult :=
  pt ← usage_count usage "prompt_tokens";
  ct ← usage_count usage "completion_tokens";
  ia ← count_of (renamed usage "input_audio_tokens" "audio_tokens");
  ip ← float_or_zero (vget info "input_cost_per_token");
  op ← float_or_zero (vget info "output_cost_per_token");
  iap ← float_or_zero (vget info "input_cost_per_audio_token");
  let token_usage := existsb (fun n => 0 <? n) [pt; ct; ia] in
  let token_counts := [("prompt_tokens", PyInt pt); ("completion_tokens", PyInt ct);
                       ("input_audio_tokens", PyInt ia)]%string in
  if token_usage && any_positive [ip; op; iap] then
    Ret (priced "token"
           ["input_cost_per_token"; "output_cost_per_token"; "input_cost_per_audio_token"]
           token_counts (cost_sum [(Fl.of_Z pt, ip); (Fl.of_Z ct, op); (Fl.of_Z ia, iap)]))
  else
  raw ← duration_of (vget_or usage "duration_seconds" (PyInt 0));
  duration ← duration_of (vget_or usage "billable_duration_seconds" (PyFloat raw));
  isp ← float_or_zero (vget info "input_cost_per_second");
  osp ← float_or_zero (vget info "output_cost_per_second");
  let shown := if Fl.truthy raw then raw else duration in
  if Fl.positive duration && any_positive [isp; osp] then
    Ret (priced "second" ["input_cost_per_second"; "output_cost_per_second"]
           ([("duration_seconds"%string, PyFloat shown)] ++
            if Fl.positive raw && negb (Fl.eqb duration raw)
            then [("billable_duration_seconds"%string, PyFloat duration)] else [])
           (second_cost duration isp osp))
  else
    Ret (mkBilling Fl.zero None []
           (compact_usage_snapshot (token_counts ++ [("duration_seconds"%string, PyFloat shown)]))
           (Some "missing_stt_pricing_or_usage"%string)).

Definition compute_billing_result (mode : string) (usage info : pydict) : res pyexc BillingResult :=
  if String.eqb mode "chat" || String.eqb mode "embedding" || String.eqb mode "rerank" then
    input_cost ← float_or_0 (vget info "input_cost_per_token");
    output_cost ← float_or_0 (vget info "output_cost_per_token");
    pt ← usage_count usage "prompt_tokens";
    ct ← usage_count usage "completion_tokens";
    Ret (priced "token" ["input_cost_per_token"; "output_cost_per_token"]
           [("prompt_tokens", PyInt pt); ("completion_tokens", PyInt ct)]%string
           (Fl.add (Fl.mul (Fl.of_Z pt) input_cost) (Fl.mul (Fl.of_Z ct) output_cost)))
  else if String.eqb mode "image_generation" then
    per_image ← float_or_0 (vget info "input_cost_per_image");
    n ← py_int (py_or (vget_or usage "images" (PyInt 1)) (PyInt 1));
    let images := Z.max 0 n in
    Ret (priced "image" ["input_cost_per_image"] [("images"%string, PyInt images)]
           (Fl.mul (Fl.of_Z images) per_image))
  else if String.eqb mode "audio_speech" then compute_audio_speech_billing usage info
  else if String.eqb mode "audio_transcription" then compute_audio_transcription_billing usage info
  else Ret (mkBilling Fl.zero None [] [] (Some ("unsupported_mode:" +:+ mode))).

Definition compute_cost (mode : string) (usage info : pydict) : res pyexc pyfloat :=
  r ← compute_billing_result mode usage info; Ret (cost r).

(** ** src/billing/pricing.py *)

(** [_float_or_none] *)
Definition float_or_none (v : pyval) : res pyexc (option pyfloat) :=
  match v with
  | PyNone | PyStr EmptyString => Ret None
  | _ => match py_float v with
         | Ret x => Ret (Some x)
         | Raise OverflowError => Raise OverflowError
         | Raise _ => Ret None
         end
  end.

Definition or_fallback (x fallback : option pyfloat) : option pyfloat :=
  match x with Some _ => x | None => fallback end.

(** [float(x or 0.0)] *)
Definition cost_or_0 (x : option pyfloat) : pyfloat :=
  match x with Some f => if Fl.truthy f then f else Fl.zero | None => Fl.zero end.

Definition pricing_from_model_info (info : pydict) (fallback_input fallback_output : option pyfloat)
    : res pyexc (option ModelPricing) :=
  input ← float_or_none (vget info "input_cost_per_token");
  output ← float_or_none (vget info "output_cost_per_token");
  input_hit ← float_or_none (vget info "input_cost_per_token_cache_hit");
  output_hit ← float_or_none (vget info "output_cost_per_token_cache_hit");
  let input := or_fallback input fallback_input in
  let output := or_fallback output fallback_output in
  match input, output, input_hit, output_hit with
  | None, None, None, None => Ret None
  | _, _, _, _ =>
    Ret (Some (mkPricing (cost_or_0 input) (cost_or_0 output) input_hit output_hit Fl.zero 8192 None))
  end.

Definition normalize_gateway_cache_hit_usage (usage : pydict) : res pyexc pydict :=
  if is_none (vget usage "prompt_tokens_cached") then
    n ← usage_count usage "prompt_tokens";
    Ret (dict_set usage "prompt_tokens_cached" (PyInt n))
  else Ret usage.

(** ** Choosing the price list entry *)

Section pricing_lookup.

Lemma insert_by_len_perm x l : insert_by_len x l ≡ₚ x :: l.
Proof.
  induction l as [|y l IH]; simpl; [done|]. destruct (_ <=? _)%nat; [done|].
  rewrite IH. constructor.
Qed.

Lemma longest_first_perm l : longest_first l ≡ₚ l.
Proof. induction l as [|x l IH]; simpl; [done|]. by rewrite insert_by_len_perm, IH. Qed.

Definition by_len : relation string := fun x y => (String.length y <= String.length x)%nat.

Lemma insert_by_len_sorted x l : StronglySorted by_len l -> StronglySorted by_len (insert_by_len x l).
Proof.
  induction 1 as [|y l Hs IH Hall]; simpl; [repeat constructor|].
  destruct (Nat.leb_spec (String.length y) (String.length x)).
  - constructor; [by constructor|]. constructor; [done|].
    eapply Forall_impl; [exact Hall|]. unfold by_len. intros z Hz. simpl in Hz. lia.
  - constructor; [done|]. rewrite insert_by_len_perm. constructor; [unfold by_len; lia|done].
Qed.

Lemma longest_first_sorted l : StronglySorted by_len (longest_first l).
Proof. induction l as [|x l IH]; simpl; [constructor|]. by apply insert_by_len_sorted. Qed.

(** The first match in a list sorted by length is a longest match. *)
Lemma find_longest p l x : find p (longest_first l) = Some x ->
  x ∈ l /\ p x = true /\ forall y, y ∈ l -> p y = true -> (String.length y <= String.length x)%nat.
Proof.
  intros Hf. apply find_some in Hf as Hf'. destruct Hf' as [Hin Hp]. apply list_elem_of_In in Hin.
  rewrite longest_first_perm in Hin. split_and!; [done..|].
  intros y Hy Hpy. rewrite <- (longest_first_perm l) in Hy. pose proof (longest_first_sorted l) as Hs.
  revert Hf Hy Hs. induction (longest_first l) as [|z l' IH]; simpl; intros Hf Hy Hs; [by apply not_elem_of_nil in Hy|].
  apply StronglySorted_inv in Hs as [Hs Hall]. apply elem_of_cons in Hy.
  destruct (p z) eqn:Ez.
  - injection Hf as ->. destruct Hy as [->|Hy]; [done|]. rewrite Forall_forall in Hall. by apply Hall.
  - destruct Hy as [->|Hy]; [congruence|auto].
Qed.
End pricing_lookup.

(** Without custom pricing, the price of a model is that of its own name
    in the price map (the built-in map when none or an empty one is given),
    else of a longest key that is a prefix of the model's name, and there is
    none exactly when no key is a prefix. *)
Theorem model_pricing_longest_prefix (model : string) (cost_map : option (list (string * ModelPricing))) :
  let prices := match cost_map with Some ((_ :: _) as m) => m | _ => DEFAULT_MODEL_COST_MAP end in
  match get_model_pricing model cost_map None with
  | Some p =>
    dict_get prices model = Some p \/
    (dict_get prices model = None /\
     exists prefix, dict_get prices prefix = Some p /\ Str.startswith model prefix = true /\
       forall k, k ∈ map fst prices -> Str.startswith model k = true ->
         (String.length k <= String.length prefix)%nat)
  | None => forall k, k ∈ map fst prices -> Str.startswith model k = false
  end.
Proof.
  intros prices. unfold get_model_pricing. fold prices.
  destruct (dict_get prices model) as [p|] eqn:Em; [by left|].
  destruct (find _ (longest_first (map fst prices))) as [prefix|] eqn:Ef.
  - apply find_longest in Ef as (Hin & Hp & Hmax).
    destruct (dict_get prices prefix) as [p|] eqn:Ep; [|by apply dict_get_None in Ep].
    right. eauto.
  - intros k Hk. rewrite <- (longest_first_perm (map fst prices)) in Hk.
    by apply (find_none_forall _ _ _ Ef).
Qed.

(** ** Costs are finite and not negative *)

Definition nonneg_float (x : pyfloat) : Prop := exists q, x = FFin q /\ (0 <= q)%Q.
Definition finite_float (x : pyfloat) : Prop := exists q, x = FFin q.

Section float_facts.

Lemma floor_spec q : (inject_Z (Fl.floor q) <= q)%Q /\ (q < inject_Z (Fl.floor q + 1))%Q.
Proof.
  unfold Fl.floor, Qle, Qlt, inject_Z. destruct q as [n d]. simpl.
  pose proof (Z.div_mod n (Zpos d) ltac:(lia)). pose proof (Z.mod_pos_bound n (Zpos d) ltac:(lia)). lia.
Qed.

Lemma floor_le q1 q2 : (q1 <= q2)%Q -> Fl.floor q1 <= Fl.floor q2.
Proof.
  intros Hq. destruct (floor_spec q1) as [H1 _], (floor_spec q2) as [_ H2].
  assert (inject_Z (Fl.floor q1) < inject_Z (Fl.floor q2 + 1))%Q as Hlt by lra.
  rewrite <- Zlt_Qlt in Hlt. lia.
Qed.

Lemma round_half_even_bounds q :
  Fl.floor q <= Fl.round_half_even q <= Fl.floor q + 1.
Proof. unfold Fl.round_half_even. repeat case_match; lia. Qed.

Lemma round_half_even_le q1 q2 : (q1 <= q2)%Q -> Fl.round_half_even q1 <= Fl.round_half_even q2.
Proof.
  intros Hq. pose proof (floor_le q1 q2 Hq). pose proof (round_half_even_bounds q1).
  pose proof (round_half_even_bounds q2).
  destruct (Z.eq_dec (Fl.floor q1) (Fl.floor q2)) as [He|]; [|lia].
  unfold Fl.round_half_even. rewrite He.
  destruct (Qlt_bool (q1 - _) (1 # 2)) eqn:E1, (Qlt_bool (q2 - _) (1 # 2)) eqn:E2; simpl;
    rewrite ?Qlt_bool_iff, ?Qlt_bool_false in *; try (repeat case_match; lia); [exfalso; lra|].
  destruct (Qlt_bool (1 # 2) (q1 - _)) eqn:E3, (Qlt_bool (1 # 2) (q2 - _)) eqn:E4; simpl;
    rewrite ?Qlt_bool_iff, ?Qlt_bool_false in *; try (repeat case_match; lia). exfalso; lra.
Qed.

Lemma round10_le q1 q2 c1 c2 : (q1 <= q2)%Q ->
  Fl.round10 (FFin q1) = FFin c1 -> Fl.round10 (FFin q2) = FFin c2 -> (c1 <= c2)%Q.
Proof.
  intros Hq [= <-] [= <-]. apply Qmult_le_compat_r; [|done]. rewrite <- Zle_Qle.
  apply round_half_even_le, Qmult_le_compat_r; done.
Qed.

Lemma round10_nonneg x : nonneg_float x -> nonneg_float (Fl.round10 x).
Proof.
  intros (q & -> & Hq). eexists. split; [reflexivity|].
  apply Qle_shift_div_l; [done|]. rewrite Qmult_0_l. change 0%Q with (inject_Z 0). rewrite <- Zle_Qle.
  pose proof (round_half_even_bounds (q * inject_Z (10 ^ 10))).
  enough (0 <= Fl.floor (q * inject_Z (10 ^ 10))) by lia.
  change 0 with (Fl.floor 0). apply floor_le. apply Qmult_le_0_compat; done.
Qed.

Lemma of_Z_nonneg n : 0 <= n -> nonneg_float (Fl.of_Z n).
Proof. intros Hn. exists (inject_Z n). split; [done|]. change 0%Q with (inject_Z 0). by rewrite <- Zle_Qle. Qed.

Lemma mul_nonneg x y : nonneg_float x -> nonneg_float y -> nonneg_float (Fl.mul x y).
Proof. intros (p & -> & Hp) (q & -> & Hq). exists (p * q)%Q. split; [done|]. by apply Qmult_le_0_compat. Qed.

Lemma add_nonneg x y : nonneg_float x -> nonneg_float y -> nonneg_float (Fl.add x y).
Proof. intros (p & -> & Hp) (q & -> & Hq). exists (p + q)%Q. split; [done|lra]. Qed.

Lemma max0_nonneg x : finite_float x -> nonneg_float (Fl.max0 x).
Proof.
  intros [q ->]. unfold Fl.max0, Fl.ltb, Fl.zero. destruct (Qlt_bool 0 q) eqn:E.
  - exists q. apply Qlt_bool_iff in E. split; [done|lra].
  - exists 0%Q. split; done.
Qed.

Lemma zero_nonneg : nonneg_float Fl.zero.
Proof. by exists 0%Q. Qed.

Lemma cost_sum_nonneg terms :
  Forall (fun t => nonneg_float t.1 /\ nonneg_float t.2) terms -> nonneg_float (cost_sum terms).
Proof.
  destruct terms as [|[n p] terms]; [intros _; apply zero_nonneg|].
  intros [[Hn Hp] Hall]%Forall_cons. unfold cost_sum. cbn [fst snd] in *.
  pose proof (mul_nonneg _ _ Hn Hp) as Hacc.
  clear Hn Hp. revert Hacc. generalize (Fl.mul n p). clear n p.
  induction terms as [|[n p] terms IH]; intros acc Hacc; [exact Hacc|].
  apply Forall_cons in Hall as [[Hn Hp] Hall]. cbn [foldl fst snd] in *. apply IH; [done|].
  auto using add_nonneg, mul_nonneg.
Qed.

Lemma count_of_nonneg v n : count_of v = Ret n -> 0 <= n.
Proof. intros (m & _ & [= <-])%res_bind_ret. lia. Qed.
End float_facts.

#[export] Hint Resolve round10_nonneg of_Z_nonneg mul_nonneg add_nonneg max0_nonneg zero_nonneg : py.

Section billing_outcome.
Context (usage info : pydict).
(** Prices read as floats are finite and not negative, usage values finite. *)
Hypothesis Hinfo : forall k x, float_or_0 (vget info k) = Ret x -> nonneg_float x.
Hypothesis Husage : forall v x, v ∈ map snd usage -> float_or_0 v = Ret x -> finite_float x.

Lemma float_or_zero_nonneg k x : float_or_zero (vget info k) = Ret x -> nonneg_float x.
Proof.
  unfold float_or_zero. specialize (Hinfo k). unfold float_or_0 in Hinfo.
  destruct (py_float _) as [y|[]]; intros [= <-]; auto using zero_nonneg.
Qed.

Lemma duration_nonneg k d x :
  (forall y, float_or_0 d = Ret y -> finite_float y) ->
  duration_of (vget_or usage k d) = Ret x -> nonneg_float x.
Proof.
  intros Hd (y & Hy & [= <-])%res_bind_ret. apply max0_nonneg. unfold vget_or in Hy.
  destruct (dict_get usage k) as [v|] eqn:E; [|auto]. apply (Husage v); [|done].
  apply dict_get_elem in E. apply list_elem_of_fmap. by exists (k, v).
Qed.

Lemma no_duration_finite y : float_or_0 (PyInt 0) = Ret y -> finite_float y.
Proof. intros [= <-]. by eexists. Qed.

Lemma raw_duration_finite raw y : nonneg_float raw -> float_or_0 (PyFloat raw) = Ret y -> finite_float y.
Proof.
  intros (q & -> & _). unfold float_or_0, py_or. destruct (truthy _); intros [= <-]; by eexists.
Qed.

(** Either a unit, price fields and a finite cost that is not negative, or a
    reason, no unit, no fields and no cost. *)
Definition billed (r : BillingResult) : Prop :=
  nonneg_float (cost r) /\
  ((unpriced_reason r = None /\ billing_unit r <> None /\ pricing_fields_used r <> []) \/
   (unpriced_reason r <> None /\ billing_unit r = None /\ pricing_fields_used r = [] /\ cost r = Fl.zero)).

Lemma priced_billed unit fields snapshot c :
  fields <> [] -> nonneg_float c -> billed (priced unit fields snapshot c).
Proof. intros Hf Hc. split; [by apply round10_nonneg|by left]. Qed.

Lemma unpriced_billed snapshot reason : billed (mkBilling Fl.zero None [] snapshot (Some reason)).
Proof. split; [apply zero_nonneg|by right]. Qed.

(** Follow the conversions of a computation that returned. *)
Ltac follow :=
  repeat match goal with
  | H : (_ ≫= _) = Ret _ |- _ => apply res_bind_ret in H as (? & ? & H)
  | H : (if ?b then _ else _) = Ret _ |- _ => destruct b
  | H : Ret _ = Ret _ |- _ => apply ret_inj in H; subst
  | H : usage_count _ _ = Ret _ |- _ => apply count_of_nonneg in H
  | H : count_of _ = Ret _ |- _ => apply count_of_nonneg in H
  | H : float_or_zero _ = Ret _ |- _ => apply float_or_zero_nonneg in H
  end.

Lemma speech_billed r : compute_audio_speech_billing usage info = Ret r -> billed r.
Proof.
  unfold compute_audio_speech_billing. intros Heq. follow.
  - apply priced_billed; [done|]. apply cost_sum_nonneg. repeat constructor; simpl; auto with py.
  - apply priced_billed; [done|]. apply cost_sum_nonneg. repeat constructor; simpl; auto with py.
  - apply priced_billed; [done|]. unfold second_cost.
    match goal with H : duration_of _ = Ret _ |- _ => apply (duration_nonneg _ _ _ no_duration_finite) in H end.
    auto with py.
  - apply unpriced_billed.
Qed.

Lemma transcription_billed r : compute_audio_transcription_billing usage info = Ret r -> billed r.
Proof.
  unfold compute_audio_transcription_billing. intros Heq. follow.
  - apply priced_billed; [done|]. apply cost_sum_nonneg. repeat constructor; simpl; auto with py.
  - apply priced_billed; [done|]. unfold second_cost.
    match goal with H1 : duration_of (_ _ _ (PyInt 0)) = Ret ?raw, H2 : duration_of _ = Ret ?d |- context [?d] =>
      apply (duration_nonneg _ _ _ no_duration_finite) in H1;
      apply (duration_nonneg _ _ _ (fun y => raw_duration_finite raw y H1)) in H2 end.
    auto with py.
  - apply unpriced_billed.
Qed.
End billing_outcome.

(** Billing any mode: when the conversions succeed, the result either
    carries a unit, the price fields used and a cost that is finite and not
    negative, or it carries a reason why it is unpriced, no unit, no fields and
    cost zero — provided the prices are finite and not negative and the usage
    values finite. *)
Theorem billing_result_outcome (mode : string) (usage info : pydict) (r : BillingResult) :
  (forall k x, float_or_0 (vget info k) = Ret x -> nonneg_float x) ->
  (forall v x, v ∈ map snd usage -> float_or_0 v = Ret x -> finite_float x) ->
  compute_billing_result mode usage info = Ret r ->
  nonneg_float (cost r) /\
  ((unpriced_reason r = None /\ billing_unit r <> None /\ pricing_fields_used r <> []) \/
   (unpriced_reason r <> None /\ billing_unit r = None /\ pricing_fields_used r = [] /\ cost r = Fl.zero)).
Proof.
  intros Hinfo Husage. unfold compute_billing_result. intros Heq. fold (billed r).
  destruct (_ || String.eqb mode "rerank"); [|destruct (String.eqb mode "image_generation");
    [|destruct (String.eqb mode "audio_speech"); [by eapply speech_billed|
      destruct (String.eqb mode "audio_transcription"); [by eapply transcription_billed|]]]].
  - apply res_bind_ret in Heq as (i & Hi & Heq). apply res_bind_ret in Heq as (o & Ho & Heq).
    apply res_bind_ret in Heq as (p & Hp & Heq). apply res_bind_ret in Heq as (c & Hc & Heq).
    apply ret_inj in Heq as <-. apply priced_billed; [done|]. apply count_of_nonneg in Hp, Hc.
    apply Hinfo in Hi, Ho. auto with py.
  - apply res_bind_ret in Heq as (i & Hi & Heq). apply res_bind_ret in Heq as (n & _ & Heq).
    apply ret_inj in Heq as <-. apply priced_billed; [done|]. apply Hinfo in Hi.
    apply mul_nonneg; [apply of_Z_nonneg; lia|done].
  - apply ret_inj in Heq as <-. apply unpriced_billed.
Qed.

Lemma billing_result_outcome_witness :
  exists r, compute_billing_result "audio_speech" [("characters"%string, PyInt 1000)]
    [("input_cost_per_character"%string, PyStr "0.00001")] = Ret r /\ nonneg_float (cost r).
Proof.
  eexists. split; [vm_compute; reflexivity|].
  eapply (billing_result_outcome "audio_speech" [("characters"%string, PyInt 1000)]
    [("input_cost_per_character"%string, PyStr "0.00001")]); [..|vm_compute; reflexivity].
  - intros k x. unfold vget. destruct (dict_get _ k) as [v|] eqn:E;
      [apply dict_get_elem, list_elem_of_singleton in E as [= _ ->]|];
      (intros Hx; vm_compute in Hx; apply ret_inj in Hx; subst; eexists; split; [reflexivity|discriminate]).
  - intros v x Hv. apply list_elem_of_singleton in Hv as ->. intros Hx. vm_compute in Hx. apply ret_inj in Hx. subst. by eexists.
Defined.

(** ** Cached prompt tokens *)

(** The gateway's cache discount: when the price of a cached prompt token is
    at most that of an uncached one and no more tokens are cached than were
    prompted, reporting cached tokens never raises the cost of a completion,
    after rounding included. *)
Theorem cached_tokens_never_cost_more (model : string) (prompt completion cached window : Z)
    (input output hit request : Q) (max_out : option Z) :
  0 <= cached <= prompt -> 0 <= completion -> (hit <= input)%Q ->
  let p := mkPricing (FFin input) (FFin output) (Some (FFin hit)) None (FFin request) window max_out in
  let usage k := [("prompt_tokens", PyInt prompt); ("completion_tokens", PyInt completion);
                  ("prompt_tokens_cached", PyInt k)]%string in
  exists c c', completion_cost model (usage cached) false None (Some p) false [] = Ret (FFin c) /\
               completion_cost model (usage 0) false None (Some p) false [] = Ret (FFin c') /\
               (c <= c')%Q.
Proof.
  intros Hc Hp Hhit p usage.
  assert (Hcount : forall n, 0 <= n -> count_of (PyInt n) = Ret n).
  { intros n Hn. unfold count_of, py_or. simpl.
    destruct (Z.eqb_spec n 0) as [->|]; [done|]. simpl. by rewrite Z.max_r. }
  assert (Hcost : forall k, 0 <= k ->
    completion_cost model (usage k) false None (Some p) false [] =
    Ret (Fl.round10 (Fl.add (Fl.add (prompt_cost_of p false prompt k) (output_cost_of p false completion))
                            (FFin request)))).
  { intros k Hk. unfold completion_cost, usage_count, vget_or. cbn [mbind res_bind dict_get usage String.eqb Ascii.eqb Bool.eqb].
    simpl. by rewrite !Hcount by lia. }
  rewrite (Hcost cached), (Hcost 0) by lia. clear Hcost.
  assert (Hq : exists q, prompt_cost_of p false prompt cached = FFin q /\ (q <= inject_Z prompt * input)%Q).
  { unfold prompt_cost_of. simpl. destruct (Z.ltb_spec 0 cached); eexists; (split; [reflexivity|]); [|lra].
    rewrite Z.max_r by lia. replace prompt with (cached + (prompt - cached)) at 2 by lia.
    rewrite inject_Z_plus. assert (0 <= inject_Z cached)%Q by (change 0%Q with (inject_Z 0); rewrite <- Zle_Qle; lia).
    nra. }
  destruct Hq as (q & -> & Hq). do 2 eexists. split; [reflexivity|split; [reflexivity|]].
  eapply round10_le; [|reflexivity..]. apply Qplus_le_compat, Qle_refl. by apply Qplus_le_compat, Qle_refl.
Qed.

Lemma cached_tokens_never_cost_more_witness :
  exists c c', completion_cost "m" [("prompt_tokens", PyInt 100); ("completion_tokens", PyInt 10);
                  ("prompt_tokens_cached", PyInt 40)]%string false None
                (Some (mkPricing (FFin (1 # 1000)) (FFin (1 # 100)) (Some (FFin (1 # 2000))) None (FFin 0) 8192 None))
                false [] = Ret (FFin c) /\ (c <= c')%Q.
Proof.
  destruct (cached_tokens_never_cost_more "m" 100 10 40 8192 (1 # 1000) (1 # 100) (1 # 2000) 0 None
    ltac:(lia) ltac:(lia) ltac:(vm_compute; discriminate)) as (c & c' & Hc & _ & Hle).
  exists c, c'. split; [exact Hc|exact Hle].
Defined.
