(* ===== verification/Microbatch.v ===== *)
(** * Embedding micro-batches: src/batch/embedding_microbatch.py

    Which requests may share one upstream call, and how the usage of the shared
    call is split over its items by the largest-remainder method. *)

From Stdlib Require Import Sorting.Sorted.
From S2P Require Import Prelude PyVal Billing LimitCounter RateLimitPolicy.

(** ** Requests *)

Record EmbeddingRequest : Type := mkEmbedding {
  em_model : string;
  em_input : pyval;
  em_encoding_format : option string;
  em_dimensions : option Z;
  em_user : option string
}.

Inductive input_kind : Type :=
  | string_input | token_ids | string_array | token_id_array | empty_array | unknown_input.

#[export] Instance input_kind_eq_dec : EqDecision input_kind.
Proof. solve_decision. Defined.

Record ExecutionSignature : Type := mkSignature {
  sig_model_name : string;
  sig_model_group : string;
  sig_primary_deployment_id : string;
  sig_encoding_format : option string;
  sig_dimensions : option Z;
  sig_user : option string;
  sig_input_kind : input_kind
}.

(** [estimate_tokens] of a request input; [dump] is [json.dumps]. *)
Definition payload_of (dump : pyval -> string) (v : pyval) : payload :=
  match v with PyNone => NoPayload | PyStr s => TextPayload s | _ => JsonPayload (dump v) end.

Definition estimate_embedding_microbatch_weight (dump : pyval -> string) (r : EmbeddingRequest) : Z :=
  Z.max 1 (estimate_tokens (payload_of dump (em_input r))).

(** [OverflowError] of an infinite float is not caught. *)
Definition resolve_effective_upstream_max_batch_inputs (model_info : option pydict) : res pyexc Z :=
  match model_info with
  | None => Ret 1
  | Some info =>
    let raw := vget info "upstream_max_batch_inputs" in
    if is_none raw then Ret 1
    else match py_int raw with
         | Raise OverflowError => Raise OverflowError
         | Raise _ => Ret 1
         | Ret n => Ret (Z.max 1 n)
         end
  end.

(** The kind of the input, whether it may be batched, and why not. *)
Definition classify_embedding_microbatch_request (r : EmbeddingRequest)
    : input_kind * bool * option string :=
  match em_input r with
  | PyStr _ => (string_input, true, None)
  | PyList [] => (empty_array, false, Some "empty_input_array"%string)
  | PyList l =>
    if forallb is_int l then (token_ids, true, None)
    else if forallb is_str l then (string_array, false, Some "multi_input_text_array"%string)
    else if forallb (fun v => match v with PyList tokens => forallb is_int tokens | _ => false end) l
    then (token_id_array, false, Some "multi_input_token_array"%string)
    else (unknown_input, false, Some "unsupported_input_shape"%string)
  | _ => (unknown_input, false, Some "unsupported_input_shape"%string)
  end.

Definition build_embedding_execution_signature (r : EmbeddingRequest) (model_group primary : string)
    (kind : input_kind) : ExecutionSignature :=
  mkSignature (em_model r) model_group primary (em_encoding_format r) (em_dimensions r) (em_user r) kind.

(** ** _allocate_proportional_ints *)

(** Indices by decreasing key, equal keys in increasing order: a stable sort. *)
Fixpoint insert_ranked (key : nat -> Z) (i : nat) (l : list nat) : list nat :=
  match l with
  | [] => [i]
  | j :: l' => if key j <=? key i then i :: l else j :: insert_ranked key i l'
  end.
Definition ranked (key : nat -> Z) (n : nat) : list nat := foldr (insert_ranked key) [] (seq 0 n).

Definition bump (l : list Z) (i : nat) : list Z := alter (Z.add 1) i l.

Definition normalized_weights (weights : list Z) : list Z :=
  let ws := map (Z.max 0) weights in
  if zsum ws <=? 0 then replicate (length weights) 1 else ws.

Definition allocate_proportional_ints (total : Z) (weights : list Z) : list Z :=
  match weights with
  | [] => []
  | _ =>
    let total := Z.max 0 total in
    if total =? 0 then replicate (length weights) 0
    else
      let ws := normalized_weights weights in
      let weight_sum := zsum ws in
      let allocations := map (fun w => total * w / weight_sum) ws in
      let remainder := total - zsum allocations in
      if remainder <=? 0 then allocations
      else
        let key i := (total * nth i ws 0) mod weight_sum in
        foldl bump allocations (take (Z.to_nat remainder) (ranked key (length weights)))
  end.

(** ** allocate_embedding_usage *)

(** [_coerce_non_negative_int]; [OverflowError] is not caught. *)
Definition coerce_non_negative_int (v : pyval) : res pyexc Z :=
  match py_int (py_or v (PyInt 0)) with
  | Raise OverflowError => Raise OverflowError
  | Raise _ => Ret 0
  | Ret n => Ret (Z.max 0 n)
  end.

(** One item's share: an absent key is [None]. *)
Record allocation : Type := mkAllocation {
  al_prompt_tokens : option Z;
  al_prompt_tokens_cached : option Z;
  al_completion_tokens : option Z;
  al_total_tokens : option Z
}.

Definition keep_if (included : bool) (v : Z) : option Z := if included then Some v else None.

Definition zip_add (l1 l2 : list Z) : list Z := zip_with Z.add l1 l2.

Definition allocate_embedding_usage (aggregate : pydict) (weights : list Z) : res pyexc (list allocation) :=
  match weights with
  | [] => Ret []
  | _ =>
    let n := length weights in
    let has := dict_has aggregate in
    prompt_total ← coerce_non_negative_int (vget aggregate "prompt_tokens");
    cached_total ← coerce_non_negative_int (vget aggregate "prompt_tokens_cached");
    completion_total ← coerce_non_negative_int (vget aggregate "completion_tokens");
    total_total ← coerce_non_negative_int (vget aggregate "total_tokens");
    let include_prompt := has "prompt_tokens"%string || (0 <? prompt_total) in
    let include_cached := has "prompt_tokens_cached"%string || (0 <? cached_total) in
    let share (included : bool) (total : Z) (ws : list Z) :=
      if included then allocate_proportional_ints total ws else replicate n 0 in
    let prompt := share include_prompt prompt_total weights in
    let cached := share include_cached cached_total (if 0 <? zsum prompt then prompt else weights) in
    let include_completion := has "completion_tokens"%string || (0 <? completion_total) ||
                              include_prompt || has "total_tokens"%string || (0 <? total_total) in
    let completion := share include_completion completion_total weights in
    let include_total := has "total_tokens"%string || (0 <? total_total) || include_prompt || include_completion in
    let total :=
      if negb include_total then replicate n 0
      else if total_total =? prompt_total + completion_total then zip_add prompt completion
      else if has "total_tokens"%string || (0 <? total_total) then allocate_proportional_ints total_total weights
      else zip_add prompt completion in
    Ret (map (fun i => mkAllocation (keep_if include_prompt (nth i prompt 0))
                         (keep_if include_cached (nth i cached 0))
                         (keep_if include_completion (nth i completion 0))
                         (keep_if include_total (nth i total 0))) (seq 0 n))
  end.

Example split_7_by_1_1_2 : allocate_proportional_ints 7 [1; 1; 2] = [2; 2; 3].
Proof. reflexivity. Qed.

#[local] Arguments zsum : simpl never.

(** ** Ranking *)

Section ranking.
Context (key : nat -> Z).

Lemma insert_ranked_perm i l : insert_ranked key i l ≡ₚ i :: l.
Proof.
  induction l as [|j l IH]; simpl; [done|]. destruct (_ <=? _); [done|]. rewrite IH. constructor.
Qed.

Lemma ranked_perm n : ranked key n ≡ₚ seq 0 n.
Proof. unfold ranked. induction (seq 0 n) as [|i l IH]; simpl; [done|]. by rewrite insert_ranked_perm, IH. Qed.

Definition by_key : relation nat := fun i j => key j <= key i.

Lemma insert_ranked_sorted i l : StronglySorted by_key l -> StronglySorted by_key (insert_ranked key i l).
Proof.
  induction 1 as [|j l Hs IH Hall]; simpl; [repeat constructor|].
  destruct (Z.leb_spec (key j) (key i)).
  - constructor; [by constructor|]. constructor; [done|].
    eapply Forall_impl; [exact Hall|]. unfold by_key. intros z Hz. simpl in Hz. lia.
  - constructor; [done|]. rewrite insert_ranked_perm. constructor; [unfold by_key; lia|done].
Qed.

Lemma ranked_sorted n : StronglySorted by_key (ranked key n).
Proof. unfold ranked. induction (seq 0 n); simpl; [constructor|by apply insert_ranked_sorted]. Qed.

(** After a zero key, with keys not negative, only zero keys follow. *)
Lemma zero_key_tail l k i :
  StronglySorted by_key l -> (forall j, 0 <= key j) -> i ∈ take k l -> key i = 0 ->
  zsum (map key (drop k l)) = 0.
Proof.
  intros Hs Hnn. revert k. induction Hs as [|j l Hs IH Hall]; intros k Hi Hz.
  - rewrite take_nil in Hi. by apply not_elem_of_nil in Hi.
  - destruct k as [|k]; [by apply not_elem_of_nil in Hi|]. simpl in *.
    apply elem_of_cons in Hi as [->|Hi]; [|by apply IH].
    assert (Hzero : forall x, x ∈ l -> key x = 0).
    { intros x Hx. rewrite Forall_forall in Hall. specialize (Hall x Hx). specialize (Hnn x).
      unfold by_key in Hall. lia. }
    assert (Hd : forall x, x ∈ drop k l -> key x = 0).
    { intros x Hx. apply Hzero. rewrite <- (take_drop k l). apply elem_of_app. by right. }
    clear -Hd. induction (drop k l) as [|y m IHm]; [done|]. simpl. rewrite zsum_cons, Hd by left.
    rewrite IHm; [done|]. intros x Hx. apply Hd. by right.
Qed.
End ranking.

(** ** The largest-remainder split *)

Section split.

Lemma zsum_bump l i : (i < length l)%nat -> zsum (bump l i) = zsum l + 1.
Proof.
  revert i. induction l as [|x l IH]; intros i Hi; simpl in Hi; [lia|].
  destruct i as [|i].
  - change (bump (x :: l) 0) with ((1 + x) :: l). rewrite !zsum_cons. lia.
  - change (bump (x :: l) (S i)) with (x :: bump l i). rewrite !zsum_cons, IH by lia. lia.
Qed.

Lemma foldl_bump_length is_ l : length (foldl bump l is_) = length l.
Proof. revert l. induction is_ as [|i is_ IH]; intros l; [done|]. simpl. rewrite IH. apply length_alter. Qed.

Lemma zsum_foldl_bump is_ l :
  (forall i, i ∈ is_ -> (i < length l)%nat) -> zsum (foldl bump l is_) = zsum l + Z.of_nat (length is_).
Proof.
  revert l. induction is_ as [|i is_ IH]; intros l Hi; simpl; [lia|].
  rewrite IH. { rewrite zsum_bump by (apply Hi; left). lia. }
  intros j Hj. unfold bump. rewrite length_alter. apply Hi. by right.
Qed.

Lemma foldl_bump_lookup is_ l i : NoDup is_ ->
  foldl bump l is_ !! i = (fun x => if bool_decide (i ∈ is_) then 1 + x else x) <$> l !! i.
Proof.
  intros Hnd. revert l. induction Hnd as [|j is_ Hj Hnd IH]; intros l; simpl.
  - by destruct (l !! i).
  - rewrite IH. unfold bump. destruct (decide (j = i)) as [->|Hne].
    + rewrite list_lookup_alter_eq. destruct (l !! i); [|done]. simpl.
      destruct (decide (i ∈ is_)) as [Hi|Hi]; [done|].
      rewrite (bool_decide_eq_false_2 _ Hi), (bool_decide_eq_true_2 (i ∈ i :: is_)); [done|left].
    + rewrite list_lookup_alter_ne by done. destruct (l !! i); [|done]. simpl.
      rewrite (bool_decide_ext (i ∈ j :: is_) (i ∈ is_)); [done|]. rewrite elem_of_cons. naive_solver.
Qed.

(** A chosen zero key leaves less than the bound for the others. *)
Lemma zero_key_small (key : nat -> Z) l i m :
  i ∈ l -> key i = 0 -> (forall j, 0 <= key j <= m) ->
  zsum (map key l) <= (Z.of_nat (length l) - 1) * m.
Proof.
  intros Hi Hz Hb. apply elem_of_Permutation in Hi as [l' ->]. simpl. rewrite zsum_cons, Hz.
  assert (Hl : zsum (map key l') <= Z.of_nat (length l') * m).
  { clear -Hb. induction l' as [|j l' IH]; [done|]. cbn [map length]. rewrite zsum_cons. specialize (Hb j). lia. }
  lia.
Qed.

(** Quotients and remainders of the exact shares. *)
Lemma shares_sum total s ws : 0 < s ->
  s * zsum (map (fun w => total * w / s) ws) + zsum (map (fun w => (total * w) mod s) ws) = total * zsum ws.
Proof.
  intros Hs. induction ws as [|w ws IH]; [unfold zsum; simpl; lia|]. cbn [map]. rewrite !zsum_cons.
  pose proof (Z.div_mod (total * w) s ltac:(lia)). nia.
Qed.

Lemma remainders_bound total s ws : 0 < s ->
  0 <= zsum (map (fun w => (total * w) mod s) ws) <= Z.of_nat (length ws) * (s - 1).
Proof.
  intros Hs. induction ws as [|w ws IH]; [done|]. cbn [map length]. rewrite zsum_cons.
  pose proof (Z.mod_pos_bound (total * w) s Hs). lia.
Qed.

Lemma normalized_weights_spec weights : weights <> [] ->
  0 < zsum (normalized_weights weights) /\ Forall (fun w => 0 <= w) (normalized_weights weights) /\
  length (normalized_weights weights) = length weights.
Proof.
  intros Hne. unfold normalized_weights. destruct (Z.leb_spec (zsum (map (Z.max 0) weights)) 0).
  - rewrite zsum_replicate, length_replicate. split_and!; [|by apply Forall_replicate|done].
    destruct weights; [done|]. simpl length. lia.
  - split_and!; [done| |by rewrite length_map]. apply Forall_fmap, Forall_true. intros w. simpl. lia.
Qed.

Lemma nth_map_lookup {A} (f : A -> Z) (d : A) l i x : l !! i = Some x -> f (nth i l d) = f x.
Proof. intros Hi. by rewrite (nth_lookup_Some _ _ _ _ Hi). Qed.

Lemma map_seq_nth (f : Z -> Z) ws : map (fun i => f (nth i ws 0)) (seq 0 (length ws)) = map f ws.
Proof.
  apply list_eq. intros i. rewrite !list_lookup_fmap. destruct (ws !! i) as [w|] eqn:Ew.
  - rewrite lookup_seq_lt by (by eapply lookup_lt_Some). simpl. by rewrite (nth_lookup_Some _ _ _ _ Ew).
  - rewrite lookup_seq_ge by (by apply lookup_ge_None). done.
Qed.
End split.

(** What a fair split of [total] by [weights] is. *)
Definition fair_split (total : Z) (weights shares : list Z) : Prop :=
  length shares = length weights /\ zsum shares = total /\
  forall i w a, weights !! i = Some w -> shares !! i = Some a ->
    let s := zsum weights in
    total * w / s <= a <= total * w / s + 1 /\ (a = total * w / s + 1 -> 0 < (total * w) mod s).

Section fair.
Context (total : Z) (weights : list Z).
Hypothesis Htotal : 0 < total.
Hypothesis Hweights : weights <> [].

Lemma allocate_fair :
  fair_split total (normalized_weights weights) (allocate_proportional_ints total weights).
Proof.
  destruct (normalized_weights_spec weights Hweights) as (Hs & Hnn & Hlen).
  set (ws := normalized_weights weights) in *. set (s := zsum ws) in *.
  assert (Halloc : allocate_proportional_ints total weights =
    let allocations := map (fun w => total * w / s) ws in
    let remainder := total - zsum allocations in
    if remainder <=? 0 then allocations
    else foldl bump allocations (take (Z.to_nat remainder)
           (ranked (fun i => (total * nth i ws 0) mod s) (length weights)))).
  { unfold allocate_proportional_ints. destruct weights as [|w0 ws0]; [done|].
    rewrite Z.max_r by lia. rewrite (proj2 (Z.eqb_neq total 0)) by lia. done. }
  rewrite Halloc. cbv zeta. clear Halloc. set (floors := map (fun w => total * w / s) ws).
  set (key := fun i => (total * nth i ws 0) mod s).
  pose proof (shares_sum total s ws Hs) as Hsum. fold s in Hsum. fold floors in Hsum.
  pose proof (remainders_bound total s ws Hs) as Hrem.
  set (r := zsum (map (fun w => (total * w) mod s) ws)) in *.
  assert (Hrs : r = s * (total - zsum floors)) by nia.
  assert (Hfl : length floors = length ws) by apply length_map.
  assert (Hfloor : forall i w, ws !! i = Some w -> floors !! i = Some (total * w / s))
    by (intros i w Hi; unfold floors; by rewrite list_lookup_fmap, Hi).
  destruct (Z.leb_spec (total - zsum floors) 0) as [Hz|Hpos].
  { split_and!; [done|nia|]. intros i w a Hi Ha. rewrite (Hfloor i w Hi) in Ha. injection Ha as <-.
    cbv zeta. fold s. split; lia. }
  set (k := Z.to_nat (total - zsum floors)).
  assert (Hlt : total - zsum floors < Z.of_nat (length ws)).
  { apply Z.nle_gt. intros Hge. pose proof (Z.mul_le_mono_nonneg_l _ _ s ltac:(lia) Hge). nia. }
  assert (Hk : (k < length ws)%nat) by (unfold k; lia).
  set (chosen := take k (ranked key (length weights))).
  assert (Hperm := ranked_perm key (length weights)).
  assert (Hnd : NoDup chosen).
  { eapply sublist_NoDup; [|apply sublist_take]. rewrite Hperm. apply NoDup_seq. }
  assert (Hlk : length chosen = k).
  { unfold chosen. rewrite length_take, Hperm, length_seq. lia. }
  assert (Hin : forall i, i ∈ chosen -> (i < length ws)%nat).
  { intros i Hi. assert (Hi' : i ∈ ranked key (length weights)) by (eapply sublist_elem; [apply sublist_take|done]).
    rewrite Hperm, elem_of_seq in Hi'. lia. }
  assert (Hkey : forall i, i ∈ chosen -> 0 < key i).
  { intros i Hi. assert (Hge : 0 <= key i) by (apply Z.mod_pos_bound; lia).
    destruct (Z.eq_dec (key i) 0) as [Hz|]; [|lia]. exfalso.
    pose proof (zero_key_tail key (ranked key (length weights)) k i (ranked_sorted key _)
      ltac:(intros j; apply Z.mod_pos_bound; lia) Hi Hz) as Htail.
    assert (Hall : zsum (map key (ranked key (length weights))) = r).
    { rewrite (zsum_perm _ (map key (seq 0 (length ws)))).
      - unfold r. f_equal. apply (map_seq_nth (fun w => (total * w) mod s)).
      - rewrite Hlen. by apply Permutation_map. }
    rewrite <- (take_drop k (ranked key (length weights))), map_app, zsum_app, Htail in Hall.
    fold chosen in Hall.
    assert (Hsmall : zsum (map key chosen) <= (Z.of_nat k - 1) * (s - 1)).
    { rewrite <- Hlk. apply (zero_key_small key chosen i (s - 1)); [done|done|].
      intros j. pose proof (Z.mod_pos_bound (total * nth j ws 0) s Hs). unfold key. lia. }
    unfold k in Hsmall. nia. }
  split_and!.
  - by rewrite foldl_bump_length.
  - rewrite zsum_foldl_bump by (intros i Hi; rewrite Hfl; auto). rewrite Hlk. unfold k. lia.
  - intros i w a Hi Ha. cbv zeta. fold s. rewrite foldl_bump_lookup, (Hfloor i w Hi) in Ha by done.
    simpl in Ha. injection Ha as <-. case_bool_decide as Hc; [|lia].
    split; [lia|]. intros _. specialize (Hkey i Hc). unfold key in Hkey.
    by rewrite (nth_lookup_Some _ _ _ _ Hi) in Hkey.
Qed.
End fair.

Lemma allocate_total total weights : weights <> [] ->
  length (allocate_proportional_ints total weights) = length weights /\
  zsum (allocate_proportional_ints total weights) = Z.max 0 total.
Proof.
  intros Hw. destruct (Z.leb_spec total 0) as [Hz|Hp].
  - unfold allocate_proportional_ints. destruct weights; [done|]. rewrite Z.max_l by lia. simpl.
    split; [by rewrite length_replicate|]. rewrite zsum_cons, zsum_replicate. lia.
  - destruct (allocate_fair total weights Hp Hw) as (Hl & Hs & _). rewrite Hl, Hs, Z.max_r by lia.
    split; [|done]. by apply normalized_weights_spec.
Qed.

(** Splitting a positive total over weighted items gives it out exactly, one
    share per item; every share is the item's exact proportional share rounded
    down, or that plus one, and an item of weight zero gets nothing (negative
    weights count as zero, and all-zero weights as equal ones). *)
Theorem proportional_allocation_fair (total : Z) (weights : list Z) :
  0 < total -> weights <> [] ->
  let ws := normalized_weights weights in
  let shares := allocate_proportional_ints total weights in
  length shares = length weights /\ zsum shares = total /\
  forall i w a, ws !! i = Some w -> shares !! i = Some a ->
    total * w / zsum ws <= a <= total * w / zsum ws + 1 /\ (w = 0 -> a = 0).
Proof.
  intros Ht Hw ws shares. destruct (allocate_fair total weights Ht Hw) as (Hl & Hs & Hall).
  destruct (normalized_weights_spec weights Hw) as (Hpos & _ & Hlen). fold ws shares in Hl, Hs, Hall, Hpos, Hlen.
  split_and!; [congruence|done|]. intros i w a Hi Ha. destruct (Hall i w a Hi Ha) as [Hb Hup].
  split; [done|]. intros ->. rewrite Z.mul_0_r, Z.div_0_l, Z.mod_0_l in * by lia.
  destruct (Z.eq_dec a 1) as [->|]; [|lia]. specialize (Hup eq_refl). lia.
Qed.

Lemma proportional_allocation_fair_witness :
  zsum (allocate_proportional_ints 10 [3; 0; 3; 3]) = 10 /\
  allocate_proportional_ints 10 [3; 0; 3; 3] !! 1%nat = Some 0.
Proof.
  destruct (proportional_allocation_fair 10 [3; 0; 3; 3] ltac:(lia) ltac:(discriminate)) as (_ & Hs & Hall).
  split; [exact Hs|]. destruct (allocate_proportional_ints 10 [3; 0; 3; 3] !! 1%nat) as [a|] eqn:E.
  - f_equal. exact (proj2 (Hall 1%nat 0 a eq_refl E) eq_refl).
  - vm_compute in E. discriminate.
Defined.

(** ** Splitting the usage of a shared call *)

Section usage.
Context (aggregate : pydict) (weights : list Z).

Lemma coerce_nonneg v n : coerce_non_negative_int v = Ret n -> 0 <= n.
Proof. unfold coerce_non_negative_int. destruct (py_int _) as [m|[]]; intros [= <-]; lia. Qed.

Lemma nth_seq_self (l : list Z) : map (fun i => nth i l 0) (seq 0 (length l)) = l.
Proof. rewrite (map_seq_nth (fun x => x)). apply map_id. Qed.

(** A field's shares: split when reported, zeros otherwise. *)
Lemma share_total (included : bool) total ws n :
  0 <= total -> (included = false -> total = 0) -> ws <> [] -> length ws = n ->
  let l := if included then allocate_proportional_ints total ws else replicate n 0 in
  length l = n /\ zsum l = total.
Proof.
  intros Ht Hinc Hws Hn l. subst l. destruct included.
  - destruct (allocate_total total ws Hws) as [-> ->]. split; [done|lia].
  - rewrite length_replicate, zsum_replicate. split; [done|]. rewrite Hinc by done. lia.
Qed.

Lemma zsum_zip_add l1 l2 : length l1 = length l2 -> zsum (zip_add l1 l2) = zsum l1 + zsum l2.
Proof.
  revert l2. induction l1 as [|x l1 IH]; intros [|y l2] Hl; simplify_eq/=; [done|].
  change (zip_add (x :: l1) (y :: l2)) with ((x + y) :: zip_add l1 l2). rewrite !zsum_cons, IH by done. lia.
Qed.

Lemma nth_zeros n i : nth i (replicate n 0) 0 = 0.
Proof. revert i. induction n as [|n IH]; intros [|i]; simpl; auto. Qed.

(** What an item's record holds is its entry in the list of shares, because a
    field that is left out has only zeros. *)
Lemma kept_entry (included : bool) l n i :
  (included = false -> l = replicate n 0) -> default 0 (keep_if included (nth i l 0)) = nth i l 0.
Proof. intros Hl. destruct included; [done|]. rewrite Hl by done. by rewrite nth_zeros. Qed.

Lemma sum_of_field (f : allocation -> option Z) (mk : nat -> allocation) l :
  (forall i, default 0 (f (mk i)) = nth i l 0) ->
  zsum (map (fun a => default 0 (f a)) (map mk (seq 0 (length l)))) = zsum l.
Proof.
  intros Hf. rewrite map_map. f_equal. rewrite <- (nth_seq_self l) at 2. apply map_ext. intros i. apply Hf.
Qed.

Lemma nth_zip_add l1 l2 i : length l1 = length l2 -> nth i (zip_add l1 l2) 0 = nth i l1 0 + nth i l2 0.
Proof.
  revert l2 i. induction l1 as [|x l1 IH]; intros [|y l2] [|i] Hl; simplify_eq/=; try done. by apply IH.
Qed.
End usage.

(** Splitting the usage of one upstream call over its items loses and
    invents no token: when the reported numbers can be read, there is one
    allocation per item, the items' prompt, cached and completion tokens each
    add up to the reported number, and the total tokens add up to the reported
    total — to prompt plus completion when no total is reported; when the
    report is consistent, each item's total is its prompt plus its completion. *)
Theorem usage_allocation_conserves (aggregate : pydict) (weights : list Z) (allocations : list allocation)
    (p c k t : Z) :
  weights <> [] ->
  coerce_non_negative_int (vget aggregate "prompt_tokens") = Ret p ->
  coerce_non_negative_int (vget aggregate "prompt_tokens_cached") = Ret k ->
  coerce_non_negative_int (vget aggregate "completion_tokens") = Ret c ->
  coerce_non_negative_int (vget aggregate "total_tokens") = Ret t ->
  allocate_embedding_usage aggregate weights = Ret allocations ->
  let sum f := zsum (map (fun a => default 0 (f a)) allocations) in
  length allocations = length weights /\
  sum al_prompt_tokens = p /\ sum al_prompt_tokens_cached = k /\ sum al_completion_tokens = c /\
  (dict_has aggregate "total_tokens" = true -> sum al_total_tokens = t) /\
  (dict_has aggregate "total_tokens" = false -> t = 0 -> sum al_total_tokens = p + c) /\
  (t = p + c -> forall a, a ∈ allocations ->
     default 0 (al_total_tokens a) = default 0 (al_prompt_tokens a) + default 0 (al_completion_tokens a)).
Proof.
  intros Hw Hp Hk Hc Ht Hall sum. unfold allocate_embedding_usage in Hall.
  destruct weights as [|w0 ws0]; [done|]. set (weights := w0 :: ws0) in *. rewrite Hp, Hk, Hc, Ht in Hall.
  apply coerce_nonneg in Hp, Hk, Hc, Ht. cbn [mbind res_bind] in Hall. apply ret_inj in Hall.
  set (has := dict_has aggregate) in *.
  set (ip := has "prompt_tokens"%string || (0 <? p)) in *.
  set (ik := has "prompt_tokens_cached"%string || (0 <? k)) in *.
  set (prompt := if ip then _ else _) in *.
  set (cached := if ik then _ else _) in *.
  set (ic := has "completion_tokens"%string || _ || _ || _ || _) in *.
  set (completion := if ic then _ else _) in *.
  set (it := has "total_tokens"%string || _ || _ || _) in *.
  set (total := if negb it then _ else _) in *.
  set (n := length weights) in *.
  assert (Hpos : forall b z, b || (0 <? z) = false -> 0 <= z -> z = 0)
    by (intros b z [_ Hz%Z.ltb_ge]%orb_false_iff Hge; lia).
  assert (Hpr : length prompt = n /\ zsum prompt = p)
    by (apply share_total; [done|intros E; by apply (Hpos (has "prompt_tokens"%string))|done|done]).
  assert (Hca : length cached = n /\ zsum cached = k).
  { apply share_total; [done|intros E; by apply (Hpos (has "prompt_tokens_cached"%string))| |];
      destruct (0 <? zsum prompt); try done; [|by destruct Hpr].
    intros E. destruct Hpr as [Hl _]. by rewrite E in Hl. }
  assert (Hic : ic = false -> c = 0 /\ ip = false /\ t = 0).
  { unfold ic. rewrite !orb_false_iff, !Z.ltb_ge. lia || (intros ((((_ & H1) & H2) & _) & H3); split_and!; [lia|done|lia]). }
  assert (Hco : length completion = n /\ zsum completion = c)
    by (apply share_total; [done|intros E; by apply Hic|done|done]).
  assert (Hzip : length (zip_add prompt completion) = n /\ zsum (zip_add prompt completion) = p + c).
  { destruct Hpr as [Hl1 Hs1], Hco as [Hl2 Hs2]. rewrite zsum_zip_add by congruence.
    unfold zip_add. rewrite length_zip_with. split; lia. }
  assert (Hit : it = false -> has "total_tokens"%string = false /\ t = 0 /\ p = 0 /\ c = 0 /\ ip = false /\ ic = false).
  { unfold it. rewrite !orb_false_iff, !Z.ltb_ge. intros (((H1 & H2) & H3) & H4).
    split_and!; [done|lia|by apply (Hpos (has "prompt_tokens"%string))|by apply Hic|done|done]. }
  assert (Hto : length total = n /\ (has "total_tokens"%string = true -> zsum total = t) /\
    (has "total_tokens"%string = false -> t = 0 -> zsum total = p + c)).
  { unfold total. destruct it; cbn [negb].
    - destruct (Z.eqb_spec t (p + c)) as [->|]; [by destruct Hzip|].
      destruct (has "total_tokens"%string) eqn:Eh; cbn [negb andb orb].
      + destruct (allocate_total t weights ltac:(done)) as [Hl Hs]. rewrite Hs, Z.max_r by lia. done.
      + destruct (Z.ltb_spec 0 t); [|by destruct Hzip].
        destruct (allocate_total t weights ltac:(done)) as [Hl Hs]. split_and!; [done|done|lia].
    - destruct (Hit eq_refl) as (-> & -> & -> & -> & _). rewrite length_replicate, zsum_replicate.
      split_and!; [done|done|lia]. }
  assert (Kp : ip = false -> prompt = replicate n 0) by (unfold prompt; by intros ->).
  assert (Kk : ik = false -> cached = replicate n 0) by (unfold cached; by intros ->).
  assert (Kc : ic = false -> completion = replicate n 0) by (unfold completion; by intros ->).
  assert (Kt : it = false -> total = replicate n 0) by (unfold total; by intros ->).
  assert (Hcons : t = p + c -> forall i, nth i total 0 = nth i prompt 0 + nth i completion 0).
  { intros Htc i. unfold total. destruct it; cbn [negb].
    - rewrite (proj2 (Z.eqb_eq t (p + c))) by done. apply nth_zip_add. destruct Hpr, Hco. congruence.
    - destruct (Hit eq_refl) as (_ & _ & _ & _ & Ep & Ec). rewrite (Kp Ep), (Kc Ec), !nth_zeros. reflexivity. }
  destruct Hpr as [Lp Sp], Hca as [Lk Sk], Hco as [Lc Sc], Hto as (Lt & St & St').
  clearbody prompt cached completion total ip ik ic it. subst allocations. unfold sum. split_and!.
  - by rewrite length_map, length_seq.
  - rewrite <- Lp, <- Sp at 1. apply sum_of_field. intros i. by apply (kept_entry _ _ n).
  - rewrite <- Lk, <- Sk at 1. apply sum_of_field. intros i. by apply (kept_entry _ _ n).
  - rewrite <- Lc, <- Sc at 1. apply sum_of_field. intros i. by apply (kept_entry _ _ n).
  - intros Hh. rewrite <- (St Hh), <- Lt at 1. apply sum_of_field. intros i. by apply (kept_entry _ _ n).
  - intros Hh Hz. rewrite <- (St' Hh Hz), <- Lt at 1. apply sum_of_field. intros i. by apply (kept_entry _ _ n).
  - intros Htc a (i & -> & _)%list_elem_of_fmap. simpl.
    rewrite !(kept_entry _ _ n) by done. by apply Hcons.
Qed.

Lemma usage_allocation_conserves_witness :
  exists allocations, allocate_embedding_usage
      [("prompt_tokens", PyInt 10); ("total_tokens", PyInt 10)]%string [1; 2] = Ret allocations /\
    zsum (map (fun a => default 0 (al_prompt_tokens a)) allocations) = 10.
Proof.
  eexists. split; [vm_compute; reflexivity|].
  refine (proj1 (proj2 (usage_allocation_conserves [("prompt_tokens", PyInt 10); ("total_tokens", PyInt 10)]%string
    [1; 2] _ 10 0 0 10 _ _ _ _ _ _))); [discriminate|..]; vm_compute; reflexivity.
Defined.
