(* ===== verification/RouterState.v ===== *)
(** * Deployment runtime state: src/router/state.py

    [RedisStateBackend] keeps the active-request counts, latency windows,
    usage counters, cooldowns, failures and health of the deployments in Redis
    and, while Redis is absent or failing and the mode is [fail_open], in
    process-local dictionaries that are pruned by age.  The Redis server is
    the interface [RedisExec]: a command in, a reply out. *)

From Stdlib Require Import Sorting.Sorted.
From S2P Require Import Prelude PyVal Errors.

(** ** The Redis server, by its commands *)

Inductive command : Type :=
  | INCR (key : string)
  | DECR (key : string)
  | INCRBY (key : string) (n : Z)
  | GET (key : string)
  | MGET (keys : list string)
  | SET (key value : string)
  | SETEX (key : string) (ttl : Z) (value : string)
  | DEL (key : string)
  | EXISTS (key : string)
  | EXPIRE (key : string) (ttl : Z)
  | PEXPIRE (key : string) (ms : Z)
  | ZADD (key member : string) (score : Z)
  | ZREMRANGEBYSCORE (key : string) (lo hi : Z)
  | ZRANGEBYSCORE (key : string) (lo : Z)
  | HSET (key : string) (fields : list (string * string))
  | HDEL (key : string) (fields : list string)
  | HGETALL (key : string).

Inductive reply : Type :=
  | RNil
  | RInt (n : Z)
  | RStr (s : string)
  | RList (l : list reply)
  | RHash (fields : list (string * string)).

Class RedisExec (S : Type) := redis_exec : S -> command -> S * reply.

(** A client: the server's data, and for each coming round trip whether it fails. *)
Record connection (S : Type) : Type := mkConn {
  server : S;
  outages : list bool
}.
Arguments mkConn {S} server outages.
Arguments server {S} c.
Arguments outages {S} c.

(** ** State *)

Inductive backend_mode_t : Type := redis_mode | degraded_mode | unavailable_mode.
Inductive degraded_policy : Type := fail_open | fail_closed.

#[export] Instance degraded_policy_eq_dec : EqDecision degraded_policy.
Proof. solve_decision. Defined.

Definition sample : Type := Z * Q.   (* milliseconds, latency in milliseconds *)

Record usage_entry : Type := mkUsage {
  usage_counts : gmap string Z;
  usage_window : string;
  usage_updated_at : Z
}.

(** The process-local dictionaries. *)
Record local_state : Type := mkLocal {
  l_active : gmap string Z;
  l_latency : gmap string (list sample);
  l_usage : gmap string usage_entry;
  l_cooldown_until : gmap string Z;
  l_health : gmap string (gmap string string);
  l_failures : gmap string Z;
  l_last_seen : gmap string Z;
  l_last_prune_at : Z
}.

Record backend (S : Type) : Type := mkBackend {
  redis : option (connection S);
  latency_window_ms : Z;
  policy : degraded_policy;
  local_state_ttl_sec : Z;
  max_local_latency_samples : Z;
  local : local_state;
  backend_mode : backend_mode_t;
  last_redis_error : option string;
  last_redis_error_at : option Z
}.
Arguments mkBackend {S}.
Arguments redis {S} b.
Arguments latency_window_ms {S} b.
Arguments policy {S} b.
Arguments local_state_ttl_sec {S} b.
Arguments max_local_latency_samples {S} b.
Arguments local {S} b.
Arguments backend_mode {S} b.
Arguments last_redis_error {S} b.
Arguments last_redis_error_at {S} b.

Definition set_local {S} (l : local_state) (b : backend S) : backend S :=
  mkBackend (redis b) (latency_window_ms b) (policy b) (local_state_ttl_sec b)
    (max_local_latency_samples b) l (backend_mode b) (last_redis_error b) (last_redis_error_at b).
Definition set_conn {S} (c : connection S) (b : backend S) : backend S :=
  mkBackend (Some c) (latency_window_ms b) (policy b) (local_state_ttl_sec b)
    (max_local_latency_samples b) (local b) (backend_mode b) (last_redis_error b)
    (last_redis_error_at b).
Definition set_status {S} (mode : backend_mode_t) (err : option string) (at_ : option Z)
    (b : backend S) : backend S :=
  mkBackend (redis b) (latency_window_ms b) (policy b) (local_state_ttl_sec b)
    (max_local_latency_samples b) (local b) mode err at_.

(** ** Updates of one local dictionary *)

Definition with_active (f : gmap string Z -> gmap string Z) (l : local_state) : local_state :=
  mkLocal (f (l_active l)) (l_latency l) (l_usage l) (l_cooldown_until l) (l_health l)
    (l_failures l) (l_last_seen l) (l_last_prune_at l).
Definition with_latency (f : gmap string (list sample) -> gmap string (list sample))
    (l : local_state) : local_state :=
  mkLocal (l_active l) (f (l_latency l)) (l_usage l) (l_cooldown_until l) (l_health l)
    (l_failures l) (l_last_seen l) (l_last_prune_at l).
Definition with_usage (f : gmap string usage_entry -> gmap string usage_entry)
    (l : local_state) : local_state :=
  mkLocal (l_active l) (l_latency l) (f (l_usage l)) (l_cooldown_until l) (l_health l)
    (l_failures l) (l_last_seen l) (l_last_prune_at l).
Definition with_cooldown (f : gmap string Z -> gmap string Z) (l : local_state) : local_state :=
  mkLocal (l_active l) (l_latency l) (l_usage l) (f (l_cooldown_until l)) (l_health l)
    (l_failures l) (l_last_seen l) (l_last_prune_at l).
Definition with_health (f : gmap string (gmap string string) -> gmap string (gmap string string))
    (l : local_state) : local_state :=
  mkLocal (l_active l) (l_latency l) (l_usage l) (l_cooldown_until l) (f (l_health l))
    (l_failures l) (l_last_seen l) (l_last_prune_at l).
Definition with_failures (f : gmap string Z -> gmap string Z) (l : local_state) : local_state :=
  mkLocal (l_active l) (l_latency l) (l_usage l) (l_cooldown_until l) (l_health l)
    (f (l_failures l)) (l_last_seen l) (l_last_prune_at l).
Definition with_last_seen (f : gmap string Z -> gmap string Z) (l : local_state) : local_state :=
  mkLocal (l_active l) (l_latency l) (l_usage l) (l_cooldown_until l) (l_health l)
    (l_failures l) (f (l_last_seen l)) (l_last_prune_at l).
Definition with_last_prune (t : Z) (l : local_state) : local_state :=
  mkLocal (l_active l) (l_latency l) (l_usage l) (l_cooldown_until l) (l_health l)
    (l_failures l) (l_last_seen l) t.

Definition empty_local : local_state := mkLocal ∅ ∅ ∅ ∅ ∅ ∅ ∅ 0.

(** [if b] on an optional number: absent and zero are false. *)
Definition truthy_num (v : option Z) : bool :=
  match v with Some n => negb (n =? 0) | None => false end.

Definition active_of (l : local_state) (id : string) : Z := default 0 (l_active l !! id).
Definition failures_of (l : local_state) (id : string) : Z := default 0 (l_failures l !! id).
Definition cooling (l : local_state) (now : Z) (id : string) : bool :=
  match l_cooldown_until l !! id with Some until => now <? until | None => false end.

(** [_touch_local_state] *)
Definition touch_local_state (now : Z) (id : string) : local_state -> local_state :=
  with_last_seen (fun m => <[id := now]> m).

(** [id in dict] *)
Definition present {V} (m : gmap string V) (id : string) : bool :=
  match m !! id with Some _ => true | None => false end.

(** [_drop_local_state_if_unused] *)
Definition drop_local_state_if_unused (now : Z) (id : string) (l : local_state) : local_state :=
  if 0 <? active_of l id then l
  else if cooling l now id then l
  else if present (l_latency l) id then l
  else if present (l_usage l) id then l
  else if present (l_health l) id then l
  else if 0 <? failures_of l id then l
  else with_last_seen (delete id) (with_failures (delete id)
         (with_cooldown (delete id) (with_active (delete id) l))).

(** The body of the pruning loop for one deployment. *)
Definition prune_one (current_time cutoff : Z) (l : local_state) (entry : string * Z)
    : local_state :=
  let '(id, seen_at) := entry in
  if cutoff <=? seen_at then l
  else if 0 <? active_of l id then l
  else if cooling l current_time id then l
  else with_last_seen (delete id) (with_failures (delete id) (with_health (delete id)
         (with_cooldown (delete id) (with_usage (delete id) (with_latency (delete id)
           (with_active (delete id) l)))))).

Definition prune_interval_sec : Z := 30.

(** [_prune_local_state] *)
Definition prune_local_state (force : bool) (current_time ttl_sec : Z) (l : local_state)
    : local_state :=
  if negb force && (current_time - l_last_prune_at l <? prune_interval_sec * usec) then l
  else
    let l := with_last_prune current_time l in
    let cutoff := current_time - ttl_sec * usec in
    foldl (prune_one current_time cutoff) l (map_to_list (l_last_seen l)).

(** ** Values the handlers compute *)

(** Proleptic Gregorian date of a day number counted from 1970-01-01. *)
Definition civil_from_days (days : Z) : Z * Z * Z :=
  let z := days + 719468 in
  let era := z / 146097 in
  let doe := z - era * 146097 in
  let yoe := (doe - doe / 1460 + doe / 36524 - doe / 146096) / 365 in
  let doy := doe - (365 * yoe + yoe / 4 - yoe / 100) in
  let mp := (5 * doy + 2) / 153 in
  let d := doy - (153 * mp + 2) / 5 + 1 in
  let m := if mp <? 10 then mp + 3 else mp - 9 in
  let y := yoe + era * 400 + (if m <=? 2 then 1 else 0) in
  (y, m, d).

Definition pad2 (n : Z) : string := if (n <? 10)%Z then ("0" +:+ Str.of_Z n)%string else Str.of_Z n.

(** [_minute_window]: [strftime("%Y-%m-%dT%H:%M")] in UTC. *)
Definition minute_window (now : Z) : string :=
  let s := secs now in
  let '(y, m, d) := civil_from_days (s / 86400) in
  (Str.of_Z y +:+ "-" +:+ pad2 m +:+ "-" +:+ pad2 d +:+ "T" +:+
   pad2 (s mod 86400 / 3600)%Z +:+ ":" +:+ pad2 (s mod 3600 / 60)%Z)%string.

Example minute_window_example : minute_window (1772323439 * usec) = "2026-03-01T00:03"%string.
Proof. vm_compute. reflexivity. Qed.

Definition USAGE_COUNTER_NAMES : list string :=
  ["rpm"; "tpm"; "image_pm"; "audio_seconds_pm"; "char_pm"; "rerank_units_pm"].

(** [_normalize_usage_counters] *)
Definition normalize_usage_counters (counters : list (string * Z)) : list (string * Z) :=
  let step (acc : list (string * Z)) (name : string) :=
    if String.eqb name "rpm" then acc
    else match dict_get counters name with
         | Some v => dict_set acc name (Z.max 0 v)
         | None => acc
         end in
  let normalized := foldl step [("rpm"%string, 1); ("tpm"%string, 0)] USAGE_COUNTER_NAMES in
  match dict_get counters "rpm" with
  | Some v => dict_set normalized "rpm" (Z.max 1 (if v =? 0 then 1 else v))
  | None => normalized
  end.

Definition usage_get (u : gmap string Z) (name : string) : Z := default 0 (u !! name).

(** [_materialize_usage_snapshot] *)
Definition materialize_usage_snapshot (u : gmap string Z) : gmap string Z :=
  let base : gmap string Z :=
    <["tpm"%string := usage_get u "tpm"]> {["rpm"%string := usage_get u "rpm"]} in
  foldl (fun acc name => if 0 <? usage_get u name then <[name := usage_get u name]> acc else acc)
    base (drop 2 USAGE_COUNTER_NAMES).

(** The local branch of [increment_usage_counters], one counter. *)
Definition add_usage (u : gmap string Z) (c : string * Z) : gmap string Z :=
  let '(name, value) := c in
  if String.eqb name "rpm" then <["rpm"%string := usage_get u "rpm" + 1]> u
  else if value <=? 0 then u
  else <[name := usage_get u name + value]> u.

Definition fresh_usage (minute : string) (now : Z) : usage_entry :=
  mkUsage (<["tpm"%string := 0]> {["rpm"%string := 0]}) minute (secs now).

(** [window[-n:]] for positive [n]. *)
Definition last_n {A} (n : Z) (l : list A) : list A := drop (length l - Z.to_nat n) l.

(** [str(error)[:200]] *)
Definition error_text (error : string) : string := Str.take 200 error.

Definition other_error (message : string) : exn :=
  EOther {| oe_message := message; oe_status_code := None; oe_response_status := None;
            oe_error_type := None; oe_affects := None |}.

Definition redis_unavailable : exn := other_error "redis unavailable".
Definition connection_error : exn := other_error "connection error".

(** [int(value)] and [int(value or 0)] of a reply. *)
Definition reply_int (r : reply) : res exn Z :=
  match r with
  | RInt n => Ret n
  | RStr s => match int_of_string s with
              | Ret n => Ret n
              | Raise _ => Raise (other_error "invalid literal for int()")
              end
  | _ => Raise (other_error "int() argument must be a string or a number")
  end.
Definition reply_int_or_0 (r : reply) : res exn Z :=
  match r with
  | RNil => Ret 0
  | RStr s => if Str.is_empty s then Ret 0 else reply_int r
  | RList [] => Ret 0
  | RHash [] => Ret 0
  | _ => reply_int r
  end.

Definition reply_list (r : reply) : res exn (list reply) :=
  match r with RList l => Ret l | _ => Raise (other_error "reply is not a list") end.

Definition reply_truthy (r : reply) : bool :=
  match r with
  | RNil | RInt 0 | RList [] | RHash [] => false
  | RStr s => negb (Str.is_empty s)
  | _ => true
  end.

Definition lift {S E A} (r : res E A) : st S E A := fun s => (s, r).

(** ["ts:latency"] as stored in the sorted set.  Latencies are finite here, as
    [record_latency] is given them: a member "inf" or "nan", which Python would
    read, counts as one that cannot be read. *)
Definition parse_sample (item : reply) : res exn sample :=
  match item with
  | RStr s =>
    match Str.split ":" s with
    | [] | [_] => Raise (other_error "not enough values to unpack")
    | ts :: rest =>
      match int_of_string ts, float_of_string (Str.join ":" rest) with
      | Ret t, Ret (FFin q) => Ret (t, q)
      | _, _ => Raise (other_error "could not convert string")
      end
    end
  | _ => Raise (other_error "not enough values to unpack")
  end.

Fixpoint parse_samples (items : list reply) : res exn (list sample) :=
  match items with
  | [] => Ret []
  | item :: items' => x ← parse_sample item; l ← parse_samples items'; Ret (x :: l)
  end.

(** ** RedisStateBackend *)

Section backend_ops.
Context {S : Type} `{RedisExec S}.
Local Abbreviation op := (st (backend S) exn).
Implicit Types (now : Z) (id : string) (ids : list string).

(** [_mark_backend_failure] *)
Definition mark_backend_failure now (exc : exn) (b : backend S) : backend S :=
  let mode := match policy b with fail_open => degraded_mode | fail_closed => unavailable_mode end in
  let text := exn_str exc in
  set_status mode (Some (if Str.is_empty text then "redis unavailable"%string else text))
    (Some (secs now)) b.

(** [_mark_backend_healthy] *)
Definition mark_backend_healthy (b : backend S) : backend S :=
  match redis b with
  | None => b
  | Some _ => set_status redis_mode None None b
  end.

Definition router_backend_unavailable : exn :=
  EProxy (mk_proxy ServiceUnavailableError (Some "Router state backend unavailable"%string)
            None None None None).

(** [_handle_backend_failure] *)
Definition handle_backend_failure now (exc : exn) : op unit := fun b =>
  let b' := mark_backend_failure now exc b in
  match policy b' with
  | fail_closed => (b', Raise router_backend_unavailable)
  | fail_open => (b', Ret tt)
  end.

(** [RedisStateBackend.__init__] *)
Definition init_backend now (redis : option (connection S)) (latency_window_ms : Z)
    (degraded_mode : string) (local_state_ttl_sec max_local_latency_samples : Z) : backend S :=
  let b := mkBackend redis latency_window_ms
    (if String.eqb degraded_mode "fail_closed" then fail_closed else fail_open)
    (Z.max 1 local_state_ttl_sec) (Z.max 1 max_local_latency_samples) empty_local
    redis_mode None None in
  match redis with
  | None => mark_backend_failure now redis_unavailable b
  | Some _ => b
  end.

(** One round trip: the commands run in order, or the trip fails. *)
Fixpoint run_commands (s : S) (cmds : list command) : S * list reply :=
  match cmds with
  | [] => (s, [])
  | c :: cmds' =>
    let '(s1, r) := redis_exec s c in
    let '(s2, rs) := run_commands s1 cmds' in (s2, r :: rs)
  end.

Definition round_trip (cmds : list command) : op (list reply) := fun b =>
  match redis b with
  | None => (b, Raise redis_unavailable)
  | Some c =>
    match outages c with
    | true :: o => (set_conn (mkConn (server c) o) b, Raise connection_error)
    | o =>
      let '(s', rs) := run_commands (server c) cmds in
      (set_conn (mkConn s' (tail o)) b, Ret rs)
    end
  end.

(** [_redis_call] *)
Definition redis_call (cmd : command) : op reply :=
  rs ← round_trip [cmd];
  _ ← modify mark_backend_healthy;
  mret (default RNil (head rs)).

(** [try: remote except Exception as exc: self._handle_backend_failure(exc); local] *)
Definition guarded {A} now (remote local : op A) : op A :=
  try_except remote (fun exc => _ ← handle_backend_failure now exc; local).

Definition on_local (f : local_state -> local_state) : op unit :=
  modify (fun b => set_local (f (local b)) b).

Definition read_local {A} (f : local_state -> A) : op A := fun b => (b, Ret (f (local b))).

(** [self._prune_local_state()] *)
Definition prune now : op unit := fun b =>
  (set_local (prune_local_state false now (local_state_ttl_sec b) (local b)) b, Ret tt).

(** *** Active requests *)

Definition active_key id : string := "active_requests:" +:+ id.

Definition increment_active now id : op Z :=
  guarded now
    (r ← redis_call (INCR (active_key id)); lift (reply_int r))
    (_ ← on_local (fun l => touch_local_state now id
                              (with_active (<[id := active_of l id + 1]>) l));
     read_local (fun l => active_of l id)).

Definition decrement_active now id : op Z :=
  guarded now
    (r ← redis_call (DECR (active_key id));
     value ← lift (reply_int r);
     if value <? 0 then
       _ ← redis_call (SET (active_key id) "0"); mret 0
     else mret value)
    (value ← read_local (fun l => Z.max 0 (active_of l id - 1));
     _ ← on_local (fun l =>
           if value =? 0
           then drop_local_state_if_unused now id (with_active (delete id) l)
           else touch_local_state now id (with_active (<[id := value]>) l));
     mret value).

Definition get_active_requests now id : op Z :=
  guarded now
    (r ← redis_call (GET (active_key id)); lift (reply_int_or_0 r))
    (_ ← prune now; read_local (fun l => active_of l id)).

(** [zip(ids, values, strict=False)] with [int(value or 0)]. *)
Fixpoint zip_ints (ids : list string) (values : list reply) : res exn (gmap string Z) :=
  match ids, values with
  | id :: ids', v :: values' =>
    n ← reply_int_or_0 v; m ← zip_ints ids' values';
    (* a later duplicate id wins *)
    Ret (match m !! id with Some _ => m | None => <[id := n]> m end)
  | _, _ => Ret ∅
  end.

Definition get_active_requests_batch now ids : op (gmap string Z) :=
  match ids with
  | [] => mret ∅
  | _ =>
    guarded now
      (r ← redis_call (MGET (map active_key ids));
       values ← lift (reply_list r);
       lift (zip_ints ids values))
      (_ ← prune now;
       read_local (fun l => foldl (fun m id => <[id := active_of l id]> m) ∅ ids))
  end.

(** [{id: await get(id) for id in ids}] *)
Fixpoint batch {A} (get : string -> op A) (acc : gmap string A) ids : op (gmap string A) :=
  match ids with
  | [] => mret acc
  | id :: ids' => a ← get id; batch get (<[id := a]> acc) ids'
  end.

(** *** Latency *)

Definition latency_key id : string := "latency:" +:+ id.
Definition millis now : Z := now / 1000.

(** The local branch of [record_latency]. *)
Definition append_latency (cutoff max_samples : Z) (x : sample) (window : list sample)
    : list sample :=
  let trimmed := filter (fun y : sample => cutoff <= y.1) (window ++ [x]) in
  if max_samples <? Z.of_nat (length trimmed) then last_n max_samples trimmed else trimmed.

(** [float_repr] is [str] of a float, which the sorted-set member holds. *)
Definition record_latency (float_repr : Q -> string) now id (latency_ms : Q) : op unit := fun b =>
  let timestamp_ms := millis now in
  let cutoff := timestamp_ms - latency_window_ms b in
  guarded now
    (_ ← round_trip [
       ZADD (latency_key id) (Str.of_Z timestamp_ms +:+ ":" +:+ float_repr latency_ms) timestamp_ms;
       ZREMRANGEBYSCORE (latency_key id) 0 cutoff;
       PEXPIRE (latency_key id) (latency_window_ms b)];
     modify mark_backend_healthy)
    (on_local (fun l => touch_local_state now id
       (with_latency (<[id := append_latency cutoff (max_local_latency_samples b)
                                (timestamp_ms, latency_ms) (default [] (l_latency l !! id))]>) l)))
    b.

Definition get_latency_window now id (window_ms : Z) : op (list sample) := fun b =>
  let min_score := millis now - window_ms in
  guarded now
    (r ← redis_call (ZRANGEBYSCORE (latency_key id) min_score);
     items ← lift (reply_list r);
     lift (parse_samples items))
    (_ ← prune now;
     window ← read_local (fun l =>
       filter (fun y : sample => min_score <= y.1) (default [] (l_latency l !! id)));
     _ ← on_local (fun l =>
       match window with
       | [] => drop_local_state_if_unused now id (with_latency (delete id) l)
       | _ => touch_local_state now id
                (with_latency (<[id := last_n (max_local_latency_samples b) window]>) l)
       end);
     mret window)
    b.

Definition get_latency_windows_batch now ids (window_ms : Z) : op (gmap string (list sample)) :=
  batch (fun id => get_latency_window now id window_ms) ∅ ids.

(** *** Usage *)

Definition usage_key (name id minute : string) : string :=
  "usage_" +:+ name +:+ ":" +:+ id +:+ ":" +:+ minute.

(** The pipeline's commands for one normalised counter. *)
Definition usage_commands id (minute : string) (c : string * Z) : list command :=
  let '(name, value) := c in
  let key := usage_key name id minute in
  (if String.eqb name "rpm" then [INCR key]
   else if 0 <? value then [INCRBY key value] else []) ++ [EXPIRE key 120].

(** The local branch of [increment_usage_counters]. *)
Definition add_local_usage now (minute : string) (counters : list (string * Z))
    (old : option usage_entry) : usage_entry :=
  let usage := default (fresh_usage minute now) old in
  let usage := if String.eqb (usage_window usage) minute then usage else fresh_usage minute now in
  mkUsage (foldl add_usage (usage_counts usage) counters) (usage_window usage) (secs now).

Definition increment_usage_counters now id (counters : list (string * Z)) (window : option string)
    : op unit :=
  let minute := match window with
                | Some w => if Str.is_empty w then minute_window now else w
                | None => minute_window now
                end in
  let normalized := normalize_usage_counters counters in
  guarded now
    (_ ← round_trip (flat_map (usage_commands id minute) normalized);
     modify mark_backend_healthy)
    (on_local (fun l => touch_local_state now id
       (with_usage (<[id := add_local_usage now minute normalized (l_usage l !! id)]>) l))).

Definition increment_usage now id (tokens : Z) (window : option string) : op unit :=
  increment_usage_counters now id [("rpm"%string, 1); ("tpm"%string, Z.max 0 tokens)] window.

(** The snapshot of the values MGET returned, in the order of the names. *)
Fixpoint usage_snapshot (names : list string) (values : list reply) (acc : gmap string Z)
    : res exn (gmap string Z) :=
  match names, values with
  | name :: names', v :: values' =>
    n ← reply_int_or_0 v;
    usage_snapshot names' values' (if 0 <? n then <[name := n]> acc else acc)
  | _, _ => Ret acc
  end.

Definition usage_of_values (values : list reply) : res exn (gmap string Z) :=
  match values with
  | rpm :: tpm :: values' =>
    r ← reply_int_or_0 rpm; t ← reply_int_or_0 tpm;
    usage_snapshot (drop 2 USAGE_COUNTER_NAMES) values' (<["tpm"%string := t]> {["rpm"%string := r]})
  | _ => Raise (other_error "list index out of range")
  end.

Definition zero_usage : gmap string Z := <["tpm"%string := 0]> {["rpm"%string := 0]}.

Definition get_usage now id : op (gmap string Z) :=
  let minute := minute_window now in
  guarded now
    (r ← redis_call (MGET (map (fun name => usage_key name id minute) USAGE_COUNTER_NAMES));
     values ← lift (reply_list r);
     lift (usage_of_values values))
    (_ ← prune now;
     usage ← read_local (fun l => l_usage l !! id);
     match usage with
     | Some u =>
       if String.eqb (usage_window u) minute then
         _ ← on_local (touch_local_state now id);
         mret (materialize_usage_snapshot (usage_counts u))
       else
         _ ← on_local (fun l => drop_local_state_if_unused now id (with_usage (delete id) l));
         mret zero_usage
     | None =>
       _ ← on_local (fun l => drop_local_state_if_unused now id (with_usage (delete id) l));
       mret zero_usage
     end).

Definition get_usage_batch now ids : op (gmap string (gmap string Z)) := batch (get_usage now) ∅ ids.

(** *** Cooldown *)

Definition cooldown_key id : string := "cooldown:" +:+ id.
Definition quoted (s : string) : string :=
  String (Ascii.ascii_of_nat 34) (s +:+ String (Ascii.ascii_of_nat 34) EmptyString).

(** [json_reason] is [json.dumps] of a string. *)
Definition set_cooldown (json_reason : string -> string) now id (duration_sec : Z)
    (reason : string) : op unit :=
  let payload := "{" +:+ quoted "reason" +:+ ": " +:+ json_reason reason +:+ ", " +:+ quoted "at" +:+
                 ": " +:+ Str.of_Z (secs now) +:+ "}" in
  guarded now
    (_ ← redis_call (SETEX (cooldown_key id) (Z.max 1 duration_sec) payload); mret tt)
    (on_local (fun l => touch_local_state now id
       (with_cooldown (<[id := now + Z.max 1 duration_sec * usec]>) l))).

Definition clear_cooldown now id : op unit :=
  guarded now
    (_ ← redis_call (DEL (cooldown_key id)); mret tt)
    (on_local (fun l => drop_local_state_if_unused now id (with_cooldown (delete id) l))).

(** The local branch of one cooldown query. *)
Definition local_cooled now id : op bool := fun b =>
  let l := local b in
  let until := l_cooldown_until l !! id in
  if negb (truthy_num until) then (b, Ret false)
  else if default 0 until <=? now
  then (set_local (drop_local_state_if_unused now id (with_cooldown (delete id) l)) b, Ret false)
  else (set_local (touch_local_state now id l) b, Ret true).

Definition is_cooled_down now id : op bool :=
  guarded now
    (r ← redis_call (EXISTS (cooldown_key id)); mret (reply_truthy r))
    (_ ← prune now; local_cooled now id).

(** [value not in (None, "", b"")] *)
Definition reply_present (r : reply) : bool :=
  match r with RNil => false | RStr s => negb (Str.is_empty s) | _ => true end.

Fixpoint zip_present ids (values : list reply) (acc : gmap string bool) : gmap string bool :=
  match ids, values with
  | id :: ids', v :: values' => zip_present ids' values' (<[id := reply_present v]> acc)
  | _, _ => acc
  end.

Definition get_cooldown_batch now ids : op (gmap string bool) :=
  match ids with
  | [] => mret ∅
  | _ =>
    guarded now
      (r ← redis_call (MGET (map cooldown_key ids));
       values ← lift (reply_list r);
       mret (zip_present ids values ∅))
      (_ ← prune now; batch (local_cooled now) ∅ ids)
  end.

(** *** Successes, failures and health *)

Definition failures_key id : string := "failures:" +:+ id.
Definition health_key id : string := "health:" +:+ id.

(** [entry = self._health.setdefault(id, {}); entry.update(...)] *)
Definition update_health id (f : gmap string string -> gmap string string) (l : local_state)
    : local_state :=
  with_health (<[id := f (default ∅ (l_health l !! id))]>) l.

Definition record_success now id : op unit :=
  let now_s := Str.of_Z (secs now) in
  guarded now
    (_ ← round_trip [
       DEL (failures_key id);
       HSET (health_key id)
         [("healthy", "true"); ("consecutive_failures", "0"); ("last_success_at", now_s)]%string;
       HDEL (health_key id) ["last_error"; "last_error_at"]%string];
     modify mark_backend_healthy)
    (on_local (fun l => touch_local_state now id
       (update_health id (fun e =>
          delete "last_error_at"%string (delete "last_error"%string
            (<["last_success_at"%string := now_s]> (<["consecutive_failures"%string := "0"%string]>
              (<["healthy"%string := "true"%string]> e)))))
         (with_failures (delete id) l)))).

(** The failure part of a health entry. *)
Definition failure_fields now (failure_count : Z) (error : string) : list (string * string) :=
  [("consecutive_failures", Str.of_Z failure_count); ("last_error", error_text error);
   ("last_error_at", Str.of_Z (secs now))]%string.

Definition record_failure now id (error : string) : op Z :=
  guarded now
    (results ← round_trip [INCR (failures_key id); EXPIRE (failures_key id) 300];
     failure_count ← lift (match results with
                           | r :: _ => reply_int r
                           | [] => Raise (other_error "list index out of range")
                           end);
     _ ← redis_call (HSET (health_key id) (failure_fields now failure_count error));
     mret failure_count)
    (failure_count ← read_local (fun l => failures_of l id + 1);
     _ ← on_local (fun l => touch_local_state now id
           (update_health id (fun e =>
              foldl (fun e '(k, v) => <[k := v]> e) e (failure_fields now failure_count error))
             (with_failures (<[id := failure_count]>) l)));
     mret failure_count).

Definition set_health now id (healthy : bool) : op unit :=
  let value := (if healthy then "true" else "false")%string in
  guarded now
    (_ ← redis_call (HSET (health_key id) [("healthy"%string, value)]); mret tt)
    (on_local (fun l => touch_local_state now id
       (update_health id (<["healthy"%string := value]>) l))).

(** [dict(raw or {})] *)
Definition health_dict (r : reply) : res exn (gmap string string) :=
  match r with
  | RHash fields => Ret (foldl (fun e '(k, v) => <[k := v]> e) ∅ fields)
  | _ => if reply_truthy r then Raise (other_error "reply is not a hash") else Ret ∅
  end.

Definition get_health now id : op (gmap string string) :=
  guarded now
    (r ← redis_call (HGETALL (health_key id)); lift (health_dict r))
    (_ ← prune now; read_local (fun l => default ∅ (l_health l !! id))).

Definition get_health_batch now ids : op (gmap string (gmap string string)) :=
  batch (get_health now) ∅ ids.

(** [get_backend_status] *)
Record backend_status : Type := mkStatus {
  bs_mode : backend_mode_t;
  bs_degraded_mode : degraded_policy;
  bs_local_fallback_entries : Z;
  bs_last_error : option string;
  bs_last_error_at : option Z
}.

Definition get_backend_status (b : backend S) : backend_status :=
  mkStatus (backend_mode b) (policy b) (Z.of_nat (size (l_last_seen (local b))))
    (last_redis_error b) (last_redis_error_at b).
End backend_ops.

(** ** The operations as one alphabet

    The remaining batch operations run these one id after the other. *)

Inductive backend_op : Type :=
  | IncrementActive (id : string)
  | DecrementActive (id : string)
  | GetActiveRequests (id : string)
  | GetActiveRequestsBatch (ids : list string)
  | RecordLatency (id : string) (latency_ms : Q)
  | GetLatencyWindow (id : string) (window_ms : Z)
  | IncrementUsageCounters (id : string) (counters : list (string * Z)) (window : option string)
  | GetUsage (id : string)
  | SetCooldown (id : string) (duration_sec : Z) (reason : string)
  | ClearCooldown (id : string)
  | IsCooledDown (id : string)
  | GetCooldownBatch (ids : list string)
  | RecordSuccess (id : string)
  | RecordFailure (id : string) (error : string)
  | SetHealth (id : string) (healthy : bool)
  | GetHealth (id : string).

Section alphabet.
Context {S : Type} `{RedisExec S}.
Context (float_repr : Q -> string) (json_reason : string -> string).

Definition run_op (now : Z) (o : backend_op) : st (backend S) exn unit :=
  match o with
  | IncrementActive id => _ ← increment_active now id; mret tt
  | DecrementActive id => _ ← decrement_active now id; mret tt
  | GetActiveRequests id => _ ← get_active_requests now id; mret tt
  | GetActiveRequestsBatch ids => _ ← get_active_requests_batch now ids; mret tt
  | RecordLatency id ms => record_latency float_repr now id ms
  | GetLatencyWindow id w => _ ← get_latency_window now id w; mret tt
  | IncrementUsageCounters id cs w => increment_usage_counters now id cs w
  | GetUsage id => _ ← get_usage now id; mret tt
  | SetCooldown id d reason => set_cooldown json_reason now id d reason
  | ClearCooldown id => clear_cooldown now id
  | IsCooledDown id => _ ← is_cooled_down now id; mret tt
  | GetCooldownBatch ids => _ ← get_cooldown_batch now ids; mret tt
  | RecordSuccess id => record_success now id
  | RecordFailure id e => _ ← record_failure now id e; mret tt
  | SetHealth id h => set_health now id h
  | GetHealth id => _ ← get_health now id; mret tt
  end.

(** A history of calls, each at its instant; a caller that got an exception
    does not stop the others. *)
Definition run_ops (b : backend S) (h : list (Z * backend_op)) : backend S :=
  foldl (fun b '(now, o) => fst (run_op now o b)) b h.
End alphabet.

(** ** The degraded mode as a specification over the local dictionaries alone *)

Record config : Type := mkConfig {
  cfg_latency_window_ms : Z;
  cfg_policy : degraded_policy;
  cfg_ttl : Z;
  cfg_max_samples : Z
}.

Definition config_of {S} (b : backend S) : config :=
  mkConfig (latency_window_ms b) (policy b) (local_state_ttl_sec b) (max_local_latency_samples b).

Definition cooled_effect (now : Z) (l : local_state) (id : string) : local_state :=
  match l_cooldown_until l !! id with
  | None | Some 0 => l
  | Some until =>
    if until <=? now then drop_local_state_if_unused now id (with_cooldown (delete id) l)
    else touch_local_state now id l
  end.

Definition window_of (minute : string) (window : option string) : string :=
  match window with Some w => if Str.is_empty w then minute else w | None => minute end.

Definition local_effect (c : config) (now : Z) (o : backend_op) (l : local_state) : local_state :=
  let pruned := prune_local_state false now (cfg_ttl c) l in
  match o with
  | IncrementActive id => touch_local_state now id (with_active (<[id := active_of l id + 1]>) l)
  | DecrementActive id =>
    if active_of l id - 1 <=? 0
    then drop_local_state_if_unused now id (with_active (delete id) l)
    else touch_local_state now id (with_active (<[id := active_of l id - 1]>) l)
  | GetActiveRequests _ | GetHealth _ => pruned
  | GetActiveRequestsBatch ids => match ids with [] => l | _ => pruned end
  | RecordLatency id ms =>
    touch_local_state now id (with_latency
      (<[id := append_latency (millis now - cfg_latency_window_ms c) (cfg_max_samples c)
                 (millis now, ms) (default [] (l_latency l !! id))]>) l)
  | GetLatencyWindow id w =>
    match filter (fun y : sample => millis now - w <= y.1) (default [] (l_latency pruned !! id)) with
    | [] => drop_local_state_if_unused now id (with_latency (delete id) pruned)
    | window => touch_local_state now id
                  (with_latency (<[id := last_n (cfg_max_samples c) window]>) pruned)
    end
  | IncrementUsageCounters id cs w =>
    touch_local_state now id (with_usage
      (<[id := add_local_usage now (window_of (minute_window now) w)
                 (normalize_usage_counters cs) (l_usage l !! id)]>) l)
  | GetUsage id =>
    match l_usage pruned !! id with
    | Some u =>
      if String.eqb (usage_window u) (minute_window now) then touch_local_state now id pruned
      else drop_local_state_if_unused now id (with_usage (delete id) pruned)
    | None => drop_local_state_if_unused now id (with_usage (delete id) pruned)
    end
  | SetCooldown id d _ =>
    touch_local_state now id (with_cooldown (<[id := now + Z.max 1 d * usec]>) l)
  | ClearCooldown id => drop_local_state_if_unused now id (with_cooldown (delete id) l)
  | IsCooledDown id => cooled_effect now pruned id
  | GetCooldownBatch ids => match ids with [] => l | _ => foldl (cooled_effect now) pruned ids end
  | RecordSuccess id =>
    touch_local_state now id
      (update_health id (fun e =>
         delete "last_error_at"%string (delete "last_error"%string
           (<["last_success_at"%string := Str.of_Z (secs now)]>
             (<["consecutive_failures"%string := "0"%string]> (<["healthy"%string := "true"%string]> e)))))
        (with_failures (delete id) l))
  | RecordFailure id e =>
    touch_local_state now id
      (update_health id (fun h => foldl (fun h '(k, v) => <[k := v]> h) h
                                    (failure_fields now (failures_of l id + 1) e))
        (with_failures (<[id := failures_of l id + 1]>) l))
  | SetHealth id h =>
    touch_local_state now id
      (update_health id (<["healthy"%string := (if h then "true" else "false")%string]>) l)
  end.

(** ** Every operation is served by Redis, refused, or follows the specification *)

(** How one call ends: Redis served it and the dictionaries are as before; the
    policy is [fail_closed] and the call raises; or the call was served from
    the dictionaries, changed as [f] says. *)
Definition ends {S A} (served : Prop) (f : config -> local_state -> local_state)
    (b : backend S) (out : backend S * res exn A) : Prop :=
  let '(b', r) := out in
  config_of b' = config_of b /\ (redis b = None -> redis b' = None) /\
  ((served /\ local b' = local b /\ is_ret r = true) \/
   (policy b = fail_closed /\ local b' = local b /\ r = Raise router_backend_unavailable) \/
   (policy b = fail_open /\ local b' = f (config_of b) (local b) /\ is_ret r = true)).

Section refinement.
Context {S : Type} `{RedisExec S}.
Context (float_repr : Q -> string) (json_reason : string -> string).
Local Abbreviation op := (st (backend S) exn).

(** The remote half of an operation leaves the dictionaries and settings alone. *)
Definition keeps {A} (m : op A) : Prop := forall b,
  local (fst (m b)) = local b /\ config_of (fst (m b)) = config_of b /\
  (redis b = None -> redis (fst (m b)) = None).

Definition fails_offline {A} (m : op A) : Prop := forall b,
  redis b = None -> exists b' e, m b = (b', Raise e).

(** The local half changes the dictionaries as [f] says and returns. *)
Definition runs_locally {A} (f : config -> local_state -> local_state) (m : op A) : Prop := forall b,
  exists a, m b = (set_local (f (config_of b) (local b)) b, Ret a).

Lemma keeps_bind {A B} (m : op A) (f : A -> op B) :
  keeps m -> (forall a, keeps (f a)) -> keeps (m ≫= f).
Proof.
  intros Hm Hf b. unfold mbind, st_bind. destruct (Hm b) as (Hl & Hc & Hr).
  destruct (m b) as [b1 [a|e]]; simpl in *; [|done]. destruct (Hf a b1) as (Hl1 & Hc1 & Hr1).
  split_and!; [congruence..|auto].
Qed.

Lemma keeps_lift {A} (r : res exn A) : keeps (lift r).
Proof. by intros b. Qed.

Lemma keeps_mret {A} (a : A) : keeps (mret a).
Proof. by intros b. Qed.

Lemma keeps_healthy : keeps (modify mark_backend_healthy).
Proof. intros b. unfold mark_backend_healthy; simpl. by destruct (redis b) eqn:E. Qed.

Lemma keeps_round_trip cmds : keeps (round_trip cmds).
Proof.
  intros b. unfold round_trip. destruct (redis b) as [c|] eqn:E; [|done].
  destruct (outages c) as [|[] o]; simpl; [|done|]; by destruct (run_commands _ _).
Qed.

Lemma offline_bind {A B} (m : op A) (f : A -> op B) : fails_offline m -> fails_offline (m ≫= f).
Proof. intros Hm b Hb. destruct (Hm b Hb) as (b' & e & He). exists b', e. unfold mbind, st_bind. by rewrite He. Qed.

Lemma offline_round_trip cmds : fails_offline (round_trip cmds).
Proof. intros b Hb. unfold round_trip. rewrite Hb. eauto. Qed.

Lemma keeps_redis_call cmd : keeps (redis_call cmd).
Proof. apply keeps_bind; [apply keeps_round_trip|]. intros rs. apply keeps_bind; [apply keeps_healthy|]. done. Qed.

Lemma offline_redis_call cmd : fails_offline (redis_call cmd).
Proof. apply offline_bind, offline_round_trip. Qed.

Lemma guarded_ends {A} now (remote lcl : op A) f b :
  keeps remote -> fails_offline remote -> runs_locally f lcl ->
  ends (redis b <> None) f b (guarded now remote lcl b).
Proof.
  intros Hk Hoff Hrun. unfold guarded, try_except. destruct (Hk b) as (Hl & Hc & Hr).
  destruct (remote b) as [b1 [a|e]] eqn:E; simpl in *.
  - split_and!; [done..|left]. split_and!; [|done..]. intros Hn. destruct (Hoff b Hn) as (? & ? & ?). congruence.
  - unfold mbind, st_bind, handle_backend_failure.
    assert (Hp : policy b1 = policy b) by (by injection Hc).
    set (bm := mark_backend_failure now e b1).
    assert (policy bm = policy b) as Hpm by done. rewrite Hpm.
    destruct (policy b) eqn:Ep.
    + destruct (Hrun bm) as [a Ha]. rewrite Ha. unfold ends; simpl. rewrite Ep.
      assert (config_of bm = config_of b) as Hcm by (rewrite <- Hc; done).
      split_and!; [by rewrite <- Hcm|auto|]. right; right. split_and!; [done| |done].
      rewrite Hcm. subst bm. simpl. by rewrite Hl.
    + unfold ends. simpl. rewrite Ep. split_and!; [rewrite <- Hc; done|auto|]. right; left. done.
Qed.

Lemma ends_bind_tt {A} served f b (m : op A) :
  ends served f b (m b) -> ends served f b ((_ ← m; mret tt) b).
Proof.
  unfold ends, mbind, st_bind, mret, st_ret.
  destruct (m b) as [b' [a|e]]; simpl; intros (Hc & Hr & Hd); (split_and!; [done..|]);
    destruct Hd as [(? & ? & Hf)|[(? & ? & He)|(? & ? & Hf)]]; try discriminate;
    [left|right; right|right; left]; split_and!; try done; congruence.
Qed.

Lemma ends_weaken {A} (served served' : Prop) f b (out : backend S * res exn A) :
  (served -> served') -> ends served f b out -> ends served' f b out.
Proof.
  unfold ends. destruct out as [b' r]. intros Hs (Hc & Hr & Hd). split_and!; [done..|].
  destruct Hd as [(? & ? & ?)|Hd]; [left; auto|by right].
Qed.

Lemma ends_ext {A} served f g b (out : backend S * res exn A) :
  f (config_of b) (local b) = g (config_of b) (local b) -> ends served f b out -> ends served g b out.
Proof. unfold ends. destruct out as [b' r]. intros ->. done. Qed.
End refinement.

#[export] Hint Resolve keeps_bind keeps_lift keeps_mret keeps_healthy keeps_round_trip
  keeps_redis_call offline_bind offline_round_trip offline_redis_call : py.

(** Operations that reach the backend at all: an empty batch does not. *)
Definition needs_backend (o : backend_op) : bool :=
  match o with GetActiveRequestsBatch [] | GetCooldownBatch [] => false | _ => true end.

Section refinement_of_ops.
Context {S : Type} `{RedisExec S}.
Context (float_repr : Q -> string) (json_reason : string -> string).

Lemma local_cooled_runs now id :
  runs_locally (S := S) (fun _ l => cooled_effect now l id) (local_cooled now id).
Proof.
  intros b. unfold local_cooled, cooled_effect, truthy_num.
  destruct (l_cooldown_until (local b) !! id) as [until|]; simpl;
    [|exists false; by destruct b].
  destruct until as [|p|p]; simpl; [exists false; by destruct b|..];
    (case_match; [by exists false|by exists true]).
Qed.

Lemma batch_runs {A} (get : string -> st (backend S) exn A) (f : local_state -> string -> local_state)
    acc ids :
  (forall id, runs_locally (fun _ l => f l id) (get id)) ->
  runs_locally (fun _ l => foldl f l ids) (batch get acc ids).
Proof.
  intros Hg. revert acc. induction ids as [|id ids IH]; intros acc b; simpl.
  - exists acc. by destruct b.
  - unfold mbind, st_bind. destruct (Hg id b) as [a ->].
    destruct (IH (<[id:=a]> acc) (set_local (f (local b) id) b)) as [m ->]. by exists m.
Qed.

(** The latency operations read the window settings before the Redis call. *)
Definition fixed_windows (b : backend S) (c : config) : config :=
  mkConfig (latency_window_ms b) (cfg_policy c) (cfg_ttl c) (max_local_latency_samples b).

Lemma decrement_runs now id :
  runs_locally (S := S) (fun c => local_effect c now (DecrementActive id))
    (value ← read_local (fun l => Z.max 0 (active_of l id - 1));
     _ ← on_local (fun l =>
           if value =? 0
           then drop_local_state_if_unused now id (with_active (delete id) l)
           else touch_local_state now id (with_active (<[id := value]>) l));
     mret value).
Proof.
  intros b. exists (Z.max 0 (active_of (local b) id - 1)). unfold mbind, st_bind, read_local, on_local, modify.
  simpl. destruct (Z.leb_spec (active_of (local b) id - 1) 0).
  - by rewrite (proj2 (Z.eqb_eq _ _)) by lia.
  - rewrite (proj2 (Z.eqb_neq _ _)) by lia. by rewrite Z.max_r by lia.
Qed.

Lemma get_usage_runs now id :
  runs_locally (S := S) (fun c => local_effect c now (GetUsage id))
    (_ ← prune now;
     usage ← read_local (fun l => l_usage l !! id);
     match usage with
     | Some u =>
       if String.eqb (usage_window u) (minute_window now) then
         _ ← on_local (touch_local_state now id);
         mret (materialize_usage_snapshot (usage_counts u))
       else
         _ ← on_local (fun l => drop_local_state_if_unused now id (with_usage (delete id) l));
         mret zero_usage
     | None =>
       _ ← on_local (fun l => drop_local_state_if_unused now id (with_usage (delete id) l));
       mret zero_usage
     end).
Proof.
  intros b. unfold mbind, st_bind, prune, read_local, on_local, modify, mret, st_ret. simpl.
  destruct (l_usage _ !! id) as [u|]; simpl; [destruct (String.eqb _ _)|]; eexists; reflexivity.
Qed.

Lemma cooldown_batch_runs now id ids :
  runs_locally (S := S) (fun c => local_effect c now (GetCooldownBatch (id :: ids)))
    (_ ← prune now; batch (local_cooled now) ∅ (id :: ids)).
Proof.
  intros b. unfold mbind at 1, st_bind at 1, prune.
  destruct (batch_runs (local_cooled (S := S) now) (cooled_effect now) ∅ (id :: ids)
              (local_cooled_runs now) (set_local (prune_local_state false now (local_state_ttl_sec b) (local b)) b))
    as [m ->]. by exists m.
Qed.

Lemma is_cooled_runs now id :
  runs_locally (S := S) (fun c => local_effect c now (IsCooledDown id))
    (_ ← prune now; local_cooled now id).
Proof.
  intros b. unfold mbind, st_bind, prune. simpl.
  destruct (local_cooled_runs now id (set_local (prune_local_state false now (local_state_ttl_sec b) (local b)) b))
    as [m ->]. by exists m.
Qed.

Lemma offline_decrement_remote id :
  keeps (S := S) (r ← redis_call (DECR (active_key id));
     value ← lift (reply_int r);
     if value <? 0 then _ ← redis_call (SET (active_key id) "0"); mret 0 else mret value).
Proof. apply keeps_bind; [auto with py|]. intros r. apply keeps_bind; [auto with py|]. intros v. destruct (v <? 0); eauto with py. Qed.

(** An operation of the alphabet ends in one of three ways: Redis served it and
    the process-local dictionaries are untouched; the policy is [fail_closed]
    and it raises, the dictionaries again untouched; or the policy is
    [fail_open] and it succeeds, changing them as [local_effect] says. *)
Lemma run_op_ends (now : Z) (o : backend_op) (b : backend S) :
  ends (redis b <> None \/ needs_backend o = false) (fun c => local_effect c now o) b
    (run_op float_repr json_reason now o b).
Proof.
  assert (Hw : redis b <> None -> redis b <> None \/ needs_backend o = false) by (by left).
  destruct o as [id|id|id|ids|id ms|id w|id cs w|id|id d reason|id|id|ids|id|id e|id h|id]; cbn [run_op];
    try apply ends_bind_tt.
  4: destruct ids as [|i ids]; [by split_and!; [..|left; auto]|].
  12: destruct ids as [|i ids]; [by split_and!; [..|left; auto]|].
  5: eapply (ends_ext _ (fun c => local_effect (fixed_windows b c) now (RecordLatency id ms)));
    [reflexivity|unfold record_latency].
  6: eapply (ends_ext _ (fun c => local_effect (fixed_windows b c) now (GetLatencyWindow id w)));
    [reflexivity|unfold get_latency_window].
  all: eapply ends_weaken; [exact Hw|apply guarded_ends];
    [eauto 8 using offline_decrement_remote with py|eauto 8 with py|].
  all: try (intros b'; eexists; reflexivity).
  - apply decrement_runs.
  - intros b'. unfold mbind, st_bind, prune, read_local, on_local, modify, mret, st_ret, local_effect. simpl.
    destruct (base.filter _ _); eexists; reflexivity.
  - apply get_usage_runs.
  - apply is_cooled_runs.
  - apply cooldown_batch_runs.
Qed.
End refinement_of_ops.

(** ** Invariant of the dictionaries *)

(** The deployment has an entry in some dictionary. *)
Definition in_local (l : local_state) (id : string) : Prop :=
  is_Some (l_active l !! id) \/ is_Some (l_latency l !! id) \/ is_Some (l_usage l !! id) \/
  is_Some (l_cooldown_until l !! id) \/ is_Some (l_health l !! id) \/ is_Some (l_failures l !! id).

(** Every entry is known to the pruner, no count is zero, and no latency
    window is longer than the bound. *)
Record wf_local (max_samples : Z) (l : local_state) : Prop := {
  wf_tracked : forall id, in_local l id -> is_Some (l_last_seen l !! id);
  wf_active : forall id n, l_active l !! id = Some n -> 0 < n;
  wf_failures : forall id n, l_failures l !! id = Some n -> 0 < n;
  wf_latency : forall id w, l_latency l !! id = Some w -> Z.of_nat (length w) <= max_samples
}.

(** The two states agree outside one deployment. *)
Definition same_except (id : string) (l l' : local_state) : Prop := forall i, i <> id ->
  l_active l' !! i = l_active l !! i /\ l_latency l' !! i = l_latency l !! i /\
  l_usage l' !! i = l_usage l !! i /\ l_cooldown_until l' !! i = l_cooldown_until l !! i /\
  l_health l' !! i = l_health l !! i /\ l_failures l' !! i = l_failures l !! i /\
  l_last_seen l' !! i = l_last_seen l !! i.

(** A state with entries removed, the pruner's knowledge kept. *)
Definition sub_local (l' l : local_state) : Prop :=
  l_active l' ⊆ l_active l /\ l_latency l' ⊆ l_latency l /\ l_usage l' ⊆ l_usage l /\
  l_cooldown_until l' ⊆ l_cooldown_until l /\ l_health l' ⊆ l_health l /\
  l_failures l' ⊆ l_failures l /\ l_last_seen l' = l_last_seen l.

(** All entries of one deployment removed. *)
Definition forget (id : string) (l : local_state) : local_state :=
  with_last_seen (delete id) (with_failures (delete id) (with_health (delete id)
    (with_cooldown (delete id) (with_usage (delete id) (with_latency (delete id)
      (with_active (delete id) l)))))).

Section invariant.
Context (n : Z).
Hypothesis Hn : 1 <= n.
Implicit Types (l : local_state) (id : string).

Lemma wf_empty : wf_local n empty_local.
Proof.
  split; simpl; [intros id|intros id m|intros id m|intros id w]; unfold in_local; simpl;
    rewrite ?lookup_empty; try done; unfold is_Some; naive_solver.
Qed.

Lemma wf_sub l l' : sub_local l' l -> wf_local n l -> wf_local n l'.
Proof.
  intros (Ha & Hl & Hu & Hc & Hh & Hf & Hs) [Ht Hwa Hwf Hwl]. split.
  - intros id Hin. rewrite Hs. apply Ht.
    assert (Hmono : forall V (m m' : gmap string V), m ⊆ m' -> is_Some (m !! id) -> is_Some (m' !! id))
      by (intros V m m' Hm [v Hv]; exists v; by eapply lookup_weaken).
    destruct Hin as [?|[?|[?|[?|[?|?]]]]]; unfold in_local; eauto 10.
  - intros id m Hm. eapply Hwa, lookup_weaken; done.
  - intros id m Hm. eapply Hwf, lookup_weaken; done.
  - intros id w Hw. eapply Hwl, lookup_weaken; done.
Qed.

Lemma wf_forget l id : wf_local n l -> wf_local n (forget id l).
Proof.
  intros [Ht Hwa Hwf Hwl].
  split; unfold in_local; simpl; intros i; destruct (decide (id = i)) as [->|Hne];
    rewrite ?lookup_delete_eq, ?lookup_delete_ne by done; try done; try apply Ht; eauto.
  intros Hin. exfalso. destruct Hin as [[? ?]|[[? ?]|[[? ?]|[[? ?]|[[? ?]|[? ?]]]]]]; done.
Qed.

Lemma wf_write now l l' id :
  wf_local n l -> same_except id l l' ->
  (forall m, l_active l' !! id = Some m -> 0 < m) ->
  (forall m, l_failures l' !! id = Some m -> 0 < m) ->
  (forall w, l_latency l' !! id = Some w -> Z.of_nat (length w) <= n) ->
  wf_local n (touch_local_state now id l').
Proof.
  intros [Ht Hwa Hwf Hwl] Hs Ha Hf Hl.
  split; unfold in_local; simpl; intros i; destruct (decide (id = i)) as [->|Hne]; eauto.
  - intros _. rewrite lookup_insert_eq. eauto.
  - destruct (Hs i) as (-> & -> & -> & -> & -> & -> & Hls); [done|].
    rewrite lookup_insert_ne by done. rewrite Hls. apply Ht.
  - destruct (Hs i) as (-> & _); [done|]. apply Hwa.
  - destruct (Hs i) as (_ & _ & _ & _ & _ & -> & _); [done|]. apply Hwf.
  - destruct (Hs i) as (_ & -> & _); [done|]. apply Hwl.
Qed.

Lemma with_latency_absent id l : l_latency l !! id = None -> with_latency (delete id) l = l.
Proof. intros E. unfold with_latency. rewrite delete_id by done. by destruct l. Qed.
Lemma with_usage_absent id l : l_usage l !! id = None -> with_usage (delete id) l = l.
Proof. intros E. unfold with_usage. rewrite delete_id by done. by destruct l. Qed.
Lemma with_health_absent id l : l_health l !! id = None -> with_health (delete id) l = l.
Proof. intros E. unfold with_health. rewrite delete_id by done. by destruct l. Qed.

(** Dropping an unused deployment removes every entry it has. *)
Lemma drop_unused_cases now id l :
  drop_local_state_if_unused now id l = l \/
  (drop_local_state_if_unused now id l = forget id l /\
   active_of l id <= 0 /\ cooling l now id = false /\ failures_of l id <= 0 /\
   l_latency l !! id = None /\ l_usage l !! id = None /\ l_health l !! id = None).
Proof.
  unfold drop_local_state_if_unused, present.
  destruct (Z.ltb_spec 0 (active_of l id)); [by left|]. destruct (cooling l now id); [by left|].
  destruct (l_latency l !! id) eqn:El; [by left|]. destruct (l_usage l !! id) eqn:Eu; [by left|].
  destruct (l_health l !! id) eqn:Eh; [by left|].
  destruct (Z.ltb_spec 0 (failures_of l id)); [by left|]. right.
  split; [|split_and!; try done; lia].
  unfold forget. rewrite (with_latency_absent id (with_active _ l)) by done.
  rewrite (with_usage_absent id (with_active _ l)) by done.
  by rewrite (with_health_absent id (with_cooldown _ (with_active _ l))) by done.
Qed.

Lemma prune_one_cases now cutoff l e :
  prune_one now cutoff l e = l \/
  (prune_one now cutoff l e = forget e.1 l /\ e.2 < cutoff /\ active_of l e.1 <= 0 /\
   cooling l now e.1 = false).
Proof.
  destruct e as [id seen]. simpl. destruct (Z.leb_spec cutoff seen); [by left|].
  destruct (Z.ltb_spec 0 (active_of l id)); [by left|]. destruct (cooling l now id); [by left|].
  right. split_and!; try done; lia.
Qed.

Lemma wf_drop now id l : wf_local n l -> wf_local n (drop_local_state_if_unused now id l).
Proof. intros Hw. destruct (drop_unused_cases now id l) as [->|[-> _]]; auto using wf_forget. Qed.

Lemma wf_last_prune t l : wf_local n l -> wf_local n (with_last_prune t l).
Proof. intros [Ht Hwa Hwf Hwl]. by split. Qed.

Lemma wf_prune now ttl l : wf_local n l -> wf_local n (prune_local_state false now ttl l).
Proof.
  intros Hw. unfold prune_local_state. case_match; [done|]. apply (wf_last_prune now) in Hw.
  revert Hw. generalize (with_last_prune now l). intros l1. generalize (map_to_list (l_last_seen l1)).
  intros es. revert l1. induction es as [|e es IH]; intros l1 Hw; [done|]. simpl. apply IH.
  destruct (prune_one_cases now (now - ttl * usec) l1 e) as [->|[-> _]]; auto using wf_forget.
Qed.

(** Removing one entry of one dictionary. *)
Lemma sub_delete l id :
  sub_local (with_active (delete id) l) l /\ sub_local (with_latency (delete id) l) l /\
  sub_local (with_usage (delete id) l) l /\ sub_local (with_cooldown (delete id) l) l.
Proof. unfold sub_local; simpl. split_and!; done || apply delete_subseteq. Qed.

Lemma wf_drop_deleted now id l l' :
  sub_local l' l -> wf_local n l -> wf_local n (drop_local_state_if_unused now id l').
Proof. intros Hs Hw. eapply wf_drop, wf_sub; done. Qed.

Lemma last_n_length {A} m (w : list A) : 0 <= m -> Z.of_nat (length (last_n m w)) <= m.
Proof. intros Hm. unfold last_n. rewrite length_drop. lia. Qed.

Lemma append_latency_length cutoff x w :
  Z.of_nat (length (append_latency cutoff n x w)) <= n.
Proof. unfold append_latency. case_match; [apply last_n_length; lia|lia]. Qed.
End invariant.

(** Changing one deployment's entries only. *)
Ltac same_but_one :=
  intros i Hi; unfold update_health; simpl;
  rewrite ?lookup_insert_ne, ?lookup_delete_ne by done; done.

Section preservation.
Context (c : config).
Hypothesis Hn : 1 <= cfg_max_samples c.
Local Abbreviation wf := (wf_local (cfg_max_samples c)).

Lemma same_except_refl id l : same_except id l l.
Proof. by intros i Hi. Qed.

Lemma wf_touch now id l : wf l -> wf (touch_local_state now id l).
Proof.
  intros Hw. eapply wf_write; [exact Hw|apply same_except_refl|..]; destruct Hw; eauto.
Qed.

Lemma wf_cooled now l id : wf l -> wf (cooled_effect now l id).
Proof.
  intros Hw. unfold cooled_effect. destruct (l_cooldown_until l !! id) as [[|p|p]|]; try done;
    (case_match; [|by apply wf_touch]); (eapply wf_drop_deleted; [apply sub_delete|done]).
Qed.

Lemma wf_foldl_cooled now ids l : wf l -> wf (foldl (cooled_effect now) l ids).
Proof. revert l. induction ids as [|id ids IH]; intros l Hw; [done|]. apply IH, wf_cooled, Hw. Qed.

Lemma local_effect_wf now o l : wf l -> wf (local_effect c now o l).
Proof.
  intros Hw. pose proof (wf_prune _ now (cfg_ttl c) l Hw) as Hwp. pose proof Hw as [Ht Ha Hf Hl].
  pose proof Hwp as [Htp Hap Hfp Hlp].
  assert (Hfail : forall id, 0 <= failures_of l id).
  { intros id. unfold failures_of. destruct (l_failures l !! id) eqn:E; simpl; [|lia]. apply Hf in E. lia. }
  assert (Hact : forall id, 0 <= active_of l id).
  { intros id. unfold active_of. destruct (l_active l !! id) eqn:E; simpl; [|lia]. apply Ha in E. lia. }
  destruct o as [id|id|id|ids|id ms|id w|id cs w|id|id d reason|id|id|ids|id|id e|id h|id];
    unfold local_effect; try done.
  - eapply wf_write; [exact Hw|same_but_one|simpl..]; eauto. rewrite lookup_insert_eq.
    intros m [= <-]. specialize (Hact id). lia.
  - destruct (Z.leb_spec (active_of l id - 1) 0); [eapply wf_drop_deleted; [apply sub_delete|done]|].
    eapply wf_write; [exact Hw|same_but_one|simpl..]; eauto. rewrite lookup_insert_eq.
    intros m [= <-]. lia.
  - by destruct ids.
  - eapply wf_write; [exact Hw|same_but_one|simpl..]; eauto. rewrite lookup_insert_eq.
    intros v [= <-]. apply append_latency_length. lia.
  - destruct (base.filter _ _) as [|x xs]; [eapply wf_drop_deleted; [apply sub_delete|done]|].
    eapply wf_write; [exact Hwp|same_but_one|simpl..]; eauto. rewrite lookup_insert_eq.
    intros v [= <-]. apply last_n_length. lia.
  - eapply wf_write; [exact Hw|same_but_one|simpl..]; eauto.
  - destruct (l_usage _ !! id) as [u|]; [case_match; [by apply wf_touch|]|];
      (eapply wf_drop_deleted; [apply sub_delete|done]).
  - eapply wf_write; [exact Hw|same_but_one|simpl..]; eauto.
  - eapply wf_drop_deleted; [apply sub_delete|done].
  - by apply wf_cooled.
  - destruct ids; [done|]. by apply wf_foldl_cooled.
  - eapply wf_write; [exact Hw|same_but_one|unfold update_health; simpl..]; eauto.
    by rewrite lookup_delete_eq.
  - eapply wf_write; [exact Hw|same_but_one|unfold update_health; simpl..]; eauto.
    rewrite lookup_insert_eq. intros m [= <-]. specialize (Hfail id). lia.
  - eapply wf_write; [exact Hw|same_but_one|unfold update_health; simpl..]; eauto.
Qed.

End preservation.

Section histories.
Context {S : Type} `{RedisExec S}.
Context (float_repr : Q -> string) (json_reason : string -> string).
Local Abbreviation run := (run_ops float_repr json_reason).
Implicit Types (b : backend S).

(** A predicate of the dictionaries that the degraded-mode effects keep is
    kept by every history, whatever Redis does. *)
Lemma run_ops_keeps (c : config) (P : local_state -> Prop) (ok : Z -> backend_op -> Prop) b h :
  config_of b = c ->
  (forall now o l, ok now o -> P l -> P (local_effect c now o l)) ->
  Forall (fun e => ok e.1 e.2) h -> P (local b) ->
  config_of (run b h) = c /\ P (local (run b h)).
Proof.
  intros Hc Hstep Hok. revert b Hc. induction Hok as [|[now o] h Ho Hok IH]; intros b Hc HP; [done|].
  simpl. pose proof (run_op_ends float_repr json_reason now o b) as Hends.
  destruct (run_op _ _ now o b) as [b' r]. simpl. destruct Hends as (Hc' & _ & Hd).
  apply IH; [by rewrite Hc'|].
  destruct Hd as [(_ & -> & _)|[(_ & -> & _)|(_ & -> & _)]]; [done..|]. rewrite Hc. auto.
Qed.
End histories.

(** ** What each effect leaves alone *)

(** Everything the dictionaries hold of one deployment. *)
Definition entries_of (l : local_state) (id : string) :=
  (l_active l !! id, l_latency l !! id, l_usage l !! id, l_cooldown_until l !! id,
   l_health l !! id, l_failures l !! id, l_last_seen l !! id).

(** Stale for the pruner: seen before the cutoff, idle and not cooling. *)
Definition stale (l : local_state) (now cutoff : Z) (id : string) : bool :=
  match l_last_seen l !! id with
  | Some seen => (seen <? cutoff) && (active_of l id <=? 0) && negb (cooling l now id)
  | None => false
  end.

Definition no_entries := (@None Z, @None (list sample), @None usage_entry, @None Z,
  @None (gmap string string), @None Z, @None Z).

Section frames.
Implicit Types (l : local_state) (id i : string).

Lemma entries_forget id l : entries_of (forget id l) id = no_entries.
Proof. unfold entries_of, forget. simpl. by rewrite !lookup_delete_eq. Qed.

Lemma entries_forget_ne id i l : id <> i -> entries_of (forget id l) i = entries_of l i.
Proof. intros Hne. unfold entries_of, forget. simpl. by rewrite !lookup_delete_ne by done. Qed.

Lemma entries_in_local l id : entries_of l id = no_entries -> ~ in_local l id.
Proof.
  unfold entries_of, no_entries, in_local. intros [= -> -> -> -> -> -> _].
  intros [[? ?]|[[? ?]|[[? ?]|[[? ?]|[[? ?]|[? ?]]]]]]; done.
Qed.

Lemma entries_active l l' id : entries_of l' id = entries_of l id -> active_of l' id = active_of l id.
Proof. unfold entries_of, active_of. by intros [= -> _]. Qed.

Lemma entries_cooldown l l' id :
  entries_of l' id = entries_of l id -> l_cooldown_until l' !! id = l_cooldown_until l !! id.
Proof. unfold entries_of. by intros [= _ _ _ -> _]. Qed.

Lemma entries_stale l l' now cutoff id :
  entries_of l' id = entries_of l id -> stale l' now cutoff id = stale l now cutoff id.
Proof.
  unfold entries_of, stale, active_of, cooling. by intros [= -> _ _ -> _ _ ->].
Qed.

Lemma prune_one_ne now cutoff l e i :
  e.1 <> i -> entries_of (prune_one now cutoff l e) i = entries_of l i.
Proof.
  intros Hne. destruct (prune_one_cases now cutoff l e) as [->|[-> _]]; [done|].
  by apply entries_forget_ne.
Qed.

Lemma prune_all_ne now cutoff es l i :
  i ∉ map fst es -> entries_of (foldl (prune_one now cutoff) l es) i = entries_of l i.
Proof.
  revert l. induction es as [|e es IH]; intros l Hi; [done|]. simpl in *.
  rewrite IH by set_solver. apply prune_one_ne. set_solver.
Qed.

Lemma prune_one_eq now cutoff l id seen :
  l_last_seen l !! id = Some seen ->
  entries_of (prune_one now cutoff l (id, seen)) id =
  if stale l now cutoff id then no_entries else entries_of l id.
Proof.
  intros Hs. unfold stale. rewrite Hs. simpl.
  destruct (Z.leb_spec cutoff seen), (Z.ltb_spec seen cutoff); try lia; simpl; [done|].
  destruct (Z.ltb_spec 0 (active_of l id)), (Z.leb_spec (active_of l id) 0); try lia; simpl; [done|].
  destruct (cooling l now id); simpl; [done|apply entries_forget].
Qed.

Lemma prune_all_eq now cutoff es l id seen :
  NoDup (map fst es) -> (id, seen) ∈ es -> l_last_seen l !! id = Some seen ->
  entries_of (foldl (prune_one now cutoff) l es) id =
  if stale l now cutoff id then no_entries else entries_of l id.
Proof.
  revert l. induction es as [|e es IH]; intros l Hnd Hin Hs; [by apply not_elem_of_nil in Hin|].
  simpl in *. apply NoDup_cons in Hnd as [Hni Hnd]. apply elem_of_cons in Hin as [<-|Hin].
  - rewrite prune_all_ne by done. by apply prune_one_eq.
  - assert (Hne : e.1 <> id) by (intros <-; apply Hni, list_elem_of_fmap; by exists (e.1, seen)).
    assert (Hent := prune_one_ne now cutoff l e id Hne).
    rewrite (IH (prune_one now cutoff l e)); [|done|done|].
    + by rewrite (entries_stale _ _ now cutoff _ Hent), Hent.
    + unfold entries_of in Hent. congruence.
Qed.

Lemma prune_entries force now ttl l id :
  entries_of (prune_local_state force now ttl l) id =
  if (force || (prune_interval_sec * usec <=? now - l_last_prune_at l))
     && stale l now (now - ttl * usec) id
  then no_entries else entries_of l id.
Proof.
  unfold prune_local_state.
  destruct (Z.leb_spec (prune_interval_sec * usec) (now - l_last_prune_at l)) as [Hd|Hd];
    [rewrite (proj2 (Z.ltb_ge _ _)) by lia|rewrite (proj2 (Z.ltb_lt _ _)) by lia];
    destruct force; simpl; try done.
  all: set (l1 := with_last_prune now l); change (l_last_seen l) with (l_last_seen l1);
    change (entries_of l id) with (entries_of l1 id);
    change (stale l now (now - ttl * usec) id) with (stale l1 now (now - ttl * usec) id).
  all: destruct (l_last_seen l1 !! id) as [seen|] eqn:Es.
  all: try (apply prune_all_eq with seen; [apply NoDup_fst_map_to_list|by apply elem_of_map_to_list|done]).
  all: unfold stale; rewrite Es; apply prune_all_ne; intros ((i & s) & -> & Hin)%list_elem_of_fmap;
    apply elem_of_map_to_list in Hin; simpl in *; congruence.
Qed.

Lemma drop_ne now id i l : id <> i -> entries_of (drop_local_state_if_unused now id l) i = entries_of l i.
Proof.
  intros Hne. destruct (drop_unused_cases now id l) as [->|[-> _]]; [done|]. by apply entries_forget_ne.
Qed.

Lemma same_except_entries id i l l' : id <> i -> same_except id l l' -> entries_of l' i = entries_of l i.
Proof.
  intros Hne Hs. destruct (Hs i) as (Ha & Hl & Hu & Hc & Hh & Hf & Hls); [done|].
  unfold entries_of. by rewrite Ha, Hl, Hu, Hc, Hh, Hf, Hls.
Qed.
End frames.

(** Pruning the process-local dictionaries, when it is forced or due,
    removes every entry of exactly the deployments that were last seen before
    the age limit, have no active request and are not in a running cooldown,
    and leaves every entry of the others as it was; between two prunes less
    than 30 seconds apart nothing changes at all. *)
Theorem prune_exact (force : bool) (now ttl : Z) (l : local_state) (id : string) :
  let l' := prune_local_state force now ttl l in
  let due := force || (30 * usec <=? now - l_last_prune_at l) in
  let old := match l_last_seen l !! id with Some seen => seen <? now - ttl * usec | None => false end in
  if due && old && (active_of l id <=? 0) && negb (cooling l now id)
  then ~ in_local l' id /\ l_last_seen l' !! id = None
  else entries_of l' id = entries_of l id.
Proof.
  intros l' due old. pose proof (prune_entries force now ttl l id) as Hp. fold l' in Hp.
  fold prune_interval_sec in due. fold due in Hp. unfold stale in Hp.
  replace (due && old && (active_of l id <=? 0) && negb (cooling l now id)) with
    (due && match l_last_seen l !! id with
            | Some seen => (seen <? now - ttl * usec) && (active_of l id <=? 0) && negb (cooling l now id)
            | None => false end)
    by (unfold old; destruct (l_last_seen l !! id); by rewrite ?andb_assoc, ?andb_false_r).
  destruct (due && _); [|done]. split; [by apply entries_in_local|]. unfold entries_of, no_entries in Hp.
  congruence.
Qed.

(** ** Counting and cooling without Redis *)

(** What an operation means for the active requests of one deployment. *)
Definition active_step (id : string) (n : Z) (o : backend_op) : Z :=
  match o with
  | IncrementActive i => if String.eqb i id then n + 1 else n
  | DecrementActive i => if String.eqb i id then Z.max 0 (n - 1) else n
  | _ => n
  end.

(** The operation sets or clears the cooldown of the deployment. *)
Definition steers_cooldown (id : string) (o : backend_op) : bool :=
  match o with SetCooldown i _ _ | ClearCooldown i => String.eqb i id | _ => false end.

Section meaning.
Context (c : config).
Local Abbreviation wf := (wf_local (cfg_max_samples c)).
Implicit Types (l : local_state) (id i : string).

Lemma active_absent l id : wf l -> active_of l id <= 0 -> l_active l !! id = None.
Proof.
  intros [_ Ha _ _]. unfold active_of. destruct (l_active l !! id) eqn:E; [|done]. apply Ha in E. simpl. lia.
Qed.

Lemma active_drop now i l id :
  wf l -> active_of (drop_local_state_if_unused now i l) id = active_of l id.
Proof.
  intros Hw. destruct (decide (i = id)) as [<-|Hne]; [|by apply entries_active, drop_ne].
  destruct (drop_unused_cases now i l) as [->|(-> & Ha & _)]; [done|].
  pose proof (active_absent l i Hw Ha) as Hno. unfold active_of, forget. simpl.
  by rewrite lookup_delete_eq, Hno.
Qed.

Lemma active_prune now ttl l id :
  wf l -> active_of (prune_local_state false now ttl l) id = active_of l id.
Proof.
  intros Hw. pose proof (prune_entries false now ttl l id) as Hp.
  destruct (_ && stale l _ _ id) eqn:Es; [|by apply entries_active].
  apply andb_true_iff in Es as [_ Es]. unfold stale in Es. destruct (l_last_seen l !! id); [|done].
  apply andb_true_iff in Es as [Es _]. apply andb_true_iff in Es as [_ Ha]. apply Z.leb_le in Ha.
  pose proof (active_absent l id Hw Ha) as Hno. unfold active_of at 2. rewrite Hno.
  unfold active_of. unfold entries_of, no_entries in Hp. by injection Hp as -> _.
Qed.

Lemma active_cooled now l i id : wf l -> active_of (cooled_effect now l i) id = active_of l id.
Proof.
  intros Hw. unfold cooled_effect. destruct (l_cooldown_until l !! i) as [[|p|p]|]; try done;
    (case_match; [|done]); (rewrite active_drop; [done|eapply wf_sub; [apply sub_delete|done]]).
Qed.

Hypothesis Hn : 1 <= cfg_max_samples c.

Lemma active_foldl_cooled now js l id : wf l -> active_of (foldl (cooled_effect now) l js) id = active_of l id.
Proof.
  revert l. induction js as [|i js IH]; intros l Hw; [done|]. simpl.
  rewrite IH by (by apply wf_cooled). by apply active_cooled.
Qed.

Lemma active_with_delete l i id : wf l ->
  active_of (with_active (delete i) l) id = if String.eqb i id then 0 else active_of l id.
Proof.
  intros _. unfold active_of. simpl. destruct (String.eqb_spec i id) as [->|Hne].
  - by rewrite lookup_delete_eq.
  - by rewrite lookup_delete_ne.
Qed.

(** Every operation changes the active count of a deployment as it should. *)
Lemma local_effect_active now o l id :
  wf l -> active_of (local_effect c now o l) id = active_step id (active_of l id) o.
Proof.
  intros Hw. pose proof (wf_prune _ now (cfg_ttl c) l Hw) as Hwp.
  pose proof (active_prune now (cfg_ttl c) l id Hw) as Hpr.
  assert (Hdrop : forall i l' l'', sub_local l' l'' -> wf l'' -> active_of l' id = active_of l'' id ->
    active_of (drop_local_state_if_unused now i l') id = active_of l'' id).
  { intros i l' l'' Hs Hw'' He. rewrite active_drop; [done|]. eapply wf_sub; done. }
  destruct o as [i|i|i|js|i ms|i w|i cs w|i|i d reason|i|i|js|i|i e|i h|i]; unfold local_effect; simpl; try done.
  - unfold active_of at 1. simpl. destruct (String.eqb_spec i id) as [->|Hne].
    + by rewrite lookup_insert_eq.
    + by rewrite lookup_insert_ne.
  - destruct (Z.leb_spec (active_of l i - 1) 0).
    + rewrite active_drop by (eapply wf_sub; [apply sub_delete|done]). rewrite active_with_delete by done.
      destruct (String.eqb_spec i id) as [->|Hne]; [lia|done].
    + unfold active_of at 1. simpl. destruct (String.eqb_spec i id) as [->|Hne].
      * rewrite lookup_insert_eq. simpl. lia.
      * by rewrite lookup_insert_ne.
  - by destruct js.
  - destruct (base.filter _ _); [|exact Hpr]. rewrite <- Hpr. apply Hdrop; [apply sub_delete|done..].
  - destruct (l_usage _ !! i); [case_match; [exact Hpr|]|]; rewrite <- Hpr; (apply Hdrop; [apply sub_delete|done..]).
  - apply Hdrop; [apply sub_delete|done..].
  - rewrite <- Hpr. by apply active_cooled.
  - destruct js; [done|]. rewrite <- Hpr. by apply active_foldl_cooled.
Qed.

(** The cooldown of a deployment after an effect that neither sets nor clears
    it: unchanged while it runs, unchanged or forgotten once it is over. *)
Definition cooldown_kept now l l' id : Prop :=
  l_cooldown_until l' !! id = l_cooldown_until l !! id \/
  (l_cooldown_until l' !! id = None /\ cooling l now id = false).

Lemma kept_trans now l l1 l2 id :
  cooldown_kept now l l1 id -> cooldown_kept now l1 l2 id -> cooldown_kept now l l2 id.
Proof.
  unfold cooldown_kept, cooling. intros [H1|[H1 H1']] [H2|[H2 H2']]; rewrite ?H1, ?H2 in *; auto.
Qed.

Lemma kept_drop now i l id : cooldown_kept now l (drop_local_state_if_unused now i l) id.
Proof.
  destruct (decide (i = id)) as [<-|Hne]; [|left; by apply entries_cooldown, drop_ne].
  destruct (drop_unused_cases now i l) as [->|(-> & _ & Hc & _)]; [by left|]. right.
  split; [|done]. unfold forget. simpl. apply lookup_delete_eq.
Qed.

(** The same, after an entry of another dictionary was removed. *)
Lemma kept_drop_same now i l l' id :
  l_cooldown_until l' = l_cooldown_until l ->
  cooldown_kept now l (drop_local_state_if_unused now i l') id.
Proof.
  intros He. pose proof (kept_drop now i l' id) as Hk. unfold cooldown_kept, cooling in *. by rewrite He in Hk.
Qed.

Lemma kept_prune now ttl l id : cooldown_kept now l (prune_local_state false now ttl l) id.
Proof.
  pose proof (prune_entries false now ttl l id) as Hp.
  destruct (_ && stale l _ _ id) eqn:Es; [right|left; by apply entries_cooldown].
  apply andb_true_iff in Es as [_ Es]. unfold stale in Es. destruct (l_last_seen l !! id); [|done].
  apply andb_true_iff in Es as [_ Hc]. apply negb_true_iff in Hc. split; [|done].
  unfold entries_of, no_entries in Hp. by injection Hp.
Qed.

Lemma kept_cooled now l i id : cooldown_kept now l (cooled_effect now l i) id.
Proof.
  unfold cooled_effect. destruct (l_cooldown_until l !! i) as [until|] eqn:E; [|by left].
  assert (Hdel : cooldown_kept now l (if until <=? now
      then drop_local_state_if_unused now i (with_cooldown (delete i) l) else touch_local_state now i l) id).
  { destruct (Z.leb_spec until now); [|by left]. eapply kept_trans; [|apply kept_drop].
    destruct (decide (i = id)) as [<-|Hne]; [right|left]; unfold cooling; simpl.
    - rewrite lookup_delete_eq, E. split; [done|]. apply Z.ltb_ge. lia.
    - by rewrite lookup_delete_ne. }
  destruct until; [by left|exact Hdel|exact Hdel].
Qed.

Lemma local_effect_cooldown now o l id :
  steers_cooldown id o = false -> cooldown_kept now l (local_effect c now o l) id.
Proof.
  intros Ho. pose proof (kept_prune now (cfg_ttl c) l id) as Hpr.
  destruct o as [i|i|i|js|i ms|i w|i cs w|i|i d reason|i|i|js|i|i e|i h|i]; unfold local_effect;
    simpl in Ho; try (by left); try exact Hpr.
  - case_match; [by apply kept_drop_same|by left].
  - destruct js; [by left|done].
  - destruct (base.filter _ _); (eapply kept_trans; [exact Hpr|]); [by apply kept_drop_same|by left].
  - destruct (l_usage _ !! i); [case_match; [eapply kept_trans; [exact Hpr|by left]|]|];
      (eapply kept_trans; [exact Hpr|by apply kept_drop_same]).
  - left. simpl. apply String.eqb_neq in Ho. by rewrite lookup_insert_ne.
  - eapply kept_trans; [|apply kept_drop]. left. simpl. apply String.eqb_neq in Ho. by rewrite lookup_delete_ne.
  - eapply kept_trans; [exact Hpr|apply kept_cooled].
  - destruct js as [|i js]; [by left|]. eapply kept_trans; [exact Hpr|].
    generalize (prune_local_state false now (cfg_ttl c) l) (i :: js). clear.
    intros l js. revert l. induction js as [|i js IH]; intros l; [by left|]. simpl.
    eapply kept_trans; [apply kept_cooled|apply IH].
Qed.
End meaning.

Section theorems.
Context {S : Type} `{RedisExec S}.
Context (float_repr : Q -> string) (json_reason : string -> string).
Local Abbreviation run := (run_ops float_repr json_reason).
Implicit Types (b : backend S) (h : list (Z * backend_op)).

Definition effects (c : config) (l : local_state) h : local_state :=
  foldl (fun l e => local_effect c e.1 e.2 l) l h.

(** Without Redis a fail-open backend is its degraded-mode specification. *)
Lemma run_ops_offline b h :
  redis b = None -> policy b = fail_open ->
  redis (run b h) = None /\ config_of (run b h) = config_of b /\
  local (run b h) = effects (config_of b) (local b) h.
Proof.
  revert b. induction h as [|[now o] h IH]; intros b Hr Hp; [done|].
  unfold run_ops, effects in *. simpl. pose proof (run_op_ends float_repr json_reason now o b) as Hends.
  destruct (run_op _ _ now o b) as [b' r]. simpl. destruct Hends as (Hc & Hr' & Hd).
  assert (Hl : local b' = local_effect (config_of b) now o (local b)).
  { destruct Hd as [([?|Hnb] & -> & _)|[(? & _)|(_ & -> & _)]]; [done| |congruence|done].
    by destruct o as [| | |[]| | | | | | | |[]| | | |]. }
  destruct (IH b') as (Hr2 & Hc2 & Hl2); [auto|by injection Hc; congruence|].
  rewrite Hl2, Hc2, Hc, Hl. done.
Qed.

Lemma effects_wf c l h :
  1 <= cfg_max_samples c -> wf_local (cfg_max_samples c) l -> wf_local (cfg_max_samples c) (effects c l h).
Proof.
  intros Hn. revert l. induction h as [|e h IH]; intros l Hw; [done|]. by apply IH, local_effect_wf.
Qed.

Lemma effects_active c l h id :
  1 <= cfg_max_samples c -> wf_local (cfg_max_samples c) l ->
  active_of (effects c l h) id = foldl (fun n e => active_step id n e.2) (active_of l id) h.
Proof.
  intros Hn. revert l. induction h as [|e h IH]; intros l Hw; [done|].
  unfold effects in *. simpl. rewrite IH by (by apply local_effect_wf). by rewrite local_effect_active.
Qed.

Lemma effects_cooldown c l h id until :
  l_cooldown_until l !! id = Some until ->
  Forall (fun e => e.1 < until /\ steers_cooldown id e.2 = false) h ->
  l_cooldown_until (effects c l h) !! id = Some until.
Proof.
  intros Hl Hh. revert l Hl. induction Hh as [|[now o] h [Ht Ho] Hh IH]; intros l Hl; [done|].
  apply IH. cbn [fst snd] in *. destruct (local_effect_cooldown c now o l id Ho) as [->|[_ Hc]]; [done|].
  unfold cooling in Hc. rewrite Hl in Hc. apply Z.ltb_ge in Hc. simpl in *. lia.
Qed.

Lemma is_cooled_offline b now id :
  redis b = None -> policy b = fail_open -> 0 <= now ->
  snd (is_cooled_down now id b) = Ret (cooling (local b) now id).
Proof.
  intros Hr Hp Hnow. unfold is_cooled_down, guarded, try_except, redis_call, round_trip, mbind, st_bind.
  rewrite Hr. unfold handle_backend_failure, mark_backend_failure. simpl. rewrite Hp. simpl.
  destruct (kept_prune now (local_state_ttl_sec b) (local b) id) as [Hk|[Hk Hk']].
  - unfold local_cooled, cooling. simpl. rewrite Hk.
    destruct (l_cooldown_until (local b) !! id) as [until|]; [|done]. simpl.
    destruct (Z.eqb_spec until 0) as [->|Hz]; simpl.
    + by rewrite (proj2 (Z.ltb_ge _ _)) by lia.
    + destruct (Z.leb_spec until now), (Z.ltb_spec now until); done || lia.
  - rewrite Hk'. unfold local_cooled. simpl. by rewrite Hk.
Qed.
(** *** What the degraded operations answer *)

Lemma increment_active_offline b now id : redis b = None -> policy b = fail_open ->
  snd (increment_active now id b) = Ret (active_of (local b) id + 1).
Proof.
  intros Hr Hp. unfold increment_active, guarded, try_except, redis_call, round_trip, mbind, st_bind.
  rewrite Hr. unfold handle_backend_failure, mark_backend_failure. simpl. rewrite Hp. simpl.
  unfold active_of at 1. cbn. by rewrite lookup_insert_eq.
Qed.

Lemma decrement_active_offline b now id : redis b = None -> policy b = fail_open ->
  snd (decrement_active now id b) = Ret (Z.max 0 (active_of (local b) id - 1)).
Proof.
  intros Hr Hp. unfold decrement_active, guarded, try_except, redis_call, round_trip, mbind, st_bind.
  rewrite Hr. unfold handle_backend_failure, mark_backend_failure. simpl. rewrite Hp. done.
Qed.

Lemma get_active_offline b now id n : wf_local n (local b) -> redis b = None -> policy b = fail_open ->
  snd (get_active_requests now id b) = Ret (active_of (local b) id).
Proof.
  intros Hw Hr Hp. unfold get_active_requests, guarded, try_except, redis_call, round_trip, mbind, st_bind.
  rewrite Hr. unfold handle_backend_failure, mark_backend_failure. simpl. rewrite Hp. simpl. f_equal.
  by apply (active_prune (mkConfig 0 fail_open 0 n)).
Qed.

(** What a batch of answers holds. *)
Definition answers_for {A} (ids : list string) (f : string -> A) (m : gmap string A) : Prop :=
  forall id, m !! id = if decide (id ∈ ids) then Some (f id) else None.

Lemma fold_answers {A} (f : string -> A) ids : forall m seen, answers_for seen f m ->
  answers_for (seen ++ ids) f (foldl (fun m id => <[id := f id]> m) m ids).
Proof.
  induction ids as [|i ids IH]; intros m seen Hm; [by rewrite app_nil_r|]. cbn [foldl].
  replace (seen ++ i :: ids) with ((seen ++ [i]) ++ ids) by (by rewrite <- app_assoc). apply IH.
  intros id. destruct (decide (i = id)) as [<-|Hne].
  - rewrite lookup_insert_eq, decide_True by set_solver. done.
  - rewrite lookup_insert_ne, Hm by done. destruct (decide (id ∈ seen)), (decide (id ∈ seen ++ [i])); set_solver.
Qed.

Lemma get_active_batch_offline b now ids n : wf_local n (local b) -> redis b = None -> policy b = fail_open ->
  exists m, snd (get_active_requests_batch now ids b) = Ret m /\ answers_for ids (active_of (local b)) m.
Proof.
  intros Hw Hr Hp. unfold get_active_requests_batch. destruct ids as [|i ids].
  { exists ∅. split; [done|]. intros id. rewrite decide_False by (by intros ?%elem_of_nil). apply lookup_empty. }
  unfold guarded, try_except, redis_call, round_trip, mbind, st_bind.
  rewrite Hr. unfold handle_backend_failure, mark_backend_failure. simpl. rewrite Hp. cbn -[foldl]. eexists. split; [reflexivity|].
  pose proof (fold_answers (active_of (prune_local_state false now (local_state_ttl_sec b) (local b))) (i :: ids) ∅ []) as Hf.
  intros id. etrans; [apply Hf|].
  - intros j. rewrite decide_False by (by intros ?%elem_of_nil). apply lookup_empty.
  - cbn [app]. destruct (decide _); [|done]. f_equal. by apply (active_prune (mkConfig 0 fail_open 0 n)).
Qed.

Lemma cooling_kept now l l' id : cooldown_kept now l l' id -> cooling l' now id = cooling l now id.
Proof. unfold cooldown_kept, cooling. by intros [->|[-> H']]. Qed.

Lemma local_cooled_answer now id b : 0 <= now ->
  exists b', local_cooled now id b = (b', Ret (cooling (local b) now id)) /\ forall i, cooling (local b') now i = cooling (local b) now i.
Proof.
  intros Hnow. pose proof (kept_cooled now (local b) id) as Hk. unfold local_cooled, cooled_effect, cooling, truthy_num in *.
  destruct (l_cooldown_until (local b) !! id) as [until|] eqn:E; cbn [default]; unfold Datatypes.id; [|by exists b].
  destruct until as [|p|p]; cbn [negb Z.eqb].
  - exists b. by rewrite (proj2 (Z.ltb_ge now 0)) by lia.
  - destruct (Z.leb_spec (Z.pos p) now); [rewrite (proj2 (Z.ltb_ge now _)) by lia|rewrite (proj2 (Z.ltb_lt now _)) by lia];
      (eexists; split; [reflexivity|]; intros i; apply cooling_kept, Hk).
  - destruct (Z.leb_spec (Z.neg p) now); [rewrite (proj2 (Z.ltb_ge now _)) by lia|lia].
    eexists; split; [reflexivity|]; intros i; apply cooling_kept, Hk.
Qed.

Lemma cooled_batch_answers now (ids : list string) : 0 <= now -> forall f b m seen,
  (forall i, cooling (local b) now i = f i) -> answers_for seen f m ->
  exists b' m', batch (local_cooled now) m ids b = (b', Ret m') /\ answers_for (seen ++ ids) f m'.
Proof.
  intros Hnow. induction ids as [|i ids IH]; intros f b m seen Hf Hm; cbn [batch].
  { exists b, m. by rewrite app_nil_r. }
  unfold mbind, st_bind. destruct (local_cooled_answer now i b Hnow) as (b' & -> & Hc).
  replace (seen ++ i :: ids) with ((seen ++ [i]) ++ ids) by (by rewrite <- app_assoc). rewrite Hf.
  apply IH; [intros j; by rewrite Hc|]. intros id. destruct (decide (i = id)) as [<-|Hne].
  - rewrite lookup_insert_eq, decide_True by set_solver. done.
  - rewrite lookup_insert_ne, Hm by done. destruct (decide (id ∈ seen)), (decide (id ∈ seen ++ [i])); set_solver.
Qed.

Lemma cooldown_batch_offline b now ids : redis b = None -> policy b = fail_open -> 0 <= now ->
  exists m, snd (get_cooldown_batch now ids b) = Ret m /\ answers_for ids (cooling (local b) now) m.
Proof.
  intros Hr Hp Hnow. unfold get_cooldown_batch. destruct ids as [|i ids].
  { exists ∅. split; [done|]. intros id. rewrite decide_False by (by intros ?%elem_of_nil). apply lookup_empty. }
  unfold guarded, try_except, redis_call, round_trip, mbind at 1 2 3 4 5 6, st_bind at 1 2 3 4 5 6.
  rewrite Hr. unfold handle_backend_failure, mark_backend_failure. cbn -[batch local_cooled]. rewrite Hp. cbn -[batch local_cooled].
  unfold prune. cbn -[batch local_cooled].
  match goal with |- context [batch ?g ?m ?l ?b'] =>
    destruct (cooled_batch_answers now (i :: ids) Hnow (cooling (local b) now) b' ∅ []) as (b1 & m' & E & Hm) end.
  - intros j. apply cooling_kept, kept_prune.
  - intros j. rewrite decide_False by (by intros ?%elem_of_nil). apply lookup_empty.
  - rewrite E. by exists m'.
Qed.

(** *** The abstract backend: counts and cooldowns that are never forgotten *)

Record abstract : Type := mkAbstract { ab_active : string -> Z; ab_until : string -> option Z }.
Definition no_calls : abstract := mkAbstract (fun _ => 0) (fun _ => None).
Definition at_id {V} (id : string) (v : V) (f : string -> V) (i : string) : V := if String.eqb i id then v else f i.

Definition abstract_step (now : Z) (o : backend_op) (s : abstract) : abstract :=
  match o with
  | IncrementActive id => mkAbstract (at_id id (ab_active s id + 1) (ab_active s)) (ab_until s)
  | DecrementActive id => mkAbstract (at_id id (Z.max 0 (ab_active s id - 1)) (ab_active s)) (ab_until s)
  | SetCooldown id seconds _ => mkAbstract (ab_active s) (at_id id (Some (now + Z.max 1 seconds * usec)) (ab_until s))
  | ClearCooldown id => mkAbstract (ab_active s) (at_id id None (ab_until s))
  | _ => s
  end.
Definition abstract_run (h : list (Z * backend_op)) : abstract := foldl (fun s e => abstract_step e.1 e.2 s) no_calls h.

Definition ab_cooling (s : abstract) (now : Z) (id : string) : bool :=
  match ab_until s id with Some until => now <? until | None => false end.

Lemma abstract_active h s id :
  ab_active (foldl (fun s e => abstract_step e.1 e.2 s) s h) id = foldl (fun n e => active_step id n e.2) (ab_active s id) h.
Proof.
  revert s. induction h as [|[now o] h IH]; intros s; [done|]. cbn [foldl fst snd]. rewrite IH. f_equal.
  destruct o; cbn; try done; unfold at_id; rewrite (String.eqb_sym id); by destruct (String.eqb_spec id0 id) as [->|].
Qed.

(** The dictionary of cooldowns at [now]: what the abstract state has, but for
    those that are over and were forgotten. *)
Definition cooldowns_match (now : Z) (l : local_state) (s : abstract) : Prop :=
  forall id, l_cooldown_until l !! id = ab_until s id \/
    l_cooldown_until l !! id = None /\ ab_cooling s now id = false.

Lemma match_cooling now l s : cooldowns_match now l s -> forall id, cooling l now id = ab_cooling s now id.
Proof. intros H0 id. unfold cooling. by destruct (H0 id) as [->|[-> ->]]. Qed.

Lemma match_later now now' l s : now <= now' -> cooldowns_match now l s -> cooldowns_match now' l s.
Proof.
  intros Hle H0 id. destruct (H0 id) as [E|[E Hc]]; [by left|right]. split; [done|]. unfold ab_cooling in *.
  destruct (ab_until s id) as [u|]; [|done]. apply Z.ltb_ge in Hc. apply Z.ltb_ge. lia.
Qed.

Lemma local_effect_match c now o l s :
  cooldowns_match now l s -> cooldowns_match now (local_effect c now o l) (abstract_step now o s).
Proof.
  intros H0 id. destruct (steers_cooldown id o) eqn:Es.
  - destruct o; try discriminate; cbn in Es; apply String.eqb_eq in Es; subst; cbn [local_effect abstract_step ab_until];
      unfold at_id; rewrite String.eqb_refl; left; cbn; [by rewrite lookup_insert_eq|].
    match goal with |- l_cooldown_until (drop_local_state_if_unused ?n ?i ?l') !! _ = _ =>
      destruct (kept_drop n i l' i) as [->|[-> _]]; [|done] end. cbn. apply lookup_delete_eq.
  - assert (Eu : ab_until (abstract_step now o s) id = ab_until s id).
    { destruct o; cbn in *; try done; unfold at_id; by rewrite String.eqb_sym, Es. }
    unfold ab_cooling. rewrite Eu. destruct (local_effect_cooldown c now o l id Es) as [->|[-> Hc]]; [apply H0|right].
    split; [done|]. rewrite (match_cooling _ _ _ H0) in Hc. exact Hc.
Qed.

(** The clock of a history never goes back. *)
Definition in_order (h : list (Z * backend_op)) (t0 now : Z) : Prop :=
  Sorted Z.le (t0 :: map fst h ++ [now]).

Lemma effects_match c h : forall l s t0 now, in_order h t0 now -> cooldowns_match t0 l s ->
  cooldowns_match now (effects c l h) (foldl (fun s e => abstract_step e.1 e.2 s) s h).
Proof.
  induction h as [|[t o] h IH]; intros l s t0 now Ho Hm; unfold in_order in Ho; cbn in Ho; apply Sorted_inv in Ho as [Ho Hle];
    apply HdRel_inv in Hle.
  - by eapply match_later.
  - unfold effects. cbn [foldl fst snd]. apply (IH _ _ t now); [exact Ho|]. by apply local_effect_match, (match_later t0).
Qed.

(** C23: Without Redis, the degraded backend answers as the abstract one that
    keeps every count and every cooldown for ever.  After any history of its
    calls (a batch read being the reads of its ids one after the other) on a
    clock that never goes back, whatever the pruner forgot in between, the
    active count of each deployment is the balance of its increments and
    decrements, never below zero, as the increment, the decrement, the read and
    the batch read report it; and a deployment is cooling down exactly until the
    end of the last cooldown that was set and not cleared, as both cooldown
    queries report it. *)
Theorem degraded_refines_abstract (t0 window ttl samples now : Z) h (id : string) (ids : list string) :
  0 <= t0 -> in_order h t0 now ->
  let b := run (init_backend t0 (None : option (connection S)) window "fail_open" ttl samples) h in
  let s := abstract_run h in
  snd (increment_active now id b) = Ret (ab_active s id + 1) /\
  snd (decrement_active now id b) = Ret (Z.max 0 (ab_active s id - 1)) /\
  snd (get_active_requests now id b) = Ret (ab_active s id) /\
  snd (is_cooled_down now id b) = Ret (ab_cooling s now id) /\
  (exists m, snd (get_active_requests_batch now ids b) = Ret m /\ answers_for ids (ab_active s) m) /\
  (exists m, snd (get_cooldown_batch now ids b) = Ret m /\ answers_for ids (ab_cooling s now) m).
Proof.
  intros Ht0 Hord b s. set (b0 := init_backend t0 (None : option (connection S)) window "fail_open" ttl samples).
  destruct (run_ops_offline b0 h eq_refl eq_refl) as (Hr & Hc & Hl). fold b0 in b. fold b in Hr, Hc, Hl.
  assert (Hp : policy b = fail_open) by (by injection Hc).
  assert (Hw : wf_local (cfg_max_samples (config_of b0)) (local b)).
  { rewrite Hl. apply effects_wf; [simpl; lia|apply wf_empty]. }
  assert (Hact : forall i, active_of (local b) i = ab_active s i).
  { intros i. rewrite Hl. unfold s, abstract_run. rewrite abstract_active. apply effects_active; [simpl; lia|apply wf_empty]. }
  assert (Hcool : forall i, cooling (local b) now i = ab_cooling s now i).
  { apply match_cooling. rewrite Hl. apply effects_match with t0; [done|]. intros i. left. apply lookup_empty. }
  assert (Hnow : 0 <= now).
  { unfold in_order in Hord. apply Sorted_StronglySorted in Hord; [|intros ? ? ?; lia].
    apply StronglySorted_inv in Hord as [_ Hord]. apply Forall_app in Hord as [_ Hord]. inversion Hord; subst. lia. }
  split_and!.
  - by rewrite increment_active_offline, Hact.
  - by rewrite decrement_active_offline, Hact.
  - by rewrite (get_active_offline b now id _ Hw), Hact.
  - by rewrite is_cooled_offline, Hcool.
  - destruct (get_active_batch_offline b now ids _ Hw Hr Hp) as (m & -> & Hm). exists m. split; [done|].
    intros i. rewrite Hm, Hact. done.
  - destruct (cooldown_batch_offline b now ids Hr Hp Hnow) as (m & -> & Hm). exists m. split; [done|].
    intros i. rewrite Hm, Hcool. done.
Qed.
End theorems.

(** Whatever the history of calls, and whatever Redis does during it, every
    deployment that has an entry in some process-local dictionary is known to
    the pruner, no stored active or failure count is zero or negative, and no
    local latency window is longer than the configured number of samples. *)
Theorem local_dictionaries_wf {S} `{RedisExec S} (float_repr : Q -> string)
    (json_reason : string -> string) (t0 : Z) (conn : option (connection S)) (window ttl samples : Z)
    (mode : string) (h : list (Z * backend_op)) :
  wf_local (Z.max 1 samples)
    (local (run_ops float_repr json_reason (init_backend t0 conn window mode ttl samples) h)).
Proof.
  set (b := init_backend t0 conn window mode ttl samples).
  assert (Hc : cfg_max_samples (config_of b) = Z.max 1 samples) by (unfold b, init_backend; by destruct conn).
  rewrite <- Hc.
  eapply (run_ops_keeps float_repr json_reason (config_of b)
    (wf_local (cfg_max_samples (config_of b))) (fun _ _ => True)); [done| |by apply Forall_true|].
  - intros now o l _ Hw. apply local_effect_wf; [lia|exact Hw].
  - unfold b, init_backend. destruct conn; simpl; apply wf_empty.
Qed.

(** Without Redis the active-request count of a deployment is the balance
    of its increments and decrements, never below zero, whatever other calls,
    prunes and deployments come in between; that is also what
    [get_active_requests] answers. *)
Theorem active_counts_balance {S} `{RedisExec S} (float_repr : Q -> string)
    (json_reason : string -> string) (t0 window ttl samples now : Z) (h : list (Z * backend_op))
    (id : string) :
  let b := run_ops float_repr json_reason
             (init_backend t0 (None : option (connection S)) window "fail_open" ttl samples) h in
  let count := foldl (fun n e => active_step id n e.2) 0 h in
  active_of (local b) id = count /\ snd (get_active_requests now id b) = Ret count.
Proof.
  intros b count. set (b0 := init_backend t0 (None : option (connection S)) window "fail_open" ttl samples).
  destruct (run_ops_offline float_repr json_reason b0 h eq_refl eq_refl) as (Hr & Hc & Hl).
  fold b0 in b. fold b in Hr, Hc, Hl.
  assert (Hn : 1 <= cfg_max_samples (config_of b0)) by (simpl; lia).
  assert (Hact : active_of (local b) id = count).
  { rewrite Hl. by apply effects_active; [|apply wf_empty]. }
  split; [done|]. unfold get_active_requests, guarded, try_except, redis_call, round_trip, mbind, st_bind.
  rewrite Hr. unfold handle_backend_failure, mark_backend_failure. simpl.
  assert (policy b = fail_open) as -> by (by injection Hc). simpl.
  rewrite <- Hact. f_equal. apply (active_prune (config_of b)). rewrite Hl, Hc.
  apply effects_wf; [done|apply wf_empty].
Qed.

(** Without Redis a cooldown set at time [now] for [d] seconds holds until
    exactly [now + max 1 d] seconds: after any calls made before that instant
    that do not set or clear the cooldown of this deployment — prunes, usage,
    latency and health updates of this or other deployments —
    [is_cooled_down] answers true before the instant and false from it on. *)
Theorem cooldown_lasts {S} `{RedisExec S} (float_repr : Q -> string) (json_reason : string -> string)
    (now now' d : Z) (id reason : string) (b : backend S) (h : list (Z * backend_op)) :
  redis b = None -> policy b = fail_open -> 0 <= now' ->
  let until := now + Z.max 1 d * usec in
  Forall (fun e => e.1 < until /\ steers_cooldown id e.2 = false) h ->
  snd (is_cooled_down now' id
         (run_ops float_repr json_reason (fst (set_cooldown json_reason now id d reason b)) h))
  = Ret (now' <? until).
Proof.
  intros Hr Hp Hnow until Hh.
  destruct (run_ops_offline float_repr json_reason b ((now, SetCooldown id d reason) :: h) Hr Hp)
    as (Hr' & Hc & Hl). simpl in Hr', Hc, Hl.
  rewrite is_cooled_offline; [|done|by injection Hc; intros; congruence|done].
  rewrite Hl. unfold cooling, effects. simpl.
  change (foldl (fun l e => local_effect (config_of b) e.1 e.2 l)) with (effects (config_of b)).
  by rewrite (effects_cooldown _ _ h id until); [|apply lookup_insert_eq|].
Qed.

(** A server that answers nothing, for the examples. *)
#[local] Instance silent_server : RedisExec unit := fun s _ => (s, RNil).

Lemma cooldown_lasts_witness :
  let b := init_backend 0 (None : option (connection unit)) 1000 "fail_open" 1 5 in
  snd (is_cooled_down (59 * usec) "d"
         (run_ops (fun _ => ""%string) (fun s => s)
            (fst (set_cooldown (fun s => s) 0 "d" 60 "oops" b))
            [(40 * usec, GetHealth "d"); (50 * usec, ClearCooldown "e")])) = Ret true.
Proof.
  intros b.
  exact (cooldown_lasts (fun _ => ""%string) (fun s => s) 0 (59 * usec) 60
    "d" "oops" b _ eq_refl eq_refl ltac:(vm_compute; discriminate)
    ltac:(repeat constructor; vm_compute; reflexivity)).
Defined.

Definition sample_history : list (Z * backend_op) :=
  [(1 * usec, IncrementActive "d"); (2 * usec, SetCooldown "d" 60 "x"); (40 * usec, GetHealth "d");
   (50 * usec, DecrementActive "e"); (59 * usec, IncrementActive "d")]%string.

Lemma degraded_refines_abstract_witness :
  let b := run_ops (fun _ => ""%string) (fun s => s)
             (init_backend 0 (None : option (connection unit)) 1000 "fail_open" 1 5) sample_history in
  snd (get_active_requests (61 * usec) "d" b) = Ret 2 /\ snd (is_cooled_down (61 * usec) "d" b) = Ret true.
Proof.
  intros b.
  destruct (degraded_refines_abstract (S := unit) (fun _ => ""%string) (fun s => s) 0 1000 1 5 (61 * usec) sample_history "d" []
    ltac:(lia)) as (_ & _ & H1 & H2 & _).
  - unfold in_order. repeat constructor; vm_compute; discriminate.
  - fold b in H1, H2. rewrite H1, H2. split; vm_compute; reflexivity.
Defined.
