(* ===== verification/Backend.v ===== *)
(** * The state backend as its clients see it

    [DeploymentStateBackend] (src/router/state.py, the Protocol) is what the
    router, the strategies, the failover and cooldown managers are written
    against; here it is a type class, and [RedisStateBackend] an instance. *)

From S2P Require Import Prelude PyVal Errors RouterState.

Class DeploymentStateBackend (B : Type) := {
  be_increment_active : Z -> string -> st B exn Z;
  be_decrement_active : Z -> string -> st B exn Z;
  be_get_active_requests_batch : Z -> list string -> st B exn (gmap string Z);
  be_record_latency : Z -> string -> Q -> st B exn unit;
  be_get_latency_windows_batch : Z -> list string -> Z -> st B exn (gmap string (list sample));
  be_increment_usage_counters : Z -> string -> list (string * Z) -> option string -> st B exn unit;
  be_get_usage_batch : Z -> list string -> st B exn (gmap string (gmap string Z));
  be_set_cooldown : Z -> string -> Z -> string -> st B exn unit;
  be_is_cooled_down : Z -> string -> st B exn bool;
  be_record_success : Z -> string -> st B exn unit;
  be_record_failure : Z -> string -> string -> st B exn Z;
  be_set_health : Z -> string -> bool -> st B exn unit;
  be_get_health : Z -> string -> st B exn (gmap string string);
  be_get_health_batch : Z -> list string -> st B exn (gmap string (gmap string string));
  be_get_cooldown_batch : Z -> list string -> st B exn (gmap string bool)
}.

(** [str] of a float and [json.dumps] of a string, of which nothing is assumed. *)
Class Rendering := {
  render_float : Q -> string;
  render_json_string : string -> string
}.

#[export] Instance redis_state_backend {S} `{RedisExec S} `{Rendering} :
    DeploymentStateBackend (backend S) := {
  be_increment_active := increment_active;
  be_decrement_active := decrement_active;
  be_get_active_requests_batch := get_active_requests_batch;
  be_record_latency := record_latency render_float;
  be_get_latency_windows_batch := get_latency_windows_batch;
  be_increment_usage_counters := increment_usage_counters;
  be_get_usage_batch := get_usage_batch;
  be_set_cooldown := set_cooldown render_json_string;
  be_is_cooled_down := is_cooled_down;
  be_record_success := record_success;
  be_record_failure := record_failure;
  be_set_health := set_health;
  be_get_health := get_health;
  be_get_health_batch := get_health_batch;
  be_get_cooldown_batch := get_cooldown_batch
}.

(** ** Python conversions that the backend's clients use *)

(** [str] of a float or container, of which nothing is assumed. *)
Class PyRepr := repr_other : pyval -> string.

Definition py_str `{PyRepr} (v : pyval) : string :=
  match v with
  | PyNone => "None"
  | PyBool b => if b then "True" else "False"
  | PyInt n => Str.of_Z n
  | PyStr s => s
  | _ => repr_other v
  end.

(** A conversion error as an exception. *)
Definition exn_of_pyexc (e : pyexc) : exn :=
  other_error (match e with
               | TypeError => "TypeError" | ValueError => "ValueError" | OverflowError => "OverflowError"
               end).

Definition lift_py {S A} (r : res pyexc A) : st S exn A :=
  lift (match r with Ret a => Ret a | Raise e => Raise (exn_of_pyexc e) end).

Definition lift_exn {A} (r : res pyexc A) : res exn A :=
  match r with Ret a => Ret a | Raise e => Raise (exn_of_pyexc e) end.

(** ** An offline backend for the examples *)

Definition no_server : RedisExec unit := fun s _ => (s, RNil).
Definition no_rendering : Rendering :=
  {| render_float := fun _ => ""%string; render_json_string := fun s => s |}.
Definition no_repr : PyRepr := fun _ => ""%string.

Definition offline : backend unit := init_backend 0 None 300000 "fail_open" 600 256.
