(* ===== verification/Strategies.v ===== *)
(** * Selection strategies: src/router/strategies.py

    Each strategy fetches what it needs from the state backend and picks one
    of the deployments it is given.  A random draw is an explicit argument. *)

From Stdlib Require Import Sorting.Sorted.
From S2P Require Import Prelude PyVal Errors Billing RouterState Backend.

(** ** Deployments: [Deployment] of src/router/router.py *)

Record Deployment : Type := mkDeployment {
  deployment_id : string;
  model_name : string;
  deltallm_params : pydict;
  model_info : pydict;
  weight : Z;
  priority : Z;
  tags : list string;
  dep_input_cost_per_token : pyfloat;
  dep_output_cost_per_token : pyfloat;
  rpm_limit : option Z;
  tpm_limit : option Z;
  image_pm_limit : option Z;
  audio_seconds_pm_limit : option Z;
  char_pm_limit : option Z;
  rerank_units_pm_limit : option Z
}.

(** ** Random choice *)

(** One draw: [random()] in the unit interval, and [random.choice]'s index. *)
Record draw : Type := mkDraw {
  unit_draw : Q;
  index_draw : nat
}.

Definition random_choice (r : draw) (l : list Deployment) : option Deployment :=
  match l with [] => None | _ => l !! (index_draw r mod length l)%nat end.

Definition choice_weight (d : Deployment) : Z := Z.max 0 (weight d).
Definition total_weight (l : list Deployment) : Z := zsum (map choice_weight l).

(** The loop over the cumulative weights. *)
Fixpoint pick_cumulative (pick : Q) (cumulative : Z) (l : list Deployment) : option Deployment :=
  match l with
  | [] => None
  | d :: l' =>
    let cumulative := cumulative + choice_weight d in
    if Qle_bool pick (inject_Z cumulative) then Some d else pick_cumulative pick cumulative l'
  end.

Definition weighted_random_choice (r : draw) (l : list Deployment) : option Deployment :=
  match l with
  | [] => None
  | _ =>
    let total := total_weight l in
    if total <=? 0 then random_choice r l
    else
      let pick := (unit_draw r * inject_Z total)%Q in
      match pick_cumulative pick 0 l with
      | Some d => Some d
      | None => last l
      end
  end.

(** ** Utilization *)

Definition calc_utilization (current : Z) (limit : option Z) : Q :=
  match limit with
  | Some l => if l <=? 0 then 0%Q else (inject_Z current / inject_Z l)%Q
  | None => 0%Q
  end.

(** [max(l, default=0.0)]: the first of the greatest. *)
Definition max_default0 (l : list Q) : Q :=
  match l with [] => 0%Q | x :: l' => foldl (fun m y => if Qlt_bool m y then y else m) x l' end.

Section strategies.
Context `{PyRepr}.

(** [str((model_info or {}).get("mode") or "chat").strip().lower() or "chat"] *)
Definition deployment_mode (d : Deployment) : string :=
  let m := Str.lower (Str.strip (py_str (py_or (vget (model_info d) "mode") (PyStr "chat")))) in
  if Str.is_empty m then "chat" else m.

(** The utilizations that count: a limit that is [None] is left out. *)
Definition limited (usage : gmap string Z) (name : string) (limit : option Z) : list Q :=
  match limit with
  | Some _ => [calc_utilization (usage_get usage name) limit]
  | None => []
  end.

Definition usage_utilization_for_deployment (d : Deployment) (usage : gmap string Z) : Q :=
  let mode := deployment_mode d in
  let mode_is := String.eqb mode in
  max_default0 (limited usage "rpm" (rpm_limit d) ++
    if mode_is "chat" || mode_is "embedding" then limited usage "tpm" (tpm_limit d)
    else if mode_is "image_generation" then limited usage "image_pm" (image_pm_limit d)
    else if mode_is "audio_speech" || mode_is "audio_transcription" then
      limited usage "audio_seconds_pm" (audio_seconds_pm_limit d) ++
      limited usage "char_pm" (char_pm_limit d)
    else if mode_is "rerank" then limited usage "rerank_units_pm" (rerank_units_pm_limit d)
    else limited usage "tpm" (tpm_limit d)).

Definition usage_within_limits (d : Deployment) (usage : gmap string Z) : bool :=
  Qlt_bool (usage_utilization_for_deployment d usage) 1.

(** ** What each strategy does with what it fetched *)

Definition ids_of (l : list Deployment) : list string := map deployment_id l.
Definition count_of_id (counts : gmap string Z) (d : Deployment) : Z :=
  default 0 (counts !! deployment_id d).
Definition usage_of_id (usage : gmap string (gmap string Z)) (d : Deployment) : gmap string Z :=
  default ∅ (usage !! deployment_id d).

Definition zmin_list (x : Z) (l : list Z) : Z := foldl Z.min x l.

Definition least_busy_pick (counts : gmap string Z) (r : draw) (l : list Deployment) : option Deployment :=
  match l with
  | [] => None
  | d :: l' =>
    let min_count := zmin_list (count_of_id counts d) (map (count_of_id counts) l') in
    weighted_random_choice r (filter (fun d => count_of_id counts d = min_count) l)
  end.

(** [_weighted_avg]; [decay] is [exp(-age / 60000)] of an age in milliseconds. *)
Definition weighted_avg (decay : Q -> Q) (now : Z) (window : list sample) : option Q :=
  match window with
  | [] => None
  | _ =>
    let age (ts : Z) := let a := (inject_Z now / 1000 - inject_Z ts)%Q in if Qlt_bool 0 a then a else 0%Q in
    let '(weighted_sum, total) :=
      foldl (fun '(s, t) '(ts, latency) =>
               let w := decay (age ts) in ((s + latency * w)%Q, (t + w)%Q)) (0%Q, 0%Q) window in
    if Qlt_bool 0 total then Some (weighted_sum / total)%Q else None
  end.

Definition latency_score (decay : Q -> Q) now (windows : gmap string (list sample)) (d : Deployment)
    : option Q :=
  weighted_avg decay now (default [] (windows !! deployment_id d)).

Definition qmin_list (x : Q) (l : list Q) : Q := foldl (fun m y => if Qlt_bool y m then y else m) x l.

Definition scores_of {A} (f : A -> option Q) (l : list A) : list Q := omap f l.

Definition is_none_opt {A} (x : option A) : bool := match x with None => true | _ => false end.

Definition has_score (f : Deployment -> option Q) (best : Q) (d : Deployment) : bool :=
  match f d with Some q => Qeq_bool q best | None => false end.

Definition latency_pick (decay : Q -> Q) (now : Z) (windows : gmap string (list sample)) (r : draw)
    (l : list Deployment) : option Deployment :=
  let score := latency_score decay now windows in
  match scores_of score l with
  | [] => weighted_random_choice r l
  | x :: xs =>
    let best := qmin_list x xs in
    weighted_random_choice r
      (filter (fun d => has_score score best d = true) l ++ filter (fun d => is_none_opt (score d) = true) l)
  end.

(** [_synthetic_usage_for_mode] *)
Definition synthetic_usage_for_mode (mode : string) : pydict :=
  let one := PyInt 1 in let one_f := PyFloat (FFin 1) in
  if String.eqb mode "embedding" then [("prompt_tokens", one); ("completion_tokens", PyInt 0)]%string
  else if String.eqb mode "image_generation" then [("images"%string, one)]
  else if String.eqb mode "audio_speech" then
    [("prompt_tokens", one); ("completion_tokens", one); ("input_audio_tokens", one);
     ("output_audio_tokens", one); ("input_characters", one); ("output_characters", one);
     ("duration_seconds", one_f)]%string
  else if String.eqb mode "audio_transcription" then
    [("prompt_tokens", one); ("completion_tokens", one); ("input_audio_tokens", one);
     ("duration_seconds", one_f); ("billable_duration_seconds", one_f)]%string
  else [("prompt_tokens", one); ("completion_tokens", one)]%string.

Definition dict_setdefault (d : pydict) (k : string) (v : pyval) : pydict :=
  if dict_has d k then d else dict_set d k v.

(** [_estimated_unit_cost] *)
Definition estimated_unit_cost (d : Deployment) : res pyexc pyfloat :=
  let info := dict_setdefault (model_info d) "input_cost_per_token" (PyFloat (dep_input_cost_per_token d)) in
  let info := dict_setdefault info "output_cost_per_token" (PyFloat (dep_output_cost_per_token d)) in
  let mode := Str.strip (py_str (py_or (vget info "mode") (PyStr "chat"))) in
  let mode := if Str.is_empty mode then "chat"%string else mode in
  result ← compute_billing_result mode (synthetic_usage_for_mode mode) info;
  Ret (match pricing_fields_used result with [] => FInf false | _ => cost result end).

(** The loop that keeps the first deployment with the strictly least score. *)
Fixpoint least_score (score : Deployment -> res pyexc pyfloat) (l : list Deployment)
    (best : option Deployment) (best_score : pyfloat) : res pyexc (option Deployment) :=
  match l with
  | [] => Ret best
  | d :: l' =>
    s ← score d;
    if Fl.ltb s best_score then least_score score l' (Some d) s
    else least_score score l' best best_score
  end.

Definition cost_pick (r : draw) (l : list Deployment) : res pyexc (option Deployment) :=
  match l with
  | [] => Ret None
  | _ =>
    best ← least_score estimated_unit_cost l None (FInf false);
    Ret (match best with Some d => Some d | None => weighted_random_choice r l end)
  end.

Definition utilization_in (usage : gmap string (gmap string Z)) (d : Deployment) : Q :=
  usage_utilization_for_deployment d (usage_of_id usage d).

Definition usage_pick (usage : gmap string (gmap string Z)) (r : draw) (l : list Deployment)
    : res pyexc (option Deployment) :=
  match l with
  | [] => Ret None
  | _ =>
    best ← least_score (fun d => Ret (FFin (utilization_in usage d))) l None (FInf false);
    Ret (match best with Some d => Some d | None => weighted_random_choice r l end)
  end.

Definition rate_limit_aware_pick (threshold : Q) (usage : gmap string (gmap string Z)) (r : draw)
    (l : list Deployment) : option Deployment :=
  weighted_random_choice r (filter (fun d => Qlt_bool (utilization_in usage d) threshold = true) l).

(** [by_priority.setdefault(priority, []).append(d)], then the keys sorted. *)
Fixpoint insert_sorted (x : Z) (l : list Z) : list Z :=
  match l with
  | [] => [x]
  | y :: l' => if x <? y then x :: l else if x =? y then l else y :: insert_sorted x l'
  end.
Definition priorities_of (l : list Deployment) : list Z := foldr insert_sorted [] (map priority l).

Fixpoint first_selected (select : list Deployment -> option Deployment) (groups : list (list Deployment))
    : option Deployment :=
  match groups with
  | [] => None
  | g :: gs => match select g with Some d => Some d | None => first_selected select gs end
  end.

Definition priority_pick (r : draw) (l : list Deployment) : option Deployment :=
  first_selected (weighted_random_choice r)
    (map (fun p => filter (fun d => priority d = p) l) (priorities_of l)).

(** ** The strategies over the backend *)

Inductive RoutingStrategy : Type :=
  | SIMPLE_SHUFFLE | LEAST_BUSY | LATENCY_BASED | COST_BASED | USAGE_BASED | TAG_BASED
  | PRIORITY_BASED | WEIGHTED | RATE_LIMIT_AWARE.

#[export] Instance RoutingStrategy_eq_dec : EqDecision RoutingStrategy.
Proof. solve_decision. Defined.

Definition latency_window_size_ms : Z := 300000.
Definition utilization_threshold : Q := (9 # 10)%Q.

Context {B : Type} `{DeploymentStateBackend B} (decay : Q -> Q).

Definition select (strategy : RoutingStrategy) (now : Z) (r : draw) (l : list Deployment)
    : st B exn (option Deployment) :=
  match strategy with
  | SIMPLE_SHUFFLE => mret (random_choice r l)
  | LEAST_BUSY =>
    match l with
    | [] => mret None
    | _ => counts ← be_get_active_requests_batch now (ids_of l); mret (least_busy_pick counts r l)
    end
  | LATENCY_BASED =>
    match l with
    | [] => mret None
    | _ => windows ← be_get_latency_windows_batch now (ids_of l) latency_window_size_ms;
           mret (latency_pick decay now windows r l)
    end
  | COST_BASED => lift_py (cost_pick r l)
  | USAGE_BASED =>
    match l with
    | [] => mret None
    | _ => usage ← be_get_usage_batch now (ids_of l); lift_py (usage_pick usage r l)
    end
  | TAG_BASED | WEIGHTED => mret (weighted_random_choice r l)
  | PRIORITY_BASED => mret (priority_pick r l)
  | RATE_LIMIT_AWARE =>
    match l with
    | [] => mret None
    | _ => usage ← be_get_usage_batch now (ids_of l);
           mret (rate_limit_aware_pick utilization_threshold usage r l)
    end
  end.
End strategies.

(** ** Random choices *)

Section choices.
Implicit Types (l : list Deployment) (d : Deployment) (r : draw).

Lemma random_choice_some r l : l <> [] -> exists d, random_choice r l = Some d /\ d ∈ l.
Proof.
  intros Hl. destruct l as [|x l]; [done|]. unfold random_choice.
  destruct (lookup_lt_is_Some_2 (x :: l) (index_draw r mod length (x :: l))) as [d Hd];
    [by apply Nat.mod_upper_bound|].
  exists d. split; [done|]. by apply list_elem_of_lookup_2 in Hd.
Qed.

Lemma choice_weight_nonneg l : Forall (fun w => 0 <= w) (map choice_weight l).
Proof. apply Forall_fmap, Forall_true. intros d. unfold choice_weight. simpl. lia. Qed.

(** The loop returns the deployment in whose interval the pick lies. *)
Lemma pick_cumulative_interval pick c l :
  (pick <= inject_Z (c + total_weight l))%Q -> l <> [] ->
  exists i d, pick_cumulative pick c l = Some d /\ l !! i = Some d /\
    (pick <= inject_Z (c + zsum (take (S i) (map choice_weight l))))%Q /\
    (i <> 0%nat -> (inject_Z (c + zsum (take i (map choice_weight l))) < pick)%Q).
Proof.
  revert c. induction l as [|d l IH]; intros c Hle Hne; [done|]. simpl.
  destruct (Qle_bool pick (inject_Z (c + choice_weight d))) eqn:E.
  - apply Qle_bool_iff in E. exists 0%nat, d. split_and!; [done|done| |done].
    simpl. by rewrite Z.add_0_r.
  - assert (Hgt : (inject_Z (c + choice_weight d) < pick)%Q).
    { apply Qnot_le_lt. intros Hc. apply Qle_bool_iff in Hc. congruence. }
    unfold total_weight in Hle. cbn [map] in Hle. rewrite zsum_cons in Hle. fold (total_weight l) in Hle.
    assert (Hl : l <> []).
    { intros ->. simpl in Hle. unfold total_weight in Hle. simpl in Hle. rewrite Z.add_0_r in Hle.
      by apply Qlt_not_le in Hgt. }
    rewrite Z.add_assoc in Hle. destruct (IH _ Hle Hl) as (i & d' & Hp & Hi & Hup & Hlo).
    exists (S i), d'. split_and!; [done|done| |].
    + simpl in *. rewrite Z.add_assoc. exact Hup.
    + intros _. simpl in *. rewrite Z.add_assoc.
      destruct i as [|i]; [|by apply Hlo]. simpl. by rewrite Z.add_0_r.
Qed.

Lemma weighted_choice_some r l : l <> [] -> exists d, weighted_random_choice r l = Some d /\ d ∈ l.
Proof.
  intros Hl. destruct l as [|x l]; [done|]. unfold weighted_random_choice.
  destruct (total_weight (x :: l) <=? 0); [by apply random_choice_some|].
  destruct (pick_cumulative _ 0 (x :: l)) as [d|] eqn:E.
  - exists d. split; [done|]. revert E. generalize (unit_draw r * inject_Z (total_weight (x :: l)))%Q, 0.
    clear. intros pick c E. revert c E. induction (x :: l) as [|y m IH]; intros c E; [done|].
    simpl in E. destruct (Qle_bool _ _); [injection E as ->; by left|]. right. by eapply IH.
  - destruct (last (x :: l)) as [d|] eqn:El; [|by apply last_None in El].
    exists d. split; [done|]. by apply last_Some_elem_of.
Qed.

Lemma weighted_choice_member r l d : weighted_random_choice r l = Some d -> d ∈ l.
Proof.
  intros Hd. destruct (decide (l = [])) as [->|Hl]; [done|].
  destruct (weighted_choice_some r l Hl) as (d' & Hd' & Hin). congruence.
Qed.

Lemma random_choice_member r l d : random_choice r l = Some d -> d ∈ l.
Proof.
  intros Hd. destruct (decide (l = [])) as [->|Hl]; [done|].
  destruct (random_choice_some r l Hl) as (d' & Hd' & Hin). congruence.
Qed.
End choices.

(** The weighted choice is proportional to the weights: with a positive
    total weight and a draw [u] in (0, 1], it returns the deployment in whose
    interval of the cumulative weights [u * total] lies, so each deployment is
    chosen on an interval of length its weight over the total, and a
    deployment of zero or negative weight never is. *)
Theorem weighted_choice_proportional (r : draw) (l : list Deployment) :
  0 < total_weight l -> (0 < unit_draw r)%Q -> (unit_draw r <= 1)%Q ->
  let pick := (unit_draw r * inject_Z (total_weight l))%Q in
  let before i := inject_Z (zsum (take i (map choice_weight l))) in
  exists i d, weighted_random_choice r l = Some d /\ l !! i = Some d /\
    (before i < pick)%Q /\ (pick <= before (S i))%Q /\ 0 < weight d.
Proof.
  intros Htot Hu0 Hu1 pick before.
  assert (Hl : l <> []) by (by intros ->).
  assert (Hpick : (pick <= inject_Z (0 + total_weight l))%Q).
  { unfold pick. rewrite Z.add_0_l. rewrite <- (Qmult_1_l (inject_Z (total_weight l))) at 2.
    apply Qmult_le_compat_r; [done|]. change 0%Q with (inject_Z 0). rewrite <- Zle_Qle. lia. }
  assert (Hpos : (0 < pick)%Q).
  { apply Qmult_lt_0_compat; [done|]. change 0%Q with (inject_Z 0). by rewrite <- Zlt_Qlt. }
  destruct (pick_cumulative_interval pick 0 l Hpick Hl) as (i & d & Hp & Hi & Hup & Hlo).
  assert (Hlow : (before i < pick)%Q).
  { destruct i as [|i]; [exact Hpos|]. by apply Hlo. }
  exists i, d. split_and!; [|done|done|exact Hup|].
  - destruct l as [|x l]; [done|]. unfold weighted_random_choice.
    rewrite (proj2 (Z.leb_gt _ _)) by done. fold pick. by rewrite Hp.
  - assert (Hlt : (before i < before (S i))%Q) by (by apply Qlt_le_trans with pick).
    unfold before in Hlt. rewrite <- Zlt_Qlt in Hlt.
    rewrite (take_S_r _ i (choice_weight d)) in Hlt by (by rewrite list_lookup_fmap, Hi).
    rewrite zsum_app, zsum_cons in Hlt. change (zsum []) with 0 in Hlt.
    assert (Hd : 0 < choice_weight d) by lia. unfold choice_weight in Hd. lia.
Qed.

(** Three deployments for the examples. *)
Definition sample_deployment (id : string) (weight priority : Z) : Deployment :=
  mkDeployment id "m" [] [] weight priority [] Fl.zero Fl.zero (Some 10) None None None None None.

Lemma weighted_choice_proportional_witness :
  exists i d, weighted_random_choice (mkDraw (1 # 2) 0)
                [sample_deployment "a" 0 0; sample_deployment "b" 3 0] = Some d /\
              [sample_deployment "a" 0 0; sample_deployment "b" 3 0] !! i = Some d /\ 0 < weight d.
Proof.
  destruct (weighted_choice_proportional (mkDraw (1 # 2) 0)
    [sample_deployment "a" 0 0; sample_deployment "b" 3 0] eq_refl eq_refl ltac:(vm_compute; discriminate))
    as (i & d & Hw & Hi & _ & _ & Hd).
  exists i, d. split; [exact Hw|split; [exact Hi|exact Hd]].
Defined.

(** ** Extremal elements *)

Section extrema.

Lemma zmin_list_le x l y : y ∈ x :: l -> zmin_list x l <= y.
Proof.
  unfold zmin_list. revert x y. induction l as [|z l IH]; intros x y Hy; simpl.
  - apply list_elem_of_singleton in Hy. lia.
  - assert (Hacc : foldl Z.min (x `min` z) l <= x `min` z) by (apply IH; left).
    apply elem_of_cons in Hy as [->|Hy]; [lia|]. apply elem_of_cons in Hy as [->|Hy]; [lia|].
    apply IH. by right.
Qed.

Lemma zmin_list_elem x l : zmin_list x l ∈ x :: l.
Proof.
  unfold zmin_list. revert x. induction l as [|z l IH]; intros x; simpl; [left|].
  specialize (IH (x `min` z)). apply elem_of_cons in IH as [->|IH]; [|by right; right].
  destruct (Z.min_spec x z) as [[_ ->]|[_ ->]]; set_solver.
Qed.

Lemma qmin_list_le x l y : y ∈ x :: l -> (qmin_list x l <= y)%Q.
Proof.
  unfold qmin_list. revert x y. induction l as [|z l IH]; intros x y Hy; simpl.
  - apply list_elem_of_singleton in Hy as ->. apply Qle_refl.
  - assert (Hmin : ((if Qlt_bool z x then z else x) <= x /\ (if Qlt_bool z x then z else x) <= z)%Q).
    { destruct (Qlt_bool z x) eqn:E; [apply Qlt_bool_iff in E|apply Qlt_bool_false in E]; split; lra. }
    assert (Hacc := IH (if Qlt_bool z x then z else x) _ (list_elem_of_here _ _)).
    apply elem_of_cons in Hy as [->|Hy]; [lra|]. apply elem_of_cons in Hy as [->|Hy]; [lra|].
    apply IH. by right.
Qed.

Lemma qmin_list_elem x l : qmin_list x l ∈ x :: l.
Proof.
  unfold qmin_list. revert x. induction l as [|z l IH]; intros x; simpl; [left|].
  specialize (IH (if Qlt_bool z x then z else x)). apply elem_of_cons in IH as [->|IH]; [|by right; right].
  destruct (Qlt_bool z x); set_solver.
Qed.

Lemma fl_ltb_trans a b c : Fl.ltb a b = true -> Fl.ltb b c = true -> Fl.ltb a c = true.
Proof.
  destruct a as [p|[]|], b as [q|[]|], c as [r|[]|]; simpl; try done.
  rewrite !Qlt_bool_iff. apply Qlt_trans.
Qed.

Lemma fl_ltb_irrefl a : Fl.ltb a a = false.
Proof. destruct a as [p|[]|]; simpl; try done. apply Qlt_bool_false, Qle_refl. Qed.

(** The loop over the scores keeps a deployment no other is strictly below. *)
Lemma least_score_spec score l best bs r :
  least_score score l best bs = Ret r ->
  (r = best /\ forall d, d ∈ l -> exists c, score d = Ret c /\ Fl.ltb c bs = false) \/
  (exists d c, r = Some d /\ d ∈ l /\ score d = Ret c /\ Fl.ltb c bs = true /\
     forall d', d' ∈ l -> exists c', score d' = Ret c' /\ Fl.ltb c' c = false).
Proof.
  revert best bs. induction l as [|x l IH]; intros best bs Hr.
  - injection Hr as <-. left. split; [done|]. intros d Hd. by apply not_elem_of_nil in Hd.
  - apply res_bind_ret in Hr as (c & Hc & Hr). destruct (Fl.ltb c bs) eqn:El.
    + right. destruct (IH _ _ Hr) as [[-> Hall]|(d & c2 & -> & Hd & Hs & Hlt & Hall)].
      * exists x, c. split_and!; [done|by left|done|done|].
        intros d' [->|Hd']%elem_of_cons; [|auto]. exists c. split; [done|apply fl_ltb_irrefl].
      * exists d, c2. split_and!; [done|by right|done|by eapply fl_ltb_trans|].
        intros d' [->|Hd']%elem_of_cons; [|auto]. exists c. split; [done|].
        destruct (Fl.ltb c c2) eqn:E; [|done]. pose proof (fl_ltb_trans _ _ _ Hlt E) as Hbad.
        by rewrite fl_ltb_irrefl in Hbad.
    + destruct (IH _ _ Hr) as [[-> Hall]|(d & c2 & -> & Hd & Hs & Hlt & Hall)]; [left|right].
      * split; [done|]. intros d [->|Hd]%elem_of_cons; [eauto|auto].
      * exists d, c2. split_and!; [done|by right|done|done|].
        intros d' [->|Hd']%elem_of_cons; [|auto]. exists c. split; [done|].
        destruct (Fl.ltb c c2) eqn:E; [|done]. pose proof (fl_ltb_trans _ _ _ E Hlt). congruence.
Qed.

Lemma insert_sorted_elem x l y : y ∈ insert_sorted x l <-> y = x \/ y ∈ l.
Proof.
  induction l as [|z l IH]; simpl; [set_solver|].
  destruct (Z.ltb_spec x z); [set_solver|]. destruct (Z.eqb_spec x z); set_solver.
Qed.

Lemma insert_sorted_sorted x l : StronglySorted Z.lt l -> StronglySorted Z.lt (insert_sorted x l).
Proof.
  induction 1 as [|z l Hs IH Hall]; simpl; [repeat constructor|].
  destruct (Z.ltb_spec x z); [|destruct (Z.eqb_spec x z); [by constructor|]].
  - constructor; [by constructor|]. constructor; [lia|]. eapply Forall_impl; [exact Hall|]. simpl. lia.
  - constructor; [done|]. rewrite Forall_forall in *. intros y [->|Hy]%insert_sorted_elem; [lia|auto].
Qed.

Lemma priorities_sorted l : StronglySorted Z.lt (priorities_of l).
Proof. unfold priorities_of. induction (map priority l); simpl; [constructor|by apply insert_sorted_sorted]. Qed.

Lemma priorities_elem l p : p ∈ priorities_of l <-> p ∈ map priority l.
Proof.
  unfold priorities_of. induction (map priority l) as [|x m IH]; simpl; [done|].
  rewrite insert_sorted_elem, IH. set_solver.
Qed.
End extrema.

(** ** What the strategies promise *)

Section objectives.
Context `{PyRepr} {B : Type} `{DeploymentStateBackend B} (decay : Q -> Q).

(** The objective of a strategy for the deployment [d] it picked from [l]. *)
Definition meets_objective (strategy : RoutingStrategy) (now : Z) (s : B) (l : list Deployment)
    (d : Deployment) : Prop :=
  match strategy with
  | SIMPLE_SHUFFLE | TAG_BASED | WEIGHTED => True
  | LEAST_BUSY => exists s' counts,
      be_get_active_requests_batch now (ids_of l) s = (s', Ret counts) /\
      forall d', d' ∈ l -> count_of_id counts d <= count_of_id counts d'
  | LATENCY_BASED => exists s' windows,
      be_get_latency_windows_batch now (ids_of l) latency_window_size_ms s = (s', Ret windows) /\
      forall q d' q', latency_score decay now windows d = Some q -> d' ∈ l ->
        latency_score decay now windows d' = Some q' -> (q <= q')%Q
  | COST_BASED =>
      (exists c, estimated_unit_cost d = Ret c /\
         forall d', d' ∈ l -> exists c', estimated_unit_cost d' = Ret c' /\ Fl.ltb c' c = false) \/
      (forall d', d' ∈ l -> exists c', estimated_unit_cost d' = Ret c' /\ Fl.ltb c' (FInf false) = false)
  | USAGE_BASED => exists s' usage,
      be_get_usage_batch now (ids_of l) s = (s', Ret usage) /\
      forall d', d' ∈ l -> (utilization_in usage d <= utilization_in usage d')%Q
  | PRIORITY_BASED => forall d', d' ∈ l -> priority d <= priority d'
  | RATE_LIMIT_AWARE => exists s' usage,
      be_get_usage_batch now (ids_of l) s = (s', Ret usage) /\
      (utilization_in usage d < utilization_threshold)%Q
  end.

(** Why a strategy picks nothing. *)
Definition nothing_to_pick (strategy : RoutingStrategy) (now : Z) (s : B) (l : list Deployment) : Prop :=
  l = [] \/
  (strategy = RATE_LIMIT_AWARE /\ exists s' usage,
     be_get_usage_batch now (ids_of l) s = (s', Ret usage) /\
     forall d, d ∈ l -> (utilization_threshold <= utilization_in usage d)%Q).

Lemma least_busy_objective counts r l : l <> [] ->
  exists d, least_busy_pick counts r l = Some d /\ d ∈ l /\
    forall d', d' ∈ l -> count_of_id counts d <= count_of_id counts d'.
Proof.
  intros Hl. destruct l as [|x l]; [done|]. unfold least_busy_pick.
  set (m := zmin_list _ _). set (cands := base.filter _ _).
  assert (Hm : m ∈ map (count_of_id counts) (x :: l)) by apply zmin_list_elem.
  apply list_elem_of_fmap in Hm as (d0 & Hd0 & Hin0).
  assert (Hne : cands <> []).
  { intros He. assert (Hd : d0 ∈ cands) by (apply list_elem_of_filter; done). rewrite He in Hd.
    by apply not_elem_of_nil in Hd. }
  destruct (weighted_choice_some r cands Hne) as (d & -> & Hd).
  apply list_elem_of_filter in Hd as [Hcount Hd]. exists d. split_and!; [done..|].
  intros d' Hd'. rewrite Hcount. apply zmin_list_le.
  change (count_of_id counts d' ∈ map (count_of_id counts) (x :: l)). by apply list_elem_of_fmap_2.
Qed.

Lemma latency_objective now windows r l : l <> [] ->
  exists d, latency_pick decay now windows r l = Some d /\ d ∈ l /\
    forall q d' q', latency_score decay now windows d = Some q -> d' ∈ l ->
      latency_score decay now windows d' = Some q' -> (q <= q')%Q.
Proof.
  intros Hl. unfold latency_pick. set (score := latency_score decay now windows).
  assert (Helem : forall d q, d ∈ l -> score d = Some q -> q ∈ scores_of score l)
    by (intros d q Hd Hq; apply list_elem_of_omap; eauto).
  destruct (scores_of score l) as [|x xs] eqn:Es.
  - destruct (weighted_choice_some r l Hl) as (d & -> & Hd). exists d. split_and!; [done..|].
    intros q d' q' Hq. apply (Helem d q Hd) in Hq. by apply not_elem_of_nil in Hq.
  - set (best := qmin_list x xs). set (cands := base.filter _ _ ++ _).
    assert (Hb : best ∈ scores_of score l) by (rewrite Es; apply qmin_list_elem).
    apply list_elem_of_omap in Hb as (d0 & Hd0 & Hs0).
    assert (Hne : cands <> []).
    { intros He. assert (Hd : d0 ∈ cands).
      { apply elem_of_app. left. apply list_elem_of_filter. split; [|done]. unfold has_score. rewrite Hs0.
        by apply Qeq_bool_iff. }
      rewrite He in Hd. by apply not_elem_of_nil in Hd. }
    destruct (weighted_choice_some r cands Hne) as (d & -> & Hd).
    apply elem_of_app in Hd as [Hd|Hd]; apply list_elem_of_filter in Hd as [Hp Hd];
      exists d; split_and!; try done; intros q d' q' Hq Hd' Hq'.
    + unfold has_score in Hp. rewrite Hq in Hp. apply Qeq_bool_iff in Hp. rewrite Hp.
      apply qmin_list_le. apply (Helem d' q' Hd' Hq').
    + by rewrite Hq in Hp.
Qed.

Lemma cost_objective r l res : l <> [] -> cost_pick r l = Ret res ->
  exists d, res = Some d /\ d ∈ l /\
   ((exists c, estimated_unit_cost d = Ret c /\
       forall d', d' ∈ l -> exists c', estimated_unit_cost d' = Ret c' /\ Fl.ltb c' c = false) \/
    (forall d', d' ∈ l -> exists c', estimated_unit_cost d' = Ret c' /\ Fl.ltb c' (FInf false) = false)).
Proof.
  intros Hl Hr. destruct l as [|x l]; [done|]. unfold cost_pick in Hr.
  apply res_bind_ret in Hr as (best & Hb & <-%ret_inj).
  destruct (least_score_spec _ _ _ _ _ Hb) as [[-> Hall]|(d & c & -> & Hd & Hc & _ & Hall)].
  - destruct (weighted_choice_some r (x :: l)) as (d & -> & Hd); [done|]. eauto.
  - eauto 7.
Qed.

Lemma usage_objective usage r l : l <> [] ->
  exists d, usage_pick usage r l = Ret (Some d) /\ d ∈ l /\
    forall d', d' ∈ l -> (utilization_in usage d <= utilization_in usage d')%Q.
Proof.
  intros Hl. destruct l as [|x l]; [done|]. unfold usage_pick.
  destruct (least_score _ (x :: l) None (FInf false)) as [best|e] eqn:Hb.
  - destruct (least_score_spec _ _ _ _ _ Hb) as [[-> Hall]|(d & c & -> & Hd & Hc & _ & Hall)].
    + destruct (Hall x) as (c & <-%ret_inj & Hlt); [left|done].
    + exists d. split_and!; [done..|]. intros d' Hd'. destruct (Hall d' Hd') as (c' & <-%ret_inj & Hlt).
      apply ret_inj in Hc as <-. by apply Qlt_bool_false in Hlt.
  - exfalso. revert Hb. generalize (None : option Deployment), (FInf false). clear Hl.
    induction (x :: l) as [|y m IH]; intros b s Hb; [done|]. simpl in Hb. case_match; by eapply IH.
Qed.

Lemma priority_objective r l : l <> [] ->
  exists d, priority_pick r l = Some d /\ d ∈ l /\ forall d', d' ∈ l -> priority d <= priority d'.
Proof.
  intros Hl. unfold priority_pick. pose proof (priorities_sorted l) as Hs.
  pose proof (priorities_elem l) as Hel. destruct (priorities_of l) as [|p ps].
  { destruct l as [|x l]; [done|]. assert (Hin : priority x ∈ @nil Z) by (apply Hel; left).
    by apply not_elem_of_nil in Hin. }
  simpl. set (g := base.filter _ _).
  assert (Hp : p ∈ map priority l) by (apply Hel; left). apply list_elem_of_fmap in Hp as (d0 & Hd0 & Hin0).
  assert (Hg : g <> []).
  { intros He. assert (Hd : d0 ∈ g) by (by apply list_elem_of_filter). rewrite He in Hd.
    by apply not_elem_of_nil in Hd. }
  destruct (weighted_choice_some r g Hg) as (d & -> & Hd). apply list_elem_of_filter in Hd as [Hdp Hd].
  exists d. split_and!; [done..|]. intros d' Hd'. rewrite Hdp.
  assert (Hin : priority d' ∈ p :: ps) by (apply Hel; by apply list_elem_of_fmap_2).
  apply StronglySorted_inv in Hs as [_ Hall]. rewrite Forall_forall in Hall.
  apply elem_of_cons in Hin as [->|Hin]; [lia|]. specialize (Hall _ Hin). lia.
Qed.

Lemma rate_limit_objective usage r l :
  match rate_limit_aware_pick utilization_threshold usage r l with
  | Some d => d ∈ l /\ (utilization_in usage d < utilization_threshold)%Q
  | None => forall d, d ∈ l -> (utilization_threshold <= utilization_in usage d)%Q
  end.
Proof.
  unfold rate_limit_aware_pick. set (g := base.filter _ _).
  destruct (weighted_random_choice r g) as [d|] eqn:E.
  - apply weighted_choice_member, list_elem_of_filter in E as [Hlt Hd]. split; [done|].
    by apply Qlt_bool_iff.
  - intros d Hd. destruct (Qlt_bool (utilization_in usage d) utilization_threshold) eqn:El.
    + assert (Hg : d ∈ g) by (by apply list_elem_of_filter).
      destruct (weighted_choice_some r g) as (d' & Hd' & _); [by intros He; rewrite He in Hg; apply not_elem_of_nil in Hg|].
      congruence.
    + by apply Qlt_bool_false.
Qed.

(** The spec of a whole selection, case by case. *)
Lemma select_objective (strategy : RoutingStrategy) (now : Z) (r : draw)
    (l : list Deployment) (s s' : B) (picked : option Deployment) :
  select decay strategy now r l s = (s', Ret picked) ->
  match picked with
  | Some d => d ∈ l /\ meets_objective strategy now s l d
  | None => nothing_to_pick strategy now s l
  end.
Proof.
  intros Hs. destruct (decide (l = [])) as [->|Hl].
  { destruct strategy; simpl in Hs; (assert (picked = None) as -> by (by injection Hs)); by left. }
  assert (Hl' : exists x l', l = x :: l') by (destruct l; [done|eauto]). destruct Hl' as (x & l' & Heq).
  destruct strategy; unfold select in Hs; rewrite ?Heq in Hs; rewrite <- ?Heq in Hs.
  - destruct (random_choice_some r l Hl) as (d & Hd & Hin). rewrite Hd in Hs. by injection Hs as _ <-.
  - apply bind_ret_inv in Hs as (s1 & counts & Hc & [= _ <-]).
    destruct (least_busy_objective counts r l Hl) as (d & -> & Hin & Hmin). split; [done|]. by exists s1, counts.
  - apply bind_ret_inv in Hs as (s1 & windows & Hc & [= _ <-]).
    destruct (latency_objective now windows r l Hl) as (d & -> & Hin & Hmin). split; [done|]. by exists s1, windows.
  - unfold lift_py, lift in Hs. destruct (cost_pick r l) as [res|e] eqn:Ec; [|done].
    injection Hs as _ <-. destruct (cost_objective r l res Hl Ec) as (d & -> & Hin & Hobj). done.
  - apply bind_ret_inv in Hs as (s1 & usage & Hc & Hs).
    destruct (usage_objective usage r l Hl) as (d & Hu & Hin & Hmin).
    unfold lift_py, lift in Hs. rewrite Hu in Hs. injection Hs as _ <-. split; [done|]. by exists s1, usage.
  - destruct (weighted_choice_some r l Hl) as (d & Hd & Hin). rewrite Hd in Hs. by injection Hs as _ <-.
  - destruct (priority_objective r l Hl) as (d & Hd & Hin & Hmin). rewrite Hd in Hs. by injection Hs as _ <-.
  - destruct (weighted_choice_some r l Hl) as (d & Hd & Hin). rewrite Hd in Hs. by injection Hs as _ <-.
  - apply bind_ret_inv in Hs as (s1 & usage & Hc & [= _ <-]).
    pose proof (rate_limit_objective usage r l) as Hobj.
    destruct (rate_limit_aware_pick _ usage r l) as [d|].
    + destruct Hobj as [Hin Hlt]. split; [done|]. by exists s1, usage.
    + right. split; [done|]. by exists s1, usage.
Qed.

Lemma select_member strategy now r l s s' d :
  select decay strategy now r l s = (s', Ret (Some d)) -> d ∈ l.
Proof. intros Hs. exact (proj1 (select_objective strategy now r l s s' (Some d) Hs)). Qed.

(** Whatever strategy runs: when its backend reads succeed, the deployment
    it picks is one of those it was given and meets the strategy's objective —
    least active requests, least weighted latency among the sampled ones,
    least estimated cost, least utilization, least priority value, or a
    utilization below the threshold — and it picks nothing only from an empty
    list or, for the rate-limit aware strategy, when every deployment is at or
    above the threshold. *)
Theorem strategy_meets_objective (strategy : RoutingStrategy) (now : Z) (r : draw)
    (l : list Deployment) (s s' : B) (picked : option Deployment) :
  select decay strategy now r l s = (s', Ret picked) ->
  match picked with
  | Some d => d ∈ l /\ meets_objective strategy now s l d
  | None => nothing_to_pick strategy now s l
  end.
Proof. apply select_objective. Qed.
End objectives.

#[local] Existing Instances no_server no_rendering no_repr.

Lemma strategy_meets_objective_witness :
  exists d s', select (fun _ => 1%Q) LEAST_BUSY 5 (mkDraw 1 0)
                 [sample_deployment "a" 1 0; sample_deployment "b" 1 0]
                 (fst (increment_active 1 "a" offline)) = (s', Ret (Some d)) /\
               d ∈ [sample_deployment "a" 1 0; sample_deployment "b" 1 0].
Proof.
  do 2 eexists. split; [vm_compute; reflexivity|].
  refine (proj1 (strategy_meets_objective (fun _ => 1%Q) LEAST_BUSY 5 (mkDraw 1 0) _
    (fst (increment_active 1 "a" offline)) _ (Some _) _)).
  vm_compute. reflexivity.
Defined.
