(* ===== verification/Router.v ===== *)
(** * Deployment selection: src/router/router.py

    The deployment registry and the route-group policies built from the
    configuration, the eligibility filters, and [Router.select_deployment]
    with the decision it records in the request context. *)

From S2P Require Import Prelude PyVal Errors Billing RouterState Backend Strategies.

(** ** Configuration *)

Record RouteGroupPolicy : Type := mkPolicy {
  gp_strategy : option RoutingStrategy;
  gp_policy_version : option Z;
  gp_timeout_seconds : option pyfloat;
  gp_retry_max_attempts : option Z;
  gp_retryable_error_classes : option (gset string)
}.

Record RouterConfig : Type := mkRouterConfig {
  num_retries : Z;
  retry_after : Q;
  timeout : Q;
  cooldown_time : Z;
  allowed_fails : Z;
  enable_pre_call_checks : bool;
  model_group_alias : gmap string string;
  route_group_policies : list (string * RouteGroupPolicy)
}.

(** What [failover_overrides] puts in the request context; an absent field is
    an absent key. *)
Record overrides : Type := mkOverrides {
  ov_timeout_seconds : option pyfloat;
  ov_retry_max_attempts : option Z;
  ov_retryable_error_classes : option (gset string)
}.

Definition failover_overrides (p : RouteGroupPolicy) : overrides :=
  mkOverrides (gp_timeout_seconds p) (gp_retry_max_attempts p)
    (match gp_retryable_error_classes p with
     | Some cs => if decide (cs = ∅) then None else Some cs
     | None => None
     end).

Definition no_overrides (o : overrides) : bool :=
  match o with mkOverrides None None None => true | _ => false end.

(** ** The request context *)

Inductive route_reason : Type :=
  no_candidates | no_eligible_candidates | selected | strategy_returned_none.

Record route_decision : Type := mkDecision {
  dec_model_group : string;
  dec_strategy : RoutingStrategy;
  dec_policy_version : option Z;
  dec_timeout_seconds : option pyfloat;
  dec_retry_max_attempts : option Z;
  dec_candidate_count : nat;
  dec_healthy_count : nat;
  dec_filtered_count : nat;
  dec_selected : option string;
  dec_reason : route_reason
}.

Record request_context : Type := mkContext {
  ctx_metadata : pyval;
  ctx_route_policy : option overrides;
  ctx_route_decision : option route_decision
}.

(** ** Building the registry *)

Definition registry : Type := list (string * list Deployment).

(** [dict(v)] of a configuration value. *)
Definition as_dict (v : pyval) : res pyexc pydict :=
  match v with PyDict d => Ret d | PyList [] => Ret [] | _ => Raise TypeError end.

(** [list(v)] *)
Definition as_list (v : pyval) : res pyexc (list pyval) :=
  match v with
  | PyList l => Ret l
  | PyStr s => Ret (map (fun a => PyStr (String a EmptyString)) (list_ascii_of_string s))
  | PyDict d => Ret (map (fun kv => PyStr kv.1) d)
  | _ => Raise TypeError
  end.

(** [int(v) if v is not None else None] *)
Definition opt_int (v : pyval) : res pyexc (option Z) :=
  if is_none v then Ret None else n ← py_int v; Ret (Some n).

(** A parameter the configuration model validated as [int | None]. *)
Definition validated_int (v : pyval) : option Z :=
  match v with PyInt n => Some n | PyBool b => Some (if b then 1 else 0) | _ => None end.

(** The string elements of a list, which are the ones a tag can equal; other
    elements only make the list non-empty. *)
Definition tag_texts (l : list pyval) : list string :=
  map (fun v => match v with PyStr s => s | _ => ""%string end) l.

Section build.
Context `{PyRepr}.

Definition deployment_from_entry (model_name : string) (entry : pydict) (index : nat)
    : res pyexc Deployment :=
  params ← as_dict (vget_or entry "deltallm_params" (PyDict []));
  info ← as_dict (vget_or entry "model_info" (PyDict []));
  let explicit := vget entry "deployment_id" in
  let id := if truthy explicit then py_str explicit
            else (model_name +:+ "-" +:+ Str.of_Z (Z.of_nat index))%string in
  weight ← py_int (py_or (vget_or info "weight" (vget_or params "weight" (PyInt 1))) (PyInt 1));
  priority ← py_int (py_or (vget_or info "priority" (PyInt 0)) (PyInt 0));
  tags ← as_list (py_or (vget_or info "tags" (PyList [])) (PyList []));
  input ← py_float (py_or (vget_or info "input_cost_per_token" (PyFloat Fl.zero)) (PyFloat Fl.zero));
  output ← py_float (py_or (vget_or info "output_cost_per_token" (PyFloat Fl.zero)) (PyFloat Fl.zero));
  rpm ← opt_int (vget info "rpm_limit");
  tpm ← opt_int (vget info "tpm_limit");
  image ← opt_int (vget info "image_pm_limit");
  audio ← opt_int (vget info "audio_seconds_pm_limit");
  char ← opt_int (vget info "char_pm_limit");
  rerank ← opt_int (vget info "rerank_units_pm_limit");
  Ret (mkDeployment id model_name params info weight priority (tag_texts tags) input output
         (match rpm with Some _ => rpm | None => validated_int (vget params "rpm") end)
         (match tpm with Some _ => tpm | None => validated_int (vget params "tpm") end)
         image audio char rerank).

Fixpoint deployments_from_entries (model_name : string) (index : nat) (entries : list pydict)
    : res pyexc (list Deployment) :=
  match entries with
  | [] => Ret []
  | e :: es =>
    d ← deployment_from_entry model_name e index;
    ds ← deployments_from_entries model_name (S index) es;
    Ret (d :: ds)
  end.

(** The first loop: the registry by model, and the deployments by id. *)
Fixpoint register_models (models : list (string * list pydict)) (reg : registry)
    (by_id : gmap string Deployment) : res pyexc (registry * gmap string Deployment) :=
  match models with
  | [] => Ret (reg, by_id)
  | (name, entries) :: models' =>
    ds ← deployments_from_entries name 0 entries;
    register_models models' (dict_set reg name ds)
      (foldl (fun m d => <[deployment_id d := d]> m) by_id ds)
  end.

Definition with_overrides (d : Deployment) (w p : Z) : Deployment :=
  mkDeployment (deployment_id d) (model_name d) (deltallm_params d) (model_info d) w p (tags d)
    (dep_input_cost_per_token d) (dep_output_cost_per_token d) (rpm_limit d) (tpm_limit d)
    (image_pm_limit d) (audio_seconds_pm_limit d) (char_pm_limit d) (rerank_units_pm_limit d).

(** One member of a route group: nothing when it is disabled or unknown. *)
Definition group_member (by_id : gmap string Deployment) (member : pyval)
    : res pyexc (option Deployment) :=
  match member with
  | PyDict m =>
    if negb (truthy (vget_or m "enabled" (PyBool true))) then Ret None
    else
      let id := Str.strip (py_str (py_or (vget m "deployment_id") (PyStr ""))) in
      if Str.is_empty id then Ret None
      else match by_id !! id with
           | None => Ret None
           | Some base =>
             w ← opt_int (vget m "weight");
             p ← opt_int (vget m "priority");
             Ret (Some (with_overrides base (default (weight base) w) (default (priority base) p)))
           end
  | _ => Ret None
  end.

Fixpoint group_members (by_id : gmap string Deployment) (members : list pyval)
    : res pyexc (list Deployment) :=
  match members with
  | [] => Ret []
  | m :: ms =>
    d ← group_member by_id m;
    ds ← group_members by_id ms;
    Ret (match d with Some d => d :: ds | None => ds end)
  end.

(** [str(group.get("key") or "").strip()], and whether the group is enabled. *)
Definition group_key (group : pydict) : string := Str.strip (py_str (py_or (vget group "key") (PyStr ""))).
Definition group_enabled (group : pydict) : bool := truthy (vget_or group "enabled" (PyBool true)).

Fixpoint register_groups (by_id : gmap string Deployment) (groups : list pydict) (reg : registry)
    : res pyexc registry :=
  match groups with
  | [] => Ret reg
  | g :: gs =>
    let key := group_key g in
    if Str.is_empty key || negb (group_enabled g) then register_groups by_id gs reg
    else
      members ← as_list (py_or (vget g "members") (PyList []));
      ds ← group_members by_id members;
      register_groups by_id gs (match ds with [] => reg | _ => dict_set reg key ds end)
  end.

Definition build_deployment_registry_with_route_groups (models : list (string * list pydict))
    (route_groups : list pydict) : res pyexc registry :=
  p ← register_models models [] ∅;
  register_groups p.2 route_groups p.1.

Definition build_deployment_registry := build_deployment_registry_with_route_groups.

(** ** Route-group policies *)

Definition strategy_value (s : RoutingStrategy) : string :=
  match s with
  | SIMPLE_SHUFFLE => "simple-shuffle" | LEAST_BUSY => "least-busy"
  | LATENCY_BASED => "latency-based-routing" | COST_BASED => "cost-based-routing"
  | USAGE_BASED => "usage-based-routing" | TAG_BASED => "tag-based-routing"
  | PRIORITY_BASED => "priority-based-routing" | WEIGHTED => "weighted"
  | RATE_LIMIT_AWARE => "rate-limit-aware"
  end.
Definition all_strategies : list RoutingStrategy :=
  [SIMPLE_SHUFFLE; LEAST_BUSY; LATENCY_BASED; COST_BASED; USAGE_BASED; TAG_BASED; PRIORITY_BASED;
   WEIGHTED; RATE_LIMIT_AWARE].
Definition strategy_of_value (v : pyval) : option RoutingStrategy :=
  match v with
  | PyStr s => find (fun r => String.eqb (strategy_value r) s) all_strategies
  | _ => None
  end.

(** [float(v)], only positive values; [OverflowError] is not caught. *)
Definition positive_float (v : pyval) (scale : Q) : res pyexc (option pyfloat) :=
  match py_float v with
  | Raise OverflowError => Raise OverflowError
  | Raise _ => Ret None
  | Ret x => Ret (if Fl.positive x then Some (Fl.mul x (FFin scale)) else None)
  end.

Definition extract_timeout_seconds (timeouts : pyval) : res pyexc (option pyfloat) :=
  match timeouts with
  | PyDict t =>
    let seconds := vget t "global_seconds" in
    if negb (is_none seconds) then positive_float seconds 1
    else
      let ms := vget t "global_ms" in
      if is_none ms then Ret None else positive_float ms (1 # 1000)
  | _ => Ret None
  end.

Definition extract_retry_max_attempts (retry : pyval) : res pyexc (option Z) :=
  match retry with
  | PyDict t =>
    let v := vget t "max_attempts" in
    if is_none v then Ret None
    else match py_int v with
         | Raise OverflowError => Raise OverflowError
         | Raise _ => Ret None
         | Ret n => Ret (if 0 <=? n then Some n else None)
         end
  | _ => Ret None
  end.

Definition extract_retryable_error_classes (retry : pyval) : option (gset string) :=
  match retry with
  | PyDict t =>
    match vget t "retryable_error_classes" with
    | PyList l =>
      let normalized := list_to_set (filter (fun s => Str.is_empty s = false)
                                       (map (fun v => Str.strip (py_str v)) l)) in
      if decide (normalized = ∅) then None else Some normalized
    | _ => None
    end
  | _ => None
  end.

Fixpoint build_route_group_policies_from (groups : list pydict)
    (policies : list (string * RouteGroupPolicy)) : res pyexc (list (string * RouteGroupPolicy)) :=
  match groups with
  | [] => Ret policies
  | g :: gs =>
    let key := group_key g in
    if Str.is_empty key || negb (group_enabled g) then build_route_group_policies_from gs policies
    else
      version ← opt_int (vget g "policy_version");
      seconds ← extract_timeout_seconds (vget g "timeouts");
      attempts ← extract_retry_max_attempts (vget g "retry");
      build_route_group_policies_from gs
        (dict_set policies key
           (mkPolicy (strategy_of_value (vget g "strategy")) version seconds attempts
              (extract_retryable_error_classes (vget g "retry"))))
  end.

Definition build_route_group_policies (groups : list pydict) := build_route_group_policies_from groups [].

(** ** Router *)

Record Router : Type := mkRouter {
  r_strategy : RoutingStrategy;
  r_config : RouterConfig;
  r_registry : registry
}.

Definition resolve_model_group (r : Router) (model_name : string) : string :=
  default model_name (model_group_alias (r_config r) !! model_name).

Definition get_candidates (r : Router) (model_group : string) : list Deployment :=
  default [] (dict_get (r_registry r) model_group).

Definition resolve_strategy_for_group (r : Router) (model_group : string)
    : RoutingStrategy * option RouteGroupPolicy :=
  let policy := dict_get (route_group_policies (r_config r)) model_group in
  (match policy with
   | Some p => default (r_strategy r) (gp_strategy p)
   | None => r_strategy r
   end, policy).

(** [_attach_route_policy_context] *)
Definition attach_route_policy_context (ctx : request_context) (policy : option RouteGroupPolicy)
    : request_context :=
  let o := match policy with
           | Some p => let o := failover_overrides p in if no_overrides o then None else Some o
           | None => None
           end in
  mkContext (ctx_metadata ctx) o (ctx_route_decision ctx).

Definition record_route_decision (ctx : request_context) (d : route_decision) : request_context :=
  mkContext (ctx_metadata ctx) (ctx_route_policy ctx) (Some d).

(** The request's tags: the non-blank strings of [metadata.tags], stripped. *)
Definition normalized_tags (metadata : pyval) : list string :=
  match metadata with
  | PyDict m =>
    match vget m "tags" with
    | PyList l => omap (fun v => match v with
                                 | PyStr s => let t := Str.strip s in if Str.is_empty t then None else Some t
                                 | _ => None
                                 end) l
    | _ => []
    end
  | _ => []
  end.

Definition has_tags (wanted : list string) (d : Deployment) : bool :=
  forallb (fun t => bool_decide (t ∈ tags d)) wanted.

(** [_apply_filters]; an untagged deployment cannot carry the request's tags. *)
Definition apply_filters (l : list Deployment) (ctx : request_context) : list Deployment :=
  match normalized_tags (ctx_metadata ctx) with
  | [] => l
  | wanted => filter (fun d => negb (bool_decide (tags d = [])) && has_tags wanted d = true) l
  end.

(** [health.get("healthy", "true") == "false"] *)
Definition marked_unhealthy (h : gmap string string) : bool :=
  String.eqb (default "true"%string (h !! "healthy"%string)) "false".

Context {B : Type} `{DeploymentStateBackend B} (decay : Q -> Q).

(** The loop of [_filter_healthy], with the health read beforehand. *)
Fixpoint filter_not_cooled (now : Z) (health : gmap string (gmap string string)) (l : list Deployment)
    : st B exn (list Deployment) :=
  match l with
  | [] => mret []
  | d :: l' =>
    cooled ← be_is_cooled_down now (deployment_id d);
    rest ← filter_not_cooled now health l';
    mret (if (cooled : bool) then rest
          else if marked_unhealthy (default ∅ (health !! deployment_id d)) then rest
          else d :: rest)
  end.

Definition filter_healthy (now : Z) (l : list Deployment) : st B exn (list Deployment) :=
  match l with
  | [] => mret []
  | _ => health ← be_get_health_batch now (ids_of l); filter_not_cooled now health l
  end.

Definition apply_pre_call_checks (now : Z) (l : list Deployment) : st B exn (list Deployment) :=
  match l with
  | [] => mret []
  | _ => usage ← be_get_usage_batch now (ids_of l);
         mret (filter (fun d => usage_within_limits d (usage_of_id usage d) = true) l)
  end.

(** [select_deployment]: the picked deployment and the request context. *)
Definition select_deployment (r : Router) (now : Z) (rand : draw) (model_group : string)
    (ctx : request_context) : st B exn (option Deployment * request_context) :=
  let candidates := get_candidates r model_group in
  let '(strategy, policy) := resolve_strategy_for_group r model_group in
  let ctx := attach_route_policy_context ctx policy in
  let decide_ (n h f : nat) (sel : option string) (reason : route_reason) :=
    record_route_decision ctx
      (mkDecision model_group strategy (policy ≫= gp_policy_version) (policy ≫= gp_timeout_seconds)
         (policy ≫= gp_retry_max_attempts) n h f sel reason) in
  match candidates with
  | [] => mret (None, decide_ 0%nat 0%nat 0%nat None no_candidates)
  | _ =>
    healthy ← filter_healthy now candidates;
    let filtered := apply_filters healthy ctx in
    checked ← (if enable_pre_call_checks (r_config r) then apply_pre_call_checks now filtered
                else mret filtered);
    match checked with
    | [] => mret (None, decide_ (length candidates) (length healthy) 0%nat None no_eligible_candidates)
    | _ =>
      picked ← select decay strategy now rand checked;
      mret (picked, decide_ (length candidates) (length healthy) (length checked)
                      (option_map deployment_id picked)
                      (match picked with Some _ => selected | None => strategy_returned_none end))
    end
  end.

(** [require_deployment] *)
Definition require_deployment (r : Router) (model_group : string) (d : option Deployment)
    : res exn Deployment :=
  match d with
  | Some d => Ret d
  | None =>
    match get_candidates r model_group with
    | _ :: _ => Raise (EProxy (mk_proxy ServiceUnavailableError
        (Some ("No healthy deployments available for model '" +:+ model_group +:+ "'"))
        None (Some NO_HEALTHY_DEPLOYMENTS_CODE) None None))
    | [] => Raise (EProxy (mk_proxy ModelNotFoundError
        (Some ("Model '" +:+ model_group +:+ "' is not configured")) None
        (Some "model_not_found"%string) None None))
    end
  end.
End build.

(** ** What the pre-call checks compare *)

Section limits.
Context `{PyRepr}.

(** The counters of a deployment's mode, each with its limit. *)
Definition counted_limits (d : Deployment) : list (string * option Z) :=
  let mode := deployment_mode d in
  ("rpm"%string, rpm_limit d) ::
  (if bool_decide (mode = "image_generation"%string) then [("image_pm"%string, image_pm_limit d)]
   else if bool_decide (mode = "audio_speech"%string \/ mode = "audio_transcription"%string)
        then [("audio_seconds_pm"%string, audio_seconds_pm_limit d); ("char_pm"%string, char_pm_limit d)]
   else if bool_decide (mode = "rerank"%string) then [("rerank_units_pm"%string, rerank_units_pm_limit d)]
   else [("tpm"%string, tpm_limit d)]).

(** Every positive limit is above what was counted. *)
Definition below_limits (d : Deployment) (usage : gmap string Z) : Prop :=
  forall name l, (name, Some l) ∈ counted_limits d -> 0 < l -> default 0 (usage !! name) < l.

Lemma foldl_max_lt (l : list Q) x y :
  (foldl (fun m z => if Qlt_bool m z then z else m) x l < y)%Q <-> (x < y)%Q /\ Forall (fun z => (z < y)%Q) l.
Proof.
  revert x. induction l as [|z l IH]; intros x; cbn [foldl]; [split; [by split|by intros []]|].
  rewrite IH, Forall_cons. destruct (Qlt_bool x z) eqn:E; [apply Qlt_bool_iff in E|apply Qlt_bool_false in E].
  - split; [intros [Hz Hl]; split_and!; [lra|lra|done]|by intros (_ & Hz & Hl)].
  - split; [intros [Hx Hl]; split_and!; [lra|lra|done]|by intros (Hx & _ & Hl)].
Qed.

Lemma max_default0_lt (l : list Q) y : (0 < y)%Q -> (max_default0 l < y)%Q <-> Forall (fun z => (z < y)%Q) l.
Proof. intros Hy. destruct l as [|x l]; cbn; [split; [constructor|done]|]. by rewrite foldl_max_lt, Forall_cons. Qed.

Lemma limited_lt usage name limit_ :
  Forall (fun z => (z < 1)%Q) (limited usage name limit_) <->
  forall l, limit_ = Some l -> 0 < l -> default 0 (usage !! name) < l.
Proof.
  unfold limited, calc_utilization. destruct limit_ as [l|]; [|split; [done|constructor]].
  rewrite Forall_singleton. change (usage_get usage name) with (default 0 (usage !! name)). destruct (Z.leb_spec l 0) as [Hl|Hl].
  - split; [intros _ l' [= <-]; lia|]. intros _. lra.
  - assert (E : (inject_Z (default 0%Z (usage !! name)) / inject_Z l < 1)%Q <-> default 0 (usage !! name) < l).
    { assert (Hq : (0 < inject_Z l)%Q) by (change 0%Q with (inject_Z 0); by rewrite <- Zlt_Qlt).
      rewrite Zlt_Qlt. split; intros Hu.
      - apply (Qmult_lt_r _ _ (inject_Z l)) in Hu; [|done]. rewrite Qmult_1_l in Hu.
        unfold Qdiv in Hu. rewrite <- Qmult_assoc, (Qmult_comm (/ _)), Qmult_inv_r, Qmult_1_r in Hu; [done|lra].
      - apply Qlt_shift_div_r; [done|]. by rewrite Qmult_1_l. }
    rewrite E. naive_solver.
Qed.

Lemma usage_within_limits_spec d usage : usage_within_limits d usage = true <-> below_limits d usage.
Proof.
  unfold usage_within_limits, usage_utilization_for_deployment, below_limits, counted_limits.
  rewrite Qlt_bool_iff, max_default0_lt by lra. cbv zeta. set (mode := deployment_mode d).
  assert (Hone : forall a la, (forall name l, (name, Some l) ∈ [(a, la)] -> 0 < l -> default 0 (usage !! name) < l) <->
    forall l, la = Some l -> 0 < l -> default 0 (usage !! a) < l) by set_solver.
  assert (Hcons : forall a la rest, (forall name l, (name, Some l) ∈ (a, la) :: rest -> 0 < l -> default 0 (usage !! name) < l) <->
    (forall l, la = Some l -> 0 < l -> default 0 (usage !! a) < l) /\
    (forall name l, (name, Some l) ∈ rest -> 0 < l -> default 0 (usage !! name) < l)) by set_solver.
  rewrite Hcons, Forall_app, limited_lt. apply and_iff_compat_l.
  clearbody mode. assert (Hno : forall s t : string, s <> t -> bool_decide (s = t) = false) by (intros; by apply bool_decide_false).
  assert (Hno2 : forall s t u : string, s <> t -> s <> u -> bool_decide (s = t \/ s = u) = false)
    by (intros; apply bool_decide_false; tauto).
  destruct (String.eqb_spec mode "chat") as [->|N1]; [cbn [orb]; by rewrite !Hno, Hno2, Hone, limited_lt|].
  destruct (String.eqb_spec mode "embedding") as [->|N2]; [cbn [orb]; by rewrite !Hno, Hno2, Hone, limited_lt|]. cbn [orb].
  destruct (String.eqb_spec mode "image_generation") as [->|N3]; [by rewrite bool_decide_true, Hone, limited_lt|].
  rewrite (Hno mode "image_generation") by done.
  destruct (String.eqb_spec mode "audio_speech") as [E|N4], (String.eqb_spec mode "audio_transcription") as [E'|N5]; cbn [orb];
    try (rewrite (bool_decide_true (_ \/ _)) by auto; by rewrite Hcons, Hone, Forall_app, !limited_lt).
  rewrite Hno2 by done.
  destruct (String.eqb_spec mode "rerank") as [->|N6]; [by rewrite bool_decide_true, Hone, limited_lt|].
  by rewrite Hno, Hone, limited_lt.
Qed.
End limits.

(** ** The registry holds configured deployments only *)

Section registry_facts.
Context `{PyRepr}.
Context (models : list (string * list pydict)).

(** The deployment a configuration entry describes. *)
Definition configured (d : Deployment) : Prop := exists name entries i e,
  (name, entries) ∈ models /\ entries !! i = Some e /\ deployment_from_entry name e i = Ret d.

(** The same deployment up to the weight and priority of a group member. *)
Definition derived (d : Deployment) : Prop := exists base,
  configured base /\ d = with_overrides base (weight d) (priority d).

Lemma with_overrides_same d : d = with_overrides d (weight d) (priority d).
Proof. by destruct d. Qed.

Lemma configured_derived d : configured d -> derived d.
Proof. intros Hd. exists d. split; [done|apply with_overrides_same]. Qed.

Lemma entries_configured name off entries ds d :
  deployments_from_entries name off entries = Ret ds -> d ∈ ds ->
  exists i e, entries !! i = Some e /\ deployment_from_entry name e (off + i) = Ret d.
Proof.
  revert off ds. induction entries as [|e es IH]; intros off ds Hds Hd.
  - apply ret_inj in Hds as <-. by apply not_elem_of_nil in Hd.
  - apply res_bind_ret in Hds as (x & Hx & Hds). apply res_bind_ret in Hds as (xs & Hxs & <-%ret_inj).
    apply elem_of_cons in Hd as [->|Hd].
    + exists 0%nat, e. by rewrite Nat.add_0_r.
    + destruct (IH _ _ Hxs Hd) as (i & e' & Hi & He'). exists (S i), e'.
      by rewrite Nat.add_succ_r.
Qed.

Definition all_derived (reg : registry) : Prop :=
  forall key ds d, dict_get reg key = Some ds -> d ∈ ds -> derived d.

Lemma all_derived_set reg key ds :
  all_derived reg -> (forall d, d ∈ ds -> derived d) -> all_derived (dict_set reg key ds).
Proof.
  intros Hreg Hds k ds' d Hget Hd. destruct (decide (key = k)) as [->|Hne].
  - rewrite dict_get_set in Hget. injection Hget as <-. auto.
  - rewrite dict_get_set_ne in Hget by done. eauto.
Qed.

Lemma register_models_derived ms reg by_id reg' by_id' :
  (forall m, m ∈ ms -> m ∈ models) -> all_derived reg ->
  (forall id d, by_id !! id = Some d -> configured d /\ deployment_id d = id) ->
  register_models ms reg by_id = Ret (reg', by_id') ->
  all_derived reg' /\ (forall id d, by_id' !! id = Some d -> configured d /\ deployment_id d = id).
Proof.
  revert reg by_id. induction ms as [|[name entries] ms IH]; intros reg by_id Hms Hreg Hid Heq.
  - apply ret_inj in Heq. by injection Heq as <- <-.
  - apply res_bind_ret in Heq as (ds & Hds & Heq).
    assert (Hconf : forall d, d ∈ ds -> configured d).
    { intros d Hd. destruct (entries_configured _ _ _ _ _ Hds Hd) as (i & e & Hi & He).
      exists name, entries, i, e. split_and!; [apply Hms; by left|done|done]. }
    apply (IH (dict_set reg name ds) (foldl (fun m d => <[deployment_id d := d]> m) by_id ds)); [| | |done].
    + intros m Hm. apply Hms. by right.
    + apply all_derived_set; [done|]. auto using configured_derived.
    + clear -Hid Hconf. revert by_id Hid. induction ds as [|d ds IHd]; intros by_id Hid; [done|].
      apply IHd; [intros d' Hd'; apply Hconf; by right|].
      intros id d' Hl. destruct (decide (deployment_id d = id)) as [Hi|Hne].
      * rewrite Hi, lookup_insert_eq in Hl. injection Hl as <-. split; [|done]. apply Hconf. by left.
      * rewrite lookup_insert_ne in Hl by done. auto.
Qed.

Lemma group_members_derived by_id members ds d :
  (forall id d, by_id !! id = Some d -> configured d /\ deployment_id d = id) ->
  group_members by_id members = Ret ds -> d ∈ ds -> derived d.
Proof.
  intros Hid. revert ds. induction members as [|m ms IH]; intros ds Hds Hd.
  - apply ret_inj in Hds as <-. by apply not_elem_of_nil in Hd.
  - apply res_bind_ret in Hds as (o & Ho & Hds). apply res_bind_ret in Hds as (rest & Hrest & <-%ret_inj).
    destruct o as [x|]; [|by eapply IH]. apply elem_of_cons in Hd as [->|Hd]; [|by eapply IH].
    clear IH Hrest. unfold group_member in Ho. destruct m as [| | | | | |m]; try done.
    destruct (negb _); [done|]. destruct (Str.is_empty _); [done|].
    destruct (by_id !! _) as [base|] eqn:Eb; [|done].
    apply res_bind_ret in Ho as (w & _ & Ho). apply res_bind_ret in Ho as (p & _ & Ho%ret_inj).
    injection Ho as <-. exists base. split; [by apply (Hid _ _ Eb)|by destruct base].
Qed.

Lemma register_groups_derived by_id groups reg reg' :
  (forall id d, by_id !! id = Some d -> configured d /\ deployment_id d = id) ->
  all_derived reg -> register_groups by_id groups reg = Ret reg' -> all_derived reg'.
Proof.
  intros Hid. revert reg. induction groups as [|g gs IH]; intros reg Hreg Heq.
  - by apply ret_inj in Heq as <-.
  - simpl in Heq. destruct (_ || _); [by eapply IH|].
    apply res_bind_ret in Heq as (members & _ & Heq). apply res_bind_ret in Heq as (ds & Hds & Heq).
    eapply IH; [|exact Heq].
    destruct ds as [|d ds]; [done|]. apply all_derived_set; [done|].
    intros d' Hd'. by eapply group_members_derived.
Qed.
End registry_facts.

(** The deployment registry holds only configured deployments: every
    deployment listed under a model name or a route-group key is the one some
    entry of the model registry describes, with at most its weight and
    priority replaced by a group member's overrides. *)
Theorem registry_from_configuration `{PyRepr} (models : list (string * list pydict))
    (route_groups : list pydict) (reg : registry) (key : string) (ds : list Deployment) (d : Deployment) :
  build_deployment_registry models route_groups = Ret reg ->
  dict_get reg key = Some ds -> d ∈ ds ->
  exists name entries i e base,
    (name, entries) ∈ models /\ entries !! i = Some e /\ deployment_from_entry name e i = Ret base /\
    d = with_overrides base (weight d) (priority d).
Proof.
  intros Hb Hget Hd. apply res_bind_ret in Hb as ([reg0 by_id] & Hm & Hg).
  destruct (register_models_derived models models [] ∅ reg0 by_id) as [Hreg Hid]; try done.
  destruct (register_groups_derived models by_id route_groups reg0 reg Hid Hreg Hg key ds d Hget Hd)
    as (base & (name & entries & i & e & Hin & Hi & He) & Heq).
  by exists name, entries, i, e, base.
Qed.

#[local] Existing Instances no_server no_rendering no_repr.

Definition sample_models : list (string * list pydict) :=
  [("gpt"%string, [[("deployment_id"%string, PyStr "d1")]; []])].
Definition sample_groups : list pydict :=
  [[("key"%string, PyStr " team "); ("members"%string,
      PyList [PyDict [("deployment_id"%string, PyStr "gpt-1"); ("weight"%string, PyInt 7)]; PyStr "x"])]].

Lemma registry_from_configuration_witness :
  exists reg ds d, build_deployment_registry sample_models sample_groups = Ret reg /\
    dict_get reg "team" = Some ds /\ d ∈ ds /\ weight d = 7 /\
    exists base, d = with_overrides base 7 0.
Proof.
  destruct (build_deployment_registry sample_models sample_groups) as [reg|e] eqn:Er; [|vm_compute in Er; done].
  destruct (dict_get reg "team") as [ds|] eqn:Ed; [|vm_compute in Er; injection Er as <-; vm_compute in Ed; done].
  destruct ds as [|d ds]; [vm_compute in Er; injection Er as <-; vm_compute in Ed; done|].
  destruct (registry_from_configuration sample_models sample_groups reg "team" (d :: ds) d Er Ed ltac:(left))
    as (name & entries & i & e & base & _ & _ & _ & Hd).
  exists reg, (d :: ds), d.
  assert (Hw : weight d = 7 /\ priority d = 0).
  { vm_compute in Er. injection Er as <-. vm_compute in Ed. injection Ed as <- _. done. }
  destruct Hw as [Hw Hp]. split_and!; [done|done|by left|done|]. exists base. congruence.
Defined.

(** ** Eligibility *)

Section eligibility.
Context `{PyRepr} {B : Type} `{DeploymentStateBackend B} (decay : Q -> Q).

(** The answers of one pass that asks about each of [ids], in order. *)
Fixpoint cooldown_answers (now : Z) (ids : list string) : st B exn (list bool) :=
  match ids with
  | [] => mret []
  | id :: ids' => a ← be_is_cooled_down now id; rest ← cooldown_answers now ids'; mret (a :: rest)
  end.

(** The health the backend reported does not say "false". *)
Definition not_unhealthy (health : gmap string (gmap string string)) (id : string) : Prop :=
  (health !! id ≫= fun h => h !! "healthy"%string) <> Some "false"%string.

Lemma marked_unhealthy_spec health id : marked_unhealthy (default ∅ (health !! id)) = false <-> not_unhealthy health id.
Proof.
  unfold marked_unhealthy, not_unhealthy. rewrite String.eqb_neq.
  destruct (health !! id) as [h|]; cbn; [|by rewrite lookup_empty]. destruct (h !! "healthy"%string) as [t|]; cbn; [|done].
  split; [by intros H' [= ->]|congruence].
Qed.

Lemma filter_not_cooled_spec now health l s s' l' :
  filter_not_cooled (B := B) now health l s = (s', Ret l') ->
  sublist l' l /\ exists answers, cooldown_answers now (ids_of l) s = (s', Ret answers) /\
    forall d, d ∈ l' -> exists i, l !! i = Some d /\ answers !! i = Some false /\ not_unhealthy health (deployment_id d).
Proof.
  revert s s' l'. induction l as [|x l IH]; intros s s' l' Heq.
  - injection Heq as <- <-. split; [constructor|]. exists []. split; [done|]. intros d Hd. by apply not_elem_of_nil in Hd.
  - apply bind_ret_inv in Heq as (s1 & cooled & Hc & Heq). apply bind_ret_inv in Heq as (s2 & rest & Hr & Heq).
    destruct (IH _ _ _ Hr) as (Hsub & answers & Ha & Hall). injection Heq as <- <-.
    assert (Hrest : forall d, d ∈ rest -> exists i, (x :: l) !! i = Some d /\ (cooled :: answers) !! i = Some false /\
      not_unhealthy health (deployment_id d)) by (intros d Hd; destruct (Hall d Hd) as (i & Hi); by exists (S i)).
    assert (Hans : cooldown_answers now (ids_of (x :: l)) s = (s2, Ret (cooled :: answers))).
    { unfold ids_of in *. cbn [map cooldown_answers]. unfold mbind, st_bind. by rewrite Hc, Ha. }
    destruct cooled; [split; [by constructor|by exists (true :: answers)]|].
    destruct (marked_unhealthy _) eqn:Em; [split; [by constructor|by exists (false :: answers)]|].
    split; [by constructor|]. exists (false :: answers). split; [done|].
    intros d [->|Hd]%elem_of_cons; [|auto]. exists 0%nat. split_and!; [done|done|by apply marked_unhealthy_spec].
Qed.

(** What the health filter asked, and what it kept. *)
Lemma filter_healthy_spec now l s s' l' :
  filter_healthy (B := B) now l s = (s', Ret l') ->
  sublist l' l /\ (l <> [] -> exists s1 health answers,
    be_get_health_batch now (ids_of l) s = (s1, Ret health) /\ cooldown_answers now (ids_of l) s1 = (s', Ret answers) /\
    forall d, d ∈ l' -> exists i, l !! i = Some d /\ answers !! i = Some false /\ not_unhealthy health (deployment_id d)).
Proof.
  unfold filter_healthy. destruct l as [|x l].
  - intros [= _ <-]. by split; [constructor|].
  - intros Heq. apply bind_ret_inv in Heq as (s1 & health & Hh & Heq).
    destruct (filter_not_cooled_spec _ _ _ _ _ _ Heq) as (Hsub & answers & Ha & Hall). split; [done|].
    intros _. by exists s1, health, answers.
Qed.

Lemma apply_filters_spec l ctx :
  sublist (apply_filters l ctx) l /\
  forall d, d ∈ apply_filters l ctx -> forall t, t ∈ normalized_tags (ctx_metadata ctx) -> t ∈ tags d.
Proof.
  unfold apply_filters. destruct (normalized_tags (ctx_metadata ctx)) as [|t ts].
  { split; [done|]. by intros d _ t ?%not_elem_of_nil. }
  split; [apply sublist_filter|]. intros d [Hp Hd]%list_elem_of_filter u Hu.
  apply andb_true_iff in Hp as [_ Hp]. unfold has_tags in Hp. rewrite forallb_forall in Hp.
  specialize (Hp u (proj1 (list_elem_of_In _ _) Hu)). by apply bool_decide_eq_true in Hp.
Qed.

Lemma pre_call_checks_spec now l s s' l' :
  apply_pre_call_checks (B := B) now l s = (s', Ret l') ->
  sublist l' l /\ forall d, d ∈ l' -> exists usage, be_get_usage_batch now (ids_of l) s = (s', Ret usage) /\
    deployment_id d ∈ ids_of l /\ below_limits d (usage_of_id usage d).
Proof.
  unfold apply_pre_call_checks. destruct l as [|x l].
  - intros [= _ <-]. split; [constructor|]. intros d Hd. by apply not_elem_of_nil in Hd.
  - intros Heq. apply bind_ret_inv in Heq as (s1 & usage & Hu & Heq). injection Heq as <- <-.
    split; [apply sublist_filter|]. intros d [Hp Hd]%list_elem_of_filter. exists usage.
    split_and!; [done|by apply list_elem_of_fmap_2|by apply usage_within_limits_spec].
Qed.

(** [d] passed the checks of a selection that starts in [s]: of the candidates it
    is the [i]-th; the health call in [s] and the cooldown calls after it, for
    the ids of all the candidates, answered for it; its tags include the
    request's; and the usage call that followed, for a list of ids that has
    it, left it below its limits. *)
Definition eligible (r : Router) (now : Z) (group : string) (metadata : pyval) (s : B) (d : Deployment) : Prop :=
  let candidates := get_candidates r group in
  exists s1 health s2 answers i,
    be_get_health_batch now (ids_of candidates) s = (s1, Ret health) /\
    cooldown_answers now (ids_of candidates) s1 = (s2, Ret answers) /\
    candidates !! i = Some d /\ answers !! i = Some false /\ not_unhealthy health (deployment_id d) /\
    (forall t, t ∈ normalized_tags metadata -> t ∈ tags d) /\
    (enable_pre_call_checks (r_config r) = true ->
      exists ids s3 usage, be_get_usage_batch now ids s2 = (s3, Ret usage) /\
        deployment_id d ∈ ids /\ below_limits d (usage_of_id usage d)).

(** C12: [select_deployment] only ever picks an eligible deployment: one of the
    model group's candidates, for which the calls this very selection made to
    the backend -- the health of all the candidates, then the cooldown of each,
    then the usage of those left -- answered that it is not marked unhealthy,
    not cooling down and, when the pre-call checks are on, below every positive
    limit of its mode; and that carries every tag the request asks for.  The
    decision it records counts candidates, healthy and filtered deployments in
    decreasing order, names the picked deployment and says [selected] exactly
    when there is one. *)
Theorem select_deployment_sound (r : Router) (now : Z) (rand : draw) (group : string)
    (ctx ctx' : request_context) (s s' : B) (picked : option Deployment) :
  select_deployment decay r now rand group ctx s = (s', Ret (picked, ctx')) ->
  match picked with Some d => eligible r now group (ctx_metadata ctx) s d | None => True end /\
  exists dec, ctx_route_decision ctx' = Some dec /\
    dec_selected dec = option_map deployment_id picked /\
    (dec_reason dec = selected <-> is_Some picked) /\
    (dec_filtered_count dec <= dec_healthy_count dec <= dec_candidate_count dec)%nat /\
    dec_candidate_count dec = length (get_candidates r group) /\
    (is_Some picked -> (0 < dec_filtered_count dec)%nat).
Proof.
  unfold select_deployment. destruct (resolve_strategy_for_group r group) as [strategy policy].
  set (ctx1 := attach_route_policy_context ctx policy).
  assert (Hnone : forall P : Prop, is_Some (@None Deployment) -> P) by (intros P [? ?]; done).
  assert (Hcs : forall d, d ∈ get_candidates r group -> get_candidates r group <> [])
    by (intros d Hd E; rewrite E in Hd; by apply not_elem_of_nil in Hd).
  destruct (get_candidates r group) as [|c cs] eqn:Ec; [|rewrite <- Ec in *].
  { intros [= _ <- <-]. split; [done|]. eexists. split; [reflexivity|]. simpl.
    split_and!; [done|split; [done|apply Hnone]|lia|lia|done|apply Hnone]. }
  intros Heq. apply bind_ret_inv in Heq as (s1 & healthy & Hh & Heq).
  destruct (filter_healthy_spec _ _ _ _ _ Hh) as [Hsub1 Hall1].
  destruct (apply_filters_spec healthy ctx1) as [Hsub2 Hall2].
  apply bind_ret_inv in Heq as (s2 & checked & Hk & Heq).
  assert (Hk' : sublist checked (apply_filters healthy ctx1) /\
    forall d, d ∈ checked -> enable_pre_call_checks (r_config r) = true ->
      exists ids s3 usage, be_get_usage_batch now ids s1 = (s3, Ret usage) /\ deployment_id d ∈ ids /\
        below_limits d (usage_of_id usage d)).
  { destruct (enable_pre_call_checks (r_config r)).
    - destruct (pre_call_checks_spec _ _ _ _ _ Hk) as [Hs3 Hu]. split; [done|]. intros d Hd _.
      destruct (Hu d Hd) as (usage & H1 & H2 & H3). by exists (ids_of (apply_filters healthy ctx1)), s2, usage.
    - injection Hk as _ <-. done. }
  destruct Hk' as [Hsub3 Hall3].
  pose proof (sublist_length _ _ Hsub1). pose proof (sublist_length _ _ Hsub2).
  pose proof (sublist_length _ _ Hsub3).
  destruct checked as [|x xs] eqn:Ex; [|rewrite <- Ex in *].
  { injection Heq as _ <- <-. split; [done|]. eexists. split; [reflexivity|]. simpl in *.
    split_and!; [done|split; [done|apply Hnone]|lia|lia|done|apply Hnone]. }
  apply bind_ret_inv in Heq as (s3 & p & Hp & Heq). injection Heq as _ <- <-. split.
  - destruct p as [d|]; [|done].
    assert (Hd : d ∈ checked) by (by eapply (select_member decay)).
    assert (Hf : d ∈ apply_filters healthy ctx1) by (by eapply sublist_elem).
    assert (Hy : d ∈ healthy) by (by eapply sublist_elem).
    assert (Hin : d ∈ get_candidates r group) by (by eapply sublist_elem).
    destruct (Hall1 (Hcs d Hin)) as (s0 & health & answers & Hb & Ha & Hall).
    destruct (Hall d Hy) as (i & Hi & Hf' & Hm). exists s0, health, s1, answers, i.
    split_and!; [done|done|done|done|done|by apply Hall2|by apply Hall3].
  - eexists. split; [reflexivity|]. simpl in *. rewrite Ex in *. simpl in *.
    split_and!; [done|destruct p; split; intros; (done || by eexists || by apply Hnone)|lia|lia|done|lia].
Qed.
End eligibility.

Definition sample_router : Router :=
  mkRouter WEIGHTED (mkRouterConfig 0 0 600 60 2 true ∅ [])
    [("gpt"%string, [sample_deployment "a" 1 0; sample_deployment "b" 1 0])].

Lemma select_deployment_sound_witness :
  exists d ctx' s', select_deployment (fun _ => 1%Q) sample_router 5 (mkDraw 1 0) "gpt"
      (mkContext PyNone None None) (fst (set_cooldown (fun s => s) 4 "b" 9 "x" offline))
      = (s', Ret (Some d, ctx')) /\
    eligible sample_router 5 "gpt" PyNone (fst (set_cooldown (fun s => s) 4 "b" 9 "x" offline)) d.
Proof.
  do 3 eexists. split; [vm_compute; reflexivity|].
  refine (proj1 (select_deployment_sound (fun _ => 1%Q) sample_router 5 (mkDraw 1 0) "gpt"
    (mkContext PyNone None None) _ (fst (set_cooldown (fun s => s) 4 "b" 9 "x" offline)) _ (Some _) _)).
  vm_compute. reflexivity.
Defined.

(** ** A cooled-down deployment is never selected *)

Section cooled.
Context `{PyRepr} {S : Type} `{RedisExec S} `{Rendering} (decay : Q -> Q).
Implicit Types (b : backend S).

(** Offline, and the cooldown of the deployment runs until after [now]. *)
Definition hot (now : Z) (id : string) b : Prop :=
  redis b = None /\ policy b = fail_open /\ cooling (local b) now id = true.

Lemma hot_run_op now id o b :
  steers_cooldown id o = false -> hot now id b ->
  hot now id (fst (run_op render_float render_json_string now o b)).
Proof.
  intros Ho (Hr & Hp & Hc).
  destruct (run_ops_offline render_float render_json_string b [(now, o)] Hr Hp) as (Hr' & Hcfg & Hl).
  simpl in *. split; [done|split; [by injection Hcfg; intros; congruence|]]. rewrite Hl.
  unfold effects. simpl. unfold cooling in *.
  destruct (local_effect_cooldown (config_of b) now o (local b) id Ho) as [->|[_ Hcool]]; [done|].
  unfold cooling in Hcool. congruence.
Qed.

Lemma hot_batch {A} now id (get : string -> st (backend S) exn A) acc ids b :
  (forall i b, hot now id b -> hot now id (fst (get i b))) -> hot now id b ->
  hot now id (fst (batch get acc ids b)).
Proof.
  intros Hg. revert acc b. induction ids as [|i ids IH]; intros acc b Hb; [done|].
  simpl. apply bind_keeps; [auto|auto|done].
Qed.

Lemma hot_cooled_query now id i b : hot now id b -> hot now id (fst (is_cooled_down now i b)).
Proof. intros Hb. rewrite <- fst_bind_tt. by apply (hot_run_op now id (IsCooledDown i)). Qed.

Lemma hot_health now id ids b : hot now id b -> hot now id (fst (get_health_batch now ids b)).
Proof.
  apply hot_batch. intros i b' Hb. rewrite <- fst_bind_tt. by apply (hot_run_op now id (GetHealth i)).
Qed.

Lemma filter_not_cooled_hot now id health l b :
  0 <= now -> hot now id b ->
  hot now id (fst (filter_not_cooled now health l b)) /\
  forall l', snd (filter_not_cooled now health l b) = Ret l' -> forall d, d ∈ l' -> deployment_id d <> id.
Proof.
  intros Hnow. revert b. induction l as [|x l IH]; intros b Hb.
  - split; [done|]. intros l' [= <-] d Hd. by apply not_elem_of_nil in Hd.
  - simpl. pose proof (hot_cooled_query now id (deployment_id x) b Hb) as Hq.
    assert (Hans : deployment_id x = id -> snd (is_cooled_down now (deployment_id x) b) = Ret true).
    { intros ->. destruct Hb as (Hr & Hp & Hc). by rewrite is_cooled_offline, Hc. }
    unfold mbind, st_bind. destruct (is_cooled_down now (deployment_id x) b) as [b1 [cooled|e]]; simpl in *; [|done].
    destruct (IH b1 Hq) as [Hh Hall]. destruct (filter_not_cooled now health l b1) as [b2 [rest|e]]; simpl in *; [|done].
    split; [done|]. intros l' [= <-] d Hd.
    destruct cooled; [by eapply Hall|]. destruct (marked_unhealthy _); [by eapply Hall|].
    apply elem_of_cons in Hd as [->|Hd]; [|by eapply Hall].
    intros Heq. specialize (Hans Heq). discriminate.
Qed.

Lemma filter_healthy_hot now id l b l' b' :
  0 <= now -> hot now id b -> filter_healthy now l b = (b', Ret l') ->
  forall d, d ∈ l' -> deployment_id d <> id.
Proof.
  intros Hnow Hb. unfold filter_healthy. destruct l as [|x l].
  - intros [= _ <-] d Hd. by apply not_elem_of_nil in Hd.
  - intros Heq. apply bind_ret_inv in Heq as (b1 & health & Hh & Heq).
    pose proof (hot_health now id (ids_of (x :: l)) b Hb) as Hb1.
    change (be_get_health_batch now (ids_of (x :: l)) b = (b1, Ret health))
      with (get_health_batch now (ids_of (x :: l)) b = (b1, Ret health)) in Hh.
    rewrite Hh in Hb1. destruct (filter_not_cooled_hot now id health (x :: l) b1 Hnow Hb1) as [_ Hall].
    rewrite Heq in Hall. by apply Hall.
Qed.
End cooled.

(** A deployment in cooldown is not routed to.  Without Redis, once a
    cooldown of [secs_] seconds was set at [t0], no selection before its end
    picks that deployment, whatever the strategy, the filters and the draw,
    and whatever calls other than setting or clearing its cooldown were made
    to the backend in between. *)
Theorem cooled_deployment_never_selected `{PyRepr} {S} `{RedisExec S} `{Rendering} (decay : Q -> Q)
    (t0 now secs_ : Z) (id reason group : string) (b : backend S) (h : list (Z * backend_op))
    (r : Router) (rand : draw) (ctx : request_context) :
  redis b = None -> policy b = fail_open -> 0 <= now ->
  let until := t0 + Z.max 1 secs_ * usec in
  now < until -> Forall (fun e => e.1 < until /\ steers_cooldown id e.2 = false) h ->
  let b1 := run_ops render_float render_json_string
              (fst (set_cooldown render_json_string t0 id secs_ reason b)) h in
  forall b' d ctx', select_deployment decay r now rand group ctx b1 = (b', Ret (Some d, ctx')) ->
  deployment_id d <> id.
Proof.
  intros Hr Hp Hnow until Hlt Hh b1 b' d ctx' Hsel.
  assert (Hhot : hot now id b1).
  { destruct (run_ops_offline render_float render_json_string b ((t0, SetCooldown id secs_ reason) :: h) Hr Hp)
      as (Hr' & Hc & Hl).
    change (run_ops _ _ b ((t0, SetCooldown id secs_ reason) :: h)) with b1 in Hr', Hc, Hl.
    split; [done|split; [by injection Hc; intros; congruence|]].
    rewrite Hl. unfold cooling, effects. simpl.
    change (foldl (fun l e => local_effect (config_of b) e.1 e.2 l)) with (effects (config_of b)).
    rewrite (effects_cooldown _ _ h id until); [by apply Z.ltb_lt|apply lookup_insert_eq|done]. }
  unfold select_deployment in Hsel. destruct (resolve_strategy_for_group r group) as [strategy pol].
  destruct (get_candidates r group) as [|c cs]; [done|].
  apply bind_ret_inv in Hsel as (s1 & healthy & Hf & Hsel).
  apply bind_ret_inv in Hsel as (s2 & checked & Hk & Hsel).
  assert (Hsub : sublist checked healthy).
  { etrans; [|apply apply_filters_spec]. destruct (enable_pre_call_checks (r_config r)).
    - by apply (pre_call_checks_spec now _ s1 s2).
    - by injection Hk as _ <-. }
  destruct checked as [|x xs]; [done|].
  apply bind_ret_inv in Hsel as (s3 & p & Hpick & Hsel). injection Hsel as _ -> _.
  apply (filter_healthy_hot now id (c :: cs) b1 healthy s1 Hnow Hhot Hf).
  eapply sublist_elem; [exact Hsub|]. by eapply (select_member decay).
Qed.

Lemma cooled_deployment_never_selected_witness :
  exists d ctx' b', select_deployment (fun _ => 1%Q) sample_router (50 * usec) (mkDraw 0 0) "gpt"
      (mkContext PyNone None None)
      (run_ops render_float render_json_string
         (fst (set_cooldown render_json_string 0 "a" 60 "x" offline)) [(40 * usec, GetHealth "a")])
      = (b', Ret (Some d, ctx')) /\ deployment_id d <> "a"%string.
Proof.
  do 3 eexists. split; [vm_compute; reflexivity|].
  eapply (cooled_deployment_never_selected (fun _ => 1%Q) 0 (50 * usec) 60 "a" "x" "gpt" offline
    [(40 * usec, GetHealth "a")] sample_router (mkDraw 0 0) (mkContext PyNone None None));
    [reflexivity|reflexivity|vm_compute; discriminate|vm_compute; reflexivity
    |repeat constructor; vm_compute; reflexivity|vm_compute; reflexivity].
Defined.
