(* ===== verification/Cooldown.v ===== *)
(** * Cooldowns: src/router/cooldown.py

    [CooldownManager] turns repeated health-affecting failures of a deployment
    into a cooldown; [CooldownRecoveryMonitor] marks deployments healthy again
    once their cooldown is over.  Both are written against the state backend's
    interface; the alert callback is an argument that may raise. *)

From S2P Require Import Prelude PyVal Errors ErrorPolicy RouterState Backend.

Record alert : Type := mkAlert {
  al_deployment_id : string;
  al_reason : string;
  al_failure_count : Z;
  al_cooldown_until : Z
}.

(** The manager's mutable state, its backend included, and the alerts sent. *)
Record manager (B : Type) : Type := mkManager {
  m_backend : B;
  m_cooldown_time : Z;
  m_alerts : list alert
}.
Arguments mkManager {B} m_backend m_cooldown_time m_alerts.
Arguments m_backend {B} m.
Arguments m_cooldown_time {B} m.
Arguments m_alerts {B} m.

Definition set_cooldown_time {B} (t : Z) (m : manager B) : manager B :=
  mkManager (m_backend m) t (m_alerts m).

Section manager_ops.
Context {B : Type} `{DeploymentStateBackend B}.
Context (allowed_fails : Z) (alert_callback : option (alert -> res exn unit)).
Local Abbreviation op := (st (manager B) exn).

(** A backend call of the manager. *)
Definition on_backend {A} (f : st B exn A) : op A := fun m =>
  let '(b, r) := f (m_backend m) in (mkManager b (m_cooldown_time m) (m_alerts m), r).

(** The backend call of [_enter_cooldown], with the manager's current time. *)
Definition start_cooldown (now : Z) (id reason : string) : op unit := fun m =>
  on_backend (be_set_cooldown now id (m_cooldown_time m) reason) m.

(** [await self.alert_callback({...})] *)
Definition send_alert (now : Z) (id reason : string) (failure_count : Z) : op unit := fun m =>
  match alert_callback with
  | None => (m, Ret tt)
  | Some call =>
    let a := mkAlert id reason failure_count (now + m_cooldown_time m * usec) in
    (mkManager (m_backend m) (m_cooldown_time m) (m_alerts m ++ [a]), call a)
  end.

(** [_enter_cooldown] *)
Definition enter_cooldown (now : Z) (id reason : string) (failure_count : Z) : op unit :=
  _ ← start_cooldown now id reason;
  _ ← on_backend (be_set_health now id false);
  send_alert now id reason failure_count.

(** [record_failure]: whether the deployment was put in cooldown. *)
Definition record_failure (now : Z) (id error : string) (exc : option exn)
    (affects_health : option bool) : op bool :=
  let affects := match affects_health, exc with
                 | None, Some e => Some (HealthPolicy.affects_deployment_health e)
                 | _, _ => affects_health
                 end in
  match affects with
  | Some false => mret false
  | _ =>
    failure_count ← on_backend (be_record_failure now id error);
    if allowed_fails <? failure_count then
      _ ← enter_cooldown now id error failure_count; mret true
    else mret false
  end.

Definition record_success (now : Z) (id : string) : op unit :=
  _ ← on_backend (be_record_success now id);
  on_backend (be_set_health now id true).

Record cooldown_info : Type := mkInfo {
  ci_consecutive_failures : Z;
  ci_last_error : option string;
  ci_last_error_at : option string
}.

(** [int(health.get("consecutive_failures", 0) or 0)] *)
Definition failures_of_health (h : gmap string string) : res exn Z :=
  match h !! "consecutive_failures"%string with
  | Some s => if Str.is_empty s then Ret 0 else lift_exn (int_of_string s)
  | None => Ret 0
  end.

Definition check_cooldown (now : Z) (id : string) : op (option cooldown_info) :=
  cooled ← on_backend (be_is_cooled_down now id);
  if (cooled : bool) then
    health ← on_backend (be_get_health now id);
    n ← lift (failures_of_health health);
    mret (Some (mkInfo n (health !! "last_error"%string) (health !! "last_error_at"%string)))
  else mret None.

(** [manual_cooldown] by its two halves around the awaited call: a coroutine
    may be suspended between them. *)
Definition manual_begin (duration_sec : Z) (m : manager B) : manager B * Z :=
  (set_cooldown_time (Z.max 1 duration_sec) m, m_cooldown_time m).
Definition manual_end (original : Z) (m : manager B) : manager B := set_cooldown_time original m.

Definition manual_cooldown (now : Z) (id : string) (duration_sec : Z) (reason : string) : op unit :=
  fun m =>
    let '(m1, original) := manual_begin duration_sec m in
    try_finally (enter_cooldown now id reason 0) (modify (manual_end original)) m1.

(** [CooldownRecoveryMonitor._check_recoveries], over the ids its provider gave. *)
Definition check_recoveries (now : Z) (ids : list string) : st B exn unit :=
  for_each ids (fun id =>
    cooled ← be_is_cooled_down now id;
    if (cooled : bool) then mret tt
    else _ ← be_set_health now id true; be_record_success now id).
End manager_ops.

(** ** Facts about the manager *)

Section manager_facts.
Context {B : Type} `{DeploymentStateBackend B}.
Context (allowed_fails : Z) (alert_callback : option (alert -> res exn unit)).

Lemma on_backend_time {A} (f : st B exn A) m :
  m_cooldown_time (fst (on_backend f m)) = m_cooldown_time m.
Proof. unfold on_backend. by destruct (f (m_backend m)). Qed.

(** Entering a cooldown leaves the configured time alone. *)
Lemma enter_cooldown_time now id reason n m :
  m_cooldown_time (fst (enter_cooldown alert_callback now id reason n m)) = m_cooldown_time m.
Proof.
  unfold enter_cooldown, start_cooldown, send_alert.
  apply (bind_keeps (fun m' => m_cooldown_time m' = m_cooldown_time m)); [|intros []|done].
  - intros m' Hm. by rewrite on_backend_time.
  - intros m1 Hm1. apply (bind_keeps (fun m' => m_cooldown_time m' = m_cooldown_time m)); [| |done].
    + intros m' Hm. by rewrite on_backend_time.
    + intros [] m' Hm. by destruct alert_callback.
Qed.
End manager_facts.

(** A manual cooldown that runs without interruption uses its own duration,
    at least one second, and leaves the manager's configured cooldown time as
    it was, on success and when the backend or the alert callback raises. *)
Theorem manual_cooldown_restores {B} `{DeploymentStateBackend B}
    (alert_callback : option (alert -> res exn unit)) (now duration : Z) (id reason : string)
    (m : manager B) :
  let '(m', r) := manual_cooldown alert_callback now id duration reason m in
  m_cooldown_time m' = m_cooldown_time m /\
  r = snd (enter_cooldown alert_callback now id reason 0 (set_cooldown_time (Z.max 1 duration) m)).
Proof.
  unfold manual_cooldown, manual_begin, try_finally, modify.
  by destruct (enter_cooldown _ now id reason 0 _) as [m' r].
Qed.

(** Two manual cooldowns whose awaited calls overlap: the second one starts
    while the first is suspended and ends after it. *)
Lemma overlapping_manual_cooldowns_leak {B} (m : manager B) (d1 d2 : Z) :
  let '(m1, original1) := manual_begin d1 m in
  let '(m2, original2) := manual_begin d2 m1 in
  m_cooldown_time (manual_end original2 (manual_end original1 m2)) = Z.max 1 d1.
Proof. reflexivity. Qed.

Section offline_manager.
Context {S : Type} `{RedisExec S} `{Rendering}.
Context (allowed_fails : Z) (alert_callback : option (alert -> res exn unit)).
Implicit Types (b : backend S) (m : manager (backend S)).

(** A backend operation without Redis and fail-open returns and follows the
    degraded-mode specification. *)
Lemma offline_step o now b :
  redis b = None -> policy b = fail_open -> needs_backend o = true ->
  let '(b', r) := run_op render_float render_json_string now o b in
  redis b' = None /\ config_of b' = config_of b /\ is_ret r = true /\
  local b' = local_effect (config_of b) now o (local b).
Proof.
  intros Hr Hp Hn. pose proof (run_op_ends render_float render_json_string now o b) as Hends.
  destruct (run_op _ _ now o b) as [b' r]. destruct Hends as (Hc & Hr' & Hd).
  destruct Hd as [([?|?] & _)|[(? & _)|(_ & ? & ?)]]; [done|congruence|congruence|auto].
Qed.

Lemma offline_backend_call {A} o now (f : st (backend S) exn A) m :
  (forall b, fst (f b) = fst (run_op render_float render_json_string now o b)) ->
  redis (m_backend m) = None -> policy (m_backend m) = fail_open -> needs_backend o = true ->
  let m' := fst (on_backend f m) in
  redis (m_backend m') = None /\ policy (m_backend m') = fail_open /\
  local (m_backend m') = local_effect (config_of (m_backend m)) now o (local (m_backend m)) /\
  m_cooldown_time m' = m_cooldown_time m /\ m_alerts m' = m_alerts m.
Proof.
  intros Hf Hr Hp Hn. specialize (Hf (m_backend m)). pose proof (offline_step o now (m_backend m) Hr Hp Hn) as Ho.
  unfold on_backend. destruct (f (m_backend m)) as [b r]. simpl in *. subst b.
  destruct (run_op _ _ now o (m_backend m)) as [b' r']. simpl in *. destruct Ho as (Hr' & Hc & _ & Hl).
  split_and!; [done| |done..]. injection Hc. congruence.
Qed.

Lemma record_failure_value now id error b :
  redis b = None -> policy b = fail_open ->
  snd (RouterState.record_failure now id error b) = Ret (failures_of (local b) id + 1).
Proof.
  intros Hr Hp. unfold RouterState.record_failure, guarded, try_except, round_trip, mbind, st_bind. rewrite Hr.
  unfold handle_backend_failure, mark_backend_failure. simpl. by rewrite Hp.
Qed.

Lemma set_cooldown_value now id d reason b :
  redis b = None -> policy b = fail_open -> snd (be_set_cooldown now id d reason b) = Ret tt.
Proof.
  intros Hr Hp. simpl. unfold set_cooldown, guarded, try_except, redis_call, round_trip, mbind, st_bind. rewrite Hr.
  unfold handle_backend_failure, mark_backend_failure. simpl. by rewrite Hp.
Qed.

Lemma set_health_value now id h b :
  redis b = None -> policy b = fail_open -> snd (be_set_health now id h b) = Ret tt.
Proof.
  intros Hr Hp. simpl. unfold set_health, guarded, try_except, redis_call, round_trip, mbind, st_bind. rewrite Hr.
  unfold handle_backend_failure, mark_backend_failure. simpl. by rewrite Hp.
Qed.

(** The health entry of the deployment says it is not healthy. *)
Definition recorded_unhealthy (l : local_state) (id : string) : Prop :=
  exists e, l_health l !! id = Some e /\ e !! "healthy"%string = Some "false"%string.

Lemma enter_cooldown_offline now id reason n m :
  redis (m_backend m) = None -> policy (m_backend m) = fail_open ->
  (forall call a, alert_callback = Some call -> call a = Ret tt) ->
  let '(m', r) := enter_cooldown alert_callback now id reason n m in
  r = Ret tt /\
  failures_of (local (m_backend m')) id = failures_of (local (m_backend m)) id /\
  l_cooldown_until (local (m_backend m')) !! id = Some (now + Z.max 1 (m_cooldown_time m) * usec) /\
  recorded_unhealthy (local (m_backend m')) id.
Proof.
  intros Hr Hp Hcall. unfold enter_cooldown, mbind, st_bind, start_cooldown.
  destruct (offline_backend_call (SetCooldown id (m_cooldown_time m) reason) now
    (be_set_cooldown now id (m_cooldown_time m) reason) m) as (Hr1 & Hp1 & Hl1 & Ht1 & _); [done..|].
  pose proof (set_cooldown_value now id (m_cooldown_time m) reason (m_backend m) Hr Hp) as Hv1.
  unfold on_backend in *. destruct (be_set_cooldown now id _ reason (m_backend m)) as [b1 r1].
  simpl in Hv1. subst r1. simpl in Hr1, Hp1, Hl1. set (m1 := mkManager b1 _ _) in *.
  destruct (offline_backend_call (SetHealth id false) now (be_set_health now id false) m1)
    as (Hr2 & Hp2 & Hl2 & _); [done..|].
  pose proof (set_health_value now id false (m_backend m1) Hr1 Hp1) as Hv2.
  unfold on_backend in *. destruct (be_set_health now id false (m_backend m1)) as [b2 r2].
  simpl in Hv2. subst r2. simpl in Hr2, Hp2, Hl2.
  assert (Hend : failures_of (local b2) id = failures_of (local (m_backend m)) id /\
    l_cooldown_until (local b2) !! id = Some (now + Z.max 1 (m_cooldown_time m) * usec) /\
    recorded_unhealthy (local b2) id).
  { rewrite Hl2. split_and!.
    - unfold failures_of. simpl. by rewrite Hl1.
    - simpl. rewrite Hl1. simpl. apply lookup_insert_eq.
    - unfold recorded_unhealthy. simpl. rewrite lookup_insert_eq. eexists. split; [done|]. apply lookup_insert_eq. }
  unfold send_alert. destruct alert_callback as [call|] eqn:Ea; simpl; [|by split].
  split; [by apply (Hcall call)|done].
Qed.
End offline_manager.

(** Without Redis, a failure is counted exactly when it is the
    deployment's fault, and trips the breaker exactly when the count exceeds
    [allowed_fails]: the call then answers true, the deployment is in cooldown
    for the configured time, at least a second, and recorded unhealthy;
    otherwise it answers false and any cooldown is as before.  A failure that
    is the request's own fault changes nothing at all. *)
Theorem failures_trip_cooldown {S} `{RedisExec S} `{Rendering} (allowed_fails now : Z)
    (alert_callback : option (alert -> res exn unit)) (id error : string) (e : exn)
    (m : manager (backend S)) :
  redis (m_backend m) = None -> policy (m_backend m) = fail_open ->
  (forall call a, alert_callback = Some call -> call a = Ret tt) ->
  let n := failures_of (local (m_backend m)) id + 1 in
  let '(m', r) := record_failure allowed_fails alert_callback now id error (Some e) None m in
  if HealthPolicy.affects_deployment_health e
  then r = Ret (allowed_fails <? n) /\ failures_of (local (m_backend m')) id = n /\
       if allowed_fails <? n
       then l_cooldown_until (local (m_backend m')) !! id
              = Some (now + Z.max 1 (m_cooldown_time m) * usec) /\
            recorded_unhealthy (local (m_backend m')) id
       else l_cooldown_until (local (m_backend m')) !! id = l_cooldown_until (local (m_backend m)) !! id
  else r = Ret false /\ m' = m.
Proof.
  intros Hr Hp Hcall n. unfold record_failure.
  destruct (HealthPolicy.affects_deployment_health e); [|done].
  unfold mbind, st_bind.
  destruct (offline_backend_call (RecordFailure id error) now (be_record_failure now id error) m)
    as (Hr1 & Hp1 & Hl1 & Ht1 & _); [intros b; symmetry; apply fst_bind_tt|done..|].
  pose proof (record_failure_value now id error (m_backend m) Hr Hp) as Hv.
  change (RouterState.record_failure now id error) with (be_record_failure (B := backend S) now id error) in Hv.
  unfold on_backend in *. destruct (be_record_failure now id error (m_backend m)) as [b1 r1].
  simpl in Hv. subst r1. simpl in Hr1, Hp1, Hl1. fold n. set (m1 := mkManager b1 _ _).
  assert (Hn : failures_of (local b1) id = n)
    by (rewrite Hl1; unfold failures_of at 1; simpl; by rewrite lookup_insert_eq).
  destruct (allowed_fails <? n).
  - pose proof (enter_cooldown_offline alert_callback now id error n m1 Hr1 Hp1 Hcall) as He.
    destruct (enter_cooldown _ now id error n m1) as [m2 r2]. destruct He as (-> & Hf & Hc & Hu).
    split; [done|]. simpl in *. split; [congruence|done].
  - split; [done|]. simpl. split; [done|]. by rewrite Hl1.
Qed.

#[local] Existing Instances no_server no_rendering.

Lemma failures_trip_cooldown_witness :
  let m := mkManager offline 60 [] in
  let m1 := fst (record_failure 1 None 0 "d" "boom" (Some EAsyncioTimeout) None m) in
  let m2 := fst (record_failure 1 None usec "d" "boom" (Some EAsyncioTimeout) None m1) in
  l_cooldown_until (local (m_backend m2)) !! "d"%string = Some (61 * usec).
Proof.
  intros m m1 m2.
  pose proof (failures_trip_cooldown 1 usec None "d" "boom" EAsyncioTimeout m1 eq_refl eq_refl
    ltac:(intros call a Hn; discriminate)) as Ht.
  change m2 with (fst (record_failure 1 None usec "d" "boom" (Some EAsyncioTimeout) None m1)).
  destruct (record_failure 1 None usec "d" "boom" (Some EAsyncioTimeout) None m1) as [m' r].
  exact (proj1 (proj2 (proj2 Ht))).
Defined.
