(* ===== verification/Failover.v ===== *)
(** * Failover execution: src/router/failover.py, FailoverManager

    A request runs along a chain of deployments: the primary, the rest of its
    model group and the group's fallbacks; on each healthy one it is attempted
    with retries and backoff, errors are normalised and classified, and the
    classified fallbacks are tried for context-window and content-policy
    errors.  The upstream call, the clock, sleeping and the random draw belong
    to a world [W] the manager does not control. *)

From S2P Require Import Prelude PyVal Errors ErrorPolicy Billing RouterState Backend Strategies Router Cooldown.

Import FailoverErrors.

(** ** Data *)

Record FallbackConfig : Type := mkFallback {
  fc_num_retries : Z;
  fc_retry_after : Q;
  fc_timeout : pyfloat;
  fc_fallbacks : gmap string (list string);
  fc_context_window_fallbacks : gmap string (list string);
  fc_content_policy_fallbacks : gmap string (list string);
  fc_backoff_multiplier : Q;
  fc_backoff_max : Q;
  fc_backoff_jitter : bool;
  fc_event_history_size : Z
}.

Record FallbackEvent : Type := mkEvent {
  ev_timestamp : Z;
  ev_model_group : string;
  ev_from_deployment_id : string;
  ev_to_deployment_id : option string;
  ev_reason : string;
  ev_error_classification : string;
  ev_error_message : string;
  ev_attempt : Z;
  ev_success : bool
}.

(** The manager's state: the cooldown manager with the backend, the event
    history, and the world. *)
Record fstate (B W : Type) : Type := mkF {
  f_manager : manager B;
  f_events : list FallbackEvent;
  f_world : W
}.
Arguments mkF {B W} f_manager f_events f_world.
Arguments f_manager {B W} f.
Arguments f_events {B W} f.
Arguments f_world {B W} f.

(** ** Pure parts *)

Section pure.
Context (config : FallbackConfig) (reg : registry).

Definition group_deployments (group : string) : list Deployment := default [] (dict_get reg group).

(** [add]: append the deployments not seen yet. *)
Fixpoint add_unseen (chain : list Deployment) (ds : list Deployment) : list Deployment :=
  match ds with
  | [] => chain
  | d :: ds' =>
    if bool_decide (deployment_id d ∈ map deployment_id chain) then add_unseen chain ds'
    else add_unseen (chain ++ [d]) ds'
  end.

(** [_build_fallback_chain] *)
Definition build_fallback_chain (primary : Deployment) (model_group : string) : list Deployment :=
  let chain := add_unseen [] [primary] in
  let chain := add_unseen chain (group_deployments model_group) in
  foldl (fun chain g => add_unseen chain (group_deployments g)) chain
    (default [] (fc_fallbacks config !! model_group)).

(** [_get_classified_fallbacks] *)
Definition get_classified_fallbacks (c : classification) (model_group : string) : list Deployment :=
  let groups := match c with
                | CONTEXT_WINDOW => default [] (fc_context_window_fallbacks config !! model_group)
                | CONTENT_POLICY => default [] (fc_content_policy_fallbacks config !! model_group)
                | _ => []
                end in
  foldl (fun chain g => add_unseen chain (group_deployments g)) [] groups.

(** [_effective_retry_count] *)
Definition effective_retry_count (retry_max_attempts : option Z) : Z :=
  Z.max 0 (default (fc_num_retries config) retry_max_attempts).

(** [_normalize_retryable_error_classes] *)
Definition normalize_retryable_error_classes (classes : option (list string)) : option (gset string) :=
  match classes with
  | None => None
  | Some l =>
    let normalized : gset string :=
      list_to_set (map (fun s => Str.lower (Str.strip s))
                     (filter (fun s => Str.is_empty (Str.strip s) = false) l)) in
    if decide (normalized = ∅) then None else Some normalized
  end.

(** [_should_retry] *)
Definition should_retry (c : classification) (e : exn) (classes : option (gset string)) : bool :=
  match classes with
  | None => is_retryable e
  | Some cs => bool_decide (Str.lower (classification_value c) ∈ cs)
  end.

(** [_compute_backoff]; [jitter] is the draw of [random()]. *)
Definition compute_backoff (jitter : Q) (attempt : Z) : Q :=
  let base := if Qeq_bool (fc_retry_after config) 0 then 1%Q else fc_retry_after config in
  let delay := (base * Qpower (fc_backoff_multiplier config) attempt)%Q in
  let delay := if Qlt_bool (fc_backoff_max config) delay then fc_backoff_max config else delay in
  if fc_backoff_jitter config then (delay * ((1 # 2) + jitter * (1 # 2)))%Q else delay.

(** [_coerce_positive_timeout]; [OverflowError] is not caught. *)
Definition coerce_positive_timeout (v : pyval) : res exn (option pyfloat) :=
  if is_none v then Ret None
  else match py_float v with
       | Raise OverflowError => Raise (exn_of_pyexc OverflowError)
       | Raise _ => Ret None
       | Ret x => Ret (if Fl.positive x then Some x else None)
       end.

Definition effective_timeout (v : pyval) : res exn pyfloat :=
  t ← coerce_positive_timeout v; Ret (default (fc_timeout config) t).

(** [_effective_attempt_timeout]; the callable may raise. *)
Definition effective_attempt_timeout (d : Deployment) (timeout_seconds : pyval)
    (timeout_for_deployment : option (Deployment -> res exn pyval)) : res exn pyfloat :=
  match timeout_for_deployment with
  | None => effective_timeout timeout_seconds
  | Some f =>
    match f d with
    | Raise _ => effective_timeout timeout_seconds
    | Ret v =>
      if is_none v then effective_timeout timeout_seconds
      else t ← coerce_positive_timeout v;
           match t with Some x => Ret x | None => effective_timeout timeout_seconds end
    end
  end.

(** Appending to [deque(maxlen=n)]. *)
Definition history_size : nat :=
  Z.to_nat (Z.max 1 (if fc_event_history_size config =? 0 then 1000 else fc_event_history_size config)).
Definition push_event (e : FallbackEvent) (events : list FallbackEvent) : list FallbackEvent :=
  let l := events ++ [e] in drop (length l - history_size) l.

(** [list(events)[-max(0, int(limit)):]]: the slice of a negative index, which
    is the whole list for zero. *)
Definition get_recent_fallback_events (limit : Z) (events : list FallbackEvent) : list FallbackEvent :=
  let n := Z.to_nat (Z.max 0 limit) in
  map (fun e => mkEvent (ev_timestamp e) (ev_model_group e) (ev_from_deployment_id e)
                  (ev_to_deployment_id e) (ev_reason e) (ev_error_classification e)
                  (Str.take 200 (ev_error_message e)) (ev_attempt e) (ev_success e))
    (if (n =? 0)%nat then events else drop (length events - n) events).
End pure.

(** ** Execution *)

Inductive next (R : Type) : Type :=
  | Returned (result : R) (served : Deployment)
  | NextAttempt (last_error : exn)
  | NextDeployment (last_error : exn).
Arguments Returned {R} result served.
Arguments NextAttempt {R} last_error.
Arguments NextDeployment {R} last_error.

Section execution.
Context {B W R : Type} `{DeploymentStateBackend B}.
Context (config : FallbackConfig) (reg : registry).
Context (allowed_fails : Z) (alert_callback : option (alert -> res exn unit)).
Context (parsedate : string -> option Z).
(** The world: the clock, [asyncio.sleep], the draw of [random()], the upstream
    call under a timeout, and the [on_attempt] callback, whose exceptions are
    swallowed. *)
Context (clock : W -> Z) (sleep : Q -> W -> W) (jitter : W -> Q).
Context (execute : Deployment -> pyfloat -> st W exn R).
Context (on_attempt : option (Deployment -> W -> W)).
Context (model_group : string) (timeout_seconds : pyval).
Context (timeout_for_deployment : option (Deployment -> res exn pyval)).
Local Abbreviation op := (st (fstate B W) exn).

Definition on_manager {A} (f : Z -> st (manager B) exn A) : op A := fun s =>
  let '(m, r) := f (clock (f_world s)) (f_manager s) in (mkF m (f_events s) (f_world s), r).
Definition on_state {A} (f : Z -> st B exn A) : op A := on_manager (fun now => on_backend (f now)).
Definition on_world {A} (f : st W exn A) : op A := fun s =>
  let '(w, r) := f (f_world s) in (mkF (f_manager s) (f_events s) w, r).

Definition notify_attempt (d : Deployment) : op unit :=
  on_world (fun w => (match on_attempt with Some f => f d w | None => w end, Ret tt)).

Definition record_fallback_event (from_id : string) (to_id : option string)
    (reason cls message : string) (attempt : Z) (success : bool) : op unit := fun s =>
  let e := mkEvent (clock (f_world s)) model_group from_id to_id reason cls message attempt success in
  (mkF (f_manager s) (push_event config e (f_events s)) (f_world s), Ret tt).

Definition read_clock : op Z := fun s => (s, Ret (clock (f_world s))).

(** [wait_for(execute(deployment), timeout=attempt_timeout)] *)
Definition timed_execute (d : Deployment) : op R :=
  timeout ← lift (effective_attempt_timeout config d timeout_seconds timeout_for_deployment);
  on_world (execute d timeout).

(** Milliseconds between two clock readings. *)
Definition elapsed_ms (started ended : Z) : Q := (inject_Z (ended - started) / 1000)%Q.

(** The body of a [try]: one upstream call and the bookkeeping of its success.
    The main loop starts the latency clock before the bookkeeping ([early]),
    the classified fallbacks after it. *)
Definition attempt_body (early : bool) (d : Deployment) (success_event : op unit) : op R :=
  before ← read_clock;
  _ ← notify_attempt d;
  _ ← on_state (fun now => be_increment_active now (deployment_id d));
  after ← read_clock;
  result ← timed_execute d;
  ended ← read_clock;
  _ ← on_state (fun now => be_record_latency now (deployment_id d)
                             (elapsed_ms (if early then before else after) ended));
  _ ← on_manager (fun now => record_success now (deployment_id d));
  _ ← success_event;
  mret result.

(** [try: body except Exception as exc: handler exc finally: decrement_active] *)
Definition guarded_attempt {A} (d : Deployment) (body : op A) (handler : exn -> op A) : op A :=
  try_finally (try_except body handler)
    (_ ← on_state (fun now => be_decrement_active now (deployment_id d)); mret tt).

Definition normalized (d : Deployment) (exc : exn) : op (exn * classification * bool) := fun s =>
  (s, Ret (normalize_execution_error parsedate (clock (f_world s)) exc (deployment_id d))).

(** [if is_cooled_down: continue; if health["healthy"] == "false": continue] *)
Definition available (d : Deployment) : op bool :=
  cooled ← on_state (fun now => be_is_cooled_down now (deployment_id d));
  if (cooled : bool) then mret false
  else
    health ← on_state (fun now => be_get_health now (deployment_id d));
    mret (negb (marked_unhealthy health)).

(** *** _try_classified_fallbacks *)

(** The handler of one classified fallback; [None] means: try the next one. *)
Definition classified_handler (from_id : string) (c : classification) (d : Deployment) (exc : exn)
    : op (option (R * Deployment)) :=
  n ← normalized d exc;
  let '(error, failure_class, allow) := n in
  _ ← on_manager (fun now => record_failure allowed_fails alert_callback now (deployment_id d)
                               (exn_str error) (Some error) None);
  _ ← record_fallback_event from_id (Some (deployment_id d)) (classification_value c)
        (classification_value failure_class) (exn_str error) 0 false;
  if negb allow then raise error
  else if negb (HealthPolicy.affects_deployment_health error) &&
          negb (bool_decide (failure_class = CONTEXT_WINDOW \/ failure_class = CONTENT_POLICY))
  then raise error
  else mret None.

Fixpoint try_classified_fallbacks (from_id : string) (c : classification) (chain : list Deployment)
    : op (option (R * Deployment)) :=
  match chain with
  | [] => mret None
  | d :: chain' =>
    ok ← available d;
    if (ok : bool) then
      r ← guarded_attempt d
            (result ← attempt_body false d
               (record_fallback_event from_id (Some (deployment_id d)) (classification_value c)
                  (classification_value c) "" 0 true);
             mret (Some (result, d)))
            (classified_handler from_id c d);
      match (r : option (R * Deployment)) with
      | Some x => mret (Some x)
      | None => try_classified_fallbacks from_id c chain'
      end
    else try_classified_fallbacks from_id c chain'
  end.

(** *** execute_with_failover *)

Definition attempt_handler (retries attempt : Z) (classes : option (gset string)) (d : Deployment)
    (exc : exn) : op (next R) :=
  n ← normalized d exc;
  let '(last_error, c, allow) := n in
  _ ← on_manager (fun now => record_failure allowed_fails alert_callback now (deployment_id d)
                               (exn_str last_error) (Some last_error) None);
  _ ← record_fallback_event (deployment_id d) None (classification_value c)
        (classification_value c) (exn_str last_error) attempt false;
  extra ← (if (allow : bool) then
             try_classified_fallbacks (deployment_id d) c (get_classified_fallbacks config reg c model_group)
           else mret None);
  match (extra : option (R * Deployment)) with
  | Some (result, served) => mret (Returned result served)
  | None =>
    if negb (HealthPolicy.affects_deployment_health last_error) then raise last_error
    else if should_retry c last_error classes && (attempt <? retries) then
      _ ← on_world (fun w => (sleep (compute_backoff config (jitter w) attempt) w, Ret tt));
      mret (NextAttempt last_error)
    else mret (NextDeployment last_error)
  end.

Definition run_attempt (retries attempt : Z) (classes : option (gset string)) (fell_back : bool)
    (previous : string) (d : Deployment) : op (next R) :=
  guarded_attempt d
    (result ← attempt_body true d
       (if fell_back then
          record_fallback_event previous (Some (deployment_id d)) "primary_failed" "success" "" attempt true
        else mret tt);
     mret (Returned result d))
    (attempt_handler retries attempt classes d).

(** [for attempt in range(effective_retries + 1)] *)
Fixpoint attempts (left : nat) (retries attempt : Z) (classes : option (gset string))
    (fell_back : bool) (previous : string) (d : Deployment) (last_error : option exn)
    : op (option (R * Deployment) * option exn) :=
  match left with
  | O => mret (None, last_error)
  | S left' =>
    r ← run_attempt retries attempt classes fell_back previous d;
    match (r : next R) with
    | Returned result served => mret (Some (result, served), last_error)
    | NextAttempt e => attempts left' retries (attempt + 1) classes fell_back previous d (Some e)
    | NextDeployment e => mret (None, Some e)
    end
  end.

(** What is raised when no deployment served the request. *)
Definition exhausted (last_error : option exn) : exn :=
  match last_error with
  | Some (EProxy p) => EProxy p
  | Some e => EProxy (mk_proxy ServiceUnavailableError
                        (Some ("All deployments exhausted: " +:+ exn_str e)) None None None None)
  | None => EProxy (mk_proxy ServiceUnavailableError (Some "No healthy deployments available"%string)
                      None (Some NO_HEALTHY_DEPLOYMENTS_CODE) None None)
  end.

(** [for chain_index, deployment in enumerate(chain)]; [fell_back] says
    [chain_index > 0]. *)
Fixpoint run_chain (retries : Z) (classes : option (gset string)) (fell_back : bool)
    (previous : string) (last_error : option exn) (chain : list Deployment) : op (R * Deployment) :=
  match chain with
  | [] => raise (exhausted last_error)
  | d :: chain' =>
    ok ← available d;
    if (ok : bool) then
      r ← attempts (S (Z.to_nat retries)) retries 0 classes fell_back previous d last_error;
      match (r : option (R * Deployment) * option exn) with
      | (Some x, _) => mret x
      | (None, e) => run_chain retries classes true (deployment_id d) e chain'
      end
    else run_chain retries classes true previous last_error chain'
  end.

(** [execute_with_failover] with [return_deployment=True]. *)
Definition execute_with_failover (primary : Deployment) (retry_max_attempts : option Z)
    (retryable_error_classes : option (list string)) : op (R * Deployment) :=
  run_chain (effective_retry_count config retry_max_attempts)
    (normalize_retryable_error_classes retryable_error_classes) false (deployment_id primary) None
    (build_fallback_chain config reg primary model_group).
End execution.

(** ** The fallback chain *)

Section chain.
Context (config : FallbackConfig) (reg : registry).
Implicit Types (chain ds : list Deployment) (d : Deployment).
Local Abbreviation ids := (map deployment_id).

Lemma add_unseen_nodup chain ds : NoDup (ids chain) -> NoDup (ids (add_unseen chain ds)).
Proof.
  revert chain. induction ds as [|d ds IH]; intros chain Hc; [done|]. simpl.
  case_bool_decide as Hd; [auto|]. apply IH. rewrite map_app. apply NoDup_app. split_and!; [done| |apply NoDup_singleton].
  intros x Hx Hx'. apply list_elem_of_singleton in Hx' as ->. done.
Qed.

Lemma add_unseen_prefix chain ds : exists l, add_unseen chain ds = chain ++ l /\ forall d, d ∈ l -> d ∈ ds.
Proof.
  revert chain. induction ds as [|d ds IH]; intros chain; simpl.
  - exists []. rewrite app_nil_r. split; [done|]. intros d Hd. by apply not_elem_of_nil in Hd.
  - case_bool_decide; [destruct (IH chain) as (l & -> & Hl)|destruct (IH (chain ++ [d])) as (l & -> & Hl)].
    + exists l. split; [done|]. intros d' Hd'. right. auto.
    + exists (d :: l). rewrite <- app_assoc. split; [done|]. intros d' [->|Hd']%elem_of_cons; [left|right; auto].
Qed.

Lemma add_unseen_covers chain ds d : d ∈ ds -> deployment_id d ∈ ids (add_unseen chain ds).
Proof.
  revert chain. induction ds as [|x ds IH]; intros chain Hd; [by apply not_elem_of_nil in Hd|].
  assert (Hkeep : forall c id, id ∈ ids c -> id ∈ ids (add_unseen c ds)).
  { intros c id Hid. destruct (add_unseen_prefix c ds) as (l & -> & _). rewrite map_app. set_solver. }
  simpl. apply elem_of_cons in Hd as [->|Hd].
  - case_bool_decide as Hx; apply Hkeep; [done|]. rewrite map_app. set_solver.
  - case_bool_decide; by apply IH.
Qed.

(** Adding the deployments of several groups. *)
Definition add_groups chain (groups : list string) : list Deployment :=
  foldl (fun chain g => add_unseen chain (group_deployments reg g)) chain groups.

Lemma add_groups_spec chain groups :
  NoDup (ids chain) ->
  NoDup (ids (add_groups chain groups)) /\
  exists l, add_groups chain groups = chain ++ l /\
    (forall d, d ∈ l -> exists g, g ∈ groups /\ d ∈ group_deployments reg g) /\
    (forall g d, g ∈ groups -> d ∈ group_deployments reg g -> deployment_id d ∈ ids (chain ++ l)).
Proof.
  revert chain. induction groups as [|g groups IH]; intros chain Hnd; simpl.
  - split; [done|]. exists []. rewrite app_nil_r. split_and!; [done|intros d Hd; by apply not_elem_of_nil in Hd|].
    intros g d Hg. by apply not_elem_of_nil in Hg.
  - destruct (IH (add_unseen chain (group_deployments reg g)) ltac:(by apply add_unseen_nodup))
      as [Hnd' (l & Heq & Hl & Hcov)].
    split; [done|]. destruct (add_unseen_prefix chain (group_deployments reg g)) as (l1 & H1 & Hl1).
    exists (l1 ++ l). rewrite app_assoc, <- H1. split_and!; [done| |].
    + intros d [Hd|Hd]%elem_of_app; [exists g; split; [left|auto]|].
      destruct (Hl d Hd) as (g' & Hg' & Hd'). exists g'. split; [by right|done].
    + intros g' d [->|Hg']%elem_of_cons Hd; [|by eapply Hcov].
      rewrite map_app. apply elem_of_app. left. by apply add_unseen_covers.
Qed.
End chain.

(** The chain a request runs along starts with the primary, holds no
    deployment id twice, holds only deployments of the primary's model group
    and of its configured fallback groups, and represents every deployment of
    those groups. *)
Theorem fallback_chain_sound (config : FallbackConfig) (reg : registry) (primary : Deployment)
    (model_group : string) :
  let chain := build_fallback_chain config reg primary model_group in
  let groups := model_group :: default [] (fc_fallbacks config !! model_group) in
  head chain = Some primary /\ NoDup (map deployment_id chain) /\
  (forall d, d ∈ chain -> d = primary \/ exists g, g ∈ groups /\ d ∈ group_deployments reg g) /\
  (forall g d, g ∈ groups -> d ∈ group_deployments reg g ->
     deployment_id d ∈ map deployment_id chain).
Proof.
  intros chain groups.
  assert (Hchain : chain = add_groups reg [primary] groups) by done.
  destruct (add_groups_spec reg [primary] groups (NoDup_singleton _)) as [Hnd (l & Heq & Hl & Hcov)].
  rewrite Hchain, Heq. rewrite Heq in Hnd. split_and!; [done|done| |done].
  intros d [->%list_elem_of_singleton|Hd]%elem_of_app; auto.
Qed.

(** ** What the manager's operations do to the active counts *)

(** The part of a backend's contract the failover relies on: inside the domain
    [al_ok] the active counts are changed by the two counting operations only,
    and those return. *)
Class ActiveLaws (B : Type) `{DeploymentStateBackend B} := {
  al_ok : B -> Prop;
  al_count : B -> string -> Z;
  al_nonneg : forall b id, al_ok b -> 0 <= al_count b id;
  al_increment : forall now id b, al_ok b ->
    let '(b', r) := be_increment_active now id b in
    al_ok b' /\ is_ret r = true /\ forall i, al_count b' i = al_count b i + (if String.eqb i id then 1 else 0);
  al_decrement : forall now id b, al_ok b -> 0 < al_count b id ->
    let '(b', r) := be_decrement_active now id b in
    al_ok b' /\ is_ret r = true /\ forall i, al_count b' i = al_count b i - (if String.eqb i id then 1 else 0);
  al_quiet : forall now id (ms : Q) (secs_ : Z) (text : string) (h : bool) b, al_ok b ->
    let keeps b' := al_ok b' /\ forall i, al_count b' i = al_count b i in
    keeps (fst (be_record_latency now id ms b)) /\ keeps (fst (be_record_success now id b)) /\
    keeps (fst (be_record_failure now id text b)) /\ keeps (fst (be_set_cooldown now id secs_ text b)) /\
    keeps (fst (be_set_health now id h b)) /\ keeps (fst (be_is_cooled_down now id b)) /\
    keeps (fst (be_get_health now id b));
  al_answers : forall now id (ms : Q) (h : bool) b, al_ok b ->
    is_ret (snd (be_record_latency now id ms b)) = true /\
    is_ret (snd (be_record_success now id b)) = true /\ is_ret (snd (be_set_health now id h b)) = true
}.

(** ** The offline backend keeps the contract *)

Section offline_laws.
Context {S : Type} `{RedisExec S} `{Rendering}.
Implicit Types (b : backend S).

Definition offline_ok b : Prop :=
  redis b = None /\ policy b = fail_open /\ 1 <= max_local_latency_samples b /\
  wf_local (max_local_latency_samples b) (local b).

Lemma offline_ok_step o now b :
  offline_ok b -> needs_backend o = true ->
  let '(b', r) := run_op render_float render_json_string now o b in
  offline_ok b' /\ is_ret r = true /\
  forall i, active_of (local b') i = active_step i (active_of (local b) i) o.
Proof.
  intros (Hr & Hp & Hn & Hw) Hnb. pose proof (offline_step o now b Hr Hp Hnb) as Ho.
  destruct (run_op _ _ now o b) as [b' r]. destruct Ho as (Hr' & Hc & Hret & Hl).
  assert (Hn' : max_local_latency_samples b' = max_local_latency_samples b) by (by injection Hc).
  split_and!; [split_and!| |].
  - done.
  - injection Hc. congruence.
  - by rewrite Hn'.
  - rewrite Hn', Hl. by apply (local_effect_wf (config_of b)).
  - done.
  - intros i. rewrite Hl. by apply (local_effect_active (config_of b)).
Qed.

Lemma offline_quiet {A} (m : st (backend S) exn A) o now b :
  offline_ok b -> needs_backend o = true ->
  (forall i n, active_step i n o = n) ->
  fst (m b) = fst (run_op render_float render_json_string now o b) ->
  offline_ok (fst (m b)) /\ forall i, active_of (local (fst (m b))) i = active_of (local b) i.
Proof.
  intros Hok Hn Hq ->. pose proof (offline_ok_step o now b Hok Hn) as Hs.
  destruct (run_op _ _ now o b) as [b' r]. destruct Hs as (Hok' & _ & Hc). split; [done|].
  intros i. simpl. by rewrite Hc, Hq.
Qed.

#[export] Program Instance offline_active_laws : ActiveLaws (backend S) := {
  al_ok := offline_ok;
  al_count := fun b id => active_of (local b) id
}.
Next Obligation.
  intros b id (_ & _ & _ & [_ Ha _ _]). unfold active_of. destruct (l_active _ !! id) eqn:E; simpl; [|lia].
  apply Ha in E. lia.
Qed.
Next Obligation.
  intros now id b Hok. pose proof (offline_ok_step (IncrementActive id) now b Hok eq_refl) as Hs.
  simpl in *. unfold mbind, st_bind in Hs. destruct (increment_active now id b) as [b' [n|e]];
    destruct Hs as (Hok' & Hret & Hc); [|done]. split_and!; [done..|]. intros i. rewrite Hc.
  rewrite String.eqb_sym. destruct (String.eqb i id); lia.
Qed.
Next Obligation.
  intros now id b Hok Hpos. pose proof (offline_ok_step (DecrementActive id) now b Hok eq_refl) as Hs.
  simpl in *. unfold mbind, st_bind in Hs. destruct (decrement_active now id b) as [b' [n|e]];
    destruct Hs as (Hok' & Hret & Hc); [|done]. split_and!; [done..|]. intros i. rewrite Hc.
  rewrite String.eqb_sym. destruct (String.eqb_spec i id) as [->|]; lia.
Qed.
Next Obligation.
  intros now id ms secs_ text h b Hok keeps.
  split_and!.
  - by apply (offline_quiet _ (RecordLatency id ms) now).
  - by apply (offline_quiet _ (RecordSuccess id) now).
  - apply (offline_quiet _ (RecordFailure id text) now); [done..|]. symmetry. apply fst_bind_tt.
  - by apply (offline_quiet _ (SetCooldown id secs_ text) now).
  - by apply (offline_quiet _ (SetHealth id h) now).
  - apply (offline_quiet _ (IsCooledDown id) now); [done..|]. symmetry. apply fst_bind_tt.
  - apply (offline_quiet _ (GetHealth id) now); [done..|]. symmetry. apply fst_bind_tt.
Qed.
Next Obligation.
  intros now id ms h b Hok.
  assert (Hret : forall o, needs_backend o = true ->
    is_ret (snd (run_op render_float render_json_string now o b)) = true).
  { intros o Hn. pose proof (offline_ok_step o now b Hok Hn) as Hs. destruct (run_op _ _ now o b) as [b1 r1]. by destruct Hs as (_ & ? & _). }
  split_and!; [apply (Hret (RecordLatency id ms))|apply (Hret (RecordSuccess id))|apply (Hret (SetHealth id h))]; done.
Qed.
End offline_laws.

(** ** Active counts are balanced *)

Section balance.
Context {B W R : Type} `{ActiveLaws B}.
Context (config : FallbackConfig) (reg : registry).
Context (allowed_fails : Z) (alert_callback : option (alert -> res exn unit)).
Context (parsedate : string -> option Z).
Context (clock : W -> Z) (sleep : Q -> W -> W) (jitter : W -> Q).
Context (execute : Deployment -> pyfloat -> st W exn R).
Context (on_attempt : option (Deployment -> W -> W)).
Context (model_group : string) (timeout_seconds : pyval).
Context (timeout_for_deployment : option (Deployment -> res exn pyval)).
Local Abbreviation op := (st (fstate B W) exn).
Local Abbreviation backend_of s := (m_backend (f_manager s)).

Definition balanced {A} (m : op A) : Prop := forall s, al_ok (backend_of s) ->
  al_ok (backend_of (fst (m s))) /\
  forall i, al_count (backend_of (fst (m s))) i = al_count (backend_of s) i.

(** The computation leaves one more active request on the deployment. *)
Definition holds_one {A} (id : string) (m : op A) : Prop := forall s, al_ok (backend_of s) ->
  al_ok (backend_of (fst (m s))) /\
  forall i, al_count (backend_of (fst (m s))) i
            = al_count (backend_of s) i + (if String.eqb i id then 1 else 0).

Lemma balanced_bind {A C} (m : op A) (f : A -> op C) :
  balanced m -> (forall a, balanced (f a)) -> balanced (m ≫= f).
Proof.
  intros Hm Hf s Hs. unfold mbind, st_bind. destruct (Hm s Hs) as [Hok Hc].
  destruct (m s) as [s1 [a|e]]; simpl in *; [|done]. destruct (Hf a s1 Hok) as [Hok' Hc'].
  split; [done|]. intros i. by rewrite Hc'.
Qed.

Lemma balanced_ret {A} (a : A) : balanced (mret a).
Proof. by intros s Hs. Qed.
Lemma balanced_raise {A} (e : exn) : balanced (A := A) (raise e).
Proof. by intros s Hs. Qed.
Lemma balanced_lift {A} (r : res exn A) : balanced (lift r).
Proof. by intros s Hs. Qed.
Lemma balanced_world {A} (f : st W exn A) : balanced (on_world f).
Proof. intros s Hs. unfold on_world. by destruct (f (f_world s)). Qed.
Lemma balanced_event from to_ reason cls message n ok :
  balanced (record_fallback_event (B := B) config clock model_group from to_ reason cls message n ok).
Proof. by intros s Hs. Qed.
Lemma balanced_clock : balanced (read_clock clock).
Proof. by intros s Hs. Qed.
Lemma balanced_normalized d e : balanced (normalized parsedate clock d e).
Proof. by intros s Hs. Qed.

(** Operations of the cooldown manager that keep the counts. *)
Definition manager_quiet {A} (f : st (manager B) exn A) : Prop := forall m, al_ok (m_backend m) ->
  al_ok (m_backend (fst (f m))) /\
  forall i, al_count (m_backend (fst (f m))) i = al_count (m_backend m) i.

Lemma quiet_bind {A C} (m : st (manager B) exn A) (f : A -> st (manager B) exn C) :
  manager_quiet m -> (forall a, manager_quiet (f a)) -> manager_quiet (m ≫= f).
Proof.
  intros Hm Hf s Hs. unfold mbind, st_bind. destruct (Hm s Hs) as [Hok Hc].
  destruct (m s) as [s1 [a|e]]; simpl in *; [|done]. destruct (Hf a s1 Hok) as [Hok' Hc'].
  split; [done|]. intros i. by rewrite Hc'.
Qed.
Lemma quiet_ret {A} (a : A) : manager_quiet (mret a).
Proof. by intros s Hs. Qed.
Lemma quiet_backend {A} (f : st B exn A) :
  (forall b, al_ok b -> al_ok (fst (f b)) /\ forall i, al_count (fst (f b)) i = al_count b i) ->
  manager_quiet (on_backend f).
Proof. intros Hf m Hm. specialize (Hf (m_backend m) Hm). unfold on_backend. by destruct (f (m_backend m)). Qed.

Lemma quiet_record_success now id : manager_quiet (record_success now id).
Proof.
  apply quiet_bind; [|intros []]; apply quiet_backend; intros b Hb;
    by apply (al_quiet now id 0 0 "" true b Hb).
Qed.

Lemma quiet_enter_cooldown now id reason n : manager_quiet (enter_cooldown alert_callback now id reason n).
Proof.
  apply quiet_bind; [|intros []; apply quiet_bind; [|intros []]].
  - intros m Hm. apply quiet_backend; [|done]. intros b Hb. by apply (al_quiet now id 0 _ reason true b Hb).
  - apply quiet_backend. intros b Hb. by apply (al_quiet now id 0 0 "" false b Hb).
  - intros m Hm. unfold send_alert. by destruct alert_callback.
Qed.

Lemma quiet_record_failure now id error exc affects :
  manager_quiet (record_failure allowed_fails alert_callback now id error exc affects).
Proof.
  unfold record_failure. destruct (match affects, exc with None, Some e => _ | _, _ => _ end) as [[]|]; [|apply quiet_ret|].
  all: apply quiet_bind; [apply quiet_backend; intros b Hb; by apply (al_quiet now id 0 0 error true b Hb)|];
    intros n; destruct (allowed_fails <? n); [|apply quiet_ret];
    apply quiet_bind; [apply quiet_enter_cooldown|intros; apply quiet_ret].
Qed.

Lemma balanced_manager {A} (f : Z -> st (manager B) exn A) :
  (forall now, manager_quiet (f now)) -> balanced (on_manager clock f).
Proof.
  intros Hf s Hs. specialize (Hf (clock (f_world s)) (f_manager s) Hs). unfold on_manager.
  by destruct (f _ (f_manager s)).
Qed.

Lemma balanced_available d : balanced (available (B := B) clock d).
Proof.
  unfold available. apply balanced_bind.
  - apply balanced_manager. intros now. apply quiet_backend. intros b Hb. by apply (al_quiet now _ 0 0 "" true b Hb).
  - intros []; [apply balanced_ret|]. apply balanced_bind; [|intros; apply balanced_ret].
    apply balanced_manager. intros now. apply quiet_backend. intros b Hb. by apply (al_quiet now _ 0 0 "" true b Hb).
Qed.

Lemma holds_one_then {A C} id (m : op A) (f : A -> op C) :
  balanced m -> (forall a, holds_one id (f a)) -> (forall s, al_ok (backend_of s) -> is_ret (snd (m s)) = true) ->
  holds_one id (m ≫= f).
Proof.
  intros Hm Hf Hr s Hs. unfold mbind, st_bind. destruct (Hm s Hs) as [Hok Hc]. specialize (Hr s Hs).
  destruct (m s) as [s1 [a|e]]; simpl in *; [|done]. destruct (Hf a s1 Hok) as [Hok' Hc'].
  split; [done|]. intros i. by rewrite Hc', Hc.
Qed.

Lemma increment_then {A} d (f : Z -> op A) :
  (forall n, balanced (f n)) ->
  holds_one (deployment_id d)
    (n ← on_state clock (fun now => be_increment_active now (deployment_id d)); f n).
Proof.
  intros Hf s Hs. unfold mbind, st_bind, on_state, on_manager, on_backend.
  pose proof (al_increment (clock (f_world s)) (deployment_id d) (backend_of s) Hs) as Hi.
  destruct (be_increment_active _ _ (backend_of s)) as [b [n|e]]; destruct Hi as (Hok & Hr & Hc); [|done].
  simpl. destruct (Hf n (mkF (mkManager b (m_cooldown_time (f_manager s)) (m_alerts (f_manager s))) (f_events s) (f_world s)) Hok)
    as [Hok' Hc']. split; [done|]. intros i. by rewrite Hc', <- Hc.
Qed.

Lemma attempt_body_holds early d ev :
  balanced ev ->
  holds_one (deployment_id d) (attempt_body config clock execute on_attempt timeout_seconds
    timeout_for_deployment early d ev).
Proof.
  intros Hev. unfold attempt_body.
  apply holds_one_then; [apply balanced_clock| |by intros s Hs]. intros before.
  apply holds_one_then; [apply balanced_world| |by intros s Hs]. intros [].
  apply increment_then. intros _. apply balanced_bind; [apply balanced_clock|]. intros after.
  apply balanced_bind; [apply balanced_bind; [apply balanced_lift|intros t; apply balanced_world]|].
  intros result. apply balanced_bind; [apply balanced_clock|]. intros ended.
  apply balanced_bind; [|intros _; apply balanced_bind; [|intros _; apply balanced_bind; [done|intros _; apply balanced_ret]]].
  - apply balanced_manager. intros now. apply quiet_backend. intros b Hb. by apply (al_quiet now _ _ 0 "" true b Hb).
  - apply balanced_manager. intros now. apply quiet_record_success.
Qed.

(** The [finally] clause gives the active request back. *)
Lemma guarded_attempt_balanced {A} d (body : op A) handler :
  holds_one (deployment_id d) body -> (forall e, balanced (handler e)) ->
  balanced (guarded_attempt clock d body handler).
Proof.
  intros Hb Hh s Hs. unfold guarded_attempt, try_finally, try_except.
  set (release := (_ ← on_state clock (fun now => be_decrement_active now (deployment_id d)); mret tt) : op unit).
  assert (Hone : forall s1, al_ok (backend_of s1) ->
    (forall i, al_count (backend_of s1) i = al_count (backend_of s) i + (if String.eqb i (deployment_id d) then 1 else 0)) ->
    let s2 := fst (release s1) in
    al_ok (backend_of s2) /\ forall i, al_count (backend_of s2) i = al_count (backend_of s) i).
  { intros s1 Hok1 Hc1 s2. subst s2 release. rewrite fst_bind_tt. unfold on_state, on_manager, on_backend.
    pose proof (al_nonneg (backend_of s) (deployment_id d) Hs) as Hnn.
    pose proof (Hc1 (deployment_id d)) as Hpos. rewrite String.eqb_refl in Hpos.
    pose proof (al_decrement (clock (f_world s1)) (deployment_id d) (backend_of s1) Hok1 ltac:(lia)) as Hd.
    destruct (be_decrement_active _ _ (backend_of s1)) as [b r]. destruct Hd as (Hok & _ & Hc). simpl.
    split; [done|]. intros i. rewrite Hc, Hc1. lia. }
  destruct (Hb s Hs) as [Hok1 Hc1]. destruct (body s) as [s1 [a|e]]; simpl in Hok1, Hc1.
  - specialize (Hone s1 Hok1 Hc1). by destruct (release s1) as [s2 [[]|e2]].
  - destruct (Hh e s1 Hok1) as [Hok2 Hc2]. destruct (handler e s1) as [s2 r]. simpl in Hok2, Hc2.
    assert (Hc3 : forall i, al_count (backend_of s2) i = al_count (backend_of s) i + (if String.eqb i (deployment_id d) then 1 else 0))
      by (intros i; by rewrite Hc2).
    specialize (Hone s2 Hok2 Hc3). by destruct (release s2) as [s3 [[]|e3]].
Qed.

Lemma classified_handler_balanced from c d e :
  balanced (classified_handler (R := R) config allowed_fails alert_callback parsedate clock model_group from c d e).
Proof.
  apply balanced_bind; [apply balanced_normalized|]. intros [[error cls] allow].
  apply balanced_bind; [apply balanced_manager; intros; apply quiet_record_failure|]. intros _.
  apply balanced_bind; [apply balanced_event|]. intros _.
  destruct (negb allow); [apply balanced_raise|]. case_match; [apply balanced_raise|apply balanced_ret].
Qed.

Lemma try_classified_balanced from c chain :
  balanced (try_classified_fallbacks config allowed_fails alert_callback parsedate clock execute on_attempt
    model_group timeout_seconds timeout_for_deployment from c chain).
Proof.
  induction chain as [|d chain IH]; simpl; [apply balanced_ret|].
  apply balanced_bind; [apply balanced_available|]. intros []; [|exact IH].
  apply balanced_bind; [|intros [x|]; [apply balanced_ret|exact IH]].
  apply guarded_attempt_balanced; [|intros e; apply classified_handler_balanced].
  intros s Hs. rewrite fst_bind_ret. apply attempt_body_holds; [apply balanced_event|done].
Qed.

Lemma run_attempt_balanced retries attempt classes fell previous d :
  balanced (run_attempt config reg allowed_fails alert_callback parsedate clock sleep jitter execute on_attempt
    model_group timeout_seconds timeout_for_deployment retries attempt classes fell previous d).
Proof.
  apply guarded_attempt_balanced.
  - intros s Hs. rewrite fst_bind_ret. apply attempt_body_holds; [|done].
    destruct fell; [apply balanced_event|apply balanced_ret].
  - intros e. apply balanced_bind; [apply balanced_normalized|]. intros [[error cls] allow].
    apply balanced_bind; [apply balanced_manager; intros; apply quiet_record_failure|]. intros _.
    apply balanced_bind; [apply balanced_event|]. intros _. apply balanced_bind.
    { destruct allow; [apply try_classified_balanced|apply balanced_ret]. }
    intros [[x served]|]; [apply balanced_ret|]. case_match; [apply balanced_raise|].
    case_match; [|apply balanced_ret]. apply balanced_bind; [apply balanced_world|intros; apply balanced_ret].
Qed.

Lemma attempts_balanced left retries attempt classes fell previous d last :
  balanced (attempts config reg allowed_fails alert_callback parsedate clock sleep jitter execute on_attempt
    model_group timeout_seconds timeout_for_deployment left retries attempt classes fell previous d last).
Proof.
  revert attempt last. induction left as [|left IH]; intros attempt last; simpl; [apply balanced_ret|].
  apply balanced_bind; [apply run_attempt_balanced|]. intros [x served|e|e]; [apply balanced_ret|apply IH|apply balanced_ret].
Qed.

Lemma run_chain_balanced retries classes fell previous last chain :
  balanced (run_chain config reg allowed_fails alert_callback parsedate clock sleep jitter execute on_attempt
    model_group timeout_seconds timeout_for_deployment retries classes fell previous last chain).
Proof.
  revert fell previous last. induction chain as [|d chain IH]; intros fell previous last; cbn [run_chain];
    [apply balanced_raise|].
  apply balanced_bind; [apply balanced_available|]. intros []; [|apply IH].
  apply balanced_bind; [apply attempts_balanced|]. intros [[x|] e]; [apply balanced_ret|apply IH].
Qed.
End balance.

(** C10: The active-request counts are balanced: whatever deployments are tried,
    retried or fallen back to, and whether the request returns or raises, every
    deployment's count ends where it was, for any backend inside the contract
    [ActiveLaws] — which [RedisStateBackend] without Redis is. *)
Theorem failover_balances_active {B W R} `{ActiveLaws B} (config : FallbackConfig) (reg : registry)
    (allowed_fails : Z) (alert_callback : option (alert -> res exn unit))
    (parsedate : string -> option Z) (clock : W -> Z) (sleep : Q -> W -> W) (jitter : W -> Q)
    (execute : Deployment -> pyfloat -> st W exn R) (on_attempt : option (Deployment -> W -> W))
    (model_group : string) (timeout_seconds : pyval)
    (timeout_for_deployment : option (Deployment -> res exn pyval)) (primary : Deployment)
    (retry_max_attempts : option Z) (retryable : option (list string)) (s : fstate B W) :
  al_ok (m_backend (f_manager s)) ->
  let s' := fst (execute_with_failover config reg allowed_fails alert_callback parsedate clock sleep
                   jitter execute on_attempt model_group timeout_seconds timeout_for_deployment
                   primary retry_max_attempts retryable s) in
  al_ok (m_backend (f_manager s')) /\
  forall id, al_count (m_backend (f_manager s')) id = al_count (m_backend (f_manager s)) id.
Proof. intros Hok. by apply run_chain_balanced. Qed.

#[local] Existing Instances no_server no_rendering no_repr.

Definition sample_config : FallbackConfig :=
  mkFallback 1 0 (FFin 600) {["gpt"%string := ["other"%string]]} ∅ ∅ 2 30 true 2.
Definition sample_registry : registry :=
  [("gpt"%string, [sample_deployment "a" 1 0; sample_deployment "b" 1 0]);
   ("other"%string, [sample_deployment "b" 1 0; sample_deployment "c" 1 0])].

(** A world that counts the upstream calls and succeeds from the given one on. *)
Definition counting_execute (succeeds_from : Z) : Deployment -> pyfloat -> st Z exn string :=
  fun d _ w => (w + 1, if succeeds_from <=? w + 1 then Ret (deployment_id d) else Raise EAsyncioTimeout).

Definition sample_run (succeeds_from : Z) :=
  execute_with_failover (B := backend unit) sample_config sample_registry 5 None (fun _ => None)
    (fun w => w * usec) (fun _ w => w) (fun _ => 0%Q) (counting_execute succeeds_from) None "gpt" PyNone None
    (sample_deployment "a" 1 0) None None (mkF (mkManager offline 60 []) [] 1).

Lemma failover_balances_active_witness :
  snd (sample_run 4) = Ret ("b"%string, sample_deployment "b" 1 0) /\
  active_of (local (m_backend (f_manager (fst (sample_run 4))))) "a" = 0.
Proof.
  split; [vm_compute; reflexivity|].
  refine (proj2 (failover_balances_active (B := backend unit) sample_config sample_registry 5 None (fun _ => None)
    (fun w => w * usec) (fun _ w => w) (fun _ => 0%Q) (counting_execute 4) None "gpt" PyNone None
    (sample_deployment "a" 1 0) None None (mkF (mkManager offline 60 []) [] 1) _) "a"%string).
  split; [reflexivity|split; [reflexivity|split; [vm_compute; discriminate|apply wf_empty]]].
Defined.

(** ** Bounded work and bounded history *)

Section bounds.
Context {B W R : Type} `{DeploymentStateBackend B}.
Context (config : FallbackConfig) (reg : registry).
Context (allowed_fails : Z) (alert_callback : option (alert -> res exn unit)).
Context (parsedate : string -> option Z).
Context (clock : W -> Z) (sleep : Q -> W -> W) (jitter : W -> Q).
Context (execute : Deployment -> pyfloat -> st W exn R).
Context (on_attempt : option (Deployment -> W -> W)).
Context (model_group : string) (timeout_seconds : pyval).
Context (timeout_for_deployment : option (Deployment -> res exn pyval)).
Local Abbreviation op := (st (fstate B W) exn).

(** Upstream calls made so far, as the world counts them. *)
Context (calls : W -> Z).
Hypothesis Hexecute : forall d t w, calls (fst (execute d t w)) <= calls w + 1.
Hypothesis Hsleep : forall q w, calls (sleep q w) <= calls w.
Hypothesis Hnotify : forall f d w, on_attempt = Some f -> calls (f d w) <= calls w.

(** At most [n] upstream calls, and a history within its bound stays there. *)
Definition costs {A} (m : op A) (n : Z) : Prop := forall s,
  calls (f_world (fst (m s))) <= calls (f_world s) + n /\
  ((length (f_events s) <= history_size config)%nat ->
   (length (f_events (fst (m s))) <= history_size config)%nat).

Lemma costs_bind {A C} (m : op A) (f : A -> op C) n k :
  0 <= k -> costs m n -> (forall a, costs (f a) k) -> costs (m ≫= f) (n + k).
Proof.
  intros Hk Hm Hf s. unfold mbind, st_bind. destruct (Hm s) as [Hc Hh].
  destruct (m s) as [s1 [a|e]]; simpl in *; [|split; [lia|done]].
  destruct (Hf a s1) as [Hc' Hh']. split; [lia|auto].
Qed.

Lemma costs_weaken {A} (m : op A) n k : n <= k -> costs m n -> costs m k.
Proof. intros Hnk Hm s. destruct (Hm s). split; [lia|done]. Qed.

Lemma free_bind {A C} (m : op A) (f : A -> op C) k :
  0 <= k -> costs m 0 -> (forall a, costs (f a) k) -> costs (m ≫= f) k.
Proof. intros Hk Hm Hf. eapply costs_weaken; [|by apply (costs_bind m f 0 k)]. lia. Qed.

Lemma free_ret {A} (a : A) : costs (mret a) 0.
Proof. intros s. simpl. split; [lia|done]. Qed.
Lemma free_raise {A} (e : exn) : costs (A := A) (raise e) 0.
Proof. intros s. simpl. split; [lia|done]. Qed.
Lemma free_lift {A} (r : res exn A) : costs (lift r) 0.
Proof. intros s. simpl. split; [lia|done]. Qed.
Lemma free_clock : costs (read_clock clock) 0.
Proof. intros s. simpl. split; [lia|done]. Qed.
Lemma free_normalized d e : costs (normalized parsedate clock d e) 0.
Proof. intros s. simpl. split; [lia|done]. Qed.
Lemma free_manager {A} (f : Z -> st (manager B) exn A) : costs (on_manager clock f) 0.
Proof. intros s. unfold on_manager. destruct (f _ (f_manager s)). simpl. split; [lia|done]. Qed.
Lemma free_event from to_ reason cls message n ok :
  costs (record_fallback_event (B := B) config clock model_group from to_ reason cls message n ok) 0.
Proof.
  intros s. simpl. split; [lia|]. intros Hl. unfold push_event. rewrite length_drop, length_app. simpl. lia.
Qed.
Lemma free_notify d : costs (notify_attempt on_attempt d) 0.
Proof.
  intros s. unfold notify_attempt, on_world. simpl. split; [|done].
  destruct on_attempt as [f|] eqn:E; [|lia]. specialize (Hnotify f d (f_world s) eq_refl). lia.
Qed.
Lemma one_execute d t : costs (on_world (execute d t)) 1.
Proof.
  intros s. unfold on_world. pose proof (Hexecute d t (f_world s)).
  destruct (execute d t (f_world s)) as [w r]. simpl in *. done.
Qed.

Lemma free_available d : costs (available (B := B) clock d) 0.
Proof.
  unfold available. apply free_bind; [lia|apply free_manager|]. intros []; [apply free_ret|].
  apply free_bind; [lia|apply free_manager|]. intros; apply free_ret.
Qed.

Lemma attempt_body_one early d ev : costs ev 0 ->
  costs (attempt_body config clock execute on_attempt timeout_seconds timeout_for_deployment early d ev) 1.
Proof.
  intros Hev. unfold attempt_body.
  apply free_bind; [lia|apply free_clock|intros before].
  apply free_bind; [lia|apply free_notify|intros _].
  apply free_bind; [lia|apply free_manager|intros _].
  apply free_bind; [lia|apply free_clock|intros after].
  apply (costs_bind _ _ 1 0); [lia| |intros result].
  - unfold timed_execute. apply free_bind; [lia|apply free_lift|intros t; apply one_execute].
  - apply free_bind; [lia|apply free_clock|intros ended].
    apply free_bind; [lia|apply free_manager|intros _].
    apply free_bind; [lia|apply free_manager|intros _].
    apply free_bind; [lia|done|intros _; apply free_ret].
Qed.

Lemma guarded_attempt_costs {A} d (body : op A) handler n k :
  0 <= k -> costs body n -> (forall e, costs (handler e) k) ->
  costs (guarded_attempt clock d body handler) (n + k).
Proof.
  intros Hk Hb Hh s. unfold guarded_attempt, try_finally, try_except.
  set (release := (_ ← on_state clock (fun now => be_decrement_active now (deployment_id d)); mret tt) : op unit).
  assert (Hrel : costs release 0) by (apply free_bind; [lia|apply free_manager|intros; apply free_ret]).
  destruct (Hb s) as [Hc Hl]. destruct (body s) as [s1 [a|e]]; simpl in Hc, Hl.
  - destruct (Hrel s1) as [Hc1 Hl1]. destruct (release s1) as [s2 [[]|e2]]; simpl in *; (split; [lia|auto]).
  - destruct (Hh e s1) as [Hc1 Hl1]. destruct (handler e s1) as [s2 r]. simpl in Hc1, Hl1.
    destruct (Hrel s2) as [Hc2 Hl2]. destruct (release s2) as [s3 [[]|e3]]; simpl in *; (split; [lia|auto]).
Qed.

Lemma classified_handler_free from c d e :
  costs (classified_handler (R := R) config allowed_fails alert_callback parsedate clock model_group from c d e) 0.
Proof.
  apply free_bind; [lia|apply free_normalized|]. intros [[error cls] allow].
  apply free_bind; [lia|apply free_manager|intros _].
  apply free_bind; [lia|apply free_event|intros _].
  destruct (negb allow); [apply free_raise|]. case_match; [apply free_raise|apply free_ret].
Qed.

Lemma try_classified_costs from c chain :
  costs (try_classified_fallbacks config allowed_fails alert_callback parsedate clock execute on_attempt
    model_group timeout_seconds timeout_for_deployment from c chain) (Z.of_nat (length chain)).
Proof.
  induction chain as [|d chain IH]; [apply free_ret|]. cbn [try_classified_fallbacks length].
  apply free_bind; [lia|apply free_available|]. intros [].
  - eapply costs_weaken; [|apply (costs_bind _ _ 1 (Z.of_nat (length chain))); [lia| |]]; [lia| |].
    + apply (guarded_attempt_costs _ _ _ 1 0); [lia| |intros e; apply classified_handler_free].
      apply (costs_bind _ _ 1 0); [lia|apply attempt_body_one, free_event|intros; apply free_ret].
    + intros [x|]; [|exact IH]. eapply costs_weaken; [|apply free_ret]. lia.
  - eapply costs_weaken; [|exact IH]. lia.
Qed.

(** The longest classified chain of the model group. *)
Definition classified_bound : Z :=
  Z.max (Z.of_nat (length (get_classified_fallbacks config reg CONTEXT_WINDOW model_group)))
        (Z.of_nat (length (get_classified_fallbacks config reg CONTENT_POLICY model_group))).

Lemma classified_bound_ge c :
  Z.of_nat (length (get_classified_fallbacks config reg c model_group)) <= classified_bound.
Proof. unfold classified_bound. destruct c; try lia; simpl; lia. Qed.

Lemma run_attempt_costs retries attempt classes fell previous d :
  costs (run_attempt config reg allowed_fails alert_callback parsedate clock sleep jitter execute on_attempt
    model_group timeout_seconds timeout_for_deployment retries attempt classes fell previous d)
    (1 + classified_bound).
Proof.
  assert (Hb : 0 <= classified_bound) by (unfold classified_bound; lia).
  apply guarded_attempt_costs; [done| |].
  - apply (costs_bind _ _ 1 0); [lia|apply attempt_body_one|intros; apply free_ret].
    destruct fell; [apply free_event|apply free_ret].
  - intros e. apply free_bind; [done|apply free_normalized|]. intros [[error cls] allow].
    apply free_bind; [done|apply free_manager|intros _].
    apply free_bind; [done|apply free_event|intros _].
    eapply costs_weaken; [|apply (costs_bind _ _ classified_bound 0)]; [lia|lia| |].
    + destruct allow; [|eapply costs_weaken; [|apply free_ret]; lia].
      eapply costs_weaken; [apply (classified_bound_ge cls)|apply try_classified_costs].
    + intros [[x served]|]; [apply free_ret|]. case_match; [apply free_raise|].
      case_match; [|apply free_ret]. apply free_bind; [lia| |intros; apply free_ret].
      intros s. unfold on_world. simpl. pose proof (Hsleep (compute_backoff config (jitter (f_world s)) attempt) (f_world s)).
      split; [lia|done].
Qed.

Lemma attempts_costs left retries attempt classes fell previous d last :
  costs (attempts config reg allowed_fails alert_callback parsedate clock sleep jitter execute on_attempt
    model_group timeout_seconds timeout_for_deployment left retries attempt classes fell previous d last)
    (Z.of_nat left * (1 + classified_bound)).
Proof.
  assert (Hb : 0 <= classified_bound) by (unfold classified_bound; lia).
  revert attempt last. induction left as [|left IH]; intros attempt last; [apply free_ret|]. cbn [attempts].
  eapply costs_weaken; [|apply (costs_bind _ _ (1 + classified_bound) (Z.of_nat left * (1 + classified_bound)))];
    [lia|nia|apply run_attempt_costs|].
  intros [x served|e|e]; [|apply IH|]; (eapply costs_weaken; [|apply free_ret]; nia).
Qed.

Lemma run_chain_costs retries classes fell previous last chain : 0 <= retries ->
  costs (run_chain config reg allowed_fails alert_callback parsedate clock sleep jitter execute on_attempt
    model_group timeout_seconds timeout_for_deployment retries classes fell previous last chain)
    (Z.of_nat (length chain) * ((retries + 1) * (1 + classified_bound))).
Proof.
  intros Hr. assert (Hb : 0 <= classified_bound) by (unfold classified_bound; lia).
  revert fell previous last. induction chain as [|d chain IH]; intros fell previous last;
    cbn [run_chain]; [apply free_raise|].
  apply free_bind; [nia|apply free_available|]. intros [].
  - eapply costs_weaken; [|apply (costs_bind _ _ ((retries + 1) * (1 + classified_bound))
      (Z.of_nat (length chain) * ((retries + 1) * (1 + classified_bound))))].
    + cbn [length]. lia.
    + nia.
    + eapply costs_weaken; [|apply attempts_costs]. rewrite Nat2Z.inj_succ, Z2Nat.id by lia. lia.
    + intros [[x|] e]; [|apply IH]. eapply costs_weaken; [|apply free_ret]. nia.
  - eapply costs_weaken; [|apply IH]. cbn [length]. nia.
Qed.
End bounds.

(** A request makes a bounded number of upstream calls: at most the length of
    its chain times the attempts per deployment, each attempt counting one
    call and at most one per deployment of the longest classified fallback
    chain; and it leaves the event history within its configured size. *)
Theorem failover_bounded {B W R} `{DeploymentStateBackend B} (config : FallbackConfig) (reg : registry)
    (allowed_fails : Z) (alert_callback : option (alert -> res exn unit))
    (parsedate : string -> option Z) (clock : W -> Z) (sleep : Q -> W -> W) (jitter : W -> Q)
    (execute : Deployment -> pyfloat -> st W exn R) (on_attempt : option (Deployment -> W -> W))
    (model_group : string) (timeout_seconds : pyval)
    (timeout_for_deployment : option (Deployment -> res exn pyval)) (primary : Deployment)
    (retry_max_attempts : option Z) (retryable : option (list string)) (calls : W -> Z) (s : fstate B W) :
  (forall d t w, calls (fst (execute d t w)) <= calls w + 1) ->
  (forall q w, calls (sleep q w) <= calls w) ->
  (forall f d w, on_attempt = Some f -> calls (f d w) <= calls w) ->
  (length (f_events s) <= history_size config)%nat ->
  let s' := fst (execute_with_failover config reg allowed_fails alert_callback parsedate clock sleep
                   jitter execute on_attempt model_group timeout_seconds timeout_for_deployment
                   primary retry_max_attempts retryable s) in
  calls (f_world s') <= calls (f_world s) +
    Z.of_nat (length (build_fallback_chain config reg primary model_group)) *
    ((effective_retry_count config retry_max_attempts + 1) *
     (1 + classified_bound config reg model_group)) /\
  (length (f_events s') <= history_size config)%nat.
Proof.
  intros He Hs Hn Hl s'. unfold s', execute_with_failover.
  destruct (run_chain_costs config reg allowed_fails alert_callback parsedate clock sleep jitter execute on_attempt
    model_group timeout_seconds timeout_for_deployment calls He Hs Hn
    (effective_retry_count config retry_max_attempts) (normalize_retryable_error_classes retryable) false
    (deployment_id primary) None (build_fallback_chain config reg primary model_group)
    ltac:(unfold effective_retry_count; lia) s) as [Hc Hh].
  split; [exact Hc|auto].
Qed.

Lemma failover_bounded_witness : f_world (fst (sample_run 100)) <= 1 + 3 * (2 * 1).
Proof.
  unfold sample_run.
  destruct (failover_bounded (B := backend unit) sample_config sample_registry 5 None (fun _ => None)
    (fun w => w * usec) (fun _ w => w) (fun _ => 0%Q) (counting_execute 100) None "gpt" PyNone None
    (sample_deployment "a" 1 0) None None (fun w => w) (mkF (mkManager offline 60 []) [] 1)) as [Hb _].
  - intros d t w. simpl. lia.
  - intros q w. lia.
  - intros f d w Hf. discriminate.
  - simpl. lia.
  - eapply Z.le_trans; [exact Hb|]. vm_compute. discriminate.
Defined.

(** ** The first attempt on a healthy primary *)

Section first_attempt.
Context {B W R : Type} `{ActiveLaws B}.
Context (config : FallbackConfig) (reg : registry).
Context (allowed_fails : Z) (alert_callback : option (alert -> res exn unit)).
Context (parsedate : string -> option Z).
Context (clock : W -> Z) (sleep : Q -> W -> W) (jitter : W -> Q).
Context (execute : Deployment -> pyfloat -> st W exn R).
Context (on_attempt : option (Deployment -> W -> W)).
Context (model_group : string) (timeout_seconds : pyval).
Context (timeout_for_deployment : option (Deployment -> res exn pyval)).

(** The world the upstream call of the attempt starts in. *)
Definition notified (d : Deployment) (w : W) : W :=
  match on_attempt with Some f => f d w | None => w end.

Lemma manager_world {A} (f : Z -> st (manager B) exn A) (s : fstate B W) :
  f_world (fst (on_manager clock f s)) = f_world s.
Proof. unfold on_manager. by destruct (f _ (f_manager s)). Qed.

Lemma increment_call d (s : fstate B W) :
  al_ok (m_backend (f_manager s)) ->
  exists m n, on_state clock (fun now => be_increment_active now (deployment_id d)) s
              = (mkF m (f_events s) (f_world s), Ret n) /\ al_ok (m_backend m) /\
    forall i, al_count (m_backend m) i = al_count (m_backend (f_manager s)) i
                                         + (if String.eqb i (deployment_id d) then 1 else 0).
Proof.
  intros Hok. unfold on_state, on_manager, on_backend.
  pose proof (al_increment (clock (f_world s)) (deployment_id d) (m_backend (f_manager s)) Hok) as Hi.
  destruct (be_increment_active _ _ (m_backend (f_manager s))) as [b [n|e]]; destruct Hi as (Hok' & Hr & Hc); [|done].
  eexists _, n. split; [reflexivity|done].
Qed.

(** Up to and including the upstream call, an attempt is the increment and the call. *)
Lemma attempt_body_call early d ev (s : fstate B W) t w2 r :
  al_ok (m_backend (f_manager s)) ->
  effective_attempt_timeout config d timeout_seconds timeout_for_deployment = Ret t ->
  execute d t (notified d (f_world s)) = (w2, r) ->
  exists m, al_ok (m_backend m) /\
    (forall i, al_count (m_backend m) i = al_count (m_backend (f_manager s)) i
                                          + (if String.eqb i (deployment_id d) then 1 else 0)) /\
    match r with
    | Raise e => attempt_body config clock execute on_attempt timeout_seconds timeout_for_deployment early d ev s
                 = (mkF m (f_events s) w2, Raise e)
    | Ret a => exists q, attempt_body config clock execute on_attempt timeout_seconds timeout_for_deployment early d ev s
                 = (_ ← on_state clock (fun now => be_record_latency now (deployment_id d) q);
                    _ ← on_manager clock (fun now => record_success now (deployment_id d));
                    _ ← ev; mret a) (mkF m (f_events s) w2)
    end.
Proof.
  intros Hok Ht He.
  destruct (increment_call d (mkF (f_manager s) (f_events s) (notified d (f_world s))) Hok) as (m & n & Hi & Hok' & Hc).
  exists m. split; [done|split; [done|]].
  unfold attempt_body, read_clock, notify_attempt, on_world, timed_execute, lift.
  unfold mbind, st_bind. fold (notified d (f_world s)). rewrite Hi, Ht. simpl. unfold on_world. simpl. rewrite He.
  destruct r as [a|e]; [|done]. eexists. reflexivity.
Qed.

Lemma release_returns d (s : fstate B W) :
  al_ok (m_backend (f_manager s)) -> 0 < al_count (m_backend (f_manager s)) (deployment_id d) ->
  exists m, (_ ← on_state clock (fun now => be_decrement_active now (deployment_id d)); mret tt) s
            = (mkF m (f_events s) (f_world s), Ret tt).
Proof.
  intros Hok Hpos. unfold mbind, st_bind, on_state, on_manager, on_backend.
  pose proof (al_decrement (clock (f_world s)) (deployment_id d) (m_backend (f_manager s)) Hok Hpos) as Hd.
  destruct (be_decrement_active _ _ (m_backend (f_manager s))) as [b [n|e]]; destruct Hd as (_ & Hr & _); [|done].
  by eexists.
Qed.

(** The bookkeeping of a success, which returns. *)
Lemma backend_call_returns {A} (f : Z -> st B exn A) (s : fstate B W) :
  al_ok (m_backend (f_manager s)) ->
  (forall now b, al_ok b -> (al_ok (fst (f now b)) /\ forall i, al_count (fst (f now b)) i = al_count b i) /\
     is_ret (snd (f now b)) = true) ->
  exists m a, on_state clock f s = (mkF m (f_events s) (f_world s), Ret a) /\ al_ok (m_backend m) /\
    forall i, al_count (m_backend m) i = al_count (m_backend (f_manager s)) i.
Proof.
  intros Hok Hf. specialize (Hf (clock (f_world s)) (m_backend (f_manager s)) Hok).
  unfold on_state, on_manager, on_backend. destruct (f _ (m_backend (f_manager s))) as [b [a|e]]; simpl in Hf;
    destruct Hf as [[Hok' Hc] Hr]; [|done]. eexists _, a. split; [reflexivity|done].
Qed.

Lemma bookkeeping_returns d q (a : R) (s : fstate B W) :
  al_ok (m_backend (f_manager s)) ->
  exists m, (_ ← on_state clock (fun now => be_record_latency now (deployment_id d) q);
             _ ← on_manager clock (fun now => record_success now (deployment_id d));
             _ ← mret tt; mret a) s = (mkF m (f_events s) (f_world s), Ret a) /\
    al_ok (m_backend m) /\ forall i, al_count (m_backend m) i = al_count (m_backend (f_manager s)) i.
Proof.
  intros Hok.
  destruct (backend_call_returns (fun now => be_record_latency now (deployment_id d) q) s Hok) as (m1 & a1 & H1 & Hok1 & Hc1).
  { intros now b Hb. split; [by apply (al_quiet now (deployment_id d) q 0 "" true b Hb)|].
    by apply (al_answers now (deployment_id d) q true b Hb). }
  destruct (backend_call_returns (fun now => be_record_success now (deployment_id d)) (mkF m1 (f_events s) (f_world s)) Hok1)
    as (m2 & a2 & H2 & Hok2 & Hc2).
  { intros now b Hb. split; [by apply (al_quiet now (deployment_id d) q 0 "" true b Hb)|].
    by apply (al_answers now (deployment_id d) q true b Hb). }
  destruct (backend_call_returns (fun now => be_set_health now (deployment_id d) true) (mkF m2 (f_events s) (f_world s)) Hok2)
    as (m3 & a3 & H3 & Hok3 & Hc3).
  { intros now b Hb. split; [by apply (al_quiet now (deployment_id d) q 0 "" true b Hb)|].
    by apply (al_answers now (deployment_id d) q true b Hb). }
  exists m3. split; [|split; [done|intros i; by rewrite Hc3; simpl; rewrite Hc2; simpl; rewrite Hc1]].
  unfold mbind, st_bind. rewrite H1.
  unfold on_state, on_manager in H2, H3 |- *. unfold record_success, mbind, st_bind. simpl in *.
  destruct (on_backend (be_record_success _ _) m1) as [m2' r2]. injection H2 as -> ->.
  destruct (on_backend (be_set_health _ _ true) m2) as [m3' r3]. by injection H3 as -> ->.
Qed.

(** A failure that is not the deployment's is not recorded against it. *)
Lemma request_fault_handler d retries classes n e c allow exc (s : fstate B W) :
  normalize_execution_error parsedate (clock (f_world s)) exc (deployment_id d) = (e, c, allow) ->
  HealthPolicy.affects_deployment_health e = false ->
  allow = false \/ get_classified_fallbacks config reg c model_group = [] ->
  exists events, attempt_handler (B := B) config reg allowed_fails alert_callback parsedate clock sleep jitter execute
    on_attempt model_group timeout_seconds timeout_for_deployment retries n classes d exc s
    = (mkF (f_manager s) events (f_world s), Raise e).
Proof.
  intros Hn Ha Hx. unfold attempt_handler, normalized, mbind, st_bind. rewrite Hn. unfold on_manager, record_failure.
  rewrite Ha. simpl. destruct Hx as [->| ->]; [|destruct allow]; simpl; unfold mbind, st_bind; simpl; by eexists.
Qed.

Lemma world_available d (s : fstate B W) : f_world (fst (available (B := B) clock d s)) = f_world s.
Proof.
  unfold available, mbind, st_bind. pose proof (manager_world
    (fun now => on_backend (be_is_cooled_down now (deployment_id d))) s) as H1.
  fold (on_state clock (fun now => be_is_cooled_down now (deployment_id d)) (W := W) (B := B)) in H1.
  destruct (on_state clock _ s) as [s1 [[]|e]]; simpl in *; try done.
  pose proof (manager_world (fun now => on_backend (be_get_health now (deployment_id d))) s1) as H2.
  fold (on_state clock (fun now => be_get_health now (deployment_id d)) (W := W) (B := B)) in H2.
  destruct (on_state clock _ s1) as [s2 [h|e]]; simpl in *; congruence.
Qed.
(** An attempt on the available primary that returns or raises decides the request. *)
Lemma first_attempt_decides primary retry_max_attempts retryable (s s1 s2 : fstate B W) (r : res exn (R * Deployment)) :
  available clock primary s = (s1, Ret true) ->
  run_attempt config reg allowed_fails alert_callback parsedate clock sleep jitter execute on_attempt model_group
    timeout_seconds timeout_for_deployment (effective_retry_count config retry_max_attempts) 0
    (normalize_retryable_error_classes retryable) false (deployment_id primary) primary s1
  = (s2, match r with Ret (x, d) => Ret (Returned x d) | Raise e => Raise e end) ->
  execute_with_failover config reg allowed_fails alert_callback parsedate clock sleep jitter execute on_attempt
    model_group timeout_seconds timeout_for_deployment primary retry_max_attempts retryable s = (s2, r).
Proof.
  intros Hav Hrun. unfold execute_with_failover.
  destruct (add_groups_spec reg [primary] (model_group :: default [] (fc_fallbacks config !! model_group))
    (NoDup_singleton _)) as [_ (l & Hchain & _)].
  change (build_fallback_chain config reg primary model_group) with
    (add_groups reg [primary] (model_group :: default [] (fc_fallbacks config !! model_group))).
  rewrite Hchain. cbn [app run_chain attempts]. unfold mbind, st_bind. rewrite Hav, Hrun. by destruct r as [[x d]|e].
Qed.

Lemma available_facts d (s s1 : fstate B W) ok :
  al_ok (m_backend (f_manager s)) -> available clock d s = (s1, Ret ok) ->
  f_world s1 = f_world s /\ al_ok (m_backend (f_manager s1)).
Proof.
  intros Hok Hav. pose proof (world_available d s) as Hw. pose proof (balanced_available clock d s Hok) as [Hb _].
  by rewrite Hav in Hw, Hb.
Qed.
End first_attempt.

(** A request-side error ends the request: when the primary is available and
    its upstream call fails with an error that is the request's own fault, and
    no classified fallback is configured for it, that error, normalised, is
    raised at once — no retry, no other deployment and no other upstream call. *)
Theorem request_fault_stops_chain {B W R} `{ActiveLaws B} (config : FallbackConfig) (reg : registry)
    (allowed_fails : Z) (alert_callback : option (alert -> res exn unit))
    (parsedate : string -> option Z) (clock : W -> Z) (sleep : Q -> W -> W) (jitter : W -> Q)
    (execute : Deployment -> pyfloat -> st W exn R) (on_attempt : option (Deployment -> W -> W))
    (model_group : string) (timeout_seconds : pyval)
    (timeout_for_deployment : option (Deployment -> res exn pyval)) (primary : Deployment)
    (retry_max_attempts : option Z) (retryable : option (list string)) (s s1 : fstate B W)
    (t : pyfloat) (w2 : W) (exc e : exn) (c : classification) (allow : bool) :
  al_ok (m_backend (f_manager s)) ->
  available clock primary s = (s1, Ret true) ->
  effective_attempt_timeout config primary timeout_seconds timeout_for_deployment = Ret t ->
  execute primary t (notified on_attempt primary (f_world s)) = (w2, Raise exc) ->
  normalize_execution_error parsedate (clock w2) exc (deployment_id primary) = (e, c, allow) ->
  HealthPolicy.affects_deployment_health e = false ->
  allow = false \/ get_classified_fallbacks config reg c model_group = [] ->
  let out := execute_with_failover config reg allowed_fails alert_callback parsedate clock sleep
               jitter execute on_attempt model_group timeout_seconds timeout_for_deployment
               primary retry_max_attempts retryable s in
  snd out = Raise e /\ f_world (fst out) = w2.
Proof.
  intros Hok Hav Ht He Hn Ha Hx out.
  destruct (available_facts clock primary s s1 true Hok Hav) as [Hw1 Hok1]. rewrite <- Hw1 in He.
  destruct (attempt_body_call config clock execute on_attempt timeout_seconds timeout_for_deployment true primary
    (mret tt) s1 t w2 (Raise exc) Hok1 Ht He) as (m & Hokm & Hcount & Hbody).
  destruct (request_fault_handler config reg allowed_fails alert_callback parsedate clock sleep jitter execute
    on_attempt model_group timeout_seconds timeout_for_deployment primary
    (effective_retry_count config retry_max_attempts) (normalize_retryable_error_classes retryable) 0 e c allow exc
    (mkF m (f_events s1) w2) Hn Ha Hx) as [events Hh].
  pose proof (al_nonneg (m_backend (f_manager s1)) (deployment_id primary) Hok1) as Hnn.
  destruct (release_returns clock primary (mkF m events w2)) as [m' Hrel]; [done| |].
  { simpl. rewrite Hcount, String.eqb_refl. lia. }
  assert (Hout : out = (mkF m' events w2, Raise e)); [|by rewrite Hout].
  eapply first_attempt_decides; [exact Hav|].
  unfold run_attempt, guarded_attempt, try_finally, try_except. unfold mbind at 1, st_bind at 1.
  rewrite Hbody, Hh. simpl in *. by rewrite Hrel.
Qed.

Definition bad_request : exn := EProxy (mk_proxy InvalidRequestError (Some "bad"%string) None None None None).
Definition sample_state (b : backend unit) : fstate (backend unit) Z := mkF (mkManager b 60 []) [] 1.
Definition sample_primary : Deployment := sample_deployment "a" 1 0.

(** One request of the examples over the upstream call [execute]. *)
Definition run_sample (execute : Deployment -> pyfloat -> st Z exn string) :=
  execute_with_failover (B := backend unit) sample_config sample_registry 5 None (fun _ => None)
    (fun w => w * usec) (fun _ w => w) (fun _ => 0%Q) execute None "gpt" PyNone None
    sample_primary None None (sample_state offline).

Lemma sample_state_ok : al_ok (m_backend (f_manager (sample_state offline))).
Proof. split; [reflexivity|split; [reflexivity|split; [vm_compute; discriminate|apply wf_empty]]]. Qed.

Lemma request_fault_stops_chain_witness :
  snd (run_sample (fun _ _ w => (w + 1, Raise bad_request))) = Raise bad_request.
Proof.
  refine (proj1 (request_fault_stops_chain (B := backend unit) sample_config sample_registry 5 None (fun _ => None)
    (fun w => w * usec) (fun _ w => w) (fun _ => 0%Q) (fun _ _ w => (w + 1, Raise bad_request)) None "gpt" PyNone None
    sample_primary None None (sample_state offline)
    (fst (available (fun w => w * usec) sample_primary (sample_state offline)))
    (FFin 600) 2 bad_request bad_request GENERIC true sample_state_ok _ _ _ _ _ _)).
  - vm_compute. reflexivity.
  - reflexivity.
  - reflexivity.
  - vm_compute. reflexivity.
  - vm_compute. reflexivity.
  - right. reflexivity.
Defined.

(** When the primary is available and its upstream call succeeds, that
    result is returned as served by the primary, after that one upstream call. *)
Theorem primary_success_served {B W R} `{ActiveLaws B} (config : FallbackConfig) (reg : registry)
    (allowed_fails : Z) (alert_callback : option (alert -> res exn unit))
    (parsedate : string -> option Z) (clock : W -> Z) (sleep : Q -> W -> W) (jitter : W -> Q)
    (execute : Deployment -> pyfloat -> st W exn R) (on_attempt : option (Deployment -> W -> W))
    (model_group : string) (timeout_seconds : pyval)
    (timeout_for_deployment : option (Deployment -> res exn pyval)) (primary : Deployment)
    (retry_max_attempts : option Z) (retryable : option (list string)) (s s1 : fstate B W)
    (t : pyfloat) (w2 : W) (result : R) :
  al_ok (m_backend (f_manager s)) ->
  available clock primary s = (s1, Ret true) ->
  effective_attempt_timeout config primary timeout_seconds timeout_for_deployment = Ret t ->
  execute primary t (notified on_attempt primary (f_world s)) = (w2, Ret result) ->
  let out := execute_with_failover config reg allowed_fails alert_callback parsedate clock sleep
               jitter execute on_attempt model_group timeout_seconds timeout_for_deployment
               primary retry_max_attempts retryable s in
  snd out = Ret (result, primary) /\ f_world (fst out) = w2.
Proof.
  intros Hok Hav Ht He out.
  destruct (available_facts clock primary s s1 true Hok Hav) as [Hw1 Hok1]. rewrite <- Hw1 in He.
  destruct (attempt_body_call config clock execute on_attempt timeout_seconds timeout_for_deployment true primary
    (mret tt) s1 t w2 (Ret result) Hok1 Ht He) as (m & Hokm & Hcount & q & Hbody).
  destruct (bookkeeping_returns clock primary q result (mkF m (f_events s1) w2) Hokm) as (m2 & Hbook & Hok2 & Hcount2).
  pose proof (al_nonneg (m_backend (f_manager s1)) (deployment_id primary) Hok1) as Hnn.
  destruct (release_returns clock primary (mkF m2 (f_events s1) w2)) as [m' Hrel]; [done| |].
  { simpl. rewrite Hcount2. simpl. rewrite Hcount, String.eqb_refl. lia. }
  assert (Hout : out = (mkF m' (f_events s1) w2, Ret (result, primary))); [|by rewrite Hout].
  eapply first_attempt_decides; [exact Hav|].
  unfold run_attempt, guarded_attempt, try_finally, try_except. unfold mbind at 1, st_bind at 1.
  rewrite Hbody, Hbook. simpl in *. by rewrite Hrel.
Qed.

Lemma primary_success_served_witness :
  snd (run_sample (fun d _ w => (w + 1, Ret (deployment_id d)))) = Ret ("a"%string, sample_primary).
Proof.
  refine (proj1 (primary_success_served (B := backend unit) sample_config sample_registry 5 None (fun _ => None)
    (fun w => w * usec) (fun _ w => w) (fun _ => 0%Q) (fun d _ w => (w + 1, Ret (deployment_id d))) None "gpt" PyNone None
    sample_primary None None (sample_state offline)
    (fst (available (fun w => w * usec) sample_primary (sample_state offline)))
    (FFin 600) 2 "a"%string sample_state_ok _ _ _)).
  - vm_compute. reflexivity.
  - reflexivity.
  - reflexivity.
Defined.

(** ** Two behaviours that are not what the callers expect *)

(** Asking for the last zero events returns the whole history. *)
Lemma recent_events_limit_zero (events : list FallbackEvent) :
  length (get_recent_fallback_events 0 events) = length events.
Proof. unfold get_recent_fallback_events. simpl. apply length_fmap. Qed.

(** A success whose bookkeeping fails is lost: with a [fail_closed] backend
    whose server answers the first calls and not the next one, the upstream
    call succeeds and the caller gets the backend's error instead. *)
Definition flaky_backend : backend bool :=
  init_backend 0 (Some (mkConn true [false; false; false; true])) 300000 "fail_closed" 600 256.

#[local] Instance counting_server : RedisExec bool :=
  fun s cmd => (s, match cmd with INCR _ | DECR _ => RInt 1 | EXISTS _ => RInt 0 | HGETALL _ => RHash [] | _ => RNil end).

Example success_lost_with_bookkeeping :
  let out := execute_with_failover (B := backend bool) sample_config sample_registry 5 None (fun _ => None)
    (fun w => w * usec) (fun _ w => w) (fun _ => 0%Q) (fun d _ w => (w + 1, Ret (deployment_id d))) None "gpt"
    PyNone None sample_primary None None (mkF (mkManager flaky_backend 60 []) [] 1) in
  snd out = Raise router_backend_unavailable /\ f_world (fst out) = 2.
Proof. vm_compute. split; reflexivity. Qed.
