(* ===== verification/Scopes.v ===== *)
(** * Runtime scopes: src/services/runtime_scopes.py

    Which user, API key, team and organization a caller acts for, and the
    chain of scopes its grants are looked up under. *)

From S2P Require Import Prelude PyVal Auth Errors RouterState Backend.

Inductive AuthSource : Type :=
  | from_api_key | from_jwt | from_custom | from_master_key | from_unknown.

#[export] Instance AuthSource_eq_dec : EqDecision AuthSource.
Proof. solve_decision. Defined.

Definition auth_source_value (s : AuthSource) : string :=
  match s with
  | from_api_key => "api_key" | from_jwt => "jwt" | from_custom => "custom"
  | from_master_key => "master_key" | from_unknown => "unknown"
  end.

(** A scope: its type and its id. *)
Definition scope_t : Type := string * string.

Record RuntimeScopeContext : Type := mkScopes {
  sc_auth_source : AuthSource;
  sc_is_master_key : bool;
  sc_actor_id : option string;
  sc_api_key_scope_id : option string;
  sc_user_id : option string;
  sc_team_id : option string;
  sc_organization_id : option string;
  sc_scope_chain : list scope_t;
  sc_binding_scopes : list scope_t
}.

Section scopes.
Context `{PyRepr}.

(** [_normalize_auth_source] of a text. *)
Definition normalize_auth_source (value : string) : AuthSource :=
  let normalized := Str.lower (Str.strip value) in
  if String.eqb normalized "api_key" then from_api_key
  else if String.eqb normalized "jwt" then from_jwt
  else if String.eqb normalized "custom" then from_custom
  else if String.eqb normalized "master_key" then from_master_key
  else from_unknown.

(** [normalized or None] of a stripped text. *)
Definition non_blank (s : string) : option string :=
  if Str.is_empty (Str.strip s) then None else Some (Str.strip s).

(** [_normalize_optional] of an attribute and of a metadata value. *)
Definition normalize_optional (value : option string) : option string := value ≫= non_blank.
Definition normalize_optional_value (value : pyval) : option string :=
  if is_none value then None else non_blank (py_str value).

Definition infer_auth_source (api_key : option string) (metadata : list (string * pyval))
    (is_master_key : bool) : AuthSource :=
  if is_master_key then from_master_key
  else if dict_has metadata "jwt_claims" || Str.startswith (default "" api_key) "jwt:" then from_jwt
  else from_api_key.

Definition metadata_of (auth : UserAPIKeyAuth) : list (string * pyval) := default [] (metadata auth).

Definition set_metadata (m : list (string * pyval)) (a : UserAPIKeyAuth) : UserAPIKeyAuth :=
  mkAuth (api_key a) (user_id a) (team_id a) (organization_id a) (models a) (team_models a)
    (tpm_limit a) (rpm_limit a) (key_tpm_limit a) (key_rpm_limit a) (user_tpm_limit a) (user_rpm_limit a)
    (team_tpm_limit a) (team_rpm_limit a) (org_tpm_limit a) (org_rpm_limit a)
    (team_model_rpm_limit a) (team_model_tpm_limit a) (org_model_rpm_limit a) (org_model_tpm_limit a)
    (max_parallel_requests a) (key_rph_limit a) (key_rpd_limit a) (key_tpd_limit a)
    (user_rph_limit a) (user_rpd_limit a) (user_tpd_limit a) (team_rph_limit a) (team_rpd_limit a)
    (team_tpd_limit a) (org_rph_limit a) (org_rpd_limit a) (org_tpd_limit a) (Some m).

Definition annotate_auth_metadata (auth : UserAPIKeyAuth) (auth_source : string)
    (api_key_scope_id : option string) (is_master_key : bool) : UserAPIKeyAuth :=
  let m := dict_set (metadata_of auth) "auth_source"
             (PyStr (auth_source_value (normalize_auth_source auth_source))) in
  let m := match api_key_scope_id with
           | Some s => if Str.is_empty s then m else dict_set m "api_key_scope_id" (PyStr s)
           | None => m
           end in
  set_metadata (if is_master_key then dict_set m "is_master_key" (PyBool true) else m) auth.

(** One entry of the chains: a scope that is present. *)
Definition scope_entry (type : string) (id : option string) : list scope_t :=
  match id with Some i => [(type, i)] | None => [] end.

Definition build_runtime_scope_context (auth_source : AuthSource) (is_master_key : bool)
    (api_key api_key_scope_id user_id team_id organization_id : option string) : RuntimeScopeContext :=
  let binding_scopes :=
    if is_master_key then []
    else scope_entry "api_key" api_key_scope_id ++ scope_entry "team" team_id ++
         scope_entry "organization" organization_id in
  let scope_chain := if is_master_key then [] else scope_entry "user" user_id ++ binding_scopes in
  let first_of (a b : option string) := match a with Some _ => a | None => b end in
  mkScopes auth_source is_master_key (first_of (first_of user_id api_key_scope_id) api_key)
    api_key_scope_id user_id team_id organization_id scope_chain binding_scopes.

(** [resolve_runtime_scope_context]; its cache is of a pure function. *)
Definition resolve_runtime_scope_context (auth : UserAPIKeyAuth) : RuntimeScopeContext :=
  let m := metadata_of auth in
  let key := normalize_optional (Some (api_key auth)) in
  let is_master := truthy (vget m "is_master_key") || bool_decide (key = Some "master_key"%string) in
  let source :=
    if truthy (vget m "auth_source") then normalize_auth_source (py_str (vget m "auth_source"))
    else normalize_auth_source (auth_source_value (infer_auth_source key m is_master)) in
  let scope_id :=
    match normalize_optional_value (vget m "api_key_scope_id") with
    | Some s => Some s
    | None => if bool_decide (source = from_api_key) then key else None
    end in
  build_runtime_scope_context source is_master key scope_id (normalize_optional (user_id auth))
    (normalize_optional (team_id auth)) (normalize_optional (organization_id auth)).

(** ** Lemmas *)

Lemma normalize_auth_source_value s : normalize_auth_source (auth_source_value s) = s.
Proof. by destruct s. Qed.

(** A scope is in the chain of a caller that is not the master key exactly
    when it is the caller's own. *)
Lemma scope_chain_spec auth type id :
  let ctx := resolve_runtime_scope_context auth in
  sc_is_master_key ctx = false ->
  (type, id) ∈ sc_scope_chain ctx <->
  (type = "user"%string /\ sc_user_id ctx = Some id) \/
  (type = "api_key"%string /\ sc_api_key_scope_id ctx = Some id) \/
  (type = "team"%string /\ sc_team_id ctx = Some id) \/
  (type = "organization"%string /\ sc_organization_id ctx = Some id).
Proof.
  intros ctx. unfold ctx, resolve_runtime_scope_context, build_runtime_scope_context.
  cbv zeta. cbn [sc_is_master_key sc_scope_chain sc_user_id sc_api_key_scope_id sc_team_id sc_organization_id].
  intros ->. rewrite !elem_of_app. unfold scope_entry.
  repeat match goal with |- context [match ?x with Some _ => _ | None => _ end] => destruct x end;
    rewrite ?list_elem_of_singleton, ?elem_of_nil; naive_solver.
Qed.

(** What the annotation of an API key leaves in the metadata. *)
Lemma annotated_get auth source s k :
  Str.is_empty s = false ->
  vget (metadata_of (annotate_auth_metadata auth source (Some s) false)) k =
  if String.eqb "api_key_scope_id" k then PyStr s
  else if String.eqb "auth_source" k then PyStr (auth_source_value (normalize_auth_source source))
  else vget (metadata_of auth) k.
Proof.
  intros He.
  assert (metadata_of (annotate_auth_metadata auth source (Some s) false) =
    dict_set (dict_set (metadata_of auth) "auth_source"
      (PyStr (auth_source_value (normalize_auth_source source)))) "api_key_scope_id" (PyStr s)) as ->
    by (unfold annotate_auth_metadata; by rewrite He).
  unfold vget. destruct (String.eqb_spec "api_key_scope_id" k) as [<-|]; [by rewrite dict_get_set|].
  rewrite dict_get_set_ne by done.
  destruct (String.eqb_spec "auth_source" k) as [<-|]; [by rewrite dict_get_set|].
  by rewrite dict_get_set_ne.
Qed.

(** Annotating a caller as an API key with scope id [s] makes [s] its
    API-key scope. *)
Lemma annotated_api_key_scope auth s :
  Str.strip s = s -> Str.is_empty s = false ->
  let ctx := resolve_runtime_scope_context (annotate_auth_metadata auth "api_key" (Some s) false) in
  sc_auth_source ctx = from_api_key /\ sc_api_key_scope_id ctx = Some s.
Proof.
  intros Hs He ctx. unfold ctx, resolve_runtime_scope_context. rewrite !annotated_get by done. simpl.
  unfold normalize_optional_value, non_blank. simpl. by rewrite Hs, He.
Qed.

(** The annotation of an ordinary API key leaves an [is_master_key] flag that
    its stored metadata already carries. *)
Lemma stored_master_flag_survives auth s :
  Str.is_empty s = false -> vget (metadata_of auth) "is_master_key" = PyBool true ->
  sc_is_master_key
    (resolve_runtime_scope_context (annotate_auth_metadata auth "api_key" (Some s) false)) = true.
Proof.
  intros He Hm. unfold resolve_runtime_scope_context. rewrite !annotated_get by done. simpl. by rewrite Hm.
Qed.
End scopes.
