(* ===== verification/CallableTargets.v ===== *)
(** * Callable targets and access groups

    [src/governance/access_groups.py]: access-group keys and which targets a
    group labels.  [src/services/callable_targets.py]: the catalog of the names
    a caller may use, models and route groups. *)

From S2P Require Import Prelude PyVal Errors RouterState Backend Billing Strategies Router.

(** ** src/governance/access_groups.py *)

Definition MAX_ACCESS_GROUPS_PER_TARGET : nat := 100.

Definition is_lower_or_digit (a : ascii) : bool :=
  let n := nat_of_ascii a in ((97 <=? n) && (n <=? 122) || is_digit a)%nat.

(** The pattern [[a-z0-9][a-z0-9._-]{0,63}] on a whole text. *)
Definition access_group_pattern (s : string) : bool :=
  match list_ascii_of_string s with
  | [] => false
  | a :: l =>
    is_lower_or_digit a && (length l <=? 63)%nat &&
    forallb (fun a => is_lower_or_digit a || existsb (Ascii.eqb a) ["."; "_"; "-"]%char) l
  end.

(** [InvalidAccessGroupError] by its message. *)
Definition normalize_access_group_key (value : pyval) (strict : bool) : res string (option string) :=
  let reject (message : string) : res string (option string) := if strict then Raise message else Ret None in
  match value with
  | PyStr s =>
    let normalized := Str.lower (Str.strip s) in
    if Str.is_empty normalized then reject "access group key must be non-empty"
    else if negb (access_group_pattern normalized) then
      reject "access group key must start with a lowercase letter or digit and contain only lowercase letters, digits, '.', '_' or '-'"
    else Ret (Some normalized)
  | _ => reject "access group key must be a string"
  end.

Fixpoint add_access_groups (strict : bool) (normalized : list string) (items : list pyval)
    : res string (list string) :=
  match items with
  | [] => Ret normalized
  | item :: items' =>
    key ← normalize_access_group_key item strict;
    match (key : option string) with
    | None => add_access_groups strict normalized items'
    | Some k =>
      if bool_decide (k ∈ normalized) then add_access_groups strict normalized items'
      else if (MAX_ACCESS_GROUPS_PER_TARGET <=? length normalized)%nat then
        if strict then Raise "access_groups must contain at most 100 values"%string else Ret normalized
      else add_access_groups strict (normalized ++ [k]) items'
    end
  end.

Definition normalize_access_groups (value : pyval) (strict : bool) : res string (gset string) :=
  match value with
  | PyNone => Ret ∅
  | PyList l => groups ← add_access_groups strict [] l; Ret (list_to_set groups)
  | _ => if strict then Raise "access_groups must be an array"%string else Ret ∅
  end.

(** Without [strict] nothing is raised. *)
Definition lenient_access_groups (value : pyval) : gset string :=
  match normalize_access_groups value false with Ret g => g | Raise _ => ∅ end.

Definition access_groups_from_metadata (metadata : pyval) : gset string :=
  match metadata with PyDict d => lenient_access_groups (vget d "access_groups") | _ => ∅ end.

(** ** src/services/callable_targets.py *)

Inductive target_type : Type := model_target | route_group_target.

#[export] Instance target_type_eq_dec : EqDecision target_type.
Proof. solve_decision. Defined.

Definition target_type_value (t : target_type) : string :=
  match t with model_target => "model" | route_group_target => "route_group" end.

Record CallableTarget : Type := mkTarget {
  ct_key : string;
  ct_target_type : target_type;
  ct_access_groups : gset string
}.

Abbreviation catalog_t := (list (string * CallableTarget)).

(** [build_callable_keys_by_access_group] *)
Definition add_group_key (callable_key : string) (g : string) (grouped : gmap string (gset string))
    : gmap string (gset string) :=
  <[g := {[callable_key]} ∪ default ∅ (grouped !! g)]> grouped.

Fixpoint keys_by_group (catalog : catalog_t) (grouped : gmap string (gset string))
    : gmap string (gset string) :=
  match catalog with
  | [] => grouped
  | (raw_key, target) :: catalog' =>
    let callable_key := Str.strip raw_key in
    keys_by_group catalog'
      (if Str.is_empty callable_key then grouped
       else set_fold (add_group_key callable_key) grouped (ct_access_groups target))
  end.

Definition build_callable_keys_by_access_group (catalog : option catalog_t) : gmap string (gset string) :=
  match catalog with Some c => keys_by_group c ∅ | None => ∅ end.

Section catalog.
Context `{PyRepr}.

(** The id of a deployment as its entry gives it. *)
Definition entry_id (model_name : string) (index : nat) (entry : pydict) : string :=
  py_str (py_or (vget entry "deployment_id")
            (PyStr (model_name +:+ "-" +:+ Str.of_Z (Z.of_nat index)))).

Fixpoint entry_ids (model_name : string) (index : nat) (entries : list pydict) : gset string :=
  match entries with
  | [] => ∅
  | e :: es =>
    let id := Str.strip (entry_id model_name index e) in
    (if Str.is_empty id then ∅ else {[id]}) ∪ entry_ids model_name (S index) es
  end.

Definition collect_deployment_ids (models : list (string * list pydict)) : gset string :=
  foldr (fun m ids => entry_ids m.1 0 m.2 ∪ ids) ∅ models.

(** The groups all entries of a model agree on; none when two disagree. *)
Fixpoint agreed_groups (resolved : option (gset string)) (entries : list pydict) : gset string :=
  match entries with
  | [] => default ∅ resolved
  | e :: es =>
    let groups := access_groups_from_metadata (vget e "model_info") in
    match resolved with
    | None => agreed_groups (Some groups) es
    | Some r => if decide (groups = r) then agreed_groups (Some r) es else ∅
    end
  end.

Definition model_access_groups (entries : list pydict) : gset string := agreed_groups None entries.

Definition route_group_access_groups (group : pydict) : gset string :=
  if dict_has group "access_groups" then lenient_access_groups (vget group "access_groups")
  else access_groups_from_metadata (vget group "metadata").

Definition live_member (deployment_ids : gset string) (member : pyval) : bool :=
  match member with
  | PyDict m =>
    let id := Str.strip (py_str (py_or (vget m "deployment_id") (PyStr ""))) in
    truthy (vget_or m "enabled" (PyBool true)) && negb (Str.is_empty id) && bool_decide (id ∈ deployment_ids)
  | _ => false
  end.

Definition route_group_has_live_members (group : pydict) (deployment_ids : gset string) : bool :=
  match py_or (vget group "members") (PyList []) with
  | PyList members => existsb (live_member deployment_ids) members
  | _ => false
  end.

Fixpoint catalog_models (models : list (string * list pydict)) (catalog : catalog_t) : catalog_t :=
  match models with
  | [] => catalog
  | (model_name, entries) :: models' =>
    let key := Str.strip model_name in
    catalog_models models'
      (if Str.is_empty key then catalog
       else dict_set catalog key (mkTarget key model_target (model_access_groups entries)))
  end.

(** [DuplicateCallableTargetError] by its message. *)
Fixpoint catalog_groups (deployment_ids : gset string) (groups : list pydict) (catalog : catalog_t)
    : res string catalog_t :=
  match groups with
  | [] => Ret catalog
  | g :: gs =>
    let key := group_key g in
    if Str.is_empty key || negb (group_enabled g) then catalog_groups deployment_ids gs catalog
    else if negb (route_group_has_live_members g deployment_ids) then
      catalog_groups deployment_ids gs catalog
    else match dict_get catalog key with
         | Some existing =>
           Raise ("Callable target key '" +:+ key +:+ "' is declared by both a " +:+
                  target_type_value (ct_target_type existing) +:+ " and a route_group")%string
         | None =>
           catalog_groups deployment_ids gs
             (dict_set catalog key (mkTarget key route_group_target (route_group_access_groups g)))
         end
  end.

Definition build_callable_target_catalog (models : list (string * list pydict)) (route_groups : list pydict)
    : res string catalog_t :=
  catalog_groups (collect_deployment_ids models) route_groups (catalog_models models []).

Definition list_callable_target_ids (models : list (string * list pydict)) (route_groups : list pydict)
    : res string (list string) :=
  catalog ← build_callable_target_catalog models route_groups; Ret (map fst catalog).
End catalog.

(** ** Access groups *)

(** A normalised group key is lower-case text of the pattern, and normalising
    it again changes nothing. *)
Lemma lenient_no_raise v : exists g, normalize_access_groups v false = Ret g.
Proof.
  assert (Hadd : forall items acc, exists l, add_access_groups false acc items = Ret l).
  { induction items as [|x items IH]; intros acc; [by eexists|]. simpl.
    assert (exists k, normalize_access_group_key x false = Ret k) as [k ->]
      by (unfold normalize_access_group_key; destruct x; eauto; destruct (Str.is_empty _); eauto;
          destruct (negb _); eauto).
    cbn [mbind res_bind]. destruct k as [k|]; [|apply IH].
    do 2 (match goal with |- context [if ?b then _ else _] => destruct b end; eauto). }
  destruct v; simpl; eauto. destruct (Hadd l []) as [g ->]. by eexists.
Qed.

Lemma add_groups_bound strict items acc l :
  NoDup acc -> (length acc <= MAX_ACCESS_GROUPS_PER_TARGET)%nat ->
  Forall (fun k => access_group_pattern k = true) acc ->
  add_access_groups strict acc items = Ret l ->
  NoDup l /\ (length l <= MAX_ACCESS_GROUPS_PER_TARGET)%nat /\
  Forall (fun k => access_group_pattern k = true) l.
Proof.
  revert acc. induction items as [|x items IH]; intros acc Hnd Hlen Hp Heq.
  { by apply ret_inj in Heq as <-. }
  apply res_bind_ret in Heq as ([k|] & Hk & Heq); [|by eapply IH].
  assert (Hpk : access_group_pattern k = true).
  { unfold normalize_access_group_key in Hk. destruct x; try by destruct strict.
    destruct (Str.is_empty _); [by destruct strict|]. destruct (access_group_pattern _) eqn:E; [|by destruct strict].
    apply ret_inj in Hk. by injection Hk as <-. }
  destruct (bool_decide_reflect (k ∈ acc)) as [|Hk']; [by eapply IH|].
  destruct (Nat.leb_spec MAX_ACCESS_GROUPS_PER_TARGET (length acc)).
  { destruct strict; [done|]. by apply ret_inj in Heq as <-. }
  apply (IH (acc ++ [k])); try done.
  - apply NoDup_app. split_and!; [done|set_solver|apply NoDup_singleton].
  - rewrite length_app. simpl. lia.
  - apply Forall_app. split; [done|]. by repeat constructor.
Qed.

(** ** The catalog and the deployment registry *)

Section routable.
Context `{PyRepr}.

Lemma deployment_entry_id name i e d :
  deployment_from_entry name e i = Ret d -> deployment_id d = entry_id name i e.
Proof.
  unfold deployment_from_entry. intros Hd.
  repeat (apply res_bind_ret in Hd as (? & _ & Hd)). apply ret_inj in Hd as <-.
  unfold entry_id, py_or. simpl. by destruct (truthy _).
Qed.

(** Every id an entry gives is written without surrounding blanks. *)
Definition clean_entries (name : string) (off : nat) (entries : list pydict) : Prop :=
  forall i e, entries !! i = Some e -> Str.strip (entry_id name (off + i) e) = entry_id name (off + i) e.

Definition clean_models (models : list (string * list pydict)) : Prop :=
  Forall (fun m => Str.strip m.1 = m.1 /\ m.1 <> ""%string /\ clean_entries m.1 0 m.2) models.

Lemma entry_ids_known name off entries ds (by_id : gmap string Deployment) id :
  clean_entries name off entries -> deployments_from_entries name off entries = Ret ds -> id <> ""%string ->
  is_Some (foldl (fun m d => <[deployment_id d := d]> m) by_id ds !! id) <->
  is_Some (by_id !! id) \/ id ∈ entry_ids name off entries.
Proof.
  revert off ds by_id. induction entries as [|e es IH]; intros off ds by_id Hc Hds Hid.
  - apply ret_inj in Hds as <-. simpl. set_solver.
  - apply res_bind_ret in Hds as (d & Hd & Hds). apply res_bind_ret in Hds as (ds' & Hds' & <-%ret_inj).
    pose proof (Hc 0%nat e eq_refl) as Hs. rewrite Nat.add_0_r in Hs. simpl.
    rewrite (IH (S off) ds') by (try done; intros i e' Hi; rewrite Nat.add_succ_comm; by apply (Hc (S i))).
    rewrite Hs, elem_of_union. apply deployment_entry_id in Hd. rewrite Hd. clear - Hid.
    destruct (decide (entry_id name off e = id)) as [->|Hne].
    + rewrite lookup_insert_eq. destruct (Str.is_empty id) eqn:E; [by apply String.eqb_eq in E|].
      rewrite elem_of_singleton. split; [auto|intros _; left; by eexists].
    + rewrite lookup_insert_ne by done. destruct (Str.is_empty _); set_solver.
Qed.

(** The first loops: both know the same ids and the same model names. *)
Lemma models_agree models reg by_id catalog reg' by_id' :
  clean_models models -> register_models models reg by_id = Ret (reg', by_id') ->
  (forall k, dict_get catalog k = None <-> dict_get reg k = None) ->
  (forall k t, dict_get catalog k = Some t -> ct_target_type t = model_target) ->
  (forall id, id <> ""%string ->
     is_Some (by_id' !! id) <-> is_Some (by_id !! id) \/ id ∈ collect_deployment_ids models) /\
  (forall k, dict_get (catalog_models models catalog) k = None <-> dict_get reg' k = None) /\
  (forall k t, dict_get (catalog_models models catalog) k = Some t -> ct_target_type t = model_target).
Proof.
  revert reg by_id catalog. induction models as [|[name entries] ms IH]; intros reg by_id catalog Hc Heq Hk Ht.
  - apply ret_inj in Heq. injection Heq as <- <-. simpl. set_solver.
  - apply Forall_cons in Hc as [(Hn & Hne & Hce) Hc]. simpl in Hn, Hne, Hce.
    apply res_bind_ret in Heq as (ds & Hds & Heq). simpl. rewrite Hn.
    destruct (Str.is_empty name) eqn:E; [by apply String.eqb_eq in E|].
    destruct (IH _ _ (dict_set catalog name (mkTarget name model_target (model_access_groups entries))) Hc Heq)
      as (Hids & Hkeys & Htypes).
    + intros k. destruct (decide (name = k)) as [->|]; [by rewrite !dict_get_set|].
      by rewrite !dict_get_set_ne.
    + intros k t. destruct (decide (name = k)) as [->|].
      * rewrite dict_get_set. by intros [= <-].
      * rewrite dict_get_set_ne by done. apply Ht.
    + split_and!; [|done|done]. intros id Hid. rewrite Hids, (entry_ids_known name 0 entries) by done.
      set_solver.
Qed.

(** A group's members are live exactly when some deployment is found for them. *)
Lemma live_members_found (by_id : gmap string Deployment) ids members ds :
  (forall id, id <> ""%string -> is_Some (by_id !! id) <-> id ∈ ids) ->
  group_members by_id members = Ret ds ->
  existsb (live_member ids) members = match ds with [] => false | _ => true end.
Proof.
  intros Hids. revert ds. induction members as [|m ms IH]; intros ds Hds.
  - by apply ret_inj in Hds as <-.
  - apply res_bind_ret in Hds as (o & Ho & Hds). apply res_bind_ret in Hds as (rest & Hrest & <-%ret_inj).
    simpl. rewrite (IH _ Hrest). clear IH Hrest.
    assert (live_member ids m = match o with Some _ => true | None => false end) as ->;
      [|by destruct o, rest].
    unfold group_member in Ho. unfold live_member. destruct m as [| | | | | |m]; try by apply ret_inj in Ho as <-.
    destruct (truthy (vget_or m "enabled" _)); [|by apply ret_inj in Ho as <-]. simpl in Ho |- *.
    set (id := Str.strip _) in *. destruct (Str.is_empty id) eqn:E; [by apply ret_inj in Ho as <-|].
    assert (Hid : id <> ""%string) by (intros Hx; rewrite Hx in E; done).
    specialize (Hids id Hid). simpl. destruct (by_id !! id) as [b|].
    + apply res_bind_ret in Ho as (w & _ & Ho). apply res_bind_ret in Ho as (p & _ & <-%ret_inj).
      apply bool_decide_eq_true, Hids. by eexists.
    + apply ret_inj in Ho as <-. apply bool_decide_eq_false. intros [? Hx]%Hids. done.
Qed.

(** Members that are not given as a list hold no dictionary. *)
Lemma live_group_found by_id ids g members ds :
  (forall id, id <> ""%string -> is_Some (by_id !! id) <-> id ∈ ids) ->
  as_list (py_or (vget g "members") (PyList [])) = Ret members -> group_members by_id members = Ret ds ->
  route_group_has_live_members g ids = match ds with [] => false | _ => true end.
Proof.
  intros Hids Hm Hds. unfold route_group_has_live_members.
  assert (Hno : forall l, group_members by_id (map PyStr l) = Ret ds -> ds = []).
  { intros l. clear. revert ds. induction l as [|x l IH]; intros ds Hds; [by apply ret_inj in Hds|].
    apply res_bind_ret in Hds as (o & <-%ret_inj & Hds). apply res_bind_ret in Hds as (r & Hr & <-%ret_inj).
    by apply IH. }
  destruct (py_or _ _) as [| | | |s|l|d]; try done; simpl in Hm; apply ret_inj in Hm as <-.
  - rewrite <- (map_map (fun a => String a EmptyString) PyStr) in Hds. by rewrite (Hno _ Hds).
  - by apply (live_members_found by_id).
  - rewrite <- (map_map fst PyStr) in Hds. by rewrite (Hno _ Hds).
Qed.

(** The group loops keep the names in step. *)
Definition in_step (catalog : catalog_t) (reg : registry) : Prop :=
  (forall k, dict_get catalog k = None <-> dict_get reg k = None) /\
  (forall k t, dict_get catalog k = Some t -> ct_target_type t = route_group_target ->
     exists d ds, dict_get reg k = Some (d :: ds)).

Lemma groups_agree by_id ids groups catalog reg catalog' reg' :
  (forall id, id <> ""%string -> is_Some (by_id !! id) <-> id ∈ ids) ->
  in_step catalog reg -> register_groups by_id groups reg = Ret reg' ->
  catalog_groups ids groups catalog = Ret catalog' -> in_step catalog' reg'.
Proof.
  intros Hids. revert catalog reg. induction groups as [|g gs IH]; intros catalog reg Hs Hr Hc.
  { apply ret_inj in Hr as <-. by apply ret_inj in Hc as <-. }
  simpl in Hr, Hc. destruct (_ || _); [by eapply IH|].
  apply res_bind_ret in Hr as (members & Hm & Hr). apply res_bind_ret in Hr as (ds & Hds & Hr).
  rewrite (live_group_found _ _ _ _ _ Hids Hm Hds) in Hc. destruct ds as [|d ds]; [by eapply IH|].
  simpl in Hc. destruct (dict_get catalog (group_key g)) as [t|] eqn:Eg; [done|].
  eapply IH; [|exact Hr|exact Hc]. destruct Hs as [Hk Ht]. split.
  - intros k. destruct (decide (group_key g = k)) as [->|]; [by rewrite !dict_get_set|].
    by rewrite !dict_get_set_ne.
  - intros k t. destruct (decide (group_key g = k)) as [->|].
    + rewrite !dict_get_set. eauto.
    + rewrite !dict_get_set_ne by done. apply Ht.
Qed.
End routable.

(** Every callable target can be routed: when model names and deployment
    ids are written without surrounding blanks and both the catalog and the
    deployment registry can be built, they know the same names, and every
    route group in the catalog has at least one deployment in the registry. *)
Theorem catalog_targets_routable `{PyRepr} (models : list (string * list pydict)) (route_groups : list pydict)
    (reg : registry) (catalog : list (string * CallableTarget)) (key : string) :
  clean_models models ->
  build_deployment_registry models route_groups = Ret reg ->
  build_callable_target_catalog models route_groups = Ret catalog ->
  (dict_get catalog key = None <-> dict_get reg key = None) /\
  forall t, dict_get catalog key = Some t -> ct_target_type t = route_group_target ->
    exists d ds, dict_get reg key = Some (d :: ds).
Proof.
  intros Hclean Hreg Hcat. apply res_bind_ret in Hreg as ([reg0 by_id] & Hm & Hg).
  destruct (models_agree models [] ∅ [] reg0 by_id Hclean Hm) as (Hids & Hk & Ht); [done|done|].
  destruct (groups_agree by_id (collect_deployment_ids models) route_groups (catalog_models models []) reg0
    catalog reg) as [Hkeys Hgroups]; [| |done|done|split; [apply Hkeys|apply Hgroups]].
  - intros id Hid. rewrite Hids by done. rewrite lookup_empty. split; [|by right].
    intros [[? ?]|?]; done.
  - split; [done|]. intros k t Hget Hty. by rewrite (Ht k t Hget) in Hty.
Qed.

#[local] Existing Instances no_repr.

Lemma catalog_targets_routable_witness :
  exists reg catalog t d ds,
    build_deployment_registry sample_models sample_groups = Ret reg /\
    build_callable_target_catalog sample_models sample_groups = Ret catalog /\
    dict_get catalog "team" = Some t /\ dict_get reg "team" = Some (d :: ds).
Proof.
  destruct (build_deployment_registry sample_models sample_groups) as [reg|e] eqn:Er; [|vm_compute in Er; done].
  destruct (build_callable_target_catalog sample_models sample_groups) as [catalog|e] eqn:Ec;
    [|vm_compute in Ec; done].
  destruct (dict_get catalog "team") as [t|] eqn:Et;
    [|vm_compute in Ec; injection Ec as <-; vm_compute in Et; done].
  assert (Hty : ct_target_type t = route_group_target).
  { vm_compute in Ec. injection Ec as <-. vm_compute in Et. by injection Et as <-. }
  destruct (catalog_targets_routable sample_models sample_groups reg catalog "team") as [_ Hr];
    [|exact Er|exact Ec|].
  - repeat constructor; try done; intros [|[|i]] e Hi; vm_compute in Hi; simplify_eq; vm_compute; reflexivity.
  - destruct (Hr t Et Hty) as (d & ds & Hget). by exists reg, catalog, t, d, ds.
Defined.
