(* ===== verification/Grants.v ===== *)
(** * Callable-target grants and model visibility

    [src/services/callable_target_grants.py]: the in-memory snapshot of which
    scope may call what, read page by page from the repositories, and the
    allowlist it gives a caller.  [src/services/model_visibility.py]: the
    decision whether a caller may use a model. *)

From S2P Require Import Prelude PyVal Errors Auth RouterState Backend Billing Strategies Router.
From S2P Require Import Scopes CallableTargets.

(** ** Repository rows *)

Record binding : Type := mkBinding {
  b_scope : scope_t;
  b_callable_key : string;
  b_enabled : bool
}.

Record group_binding : Type := mkGroupBinding {
  gb_scope : scope_t;
  gb_group_key : string;
  gb_enabled : bool
}.

Record scope_policy : Type := mkScopePolicy {
  sp_scope : scope_t;
  sp_mode : string
}.

(** A repository's paged listing: the rows from an offset on, at most a limit
    of them, and the number of rows in all; or a database error. *)
Definition pager (A : Type) : Type := nat -> nat -> res exn (list A * nat).

(** ** The snapshot *)

Record Snapshot : Type := mkSnapshot {
  enabled_by_scope : gmap scope_t (gset string);
  binding_counts_by_scope : gmap scope_t nat;
  scope_modes_by_scope : gmap scope_t string;
  enabled_groups_by_scope : gmap scope_t (gset string);
  group_binding_counts_by_scope : gmap scope_t nat;
  callable_keys_by_group : gmap string (gset string)
}.

Definition empty_snapshot : Snapshot := mkSnapshot ∅ ∅ ∅ ∅ ∅ ∅.

Record GrantService : Type := mkService {
  repository : option (pager binding);
  policy_repository : option (pager scope_policy);
  access_group_repository : option (pager group_binding);
  callable_target_catalog : option (list (string * CallableTarget));
  snapshot : Snapshot
}.

Definition set_snapshot (sn : Snapshot) (s : GrantService) : GrantService :=
  mkService (repository s) (policy_repository s) (access_group_repository s) (callable_target_catalog s) sn.

(** Entries of a [defaultdict]. *)
Definition members (m : gmap scope_t (gset string)) (s : scope_t) : gset string := default ∅ (m !! s).
Definition count (m : gmap scope_t nat) (s : scope_t) : nat := default 0%nat (m !! s).

(** ** reload *)

Definition page_limit : nat := 1000.

(** The paging loop: pages are folded into the accumulator until a page is
    empty or the offset has reached the total.  [None] is out of fuel. *)
Fixpoint read_pages {A X} (list_page : pager A) (add : X -> A -> X) (fuel offset : nat) (acc : X)
    : option (res exn X) :=
  match fuel with
  | O => None
  | S fuel' =>
    match list_page page_limit offset with
    | Raise e => Some (Raise e)
    | Ret (rows, total) =>
      let acc' := foldl add acc rows in
      let offset' := (offset + length rows)%nat in
      if match rows with [] => true | _ => (total <=? offset')%nat end then Some (Ret acc')
      else read_pages list_page add fuel' offset' acc'
    end
  end.

(** The same for a repository that may be absent. *)
Definition read_all {A X} (r : option (pager A)) (add : X -> A -> X) (fuel : nat) (acc : X)
    : option (res exn X) :=
  match r with Some p => read_pages p add fuel 0 acc | None => Some (Ret acc) end.

Definition add_count (m : gmap scope_t nat) (s : scope_t) : gmap scope_t nat := <[s := S (count m s)]> m.
Definition add_member (m : gmap scope_t (gset string)) (s : scope_t) (enabled : bool) (k : string)
    : gmap scope_t (gset string) :=
  if enabled then <[s := {[k]} ∪ members m s]> m else m.

Definition add_binding (acc : gmap scope_t (gset string) * gmap scope_t nat) (b : binding) :=
  (add_member acc.1 (b_scope b) (b_enabled b) (b_callable_key b), add_count acc.2 (b_scope b)).
Definition add_group_binding (acc : gmap scope_t (gset string) * gmap scope_t nat) (b : group_binding) :=
  (add_member acc.1 (gb_scope b) (gb_enabled b) (gb_group_key b), add_count acc.2 (gb_scope b)).
Definition add_policy (m : gmap scope_t string) (p : scope_policy) : gmap scope_t string :=
  <[sp_scope p := sp_mode p]> m.

(** The keys the groups of one scope stand for. *)
Definition expand_groups (by_group : gmap string (gset string)) (groups : gset string) : gset string :=
  set_fold (fun g acc => default ∅ (by_group !! g) ∪ acc) ∅ groups.

Definition expand_scopes (by_group : gmap string (gset string)) (enabled : gmap scope_t (gset string))
    (groups : list (scope_t * gset string)) : gmap scope_t (gset string) :=
  foldl (fun m sg => <[sg.1 := expand_groups by_group sg.2 ∪ members m sg.1]> m) enabled groups.

(** [reload]: a database error leaves the snapshot as it was. *)
Definition reload (fuel : nat) (s : GrantService) : option (GrantService * res exn unit) :=
  match repository s, policy_repository s, access_group_repository s with
  | None, None, None => Some (set_snapshot empty_snapshot s, Ret tt)
  | _, _, _ =>
    bindings ← read_all (repository s) add_binding fuel (∅, ∅);
    match bindings with
    | Raise e => Some (s, Raise e)
    | Ret (enabled, counts) =>
      groups ← read_all (access_group_repository s) add_group_binding fuel (∅, ∅);
      match groups with
      | Raise e => Some (s, Raise e)
      | Ret (enabled_groups, group_counts) =>
        modes ← read_all (policy_repository s) add_policy fuel ∅;
        match modes with
        | Raise e => Some (s, Raise e)
        | Ret modes =>
          let by_group := build_callable_keys_by_access_group (callable_target_catalog s) in
          Some (set_snapshot
                  (mkSnapshot (expand_scopes by_group enabled (map_to_list enabled_groups)) counts modes
                     enabled_groups group_counts by_group) s, Ret tt)
        end
      end
    end
  end.

(** ** The allowlist of a caller *)

Record PolicyResolution : Type := mkResolution {
  pr_allowlist : option (gset string);
  pr_authoritative : bool;
  pr_fallback_reason : option string
}.

Section resolution.
Context `{PyRepr}.

Definition has_scope_access_configuration (sn : Snapshot) (s : scope_t) : bool :=
  (0 <? count (binding_counts_by_scope sn) s + count (group_binding_counts_by_scope sn) s)%nat.

Definition applicable_scopes (auth : UserAPIKeyAuth) : list scope_t :=
  sc_scope_chain (resolve_runtime_scope_context auth).

Definition scope_mode (sn : Snapshot) (type id : string) : option string :=
  let type := Str.strip type in
  let id := Str.strip id in
  if Str.is_empty type || Str.is_empty id then None else scope_modes_by_scope sn !! (type, id).

Definition get_scope_mode (s : GrantService) (type id : string) : option string :=
  scope_mode (snapshot s) type id.

Definition has_scope_bindings (s : GrantService) (type : string) (id : option string) : bool :=
  let type := Str.strip type in
  let id := Str.strip (default ""%string id) in
  if Str.is_empty type || Str.is_empty id then false
  else has_scope_access_configuration (snapshot s) (type, id).

Definition should_restrict_user_scope (sn : Snapshot) (user_scope : scope_t) : bool :=
  match scope_modes_by_scope sn !! user_scope with
  | Some mode => bool_decide (mode = "restrict"%string)
  | None => has_scope_access_configuration sn user_scope
  end.

Definition resolve_explicit_allowlist (s : GrantService) (auth : UserAPIKeyAuth) : option (gset string) :=
  if sc_is_master_key (resolve_runtime_scope_context auth) then None
  else
    let scopes := applicable_scopes auth in
    if existsb (has_scope_access_configuration (snapshot s)) scopes
    then Some (foldl (fun acc sc => acc ∪ members (enabled_by_scope (snapshot s)) sc) ∅ scopes)
    else None.

Definition resolve_base_allowlist (sn : Snapshot) (auth : UserAPIKeyAuth) : option (gset string) :=
  match sc_organization_id (resolve_runtime_scope_context auth) with
  | Some o =>
    if has_scope_access_configuration sn ("organization"%string, o)
    then Some (members (enabled_by_scope sn) ("organization"%string, o)) else Some ∅
  | None =>
    match map (members (enabled_by_scope sn))
            (List.filter (has_scope_access_configuration sn) (applicable_scopes auth)) with
    | [] => None
    | first :: rest => Some (foldl (∩) first rest)
    end
  end.

(** [effective.intersection_update(...)] when the scope restricts. *)
Definition restrict_by (sn : Snapshot) (restricts : bool) (s : scope_t) (effective : gset string) : gset string :=
  if restricts then effective ∩ members (enabled_by_scope sn) s else effective.

Definition restricts_scope (sn : Snapshot) (type id : string) : bool :=
  bool_decide (scope_mode sn type id = Some "restrict"%string).

Definition resolve_policy_allowlist (s : GrantService) (auth : UserAPIKeyAuth) : PolicyResolution :=
  let ctx := resolve_runtime_scope_context auth in
  if sc_is_master_key ctx then mkResolution None true None
  else
    let sn := snapshot s in
    match resolve_base_allowlist sn auth with
    | None => mkResolution (Some ∅) true None
    | Some effective =>
      let effective := match sc_team_id ctx with
                       | Some t => restrict_by sn (restricts_scope sn "team" t) ("team"%string, t) effective
                       | None => effective
                       end in
      let effective := match sc_api_key_scope_id ctx with
                       | Some k => restrict_by sn (restricts_scope sn "api_key" k) ("api_key"%string, k) effective
                       | None => effective
                       end in
      let effective := match sc_user_id ctx with
                       | Some u => restrict_by sn (should_restrict_user_scope sn ("user"%string, u))
                                     ("user"%string, u) effective
                       | None => effective
                       end in
      mkResolution (Some effective) true None
    end.

(** ** src/services/model_visibility.py *)

Inductive policy_mode : Type := shadow | enforce.

#[export] Instance policy_mode_eq_dec : EqDecision policy_mode.
Proof. solve_decision. Defined.

Definition normalize_callable_target_policy_mode (value : pyval) : policy_mode :=
  if String.eqb (Str.lower (Str.strip (py_str (py_or value (PyStr ""))))) "shadow" then shadow else enforce.

(** [_normalize_allowlist] *)
Definition normalize_allowlist (values : list string) : gset string :=
  list_to_set (omap non_blank values).

Definition resolve_legacy_model_allowlist (auth : UserAPIKeyAuth) : option (gset string) :=
  match List.filter (fun a => negb (bool_decide (a = ∅)))
          [normalize_allowlist (models auth); normalize_allowlist (team_models auth)] with
  | [] => None
  | first :: rest => Some (foldl (∩) first rest)
  end.

Definition allowlists_differ (left right : option (gset string)) : bool := negb (bool_decide (left = right)).

Record AllowlistResolution : Type := mkAllowlists {
  ar_effective : option (gset string);
  ar_hybrid : option (gset string);
  ar_policy : option (gset string);
  ar_authoritative : bool;
  ar_fallback_reason : option string;
  ar_mode : policy_mode;
  ar_shadow_mismatch : bool
}.

Definition resolve_model_allowlist_resolution (auth : UserAPIKeyAuth) (service : option GrantService)
    (mode_value : pyval) : AllowlistResolution :=
  let mode := normalize_callable_target_policy_mode mode_value in
  if sc_is_master_key (resolve_runtime_scope_context auth)
  then mkAllowlists None None None true None mode false
  else
    let hybrid := match mode with shadow => resolve_legacy_model_allowlist auth | enforce => None end in
    let policy := match service with
                  | None => mkResolution (Some ∅) true (Some "grant_service_unavailable"%string)
                  | Some s => resolve_policy_allowlist s auth
                  end in
    let effective := match mode with shadow => hybrid | enforce => pr_allowlist policy end in
    mkAllowlists effective hybrid (pr_allowlist policy) (pr_authoritative policy) (pr_fallback_reason policy) mode
      (bool_decide (mode = shadow) && pr_authoritative policy && allowlists_differ hybrid (pr_allowlist policy)).

Definition resolve_effective_model_allowlist (auth : UserAPIKeyAuth) (service : option GrantService)
    (mode_value : pyval) : option (gset string) :=
  ar_effective (resolve_model_allowlist_resolution auth service mode_value).

Definition filter_visible_models (model_ids : list string) (auth : UserAPIKeyAuth)
    (service : option GrantService) (mode_value : pyval) : list string :=
  match resolve_effective_model_allowlist auth service mode_value with
  | None => model_ids
  | Some allowed => List.filter (fun m => bool_decide (m ∈ allowed)) model_ids
  end.

Definition model_not_allowed_message (model : string) : string :=
  ("Model '" +:+ model +:+ "' is not allowed for this key")%string.

Definition ensure_model_allowed (auth : UserAPIKeyAuth) (model : string) (service : option GrantService)
    (mode_value : pyval) : res exn unit :=
  match resolve_effective_model_allowlist auth service mode_value with
  | Some allowed =>
    if bool_decide (model ∈ allowed) then Ret tt
    else Raise (EProxy (mk_proxy PermissionDeniedError (Some (model_not_allowed_message model))
                          None None None None))
  | None => Ret tt
  end.

(** The batch API refuses with an [HTTPException] of the same status. *)
Definition ensure_batch_model_allowed (auth : UserAPIKeyAuth) (model : string) (service : option GrantService)
    (mode_value : pyval) : res exn unit :=
  match resolve_effective_model_allowlist auth service mode_value with
  | Some allowed =>
    if bool_decide (model ∈ allowed) then Ret tt
    else Raise (EOther {| oe_message := model_not_allowed_message model; oe_status_code := Some 403;
                          oe_response_status := None; oe_error_type := None; oe_affects := None |})
  | None => Ret tt
  end.
End resolution.

(** ** What a reload reads *)

(** The documented behaviour of a paged listing of unchanging rows. *)
Definition honest {A} (p : pager A) (rows : list A) : Prop :=
  forall limit offset, p limit offset = Ret (take limit (drop offset rows), length rows).

Definition lists {A} (r : option (pager A)) (rows : list A) : Prop :=
  match r with Some p => honest p rows | None => rows = [] end.

Lemma read_pages_honest {A X} (p : pager A) rows (add : X -> A -> X) fuel offset acc :
  honest p rows -> (length rows - offset < fuel)%nat ->
  read_pages p add fuel offset acc = Some (Ret (foldl add acc (drop offset rows))).
Proof.
  intros Hp. revert offset acc. induction fuel as [|fuel IH]; intros offset acc Hf; [lia|].
  cbn [read_pages]. rewrite Hp. set (chunk := take page_limit (drop offset rows)).
  assert (Hsplit : drop offset rows = chunk ++ drop (offset + page_limit) rows)
    by (rewrite <- drop_drop; symmetry; apply take_drop).
  assert (Hlen : length chunk = Nat.min page_limit (length rows - offset))
    by (unfold chunk; by rewrite length_take, length_drop).
  assert (Hend : (length rows <= offset + length chunk)%nat -> drop (offset + page_limit) rows = []).
  { intros Hle. apply drop_ge. lia. }
  rewrite Hsplit, foldl_app. clearbody chunk.
  destruct (Nat.leb_spec (length rows) (offset + length chunk)) as [Hle|Hlt].
  - rewrite Hend by done. by destruct chunk.
  - destruct chunk as [|x chunk]; [unfold page_limit in *; cbn [length] in *; lia|].
    rewrite IH by (cbn [length] in *; lia). do 4 f_equal. lia.
Qed.

Lemma read_all_lists {A X} (r : option (pager A)) rows (add : X -> A -> X) fuel acc :
  lists r rows -> (length rows < fuel)%nat -> read_all r add fuel acc = Some (Ret (foldl add acc rows)).
Proof.
  intros Hr Hf. destruct r as [p|]; simpl in *; [|by subst rows].
  rewrite (read_pages_honest p rows) by (done || lia). by rewrite drop_0.
Qed.

(** *** Folding rows into sets and counts *)

Lemma exists_cons {A} (P : A -> Prop) x l :
  (exists y, y ∈ x :: l /\ P y) <-> P x \/ exists y, y ∈ l /\ P y.
Proof. setoid_rewrite elem_of_cons. naive_solver. Qed.

Lemma exists_nil {A} (P : A -> Prop) : (exists y, y ∈ [] /\ P y) <-> False.
Proof. setoid_rewrite elem_of_nil. naive_solver. Qed.

Section fold_rows.
Context {A : Type} (scope : A -> scope_t) (key : A -> string) (enabled : A -> bool).
Let add acc (b : A) :=
  (add_member acc.1 (scope b) (enabled b) (key b), add_count acc.2 (scope b)).

Lemma members_insert m s s' X : members (<[s := X]> m) s' = if decide (s = s') then X else members m s'.
Proof. unfold members. rewrite lookup_insert. by case_decide. Qed.

Lemma count_insert m s s' n : count (<[s := n]> m) s' = if decide (s = s') then n else count m s'.
Proof. unfold count. rewrite lookup_insert. by case_decide. Qed.

Lemma fold_rows_members rows acc s k :
  k ∈ members (foldl add acc rows).1 s <->
  k ∈ members acc.1 s \/ exists b, b ∈ rows /\ scope b = s /\ enabled b = true /\ key b = k.
Proof.
  revert acc. induction rows as [|b rows IH]; intros acc; simpl; [rewrite exists_nil; tauto|].
  rewrite IH, exists_cons. unfold add, add_member. cbn [fst]. destruct (enabled b) eqn:E.
  - rewrite members_insert. case_decide as Hs; [|naive_solver].
    rewrite elem_of_union, elem_of_singleton, <- Hs. naive_solver.
  - naive_solver.
Qed.

Lemma fold_rows_count rows acc s :
  (0 < count (foldl add acc rows).2 s)%nat <->
  (0 < count acc.2 s)%nat \/ exists b, b ∈ rows /\ scope b = s.
Proof.
  revert acc. induction rows as [|b rows IH]; intros acc; simpl; [rewrite exists_nil; tauto|].
  rewrite IH, exists_cons. unfold add, add_count. cbn [snd]. rewrite count_insert.
  case_decide as Hs; [|naive_solver]. split; [by auto|intros _; left; lia].
Qed.
End fold_rows.

Lemma fold_policies rows m s :
  foldl add_policy m rows !! s =
  match last (filter (fun p => sp_scope p = s) rows) with Some p => Some (sp_mode p) | None => m !! s end.
Proof.
  induction rows as [|p rows IH] using rev_ind; [done|].
  rewrite foldl_app, filter_app. cbn [foldl]. unfold add_policy at 1. rewrite lookup_insert.
  case_decide as Hs.
  - rewrite filter_cons_True, filter_nil, last_snoc by done. done.
  - rewrite filter_cons_False, filter_nil, app_nil_r by done. apply IH.
Qed.

(** *** Groups *)

(** A catalog target labelled with a group. *)
Definition labelled (catalog : option (list (string * CallableTarget))) (g k : string) : Prop :=
  exists c raw t, catalog = Some c /\ (raw, t) ∈ c /\ g ∈ ct_access_groups t /\
    k = Str.strip raw /\ Str.is_empty k = false.

Lemma add_group_keys k (groups : gset string) (grouped : gmap string (gset string)) g x :
  x ∈ default ∅ (set_fold (add_group_key k) grouped groups !! g) <->
  x ∈ default ∅ (grouped !! g) \/ (g ∈ groups /\ x = k).
Proof.
  unfold set_fold. simpl. rewrite <- (elem_of_elements groups g).
  induction (elements groups) as [|g' l IH]; simpl; [set_solver|].
  unfold add_group_key at 1. rewrite lookup_insert. case_decide as Hg; [subst g'|set_solver].
  simpl. rewrite elem_of_union, IH. set_solver.
Qed.

Lemma keys_by_group_spec catalog grouped g k :
  k ∈ default ∅ (keys_by_group catalog grouped !! g) <->
  k ∈ default ∅ (grouped !! g) \/ labelled (Some catalog) g k.
Proof.
  revert grouped. induction catalog as [|[raw t] catalog IH]; intros grouped; simpl.
  - split; [auto|]. intros [?|(c & raw & t & [= <-] & Hin & _)]; [done|by apply not_elem_of_nil in Hin].
  - rewrite IH. clear IH. destruct (Str.is_empty (Str.strip raw)) eqn:E.
    + split; intros [?|(c & raw' & t' & [= <-] & Hin & Hg & Hk & Hne)]; auto; right.
      * eexists _, raw', t'. split_and!; [done|by right|done|done|done].
      * apply elem_of_cons in Hin as [[= -> ->]|Hin]; [congruence|]. eexists _, raw', t'. eauto.
    + rewrite add_group_keys. split.
      * intros [[?|[Hg ->]]|(c & raw' & t' & [= <-] & Hin & Hg & Hk & Hne)]; [by left| |]; right.
        -- eexists _, raw, t. split_and!; [done|by left|done|done|done].
        -- eexists _, raw', t'. split_and!; [done|by right|done|done|done].
      * intros [?|(c & raw' & t' & [= <-] & Hin & Hg & Hk & Hne)]; [by left; left|].
        apply elem_of_cons in Hin as [[= -> ->]|Hin]; [left; right; done|].
        right. eexists _, raw', t'. eauto.
Qed.

Lemma expand_groups_spec by_group (groups : gset string) k :
  k ∈ expand_groups by_group groups <-> exists g, g ∈ groups /\ k ∈ default ∅ (by_group !! g).
Proof.
  unfold expand_groups, set_fold. simpl. setoid_rewrite <- (elem_of_elements groups).
  induction (elements groups) as [|g l IH]; simpl.
  - rewrite exists_nil. set_solver.
  - by rewrite elem_of_union, IH, exists_cons.
Qed.

Lemma expand_scopes_spec by_group enabled l s k :
  k ∈ members (expand_scopes by_group enabled l) s <->
  k ∈ members enabled s \/ exists sg, sg ∈ l /\ (sg.1 = s /\ k ∈ expand_groups by_group sg.2).
Proof.
  unfold expand_scopes. revert enabled.
  induction l as [|[s' gs] l IH]; intros enabled; simpl; [rewrite exists_nil; tauto|].
  rewrite IH, exists_cons, members_insert. simpl. case_decide as Hs; [|naive_solver].
  subst s'. rewrite elem_of_union. naive_solver.
Qed.

Lemma expand_enabled_groups (by_group : gmap string (gset string))
    (enabled groups : gmap scope_t (gset string)) (s : scope_t) (k : string) :
  k ∈ members (expand_scopes by_group enabled (map_to_list groups)) s <->
  k ∈ members enabled s \/ exists g, g ∈ members groups s /\ k ∈ default ∅ (by_group !! g).
Proof.
  rewrite expand_scopes_spec. apply or_iff_compat_l. split.
  - intros ([s' gs] & Hin & Hs & Hk). simpl in Hs, Hk. subst s'. apply elem_of_map_to_list in Hin.
    apply expand_groups_spec in Hk as (g & Hg & Hk). exists g. unfold members. by rewrite Hin.
  - intros (g & Hg & Hk). unfold members in Hg. destruct (groups !! s) as [gs|] eqn:E; [|done].
    exists (s, gs). split; [by apply elem_of_map_to_list|]. split; [done|]. apply expand_groups_spec. eauto.
Qed.

(** *** The snapshot a reload leaves *)

(** A scope is granted a key by an enabled binding, or by an enabled binding
    of a group that labels the key's target. *)
Definition granted (bs : list binding) (gbs : list group_binding)
    (catalog : option (list (string * CallableTarget))) (s : scope_t) (k : string) : Prop :=
  (exists b, b ∈ bs /\ b_scope b = s /\ b_enabled b = true /\ b_callable_key b = k) \/
  (exists gb, gb ∈ gbs /\ gb_scope gb = s /\ gb_enabled gb = true /\ labelled catalog (gb_group_key gb) k).

(** A scope is configured once any binding names it, enabled or not. *)
Definition configured_rows (bs : list binding) (gbs : list group_binding) (s : scope_t) : Prop :=
  (exists b, b ∈ bs /\ b_scope b = s) \/ (exists gb, gb ∈ gbs /\ gb_scope gb = s).

Lemma catalog_keys_spec catalog g k :
  k ∈ default ∅ (build_callable_keys_by_access_group catalog !! g) <-> labelled catalog g k.
Proof.
  destruct catalog as [c|]; simpl.
  - rewrite keys_by_group_spec. rewrite lookup_empty. set_solver.
  - rewrite lookup_empty. split; [done|]. by intros (c & raw & t & [=] & _).
Qed.

(** A reload reads every row: with repositories whose rows do not change
    meanwhile and fuel above their numbers, it succeeds, a scope is enabled
    for exactly the keys some enabled binding of it names or some enabled
    binding of a group labelling the key's catalog target, it counts as
    configured exactly when some binding names it, and its mode is that of its
    last policy row. *)
Theorem grant_snapshot_exact (svc : GrantService) (fuel : nat) (bs : list binding)
    (gbs : list group_binding) (ps : list scope_policy) (s : scope_t) :
  lists (repository svc) bs -> lists (access_group_repository svc) gbs -> lists (policy_repository svc) ps ->
  (length bs < fuel)%nat -> (length gbs < fuel)%nat -> (length ps < fuel)%nat ->
  exists sn, reload fuel svc = Some (set_snapshot sn svc, Ret tt) /\
    (forall k, k ∈ members (enabled_by_scope sn) s <-> granted bs gbs (callable_target_catalog svc) s k) /\
    (has_scope_access_configuration sn s = true <-> configured_rows bs gbs s) /\
    scope_modes_by_scope sn !! s =
      option_map sp_mode (last (filter (fun p => sp_scope p = s) ps)).
Proof.
  intros Hb Hg Hp Fb Fg Fp. unfold reload, granted, configured_rows, has_scope_access_configuration.
  destruct (decide (repository svc = None /\ policy_repository svc = None /\ access_group_repository svc = None))
    as [(Eb & Ep & Eg)|Hsome].
  - rewrite Eb, Ep, Eg in *. simpl in Hb, Hg, Hp. subst bs gbs ps. eexists. split; [done|].
    rewrite !exists_nil. setoid_rewrite exists_nil. simpl.
    split_and!; [|split; [done|tauto]|done]. intros k. unfold members. rewrite lookup_empty. set_solver.
  - rewrite (read_all_lists _ bs), (read_all_lists _ gbs), (read_all_lists _ ps) by done.
    destruct (foldl add_binding (∅, ∅) bs) as [enabled counts] eqn:Eb.
    destruct (foldl add_group_binding (∅, ∅) gbs) as [enabled_groups group_counts] eqn:Eg.
    exists (mkSnapshot (expand_scopes (build_callable_keys_by_access_group (callable_target_catalog svc)) enabled
              (map_to_list enabled_groups)) counts (foldl add_policy ∅ ps) enabled_groups group_counts
              (build_callable_keys_by_access_group (callable_target_catalog svc))).
    split; [destruct (repository svc), (policy_repository svc), (access_group_repository svc); simpl; naive_solver|].
    pose proof (fold_rows_members b_scope b_callable_key b_enabled bs (∅, ∅) s) as Mb.
    pose proof (fold_rows_members gb_scope gb_group_key gb_enabled gbs (∅, ∅) s) as Mg.
    pose proof (fold_rows_count b_scope b_callable_key b_enabled bs (∅, ∅) s) as Cb.
    pose proof (fold_rows_count gb_scope gb_group_key gb_enabled gbs (∅, ∅) s) as Cg.
    change (foldl _ (∅, ∅) bs) with (foldl add_binding (∅, ∅) bs) in Mb, Cb.
    change (foldl _ (∅, ∅) gbs) with (foldl add_group_binding (∅, ∅) gbs) in Mg, Cg.
    rewrite Eb in Mb, Cb. rewrite Eg in Mg, Cg. cbn [fst snd] in *.
    cbn [enabled_by_scope binding_counts_by_scope group_binding_counts_by_scope scope_modes_by_scope].
    unfold members at 2 in Mb. unfold members at 2 in Mg. unfold count at 2 in Cb. unfold count at 2 in Cg.
    rewrite lookup_empty in *. simpl in Cb, Cg. split_and!.
    + intros k. rewrite expand_enabled_groups, Mb. setoid_rewrite Mg. setoid_rewrite catalog_keys_spec.
      cbn [default]. split.
      * intros [[?%not_elem_of_empty|?]|(g & [?%not_elem_of_empty|(gb & ? & ? & ? & <-)] & Hl)]; try done; eauto 10.
      * intros [?|(gb & ? & ? & ? & Hl)]; [by left; right|right]. eexists. split; [|exact Hl]. eauto 10.
    + rewrite Nat.ltb_lt.
      assert (Hpos : forall a b, (0 < a + b)%nat <-> (0 < a \/ 0 < b)%nat) by lia.
      rewrite Hpos, Cb, Cg. pose proof (Nat.lt_irrefl 0). tauto.
    + rewrite fold_policies. by destruct (last _).
Qed.

Definition page_of {A} (rows : list A) : pager A := fun limit offset =>
  Ret (take limit (drop offset rows), length rows).

Definition sample_bindings : list binding :=
  [mkBinding ("organization", "org1")%string "gpt" true; mkBinding ("organization", "org1")%string "old" false;
   mkBinding ("team", "t1")%string "gpt" true].
Definition sample_service : GrantService :=
  mkService (Some (page_of sample_bindings))
    (Some (page_of [mkScopePolicy ("team", "t1")%string "restrict"]))
    (Some (page_of [mkGroupBinding ("organization", "org1")%string "chat" true]))
    (Some [("claude"%string, mkTarget "claude" model_target {["chat"%string]})]) empty_snapshot.

Lemma grant_snapshot_exact_witness :
  exists sn, reload 10 sample_service = Some (set_snapshot sn sample_service, Ret tt) /\
    "claude"%string ∈ members (enabled_by_scope sn) ("organization", "org1")%string.
Proof.
  destruct (grant_snapshot_exact sample_service 10 sample_bindings
    [mkGroupBinding ("organization", "org1")%string "chat" true] [mkScopePolicy ("team", "t1")%string "restrict"]
    ("organization", "org1")%string) as (sn & Hr & Hk & _); try (simpl; lia); try (intros ? ?; reflexivity).
  exists sn. split; [exact Hr|]. apply Hk. right. eexists. split; [by left|]. split_and!; [done|done|].
  eexists _, _, _. split; [done|]. split; [by left|]. split_and!; [set_solver|done|done].
Defined.

(** ** Who may call a model *)

Section access.
Context `{PyRepr}.

Lemma non_blank_clean s t : non_blank s = Some t -> Str.strip t = t /\ Str.is_empty t = false.
Proof.
  unfold non_blank. destruct (Str.is_empty (Str.strip s)) eqn:E; [done|]. intros [= <-].
  by rewrite strip_idemp.
Qed.

Lemma normalize_optional_clean v t : normalize_optional v = Some t -> Str.strip t = t /\ Str.is_empty t = false.
Proof. destruct v as [s|]; simpl; [apply non_blank_clean|done]. Qed.

Lemma api_key_scope_clean auth k :
  sc_api_key_scope_id (resolve_runtime_scope_context auth) = Some k -> Str.strip k = k /\ Str.is_empty k = false.
Proof.
  unfold resolve_runtime_scope_context, build_runtime_scope_context, normalize_optional_value.
  cbn [sc_api_key_scope_id]. destruct (is_none _); [|destruct (non_blank (py_str _)) as [s|] eqn:E].
  - case_bool_decide; [apply normalize_optional_clean|done].
  - intros [= <-]. by eapply non_blank_clean.
  - case_bool_decide; [apply normalize_optional_clean|done].
Qed.

Lemma restricts_clean sn type id :
  Str.strip type = type -> Str.is_empty type = false -> Str.strip id = id /\ Str.is_empty id = false ->
  restricts_scope sn type id = true <-> scope_modes_by_scope sn !! (type, id) = Some "restrict"%string.
Proof.
  intros Ht Hte [Hi Hie]. unfold restricts_scope, scope_mode. rewrite Ht, Hi, Hte, Hie. simpl.
  apply bool_decide_eq_true.
Qed.

Lemma restrict_by_spec sn r s (effective : gset string) m :
  m ∈ restrict_by sn r s effective <->
  m ∈ effective /\ (r = true -> m ∈ members (enabled_by_scope sn) s).
Proof. unfold restrict_by. destruct r; rewrite ?elem_of_intersection; naive_solver. Qed.

Lemma restricts_user sn s :
  should_restrict_user_scope sn s = true <->
  scope_modes_by_scope sn !! s = Some "restrict"%string \/
  (scope_modes_by_scope sn !! s = None /\ has_scope_access_configuration sn s = true).
Proof.
  unfold should_restrict_user_scope. destruct (scope_modes_by_scope sn !! s) as [mode|].
  - rewrite bool_decide_eq_true. split; [intros ->; by left|by intros [[= ->]|[? _]]].
  - split; [by right|by intros [?|[_ ?]]].
Qed.

(** Restricting by an optional scope. *)
Lemma optional_restriction sn type (o : option string) (r : string -> bool) (P : string -> Prop)
    (effective : gset string) m :
  (forall i, o = Some i -> r i = true <-> P i) ->
  m ∈ match o with Some i => restrict_by sn (r i) (type, i) effective | None => effective end <->
  m ∈ effective /\ forall i, o = Some i -> P i -> m ∈ members (enabled_by_scope sn) (type, i).
Proof.
  intros Hr. destruct o as [i|]; [|split; [by intros|tauto]].
  rewrite restrict_by_spec, (Hr i eq_refl). split; intros [He Hm]; (split; [done|]).
  - by intros j [= <-].
  - by apply Hm.
Qed.

Lemma foldl_intersection (l : list (gset string)) acc m :
  m ∈ foldl (∩) acc l <-> m ∈ acc /\ forall X, X ∈ l -> m ∈ X.
Proof.
  revert acc. induction l as [|X l IH]; intros acc; simpl; [set_solver|].
  rewrite IH, elem_of_intersection. setoid_rewrite elem_of_cons. naive_solver.
Qed.

(** The organization's grants when the caller belongs to one, else what every
    configured scope of its chain grants, at least one being configured. *)
Definition base_grants (sn : Snapshot) (ctx : RuntimeScopeContext) (m : string) : Prop :=
  let granted_at s := m ∈ members (enabled_by_scope sn) s in
  let configured s := has_scope_access_configuration sn s = true in
  match sc_organization_id ctx with
  | Some o => configured ("organization"%string, o) /\ granted_at ("organization"%string, o)
  | None => (exists s, s ∈ sc_scope_chain ctx /\ configured s) /\
            (forall s, s ∈ sc_scope_chain ctx -> configured s -> granted_at s)
  end.

(** What the bindings and policies of a snapshot grant a caller: the base
    grants, cut down by its team, API key and user wherever these restrict. *)
Definition policy_grants (sn : Snapshot) (ctx : RuntimeScopeContext) (m : string) : Prop :=
  let granted_at s := m ∈ members (enabled_by_scope sn) s in
  let configured s := has_scope_access_configuration sn s = true in
  let mode s := scope_modes_by_scope sn !! s in
  base_grants sn ctx m /\
  (forall t, sc_team_id ctx = Some t -> mode ("team"%string, t) = Some "restrict"%string ->
     granted_at ("team"%string, t)) /\
  (forall k, sc_api_key_scope_id ctx = Some k -> mode ("api_key"%string, k) = Some "restrict"%string ->
     granted_at ("api_key"%string, k)) /\
  (forall u, sc_user_id ctx = Some u ->
     mode ("user"%string, u) = Some "restrict"%string \/
     (mode ("user"%string, u) = None /\ configured ("user"%string, u)) ->
     granted_at ("user"%string, u)).

(** The lists of the key and of its team, where given. *)
Definition legacy_grants (auth : UserAPIKeyAuth) (m : string) : Prop :=
  let own := normalize_allowlist (models auth) in
  let team := normalize_allowlist (team_models auth) in
  (own = ∅ \/ m ∈ own) /\ (team = ∅ \/ m ∈ team).

Lemma base_allowlist_spec sn auth m :
  (exists X, resolve_base_allowlist sn auth = Some X /\ m ∈ X) <->
  base_grants sn (resolve_runtime_scope_context auth) m.
Proof.
  unfold resolve_base_allowlist, base_grants. cbv zeta. destruct (sc_organization_id _) as [o|].
  - destruct (has_scope_access_configuration _ _); [naive_solver|].
    split; [|by intros [? _]]. intros (X & [= <-] & Hm). set_solver.
  - unfold applicable_scopes. set (chain := sc_scope_chain _).
    assert (Hin : forall s, s ∈ List.filter (has_scope_access_configuration sn) chain <->
      s ∈ chain /\ has_scope_access_configuration sn s = true)
      by (intros s; rewrite !list_elem_of_In; apply filter_In).
    destruct (List.filter _ chain) as [|s0 rest].
    + split; [by intros (X & ? & _)|]. intros [(s & Hs) _]. apply Hin in Hs. by apply not_elem_of_nil in Hs.
    + simpl. split.
      * intros (X & [= <-] & Hm). apply foldl_intersection in Hm as [H0 Hr]. split.
        { exists s0. apply Hin. by left. }
        intros s Hs Hc. pose proof (proj2 (Hin s) (conj Hs Hc)) as [->|Hs']%elem_of_cons; [done|].
        apply Hr, list_elem_of_fmap. eauto.
      * intros [_ Hall]. eexists. split; [done|]. apply foldl_intersection. split.
        { apply Hall; apply Hin; by left. }
        intros X (s & -> & Hs)%list_elem_of_fmap. apply Hall; apply Hin; by right.
Qed.

Lemma policy_allowlist_spec svc auth m :
  sc_is_master_key (resolve_runtime_scope_context auth) = false ->
  exists X, pr_allowlist (resolve_policy_allowlist svc auth) = Some X /\
    (m ∈ X <-> policy_grants (snapshot svc) (resolve_runtime_scope_context auth) m).
Proof.
  intros Hm. unfold resolve_policy_allowlist, policy_grants. rewrite Hm.
  pose proof (base_allowlist_spec (snapshot svc) auth m) as Hbase. cbv zeta in Hbase |- *.
  pose proof (api_key_scope_clean auth) as Hkey.
  assert (Hteam : forall t, sc_team_id (resolve_runtime_scope_context auth) = Some t ->
    Str.strip t = t /\ Str.is_empty t = false) by (intros t; apply normalize_optional_clean).
  set (ctx := resolve_runtime_scope_context auth) in *. clearbody ctx.
  destruct (resolve_base_allowlist (snapshot svc) auth) as [base|]; cbn [pr_allowlist].
  2: { eexists. split; [done|]. rewrite <- Hbase. split; [by intros ?%not_elem_of_empty|by intros [(? & ? & _) _]]. }
  assert (Hb : m ∈ base <-> base_grants (snapshot svc) ctx m)
    by (rewrite <- Hbase; split; [eauto|by intros (? & [= <-] & ?)]).
  eexists. split; [done|].
  rewrite (optional_restriction _ _ _ _ (fun u => scope_modes_by_scope (snapshot svc) !! ("user"%string, u) =
      Some "restrict"%string \/ (scope_modes_by_scope (snapshot svc) !! ("user"%string, u) = None /\
      has_scope_access_configuration (snapshot svc) ("user"%string, u) = true)))
    by (intros u _; apply restricts_user).
  rewrite (optional_restriction _ _ _ _ (fun k =>
      scope_modes_by_scope (snapshot svc) !! ("api_key"%string, k) = Some "restrict"%string))
    by (intros k Hk; apply restricts_clean; auto).
  rewrite (optional_restriction _ _ _ _ (fun t =>
      scope_modes_by_scope (snapshot svc) !! ("team"%string, t) = Some "restrict"%string))
    by (intros t Ht; apply restricts_clean; auto).
  rewrite Hb. tauto.
Qed.

Lemma legacy_allowlist_spec auth m :
  match resolve_legacy_model_allowlist auth with Some X => m ∈ X | None => True end <-> legacy_grants auth m.
Proof.
  unfold resolve_legacy_model_allowlist, legacy_grants. cbv zeta. simpl.
  set (own := normalize_allowlist (models auth)). set (team := normalize_allowlist (team_models auth)).
  clearbody own team. do 2 (case_bool_decide; simpl); set_solver.
Qed.

(** The caller may use the model. *)
Definition may_use (auth : UserAPIKeyAuth) (service : option GrantService) (mode : pyval) (m : string) : Prop :=
  let ctx := resolve_runtime_scope_context auth in
  sc_is_master_key ctx = true \/
  match normalize_callable_target_policy_mode mode, service with
  | shadow, _ => legacy_grants auth m
  | enforce, None => False
  | enforce, Some svc => policy_grants (snapshot svc) ctx m
  end.

Lemma effective_allowlist_spec auth service mode m :
  match resolve_effective_model_allowlist auth service mode with Some X => m ∈ X | None => True end <->
  may_use auth service mode m.
Proof.
  unfold resolve_effective_model_allowlist, resolve_model_allowlist_resolution, may_use. cbv zeta.
  destruct (sc_is_master_key _) eqn:Em; [simpl; tauto|].
  destruct (normalize_callable_target_policy_mode mode); cbn [ar_effective].
  - rewrite legacy_allowlist_spec. naive_solver.
  - destruct service as [svc|]; [|simpl; set_solver].
    destruct (policy_allowlist_spec svc auth m Em) as (X & -> & HX). rewrite HX. naive_solver.
Qed.
End access.

(** C37: Who may use a model.  The master key may use all; otherwise, when the
    policy is enforced, a model is allowed exactly when the grant snapshot
    grants it to the caller's organization — or, without one, to every
    configured scope of its chain, of which there is one — and to its team,
    API key and user wherever these restrict; without a grant service nothing
    is allowed; in shadow mode the lists of the key and its team decide.  A
    model that is not allowed is refused with 403: by a PermissionDeniedError
    on the request path and by an HTTP exception in the batch API; and the
    visible models are exactly the allowed ones, in order. *)
Theorem model_access_decision `{PyRepr} (auth : UserAPIKeyAuth) (service : option GrantService)
    (mode : pyval) (model : string) (ids : list string) :
  (ensure_model_allowed auth model service mode = Ret tt /\ may_use auth service mode model \/
   exists p, ensure_model_allowed auth model service mode = Raise (EProxy p) /\
     pe_class p = PermissionDeniedError /\ pe_status_code p = 403 /\ ~ may_use auth service mode model) /\
  (ensure_batch_model_allowed auth model service mode = Ret tt /\ may_use auth service mode model \/
   exists e, ensure_batch_model_allowed auth model service mode = Raise (EOther e) /\
     oe_status_code e = Some 403 /\ ~ may_use auth service mode model) /\
  (model ∈ filter_visible_models ids auth service mode <-> model ∈ ids /\ may_use auth service mode model) /\
  sublist (filter_visible_models ids auth service mode) ids.
Proof.
  pose proof (effective_allowlist_spec auth service mode model) as Hspec.
  unfold ensure_model_allowed, ensure_batch_model_allowed, filter_visible_models.
  destruct (resolve_effective_model_allowlist auth service mode) as [X|].
  2: { split_and!; [left; tauto|left; tauto|tauto|done]. }
  split_and!.
  - case_bool_decide as Hin; [left; tauto|right]. eexists. split; [reflexivity|].
    split_and!; [reflexivity..|tauto].
  - case_bool_decide as Hin; [left; tauto|right]. eexists. split; [reflexivity|]. split; [reflexivity|tauto].
  - rewrite !list_elem_of_In, filter_In, bool_decide_eq_true. tauto.
  - clear Hspec. induction ids as [|m ids IH]; simpl; [constructor|]. case_bool_decide; by constructor.
Qed.
