(* ===== verification/MemoryCache.v ===== *)
(** * The in-memory response cache: src/cache/backends/memory.py

    [InMemoryBackend] keeps at most [max_size] entries, evicts the least
    recently used one and drops an entry when it is read past its lifetime.
    The [OrderedDict] is the list of its items, oldest first; each operation
    runs under the lock, so a history is a sequence of them. *)

From S2P Require Import Prelude PyVal.

(** ** src/cache/backends/base.py *)

Record CacheEntry : Type := mkEntry {
  ce_response : pyval;
  ce_model : string;
  ce_cached_at : Z;                                (* microseconds *)
  ce_ttl : Z;                                      (* seconds *)
  ce_token_count : Z;
  ce_pricing : option (list (string * pyval));
  ce_deployment_id : option string;
  ce_provider : option string;
  ce_deployment_model : option string
}.

Definition with_ttl (e : CacheEntry) (ttl : Z) : CacheEntry :=
  mkEntry (ce_response e) (ce_model e) (ce_cached_at e) ttl (ce_token_count e) (ce_pricing e)
    (ce_deployment_id e) (ce_provider e) (ce_deployment_model e).

(** ** InMemoryBackend *)

Record InMemoryBackend : Type := mkCache {
  max_size : Z;
  cache : list (string * CacheEntry)
}.

Definition set_cache (l : list (string * CacheEntry)) (c : InMemoryBackend) : InMemoryBackend :=
  mkCache (max_size c) l.

Definition init_cache (max_size : Z) : InMemoryBackend := mkCache max_size [].

(** [popitem] of an empty dictionary raises [KeyError]. *)
Inductive cache_error : Type := KeyError.

Local Abbreviation op := (st InMemoryBackend cache_error).

Definition expired (now : Z) (e : CacheEntry) : bool := ce_cached_at e + ce_ttl e * usec <? now.

(** [move_to_end] of a present key. *)
Definition move_to_end (key : string) (e : CacheEntry) (l : list (string * CacheEntry)) :=
  dict_pop l key ++ [(key, e)].

Definition get (now : Z) (key : string) : op (option CacheEntry) := fun c =>
  match dict_get (cache c) key with
  | None => (c, Ret None)
  | Some e =>
    if expired now e then (set_cache (dict_pop (cache c) key) c, Ret None)
    else (set_cache (move_to_end key e (cache c)) c, Ret (Some e))
  end.

(** [while len(cache) > max_size: cache.popitem(last=False)] *)
Fixpoint evict (max_size : Z) (l : list (string * CacheEntry))
    : list (string * CacheEntry) * res cache_error unit :=
  if max_size <? Z.of_nat (length l) then
    match l with
    | [] => ([], Raise KeyError)
    | _ :: l' => evict max_size l'
    end
  else (l, Ret tt).

(** Setting a present key moves it to the end; a new key is appended. *)
Definition set_entry (key : string) (e : CacheEntry) (ttl : option Z) : op unit := fun c =>
  let e := match ttl with Some t => with_ttl e t | None => e end in
  let '(l, r) := evict (max_size c) (move_to_end key e (cache c)) in
  (set_cache l c, r).

Definition delete (key : string) : op unit := fun c => (set_cache (dict_pop (cache c) key) c, Ret tt).

Definition clear : op unit := fun c => (set_cache [] c, Ret tt).

(** ** Histories *)

Inductive cache_op : Type :=
  | Get (key : string)
  | SetEntry (key : string) (e : CacheEntry) (ttl : option Z)
  | Delete (key : string)
  | Clear.

Definition run_cache_op (now : Z) (o : cache_op) (c : InMemoryBackend) : InMemoryBackend :=
  match o with
  | Get key => fst (get now key c)
  | SetEntry key e ttl => fst (set_entry key e ttl c)
  | Delete key => fst (delete key c)
  | Clear => fst (clear c)
  end.

Definition run_cache (h : list (Z * cache_op)) (c : InMemoryBackend) : InMemoryBackend :=
  foldl (fun c no => run_cache_op no.1 no.2 c) c h.

(** ** Lemmas *)

Definition keys (c : InMemoryBackend) : list string := map fst (cache c).

Section dicts.
Context {V : Type}.
Implicit Types (d : list (string * V)).

Lemma dict_pop_split d k v : dict_get d k = Some v ->
  exists d1 d2, d = d1 ++ (k, v) :: d2 /\ dict_pop d k = d1 ++ d2 /\ k ∉ map fst d1.
Proof.
  induction d as [|[k' v'] d IH]; simpl; [done|]. destruct (String.eqb_spec k' k) as [->|Hne].
  - intros [= ->]. exists [], d. split_and!; [done|done|apply not_elem_of_nil].
  - intros (d1 & d2 & -> & -> & Hk)%IH. exists ((k', v') :: d1), d2. split_and!; [done|done|].
    simpl. rewrite not_elem_of_cons. naive_solver.
Qed.

Lemma dict_pop_absent d k : dict_get d k = None -> dict_pop d k = d.
Proof.
  induction d as [|[k' v'] d IH]; simpl; [done|]. destruct (String.eqb_spec k' k); [done|].
  intros Hk. by rewrite IH.
Qed.

Lemma dict_get_app d1 d2 k : k ∉ map fst d1 -> dict_get (d1 ++ d2) k = dict_get d2 k.
Proof.
  induction d1 as [|[k' v'] d1 IH]; simpl; [done|]. rewrite not_elem_of_cons. intros [Hne Hk].
  destruct (String.eqb_spec k' k); [naive_solver|auto].
Qed.

Lemma NoDup_pop d k : NoDup (map fst d) -> NoDup (map fst (dict_pop d k)) /\ k ∉ map fst (dict_pop d k).
Proof.
  intros Hnd. destruct (dict_get d k) as [v|] eqn:E.
  - destruct (dict_pop_split _ _ _ E) as (d1 & d2 & -> & -> & _).
    rewrite map_app in *. cbn [map fst] in Hnd. rewrite <- Permutation_middle in Hnd.
    by apply NoDup_cons in Hnd as [].
  - rewrite (dict_pop_absent _ _ E). split; [done|]. by apply dict_get_None.
Qed.
End dicts.

(** Eviction keeps the newest entries, as many as fit. *)
Lemma evict_suffix n l : 0 <= n ->
  exists old, l = old ++ (evict n l).1 /\ (evict n l).2 = Ret tt /\ Z.of_nat (length (evict n l).1) <= n /\
    (old <> [] -> n <= Z.of_nat (length (evict n l).1)).
Proof.
  intros Hn. induction l as [|x l IH]; cbn [evict].
  - rewrite (proj2 (Z.ltb_ge n _)) by done. exists []. split_and!; done.
  - destruct (Z.ltb_spec n (Z.of_nat (length (x :: l)))) as [Hlt|Hge]; cbn [length] in *.
    + destruct IH as (old & Hl & Hr & Hle & Hge). exists (x :: old).
      split_and!; [simpl; congruence|done|done|]. intros _.
      destruct old as [|y old]; [|by apply Hge]. simpl in Hl. rewrite <- Hl. lia.
    + exists []. split_and!; [done|done|simpl; lia|done].
Qed.

(** ** The bound *)

Definition wf_cache (c : InMemoryBackend) : Prop :=
  NoDup (keys c) /\ Z.of_nat (length (cache c)) <= max_size c.

Lemma length_pop {V} (d : list (string * V)) k : (length (dict_pop d k) <= length d)%nat.
Proof.
  destruct (dict_get d k) as [v|] eqn:E; [|by rewrite dict_pop_absent].
  destruct (dict_pop_split _ _ _ E) as (d1 & d2 & -> & -> & _). rewrite !length_app. simpl. lia.
Qed.

Lemma move_to_end_nodup key e l : NoDup (map fst l) -> NoDup (map fst (move_to_end key e l)).
Proof.
  intros Hl. unfold move_to_end. rewrite map_app. cbn [map fst].
  rewrite <- Permutation_cons_append. destruct (NoDup_pop l key Hl). by apply NoDup_cons.
Qed.

Lemma length_move_to_end key e l e' : dict_get l key = Some e' -> length (move_to_end key e l) = length l.
Proof.
  intros E. unfold move_to_end. destruct (dict_pop_split _ _ _ E) as (d1 & d2 & -> & -> & _).
  rewrite !length_app. simpl. lia.
Qed.

Lemma run_cache_op_wf now o c : 0 <= max_size c -> wf_cache c ->
  wf_cache (run_cache_op now o c) /\ max_size (run_cache_op now o c) = max_size c.
Proof.
  intros Hm [Hnd Hlen]. unfold wf_cache, keys in *. destruct o as [key|key e ttl|key|]; simpl.
  - unfold get. destruct (dict_get _ _) as [e|] eqn:E; [|done]. destruct (expired now e); simpl.
    + destruct (NoDup_pop (cache c) key Hnd). pose proof (length_pop (cache c) key). split_and!; [done|lia|done].
    + rewrite (length_move_to_end _ _ _ _ E). auto using move_to_end_nodup.
  - unfold set_entry. set (e' := match ttl with Some t => _ | None => e end).
    destruct (evict_suffix (max_size c) (move_to_end key e' (cache c)) Hm) as (old & Hold & _ & Hle & _).
    destruct (evict _ _) as [l r]. simpl in *. split_and!; [|done|done].
    pose proof (move_to_end_nodup key e' _ Hnd) as H. rewrite Hold, map_app in H. by apply NoDup_app in H as (_ & _ & ?).
  - destruct (NoDup_pop (cache c) key Hnd). pose proof (length_pop (cache c) key). split_and!; [done|lia|done].
  - split_and!; [apply NoDup_nil_2|lia|done].
Qed.

Lemma run_cache_wf h c : 0 <= max_size c -> wf_cache c ->
  wf_cache (run_cache h c) /\ max_size (run_cache h c) = max_size c.
Proof.
  revert c. induction h as [|[now o] h IH]; intros c Hm Hc; [done|].
  destruct (run_cache_op_wf now o c Hm Hc) as [Hc' Hm']. simpl.
  destruct (IH (run_cache_op now o c)) as [? Heq]; [lia|done|]. by rewrite Heq.
Qed.

(** ** Least recently used *)

(** The keys an operation makes recent. *)
Definition touched (o : cache_op) : list string :=
  match o with Get k | SetEntry k _ _ => [k] | _ => [] end.

(** The operation does not replace or remove the key's entry. *)
Definition spares (key : string) (o : cache_op) : bool :=
  match o with
  | Get _ => true
  | SetEntry k _ _ | Delete k => negb (String.eqb k key)
  | Clear => false
  end.

(** The other keys a history makes recent. *)
Definition rivals (key : string) (h : list (Z * cache_op)) : gset string :=
  list_to_set (List.filter (fun k => negb (String.eqb k key)) (flat_map (fun no => touched no.2) h)).

Lemma rivals_elem key h t o k : (t, o) ∈ h -> k ∈ touched o -> k <> key -> k ∈ rivals key h.
Proof.
  intros Hin Hk Hne. unfold rivals. apply elem_of_list_to_set, list_elem_of_In, filter_In.
  split; [|by destruct (String.eqb_spec k key)]. apply in_flat_map. exists (t, o).
  split; by apply list_elem_of_In.
Qed.

Section lru.
Context (key : string) (stored : CacheEntry) (T : gset string).

(** The key's entry is present, and only rivals are newer. *)
Definition held (l : list (string * CacheEntry)) : Prop :=
  exists l1 l2, l = l1 ++ (key, stored) :: l2 /\ forall k, k ∈ map fst l2 -> k ∈ T.

Lemma pop_sublist {V} (d : list (string * V)) k k' : k' ∈ map fst (dict_pop d k) -> k' ∈ map fst d.
Proof.
  destruct (dict_get d k) as [v|] eqn:E; [|by rewrite dict_pop_absent].
  destruct (dict_pop_split _ _ _ E) as (d1 & d2 & -> & -> & _).
  rewrite !map_app, !elem_of_app. cbn [map fst]. rewrite elem_of_cons. tauto.
Qed.

Lemma held_pop l k : k <> key -> held l -> held (dict_pop l k).
Proof.
  intros Hne (l1 & l2 & -> & Hl2). unfold held.
  assert (exists l1' l2', dict_pop (l1 ++ (key, stored) :: l2) k = l1' ++ (key, stored) :: l2' /\
            forall x, x ∈ map fst l2' -> x ∈ map fst l2) as (l1' & l2' & -> & Hs); [|eauto 10].
  induction l1 as [|[x e] l1 IH]; simpl.
  - destruct (String.eqb_spec key k); [done|]. exists [], (dict_pop l2 k). split; [done|apply pop_sublist].
  - destruct (String.eqb_spec x k); [by exists l1, l2|]. destruct IH as (l1' & l2' & -> & Hs).
    by exists ((x, e) :: l1'), l2'.
Qed.

Lemma held_snoc l k e : k ∈ T -> held l -> held (l ++ [(k, e)]).
Proof.
  intros Hk (l1 & l2 & -> & Hl2). exists l1, (l2 ++ [(k, e)]). split; [by rewrite <- app_assoc|].
  intros x. rewrite map_app, elem_of_app. cbn [map fst]. rewrite list_elem_of_singleton.
  intros [?| ->]; auto.
Qed.

(** Eviction reaches the key only past more than [T] newer entries. *)
Lemma held_evict n l : Z.of_nat (size T) < n -> NoDup (map fst l) -> held l -> held (evict n l).1.
Proof.
  intros HT Hnd (l1 & l2 & Hl & Hl2). destruct (evict_suffix n l) as (old & Hold & _ & _ & Hge); [lia|].
  set (rest := (evict n l).1) in *. rewrite Hl in Hold.
  apply app_eq_inv in Hold as [(k' & -> & Hr)|(k' & -> & Hr)]; [by exists k', l2|].
  destruct k' as [|x k']; simpl in Hr; [by exists [], l2|]. exfalso. injection Hr as <- ->.
  assert (Hrest : NoDup (map fst rest)).
  { rewrite Hl, !map_app in Hnd. cbn [map fst] in Hnd. apply NoDup_app in Hnd as (_ & _ & Hnd).
    apply NoDup_cons in Hnd as [_ Hnd]. rewrite map_app in Hnd. by apply NoDup_app in Hnd as (_ & _ & ?). }
  assert (Hsize : (length rest <= size T)%nat).
  { rewrite <- (length_map fst), <- (size_list_to_set (C := gset string)) by done.
    apply subseteq_size. intros k Hk%elem_of_list_to_set. apply Hl2. rewrite map_app, elem_of_app. by right. }
  assert (l1 ++ (key, stored) :: k' <> []) by (by destruct l1).
  specialize (Hge H). lia.
Qed.

Lemma held_op now o c :
  Z.of_nat (size T) < max_size c -> wf_cache c -> spares key o = true ->
  (o = Get key -> expired now stored = false) ->
  (forall k, k ∈ touched o -> k <> key -> k ∈ T) ->
  held (cache c) -> held (cache (run_cache_op now o c)).
Proof.
  intros HT [Hnd Hlen] Hsp Hexp Htouch Hh. unfold keys in Hnd. destruct o as [k|k e ttl|k|]; simpl in *; [| | |done].
  - unfold get. destruct (dict_get (cache c) k) as [e|] eqn:E; [|done].
    destruct (decide (k = key)) as [->|Hne].
    + assert (e = stored) as ->.
      { destruct Hh as (l1 & l2 & Hl & _). rewrite Hl in E, Hnd. rewrite map_app in Hnd.
        apply NoDup_app in Hnd as (_ & Hd & _). rewrite dict_get_app in E.
        - simpl in E. rewrite String.eqb_refl in E. by injection E.
        - intros Hk. apply (Hd key Hk). by left. }
      rewrite (Hexp eq_refl). simpl. exists (dict_pop (cache c) key), []. split; [done|].
      intros x Hx. by apply not_elem_of_nil in Hx.
    + destruct (expired now e); simpl; [by apply held_pop|].
      apply held_snoc; [apply Htouch; [by left|done]|by apply held_pop].
  - destruct (String.eqb_spec k key) as [|Hne]; [done|]. unfold set_entry.
    set (e' := match ttl with Some t => _ | None => e end).
    pose proof (held_evict (max_size c) (move_to_end k e' (cache c)) HT) as Hev.
    destruct (evict _ _) as [l r]. simpl in *. apply Hev; [by apply move_to_end_nodup|].
    apply held_snoc; [apply Htouch; [by left|done]|by apply held_pop].
  - destruct (String.eqb_spec k key) as [|Hne]; [done|]. by apply held_pop.
Qed.
End lru.

(** The in-memory cache is a bounded LRU map.  After an entry was stored,
    and until it is overwritten, deleted or cleared, reading its key returns
    exactly that entry (with the lifetime given to [set]) until the lifetime
    is over and nothing afterwards, whatever other keys were stored, read or
    deleted in between, as long as fewer than [max_size] other keys were made
    recent; and the number of entries never exceeds [max_size]. *)
Theorem memory_cache_lru (c : InMemoryBackend) (now0 now : Z) (key : string) (e : CacheEntry)
    (ttl : option Z) (h : list (Z * cache_op)) :
  wf_cache c -> Z.of_nat (size (rivals key h)) < max_size c ->
  let stored := match ttl with Some t => with_ttl e t | None => e end in
  (forall t o, (t, o) ∈ h -> spares key o = true /\ (o = Get key -> expired t stored = false)) ->
  let c' := run_cache ((now0, SetEntry key e ttl) :: h) c in
  (get now key c').2 = Ret (if expired now stored then None else Some stored) /\
  Z.of_nat (length (cache c')) <= max_size c.
Proof.
  intros Hwf Hr stored Hh c'. set (T := rivals key h) in *.
  assert (Hwf1 : wf_cache (run_cache_op now0 (SetEntry key e ttl) c) /\
    max_size (run_cache_op now0 (SetEntry key e ttl) c) = max_size c) by (apply run_cache_op_wf; [lia|done]).
  assert (Hheld : held key stored T (cache (run_cache_op now0 (SetEntry key e ttl) c))).
  { destruct Hwf as [Hnd _]. simpl. unfold set_entry. fold stored.
    pose proof (held_evict key stored T (max_size c) (move_to_end key stored (cache c)) Hr) as Hev.
    destruct (evict _ _) as [l r]. simpl in *. apply Hev; [by apply move_to_end_nodup|].
    exists (dict_pop (cache c) key), []. split; [done|]. intros x Hx. by apply not_elem_of_nil in Hx. }
  unfold c'. cbn [run_cache foldl]. change (run_cache_op (now0, SetEntry key e ttl).1 _ c) with
    (run_cache_op now0 (SetEntry key e ttl) c).
  set (c1 := run_cache_op now0 (SetEntry key e ttl) c) in *. clearbody c1. clear c' Hwf.
  destruct Hwf1 as [Hwf1 Hm]. rewrite <- Hm in *. clear Hm.
  assert (HT : forall t o, (t, o) ∈ h -> forall k, k ∈ touched o -> k <> key -> k ∈ T)
    by (intros t o Hin k; by apply (rivals_elem key h t o)).
  clearbody T. revert c1 Hr Hwf1 Hheld.
  induction h as [|[t o] h IH]; intros c1 Hr Hwf1 Hheld.
  - simpl. destruct Hwf1 as [Hnd Hlen]. split; [|done]. destruct Hheld as (l1 & l2 & Hl & _).
    unfold keys in Hnd. unfold get. rewrite Hl in *. rewrite map_app in Hnd.
    apply NoDup_app in Hnd as (_ & Hd & _).
    rewrite dict_get_app by (intros Hk; apply (Hd key Hk); by left). simpl. rewrite String.eqb_refl.
    by destruct (expired now stored).
  - destruct (run_cache_op_wf t o c1) as [Hwf2 Hm2]; [lia|done|].
    destruct (Hh t o ltac:(by left)) as [Hsp Hexp]. cbn [foldl fst snd]. rewrite <- Hm2. apply IH.
    + intros t' o' Hin. apply Hh. by right.
    + intros t' o' Hin. eapply HT. by right.
    + by rewrite Hm2.
    + done.
    + apply held_op; try done. eapply HT. by left.
Qed.

Definition sample_entry (model : string) : CacheEntry := mkEntry PyNone model 0 60 0 None None None None.

Lemma memory_cache_lru_witness :
  (get 1000000 "a" (run_cache [(0, SetEntry "a" (sample_entry "m") (Some 5)); (1, SetEntry "b" (sample_entry "n") None);
     (2, Get "b")] (init_cache 2))).2 = Ret (Some (with_ttl (sample_entry "m") 5)).
Proof.
  apply (memory_cache_lru (init_cache 2) 0 1000000 "a" (sample_entry "m") (Some 5)
           [(1, SetEntry "b" (sample_entry "n") None); (2, Get "b")]).
  - split; [apply NoDup_nil_2|simpl; lia].
  - vm_compute. reflexivity.
  - intros t o Ho. apply elem_of_cons in Ho as [[= -> ->]|Ho]; [by split|].
    apply list_elem_of_singleton in Ho as [= -> ->]. by split.
Defined.
