(* ===== verification/Backpressure.v ===== *)
(** * Batch backpressure: src/batch/backpressure.py and src/batch/worker_backpressure.py

    When a model group has no healthy deployment the batch worker defers the
    whole group for a while: the coordinator keeps the deferral in Redis, for
    the other workers, and in a process-local dictionary. *)

From S2P Require Import Prelude PyVal Errors ErrorPolicy RouterState Backend.
Import BatchRetry.

Record Deferral : Type := mkDeferral {
  df_model_group : string;
  df_reason : string;
  df_until_epoch_seconds : Z
}.

(** [remaining_seconds]: whole seconds, never negative. *)
Definition remaining_seconds (now : Z) (d : Deferral) : Z := Z.max 0 (df_until_epoch_seconds d - secs now).

(** [BatchModelGroupDeferred.__init__] *)
Definition model_group_deferred (model_group reason : string) (retry_after_seconds : Z) : exn :=
  let r := Z.max 1 retry_after_seconds in
  EModelGroupDeferred ("batch model group is temporarily deferred model_group=" +:+ model_group +:+
    " reason=" +:+ reason +:+ " retry_after_seconds=" +:+ Str.of_Z r) r.

Record coordinator (S : Type) : Type := mkCoordinator {
  bp_redis : option (connection S);
  bp_enabled : bool;
  bp_min_delay_seconds : Z;
  bp_max_delay_seconds : Z;
  bp_local_deferrals : gmap string Deferral
}.
Arguments mkCoordinator {S} bp_redis bp_enabled bp_min_delay_seconds bp_max_delay_seconds bp_local_deferrals.
Arguments bp_redis {S} c.
Arguments bp_enabled {S} c.
Arguments bp_min_delay_seconds {S} c.
Arguments bp_max_delay_seconds {S} c.
Arguments bp_local_deferrals {S} c.

Definition init_coordinator {S} (redis_client : option (connection S)) (enabled : bool)
    (min_delay_seconds max_delay_seconds : Z) : coordinator S :=
  let lo := Z.max 1 min_delay_seconds in
  mkCoordinator redis_client enabled lo (Z.max lo max_delay_seconds) ∅.

Section backpressure.
Context {S : Type} `{RedisExec S} `{PyRepr}.
(** [hashlib.sha256(...).hexdigest()], [json.dumps] of the payload (reason,
    until, last_seen), and [json.loads], [None] when it raises. *)
Context (digest : string -> string) (dumps : string -> Z -> Z -> string) (loads : string -> option pyval).
Local Abbreviation op := (st (coordinator S) exn).

Definition set_bp_redis (r : option (connection S)) (c : coordinator S) : coordinator S :=
  mkCoordinator r (bp_enabled c) (bp_min_delay_seconds c) (bp_max_delay_seconds c) (bp_local_deferrals c).
Definition set_bp_local (m : gmap string Deferral) (c : coordinator S) : coordinator S :=
  mkCoordinator (bp_redis c) (bp_enabled c) (bp_min_delay_seconds c) (bp_max_delay_seconds c) m.

(** One awaited command of the client. *)
Definition bp_call (cmd : command) : op reply := fun c =>
  match bp_redis c with
  | None => (c, Raise redis_unavailable)
  | Some r =>
    match outages r with
    | true :: o => (set_bp_redis (Some (mkConn (server r) o)) c, Raise connection_error)
    | o =>
      let '(s, rep) := redis_exec (server r) cmd in
      (set_bp_redis (Some (mkConn s (tail o))) c, Ret rep)
    end
  end.

Definition clamp_delay (c : coordinator S) (delay_seconds : Z) : Z :=
  Z.min (bp_max_delay_seconds c) (Z.max (bp_min_delay_seconds c) delay_seconds).

(** [str(reason or "unknown").strip() or "unknown"] *)
Definition normalize_reason (reason : string) : string :=
  let r := Str.strip (if Str.is_empty reason then "unknown"%string else reason) in
  if Str.is_empty r then "unknown"%string else r.

Definition key_for_model_group (model_group : string) : string :=
  ("batch:backpressure:model_group:" +:+ digest model_group)%string.

Definition store_local (key : string) (d : Deferral) : op unit := fun c =>
  (set_bp_local (<[key := d]> (bp_local_deferrals c)) c, Ret tt).

Definition get_local (now : Z) (key : string) : op (option Deferral) := fun c =>
  match bp_local_deferrals c !! key with
  | None => (c, Ret None)
  | Some d =>
    if remaining_seconds now d <=? 0
    then (set_bp_local (base.delete key (bp_local_deferrals c)) c, Ret None)
    else (c, Ret (Some d))
  end.

(** A failed write to Redis only logs: the deferral is local either way. *)
Definition defer_model_group (now : Z) (model_group : string) (delay_seconds : Z) (reason : string)
    : op (option Deferral) := fun c =>
  let group := Str.strip model_group in
  if negb (bp_enabled c) || Str.is_empty group then (c, Ret None)
  else
    let delay := clamp_delay c delay_seconds in
    let d := mkDeferral group (normalize_reason reason) (secs now + delay) in
    let key := key_for_model_group group in
    let write : op unit :=
      match bp_redis c with
      | None => mret tt
      | Some _ =>
        try_except
          (_ ← bp_call (SETEX key (delay + 5) (dumps (df_reason d) (df_until_epoch_seconds d) (secs now)));
           mret tt)
          (fun _ => mret tt : op unit)
      end in
    (_ ← write; _ ← store_local key d; mret (Some d)) c.

(** [_decode_deferral]: text that is not JSON counts as no deferral; JSON that
    is not an object has no [get], and a number too large for [int] overflows. *)
Definition decode_deferral (raw : reply) (model_group : string) : res exn (option Deferral) :=
  match raw with
  | RNil => Ret None
  | RStr text =>
    match loads text with
    | None => Ret None
    | Some (PyDict d) =>
      match py_int (py_or (vget d "until") (PyInt 0)) with
      | Ret until => Ret (Some (mkDeferral model_group (py_str (py_or (vget d "reason") (PyStr "unknown"))) until))
      | Raise OverflowError => Raise (exn_of_pyexc OverflowError)
      | Raise _ => Ret None
      end
    | Some _ => Raise (other_error "object has no attribute 'get'")
    end
  | _ => Raise (other_error "unexpected reply")
  end.

Definition get_model_group_deferral (now : Z) (model_group : string) : op (option Deferral) := fun c =>
  let group := Str.strip model_group in
  if negb (bp_enabled c) || Str.is_empty group then (c, Ret None)
  else
    let key := key_for_model_group group in
    match bp_redis c with
    | None => get_local now key c
    | Some _ =>
      match bp_call (GET key) c with
      | (c', Raise _) => get_local now key c'
      | (c', Ret raw) =>
        match decode_deferral raw group with
        | Raise e => (c', Raise e)
        | Ret (Some d) => if 0 <? remaining_seconds now d then (c', Ret (Some d)) else get_local now key c'
        | Ret None => get_local now key c'
        end
      end
    end.

Definition is_model_group_deferred (now : Z) (model_group : string) : op bool :=
  d ← get_model_group_deferral now model_group;
  mret (match (d : option Deferral) with Some _ => true | None => false end).

(** ** The worker's side *)

(** [_get_model_group_deferral]: a failing read counts as no deferral. *)
Definition worker_get_deferral (now : Z) (model_group : string) : op (option Deferral) := fun c =>
  if negb (bp_enabled c) then (c, Ret None)
  else try_except (get_model_group_deferral now model_group) (fun _ => mret None : op (option Deferral)) c.

Definition raise_if_model_group_deferred (now : Z) (model_group : string) : op unit :=
  d ← worker_get_deferral now model_group;
  match (d : option Deferral) with
  | None => mret tt
  | Some d => raise (model_group_deferred model_group (df_reason d) (Z.max 1 (remaining_seconds now d)))
  end.

(** [_maybe_defer_model_group_for_retry], for the group the item resolves to. *)
Definition maybe_defer_model_group_for_retry (now : Z) (model_group : option string) (exc : exn)
    (d : decision) (retry_delay_seconds : Z) : op unit := fun c =>
  if negb (bool_decide (cat d = C_NO_HEALTHY_DEPLOYMENTS)) then (c, Ret tt)
  else match exc, model_group with
       | EModelGroupDeferred _ _, _ | _, None => (c, Ret tt)
       | _, Some group =>
         if Str.is_empty group || negb (bp_enabled c) then (c, Ret tt)
         else (_ ← try_except (defer_model_group now group retry_delay_seconds "no_healthy_deployments")
                     (fun _ => mret None : op (option Deferral)); mret tt) c
       end.

(** ** Lemmas *)

(** What a call of the coordinator leaves of everything but the deferrals. *)
Definition same_limits (c c' : coordinator S) : Prop :=
  bp_enabled c' = bp_enabled c /\ bp_min_delay_seconds c' = bp_min_delay_seconds c /\
  bp_max_delay_seconds c' = bp_max_delay_seconds c /\ (bp_redis c = None <-> bp_redis c' = None).

Lemma bp_call_keeps cmd c :
  same_limits c (bp_call cmd c).1 /\ bp_local_deferrals (bp_call cmd c).1 = bp_local_deferrals c.
Proof.
  unfold bp_call, same_limits. destruct (bp_redis c) as [r|] eqn:E; [|simpl; naive_solver].
  destruct (outages r) as [|[] o]; [|simpl; naive_solver|]; destruct (redis_exec _ _); simpl; naive_solver.
Qed.

Lemma defer_stores now group delay reason c :
  bp_enabled c = true -> Str.is_empty (Str.strip group) = false ->
  let d := mkDeferral (Str.strip group) (normalize_reason reason) (secs now + clamp_delay c delay) in
  let '(c', r) := defer_model_group now group delay reason c in
  r = Ret (Some d) /\ same_limits c c' /\
  bp_local_deferrals c' = <[key_for_model_group (Str.strip group) := d]> (bp_local_deferrals c).
Proof.
  intros He Hg d. unfold defer_model_group. rewrite He, Hg. cbn [negb orb]. cbv zeta. fold d.
  destruct (bp_redis c) as [r|] eqn:Er.
  - unfold try_except, mbind, st_bind.
    set (cmd := SETEX _ _ _). destruct (bp_call_keeps cmd c) as [Hs Hl].
    destruct (bp_call cmd c) as [c1 [rep|e]]; cbn in *; rewrite Hl; (split_and!; [done|exact Hs|done]).
  - cbn. split_and!; try done.
Qed.

(** [GET] answers nothing or a text, and the texts under a group's key can be
    decoded. *)
Definition readable (group : string) : Prop :=
  (forall s key, match (redis_exec s (GET key)).2 with RNil | RStr _ => True | _ => False end) /\
  forall text e, decode_deferral (RStr text) group <> Raise e.

(** A live local entry is found, whatever Redis answers. *)
Lemma get_finds now group d c :
  bp_enabled c = true -> Str.is_empty (Str.strip group) = false ->
  bp_local_deferrals c !! key_for_model_group (Str.strip group) = Some d -> 0 < remaining_seconds now d ->
  readable (Str.strip group) ->
  let '(c', r) := get_model_group_deferral now group c in
  bp_local_deferrals c' = bp_local_deferrals c /\ same_limits c c' /\
  exists d', r = Ret (Some d') /\ 0 < remaining_seconds now d' /\ (bp_redis c = None -> d' = d).
Proof.
  intros He Hg Hd Hr [Hget Hdec]. unfold get_model_group_deferral. rewrite He, Hg. cbn [negb orb].
  set (key := key_for_model_group (Str.strip group)) in *.
  assert (Hlocal : forall c1, bp_local_deferrals c1 = bp_local_deferrals c ->
    get_local now key c1 = (c1, Ret (Some d))).
  { intros c1 H1. unfold get_local. rewrite H1, Hd. by rewrite (proj2 (Z.leb_gt _ _) Hr). }
  destruct (bp_redis c) as [r|] eqn:Er.
  - destruct (bp_call_keeps (GET key) c) as [Hs Hl].
    destruct (bp_call (GET key) c) as [c1 [raw|e]] eqn:Ecall; simpl in Hs, Hl.
    + assert (Hraw : forall e, decode_deferral raw (Str.strip group) <> Raise e).
      { assert (match raw with RNil | RStr _ => True | _ => False end) as Hshape; [|by destruct raw].
        specialize (Hget (server r) key). revert Ecall. unfold bp_call. rewrite Er.
        destruct (redis_exec (server r) (GET key)) as [s' rep]. simpl in Hget.
        destruct (outages r) as [|[] o]; by intros [= _ <-]. }
      destruct (decode_deferral raw (Str.strip group)) as [[d1|]|e] eqn:Ed; [| |by destruct (Hraw e)].
      * destruct (Z.ltb_spec 0 (remaining_seconds now d1)); [|rewrite Hlocal by done];
          (split_and!; [exact Hl|exact Hs|eexists; split_and!; [reflexivity|assumption|done]]).
      * rewrite Hlocal by done. split_and!; [exact Hl|exact Hs|eexists; split_and!; [reflexivity|assumption|done]].
    + rewrite Hlocal by done. split_and!; [exact Hl|exact Hs|eexists; split_and!; [reflexivity|assumption|done]].
  - rewrite Hlocal by done. split_and!; [done|unfold same_limits; tauto|].
    eexists. split_and!; [reflexivity|assumption|done].
Qed.
End backpressure.

(** A deferred model group stays deferred.  After an item failed because
    its group has no healthy deployment, the worker keeps every item of that
    group back until the clamped delay is over: until then, whether Redis
    works or not, the next attempt raises [BatchModelGroupDeferred], which the
    retry policy makes a retry after at least one second and, without Redis,
    after exactly the remaining time, never above the maximal delay.  Text in
    Redis that is JSON but no deferral is excluded ([readable]). *)
Theorem deferred_group_stays_deferred {S} `{RedisExec S} `{PyRepr} (digest : string -> string)
    (dumps : string -> Z -> Z -> string) (loads : string -> option pyval) (parsedate : string -> option Z)
    (c : coordinator S) (group : string) (exc : exn) (delay now0 now : Z) :
  bp_enabled c = true -> Str.is_empty (Str.strip group) = false ->
  cat (classify_batch_retry parsedate now0 exc) = C_NO_HEALTHY_DEPLOYMENTS ->
  (forall m n, exc <> EModelGroupDeferred m n) ->
  readable loads (Str.strip group) ->
  now0 <= now -> secs now < secs now0 + clamp_delay c delay ->
  let '(c1, r1) := maybe_defer_model_group_for_retry digest dumps now0 (Some group) exc
                     (classify_batch_retry parsedate now0 exc) delay c in
  r1 = Ret tt /\
  exists e after, (raise_if_model_group_deferred digest loads now group c1).2 = Raise e /\
    classify_batch_retry parsedate now e = retry_as C_NO_HEALTHY_DEPLOYMENTS (Some after) /\ 1 <= after /\
    (bp_redis c = None ->
       after = secs now0 + clamp_delay c delay - secs now /\ after <= bp_max_delay_seconds c).
Proof.
  intros He Hg Hcat Hexc Hdec Hnow Hlt. unfold maybe_defer_model_group_for_retry.
  rewrite Hcat, bool_decide_eq_true_2 by done. cbn [negb].
  assert (Hg' : Str.is_empty group = false) by (by destruct group).
  assert (forall x : coordinator S * res exn unit,
    match exc with EModelGroupDeferred _ _ => (c, Ret tt) | _ => x end = x) as ->
    by (intros x; destruct exc as [| | | |m n| |]; try done; by destruct (Hexc m n)).
  rewrite Hg', He. cbn [negb orb].
  pose proof (defer_stores digest dumps now0 group delay "no_healthy_deployments" c He Hg) as Hst.
  unfold try_except, mbind, st_bind. destruct (defer_model_group _ _ _ _ _ _ c) as [c1 r1].
  destruct Hst as (-> & (He1 & _ & _ & Hr1) & Hloc). cbn. split; [done|].
  set (d := mkDeferral _ _ _) in Hloc. pose proof (get_finds digest dumps loads now group d c1) as Hfind.
  rewrite He1, He in Hfind. specialize (Hfind eq_refl Hg). rewrite Hloc, lookup_insert_eq in Hfind.
  assert (Hrem : remaining_seconds now d = secs now0 + clamp_delay c delay - secs now)
    by (unfold remaining_seconds; simpl; lia).
  specialize (Hfind eq_refl ltac:(lia) Hdec).
  unfold raise_if_model_group_deferred, worker_get_deferral, try_except, mbind, st_bind. rewrite He1, He.
  cbn [negb]. destruct (get_model_group_deferral _ _ _ _ c1) as [c2 r2].
  destruct Hfind as (_ & _ & d' & -> & Hpos & Heq). simpl.
  eexists _, _. split; [reflexivity|]. split; [reflexivity|]. split; [lia|].
  intros Hnone. rewrite (Heq (proj1 Hr1 Hnone)), Hrem. split; [lia|]. unfold clamp_delay in *.
  assert (secs now0 <= secs now) by (apply Z.div_le_mono; [done|lia]). lia.
Qed.

#[local] Existing Instances no_server no_repr.

Lemma deferred_group_stays_deferred_witness :
  let c := init_coordinator (None : option (connection unit)) true 5 60 in
  let exc := EProxy (mk_proxy ServiceUnavailableError None None (Some NO_HEALTHY_DEPLOYMENTS_CODE) None None) in
  let '(c1, _) := maybe_defer_model_group_for_retry (fun s => s) (fun _ _ _ => ""%string) 0 (Some "gpt"%string) exc
                     (classify_batch_retry (fun _ => None) 0 exc) 30 c in
  exists e, (raise_if_model_group_deferred (fun s => s) (fun _ => None) 10000000 "gpt" c1).2 = Raise e /\
    classify_batch_retry (fun _ => None) 10000000 e = retry_as C_NO_HEALTHY_DEPLOYMENTS (Some 20).
Proof.
  intros c exc.
  pose proof (deferred_group_stays_deferred (fun s => s) (fun _ _ _ => ""%string) (fun _ => None) (fun _ => None)
    c "gpt" exc 30 0 10000000) as Hthm.
  destruct (maybe_defer_model_group_for_retry _ _ _ _ _ _ _ c) as [c1 r1].
  destruct Hthm as (_ & e & after & Hr & Hc & _ & Hnone); [reflexivity|reflexivity|
    reflexivity|discriminate|split; [done|discriminate]|lia|vm_compute; reflexivity|].
  exists e. split; [exact Hr|]. rewrite Hc. by rewrite (proj1 (Hnone eq_refl)).
Defined.
