(* ===== verification/BatchModels.v ===== *)
(** * Batch statuses and records

    [src/batch/models.py]: the status enumerations of jobs, items and
    completion-outbox rows with the strings they are stored as, their
    normalisation, the completion window, and the encoding of the reason an
    operator gave for failing a batch, which shares a text column with the
    errors of providers. *)

From S2P Require Import Prelude PyVal Errors.

(** [raise ValueError(message)] and other exceptions without attributes. *)
Definition plain_exn (message : string) : exn :=
  EOther {| oe_message := message; oe_status_code := None; oe_response_status := None;
            oe_error_type := None; oe_affects := None |}.

(** ** Job status *)
Module BatchJobStatus.

Inductive job_status : Type :=
  QUEUED | IN_PROGRESS | FINALIZING | COMPLETED | FAILED | CANCELLED | EXPIRED.

#[global] Instance job_status_eq_dec : EqDecision job_status.
Proof. solve_decision. Defined.

Definition job_status_value (s : job_status) : string :=
  match s with
  | QUEUED => "queued" | IN_PROGRESS => "in_progress" | FINALIZING => "finalizing"
  | COMPLETED => "completed" | FAILED => "failed" | CANCELLED => "cancelled" | EXPIRED => "expired"
  end.

Definition BATCH_JOB_STATUSES : list job_status :=
  [QUEUED; IN_PROGRESS; FINALIZING; COMPLETED; FAILED; CANCELLED; EXPIRED].

(** [BatchJobStatus(text)]: the member with that value. *)
Definition job_status_of (text : string) : option job_status :=
  List.find (fun s => String.eqb (job_status_value s) text) BATCH_JOB_STATUSES.

(** The argument is a member of the enumeration or any other text. *)
Definition normalize_batch_job_status (status : job_status + string) : res exn job_status :=
  match status with
  | inl s => Ret s
  | inr text =>
      match job_status_of (Str.strip text) with
      | Some s => Ret s
      | None => Raise (plain_exn ("batch job status must be one of: "
                                  ++ Str.join ", " (map job_status_value BATCH_JOB_STATUSES)))
      end
  end.

(** [status IN ('completed', 'failed', 'cancelled', 'expired')] *)
Definition terminal_job (s : job_status) : bool :=
  match s with COMPLETED | FAILED | CANCELLED | EXPIRED => true | _ => false end.

End BatchJobStatus.

(** ** Item status *)
Module BatchItemStatus.

Inductive item_status : Type := PENDING | IN_PROGRESS | COMPLETED | FAILED | CANCELLED.

#[global] Instance item_status_eq_dec : EqDecision item_status.
Proof. solve_decision. Defined.

Definition item_status_value (s : item_status) : string :=
  match s with
  | PENDING => "pending" | IN_PROGRESS => "in_progress" | COMPLETED => "completed"
  | FAILED => "failed" | CANCELLED => "cancelled"
  end.

(** No statement moves an item out of these. *)
Definition terminal_item (s : item_status) : bool :=
  match s with PENDING | IN_PROGRESS => false | _ => true end.

End BatchItemStatus.

(** ** Completion-outbox status *)
Module BatchCompletionOutboxStatus.

Inductive outbox_status : Type := QUEUED | PROCESSING | RETRYING | SENT | FAILED.

#[global] Instance outbox_status_eq_dec : EqDecision outbox_status.
Proof. solve_decision. Defined.

Definition outbox_status_value (s : outbox_status) : string :=
  match s with
  | QUEUED => "queued" | PROCESSING => "processing" | RETRYING => "retrying"
  | SENT => "sent" | FAILED => "failed"
  end.

Definition terminal_outbox (s : outbox_status) : bool :=
  match s with SENT | FAILED => true | _ => false end.

End BatchCompletionOutboxStatus.

(** ** Completion window *)
Definition OPENAI_BATCH_COMPLETION_WINDOW : string := "24h".

Definition normalize_batch_completion_window (completion_window : pyval) : res exn string :=
  let bad := Raise (plain_exn "completion_window must be '24h'") in
  match completion_window with
  | PyNone => Ret OPENAI_BATCH_COMPLETION_WINDOW
  | PyStr s =>
      let normalized := Str.strip s in
      if Str.is_empty normalized then Ret OPENAI_BATCH_COMPLETION_WINDOW
      else if String.eqb normalized OPENAI_BATCH_COMPLETION_WINDOW then Ret normalized
      else bad
  | _ => bad
  end.

(** ** The reason an operator failed a batch *)
Definition OPERATOR_FAILED_PREFIX : string := "__operator_failed__:".

(** [str(reason or "").strip() or "Marked failed by operator"] *)
Definition operator_reason (reason : string) : string :=
  let normalized := Str.strip reason in
  if Str.is_empty normalized then "Marked failed by operator" else normalized.

Definition encode_operator_failed_reason (reason : string) : string :=
  (OPERATOR_FAILED_PREFIX ++ operator_reason reason)%string.

Definition is_operator_failed_reason (value : option string) : bool :=
  match value with
  | Some v => Str.startswith v OPERATOR_FAILED_PREFIX
  | None => false
  end.

Definition decode_operator_failed_reason (value : option string) : option string :=
  if is_operator_failed_reason value then
    match value with
    | Some v =>
        let decoded := Str.strip (Str.drop (String.length OPERATOR_FAILED_PREFIX) v) in
        if Str.is_empty decoded then None else Some decoded
    | None => None
    end
  else value.

(** ** Laws *)

Lemma job_status_of_value s : BatchJobStatus.job_status_of (BatchJobStatus.job_status_value s) = Some s.
Proof. by destruct s. Qed.

Lemma job_status_of_Some text s :
  BatchJobStatus.job_status_of text = Some s -> BatchJobStatus.job_status_value s = text.
Proof. intros [_ H]%find_some. by apply String.eqb_eq. Qed.

Lemma operator_reason_stripped reason :
  Str.strip (operator_reason reason) = operator_reason reason /\ operator_reason reason <> "".
Proof.
  unfold operator_reason, Str.is_empty. destruct (String.eqb_spec (Str.strip reason) "") as [E|E].
  - by split.
  - by rewrite strip_idemp.
Qed.

Lemma operator_reason_idemp reason : operator_reason (operator_reason reason) = operator_reason reason.
Proof.
  destruct (operator_reason_stripped reason) as [Hs Hn]. unfold operator_reason at 1.
  rewrite Hs. unfold Str.is_empty. by destruct (String.eqb_spec (operator_reason reason) "").
Qed.

Lemma encoded_is_marked reason : is_operator_failed_reason (Some (encode_operator_failed_reason reason)) = true.
Proof. apply startswith_app. Qed.

Lemma decode_encoded reason :
  decode_operator_failed_reason (Some (encode_operator_failed_reason (operator_reason reason)))
  = Some (operator_reason reason).
Proof.
  unfold decode_operator_failed_reason, encode_operator_failed_reason, is_operator_failed_reason.
  rewrite startswith_app, drop_app_length, operator_reason_idemp.
  destruct (operator_reason_stripped reason) as [-> Hn]. unfold Str.is_empty.
  by destruct (String.eqb_spec (operator_reason reason) "").
Qed.

(** The reason an operator gives survives the shared provider_error column:
    the encoded text is recognised, decodes to the stripped reason (or the
    default text when it is blank), and encoding what was decoded gives the same
    column again; any text without the marker is returned unchanged. *)
Theorem operator_reason_roundtrip reason :
  let column := encode_operator_failed_reason reason in
  is_operator_failed_reason (Some column) = true /\
  decode_operator_failed_reason (Some column) = Some (operator_reason reason) /\
  (forall decoded, decode_operator_failed_reason (Some column) = Some decoded ->
                   encode_operator_failed_reason decoded = column) /\
  (forall text, is_operator_failed_reason text = false -> decode_operator_failed_reason text = text).
Proof.
  destruct (operator_reason_stripped reason) as [Hs Hn].
  assert (Hd : decode_operator_failed_reason (Some (encode_operator_failed_reason reason))
               = Some (operator_reason reason)).
  { unfold decode_operator_failed_reason, encode_operator_failed_reason, is_operator_failed_reason.
    rewrite startswith_app, drop_app_length, Hs. unfold Str.is_empty.
    by destruct (String.eqb_spec (operator_reason reason) ""). }
  split_and!; [apply startswith_app|exact Hd| |].
  - rewrite Hd. intros d [= <-]. unfold encode_operator_failed_reason. by rewrite operator_reason_idemp.
  - intros text H. unfold decode_operator_failed_reason. by rewrite H.
Qed.
