(* ===== verification/BatchDb.v ===== *)
(** * The batch tables

    The batch code keeps its state in PostgreSQL tables and changes it with SQL
    statements embedded in src/batch/repositories/.  A table is the list of its
    rows; one statement is one atomic step on it, as under READ COMMITTED when
    the statement locks the rows it writes; [FOR UPDATE SKIP LOCKED] reads a
    predicate that tells which rows other transactions hold.  [NULL] is [None],
    and a comparison with it is not true.  Rows that an [ORDER BY] leaves tied
    keep the order of the list.  [NOW()] is an argument, in microseconds.  The
    columns of each table are a record with one setter per column that some
    statement assigns; [db] is the whole state, with the spend log and the
    cumulative spend that completions are billed to. *)

From Stdlib Require Import Sorting.Sorted.
From S2P Require Import Prelude PyVal Errors BatchModels.

(** ** Statements over a list of rows *)

Section statements.
Context {R : Type}.
Implicit Types (t : list R).

(** [UPDATE t SET f WHERE p] *)
Definition update_where (p : R -> bool) (f : R -> R) t : list R :=
  map (fun r => if p r then f r else r) t.

(** [SELECT ... FROM t WHERE p] *)
Definition select_where (p : R -> bool) t : list R := List.filter p t.

(** [ORDER BY], ascending for [le]. *)
Fixpoint insert_by (le : R -> R -> bool) (x : R) t : list R :=
  match t with
  | [] => [x]
  | y :: t' => if le x y then x :: t else y :: insert_by le x t'
  end.
Definition order_by (le : R -> R -> bool) t : list R := foldr (insert_by le) [] t.

(** [LIMIT n] *)
Definition limit (n : Z) t : list R := take (Z.to_nat n) t.

(** The row with a given primary key. *)
Definition row_at {K} `{EqDecision K} (key : R -> K) (k : K) t : option R :=
  List.find (fun r => bool_decide (key r = k)) t.
End statements.

(** [NOW() + (n || ' seconds')::interval] *)
Definition after_seconds (now n : Z) : Z := now + n * usec.

(** [c IS NULL OR p(c)] and [p(c)], which is not true of [NULL]. *)
Definition null_or {A} (p : A -> bool) (c : option A) : bool :=
  match c with Some x => p x | None => true end.
Definition if_set {A} (p : A -> bool) (c : option A) : bool :=
  match c with Some x => p x | None => false end.
Definition sql_eq (c : option string) (s : string) : bool := if_set (String.eqb s) c.
(** [COALESCE(a, b)] *)
Definition coalesce {A} (a b : option A) : option A := match a with Some _ => a | None => b end.

(** ** Laws of the statements *)

Section statement_laws.
Context {R : Type}.
Implicit Types (t : list R) (p : R -> bool) (f : R -> R).

Lemma elem_update p f t r :
  r ∈ update_where p f t <-> exists r0, r0 ∈ t /\ r = (if p r0 then f r0 else r0).
Proof. unfold update_where. rewrite list_elem_of_fmap. naive_solver. Qed.

Lemma Forall_update (P : R -> Prop) p f t :
  (forall r, r ∈ t -> P r -> p r = true -> P (f r)) -> Forall P t -> Forall P (update_where p f t).
Proof.
  rewrite !Forall_forall. intros Hf Ht r [r0 [Hr0 ->]]%elem_update.
  destruct (p r0) eqn:E; auto.
Qed.

Lemma keys_update {K} (key : R -> K) p f t :
  (forall r, key (f r) = key r) -> map key (update_where p f t) = map key t.
Proof.
  intros Hk. unfold update_where. rewrite map_map. apply map_ext. intros r. by destruct (p r).
Qed.

Lemma elem_select p t r : r ∈ select_where p t <-> r ∈ t /\ p r = true.
Proof. unfold select_where. rewrite !list_elem_of_In. apply filter_In. Qed.

Lemma update_none p f t : (forall r, r ∈ t -> p r = false) -> update_where p f t = t.
Proof.
  unfold update_where. induction t as [|r t IH]; intros H; simpl; [done|].
  rewrite (H r) by left. f_equal. apply IH. intros x Hx. apply H. by right.
Qed.

Lemma insert_by_perm le x t : insert_by le x t ≡ₚ x :: t.
Proof.
  induction t as [|y t IH]; simpl; [done|]. destruct (le x y); [done|]. rewrite IH. constructor.
Qed.

Lemma order_by_perm le t : order_by le t ≡ₚ t.
Proof. induction t as [|x t IH]; simpl; [done|]. by rewrite insert_by_perm, IH. Qed.

Lemma order_by_sorted (le : R -> R -> bool) t :
  (forall x y, le x y = false -> le y x = true) ->
  (forall x y z, le x y = true -> le y z = true -> le x z = true) ->
  StronglySorted (fun x y => le x y = true) (order_by le t).
Proof.
  intros Htot Htr. induction t as [|x t IH]; simpl; [constructor|].
  revert IH. generalize (order_by le t). induction 1 as [|y l Hl IHl Hy]; simpl.
  - repeat constructor.
  - destruct (le x y) eqn:E.
    + constructor; [by constructor|]. constructor; [done|].
      eapply Forall_impl; [exact Hy|]. simpl. eauto.
    + constructor; [done|]. rewrite insert_by_perm. constructor; auto.
Qed.

Context {K} `{EqDecision K} (key : R -> K).

Lemma row_at_key k t r : row_at key k t = Some r -> r ∈ t /\ key r = k.
Proof.
  intros [Hin Hk]%find_some. apply list_elem_of_In in Hin. by apply bool_decide_eq_true in Hk.
Qed.

Lemma row_at_elem t r : NoDup (map key t) -> r ∈ t -> row_at key (key r) t = Some r.
Proof.
  intros Hnd Hr. unfold row_at. destruct (List.find _ t) as [r'|] eqn:E.
  - pose proof (row_at_key _ _ _ E) as [Hr' Hk]. f_equal. by eapply NoDup_map_inj.
  - eapply find_none_forall in E; [|exact Hr]. by rewrite bool_decide_true in E.
Qed.

Lemma row_at_update p f k t :
  (forall r, key (f r) = key r) ->
  row_at key k (update_where p f t) = (fun r => if p r then f r else r) <$> row_at key k t.
Proof.
  intros Hk. unfold row_at, update_where. induction t as [|r t IH]; simpl; [done|].
  replace (key (if p r then f r else r)) with (key r) by (by destruct (p r)).
  by destruct (bool_decide (key r = k)).
Qed.

Lemma row_at_app k t1 t2 :
  row_at key k (t1 ++ t2) = match row_at key k t1 with Some r => Some r | None => row_at key k t2 end.
Proof. unfold row_at. induction t1 as [|r t1 IH]; simpl; [done|]. by destruct (bool_decide _). Qed.

Lemma row_at_None k t : row_at key k t = None <-> k ∉ map key t.
Proof.
  unfold row_at. induction t as [|r t IH]; simpl; [split; [by intros _ ?%elem_of_nil|done]|].
  rewrite not_elem_of_cons. case_bool_decide as E; [naive_solver|]. rewrite IH. naive_solver.
Qed.
End statement_laws.

(** ** Rows *)

(** The JSON object that [_build_completion_outbox_payload] stores and the
    outbox worker reads back. *)
Record CompletionPayload : Type := mkPayload {
  cp_request_id : string;
  cp_batch_id : string;
  cp_item_id : string;
  cp_api_key : option string;
  cp_user_id : option string;
  cp_team_id : option string;
  cp_organization_id : option string;
  cp_model : string;
  cp_call_type : string;
  cp_usage : pyval;
  cp_billed_cost : Q;
  cp_provider_cost : Q;
  cp_api_provider : string;
  cp_api_base : option string;
  cp_deployment_model : option string;
  cp_execution_mode : string;
  cp_completed_at : Z
}.

(** A row of deltallm_batch_item. *)
Module Item.

Record batch_item : Type := mkItem {
  item_id : string;
  batch_id : string;
  line_number : Z;
  custom_id : string;
  status : BatchItemStatus.item_status;
  request_body : pyval;
  response_body : option pyval;
  error_body : option pyval;
  usage : option pyval;
  provider_cost : Q;
  billed_cost : Q;
  attempts : Z;
  claim_epoch : Z;
  last_error : option string;
  locked_by : option string;
  lease_expires_at : option Z;
  scheduling_model : option string;
  scheduling_model_group : option string;
  estimated_work_units : Z;
  not_before_at : option Z;
  last_scheduled_at : option Z;
  created_at : Z;
  started_at : option Z;
  completed_at : option Z
}.

Definition set_status (v : BatchItemStatus.item_status) (r : batch_item) : batch_item :=
  mkItem (item_id r) (batch_id r) (line_number r) (custom_id r) v (request_body r) (response_body r)
    (error_body r) (usage r) (provider_cost r) (billed_cost r) (attempts r) (claim_epoch r) (last_error r)
    (locked_by r) (lease_expires_at r) (scheduling_model r) (scheduling_model_group r)
    (estimated_work_units r) (not_before_at r) (last_scheduled_at r) (created_at r) (started_at r)
    (completed_at r).

Definition set_response_body (v : option pyval) (r : batch_item) : batch_item :=
  mkItem (item_id r) (batch_id r) (line_number r) (custom_id r) (status r) (request_body r) v (error_body r)
    (usage r) (provider_cost r) (billed_cost r) (attempts r) (claim_epoch r) (last_error r) (locked_by r)
    (lease_expires_at r) (scheduling_model r) (scheduling_model_group r) (estimated_work_units r)
    (not_before_at r) (last_scheduled_at r) (created_at r) (started_at r) (completed_at r).

Definition set_error_body (v : option pyval) (r : batch_item) : batch_item :=
  mkItem (item_id r) (batch_id r) (line_number r) (custom_id r) (status r) (request_body r) (response_body r)
    v (usage r) (provider_cost r) (billed_cost r) (attempts r) (claim_epoch r) (last_error r) (locked_by r)
    (lease_expires_at r) (scheduling_model r) (scheduling_model_group r) (estimated_work_units r)
    (not_before_at r) (last_scheduled_at r) (created_at r) (started_at r) (completed_at r).

Definition set_usage (v : option pyval) (r : batch_item) : batch_item :=
  mkItem (item_id r) (batch_id r) (line_number r) (custom_id r) (status r) (request_body r) (response_body r)
    (error_body r) v (provider_cost r) (billed_cost r) (attempts r) (claim_epoch r) (last_error r)
    (locked_by r) (lease_expires_at r) (scheduling_model r) (scheduling_model_group r)
    (estimated_work_units r) (not_before_at r) (last_scheduled_at r) (created_at r) (started_at r)
    (completed_at r).

Definition set_provider_cost (v : Q) (r : batch_item) : batch_item :=
  mkItem (item_id r) (batch_id r) (line_number r) (custom_id r) (status r) (request_body r) (response_body r)
    (error_body r) (usage r) v (billed_cost r) (attempts r) (claim_epoch r) (last_error r) (locked_by r)
    (lease_expires_at r) (scheduling_model r) (scheduling_model_group r) (estimated_work_units r)
    (not_before_at r) (last_scheduled_at r) (created_at r) (started_at r) (completed_at r).

Definition set_billed_cost (v : Q) (r : batch_item) : batch_item :=
  mkItem (item_id r) (batch_id r) (line_number r) (custom_id r) (status r) (request_body r) (response_body r)
    (error_body r) (usage r) (provider_cost r) v (attempts r) (claim_epoch r) (last_error r) (locked_by r)
    (lease_expires_at r) (scheduling_model r) (scheduling_model_group r) (estimated_work_units r)
    (not_before_at r) (last_scheduled_at r) (created_at r) (started_at r) (completed_at r).

Definition set_attempts (v : Z) (r : batch_item) : batch_item :=
  mkItem (item_id r) (batch_id r) (line_number r) (custom_id r) (status r) (request_body r) (response_body r)
    (error_body r) (usage r) (provider_cost r) (billed_cost r) v (claim_epoch r) (last_error r)
    (locked_by r) (lease_expires_at r) (scheduling_model r) (scheduling_model_group r)
    (estimated_work_units r) (not_before_at r) (last_scheduled_at r) (created_at r) (started_at r)
    (completed_at r).

Definition set_claim_epoch (v : Z) (r : batch_item) : batch_item :=
  mkItem (item_id r) (batch_id r) (line_number r) (custom_id r) (status r) (request_body r) (response_body r)
    (error_body r) (usage r) (provider_cost r) (billed_cost r) (attempts r) v (last_error r) (locked_by r)
    (lease_expires_at r) (scheduling_model r) (scheduling_model_group r) (estimated_work_units r)
    (not_before_at r) (last_scheduled_at r) (created_at r) (started_at r) (completed_at r).

Definition set_last_error (v : option string) (r : batch_item) : batch_item :=
  mkItem (item_id r) (batch_id r) (line_number r) (custom_id r) (status r) (request_body r) (response_body r)
    (error_body r) (usage r) (provider_cost r) (billed_cost r) (attempts r) (claim_epoch r) v (locked_by r)
    (lease_expires_at r) (scheduling_model r) (scheduling_model_group r) (estimated_work_units r)
    (not_before_at r) (last_scheduled_at r) (created_at r) (started_at r) (completed_at r).

Definition set_locked_by (v : option string) (r : batch_item) : batch_item :=
  mkItem (item_id r) (batch_id r) (line_number r) (custom_id r) (status r) (request_body r) (response_body r)
    (error_body r) (usage r) (provider_cost r) (billed_cost r) (attempts r) (claim_epoch r) (last_error r) v
    (lease_expires_at r) (scheduling_model r) (scheduling_model_group r) (estimated_work_units r)
    (not_before_at r) (last_scheduled_at r) (created_at r) (started_at r) (completed_at r).

Definition set_lease_expires_at (v : option Z) (r : batch_item) : batch_item :=
  mkItem (item_id r) (batch_id r) (line_number r) (custom_id r) (status r) (request_body r) (response_body r)
    (error_body r) (usage r) (provider_cost r) (billed_cost r) (attempts r) (claim_epoch r) (last_error r)
    (locked_by r) v (scheduling_model r) (scheduling_model_group r) (estimated_work_units r)
    (not_before_at r) (last_scheduled_at r) (created_at r) (started_at r) (completed_at r).

Definition set_not_before_at (v : option Z) (r : batch_item) : batch_item :=
  mkItem (item_id r) (batch_id r) (line_number r) (custom_id r) (status r) (request_body r) (response_body r)
    (error_body r) (usage r) (provider_cost r) (billed_cost r) (attempts r) (claim_epoch r) (last_error r)
    (locked_by r) (lease_expires_at r) (scheduling_model r) (scheduling_model_group r)
    (estimated_work_units r) v (last_scheduled_at r) (created_at r) (started_at r) (completed_at r).

Definition set_last_scheduled_at (v : option Z) (r : batch_item) : batch_item :=
  mkItem (item_id r) (batch_id r) (line_number r) (custom_id r) (status r) (request_body r) (response_body r)
    (error_body r) (usage r) (provider_cost r) (billed_cost r) (attempts r) (claim_epoch r) (last_error r)
    (locked_by r) (lease_expires_at r) (scheduling_model r) (scheduling_model_group r)
    (estimated_work_units r) (not_before_at r) v (created_at r) (started_at r) (completed_at r).

Definition set_started_at (v : option Z) (r : batch_item) : batch_item :=
  mkItem (item_id r) (batch_id r) (line_number r) (custom_id r) (status r) (request_body r) (response_body r)
    (error_body r) (usage r) (provider_cost r) (billed_cost r) (attempts r) (claim_epoch r) (last_error r)
    (locked_by r) (lease_expires_at r) (scheduling_model r) (scheduling_model_group r)
    (estimated_work_units r) (not_before_at r) (last_scheduled_at r) (created_at r) v (completed_at r).

Definition set_completed_at (v : option Z) (r : batch_item) : batch_item :=
  mkItem (item_id r) (batch_id r) (line_number r) (custom_id r) (status r) (request_body r) (response_body r)
    (error_body r) (usage r) (provider_cost r) (billed_cost r) (attempts r) (claim_epoch r) (last_error r)
    (locked_by r) (lease_expires_at r) (scheduling_model r) (scheduling_model_group r)
    (estimated_work_units r) (not_before_at r) (last_scheduled_at r) (created_at r) (started_at r) v.

End Item.

(** The columns of deltallm_batch_job that the modelled statements read or write. *)
Module Job.

Record batch_job : Type := mkJob {
  batch_id : string;
  endpoint : string;
  status : BatchJobStatus.job_status;
  model : option string;
  output_file_id : option string;
  error_file_id : option string;
  provider_error : option string;
  total_items : Z;
  in_progress_items : Z;
  completed_items : Z;
  failed_items : Z;
  cancelled_items : Z;
  locked_by : option string;
  lease_expires_at : option Z;
  cancel_requested_at : option Z;
  status_last_updated_at : Z;
  scheduler_version : option string;
  scheduling_model : option string;
  scheduling_model_group : option string;
  scheduling_endpoint : option string;
  tenant_scope_type : option string;
  tenant_scope_id : option string;
  service_tier : string;
  estimated_work_units : Z;
  remaining_work_units : Z;
  size_class : string;
  queue_entered_at : option Z;
  first_claimed_at : option Z;
  last_claimed_at : option Z;
  last_scheduled_at : option Z;
  created_by_api_key : option string;
  created_by_user_id : option string;
  created_by_team_id : option string;
  created_by_organization_id : option string;
  created_at : Z;
  started_at : option Z;
  completed_at : option Z;
  expires_at : option Z
}.

Definition set_status (v : BatchJobStatus.job_status) (r : batch_job) : batch_job :=
  mkJob (batch_id r) (endpoint r) v (model r) (output_file_id r) (error_file_id r) (provider_error r)
    (total_items r) (in_progress_items r) (completed_items r) (failed_items r) (cancelled_items r)
    (locked_by r) (lease_expires_at r) (cancel_requested_at r) (status_last_updated_at r)
    (scheduler_version r) (scheduling_model r) (scheduling_model_group r) (scheduling_endpoint r)
    (tenant_scope_type r) (tenant_scope_id r) (service_tier r) (estimated_work_units r)
    (remaining_work_units r) (size_class r) (queue_entered_at r) (first_claimed_at r) (last_claimed_at r)
    (last_scheduled_at r) (created_by_api_key r) (created_by_user_id r) (created_by_team_id r)
    (created_by_organization_id r) (created_at r) (started_at r) (completed_at r) (expires_at r).

Definition set_output_file_id (v : option string) (r : batch_job) : batch_job :=
  mkJob (batch_id r) (endpoint r) (status r) (model r) v (error_file_id r) (provider_error r)
    (total_items r) (in_progress_items r) (completed_items r) (failed_items r) (cancelled_items r)
    (locked_by r) (lease_expires_at r) (cancel_requested_at r) (status_last_updated_at r)
    (scheduler_version r) (scheduling_model r) (scheduling_model_group r) (scheduling_endpoint r)
    (tenant_scope_type r) (tenant_scope_id r) (service_tier r) (estimated_work_units r)
    (remaining_work_units r) (size_class r) (queue_entered_at r) (first_claimed_at r) (last_claimed_at r)
    (last_scheduled_at r) (created_by_api_key r) (created_by_user_id r) (created_by_team_id r)
    (created_by_organization_id r) (created_at r) (started_at r) (completed_at r) (expires_at r).

Definition set_error_file_id (v : option string) (r : batch_job) : batch_job :=
  mkJob (batch_id r) (endpoint r) (status r) (model r) (output_file_id r) v (provider_error r)
    (total_items r) (in_progress_items r) (completed_items r) (failed_items r) (cancelled_items r)
    (locked_by r) (lease_expires_at r) (cancel_requested_at r) (status_last_updated_at r)
    (scheduler_version r) (scheduling_model r) (scheduling_model_group r) (scheduling_endpoint r)
    (tenant_scope_type r) (tenant_scope_id r) (service_tier r) (estimated_work_units r)
    (remaining_work_units r) (size_class r) (queue_entered_at r) (first_claimed_at r) (last_claimed_at r)
    (last_scheduled_at r) (created_by_api_key r) (created_by_user_id r) (created_by_team_id r)
    (created_by_organization_id r) (created_at r) (started_at r) (completed_at r) (expires_at r).

Definition set_provider_error (v : option string) (r : batch_job) : batch_job :=
  mkJob (batch_id r) (endpoint r) (status r) (model r) (output_file_id r) (error_file_id r) v
    (total_items r) (in_progress_items r) (completed_items r) (failed_items r) (cancelled_items r)
    (locked_by r) (lease_expires_at r) (cancel_requested_at r) (status_last_updated_at r)
    (scheduler_version r) (scheduling_model r) (scheduling_model_group r) (scheduling_endpoint r)
    (tenant_scope_type r) (tenant_scope_id r) (service_tier r) (estimated_work_units r)
    (remaining_work_units r) (size_class r) (queue_entered_at r) (first_claimed_at r) (last_claimed_at r)
    (last_scheduled_at r) (created_by_api_key r) (created_by_user_id r) (created_by_team_id r)
    (created_by_organization_id r) (created_at r) (started_at r) (completed_at r) (expires_at r).

Definition set_total_items (v : Z) (r : batch_job) : batch_job :=
  mkJob (batch_id r) (endpoint r) (status r) (model r) (output_file_id r) (error_file_id r)
    (provider_error r) v (in_progress_items r) (completed_items r) (failed_items r) (cancelled_items r)
    (locked_by r) (lease_expires_at r) (cancel_requested_at r) (status_last_updated_at r)
    (scheduler_version r) (scheduling_model r) (scheduling_model_group r) (scheduling_endpoint r)
    (tenant_scope_type r) (tenant_scope_id r) (service_tier r) (estimated_work_units r)
    (remaining_work_units r) (size_class r) (queue_entered_at r) (first_claimed_at r) (last_claimed_at r)
    (last_scheduled_at r) (created_by_api_key r) (created_by_user_id r) (created_by_team_id r)
    (created_by_organization_id r) (created_at r) (started_at r) (completed_at r) (expires_at r).

Definition set_in_progress_items (v : Z) (r : batch_job) : batch_job :=
  mkJob (batch_id r) (endpoint r) (status r) (model r) (output_file_id r) (error_file_id r)
    (provider_error r) (total_items r) v (completed_items r) (failed_items r) (cancelled_items r)
    (locked_by r) (lease_expires_at r) (cancel_requested_at r) (status_last_updated_at r)
    (scheduler_version r) (scheduling_model r) (scheduling_model_group r) (scheduling_endpoint r)
    (tenant_scope_type r) (tenant_scope_id r) (service_tier r) (estimated_work_units r)
    (remaining_work_units r) (size_class r) (queue_entered_at r) (first_claimed_at r) (last_claimed_at r)
    (last_scheduled_at r) (created_by_api_key r) (created_by_user_id r) (created_by_team_id r)
    (created_by_organization_id r) (created_at r) (started_at r) (completed_at r) (expires_at r).

Definition set_completed_items (v : Z) (r : batch_job) : batch_job :=
  mkJob (batch_id r) (endpoint r) (status r) (model r) (output_file_id r) (error_file_id r)
    (provider_error r) (total_items r) (in_progress_items r) v (failed_items r) (cancelled_items r)
    (locked_by r) (lease_expires_at r) (cancel_requested_at r) (status_last_updated_at r)
    (scheduler_version r) (scheduling_model r) (scheduling_model_group r) (scheduling_endpoint r)
    (tenant_scope_type r) (tenant_scope_id r) (service_tier r) (estimated_work_units r)
    (remaining_work_units r) (size_class r) (queue_entered_at r) (first_claimed_at r) (last_claimed_at r)
    (last_scheduled_at r) (created_by_api_key r) (created_by_user_id r) (created_by_team_id r)
    (created_by_organization_id r) (created_at r) (started_at r) (completed_at r) (expires_at r).

Definition set_failed_items (v : Z) (r : batch_job) : batch_job :=
  mkJob (batch_id r) (endpoint r) (status r) (model r) (output_file_id r) (error_file_id r)
    (provider_error r) (total_items r) (in_progress_items r) (completed_items r) v (cancelled_items r)
    (locked_by r) (lease_expires_at r) (cancel_requested_at r) (status_last_updated_at r)
    (scheduler_version r) (scheduling_model r) (scheduling_model_group r) (scheduling_endpoint r)
    (tenant_scope_type r) (tenant_scope_id r) (service_tier r) (estimated_work_units r)
    (remaining_work_units r) (size_class r) (queue_entered_at r) (first_claimed_at r) (last_claimed_at r)
    (last_scheduled_at r) (created_by_api_key r) (created_by_user_id r) (created_by_team_id r)
    (created_by_organization_id r) (created_at r) (started_at r) (completed_at r) (expires_at r).

Definition set_cancelled_items (v : Z) (r : batch_job) : batch_job :=
  mkJob (batch_id r) (endpoint r) (status r) (model r) (output_file_id r) (error_file_id r)
    (provider_error r) (total_items r) (in_progress_items r) (completed_items r) (failed_items r) v
    (locked_by r) (lease_expires_at r) (cancel_requested_at r) (status_last_updated_at r)
    (scheduler_version r) (scheduling_model r) (scheduling_model_group r) (scheduling_endpoint r)
    (tenant_scope_type r) (tenant_scope_id r) (service_tier r) (estimated_work_units r)
    (remaining_work_units r) (size_class r) (queue_entered_at r) (first_claimed_at r) (last_claimed_at r)
    (last_scheduled_at r) (created_by_api_key r) (created_by_user_id r) (created_by_team_id r)
    (created_by_organization_id r) (created_at r) (started_at r) (completed_at r) (expires_at r).

Definition set_locked_by (v : option string) (r : batch_job) : batch_job :=
  mkJob (batch_id r) (endpoint r) (status r) (model r) (output_file_id r) (error_file_id r)
    (provider_error r) (total_items r) (in_progress_items r) (completed_items r) (failed_items r)
    (cancelled_items r) v (lease_expires_at r) (cancel_requested_at r) (status_last_updated_at r)
    (scheduler_version r) (scheduling_model r) (scheduling_model_group r) (scheduling_endpoint r)
    (tenant_scope_type r) (tenant_scope_id r) (service_tier r) (estimated_work_units r)
    (remaining_work_units r) (size_class r) (queue_entered_at r) (first_claimed_at r) (last_claimed_at r)
    (last_scheduled_at r) (created_by_api_key r) (created_by_user_id r) (created_by_team_id r)
    (created_by_organization_id r) (created_at r) (started_at r) (completed_at r) (expires_at r).

Definition set_lease_expires_at (v : option Z) (r : batch_job) : batch_job :=
  mkJob (batch_id r) (endpoint r) (status r) (model r) (output_file_id r) (error_file_id r)
    (provider_error r) (total_items r) (in_progress_items r) (completed_items r) (failed_items r)
    (cancelled_items r) (locked_by r) v (cancel_requested_at r) (status_last_updated_at r)
    (scheduler_version r) (scheduling_model r) (scheduling_model_group r) (scheduling_endpoint r)
    (tenant_scope_type r) (tenant_scope_id r) (service_tier r) (estimated_work_units r)
    (remaining_work_units r) (size_class r) (queue_entered_at r) (first_claimed_at r) (last_claimed_at r)
    (last_scheduled_at r) (created_by_api_key r) (created_by_user_id r) (created_by_team_id r)
    (created_by_organization_id r) (created_at r) (started_at r) (completed_at r) (expires_at r).

Definition set_cancel_requested_at (v : option Z) (r : batch_job) : batch_job :=
  mkJob (batch_id r) (endpoint r) (status r) (model r) (output_file_id r) (error_file_id r)
    (provider_error r) (total_items r) (in_progress_items r) (completed_items r) (failed_items r)
    (cancelled_items r) (locked_by r) (lease_expires_at r) v (status_last_updated_at r)
    (scheduler_version r) (scheduling_model r) (scheduling_model_group r) (scheduling_endpoint r)
    (tenant_scope_type r) (tenant_scope_id r) (service_tier r) (estimated_work_units r)
    (remaining_work_units r) (size_class r) (queue_entered_at r) (first_claimed_at r) (last_claimed_at r)
    (last_scheduled_at r) (created_by_api_key r) (created_by_user_id r) (created_by_team_id r)
    (created_by_organization_id r) (created_at r) (started_at r) (completed_at r) (expires_at r).

Definition set_status_last_updated_at (v : Z) (r : batch_job) : batch_job :=
  mkJob (batch_id r) (endpoint r) (status r) (model r) (output_file_id r) (error_file_id r)
    (provider_error r) (total_items r) (in_progress_items r) (completed_items r) (failed_items r)
    (cancelled_items r) (locked_by r) (lease_expires_at r) (cancel_requested_at r) v (scheduler_version r)
    (scheduling_model r) (scheduling_model_group r) (scheduling_endpoint r) (tenant_scope_type r)
    (tenant_scope_id r) (service_tier r) (estimated_work_units r) (remaining_work_units r) (size_class r)
    (queue_entered_at r) (first_claimed_at r) (last_claimed_at r) (last_scheduled_at r)
    (created_by_api_key r) (created_by_user_id r) (created_by_team_id r) (created_by_organization_id r)
    (created_at r) (started_at r) (completed_at r) (expires_at r).

Definition set_scheduler_version (v : option string) (r : batch_job) : batch_job :=
  mkJob (batch_id r) (endpoint r) (status r) (model r) (output_file_id r) (error_file_id r)
    (provider_error r) (total_items r) (in_progress_items r) (completed_items r) (failed_items r)
    (cancelled_items r) (locked_by r) (lease_expires_at r) (cancel_requested_at r)
    (status_last_updated_at r) v (scheduling_model r) (scheduling_model_group r) (scheduling_endpoint r)
    (tenant_scope_type r) (tenant_scope_id r) (service_tier r) (estimated_work_units r)
    (remaining_work_units r) (size_class r) (queue_entered_at r) (first_claimed_at r) (last_claimed_at r)
    (last_scheduled_at r) (created_by_api_key r) (created_by_user_id r) (created_by_team_id r)
    (created_by_organization_id r) (created_at r) (started_at r) (completed_at r) (expires_at r).

Definition set_scheduling_model (v : option string) (r : batch_job) : batch_job :=
  mkJob (batch_id r) (endpoint r) (status r) (model r) (output_file_id r) (error_file_id r)
    (provider_error r) (total_items r) (in_progress_items r) (completed_items r) (failed_items r)
    (cancelled_items r) (locked_by r) (lease_expires_at r) (cancel_requested_at r)
    (status_last_updated_at r) (scheduler_version r) v (scheduling_model_group r) (scheduling_endpoint r)
    (tenant_scope_type r) (tenant_scope_id r) (service_tier r) (estimated_work_units r)
    (remaining_work_units r) (size_class r) (queue_entered_at r) (first_claimed_at r) (last_claimed_at r)
    (last_scheduled_at r) (created_by_api_key r) (created_by_user_id r) (created_by_team_id r)
    (created_by_organization_id r) (created_at r) (started_at r) (completed_at r) (expires_at r).

Definition set_scheduling_model_group (v : option string) (r : batch_job) : batch_job :=
  mkJob (batch_id r) (endpoint r) (status r) (model r) (output_file_id r) (error_file_id r)
    (provider_error r) (total_items r) (in_progress_items r) (completed_items r) (failed_items r)
    (cancelled_items r) (locked_by r) (lease_expires_at r) (cancel_requested_at r)
    (status_last_updated_at r) (scheduler_version r) (scheduling_model r) v (scheduling_endpoint r)
    (tenant_scope_type r) (tenant_scope_id r) (service_tier r) (estimated_work_units r)
    (remaining_work_units r) (size_class r) (queue_entered_at r) (first_claimed_at r) (last_claimed_at r)
    (last_scheduled_at r) (created_by_api_key r) (created_by_user_id r) (created_by_team_id r)
    (created_by_organization_id r) (created_at r) (started_at r) (completed_at r) (expires_at r).

Definition set_scheduling_endpoint (v : option string) (r : batch_job) : batch_job :=
  mkJob (batch_id r) (endpoint r) (status r) (model r) (output_file_id r) (error_file_id r)
    (provider_error r) (total_items r) (in_progress_items r) (completed_items r) (failed_items r)
    (cancelled_items r) (locked_by r) (lease_expires_at r) (cancel_requested_at r)
    (status_last_updated_at r) (scheduler_version r) (scheduling_model r) (scheduling_model_group r) v
    (tenant_scope_type r) (tenant_scope_id r) (service_tier r) (estimated_work_units r)
    (remaining_work_units r) (size_class r) (queue_entered_at r) (first_claimed_at r) (last_claimed_at r)
    (last_scheduled_at r) (created_by_api_key r) (created_by_user_id r) (created_by_team_id r)
    (created_by_organization_id r) (created_at r) (started_at r) (completed_at r) (expires_at r).

Definition set_tenant_scope_type (v : option string) (r : batch_job) : batch_job :=
  mkJob (batch_id r) (endpoint r) (status r) (model r) (output_file_id r) (error_file_id r)
    (provider_error r) (total_items r) (in_progress_items r) (completed_items r) (failed_items r)
    (cancelled_items r) (locked_by r) (lease_expires_at r) (cancel_requested_at r)
    (status_last_updated_at r) (scheduler_version r) (scheduling_model r) (scheduling_model_group r)
    (scheduling_endpoint r) v (tenant_scope_id r) (service_tier r) (estimated_work_units r)
    (remaining_work_units r) (size_class r) (queue_entered_at r) (first_claimed_at r) (last_claimed_at r)
    (last_scheduled_at r) (created_by_api_key r) (created_by_user_id r) (created_by_team_id r)
    (created_by_organization_id r) (created_at r) (started_at r) (completed_at r) (expires_at r).

Definition set_tenant_scope_id (v : option string) (r : batch_job) : batch_job :=
  mkJob (batch_id r) (endpoint r) (status r) (model r) (output_file_id r) (error_file_id r)
    (provider_error r) (total_items r) (in_progress_items r) (completed_items r) (failed_items r)
    (cancelled_items r) (locked_by r) (lease_expires_at r) (cancel_requested_at r)
    (status_last_updated_at r) (scheduler_version r) (scheduling_model r) (scheduling_model_group r)
    (scheduling_endpoint r) (tenant_scope_type r) v (service_tier r) (estimated_work_units r)
    (remaining_work_units r) (size_class r) (queue_entered_at r) (first_claimed_at r) (last_claimed_at r)
    (last_scheduled_at r) (created_by_api_key r) (created_by_user_id r) (created_by_team_id r)
    (created_by_organization_id r) (created_at r) (started_at r) (completed_at r) (expires_at r).

Definition set_estimated_work_units (v : Z) (r : batch_job) : batch_job :=
  mkJob (batch_id r) (endpoint r) (status r) (model r) (output_file_id r) (error_file_id r)
    (provider_error r) (total_items r) (in_progress_items r) (completed_items r) (failed_items r)
    (cancelled_items r) (locked_by r) (lease_expires_at r) (cancel_requested_at r)
    (status_last_updated_at r) (scheduler_version r) (scheduling_model r) (scheduling_model_group r)
    (scheduling_endpoint r) (tenant_scope_type r) (tenant_scope_id r) (service_tier r) v
    (remaining_work_units r) (size_class r) (queue_entered_at r) (first_claimed_at r) (last_claimed_at r)
    (last_scheduled_at r) (created_by_api_key r) (created_by_user_id r) (created_by_team_id r)
    (created_by_organization_id r) (created_at r) (started_at r) (completed_at r) (expires_at r).

Definition set_remaining_work_units (v : Z) (r : batch_job) : batch_job :=
  mkJob (batch_id r) (endpoint r) (status r) (model r) (output_file_id r) (error_file_id r)
    (provider_error r) (total_items r) (in_progress_items r) (completed_items r) (failed_items r)
    (cancelled_items r) (locked_by r) (lease_expires_at r) (cancel_requested_at r)
    (status_last_updated_at r) (scheduler_version r) (scheduling_model r) (scheduling_model_group r)
    (scheduling_endpoint r) (tenant_scope_type r) (tenant_scope_id r) (service_tier r)
    (estimated_work_units r) v (size_class r) (queue_entered_at r) (first_claimed_at r) (last_claimed_at r)
    (last_scheduled_at r) (created_by_api_key r) (created_by_user_id r) (created_by_team_id r)
    (created_by_organization_id r) (created_at r) (started_at r) (completed_at r) (expires_at r).

Definition set_size_class (v : string) (r : batch_job) : batch_job :=
  mkJob (batch_id r) (endpoint r) (status r) (model r) (output_file_id r) (error_file_id r)
    (provider_error r) (total_items r) (in_progress_items r) (completed_items r) (failed_items r)
    (cancelled_items r) (locked_by r) (lease_expires_at r) (cancel_requested_at r)
    (status_last_updated_at r) (scheduler_version r) (scheduling_model r) (scheduling_model_group r)
    (scheduling_endpoint r) (tenant_scope_type r) (tenant_scope_id r) (service_tier r)
    (estimated_work_units r) (remaining_work_units r) v (queue_entered_at r) (first_claimed_at r)
    (last_claimed_at r) (last_scheduled_at r) (created_by_api_key r) (created_by_user_id r)
    (created_by_team_id r) (created_by_organization_id r) (created_at r) (started_at r) (completed_at r)
    (expires_at r).

Definition set_queue_entered_at (v : option Z) (r : batch_job) : batch_job :=
  mkJob (batch_id r) (endpoint r) (status r) (model r) (output_file_id r) (error_file_id r)
    (provider_error r) (total_items r) (in_progress_items r) (completed_items r) (failed_items r)
    (cancelled_items r) (locked_by r) (lease_expires_at r) (cancel_requested_at r)
    (status_last_updated_at r) (scheduler_version r) (scheduling_model r) (scheduling_model_group r)
    (scheduling_endpoint r) (tenant_scope_type r) (tenant_scope_id r) (service_tier r)
    (estimated_work_units r) (remaining_work_units r) (size_class r) v (first_claimed_at r)
    (last_claimed_at r) (last_scheduled_at r) (created_by_api_key r) (created_by_user_id r)
    (created_by_team_id r) (created_by_organization_id r) (created_at r) (started_at r) (completed_at r)
    (expires_at r).

Definition set_first_claimed_at (v : option Z) (r : batch_job) : batch_job :=
  mkJob (batch_id r) (endpoint r) (status r) (model r) (output_file_id r) (error_file_id r)
    (provider_error r) (total_items r) (in_progress_items r) (completed_items r) (failed_items r)
    (cancelled_items r) (locked_by r) (lease_expires_at r) (cancel_requested_at r)
    (status_last_updated_at r) (scheduler_version r) (scheduling_model r) (scheduling_model_group r)
    (scheduling_endpoint r) (tenant_scope_type r) (tenant_scope_id r) (service_tier r)
    (estimated_work_units r) (remaining_work_units r) (size_class r) (queue_entered_at r) v
    (last_claimed_at r) (last_scheduled_at r) (created_by_api_key r) (created_by_user_id r)
    (created_by_team_id r) (created_by_organization_id r) (created_at r) (started_at r) (completed_at r)
    (expires_at r).

Definition set_last_claimed_at (v : option Z) (r : batch_job) : batch_job :=
  mkJob (batch_id r) (endpoint r) (status r) (model r) (output_file_id r) (error_file_id r)
    (provider_error r) (total_items r) (in_progress_items r) (completed_items r) (failed_items r)
    (cancelled_items r) (locked_by r) (lease_expires_at r) (cancel_requested_at r)
    (status_last_updated_at r) (scheduler_version r) (scheduling_model r) (scheduling_model_group r)
    (scheduling_endpoint r) (tenant_scope_type r) (tenant_scope_id r) (service_tier r)
    (estimated_work_units r) (remaining_work_units r) (size_class r) (queue_entered_at r)
    (first_claimed_at r) v (last_scheduled_at r) (created_by_api_key r) (created_by_user_id r)
    (created_by_team_id r) (created_by_organization_id r) (created_at r) (started_at r) (completed_at r)
    (expires_at r).

Definition set_last_scheduled_at (v : option Z) (r : batch_job) : batch_job :=
  mkJob (batch_id r) (endpoint r) (status r) (model r) (output_file_id r) (error_file_id r)
    (provider_error r) (total_items r) (in_progress_items r) (completed_items r) (failed_items r)
    (cancelled_items r) (locked_by r) (lease_expires_at r) (cancel_requested_at r)
    (status_last_updated_at r) (scheduler_version r) (scheduling_model r) (scheduling_model_group r)
    (scheduling_endpoint r) (tenant_scope_type r) (tenant_scope_id r) (service_tier r)
    (estimated_work_units r) (remaining_work_units r) (size_class r) (queue_entered_at r)
    (first_claimed_at r) (last_claimed_at r) v (created_by_api_key r) (created_by_user_id r)
    (created_by_team_id r) (created_by_organization_id r) (created_at r) (started_at r) (completed_at r)
    (expires_at r).

Definition set_started_at (v : option Z) (r : batch_job) : batch_job :=
  mkJob (batch_id r) (endpoint r) (status r) (model r) (output_file_id r) (error_file_id r)
    (provider_error r) (total_items r) (in_progress_items r) (completed_items r) (failed_items r)
    (cancelled_items r) (locked_by r) (lease_expires_at r) (cancel_requested_at r)
    (status_last_updated_at r) (scheduler_version r) (scheduling_model r) (scheduling_model_group r)
    (scheduling_endpoint r) (tenant_scope_type r) (tenant_scope_id r) (service_tier r)
    (estimated_work_units r) (remaining_work_units r) (size_class r) (queue_entered_at r)
    (first_claimed_at r) (last_claimed_at r) (last_scheduled_at r) (created_by_api_key r)
    (created_by_user_id r) (created_by_team_id r) (created_by_organization_id r) (created_at r) v
    (completed_at r) (expires_at r).

Definition set_completed_at (v : option Z) (r : batch_job) : batch_job :=
  mkJob (batch_id r) (endpoint r) (status r) (model r) (output_file_id r) (error_file_id r)
    (provider_error r) (total_items r) (in_progress_items r) (completed_items r) (failed_items r)
    (cancelled_items r) (locked_by r) (lease_expires_at r) (cancel_requested_at r)
    (status_last_updated_at r) (scheduler_version r) (scheduling_model r) (scheduling_model_group r)
    (scheduling_endpoint r) (tenant_scope_type r) (tenant_scope_id r) (service_tier r)
    (estimated_work_units r) (remaining_work_units r) (size_class r) (queue_entered_at r)
    (first_claimed_at r) (last_claimed_at r) (last_scheduled_at r) (created_by_api_key r)
    (created_by_user_id r) (created_by_team_id r) (created_by_organization_id r) (created_at r)
    (started_at r) v (expires_at r).

End Job.

(** A row of deltallm_batch_completion_outbox. *)
Module Outbox.

Record outbox_row : Type := mkOutbox {
  completion_id : string;
  batch_id : string;
  item_id : string;
  payload_json : CompletionPayload;
  status : BatchCompletionOutboxStatus.outbox_status;
  attempt_count : Z;
  max_attempts : Z;
  next_attempt_at : Z;
  last_error : option string;
  locked_by : option string;
  lease_expires_at : option Z;
  created_at : Z;
  updated_at : Z;
  processed_at : option Z
}.

Definition set_status (v : BatchCompletionOutboxStatus.outbox_status) (r : outbox_row) : outbox_row :=
  mkOutbox (completion_id r) (batch_id r) (item_id r) (payload_json r) v (attempt_count r) (max_attempts r)
    (next_attempt_at r) (last_error r) (locked_by r) (lease_expires_at r) (created_at r) (updated_at r)
    (processed_at r).

Definition set_attempt_count (v : Z) (r : outbox_row) : outbox_row :=
  mkOutbox (completion_id r) (batch_id r) (item_id r) (payload_json r) (status r) v (max_attempts r)
    (next_attempt_at r) (last_error r) (locked_by r) (lease_expires_at r) (created_at r) (updated_at r)
    (processed_at r).

Definition set_next_attempt_at (v : Z) (r : outbox_row) : outbox_row :=
  mkOutbox (completion_id r) (batch_id r) (item_id r) (payload_json r) (status r) (attempt_count r)
    (max_attempts r) v (last_error r) (locked_by r) (lease_expires_at r) (created_at r) (updated_at r)
    (processed_at r).

Definition set_last_error (v : option string) (r : outbox_row) : outbox_row :=
  mkOutbox (completion_id r) (batch_id r) (item_id r) (payload_json r) (status r) (attempt_count r)
    (max_attempts r) (next_attempt_at r) v (locked_by r) (lease_expires_at r) (created_at r) (updated_at r)
    (processed_at r).

Definition set_locked_by (v : option string) (r : outbox_row) : outbox_row :=
  mkOutbox (completion_id r) (batch_id r) (item_id r) (payload_json r) (status r) (attempt_count r)
    (max_attempts r) (next_attempt_at r) (last_error r) v (lease_expires_at r) (created_at r) (updated_at r)
    (processed_at r).

Definition set_lease_expires_at (v : option Z) (r : outbox_row) : outbox_row :=
  mkOutbox (completion_id r) (batch_id r) (item_id r) (payload_json r) (status r) (attempt_count r)
    (max_attempts r) (next_attempt_at r) (last_error r) (locked_by r) v (created_at r) (updated_at r)
    (processed_at r).

Definition set_updated_at (v : Z) (r : outbox_row) : outbox_row :=
  mkOutbox (completion_id r) (batch_id r) (item_id r) (payload_json r) (status r) (attempt_count r)
    (max_attempts r) (next_attempt_at r) (last_error r) (locked_by r) (lease_expires_at r) (created_at r) v
    (processed_at r).

Definition set_processed_at (v : option Z) (r : outbox_row) : outbox_row :=
  mkOutbox (completion_id r) (batch_id r) (item_id r) (payload_json r) (status r) (attempt_count r)
    (max_attempts r) (next_attempt_at r) (last_error r) (locked_by r) (lease_expires_at r) (created_at r)
    (updated_at r) v.

End Outbox.

(** A row of deltallm_batch_scheduler_flow. *)
Module Flow.

Record flow_row : Type := mkFlow {
  flow_id : string;
  service_tier : string;
  model_group : string;
  tenant_scope_type : string;
  tenant_scope_id : string;
  weight : Z;
  quantum_work_units : Z;
  deficit_work_units : Z;
  active : bool;
  queued_jobs : Z;
  queued_work_units : Z;
  in_flight_work_units : Z;
  last_selected_at : option Z;
  last_refilled_at : option Z;
  created_at : Z;
  updated_at : Z
}.

Definition set_weight (v : Z) (r : flow_row) : flow_row :=
  mkFlow (flow_id r) (service_tier r) (model_group r) (tenant_scope_type r) (tenant_scope_id r) v
    (quantum_work_units r) (deficit_work_units r) (active r) (queued_jobs r) (queued_work_units r)
    (in_flight_work_units r) (last_selected_at r) (last_refilled_at r) (created_at r) (updated_at r).

Definition set_quantum_work_units (v : Z) (r : flow_row) : flow_row :=
  mkFlow (flow_id r) (service_tier r) (model_group r) (tenant_scope_type r) (tenant_scope_id r) (weight r) v
    (deficit_work_units r) (active r) (queued_jobs r) (queued_work_units r) (in_flight_work_units r)
    (last_selected_at r) (last_refilled_at r) (created_at r) (updated_at r).

Definition set_deficit_work_units (v : Z) (r : flow_row) : flow_row :=
  mkFlow (flow_id r) (service_tier r) (model_group r) (tenant_scope_type r) (tenant_scope_id r) (weight r)
    (quantum_work_units r) v (active r) (queued_jobs r) (queued_work_units r) (in_flight_work_units r)
    (last_selected_at r) (last_refilled_at r) (created_at r) (updated_at r).

Definition set_active (v : bool) (r : flow_row) : flow_row :=
  mkFlow (flow_id r) (service_tier r) (model_group r) (tenant_scope_type r) (tenant_scope_id r) (weight r)
    (quantum_work_units r) (deficit_work_units r) v (queued_jobs r) (queued_work_units r)
    (in_flight_work_units r) (last_selected_at r) (last_refilled_at r) (created_at r) (updated_at r).

Definition set_queued_jobs (v : Z) (r : flow_row) : flow_row :=
  mkFlow (flow_id r) (service_tier r) (model_group r) (tenant_scope_type r) (tenant_scope_id r) (weight r)
    (quantum_work_units r) (deficit_work_units r) (active r) v (queued_work_units r)
    (in_flight_work_units r) (last_selected_at r) (last_refilled_at r) (created_at r) (updated_at r).

Definition set_queued_work_units (v : Z) (r : flow_row) : flow_row :=
  mkFlow (flow_id r) (service_tier r) (model_group r) (tenant_scope_type r) (tenant_scope_id r) (weight r)
    (quantum_work_units r) (deficit_work_units r) (active r) (queued_jobs r) v (in_flight_work_units r)
    (last_selected_at r) (last_refilled_at r) (created_at r) (updated_at r).

Definition set_in_flight_work_units (v : Z) (r : flow_row) : flow_row :=
  mkFlow (flow_id r) (service_tier r) (model_group r) (tenant_scope_type r) (tenant_scope_id r) (weight r)
    (quantum_work_units r) (deficit_work_units r) (active r) (queued_jobs r) (queued_work_units r) v
    (last_selected_at r) (last_refilled_at r) (created_at r) (updated_at r).

Definition set_last_selected_at (v : option Z) (r : flow_row) : flow_row :=
  mkFlow (flow_id r) (service_tier r) (model_group r) (tenant_scope_type r) (tenant_scope_id r) (weight r)
    (quantum_work_units r) (deficit_work_units r) (active r) (queued_jobs r) (queued_work_units r)
    (in_flight_work_units r) v (last_refilled_at r) (created_at r) (updated_at r).

Definition set_last_refilled_at (v : option Z) (r : flow_row) : flow_row :=
  mkFlow (flow_id r) (service_tier r) (model_group r) (tenant_scope_type r) (tenant_scope_id r) (weight r)
    (quantum_work_units r) (deficit_work_units r) (active r) (queued_jobs r) (queued_work_units r)
    (in_flight_work_units r) (last_selected_at r) v (created_at r) (updated_at r).

Definition set_updated_at (v : Z) (r : flow_row) : flow_row :=
  mkFlow (flow_id r) (service_tier r) (model_group r) (tenant_scope_type r) (tenant_scope_id r) (weight r)
    (quantum_work_units r) (deficit_work_units r) (active r) (queued_jobs r) (queued_work_units r)
    (in_flight_work_units r) (last_selected_at r) (last_refilled_at r) (created_at r) v.

End Flow.

(** A row of deltallm_spendlog_events, the columns that billing reads back. *)
Record spend_event : Type := mkSpendEvent {
  se_id : string;
  se_request_id : string;
  se_api_key : string;
  se_user_id : option string;
  se_team_id : option string;
  se_organization_id : option string;
  se_model : string;
  se_call_type : string;
  se_spend : Q
}.

(** Cumulative spend: the rows of the key, user, team and organization tables
    and of deltallm_teammodelspend. *)
Record ledger : Type := mkLedger {
  lg_tokens : gmap string Q;
  lg_users : gmap string Q;
  lg_teams : gmap string Q;
  lg_organizations : gmap string Q;
  lg_team_models : gmap (string * string) Q
}.

(** ** The state *)
Record db : Type := mkDb {
  items : list Item.batch_item;
  jobs : list Job.batch_job;
  outbox : list Outbox.outbox_row;
  flows : list Flow.flow_row;
  spend_log : list spend_event;
  spend : ledger
}.

Definition on_items (f : list Item.batch_item -> list Item.batch_item) (s : db) : db :=
  mkDb (f (items s)) (jobs s) (outbox s) (flows s) (spend_log s) (spend s).
Definition on_jobs (f : list Job.batch_job -> list Job.batch_job) (s : db) : db :=
  mkDb (items s) (f (jobs s)) (outbox s) (flows s) (spend_log s) (spend s).
Definition on_outbox (f : list Outbox.outbox_row -> list Outbox.outbox_row) (s : db) : db :=
  mkDb (items s) (jobs s) (f (outbox s)) (flows s) (spend_log s) (spend s).
Definition on_flows (f : list Flow.flow_row -> list Flow.flow_row) (s : db) : db :=
  mkDb (items s) (jobs s) (outbox s) (f (flows s)) (spend_log s) (spend s).
Definition on_spend_log (f : list spend_event -> list spend_event) (s : db) : db :=
  mkDb (items s) (jobs s) (outbox s) (flows s) (f (spend_log s)) (spend s).
Definition on_spend (f : ledger -> ledger) (s : db) : db :=
  mkDb (items s) (jobs s) (outbox s) (flows s) (spend_log s) (f (spend s)).

Definition empty_ledger : ledger := mkLedger ∅ ∅ ∅ ∅ ∅.
Definition empty_db : db := mkDb [] [] [] [] [] empty_ledger.

(** [async with db.tx()]: an exception rolls every statement back. *)
Definition transaction {A} (m : st db exn A) : st db exn A := fun s =>
  match m s with
  | (s', Ret a) => (s', Ret a)
  | (_, Raise e) => (s, Raise e)
  end.

Lemma transaction_raise {A} (m : st db exn A) s s' e : transaction m s = (s', Raise e) -> s' = s.
Proof. unfold transaction. destruct (m s) as [? [?|?]]; intros [=]; done. Qed.

Lemma transaction_ret {A} (m : st db exn A) s s' a : m s = (s', Ret a) -> transaction m s = (s', Ret a).
Proof. intros H. unfold transaction. by rewrite H. Qed.

Lemma transaction_keeps {A} (P : db -> Prop) (m : st db exn A) s :
  P s -> P (fst (m s)) -> P (fst (transaction m s)).
Proof. unfold transaction. by destruct (m s) as [s' [a|e]]. Qed.

Lemma transaction_ok_keeps {A} (P : db -> Prop) (m : st db exn A) s :
  P s -> (forall s' a, m s = (s', Ret a) -> P s') -> P (fst (transaction m s)).
Proof. intros Hs Hm. unfold transaction. destruct (m s) as [s' [a|e]]; [by eapply Hm|done]. Qed.

(** The row of an item, a job and an outbox entry. *)
Definition item_row (id : string) (s : db) : option Item.batch_item := row_at Item.item_id id (items s).
Definition job_row (id : string) (s : db) : option Job.batch_job := row_at Job.batch_id id (jobs s).
Definition outbox_of_item (id : string) (s : db) : option Outbox.outbox_row := row_at Outbox.item_id id (outbox s).
