(* ===== verification/Scheduling.v ===== *)
(** * Scheduling inputs of the batch queue

    [src/batch/scheduling/estimator.py] ([Estimator]), [dimensions.py] and the
    flow identifiers of [fair_share.py] ([Dimensions]), [modes.py] ([Modes]) and
    [advisory_locks.py] ([AdvisoryLock]).  The text of [json.dumps] and [str]
    of a value and the digest of SHA-256 are parameters. *)

From S2P Require Import Prelude PyVal Errors BatchModels.

Definition BATCH_ENDPOINT_EMBEDDINGS : string := "/v1/embeddings".
Definition BATCH_ENDPOINT_CHAT_COMPLETIONS : string := "/v1/chat/completions".

(** ** Work units *)
Module Estimator.

(** [math.ceil] of a quotient of integers. *)
Definition ceil_div (n d : Z) : Z := - ((- n) / d).

Definition ceil_units (value divisor : Z) : Z := Z.max 1 (ceil_div (Z.max 0 value) divisor).

Section estimator.
(** [json.dumps(value, separators=(",", ":"), ensure_ascii=True, default=str)]
    ([None] when it raises TypeError or ValueError) and [str(value or "")]. *)
Context (json_dumps : pyval -> option string) (py_str_or_empty : pyval -> string).

Definition json_char_count (value : pyval) : Z :=
  match json_dumps value with
  | Some text => Z.of_nat (String.length text)
  | None => Z.of_nat (String.length (py_str_or_empty value))
  end.

Fixpoint estimate_embedding_input (value : pyval) : Z :=
  match value with
  | PyStr s => ceil_units (Z.of_nat (String.length s)) 256
  | PyList [] => 1
  | PyList l =>
      if forallb is_int l then ceil_units (Z.of_nat (length l)) 256
      else Z.max 1 (zsum (map estimate_embedding_input l))
  | _ => 1
  end.

Definition estimate_chat_request (request_body : list (string * pyval)) : Z :=
  let prompt_units := ceil_units (json_char_count (py_or (vget request_body "messages") (PyList []))) 512 in
  let completion_units :=
    match vget request_body "max_tokens" with
    | PyInt max_tokens => ceil_units max_tokens 256
    | PyBool b => ceil_units (if b then 1 else 0) 256
    | _ => 1
    end in
  Z.max 1 (prompt_units + completion_units).

Definition estimate_request_work_units (endpoint : option string) (request_body : pyval) : Z :=
  let body := match request_body with PyDict d => d | _ => [] end in
  let normalized_endpoint := Str.strip (default "" endpoint) in
  if String.eqb normalized_endpoint BATCH_ENDPOINT_CHAT_COMPLETIONS || dict_has body "messages"
  then estimate_chat_request body
  else if String.eqb normalized_endpoint BATCH_ENDPOINT_EMBEDDINGS || dict_has body "input"
  then estimate_embedding_input (vget body "input")
  else 1.

Lemma ceil_units_pos v d : 1 <= ceil_units v d.
Proof. unfold ceil_units. lia. Qed.

Lemma estimate_embedding_input_pos value : 1 <= estimate_embedding_input value.
Proof.
  destruct value as [| | | | |l|]; simpl; try lia; [apply ceil_units_pos|].
  destruct l as [|x l]; [lia|]. destruct (forallb is_int (x :: l)); [apply ceil_units_pos|lia].
Qed.

(** Every request costs at least one unit. *)
Lemma estimate_pos endpoint body : 1 <= estimate_request_work_units endpoint body.
Proof.
  unfold estimate_request_work_units. repeat case_match; try lia; try apply estimate_embedding_input_pos.
  all: unfold estimate_chat_request; lia.
Qed.
End estimator.

Definition size_class_for_work_units (work_units : option Z) : string :=
  let bounded := Z.max 0 (default 0 work_units) in
  if bounded <=? 10 then "xs"
  else if bounded <=? 100 then "s"
  else if bounded <=? 1000 then "m"
  else if bounded <=? 10000 then "l"
  else "xl".

End Estimator.

(** ** Who a job belongs to and what it runs on *)
Module Dimensions.

Definition API_KEY_TENANT_SCOPE_PREFIX : string := "api_key_sha256:".
Definition DEFAULT_SCHEDULER_VERSION : string := "fifo_v1".
Definition DEFAULT_SERVICE_TIER : string := "standard".
Definition DEFAULT_TENANT_SCOPE_PREFERENCE : list string := ["organization"; "team"; "api_key"; "user"].
Definition TENANT_SCOPE_TYPES : list string := DEFAULT_TENANT_SCOPE_PREFERENCE ++ ["anonymous"].

Record BatchTenantScope : Type := mkTenantScope { ts_scope_type : string; ts_scope_id : string }.

Record BatchSchedulingDimensions : Type := mkDimensions {
  sd_scheduler_version : string;
  sd_scheduling_model : option string;
  sd_scheduling_model_group : option string;
  sd_scheduling_endpoint : string;
  sd_tenant_scope_type : string;
  sd_tenant_scope_id : string;
  sd_service_tier : string;
  sd_estimated_work_units : Z;
  sd_remaining_work_units : Z;
  sd_size_class : string;
  sd_scheduler_debug : list (string * pyval)
}.

(** [str(value or "").strip() or None] *)
Definition normalize_optional (value : option string) : option string :=
  let normalized := Str.strip (default "" value) in
  if Str.is_empty normalized then None else Some normalized.

Definition normalize_service_tier (value : option string) : string :=
  default DEFAULT_SERVICE_TIER (normalize_optional value).

(** [normalize_flow_part] *)
Definition normalize_flow_part (value : option string) (dflt : string) : string :=
  default dflt (normalize_optional value).

Section hashed.
(** [hashlib.sha256(text.encode("utf-8")).hexdigest()] *)
Context (sha256_hex : string -> string).

Definition stable_tenant_scope_id (scope_type scope_id : string) : string :=
  let normalized_type := Str.strip scope_type in
  let normalized_id := Str.strip scope_id in
  if Str.is_empty normalized_id then "anonymous"
  else if String.eqb normalized_type "api_key" then
    if Str.startswith normalized_id API_KEY_TENANT_SCOPE_PREFIX then normalized_id
    else (API_KEY_TENANT_SCOPE_PREFIX ++ sha256_hex normalized_id)%string
  else normalized_id.

Record owners : Type := mkOwners {
  ow_organization_id : option string;
  ow_team_id : option string;
  ow_api_key : option string;
  ow_user_id : option string
}.

(** [scope_values.get(normalized_type)] *)
Definition scope_value (o : owners) (scope_type : string) : option string :=
  if String.eqb scope_type "organization" then ow_organization_id o
  else if String.eqb scope_type "team" then ow_team_id o
  else if String.eqb scope_type "api_key" then ow_api_key o
  else if String.eqb scope_type "user" then ow_user_id o
  else None.

Fixpoint first_scope (o : owners) (preference : list string) : BatchTenantScope :=
  match preference with
  | [] => mkTenantScope "anonymous" "anonymous"
  | scope_type :: rest =>
      let normalized_type := Str.lower (Str.strip scope_type) in
      match normalize_optional (scope_value o normalized_type) with
      | Some normalized => mkTenantScope normalized_type (stable_tenant_scope_id normalized_type normalized)
      | None => first_scope o rest
      end
  end.

Definition resolve_tenant_scope (o : owners) (scope_preference : list string) : BatchTenantScope :=
  first_scope o (match scope_preference with [] => DEFAULT_TENANT_SCOPE_PREFERENCE | _ => scope_preference end).

Fixpoint parsed_preference (seen : list string) (l : list string) : list string :=
  match l with
  | [] => []
  | scope_type :: l' =>
      let normalized := Str.lower (Str.strip scope_type) in
      if negb (bool_decide (normalized ∈ TENANT_SCOPE_TYPES)) || String.eqb normalized "anonymous"
         || bool_decide (normalized ∈ seen)
      then parsed_preference seen l'
      else normalized :: parsed_preference (normalized :: seen) l'
  end.

Definition normalize_tenant_scope_preference (scope_preference : list string) : list string :=
  let l := match scope_preference with [] => DEFAULT_TENANT_SCOPE_PREFERENCE | _ => scope_preference end in
  match parsed_preference [] l with
  | [] => DEFAULT_TENANT_SCOPE_PREFERENCE
  | parsed => parsed
  end.

(** [resolver] is [None] or its [resolve_model_group], which may raise. *)
Definition resolve_model_group (model : option string) (resolver : option (string -> res exn (option string)))
  : option string :=
  match normalize_optional model with
  | None => None
  | Some normalized =>
      match resolver with
      | None => Some normalized
      | Some f =>
          match f normalized with
          | Raise _ => Some normalized
          | Ret resolved => Some (default normalized (normalize_optional resolved))
          end
      end
  end.

Definition build_scheduling_dimensions (endpoint : string) (model model_group : option string) (o : owners)
    (service_tier : option string) (estimated_work_units : Z) (remaining_work_units : option Z)
    (scheduler_version : option string) (estimator_version : string) (scheduler_debug : list (string * pyval))
    (mixed_model strict_model_homogeneity_enabled : bool) (tenant_scope_preference : list string)
  : BatchSchedulingDimensions :=
  let tenant := resolve_tenant_scope o tenant_scope_preference in
  let bounded_work_units := Z.max 0 estimated_work_units in
  let bounded_remaining :=
    match remaining_work_units with Some r => Z.max 0 r | None => bounded_work_units end in
  let debug := if dict_has scheduler_debug "estimator_version" then scheduler_debug
               else dict_set scheduler_debug "estimator_version" (PyStr estimator_version) in
  let debug := dict_set debug "tenant_scope_preference"
                 (PyStr (Str.join "," (normalize_tenant_scope_preference tenant_scope_preference))) in
  let debug := if mixed_model
               then dict_set (dict_set debug "mixed_model" (PyBool true))
                      "strict_model_homogeneity_enabled" (PyBool strict_model_homogeneity_enabled)
               else debug in
  {| sd_scheduler_version := default DEFAULT_SCHEDULER_VERSION (normalize_optional scheduler_version);
     sd_scheduling_model := normalize_optional model;
     sd_scheduling_model_group := match normalize_optional model_group with
                                  | Some g => Some g
                                  | None => normalize_optional model
                                  end;
     sd_scheduling_endpoint := Str.strip endpoint;
     sd_tenant_scope_type := ts_scope_type tenant;
     sd_tenant_scope_id := ts_scope_id tenant;
     sd_service_tier := normalize_service_tier service_tier;
     sd_estimated_work_units := bounded_work_units;
     sd_remaining_work_units := bounded_remaining;
     sd_size_class := Estimator.size_class_for_work_units (Some bounded_work_units);
     sd_scheduler_debug := debug |}.

Definition unit_separator : string := String (ascii_of_nat 31) EmptyString.

Definition build_flow_id (service_tier model_group tenant_scope_type tenant_scope_id : option string) : string :=
  let normalized := Str.join unit_separator
    [normalize_flow_part service_tier DEFAULT_SERVICE_TIER; normalize_flow_part model_group "unknown";
     normalize_flow_part tenant_scope_type "anonymous"; normalize_flow_part tenant_scope_id "anonymous"] in
  ("flow_" ++ Str.take 32 (sha256_hex normalized))%string.

(** What the admin API shows: never the key nor its whole digest. *)
Definition display_tenant_scope_id (scope_type scope_id : option string) : option string :=
  let normalized_type := Str.strip (default "" scope_type) in
  let normalized_id := Str.strip (default "" scope_id) in
  if Str.is_empty normalized_id then None
  else if String.eqb normalized_type "api_key" then
    if Str.startswith normalized_id API_KEY_TENANT_SCOPE_PREFIX then
      let digest := Str.drop (String.length API_KEY_TENANT_SCOPE_PREFIX) normalized_id in
      Some (if Str.is_empty digest then "api_key" else ("api_key:" ++ Str.take 12 digest)%string)
    else Some "api_key"
  else Some normalized_id.
End hashed.

End Dimensions.

(** ** Scheduler modes *)
Module Modes.

Definition SCHEDULER_MODES : list string :=
  ["fifo_v1"; "slice_v1"; "model_capacity_v1"; "fair_share_v1"; "smart_v1"].
Definition SCHEDULER_SHADOW_MODES : list string := "none" :: SCHEDULER_MODES.

Record BatchSchedulerModes : Type := mkModes { active_mode : string; shadow_mode : string }.

Record BatchSchedulerRollbackEvent : Type := mkRollback {
  rb_from_mode : string; rb_to_mode : string; rb_reason : string }.

(** The attributes of the settings object that decide the modes;
    [set_fields] is pydantic's [model_fields_set]. *)
Record settings : Type := mkSettings {
  set_fields : list string;
  embeddings_batch_scheduler_mode : string;
  embeddings_batch_scheduler_shadow_mode : string;
  embeddings_batch_size_aware_scheduling_enabled : bool;
  embeddings_batch_tenant_fair_share_enabled : bool;
  embeddings_batch_model_capacity_enabled : bool;
  embeddings_batch_scheduler_enabled : bool;
  embeddings_batch_scheduler_claim_mode : string;
  embeddings_batch_scheduler_shadow_enabled : bool
}.

Definition normalize_scheduler_mode (value : string) : string :=
  let normalized := Str.lower (Str.strip value) in
  if bool_decide (normalized ∈ SCHEDULER_MODES) then normalized else "fifo_v1".

Definition normalize_scheduler_shadow_mode (value : string) : string :=
  let normalized := Str.lower (Str.strip value) in
  if bool_decide (normalized ∈ SCHEDULER_SHADOW_MODES) then normalized else "none".

Definition mode_in (mode : string) (l : list string) : bool :=
  bool_decide (normalize_scheduler_shadow_mode mode ∈ l).

Definition scheduler_mode_uses_work_slice (mode : string) : bool :=
  mode_in mode ["slice_v1"; "model_capacity_v1"; "fair_share_v1"; "smart_v1"].
Definition scheduler_mode_uses_model_capacity (mode : string) : bool :=
  mode_in mode ["model_capacity_v1"; "fair_share_v1"; "smart_v1"].
Definition scheduler_mode_uses_fair_share (mode : string) : bool :=
  mode_in mode ["fair_share_v1"; "smart_v1"].
Definition scheduler_mode_uses_size_aware (mode : string) : bool :=
  String.eqb (normalize_scheduler_shadow_mode mode) "smart_v1".

Definition resolve_legacy_scheduler_mode (s : settings) : string :=
  if embeddings_batch_size_aware_scheduling_enabled s then "smart_v1"
  else if embeddings_batch_tenant_fair_share_enabled s then "fair_share_v1"
  else if embeddings_batch_model_capacity_enabled s then "model_capacity_v1"
  else if embeddings_batch_scheduler_enabled s
          || String.eqb (Str.strip (embeddings_batch_scheduler_claim_mode s)) "work_slice"
  then "slice_v1"
  else "fifo_v1".

Definition resolve_legacy_scheduler_shadow_mode (s : settings) : string :=
  if negb (embeddings_batch_scheduler_shadow_enabled s) then "none"
  else if embeddings_batch_size_aware_scheduling_enabled s then "smart_v1"
  else "fair_share_v1".

Definition field_was_set (s : settings) (field_name : string) : bool :=
  bool_decide (field_name ∈ set_fields s).

Definition resolve_scheduler_modes_from_settings (s : settings) : BatchSchedulerModes :=
  mkModes
    (if field_was_set s "embeddings_batch_scheduler_mode"
     then normalize_scheduler_mode (embeddings_batch_scheduler_mode s)
     else resolve_legacy_scheduler_mode s)
    (if field_was_set s "embeddings_batch_scheduler_shadow_mode"
     then normalize_scheduler_shadow_mode (embeddings_batch_scheduler_shadow_mode s)
     else resolve_legacy_scheduler_shadow_mode s).

Definition scheduler_version_for_modes (active shadow : string) : string :=
  let normalized_active := normalize_scheduler_mode active in
  if negb (String.eqb normalized_active "fifo_v1") then normalized_active
  else
    let normalized_shadow := normalize_scheduler_shadow_mode shadow in
    if negb (String.eqb normalized_shadow "none") then (normalized_shadow ++ "_shadow")%string
    else "fifo_v1".

(** [_SCHEDULER_ROLLOUT_RANK[mode]] *)
Definition SCHEDULER_ROLLOUT_RANK (mode : string) : Z :=
  if String.eqb mode "none" then -1
  else if String.eqb mode "fifo_v1" then 0
  else if String.eqb mode "slice_v1" then 1
  else if String.eqb mode "model_capacity_v1" then 2
  else if String.eqb mode "fair_share_v1" then 3
  else 4.

Definition scheduler_rollout_rank (mode : string) : Z :=
  SCHEDULER_ROLLOUT_RANK (normalize_scheduler_shadow_mode mode).

Definition scheduler_rollback_events (previous current : BatchSchedulerModes)
  : list BatchSchedulerRollbackEvent :=
  (if scheduler_rollout_rank (active_mode current) <? scheduler_rollout_rank (active_mode previous)
   then [mkRollback (active_mode previous) (active_mode current) "active_mode_downgrade"] else [])
  ++
  (if negb (String.eqb (shadow_mode previous) "none") && String.eqb (shadow_mode current) "none"
   then [mkRollback (shadow_mode previous) (shadow_mode current) "shadow_disabled"]
   else if negb (String.eqb (shadow_mode previous) "none") && negb (String.eqb (shadow_mode current) "none")
           && (scheduler_rollout_rank (shadow_mode current) <? scheduler_rollout_rank (shadow_mode previous))
   then [mkRollback (shadow_mode previous) (shadow_mode current) "shadow_mode_downgrade"]
   else []).

(** The features a mode switches on, in rollout order. *)
Definition mode_features (mode : string) : list bool :=
  [scheduler_mode_uses_work_slice mode; scheduler_mode_uses_model_capacity mode;
   scheduler_mode_uses_fair_share mode; scheduler_mode_uses_size_aware mode].

Lemma normalized_shadow_mode value : normalize_scheduler_shadow_mode value ∈ SCHEDULER_SHADOW_MODES.
Proof.
  unfold normalize_scheduler_shadow_mode. case_bool_decide; [done|]. unfold SCHEDULER_SHADOW_MODES. by left.
Qed.

(** Each feature has its rank: modes of a higher rank use what lower ones use. *)
Lemma features_by_rank mode :
  mode_features mode = map (fun k => k <=? scheduler_rollout_rank mode) [1; 2; 3; 4].
Proof.
  unfold mode_features, scheduler_mode_uses_work_slice, scheduler_mode_uses_model_capacity,
    scheduler_mode_uses_fair_share, scheduler_mode_uses_size_aware, scheduler_rollout_rank, mode_in.
  pose proof (normalized_shadow_mode mode) as H. revert H.
  generalize (normalize_scheduler_shadow_mode mode). unfold SCHEDULER_SHADOW_MODES, SCHEDULER_MODES.
  intros m H. rewrite !elem_of_cons, elem_of_nil in H.
  destruct H as [->|[->|[->|[->|[->|[->|[]]]]]]]; reflexivity.
Qed.

End Modes.

(** ** Advisory locks *)
Module AdvisoryLock.

Definition backslash : ascii := ascii_of_nat 92.
Definition colon : ascii := ascii_of_nat 58.

(** [normalized.replace("\\", "\\\\").replace(":", "\\:")] *)
Fixpoint escape (s : string) : string :=
  match s with
  | EmptyString => EmptyString
  | String a s' =>
      if Ascii.eqb a backslash then String backslash (String backslash (escape s'))
      else if Ascii.eqb a colon then String backslash (String colon (escape s'))
      else String a (escape s')
  end.

(** [str(value or "").strip() or "unknown"] *)
Definition lock_part (value : string) : string :=
  let normalized := Str.strip value in
  if Str.is_empty normalized then "unknown" else normalized.

Definition normalize_lock_part (value : string) : string := escape (lock_part value).

Definition advisory_lock_name (namespace : string) (parts : list string) : res exn string :=
  let normalized_namespace := Str.strip namespace in
  if Str.is_empty normalized_namespace
  then Raise (plain_exn "advisory lock namespace is required")
  else Ret (Str.join ":" (normalized_namespace :: map normalize_lock_part parts)).

Definition INT64_SIGN_BIT : Z := Z.shiftl 1 63.
Definition UINT64_MODULUS : Z := Z.shiftl 1 64.

(** [int.from_bytes(digest[:8], byteorder="big", signed=False)] *)
Definition from_bytes_big (l : list Byte.byte) : Z :=
  fold_left (fun acc b => acc * 256 + Z.of_N (Byte.to_N b)) l 0.

Definition advisory_lock_key (sha256_digest : string -> list Byte.byte) (namespace : string)
    (parts : list string) : res exn Z :=
  name ← advisory_lock_name namespace parts;
  let unsigned_value := from_bytes_big (firstn 8 (sha256_digest name)) in
  Ret (if unsigned_value >=? INT64_SIGN_BIT then unsigned_value - UINT64_MODULUS else unsigned_value).

Definition advisory_lock_legacy_parts (first second : string) : string * string :=
  (lock_part first, lock_part second).

Definition parse_advisory_lock_bool (value : pyval) : bool :=
  match value with
  | PyBool b => b
  | PyInt z => negb (z =? 0)
  | PyStr s => bool_decide (Str.lower (Str.strip s) ∈ ["1"; "t"; "true"; "y"; "yes"; "on"])
  | _ => false
  end.

(** *** Names identify what they lock *)

#[local] Arguments String.append : simpl nomatch.

(** The decoder of names that the code never needs: fields end at an unescaped
    colon. *)
Fixpoint lock_fields (s cur : string) : list string :=
  match s with
  | EmptyString => [cur]
  | String a s' =>
      if Ascii.eqb a backslash then
        match s' with
        | String b s'' => lock_fields s'' (cur ++ String b EmptyString)%string
        | EmptyString => [cur]
        end
      else if Ascii.eqb a colon then cur :: lock_fields s' EmptyString
      else lock_fields s' (cur ++ String a EmptyString)%string
  end.

(** What follows the namespace. *)
Fixpoint lock_tail (parts : list string) : string :=
  match parts with
  | [] => EmptyString
  | p :: parts' => String colon (normalize_lock_part p ++ lock_tail parts')%string
  end.

Lemma string_app_assoc (s t u : string) : ((s ++ t) ++ u = s ++ (t ++ u))%string.
Proof. induction s as [|a s IH]; simpl; congruence. Qed.

Lemma string_app_nil (s : string) : (s ++ "" = s)%string.
Proof. induction s as [|a s IH]; simpl; congruence. Qed.

Lemma string_app_cancel (s t u : string) : (s ++ t = s ++ u -> t = u)%string.
Proof. induction s as [|a s IH]; simpl; [done|]. intros [= H]. auto. Qed.

Lemma join_colon x parts : Str.join ":" (x :: map normalize_lock_part parts) = (x ++ lock_tail parts)%string.
Proof.
  revert x. induction parts as [|p parts IH]; intros x; [by simpl; rewrite string_app_nil|].
  specialize (IH (normalize_lock_part p)). unfold Str.join in *. cbn [map lock_tail].
  change (String.concat ":" (x :: normalize_lock_part p :: map normalize_lock_part parts))
    with (x ++ (":" ++ String.concat ":" (normalize_lock_part p :: map normalize_lock_part parts)))%string.
  by rewrite IH.
Qed.

Lemma lock_fields_escape p rest cur :
  lock_fields (escape p ++ rest)%string cur = lock_fields rest (cur ++ p)%string.
Proof.
  revert cur. induction p as [|a p IH]; intros cur; [simpl; by rewrite string_app_nil|].
  replace (cur ++ String a p)%string with ((cur ++ String a EmptyString) ++ p)%string
    by (by rewrite string_app_assoc).
  rewrite <- IH. cbn [escape]. destruct (Ascii.eqb_spec a backslash) as [->|Hb]; [done|].
  destruct (Ascii.eqb_spec a colon) as [->|Hc]; [done|]. simpl.
  destruct (Ascii.eqb_spec a backslash); [done|]. by destruct (Ascii.eqb_spec a colon).
Qed.

Lemma lock_fields_tail parts cur : lock_fields (lock_tail parts) cur = cur :: map lock_part parts.
Proof.
  revert cur. induction parts as [|p parts IH]; intros cur; [done|].
  cbn [lock_tail lock_fields]. replace (Ascii.eqb colon backslash) with false by done.
  rewrite Ascii.eqb_refl. unfold normalize_lock_part. rewrite lock_fields_escape, IH. done.
Qed.

Lemma advisory_lock_name_eq namespace parts :
  advisory_lock_name namespace parts =
    (if Str.is_empty (Str.strip namespace) then Raise (plain_exn "advisory lock namespace is required")
     else Ret (Str.strip namespace ++ lock_tail parts)%string).
Proof. unfold advisory_lock_name. case_match; [done|]. by rewrite join_colon. Qed.

Lemma from_bytes_bound l acc :
  0 <= acc -> 0 <= fold_left (fun acc b => acc * 256 + Z.of_N (Byte.to_N b)) l acc
               < (acc + 1) * 256 ^ Z.of_nat (length l).
Proof.
  revert acc. induction l as [|b l IH]; intros acc Hacc; cbn [fold_left length]; [lia|].
  pose proof (Byte.to_N_bounded b) as Hb. destruct (IH (acc * 256 + Z.of_N (Byte.to_N b))) as [H1 H2]; [lia|].
  split; [done|]. rewrite Nat2Z.inj_succ, Z.pow_succ_r by lia.
  eapply Z.lt_le_trans; [exact H2|]. assert (0 < 256 ^ Z.of_nat (length l)) by (apply Z.pow_pos_nonneg; lia). nia.
Qed.

(** Advisory locks never collide by construction: two lock names in a
    namespace are equal exactly when their normalised parts are equal, part by
    part (the escaping makes the name decodable by [lock_fields]), and the key
    derived from the digest fits PostgreSQL's signed bigint. *)
Theorem advisory_lock_names_decodable sha namespace parts parts' :
  (advisory_lock_name namespace parts = advisory_lock_name namespace parts' <->
   Str.strip namespace = "" \/ map lock_part parts = map lock_part parts') /\
  match advisory_lock_name namespace parts with
  | Ret name => exists rest, name = (Str.strip namespace ++ rest)%string /\
                             lock_fields rest "" = "" :: map lock_part parts
  | Raise _ => Str.strip namespace = ""
  end /\
  match advisory_lock_key sha namespace parts with
  | Ret key => - 2 ^ 63 <= key < 2 ^ 63
  | Raise _ => Str.strip namespace = ""
  end.
Proof.
  unfold advisory_lock_key. rewrite !advisory_lock_name_eq. unfold Str.is_empty.
  destruct (String.eqb_spec (Str.strip namespace) "") as [E|E].
  { split_and!; [|done|done]. split; [by left|done]. }
  split_and!; [split| |].
  - intros H%ret_inj%string_app_cancel. right.
    pose proof (lock_fields_tail parts "") as H1. rewrite H, lock_fields_tail in H1. congruence.
  - intros [?|H]; [done|]. f_equal. f_equal. clear E. revert parts' H.
    induction parts as [|p parts IH]; intros [|p' parts'] [=]; [done|]. cbn [lock_tail].
    unfold normalize_lock_part. rewrite H0. by rewrite (IH parts').
  - exists (lock_tail parts). split; [done|]. apply lock_fields_tail.
  - cbn [mbind res_bind]. set (u := from_bytes_big _).
    assert (Hu : 0 <= u < 2 ^ 64).
    { unfold u, from_bytes_big. destruct (from_bytes_bound (firstn 8 (sha (Str.strip namespace ++ lock_tail parts)%string)) 0)
        as [H1 H2]; [lia|]. split; [done|]. eapply Z.lt_le_trans; [exact H2|].
      pose proof (firstn_le_length 8 (sha (Str.strip namespace ++ lock_tail parts)%string)) as Hl.
      change (2 ^ 64) with (256 ^ 8). rewrite Z.mul_1_l. apply Z.pow_le_mono_r; lia. }
    change INT64_SIGN_BIT with (2 ^ 63). change UINT64_MODULUS with (2 ^ 64).
    change (2 ^ 64) with (2 * 2 ^ 63) in *. case_match; lia.
Qed.

End AdvisoryLock.
