(* ===== verification/BatchItems.v ===== *)
(** * Batch items

    [src/batch/repositories/item_repository.py]: the statements that create,
    claim, complete, retry, fail, cancel and requeue the items of a batch.  An
    item is owned through its lease: [locked_by] and the [claim_epoch] that
    every claim increases.  [held] tells which rows other transactions have
    locked ([FOR UPDATE SKIP LOCKED] skips them), [uuid4] numbers the random
    identifiers drawn, and the text [str] gives a request body's model is a
    parameter. *)

From Stdlib Require Import Sorting.Sorted.
From S2P Require Import Prelude PyVal Errors BatchModels BatchDb Scheduling.

Import BatchItemStatus.


Definition unique_violation : exn := plain_exn "unique constraint violated".

(** ** Creation *)

Record BatchItemCreate : Type := mkItemCreate {
  ic_line_number : Z;
  ic_custom_id : string;
  ic_request_body : pyval;
  ic_scheduling_model : option string;
  ic_scheduling_model_group : option string;
  ic_estimated_work_units : Z;
  ic_not_before_at : option Z
}.

Definition MAX_BULK_INSERT_ROWS : nat := 200.

Section create.
Context (json_dumps : pyval -> option string) (py_str_or_empty : pyval -> string) (uuid4 : nat -> string).

(** [(item.request_body or {}).get("model")] as text. *)
Definition body_model (body : pyval) : string :=
  match body with PyDict d => py_str_or_empty (vget d "model") | _ => "" end.

(** [str(getattr(item, ...) or ... or "").strip() or None] *)
Definition or_text (value : option string) (fallback : string) : option string :=
  Dimensions.normalize_optional
    (Some (match value with Some s => if Str.is_empty s then fallback else s | None => fallback end)).

Definition new_item (now : Z) (batch_id item_id : string) (c : BatchItemCreate) : Item.batch_item :=
  let scheduling_model := or_text (ic_scheduling_model c) (body_model (ic_request_body c)) in
  Item.mkItem item_id batch_id (ic_line_number c) (ic_custom_id c) PENDING (ic_request_body c)
    None None None 0%Q 0%Q 0 0 None None None
    scheduling_model
    (or_text (ic_scheduling_model_group c) (default "" scheduling_model))
    (Z.max 1 (if ic_estimated_work_units c =? 0
              then Estimator.estimate_request_work_units json_dumps py_str_or_empty None (ic_request_body c)
              else ic_estimated_work_units c))
    (ic_not_before_at c) None now None None.

(** One row of the INSERT: [ON CONFLICT (batch_id, line_number) DO NOTHING];
    the primary key and [(batch_id, custom_id)] stay enforced. *)
Definition insert_item (r : Item.batch_item) (t : list Item.batch_item) : res exn (list Item.batch_item * Z) :=
  if existsb (fun x => String.eqb (Item.batch_id x) (Item.batch_id r)
                       && (Item.line_number x =? Item.line_number r)) t
  then Ret (t, 0)
  else if existsb (fun x => String.eqb (Item.item_id x) (Item.item_id r)
                            || (String.eqb (Item.batch_id x) (Item.batch_id r)
                                && String.eqb (Item.custom_id x) (Item.custom_id r))) t
  then Raise unique_violation
  else Ret (t ++ [r], 1).

Fixpoint insert_items (rows : list Item.batch_item) (t : list Item.batch_item)
  : res exn (list Item.batch_item * Z) :=
  match rows with
  | [] => Ret (t, 0)
  | r :: rows' =>
      '(t', n) ← insert_item r t;
      '(t'', m) ← insert_items rows' t';
      Ret (t'', n + m)
  end.

(** One INSERT statement; [first] numbers its first row. *)
Definition insert_chunk (now : Z) (batch_id : string) (first : nat) (items : list BatchItemCreate)
  : st db exn Z := fun s =>
  let rows := imap (fun i c => new_item now batch_id (uuid4 (first + i)) c) items in
  match insert_items rows (BatchDb.items s) with
  | Ret (t, n) => (on_items (fun _ => t) s, Ret n)
  | Raise e => (s, Raise e)
  end.

(** [for start in range(0, len(items), 200)]: one statement per slice. *)
Fixpoint insert_chunks (now : Z) (batch_id : string) (starts : list nat) (items : list BatchItemCreate)
  : st db exn Z :=
  match starts with
  | [] => mret 0
  | start :: starts' =>
      n ← insert_chunk now batch_id start (take MAX_BULK_INSERT_ROWS (drop start items));
      m ← insert_chunks now batch_id starts' items;
      mret (n + m)
  end.

Definition chunk_starts (n : nat) : list nat :=
  map (fun k => (k * MAX_BULK_INSERT_ROWS)%nat) (seq 0 ((n + (MAX_BULK_INSERT_ROWS - 1)) / MAX_BULK_INSERT_ROWS)).

Definition create_items (now : Z) (batch_id : string) (items : list BatchItemCreate) : st db exn Z :=
  match items with
  | [] => mret 0
  | _ => insert_chunks now batch_id (chunk_starts (length items)) items
  end.
End create.

(** ** Claiming *)

(** [status = 'pending' AND ... OR (status = 'in_progress' AND lease_expires_at < NOW())] *)
Definition runnable (now : Z) (r : Item.batch_item) : bool :=
  match Item.status r with
  | PENDING => null_or (fun t => t <? now) (Item.lease_expires_at r)
               && null_or (fun t => t <=? now) (Item.not_before_at r)
  | IN_PROGRESS => if_set (fun t => t <? now) (Item.lease_expires_at r)
  | _ => false
  end.

Definition by_line (x y : Item.batch_item) : bool := Item.line_number x <=? Item.line_number y.

Definition claim_row (now : Z) (worker_id : string) (lease_seconds : Z) (r : Item.batch_item) : Item.batch_item :=
  Item.set_status IN_PROGRESS (Item.set_locked_by (Some worker_id)
    (Item.set_lease_expires_at (Some (after_seconds now lease_seconds))
      (Item.set_attempts (Item.attempts r + 1) (Item.set_claim_epoch (Item.claim_epoch r + 1)
        (Item.set_started_at (coalesce (Item.started_at r) (Some now))
          (Item.set_not_before_at None (Item.set_last_scheduled_at (Some now) r))))))).

(** The rows a claim selects, in line order. *)
Definition claim_candidates (now : Z) (held : string -> bool) (batch_id : string) (limit_ : Z)
    (t : list Item.batch_item) : list Item.batch_item :=
  limit (Z.max 1 (Z.min limit_ 200))
    (order_by by_line
      (select_where (fun r => String.eqb (Item.batch_id r) batch_id && runnable now r
                              && negb (held (Item.item_id r))) t)).

(** [i.item_id IN ids] *)
Definition id_in (ids : list string) (r : Item.batch_item) : bool := bool_decide (Item.item_id r ∈ ids).

(** [RETURNING i.*] of [UPDATE ... FROM candidate]. *)
Definition claim_items (now : Z) (held : string -> bool) (batch_id worker_id : string)
    (limit_ lease_seconds : Z) : st db exn (list Item.batch_item) := fun s =>
  let candidate := map Item.item_id (claim_candidates now held batch_id limit_ (items s)) in
  (on_items (update_where (id_in candidate) (claim_row now worker_id lease_seconds)) s,
   Ret (map (claim_row now worker_id lease_seconds) (select_where (id_in candidate) (items s)))).

(** ** Ownership *)

(** [item_id = $1 AND locked_by = $2 AND claim_epoch = $3 AND status = 'in_progress'] *)
Definition owned (item_id worker_id : string) (claim_epoch : Z) (r : Item.batch_item) : bool :=
  String.eqb (Item.item_id r) item_id && sql_eq (Item.locked_by r) worker_id
  && (Item.claim_epoch r =? claim_epoch) && bool_decide (Item.status r = IN_PROGRESS).

(** An UPDATE and whether it returned rows. *)
Definition update_items (p : Item.batch_item -> bool) (f : Item.batch_item -> Item.batch_item)
  : st db exn (list string) := fun s =>
  (on_items (update_where p f) s, Ret (map Item.item_id (select_where p (items s)))).

Definition any_row {A} (rows : list A) : bool := match rows with [] => false | _ => true end.

(** ** Completion *)

(** The columns a completion writes. *)
Record completion : Type := mkCompletion {
  cm_item_id : string;
  cm_claim_epoch : option Z;
  cm_response_body : pyval;
  cm_usage : option pyval;
  cm_provider_cost : Q;
  cm_billed_cost : Q
}.

Definition complete_row (now : Z) (c : completion) (r : Item.batch_item) : Item.batch_item :=
  Item.set_status COMPLETED (Item.set_response_body (Some (cm_response_body c))
    (Item.set_usage (Some (default (PyDict []) (cm_usage c)))
      (Item.set_provider_cost (cm_provider_cost c) (Item.set_billed_cost (cm_billed_cost c)
        (Item.set_lease_expires_at None (Item.set_not_before_at None
          (Item.set_locked_by None (Item.set_completed_at (Some now) r)))))))).

Definition mark_item_completed (now : Z) (worker_id : option string) (c : completion) : st db exn bool :=
  match worker_id, cm_claim_epoch c with
  | Some w, Some e =>
      rows ← update_items (owned (cm_item_id c) w e) (complete_row now c); mret (any_row rows)
  | _, _ => mret false
  end.

(** [SELECT ... FROM payload p WHERE p.item_id = ...], its first row. *)
Definition payload_for (item_id : string) (payload : list completion) : option completion :=
  List.find (fun c => String.eqb (cm_item_id c) item_id) payload.

(** The rows [candidate] joins: one per row and matching payload entry. *)
Definition bulk_candidates (held : string -> bool) (worker_id : string) (payload : list completion)
    (t : list Item.batch_item) : list Item.batch_item :=
  flat_map (fun r =>
    map (fun _ => r)
      (List.filter (fun c => match cm_claim_epoch c with
                             | Some e => owned (cm_item_id c) worker_id e r && negb (held (Item.item_id r))
                             | None => false
                             end) payload)) t.

Definition complete_from (now : Z) (payload : list completion) (r : Item.batch_item) : Item.batch_item :=
  match payload_for (Item.item_id r) payload with Some c => complete_row now c r | None => r end.

(** All of the items or none: the update runs only when every one is eligible. *)
Definition mark_items_completed_bulk (now : Z) (held : string -> bool) (payload : list completion)
    (worker_id : option string) : st db exn bool :=
  match payload, worker_id with
  | [], _ => mret true
  | _, None => mret false
  | _, Some w =>
      if existsb (fun c => match cm_claim_epoch c with None => true | Some _ => false end) payload
      then mret false
      else fun s =>
        let candidate := bulk_candidates held w payload (items s) in
        let eligible := Nat.eqb (length candidate) (length payload) in
        (rows ← update_items (fun r => eligible && id_in (map Item.item_id candidate) r) (complete_from now payload);
         mret (Nat.eqb (length rows) (length payload))) s
  end.

(** ** Retrying and failing *)

(** The guard on the job: retries must come before the batch expires. *)
Definition before_expiry (now delay : Z) (s : db) (r : Item.batch_item) : bool :=
  match job_row (Item.batch_id r) s with
  | Some j => null_or (fun t => after_seconds now delay <? t) (Job.expires_at j)
  | None => false
  end.

Definition retry_row (delayed_until : option Z) (error_body : option pyval) (last_error : option string)
    (r : Item.batch_item) : Item.batch_item :=
  Item.set_status PENDING (Item.set_lease_expires_at delayed_until (Item.set_not_before_at delayed_until
    (Item.set_locked_by None (Item.set_error_body (coalesce error_body (Item.error_body r))
      (Item.set_last_error (coalesce last_error (Item.last_error r)) r))))).

Definition owned_any (epochs : gmap string Z) (item_ids : list string) (worker_id : string)
    (r : Item.batch_item) : bool :=
  id_in item_ids r && match epochs !! Item.item_id r with
                      | Some e => owned (Item.item_id r) worker_id e r
                      | None => false
                      end.

Definition release_items_for_retry (now : Z) (item_ids : list string) (worker_id : string)
    (retry_delay_seconds : Z) (error_body : option pyval) (last_error : option string)
    (item_claim_epochs : option (gmap string Z)) : st db exn (list string) :=
  match item_ids, item_claim_epochs with
  | [], _ | _, None => mret []
  | _, Some epochs =>
      if existsb (fun i => match epochs !! i with None => true | Some _ => false end) item_ids then mret []
      else fun s =>
        let delay := Z.max 0 retry_delay_seconds in
        let delayed_until := if delay >? 0 then Some (after_seconds now delay) else None in
        update_items (fun r => owned_any epochs item_ids worker_id r && before_expiry now delay s r)
          (retry_row delayed_until error_body last_error) s
  end.

Definition fail_row (now : Z) (error_body : pyval) (last_error : string) (r : Item.batch_item) : Item.batch_item :=
  Item.set_status FAILED (Item.set_error_body (Some error_body) (Item.set_last_error (Some last_error)
    (Item.set_lease_expires_at None (Item.set_not_before_at None
      (Item.set_locked_by None (Item.set_completed_at (Some now) r)))))).

Definition mark_item_failed (now : Z) (item_id : string) (worker_id : option string) (error_body : pyval)
    (last_error : string) (retryable : bool) (retry_delay_seconds : Z) (claim_epoch : option Z)
  : st db exn bool :=
  match worker_id, claim_epoch with
  | Some w, Some e => fun s =>
      if retryable then
        let delay := Z.max 0 retry_delay_seconds in
        (rows ← update_items (fun r => owned item_id w e r && before_expiry now delay s r)
                  (retry_row (Some (after_seconds now delay)) (Some error_body) (Some last_error));
         mret (any_row rows)) s
      else
        (rows ← update_items (owned item_id w e) (fail_row now error_body last_error);
         mret (any_row rows)) s
  | _, _ => mret false
  end.

Definition renew_item_lease (now : Z) (item_id worker_id : string) (lease_seconds : Z)
    (claim_epoch : option Z) : st db exn bool :=
  rows ← update_items
           (fun r => match claim_epoch with Some e => owned item_id worker_id e r | None => false end)
           (Item.set_lease_expires_at (Some (after_seconds now lease_seconds)));
  mret (any_row rows).

(** ** Cancelling, releasing, requeueing *)

Definition in_batch (batch_id : string) (r : Item.batch_item) : bool := String.eqb (Item.batch_id r) batch_id.

Definition cancel_row (now : Z) (r : Item.batch_item) : Item.batch_item :=
  Item.set_status CANCELLED (Item.set_lease_expires_at None (Item.set_not_before_at None
    (Item.set_locked_by None (Item.set_completed_at (Some now) r)))).

Definition mark_pending_items_cancelled (now : Z) (batch_id : string) : st db exn unit :=
  _ ← update_items (fun r => in_batch batch_id r && bool_decide (Item.status r = PENDING)) (cancel_row now);
  mret tt.

(** The row back in the queue, without lease or delay. *)
Definition requeue_row (r : Item.batch_item) : Item.batch_item :=
  Item.set_status PENDING (Item.set_locked_by None
    (Item.set_lease_expires_at None (Item.set_not_before_at None r))).

Definition release_claim_items (item_ids : list string) (worker_id : string) : st db exn Z :=
  match item_ids with
  | [] => mret 0
  | _ =>
      rows ← update_items (fun r => id_in item_ids r && sql_eq (Item.locked_by r) worker_id
                                    && bool_decide (Item.status r = IN_PROGRESS)) requeue_row;
      mret (Z.of_nat (length rows))
  end.

Definition expired_in_progress (now : Z) (r : Item.batch_item) : bool :=
  bool_decide (Item.status r = IN_PROGRESS) && if_set (fun t => t <? now) (Item.lease_expires_at r).

Definition requeue_expired_in_progress_items (now : Z) (batch_id : string) : st db exn Z :=
  rows ← update_items (fun r => in_batch batch_id r && expired_in_progress now r) requeue_row;
  mret (Z.of_nat (length rows)).

Definition operator_failed_payload (reason : string) : pyval :=
  PyDict [("message", PyStr reason); ("type", PyStr "OperatorFailed")].

Definition fail_nonterminal_items (now : Z) (batch_id reason : string) : st db exn Z :=
  rows ← update_items (fun r => in_batch batch_id r && negb (terminal_item (Item.status r)))
           (fail_row now (operator_failed_payload reason) reason);
  mret (Z.of_nat (length rows)).

(** ** Reading *)

Definition list_items (batch_id : string) (s : db) : list Item.batch_item :=
  order_by by_line (select_where (in_batch batch_id) (items s)).

Definition list_items_by_ids (item_ids : list string) (s : db) : list Item.batch_item :=
  match item_ids with
  | [] => []
  | _ => order_by by_line
           (flat_map (fun r => map (fun _ => r) (List.filter (String.eqb (Item.item_id r)) item_ids)) (items s))
  end.

Definition list_items_page (batch_id : string) (limit_ : Z) (after_line_number : option Z) (s : db)
  : list Item.batch_item :=
  limit (Z.max 1 (Z.min limit_ 5000))
    (order_by by_line
      (select_where (fun r => in_batch batch_id r
                              && match after_line_number with Some n => n <? Item.line_number r | None => true end)
        (items s))).

Record runtime_summary : Type := mkRuntimeSummary {
  rs_pending_items : Z;
  rs_in_progress_items : Z;
  rs_oldest_pending_age : Z;        (* microseconds *)
  rs_oldest_in_progress_age : Z
}.

(** [MIN(CASE WHEN status = k THEN f END)] *)
Definition min_where (k : item_status) (f : Item.batch_item -> Z) (t : list Item.batch_item) : option Z :=
  foldr (fun r acc => if bool_decide (Item.status r = k)
                      then Some (match acc with Some m => Z.min (f r) m | None => f r end) else acc) None t.

Definition summarize_runtime_statuses (now : Z) (s : db) : runtime_summary :=
  let age o := match o with Some t => now - t | None => 0 end in
  let has k := fun r => bool_decide (Item.status r = k) in
  {| rs_pending_items := cnt (has PENDING) (items s);
     rs_in_progress_items := cnt (has IN_PROGRESS) (items s);
     rs_oldest_pending_age := age (min_where PENDING Item.created_at (items s));
     rs_oldest_in_progress_age :=
       age (min_where IN_PROGRESS (fun r => default (Item.created_at r) (Item.started_at r)) (items s)) |}.

(** ** The stale-lease sweep of items
    [_requeue_expired_item_leases] of maintenance_repository.py. *)

(** [ORDER BY lease_expires_at ASC, item_id ASC]; the order of texts is the
    database's collation, here that of the character codes. *)
Definition by_lease (x y : Item.batch_item) : bool :=
  let lx := default 0 (Item.lease_expires_at x) in
  let ly := default 0 (Item.lease_expires_at y) in
  (lx <? ly) || ((lx =? ly) && String.leb (Item.item_id x) (Item.item_id y)).

Definition job_active (s : db) (batch_id : string) : bool :=
  match job_row batch_id s with
  | Some j => match Job.status j with
              | BatchJobStatus.QUEUED | BatchJobStatus.IN_PROGRESS | BatchJobStatus.FINALIZING => true
              | _ => false
              end
  | None => false
  end.

Definition sweepable (now : Z) (s : db) (r : Item.batch_item) : bool :=
  job_active s (Item.batch_id r) && expired_in_progress now r
  && match Item.locked_by r with Some _ => true | None => false end.

(** The number of requeued items and the batches they belong to. *)
Definition requeue_expired_item_leases (now : Z) (held : string -> bool) (limit_ : Z)
  : st db exn (Z * list string) := fun s =>
  let candidate := map Item.item_id
    (limit limit_ (order_by by_lease
      (select_where (fun r => sweepable now s r && negb (held (Item.item_id r))) (items s)))) in
  let p r := id_in candidate r && sweepable now s r in
  let updated := select_where p (items s) in
  (on_items (update_where p requeue_row) s,
   Ret (Z.of_nat (length updated),
        remove_dups (List.filter (fun b => negb (Str.is_empty b)) (map Item.batch_id updated)))).

(** ** The life of an item: what one statement may do to one row *)

Inductive row_step : Item.batch_item -> Item.batch_item -> Prop :=
  | step_claim now worker lease r :
      runnable now r = true -> row_step r (claim_row now worker lease r)
  | step_renew until worker epoch r :
      owned (Item.item_id r) worker epoch r = true -> row_step r (Item.set_lease_expires_at (Some until) r)
  | step_complete now c worker epoch r :
      owned (Item.item_id r) worker epoch r = true -> row_step r (complete_row now c r)
  | step_retry until error_body last_error worker epoch r :
      owned (Item.item_id r) worker epoch r = true -> row_step r (retry_row until error_body last_error r)
  | step_fail now error_body last_error r :
      terminal_item (Item.status r) = false -> row_step r (fail_row now error_body last_error r)
  | step_cancel now r :
      Item.status r = PENDING -> row_step r (cancel_row now r)
  | step_requeue r :
      Item.status r = IN_PROGRESS -> row_step r (requeue_row r).

(** A row as [create_items] makes it. *)
Definition fresh_row (r : Item.batch_item) : Prop :=
  Item.status r = PENDING /\ Item.attempts r = 0 /\ Item.claim_epoch r = 0 /\
  Item.locked_by r = None /\ Item.lease_expires_at r = None /\ 1 <= Item.estimated_work_units r.

(** The three uniqueness constraints of the table. *)
Definition unique_keys (t : list Item.batch_item) : Prop :=
  NoDup (map Item.item_id t) /\
  NoDup (map (fun r => (Item.batch_id r, Item.line_number r)) t) /\
  NoDup (map (fun r => (Item.batch_id r, Item.custom_id r)) t).

(** One statement: each row takes at most one step, new rows are fresh, the
    constraints keep holding. *)
Definition items_step (s s' : db) : Prop :=
  unique_keys (items s) ->
  unique_keys (items s') /\
  exists f new,
    items s' = map f (items s) ++ new /\
    (forall r, r ∈ items s -> f r = r \/ row_step r (f r)) /\
    Forall fresh_row new.

(** *** What every step keeps *)

Definition row_id (r : Item.batch_item) := (Item.item_id r, Item.batch_id r, Item.line_number r, Item.custom_id r).

Lemma row_step_id r r' : row_step r r' -> row_id r' = row_id r.
Proof. by destruct 1. Qed.

Lemma map_step_id f t :
  (forall r, r ∈ t -> f r = r \/ row_step r (f r)) -> Forall (fun r => row_id (f r) = row_id r) t.
Proof.
  rewrite Forall_forall. intros H r Hr. destruct (H r Hr) as [->|Hs]; [done|by apply row_step_id].
Qed.

Lemma owned_spec id w e r :
  owned id w e r = true <->
  Item.item_id r = id /\ Item.locked_by r = Some w /\ Item.claim_epoch r = e /\ Item.status r = IN_PROGRESS.
Proof.
  unfold owned, sql_eq, if_set. rewrite !andb_true_iff, String.eqb_eq, Z.eqb_eq, bool_decide_eq_true.
  destruct (Item.locked_by r) as [w'|]; [rewrite String.eqb_eq|]; naive_solver.
Qed.

(** The claim epoch counts claims; only a claim increases it. *)
Lemma row_step_epoch r r' :
  row_step r r' ->
  Item.claim_epoch r <= Item.claim_epoch r' /\
  (Item.claim_epoch r' = Item.claim_epoch r \/
   Item.claim_epoch r' = Item.claim_epoch r + 1 /\ Item.status r' = IN_PROGRESS).
Proof. destruct 1; simpl; (split; [lia|]); (by left) || (by right). Qed.

(** Nothing moves a finished item. *)
Lemma row_step_terminal r r' : row_step r r' -> terminal_item (Item.status r) = false.
Proof.
  destruct 1 as [now w l r H|u w e r H|now c w e r H|u eb le w e r H|now eb le r H|now r H|r H];
    try (apply owned_spec in H as (_ & _ & _ & ->); done); try (by rewrite H).
  unfold runnable in H. by destruct (Item.status r).
Qed.

(** *** Statements are steps *)

Lemma unique_keys_map f t :
  Forall (fun r => row_id (f r) = row_id r) t -> unique_keys t -> unique_keys (map f t).
Proof.
  rewrite Forall_forall. intros Hk (H1 & H2 & H3). unfold unique_keys. rewrite !map_map.
  assert (Hx : forall A (g : Item.batch_item -> A) (h : string * string * Z * string -> A),
             (forall r, g r = h (row_id r)) -> map (fun r => g (f r)) t = map g t).
  { intros A g h Hg. apply map_ext_in. intros r Hr%list_elem_of_In. by rewrite !Hg, Hk. }
  split_and!.
  - erewrite (Hx _ Item.item_id (fun '(i, _, _, _) => i)); [exact H1|done].
  - erewrite (Hx _ (fun r => (Item.batch_id r, Item.line_number r)) (fun '(_, b, l, _) => (b, l))); [exact H2|done].
  - erewrite (Hx _ (fun r => (Item.batch_id r, Item.custom_id r)) (fun '(_, b, _, c) => (b, c))); [exact H3|done].
Qed.

Lemma update_is_step p f s :
  (unique_keys (items s) -> forall r, r ∈ items s -> p r = true -> row_step r (f r)) ->
  items_step s (on_items (update_where p f) s).
Proof.
  intros H Hu. specialize (H Hu).
  assert (Hr : forall r, r ∈ items s ->
    (if p r then f r else r) = r \/ row_step r (if p r then f r else r)).
  { intros r Hr. destruct (p r) eqn:E; auto. }
  split.
  - apply unique_keys_map; [|done]. by apply map_step_id.
  - exists (fun r => if p r then f r else r), []. split_and!; [by rewrite app_nil_r|done|constructor].
Qed.

Lemma items_step_same s s' : items s' = items s -> items_step s s'.
Proof.
  intros E Hu. rewrite E. split; [done|]. exists id, []. rewrite map_id, app_nil_r. split_and!; auto.
Qed.

(** Selecting by the key of a row selects the row. *)
Lemma id_in_elem t l r :
  unique_keys t -> (forall x, x ∈ l -> x ∈ t) -> r ∈ t -> id_in (map Item.item_id l) r = true -> r ∈ l.
Proof.
  intros (Hn & _) Hl Hr Hin. apply bool_decide_eq_true, list_elem_of_fmap in Hin as (x & Hx & Hxl).
  by rewrite (NoDup_map_inj Item.item_id t r x Hn Hr (Hl x Hxl) Hx).
Qed.

Lemma limit_elem {R} n (t : list R) r : r ∈ limit n t -> r ∈ t.
Proof. apply sublist_elem, sublist_take. Qed.

Lemma claim_candidate_runnable now held b n t r :
  r ∈ claim_candidates now held b n t ->
  r ∈ t /\ Item.batch_id r = b /\ runnable now r = true /\ held (Item.item_id r) = false.
Proof.
  intros H%limit_elem. rewrite order_by_perm in H. apply elem_select in H as [Hr H].
  rewrite !andb_true_iff, negb_true_iff, String.eqb_eq in H. naive_solver.
Qed.

Lemma insert_items_spec rows t t' n :
  insert_items rows t = Ret (t', n) ->
  exists new, t' = t ++ new /\ sublist new rows /\ n = Z.of_nat (length new) /\
              (unique_keys t -> unique_keys t').
Proof.
  revert t t' n. induction rows as [|r rows IH]; intros t t' n H; simpl in H.
  { simplify_eq. exists []. rewrite app_nil_r. split_and!; [done|constructor|done|done]. }
  apply res_bind_ret in H as ([t1 n1] & H1 & H). apply res_bind_ret in H as ([t2 n2] & H2 & H).
  apply ret_inj in H. simplify_eq. destruct (IH _ _ _ H2) as (new & -> & Hs & -> & Hu).
  unfold insert_item in H1. destruct (existsb _ t) eqn:E1 in H1; simplify_eq.
  { exists new. split_and!; [done|by constructor|lia|done]. }
  destruct (existsb _ t) eqn:E2 in H1; simplify_eq.
  exists (r :: new). split_and!; [by rewrite <- app_assoc|by constructor|simpl; lia|].
  intros (U1 & U2 & U3). apply Hu. clear Hu IH H2.
  assert (Hno : forall x, x ∈ t ->
    ~ (Item.batch_id x = Item.batch_id r /\ Item.line_number x = Item.line_number r) /\
    Item.item_id x <> Item.item_id r /\
    ~ (Item.batch_id x = Item.batch_id r /\ Item.custom_id x = Item.custom_id r)).
  { intros x Hx. rewrite list_elem_of_In in Hx.
    rewrite <- not_true_iff_false, existsb_exists in E1, E2.
    split_and!; intros ?; [apply E1|apply E2|apply E2]; exists x; (split; [done|]);
      rewrite ?orb_true_iff, ?andb_true_iff, ?String.eqb_eq, ?Z.eqb_eq; tauto. }
  unfold unique_keys. rewrite !map_app. cbn [map]. split_and!; apply NoDup_app; (split; [assumption|]);
    (split; [|apply NoDup_singleton]); intros k (x & -> & Hx)%list_elem_of_fmap;
    rewrite list_elem_of_singleton; intros Hk; destruct (Hno x Hx) as (N1 & N2 & N3); simplify_eq; tauto.
Qed.

Lemma new_item_fresh json_dumps py_str now b i c : fresh_row (new_item json_dumps py_str now b i c).
Proof. unfold fresh_row. simpl. split_and!; (reflexivity || lia). Qed.

Lemma insert_chunk_step json_dumps py_str uuid4 now b first l s :
  items_step s (fst (insert_chunk json_dumps py_str uuid4 now b first l s)).
Proof.
  unfold insert_chunk. destruct (insert_items _ (items s)) as [[t n]|e] eqn:E; [|by apply items_step_same].
  apply insert_items_spec in E as (new & -> & Hs & _ & Hu). intros U. split; [by apply Hu|].
  exists id, new. rewrite map_id. split_and!; [done|by left|].
  apply Forall_forall. intros r Hr. pose proof (sublist_elem _ _ _ Hs Hr) as Hr'.
  apply elem_of_lookup_imap in Hr' as (i & c & -> & _). apply new_item_fresh.
Qed.

Section life.
Context (json_dumps : pyval -> option string) (py_str : pyval -> string).

(** The statements of the repository that write items, with their arguments. *)
Inductive item_op : Type :=
  | OpCreate (now : Z) (batch_id : string) (uuid4 : nat -> string) (l : list BatchItemCreate)
  | OpClaim (now : Z) (held : string -> bool) (batch_id worker_id : string) (limit_ lease : Z)
  | OpComplete (now : Z) (worker_id : option string) (c : completion)
  | OpCompleteBulk (now : Z) (held : string -> bool) (payload : list completion) (worker_id : option string)
  | OpReleaseForRetry (now : Z) (ids : list string) (worker_id : string) (delay : Z)
      (error_body : option pyval) (last_error : option string) (epochs : option (gmap string Z))
  | OpFail (now : Z) (id : string) (worker_id : option string) (error_body : pyval) (last_error : string)
      (retryable : bool) (delay : Z) (epoch : option Z)
  | OpRenew (now : Z) (id worker_id : string) (lease : Z) (epoch : option Z)
  | OpCancelPending (now : Z) (batch_id : string)
  | OpReleaseClaim (ids : list string) (worker_id : string)
  | OpRequeueExpired (now : Z) (batch_id : string)
  | OpFailNonterminal (now : Z) (batch_id reason : string)
  | OpSweep (now : Z) (held : string -> bool) (limit_ : Z).

Definition run_item_op (op : item_op) (s : db) : db :=
  match op with
  | OpCreate now b uuid4 l => fst (create_items json_dumps py_str uuid4 now b l s)
  | OpClaim now held b w n lease => fst (claim_items now held b w n lease s)
  | OpComplete now w c => fst (mark_item_completed now w c s)
  | OpCompleteBulk now held payload w => fst (mark_items_completed_bulk now held payload w s)
  | OpReleaseForRetry now ids w delay eb le epochs => fst (release_items_for_retry now ids w delay eb le epochs s)
  | OpFail now i w eb le retryable delay e => fst (mark_item_failed now i w eb le retryable delay e s)
  | OpRenew now i w lease e => fst (renew_item_lease now i w lease e s)
  | OpCancelPending now b => fst (mark_pending_items_cancelled now b s)
  | OpReleaseClaim ids w => fst (release_claim_items ids w s)
  | OpRequeueExpired now b => fst (requeue_expired_in_progress_items now b s)
  | OpFailNonterminal now b reason => fst (fail_nonterminal_items now b reason s)
  | OpSweep now held n => fst (requeue_expired_item_leases now held n s)
  end.

Definition run_item_ops (ops : list item_op) (s : db) : db := fold_left (fun s op => run_item_op op s) ops s.

Lemma create_items_steps uuid4 now b l s :
  rtc items_step s (fst (create_items json_dumps py_str uuid4 now b l s)).
Proof.
  unfold create_items. destruct l as [|c l]; [constructor|].
  generalize (chunk_starts (length (c :: l))). intros starts. revert s.
  induction starts as [|k starts IH]; intros s; [constructor|]. cbn [insert_chunks].
  pose proof (insert_chunk_step json_dumps py_str uuid4 now b k (take MAX_BULK_INSERT_ROWS (drop k (c :: l))) s) as H.
  unfold mbind, st_bind. destruct (insert_chunk _ _ _ _ _ _ _ s) as [s1 [n|e]] eqn:E; cbn [fst] in *;
    [|by apply rtc_once].
  eapply rtc_l; [exact H|]. specialize (IH s1). by destruct (insert_chunks _ _ _ _ _ _ _ s1) as [s2 [m|e]].
Qed.

Lemma claim_items_step now held b w n lease s : items_step s (fst (claim_items now held b w n lease s)).
Proof.
  apply update_is_step. intros U r Hr Hin. apply step_claim.
  eapply id_in_elem in Hin; [|exact U| |exact Hr]; [by eapply claim_candidate_runnable|].
  intros x Hx. by eapply claim_candidate_runnable.
Qed.

Lemma bulk_candidate_owned held w payload t r :
  r ∈ bulk_candidates held w payload t ->
  r ∈ t /\ exists c e, c ∈ payload /\ cm_claim_epoch c = Some e /\ owned (cm_item_id c) w e r = true
                      /\ held (Item.item_id r) = false.
Proof.
  rewrite list_elem_of_In. unfold bulk_candidates. rewrite in_flat_map.
  intros (x & Hx & (c & <- & Hc)%in_map_iff). apply filter_In in Hc as [Hc H].
  apply list_elem_of_In in Hx. apply list_elem_of_In in Hc. destruct (cm_claim_epoch c) as [e|] eqn:Ee; [|done].
  apply andb_true_iff in H as [H Hh%negb_true_iff]. split; [done|]. exists c, e. done.
Qed.

Lemma payload_for_some id payload c : c ∈ payload -> cm_item_id c = id -> exists c', payload_for id payload = Some c'.
Proof.
  intros Hc Hid. unfold payload_for. destruct (List.find _ payload) eqn:E; [eauto|].
  apply (find_none_forall _ _ _ E) in Hc. by rewrite Hid, String.eqb_refl in Hc.
Qed.

Lemma bulk_is_step now held payload w s : items_step s (fst (mark_items_completed_bulk now held payload w s)).
Proof.
  unfold mark_items_completed_bulk. destruct payload as [|c0 payload]; [by apply items_step_same|].
  destruct w as [w|]; [|by apply items_step_same]. case_match; [by apply items_step_same|].
  apply update_is_step. intros U r Hr [_ Hin]%andb_true_iff.
  eapply id_in_elem in Hin; [|exact U| |exact Hr]; [|intros x Hx; by eapply bulk_candidate_owned].
  apply bulk_candidate_owned in Hin as (_ & c & e & Hc & _ & Ho & _).
  pose proof Ho as (Hid & _)%owned_spec. unfold complete_from.
  destruct (payload_for_some (Item.item_id r) (c0 :: payload) c) as [c' ->]; [done|congruence|].
  apply (step_complete _ _ w e). by rewrite Hid.
Qed.

Lemma owned_self id w e r : owned id w e r = true -> owned (Item.item_id r) w e r = true.
Proof. intros H. pose proof H as (-> & _)%owned_spec. done. Qed.

(** Every operation is a sequence of such steps; all but the chunked creation
    are a single one. *)
(** Only creation adds rows. *)
Definition creates (op : item_op) : bool := match op with OpCreate _ _ _ _ => true | _ => false end.

(** Every other operation is one statement. *)
Lemma run_item_op_step op s : creates op = false -> items_step s (run_item_op op s).
Proof.
  destruct op; cbn [run_item_op creates]; intros Hc; [discriminate Hc|..]; clear Hc.
  - apply claim_items_step.
  - unfold mark_item_completed. destruct worker_id as [w|]; [|by apply items_step_same].
    destruct (cm_claim_epoch c) as [e|]; [|by apply items_step_same].
    apply update_is_step. intros _ r _ H. eapply step_complete, owned_self, H.
  - apply bulk_is_step.
  - unfold release_items_for_retry. destruct ids as [|i ids]; [by apply items_step_same|].
    destruct epochs as [epochs|]; [|by apply items_step_same]. case_match; [by apply items_step_same|].
    apply update_is_step. intros _ r _ [Ho _]%andb_true_iff. apply andb_true_iff in Ho as [_ Ho].
    destruct (epochs !! Item.item_id r) as [e|]; [|done]. eapply step_retry, Ho.
  - unfold mark_item_failed. destruct worker_id as [w|]; [|by apply items_step_same].
    destruct epoch as [e|]; [|by apply items_step_same]. destruct retryable; apply update_is_step; intros _ r _ H.
    + apply andb_true_iff in H as [H _]. eapply step_retry, owned_self, H.
    + apply step_fail. by apply owned_spec in H as (_ & _ & _ & ->).
  - apply update_is_step. intros _ r _ H. destruct epoch as [e|]; [|done]. eapply step_renew, owned_self, H.
  - apply update_is_step. intros _ r _ [_ H]%andb_true_iff. by apply step_cancel, (bool_decide_eq_true_1 _).
  - unfold release_claim_items. destruct ids as [|i ids]; [by apply items_step_same|].
    apply update_is_step. intros _ r _ [_ H]%andb_true_iff. by apply step_requeue, (bool_decide_eq_true_1 _).
  - apply update_is_step. intros _ r _ H. apply step_requeue.
    unfold expired_in_progress in H. rewrite !andb_true_iff, bool_decide_eq_true in H. tauto.
  - apply update_is_step. intros _ r _ [_ H]%andb_true_iff. by apply step_fail, negb_true_iff.
  - apply update_is_step. intros _ r _ [_ H]%andb_true_iff. apply step_requeue.
    unfold sweepable, expired_in_progress in H. rewrite !andb_true_iff, bool_decide_eq_true in H. tauto.
Qed.

Lemma run_item_op_steps op s : rtc items_step s (run_item_op op s).
Proof.
  destruct (creates op) eqn:E; [|by apply rtc_once, run_item_op_step].
  destruct op; try discriminate E. apply create_items_steps.
Qed.

(** Its shape: an update of the item table and nothing else. *)
Lemma run_item_op_shape op s :
  creates op = false ->
  run_item_op op s = s \/ exists p f, run_item_op op s = on_items (update_where p f) s.
Proof.
  destruct op; cbn [run_item_op creates]; intros Hc; [discriminate Hc|..]; clear Hc;
    unfold claim_items, mark_item_completed, mark_items_completed_bulk, release_items_for_retry, mark_item_failed,
      renew_item_lease, mark_pending_items_cancelled, release_claim_items, requeue_expired_in_progress_items,
      fail_nonterminal_items, requeue_expired_item_leases;
    repeat case_match; (by left) || (right; do 2 eexists; reflexivity).
Qed.

Lemma run_item_ops_steps ops s : rtc items_step s (run_item_ops ops s).
Proof.
  revert s. induction ops as [|op ops IH]; intros s; [constructor|].
  etransitivity; [apply run_item_op_steps|apply IH].
Qed.

(** Statements on the items, each on the job table that other statements have
    left: the ones that ask for a live job read it. *)
Definition run_among_jobs (ops : list (list Job.batch_job * item_op)) (s : db) : db :=
  fold_left (fun s o => run_item_op o.2 (on_jobs (fun _ => o.1) s)) ops s.

Lemma run_among_jobs_steps ops s : rtc items_step s (run_among_jobs ops s).
Proof.
  revert s. induction ops as [|[t op] ops IH]; intros s; [constructor|].
  eapply rtc_l; [by apply (items_step_same s (on_jobs (fun _ => t) s))|].
  etransitivity; [apply (run_item_op_steps op)|apply IH].
Qed.

End life.

(** ** Following one row *)

Lemma items_step_row s s' id r :
  unique_keys (items s) -> items_step s s' -> item_row id s = Some r ->
  exists r', item_row id s' = Some r' /\ (r' = r \/ row_step r r').
Proof.
  intros U H Hr. destruct (H U) as ((U' & _) & f & new & E & Hf & _).
  apply row_at_key in Hr as [Hr <-]. exists (f r). split; [|by apply Hf].
  replace (Item.item_id r) with (Item.item_id (f r)).
  - apply row_at_elem; [done|]. rewrite E. apply elem_of_app. left. by apply list_elem_of_fmap_2.
  - destruct (Hf r Hr) as [->|Hs]; [done|]. apply row_step_id in Hs. unfold row_id in Hs. congruence.
Qed.

Lemma items_steps_unique s s' : rtc items_step s s' -> unique_keys (items s) -> unique_keys (items s').
Proof. induction 1 as [|s1 s2 s3 H _ IH]; [done|]. intros U. by apply IH, H. Qed.

(** A property of rows kept by every step is kept by every history. *)
Lemma items_steps_row (P : Item.batch_item -> Prop) s s' id r :
  (forall r r', P r -> row_step r r' -> P r') ->
  rtc items_step s s' -> unique_keys (items s) -> item_row id s = Some r -> P r ->
  exists r', item_row id s' = Some r' /\ P r'.
Proof.
  intros HP Hs. revert r. induction Hs as [s|s1 s2 s3 H _ IH]; intros r U Hr Pr; [eauto|].
  destruct (items_step_row _ _ _ _ U H Hr) as (r' & Hr' & Hrr).
  apply (IH r'); [by apply H|done|]. destruct Hrr as [->|Hrr]; eauto.
Qed.

Lemma items_steps_forall (P : Item.batch_item -> Prop) s s' :
  (forall r r', P r -> row_step r r' -> P r') -> (forall r, fresh_row r -> P r) ->
  rtc items_step s s' -> unique_keys (items s) -> Forall P (items s) -> Forall P (items s').
Proof.
  intros HP Hn Hs. induction Hs as [s|s1 s2 s3 H _ IH]; [done|]. intros U Hall.
  destruct (H U) as (U' & f & new & E & Hf & Hnew). apply IH; [done|]. rewrite E, Forall_app. split.
  - rewrite Forall_forall in *. intros r (r0 & -> & Hr0)%list_elem_of_fmap.
    destruct (Hf r0 Hr0) as [->|Hstep]; eauto.
  - eapply Forall_impl; [exact Hnew|]. auto.
Qed.

(** ** Well-formed rows *)

Definition row_ok (r : Item.batch_item) : Prop :=
  Item.attempts r = Item.claim_epoch r /\ 0 <= Item.claim_epoch r /\ 1 <= Item.estimated_work_units r /\
  match Item.status r with
  | PENDING => Item.locked_by r = None
  | IN_PROGRESS =>
      is_Some (Item.locked_by r) /\ is_Some (Item.lease_expires_at r) /\ is_Some (Item.started_at r) /\
      Item.not_before_at r = None /\ 1 <= Item.claim_epoch r
  | _ =>
      Item.locked_by r = None /\ Item.lease_expires_at r = None /\ Item.not_before_at r = None /\
      is_Some (Item.completed_at r)
  end.

Lemma row_ok_step r r' : row_ok r -> row_step r r' -> row_ok r'.
Proof.
  intros (Ha & He & Hw & Hst) Hs.
  destruct Hs as [now w l r H|u w e r H|now c w e r H|u eb le w e r H|now eb le r H|now r H|r H];
    unfold row_ok; simpl; rewrite ?Ha; try (by split_and!; (lia || done || eauto)).
  - split_and!; try (lia || done || eauto). by destruct (Item.started_at r); eexists.
  - apply owned_spec in H as (_ & _ & _ & Hp). rewrite Hp in *. split_and!; try done; tauto || eauto.
Qed.

Lemma fresh_row_ok r : fresh_row r -> row_ok r.
Proof. unfold fresh_row, row_ok. intros (-> & -> & -> & -> & _ & ?). done || lia. Qed.

Definition items_ok (s : db) : Prop := unique_keys (items s) /\ Forall row_ok (items s).

Lemma items_ok_steps s s' : rtc items_step s s' -> items_ok s -> items_ok s'.
Proof.
  intros Hs [U H]. split; [by eapply items_steps_unique|].
  eapply items_steps_forall; eauto using row_ok_step, fresh_row_ok.
Qed.

Lemma items_ok_empty : items_ok empty_db.
Proof. split; [split_and!; constructor|constructor]. Qed.

(** C36: The item table is well typed in every reachable state: whatever
    sequence of statements ran on the empty table, with any arguments, clocks
    and locked rows, and whatever the job table held in between, ids and line numbers stay unique, an item in progress has
    an owner, a lease and a claim, a pending one has no owner, a finished one
    has neither owner, lease nor delay and has its completion time, and the
    attempts counter is the number of claims. *)
Theorem item_rows_well_formed json_dumps py_str ops :
  items_ok (run_among_jobs json_dumps py_str ops empty_db).
Proof. eapply items_ok_steps; [apply run_among_jobs_steps|apply items_ok_empty]. Qed.

(** A finished item never changes again: once completed, failed or
    cancelled, no later sequence of statements (late workers, retries, sweeps,
    operators) alters any column of its row. *)
Theorem finished_items_frozen json_dumps py_str ops s id r :
  items_ok s -> item_row id s = Some r -> terminal_item (Item.status r) = true ->
  item_row id (run_item_ops json_dumps py_str ops s) = Some r.
Proof.
  intros [U _] Hr Ht.
  destruct (items_steps_row (eq r) s (run_item_ops json_dumps py_str ops s) id r) as (r' & Hr' & <-); auto.
  - intros ? r1 <- Hs. apply row_step_terminal in Hs. congruence.
  - apply run_item_ops_steps.
Qed.

(** ** Fencing *)

Lemma update_items_none p f s :
  (forall r, r ∈ items s -> p r = false) -> update_items p f s = (s, Ret []).
Proof.
  intros H. unfold update_items. unfold on_items. rewrite update_none by done. destruct s as [t ? ? ? ? ?]. simpl in *.
  f_equal. f_equal. unfold select_where. induction t as [|r t IH]; simpl; [done|].
  rewrite (H r) by left. apply IH. intros x Hx. apply H. by right.
Qed.

(** The row of an id is the only one that carries it. *)
Lemma item_row_unique s id r x :
  unique_keys (items s) -> item_row id s = Some r -> x ∈ items s -> Item.item_id x = id -> x = r.
Proof.
  intros (U & _) Hr Hx <-. pose proof (row_at_elem Item.item_id _ _ U Hx) as H.
  unfold item_row in Hr. congruence.
Qed.

Lemma stale_not_owned s id r e w x :
  unique_keys (items s) -> item_row id s = Some r -> e < Item.claim_epoch r ->
  x ∈ items s -> owned id w e x = false.
Proof.
  intros U Hr He Hx. apply not_true_iff_false. intros (Hid & _ & Hep & _)%owned_spec.
  pose proof (item_row_unique _ _ _ _ U Hr Hx Hid) as ->. lia.
Qed.

(** In a bulk completion every payload entry joins at most one row. *)
Lemma bulk_candidates_cons held w c payload t :
  length (bulk_candidates held w (c :: payload) t) =
    (length (bulk_candidates held w [c] t) + length (bulk_candidates held w payload t))%nat.
Proof.
  unfold bulk_candidates. induction t as [|r t IH]; [done|]. cbn [flat_map]. rewrite !length_app, IH, !length_map.
  cbn [List.filter]. repeat case_match; simpl; lia.
Qed.

Lemma bulk_candidates_one held w c t :
  NoDup (map Item.item_id t) -> (length (bulk_candidates held w [c] t) <= 1)%nat.
Proof.
  unfold bulk_candidates. induction t as [|r t IH]; intros Hnd; [simpl; lia|]. cbn [map] in Hnd.
  apply NoDup_cons in Hnd as [Hr Hnd]. cbn [flat_map]. rewrite length_app, length_map.
  specialize (IH Hnd). destruct (List.filter _ [c]) as [|c' l] eqn:E; [exact IH|].
  assert (Hl : (length (c' :: l) <= 1)%nat) by (rewrite <- E; simpl; repeat case_match; simpl; lia).
  assert (Hc : c' = c) by (simpl in E; repeat case_match; simplify_eq; done). subst c'.
  replace (flat_map _ t) with (@nil Item.batch_item); [simpl in *; lia|]. symmetry.
  assert (Ho : exists e, cm_claim_epoch c = Some e /\ Item.item_id r = cm_item_id c).
  { simpl in E. destruct (cm_claim_epoch c) as [e|]; [|done]. exists e. split; [done|].
    destruct (owned _ _ _ _) eqn:Eo; [|done]. by apply owned_spec in Eo as (-> & _). }
  destruct Ho as (e & He & Hid). rewrite Hid in Hr. clear -Hr He. induction t as [|x t IH]; [done|].
  cbn [flat_map map] in *. apply not_elem_of_cons in Hr as [Hx Hr]. rewrite (IH Hr), app_nil_r.
  simpl. rewrite He. destruct (owned _ _ _ _) eqn:Eo; [|done]. apply owned_spec in Eo as (Eo & _). congruence.
Qed.

Lemma bulk_candidates_le held w payload t :
  NoDup (map Item.item_id t) -> (length (bulk_candidates held w payload t) <= length payload)%nat.
Proof.
  intros Hnd. induction payload as [|c payload IH].
  - unfold bulk_candidates. clear. induction t as [|r t IH]; simpl in *; lia.
  - rewrite bulk_candidates_cons. pose proof (bulk_candidates_one held w c t Hnd). simpl. lia.
Qed.

(** An entry that joins no row makes the whole bulk ineligible. *)
Lemma bulk_candidates_lt held w payload t c :
  NoDup (map Item.item_id t) -> c ∈ payload -> bulk_candidates held w [c] t = [] ->
  (length (bulk_candidates held w payload t) < length payload)%nat.
Proof.
  intros Hnd Hc Hno. induction Hc as [c payload|c c' payload Hc IH]; rewrite bulk_candidates_cons.
  - rewrite Hno. pose proof (bulk_candidates_le held w payload t Hnd). simpl. lia.
  - pose proof (bulk_candidates_one held w c' t Hnd). specialize (IH Hno). simpl. lia.
Qed.

Lemma bulk_not_eligible now held payload w s c :
  unique_keys (items s) -> c ∈ payload -> bulk_candidates held w [c] (items s) = [] ->
  mark_items_completed_bulk now held payload (Some w) s = (s, Ret false).
Proof.
  intros (U & _) Hc Hno. unfold mark_items_completed_bulk. destruct payload as [|c0 payload]; [by apply elem_of_nil in Hc|].
  case_match; [done|]. pose proof (bulk_candidates_lt held w _ _ c U Hc Hno) as Hlt.
  replace (Nat.eqb (length (bulk_candidates held w (c0 :: payload) (items s))) (length (c0 :: payload)))
    with false by (symmetry; apply Nat.eqb_neq; lia).
  unfold mbind, st_bind. by rewrite update_items_none.
Qed.

Lemma bulk_candidates_none held w c t :
  (forall e x, cm_claim_epoch c = Some e -> x ∈ t -> owned (cm_item_id c) w e x = false) ->
  bulk_candidates held w [c] t = [].
Proof.
  intros H. unfold bulk_candidates. induction t as [|r t IH]; [done|]. cbn [flat_map].
  rewrite IH by (intros e x He Hx; apply H; [done|by right]). rewrite app_nil_r. simpl.
  destruct (cm_claim_epoch c) as [e|]; [|done]. by rewrite (H e r) by (done || left).
Qed.

(** C11: The claim epoch fences stale workers: once an item was claimed again
    (its epoch exceeds [e]), whatever happens afterwards, a worker that still
    holds epoch [e] can neither complete it, alone or in a bulk, nor fail it,
    retry it or renew its lease (the database is left as it was), and any claim
    handed out later carries a larger epoch than all before. *)
Theorem claim_epoch_fences json_dumps py_str ops s id r e :
  items_ok s -> item_row id s = Some r -> e < Item.claim_epoch r ->
  let s' := run_item_ops json_dumps py_str ops s in
  (forall now w c, cm_item_id c = id -> cm_claim_epoch c = Some e ->
     mark_item_completed now (Some w) c s' = (s', Ret false)) /\
  (forall now held payload w c, c ∈ payload -> cm_item_id c = id -> cm_claim_epoch c = Some e ->
     mark_items_completed_bulk now held payload (Some w) s' = (s', Ret false)) /\
  (forall now w eb le retryable delay,
     mark_item_failed now id (Some w) eb le retryable delay (Some e) s' = (s', Ret false)) /\
  (forall now w delay eb le,
     release_items_for_retry now [id] w delay eb le (Some {[ id := e ]}) s' = (s', Ret [])) /\
  (forall now w lease, renew_item_lease now id w lease (Some e) s' = (s', Ret false)) /\
  (forall now held b w n lease rows x,
     snd (claim_items now held b w n lease s') = Ret rows -> x ∈ rows -> Item.item_id x = id ->
     Item.claim_epoch r < Item.claim_epoch x).
Proof.
  intros [U _] Hr He s'. pose proof (run_item_ops_steps json_dumps py_str ops s) as Hs.
  destruct (items_steps_row (fun x => Item.claim_epoch r <= Item.claim_epoch x) s s' id r) as (r' & Hr' & Hle);
    [|exact Hs|exact U|exact Hr|lia|].
  { intros x y Hx Hxy%row_step_epoch. lia. }
  assert (U' : unique_keys (items s')) by (eapply items_steps_unique; eauto).
  assert (Hst : forall w x, x ∈ items s' -> owned id w e x = false).
  { intros w x Hx. eapply stale_not_owned; eauto. lia. }
  clearbody s'. split_and!.
  - intros now w c Hid Hep. unfold mark_item_completed. rewrite Hep, Hid. unfold mbind, st_bind.
    by rewrite update_items_none by auto.
  - intros now held payload w c Hc Hid Hep. eapply bulk_not_eligible; eauto.
    apply bulk_candidates_none. intros e' x He' Hx. rewrite Hep in He'. simplify_eq. auto.
  - intros now w eb le retryable delay. unfold mark_item_failed, mbind, st_bind.
    destruct retryable; rewrite update_items_none; auto.
    intros x Hx. by rewrite (Hst w x Hx).
  - intros now w delay eb le. unfold release_items_for_retry. cbn [existsb]. rewrite lookup_singleton_eq.
    cbn [orb]. rewrite update_items_none; [done|]. intros x Hx. unfold owned_any.
    destruct (id_in [id] x) eqn:Ei; [|done]. apply bool_decide_eq_true, list_elem_of_singleton in Ei.
    rewrite Ei, lookup_singleton_eq, Hst by done. done.
  - intros now w lease. unfold renew_item_lease, mbind, st_bind. by rewrite update_items_none by auto.
  - intros now held b w n lease rows x [= <-] (y & -> & [Hy _]%elem_select)%list_elem_of_fmap Hid.
    change (Item.item_id y = id) in Hid. pose proof (item_row_unique _ _ _ _ U' Hr' Hy Hid) as ->. simpl. lia.
Qed.

(** ** Claims drain the queue *)

Definition nothing_held (id : string) : bool := false.

Definition waiting (now : Z) (batch_id : string) (r : Item.batch_item) : bool :=
  String.eqb (Item.batch_id r) batch_id && runnable now r.

(** How many items of the batch could be claimed now. *)
Definition backlog (now : Z) (batch_id : string) (s : db) : Z := cnt (waiting now batch_id) (items s).

(** Claims one after another, each with the clock of its statement and its
    worker. *)
Definition claim_round (batch_id : string) (limit_ lease : Z) (s : db) (c : Z * string) : db :=
  fst (claim_items c.1 nothing_held batch_id c.2 limit_ lease s).
Definition claim_rounds (batch_id : string) (limit_ lease : Z) (cs : list (Z * string)) (s : db) : db :=
  fold_left (claim_round batch_id limit_ lease) cs s.

(** What waits goes on waiting, and a claim is over only when its lease is. *)
Lemma waiting_later t t' b r : t <= t' -> waiting t b r = true -> waiting t' b r = true.
Proof.
  unfold waiting, runnable, null_or, if_set. rewrite !andb_true_iff. intros Ht [-> H]. split; [done|].
  destruct (Item.status r); try done; [|destruct (Item.lease_expires_at r); [lia|done]].
  apply andb_true_iff in H as [H1 H2]. apply andb_true_iff.
  destruct (Item.lease_expires_at r), (Item.not_before_at r); split; lia || done.
Qed.

Lemma claimed_not_waiting t t' b w lease r :
  t' <= after_seconds t lease -> waiting t' b (claim_row t w lease r) = false.
Proof. intros H. unfold waiting, runnable. simpl. rewrite andb_false_iff. right. by apply Z.ltb_ge. Qed.

Lemma cnt_select {R} (p : R -> bool) t : cnt p t = Z.of_nat (length (select_where p t)).
Proof.
  unfold select_where. induction t as [|r t IH]; [done|]. rewrite cnt_cons, IH. simpl.
  destruct (p r); simpl; lia.
Qed.

Lemma cnt_update {R} (p q : R -> bool) (f : R -> R) t :
  (forall r, r ∈ t -> q r = true -> p r = true /\ p (f r) = false) ->
  cnt p (update_where q f t) = cnt p t - cnt q t.
Proof.
  unfold update_where. induction t as [|r t IH]; intros H; [done|]. cbn [map].
  rewrite !cnt_cons, IH by (intros x Hx; apply H; by right).
  destruct (q r) eqn:E; [destruct (H r) as [-> ->]; [by left|done|lia]|lia].
Qed.

Lemma select_NoDup {R} (p : R -> bool) t : NoDup t -> NoDup (select_where p t).
Proof.
  unfold select_where. induction 1 as [|r t Hr _ IH]; simpl; [constructor|]. destruct (p r); [|done].
  constructor; [|done]. intros Hin. apply Hr. apply list_elem_of_In. apply list_elem_of_In, filter_In in Hin. tauto.
Qed.

Lemma unique_keys_NoDup t : unique_keys t -> NoDup t.
Proof. intros (H & _). by eapply NoDup_fmap_1. Qed.

(** Updating exactly a set of rows, named by their keys. *)
Lemma cnt_id_in cand t :
  unique_keys t -> NoDup cand -> (forall r, r ∈ cand -> r ∈ t) ->
  cnt (id_in (map Item.item_id cand)) t = Z.of_nat (length cand).
Proof.
  intros U Hnd Hsub. rewrite cnt_select. f_equal. apply Permutation_length.
  apply NoDup_Permutation; [apply select_NoDup; by apply unique_keys_NoDup|done|].
  intros r. rewrite elem_select. split.
  - intros [Hr Hin]. by eapply id_in_elem.
  - intros Hr. split; [auto|]. apply bool_decide_eq_true. by apply list_elem_of_fmap_2.
Qed.

Section drain.
(** The claims read their clocks between [first] and [last], before the lease of
    the first runs out. *)
Context (first last lease limit_ : Z) (batch : string).
Hypothesis leases_run : last <= after_seconds first lease.
Definition in_window (c : Z * string) : Prop := first <= c.1 <= last.

#[local] Abbreviation size := (Z.max 1 (Z.min limit_ 200)).
#[local] Abbreviation cand t s := (claim_candidates t nothing_held batch limit_ (items s)).
#[local] Abbreviation claimed c s := (claim_round batch limit_ lease s c).

Lemma cand_facts t s :
  unique_keys (items s) ->
  NoDup (cand t s) /\ (forall r, r ∈ cand t s -> r ∈ items s /\ waiting t batch r = true) /\
  Z.of_nat (length (cand t s)) = Z.min size (backlog t batch s).
Proof.
  intros U. unfold claim_candidates. set (sel := select_where _ (items s)). split_and!.
  - apply (sublist_NoDup _ (order_by by_line sel)); [|apply sublist_take].
    rewrite order_by_perm. apply select_NoDup. by apply unique_keys_NoDup.
  - intros r Hr. pose proof (claim_candidate_runnable _ _ _ _ _ _ Hr) as (Hin & Hb & Hrun & _).
    split; [done|]. unfold waiting. by rewrite Hb, String.eqb_refl, Hrun.
  - unfold limit. rewrite length_take, (Permutation_length (order_by_perm _ _)).
    unfold backlog. rewrite cnt_select. replace (select_where (waiting t batch) (items s)) with sel; [lia|].
    unfold sel, select_where. apply filter_ext. intros r. unfold waiting, nothing_held. simpl. by rewrite andb_true_r.
Qed.

(** A claim takes its rows off the backlog of every moment they wait at. *)
Lemma claim_backlog c t s :
  unique_keys (items s) -> in_window c -> c.1 <= t <= last ->
  backlog t batch (claimed c s) = backlog t batch s - Z.min size (backlog c.1 batch s).
Proof.
  intros U Hc Ht. destruct (cand_facts c.1 s U) as (Hnd & Hw & Hlen). rewrite <- Hlen.
  unfold backlog, claim_round, claim_items. cbn [fst on_items items]. rewrite cnt_update.
  - rewrite cnt_id_in; [done|done|done|intros r Hr; by apply Hw].
  - intros r Hr Hin. eapply id_in_elem in Hin; [|exact U|intros x Hx; by apply Hw|done].
    destruct (Hw r Hin) as [_ Hwait]. split; [by apply (waiting_later c.1); [lia|]|].
    apply claimed_not_waiting. unfold in_window, after_seconds in *. lia.
Qed.

Lemma backlog_grows t t' s : t <= t' -> backlog t batch s <= backlog t' batch s.
Proof.
  intros Ht. unfold backlog. induction (items s) as [|r l IH]; [done|]. rewrite !cnt_cons.
  destruct (waiting t batch r) eqn:E; [rewrite (waiting_later t t') by done; lia|destruct (waiting t' batch r); lia].
Qed.

Lemma claim_row_of c s id r :
  unique_keys (items s) -> item_row id s = Some r ->
  item_row id (claimed c s) = Some r \/
  waiting c.1 batch r = true /\ item_row id (claimed c s) = Some (claim_row c.1 c.2 lease r).
Proof.
  intros U Hr. destruct (cand_facts c.1 s U) as (_ & Hw & _). pose proof (row_at_key _ _ _ _ Hr) as [Hin _].
  unfold item_row, claim_round, claim_items. cbn [fst on_items items].
  rewrite (row_at_update Item.item_id) by done. unfold item_row in Hr. rewrite Hr. simpl.
  destruct (id_in _ r) eqn:E; [|by left]. right. split; [|done].
  eapply id_in_elem in E; [|exact U|intros x Hx; by apply Hw|done]. by apply Hw.
Qed.

Lemma claim_shrinks c s : in_window c -> backlog first batch (claimed c s) <= backlog first batch s.
Proof.
  intros Hc. unfold backlog, claim_round, claim_items. cbn [fst on_items items]. unfold update_where.
  generalize (id_in (map Item.item_id (cand c.1 s))). intros q.
  induction (items s) as [|r l IH]; [done|]. cbn [map]. rewrite !cnt_cons. destruct (q r); [|lia].
  rewrite claimed_not_waiting by (unfold in_window, after_seconds in *; lia). destruct (waiting first batch r); lia.
Qed.

Lemma claim_rounds_facts cs s :
  unique_keys (items s) -> Forall in_window cs ->
  let s' := claim_rounds batch limit_ lease cs s in
  backlog first batch s' <= backlog first batch s /\
  (backlog last batch s' = backlog last batch s - Z.of_nat (length cs) * size \/ backlog first batch s' = 0) /\
  forall id r, item_row id s = Some r ->
    item_row id s' = Some r \/
    exists c, c ∈ cs /\ waiting c.1 batch r = true /\ item_row id s' = Some (claim_row c.1 c.2 lease r).
Proof.
  revert s. induction cs as [|c cs IH]; intros s U Hcs s'.
  { subst s'. split_and!; [done|left; cbn; lia|by left]. }
  apply Forall_cons in Hcs as [Hc Hcs].
  assert (U1 : unique_keys (items (claimed c s)))
    by (by apply (claim_items_step c.1 nothing_held batch c.2 limit_ lease s)).
  subst s'. change (claim_rounds batch limit_ lease (c :: cs) s) with (claim_rounds batch limit_ lease cs (claimed c s)).
  destruct (IH _ U1 Hcs) as (Hle & Hb & Hrow). clear IH. pose proof (claim_shrinks c s Hc) as Hs.
  pose proof (claim_backlog c last s U Hc ltac:(unfold in_window in Hc; lia)) as Hlast.
  split_and!; [lia| |].
  - destruct Hb as [Hb|Hb]; [|by right]. destruct (Z.le_gt_cases size (backlog c.1 batch s)) as [Hfull|Hshort].
    { left. rewrite Hb, Hlast. cbn [length]. lia. }
    unfold in_window in Hc.
    right. pose proof (cnt_nonneg (waiting first batch) (items (claim_rounds batch limit_ lease cs (claimed c s)))) as Hpos.
    fold (backlog first batch (claim_rounds batch limit_ lease cs (claimed c s))) in Hpos.
    pose proof (claim_backlog c c.1 s U Hc ltac:(lia)) as Hzero.
    pose proof (backlog_grows first c.1 (claimed c s) ltac:(lia)). lia.
  - intros id r Hr. destruct (claim_row_of c s id r U Hr) as [H1|[Hwait H1]];
      destruct (Hrow _ _ H1) as [H2|(c' & Hc' & Hw' & H2)].
    + by left.
    + right. exists c'. split; [by right|done].
    + right. exists c. split; [by left|done].
    + rewrite Forall_forall in Hcs. specialize (Hcs c' Hc').
      rewrite claimed_not_waiting in Hw' by (unfold in_window, after_seconds in *; lia). done.
Qed.
End drain.

(** C34: Claims drain the queue.  Let workers claim at most [limit] items
    (clamped to 1..200) of a batch, k times one after another, each by its own
    clock, with nothing else in between, no row locked by others, and before a
    lease they take runs out.  No item is handed out twice: a row is as it was,
    or one of the claims took it, at a moment when it waited, with its epoch
    increased once.  Either every claim was full, so that k times the limit are
    gone from the backlog, or nothing that waited at the start is left; and so
    all that waited at the start is in progress with one of these workers once
    k times the limit reaches what waits at the end, items that came due in the
    meantime included. *)
Theorem claims_drain_backlog first last batch limit_ lease cs s :
  first <= last <= after_seconds first lease -> Forall (in_window first last) cs -> unique_keys (items s) ->
  let k := Z.of_nat (length cs) in
  let n := Z.max 1 (Z.min limit_ 200) in
  let s' := claim_rounds batch limit_ lease cs s in
  (forall id r, item_row id s = Some r ->
     item_row id s' = Some r \/
     exists t w, (t, w) ∈ cs /\ waiting t batch r = true /\ item_row id s' = Some (claim_row t w lease r)) /\
  (backlog last batch s' = backlog last batch s - k * n \/ backlog first batch s' = 0) /\
  (backlog last batch s <= k * n ->
   forall id r, item_row id s = Some r -> waiting first batch r = true ->
     exists t w, (t, w) ∈ cs /\ item_row id s' = Some (claim_row t w lease r)).
Proof.
  intros [Hfl Hl] Hcs U k n s'. destruct (claim_rounds_facts first last lease limit_ batch Hl cs s U Hcs) as (_ & Hb & Hrow).
  fold s' n k in Hb, Hrow. split_and!; [|done|].
  - intros id r Hr. destruct (Hrow id r Hr) as [?|([t w] & ? & ? & ?)]; [by left|]. right. by exists t, w.
  - intros Hk id r Hr Hw. destruct (Hrow id r Hr) as [H|([t w] & ? & _ & ?)]; [exfalso|by exists t, w].
    assert (Hpos : 1 <= backlog first batch s').
    { apply row_at_key in H as [Hin _]. unfold backlog. rewrite cnt_select.
      assert (Hs : r ∈ select_where (waiting first batch) (items s')) by (by apply elem_select).
      destruct (select_where _ _); [by apply elem_of_nil in Hs|simpl; lia]. }
    pose proof (backlog_grows batch first last s' Hfl). destruct Hb as [Hb|Hb]; lia.
Qed.

(** ** Bulk completion is all or nothing *)

Lemma bulk_candidates_owned_one held w c t r :
  r ∈ bulk_candidates held w [c] t ->
  r ∈ t /\ exists e, cm_claim_epoch c = Some e /\ owned (cm_item_id c) w e r = true /\ held (Item.item_id r) = false.
Proof.
  intros (Hr & c' & e & Hc & He & Ho & Hh)%bulk_candidate_owned. apply list_elem_of_singleton in Hc as ->. eauto.
Qed.

Lemma bulk_candidates_elem held w payload t r :
  r ∈ bulk_candidates held w payload t <-> exists c, c ∈ payload /\ r ∈ bulk_candidates held w [c] t.
Proof.
  unfold bulk_candidates. setoid_rewrite list_elem_of_In. setoid_rewrite in_flat_map. setoid_rewrite in_map_iff.
  split.
  - intros (x & Hx & c & <- & [Hc Hp]%filter_In). exists c. split; [done|]. exists x. split; [done|].
    exists c. split; [done|]. apply filter_In. split; [by left|done].
  - intros (c & Hc & x & Hx & c' & <- & [[<-|[]] Hp]%filter_In). exists x. split; [done|].
    exists c. split; [done|]. by apply filter_In.
Qed.

(** Rows named by distinct existing keys: one per key. *)
Lemma select_ids_perm ids t :
  unique_keys t -> NoDup ids -> (forall i, i ∈ ids -> i ∈ map Item.item_id t) ->
  map Item.item_id (select_where (id_in ids) t) ≡ₚ ids.
Proof.
  intros U Hnd Hin. apply NoDup_Permutation; [|done|].
  - destruct U as (U & _). unfold select_where. clear Hin Hnd. induction t as [|r t IH]; simpl in *; [done|].
    apply NoDup_cons in U as [Hr U]. destruct (id_in ids r); simpl; [|auto]. constructor; [|auto].
    intros (x & Hx & Hxt)%list_elem_of_fmap. apply Hr. rewrite Hx. apply list_elem_of_fmap_2.
    apply list_elem_of_In. apply list_elem_of_In, filter_In in Hxt. tauto.
  - intros i. rewrite list_elem_of_fmap. split.
    + intros (r & -> & [_ H]%elem_select). by apply bool_decide_eq_true in H.
    + intros Hi. pose proof (Hin i Hi) as (r & -> & Hr)%list_elem_of_fmap. exists r. split; [done|].
      apply elem_select. split; [done|]. by apply bool_decide_eq_true.
Qed.

Lemma update_where_ext {R} (p q : R -> bool) (f : R -> R) t :
  (forall r, r ∈ t -> p r = q r) -> update_where p f t = update_where q f t.
Proof.
  intros H. apply map_ext_in. intros r Hr%list_elem_of_In. by rewrite H.
Qed.

Lemma select_where_ext {R} (p q : R -> bool) t :
  (forall r, r ∈ t -> p r = q r) -> select_where p t = select_where q t.
Proof.
  intros H. apply filter_ext_in. intros r Hr%list_elem_of_In. by apply H.
Qed.

(** What it means that a worker may complete an item now. *)
Definition completable (held : string -> bool) (w : string) (s : db) (c : completion) : Prop :=
  exists e r, cm_claim_epoch c = Some e /\ item_row (cm_item_id c) s = Some r /\
              owned (cm_item_id c) w e r = true /\ held (cm_item_id c) = false.

Lemma bulk_completion_spec now held payload worker s :
  unique_keys (items s) -> NoDup (map cm_item_id payload) -> payload <> [] ->
  mark_items_completed_bulk now held payload worker s = (s, Ret false) \/
  exists w, worker = Some w /\ Forall (completable held w s) payload /\
    mark_items_completed_bulk now held payload worker s =
      (on_items (update_where (id_in (map cm_item_id payload)) (complete_from now payload)) s, Ret true).
Proof.
  intros U Hnd Hne. destruct worker as [w|]; [|left; by destruct payload].
  destruct (decide (Exists (fun c => bulk_candidates held w [c] (items s) = []) payload)) as [Hex|Hall].
  { left. apply Exists_exists in Hex as (c & Hc & Hno). by eapply bulk_not_eligible. }
  apply not_Exists_Forall in Hall; [|apply _]. rewrite Forall_forall in Hall.
  change (forall c, c ∈ payload -> bulk_candidates held w [c] (items s) <> []) in Hall.
  assert (Hrow : forall c, c ∈ payload -> completable held w s c).
  { intros c Hc. specialize (Hall c Hc). destruct (bulk_candidates held w [c] (items s)) as [|r l] eqn:E; [congruence|].
    assert (Hr : r ∈ bulk_candidates held w [c] (items s)) by (rewrite E; by left).
    apply bulk_candidates_owned_one in Hr as (Hr & e & He & Ho & Hh). exists e, r.
    pose proof Ho as (Hid & _)%owned_spec. rewrite <- Hid in *. split_and!; try done.
    apply row_at_elem; [apply U|done]. }
  right. exists w. split_and!; [done|by apply Forall_forall|].
  assert (Hlen : length (bulk_candidates held w payload (items s)) = length payload).
  { clear -Hall U. induction payload as [|c payload IH].
    - unfold bulk_candidates. clear. induction (items s) as [|r t IH]; simpl in *; auto.
    - rewrite bulk_candidates_cons, IH by (intros x Hx; apply Hall; by right).
      pose proof (bulk_candidates_one held w c (items s) (proj1 U)) as H1. specialize (Hall c ltac:(by left)).
      destruct (bulk_candidates held w [c] (items s)) as [|x l]; [done|simpl in *; lia]. }
  assert (Hids : forall r, r ∈ items s ->
    id_in (map Item.item_id (bulk_candidates held w payload (items s))) r = id_in (map cm_item_id payload) r).
  { intros r Hr. unfold id_in. apply bool_decide_ext. rewrite !list_elem_of_fmap. split.
    - intros (x & Hx & (c & Hc & Hxc)%bulk_candidates_elem). exists c. split; [|done].
      apply bulk_candidates_owned_one in Hxc as (_ & e & _ & (Ho & _)%owned_spec & _). congruence.
    - intros (c & Hc & Hcp). specialize (Hall c Hcp).
      destruct (bulk_candidates held w [c] (items s)) as [|x l] eqn:E; [congruence|]. exists x. split.
      + assert (Hx : x ∈ bulk_candidates held w [c] (items s)) by (rewrite E; by left).
        apply bulk_candidates_owned_one in Hx as (_ & e & _ & (Ho & _)%owned_spec & _). congruence.
      + apply bulk_candidates_elem. exists c. split; [done|]. rewrite E. by left. }
  unfold mark_items_completed_bulk. destruct payload as [|c0 pl] eqn:Epl; [done|]. rewrite <- Epl in *.
  destruct (existsb _ payload) eqn:Eno.
  { apply existsb_exists in Eno as (c & Hc%list_elem_of_In & Hn). destruct (Hrow c Hc) as (e & r & He & _).
    by rewrite He in Hn. }
  rewrite Hlen, Nat.eqb_refl. unfold update_items, mbind, st_bind. cbn [andb].
  assert (Hin : forall i, i ∈ map cm_item_id payload -> i ∈ map Item.item_id (items s)).
  { intros i (c & -> & Hc)%list_elem_of_fmap. destruct (Hrow c Hc) as (e & r & _ & Hr & _).
    apply row_at_key in Hr as [Hr <-]. by apply list_elem_of_fmap_2. }
  pose proof (Permutation_length (select_ids_perm _ _ U Hnd Hin)) as Hl. rewrite !length_map in Hl.
  erewrite (select_where_ext _ (id_in (map cm_item_id payload))) by exact Hids.
  rewrite length_map, Hl, Nat.eqb_refl. unfold mret, st_ret, on_items. f_equal. f_equal.
  apply update_where_ext. exact Hids.
Qed.

(** ** Examples *)

Definition sample_dumps (v : pyval) : option string := Some "".
Definition sample_str (v : pyval) : string := match v with PyStr s => s | _ => "" end.
Definition sample_uuid (n : nat) : string := Str.of_Z (Z.of_nat n).

Definition sample_create (line : Z) (custom : string) : BatchItemCreate :=
  mkItemCreate line custom (PyDict [("model", PyStr "m"); ("input", PyStr "text")]) None None 0 None.

Definition sample_completion (id : string) (epoch : Z) : completion :=
  mkCompletion id (Some epoch) (PyDict []) None (1 # 2) (3 # 4).

(** Three items created at second 0; worker "a" claims two at second 10 for a
    minute and completes the first. *)
Definition sample_ops : list item_op :=
  [OpCreate 0 "batch" sample_uuid [sample_create 1 "x"; sample_create 2 "y"; sample_create 3 "z"];
   OpClaim (10 * usec) nothing_held "batch" "a" 2 60;
   OpComplete (20 * usec) (Some "a") (sample_completion "0" 1)].
Definition sample_db : db := run_item_ops sample_dumps sample_str sample_ops empty_db.

(** Worker "b" claims what is left after the lease of "a" has run out. *)
Definition sample_reclaimed : db :=
  run_item_ops sample_dumps sample_str [OpClaim (100 * usec) nothing_held "batch" "b" 5 60] sample_db.

Example sample_statuses :
  map (fun r => (Item.status r, Item.locked_by r, Item.claim_epoch r, Item.estimated_work_units r)) (items sample_reclaimed)
  = [(COMPLETED, None, 1, 1); (IN_PROGRESS, Some "b", 2, 1); (IN_PROGRESS, Some "b", 1, 1)].
Proof. reflexivity. Qed.

(** With a live job a retryable failure puts the item back, without one it does
    not. *)
Definition sample_live_job : Job.batch_job :=
  Job.mkJob "batch" "/v1/embeddings" BatchJobStatus.IN_PROGRESS None None None None 2 0 0 0 0 None None None 0 None None None
    None None None "standard" 0 0 "small" None None None None (Some " key ") None (Some "team") None 0 None None None.

Definition sample_retry (jobs : list Job.batch_job) : db :=
  run_among_jobs sample_dumps sample_str
    [([], OpCreate 0 "batch" sample_uuid [sample_create 1 "x"]);
     ([sample_live_job], OpClaim (10 * usec) nothing_held "batch" "a" 2 60);
     (jobs, OpFail (20 * usec) "0" (Some "a") PyNone "boom" true 5 (Some 1))] empty_db.

Example sample_retry_rows :
  map Item.status (items (sample_retry [sample_live_job])) = [PENDING] /\
  map Item.status (items (sample_retry [])) = [IN_PROGRESS].
Proof. split; reflexivity. Qed.

Lemma sample_ok ops : items_ok (run_item_ops sample_dumps sample_str ops empty_db).
Proof. eapply items_ok_steps; [apply run_item_ops_steps|apply items_ok_empty]. Qed.

Lemma sample_reclaimed_ok : items_ok sample_reclaimed.
Proof. apply (sample_ok (sample_ops ++ [OpClaim (100 * usec) nothing_held "batch" "b" 5 60])). Qed.

Definition sample_row (id : string) (s : db) : Item.batch_item :=
  default (new_item sample_dumps sample_str 0 "" "" (sample_create 0 "")) (item_row id s).

Lemma finished_items_frozen_witness :
  let late := [OpComplete (200 * usec) (Some "a") (sample_completion "0" 1);
               OpFailNonterminal (210 * usec) "batch" "stop"] in
  Item.status (sample_row "0" sample_db) = COMPLETED /\
  item_row "0" (run_item_ops sample_dumps sample_str late sample_db) = Some (sample_row "0" sample_db).
Proof.
  split; [reflexivity|].
  apply (finished_items_frozen sample_dumps sample_str _ sample_db "0" (sample_row "0" sample_db));
    [exact (sample_ok sample_ops)|vm_compute; reflexivity|vm_compute; reflexivity].
Defined.

Lemma claim_epoch_fences_witness :
  let s' := run_item_ops sample_dumps sample_str [OpRenew (110 * usec) "1" "b" 60 (Some 2)] sample_reclaimed in
  Item.claim_epoch (sample_row "1" sample_reclaimed) = 2 /\
  mark_item_completed (200 * usec) (Some "a") (sample_completion "1" 1) s' = (s', Ret false) /\
  snd (mark_item_completed (200 * usec) (Some "b") (sample_completion "1" 2) s') = Ret true.
Proof.
  intros s'. split_and!; [vm_compute; reflexivity| |vm_compute; reflexivity].
  destruct (claim_epoch_fences sample_dumps sample_str [OpRenew (110 * usec) "1" "b" 60 (Some 2)]
              sample_reclaimed "1" (sample_row "1" sample_reclaimed) 1)
    as (H & _); [exact sample_reclaimed_ok|vm_compute; reflexivity|vm_compute; reflexivity|].
  exact (H (200 * usec) "a" (sample_completion "1" 1) eq_refl eq_refl).
Defined.

Lemma claims_drain_backlog_witness :
  let cs := [(100 * usec, "b"); (101 * usec, "c")] in
  waiting (100 * usec) "batch" (sample_row "2" sample_db) = true /\
  exists t w, (t, w) ∈ cs /\
    item_row "2" (claim_rounds "batch" 1 60 cs sample_db) = Some (claim_row t w 60 (sample_row "2" sample_db)).
Proof.
  intros cs. split; [vm_compute; reflexivity|].
  destruct (claims_drain_backlog (100 * usec) (101 * usec) "batch" 1 60 cs sample_db) as (_ & _ & H);
    [vm_compute; split; discriminate|repeat constructor; vm_compute; discriminate|exact (proj1 (sample_ok sample_ops))|].
  apply H; [vm_compute; discriminate|vm_compute; reflexivity|vm_compute; reflexivity].
Defined.
