(* ===== verification/BatchOutbox.v ===== *)
(** * The completion outbox and the billing of batch items

    [src/batch/repositories/completion_outbox_repository.py], the bulk
    completion of [src/batch/repository.py], [log_spend_once] of
    [src/billing/spend.py] with [src/billing/ledger.py], and the worker of
    [src/batch/completion_outbox.py].  Completing items and enqueueing their
    outbox rows is one transaction; the worker bills a row and marks it sent in
    another, under the row's completion id as event id.  A failure of the
    database is an argument that says whether the transaction was rolled back or
    committed with its acknowledgement lost. *)

From Stdlib Require Import Sorting.Sorted.
From S2P Require Import Prelude PyVal Errors BatchModels BatchDb Scheduling BatchItems.

Import BatchCompletionOutboxStatus.

(** ** The repository *)

Record BatchCompletionOutboxCreate : Type := mkOutboxCreate {
  oc_batch_id : string;
  oc_item_id : string;
  oc_payload_json : CompletionPayload;
  oc_status : outbox_status;
  oc_attempt_count : Z;
  oc_max_attempts : Z;
  oc_next_attempt_at : option Z;
  oc_last_error : option string
}.

Definition new_outbox_row (now : Z) (completion_id : string) (c : BatchCompletionOutboxCreate)
  : Outbox.outbox_row :=
  Outbox.mkOutbox completion_id (oc_batch_id c) (oc_item_id c) (oc_payload_json c) (oc_status c)
    (oc_attempt_count c) (oc_max_attempts c) (default now (oc_next_attempt_at c)) (oc_last_error c)
    None None now now None.

(** [ON CONFLICT (item_id) DO NOTHING]; the primary key stays enforced. *)
Fixpoint insert_outbox (rows : list Outbox.outbox_row) (t : list Outbox.outbox_row)
  : res exn (list Outbox.outbox_row * list string) :=
  match rows with
  | [] => Ret (t, [])
  | r :: rows' =>
      if existsb (fun x => String.eqb (Outbox.item_id x) (Outbox.item_id r)) t then insert_outbox rows' t
      else if existsb (fun x => String.eqb (Outbox.completion_id x) (Outbox.completion_id r)) t
      then Raise unique_violation
      else '(t', ids) ← insert_outbox rows' (t ++ [r]); Ret (t', Outbox.completion_id r :: ids)
  end.

Definition enqueue_many (now : Z) (uuid4 : nat -> string) (records : list BatchCompletionOutboxCreate)
  : st db exn (list string) := fun s =>
  match records with
  | [] => (s, Ret [])
  | _ =>
      match insert_outbox (imap (fun i c => new_outbox_row now (uuid4 i) c) records) (outbox s) with
      | Ret (t, ids) => (on_outbox (fun _ => t) s, Ret ids)
      | Raise e => (s, Raise e)
      end
  end.

(** The WHERE of [claim_due]. *)
Definition due (now : Z) (r : Outbox.outbox_row) : bool :=
  match Outbox.status r with
  | QUEUED | RETRYING => Outbox.next_attempt_at r <=? now
  | PROCESSING => if_set (fun t => t <? now) (Outbox.lease_expires_at r)
  | _ => false
  end.

Definition by_created (x y : Outbox.outbox_row) : bool := Outbox.created_at x <=? Outbox.created_at y.

Definition claim_outbox_row (now : Z) (worker_id : string) (lease_seconds : Z) (r : Outbox.outbox_row)
  : Outbox.outbox_row :=
  Outbox.set_status PROCESSING (Outbox.set_attempt_count (Outbox.attempt_count r + 1)
    (Outbox.set_locked_by (Some worker_id)
      (Outbox.set_lease_expires_at (Some (after_seconds now lease_seconds)) (Outbox.set_updated_at now r)))).

Definition update_outbox (p : Outbox.outbox_row -> bool) (f : Outbox.outbox_row -> Outbox.outbox_row)
  : st db exn (list Outbox.outbox_row) := fun s =>
  (on_outbox (update_where p f) s, Ret (map f (select_where p (outbox s)))).

Definition claim_due (now : Z) (held : string -> bool) (worker_id : string) (lease_seconds limit_ : Z)
  : st db exn (list Outbox.outbox_row) := fun s =>
  let due_ids := map Outbox.completion_id
    (limit (Z.max 1 (Z.min limit_ 500))
      (order_by by_created
        (select_where (fun r => due now r && negb (held (Outbox.completion_id r))) (outbox s)))) in
  update_outbox (fun r => bool_decide (Outbox.completion_id r ∈ due_ids))
    (claim_outbox_row now worker_id (Z.max 1 lease_seconds)) s.

(** [completion_id = $1 AND status = 'processing' AND locked_by = $2] *)
Definition processing_by (completion_id worker_id : string) (r : Outbox.outbox_row) : bool :=
  String.eqb (Outbox.completion_id r) completion_id && bool_decide (Outbox.status r = PROCESSING)
  && sql_eq (Outbox.locked_by r) worker_id.

Definition sent_row (now : Z) (r : Outbox.outbox_row) : Outbox.outbox_row :=
  Outbox.set_status SENT (Outbox.set_last_error None (Outbox.set_locked_by None
    (Outbox.set_lease_expires_at None (Outbox.set_processed_at (Some now) (Outbox.set_updated_at now r))))).

(** An UPDATE and whether it returned a row. *)
Definition update_any (p : Outbox.outbox_row -> bool) (f : Outbox.outbox_row -> Outbox.outbox_row)
  : st db exn bool :=
  rows ← update_outbox p f; mret (any_row rows).

Definition mark_sent (now : Z) (completion_id worker_id : string) : st db exn bool :=
  update_any (processing_by completion_id worker_id) (sent_row now).

Definition retrying_row (now : Z) (error : string) (next_attempt_at : Z) (r : Outbox.outbox_row)
  : Outbox.outbox_row :=
  Outbox.set_status RETRYING (Outbox.set_last_error (Some (Str.take 4000 error))
    (Outbox.set_next_attempt_at next_attempt_at (Outbox.set_locked_by None
      (Outbox.set_lease_expires_at None (Outbox.set_updated_at now r))))).

Definition mark_retry (now : Z) (completion_id worker_id error : string) (next_attempt_at : Z)
  : st db exn bool :=
  update_any (processing_by completion_id worker_id) (retrying_row now error next_attempt_at).

Definition failed_row (now : Z) (error : string) (r : Outbox.outbox_row) : Outbox.outbox_row :=
  Outbox.set_status FAILED (Outbox.set_last_error (Some (Str.take 4000 error))
    (Outbox.set_locked_by None (Outbox.set_lease_expires_at None (Outbox.set_updated_at now r)))).

Definition mark_failed (now : Z) (completion_id worker_id error : string) : st db exn bool :=
  update_any (processing_by completion_id worker_id) (failed_row now error).

Definition renew_lease (now : Z) (completion_id worker_id : string) (lease_seconds : Z) : st db exn bool :=
  update_any (processing_by completion_id worker_id)
    (fun r => Outbox.set_lease_expires_at (Some (after_seconds now (Z.max 1 lease_seconds)))
                (Outbox.set_updated_at now r)).

Definition by_item (x y : Outbox.outbox_row) : bool := String.leb (Outbox.item_id x) (Outbox.item_id y).

Definition list_by_item_ids (item_ids : list string) (s : db) : list Outbox.outbox_row :=
  match item_ids with
  | [] => []
  | _ => order_by by_item
           (flat_map (fun r => map (fun _ => r) (List.filter (String.eqb (Outbox.item_id r)) item_ids)) (outbox s))
  end.

Definition count_pending (s : db) : Z :=
  cnt (fun r => match Outbox.status r with QUEUED | RETRYING => true | _ => false end) (outbox s).

(** ** Completing items together with their outbox rows *)

Record item_completion : Type := mkItemCompletion {
  icp_completion : completion;
  icp_outbox_payload : CompletionPayload;
  icp_outbox_max_attempts : Z
}.

Definition icp_item_id (i : item_completion) : string := cm_item_id (icp_completion i).

(** ** What the worker completes an item with *)

Definition COMPLETION_OUTBOX_MAX_ATTEMPTS : Z := 5.

(** [batch_call_type_for_endpoint] of src/batch/endpoints.py *)
Definition batch_call_type_for_endpoint (endpoint : string) : string :=
  if String.eqb endpoint "/v1/embeddings" then "embedding_batch"
  else if String.eqb endpoint "/v1/chat/completions" then "chat_batch" else "batch".

(** [_build_completion_outbox_payload]; the keys that only label the execution
    mode of a micro-batch are left out. *)
Definition build_completion_outbox_payload (now : Z) (job : Job.batch_job) (item_id model execution_mode : string)
    (usage : list (string * pyval)) (api_provider : string) (billed_cost provider_cost : Q) (api_base deployment_model : option string)
    : CompletionPayload :=
  mkPayload ("batch:" +:+ Job.batch_id job +:+ ":" +:+ item_id) (Job.batch_id job) item_id
    (Job.created_by_api_key job) (Job.created_by_user_id job) (Job.created_by_team_id job)
    (Job.created_by_organization_id job) model (batch_call_type_for_endpoint (Job.endpoint job))
    (PyDict usage) billed_cost provider_cost api_provider api_base deployment_model execution_mode now.

(** The dictionary the execution of an item hands to the persistence of
    completions: the row's columns and the payload of its outbox row, made of
    the same usage and costs. *)
Definition completion_row (now : Z) (job : Job.batch_job) (item_id : string) (claim_epoch : Z)
    (model execution_mode : string) (response_body usage : list (string * pyval)) (provider_cost billed_cost : Q)
    (api_provider : string) (api_base deployment_model : option string) : item_completion :=
  mkItemCompletion
    (mkCompletion item_id (Some claim_epoch) (PyDict response_body) (Some (PyDict usage)) provider_cost billed_cost)
    (build_completion_outbox_payload now job item_id model execution_mode usage api_provider billed_cost provider_cost
       api_base deployment_model)
    COMPLETION_OUTBOX_MAX_ATTEMPTS.

Inductive completion_result : Type := R_completed | R_already_completed | R_not_owned.

(** [{x for ...} == set(ids)] *)
Definition same_set (l ids : list string) : bool :=
  forallb (fun x => bool_decide (x ∈ ids)) l && forallb (fun x => bool_decide (x ∈ l)) ids.

Definition run_in_current_repo (now : Z) (held : string -> bool) (uuid4 : nat -> string)
    (l : list item_completion) (worker_id : option string) : st db exn completion_result :=
  updated ← mark_items_completed_bulk now held (map icp_completion l) worker_id;
  if (updated : bool) then
    completion_ids ← enqueue_many now uuid4
      (map (fun i => mkOutboxCreate (cp_batch_id (icp_outbox_payload i)) (icp_item_id i) (icp_outbox_payload i)
                       QUEUED 0 (if icp_outbox_max_attempts i =? 0 then 5 else icp_outbox_max_attempts i)
                       None None) l);
    if Nat.eqb (length completion_ids) (length l) then mret R_completed
    else raise (plain_exn "failed to enqueue one or more batch completion outbox rows")
  else fun s =>
    let item_ids := map icp_item_id l in
    let completed := map Item.item_id
      (List.filter (fun r => bool_decide (Item.status r = BatchItemStatus.COMPLETED)) (list_items_by_ids item_ids s)) in
    let enqueued := map Outbox.item_id (list_by_item_ids item_ids s) in
    (s, Ret (if same_set completed item_ids && same_set enqueued item_ids then R_already_completed else R_not_owned)).

Definition complete_items_with_outbox_bulk (now : Z) (held : string -> bool) (uuid4 : nat -> string)
    (l : list item_completion) (worker_id : option string) : st db exn completion_result :=
  match l with
  | [] => mret R_completed
  | _ => transaction (run_in_current_repo now held uuid4 l worker_id)
  end.

(** ** Spend *)

(** [UPDATE {table} SET spend = COALESCE(spend, 0) + amount WHERE id = entity_id] *)
Definition increment_table (amount : Q) (entity_id : option string) (t : gmap string Q) : gmap string Q :=
  match entity_id with
  | Some i => if Str.is_empty i then t else alter (fun x => x + amount)%Q i t
  | None => t
  end.

Definition increment_team_model_counter (amount : Q) (team_id : option string) (model : string)
    (t : gmap (string * string) Q) : gmap (string * string) Q :=
  match team_id with
  | Some i => if Str.is_empty i || Str.is_empty model then t
              else <[(i, model) := (default 0 (t !! (i, model)) + amount)%Q]> t
  | None => t
  end.

(** The update of a table that raises is swallowed and logged; the only caller
    runs in the transaction of a delivery, which the failed statement has
    aborted, so the delivery's next statement fails too and the transaction is
    rolled back: this is its [RolledBack] fault. *)
Definition increment_spend (e : spend_event) (l : ledger) : ledger :=
  if Qle_bool (se_spend e) 0 then l
  else
    mkLedger
      (increment_table (se_spend e) (Some (se_api_key e)) (lg_tokens l))
      (increment_table (se_spend e) (se_user_id e) (lg_users l))
      (increment_table (se_spend e) (se_team_id e) (lg_teams l))
      (increment_table (se_spend e) (se_organization_id e) (lg_organizations l))
      (increment_team_model_counter (se_spend e) (se_team_id e) (se_model e) (lg_team_models l)).

Inductive spend_log_once : Type := L_inserted | L_duplicate.

(** [INSERT ... ON CONFLICT (id) DO NOTHING RETURNING id] *)
Definition write_event_once (e : spend_event) : st db exn spend_log_once := fun s =>
  if existsb (fun x => String.eqb (se_id x) (se_id e)) (spend_log s) then (s, Ret L_duplicate)
  else (on_spend_log (fun t => t ++ [e]) s, Ret L_inserted).

Definition log_spend_once (e : spend_event) : st db exn spend_log_once :=
  result ← write_event_once e;
  match result with
  | L_duplicate => mret result
  | L_inserted => _ ← modify (on_spend (increment_spend e)); mret result
  end.

(** ** The outbox worker *)

Record BatchCompletionOutboxWorkerConfig : Type := mkOutboxConfig {
  ow_worker_id : string;
  ow_max_batch_size : Z;
  ow_lease_seconds : Z;
  ow_retry_initial_seconds : Z;
  ow_retry_max_seconds : Z
}.

(** [str(payload.get("api_key") or "").strip()] *)
Definition payload_key (p : CompletionPayload) : string := Str.strip (default "" (cp_api_key p)).

(** The event a row is billed as. *)
Definition event_of (r : Outbox.outbox_row) : spend_event :=
  let p := Outbox.payload_json r in
  mkSpendEvent (Outbox.completion_id r)
    (if Str.is_empty (cp_request_id p)
     then ("batch:" ++ Outbox.batch_id r ++ ":" ++ Outbox.item_id r)%string else cp_request_id p)
    (payload_key p) (cp_user_id p) (cp_team_id p) (cp_organization_id p)
    (cp_model p) (if Str.is_empty (cp_call_type p) then "embedding_batch" else cp_call_type p)
    (cp_billed_cost p).

Definition record_durable_success_with_dependencies (now : Z) (worker_id : string) (record : Outbox.outbox_row)
  : st db exn bool :=
  _ ← (if Str.is_empty (payload_key (Outbox.payload_json record)) then mret L_duplicate
       else log_spend_once (event_of record));
  mark_sent now (Outbox.completion_id record) worker_id.

(** What the database does to a transaction. *)
Inductive fault : Type :=
  | NoFault
  | RolledBack (e : exn)   (* a statement or the commit failed *)
  | AckLost (e : exn).     (* committed, but the client saw an error *)

Definition with_fault {A} (f : fault) (m : st db exn A) : st db exn A := fun s =>
  match f with
  | NoFault => transaction m s
  | RolledBack e => (s, Raise e)
  | AckLost e => (fst (transaction m s), Raise e)
  end.

Definition record_durable_success (now : Z) (worker_id : string) (f : fault) (record : Outbox.outbox_row)
  : st db exn bool :=
  with_fault f (record_durable_success_with_dependencies now worker_id record).

Definition retry_seconds (cfg : BatchCompletionOutboxWorkerConfig) (attempt_count : Z) : Z :=
  Z.min (ow_retry_max_seconds cfg)
    (Z.max (ow_retry_initial_seconds cfg) (ow_retry_initial_seconds cfg * Z.max 1 attempt_count)).

(** [_process_record], whether it was delivered; [f] strikes the delivery and
    [f'] the statement that reports its failure. *)
Definition process_record (now : Z) (cfg : BatchCompletionOutboxWorkerConfig) (f f' : fault)
    (record : Outbox.outbox_row) : st db exn bool :=
  try_except (record_durable_success now (ow_worker_id cfg) f record) (fun exc =>
    if Outbox.attempt_count record >=? Outbox.max_attempts record then
      _ ← with_fault f' (mark_failed now (Outbox.completion_id record) (ow_worker_id cfg) (exn_str exc));
      mret false
    else
      _ ← with_fault f' (mark_retry now (Outbox.completion_id record) (ow_worker_id cfg) (exn_str exc)
                           (after_seconds now (retry_seconds cfg (Outbox.attempt_count record))));
      mret false).

(** [_run]: what escapes from a record is logged. *)
Definition run_record (now : Z) (cfg : BatchCompletionOutboxWorkerConfig) (f f' : fault)
    (record : Outbox.outbox_row) : st db exn unit :=
  try_except (_ ← process_record now cfg f f' record; mret tt) (fun _ => mret tt).

(** [process_once]: the claimed records one after the other (each is its own
    transactions), with the faults that strike them. *)
Definition process_once (now : Z) (held : string -> bool) (cfg : BatchCompletionOutboxWorkerConfig)
    (faults : string -> fault * fault) : st db exn Z :=
  claimed ← claim_due now held (ow_worker_id cfg) (ow_lease_seconds cfg) (ow_max_batch_size cfg);
  _ ← for_each claimed (fun r =>
        run_record now cfg (fst (faults (Outbox.completion_id r))) (snd (faults (Outbox.completion_id r))) r);
  mret (Z.of_nat (length claimed)).
