(* ===== verification/BatchBilling.v ===== *)
(** * Batch items are billed exactly once

    The composition of the item repository, the bulk completion and the outbox
    worker: the statements of all workers, interleaved in any order and struck
    by any database faults, as the step relation [billing_step], with the
    invariant that ties completed items, outbox rows, spend events and
    cumulative spend together. *)

From S2P Require Import Prelude PyVal Errors BatchModels BatchDb Scheduling BatchItems BatchOutbox.

(** ** Counting by a key *)

Lemma cnt_key {A} (key : A -> string) (t : list A) k :
  NoDup (map key t) ->
  cnt (fun x => String.eqb (key x) k) t = if bool_decide (k ∈ map key t) then 1 else 0.
Proof.
  induction t as [|x t IH]; intros Hnd; [done|]. cbn [map] in *. apply NoDup_cons in Hnd as [Hx Hnd].
  rewrite cnt_cons, (IH Hnd). destruct (String.eqb_spec (key x) k) as [<-|Hne].
  - rewrite (bool_decide_false (key x ∈ map key t)) by done.
    rewrite (bool_decide_true (key x ∈ key x :: map key t)); [done|by left].
  - assert (He : k ∈ key x :: map key t <-> k ∈ map key t) by (rewrite elem_of_cons; naive_solver).
    by rewrite (bool_decide_ext _ _ He).
Qed.

Lemma bool_decide_eq_true_iff_cnt (P : Prop) `{Decision P} : (if bool_decide P then 1 else 0) = 1 <-> P.
Proof. by case_bool_decide. Qed.

(** ** Amounts *)

(** The entity an increment addresses: a non-empty identifier. *)
Definition entity (o : option string) : option string :=
  match o with Some i => if Str.is_empty i then None else Some i | None => None end.

Definition charge (sel : spend_event -> option string) (k : string) (e : spend_event) : Q :=
  if bool_decide (entity (sel e) = Some k) && negb (Qle_bool (se_spend e) 0) then se_spend e else 0%Q.

(** The positive spend of the events of entity [k]. *)
Definition charged (sel : spend_event -> option string) (k : string) (log : list spend_event) : Q :=
  foldr (fun e acc => charge sel k e + acc)%Q 0%Q log.

(** Every row of a spend table holds its initial amount plus what was charged;
    no row appears or disappears. *)
Definition table_balanced (sel : spend_event -> option string) (t0 t : gmap string Q)
    (log : list spend_event) : Prop :=
  forall k, match t0 !! k, t !! k with
            | Some a, Some b => (b == a + charged sel k log)%Q
            | None, None => True
            | _, _ => False
            end.

Definition ledger_balanced (l0 l : ledger) (log : list spend_event) : Prop :=
  table_balanced (fun e => Some (se_api_key e)) (lg_tokens l0) (lg_tokens l) log /\
  table_balanced se_user_id (lg_users l0) (lg_users l) log /\
  table_balanced se_team_id (lg_teams l0) (lg_teams l) log /\
  table_balanced se_organization_id (lg_organizations l0) (lg_organizations l) log.

Lemma charged_snoc sel k log e : (charged sel k (log ++ [e]) == charged sel k log + charge sel k e)%Q.
Proof.
  induction log as [|x log IH]; simpl; [ring|]. rewrite IH. ring.
Qed.

Lemma table_balanced_snoc sel t0 t log e :
  table_balanced sel t0 t log ->
  table_balanced sel t0 (if Qle_bool (se_spend e) 0 then t else increment_table (se_spend e) (sel e) t) (log ++ [e]).
Proof.
  intros H k. specialize (H k). destruct (Qle_bool (se_spend e) 0) eqn:Es.
  - assert (Hc : charge sel k e = 0%Q) by (unfold charge; by rewrite Es, andb_false_r).
    destruct (t0 !! k), (t !! k); try done. by rewrite charged_snoc, Hc, H, Qplus_0_r.
  - assert (Hx : match entity (sel e) with
                 | Some i => increment_table (se_spend e) (sel e) t = alter (fun x => x + se_spend e)%Q i t
                 | None => increment_table (se_spend e) (sel e) t = t end).
    { unfold entity, increment_table. destruct (sel e) as [i|]; [|done]. by destruct (Str.is_empty i). }
    assert (Hc : charge sel k e = if bool_decide (entity (sel e) = Some k) then se_spend e else 0%Q).
    { unfold charge. rewrite Es. by rewrite andb_true_r. }
    destruct (entity (sel e)) as [i|] eqn:Ei; rewrite Hx.
    + destruct (decide (i = k)) as [->|Hne].
      * rewrite lookup_alter_eq. rewrite bool_decide_true in Hc by done.
        destruct (t0 !! k), (t !! k); simpl; try done. rewrite charged_snoc, Hc, H. ring.
      * rewrite lookup_alter_ne by done. rewrite bool_decide_false in Hc by congruence.
        destruct (t0 !! k), (t !! k); try done. by rewrite charged_snoc, Hc, H, Qplus_0_r.
    + rewrite bool_decide_false in Hc by done.
      destruct (t0 !! k), (t !! k); try done. by rewrite charged_snoc, Hc, H, Qplus_0_r.
Qed.

Lemma ledger_balanced_snoc l0 l log e :
  ledger_balanced l0 l log -> ledger_balanced l0 (increment_spend e l) (log ++ [e]).
Proof.
  intros (H1 & H2 & H3 & H4). unfold increment_spend.
  pose proof (table_balanced_snoc (fun e => Some (se_api_key e)) _ _ _ e H1) as K1.
  pose proof (table_balanced_snoc se_user_id _ _ _ e H2) as K2.
  pose proof (table_balanced_snoc se_team_id _ _ _ e H3) as K3.
  pose proof (table_balanced_snoc se_organization_id _ _ _ e H4) as K4.
  destruct (Qle_bool (se_spend e) 0); split_and!; assumption.
Qed.

(** ** The steps of the system *)

(** What never changes in an outbox row. *)
Definition outbox_key (r : Outbox.outbox_row) :=
  (Outbox.completion_id r, Outbox.batch_id r, Outbox.item_id r, Outbox.payload_json r, Outbox.max_attempts r).

(** The bare completions of the repository, which no caller uses. *)
Definition bare_completion (op : item_op) : bool :=
  match op with OpComplete _ _ _ | OpCompleteBulk _ _ _ _ => true | _ => false end.

(** What a worker completes an item with is built by the execution of the item,
    from any job, answer and costs. *)
Inductive executed : item_completion -> Prop :=
  | executed_row now job item_id claim_epoch model execution_mode response_body usage provider_cost billed_cost
      api_provider api_base deployment_model :
      executed (completion_row now job item_id claim_epoch model execution_mode response_body usage provider_cost
                  billed_cost api_provider api_base deployment_model).

(** Its payload bills what the item row records. *)
Lemma executed_billed_alike i : executed i -> cp_billed_cost (icp_outbox_payload i) = cm_billed_cost (icp_completion i).
Proof. by destruct 1. Qed.

Section system.
Context (json_dumps : pyval -> option string) (py_str : pyval -> string).

Inductive billing_step : db -> db -> Prop :=
  | bs_items op s :
      bare_completion op = false -> billing_step s (run_item_op json_dumps py_str op s)
  (* what the statements of the job repository make of the job table *)
  | bs_jobs t s : billing_step s (on_jobs (fun _ => t) s)
  | bs_complete now held uuid4 l worker s :
      NoDup (map icp_item_id l) -> Forall executed l ->
      billing_step s (fst (complete_items_with_outbox_bulk now held uuid4 l worker s))
  | bs_claim now held worker lease limit_ s :
      billing_step s (fst (claim_due now held worker lease limit_ s))
  | bs_renew now id worker lease s :
      billing_step s (fst (renew_lease now id worker lease s))
  | bs_record now cfg f f' record r s :
      r ∈ outbox s -> outbox_key record = outbox_key r ->
      billing_step s (fst (run_record now cfg f f' record s)).

(** ** The invariant *)

Definition outbox_unique (t : list Outbox.outbox_row) : Prop :=
  NoDup (map Outbox.completion_id t) /\ NoDup (map Outbox.item_id t).

Record billing_ok (l0 : ledger) (s : db) : Prop := {
  bo_items : items_ok s;
  bo_outbox : outbox_unique (outbox s);
  bo_enqueued : forall r, r ∈ outbox s -> exists it,
    item_row (Outbox.item_id r) s = Some it /\ Item.status it = BatchItemStatus.COMPLETED /\
    Item.billed_cost it = cp_billed_cost (Outbox.payload_json r);
  bo_completed : forall it, it ∈ items s -> Item.status it = BatchItemStatus.COMPLETED ->
    Item.item_id it ∈ map Outbox.item_id (outbox s);
  bo_log : NoDup (map se_id (spend_log s));
  bo_events : forall e, e ∈ spend_log s -> exists r,
    r ∈ outbox s /\ e = event_of r /\ payload_key (Outbox.payload_json r) <> "";
  bo_sent : forall r, r ∈ outbox s -> Outbox.status r = BatchCompletionOutboxStatus.SENT ->
    payload_key (Outbox.payload_json r) <> "" -> event_of r ∈ spend_log s;
  bo_ledger : ledger_balanced l0 (spend s) (spend_log s)
}.

Lemma event_of_key r r' : outbox_key r = outbox_key r' -> event_of r = event_of r'.
Proof. unfold outbox_key, event_of. intros [= -> -> -> -> _]. done. Qed.

(** A statement that updates outbox rows and leaves their keys. *)
Lemma billing_ok_update_outbox l0 p f s :
  billing_ok l0 s ->
  (forall r, outbox_key (f r) = outbox_key r) ->
  (forall r, r ∈ outbox s -> p r = true -> Outbox.status (f r) = BatchCompletionOutboxStatus.SENT ->
     Outbox.status r = BatchCompletionOutboxStatus.SENT \/
     (payload_key (Outbox.payload_json r) <> "" -> event_of r ∈ spend_log s)) ->
  billing_ok l0 (on_outbox (update_where p f) s).
Proof.
  intros [H1 [H2 H2'] H3 H4 H5 H6 H7 H8] Hk Hsent.
  assert (Hkey : forall r, outbox_key (if p r then f r else r) = outbox_key r).
  { intros r. destruct (p r); auto. }
  assert (Hproj : forall r, Outbox.completion_id (f r) = Outbox.completion_id r /\ Outbox.item_id (f r) = Outbox.item_id r).
  { intros r. specialize (Hk r). unfold outbox_key in Hk. split; congruence. }
  split; cbn [on_outbox items outbox spend_log spend]; try assumption.
  - split; rewrite keys_update; try done; apply Hproj.
  - intros r (r0 & Hr0 & ->)%elem_update. destruct (H3 r0 Hr0) as (it & Hit & Hst & Hc). exists it.
    specialize (Hkey r0). unfold outbox_key in Hkey. injection Hkey as _ _ -> -> _. done.
  - intros it Hit Hst. rewrite keys_update; [by apply H4|apply Hproj].
  - intros e He. destruct (H6 e He) as (r & Hr & -> & Hne). exists (if p r then f r else r). split_and!.
    + apply elem_update. eauto.
    + by rewrite (event_of_key _ _ (Hkey r)).
    + specialize (Hkey r). unfold outbox_key in Hkey. injection Hkey as _ _ _ -> _. done.
  - intros r (r0 & Hr0 & ->)%elem_update Hst Hne. rewrite (event_of_key _ _ (Hkey r0)).
    assert (Hne0 : payload_key (Outbox.payload_json r0) <> "").
    { specialize (Hkey r0). unfold outbox_key in Hkey. injection Hkey as _ _ _ Hp _. by rewrite Hp in Hne. }
    destruct (p r0) eqn:Ep; [|auto]. destruct (Hsent r0 Hr0 Ep Hst); auto.
Qed.

(** The rows found by key are the same row. *)
Lemma outbox_same s r r' :
  outbox_unique (outbox s) -> r ∈ outbox s -> r' ∈ outbox s ->
  Outbox.completion_id r = Outbox.completion_id r' -> r = r'.
Proof. intros [H _] Hr Hr' Heq. by eapply (NoDup_map_inj Outbox.completion_id). Qed.

(** Billing a row: logged at most once, charged when logged. *)
Lemma billing_ok_log l0 s r :
  billing_ok l0 s -> r ∈ outbox s -> payload_key (Outbox.payload_json r) <> "" ->
  let s' := fst (log_spend_once (event_of r) s) in
  billing_ok l0 s' /\ event_of r ∈ spend_log s' /\ outbox s' = outbox s /\
  is_ret (snd (log_spend_once (event_of r) s)) = true.
Proof.
  intros [H1 H2 H3 H4 H5 H6 H7 H8] Hr Hne. unfold log_spend_once, write_event_once, mbind, st_bind.
  destruct (existsb _ (spend_log s)) eqn:E; cbn [fst snd mret st_ret modify is_ret].
  - split; [done|]. split; [|done]. apply existsb_exists in E as (e & He%list_elem_of_In & Hid%String.eqb_eq).
    destruct (H6 e He) as (r' & Hr' & -> & _). by rewrite (outbox_same s r r').
  - assert (Hnot : se_id (event_of r) ∉ map se_id (spend_log s)).
    { intros (e & He & Hin)%list_elem_of_fmap. rewrite <- not_true_iff_false, existsb_exists in E.
      apply E. exists e. rewrite <- list_elem_of_In. split; [done|]. by rewrite He, String.eqb_refl. }
    split; [split|]; cbn [on_spend on_spend_log items outbox spend_log spend]; try assumption.
    + rewrite map_app. apply NoDup_app. split_and!; [done| |apply NoDup_singleton].
      intros x Hx ->%list_elem_of_singleton. done.
    + intros e [He| ->%list_elem_of_singleton]%elem_of_app; [auto|eauto].
    + intros r' Hr' Hst Hk. apply elem_of_app. left. auto.
    + by apply ledger_balanced_snoc.
    + split; [|done]. apply elem_of_app. right. by left.
Qed.

(** ** Items outside completions *)

Definition same_billing (s s' : db) : Prop :=
  outbox s' = outbox s /\ spend_log s' = spend_log s /\ spend s' = spend s.

Lemma update_no_completion p f s it :
  (forall r, p r = true -> Item.status (f r) <> BatchItemStatus.COMPLETED) ->
  it ∈ update_where p f (items s) -> Item.status it = BatchItemStatus.COMPLETED -> it ∈ items s.
Proof.
  intros Hf (r & Hr & ->)%elem_update Hst. destruct (p r) eqn:E; [|done]. by apply Hf in Hst.
Qed.

Lemma insert_chunks_no_completion uuid4 now b starts l s it :
  let s' := fst (insert_chunks json_dumps py_str uuid4 now b starts l s) in
  same_billing s s' /\
  (it ∈ items s' -> Item.status it = BatchItemStatus.COMPLETED -> it ∈ items s).
Proof.
  revert s. induction starts as [|k starts IH]; intros s; [by split|]. cbn [insert_chunks].
  unfold mbind, st_bind, insert_chunk. destruct (insert_items _ (items s)) as [[t n]|e] eqn:E; [|by split].
  apply insert_items_spec in E as (new & -> & Hs & _).
  destruct (IH (on_items (fun _ => items s ++ new) s)) as [Hf Hin].
  destruct (insert_chunks _ _ _ _ _ _ _ _) as [s2 [m|e]]; cbn [fst] in *;
    (split; [exact Hf|]; intros Hit Hst; specialize (Hin Hit Hst); cbn [on_items items] in Hin;
     apply elem_of_app in Hin as [Hin|Hin]; [done|exfalso];
     apply (sublist_elem _ _ _ Hs), elem_of_lookup_imap in Hin as (i & c & -> & _); done).
Qed.

Lemma no_completion op s it :
  bare_completion op = false ->
  same_billing s (run_item_op json_dumps py_str op s) /\
  (it ∈ items (run_item_op json_dumps py_str op s) -> Item.status it = BatchItemStatus.COMPLETED -> it ∈ items s).
Proof.
  intros Hb. destruct op; try discriminate; cbn [run_item_op].
  - unfold create_items. destruct l as [|c l]; [by split|apply insert_chunks_no_completion].
  - split; [done|]. by apply update_no_completion.
  - unfold release_items_for_retry. destruct ids as [|i ids]; [by split|]. destruct epochs as [epochs|]; [|by split].
    case_match; [by split|]. split; [done|]. by apply update_no_completion.
  - unfold mark_item_failed. destruct worker_id as [w|]; [|by split]. destruct epoch as [e|]; [|by split].
    destruct retryable; (split; [done|]; by apply update_no_completion).
  - split; [done|]. apply update_no_completion. intros r Hr. destruct epoch as [e|]; [|done].
    apply owned_spec in Hr as (_ & _ & _ & Hst). simpl. by rewrite Hst.
  - split; [done|]. by apply update_no_completion.
  - unfold release_claim_items. destruct ids as [|i ids]; [by split|]. split; [done|]. by apply update_no_completion.
  - split; [done|]. by apply update_no_completion.
  - split; [done|]. by apply update_no_completion.
  - split; [done|]. by apply update_no_completion.
Qed.

(** A finished row stays, through any item operation. *)
Lemma completed_row_kept s s' id it :
  rtc items_step s s' -> unique_keys (items s) ->
  item_row id s = Some it -> Item.status it = BatchItemStatus.COMPLETED -> item_row id s' = Some it.
Proof.
  intros Hs U Hit Hst. destruct (items_steps_row (eq it) s s' id it) as (it' & Hit' & <-); auto.
  intros ? r1 <- Hr. apply row_step_terminal in Hr. by rewrite Hst in Hr.
Qed.

Lemma billing_ok_items l0 op s :
  bare_completion op = false -> billing_ok l0 s -> billing_ok l0 (run_item_op json_dumps py_str op s).
Proof.
  intros Hb [H1 H2 H3 H4 H5 H6 H7 H8].
  assert (Hno : forall it, _) by (intros it; exact (no_completion op s it Hb)).
  destruct (Hno (sample_row "" s)) as ((Eo & El & Es) & _).
  pose proof (run_item_op_steps json_dumps py_str op s) as Hs.
  split; rewrite ?Eo, ?El, ?Es; try assumption.
  - by eapply items_ok_steps.
  - intros r Hr. destruct (H3 r Hr) as (it & Hit & Hst & Hc). exists it. split; [|done].
    eapply completed_row_kept; eauto. apply H1.
  - intros it Hit Hst. apply H4; [|done]. by apply (Hno it).
Qed.

(** ** Completions *)

Lemma insert_outbox_spec rows t t' ids :
  insert_outbox rows t = Ret (t', ids) ->
  exists new, t' = t ++ new /\ sublist new rows /\ ids = map Outbox.completion_id new /\
              (outbox_unique t -> outbox_unique t').
Proof.
  revert t t' ids. induction rows as [|r rows IH]; intros t t' ids H; simpl in H.
  { simplify_eq. exists []. rewrite app_nil_r. split_and!; [done|constructor|done|done]. }
  destruct (existsb _ t) eqn:E1 in H.
  { destruct (IH _ _ _ H) as (new & -> & Hs & -> & Hu). exists new. split_and!; [done|by constructor|done|done]. }
  destruct (existsb _ t) eqn:E2 in H; [done|].
  apply res_bind_ret in H as ([t1 ids1] & H1 & H). apply ret_inj in H. simplify_eq.
  destruct (IH _ _ _ H1) as (new & -> & Hs & -> & Hu). exists (r :: new).
  split_and!; [by rewrite <- app_assoc|by constructor|done|]. intros [U1 U2]. apply Hu.
  assert (Hno : forall x, x ∈ t -> Outbox.item_id x <> Outbox.item_id r /\ Outbox.completion_id x <> Outbox.completion_id r).
  { intros x Hx. rewrite list_elem_of_In in Hx. rewrite <- not_true_iff_false, existsb_exists in E1, E2.
    split; intros Hxr; [apply E1|apply E2]; exists x; (split; [done|]); by rewrite Hxr, String.eqb_refl. }
  unfold outbox_unique. rewrite !map_app. cbn [map]. split; apply NoDup_app; (split; [assumption|]);
    (split; [|apply NoDup_singleton]); intros k (x & -> & Hx)%list_elem_of_fmap;
    rewrite list_elem_of_singleton; intros Hk; destruct (Hno x Hx) as [N1 N2]; congruence.
Qed.

Lemma enqueue_many_rows now uuid4 records s :
  records <> [] ->
  enqueue_many now uuid4 records s =
    match insert_outbox (imap (fun i c => new_outbox_row now (uuid4 i) c) records) (outbox s) with
    | Ret (t, ids) => (on_outbox (fun _ => t) s, Ret ids)
    | Raise e => (s, Raise e)
    end.
Proof. by destruct records. Qed.

Lemma sublist_all {A} (l1 l2 : list A) : sublist l1 l2 -> length l1 = length l2 -> l1 = l2.
Proof.
  induction 1 as [|x l1 l2 _ IH|x l1 l2 Hs _]; [done| |].
  - intros [= Hl]. by rewrite IH.
  - intros Hl. apply sublist_length in Hs. simpl in Hl. lia.
Qed.

(** A bulk completion changes nothing or completes and enqueues every item. *)
Lemma complete_spec now held uuid4 l worker s :
  unique_keys (items s) -> NoDup (map icp_item_id l) ->
  let s' := fst (complete_items_with_outbox_bulk now held uuid4 l worker s) in
  s' = s \/
  exists w rows,
    worker = Some w /\ Forall (completable held w s) (map icp_completion l) /\
    snd (complete_items_with_outbox_bulk now held uuid4 l worker s) = Ret R_completed /\
    items s' = update_where (id_in (map icp_item_id l)) (complete_from now (map icp_completion l)) (items s) /\
    outbox s' = outbox s ++ rows /\ (outbox_unique (outbox s) -> outbox_unique (outbox s')) /\
    spend_log s' = spend_log s /\ spend s' = spend s /\ jobs s' = jobs s /\
    Forall2 (fun i r => Outbox.item_id r = icp_item_id i /\ Outbox.payload_json r = icp_outbox_payload i /\
                        Outbox.status r = BatchCompletionOutboxStatus.QUEUED) l rows.
Proof.
  intros U Hnd. unfold complete_items_with_outbox_bulk. destruct l as [|i0 l0] eqn:El; [by left|]. rewrite <- El in *.
  unfold transaction, run_in_current_repo, mbind, st_bind.
  assert (Hids : map cm_item_id (map icp_completion l) = map icp_item_id l) by (by rewrite map_map).
  destruct (bulk_completion_spec now held (map icp_completion l) worker s U) as [E|(w & -> & Hc & E)];
    [by rewrite Hids|by rewrite El|rewrite E; by left|]. rewrite E, Hids. clear E.
  rewrite enqueue_many_rows by (by rewrite El). cbn [on_items outbox].
  destruct (insert_outbox _ _) as [[t ids]|e] eqn:Eins; [|by left].
  apply insert_outbox_spec in Eins as (new & -> & Hsub & -> & Hu).
  destruct (Nat.eqb (length (map Outbox.completion_id new)) (length l)) eqn:En; [|by left].
  apply Nat.eqb_eq in En. rewrite length_map in En.
  right. exists w, new. cbn [fst snd mret st_ret on_outbox on_items items jobs outbox spend_log spend]. split_and!; try done.
  assert (Hl : length new = length (imap (fun i c => new_outbox_row now (uuid4 i) c)
      (map (fun i => mkOutboxCreate (cp_batch_id (icp_outbox_payload i)) (icp_item_id i) (icp_outbox_payload i)
                       BatchCompletionOutboxStatus.QUEUED 0 (if icp_outbox_max_attempts i =? 0 then 5 else icp_outbox_max_attempts i)
                       None None) l))) by (by rewrite length_imap, length_map).
  rewrite (sublist_all _ _ Hsub Hl). apply Forall2_same_length_lookup_2.
  - by rewrite length_imap, length_map.
  - intros j i r Hi Hr. rewrite list_lookup_imap, list_lookup_fmap, Hi in Hr. simpl in Hr. by simplify_eq.
Qed.


Lemma complete_is_step now held uuid4 l worker s :
  items_step s (fst (complete_items_with_outbox_bulk now held uuid4 l worker s)).
Proof.
  unfold complete_items_with_outbox_bulk. destruct l as [|i0 l0] eqn:El; [by apply items_step_same|]. rewrite <- El.
  unfold transaction. destruct (run_in_current_repo _ _ _ _ _ s) as [s' [r|e]] eqn:E; [|by apply items_step_same].
  unfold run_in_current_repo, mbind, st_bind in E.
  pose proof (bulk_is_step now held (map icp_completion l) worker s) as H.
  destruct (mark_items_completed_bulk _ _ _ _ s) as [s1 [[]|e]]; cbn [fst] in H; [|by simplify_eq|by simplify_eq].
  destruct (enqueue_many _ _ _ s1) as [s2 [ids|e]] eqn:E2; [|by simplify_eq].
  assert (Hi : items s2 = items s1).
  { unfold enqueue_many in E2. destruct (map _ l); [by simplify_eq|]. by destruct (insert_outbox _ _) as [[? ?]|?]; simplify_eq. }
  assert (Es : s' = s2) by (by destruct (Nat.eqb _ _); unfold mret, st_ret, raise in E; simplify_eq).
  rewrite <- Es in Hi. intros U. destruct (H U) as (U' & f & new & E1 & Hf & Hn). cbn [fst]. rewrite Hi.
  split; [done|]. by exists f, new.
Qed.

Lemma billing_ok_complete l0 now held uuid4 l worker s :
  NoDup (map icp_item_id l) -> Forall executed l -> billing_ok l0 s ->
  billing_ok l0 (fst (complete_items_with_outbox_bulk now held uuid4 l worker s)).
Proof.
  intros Hnd Halike Hok. pose proof Hok as [H1 H2 H3 H4 H5 H6 H7 H8].
  pose proof (complete_is_step now held uuid4 l worker s) as Hstep.
  destruct (complete_spec now held uuid4 l worker s (proj1 H1) Hnd)
    as [->|(w & rows & -> & Hcan & _ & Ei & Eo & Hu & El & Es & _ & Hrows)]; [done|].
  set (s' := fst _) in *. rewrite Forall_forall in Hcan. rewrite Forall_forall in Halike.
  assert (Hs : rtc items_step s s') by (by apply rtc_once).
  (* the row of a completed item *)
  assert (Hdone : forall i, i ∈ l -> exists it, item_row (icp_item_id i) s' = Some it /\
     Item.status it = BatchItemStatus.COMPLETED /\ Item.billed_cost it = cp_billed_cost (icp_outbox_payload i)).
  { intros i Hi. destruct (Hcan (icp_completion i)) as (e & r & _ & Hr & _); [by apply list_elem_of_fmap_2|].
    unfold item_row. rewrite Ei, (row_at_update Item.item_id).
    2:{ intros x. unfold complete_from. by destruct (payload_for _ _). }
    unfold item_row in Hr. fold (icp_item_id i) in Hr. rewrite Hr. simpl.
    apply row_at_key in Hr as [_ Hid]. replace (id_in (map icp_item_id l) r) with true
      by (symmetry; apply bool_decide_eq_true; rewrite Hid; by apply list_elem_of_fmap_2).
    eexists. split; [done|]. unfold complete_from.
    destruct (payload_for_some (Item.item_id r) (map icp_completion l) (icp_completion i)) as [c Hc];
      [by apply list_elem_of_fmap_2|done|]. rewrite Hc. split; [done|]. simpl. rewrite (executed_billed_alike i (Halike i Hi)). f_equal.
    apply find_some in Hc as [Hc Hcid%String.eqb_eq].
    apply list_elem_of_In, list_elem_of_fmap in Hc as (j & -> & Hj).
    assert (j = i) as ->; [|done]. eapply (NoDup_map_inj icp_item_id l); eauto. unfold icp_item_id in *. congruence. }
  assert (Hold : forall r, r ∈ outbox s -> exists it, item_row (Outbox.item_id r) s' = Some it /\
     Item.status it = BatchItemStatus.COMPLETED /\ Item.billed_cost it = cp_billed_cost (Outbox.payload_json r)).
  { intros r Hr. destruct (H3 r Hr) as (it & Hit & Hst & Hc). exists it. split; [|done].
    eapply completed_row_kept; eauto. apply H1. }
  assert (Hnew : forall r, r ∈ rows -> exists i, i ∈ l /\ Outbox.item_id r = icp_item_id i /\
     Outbox.payload_json r = icp_outbox_payload i /\ Outbox.status r = BatchCompletionOutboxStatus.QUEUED).
  { intros r (j & Hj)%list_elem_of_lookup. destruct (Forall2_lookup_r _ _ _ _ _ Hrows Hj) as (i & Hi & H).
    exists i. split; [by eapply list_elem_of_lookup_2|done]. }
  split; rewrite ?Eo, ?El, ?Es; try assumption.
  - by eapply items_ok_steps.
  - rewrite <- Eo. by apply Hu.
  - intros r [Hr|Hr]%elem_of_app; [by apply Hold|].
    destruct (Hnew r Hr) as (i & Hi & -> & -> & _). by apply Hdone.
  - intros it Hit Hst. rewrite map_app, elem_of_app. rewrite Ei in Hit.
    apply elem_update in Hit as (r & Hr & ->). destruct (id_in (map icp_item_id l) r) eqn:E; [|left; by apply H4].
    right. apply bool_decide_eq_true, list_elem_of_fmap in E as (i & Hid & (j & Hj)%list_elem_of_lookup).
    destruct (Forall2_lookup_l _ _ _ _ _ Hrows Hj) as (ob & Hob & Hobid & _).
    assert (Hcid : Item.item_id (complete_from now (map icp_completion l) r) = Item.item_id r)
      by (unfold complete_from; by destruct (payload_for _ _)).
    rewrite Hcid, Hid, <- Hobid. apply list_elem_of_fmap_2. by eapply list_elem_of_lookup_2.
  - intros e He. destruct (H6 e He) as (r & Hr & ? & ?). exists r. split; [|done]. apply elem_of_app. by left.
  - intros r [Hr|Hr]%elem_of_app Hst Hk; [auto|]. destruct (Hnew r Hr) as (i & _ & _ & _ & Hq). congruence.
Qed.

(** ** Outbox statements *)

Lemma billing_ok_no_sent l0 p f s :
  billing_ok l0 s -> (forall r, outbox_key (f r) = outbox_key r) ->
  (forall r, Outbox.status (f r) = BatchCompletionOutboxStatus.SENT -> Outbox.status r = BatchCompletionOutboxStatus.SENT) ->
  billing_ok l0 (on_outbox (update_where p f) s).
Proof. intros Hok Hk Hf. apply billing_ok_update_outbox; auto. Qed.

Lemma billing_ok_deliver l0 now worker record r s :
  billing_ok l0 s -> r ∈ outbox s -> outbox_key record = outbox_key r ->
  billing_ok l0 (fst (record_durable_success_with_dependencies now worker record s)).
Proof.
  intros Hok Hr Hk. unfold record_durable_success_with_dependencies, mbind, st_bind.
  rewrite (event_of_key _ _ Hk). replace (Outbox.payload_json record) with (Outbox.payload_json r)
    by (unfold outbox_key in Hk; congruence).
  replace (Outbox.completion_id record) with (Outbox.completion_id r) by (unfold outbox_key in Hk; congruence).
  assert (Hsent : forall s1, billing_ok l0 s1 -> outbox s1 = outbox s ->
    (payload_key (Outbox.payload_json r) <> "" -> event_of r ∈ spend_log s1) ->
    billing_ok l0 (fst (mark_sent now (Outbox.completion_id r) worker s1))).
  { intros s1 Hok1 Eo Hlog. apply billing_ok_update_outbox; [done|done|]. intros x Hx Hp _. right.
    unfold processing_by in Hp. rewrite !andb_true_iff, String.eqb_eq in Hp. destruct Hp as [[Hid _] _].
    rewrite (outbox_same s x r); [done|apply Hok|by rewrite <- Eo|done|done]. }
  destruct (Str.is_empty (payload_key (Outbox.payload_json r))) eqn:Ek.
  - apply Hsent; [done|done|]. intros Hne. unfold Str.is_empty in Ek. by apply String.eqb_eq in Ek.
  - assert (Hne : payload_key (Outbox.payload_json r) <> "") by (by apply String.eqb_neq).
    destruct (billing_ok_log l0 s r Hok Hr Hne) as (Hok1 & Hin & Eo & Hret).
    destruct (log_spend_once (event_of r) s) as [s1 [x|e]]; [|done]. cbn [fst] in *. by apply Hsent.
Qed.

Lemma with_fault_keeps {A} (P : db -> Prop) f (m : st db exn A) s :
  P s -> P (fst (m s)) -> P (fst (with_fault f m s)).
Proof. intros Hs Hm. destruct f; cbn [with_fault fst]; [|done|]; by apply transaction_keeps. Qed.

Lemma billing_ok_record l0 now cfg f f' record r s :
  billing_ok l0 s -> r ∈ outbox s -> outbox_key record = outbox_key r ->
  billing_ok l0 (fst (run_record now cfg f f' record s)).
Proof.
  intros Hok Hr Hk. assert (Hd : billing_ok l0 (fst (record_durable_success now (ow_worker_id cfg) f record s))).
  { unfold record_durable_success. apply (with_fault_keeps (billing_ok l0)); [done|]. by eapply billing_ok_deliver. }
  unfold run_record, try_except, process_record, mbind, st_bind, try_except.
  destruct (record_durable_success _ _ _ _ s) as [s1 [d|e]]; cbn [fst] in Hd; [done|].
  assert (Hfail : forall A (g : A) p h, (forall r, outbox_key (h r) = outbox_key r) ->
    (forall r, Outbox.status (h r) = BatchCompletionOutboxStatus.SENT -> Outbox.status r = BatchCompletionOutboxStatus.SENT) ->
    billing_ok l0 (fst (with_fault f' (update_any p h) s1))).
  { intros A g p h Hh Hst. apply (with_fault_keeps (billing_ok l0)); [done|]. by apply billing_ok_no_sent. }
  destruct (Outbox.attempt_count record >=? Outbox.max_attempts record).
  - assert (Hx : billing_ok l0 (fst (with_fault f' (mark_failed now (Outbox.completion_id record) (ow_worker_id cfg) (exn_str e)) s1)))
      by (by apply (Hfail unit tt)).
    by destruct (with_fault f' (mark_failed _ _ _ _) s1) as [s2 [b|e']].
  - assert (Hx : billing_ok l0 (fst (with_fault f' (mark_retry now (Outbox.completion_id record) (ow_worker_id cfg) (exn_str e)
        (after_seconds now (retry_seconds cfg (Outbox.attempt_count record)))) s1))) by (by apply (Hfail unit tt)).
    by destruct (with_fault f' (mark_retry _ _ _ _ _) s1) as [s2 [b|e']].
Qed.

Lemma billing_ok_step l0 s s' : billing_step s s' -> billing_ok l0 s -> billing_ok l0 s'.
Proof.
  intros Hs Hok. destruct Hs as [op s Hb|t s|now held uuid4 l worker s Hnd Ha|now held worker lease n s
                                |now id worker lease s|now cfg f f' record r s Hr Hk].
  - by apply billing_ok_items.
  - destruct Hok. by split.
  - by apply billing_ok_complete.
  - by apply billing_ok_no_sent.
  - by apply billing_ok_no_sent.
  - by eapply billing_ok_record.
Qed.

(** The start: empty tables and any cumulative spend.  Jobs come, change and go
    with the steps [bs_jobs], which allow the job table to become anything. *)
Definition initial_db (l0 : ledger) : db := mkDb [] [] [] [] [] l0.

Lemma table_balanced_initial sel t : table_balanced sel t t [].
Proof. intros k. destruct (t !! k); [|done]. simpl. by rewrite Qplus_0_r. Qed.

Lemma billing_ok_reachable l0 s : rtc billing_step (initial_db l0) s -> billing_ok l0 s.
Proof.
  intros Hs. assert (H0 : billing_ok l0 (initial_db l0)).
  { split; cbn [initial_db items outbox spend_log spend]; try (by intros ? ?%elem_of_nil); try (by constructor).
    - exact items_ok_empty.
    - split; constructor.
    - split_and!; apply table_balanced_initial. }
  induction Hs as [|s1 s2 s3 H _ IH]; [done|]. apply IH. by eapply billing_ok_step.
Qed.

(** C1: Exactly-once billing.  However the statements of any number of batch
    workers, operators and outbox workers interleave, whatever becomes of the
    jobs in between, and whatever the database rolls back or commits without
    acknowledging, as long as the rows of items and outbox are not deleted, as
    retention does after their time: an item is completed exactly
    when it has an outbox row, and it has one; every row is billed by at most one
    spend event, by exactly one once it is marked sent (when it names a key), and
    the event charges the item's recorded cost to that key; nothing else is
    charged; and every key, user, team and organization has spent its initial
    amount plus the positive charges of its events. *)
Theorem billing_exactly_once l0 s :
  rtc billing_step (initial_db l0) s ->
  (forall it, it ∈ items s ->
     (Item.status it = BatchItemStatus.COMPLETED <->
      cnt (fun r => String.eqb (Outbox.item_id r) (Item.item_id it)) (outbox s) = 1)) /\
  (forall r, r ∈ outbox s ->
     (exists it, item_row (Outbox.item_id r) s = Some it /\
                 forall e, e ∈ spend_log s -> se_id e = Outbox.completion_id r ->
                   e = event_of r /\ se_spend e = Item.billed_cost it) /\
     cnt (fun e => String.eqb (se_id e) (Outbox.completion_id r)) (spend_log s) <= 1 /\
     (Outbox.status r = BatchCompletionOutboxStatus.SENT -> payload_key (Outbox.payload_json r) <> "" ->
      cnt (fun e => String.eqb (se_id e) (Outbox.completion_id r)) (spend_log s) = 1)) /\
  (forall e, e ∈ spend_log s -> exists r, r ∈ outbox s /\ e = event_of r) /\
  ledger_balanced l0 (spend s) (spend_log s).
Proof.
  intros [H1 [H2 H2'] H3 H4 H5 H6 H7 H8]%billing_ok_reachable. split_and!.
  - intros it Hit. rewrite (cnt_key Outbox.item_id _ _ H2'). rewrite bool_decide_eq_true_iff_cnt. split.
    + intros Hst. by apply H4.
    + intros (r & Hr & Hin)%list_elem_of_fmap. destruct (H3 r Hin) as (it' & Hit' & Hst & _).
      apply row_at_key in Hit' as [Hit' Hid]. rewrite <- Hr in Hid. destruct H1 as [(U & _) _].
      by rewrite (NoDup_map_inj Item.item_id _ _ _ U Hit Hit' (eq_sym Hid)).
  - intros r Hr. split_and!.
    + destruct (H3 r Hr) as (it & Hit & _ & Hc). exists it. split; [done|]. intros e He Hid.
      destruct (H6 e He) as (r' & Hr' & -> & _). rewrite (outbox_same s r' r) by done. by rewrite Hc.
    + rewrite (cnt_key se_id _ _ H5). case_bool_decide; lia.
    + intros Hst Hk. rewrite (cnt_key se_id _ _ H5), bool_decide_true; [done|].
      change (Outbox.completion_id r) with (se_id (event_of r)). apply list_elem_of_fmap_2. by apply H7.
  - intros e He. destruct (H6 e He) as (r & Hr & -> & _). eauto.
  - done.
Qed.

End system.

(** ** One delivery *)

(** The row of a completion id. *)
Definition outbox_row_of (id : string) (s : db) : option Outbox.outbox_row :=
  row_at Outbox.completion_id id (outbox s).

Lemma update_outbox_row p f id s r :
  (forall r, Outbox.completion_id (f r) = Outbox.completion_id r) ->
  outbox_row_of id s = Some r -> p r = true ->
  outbox_row_of id (on_outbox (update_where p f) s) = Some (f r).
Proof.
  intros Hf Hr Hp. unfold outbox_row_of in *. cbn [on_outbox outbox].
  rewrite (row_at_update Outbox.completion_id) by done. rewrite Hr. simpl. by rewrite Hp.
Qed.

Lemma any_row_select (f : Outbox.outbox_row -> Outbox.outbox_row) p (r : Outbox.outbox_row) t : r ∈ t -> p r = true -> any_row (map f (select_where p t)) = true.
Proof.
  intros Hr Hp. assert (H : r ∈ select_where p t) by (by apply elem_select).
  destruct (select_where p t); [by apply elem_of_nil in H|done].
Qed.

(** A guarded update of the row a worker processes succeeds on that row. *)
Lemma owned_update id worker f s r :
  (forall r, Outbox.completion_id (f r) = Outbox.completion_id r) ->
  outbox_row_of id s = Some r -> Outbox.status r = BatchCompletionOutboxStatus.PROCESSING ->
  Outbox.locked_by r = Some worker ->
  let '(s', res) := update_any (processing_by id worker) f s in
  res = Ret true /\ outbox_row_of id s' = Some (f r) /\ spend_log s' = spend_log s.
Proof.
  intros Hf Hr Hst Hl. pose proof (row_at_key _ _ _ _ Hr) as [Hin Hid].
  assert (Hp : processing_by id worker r = true).
  { unfold processing_by. rewrite Hid, Hst, Hl. simpl. by rewrite !String.eqb_refl. }
  unfold update_any, update_outbox, mbind, st_bind, mret, st_ret.
  rewrite (any_row_select f _ r) by done. split_and!; [done|by apply update_outbox_row|done].
Qed.

(** What one delivery does to the row it was claimed for.  When nothing
    fails the row is sent, and so it is when only the acknowledgement was lost.
    When the transaction is rolled back nothing is billed and the row is retried
    after a delay, or failed for good exactly when its attempts have reached the
    maximum; the delay lies between the configured initial and maximum. *)
Theorem delivery_outcome now cfg f r s :
  let id := Outbox.completion_id r in
  outbox_row_of id s = Some r -> Outbox.status r = BatchCompletionOutboxStatus.PROCESSING ->
  Outbox.locked_by r = Some (ow_worker_id cfg) ->
  let s' := fst (run_record now cfg f NoFault r s) in
  let delay := retry_seconds cfg (Outbox.attempt_count r) in
  match f with
  | NoFault | AckLost _ => outbox_row_of id s' = Some (sent_row now r)
  | RolledBack e =>
      spend_log s' = spend_log s /\
      outbox_row_of id s' =
        Some (if Outbox.attempt_count r >=? Outbox.max_attempts r then failed_row now (exn_str e) r
              else retrying_row now (exn_str e) (after_seconds now delay) r)
  end /\
  (0 <= ow_retry_initial_seconds cfg <= ow_retry_max_seconds cfg ->
   ow_retry_initial_seconds cfg <= delay <= ow_retry_max_seconds cfg).
Proof.
  intros id Hr Hst Hl s' delay. split; [|unfold delay, retry_seconds; nia].
  assert (Hdel : exists s1, record_durable_success_with_dependencies now (ow_worker_id cfg) r s = (s1, Ret true)
                            /\ outbox_row_of id s1 = Some (sent_row now r)).
  { unfold record_durable_success_with_dependencies.
    set (log := if Str.is_empty (payload_key (Outbox.payload_json r)) then _ else _).
    assert (Hlog : exists s1 x, log s = (s1, Ret x) /\ outbox s1 = outbox s).
    { unfold log. case_match; [by exists s, L_duplicate|]. unfold log_spend_once, write_event_once, mbind, st_bind.
      destruct (existsb _ _); [by exists s, L_duplicate|by eexists _, L_inserted]. }
    destruct Hlog as (s1 & x & Hlog & Eo). unfold mbind at 1, st_bind at 1. rewrite Hlog.
    pose proof (owned_update id (ow_worker_id cfg) (sent_row now) s1 r) as H. unfold outbox_row_of in H, Hr.
    rewrite Eo in H. specialize (H (fun _ => eq_refl) Hr Hst Hl). unfold mark_sent. fold id.
    destruct (update_any _ _ s1) as [s2 res]. destruct H as (-> & H & _).
    exists s2. done. }
  destruct Hdel as (s1 & Hdel & Hrow1).
  unfold s', run_record, process_record, record_durable_success, try_except.
  destruct f as [|e|e]; cbn [with_fault].
  - unfold transaction, mbind, st_bind. by rewrite Hdel.
  - unfold mbind, st_bind. destruct (Outbox.attempt_count r >=? Outbox.max_attempts r) eqn:Ea.
    + pose proof (owned_update id (ow_worker_id cfg) (failed_row now (exn_str e)) s r (fun _ => eq_refl) Hr Hst Hl) as H.
      unfold mark_failed, with_fault, transaction. fold id.
      destruct (update_any _ _ s) as [s2 res]. by destruct H as (-> & H & Hs).
    + pose proof (owned_update id (ow_worker_id cfg) (retrying_row now (exn_str e) (after_seconds now delay)) s r
                    (fun _ => eq_refl) Hr Hst Hl) as H.
      unfold mark_retry, with_fault, transaction. fold id delay.
      destruct (update_any _ _ s) as [s2 res]. by destruct H as (-> & H & Hs).
  - assert (Hp : processing_by id (ow_worker_id cfg) (sent_row now r) = false).
    { unfold processing_by. rewrite (bool_decide_false (Outbox.status (sent_row now r) = _)) by done.
      by rewrite andb_false_r. }
    assert (Hno : forall g, (forall r, Outbox.completion_id (g r) = Outbox.completion_id r) ->
        outbox_row_of id (fst (with_fault NoFault (update_any (processing_by id (ow_worker_id cfg)) g) s1))
        = Some (sent_row now r) /\
        is_ret (snd (with_fault NoFault (update_any (processing_by id (ow_worker_id cfg)) g) s1)) = true).
    { intros g Hg. unfold with_fault, transaction, update_any, mbind, st_bind, update_outbox, mret, st_ret.
      cbn [fst snd]. split; [|done]. unfold outbox_row_of in *. cbn [on_outbox outbox].
      rewrite (row_at_update Outbox.completion_id) by done. rewrite Hrow1. cbn [fmap option_fmap option_map]. by rewrite Hp. }
    unfold mbind, st_bind. cbn beta. rewrite (transaction_ret _ _ _ _ Hdel). cbn [fst].
    destruct (Outbox.attempt_count r >=? Outbox.max_attempts r).
    + destruct (Hno (failed_row now (exn_str e)) (fun _ => eq_refl)) as [H1 H2]. unfold mark_failed. fold id.
      destruct (with_fault NoFault _ s1) as [s2 [b|e']]; [done|done].
    + destruct (Hno (retrying_row now (exn_str e) (after_seconds now delay)) (fun _ => eq_refl)) as [H1 H2]. unfold mark_retry. fold id delay.
      destruct (with_fault NoFault _ s1) as [s2 [b|e']]; [done|done].
Qed.

(** ** A whole iteration of the outbox worker is such steps *)

Section iteration.
Context (json_dumps : pyval -> option string) (py_str : pyval -> string).

(** The keys of the outbox rows. *)
Definition outbox_keys (s : db) := map outbox_key (outbox s).

Lemma update_any_keys p f s :
  (forall r, outbox_key (f r) = outbox_key r) -> outbox_keys (fst (update_any p f s)) = outbox_keys s.
Proof. intros H. unfold outbox_keys, update_any. cbn. by apply keys_update. Qed.

Lemma run_record_keys now cfg f f' record s : outbox_keys (fst (run_record now cfg f f' record s)) = outbox_keys s.
Proof.
  assert (Hd : outbox_keys (fst (record_durable_success now (ow_worker_id cfg) f record s)) = outbox_keys s).
  { unfold record_durable_success. apply (with_fault_keeps (fun s' => outbox_keys s' = outbox_keys s)); [done|].
    unfold record_durable_success_with_dependencies, mbind, st_bind.
    set (log := if Str.is_empty (payload_key (Outbox.payload_json record)) then _ else _).
    assert (Hlog : outbox_keys (fst (log s)) = outbox_keys s /\ is_ret (snd (log s)) = true).
    { unfold log. case_match; [done|]. unfold log_spend_once, write_event_once, mbind, st_bind.
      by destruct (existsb _ _). }
    destruct (log s) as [s1 [x|e]]; [|by destruct Hlog]. destruct Hlog as [Hlog _]. cbn [fst] in Hlog.
    unfold mark_sent. by rewrite update_any_keys. }
  unfold run_record, try_except, process_record, mbind, st_bind, try_except.
  destruct (record_durable_success _ _ _ _ s) as [s1 [d|e]]; cbn [fst] in Hd; [done|].
  destruct (Outbox.attempt_count record >=? Outbox.max_attempts record).
  - assert (Hx : outbox_keys (fst (with_fault f' (mark_failed now (Outbox.completion_id record) (ow_worker_id cfg) (exn_str e)) s1)) = outbox_keys s).
    { apply (with_fault_keeps (fun s' => outbox_keys s' = outbox_keys s)); [done|]. unfold mark_failed. by rewrite update_any_keys. }
    by destruct (with_fault f' (mark_failed _ _ _ _) s1) as [s2 [b|e']].
  - assert (Hx : outbox_keys (fst (with_fault f' (mark_retry now (Outbox.completion_id record) (ow_worker_id cfg) (exn_str e)
        (after_seconds now (retry_seconds cfg (Outbox.attempt_count record)))) s1)) = outbox_keys s).
    { apply (with_fault_keeps (fun s' => outbox_keys s' = outbox_keys s)); [done|]. unfold mark_retry. by rewrite update_any_keys. }
    by destruct (with_fault f' (mark_retry _ _ _ _ _) s1) as [s2 [b|e']].
Qed.

Lemma process_once_steps now held cfg faults s :
  rtc (billing_step json_dumps py_str) s (fst (process_once now held cfg faults s)).
Proof.
  unfold process_once, mbind, st_bind.
  pose proof (bs_claim json_dumps py_str now held (ow_worker_id cfg) (ow_lease_seconds cfg) (ow_max_batch_size cfg) s) as Hc.
  destruct (claim_due now held _ _ _ s) as [s1 [claimed|e]] eqn:E; [|by apply rtc_once].
  eapply rtc_l; [exact Hc|]. cbn [fst].
  assert (Hin : forall r, r ∈ claimed -> outbox_key r ∈ outbox_keys s1).
  { unfold claim_due, update_outbox in E. injection E as <- <-. intros r (r0 & -> & [Hr0 Hp]%elem_select)%list_elem_of_fmap.
    unfold outbox_keys. apply list_elem_of_fmap_2. cbn [on_outbox outbox]. apply elem_update. exists r0. by rewrite Hp. }
  clear Hc E s. revert s1 Hin. induction claimed as [|r claimed IH]; intros s1 Hin; [constructor|].
  cbn [for_each]. unfold mbind, st_bind.
  set (m := run_record now cfg _ _ r). assert (Hm : is_ret (snd (m s1)) = true).
  { unfold m, run_record, try_except. by match goal with |- context [match ?x with _ => _ end] => destruct x as [? [?|?]] end. }
  assert (Hk : outbox_keys (fst (m s1)) = outbox_keys s1) by apply run_record_keys.
  assert (Hs : billing_step json_dumps py_str s1 (fst (m s1))).
  { destruct (list_elem_of_fmap outbox_key (outbox s1) (outbox_key r)) as [H _].
    destruct (H (Hin r ltac:(by left))) as (r' & Hr' & Hr'in). by eapply bs_record. }
  destruct (m s1) as [s2 [[]|e]]; [|done]. cbn [fst] in *. eapply rtc_l; [exact Hs|].
  specialize (IH s2). rewrite Hk in IH. specialize (IH (fun x Hx => Hin x (proj2 (elem_of_cons _ _ _) (or_intror Hx)))).
  destruct (for_each claimed _ s2) as [s3 [[]|e]]; exact IH.
Qed.
End iteration.

(** ** Examples *)

Definition sample_payload (id : string) : CompletionPayload :=
  mkPayload "" "batch" id (Some " key ") None (Some "team") None "m" "embedding_batch" (PyDict []) (3 # 4) (1 # 2)
    "openai" None None "managed_internal" 0.

Definition sample_item_completion (id : string) (epoch : Z) : item_completion :=
  completion_row 0 sample_live_job id epoch "m" "managed_internal" [] [] (1 # 2) (3 # 4) "openai" None None.

Definition sample_ledger : ledger :=
  mkLedger {[ "key" := 5%Q ]} ∅ {[ "team" := 1%Q ]} ∅ ∅.

Definition sample_config : BatchCompletionOutboxWorkerConfig := mkOutboxConfig "o" 50 30 5 300.

Definition bill1 : db := run_item_op sample_dumps sample_str
  (OpCreate 0 "batch" sample_uuid [sample_create 1 "x"; sample_create 2 "y"]) (initial_db sample_ledger).
Definition bill2 : db := run_item_op sample_dumps sample_str
  (OpClaim usec nothing_held "batch" "a" 5 60) bill1.
Definition bill3 : db := fst (complete_items_with_outbox_bulk (2 * usec) nothing_held (fun n => "c" ++ sample_uuid n)%string
  [sample_item_completion "0" 1; sample_item_completion "1" 1] (Some "a") bill2).

(** The commit of the first delivery of "c0" is not acknowledged, that of "c1"
    is rolled back; the second iteration delivers the rest. *)
Definition sample_faults (id : string) : fault * fault :=
  if String.eqb id "c0" then (AckLost EAsyncioTimeout, NoFault) else (RolledBack EAsyncioTimeout, NoFault).
Definition bill4 : db := fst (process_once (3 * usec) nothing_held sample_config sample_faults bill3).
Definition bill5 : db := fst (process_once (20 * usec) nothing_held sample_config (fun _ => (NoFault, NoFault)) bill4).

Lemma sample_bill_steps : rtc (billing_step sample_dumps sample_str) (initial_db sample_ledger) bill5.
Proof.
  apply (rtc_l _ _ bill1); [apply bs_items; reflexivity|].
  apply (rtc_l _ _ bill2); [apply bs_items; reflexivity|].
  apply (rtc_l _ _ bill3).
  { apply bs_complete; [apply (bool_decide_unpack _); vm_compute; exact I|repeat constructor]. }
  transitivity bill4; apply process_once_steps.
Qed.

Lemma billing_exactly_once_witness :
  map (fun r => (Outbox.status r, Outbox.attempt_count r)) (outbox bill5)
    = [(BatchCompletionOutboxStatus.SENT, 1); (BatchCompletionOutboxStatus.SENT, 2)] /\
  length (spend_log bill5) = 2%nat /\
  ledger_balanced sample_ledger (spend bill5) (spend_log bill5).
Proof.
  split_and!; [vm_compute; reflexivity|vm_compute; reflexivity|].
  exact (proj2 (proj2 (proj2 (billing_exactly_once sample_dumps sample_str sample_ledger bill5 sample_bill_steps)))).
Defined.

Definition sample_claimed : Outbox.outbox_row :=
  claim_outbox_row (3 * usec) "o" 30
    (new_outbox_row (2 * usec) "c0"
       (mkOutboxCreate "batch" "0" (sample_payload "0") BatchCompletionOutboxStatus.QUEUED 0 1 None None)).

Lemma delivery_outcome_witness :
  let s := on_outbox (fun _ => [sample_claimed]) (initial_db sample_ledger) in
  outbox_row_of "c0" (fst (run_record (4 * usec) sample_config (RolledBack EAsyncioTimeout) NoFault sample_claimed s))
    = Some (failed_row (4 * usec) "" sample_claimed).
Proof.
  intros s.
  destruct (delivery_outcome (4 * usec) sample_config (RolledBack EAsyncioTimeout) sample_claimed s)
    as [[_ H] _]; [reflexivity|reflexivity|reflexivity|]. exact H.
Defined.
