(* ===== verification/WorkClaim.v ===== *)
(** * Claiming a slice of work

    [src/batch/scheduling/size_aging.py] and the claim statement of
    [src/batch/repositories/job_repository.py]: one statement picks a job, locks
    its next runnable items in line order, cuts them at the item, slot and
    work-unit limits, and leases them to the worker.  [SizeAging] is the rank of
    jobs under size-aware scheduling, once as the Python function and once as the
    expression inside the statement.  [recommend_next_work] is the read-only
    decision that shadow mode compares with the claim. *)

From Stdlib Require Import Qround Qminmax.
From S2P Require Import Prelude PyVal Errors BatchModels BatchDb Scheduling BatchItems.
Import BatchItemStatus.

(** ** Orders made of columns *)

Definition then_by (c d : comparison) : comparison := match c with Eq => d | _ => c end.
Definition le_of (c : comparison) : bool := match c with Gt => false | _ => true end.

(** [ASC NULLS FIRST] *)
Definition nulls_first (x y : option Z) : comparison :=
  match x, y with
  | None, None => Eq
  | None, Some _ => Lt
  | Some _, None => Gt
  | Some a, Some b => Z.compare a b
  end.

(** ** Size-aware ranking *)
Module SizeAging.

Definition LARGE_SIZE_CLASSES : list string := ["l"; "xl"].

Record aging_policy : Type := mkAging {
  aging_seconds_per_work_unit : Z;
  max_age_credit_work_units : Z;
  min_large_job_claim_interval_seconds : Z;
  small_job_max_work_units : Z
}.

Record BatchJobRankInput : Type := mkRankInput {
  ri_remaining_work_units : Z;
  ri_service_tier_weight : Z;
  ri_queue_entered_at : option Z;
  ri_last_scheduled_at : option Z;
  ri_size_class : string
}.

Record BatchJobRankResult : Type := mkRankResult {
  rk_rank : Q;
  rk_age_credit_work_units : Z;
  rk_policy_reason : string;
  rk_large_job_progress_floor : bool
}.

Definition is_large_size_class (size_class : option string) : bool :=
  bool_decide (Str.lower (Str.strip (default "" size_class)) ∈ LARGE_SIZE_CLASSES).

(** [timedelta.total_seconds()] *)
Definition total_seconds (us : Z) : Q := (inject_Z us / inject_Z usec)%Q.

Definition calculate_size_aging_rank (job : BatchJobRankInput) (now : Z) (p : aging_policy) : BatchJobRankResult :=
  let queue_entered_at := default now (ri_queue_entered_at job) in
  let queue_age_seconds := Qmax 0 (total_seconds (now - queue_entered_at)) in
  let age_credit_score := Qmin (inject_Z (Z.max 0 (max_age_credit_work_units p)))
                               (queue_age_seconds / inject_Z (Z.max 1 (aging_seconds_per_work_unit p))) in
  let age_credit_work_units := Qfloor age_credit_score in
  let normalized_remaining := (inject_Z (Z.max 1 (ri_remaining_work_units job))
                               / inject_Z (Z.max 1 (ri_service_tier_weight job)))%Q in
  let rank := Qmax 0 (normalized_remaining - age_credit_score) in
  let interval := min_large_job_claim_interval_seconds p in
  let large_progress_floor :=
    is_large_size_class (Some (ri_size_class job)) && (0 <? interval)
    && Qle_bool (inject_Z interval)
         (total_seconds (now - default queue_entered_at (ri_last_scheduled_at job))) in
  let reason :=
    if large_progress_floor then "large_job_progress_floor"
    else if 0 <? age_credit_work_units then "aging_credit"
    else if Qle_bool normalized_remaining (inject_Z (Z.max 1 (small_job_max_work_units p)))
         then "small_remaining_work"
    else "tenant_fair_share" in
  mkRankResult rank age_credit_work_units reason large_progress_floor.

Definition tuned_claim_item_limit (max_items min_items_for_microbatch : Z) (size_class : option string) : Z :=
  let bounded_max_items := Z.max 1 max_items in
  if negb (is_large_size_class size_class) then bounded_max_items
  else
    let floor := Z.min bounded_max_items (Z.max 1 min_items_for_microbatch) in
    Z.max floor ((bounded_max_items + 1) / 2).

(** *** The same as SQL

    The parameters the statement gets: zero stands for the default. *)
Definition sql_aging (p : aging_policy) : aging_policy :=
  let or n d := if n =? 0 then d else n in
  mkAging (Z.max 1 (or (aging_seconds_per_work_unit p) 30))
          (Z.max 0 (max_age_credit_work_units p))
          (Z.max 0 (min_large_job_claim_interval_seconds p))
          (Z.max 1 (or (small_job_max_work_units p) 100)).

Definition queue_time (j : Job.batch_job) : Z := default (Job.created_at j) (Job.queue_entered_at j).

(** [GREATEST(COALESCE(remaining_work_units, ...), 1)]: the column is never null. *)
Definition sql_remaining (j : Job.batch_job) : Q := inject_Z (Z.max (Job.remaining_work_units j) 1).

Definition sql_age_credit (now : Z) (q : aging_policy) (j : Job.batch_job) : Q :=
  Qmin (inject_Z (max_age_credit_work_units q))
       (Qmax 0 (total_seconds (now - queue_time j) / inject_Z (aging_seconds_per_work_unit q))).

(** [LOWER(COALESCE(NULLIF(size_class, ''), 'unknown')) IN ('l', 'xl')] *)
Definition sql_large (j : Job.batch_job) : bool :=
  bool_decide (Str.lower (if Str.is_empty (Job.size_class j) then "unknown" else Job.size_class j)
               ∈ LARGE_SIZE_CLASSES).

Definition sql_large_floor (now : Z) (q : aging_policy) (j : Job.batch_job) : bool :=
  let interval := min_large_job_claim_interval_seconds q in
  sql_large j && (0 <? interval)
  && (default (queue_time j) (Job.last_scheduled_at j) <=? after_seconds now (- interval)).

Definition sql_rank (now : Z) (p : aging_policy) (j : Job.batch_job) : BatchJobRankResult :=
  let q := sql_aging p in
  let credit := sql_age_credit now q j in
  mkRankResult
    (Qmax 0 (sql_remaining j - credit))
    (Qfloor credit)
    (if sql_large_floor now q j then "large_job_progress_floor"
     else if 0 <? Qfloor credit then "aging_credit"
     else if Qle_bool (sql_remaining j) (inject_Z (small_job_max_work_units q)) then "small_remaining_work"
     else "tenant_fair_share")
    (sql_large_floor now q j).

Definition sql_selected_max_items (n min_items : Z) (j : Job.batch_job) : Z :=
  if sql_large j then Z.max (Z.min n (Z.max 1 (if min_items =? 0 then 1 else min_items))) ((n + 1) / 2) else n.

End SizeAging.

(** ** The claim *)

(** The keyword arguments of [claim_next_work] and [recommend_next_work]. *)
Record work_request : Type := mkWorkRequest {
  worker_id : string;
  max_items : Z;
  max_work_units : Z;
  lease_seconds : Z;
  allowed_model_groups : list string;
  wr_service_tier : option string;
  legacy_only : bool;
  claim_order : string;
  capacity_model_group : option string;
  capacity_service_tier : option string;
  capacity_max_in_flight_items : option Z;
  capacity_max_in_flight_work_units : option Z;
  wr_tenant_scope_type : option string;
  wr_tenant_scope_id : option string;
  allow_oversized_first_item : bool;
  size_aware_scheduling_enabled : bool;
  aging : SizeAging.aging_policy;
  work_claim_min_items_for_microbatch : Z
}.

Record BatchWorkClaim : Type := mkWorkClaim {
  wc_claim_id : string;
  wc_worker_id : string;
  wc_batch_id : string;
  wc_endpoint : string;
  wc_model_group : option string;
  wc_tenant_scope_type : option string;
  wc_tenant_scope_id : option string;
  wc_service_tier : string;
  wc_item_ids : list string;
  wc_claimed_work_units : Z;
  wc_lease_expires_at : Z
}.

Record BatchWorkRecommendation : Type := mkWorkRecommendation {
  wn_batch_id : string;
  wn_endpoint : string;
  wn_model_group : option string;
  wn_tenant_scope_type : option string;
  wn_tenant_scope_id : option string;
  wn_service_tier : string;
  wn_size_class : string;
  wn_item_count : Z;
  wn_work_units : Z;
  wn_reason : string
}.

(** [str(value or "").strip()] *)
Definition stripped (value : option string) : string := Str.strip (default "" value).
(** [COALESCE(NULLIF(column, ''), d)] and [NULLIF(column, '')] *)
Definition text_or (d column : string) : string := if Str.is_empty column then d else column.
Definition nullif_empty (column : option string) : option string :=
  match column with Some t => if Str.is_empty t then None else Some t | None => None end.

Definition bounded_max_items (r : work_request) : Z := Z.max 1 (Z.min (max_items r) 200).
Definition bounded_max_work_units (r : work_request) : Z := Z.max 1 (max_work_units r).

Definition normalized_model_groups (r : work_request) : list string :=
  List.filter (fun g => negb (Str.is_empty g)) (map Str.strip (allowed_model_groups r)).

(** [str(capacity_service_tier or service_tier or "standard").strip() or "standard"] *)
Definition normalized_capacity_service_tier (r : work_request) : string :=
  let truthy o := match o with Some t => if Str.is_empty t then None else Some t | None => None end in
  text_or "standard"
    (Str.strip (default "standard" (coalesce (truthy (capacity_service_tier r)) (truthy (wr_service_tier r))))).

(** The columns [IN ('queued', 'in_progress')], free of a live lease. *)
Definition job_claimable (now : Z) (j : Job.batch_job) : bool :=
  match Job.status j with
  | BatchJobStatus.QUEUED | BatchJobStatus.IN_PROGRESS => true
  | _ => false
  end
  && (match Job.locked_by j with None => true | Some _ => false end
      || null_or (fun t => t <? now) (Job.lease_expires_at j)).

(** The optional filters.  The claim compares the tier column as it is, the
    recommendation through [COALESCE(NULLIF(...), 'standard')]: [tier_of]. *)
Definition job_filters (tier_of : Job.batch_job -> string) (r : work_request) (j : Job.batch_job) : bool :=
  let groups := normalized_model_groups r in
  let tier := stripped (wr_service_tier r) in
  let scope_type := stripped (wr_tenant_scope_type r) in
  let scope_id := stripped (wr_tenant_scope_id r) in
  match groups with [] => true | _ => if_set (fun g => bool_decide (g ∈ groups)) (Job.scheduling_model_group j) end
  && (Str.is_empty tier || String.eqb (tier_of j) tier)
  && (Str.is_empty scope_type || Str.is_empty scope_id
      || sql_eq (Job.tenant_scope_type j) scope_type && sql_eq (Job.tenant_scope_id j) scope_id)
  && (negb (legacy_only r)
      || String.eqb (default "fifo_v1" (nullif_empty (Job.scheduler_version j))) "fifo_v1"
         && null_or Str.is_empty (Job.scheduling_model_group j)).

(** *** Capacity *)

Definition est (i : Item.batch_item) : Z := Z.max 1 (Item.estimated_work_units i).

Definition capacity_group (s : db) (i : Item.batch_item) : option string :=
  match job_row (Item.batch_id i) s with
  | Some j => coalesce (nullif_empty (Item.scheduling_model_group i)) (nullif_empty (Job.scheduling_model_group j))
  | None => None
  end.

(** A row of [capacity_usage]. *)
Definition in_flight (now : Z) (group tier : string) (s : db) (i : Item.batch_item) : bool :=
  bool_decide (Item.status i = IN_PROGRESS) && null_or (fun t => now <? t) (Item.lease_expires_at i)
  && sql_eq (capacity_group s i) group
  && match job_row (Item.batch_id i) s with
     | Some j => String.eqb (text_or "standard" (Job.service_tier j)) tier
     | None => false
     end.

Definition in_flight_items (now : Z) (group tier : string) (s : db) : Z :=
  cnt (in_flight now group tier s) (items s).
Definition in_flight_work_units (now : Z) (group tier : string) (s : db) : Z :=
  zsum (map est (select_where (in_flight now group tier s) (items s))).

(** [capacity_state]: the remaining slots and work units, when the request is
    limited. *)
Definition capacity_state (now : Z) (r : work_request) (s : db) : option (Z * Z) :=
  let group := stripped (capacity_model_group r) in
  let tier := normalized_capacity_service_tier r in
  match capacity_max_in_flight_items r with
  | Some n =>
      if Str.is_empty group then None
      else Some (Z.max (Z.max 0 n - in_flight_items now group tier s) 0,
                 match capacity_max_in_flight_work_units r with
                 | Some u => Z.max (Z.max 0 u - in_flight_work_units now group tier s) 0
                 | None => bounded_max_work_units r
                 end)
  | None => None
  end.

Definition capacity_open (c : option (Z * Z)) : bool :=
  match c with Some (slots, units) => (0 <? slots) && (0 <? units) | None => true end.
Definition items_limit (r : work_request) (c : option (Z * Z)) : Z :=
  match c with Some (slots, _) => Z.min (bounded_max_items r) slots | None => bounded_max_items r end.
Definition work_unit_limit (r : work_request) (c : option (Z * Z)) : Z :=
  match c with Some (_, units) => Z.min (bounded_max_work_units r) units | None => bounded_max_work_units r end.

(** *** The job *)

(** The runnable items of a batch in line order. *)
Definition runnable_items (now : Z) (batch_id : string) (s : db) : list Item.batch_item :=
  order_by by_line (select_where (fun i => in_batch batch_id i && runnable now i) (items s)).

Definition has_head_item (now : Z) (r : work_request) (c : option (Z * Z)) (s : db) (j : Job.batch_job) : bool :=
  match runnable_items now (Job.batch_id j) s with
  | [] => false
  | i :: _ => allow_oversized_first_item r || (est i <=? work_unit_limit r c)
  end.

Definition size_aware (r : work_request) : bool :=
  size_aware_scheduling_enabled r || String.eqb (claim_order r) "size_aging".

Definition fifo_order (x y : Job.batch_job) : comparison :=
  then_by (Z.compare (SizeAging.queue_time x) (SizeAging.queue_time y))
    (then_by (Z.compare (Job.created_at x) (Job.created_at y))
             (String.compare (Job.batch_id x) (Job.batch_id y))).

(** [large_job_progress_floor DESC, scheduler_rank ASC], then as FIFO. *)
Definition size_order (now : Z) (p : SizeAging.aging_policy) (x y : Job.batch_job) : comparison :=
  let rx := SizeAging.sql_rank now p x in
  let ry := SizeAging.sql_rank now p y in
  then_by (match SizeAging.rk_large_job_progress_floor rx, SizeAging.rk_large_job_progress_floor ry with
           | true, false => Lt
           | false, true => Gt
           | _, _ => Eq
           end)
    (then_by (Qcompare (SizeAging.rk_rank rx) (SizeAging.rk_rank ry)) (fifo_order x y)).

(** The claim leaves ties of the round-robin order open; the recommendation
    breaks them by id. *)
Definition round_robin_order (ties : comparison) (x y : Job.batch_job) : comparison :=
  then_by (nulls_first (Job.last_scheduled_at x) (Job.last_scheduled_at y))
    (then_by (Z.compare (SizeAging.queue_time x) (SizeAging.queue_time y))
       (then_by (Z.compare (Job.created_at x) (Job.created_at y)) ties)).

Definition job_order (now : Z) (r : work_request) (x y : Job.batch_job) : bool :=
  le_of (if size_aware r then size_order now (aging r) x y
         else if String.eqb (claim_order r) "fifo" then fifo_order x y
         else round_robin_order Eq x y).

Definition selected_job (now : Z) (held_job : string -> bool) (r : work_request) (s : db)
  : option Job.batch_job :=
  let c := capacity_state now r s in
  head (order_by (job_order now r)
    (select_where (fun j => job_claimable now j && job_filters Job.service_tier r j && capacity_open c
                            && has_head_item now r c s j && negb (held_job (Job.batch_id j))) (jobs s))).

(** *** The items *)

Definition claim_items_limit (r : work_request) (c : option (Z * Z)) (j : Job.batch_job) : Z :=
  if size_aware r
  then Z.min (items_limit r c)
             (SizeAging.sql_selected_max_items (bounded_max_items r) (work_claim_min_items_for_microbatch r) j)
  else items_limit r c.

(** [candidate_items] and [eligible_items]: the running sum of the work units
    against the limit; the first row passes when oversized items are allowed. *)
Fixpoint eligible_items (limit_ : Z) (oversized : bool) (sum : Z) (l : list Item.batch_item)
  : list Item.batch_item :=
  match l with
  | [] => []
  | i :: l' =>
      let cumulative_work_units := sum + est i in
      let rest := eligible_items limit_ false cumulative_work_units l' in
      if (cumulative_work_units <=? limit_) || oversized then i :: rest else rest
  end.

Definition locked_items (now : Z) (held_item : string -> bool) (r : work_request) (s : db)
    (j : Job.batch_job) : list Item.batch_item :=
  limit (claim_items_limit r (capacity_state now r s) j)
    (List.filter (fun i => negb (held_item (Item.item_id i))) (runnable_items now (Job.batch_id j) s)).

Definition claimed_items (now : Z) (held_item : string -> bool) (r : work_request) (s : db)
    (j : Job.batch_job) : list Item.batch_item :=
  eligible_items (work_unit_limit r (capacity_state now r s)) (allow_oversized_first_item r) 0
    (locked_items now held_item r s j).

(** [updated_job] *)
Definition schedule_job (now : Z) (j : Job.batch_job) : Job.batch_job :=
  Job.set_status (match Job.status j with BatchJobStatus.QUEUED => BatchJobStatus.IN_PROGRESS | x => x end)
    (Job.set_started_at (coalesce (Job.started_at j) (Some now))
      (Job.set_first_claimed_at (coalesce (Job.first_claimed_at j) (Some now))
        (Job.set_last_claimed_at (Some now) (Job.set_last_scheduled_at (Some now)
          (Job.set_locked_by None (Job.set_lease_expires_at None
            (Job.set_status_last_updated_at now j))))))).

Definition work_units (l : list Item.batch_item) : Z := zsum (map est l).

Definition claim_next_work_with_client (now : Z) (uuid4 : string) (held_job held_item : string -> bool)
    (r : work_request) : st db exn (option BatchWorkClaim) := fun s =>
  match selected_job now held_job r s with
  | None => (s, Ret None)
  | Some j =>
      let claimed := claimed_items now held_item r s j in
      match claimed with
      | [] => (s, Ret None)
      | _ =>
          (on_items (update_where (id_in (map Item.item_id claimed)) (claim_row now (worker_id r) (lease_seconds r)))
             (on_jobs (update_where (fun x => String.eqb (Job.batch_id x) (Job.batch_id j) && job_claimable now x)
                                    (schedule_job now)) s),
           Ret (Some (mkWorkClaim uuid4 (worker_id r) (Job.batch_id j) (Job.endpoint j)
                        (Job.scheduling_model_group j) (Job.tenant_scope_type j) (Job.tenant_scope_id j)
                        (text_or "standard" (Job.service_tier j)) (map Item.item_id claimed)
                        (work_units claimed) (after_seconds now (lease_seconds r)))))
      end
  end.

(** A limit of zero answers before any statement; a limited request needs a
    client with transactions ([has_tx]), whose advisory lock serialises the
    claims of one model group and tier. *)
Definition claim_next_work (now : Z) (has_tx : bool) (uuid4 : string) (held_job held_item : string -> bool)
    (r : work_request) : st db exn (option BatchWorkClaim) :=
  match capacity_max_in_flight_items r with
  | Some n =>
      if Str.is_empty (stripped (capacity_model_group r))
      then claim_next_work_with_client now uuid4 held_job held_item r
      else if (n <=? 0) || if_set (fun u => u <=? 0) (capacity_max_in_flight_work_units r) || negb has_tx
      then mret None
      else transaction (claim_next_work_with_client now uuid4 held_job held_item r)
  | None => claim_next_work_with_client now uuid4 held_job held_item r
  end.

(** *** The recommendation *)

Definition recommend_order (r : work_request) (x y : Job.batch_job) : bool :=
  le_of (if String.eqb (claim_order r) "fifo" then fifo_order x y
         else round_robin_order (String.compare (Job.batch_id x) (Job.batch_id y)) x y).

Definition recommend_row (now : Z) (reason : string) (r : work_request) (s : db)
  : option BatchWorkRecommendation :=
  let c := capacity_state now r s in
  let tier_of j := text_or "standard" (Job.service_tier j) in
  match head (order_by (recommend_order r)
               (select_where (fun j => job_claimable now j && job_filters tier_of r j && capacity_open c
                                       && has_head_item now r c s j) (jobs s))) with
  | None => None
  | Some j =>
      let eligible := eligible_items (work_unit_limit r c) (allow_oversized_first_item r) 0
                        (limit (items_limit r c) (runnable_items now (Job.batch_id j) s)) in
      match eligible with
      | [] => None
      | _ => Some (mkWorkRecommendation (Job.batch_id j) (Job.endpoint j) (Job.scheduling_model_group j)
                     (Job.tenant_scope_type j) (Job.tenant_scope_id j) (tier_of j) (Job.size_class j)
                     (Z.of_nat (length eligible)) (work_units eligible)
                     (if Str.is_empty reason then "work_slice" else reason))
      end
  end.

Definition recommend_next_work (now : Z) (reason : string) (r : work_request) (s : db)
  : option BatchWorkRecommendation :=
  match capacity_max_in_flight_items r with
  | Some n =>
      if negb (Str.is_empty (stripped (capacity_model_group r)))
         && ((n <=? 0) || if_set (fun u => u <=? 0) (capacity_max_in_flight_work_units r))
      then None
      else recommend_row now reason r s
  | None => recommend_row now reason r s
  end.

(** ** The two rankings agree *)

Definition rank_input (j : Job.batch_job) : SizeAging.BatchJobRankInput :=
  SizeAging.mkRankInput (Job.remaining_work_units j) 1 (Some (SizeAging.queue_time j))
    (Job.last_scheduled_at j) (Job.size_class j).

Lemma Qle_bool_proper a b c d : (a == b)%Q -> (c == d)%Q -> Qle_bool a c = Qle_bool b d.
Proof. intros E F. apply eq_true_iff_eq. by rewrite !Qle_bool_iff, E, F. Qed.

Lemma inject_Z_pos a : 1 <= a -> (0 < inject_Z a)%Q.
Proof. intros H. change 0%Q with (inject_Z 0). rewrite <- Zlt_Qlt. lia. Qed.

Lemma Qmax_div a x : 1 <= a -> (Qmax 0 x / inject_Z a == Qmax 0 (x / inject_Z a))%Q.
Proof.
  intros Ha%inject_Z_pos. pose proof (Qinv_lt_0_compat _ Ha) as Hi. unfold Qdiv.
  destruct (Qlt_le_dec x 0) as [H|H].
  - rewrite (Q.max_l 0 x), (Q.max_l 0 (x * / inject_Z a)) by nra. ring.
  - rewrite (Q.max_r 0 x), (Q.max_r 0 (x * / inject_Z a)) by nra. reflexivity.
Qed.

Lemma seconds_le n t now : Qle_bool (inject_Z n) (SizeAging.total_seconds (now - t)) = (t <=? after_seconds now (- n)).
Proof.
  unfold SizeAging.total_seconds, after_seconds. apply eq_true_iff_eq.
  rewrite Qle_bool_iff, Z.leb_le. split; intros H.
  - apply (Qmult_le_r _ _ (inject_Z usec)) in H; [|done].
    unfold Qdiv in H. rewrite <- Qmult_assoc, (Qmult_comm (/ _)), Qmult_inv_r, Qmult_1_r in H by done.
    rewrite <- inject_Z_mult, <- Zle_Qle in H. lia.
  - apply (Qmult_le_r _ _ (inject_Z usec)); [done|].
    unfold Qdiv. rewrite <- Qmult_assoc, (Qmult_comm (/ _)), Qmult_inv_r, Qmult_1_r by done.
    rewrite <- inject_Z_mult, <- Zle_Qle. lia.
Qed.

Lemma large_agrees j :
  Str.strip (Job.size_class j) = Job.size_class j ->
  SizeAging.is_large_size_class (Some (Job.size_class j)) = SizeAging.sql_large j.
Proof.
  intros H. unfold SizeAging.is_large_size_class, SizeAging.sql_large.
  change (default "" (Some (Job.size_class j))) with (Job.size_class j). rewrite H.
  unfold Str.is_empty. destruct (String.eqb_spec (Job.size_class j) "") as [->|_]; [by vm_compute|done].
Qed.

(** The ranking used to explain and preview a decision is the one the claim
    statement orders by: for a job of weight one, with an aging rate and a
    small-job bound that are set, [calculate_size_aging_rank] and the SQL
    expression give the same rank, age credit, reason and progress-floor flag,
    and [tuned_claim_item_limit] is the statement's item cap. *)
Theorem size_rank_agrees now p j n m :
  1 <= SizeAging.aging_seconds_per_work_unit p -> 1 <= SizeAging.small_job_max_work_units p ->
  Str.strip (Job.size_class j) = Job.size_class j -> 1 <= n ->
  let python := SizeAging.calculate_size_aging_rank (rank_input j) now p in
  let sql := SizeAging.sql_rank now p j in
  (SizeAging.rk_rank python == SizeAging.rk_rank sql)%Q /\
  SizeAging.rk_age_credit_work_units python = SizeAging.rk_age_credit_work_units sql /\
  SizeAging.rk_policy_reason python = SizeAging.rk_policy_reason sql /\
  SizeAging.rk_large_job_progress_floor python = SizeAging.rk_large_job_progress_floor sql /\
  SizeAging.tuned_claim_item_limit n m (Some (Job.size_class j)) = SizeAging.sql_selected_max_items n m j.
Proof.
  intros Ha Hs Hc Hn. pose proof (large_agrees j Hc) as Hl.
  unfold SizeAging.calculate_size_aging_rank, SizeAging.sql_rank, SizeAging.tuned_claim_item_limit,
    SizeAging.sql_selected_max_items.
  assert (Hq : SizeAging.sql_aging p =
    SizeAging.mkAging (SizeAging.aging_seconds_per_work_unit p) (Z.max 0 (SizeAging.max_age_credit_work_units p))
      (Z.max 0 (SizeAging.min_large_job_claim_interval_seconds p)) (SizeAging.small_job_max_work_units p)).
  { unfold SizeAging.sql_aging. repeat case_match; f_equal; lia. }
  rewrite Hq. unfold rank_input. cbn -[SizeAging.sql_large_floor Qmin Qmax Qfloor].
  set (credit := Qmin _ (_ / _)). set (credit' := SizeAging.sql_age_credit _ _ _).
  assert (Hcr : (credit == credit')%Q).
  { unfold credit, credit', SizeAging.sql_age_credit. cbn -[Qmin Qmax]. rewrite (Z.max_r 1) by lia.
    by rewrite Qmax_div by lia. }
  assert (Hfl : Qfloor credit = Qfloor credit') by by rewrite Hcr.
  assert (Hrem : (inject_Z (Z.max 1 (Job.remaining_work_units j)) / inject_Z 1 == SizeAging.sql_remaining j)%Q).
  { unfold SizeAging.sql_remaining. rewrite Z.max_comm. unfold Qdiv. change (/ inject_Z 1)%Q with 1%Q. ring. }
  assert (Hfloor : SizeAging.is_large_size_class (Some (Job.size_class j))
      && (0 <? SizeAging.min_large_job_claim_interval_seconds p)
      && Qle_bool (inject_Z (SizeAging.min_large_job_claim_interval_seconds p))
           (SizeAging.total_seconds (now - default (SizeAging.queue_time j) (Job.last_scheduled_at j)))
      = SizeAging.sql_large_floor now (SizeAging.mkAging (SizeAging.aging_seconds_per_work_unit p)
          (Z.max 0 (SizeAging.max_age_credit_work_units p))
          (Z.max 0 (SizeAging.min_large_job_claim_interval_seconds p)) (SizeAging.small_job_max_work_units p)) j).
  { unfold SizeAging.sql_large_floor. cbn [SizeAging.min_large_job_claim_interval_seconds].
    rewrite Hl, seconds_le. destruct (Z.ltb_spec 0 (SizeAging.min_large_job_claim_interval_seconds p)).
    - rewrite (Z.max_r 0) by lia.
      by destruct (Z.ltb_spec 0 (SizeAging.min_large_job_claim_interval_seconds p)); [|lia].
    - rewrite Z.max_l by lia. by rewrite !andb_false_r. }
  rewrite Hfloor, Hfl, Hl. split_and!; try done.
  - by rewrite Hrem, Hcr.
  - rewrite (Z.max_r 1 (SizeAging.small_job_max_work_units p)) by lia.
    do 2 (case_match; [done|]). by erewrite Qle_bool_proper; [|exact Hrem|reflexivity].
  - destruct (SizeAging.sql_large j); simpl; [|lia]. rewrite (Z.max_r 1 n) by lia.
    replace (Z.max 1 (if m =? 0 then 1 else m)) with (Z.max 1 m) by (destruct (Z.eqb_spec m 0); lia). done.
Qed.

(** ** What a claim takes *)

Lemma est_pos i : 1 <= est i.
Proof. unfold est. lia. Qed.

Lemma work_units_cons i l : work_units (i :: l) = est i + work_units l.
Proof. reflexivity. Qed.

Lemma work_units_length l : Z.of_nat (length l) <= work_units l.
Proof.
  induction l as [|i l IH]; [done|]. rewrite work_units_cons. pose proof (est_pos i). simpl length. lia.
Qed.

Lemma eligible_none limit_ sum l : limit_ < sum -> eligible_items limit_ false sum l = [].
Proof.
  revert sum. induction l as [|i l IH]; intros sum H; simpl; [done|]. pose proof (est_pos i).
  destruct (Z.leb_spec (sum + est i) limit_); [lia|]. apply IH. lia.
Qed.

(** The eligible rows are a prefix within the limit, or the first row alone. *)
Lemma eligible_prefix limit_ oversized sum l :
  let e := eligible_items limit_ oversized sum l in
  e `prefix_of` l /\ (e = [] \/ sum + work_units e <= limit_ \/ oversized = true /\ length e = 1%nat).
Proof.
  revert oversized sum. induction l as [|i l IH]; intros oversized sum; simpl; [split; [done|by left]|].
  pose proof (est_pos i). destruct (Z.leb_spec (sum + est i) limit_) as [Hle|Hgt]; cbn [orb].
  - destruct (IH false (sum + est i)) as [Hp Hs]. split; [by apply prefix_cons|]. right. left.
    rewrite work_units_cons. destruct Hs as [->|[Hs|[[=] _]]]; [|lia]. unfold work_units. simpl. lia.
  - rewrite eligible_none by lia. destruct oversized; (split; [|tauto]); [by apply prefix_cons, prefix_nil|apply prefix_nil].
Qed.

Lemma runnable_item now b s i :
  i ∈ runnable_items now b s -> i ∈ items s /\ Item.batch_id i = b /\ runnable now i = true.
Proof.
  unfold runnable_items. rewrite order_by_perm, elem_select, andb_true_iff.
  unfold in_batch. rewrite String.eqb_eq. tauto.
Qed.

Lemma runnable_items_NoDup now b s : unique_keys (items s) -> NoDup (runnable_items now b s).
Proof. intros U. unfold runnable_items. rewrite order_by_perm. by apply select_NoDup, unique_keys_NoDup. Qed.

Lemma selected_job_spec now held_job r s j :
  selected_job now held_job r s = Some j ->
  j ∈ jobs s /\ job_claimable now j = true /\ job_filters Job.service_tier r j = true /\
  capacity_open (capacity_state now r s) = true /\ held_job (Job.batch_id j) = false.
Proof.
  unfold selected_job. intros H. apply head_Some_elem_of in H. rewrite order_by_perm, elem_select in H.
  rewrite !andb_true_iff, negb_true_iff in H. tauto.
Qed.

Lemma items_limit_bounds r c : items_limit r c <= bounded_max_items r.
Proof. unfold items_limit. destruct c as [[? ?]|]; lia. Qed.
Lemma claim_items_limit_bounds r c j : claim_items_limit r c j <= items_limit r c.
Proof. unfold claim_items_limit. destruct (size_aware r); lia. Qed.
Lemma work_unit_limit_bounds r c : work_unit_limit r c <= bounded_max_work_units r.
Proof. unfold work_unit_limit. destruct c as [[? ?]|]; lia. Qed.

Section claim.
Context (now : Z) (held_item : string -> bool) (r : work_request).

Definition unheld_runnable (b : string) (s : db) : list Item.batch_item :=
  List.filter (fun i => negb (held_item (Item.item_id i))) (runnable_items now b s).

Lemma claimed_prefix s j :
  let l := claimed_items now held_item r s j in
  l `prefix_of` unheld_runnable (Job.batch_id j) s /\
  Z.of_nat (length l) <= Z.max 0 (claim_items_limit r (capacity_state now r s) j) /\
  (l = [] \/ work_units l <= work_unit_limit r (capacity_state now r s)
   \/ allow_oversized_first_item r = true /\ length l = 1%nat).
Proof.
  unfold claimed_items.
  destruct (eligible_prefix (work_unit_limit r (capacity_state now r s)) (allow_oversized_first_item r) 0
              (locked_items now held_item r s j)) as [Hp Hs].
  split_and!; [|apply prefix_length in Hp|exact Hs].
  - etransitivity; [exact Hp|]. apply prefix_take.
  - unfold locked_items, limit in Hp. rewrite length_take in Hp. unfold locked_items, limit in *. lia.
Qed.

Lemma claimed_elem s j i :
  i ∈ claimed_items now held_item r s j ->
  i ∈ items s /\ Item.batch_id i = Job.batch_id j /\ runnable now i = true /\ held_item (Item.item_id i) = false.
Proof.
  destruct (claimed_prefix s j) as [[rest Hp] _]. intros Hi.
  assert (Hu : i ∈ unheld_runnable (Job.batch_id j) s) by (rewrite Hp; apply elem_of_app; by left).
  unfold unheld_runnable in Hu. rewrite list_elem_of_In, filter_In, <- list_elem_of_In, negb_true_iff in Hu.
  destruct Hu as [Hu ?]. apply runnable_item in Hu. tauto.
Qed.

Lemma claimed_NoDup s j : unique_keys (items s) -> NoDup (claimed_items now held_item r s j).
Proof.
  intros U. destruct (claimed_prefix s j) as [[rest Hp] _].
  assert (N : NoDup (unheld_runnable (Job.batch_id j) s)).
  { apply (select_NoDup (fun i => negb (held_item (Item.item_id i)))), runnable_items_NoDup, U. }
  rewrite Hp in N. by apply NoDup_app in N as [? _].
Qed.

Context (uuid4 : string) (held_job : string -> bool).
Lemma claimed_units s j :
  allow_oversized_first_item r = false ->
  work_units (claimed_items now held_item r s j) <= bounded_max_work_units r.
Proof.
  intros Ho. destruct (claimed_prefix s j) as (_ & _ & Hw). pose proof (work_unit_limit_bounds r (capacity_state now r s)).
  destruct Hw as [->|[Hw|[Hw _]]]; [unfold work_units, bounded_max_work_units; simpl; lia|lia|congruence].
Qed.

#[local] Abbreviation claim s := (claim_next_work_with_client now uuid4 held_job held_item r s).

(** The two outcomes of the statement. *)
Lemma claim_cases s :
  claim s = (s, Ret None) \/
  exists j, selected_job now held_job r s = Some j /\
    claimed_items now held_item r s j <> [] /\
    let l := claimed_items now held_item r s j in
    claim s =
      (on_items (update_where (id_in (map Item.item_id l)) (claim_row now (worker_id r) (lease_seconds r)))
         (on_jobs (update_where (fun x => String.eqb (Job.batch_id x) (Job.batch_id j) && job_claimable now x)
                                (schedule_job now)) s),
       Ret (Some (mkWorkClaim uuid4 (worker_id r) (Job.batch_id j) (Job.endpoint j)
                    (Job.scheduling_model_group j) (Job.tenant_scope_type j) (Job.tenant_scope_id j)
                    (text_or "standard" (Job.service_tier j)) (map Item.item_id l)
                    (work_units l) (after_seconds now (lease_seconds r))))).
Proof.
  unfold claim_next_work_with_client. destruct (selected_job now held_job r s) as [j|]; [|by left].
  destruct (claimed_items now held_item r s j) as [|i l] eqn:E; [by left|].
  right. exists j. rewrite E. done.
Qed.

End claim.

(** C21: A claimed slice is exactly what was asked for.  Its items are a prefix,
    in line order, of the runnable items of one queued or running job that no
    other transaction holds; there are between one and max_items (at most 200)
    of them; together they cost at most max_work_units unless the first item
    alone is larger and oversized items are allowed; each of them is leased to
    the worker with its attempt and claim epoch increased once, and no other item
    changes.  Without a claim nothing changes. *)
Theorem work_claim_sound now uuid4 held_job held_item r s :
  unique_keys (items s) ->
  let res := claim_next_work_with_client now uuid4 held_job held_item r s in
  match snd res with
  | Raise _ => False
  | Ret None => fst res = s
  | Ret (Some c) => exists j l,
      j ∈ jobs s /\ job_claimable now j = true /\ held_job (Job.batch_id j) = false /\
      wc_batch_id c = Job.batch_id j /\ wc_item_ids c = map Item.item_id l /\
      wc_claimed_work_units c = work_units l /\
      l `prefix_of` List.filter (fun i => negb (held_item (Item.item_id i)))
                      (runnable_items now (Job.batch_id j) s) /\
      1 <= Z.of_nat (length l) <= Z.max 1 (Z.min (max_items r) 200) /\
      (work_units l <= Z.max 1 (max_work_units r)
       \/ allow_oversized_first_item r = true /\ length l = 1%nat) /\
      forall i, i ∈ items s ->
        item_row (Item.item_id i) (fst res) =
          Some (if bool_decide (Item.item_id i ∈ wc_item_ids c)
                then claim_row now (worker_id r) (lease_seconds r) i else i)
  end.
Proof.
  intros U. destruct (claim_cases now held_item r uuid4 held_job s) as [->|(j & Hj & Hne & ->)]; [done|].
  apply selected_job_spec in Hj as (Hj & Hc & _ & _ & Hh).
  destruct (claimed_prefix now held_item r s j) as (Hp & Hl & Hw).
  set (l := claimed_items now held_item r s j) in *. cbn [snd fst]. exists j, l.
  pose proof (claim_items_limit_bounds r (capacity_state now r s) j).
  pose proof (items_limit_bounds r (capacity_state now r s)).
  pose proof (work_unit_limit_bounds r (capacity_state now r s)).
  unfold bounded_max_items, bounded_max_work_units in *. split_and!; try done.
  - destruct l; [done|]. simpl length. lia.
  - lia.
  - destruct Hw as [->|[Hw|Hw]]; [done|left; lia|by right].
  - intros i Hi. unfold item_row. cbn [items on_items on_jobs].
    rewrite row_at_update by done. by rewrite row_at_elem by (done || apply U).
Qed.

(** ** Capacity *)

Lemma select_id_in_perm cand t :
  unique_keys t -> NoDup cand -> (forall r, r ∈ cand -> r ∈ t) ->
  select_where (id_in (map Item.item_id cand)) t ≡ₚ cand.
Proof.
  intros U N H. apply NoDup_Permutation; [by apply select_NoDup, unique_keys_NoDup|done|].
  intros x. rewrite elem_select. split.
  - intros [Hx Hi]. by apply (id_in_elem t).
  - intros Hx. split; [by apply H|]. apply bool_decide_eq_true_2, list_elem_of_fmap_2, Hx.
Qed.

(** Updating the rows [q] adds at most their weight to those that satisfy [P]. *)
Lemma weight_update {R} (w : R -> Z) (P q : R -> bool) (f : R -> R) t :
  (forall x, w (f x) = w x) -> (forall x, 0 <= w x) ->
  zsum (map w (select_where P (update_where q f t)))
    <= zsum (map w (select_where P t)) + zsum (map w (select_where q t)).
Proof.
  intros Hf Hw. unfold select_where, update_where. induction t as [|x t IH]; simpl; [lia|].
  pose proof (Hw x). pose proof (Hf x).
  destruct (q x), (P x); simpl; destruct (P (f x)); simpl; lia.
Qed.

Lemma zsum_ones {A} (l : list A) : zsum (map (fun _ => 1) l) = Z.of_nat (length l).
Proof. induction l as [|x l IH]; [done|]. simpl map. rewrite zsum_cons, IH. simpl length. lia. Qed.

Lemma schedule_job_row now p b s :
  job_row b (on_jobs (update_where p (schedule_job now)) s)
  = (fun j => if p j then schedule_job now j else j) <$> job_row b s.
Proof. unfold job_row. cbn [jobs on_jobs]. by rewrite row_at_update by done. Qed.

(** Scheduling a job keeps the columns that capacity is counted by. *)
Lemma in_flight_scheduled now now' group tier p f s i :
  in_flight now group tier (on_items f (on_jobs (update_where p (schedule_job now')) s)) i
  = in_flight now group tier s i.
Proof.
  unfold in_flight, capacity_group. change (job_row (Item.batch_id i) (on_items f ?x)) with (job_row (Item.batch_id i) x).
  rewrite schedule_job_row. destruct (job_row (Item.batch_id i) s) as [j|]; simpl; [|done].
  by destruct (p j).
Qed.

Lemma capacity_respected_spec now uuid4 held_job held_item r s n :
  unique_keys (items s) -> capacity_max_in_flight_items r = Some n ->
  stripped (capacity_model_group r) <> "" ->
  let group := stripped (capacity_model_group r) in
  let tier := normalized_capacity_service_tier r in
  let s' := fst (claim_next_work now true uuid4 held_job held_item r s) in
  in_flight_items now group tier s' <= Z.max (Z.max 0 n) (in_flight_items now group tier s) /\
  (forall u, capacity_max_in_flight_work_units r = Some u -> allow_oversized_first_item r = false ->
     in_flight_work_units now group tier s' <= Z.max (Z.max 0 u) (in_flight_work_units now group tier s)) /\
  (in_flight_items now group tier s >= n -> s' = s) /\
  (forall u, capacity_max_in_flight_work_units r = Some u ->
     in_flight_work_units now group tier s >= u -> s' = s).
Proof.
  intros U Hn Hg group tier s'. unfold s', claim_next_work. rewrite Hn.
  assert (Hempty : Str.is_empty (stripped (capacity_model_group r)) = false).
  { unfold Str.is_empty. by apply String.eqb_neq. }
  rewrite Hempty. case_match eqn:Hz; [simpl; split_and!; intros; (lia || done)|].
  rewrite !orb_false_iff, Z.leb_gt in Hz. destruct Hz as [[Hn0 Hunits] _].
  unfold transaction.
  destruct (claim_cases now held_item r uuid4 held_job s) as [->|(j & Hj & Hne & ->)];
    [simpl; split_and!; intros; (lia || done)|]. cbn [fst].
  apply selected_job_spec in Hj as (_ & _ & _ & Ho & _).
  destruct (claimed_prefix now held_item r s j) as (_ & Hl & Hw).
  pose proof (claim_items_limit_bounds r (capacity_state now r s) j) as Hlim.
  pose proof (claimed_NoDup now held_item r s j U) as Hnd.
  assert (Hin : forall i, i ∈ claimed_items now held_item r s j -> i ∈ items s)
    by (intros i Hi; by apply (claimed_elem now held_item r s j)).
  set (l := claimed_items now held_item r s j) in *.
  pose proof (select_id_in_perm l (items s) U Hnd Hin) as Hperm.
  unfold capacity_state in *. rewrite Hn, Hempty in *. fold group tier in Ho, Hl, Hw, Hlim.
  unfold items_limit, work_unit_limit, capacity_open in *. rewrite andb_true_iff, !Z.ltb_lt in Ho.
  set (q := id_in (map Item.item_id l)) in *.
  set (f := claim_row now (worker_id r) (lease_seconds r)) in *.
  assert (Hext : forall P : Item.batch_item -> bool,
    (forall i, P i = in_flight now group tier s i) -> forall w : Item.batch_item -> Z,
      zsum (map w (select_where P (update_where q f (items s))))
      = zsum (map w (select_where (in_flight now group tier s) (update_where q f (items s))))).
  { intros P HP w. f_equal. f_equal. unfold select_where. by apply filter_ext. }
  assert (Hcount : forall w, (forall i, w (f i) = w i) -> (forall i, 0 <= w i) ->
    forall (P : Item.batch_item -> bool), (forall i, P i = in_flight now group tier s i) ->
      zsum (map w (select_where P (update_where q f (items s))))
        <= zsum (map w (select_where (in_flight now group tier s) (items s))) + zsum (map w l)).
  { intros w Hf Hpos P HP. rewrite (Hext P HP). rewrite <- Hperm. by apply weight_update. }
  split_and!.
  - unfold in_flight_items. rewrite !cnt_select. cbn [items on_items on_jobs].
    rewrite <- !zsum_ones. etransitivity; [apply Hcount; [done|lia|intros i; apply in_flight_scheduled]|].
    rewrite !zsum_ones. unfold in_flight_items in *. rewrite cnt_select in *. lia.
  - intros u Hu Hov. rewrite Hu in *. unfold in_flight_work_units. cbn [items on_items on_jobs].
    etransitivity; [apply Hcount; [done|intros i; pose proof (est_pos i); lia|intros i; apply in_flight_scheduled]|].
    unfold in_flight_work_units in *. unfold work_units in Hw.
    destruct Hw as [->|[Hw|[Hw _]]]; [simpl; lia|lia|congruence].
  - intros Hge. exfalso. lia.
  - intros u Hu Hge. exfalso. rewrite Hu in *. cbn in Hunits. apply Z.leb_gt in Hunits. lia.
Qed.

(** C16: Claims respect the model group's capacity: with an in-flight limit of n
    items and, when given, u work units, a claim never lifts the group's items in
    flight above n (nor, without oversized first items, its work units above u),
    unless they were above already, and then it adds nothing.  A zero limit
    claims nothing at all. *)
Theorem capacity_respected now uuid4 held_job held_item r s n :
  unique_keys (items s) -> capacity_max_in_flight_items r = Some n ->
  stripped (capacity_model_group r) <> "" ->
  let group := stripped (capacity_model_group r) in
  let tier := normalized_capacity_service_tier r in
  let s' := fst (claim_next_work now true uuid4 held_job held_item r s) in
  in_flight_items now group tier s' <= Z.max (Z.max 0 n) (in_flight_items now group tier s) /\
  (forall u, capacity_max_in_flight_work_units r = Some u -> allow_oversized_first_item r = false ->
     in_flight_work_units now group tier s' <= Z.max (Z.max 0 u) (in_flight_work_units now group tier s)) /\
  (in_flight_items now group tier s >= n -> s' = s) /\
  (forall u, capacity_max_in_flight_work_units r = Some u ->
     in_flight_work_units now group tier s >= u -> s' = s).
Proof. apply capacity_respected_spec. Qed.

(** ** The recommendation *)

Lemma filter_ext_elem {R} (p q : R -> bool) t :
  (forall x, x ∈ t -> p x = q x) -> List.filter p t = List.filter q t.
Proof.
  induction t as [|x t IH]; intros H; simpl; [done|].
  rewrite (H x) by left. rewrite IH; [done|]. intros y Hy. apply H. by right.
Qed.

Lemma filter_all {R} (p : R -> bool) t : (forall x, p x = true) -> List.filter p t = t.
Proof. intros H. induction t as [|x t IH]; simpl; [done|]. by rewrite H, IH. Qed.

(** What a shadow decision is compared by. *)
Definition claim_shape (c : BatchWorkClaim) :=
  (wc_batch_id c, wc_endpoint c, wc_model_group c, wc_tenant_scope_type c, wc_tenant_scope_id c,
   wc_service_tier c, Z.of_nat (length (wc_item_ids c)), wc_claimed_work_units c).
Definition recommendation_shape (n : BatchWorkRecommendation) :=
  (wn_batch_id n, wn_endpoint n, wn_model_group n, wn_tenant_scope_type n, wn_tenant_scope_id n,
   wn_service_tier n, wn_item_count n, wn_work_units n).

Lemma fifo_not_size_aware r :
  claim_order r = "fifo" -> size_aware_scheduling_enabled r = false -> size_aware r = false.
Proof. intros H H'. unfold size_aware. by rewrite H, H'. Qed.

Section fifo.
Context (now : Z) (r : work_request) (s : db).
Hypothesis fifo : claim_order r = "fifo".
Hypothesis no_size : size_aware_scheduling_enabled r = false.
Hypothesis tiers_set : Forall (fun j => Job.service_tier j <> "") (jobs s).

Lemma tier_set j : j ∈ jobs s -> text_or "standard" (Job.service_tier j) = Job.service_tier j.
Proof.
  rewrite Forall_forall in tiers_set. intros Hj%tiers_set. unfold text_or, Str.is_empty.
  by destruct (String.eqb_spec (Job.service_tier j) "").
Qed.

Lemma fifo_selected :
  head (order_by (recommend_order r)
    (select_where (fun j => job_claimable now j
       && job_filters (fun j => text_or "standard" (Job.service_tier j)) r j
       && capacity_open (capacity_state now r s)
       && has_head_item now r (capacity_state now r s) s j) (jobs s)))
  = selected_job now nothing_held r s.
Proof.
  unfold selected_job. f_equal. replace (recommend_order r) with (job_order now r).
  - f_equal. apply filter_ext_elem. intros j Hj. unfold job_filters. rewrite (tier_set j Hj).
    unfold nothing_held. by rewrite andb_true_r.
  - unfold job_order, recommend_order. by rewrite fifo_not_size_aware, fifo.
Qed.

Lemma fifo_claimed j :
  claimed_items now nothing_held r s j
  = eligible_items (work_unit_limit r (capacity_state now r s)) (allow_oversized_first_item r) 0
      (limit (items_limit r (capacity_state now r s)) (runnable_items now (Job.batch_id j) s)).
Proof.
  unfold claimed_items, locked_items, claim_items_limit. rewrite fifo_not_size_aware by done.
  by rewrite filter_all by done.
Qed.
End fifo.

(** A limited claim outside and inside its transaction. *)
Lemma claim_next_work_tx now uuid4 held_job held_item r s :
  claim_next_work now true uuid4 held_job held_item r s
  = match capacity_max_in_flight_items r with
    | Some n =>
        if negb (Str.is_empty (stripped (capacity_model_group r)))
           && ((n <=? 0) || if_set (fun u => u <=? 0) (capacity_max_in_flight_work_units r))
        then (s, Ret None)
        else claim_next_work_with_client now uuid4 held_job held_item r s
    | None => claim_next_work_with_client now uuid4 held_job held_item r s
    end.
Proof.
  unfold claim_next_work. destruct (capacity_max_in_flight_items r) as [n|]; [|done].
  destruct (Str.is_empty _); [done|]. rewrite orb_false_r. cbn [negb andb].
  destruct (_ || _); [done|]. unfold transaction.
  destruct (claim_cases now held_item r uuid4 held_job s) as [->|(j & _ & _ & ->)]; done.
Qed.

(** Shadow mode compares like with like: in FIFO order without size-aware
    ranking, on rows no other transaction holds, [recommend_next_work] names the
    job, tenant, tier, item count and work units that [claim_next_work] would
    take in the same state, and nothing exactly when the claim takes nothing,
    provided every job's service tier is a non-empty text. *)
Theorem recommendation_matches_claim now uuid4 reason r s :
  claim_order r = "fifo" -> size_aware_scheduling_enabled r = false ->
  Forall (fun j => Job.service_tier j <> "") (jobs s) ->
  recommendation_shape <$> recommend_next_work now reason r s
  = match snd (claim_next_work now true uuid4 nothing_held nothing_held r s) with
    | Ret c => claim_shape <$> c
    | Raise _ => None
    end.
Proof.
  intros Ho Hs Ht. rewrite claim_next_work_tx. unfold recommend_next_work.
  assert (H : recommendation_shape <$> recommend_row now reason r s
    = match snd (claim_next_work_with_client now uuid4 nothing_held nothing_held r s) with
      | Ret c => claim_shape <$> c
      | Raise _ => None
      end).
  { unfold recommend_row. rewrite (fifo_selected now r s Ho Hs Ht). unfold claim_next_work_with_client.
    destruct (selected_job now nothing_held r s) as [j|]; [|done].
    rewrite <- (fifo_claimed now r s Ho Hs).
    destruct (claimed_items now nothing_held r s j) as [|i l]; [done|].
    cbn [snd fmap option_fmap option_map]. unfold claim_shape, recommendation_shape. cbn.
    by rewrite length_map. }
  destruct (capacity_max_in_flight_items r) as [n|]; [|exact H].
  destruct (negb _ && _); [done|exact H].
Qed.

(** ** Examples *)

Definition sample_job (id : string) (queued : Z) (units : Z) (size : string) : Job.batch_job :=
  Job.mkJob id "/v1/embeddings" BatchJobStatus.QUEUED (Some "m") None None None 3 0 0 0 0 None None None queued
    (Some "slice_v1") (Some "m") (Some "m") (Some "/v1/embeddings") (Some "team") (Some "t1") "standard"
    units units size (Some queued) None None None None None (Some "t1") None queued None None None.

(** One job with three items of one unit each: line 1 completed, line 2 running
    under an expired lease, line 3 waiting. *)
Definition sample_slices : db := on_jobs (fun _ => [sample_job "batch" 0 3 "xs"]) sample_db.

Definition sample_request (n : option Z) : work_request :=
  mkWorkRequest "w" 5 1 60 ["m"] (Some "standard") false "fifo" (Some "m") None n None None None true false
    (SizeAging.mkAging 30 1000 30 100) 4.

Definition sample_claim : db * res exn (option BatchWorkClaim) :=
  claim_next_work_with_client (100 * usec) "claim" nothing_held nothing_held (sample_request (Some 4)) sample_slices.

Example sample_claim_takes_one :
  match snd sample_claim with
  | Ret (Some c) => (wc_batch_id c, wc_item_ids c, wc_claimed_work_units c)
  | _ => ("", [], 0)
  end = ("batch", ["1"], 1).
Proof. vm_compute. reflexivity. Qed.

Lemma items_on_jobs f s : items (on_jobs f s) = items s.
Proof. reflexivity. Qed.

Lemma sample_slices_ok : unique_keys (items sample_slices).
Proof. unfold sample_slices. rewrite items_on_jobs. exact (proj1 (sample_ok sample_ops)). Qed.

Lemma size_rank_agrees_witness :
  let j := sample_job "b" 0 5000 "l" in
  let p := SizeAging.mkAging 30 1000 30 100 in
  SizeAging.rk_policy_reason (SizeAging.sql_rank (60 * usec) p j) = "large_job_progress_floor" /\
  SizeAging.rk_policy_reason (SizeAging.calculate_size_aging_rank (rank_input j) (60 * usec) p)
  = SizeAging.rk_policy_reason (SizeAging.sql_rank (60 * usec) p j).
Proof.
  split; [vm_compute; reflexivity|].
  apply (size_rank_agrees (60 * usec) (SizeAging.mkAging 30 1000 30 100) (sample_job "b" 0 5000 "l") 20 4);
    vm_compute; congruence.
Defined.

Lemma work_claim_sound_witness :
  exists c j l, snd sample_claim = Ret (Some c) /\ j ∈ jobs sample_slices /\
    wc_batch_id c = Job.batch_id j /\ wc_item_ids c = map Item.item_id l.
Proof.
  pose proof (work_claim_sound (100 * usec) "claim" nothing_held nothing_held (sample_request (Some 4))
                sample_slices sample_slices_ok) as H.
  cbv zeta in H. unfold sample_claim.
  destruct (snd (claim_next_work_with_client _ _ _ _ _ _)) as [[c|]|e] eqn:E; [|exfalso; clear H; vm_compute in E; discriminate..].
  destruct H as (j & l & Hj & _ & _ & Hb & Hl & _). by exists c, j, l.
Defined.

Lemma capacity_respected_witness :
  let r := sample_request (Some 1) in
  let group := stripped (capacity_model_group r) in
  let tier := normalized_capacity_service_tier r in
  let s' := fst (claim_next_work (100 * usec) true "claim" nothing_held nothing_held r sample_slices) in
  in_flight_items (100 * usec) group tier s' = 1 /\
  in_flight_items (100 * usec) group tier s'
    <= Z.max (Z.max 0 1) (in_flight_items (100 * usec) group tier sample_slices).
Proof.
  split; [vm_compute; reflexivity|].
  destruct (capacity_respected (100 * usec) "claim" nothing_held nothing_held (sample_request (Some 1))
              sample_slices 1 sample_slices_ok eq_refl) as [H _]; [vm_compute; congruence|exact H].
Defined.

Lemma recommendation_matches_claim_witness :
  recommendation_shape <$> recommend_next_work (100 * usec) "" (sample_request (Some 4)) sample_slices
  = Some ("batch", "/v1/embeddings", Some "m", Some "team", Some "t1", "standard", 1, 1).
Proof.
  rewrite (recommendation_matches_claim (100 * usec) "claim" "" (sample_request (Some 4)) sample_slices);
    [vm_compute; reflexivity|reflexivity|reflexivity|repeat constructor; discriminate].
Defined.
