(* ===== verification/FairShare.v ===== *)
(** * Tenant fair share

    [src/batch/scheduling/fair_share.py] and the flow part of
    [src/batch/repositories/job_repository.py]: deficit round robin over the
    tenants ("flows") of one service tier and model group.  A flow earns a
    quantum of work units per refill up to a cap, spends what its claims take,
    and the least recently selected flow that can pay for its next item is
    served.  The snapshot queries that aggregate a flow's queue are inputs; the
    table of flows, the selection, the refills and the claim are modelled, the
    claim through [WorkClaim]. *)

From S2P Require Import Prelude PyVal Errors BatchModels BatchDb Scheduling BatchItems WorkClaim.

(** ** Quanta and deficits *)

Definition MAX_QUANTUM_WORK_UNITS : Z := 256.

Definition default_flow_weight (service_tier : string) : Z := 1.

Definition quantum_for_weight (base_quantum_work_units weight : Z) : Z :=
  Z.max 1 (Z.min MAX_QUANTUM_WORK_UNITS (base_quantum_work_units * Z.max 1 weight)).

Definition max_deficit_for_flow (quantum_work_units max_deficit_multiplier : Z) : Z :=
  Z.max 1 quantum_work_units * Z.max 1 max_deficit_multiplier.

(** ** Records *)

(** A row of the flow table with the head of its queue. *)
Record BatchSchedulerFlowRecord : Type := mkFlowRecord {
  row : Flow.flow_row;
  oldest_queue_entered_at : option Z;
  next_item_work_units : Z;
  next_batch_id : option string
}.

(** [_SchedulerFlowRefreshAggregate]: what the snapshot queries say of a flow. *)
Record flow_aggregate : Type := mkAggregate {
  ag_service_tier : string;
  ag_model_group : string;
  ag_tenant_scope_type : string;
  ag_tenant_scope_id : string;
  ag_queued_jobs : Z;
  ag_queued_work_units : Z;
  ag_in_flight_work_units : Z;
  ag_oldest_queue_entered_at : option Z;
  ag_next_item_work_units : Z;
  ag_next_batch_id : option string
}.

Record BatchFairShareClaimResult : Type := mkFairShareResult {
  fr_claim : option BatchWorkClaim;
  fr_result : string;
  fr_flow : option BatchSchedulerFlowRecord;
  fr_expected_share : option Q;
  fr_active_flow_count : Z;
  fr_total_in_flight_work_units : Z
}.

Definition fair_share_result (claim : option BatchWorkClaim) (result : string)
    (flow : option BatchSchedulerFlowRecord) : BatchFairShareClaimResult :=
  mkFairShareResult claim result flow None 0 0.

Definition flow_id (f : BatchSchedulerFlowRecord) : string := Flow.flow_id (row f).
Definition deficit (f : BatchSchedulerFlowRecord) : Z := Flow.deficit_work_units (row f).
Definition quantum (f : BatchSchedulerFlowRecord) : Z := Flow.quantum_work_units (row f).

(** [flow_from_row]: missing, empty and out-of-range columns are repaired. *)
Definition flow_from_row (r : Flow.flow_row) (oldest : option Z) (next_item : Z) (batch : option string)
  : BatchSchedulerFlowRecord :=
  mkFlowRecord
    (Flow.mkFlow (Flow.flow_id r) (text_or "standard" (Flow.service_tier r)) (text_or "unknown" (Flow.model_group r))
       (text_or "anonymous" (Flow.tenant_scope_type r)) (text_or "anonymous" (Flow.tenant_scope_id r))
       (Z.max 1 (Flow.weight r)) (Z.max 1 (Flow.quantum_work_units r)) (Flow.deficit_work_units r)
       (Flow.active r) (Z.max 0 (Flow.queued_jobs r)) (Z.max 0 (Flow.queued_work_units r))
       (Z.max 0 (Flow.in_flight_work_units r)) (Flow.last_selected_at r) (Flow.last_refilled_at r)
       (Flow.created_at r) (Flow.updated_at r))
    oldest (Z.max 1 next_item) (Dimensions.normalize_optional batch).

(** ** The flow table *)

(** The unique key [(service_tier, model_group, tenant_scope_type, tenant_scope_id)]. *)
Definition same_flow_key (a b : Flow.flow_row) : bool :=
  String.eqb (Flow.service_tier a) (Flow.service_tier b) && String.eqb (Flow.model_group a) (Flow.model_group b)
  && String.eqb (Flow.tenant_scope_type a) (Flow.tenant_scope_type b)
  && String.eqb (Flow.tenant_scope_id a) (Flow.tenant_scope_id b).

(** [INSERT ... ON CONFLICT (key) DO UPDATE SET merge RETURNING *]; flow_id is
    the primary key. *)
Definition upsert_flow (new : Flow.flow_row) (merge : Flow.flow_row -> Flow.flow_row)
  : st db exn Flow.flow_row := fun s =>
  match List.find (same_flow_key new) (flows s) with
  | Some old => (on_flows (update_where (same_flow_key new) merge) s, Ret (merge old))
  | None =>
      if existsb (fun x => String.eqb (Flow.flow_id x) (Flow.flow_id new)) (flows s)
      then (s, Raise unique_violation)
      else (on_flows (fun t => t ++ [new]) s, Ret new)
  end.

Definition conflict_quantum (bounded_base_quantum weight : Z) : Z :=
  Z.min 256 (Z.max 1 (bounded_base_quantum * Z.max weight 1)).

(** The columns both upserts compute alike on a conflict. *)
Definition merge_quantum (now bounded_base_quantum bounded_multiplier : Z) (active : bool)
    (old : Flow.flow_row) : Flow.flow_row :=
  let q := conflict_quantum bounded_base_quantum (Flow.weight old) in
  Flow.set_weight (Z.max (Flow.weight old) 1) (Flow.set_quantum_work_units q
    (Flow.set_deficit_work_units (Z.min (Flow.deficit_work_units old) (q * bounded_multiplier))
      (Flow.set_active active (Flow.set_updated_at now old)))).

Section hashed.
Context (sha256_hex : string -> string).

Definition new_flow (now : Z) (tier group scope_type scope_id : string) (base_quantum : Z) (active : bool)
    (queued_jobs queued_work_units in_flight : Z) : Flow.flow_row :=
  let weight := default_flow_weight tier in
  Flow.mkFlow
    (Dimensions.build_flow_id sha256_hex (Some tier) (Some group) (Some scope_type) (Some scope_id))
    tier group scope_type scope_id weight (quantum_for_weight base_quantum weight) 0 active
    queued_jobs queued_work_units in_flight None None now now.

(** [str(value or d).strip() or d] *)
Definition part_or (d : string) (value : option string) : string :=
  text_or d (Str.strip (match value with Some t => text_or d t | None => d end)).

(** [max(0, int(x or n))] for a configured number *)
Definition at_least_one (n : Z) : Z := Z.max 1 (if n =? 0 then 1 else n).

(** Called when a job is queued: only ever raises the queue counters. *)
Definition upsert_scheduler_flow_for_job (now : Z) (job : Job.batch_job)
    (base_quantum_work_units max_deficit_multiplier : Z) : st db exn (option BatchSchedulerFlowRecord) :=
  let model_group := stripped (Job.scheduling_model_group job) in
  if Str.is_empty model_group then mret None
  else
    let active := match Job.status job with
                  | BatchJobStatus.QUEUED | BatchJobStatus.IN_PROGRESS => true
                  | _ => false
                  end in
    let queued_jobs := if active then 1 else 0 in
    let or a b := if a =? 0 then b else a in
    let queued := Z.max 0 (or (Job.remaining_work_units job)
                             (or (Job.estimated_work_units job) (Job.total_items job))) in
    let new := new_flow now (part_or "standard" (Some (Job.service_tier job))) model_group
                 (part_or "anonymous" (Job.tenant_scope_type job)) (part_or "anonymous" (Job.tenant_scope_id job))
                 base_quantum_work_units active queued_jobs queued 0 in
    r ← upsert_flow new
          (fun old =>
             Flow.set_queued_jobs (Z.max (Flow.queued_jobs old) queued_jobs)
               (Flow.set_queued_work_units (Z.max (Flow.queued_work_units old) queued)
                 (merge_quantum now (at_least_one base_quantum_work_units) (at_least_one max_deficit_multiplier)
                    active old)));
    mret (Some (flow_from_row r None 1 None)).

(** One round of the loop of [_refresh_scheduler_flows_from_snapshot]. *)
Definition refresh_flow (now base_quantum_work_units max_deficit_multiplier : Z) (a : flow_aggregate)
  : st db exn BatchSchedulerFlowRecord :=
  let active := 0 <? ag_queued_jobs a in
  let new := new_flow now (ag_service_tier a) (ag_model_group a) (ag_tenant_scope_type a)
               (ag_tenant_scope_id a) base_quantum_work_units active (ag_queued_jobs a)
               (ag_queued_work_units a) (ag_in_flight_work_units a) in
  r ← upsert_flow new
        (fun old =>
           Flow.set_queued_jobs (ag_queued_jobs a)
             (Flow.set_queued_work_units (ag_queued_work_units a)
               (Flow.set_in_flight_work_units (ag_in_flight_work_units a)
                 (merge_quantum now (at_least_one base_quantum_work_units) (at_least_one max_deficit_multiplier)
                    active old))));
  mret (flow_from_row r (ag_oldest_queue_entered_at a) (ag_next_item_work_units a) (ag_next_batch_id a)).

Fixpoint refresh_flows (now base_quantum_work_units max_deficit_multiplier : Z) (l : list flow_aggregate)
  : st db exn (list BatchSchedulerFlowRecord) :=
  match l with
  | [] => mret []
  | a :: l' =>
      f ← refresh_flow now base_quantum_work_units max_deficit_multiplier a;
      fs ← refresh_flows now base_quantum_work_units max_deficit_multiplier l';
      mret (f :: fs)
  end.

Definition deactivate_row (now : Z) (r : Flow.flow_row) : Flow.flow_row :=
  Flow.set_active false (Flow.set_queued_jobs 0 (Flow.set_queued_work_units 0
    (Flow.set_in_flight_work_units 0 (Flow.set_updated_at now r)))).

(** [_deactivate_stale_scheduler_flows]; an empty text filters nothing. *)
Definition deactivate_stale_scheduler_flows (now : Z) (service_tier model_group : string)
    (active_flow_ids : list string) : st db exn unit :=
  modify (on_flows (update_where
    (fun r => negb (bool_decide (Flow.flow_id r ∈ active_flow_ids))
              && (Flow.active r || negb (Flow.queued_jobs r =? 0) || negb (Flow.queued_work_units r =? 0)
                  || negb (Flow.in_flight_work_units r =? 0))
              && (Str.is_empty service_tier || String.eqb (Flow.service_tier r) service_tier)
              && (Str.is_empty model_group || String.eqb (Flow.model_group r) model_group))
    (deactivate_row now))).

(** [_repair_legacy_api_key_scope_ids_for_scheduler_refresh]: raw key scopes
    become their stable hash. *)
Definition repair_scope_id (tier group raw stable : string) : st db exn unit :=
  let raw := Str.strip raw in
  let stable := Str.strip stable in
  if Str.is_empty raw || String.eqb raw "anonymous" || Str.startswith raw Dimensions.API_KEY_TENANT_SCOPE_PREFIX
     || Str.is_empty stable
  then mret tt
  else modify (on_jobs (update_where
    (fun j => sql_eq (Job.tenant_scope_type j) "api_key" && sql_eq (Job.tenant_scope_id j) raw
              && match Job.status j with
                 | BatchJobStatus.QUEUED | BatchJobStatus.IN_PROGRESS => true
                 | _ => false
                 end
              && (Str.is_empty group || sql_eq (Job.scheduling_model_group j) group)
              && (Str.is_empty tier || String.eqb (text_or "standard" (Job.service_tier j)) tier))
    (Job.set_tenant_scope_id (Some stable)))).

Definition aggregate_flow_id (a : flow_aggregate) : string :=
  Dimensions.build_flow_id sha256_hex (Some (ag_service_tier a)) (Some (ag_model_group a))
    (Some (ag_tenant_scope_type a)) (Some (ag_tenant_scope_id a)).

(** A refresh snapshot: the aggregates and the scope ids to repair. *)
Record refresh_snapshot : Type := mkSnapshot {
  sn_service_tier : string;
  sn_model_group : string;
  sn_aggregates : list flow_aggregate;
  sn_repairs : list (string * string)
}.

Definition refresh_scheduler_flows_from_snapshot (now : Z) (sn : refresh_snapshot)
    (base_quantum_work_units max_deficit_multiplier : Z) : st db exn (list BatchSchedulerFlowRecord) :=
  _ ← for_each (sn_repairs sn)
        (fun '(raw, stable) =>
           repair_scope_id (Str.strip (sn_service_tier sn)) (Str.strip (sn_model_group sn)) raw stable);
  refreshed ← refresh_flows now base_quantum_work_units max_deficit_multiplier (sn_aggregates sn);
  _ ← deactivate_stale_scheduler_flows now (sn_service_tier sn) (sn_model_group sn)
        (map aggregate_flow_id (sn_aggregates sn));
  mret refreshed.

(** *** Merging the two snapshots *)

Definition same_aggregate (a b : flow_aggregate) : bool :=
  String.eqb (ag_service_tier a) (ag_service_tier b) && String.eqb (ag_model_group a) (ag_model_group b)
  && String.eqb (ag_tenant_scope_type a) (ag_tenant_scope_type b)
  && String.eqb (ag_tenant_scope_id a) (ag_tenant_scope_id b).

Definition set_ag_in_flight (v : Z) (a : flow_aggregate) : flow_aggregate :=
  mkAggregate (ag_service_tier a) (ag_model_group a) (ag_tenant_scope_type a) (ag_tenant_scope_id a)
    (ag_queued_jobs a) (ag_queued_work_units a) v (ag_oldest_queue_entered_at a)
    (ag_next_item_work_units a) (ag_next_batch_id a).

(** [merged[key] = a]: an existing key keeps its place. *)
Definition put_aggregate (a : flow_aggregate) (merged : list flow_aggregate) : list flow_aggregate :=
  if existsb (same_aggregate a) merged
  then map (fun x => if same_aggregate a x then a else x) merged
  else merged ++ [a].

Definition merge_in_flight (merged : list flow_aggregate) (a : flow_aggregate) : list flow_aggregate :=
  match List.find (same_aggregate a) merged with
  | None => merged ++ [a]
  | Some existing => put_aggregate (set_ag_in_flight (Z.max 0 (ag_in_flight_work_units a)) existing) merged
  end.

(** [None] sorts as [datetime.max]. *)
Definition nulls_last (x y : option Z) : comparison :=
  match x, y with
  | None, None => Eq
  | None, Some _ => Gt
  | Some _, None => Lt
  | Some a, Some b => Z.compare a b
  end.

Definition aggregate_order (x y : flow_aggregate) : bool :=
  le_of (then_by (nulls_last (ag_oldest_queue_entered_at x) (ag_oldest_queue_entered_at y))
    (then_by (String.compare (ag_model_group x) (ag_model_group y))
      (then_by (String.compare (ag_tenant_scope_type x) (ag_tenant_scope_type y))
               (String.compare (ag_tenant_scope_id x) (ag_tenant_scope_id y))))).

(** [{**candidate, **in_flight}] *)
Definition put_repair (l : list (string * string)) (p : string * string) : list (string * string) :=
  if existsb (fun q => String.eqb (fst q) (fst p)) l
  then map (fun q => if String.eqb (fst q) (fst p) then p else q) l
  else l ++ [p].

Definition merge_scheduler_flow_snapshots (candidate in_flight : refresh_snapshot) : refresh_snapshot :=
  let merged := fold_left (fun m a => put_aggregate (set_ag_in_flight 0 a) m) (sn_aggregates candidate) [] in
  let merged := fold_left merge_in_flight (sn_aggregates in_flight) merged in
  mkSnapshot (sn_service_tier candidate) (sn_model_group candidate) (order_by aggregate_order merged)
    (fold_left put_repair (sn_repairs in_flight) (sn_repairs candidate)).

(** *** Shadow mode: what a refresh would give, without writing *)

Definition preview_flow_from_refresh_aggregate (now : Z) (a : flow_aggregate)
    (existing : option BatchSchedulerFlowRecord) (base_quantum_work_units max_deficit_multiplier : Z)
  : BatchSchedulerFlowRecord :=
  let weight := match existing with
                | Some f => at_least_one (Flow.weight (row f))
                | None => default_flow_weight (ag_service_tier a)
                end in
  let q := quantum_for_weight base_quantum_work_units weight in
  let max_deficit := max_deficit_for_flow q max_deficit_multiplier in
  mkFlowRecord
    (Flow.mkFlow
       (match existing with
        | Some f => if Str.is_empty (flow_id f) then aggregate_flow_id a else flow_id f
        | None => aggregate_flow_id a
        end)
       (ag_service_tier a) (ag_model_group a) (ag_tenant_scope_type a) (ag_tenant_scope_id a)
       weight q
       (Z.min (Z.max 0 (match existing with Some f => deficit f | None => 0 end)) max_deficit)
       (0 <? ag_queued_jobs a) (ag_queued_jobs a) (ag_queued_work_units a) (ag_in_flight_work_units a)
       (match existing with Some f => Flow.last_selected_at (row f) | None => None end)
       (match existing with Some f => Flow.last_refilled_at (row f) | None => None end)
       (match existing with Some f => Flow.created_at (row f) | None => now end)
       (match existing with Some f => Flow.updated_at (row f) | None => now end))
    (ag_oldest_queue_entered_at a) (ag_next_item_work_units a) (ag_next_batch_id a).
End hashed.

(** ** Refills *)

Definition refill_row (now multiplier : Z) (r : Flow.flow_row) : Flow.flow_row :=
  Flow.set_deficit_work_units
    (Z.min (Flow.deficit_work_units r + Flow.quantum_work_units r) (Flow.quantum_work_units r * multiplier))
    (Flow.set_last_refilled_at (Some now) (Flow.set_updated_at now r)).

Definition refillable (service_tier model_group : string) (r : Flow.flow_row) : bool :=
  String.eqb (Flow.service_tier r) service_tier && String.eqb (Flow.model_group r) model_group
  && Flow.active r && (0 <? Flow.queued_jobs r).

Definition refill_scheduler_flow_deficits (now : Z) (service_tier model_group : string)
    (max_deficit_multiplier : Z) : st db exn Z := fun s =>
  (on_flows (update_where (refillable service_tier model_group) (refill_row now (Z.max 1 max_deficit_multiplier))) s,
   Ret (cnt (refillable service_tier model_group) (flows s))).

Definition set_row (v : Flow.flow_row) (f : BatchSchedulerFlowRecord) : BatchSchedulerFlowRecord :=
  mkFlowRecord v (oldest_queue_entered_at f) (next_item_work_units f) (next_batch_id f).

Definition simulate_refill (now max_deficit_multiplier : Z) (f : BatchSchedulerFlowRecord)
  : BatchSchedulerFlowRecord :=
  if negb (Flow.active (row f)) || (Flow.queued_jobs (row f) <=? 0) then f
  else
    let max_deficit := at_least_one (quantum f) * Z.max 1 max_deficit_multiplier in
    set_row (Flow.set_deficit_work_units (Z.min (deficit f + at_least_one (quantum f)) max_deficit)
              (Flow.set_last_refilled_at (Some now) (row f))) f.

Definition simulate_scheduler_flow_deficit_refill (now max_deficit_multiplier : Z)
    (flows : list BatchSchedulerFlowRecord) : list BatchSchedulerFlowRecord :=
  map (simulate_refill now max_deficit_multiplier) flows.

(** ** Selection *)

Definition tenant_remaining_work_units (f : BatchSchedulerFlowRecord) (tenant_max_in_flight_work_units : Z)
  : option Z :=
  let bounded := Z.max 0 tenant_max_in_flight_work_units in
  if bounded <=? 0 then None else Some (Z.max 0 (bounded - Z.max 0 (Flow.in_flight_work_units (row f)))).

Definition flow_claim_work_units (f : BatchSchedulerFlowRecord) (max_work_units tenant_max : Z)
    (single_eligible_flow : bool) : Z :=
  let bounded := Z.max 1 max_work_units in
  let bounded := match tenant_remaining_work_units f tenant_max with
                 | Some remaining => Z.min bounded (Z.max 0 remaining)
                 | None => bounded
                 end in
  if single_eligible_flow then bounded else Z.min bounded (Z.max 1 (deficit f)).

(** What the loop of [_select_scheduler_flow] decides about one flow: skipped
    with a reason (some of them counted as eligible), or a candidate. *)
Inductive verdict : Type :=
  | Skipped (reason : string) (eligible : bool)
  | Candidate (oversized : bool).

Definition flow_verdict (max_work_units tenant_max : Z) (allow_deficit_bypass : bool)
    (max_deficit_multiplier : Z) (excluded : list string) (single_active_flow : bool)
    (f : BatchSchedulerFlowRecord) : verdict :=
  let bounded_max_work_units := Z.max 1 max_work_units in
  let next_item := at_least_one (next_item_work_units f) in
  let remaining := tenant_remaining_work_units f tenant_max in
  if bool_decide (flow_id f ∈ excluded) then Skipped "empty_flow" false
  else if if_set (fun t => (t <=? 0) || (t <? next_item)) remaining then Skipped "tenant_in_flight_full" false
  else if allow_deficit_bypass then Candidate (bounded_max_work_units <? next_item)
  else if bounded_max_work_units <? next_item then
    let oversized_deficit_target := Z.min next_item (max_deficit_for_flow (quantum f) max_deficit_multiplier) in
    if single_active_flow || (oversized_deficit_target <=? deficit f) then Candidate true
    else Skipped "oversized_head_item" false
  else if single_active_flow then Candidate false
  else if next_item <=? deficit f then Candidate false
  else Skipped "insufficient_deficit" true.

Definition is_candidate (v : verdict) : bool := match v with Candidate _ => true | Skipped _ _ => false end.
Definition is_eligible (v : verdict) : bool := match v with Candidate _ => true | Skipped _ e => e end.

Record SchedulerFlowSelection : Type := mkSelection {
  selected : option BatchSchedulerFlowRecord;
  skip_reasons : gmap string string;
  active_flow_count : Z;
  eligible_flow_count : Z;
  selected_uses_oversized_first_item : bool;
  scanned_flow_count : Z;
  scan_limit_reached : bool
}.

Definition single_eligible_flow (sel : SchedulerFlowSelection) : bool :=
  (eligible_flow_count sel =? 1) && negb (scan_limit_reached sel).

Definition is_active (f : BatchSchedulerFlowRecord) : bool :=
  Flow.active (row f) && (0 <? Flow.queued_jobs (row f)) && (0 <? Flow.queued_work_units (row f)).

(** Least recently selected first, then oldest queue, then id. *)
Definition flow_order (x y : BatchSchedulerFlowRecord) : bool :=
  le_of (then_by (nulls_first (Flow.last_selected_at (row x)) (Flow.last_selected_at (row y)))
    (then_by (nulls_last (oldest_queue_entered_at x) (oldest_queue_entered_at y))
             (String.compare (flow_id x) (flow_id y)))).

Definition bounded_max_active_flows (n : Z) : Z := Z.max 1 (Z.min (if n =? 0 then 100 else n) 1000).

Definition scanned_flows (max_active_flows_per_decision : Z) (flows : list BatchSchedulerFlowRecord)
  : list BatchSchedulerFlowRecord :=
  limit (bounded_max_active_flows max_active_flows_per_decision)
    (order_by flow_order (select_where is_active flows)).

Section selection.
Context (max_work_units tenant_max max_deficit_multiplier max_active_flows_per_decision : Z).

Definition select_scheduler_flow (allow_deficit_bypass : bool) (excluded : list string)
    (flows : list BatchSchedulerFlowRecord) : SchedulerFlowSelection :=
  let total := cnt is_active flows in
  let scanned := scanned_flows max_active_flows_per_decision flows in
  let verdict_of := flow_verdict max_work_units tenant_max allow_deficit_bypass max_deficit_multiplier
                      excluded (total =? 1) in
  let chosen := head (order_by flow_order (select_where (fun f => is_candidate (verdict_of f)) scanned)) in
  {| selected := chosen;
     skip_reasons := fold_left (fun m f => match verdict_of f with
                                           | Skipped reason _ => <[ flow_id f := reason ]> m
                                           | Candidate _ => m
                                           end) scanned ∅;
     active_flow_count := total;
     eligible_flow_count := cnt (fun f => is_eligible (verdict_of f)) scanned;
     selected_uses_oversized_first_item :=
       match chosen with
       | Some c => existsb (fun f => String.eqb (flow_id f) (flow_id c)
                                     && match verdict_of f with Candidate o => o | Skipped _ _ => false end) scanned
       | None => false
       end;
     scanned_flow_count := Z.of_nat (length scanned);
     scan_limit_reached := Z.of_nat (length scanned) <? total |}.

(** [_terminal_empty_scheduler_flow_result] *)
Definition terminal_empty_scheduler_flow_result (sel : SchedulerFlowSelection) : option string :=
  if active_flow_count sel <=? 0 then Some "no_active_flow"
  else if (Z.of_nat (size (skip_reasons sel)) =? active_flow_count sel)
          && negb (bool_decide (skip_reasons sel = ∅))
          && forallb (fun p => String.eqb (snd p) "tenant_in_flight_full") (map_to_list (skip_reasons sel))
  then Some "tenant_in_flight_full"
  else if scan_limit_reached sel then Some "flow_scan_limit_reached"
  else None.

Definition expected_scheduler_flow_share (flows : list BatchSchedulerFlowRecord) (sel : BatchSchedulerFlowRecord)
  : option Q :=
  let active_flows := select_where is_active flows in
  match active_flows with
  | [] => None
  | _ =>
      let total_weight := zsum (map (fun f => at_least_one (Flow.weight (row f))) active_flows) in
      if total_weight <=? 0 then None
      else
        let f := default sel (List.find (fun f => String.eqb (flow_id f) (flow_id sel)) active_flows) in
        Some (inject_Z (at_least_one (Flow.weight (row f))) / inject_Z total_weight)%Q
  end.

Definition total_in_flight_work_units (flows : list BatchSchedulerFlowRecord) : Z :=
  zsum (map (fun f => Z.max 0 (Flow.in_flight_work_units (row f))) (select_where is_active flows)).

(** *** The shadow decision *)

Definition recommended (flows : list BatchSchedulerFlowRecord) (sel : SchedulerFlowSelection)
    (f : BatchSchedulerFlowRecord) : BatchFairShareClaimResult :=
  mkFairShareResult None "recommended" (Some f) (expected_scheduler_flow_share flows f) (active_flow_count sel)
    (total_in_flight_work_units flows).

(** The rounds of [recommend_next_fair_share_flow] on the previewed flows. *)
Fixpoint recommend_rounds (now : Z) (rounds : nat) (flows : list BatchSchedulerFlowRecord)
  : BatchFairShareClaimResult :=
  match rounds with
  | O =>
      let sel := select_scheduler_flow true [] flows in
      match selected sel with
      | Some f => recommended flows sel f
      | None => mkFairShareResult None (default "no_active_flow" (terminal_empty_scheduler_flow_result sel)) None
                  None (active_flow_count sel) 0
      end
  | S rounds' =>
      let sel := select_scheduler_flow false [] flows in
      match selected sel with
      | Some f => recommended flows sel f
      | None =>
          match terminal_empty_scheduler_flow_result sel with
          | Some result => mkFairShareResult None result None None (active_flow_count sel) 0
          | None => recommend_rounds now rounds' (simulate_scheduler_flow_deficit_refill now max_deficit_multiplier flows)
          end
      end
  end.

Definition recommend_next_fair_share_flow (now : Z) (flows : list BatchSchedulerFlowRecord)
  : BatchFairShareClaimResult :=
  recommend_rounds now (Z.to_nat (Z.max 1 max_deficit_multiplier)) flows.

(** *** The claim *)

Definition SCHEDULER_FLOW_SKIP_REASONS : list string :=
  ["empty_flow"; "flow_lock_busy"; "flow_scan_limit_reached"; "insufficient_deficit"; "lock_busy";
   "no_active_flow"; "oversized_head_item"; "tenant_in_flight_full"; "unknown"].

Definition normalize_scheduler_flow_skip_reason (reason : string) : string :=
  let normalized := Str.strip reason in
  if bool_decide (normalized ∈ SCHEDULER_FLOW_SKIP_REASONS) then normalized else "unknown".

(** The counters of [skip_reason_summary] are not a modelled column; the
    statement also touches updated_at. *)
Definition record_scheduler_flow_skip_reasons (now : Z) (reasons : gmap string string) : st db exn unit :=
  let ids := List.filter (fun i => negb (Str.is_empty i)) (map (fun p => Str.strip (fst p)) (map_to_list reasons)) in
  modify (on_flows (update_where (fun r => bool_decide (Flow.flow_id r ∈ ids)) (Flow.set_updated_at now))).

Definition spend_deficit (now units max_negative : Z) (r : Flow.flow_row) : Flow.flow_row :=
  Flow.set_deficit_work_units (Z.max (Flow.deficit_work_units r - units) (- max_negative))
    (Flow.set_last_selected_at (Some now) (Flow.set_updated_at now r)).

Context (now : Z) (uuid4 : string) (held_job held_item : string -> bool).

(** The request [_claim_scheduler_flow_with_client] makes for a flow; the
    caller's request gives the worker, lease, capacity and size-aware settings. *)
Definition flow_request (r : work_request) (f : BatchSchedulerFlowRecord) (items units : Z) (oversized : bool)
  : work_request :=
  mkWorkRequest (worker_id r) items units (lease_seconds r) [Flow.model_group (row f)]
    (Some (Flow.service_tier (row f))) false
    (if size_aware_scheduling_enabled r then "size_aging" else "fifo")
    (Some (Flow.model_group (row f))) (Some (Flow.service_tier (row f)))
    (capacity_max_in_flight_items r) (capacity_max_in_flight_work_units r)
    (Some (Flow.tenant_scope_type (row f))) (Some (Flow.tenant_scope_id (row f))) oversized
    (size_aware_scheduling_enabled r) (aging r) (work_claim_min_items_for_microbatch r).

(** The flow pays for its claim. *)
Definition pay_for_claim (f : BatchSchedulerFlowRecord) (c : BatchWorkClaim)
  : st db exn BatchFairShareClaimResult := fun s =>
  let spend := spend_deficit now (at_least_one (wc_claimed_work_units c))
                 (max_deficit_for_flow (quantum f) max_deficit_multiplier) in
  let s' := on_flows (update_where (fun x => String.eqb (Flow.flow_id x) (flow_id f)) spend) s in
  let updated := match row_at Flow.flow_id (flow_id f) (flows s') with
                 | Some x => flow_from_row x None 1 None
                 | None => f
                 end in
  (s', Ret (fair_share_result (Some c) "claimed" (Some updated))).

(** [_claim_scheduler_selected_flow] with [_claim_scheduler_flow_with_client];
    [allow_oversized] is [None] when the selection decides. *)
Definition claim_scheduler_selected_flow (r : work_request) (f : BatchSchedulerFlowRecord)
    (sel : SchedulerFlowSelection) (items : Z) (allow_oversized : option bool)
  : st db exn BatchFairShareClaimResult :=
  let oversized := default (selected_uses_oversized_first_item sel) allow_oversized in
  let units := flow_claim_work_units f max_work_units tenant_max (single_eligible_flow sel) in
  claim ← claim_next_work_with_client now uuid4 held_job held_item
            (flow_request r f (if oversized then 1 else items) units oversized);
  match claim with
  | None =>
      _ ← record_scheduler_flow_skip_reasons now {[ flow_id f := "empty_flow" ]};
      mret (fair_share_result None "empty_flow" (Some f))
  | Some c => pay_for_claim f c
  end.

(** The rounds of [claim_next_fair_share_work] after the refresh. *)
Fixpoint claim_rounds_of (r : work_request) (tier group : string) (rounds : nat)
    (fs : list BatchSchedulerFlowRecord) (empty : list string) : st db exn BatchFairShareClaimResult :=
  match rounds with
  | O =>
      let sel := select_scheduler_flow true empty fs in
      _ ← record_scheduler_flow_skip_reasons now (skip_reasons sel);
      match selected sel with
      | None =>
          mret (fair_share_result None
                  (default (match empty with [] => "no_active_flow" | _ => "empty_flow" end)
                     (terminal_empty_scheduler_flow_result sel)) None)
      | Some f => claim_scheduler_selected_flow r f sel 1 (Some true)
      end
  | S rounds' =>
      let sel := select_scheduler_flow false empty fs in
      _ ← record_scheduler_flow_skip_reasons now (skip_reasons sel);
      match selected sel with
      | Some f =>
          res ← claim_scheduler_selected_flow r f sel (max_items r) None;
          if String.eqb (fr_result res) "empty_flow" : bool
          then claim_rounds_of r tier group rounds' fs (flow_id f :: empty)
          else mret res
      | None =>
          match terminal_empty_scheduler_flow_result sel with
          | Some result => mret (fair_share_result None result None)
          | None =>
              refill_count ← refill_scheduler_flow_deficits now tier group max_deficit_multiplier;
              claim_rounds_of r tier group rounds'
                (if 0 <? refill_count
                 then simulate_scheduler_flow_deficit_refill now max_deficit_multiplier fs else fs) empty
          end
      end
  end.

(** [flow_lock] is the outcome of the try-lock; the two snapshots are what the
    queries read. *)
Definition claim_next_fair_share_work (sha256_hex : string -> string) (has_tx flow_lock : bool)
    (service_tier model_group : option string) (base_quantum_work_units : Z)
    (candidate in_flight : refresh_snapshot) (r : work_request) : st db exn BatchFairShareClaimResult :=
  let tier := part_or "standard" service_tier in
  let group := stripped model_group in
  if Str.is_empty group then mret (fair_share_result None "missing_model_group" None)
  else if negb has_tx then mret (fair_share_result None "transaction_unavailable" None)
  else transaction (
    if flow_lock then
      fs ← refresh_scheduler_flows_from_snapshot sha256_hex now (merge_scheduler_flow_snapshots candidate in_flight)
             base_quantum_work_units max_deficit_multiplier;
      claim_rounds_of r tier group (Z.to_nat (Z.max 1 max_deficit_multiplier)) fs []
    else mret (fair_share_result None "flow_lock_busy" None)).
End selection.

(** ** The simulated refill is the stored one *)

(** A record up to its modification time. *)
Definition sync (f : BatchSchedulerFlowRecord) : BatchSchedulerFlowRecord :=
  set_row (Flow.set_updated_at 0 (row f)) f.
Definition of_row (r : Flow.flow_row) : BatchSchedulerFlowRecord := flow_from_row r None 1 None.
Definition in_scope (tier group : string) (r : Flow.flow_row) : bool :=
  String.eqb (Flow.service_tier r) tier && String.eqb (Flow.model_group r) group.

Lemma at_least_one_id n : 1 <= n -> at_least_one n = n.
Proof. intros H. unfold at_least_one. destruct (Z.eqb_spec n 0); lia. Qed.

Lemma refill_row_exact now m tier group r :
  in_scope tier group r = true -> 1 <= Flow.quantum_work_units r -> 0 <= Flow.queued_jobs r ->
  sync (simulate_refill now m (of_row r))
  = sync (of_row (if refillable tier group r then refill_row now (Z.max 1 m) r else r)).
Proof.
  unfold in_scope, refillable. intros Hs Hq Hj. rewrite Hs. cbn [andb].
  unfold simulate_refill. change (Flow.active (row (of_row r))) with (Flow.active r).
  change (Flow.queued_jobs (row (of_row r))) with (Z.max 0 (Flow.queued_jobs r)).
  rewrite (Z.max_r 0 (Flow.queued_jobs r)) by lia. destruct (Flow.active r) eqn:Ha; [|done]. cbn [negb orb andb].
  destruct (Z.leb_spec (Flow.queued_jobs r) 0), (Z.ltb_spec 0 (Flow.queued_jobs r)); try lia; [done|].
  change (quantum (of_row r)) with (Z.max 1 (Flow.quantum_work_units r)).
  rewrite (Z.max_r 1 (Flow.quantum_work_units r)), at_least_one_id by lia. done.
Qed.

(** Deciding on simulated refills is deciding on the stored ones: for the
    flows of one tier and group, refilling the records in memory gives the
    records that the refilled rows of the table read back as (up to their
    modification time), in the same order. *)
Theorem refill_simulation_exact now m tier group s :
  Forall (fun r => 1 <= Flow.quantum_work_units r /\ 0 <= Flow.queued_jobs r) (flows s) ->
  let s' := fst (refill_scheduler_flow_deficits now tier group m s) in
  map sync (simulate_scheduler_flow_deficit_refill now m (map of_row (select_where (in_scope tier group) (flows s))))
  = map sync (map of_row (select_where (in_scope tier group) (flows s'))).
Proof.
  intros H. cbn [refill_scheduler_flow_deficits fst flows on_flows].
  unfold simulate_scheduler_flow_deficit_refill, select_where, update_where.
  induction H as [|r t [Hq Hj] _ IH]; [done|]. simpl.
  replace (in_scope tier group (if refillable tier group r then refill_row now (Z.max 1 m) r else r))
    with (in_scope tier group r) by (by destruct (refillable tier group r)).
  destruct (in_scope tier group r) eqn:E; [|exact IH]. simpl. rewrite IH. f_equal. by apply refill_row_exact.
Qed.

(** ** Deficits stay bounded *)

(** Every selection and verdict below is for fixed settings. *)
Section bounded.
Context (base m : Z).
Hypothesis base_pos : 1 <= base.
Hypothesis m_pos : 1 <= m.

(** The quantum of a flow: weights are one. *)
Definition full_quantum : Z := quantum_for_weight base 1.

Definition flow_bounded (r : Flow.flow_row) : Prop :=
  Flow.weight r = 1 /\ Flow.quantum_work_units r = full_quantum /\
  - (full_quantum * m) <= Flow.deficit_work_units r <= full_quantum * m.
Definition flows_bounded (s : db) : Prop := Forall flow_bounded (flows s).
Definition record_bounded (f : BatchSchedulerFlowRecord) : Prop := quantum f = full_quantum.

Lemma full_quantum_range : 1 <= full_quantum <= 256.
Proof. unfold full_quantum, quantum_for_weight, MAX_QUANTUM_WORK_UNITS. lia. Qed.

Lemma conflict_quantum_full : conflict_quantum (at_least_one base) 1 = full_quantum.
Proof. rewrite at_least_one_id by lia. unfold conflict_quantum, full_quantum, quantum_for_weight, MAX_QUANTUM_WORK_UNITS. lia. Qed.

Lemma at_least_one_m : at_least_one m = m.
Proof. by apply at_least_one_id. Qed.

(** Columns a flow's bounds do not depend on. *)
Lemma flow_bounded_same r r' :
  Flow.weight r' = Flow.weight r -> Flow.quantum_work_units r' = Flow.quantum_work_units r ->
  Flow.deficit_work_units r' = Flow.deficit_work_units r -> flow_bounded r -> flow_bounded r'.
Proof. unfold flow_bounded. intros -> -> ->. done. Qed.

Lemma new_flow_bounded sha now tier group scope_type scope_id active j u i :
  flow_bounded (new_flow sha now tier group scope_type scope_id base active j u i).
Proof.
  pose proof full_quantum_range. split_and!; try done; cbn; nia.
Qed.

Lemma merge_bounded now active r :
  flow_bounded r -> flow_bounded (merge_quantum now (at_least_one base) (at_least_one m) active r).
Proof.
  intros (Hw & Hq & Hd). pose proof full_quantum_range.
  unfold merge_quantum, flow_bounded. cbn. rewrite Hw, conflict_quantum_full, at_least_one_m.
  split_and!; lia.
Qed.

Lemma upsert_bounded new merge s :
  flow_bounded new -> (forall r, flow_bounded r -> flow_bounded (merge r)) -> flows_bounded s ->
  flows_bounded (fst (upsert_flow new merge s)) /\
  forall r, snd (upsert_flow new merge s) = Ret r -> flow_bounded r.
Proof.
  intros Hn Hm Hs. unfold upsert_flow, flows_bounded in *.
  destruct (List.find (same_flow_key new) (flows s)) as [old|] eqn:E; cbn.
  - apply find_some in E as [E _]. apply list_elem_of_In in E.
    split; [apply Forall_update; auto|]. intros r [= <-]. apply Hm. rewrite Forall_forall in Hs. auto.
  - destruct (existsb _ (flows s)); cbn; [done|]. split; [by apply Forall_app_2; [|constructor]|]. by intros r [= <-].
Qed.

Lemma record_of_bounded r o n b : flow_bounded r -> record_bounded (flow_from_row r o n b).
Proof.
  intros (_ & Hq & _). pose proof full_quantum_range.
  unfold record_bounded, quantum, flow_from_row. cbn. rewrite Hq. lia.
Qed.

Lemma queued_bounded sha now job s :
  flows_bounded s -> flows_bounded (fst (upsert_scheduler_flow_for_job sha now job base m s)).
Proof.
  intros Hs. unfold upsert_scheduler_flow_for_job. case_match; [done|].
  rewrite fst_bind_ret. apply upsert_bounded; [apply new_flow_bounded| |done].
  intros r Hr. exact (merge_bounded now _ r Hr).
Qed.

Lemma refresh_flow_bounded sha now a s :
  flows_bounded s ->
  flows_bounded (fst (refresh_flow sha now base m a s)) /\
  forall f, snd (refresh_flow sha now base m a s) = Ret f -> record_bounded f.
Proof.
  intros Hs. unfold refresh_flow. rewrite fst_bind_ret.
  edestruct (upsert_bounded (new_flow sha now (ag_service_tier a) (ag_model_group a) (ag_tenant_scope_type a)
               (ag_tenant_scope_id a) base (0 <? ag_queued_jobs a) (ag_queued_jobs a)
               (ag_queued_work_units a) (ag_in_flight_work_units a))) as [H1 H2];
    [apply new_flow_bounded| |exact Hs|split; [exact H1|]].
  - intros r Hr. exact (merge_bounded now _ r Hr).
  - unfold mbind, st_bind. destruct (upsert_flow _ _ s) as [s' [r|e]]; cbn; intros f [= <-].
    by apply record_of_bounded, H2.
Qed.

Lemma refresh_flows_bounded sha now l s :
  flows_bounded s ->
  flows_bounded (fst (refresh_flows sha now base m l s)) /\
  forall fs, snd (refresh_flows sha now base m l s) = Ret fs -> Forall record_bounded fs.
Proof.
  revert s. induction l as [|a l IH]; intros s Hs; cbn [refresh_flows]; [split; [done|by intros fs [= <-]]|].
  destruct (refresh_flow_bounded sha now a s Hs) as [H1 H2].
  unfold mbind, st_bind. destruct (refresh_flow sha now base m a s) as [s1 [f|e]]; cbn in *; [|done].
  destruct (IH s1 H1) as [H3 H4]. destruct (refresh_flows sha now base m l s1) as [s2 [fs|e]]; cbn in *; [|done].
  split; [done|]. intros x [= <-]. constructor; auto.
Qed.

Lemma update_flows_bounded p f s :
  (forall r, flow_bounded r -> flow_bounded (f r)) -> flows_bounded s ->
  flows_bounded (on_flows (update_where p f) s).
Proof. intros Hf Hs. unfold flows_bounded. cbn. apply Forall_update; auto. Qed.

Lemma refresh_bounded sha now sn s :
  flows_bounded s ->
  flows_bounded (fst (refresh_scheduler_flows_from_snapshot sha now sn base m s)) /\
  forall fs, snd (refresh_scheduler_flows_from_snapshot sha now sn base m s) = Ret fs -> Forall record_bounded fs.
Proof.
  intros Hs. unfold refresh_scheduler_flows_from_snapshot. unfold mbind, st_bind.
  match goal with |- context [for_each ?l ?b s] => pose proof (for_each_keeps flows_bounded l b s) as H1;
    destruct (for_each l b s) as [s1 [[]|e]] eqn:E1 end; cbn in *;
    (assert (Hs1 : flows_bounded s1);
     [apply H1; [|exact Hs]; intros [raw stable] s2 _ H2; unfold repair_scope_id; case_match; exact H2|]);
    [|done].
  destruct (refresh_flows_bounded sha now (sn_aggregates sn) s1 Hs1) as [H3 H4].
  destruct (refresh_flows sha now base m (sn_aggregates sn) s1) as [s2 [fs|e]]; cbn in *; [|done].
  split; [|by intros x [= <-]; apply H4].
  apply update_flows_bounded; [|done]. intros r. by apply flow_bounded_same.
Qed.

Lemma refill_bounded now tier group s :
  flows_bounded s -> flows_bounded (fst (refill_scheduler_flow_deficits now tier group m s)).
Proof.
  apply update_flows_bounded. intros r (Hw & Hq & Hd). pose proof full_quantum_range.
  unfold flow_bounded, refill_row. cbn. rewrite Hq, (Z.max_r 1 m) by lia. split_and!; lia.
Qed.

Lemma simulated_bounded now fs :
  Forall record_bounded fs -> Forall record_bounded (simulate_scheduler_flow_deficit_refill now m fs).
Proof.
  intros H. apply Forall_fmap. eapply Forall_impl; [exact H|]. intros f Hf. cbn.
  unfold simulate_refill, record_bounded, quantum in *. by case_match.
Qed.

Lemma record_skips_bounded now reasons s :
  flows_bounded s -> flows_bounded (fst (record_scheduler_flow_skip_reasons now reasons s)).
Proof. apply update_flows_bounded. intros r. by apply flow_bounded_same. Qed.

Lemma selected_elem mw tm ma bypass excluded fs f :
  selected (select_scheduler_flow mw tm m ma bypass excluded fs) = Some f -> f ∈ fs /\ is_active f = true.
Proof.
  cbn. intros H%head_Some_elem_of. rewrite order_by_perm, elem_select in H. destruct H as [H _].
  unfold scanned_flows in H. apply limit_elem in H. by rewrite order_by_perm, elem_select in H.
Qed.

Lemma claim_keeps_flows now uuid4 held_job held_item r s :
  flows (fst (claim_next_work_with_client now uuid4 held_job held_item r s)) = flows s.
Proof. by destruct (claim_cases now held_item r uuid4 held_job s) as [->|(j & _ & _ & ->)]. Qed.

Lemma selected_claim_bounded mw tm now uuid4 held_job held_item r f sel n o s :
  record_bounded f -> flows_bounded s ->
  flows_bounded (fst (claim_scheduler_selected_flow mw tm m now uuid4 held_job held_item r f sel n o s)).
Proof.
  intros Hf Hs. unfold claim_scheduler_selected_flow. set (req := flow_request _ _ _ _ _).
  pose proof (claim_keeps_flows now uuid4 held_job held_item req s) as Hk.
  unfold mbind, st_bind. destruct (claim_next_work_with_client _ _ _ _ req s) as [s1 [[c|]|e]]; cbn in Hk;
    (assert (Hs1 : flows_bounded s1) by (unfold flows_bounded; by rewrite Hk)); [|by apply record_skips_bounded|done].
  apply update_flows_bounded; [|done]. intros x (Hw & Hq & Hd). pose proof full_quantum_range.
  unfold flow_bounded, spend_deficit, max_deficit_for_flow, at_least_one. unfold record_bounded in Hf. cbn.
  rewrite Hf, (Z.max_r 1 full_quantum), (Z.max_r 1 m) by lia. split_and!; try done; case_match; lia.
Qed.

Lemma rounds_bounded mw tm ma now uuid4 held_job held_item r tier group n fs empty s :
  Forall record_bounded fs -> flows_bounded s ->
  flows_bounded (fst (claim_rounds_of mw tm m ma now uuid4 held_job held_item r tier group n fs empty s)).
Proof.
  revert fs empty s. induction n as [|n IH]; intros fs empty s Hfs Hs; cbn [claim_rounds_of].
  - set (sel := select_scheduler_flow _ _ _ _ _ _ _). apply bind_keeps; [apply record_skips_bounded| |done].
    intros _ s1 Hs1. destruct (selected sel) as [f|] eqn:E; [|done].
    apply selected_elem in E as [E _]. apply selected_claim_bounded; [|done]. rewrite Forall_forall in Hfs. auto.
  - set (sel := select_scheduler_flow _ _ _ _ _ _ _). apply bind_keeps; [apply record_skips_bounded| |done].
    intros _ s1 Hs1. destruct (selected sel) as [f|] eqn:E.
    + apply selected_elem in E as [E _]. apply bind_keeps; [intros s2 Hs2| |done].
      * apply selected_claim_bounded; [|done]. rewrite Forall_forall in Hfs. auto.
      * intros res s2 Hs2. destruct (String.eqb _ _); [by apply IH|done].
    + destruct (terminal_empty_scheduler_flow_result sel); [done|].
      apply bind_keeps; [apply refill_bounded| |done]. intros c s2 Hs2. apply IH; [|done].
      case_match; [by apply simulated_bounded|done].
Qed.
End bounded.

(** What changes the flow table: a job that is queued, a claim with whatever
    snapshots it loaded; and, between them, what other transactions make of the
    jobs and items. *)
Inductive flow_op : Type :=
  | FlowTables (new_jobs : list Job.batch_job) (new_items : list Item.batch_item)
  | FlowQueued (now : Z) (job : Job.batch_job)
  | FlowClaim (now : Z) (uuid4 : string) (held_job held_item : string -> bool) (has_tx flow_lock : bool)
      (service_tier model_group : option string) (max_work_units tenant_max max_flows : Z)
      (candidate in_flight : refresh_snapshot) (r : work_request).

Definition run_flow_op (sha256_hex : string -> string) (base m : Z) (s : db) (op : flow_op) : db :=
  match op with
  | FlowTables new_jobs new_items => on_items (fun _ => new_items) (on_jobs (fun _ => new_jobs) s)
  | FlowQueued now job => fst (upsert_scheduler_flow_for_job sha256_hex now job base m s)
  | FlowClaim now uuid4 held_job held_item has_tx flow_lock tier group mw tm mf candidate in_flight r =>
      fst (claim_next_fair_share_work mw tm m mf now uuid4 held_job held_item sha256_hex has_tx flow_lock
             tier group base candidate in_flight r s)
  end.

(** C27: Deficits are bounded both ways: with a fixed base quantum and multiplier,
    whatever jobs are queued, whatever jobs and items the tables hold at each
    claim, and whatever is claimed and paid for, from an empty table of flows on
    every flow keeps the configured quantum (1 to 256 work units) and a deficit
    between minus and plus quantum times multiplier. *)
Theorem deficits_bounded sha256_hex base m ops :
  1 <= base -> 1 <= m ->
  let s := fold_left (run_flow_op sha256_hex base m) ops empty_db in
  let q := quantum_for_weight base 1 in
  1 <= q <= MAX_QUANTUM_WORK_UNITS /\
  Forall (fun r => Flow.quantum_work_units r = q /\ - (q * m) <= Flow.deficit_work_units r <= q * m) (flows s).
Proof.
  intros Hb Hm s q. split; [apply (full_quantum_range base)|].
  assert (H : flows_bounded base m s).
  { unfold s. generalize (Forall_nil_2 (flow_bounded base m) : flows_bounded base m empty_db).
    generalize empty_db. induction ops as [|op ops IH]; intros s0 Hs0; [done|]. cbn [fold_left]. apply IH.
    destruct op; cbn [run_flow_op]; [done|by apply queued_bounded|].
    unfold claim_next_fair_share_work. do 2 (case_match; [done|]). unfold transaction.
    destruct flow_lock; [|done].
    edestruct (refresh_bounded base m Hb Hm sha256_hex now (merge_scheduler_flow_snapshots candidate in_flight) s0 Hs0)
      as [H1 H2].
    unfold mbind, st_bind. destruct (refresh_scheduler_flows_from_snapshot _ _ _ _ _ s0) as [s1 [fs|e]]; [|done].
    cbn in H1, H2. specialize (H2 fs eq_refl).
    pose proof (rounds_bounded base m Hm max_work_units tenant_max max_flows now uuid4 held_job held_item r
      (part_or "standard" service_tier) (stripped model_group) (Z.to_nat (Z.max 1 m)) fs [] s1 H2 H1) as H3.
    by destruct (claim_rounds_of _ _ _ _ _ _ _ _ _ _ _ _ _ _ s1) as [s2 [x|e]]. }
  eapply Forall_impl; [exact H|]. intros r (_ & Hq & Hd). done.
Qed.

(** ** What is selected *)

Section decisions.
Context (mw tm m ma : Z).

#[local] Abbreviation select := (select_scheduler_flow mw tm m ma).
#[local] Abbreviation verdict_of bypass excluded fs :=
  (flow_verdict mw tm bypass m excluded (cnt is_active fs =? 1)).

Lemma scanned_elem fs f : f ∈ scanned_flows ma fs -> f ∈ fs /\ is_active f = true.
Proof. intros H%limit_elem. by rewrite order_by_perm, elem_select in H. Qed.

Lemma scanned_length fs :
  Z.of_nat (length (scanned_flows ma fs)) = Z.min (bounded_max_active_flows ma) (cnt is_active fs).
Proof.
  unfold scanned_flows, limit. rewrite length_take, order_by_perm, cnt_select.
  unfold bounded_max_active_flows. lia.
Qed.

(** Within the scan limit every active flow is looked at. *)
Lemma scanned_all fs f :
  cnt is_active fs <= bounded_max_active_flows ma -> f ∈ fs -> is_active f = true -> f ∈ scanned_flows ma fs.
Proof.
  intros H Hf Ha. unfold scanned_flows, limit. rewrite take_ge.
  - rewrite order_by_perm, elem_select. done.
  - rewrite order_by_perm. rewrite cnt_select in H. lia.
Qed.

Lemma selected_spec bypass excluded fs f :
  selected (select bypass excluded fs) = Some f ->
  f ∈ scanned_flows ma fs /\ is_candidate (verdict_of bypass excluded fs f) = true.
Proof. cbn. intros H%head_Some_elem_of. by rewrite order_by_perm, elem_select in H. Qed.

Lemma selected_None bypass excluded fs f :
  selected (select bypass excluded fs) = None -> f ∈ scanned_flows ma fs ->
  is_candidate (verdict_of bypass excluded fs f) = false.
Proof.
  cbn. intros H Hf. destruct (is_candidate _) eqn:E; [|done].
  assert (Hin : f ∈ order_by flow_order (select_where (fun x => is_candidate (verdict_of bypass excluded fs x))
                                           (scanned_flows ma fs)))
    by by rewrite order_by_perm, elem_select.
  destruct (order_by flow_order _); [by apply elem_of_nil in Hin|done].
Qed.

Lemma skip_reasons_elem bypass excluded fs i reason :
  skip_reasons (select bypass excluded fs) !! i = Some reason ->
  exists f e, f ∈ scanned_flows ma fs /\ verdict_of bypass excluded fs f = Skipped reason e.
Proof.
  cbn. set (v := flow_verdict _ _ _ _ _ _).
  assert (H : forall l (acc : gmap string string),
    fold_left (fun m0 f => match v f with Skipped r _ => <[flow_id f:=r]> m0 | Candidate _ => m0 end) l acc !! i
      = Some reason ->
    acc !! i = Some reason \/ exists f e, f ∈ l /\ v f = Skipped reason e).
  { induction l as [|f l IH]; intros acc; simpl; [by left|]. intros [H|(g & e & Hg & Hv)]%IH.
    - destruct (v f) as [r e|o] eqn:E; [|by left]. destruct (decide (flow_id f = i)) as [Hi|Hi].
      + rewrite Hi, lookup_insert_eq in H. injection H as ->. right. exists f, e. split; [by left|done].
      + rewrite lookup_insert_ne in H by done. by left.
    - right. exists g, e. split; [by right|done]. }
  intros [H'|H']%H; [by rewrite lookup_empty in H'|done].
Qed.

Lemma no_tenant_verdict bypass excluded fs f reason e :
  tm <= 0 -> verdict_of bypass excluded fs f = Skipped reason e -> reason <> "tenant_in_flight_full".
Proof.
  intros Ht. unfold flow_verdict, tenant_remaining_work_units.
  destruct (Z.leb_spec (Z.max 0 tm) 0); [|lia]. cbn [if_set]. repeat case_match; intros [=]; subst; discriminate.
Qed.

(** Without a tenant limit, the decision ends early only for the scan limit. *)
Lemma terminal_no_tenant bypass excluded fs :
  tm <= 0 -> 0 < cnt is_active fs ->
  terminal_empty_scheduler_flow_result (select bypass excluded fs)
  = if scan_limit_reached (select bypass excluded fs) then Some "flow_scan_limit_reached" else None.
Proof.
  intros Ht Hc. unfold terminal_empty_scheduler_flow_result.
  change (active_flow_count _) with (cnt is_active fs). destruct (Z.leb_spec (cnt is_active fs) 0); [lia|].
  destruct (_ && forallb _ _) eqn:E; [|done]. exfalso.
  rewrite !andb_true_iff, negb_true_iff, bool_decide_eq_false in E. destruct E as [[_ Hne] Hall].
  apply map_choose in Hne as (i & reason & Hi).
  pose proof (skip_reasons_elem _ _ _ _ _ Hi) as (f & e & _ & Hv).
  rewrite forallb_forall in Hall. specialize (Hall (i, reason)).
  rewrite <- list_elem_of_In, elem_of_map_to_list, String.eqb_eq in Hall.
  by apply (no_tenant_verdict _ _ _ _ _ _ Ht Hv), Hall.
Qed.

Lemma scan_limit_iff bypass excluded fs :
  scan_limit_reached (select bypass excluded fs) = (bounded_max_active_flows ma <? cnt is_active fs).
Proof. cbn. rewrite scanned_length. destruct (Z.ltb_spec (bounded_max_active_flows ma) (cnt is_active fs)); [apply Z.ltb_lt|apply Z.ltb_ge]; lia. Qed.

(** *** Large head items *)

Definition next_item (f : BatchSchedulerFlowRecord) : Z := at_least_one (next_item_work_units f).
(** The head item fits a claim but not the flow's largest deficit. *)
Definition too_large (f : BatchSchedulerFlowRecord) : Prop := quantum f * m < next_item f <= mw.

Lemma simulated_columns now f :
  let f' := simulate_refill now m f in
  is_active f' = is_active f /\ quantum f' = quantum f /\ next_item f' = next_item f /\ flow_id f' = flow_id f.
Proof. unfold simulate_refill. by case_match. Qed.

Lemma simulated_active now fs :
  cnt is_active (simulate_scheduler_flow_deficit_refill now m fs) = cnt is_active fs.
Proof.
  unfold simulate_scheduler_flow_deficit_refill. induction fs as [|f fs IH]; [done|].
  simpl map. rewrite !cnt_cons, IH. by destruct (simulated_columns now f) as (-> & _).
Qed.

Lemma simulated_deficit now f :
  1 <= quantum f -> 1 <= m -> is_active f = true ->
  deficit (simulate_refill now m f) = Z.min (deficit f + quantum f) (quantum f * m).
Proof.
  intros Hq Hm Ha. unfold is_active in Ha. rewrite !andb_true_iff, !Z.ltb_lt in Ha. destruct Ha as [[Ha Hj] _].
  unfold simulate_refill. rewrite Ha. destruct (Z.leb_spec (Flow.queued_jobs (row f)) 0); [lia|]. cbn.
  rewrite at_least_one_id by done. unfold deficit. rewrite (Z.max_r 1 m) by lia. done.
Qed.

Lemma simulated_inactive now f : is_active f = false -> 1 <= quantum f -> 1 <= m -> deficit f <= quantum f * m ->
  deficit (simulate_refill now m f) <= quantum f * m.
Proof.
  intros _ Hq Hm Hd. unfold simulate_refill. case_match; [done|]. cbn.
  rewrite at_least_one_id by done. unfold deficit, quantum in *. rewrite (Z.max_r 1 m) by lia. lia.
Qed.

Lemma candidate_not_too_large excluded fs f :
  1 <= quantum f -> 1 <= m -> deficit f <= quantum f * m -> cnt is_active fs <> 1 ->
  is_candidate (verdict_of false excluded fs f) = true -> ~ too_large f.
Proof.
  intros Hq Hm Hd Hc. unfold flow_verdict, too_large, next_item. destruct (Z.eqb_spec (cnt is_active fs) 1); [done|].
  do 2 (case_match; [done|]). destruct (Z.ltb_spec (Z.max 1 mw) (at_least_one (next_item_work_units f))).
  - intros _ [? ?]. lia.
  - destruct (Z.leb_spec (at_least_one (next_item_work_units f)) (deficit f)); [lia|done].
Qed.

Lemma affordable_candidate fs f :
  tm <= 0 -> next_item f <= mw -> next_item f <= deficit f ->
  is_candidate (verdict_of false [] fs f) = true.
Proof.
  intros Ht Hw Hd. unfold next_item in *. unfold flow_verdict, tenant_remaining_work_units.
  destruct (Z.leb_spec (Z.max 0 tm) 0); [|lia]. cbn [if_set].
  rewrite bool_decide_false by apply not_elem_of_nil.
  destruct (Z.ltb_spec (Z.max 1 mw) (at_least_one (next_item_work_units f))); [lia|].
  destruct (_ =? 1); [done|]. destruct (Z.leb_spec (at_least_one (next_item_work_units f)) (deficit f)); [done|lia].
Qed.

Lemma rounds_avoid_large now n fs b :
  tm <= 0 -> 1 <= m -> 1 < cnt is_active fs <= bounded_max_active_flows ma ->
  Forall (fun f => 1 <= quantum f /\ deficit f <= quantum f * m) fs ->
  b ∈ fs -> is_active b = true -> next_item b <= mw ->
  next_item b <= deficit b + Z.of_nat n * quantum b -> next_item b <= quantum b * m ->
  exists f, fr_result (recommend_rounds mw tm m ma now (S n) fs) = "recommended" /\
            fr_flow (recommend_rounds mw tm m ma now (S n) fs) = Some f /\ ~ too_large f.
Proof.
  intros Ht Hm. revert fs b. induction n as [|n IH]; intros fs b Hc Hfs Hb Ha Hw Hd Hcap.
  all: pose proof (scanned_all fs b (proj2 Hc) Hb Ha) as Hscan.
  all: cbn [recommend_rounds]; destruct (selected (select false [] fs)) as [f|] eqn:E;
    [apply selected_spec in E as [E Hcand]; exists f; split_and!; [done..|]; apply scanned_elem in E as [E _];
     rewrite Forall_forall in Hfs; destruct (Hfs f E); by apply (candidate_not_too_large [] fs); [..|lia|]|].
  - pose proof (selected_None _ _ _ _ E Hscan) as Hno.
    change (Z.of_nat 0) with 0 in Hd. rewrite Z.mul_0_l in Hd.
    by rewrite affordable_candidate in Hno by lia.
  - rewrite terminal_no_tenant by lia. rewrite scan_limit_iff.
    destruct (Z.ltb_spec (bounded_max_active_flows ma) (cnt is_active fs)); [lia|].
    destruct (simulated_columns now b) as (Ha' & Hq' & Hn' & _). rewrite Forall_forall in Hfs.
    destruct (Hfs b Hb) as [Hqb Hdb]. pose proof (simulated_deficit now b Hqb Hm Ha) as Hd'.
    apply (IH _ (simulate_refill now m b)).
    + by rewrite simulated_active.
    + apply Forall_forall. intros x Hx. apply list_elem_of_fmap in Hx as (y & -> & Hy).
      destruct (Hfs y Hy) as [Hqy Hdy]. destruct (simulated_columns now y) as (_ & Hq & _). rewrite Hq.
      split; [done|]. destruct (is_active y) eqn:Ey; [rewrite simulated_deficit by done; lia|by apply simulated_inactive].
    + by apply list_elem_of_fmap_2.
    + by rewrite Ha'.
    + by rewrite Hn'.
    + rewrite Hn', Hq', Hd'. nia.
    + by rewrite Hn', Hq'.
Qed.
End decisions.

(** A finding.  A flow whose next item fits a claim but costs more than its
    largest possible deficit (quantum times multiplier, 128 units by default,
    while claims of 200 or 400 units are recommended) is never served while
    another flow has ordinary work: as long as some other active flow's next item
    costs at most multiplier - 1 refills, every decision recommends a flow that is
    not of this kind, however long the large one has waited. *)
Theorem large_head_item_starves mw tm m ma now fs a b :
  tm <= 0 -> 1 <= m -> cnt is_active fs <= bounded_max_active_flows ma ->
  Forall (fun f => 1 <= quantum f /\ deficit f <= quantum f * m) fs -> NoDup fs ->
  a ∈ fs -> is_active a = true -> quantum a * m < next_item a <= mw ->
  b ∈ fs -> is_active b = true -> 0 <= deficit b -> next_item b <= mw -> next_item b <= quantum b * (m - 1) ->
  exists f, fr_result (recommend_next_fair_share_flow mw tm m ma now fs) = "recommended" /\
            fr_flow (recommend_next_fair_share_flow mw tm m ma now fs) = Some f /\
            ~ (quantum f * m < next_item f <= mw).
Proof.
  intros Ht Hm Hc Hfs Hnd Ha Haa Hla Hb Hab Hdb Hwb Hnb.
  assert (Hqb : 1 <= quantum b) by (rewrite Forall_forall in Hfs; by apply Hfs).
  assert (H2 : 1 < cnt is_active fs).
  { assert (Hne : a <> b) by (intros ->; nia).
    rewrite cnt_select. pose proof (select_NoDup is_active fs Hnd) as Hnd'.
    assert (Ha' : a ∈ select_where is_active fs) by by rewrite elem_select.
    assert (Hb' : b ∈ select_where is_active fs) by by rewrite elem_select.
    destruct (select_where is_active fs) as [|x [|y l]]; [by apply elem_of_nil in Ha'| |simpl length; lia].
    apply list_elem_of_singleton in Ha', Hb'. congruence. }
  unfold recommend_next_fair_share_flow.
  replace (Z.to_nat (Z.max 1 m)) with (S (Z.to_nat (m - 1))) by lia.
  apply (rounds_avoid_large mw tm m ma now (Z.to_nat (m - 1)) fs b); try done; nia.
Qed.

(** ** A limited scan *)

(** A finding.  Once more flows are active than one decision scans and every
    scanned flow is short of its next item, the decision ends as
    "flow_scan_limit_reached" before any refill: nothing is claimed, and no
    deficit, selection or refill time changes, so the next decision, claim or
    shadow, meets the same state. *)
Theorem scan_limit_stalls mw tm m ma now uuid4 held_job held_item r tier group n fs s :
  tm <= 0 -> bounded_max_active_flows ma < cnt is_active fs ->
  (forall f, f ∈ scanned_flows ma fs -> deficit f < next_item f <= mw) ->
  let res := claim_rounds_of mw tm m ma now uuid4 held_job held_item r tier group (S n) fs [] s in
  snd res = Ret (fair_share_result None "flow_scan_limit_reached" None) /\
  items (fst res) = items s /\ jobs (fst res) = jobs s /\
  map (Flow.set_updated_at 0) (flows (fst res)) = map (Flow.set_updated_at 0) (flows s) /\
  fr_result (recommend_rounds mw tm m ma now (S n) fs) = "flow_scan_limit_reached".
Proof.
  intros Ht Hc Hshort.
  assert (Hpos : 0 < cnt is_active fs) by (unfold bounded_max_active_flows in Hc; lia).
  assert (Hnone : selected (select_scheduler_flow mw tm m ma false [] fs) = None).
  { destruct (selected _) as [f|] eqn:E; [|done]. exfalso. apply selected_spec in E as [Hf Hcand].
    destruct (Hshort f Hf) as [Hd Hw]. unfold next_item, flow_verdict, tenant_remaining_work_units in *.
    destruct (Z.leb_spec (Z.max 0 tm) 0); [|lia]. cbn [if_set] in Hcand.
    rewrite bool_decide_false in Hcand by apply not_elem_of_nil.
    destruct (Z.ltb_spec (Z.max 1 mw) (at_least_one (next_item_work_units f))); [lia|].
    destruct (Z.eqb_spec (cnt is_active fs) 1); [unfold bounded_max_active_flows in Hc; lia|].
    destruct (Z.leb_spec (at_least_one (next_item_work_units f)) (deficit f)); [lia|done]. }
  assert (Hterm : terminal_empty_scheduler_flow_result (select_scheduler_flow mw tm m ma false [] fs)
                  = Some "flow_scan_limit_reached").
  { rewrite terminal_no_tenant by lia. rewrite scan_limit_iff.
    by destruct (Z.ltb_spec (bounded_max_active_flows ma) (cnt is_active fs)); [|lia]. }
  cbn [claim_rounds_of recommend_rounds]. unfold mbind, st_bind, record_scheduler_flow_skip_reasons, modify.
  cbv zeta. rewrite Hnone, Hterm. split_and!; try done. cbn. unfold update_where. rewrite map_map.
  apply map_ext. intros x. by case_match.
Qed.

(** ** Ordinary claims are paid for *)

Lemma remaining_pos f tm remaining next :
  tenant_remaining_work_units f tm = Some remaining ->
  if_set (fun t => (t <=? 0) || (t <? next)) (tenant_remaining_work_units f tm) = false -> 1 <= remaining.
Proof. intros -> [Hr%Z.leb_gt _]%orb_false_iff. lia. Qed.

(** What an ordinary selection knows of its flow. *)
Lemma ordinary_selection mw tm m ma empty fs f :
  let sel := select_scheduler_flow mw tm m ma false empty fs in
  selected sel = Some f -> selected_uses_oversized_first_item sel = false -> cnt is_active fs <> 1 ->
  1 <= next_item f <= deficit f /\
  forall remaining, tenant_remaining_work_units f tm = Some remaining -> 1 <= remaining.
Proof.
  intros sel Hsel Hov Hone. pose proof (selected_spec _ _ _ _ _ _ _ _ Hsel) as [Hf Hcand].
  cbn in Hov. cbn in Hsel. rewrite Hsel in Hov.
  assert (Hno : flow_verdict mw tm false m empty (cnt is_active fs =? 1) f <> Candidate true).
  { intros Hv. apply not_true_iff_false in Hov. apply Hov, existsb_exists. exists f.
    rewrite <- list_elem_of_In, String.eqb_refl, Hv. done. }
  unfold flow_verdict, next_item in *. destruct (Z.eqb_spec (cnt is_active fs) 1); [done|].
  assert (1 <= at_least_one (next_item_work_units f)) by (unfold at_least_one; lia).
  destruct (bool_decide _); [done|]. destruct (if_set _ _) eqn:Et; [done|].
  destruct (Z.max 1 mw <? _); [case_match; done|].
  destruct (Z.leb_spec (at_least_one (next_item_work_units f)) (deficit f)); [|done].
  split; [lia|]. intros remaining Hr. by apply (remaining_pos f tm _ _ Hr Et).
Qed.

(** An ordinary claim never overdraws its flow: when the selection picks a
    flow (not the only eligible one, its item not oversized) and the claim
    succeeds, the flow could pay for its next item, the claimed work is at most
    its deficit, the claim limit and what the tenant has left in flight, and the
    stored deficit of that flow falls by exactly the claimed work. *)
Theorem ordinary_claims_are_paid mw tm m ma now uuid4 held_job held_item r n fs empty s f c s' res :
  let sel := select_scheduler_flow mw tm m ma false empty fs in
  selected sel = Some f -> selected_uses_oversized_first_item sel = false ->
  single_eligible_flow sel = false -> cnt is_active fs <> 1 ->
  claim_scheduler_selected_flow mw tm m now uuid4 held_job held_item r f sel n None s = (s', Ret res) ->
  fr_claim res = Some c ->
  next_item f <= deficit f /\ 1 <= wc_claimed_work_units c <= Z.min (deficit f) (Z.max 1 mw) /\
  (forall remaining, tenant_remaining_work_units f tm = Some remaining -> wc_claimed_work_units c <= remaining) /\
  forall x, x ∈ flows s -> Flow.flow_id x = flow_id f -> deficit f <= Flow.deficit_work_units x ->
    exists x', x' ∈ flows s' /\ Flow.flow_id x' = Flow.flow_id x /\
      Flow.deficit_work_units x' = Flow.deficit_work_units x - wc_claimed_work_units c.
Proof.
  intros sel Hsel Hov Hsingle Hone. unfold claim_scheduler_selected_flow. cbn [default]. rewrite Hov, Hsingle.
  destruct (ordinary_selection mw tm m ma empty fs f Hsel Hov Hone) as [Hnext Hrem].
  set (units := flow_claim_work_units f mw tm false).
  set (req := flow_request r f n units false).
  unfold mbind, st_bind. destruct (claim_cases now held_item req uuid4 held_job s) as [->|(j & _ & Hne & ->)].
  { cbn. intros [= <- <-]. done. }
  unfold pay_for_claim. cbn [fr_claim fair_share_result]. intros [= <- <-] [= <-].
  pose proof (claimed_units now held_item req s j eq_refl) as Hunits.
  pose proof (work_units_length (claimed_items now held_item req s j)) as Hlen.
  assert (Hpos : 1 <= work_units (claimed_items now held_item req s j)).
  { destruct (claimed_items now held_item req s j); [done|]. simpl length in Hlen. lia. }
  set (w := work_units (claimed_items now held_item req s j)) in *. cbn [wc_claimed_work_units].
  unfold bounded_max_work_units in Hunits. change (max_work_units req) with units in Hunits.
  assert (Hu : units <= Z.min (deficit f) (Z.max 1 mw) /\
            forall remaining, tenant_remaining_work_units f tm = Some remaining -> units <= remaining).
  { unfold units, flow_claim_work_units. destruct (tenant_remaining_work_units f tm) as [x|].
    - specialize (Hrem x eq_refl). split; [lia|]. intros y [= <-]. lia.
    - split; [lia|done]. }
  destruct Hu as [Hu1 Hu2]. split_and!; [lia..| |].
  - intros remaining Hr. specialize (Hu2 _ Hr). specialize (Hrem _ Hr). lia.
  - intros x Hx Hid Hd. eexists. split; [|split].
    + cbn [flows on_flows on_items on_jobs]. apply elem_update. exists x. split; [done|]. reflexivity.
    + rewrite Hid, String.eqb_refl. cbn. done.
    + rewrite Hid, String.eqb_refl. cbn. rewrite at_least_one_id by done.
      assert (1 <= max_deficit_for_flow (quantum f) m) by (unfold max_deficit_for_flow; nia). lia.
Qed.

(** ** The preview is the refresh *)

(** [existing_by_key.get(...)] *)
Definition existing_flow (a : flow_aggregate) (s : db) : option Flow.flow_row :=
  List.find (fun r => String.eqb (ag_service_tier a) (Flow.service_tier r)
                      && String.eqb (ag_model_group a) (Flow.model_group r)
                      && String.eqb (ag_tenant_scope_type a) (Flow.tenant_scope_type r)
                      && String.eqb (ag_tenant_scope_id a) (Flow.tenant_scope_id r)) (flows s).

(** What the snapshot queries return: named scopes, counts that are not negative. *)
Definition aggregate_ok (a : flow_aggregate) : Prop :=
  ag_service_tier a <> "" /\ ag_model_group a <> "" /\ ag_tenant_scope_type a <> "" /\ ag_tenant_scope_id a <> "" /\
  0 <= ag_queued_jobs a /\ 0 <= ag_queued_work_units a /\ 0 <= ag_in_flight_work_units a /\
  1 <= ag_next_item_work_units a /\
  Dimensions.normalize_optional (ag_next_batch_id a) = ag_next_batch_id a.

Lemma text_or_id d t : t <> "" -> text_or d t = t.
Proof. intros H. unfold text_or, Str.is_empty. by destruct (String.eqb_spec t ""). Qed.

Lemma quantum_agrees base w :
  1 <= base -> 1 <= w -> conflict_quantum (at_least_one base) w = quantum_for_weight base (at_least_one w).
Proof.
  intros Hb Hw. rewrite !at_least_one_id by lia.
  unfold conflict_quantum, quantum_for_weight, MAX_QUANTUM_WORK_UNITS.
  rewrite (Z.max_l w 1), (Z.max_r 1 w) by lia. generalize (base * w). lia.
Qed.

(** Shadow mode previews the flows that an active refresh would store: for
    a flow whose stored deficit is not negative, or a new flow,
    [_preview_flow_from_refresh_aggregate] gives the record that the refresh
    writes and reads back, up to its modification time. *)
Theorem preview_matches_refresh sha256_hex now base m a s s' f :
  1 <= base -> 1 <= m -> aggregate_ok a ->
  (forall old, existing_flow a s = Some old ->
     1 <= Flow.weight old /\ Flow.flow_id old <> "" /\ 0 <= Flow.deficit_work_units old) ->
  refresh_flow sha256_hex now base m a s = (s', Ret f) ->
  sync f = sync (preview_flow_from_refresh_aggregate sha256_hex now a (of_row <$> existing_flow a s) base m).
Proof.
  intros Hb Hm (H1 & H2 & H3 & H4 & H5 & H6 & H7 & H8 & H9) Hold.
  unfold refresh_flow, upsert_flow, mbind, st_bind. change (List.find _ (flows s)) with (existing_flow a s).
  destruct (existing_flow a s) as [old|] eqn:E; [|destruct (existsb _ _); [done|]]; cbn [fst snd]; intros [= _ <-].
  - destruct (Hold old eq_refl) as (Hw & Hid & Hd). unfold existing_flow in E. apply find_some in E as [_ E].
    rewrite !andb_true_iff, !String.eqb_eq in E. destruct E as [[[E1 E2] E3] E4].
    unfold flow_from_row, preview_flow_from_refresh_aggregate, merge_quantum, sync, set_row, max_deficit_for_flow,
      flow_id, deficit, of_row in *. cbn -[Z.max Z.min at_least_one].
    rewrite E1, E2, E3, E4, !text_or_id by congruence.
    rewrite (proj2 (String.eqb_neq _ _) Hid), H9.
    rewrite (quantum_agrees base (Flow.weight old)) by lia.
    replace (at_least_one (Z.max 1 (Flow.weight old))) with (at_least_one (Flow.weight old))
      by (by rewrite !at_least_one_id by lia; lia).
    assert (1 <= quantum_for_weight base (at_least_one (Flow.weight old)))
      by (unfold quantum_for_weight, MAX_QUANTUM_WORK_UNITS; lia).
    set (q := quantum_for_weight _ _) in *. rewrite (at_least_one_id m), (Z.max_r 1 m), (Z.max_r 1 q) by lia.
    rewrite (at_least_one_id (Flow.weight old)) by lia. unfold Flow.set_updated_at.
    cbn -[Z.max Z.min]. do 2 f_equal; lia.
  - unfold flow_from_row, preview_flow_from_refresh_aggregate, sync, set_row, max_deficit_for_flow,
      flow_id, deficit in *. cbn -[Z.max Z.min at_least_one quantum_for_weight].
    assert (1 <= quantum_for_weight base 1) by (unfold quantum_for_weight, MAX_QUANTUM_WORK_UNITS; lia).
    change (default_flow_weight (ag_service_tier a)) with 1. set (q := quantum_for_weight _ _) in *.
    rewrite !text_or_id, H9 by done. unfold Flow.set_updated_at.
    cbn -[Z.max Z.min q]. do 2 f_equal; nia.
Qed.

(** ** Examples *)

Definition sample_flow (scope : string) (deficit_ : Z) : Flow.flow_row :=
  Flow.mkFlow ("flow_" ++ scope) "standard" "m" "team" scope 1 16 deficit_ true 1 500 0 None None 0 0.
Definition sample_record (scope : string) (deficit_ next : Z) : BatchSchedulerFlowRecord :=
  flow_from_row (sample_flow scope deficit_) (Some 0) next None.
Definition sample_aggregate (scope : string) (next : Z) : flow_aggregate :=
  mkAggregate "standard" "m" "team" scope 1 500 0 (Some 0) next None.
Definition sample_flows : db :=
  on_flows (fun _ => [sample_flow "t1" 20; sample_flow "t2" (-7)]) sample_slices.

(** Rounds of the default multiplier: the second tenant is served after one
    refill although the first has waited longest with a larger item. *)
Example sample_recommendation :
  (fun f => flow_id f) <$>
    fr_flow (recommend_next_fair_share_flow 200 0 8 100 0 [sample_record "t1" 0 60; sample_record "t2" 0 10])
  = Some "flow_t2".
Proof. vm_compute. reflexivity. Qed.

(** Where the preview and the refresh part: a flow in debt is previewed at
    zero. *)
Example preview_forgets_debt :
  let a := sample_aggregate "t2" 3 in
  let refreshed := refresh_flow (fun x => x) 9 16 8 a sample_flows in
  match snd refreshed with Ret f => deficit f | Raise _ => 0 end = -7 /\
  deficit (preview_flow_from_refresh_aggregate (fun x => x) 9 a (of_row <$> existing_flow a sample_flows) 16 8) = 0.
Proof. vm_compute. done. Qed.

Lemma refill_simulation_exact_witness :
  let s' := fst (refill_scheduler_flow_deficits 5 "standard" "m" 8 sample_flows) in
  map Flow.deficit_work_units (flows s') = [36; 9] /\
  map sync (simulate_scheduler_flow_deficit_refill 5 8
              (map of_row (select_where (in_scope "standard" "m") (flows sample_flows))))
  = map sync (map of_row (select_where (in_scope "standard" "m") (flows s'))).
Proof.
  split; [vm_compute; reflexivity|]. apply refill_simulation_exact.
  repeat constructor; vm_compute; congruence.
Defined.

(** A claim of the tenant's two open items, with base quantum 1 and multiplier 1:
    two units are claimed, and the deficit stops at -1. *)
Definition claiming_ops : list flow_op :=
  [FlowTables (jobs sample_slices) (items sample_slices);
   FlowClaim (100 * usec) "c" nothing_held nothing_held true true (Some "standard") (Some "m") 200 0 100
     (mkSnapshot "standard" "m" [mkAggregate "standard" "m" "team" "t1" 1 3 0 (Some 0) 1 None] [])
     (mkSnapshot "standard" "m" [] []) (sample_request None)].

Example claiming_ops_pay :
  let s := fold_left (run_flow_op (fun x => x) 1 1) claiming_ops empty_db in
  map Item.status (items s) = [BatchItemStatus.COMPLETED; BatchItemStatus.IN_PROGRESS; BatchItemStatus.IN_PROGRESS] /\
  map Flow.deficit_work_units (flows s) = [-1] /\
  map Flow.deficit_work_units (flows (fold_left (run_flow_op (fun x => x) 16 8) claiming_ops empty_db)) = [-2].
Proof. vm_compute. done. Qed.

Lemma deficits_bounded_witness :
  let s := fold_left (run_flow_op (fun x => x) 1 1) claiming_ops empty_db in
  length (flows s) = 1%nat /\
  Forall (fun r => Flow.quantum_work_units r = quantum_for_weight 1 1 /\
                   - (quantum_for_weight 1 1 * 1) <= Flow.deficit_work_units r <= quantum_for_weight 1 1 * 1) (flows s).
Proof.
  split; [vm_compute; reflexivity|].
  apply (deficits_bounded (fun x => x) 1 1 claiming_ops); lia.
Defined.

Lemma large_head_item_starves_witness :
  let fs := [sample_record "t1" 128 150; sample_record "t2" 0 10] in
  exists f, fr_flow (recommend_next_fair_share_flow 200 0 8 100 0 fs) = Some f /\
            ~ (quantum f * 8 < next_item f <= 200).
Proof.
  set (a := sample_record "t1" 128 150). set (b := sample_record "t2" 0 10). intros fs.
  destruct (large_head_item_starves 200 0 8 100 0 fs a b) as (f & _ & Hf & Hn); [..|exists f; exact (conj Hf Hn)].
  - lia.
  - lia.
  - vm_compute. congruence.
  - apply Forall_cons_2; [split; vm_compute; congruence|apply Forall_singleton; split; vm_compute; congruence].
  - constructor; [|constructor; [apply not_elem_of_nil|constructor]].
    rewrite list_elem_of_singleton. vm_compute. congruence.
  - left.
  - vm_compute. reflexivity.
  - vm_compute. done.
  - right. left.
  - vm_compute. reflexivity.
  - vm_compute. congruence.
  - vm_compute. congruence.
  - vm_compute. congruence.
Defined.

Lemma scan_limit_stalls_witness :
  let fs := [sample_record "t1" 0 4; sample_record "t2" 16 4] in
  snd (claim_rounds_of 200 0 8 1 9 "c" nothing_held nothing_held (sample_request None) "standard" "m" 8 fs [] sample_flows)
  = Ret (fair_share_result None "flow_scan_limit_reached" None).
Proof.
  destruct (scan_limit_stalls 200 0 8 1 9 "c" nothing_held nothing_held (sample_request None) "standard" "m" 7
           [sample_record "t1" 0 4; sample_record "t2" 16 4] sample_flows) as [H _];
    [lia|vm_compute; congruence| |exact H].
  intros f Hf.
  assert (E : scanned_flows 1 [sample_record "t1" 0 4; sample_record "t2" 16 4] = [sample_record "t1" 0 4])
    by (vm_compute; reflexivity).
  rewrite E, list_elem_of_singleton in Hf. rewrite Hf. vm_compute. done.
Defined.

Definition sample_pair : list BatchSchedulerFlowRecord := [sample_record "t1" 20 1; sample_record "t2" 3 10].

Lemma ordinary_claims_are_paid_witness :
  let sel := select_scheduler_flow 200 0 8 100 false [] sample_pair in
  exists f s' res c,
    selected sel = Some f /\
    claim_scheduler_selected_flow 200 0 8 (100 * usec) "c" nothing_held nothing_held (sample_request None) f sel 5 None
      sample_flows = (s', Ret res) /\
    fr_claim res = Some c /\ 1 <= wc_claimed_work_units c <= Z.min (deficit f) (Z.max 1 200).
Proof.
  exists (sample_record "t1" 20 1).
  destruct (claim_scheduler_selected_flow 200 0 8 (100 * usec) "c" nothing_held nothing_held (sample_request None)
              (sample_record "t1" 20 1) (select_scheduler_flow 200 0 8 100 false [] sample_pair) 5 None sample_flows)
    as [s' [res|e]] eqn:E; [|exfalso; vm_compute in E; discriminate].
  destruct (fr_claim res) as [c|] eqn:Ec; [|exfalso; vm_compute in E; injection E as _ <-; discriminate].
  assert (Hsel : selected (select_scheduler_flow 200 0 8 100 false [] sample_pair) = Some (sample_record "t1" 20 1))
    by (vm_compute; reflexivity).
  exists s', res, c.
  destruct (ordinary_claims_are_paid 200 0 8 100 (100 * usec) "c" nothing_held nothing_held (sample_request None) 5
             sample_pair [] sample_flows (sample_record "t1" 20 1) c s' res Hsel) as (_ & H & _);
    [vm_compute; reflexivity|vm_compute; reflexivity|vm_compute; congruence|exact E|exact Ec|].
  exact (conj Hsel (conj eq_refl (conj Ec H))).
Defined.

Lemma preview_matches_refresh_witness :
  let a := sample_aggregate "t1" 3 in
  exists s' f, refresh_flow (fun x => x) 9 16 8 a sample_flows = (s', Ret f) /\
    sync f = sync (preview_flow_from_refresh_aggregate (fun x => x) 9 a (of_row <$> existing_flow a sample_flows) 16 8).
Proof.
  destruct (refresh_flow (fun x => x) 9 16 8 (sample_aggregate "t1" 3) sample_flows) as [s' [f|e]] eqn:E;
    [|exfalso; vm_compute in E; discriminate].
  exists s', f. split; [done|].
  apply (preview_matches_refresh (fun x => x) 9 16 8 (sample_aggregate "t1" 3) sample_flows s' f); [lia|lia| | |exact E].
  - vm_compute. split_and!; congruence.
  - intros old Hold. vm_compute in Hold. injection Hold as <-. vm_compute. split_and!; congruence.
Defined.
