(* ===== verification/BatchJobs.v ===== *)
(** * Batch jobs

    The life of a batch: [src/batch/repositories/job_repository.py] (create,
    claim, lease, progress, finalisation, cancellation), the job part of
    [maintenance_repository.py] (the stale-lease sweep and retention) and the
    repair actions of [src/api/admin/endpoints/batches.py].  A job is refreshed
    from the counts of its items; when none is left to do it becomes
    "finalizing", and the worker that holds its lease gives it its final status
    ([resolve_final_status] of worker_artifacts.py).  [batch_step] is every
    statement of a running system, with the item statements of [BatchItems], the
    slice claims of [WorkClaim], the completions of [BatchOutbox] and promotion. *)

From S2P Require Import Prelude PyVal Errors BatchModels BatchDb Scheduling BatchItems BatchOutbox BatchBilling.
From S2P Require Import WorkClaim FairShare.
Import BatchJobStatus.

(** ** Statements on jobs *)

(** [UPDATE ... WHERE p RETURNING *] *)
Definition update_jobs (p : Job.batch_job -> bool) (f : Job.batch_job -> Job.batch_job)
  : st db exn (list Job.batch_job) := fun s =>
  (on_jobs (update_where p f) s, Ret (map f (select_where p (jobs s)))).

(** [if not rows: return None; return job_from_row(rows[0])] *)
Definition update_job (p : Job.batch_job -> bool) (f : Job.batch_job -> Job.batch_job)
  : st db exn (option Job.batch_job) :=
  rows ← update_jobs p f; mret (head rows).
(** [return bool(rows)] *)
Definition update_any_job (p : Job.batch_job -> bool) (f : Job.batch_job -> Job.batch_job) : st db exn bool :=
  rows ← update_jobs p f; mret (any_row rows).

Definition is_job (b : string) (j : Job.batch_job) : bool := String.eqb (Job.batch_id j) b.
Definition locked_for (w : string) (j : Job.batch_job) : bool := sql_eq (Job.locked_by j) w.
Definition finalizing (j : Job.batch_job) : bool := bool_decide (Job.status j = FINALIZING).
(** [status IN ('queued', 'in_progress', 'finalizing')] *)
Definition live (j : Job.batch_job) : bool := negb (terminal_job (Job.status j)).

Definition job_key (j : Job.batch_job) : string := Job.batch_id j.

(** *** Creation *)

Definition ESTIMATOR_VERSION : string := "v1".

Record job_create : Type := mkJobCreate {
  jc_endpoint : string;
  jc_model : option string;
  jc_owners : Dimensions.owners;
  jc_expires_at : option Z;
  jc_status : job_status + string;
  jc_total_items : Z;
  jc_scheduler_version : option string;
  jc_scheduling_model : option string;
  jc_scheduling_model_group : option string;
  jc_scheduling_endpoint : option string;
  jc_tenant_scope_type : option string;
  jc_tenant_scope_id : option string;
  jc_service_tier : option string;
  jc_estimated_work_units : option Z;
  jc_remaining_work_units : option Z;
  jc_size_class : option string;
  jc_queue_entered_at : option Z;
  jc_tenant_scope_preference : list string
}.

(** [a or b] of optional texts *)
Definition text_orelse (a b : option string) : option string :=
  match a with Some t => if Str.is_empty t then b else Some t | None => b end.

Section create.
Context (sha256_hex : string -> string) (model_group_resolver : option (string -> res exn (option string))).

(** The scheduler's debug object and the input file are not modelled columns. *)
Definition create_dimensions (c : job_create) : Dimensions.BatchSchedulingDimensions :=
  let fallback_model := text_orelse (jc_scheduling_model c) (jc_model c) in
  Dimensions.build_scheduling_dimensions sha256_hex
    (default (jc_endpoint c) (text_orelse (jc_scheduling_endpoint c) None)) fallback_model
    (text_orelse (jc_scheduling_model_group c) (Dimensions.resolve_model_group fallback_model model_group_resolver))
    (jc_owners c) (jc_service_tier c)
    (match jc_estimated_work_units c with Some n => Z.max 0 n | None => Z.max 0 (jc_total_items c) end)
    (jc_remaining_work_units c) (jc_scheduler_version c) ESTIMATOR_VERSION [] false false
    (jc_tenant_scope_preference c).

Definition new_job (now : Z) (batch_id : string) (status : job_status) (c : job_create) : Job.batch_job :=
  let d := create_dimensions c in
  let scope_type := default (Dimensions.sd_tenant_scope_type d) (text_orelse (jc_tenant_scope_type c) None) in
  let scope_id := default (Dimensions.sd_tenant_scope_id d) (text_orelse (jc_tenant_scope_id c) None) in
  let scope_id := if String.eqb scope_type "api_key"
                  then Dimensions.stable_tenant_scope_id sha256_hex scope_type scope_id else scope_id in
  Job.mkJob batch_id (jc_endpoint c) status (jc_model c) None None None
    (Z.max 0 (jc_total_items c)) 0 0 0 0 None None None now
    (Some (Dimensions.sd_scheduler_version d)) (Dimensions.sd_scheduling_model d)
    (Dimensions.sd_scheduling_model_group d) (Some (Dimensions.sd_scheduling_endpoint d))
    (Some scope_type) (Some scope_id) (Dimensions.sd_service_tier d)
    (Dimensions.sd_estimated_work_units d) (Dimensions.sd_remaining_work_units d)
    (default (Dimensions.sd_size_class d) (text_orelse (jc_size_class c) None))
    (Some (default now (jc_queue_entered_at c))) None None None
    (Dimensions.ow_api_key (jc_owners c)) (Dimensions.ow_user_id (jc_owners c))
    (Dimensions.ow_team_id (jc_owners c)) (Dimensions.ow_organization_id (jc_owners c))
    now None None (jc_expires_at c).

(** [INSERT] with the primary key batch_id. *)
Definition insert_job (j : Job.batch_job) : st db exn unit := fun s =>
  if existsb (is_job (Job.batch_id j)) (jobs s) then (s, Raise unique_violation)
  else (on_jobs (fun t => t ++ [j]) s, Ret tt).

(** [batch_id or uuid4()] *)
Definition create_job (now : Z) (uuid4 : string) (batch_id : option string) (c : job_create)
  : st db exn (option Job.batch_job) := fun s =>
  match normalize_batch_job_status (jc_status c) with
  | Raise e => (s, Raise e)
  | Ret status =>
      let j := new_job now (default uuid4 (text_orelse batch_id None)) status c in
      (_ ← insert_job j;
       _ ← match status with
           | QUEUED => upsert_scheduler_flow_for_job sha256_hex now j 16 8
           | _ => mret None
           end;
       mret (Some j)) s
  end.

Section promote.
Context (json_dumps : pyval -> option string) (py_str : pyval -> string) (now : Z) (uuid4 : nat -> string).

(** [_insert_items_from_spool]: the staged requests in chunks; [n] requests are
    behind. *)
Fixpoint insert_items_from_spool (insert_chunk_size : nat) (batch_id : string) (n : nat)
    (buffer l : list BatchItemCreate) : st db exn Z :=
  let flush buffer := create_items json_dumps py_str (fun i => uuid4 (n - length buffer + i)%nat) now batch_id buffer in
  match l with
  | [] => match buffer with [] => mret 0 | _ => flush buffer end
  | r :: l' =>
      let buffer' := buffer ++ [r] in
      if Nat.leb insert_chunk_size (length buffer')
      then k ← create_items json_dumps py_str (fun i => uuid4 (S n - length buffer' + i)%nat) now batch_id buffer';
           m ← insert_items_from_spool insert_chunk_size batch_id (S n) [] l';
           mret (k + m)
      else insert_items_from_spool insert_chunk_size batch_id (S n) buffer' l'
  end.

(** The part of [promote_session] (create/promoter.py) that makes the batch: the
    queued job and its items appear together or not at all, and a job that
    exists is left alone. *)
Definition promote (insert_chunk_size : nat) (target_batch_id : string) (c : job_create) (l : list BatchItemCreate)
  : st db exn bool :=
  transaction (fun s =>
    match job_row target_batch_id s with
    | Some _ => (s, Ret false)
    | None =>
        (job ← create_job now "" (Some target_batch_id)
                 (mkJobCreate (jc_endpoint c) (jc_model c) (jc_owners c) (jc_expires_at c) (inl QUEUED)
                    (Z.of_nat (length l)) (jc_scheduler_version c) (jc_scheduling_model c)
                    (jc_scheduling_model_group c) (Some (jc_endpoint c)) None None (jc_service_tier c)
                    (jc_estimated_work_units c) (jc_remaining_work_units c) (jc_size_class c) None
                    (jc_tenant_scope_preference c));
         match job with
         | None => raise (plain_exn "job_create_failed")
         | Some j =>
             n ← insert_items_from_spool insert_chunk_size (Job.batch_id j) 0 [] l;
             if (n =? Z.of_nat (length l)) : bool then mret true else raise (plain_exn "item_count_mismatch")
         end) s
    end).
End promote.
End create.

(** *** Claims and leases *)

Definition lease_free (now : Z) (j : Job.batch_job) : bool :=
  null_or (fun t => t <? now) (Job.lease_expires_at j).

(** [ORDER BY CASE WHEN status = 'finalizing' THEN 1 ELSE 0 END, created_at] *)
Definition fifo_claim_order (x y : Job.batch_job) : bool :=
  le_of (then_by (Z.compare (if finalizing x then 1 else 0) (if finalizing y then 1 else 0))
                 (Z.compare (Job.created_at x) (Job.created_at y))).

Definition lease_job (now : Z) (w : string) (lease : Z) (j : Job.batch_job) : Job.batch_job :=
  Job.set_locked_by (Some w) (Job.set_lease_expires_at (Some (after_seconds now lease))
    (Job.set_last_claimed_at (Some now) (Job.set_last_scheduled_at (Some now)
      (Job.set_status_last_updated_at now j)))).

Definition claim_job (now : Z) (w : string) (lease : Z) (j : Job.batch_job) : Job.batch_job :=
  Job.set_status (match Job.status j with QUEUED => IN_PROGRESS | x => x end)
    (Job.set_started_at (coalesce (Job.started_at j) (Some now))
      (Job.set_first_claimed_at (coalesce (Job.first_claimed_at j) (Some now)) (lease_job now w lease j))).

(** The candidate is locked before the update. *)
Definition claim_candidate (order : Job.batch_job -> Job.batch_job -> bool) (p : Job.batch_job -> bool)
    (held : string -> bool) (f : Job.batch_job -> Job.batch_job) : st db exn (option Job.batch_job) := fun s =>
  match head (order_by order (select_where (fun j => p j && negb (held (Job.batch_id j))) (jobs s))) with
  | None => (s, Ret None)
  | Some c => update_job (is_job (Job.batch_id c)) f s
  end.

Definition claim_next_job (now : Z) (held : string -> bool) (w : string) (lease : Z)
  : st db exn (option Job.batch_job) :=
  claim_candidate fifo_claim_order (fun j => live j && lease_free now j) held (claim_job now w lease).

Definition finalization_order (x y : Job.batch_job) : bool :=
  le_of (then_by (Z.compare (SizeAging.queue_time x) (SizeAging.queue_time y))
                 (Z.compare (Job.created_at x) (Job.created_at y))).

Definition claim_next_finalization (now : Z) (held : string -> bool) (w : string) (lease : Z)
  : st db exn (option Job.batch_job) :=
  claim_candidate finalization_order (fun j => finalizing j && lease_free now j) held (lease_job now w lease).

Definition renew_job_lease (now : Z) (b w : string) (lease : Z) : st db exn bool :=
  update_any_job
    (fun j => is_job b j && locked_for w j
              && match Job.status j with IN_PROGRESS | FINALIZING => true | _ => false end)
    (Job.set_lease_expires_at (Some (after_seconds now lease))).

Definition reschedule_finalization (now : Z) (b w : string) (delay : Z) : st db exn bool :=
  update_any_job (fun j => is_job b j && locked_for w j && finalizing j)
    (fun j => Job.set_lease_expires_at (Some (after_seconds now (Z.max 1 delay)))
                (Job.set_locked_by None (Job.set_status_last_updated_at now j))).

Definition release_job_lease (b w : string) : st db exn unit :=
  _ ← update_jobs (fun j => is_job b j && locked_for w j)
        (fun j => Job.set_lease_expires_at None (Job.set_locked_by None j));
  mret tt.

(** *** Progress *)

Record item_stats : Type := mkStats {
  st_total : Z;
  st_pending : Z;
  st_in_progress : Z;
  st_completed : Z;
  st_failed : Z;
  st_cancelled : Z;
  st_remaining_work_units : Z
}.

Definition has_status (k : BatchItemStatus.item_status) (i : Item.batch_item) : bool :=
  bool_decide (Item.status i = k).

Definition stats_of (t : list Item.batch_item) : item_stats :=
  mkStats (Z.of_nat (length t)) (cnt (has_status BatchItemStatus.PENDING) t)
    (cnt (has_status BatchItemStatus.IN_PROGRESS) t) (cnt (has_status BatchItemStatus.COMPLETED) t)
    (cnt (has_status BatchItemStatus.FAILED) t) (cnt (has_status BatchItemStatus.CANCELLED) t)
    (zsum (map Item.estimated_work_units
             (select_where (fun i => negb (BatchItemStatus.terminal_item (Item.status i))) t))).

Definition items_of (b : string) (t : list Item.batch_item) : list Item.batch_item := select_where (in_batch b) t.

(** The new status of a job whose items count [x]. *)
Definition refreshed_status (x : item_stats) (old : job_status) : job_status :=
  if terminal_job old then old
  else if (st_pending x =? 0) && (st_in_progress x =? 0) then FINALIZING
  else if (0 <? st_in_progress x) || (0 <? st_completed x) || (0 <? st_failed x) || (0 <? st_cancelled x)
  then IN_PROGRESS
  else old.

Definition refresh_row (now : Z) (x : item_stats) (j : Job.batch_job) : Job.batch_job :=
  Job.set_total_items (st_total x) (Job.set_in_progress_items (st_in_progress x)
    (Job.set_completed_items (st_completed x) (Job.set_failed_items (st_failed x)
      (Job.set_cancelled_items (st_cancelled x) (Job.set_remaining_work_units (st_remaining_work_units x)
        (Job.set_status (refreshed_status x (Job.status j))
          (Job.set_completed_at (if terminal_job (Job.status j) then coalesce (Job.completed_at j) (Some now) else None)
            (Job.set_status_last_updated_at now j)))))))).

Definition refresh_job_progress (now : Z) (b : string) : st db exn (option Job.batch_job) := fun s =>
  update_job (is_job b) (refresh_row now (stats_of (items_of b (items s)))) s.

(** [refresh_jobs_after_claim] of repository.py *)
Fixpoint refresh_jobs_after_claim (now : Z) (seen batch_ids : list string) : st db exn (list Job.batch_job) :=
  match batch_ids with
  | [] => mret []
  | b :: l =>
      if bool_decide (b ∈ seen) : bool then refresh_jobs_after_claim now seen l
      else
        record ← refresh_job_progress now b;
        records ← refresh_jobs_after_claim now (b :: seen) l;
        mret (match record with Some j => j :: records | None => records end)
  end.

(** [_refresh_job_progress_for_batches]: one statement for many batches; the
    [GROUP BY] gives no row to a batch without items, and locked jobs are
    skipped.  Sorting only matters for the cut at [limit_]. *)
Definition refresh_job_progress_for_batches (now : Z) (held : string -> bool) (batch_ids : list string) (limit_ : Z)
  : st db exn Z := fun s =>
  let bounded := limit limit_ (order_by String.leb (List.filter (fun b => negb (Str.is_empty b)) batch_ids)) in
  let p j := bool_decide (Job.batch_id j ∈ bounded) && negb (held (Job.batch_id j))
             && match items_of (Job.batch_id j) (items s) with [] => false | _ => true end in
  match bounded with
  | [] => (s, Ret 0)
  | _ =>
      (rows ← update_jobs p (fun j => refresh_row now (stats_of (items_of (Job.batch_id j) (items s))) j);
       mret (Z.of_nat (length rows))) s
  end.

(** *** Finalisation and cancellation *)

Definition resolve_final_status (job : Job.batch_job) : job_status :=
  match Job.cancel_requested_at job with
  | Some _ => CANCELLED
  | None =>
      if is_operator_failed_reason (Job.provider_error job) then FAILED
      else if (Job.completed_items job =? 0) && (0 <? Job.failed_items job) then FAILED
      else COMPLETED
  end.

Definition finalize_row (now : Z) (output error : option string) (final : job_status) (j : Job.batch_job)
  : Job.batch_job :=
  Job.set_output_file_id output (Job.set_error_file_id error (Job.set_status final
    (Job.set_completed_at (coalesce (Job.completed_at j) (Some now))
      (Job.set_lease_expires_at None (Job.set_locked_by None (Job.set_status_last_updated_at now j)))))).

(** Every caller names its worker; without one the statement has no guard. *)
Definition attach_artifacts_and_finalize (now : Z) (b : string) (output error : option string)
    (final_status : job_status + string) (worker : option string) : st db exn (option Job.batch_job) := fun s =>
  match normalize_batch_job_status final_status with
  | Raise e => (s, Raise e)
  | Ret final =>
      update_job (fun j => is_job b j && match worker with
                                         | None => true
                                         | Some w => locked_for w j && finalizing j
                                         end)
        (finalize_row now output error final) s
  end.

Definition unlock_row (now : Z) (j : Job.batch_job) : Job.batch_job :=
  Job.set_lease_expires_at None (Job.set_locked_by None (Job.set_status_last_updated_at now j)).

Definition retry_finalization_now (now : Z) (b : string) : st db exn (option Job.batch_job) :=
  update_job (fun j => is_job b j && finalizing j) (unlock_row now).

Definition set_provider_error (now : Z) (b : string) (provider_error : option string)
  : st db exn (option Job.batch_job) :=
  update_job (is_job b) (fun j => Job.set_provider_error provider_error (Job.set_status_last_updated_at now j)).

Definition request_cancel (now : Z) (b : string) : st db exn (option Job.batch_job) :=
  update_job (is_job b)
    (fun j => Job.set_cancel_requested_at (Some now)
                (Job.set_status (if terminal_job (Job.status j) then Job.status j
                                 else match Job.status j with FINALIZING => FINALIZING | _ => IN_PROGRESS end)
                  (Job.set_status_last_updated_at now j))).

Definition count_active_jobs_for_scope (created_by_api_key created_by_team_id : option string) (s : db) : Z :=
  match text_orelse created_by_team_id None with
  | Some t => cnt (fun j => sql_eq (Job.created_by_team_id j) t && live j) (jobs s)
  | None =>
      match text_orelse created_by_api_key None with
      | Some k => cnt (fun j => sql_eq (Job.created_by_api_key j) k && live j) (jobs s)
      | None => 0
      end
  end.

(** ** Maintenance *)

Definition by_job_lease (x y : Job.batch_job) : bool :=
  le_of (then_by (Z.compare (default 0 (Job.lease_expires_at x)) (default 0 (Job.lease_expires_at y)))
                 (String.compare (Job.batch_id x) (Job.batch_id y))).

Definition job_lease_expired (now : Z) (j : Job.batch_job) : bool :=
  live j && match Job.locked_by j with Some _ => true | None => false end
  && if_set (fun t => t <? now) (Job.lease_expires_at j).

(** [now] is the sweep's clock, [db_now] the database's. *)
Definition release_expired_job_leases (now db_now : Z) (held : string -> bool) (limit_ : Z) : st db exn Z := fun s =>
  let candidate := map Job.batch_id
    (limit limit_ (order_by by_job_lease
      (select_where (fun j => job_lease_expired now j && negb (held (Job.batch_id j))) (jobs s)))) in
  (rows ← update_jobs (fun j => bool_decide (Job.batch_id j ∈ candidate) && job_lease_expired now j)
            (fun j => Job.set_locked_by None (Job.set_lease_expires_at None (Job.set_status_last_updated_at db_now j)));
   mret (Z.of_nat (length rows))) s.

Definition list_expired_terminal_job_ids (now limit_ : Z) (s : db) : list string :=
  List.filter (fun b => negb (Str.is_empty b))
    (map Job.batch_id
      (limit (Z.max 1 (Z.min limit_ 1000))
        (order_by (fun x y => default 0 (Job.expires_at x) <=? default 0 (Job.expires_at y))
          (select_where (fun j => if_set (fun t => t <? now) (Job.expires_at j) && terminal_job (Job.status j)) (jobs s))))).

(** [delete_job_metadata], its two statements. *)
Definition delete_items (b : string) : st db exn unit :=
  modify (on_items (List.filter (fun i => negb (in_batch b i)))).
Definition delete_job (b : string) : st db exn unit :=
  modify (on_jobs (List.filter (fun j => negb (is_job b j)))).
Definition delete_job_metadata (b : string) : st db exn unit := _ ← delete_items b; delete_job b.

(** ** Repair actions
    The statements of the admin endpoints after the access checks; a refusal is
    an HTTP error. *)

Definition bad_status (detail : string) : exn := plain_exn detail.

(** [cancel]: only asks; the workers act on it. *)
Definition admin_cancel (now : Z) (b : string) (seen : Job.batch_job) : st db exn unit :=
  if terminal_job (Job.status seen) then raise (bad_status "Cannot cancel batch")
  else _ ← update_jobs (is_job b) (fun j => Job.set_cancel_requested_at (Some now) (Job.set_status_last_updated_at now j));
       mret tt.

(** [retry-finalization] *)
Definition admin_retry_finalization (now : Z) (b : string) (seen : Job.batch_job) : st db exn unit :=
  if negb (finalizing seen) then raise (bad_status "Batch is not in 'finalizing' status")
  else updated ← retry_finalization_now now b;
       match updated with Some _ => mret tt | None => raise (bad_status "Batch not found") end.

(** [requeue-stale] *)
Definition admin_requeue_stale (now : Z) (b : string) : st db exn Z :=
  n ← requeue_expired_in_progress_items now b;
  _ ← refresh_job_progress now b;
  mret n.

(** [mark-failed]: four statements in a row, not one transaction. *)
Definition mark_batch_failed (now : Z) (b reason : string) (seen : Job.batch_job) : st db exn Z :=
  if terminal_job (Job.status seen) then raise (bad_status "Cannot fail batch")
  else
    let reason := operator_reason reason in
    failed_items ← fail_nonterminal_items now b reason;
    _ ← set_provider_error now b (Some (encode_operator_failed_reason reason));
    refreshed ← refresh_job_progress now b;
    _ ← match refreshed with
        | Some j => if finalizing j then retry_finalization_now now b else mret None
        | None => mret None
        end;
    mret failed_items.

(** ** The running system *)

Section system.
Context (sha256_hex : string -> string) (model_group_resolver : option (string -> res exn (option string)))
  (json_dumps : pyval -> option string) (py_str : pyval -> string).

(** One statement, or one transaction, of some process: promotion, the item
    statements, completions with their outbox rows, slice claims, and the job
    statements above.  A finalisation gives the status that
    [resolve_final_status] reads off some record of the job, or "failed" when the
    artifacts are invalid. *)
Inductive batch_step : db -> db -> Prop :=
  | sys_promote now uuid4 n b c l s :
      batch_step s (fst (promote sha256_hex model_group_resolver json_dumps py_str now uuid4 n b c l s))
  | sys_item op s :
      creates op = false -> batch_step s (run_item_op json_dumps py_str op s)
  | sys_complete now held uuid4 l w s :
      NoDup (map icp_item_id l) -> batch_step s (fst (complete_items_with_outbox_bulk now held uuid4 l w s))
  | sys_claim_work now has_tx uuid4 held_job held_item r s :
      batch_step s (fst (claim_next_work now has_tx uuid4 held_job held_item r s))
  | sys_claim_fair mw tm m ma now uuid4 held_job held_item has_tx flow_lock tier group base candidate in_flight r s :
      batch_step s (fst (claim_next_fair_share_work mw tm m ma now uuid4 held_job held_item sha256_hex has_tx flow_lock
                           tier group base candidate in_flight r s))
  | sys_claim_job now held w lease s : batch_step s (fst (claim_next_job now held w lease s))
  | sys_claim_finalization now held w lease s : batch_step s (fst (claim_next_finalization now held w lease s))
  | sys_renew now b w lease s : batch_step s (fst (renew_job_lease now b w lease s))
  | sys_reschedule now b w delay s : batch_step s (fst (reschedule_finalization now b w delay s))
  | sys_release b w s : batch_step s (fst (release_job_lease b w s))
  | sys_refresh now b s : batch_step s (fst (refresh_job_progress now b s))
  | sys_refresh_many now held bs n s : batch_step s (fst (refresh_job_progress_for_batches now held bs n s))
  | sys_finalize now b output error job w s :
      batch_step s (fst (attach_artifacts_and_finalize now b output error (inl (resolve_final_status job)) (Some w) s))
  | sys_finalize_failed now b w s :
      batch_step s (fst (attach_artifacts_and_finalize now b None None (inl FAILED) (Some w) s))
  | sys_retry_finalization now b s : batch_step s (fst (retry_finalization_now now b s))
  | sys_provider_error now b e s : batch_step s (fst (set_provider_error now b e s))
  | sys_cancel now b s : batch_step s (fst (request_cancel now b s))
  | sys_admin_cancel now b seen s : batch_step s (fst (admin_cancel now b seen s))
  | sys_sweep_jobs now db_now held n s : batch_step s (fst (release_expired_job_leases now db_now held n s))
  | sys_delete_items b s : batch_step s (fst (delete_items b s))
  | sys_delete_job b s : batch_step s (fst (delete_job b s)).

(** ** The invariant *)

Definition finished (i : Item.batch_item) : Prop := BatchItemStatus.terminal_item (Item.status i) = true.

(** The counters of a job are those of the items [t]. *)
Definition counted (t : list Item.batch_item) (j : Job.batch_job) : Prop :=
  mkStats (Job.total_items j) 0 (Job.in_progress_items j) (Job.completed_items j) (Job.failed_items j)
    (Job.cancelled_items j) (Job.remaining_work_units j) = stats_of t.

Definition closed (k : job_status) : bool := match k with QUEUED | IN_PROGRESS => false | _ => true end.

Definition job_ok (t : list Item.batch_item) (j : Job.batch_job) : Prop :=
  (terminal_job (Job.status j) = true <-> is_Some (Job.completed_at j)) /\
  (terminal_job (Job.status j) = true -> Job.locked_by j = None /\ Job.lease_expires_at j = None) /\
  (closed (Job.status j) = true ->
     Forall finished (items_of (Job.batch_id j) t) /\
     (items_of (Job.batch_id j) t = [] \/ counted (items_of (Job.batch_id j) t) j)).

Definition system_ok (s : db) : Prop :=
  unique_keys (items s) /\ NoDup (map Job.batch_id (jobs s)) /\ Forall (job_ok (items s)) (jobs s).

Lemma system_ok_empty : system_ok empty_db.
Proof. split_and!; repeat constructor. Qed.

(** *** Changes of the item table *)

Lemma items_of_map b g t :
  Forall finished (items_of b t) ->
  (forall r, r ∈ t -> g r = r \/ row_step r (g r)) -> items_of b (map g t) = items_of b t.
Proof.
  induction t as [|r t IH]; intros Hf Hg; [done|]. unfold items_of, select_where in *. simpl in *.
  assert (Hb : in_batch b (g r) = in_batch b r).
  { destruct (Hg r) as [->|Hs]; [by left|done|]. apply row_step_id in Hs. unfold row_id, in_batch in *. congruence. }
  rewrite Hb. destruct (in_batch b r) eqn:E.
  - apply Forall_cons in Hf as [Hr Hf]. rewrite IH; [|done|intros x Hx; apply Hg; by right].
    destruct (Hg r) as [->|Hs]; [by left|done|]. apply row_step_terminal in Hs. unfold finished in Hr. congruence.
  - apply IH; [done|]. intros x Hx. apply Hg. by right.
Qed.

Lemma job_ok_items t t' j :
  (closed (Job.status j) = true -> Forall finished (items_of (Job.batch_id j) t) ->
   items_of (Job.batch_id j) t' = items_of (Job.batch_id j) t) ->
  job_ok t j -> job_ok t' j.
Proof.
  intros H (H1 & H2 & H3). split_and!; [exact H1|exact H2|]. intros Hc.
  destruct (H3 Hc) as [Hf Hn]. by rewrite (H Hc Hf).
Qed.

Lemma system_ok_jobs s s' :
  items s' = items s -> jobs s' = jobs s -> system_ok s -> system_ok s'.
Proof. unfold system_ok. by intros -> ->. Qed.

(** Rows that step keep every closed job as it is. *)
Lemma system_ok_rows s s' g :
  items s' = map g (items s) -> (forall r, r ∈ items s -> g r = r \/ row_step r (g r)) ->
  unique_keys (items s') -> jobs s' = jobs s -> system_ok s -> system_ok s'.
Proof.
  intros Hi Hg Hu Hj (_ & Hnd & Hok). split_and!; [done|by rewrite Hj|]. rewrite Hj, Hi.
  eapply Forall_impl; [exact Hok|]. intros j. apply job_ok_items. intros _ Hf. by apply items_of_map.
Qed.

(** An update of the item table that is a step is one row by row. *)
Lemma step_pointwise p f s :
  unique_keys (items s) -> items_step s (on_items (update_where p f) s) ->
  unique_keys (items (on_items (update_where p f) s)) /\
  forall r, r ∈ items s -> (if p r then f r else r) = r \/ row_step r (if p r then f r else r).
Proof.
  intros U H. destruct (H U) as (U' & g & new & E & Hg & _). split; [done|].
  cbn [items on_items] in E. unfold update_where in E.
  assert (Hl : length (map (fun r => if p r then f r else r) (items s)) = length (map g (items s) ++ new)) by by rewrite E.
  rewrite length_app, !length_map in Hl. destruct new; [|simpl in Hl; lia]. rewrite app_nil_r in E.
  intros r Hr. apply list_elem_of_lookup in Hr as [i Hi].
  assert (E' : (map (fun r => if p r then f r else r) (items s)) !! i = map g (items s) !! i) by by rewrite E.
  rewrite !list_lookup_fmap, Hi in E'. injection E' as ->. apply Hg. by eapply list_elem_of_lookup_2.
Qed.

Lemma item_op_keeps op s :
  creates op = false -> system_ok s -> system_ok (run_item_op json_dumps py_str op s).
Proof.
  intros Hc Hs. pose proof (run_item_op_step json_dumps py_str op s Hc) as Hst.
  destruct (run_item_op_shape json_dumps py_str op s Hc) as [->|(p & f & E)]; [done|]. rewrite E in *.
  destruct (step_pointwise p f s (proj1 Hs) Hst) as [U Hp]. by eapply system_ok_rows.
Qed.

(** *** Changes of the job table *)

Lemma update_jobs_keeps p f s :
  (forall j, Job.batch_id (f j) = Job.batch_id j) ->
  (forall j, j ∈ jobs s -> p j = true -> job_ok (items s) j -> job_ok (items s) (f j)) ->
  system_ok s -> system_ok (on_jobs (update_where p f) s).
Proof.
  intros Hk Hf (U & Hnd & Hok). split_and!; cbn [items jobs on_jobs]; [done| |].
  - by rewrite keys_update.
  - apply Forall_update; [|done]. intros j Hj Hok' Hp. by apply Hf.
Qed.

(** A job stays well formed when its status stays open. *)
Lemma job_ok_open t j j' :
  closed (Job.status j) = false -> closed (Job.status j') = false ->
  Job.completed_at j' = Job.completed_at j -> job_ok t j -> job_ok t j'.
Proof.
  intros Ho Ho' Hc (H1 & _ & _). split_and!.
  - rewrite Hc. destruct (Job.status j), (Job.status j'); done.
  - by destruct (Job.status j').
  - by rewrite Ho'.
Qed.

(** Columns that matter to [job_ok] besides the lease. *)
Definition same_progress (j j' : Job.batch_job) : Prop :=
  Job.batch_id j' = Job.batch_id j /\ Job.status j' = Job.status j /\ Job.completed_at j' = Job.completed_at j /\
  Job.total_items j' = Job.total_items j /\ Job.in_progress_items j' = Job.in_progress_items j /\
  Job.completed_items j' = Job.completed_items j /\ Job.failed_items j' = Job.failed_items j /\
  Job.cancelled_items j' = Job.cancelled_items j /\ Job.remaining_work_units j' = Job.remaining_work_units j.

Lemma job_ok_same t j j' :
  same_progress j j' ->
  (terminal_job (Job.status j) = true -> Job.locked_by j = None -> Job.lease_expires_at j = None ->
   Job.locked_by j' = None /\ Job.lease_expires_at j' = None) ->
  job_ok t j -> job_ok t j'.
Proof.
  unfold same_progress, job_ok, counted. intros (-> & -> & -> & -> & -> & -> & -> & -> & ->) Hl (H1 & H2 & H3).
  split_and!; [done| |done]. intros Ht. destruct (H2 Ht). auto.
Qed.

Lemma job_elem_unique s j j' :
  NoDup (map Job.batch_id (jobs s)) -> j ∈ jobs s -> j' ∈ jobs s -> Job.batch_id j' = Job.batch_id j -> j' = j.
Proof. intros H Hj Hj' E. by eapply NoDup_map_inj. Qed.

Lemma claim_candidate_keeps order p held f s :
  (forall j, Job.batch_id (f j) = Job.batch_id j) ->
  (forall j, p j = true -> job_ok (items s) j -> job_ok (items s) (f j)) ->
  system_ok s -> system_ok (fst (claim_candidate order p held f s)).
Proof.
  intros Hk Hf Hs. unfold claim_candidate. destruct (head _) as [c|] eqn:E; [|done].
  apply head_Some_elem_of in E. rewrite order_by_perm, elem_select, andb_true_iff in E. destruct E as [Hc [Hp _]].
  unfold update_job. rewrite fst_bind_ret. apply update_jobs_keeps; [done| |done].
  intros j Hj Hid. unfold is_job in Hid. apply String.eqb_eq in Hid.
  replace j with c by (symmetry; apply (job_elem_unique s); [apply Hs|done..]). by apply Hf.
Qed.

Lemma claim_job_ok now w lease t j : live j = true -> job_ok t j -> job_ok t (claim_job now w lease j).
Proof.
  intros Hl. destruct (Job.status j) eqn:E; unfold live in Hl; rewrite E in Hl; try discriminate Hl.
  1,2: apply job_ok_open; [by rewrite E| |done]; cbn; by rewrite E.
  apply job_ok_same; [|by rewrite E]. unfold same_progress. cbn. rewrite E. done.
Qed.

Lemma finalize_row_ok now output error final t j :
  terminal_job final = true -> finalizing j = true -> job_ok t j -> job_ok t (finalize_row now output error final j).
Proof.
  unfold finalizing. rewrite bool_decide_eq_true. intros Ht Hfin (H1 & H2 & H3). unfold job_ok. cbn.
  split_and!; [|done|intros _; apply H3; by rewrite Hfin].
  split; [intros _; by destruct (Job.completed_at j)|done].
Qed.

Lemma cnt_none {A} (p : A -> bool) l : cnt p l = 0 -> Forall (fun x => p x = false) l.
Proof.
  induction l as [|x l IH]; intros H; [constructor|]. rewrite cnt_cons in H. pose proof (cnt_nonneg p l).
  destruct (p x) eqn:E; [lia|]. constructor; [done|]. apply IH. lia.
Qed.

Lemma stats_finished t : st_pending (stats_of t) = 0 -> st_in_progress (stats_of t) = 0 -> Forall finished t.
Proof.
  cbn. intros Hp%cnt_none Hi%cnt_none. rewrite Forall_forall in *. intros i Hin.
  specialize (Hp i Hin). specialize (Hi i Hin).
  unfold has_status in *. rewrite bool_decide_eq_false in Hp, Hi. unfold finished.
  by destruct (Item.status i).
Qed.

Lemma finished_stats t : Forall finished t -> st_pending (stats_of t) = 0 /\ st_in_progress (stats_of t) = 0.
Proof.
  intros H. rewrite Forall_forall in H. cbn. unfold has_status, finished in *.
  split; apply cnt_zero; intros i Hi; specialize (H i Hi); by destruct (Item.status i).
Qed.

Lemma refreshed_terminal x k : terminal_job (refreshed_status x k) = terminal_job k.
Proof. unfold refreshed_status. destruct (terminal_job k) eqn:E; [done|]. repeat case_match; done. Qed.

Lemma refresh_row_ok now t j :
  job_ok t j -> job_ok t (refresh_row now (stats_of (items_of (Job.batch_id j) t)) j).
Proof.
  intros (H1 & H2 & H3). set (x := stats_of (items_of (Job.batch_id j) t)).
  assert (Hfin : closed (refreshed_status x (Job.status j)) = true -> Forall finished (items_of (Job.batch_id j) t)).
  { unfold refreshed_status. destruct (terminal_job (Job.status j)) eqn:Et; [intros Hc; by apply H3|].
    destruct (_ && _) eqn:E0; [intros _; apply andb_true_iff in E0 as [?%Z.eqb_eq ?%Z.eqb_eq]; by apply stats_finished|].
    destruct (_ || _); [done|]. intros Hc. by apply H3. }
  unfold job_ok. cbn -[refreshed_status]. rewrite (refreshed_terminal x). split_and!; [|exact H2|].
  - destruct (terminal_job (Job.status j)); [|split; [done|by intros [? ?]]].
    split; [intros _; by destruct (Job.completed_at j)|done].
  - intros Hc. specialize (Hfin Hc). split; [done|]. right. unfold counted. cbn -[stats_of].
    destruct (finished_stats _ Hfin) as [Hp _]. fold x in Hp. fold x. destruct x. cbn in Hp. by rewrite Hp.
Qed.

(** *** Every step keeps the invariant *)

Lemma claim_work_keeps now uuid4 held_job held_item r s :
  system_ok s -> system_ok (fst (claim_next_work_with_client now uuid4 held_job held_item r s)).
Proof.
  intros Hs. destruct (claim_cases now held_item r uuid4 held_job s) as [->|(j & _ & _ & ->)]; [done|]. cbn [fst].
  set (l := claimed_items now held_item r s j).
  assert (H1 : system_ok (on_jobs (update_where (fun x => String.eqb (Job.batch_id x) (Job.batch_id j)
                 && job_claimable now x) (schedule_job now)) s)).
  { apply update_jobs_keeps; [done| |done]. intros x _ [_ Hx]%andb_true_iff.
    unfold job_claimable in Hx. apply andb_true_iff in Hx as [Hx _].
    apply job_ok_open; [by destruct (Job.status x)| |done]. cbn. by destruct (Job.status x). }
  set (s1 := on_jobs _ s) in *.
  assert (Hst : items_step s1 (on_items (update_where (id_in (map Item.item_id l))
                  (claim_row now (worker_id r) (lease_seconds r))) s1)).
  { apply update_is_step. intros U i Hi Hin. apply step_claim.
    eapply id_in_elem in Hin; [|exact U| |exact Hi]; [by apply (claimed_elem now held_item r s j)|].
    intros x Hx. apply (claimed_elem now held_item r s j) in Hx as [Hx _]. exact Hx. }
  destruct (step_pointwise _ _ _ (proj1 H1) Hst) as [U Hp]. by eapply system_ok_rows.
Qed.

Lemma complete_keeps now held uuid4 l w s :
  NoDup (map icp_item_id l) -> system_ok s -> system_ok (fst (complete_items_with_outbox_bulk now held uuid4 l w s)).
Proof.
  intros Hnd Hs. pose proof (complete_is_step now held uuid4 l w s) as Hst.
  destruct (complete_spec now held uuid4 l w s (proj1 Hs) Hnd)
    as [->|(w' & rows & _ & _ & _ & Ei & _ & _ & _ & _ & Ej & _)]; [done|].
  set (s' := fst _) in *. destruct (step_pointwise (id_in (map icp_item_id l))
    (complete_from now (map icp_completion l)) s (proj1 Hs)) as [U Hp].
  - intros U. destruct (Hst U) as (U' & g & new & E & Hg). cbn [items on_items]. rewrite <- Ei. by split; [|exists g, new].
  - eapply system_ok_rows; [exact Ei|exact Hp| |exact Ej|exact Hs]. by rewrite Ei.
Qed.

(** Statements on the other tables. *)
Definition tables_same {A} (m : st db exn A) : Prop :=
  forall s, items (fst (m s)) = items s /\ jobs (fst (m s)) = jobs s.

Lemma tables_same_keeps {A} (m : st db exn A) s : tables_same m -> system_ok s -> system_ok (fst (m s)).
Proof. intros H. destruct (H s). by apply system_ok_jobs. Qed.

Lemma tables_same_bind {A B} (m : st db exn A) (f : A -> st db exn B) :
  tables_same m -> (forall a, tables_same (f a)) -> tables_same (m ≫= f).
Proof.
  intros Hm Hf s. unfold mbind, st_bind. specialize (Hm s). destruct (m s) as [s1 [a|e]]; cbn in *; [|done].
  destruct (Hf a s1) as [-> ->]. done.
Qed.

Lemma upsert_same new merge : tables_same (upsert_flow new merge).
Proof. intros s. unfold upsert_flow. repeat case_match; done. Qed.

Lemma refresh_flows_same now base m l : tables_same (refresh_flows sha256_hex now base m l).
Proof.
  induction l as [|a l IH]; [done|]. cbn [refresh_flows]. apply tables_same_bind.
  - unfold refresh_flow. apply tables_same_bind; [apply upsert_same|done].
  - intros f. by apply tables_same_bind.
Qed.

Lemma queue_flow_same now job base m : tables_same (upsert_scheduler_flow_for_job sha256_hex now job base m).
Proof.
  intros s. unfold upsert_scheduler_flow_for_job. case_match; [done|]. rewrite fst_bind_ret. apply upsert_same.
Qed.

Lemma repair_keeps tier group raw stable s : system_ok s -> system_ok (fst (repair_scope_id tier group raw stable s)).
Proof.
  intros Hs. unfold repair_scope_id. case_match; [done|]. cbn [fst modify].
  apply update_jobs_keeps; [done| |done]. intros j _ _. by apply job_ok_same.
Qed.

Lemma refresh_snapshot_keeps now sn base m s :
  system_ok s -> system_ok (fst (refresh_scheduler_flows_from_snapshot sha256_hex now sn base m s)).
Proof.
  intros Hs. unfold refresh_scheduler_flows_from_snapshot. apply bind_keeps; [| |exact Hs].
  - intros s1 H1. apply for_each_keeps; [|done]. intros [raw stable] s2 _ H2. by apply repair_keeps.
  - intros _ s1 H1. apply tables_same_keeps; [|done]. apply tables_same_bind; [apply refresh_flows_same|done].
Qed.

Lemma selected_claim_keeps mw tm m now uuid4 held_job held_item r f sel n o s :
  system_ok s -> system_ok (fst (claim_scheduler_selected_flow mw tm m now uuid4 held_job held_item r f sel n o s)).
Proof.
  intros Hs. unfold claim_scheduler_selected_flow. apply bind_keeps; [intros; by apply claim_work_keeps| |done].
  intros [c|] s1 H1; by apply tables_same_keeps.
Qed.

Lemma claim_rounds_keeps mw tm m ma now uuid4 held_job held_item r tier group n fs empty s :
  system_ok s ->
  system_ok (fst (claim_rounds_of mw tm m ma now uuid4 held_job held_item r tier group n fs empty s)).
Proof.
  revert fs empty s. induction n as [|n IH]; intros fs empty s Hs; cbn [claim_rounds_of].
  - set (sel := select_scheduler_flow _ _ _ _ _ _ _). apply bind_keeps; [by intros; apply tables_same_keeps| |done].
    intros _ s1 H1. destruct (selected sel); [by apply selected_claim_keeps|done].
  - set (sel := select_scheduler_flow _ _ _ _ _ _ _). apply bind_keeps; [by intros; apply tables_same_keeps| |done].
    intros _ s1 H1. destruct (selected sel).
    + apply bind_keeps; [intros; by apply selected_claim_keeps| |done].
      intros res s2 H2. destruct (String.eqb _ _); [by apply IH|done].
    + destruct (terminal_empty_scheduler_flow_result sel); [done|].
      apply bind_keeps; [by intros; apply tables_same_keeps| |done]. intros c s2 H2. by apply IH.
Qed.

Lemma claim_fair_keeps mw tm m ma now uuid4 held_job held_item has_tx flow_lock tier group base candidate in_flight r s :
  system_ok s ->
  system_ok (fst (claim_next_fair_share_work mw tm m ma now uuid4 held_job held_item sha256_hex has_tx flow_lock
                    tier group base candidate in_flight r s)).
Proof.
  intros Hs. unfold claim_next_fair_share_work. do 2 (case_match; [done|]).
  apply transaction_keeps; [done|]. destruct flow_lock; [|done].
  apply bind_keeps; [intros; by apply refresh_snapshot_keeps| |done]. intros fs s1 H1. by apply claim_rounds_keeps.
Qed.

(** *** Promotion *)

(** Only rows of batch [b] are added. *)
Definition adds (b : string) (s s' : db) : Prop :=
  jobs s' = jobs s /\ exists new, items s' = items s ++ new /\ Forall (fun i => in_batch b i = true) new /\
    (unique_keys (items s) -> unique_keys (items s')).

Lemma adds_refl b s : adds b s s.
Proof. split; [done|]. exists []. by rewrite app_nil_r. Qed.

Lemma adds_trans b s1 s2 s3 : adds b s1 s2 -> adds b s2 s3 -> adds b s1 s3.
Proof.
  intros (J1 & n1 & E1 & F1 & U1) (J2 & n2 & E2 & F2 & U2). split; [congruence|]. exists (n1 ++ n2).
  rewrite E2, E1, <- app_assoc. split_and!; [done|by apply Forall_app_2|].
  intros U. rewrite app_assoc, <- E1, <- E2. auto.
Qed.

Lemma insert_chunk_adds uuid4 now b first l s :
  adds b s (fst (insert_chunk json_dumps py_str uuid4 now b first l s)).
Proof.
  unfold insert_chunk. destruct (insert_items _ (items s)) as [[t n]|e] eqn:E; [|apply adds_refl].
  apply insert_items_spec in E as (new & -> & Hs & _ & Hu). split; [done|]. exists new. split_and!; [done| |done].
  apply Forall_forall. intros i Hi. pose proof (sublist_elem _ _ _ Hs Hi) as Hi'.
  apply elem_of_lookup_imap in Hi' as (k & c & -> & _). apply String.eqb_refl.
Qed.

Lemma create_items_adds uuid4 now b l s : adds b s (fst (create_items json_dumps py_str uuid4 now b l s)).
Proof.
  unfold create_items. destruct l as [|c l]; [apply adds_refl|].
  generalize (chunk_starts (length (c :: l))). intros starts.
  assert (H : forall s1, adds b s s1 ->
    adds b s (fst (insert_chunks json_dumps py_str uuid4 now b starts (c :: l) s1))); [|by apply H, adds_refl].
  induction starts as [|k starts IH]; intros s1 H1; [done|]. cbn [insert_chunks].
  apply (bind_keeps (adds b s)); [| |done].
  - intros s2 H2. eapply adds_trans; [exact H2|apply insert_chunk_adds].
  - intros n s2 H2. apply (bind_keeps (adds b s)); [exact IH|done|done].
Qed.

Lemma spool_adds now uuid4 size b n buffer l s :
  adds b s (fst (insert_items_from_spool json_dumps py_str now uuid4 size b n buffer l s)).
Proof.
  assert (H : forall s1, adds b s s1 ->
    adds b s (fst (insert_items_from_spool json_dumps py_str now uuid4 size b n buffer l s1))); [|by apply H, adds_refl].
  revert n buffer. induction l as [|r l IH]; intros n buffer s1 H1; cbn [insert_items_from_spool].
  - destruct buffer; [done|]. eapply adds_trans; [exact H1|apply create_items_adds].
  - destruct (Nat.leb _ _); [|by apply IH]. apply (bind_keeps (adds b s)); [| |done].
    + intros s2 H2. eapply adds_trans; [exact H2|apply create_items_adds].
    + intros k s2 H2. apply (bind_keeps (adds b s)); [intros; by apply IH|done|done].
Qed.

(** Items for a queued job leave every job well formed. *)
Lemma adds_keeps b s s' :
  (forall j, j ∈ jobs s -> Job.batch_id j = b -> closed (Job.status j) = false) ->
  adds b s s' -> system_ok s -> system_ok s'.
Proof.
  intros Hb (Ej & new & Ei & Hnew & Hu) (U & Hnd & Hok). split_and!; [by apply Hu|by rewrite Ej|].
  rewrite Ej. rewrite Forall_forall in Hok. apply Forall_forall. intros j Hj.
  apply (job_ok_items (items s)); [|by apply Hok]. intros Hc _. rewrite Ei.
  unfold items_of, select_where. rewrite List.filter_app.
  replace (List.filter (in_batch (Job.batch_id j)) new) with (@nil Item.batch_item); [by rewrite app_nil_r|].
  symmetry. assert (Hne : Job.batch_id j <> b) by (intros E; specialize (Hb j Hj E); congruence).
  clear -Hnew Hne. induction Hnew as [|i new Hi _ IH]; [done|]. simpl.
  unfold in_batch in *. apply String.eqb_eq in Hi. rewrite Hi.
  by rewrite (proj2 (String.eqb_neq b (Job.batch_id j))) by congruence.
Qed.

Lemma new_job_ok t now b c :
  job_ok t (new_job sha256_hex model_group_resolver now b QUEUED c).
Proof. split_and!; cbn; [|done|done]. split; [done|by intros [? ?]]. Qed.

Lemma insert_job_keeps j s :
  (forall t, job_ok t j) -> system_ok s ->
  system_ok (fst (insert_job j s)) /\
  (snd (insert_job j s) = Ret tt -> forall x, x ∈ jobs (fst (insert_job j s)) -> Job.batch_id x = Job.batch_id j -> x = j).
Proof.
  intros Hj (U & Hnd & Hok). unfold insert_job. destruct (existsb _ _) eqn:E; [split; [done|discriminate]|].
  assert (Hno : Job.batch_id j ∉ map Job.batch_id (jobs s)).
  { intros (x & Hx & Hin)%list_elem_of_fmap. apply not_true_iff_false in E. apply E, existsb_exists.
    exists x. rewrite <- list_elem_of_In. split; [done|]. unfold is_job. rewrite Hx. apply String.eqb_refl. }
  cbn. split.
  - split_and!; [done| |by apply Forall_app_2; [|constructor]]. cbn. rewrite map_app. apply NoDup_app.
    split_and!; [done| |apply NoDup_singleton]. intros x Hx. cbn. rewrite list_elem_of_singleton. by intros ->.
  - intros _ x Hx Hid. apply elem_of_app in Hx as [Hx|Hx]; [|by apply list_elem_of_singleton in Hx].
    exfalso. apply Hno. rewrite <- Hid. by apply list_elem_of_fmap_2.
Qed.

Lemma promote_keeps now uuid4 n b c l s :
  system_ok s ->
  system_ok (fst (promote sha256_hex model_group_resolver json_dumps py_str now uuid4 n b c l s)).
Proof.
  intros Hs. unfold promote. apply transaction_ok_keeps; [done|]. intros s' a.
  destruct (job_row b s); [by intros [= <- _]|].
  intros (s2 & [j|] & Hcreate & Hrest)%bind_ret_inv; [|done].
  apply bind_ret_inv in Hrest as (s3 & k & Hspool & Hend).
  assert (Hs' : s' = s3) by (destruct (k =? _); unfold mret, st_ret, raise in Hend; congruence). subst s'.
  unfold create_job in Hcreate. cbn [normalize_batch_job_status jc_status] in Hcreate.
  apply bind_ret_inv in Hcreate as (s1 & [] & Hins & Hcreate).
  apply bind_ret_inv in Hcreate as (s1' & x & Hflow & Hcreate).
  injection Hcreate as Es Ej. subst s1' j. set (j := new_job _ _ _ _ _ _) in *.
  destruct (insert_job_keeps j s (fun t => new_job_ok t _ _ _) Hs) as [H1 H2]. rewrite Hins in H1, H2.
  specialize (H2 eq_refl). cbn [fst] in *. pose proof (queue_flow_same now j 16 8 s1) as [Hi Hj].
  rewrite Hflow in Hi, Hj. cbn [fst] in Hi, Hj.
  assert (H3 : system_ok s2) by by eapply system_ok_jobs.
  pose proof (spool_adds now uuid4 n (Job.batch_id j) 0 [] l s2) as Ha. rewrite Hspool in Ha.
  eapply adds_keeps; [|exact Ha|exact H3]. intros y Hy Hid. rewrite Hj in Hy. by rewrite (H2 y Hy Hid).
Qed.

(** *** The job statements *)

Lemma normalize_inl k : normalize_batch_job_status (inl k) = Ret k.
Proof. reflexivity. Qed.

Lemma resolve_final_terminal j : terminal_job (resolve_final_status j) = true.
Proof. unfold resolve_final_status. repeat case_match; done. Qed.

Lemma attach_keeps now b output error k w s :
  terminal_job k = true -> system_ok s ->
  system_ok (fst (attach_artifacts_and_finalize now b output error (inl k) (Some w) s)).
Proof.
  intros Hk Hs. unfold attach_artifacts_and_finalize, update_job. rewrite normalize_inl, fst_bind_ret.
  apply update_jobs_keeps; [done| |done]. intros j _ H. rewrite !andb_true_iff in H.
  by apply finalize_row_ok; [|apply H].
Qed.

Lemma lease_only_ok t j j' :
  live j = true -> same_progress j j' -> job_ok t j -> job_ok t j'.
Proof. unfold live. intros Hl Hp. apply job_ok_same; [done|]. intros Ht. by rewrite Ht in Hl. Qed.

Lemma unlocked_ok t j j' :
  same_progress j j' -> Job.locked_by j' = None -> Job.lease_expires_at j' = None -> job_ok t j -> job_ok t j'.
Proof. intros Hp H1 H2. by apply job_ok_same. Qed.

Lemma finalizing_live j : finalizing j = true -> live j = true.
Proof. unfold finalizing, live. rewrite bool_decide_eq_true. by intros ->. Qed.

Lemma refresh_keeps now b s : system_ok s -> system_ok (fst (refresh_job_progress now b s)).
Proof.
  intros Hs. unfold refresh_job_progress, update_job. rewrite fst_bind_ret.
  apply update_jobs_keeps; [done| |done]. intros j _ Hj. apply String.eqb_eq in Hj as <-. apply refresh_row_ok.
Qed.

Lemma bool_filter_sublist {A} (p : A -> bool) l : sublist (List.filter p l) l.
Proof. induction l as [|x l IH]; simpl; [constructor|]. destruct (p x); by constructor. Qed.

Lemma filter_keys {A K} (key : A -> K) p l : NoDup (map key l) -> NoDup (map key (List.filter p l)).
Proof.
  induction l as [|x l IH]; simpl; [done|]. intros [Hx Hl]%NoDup_cons. destruct (p x); [|by apply IH].
  simpl. constructor; [|by apply IH]. intros (y & E & Hy)%list_elem_of_fmap. apply Hx. rewrite E.
  apply list_elem_of_fmap_2. by eapply sublist_elem; [apply bool_filter_sublist|].
Qed.

Lemma items_of_deleted b b' t :
  items_of b (List.filter (fun i => negb (in_batch b' i)) t) = if String.eqb b b' then [] else items_of b t.
Proof.
  unfold items_of, select_where, in_batch. induction t as [|i t IH]; [by destruct (String.eqb b b')|]. simpl.
  destruct (String.eqb_spec (Item.batch_id i) b') as [->|Hb]; simpl; rewrite ?IH.
  - destruct (String.eqb_spec b b') as [->|Hn]; [done|]. by rewrite (proj2 (String.eqb_neq b' b)) by congruence.
  - destruct (String.eqb_spec b b') as [->|Hn]; [|done]. by rewrite (proj2 (String.eqb_neq _ b')).
Qed.

Lemma batch_step_ok s s' : batch_step s s' -> system_ok s -> system_ok s'.
Proof.
  destruct 1 as [now uuid4 n b c l s|op s Hc|now held uuid4 l w s Hnd|now has_tx uuid4 hj hi r s
    |mw tm m ma now uuid4 hj hi has_tx fl tier group base cand infl r s|now held w lease s|now held w lease s
    |now b w lease s|now b w delay s|b w s|now b s|now held bs n s|now b output error job w s|now b w s|now b s
    |now b e s|now b s|now b seen s|now db_now held n s|b s|b s]; intros Hs.
  - by apply promote_keeps.
  - by apply item_op_keeps.
  - by apply complete_keeps.
  - unfold claim_next_work. repeat case_match; try apply transaction_keeps; try done; intros; by apply claim_work_keeps.
  - by apply claim_fair_keeps.
  - apply claim_candidate_keeps; [done| |done]. intros j [Hl _]%andb_true_iff. by apply claim_job_ok.
  - apply claim_candidate_keeps; [done| |done]. intros j [Hl%finalizing_live _]%andb_true_iff.
    by apply lease_only_ok.
  - unfold renew_job_lease, update_any_job. rewrite fst_bind_ret. apply update_jobs_keeps; [done| |done].
    intros j _ [_ H]%andb_true_iff. apply lease_only_ok; [|done]. unfold live. by destruct (Job.status j).
  - unfold reschedule_finalization, update_any_job. rewrite fst_bind_ret. apply update_jobs_keeps; [done| |done].
    intros j _ [_ H%finalizing_live]%andb_true_iff. by apply lease_only_ok.
  - unfold release_job_lease. rewrite fst_bind_ret. apply update_jobs_keeps; [done| |done].
    intros j _ _. by apply unlocked_ok.
  - by apply refresh_keeps.
  - unfold refresh_job_progress_for_batches. case_match; [done|]. rewrite fst_bind_ret.
    apply update_jobs_keeps; [done| |done]. intros j _ _. apply refresh_row_ok.
  - by apply attach_keeps; [apply resolve_final_terminal|].
  - by apply attach_keeps.
  - unfold retry_finalization_now, update_job. rewrite fst_bind_ret. apply update_jobs_keeps; [done| |done].
    intros j _ _. by apply unlocked_ok.
  - unfold set_provider_error, update_job. rewrite fst_bind_ret. apply update_jobs_keeps; [done| |done].
    intros j _ _. by apply job_ok_same.
  - unfold request_cancel, update_job. rewrite fst_bind_ret. apply update_jobs_keeps; [done| |done].
    intros j _ _. destruct (closed (Job.status j)) eqn:E.
    + apply job_ok_same; [|done]. unfold same_progress. cbn. by destruct (Job.status j).
    + apply job_ok_open; [done| |done]. cbn. by destruct (Job.status j).
  - unfold admin_cancel. case_match; [done|]. rewrite fst_bind_ret. apply update_jobs_keeps; [done| |done].
    intros j _ _. by apply job_ok_same.
  - unfold release_expired_job_leases. rewrite fst_bind_ret. apply update_jobs_keeps; [done| |done].
    intros j _ _. by apply unlocked_ok.
  - destruct Hs as (U & Hnd & Hok). cbn. split_and!; [|done|].
    + destruct U as (U1 & U2 & U3). split_and!; by apply filter_keys.
    + eapply Forall_impl; [exact Hok|]. intros j (H1 & H2 & H3). split_and!; [done|done|]. intros Hc.
      destruct (H3 Hc) as [Hf Hn]. cbn [items on_items]. rewrite items_of_deleted.
      destruct (String.eqb _ _); [|done]. split; [constructor|by left].
  - destruct Hs as (U & Hnd & Hok). cbn. split_and!; [done|by apply filter_keys|].
    rewrite Forall_forall in *. intros j Hj. apply Hok. eapply sublist_elem; [apply bool_filter_sublist|exact Hj].
Qed.

Lemma batch_steps_ok s s' : rtc batch_step s s' -> system_ok s -> system_ok s'.
Proof. induction 1 as [|s1 s2 s3 H _ IH]; [done|]. intros Hs. by eapply IH, batch_step_ok. Qed.
End system.

(** C2: A batch never ends with work left.  In every state the system can
    reach, through any interleaving of promotion, claims, completions, retries,
    sweeps, cancellations, repairs, finalisations and retention, batch ids are
    unique, and a job that is finalizing or terminal has only finished items; its
    counters are then exactly the counts of its items (unless retention has
    removed the rows), with nothing in progress or remaining.  A job has a
    completion time exactly when its status is terminal, and then no lease. *)
Theorem batches_finish_complete sha256_hex resolver json_dumps py_str s :
  rtc (batch_step sha256_hex resolver json_dumps py_str) empty_db s ->
  NoDup (map Job.batch_id (jobs s)) /\
  forall j, j ∈ jobs s ->
    (terminal_job (Job.status j) = true <-> is_Some (Job.completed_at j)) /\
    (terminal_job (Job.status j) = true -> Job.locked_by j = None) /\
    (closed (Job.status j) = true ->
       (forall i, i ∈ items s -> Item.batch_id i = Job.batch_id j ->
                  BatchItemStatus.terminal_item (Item.status i) = true) /\
       (items_of (Job.batch_id j) (items s) = [] \/
        let t := items_of (Job.batch_id j) (items s) in
        Job.total_items j = Z.of_nat (length t) /\
        Job.completed_items j = cnt (has_status BatchItemStatus.COMPLETED) t /\
        Job.failed_items j = cnt (has_status BatchItemStatus.FAILED) t /\
        Job.cancelled_items j = cnt (has_status BatchItemStatus.CANCELLED) t /\
        Job.in_progress_items j = 0 /\ Job.remaining_work_units j = 0)).
Proof.
  intros Hrun. apply batch_steps_ok in Hrun; [|apply system_ok_empty]. destruct Hrun as (_ & Hnd & Hok).
  split; [done|]. rewrite Forall_forall in Hok. intros j Hj. destruct (Hok j Hj) as (H1 & H2 & H3).
  split_and!; [done|intros Ht; by apply H2|]. intros Hc. destruct (H3 Hc) as [Hf Hn]. split.
  - intros i Hi Hb. rewrite Forall_forall in Hf. apply Hf, elem_select. split; [done|]. by apply String.eqb_eq.
  - destruct Hn as [Hn|Hn]; [by left|right]. unfold counted, stats_of in Hn. injection Hn as -> _ -> -> -> -> ->.
    destruct (finished_stats _ Hf) as [_ Hip]. split_and!; [done..|exact Hip|].
    rewrite Forall_forall in Hf. unfold select_where. rewrite (filter_ext_elem _ (fun _ => false)).
    + generalize (items_of (Job.batch_id j) (items s)). intros l. by induction l.
    + intros i Hi. by rewrite (Hf i Hi).
Qed.

(** ** Terminal jobs *)

(** The outcome of a job. *)
Definition same_outcome (j j' : Job.batch_job) : Prop :=
  Job.status j' = Job.status j /\ Job.completed_at j' = Job.completed_at j /\
  Job.output_file_id j' = Job.output_file_id j /\ Job.error_file_id j' = Job.error_file_id j.

Section outcome.
Context (sha256_hex : string -> string) (model_group_resolver : option (string -> res exn (option string)))
  (json_dumps : pyval -> option string) (py_str : pyval -> string) (b : string) (j : Job.batch_job).
Hypothesis ended : terminal_job (Job.status j) = true.
Hypothesis dated : is_Some (Job.completed_at j).

#[local] Abbreviation step := (batch_step sha256_hex model_group_resolver json_dumps py_str).

Definition keeps_outcome (s : db) : Prop := exists j', job_row b s = Some j' /\ same_outcome j j'.

Lemma keeps_outcome_same s s' : jobs s' = jobs s -> keeps_outcome s -> keeps_outcome s'.
Proof. unfold keeps_outcome, job_row. by intros ->. Qed.

Lemma keeps_outcome_update p f s :
  (forall x, Job.batch_id (f x) = Job.batch_id x) ->
  (forall x, x ∈ jobs s -> p x = true -> same_outcome j x -> same_outcome x (f x)) ->
  keeps_outcome s -> keeps_outcome (on_jobs (update_where p f) s).
Proof.
  intros Hk Hf (x & Hx & Hs). unfold keeps_outcome, job_row in *. cbn [jobs on_jobs].
  rewrite row_at_update by done. rewrite Hx. eexists. split; [done|].
  destruct (p x) eqn:E; [|done]. apply row_at_key in Hx as [Hx _].
  unfold same_outcome. destruct (Hf x Hx E Hs) as (-> & -> & -> & ->). done.
Qed.

Lemma outcome_not_live x : same_outcome j x -> live x = false /\ finalizing x = false.
Proof.
  intros (E & _). unfold live, finalizing. rewrite E. destruct (Job.status j); done.
Qed.

Lemma keeps_outcome_candidate order p held f s :
  NoDup (map Job.batch_id (jobs s)) -> (forall x, Job.batch_id (f x) = Job.batch_id x) ->
  (forall x, p x = true -> live x = true) ->
  keeps_outcome s -> keeps_outcome (fst (claim_candidate order p held f s)).
Proof.
  intros Hnd Hk Hp Hs. unfold claim_candidate. destruct (head _) as [c|] eqn:E; [|done].
  apply head_Some_elem_of in E. rewrite order_by_perm, elem_select, andb_true_iff in E. destruct E as [Hc [Hpc _]].
  unfold update_job. rewrite fst_bind_ret. apply keeps_outcome_update; [done| |done].
  intros x Hx Hid Hxs. apply String.eqb_eq in Hid. assert (x = c) as -> by by apply (job_elem_unique s).
  destruct (outcome_not_live c Hxs) as [Hl _]. rewrite (Hp c Hpc) in Hl. discriminate.
Qed.

Lemma refresh_outcome now st x : same_outcome j x -> same_outcome x (refresh_row now st x).
Proof.
  intros (E & Ec & _). unfold same_outcome, refresh_row, refreshed_status. cbn. rewrite E, ended, Ec.
  by destruct dated as [t ->].
Qed.

Lemma claim_work_outcome now uuid4 hj hi r s :
  keeps_outcome s -> keeps_outcome (fst (claim_next_work_with_client now uuid4 hj hi r s)).
Proof.
  intros Hs. destruct (claim_cases now hi r uuid4 hj s) as [->|(x & _ & _ & ->)]; [done|]. cbn [fst].
  eapply keeps_outcome_same; [reflexivity|]. apply keeps_outcome_update; [done| |done].
  intros y _ [_ Hy]%andb_true_iff Hys. exfalso. destruct (outcome_not_live y Hys) as [Hl _].
  unfold job_claimable, live in *. by destruct (Job.status y).
Qed.

Lemma tables_same_outcome {A} (m : st db exn A) s : tables_same m -> keeps_outcome s -> keeps_outcome (fst (m s)).
Proof. intros H. destruct (H s) as [_ E]. by apply keeps_outcome_same. Qed.

Lemma selected_claim_outcome mw tm m now uuid4 hj hi r f sel n o s :
  keeps_outcome s -> keeps_outcome (fst (claim_scheduler_selected_flow mw tm m now uuid4 hj hi r f sel n o s)).
Proof.
  intros Hs. unfold claim_scheduler_selected_flow. apply bind_keeps; [intros; by apply claim_work_outcome| |done].
  intros [c|] s1 H1; by apply tables_same_outcome.
Qed.

Lemma claim_rounds_outcome mw tm m ma now uuid4 hj hi r tier group n fs empty s :
  keeps_outcome s -> keeps_outcome (fst (claim_rounds_of mw tm m ma now uuid4 hj hi r tier group n fs empty s)).
Proof.
  revert fs empty s. induction n as [|n IH]; intros fs empty s Hs; cbn [claim_rounds_of];
    set (sel := select_scheduler_flow _ _ _ _ _ _ _);
    (apply bind_keeps; [by intros; apply tables_same_outcome| |done]); intros _ s1 H1.
  - destruct (selected sel); [by apply selected_claim_outcome|done].
  - destruct (selected sel).
    + apply bind_keeps; [intros; by apply selected_claim_outcome| |done].
      intros res s2 H2. destruct (String.eqb _ _); [by apply IH|done].
    + destruct (terminal_empty_scheduler_flow_result sel); [done|].
      apply bind_keeps; [by intros; apply tables_same_outcome| |done]. intros c s2 H2. by apply IH.
Qed.

Lemma claim_fair_outcome mw tm m ma now uuid4 hj hi has_tx fl tier group base cand infl r s :
  keeps_outcome s ->
  keeps_outcome (fst (claim_next_fair_share_work mw tm m ma now uuid4 hj hi sha256_hex has_tx fl tier group base cand infl r s)).
Proof.
  intros Hs. unfold claim_next_fair_share_work. do 2 (case_match; [done|]).
  apply transaction_keeps; [done|]. destruct fl; [|done].
  apply bind_keeps; [|intros fs s1 H1; by apply claim_rounds_outcome|done].
  intros s1 H1. unfold refresh_scheduler_flows_from_snapshot. apply bind_keeps; [| |exact H1].
  - intros s2 H2. apply for_each_keeps; [|done]. intros [raw stable] s3 _ H3.
    unfold repair_scope_id. case_match; [done|]. by apply keeps_outcome_update.
  - intros _ s2 H2. apply tables_same_outcome; [|done]. apply tables_same_bind; [apply refresh_flows_same|done].
Qed.

Lemma promote_outcome now uuid4 n b' c l s :
  keeps_outcome s -> keeps_outcome (fst (promote sha256_hex model_group_resolver json_dumps py_str now uuid4 n b' c l s)).
Proof.
  intros Hs. unfold promote. apply transaction_ok_keeps; [done|]. intros s' a.
  destruct (job_row b' s); [by intros [= <- _]|].
  intros (s2 & [x|] & Hcreate & Hrest)%bind_ret_inv; [|done].
  apply bind_ret_inv in Hrest as (s3 & k & Hspool & Hend).
  assert (Hs' : s' = s3) by (destruct (k =? _); unfold mret, st_ret, raise in Hend; congruence). subst s'.
  unfold create_job in Hcreate. cbn [normalize_batch_job_status jc_status] in Hcreate.
  apply bind_ret_inv in Hcreate as (s1 & [] & Hins & Hcreate).
  apply bind_ret_inv in Hcreate as (s1' & y & Hflow & Hcreate).
  injection Hcreate as Es Ex. subst s1' x. set (new := new_job _ _ _ _ _ _) in *.
  pose proof (spool_adds json_dumps py_str now uuid4 n (Job.batch_id new) 0 [] l s2) as [Ha _]. rewrite Hspool in Ha.
  pose proof (queue_flow_same sha256_hex now new 16 8 s1) as [_ Hj]. rewrite Hflow in Hj. cbn [fst] in *.
  apply (keeps_outcome_same s1); [by rewrite Ha, Hj|]. unfold insert_job in Hins.
  destruct (existsb _ _); [done|]. injection Hins as <-.
  destruct Hs as (z & Hz & Ho). exists z. split; [|done]. unfold job_row in *. cbn [jobs on_jobs].
  by rewrite row_at_app, Hz.
Qed.

Lemma step_outcome s s' :
  system_ok s -> step s s' -> is_Some (job_row b s') -> keeps_outcome s -> keeps_outcome s'.
Proof.
  intros (U & Hnd & _) Hstep Hrow Hs. revert U Hnd Hrow Hs.
  destruct Hstep as [now uuid4 n b' c l s|op s Hc|now held uuid4 l w s Hnd'|now has_tx uuid4 hj hi r s
    |mw tm m ma now uuid4 hj hi has_tx fl tier group base cand infl r s|now held w lease s|now held w lease s
    |now b' w lease s|now b' w delay s|b' w s|now b' s|now held bs n s|now b' output error job w s|now b' w s|now b' s
    |now b' e s|now b' s|now b' seen s|now db_now held n s|b' s|b' s]; intros U Hnd Hrow Hs.
  - by apply promote_outcome.
  - eapply keeps_outcome_same; [|exact Hs].
    destruct (run_item_op_shape json_dumps py_str op s Hc) as [->|(p & f & ->)]; done.
  - eapply keeps_outcome_same; [|exact Hs].
    destruct (complete_spec now held uuid4 l w s U Hnd')
      as [->|(w' & rows & _ & _ & _ & _ & _ & _ & _ & _ & Ej & _)]; done.
  - unfold claim_next_work. repeat case_match; try apply transaction_keeps; try done; intros; by apply claim_work_outcome.
  - by apply claim_fair_outcome.
  - apply keeps_outcome_candidate; [done|done| |done]. by intros x [Hl _]%andb_true_iff.
  - apply keeps_outcome_candidate; [done|done| |done]. by intros x [Hl%finalizing_live _]%andb_true_iff.
  - unfold renew_job_lease, update_any_job. rewrite fst_bind_ret. by apply keeps_outcome_update.
  - unfold reschedule_finalization, update_any_job. rewrite fst_bind_ret. by apply keeps_outcome_update.
  - unfold release_job_lease. rewrite fst_bind_ret. by apply keeps_outcome_update.
  - unfold refresh_job_progress, update_job. rewrite fst_bind_ret. apply keeps_outcome_update; [done| |done].
    intros x _ _. apply refresh_outcome.
  - unfold refresh_job_progress_for_batches. case_match; [done|]. rewrite fst_bind_ret.
    apply keeps_outcome_update; [done| |done]. intros x _ _. apply refresh_outcome.
  - unfold attach_artifacts_and_finalize, update_job. rewrite normalize_inl, fst_bind_ret.
    apply keeps_outcome_update; [done| |done]. intros x _ Hx Hsame. rewrite !andb_true_iff in Hx.
    destruct (outcome_not_live x Hsame) as [_ Hf]. destruct Hx as (_ & _ & Hx). congruence.
  - unfold attach_artifacts_and_finalize, update_job. rewrite normalize_inl, fst_bind_ret.
    apply keeps_outcome_update; [done| |done]. intros x _ Hx Hsame. rewrite !andb_true_iff in Hx.
    destruct (outcome_not_live x Hsame) as [_ Hf]. destruct Hx as (_ & _ & Hx). congruence.
  - unfold retry_finalization_now, update_job. rewrite fst_bind_ret. by apply keeps_outcome_update.
  - unfold set_provider_error, update_job. rewrite fst_bind_ret. by apply keeps_outcome_update.
  - unfold request_cancel, update_job. rewrite fst_bind_ret. apply keeps_outcome_update; [done| |done].
    intros x _ _ (E & _). unfold same_outcome. cbn. by rewrite E, ended.
  - unfold admin_cancel. case_match; [done|]. rewrite fst_bind_ret. by apply keeps_outcome_update.
  - unfold release_expired_job_leases. rewrite fst_bind_ret. by apply keeps_outcome_update.
  - done.
  - destruct Hs as (x & Hx & Ho). exists x. split; [|done]. unfold job_row, row_at in *.
    cbn [fst delete_job modify jobs on_jobs] in *.
    destruct (String.eqb_spec b' b) as [->|Hne].
    + exfalso. destruct Hrow as [y Hy]. apply find_some in Hy as [Hy E]. rewrite bool_decide_eq_true in E.
      apply filter_In in Hy as [_ Hy]. unfold is_job in Hy. rewrite E, String.eqb_refl in Hy. done.
    + clear -Hx Hne. induction (jobs s) as [|y t IH]; [done|]. simpl in *. unfold is_job.
      destruct (String.eqb_spec (Job.batch_id y) b') as [E|E]; simpl.
      * rewrite bool_decide_false in Hx by congruence. by apply IH.
      * case_bool_decide; [done|]. by apply IH.
Qed.
End outcome.

(** C26: The outcome of a batch is final.  Once a job is terminal, its status, its
    completion time and its artifacts never change again, whatever the workers,
    the sweeps, cancellation or the repair actions do, for as long as the job
    exists. *)
Theorem terminal_batches_frozen sha256_hex resolver json_dumps py_str b j s s' :
  system_ok s -> job_row b s = Some j -> terminal_job (Job.status j) = true ->
  rtc (fun s1 s2 => batch_step sha256_hex resolver json_dumps py_str s1 s2 /\ is_Some (job_row b s2)) s s' ->
  exists j', job_row b s' = Some j' /\ Job.status j' = Job.status j /\ Job.completed_at j' = Job.completed_at j /\
    Job.output_file_id j' = Job.output_file_id j /\ Job.error_file_id j' = Job.error_file_id j.
Proof.
  intros Hs Hj Ht Hrun.
  assert (Hd : is_Some (Job.completed_at j)).
  { destruct Hs as (_ & _ & Hok). rewrite Forall_forall in Hok. apply row_at_key in Hj as [Hj _]. by apply (Hok j Hj). }
  assert (H : keeps_outcome b j s) by by exists j.
  clear Hj. induction Hrun as [s|s1 s2 s3 [Hstep Hrow] _ IH]; [exact H|].
  apply IH; [by eapply batch_step_ok|]. by eapply step_outcome.
Qed.

(** ** One statement for many batches *)

Lemma job_row_update p f b s :
  (forall j, Job.batch_id (f j) = Job.batch_id j) ->
  job_row b (on_jobs (update_where p f) s) = (fun j => if p j then f j else j) <$> job_row b s.
Proof. intros Hk. unfold job_row. cbn [jobs on_jobs]. by rewrite row_at_update. Qed.

Lemma refresh_progress_row now b b' s :
  job_row b' (fst (refresh_job_progress now b s))
  = (fun j => if is_job b j then refresh_row now (stats_of (items_of b (items s))) j else j) <$> job_row b' s.
Proof. unfold refresh_job_progress, update_job. rewrite fst_bind_ret. by apply job_row_update. Qed.

(** The sweep's set-wise refresh is the refresh of each batch: when the cut
    does not bind and no row is held, [_refresh_job_progress_for_batches] leaves
    every listed job that has items as [refresh_job_progress] alone would, and
    every other job as it was. *)
Theorem bulk_refresh_is_refresh now bs n s b :
  Z.of_nat (length bs) <= n ->
  let s' := fst (refresh_job_progress_for_batches now nothing_held bs n s) in
  job_row b s' = if bool_decide (b ∈ bs) && negb (Str.is_empty b)
                    && negb (bool_decide (items_of b (items s) = []))
                 then job_row b (fst (refresh_job_progress now b s))
                 else job_row b s.
Proof.
  intros Hn s'. unfold s', refresh_job_progress_for_batches.
  set (listed := List.filter (fun b => negb (Str.is_empty b)) bs).
  assert (Hlim : limit n (order_by String.leb listed) ≡ₚ listed).
  { unfold limit. rewrite take_ge; [apply order_by_perm|]. rewrite order_by_perm.
    pose proof (sublist_length _ _ (bool_filter_sublist (fun b => negb (Str.is_empty b)) bs)). unfold listed. lia. }
  assert (Hin : forall x, x ∈ limit n (order_by String.leb listed) <-> x ∈ bs /\ Str.is_empty x = false).
  { intros x. rewrite Hlim. unfold listed. rewrite list_elem_of_In, filter_In, <- list_elem_of_In, negb_true_iff. done. }
  rewrite refresh_progress_row.
  assert (Hrow : job_row b (on_jobs (update_where
      (fun j => bool_decide (Job.batch_id j ∈ limit n (order_by String.leb listed)) && negb (nothing_held (Job.batch_id j))
                && match items_of (Job.batch_id j) (items s) with [] => false | _ => true end)
      (fun j => refresh_row now (stats_of (items_of (Job.batch_id j) (items s))) j)) s)
    = (fun j => if bool_decide (b ∈ bs) && negb (Str.is_empty b) && negb (bool_decide (items_of b (items s) = []))
                then refresh_row now (stats_of (items_of b (items s))) j else j) <$> job_row b s).
  { rewrite job_row_update by done. destruct (job_row b s) as [j|] eqn:Ej; [|done]. cbn [fmap option_fmap option_map].
    apply row_at_key in Ej as [_ Hid]. f_equal. rewrite Hid. unfold nothing_held. cbn [negb]. rewrite andb_true_r.
    assert (E : bool_decide (b ∈ limit n (order_by String.leb listed)) = bool_decide (b ∈ bs) && negb (Str.is_empty b)).
    { apply eq_true_iff_eq. rewrite andb_true_iff, !bool_decide_eq_true, negb_true_iff. apply Hin. }
    rewrite E. destruct (items_of b (items s)); by rewrite ?andb_false_r, ?andb_true_r. }
  destruct (limit n (order_by String.leb listed)) as [|x l] eqn:El.
  - assert (Hb : bool_decide (b ∈ bs) && negb (Str.is_empty b) = false).
    { apply not_true_iff_false. rewrite andb_true_iff, bool_decide_eq_true, negb_true_iff. intros H%Hin.
      by apply elem_of_nil in H. }
    by rewrite Hb.
  - rewrite fst_bind_ret. cbn [fst update_jobs]. rewrite Hrow.
    destruct (_ && _ && _) eqn:E; [|by destruct (job_row b s)].
    destruct (job_row b s) as [j|] eqn:Ej; [|done]. cbn. apply row_at_key in Ej as [_ Hid].
    unfold is_job. by rewrite Hid, String.eqb_refl.
Qed.

(** ** Failing a batch by hand *)

Lemma head_select b t : head (select_where (is_job b) t) = row_at Job.batch_id b t.
Proof.
  unfold select_where, row_at, is_job. induction t as [|j t IH]; simpl; [done|].
  destruct (String.eqb_spec (Job.batch_id j) b); [by rewrite bool_decide_true|by rewrite bool_decide_false].
Qed.

(** The record a statement on one job returns is its new row. *)
Lemma update_job_eq b f s :
  update_job (is_job b) f s = (on_jobs (update_where (is_job b) f) s, Ret (f <$> job_row b s)).
Proof.
  unfold update_job, update_jobs, mbind, st_bind, mret, st_ret, job_row. rewrite <- head_select.
  by destruct (select_where (is_job b) (jobs s)).
Qed.

Lemma update_job_none p f s : (forall j, j ∈ jobs s -> p j = false) -> update_job p f s = (s, Ret None).
Proof.
  intros H. unfold update_job, update_jobs, mbind, st_bind, mret, st_ret.
  replace (select_where p (jobs s)) with (@nil Job.batch_job).
  - unfold on_jobs. rewrite update_none by done. by destruct s.
  - symmetry. unfold select_where. induction (jobs s) as [|j t IH]; [done|]. simpl.
    rewrite (H j) by left. apply IH. intros x Hx. apply H. by right.
Qed.

Lemma job_row_is_job b f s :
  (forall j, Job.batch_id (f j) = Job.batch_id j) ->
  job_row b (on_jobs (update_where (is_job b) f) s) = f <$> job_row b s.
Proof.
  intros Hk. rewrite job_row_update by done. destruct (job_row b s) as [j|] eqn:E; [|done].
  apply row_at_key in E as [_ E]. cbn. unfold is_job. by rewrite E, String.eqb_refl.
Qed.

Lemma job_row_only b s j x :
  NoDup (map Job.batch_id (jobs s)) -> job_row b s = Some j -> x ∈ jobs s -> Job.batch_id x = b -> x = j.
Proof. intros Hnd [Hj E]%row_at_key Hx Ex. apply (job_elem_unique s); [done..|congruence]. Qed.

Lemma fail_items_finished now b reason s i :
  i ∈ items (fst (fail_nonterminal_items now b reason s)) -> in_batch b i = true ->
  BatchItemStatus.terminal_item (Item.status i) = true.
Proof.
  unfold fail_nonterminal_items. rewrite fst_bind_ret. cbn [fst update_items items on_items].
  intros (r & Hr & ->)%elem_update Hb. destruct (in_batch b r) eqn:E; cbn [andb] in *; [|congruence].
  by destruct (BatchItemStatus.terminal_item (Item.status r)) eqn:Et.
Qed.

Lemma unlock_row_keeps now j :
  Job.status (unlock_row now j) = Job.status j /\ Job.provider_error (unlock_row now j) = Job.provider_error j /\
  Job.cancel_requested_at (unlock_row now j) = Job.cancel_requested_at j.
Proof. done. Qed.

Lemma refresh_row_keeps now x j :
  Job.batch_id (refresh_row now x j) = Job.batch_id j /\ Job.status (refresh_row now x j) = refreshed_status x (Job.status j) /\
  Job.provider_error (refresh_row now x j) = Job.provider_error j /\
  Job.cancel_requested_at (refresh_row now x j) = Job.cancel_requested_at j.
Proof. done. Qed.

(** What the four statements leave behind. *)
Lemma mark_batch_failed_spec now b reason j s :
  job_row b s = Some j -> live j = true ->
  let s1 := fst (mark_batch_failed now b reason j s) in
  let sa := fst (fail_nonterminal_items now b (operator_reason reason) s) in
  items s1 = items sa /\ map Job.batch_id (jobs s1) = map Job.batch_id (jobs s) /\
  exists j1, job_row b s1 = Some j1 /\ Job.status j1 = FINALIZING /\
    Job.locked_by j1 = None /\ Job.lease_expires_at j1 = None /\
    Job.provider_error j1 = Some (encode_operator_failed_reason (operator_reason reason)) /\
    Job.cancel_requested_at j1 = Job.cancel_requested_at j.
Proof.
  intros Hj Hl s1 sa. subst s1. unfold live in Hl. apply negb_true_iff in Hl.
  unfold mark_batch_failed. rewrite Hl.
  destruct (fail_nonterminal_items now b (operator_reason reason) s) as [s0 r0] eqn:E0. cbn [fst] in sa.
  assert (Hr0 : exists n, r0 = Ret n).
  { pose proof E0 as E. unfold fail_nonterminal_items, update_items, mbind, st_bind, mret, st_ret in E.
    injection E as _ <-. by eexists. }
  assert (Ejobs : jobs s0 = jobs s).
  { pose proof E0 as E. unfold fail_nonterminal_items, update_items, mbind, st_bind, mret, st_ret in E.
    by injection E as <- _. }
  assert (Hrow : job_row b s0 = Some j) by (unfold job_row in *; by rewrite Ejobs).
  assert (Hfin : forall i, i ∈ items_of b (items s0) -> BatchItemStatus.terminal_item (Item.status i) = true).
  { intros i [Hi Hb]%elem_select. eapply (fail_items_finished now b (operator_reason reason) s); [|exact Hb]. by rewrite E0. }
  destruct Hr0 as [n ->]. subst sa. rewrite (bind_run _ _ _ _ _ E0). clear E0.
  generalize (Some (encode_operator_failed_reason (operator_reason reason))). intros e.
  erewrite (bind_run (set_provider_error _ _ _)) by apply update_job_eq.
  erewrite (bind_run (refresh_job_progress _ _)) by apply update_job_eq. cbn [items on_jobs].
  destruct (finished_stats (items_of b (items s0))) as [H1 H2]; [by apply Forall_forall|].
  revert H1 H2. generalize (stats_of (items_of b (items s0))). intros x H1 H2.
  rewrite job_row_is_job, Hrow by done. cbn [fmap option_fmap option_map].
  set (j0 := Job.set_provider_error e _). destruct (refresh_row_keeps now x j0) as (Eid & Est & Eerr & Ecan).
  assert (Hst : Job.status (refresh_row now x j0) = FINALIZING).
  { rewrite Est. change (Job.status j0) with (Job.status j). unfold refreshed_status. by rewrite Hl, H1, H2. }
  assert (Hfinal : finalizing (refresh_row now x j0) = true) by (unfold finalizing; by rewrite Hst).
  rewrite Hfinal. unfold retry_finalization_now, update_job. rewrite fst_bind_ret, fst_bind_ret. cbn [fst update_jobs].
  split_and!; [done| |].
  - cbn [jobs on_jobs]. by rewrite !keys_update, Ejobs by done.
  - rewrite job_row_update, !job_row_is_job, Hrow by done. cbn [fmap option_fmap option_map].
    fold j0. apply row_at_key in Hrow as [_ Hid%String.eqb_eq]. unfold is_job. rewrite Eid.
    change (Job.batch_id j0) with (Job.batch_id j). rewrite Hid, Hfinal. cbn [andb].
    destruct (unlock_row_keeps now (refresh_row now x j0)) as (Ust & Uerr & Ucan).
    exists (unlock_row now (refresh_row now x j0)). split_and!; [done|by rewrite Ust|done|done| |].
    + by rewrite Uerr, Eerr.
    + by rewrite Ucan, Ecan.
Qed.

Lemma lease_row_keeps now w lease j :
  Job.batch_id (lease_job now w lease j) = Job.batch_id j /\
  Job.provider_error (lease_job now w lease j) = Job.provider_error j /\
  Job.cancel_requested_at (lease_job now w lease j) = Job.cancel_requested_at j.
Proof. done. Qed.

(** The record a finaliser claims is the row of the job, leased. *)
Lemma claimed_finalization t held w lease s s2 j j2 :
  NoDup (map Job.batch_id (jobs s)) -> job_row (Job.batch_id j2) s = Some j ->
  claim_next_finalization t held w lease s = (s2, Ret (Some j2)) -> j2 = lease_job t w lease j.
Proof.
  intros Hnd Hj H. unfold claim_next_finalization, claim_candidate in H.
  destruct (head _) as [c|]; [|congruence]. rewrite update_job_eq in H. injection H as _ H.
  destruct (job_row (Job.batch_id c) s) as [y|] eqn:Ey; [|done]. injection H as <-. f_equal.
  apply row_at_key in Ey as [Hy _]. destruct (lease_row_keeps t w lease y) as [E _]. rewrite E in Hj.
  by apply (job_row_only (Job.batch_id y) s).
Qed.

Lemma unlocked_not_finalized t b output error k w s j :
  NoDup (map Job.batch_id (jobs s)) -> job_row b s = Some j -> Job.locked_by j = None ->
  attach_artifacts_and_finalize t b output error (inl k) (Some w) s = (s, Ret None).
Proof.
  intros Hnd Hj Hl. unfold attach_artifacts_and_finalize. rewrite normalize_inl. apply update_job_none.
  intros x Hx. destruct (is_job b x) eqn:E; [|done]. apply String.eqb_eq in E.
  rewrite (job_row_only b s j x) by done. unfold locked_for. by rewrite Hl.
Qed.

(** An operator's verdict prevails.  Marking a live batch failed (with nothing
    else in between) leaves all its items finished, the job finalizing without
    any lease, and the operator's reason readable from the provider-error column;
    whoever was finalizing it has lost it, every attempt to attach artifacts
    before a new claim changes nothing; and the record the next finaliser claims
    resolves to "failed", or to "cancelled" when cancellation was asked for. *)
Theorem operator_failure_prevails now b reason j s :
  system_ok s -> job_row b s = Some j -> live j = true ->
  let s1 := fst (mark_batch_failed now b reason j s) in
  (forall i, i ∈ items s1 -> in_batch b i = true -> BatchItemStatus.terminal_item (Item.status i) = true) /\
  exists j1, job_row b s1 = Some j1 /\ Job.status j1 = FINALIZING /\
    Job.locked_by j1 = None /\ Job.lease_expires_at j1 = None /\
    decode_operator_failed_reason (Job.provider_error j1) = Some (operator_reason reason) /\
    (forall t output error k w, attach_artifacts_and_finalize t b output error (inl k) (Some w) s1 = (s1, Ret None)) /\
    forall t held w lease s2 j2,
      claim_next_finalization t held w lease s1 = (s2, Ret (Some j2)) -> Job.batch_id j2 = b ->
      resolve_final_status j2 = match Job.cancel_requested_at j with Some _ => CANCELLED | None => FAILED end.
Proof.
  intros (_ & Hnd & _) Hj Hl s1.
  destruct (mark_batch_failed_spec now b reason j s Hj Hl) as (Hi & Hk & j1 & Hrow & Hst & Hlock & Hlease & Herr & Hcan).
  fold s1 in Hi, Hk, Hrow. rewrite <- Hk in Hnd. split.
  { intros i Hin Hb. rewrite Hi in Hin. by eapply fail_items_finished. }
  clear Hi Hk. clearbody s1. exists j1. split_and!; [done..| | |].
  - rewrite Herr. apply decode_encoded.
  - intros. by apply (unlocked_not_finalized _ _ _ _ _ _ _ j1).
  - intros t held w lease s2 j2 Hclaim <-. apply (claimed_finalization _ _ _ _ _ _ j1) in Hclaim as ->; [|done..].
    destruct (lease_row_keeps t w lease j1) as (_ & E1 & E2). unfold resolve_final_status.
    by rewrite E1, E2, Hcan, Herr, encoded_is_marked.
Qed.

(** ** Examples *)

Definition sample_batch : job_create :=
  mkJobCreate "/v1/embeddings" (Some "m") (Dimensions.mkOwners None (Some "t1") None None) None (inl QUEUED) 0
    (Some "slice_v1") None (Some "m") None None None (Some "standard") None None None None ["team"].

Definition promoted : db :=
  fst (promote (fun s => s) None sample_dumps sample_str 0 sample_uuid 1 "batch" sample_batch
         [sample_create 1 "x"; sample_create 2 "y"] empty_db).
Definition sliced : db :=
  fst (claim_next_work (10 * usec) true "claim" nothing_held nothing_held (sample_request None) promoted).
Definition sliced2 : db :=
  fst (claim_next_work (11 * usec) true "claim2" nothing_held nothing_held (sample_request None) sliced).
Definition done_db : db :=
  fst (complete_items_with_outbox_bulk (20 * usec) nothing_held (fun n => "c" ++ sample_uuid n)%string
         [sample_item_completion "0" 1; sample_item_completion "1" 1] (Some "w") sliced2).
Definition refreshed : db := fst (refresh_job_progress (21 * usec) "batch" done_db).
Definition finalizer : db * res exn (option Job.batch_job) :=
  claim_next_finalization (22 * usec) nothing_held "w" 60 refreshed.
Definition sample_record (x : db * res exn (option Job.batch_job)) : Job.batch_job :=
  match snd x with Ret (Some j) => j | _ => sample_job "" 0 0 "" end.
Definition ended_db : db :=
  fst (attach_artifacts_and_finalize (23 * usec) "batch" (Some "out") None
         (inl (resolve_final_status (sample_record finalizer))) (Some "w") (fst finalizer)).

Definition job_view (b : string) (s : db) : option (job_status * Z * Z * Z * option string) :=
  (fun j => (Job.status j, Job.total_items j, Job.completed_items j, Job.failed_items j, Job.output_file_id j))
    <$> job_row b s.

Example ended_view : job_view "batch" ended_db = Some (COMPLETED, 2, 2, 0, Some "out").
Proof. vm_compute. reflexivity. Qed.

Abbreviation sample_step := (batch_step (fun s => s) None sample_dumps sample_str).

Lemma ended_steps : rtc sample_step empty_db ended_db.
Proof.
  apply (rtc_l _ _ promoted); [apply sys_promote|]. apply (rtc_l _ _ sliced); [apply sys_claim_work|].
  apply (rtc_l _ _ sliced2); [apply sys_claim_work|].
  apply (rtc_l _ _ done_db); [apply sys_complete, (bool_decide_unpack _); vm_compute; exact I|].
  apply (rtc_l _ _ refreshed); [apply sys_refresh|].
  apply (rtc_l _ _ (fst finalizer)); [apply sys_claim_finalization|].
  apply rtc_once, sys_finalize.
Qed.

Lemma ended_ok : system_ok ended_db.
Proof. eapply batch_steps_ok; [exact ended_steps|apply system_ok_empty]. Qed.

Definition ended_job : Job.batch_job := default (sample_job "" 0 0 "") (job_row "batch" ended_db).

Lemma batches_finish_complete_witness :
  ended_job ∈ jobs ended_db /\ Job.status ended_job = COMPLETED /\
  (terminal_job (Job.status ended_job) = true <-> is_Some (Job.completed_at ended_job)).
Proof.
  assert (Hin : ended_job ∈ jobs ended_db).
  { apply (row_at_key Job.batch_id "batch"). vm_compute. reflexivity. }
  split; [exact Hin|]. split; [vm_compute; reflexivity|].
  destruct (batches_finish_complete (fun s => s) None sample_dumps sample_str ended_db ended_steps) as [_ H].
  destruct (H ended_job Hin) as [H1 _]. exact H1.
Defined.

(** Cancellation and a refresh come too late. *)
Definition cancelled_late : db := fst (request_cancel (30 * usec) "batch" ended_db).
Definition refreshed_late : db := fst (refresh_job_progress (31 * usec) "batch" cancelled_late).

Lemma late_steps :
  rtc (fun s1 s2 => sample_step s1 s2 /\ is_Some (job_row "batch" s2)) ended_db refreshed_late.
Proof.
  apply (rtc_l _ _ cancelled_late).
  - split; [apply sys_cancel|]. vm_compute. by eexists.
  - apply rtc_once. split; [apply sys_refresh|]. vm_compute. by eexists.
Qed.

Lemma terminal_batches_frozen_witness :
  exists j', job_row "batch" refreshed_late = Some j' /\ Job.status j' = Job.status ended_job.
Proof.
  destruct (terminal_batches_frozen (fun s => s) None sample_dumps sample_str "batch" ended_job ended_db refreshed_late)
    as (j' & Hj & Hs & _); [exact ended_ok|vm_compute; reflexivity|vm_compute; reflexivity|exact late_steps|].
  exists j'. exact (conj Hj Hs).
Defined.

Lemma bulk_refresh_is_refresh_witness :
  job_row "batch" (fst (refresh_job_progress_for_batches (21 * usec) nothing_held ["batch"; ""] 2 done_db))
  = job_row "batch" refreshed.
Proof.
  rewrite (bulk_refresh_is_refresh (21 * usec) ["batch"; ""] 2 done_db "batch"); [vm_compute; reflexivity|].
  vm_compute. congruence.
Defined.

(** One of two items is completed when an operator fails the batch. *)
Definition half_done : db :=
  fst (complete_items_with_outbox_bulk (20 * usec) nothing_held (fun n => "c" ++ sample_uuid n)%string
         [sample_item_completion "0" 1] (Some "w") sliced2).

Lemma half_done_ok : system_ok half_done.
Proof.
  eapply batch_steps_ok; [|apply system_ok_empty].
  apply (rtc_l (batch_step (fun s => s) None sample_dumps sample_str) _ promoted); [apply sys_promote|].
  apply (rtc_l _ _ sliced); [apply sys_claim_work|]. apply (rtc_l _ _ sliced2); [apply sys_claim_work|].
  apply rtc_once, sys_complete, (bool_decide_unpack _). vm_compute. exact I.
Qed.

Definition half_done_job : Job.batch_job := default (sample_job "" 0 0 "") (job_row "batch" half_done).

Definition claimed_failure : db * res exn (option Job.batch_job) :=
  claim_next_finalization (40 * usec) nothing_held "w2" 60
    (fst (mark_batch_failed (30 * usec) "batch" " bad input " half_done_job half_done)).

Lemma operator_failure_prevails_witness :
  Job.batch_id (sample_record claimed_failure) = "batch" /\
  resolve_final_status (sample_record claimed_failure) = FAILED.
Proof.
  split; [vm_compute; reflexivity|].
  destruct (operator_failure_prevails (30 * usec) "batch" " bad input " half_done_job half_done)
    as (_ & j1 & _ & _ & _ & _ & _ & _ & H);
    [exact half_done_ok|vm_compute; reflexivity|vm_compute; reflexivity|].
  rewrite (H (40 * usec) nothing_held "w2" 60 (fst claimed_failure) (sample_record claimed_failure));
    vm_compute; reflexivity.
Defined.

(** The four statements of mark-failed are no transaction.  A worker that
    refreshes and finalises the batch after the items were failed and before the
    reason is stored publishes it as completed; the operator's call then reports
    success and leaves the reason on a completed job. *)
Example mark_failed_race :
  let items_failed := fst (fail_nonterminal_items (30 * usec) "batch" "bad input" half_done) in
  let refreshed := fst (refresh_job_progress (30 * usec) "batch" items_failed) in
  let claimed := claim_next_finalization (30 * usec) nothing_held "w" 60 refreshed in
  let published := fst (attach_artifacts_and_finalize (31 * usec) "batch" (Some "out") (Some "err")
                          (inl (resolve_final_status (sample_record claimed))) (Some "w") (fst claimed)) in
  let marked := fst (set_provider_error (32 * usec) "batch"
                       (Some (encode_operator_failed_reason "bad input")) published) in
  let final := fst (refresh_job_progress (32 * usec) "batch" marked) in
  (fun j => (Job.status j, decode_operator_failed_reason (Job.provider_error j))) <$> job_row "batch" final
  = Some (COMPLETED, Some "bad input").
Proof. vm_compute. reflexivity. Qed.
