(* ===== verification/LeaseSweep.v ===== *)
(** * The stale-lease sweep

    [sweep_expired_batch_leases] of src/batch/repositories/maintenance_repository.py
    takes back the leases of workers that died: pages of expired items, then
    pages of expired jobs, within a budget of rows for one run, and a refresh of
    the batches it touched.  Its statements are those of [BatchItems] and
    [BatchJobs]; other transactions run between them and hold rows, and any of
    them may fail, which ends the run. *)

From S2P Require Import Prelude PyVal Errors BatchModels BatchDb BatchItems BatchOutbox BatchBilling.
From S2P Require Import WorkClaim BatchJobs.
Import BatchJobStatus.

Definition LEASE_SWEEP_MAX_PAGE_SIZE : Z := 1000.
Definition LEASE_SWEEP_MAX_ROWS_PER_RUN : Z := 5000.

Record sweep_result : Type := mkSweep {
  sw_items : Z;
  sw_jobs : Z;
  sw_batches : list string;
  sw_remaining : Z
}.

Section sweep.
(** The clocks, the page size, and for each statement the rows that others hold,
    what other transactions do before it, and how it fails. *)
Context (now db_now page_size : Z) (held : nat -> string -> bool) (others : nat -> db -> db) (faults : nat -> fault).

(** One pass of [while remaining > 0 and not (item_exhausted and job_exhausted)];
    [None] when the fuel runs out. *)
Fixpoint sweep_loop (fuel : nat) (item_exhausted job_exhausted : bool) (x : sweep_result) (s : db)
  : option (db * res exn sweep_result) :=
  if negb (0 <? sw_remaining x) || (item_exhausted && job_exhausted) then Some (s, Ret x)
  else
    match fuel with
    | O => None
    | S fuel' =>
        let item_limit := Z.min page_size
                            (if job_exhausted then sw_remaining x else Z.max 1 ((sw_remaining x + 1) / 2)) in
        let '(s1, r1) := if item_exhausted then (s, Ret (0, []))
                         else with_fault (faults (2 * fuel)) (requeue_expired_item_leases now (held (2 * fuel)) item_limit)
                                (others (2 * fuel) s) in
        match r1 with
        | Raise e => Some (s1, Raise e)
        | Ret (item_count, batch_ids) =>
            let remaining := sw_remaining x - item_count in
            let item_exhausted' := item_exhausted || (item_count <? item_limit) in
            let job_limit := Z.min page_size remaining in
            let sweep_jobs := negb job_exhausted && (0 <? remaining) in
            let '(s2, r2) := if sweep_jobs
                             then with_fault (faults (2 * fuel + 1))
                                    (release_expired_job_leases now db_now (held (2 * fuel + 1)) job_limit)
                                    (others (2 * fuel + 1) s1)
                             else (s1, Ret 0) in
            match r2 with
            | Raise e => Some (s2, Raise e)
            | Ret job_count =>
                let job_exhausted' := job_exhausted || (sweep_jobs && (job_count <? job_limit)) in
                let x' := mkSweep (sw_items x + item_count) (sw_jobs x + job_count)
                            (remove_dups (sw_batches x ++ batch_ids)) (remaining - job_count) in
                if item_count + job_count =? 0 then Some (s2, Ret x')
                else sweep_loop fuel' item_exhausted' job_exhausted' x' s2
            end
        end
    end.
End sweep.

Definition sweep_start (max_rows_per_run : Z) : sweep_result :=
  mkSweep 0 0 [] (Z.max 0 (Z.min max_rows_per_run LEASE_SWEEP_MAX_ROWS_PER_RUN)).
Definition sweep_page (page_size : Z) : Z :=
  Z.max 1 (Z.min (if page_size =? 0 then 1 else page_size) LEASE_SWEEP_MAX_PAGE_SIZE).

(** The refresh is statement 0.  The counts of leases that are still active,
    statement 1, are read only to report them, but their error counts. *)
Definition sweep_expired_batch_leases (now db_now page_size max_rows_per_run : Z)
    (held : nat -> string -> bool) (others : nat -> db -> db) (faults : nat -> fault) (fuel : nat) (s : db)
  : option (db * res exn (sweep_result * Z)) :=
  match sweep_loop now db_now (sweep_page page_size) held others faults fuel false false (sweep_start max_rows_per_run) s with
  | None => None
  | Some (s1, Raise e) => Some (s1, Raise e)
  | Some (s1, Ret x) =>
      match with_fault (faults 0%nat) (refresh_job_progress_for_batches db_now (held 0%nat) (sw_batches x)
              (Z.min LEASE_SWEEP_MAX_ROWS_PER_RUN (Z.of_nat (length (sw_batches x))))) (others 0%nat s1) with
      | (s2, Ret n) => match faults 1%nat with NoFault => Some (s2, Ret (x, n)) | RolledBack e | AckLost e => Some (s2, Raise e) end
      | (s2, Raise e) => Some (s2, Raise e)
      end
  end.

(** ** One page *)

Section page.
Context {R : Type} (key : R -> string) (le : R -> R -> bool) (p : R -> bool) (held : string -> bool).
Context (n : Z) (t : list R).
Hypothesis keys : NoDup (map key t).
Hypothesis sane : 0 <= n.

Definition page_rows : list R := limit n (order_by le (select_where (fun r => p r && negb (held (key r))) t)).
Definition in_page (r : R) : bool := bool_decide (key r ∈ map key page_rows) && p r.

Lemma page_elem r : r ∈ page_rows -> r ∈ t /\ p r = true /\ held (key r) = false.
Proof.
  intros H%limit_elem. rewrite order_by_perm, elem_select, andb_true_iff, negb_true_iff in H. tauto.
Qed.

Lemma page_count :
  Z.of_nat (length (select_where in_page t))
  = Z.min n (Z.of_nat (length (select_where (fun r => p r && negb (held (key r))) t))).
Proof.
  pose proof (NoDup_fmap_1 _ _ keys) as Hnd.
  replace (length (select_where in_page t)) with (length page_rows).
  { unfold page_rows, limit. rewrite length_take, (Permutation_length (order_by_perm _ _)). lia. }
  apply Permutation_length, NoDup_Permutation.
  - apply (sublist_NoDup _ (order_by le (select_where (fun r => p r && negb (held (key r))) t))); [|apply sublist_take].
    rewrite order_by_perm. by apply select_NoDup.
  - by apply select_NoDup.
  - intros r. rewrite elem_select. unfold in_page. rewrite andb_true_iff, bool_decide_eq_true. split.
    + intros Hr. destruct (page_elem r Hr) as (Ht & Hp & _). split_and!; [done| |done]. by apply list_elem_of_fmap_2.
    + intros (Ht & (r' & E & Hr')%list_elem_of_fmap & _). destruct (page_elem r' Hr') as (Ht' & _).
      by rewrite (NoDup_map_inj key t r r').
Qed.

(** A page that is not full leaves nothing behind. *)
Lemma page_last (f : R -> R) :
  (forall b, held b = false) -> (forall r, p r = true -> p (f r) = false) ->
  Z.of_nat (length (select_where in_page t)) < n ->
  forall r, r ∈ update_where in_page f t -> p r = false.
Proof.
  intros Hh Hf Hlt r (r0 & Hr0 & ->)%elem_update. rewrite page_count in Hlt.
  destruct (p r0) eqn:Hp; [|unfold in_page; by rewrite Hp, andb_false_r].
  replace (in_page r0) with true; [by apply Hf|]. symmetry. unfold in_page. rewrite Hp, andb_true_r.
  apply bool_decide_eq_true, list_elem_of_fmap_2. unfold page_rows, limit. rewrite take_ge.
  - rewrite order_by_perm, elem_select. by rewrite Hp, Hh.
  - rewrite (Permutation_length (order_by_perm _ _)). lia.
Qed.
End page.

(** ** What an expired lease is *)

Definition keyed (s : db) : Prop := NoDup (map Item.item_id (items s)) /\ NoDup (map Job.batch_id (jobs s)).

Definition unfinished (st : job_status) : Prop := st ∈ [QUEUED; IN_PROGRESS; FINALIZING].

(** The lease of an item in progress is over, and its batch is not finished. *)
Record item_lease_over (now : Z) (s : db) (r : Item.batch_item) : Prop := mkItemLeaseOver {
  il_status : Item.status r = BatchItemStatus.IN_PROGRESS;
  il_locked : is_Some (Item.locked_by r);
  il_expired : exists t, Item.lease_expires_at r = Some t /\ t < now;
  il_batch : exists j, job_row (Item.batch_id r) s = Some j /\ unfinished (Job.status j)
}.

(** The lease of an unfinished job is over. *)
Record job_lease_over (now : Z) (j : Job.batch_job) : Prop := mkJobLeaseOver {
  jl_status : unfinished (Job.status j);
  jl_locked : is_Some (Job.locked_by j);
  jl_expired : exists t, Job.lease_expires_at j = Some t /\ t < now
}.

Lemma live_unfinished j : live j = true <-> unfinished (Job.status j).
Proof. unfold live, unfinished. destruct (Job.status j); cbn; set_solver. Qed.

Lemma job_active_unfinished s b : job_active s b = true <-> exists j, job_row b s = Some j /\ unfinished (Job.status j).
Proof.
  unfold job_active, unfinished. destruct (job_row b s) as [j|]; [|naive_solver].
  split; [intros H; exists j; split; [done|]; destruct (Job.status j); set_solver|].
  intros (j' & [= <-] & H). destruct (Job.status j); set_solver.
Qed.

Lemma sweepable_spec now s r : sweepable now s r = true <-> item_lease_over now s r.
Proof.
  unfold sweepable, expired_in_progress, if_set. rewrite !andb_true_iff, job_active_unfinished, bool_decide_eq_true. split.
  - intros ((Hb & Hs & Ht) & Hl). destruct (Item.lease_expires_at r) as [t|] eqn:E; [|done].
    destruct (Item.locked_by r) eqn:El; [|done]. apply Z.ltb_lt in Ht. constructor; [done|by rewrite El|by exists t|done].
  - intros [Hs [w Hw] (t & Ht & Hlt) Hb]. rewrite Hw, Ht. by apply Z.ltb_lt in Hlt.
Qed.

Lemma job_lease_expired_spec now j : job_lease_expired now j = true <-> job_lease_over now j.
Proof.
  unfold job_lease_expired, if_set. rewrite !andb_true_iff, live_unfinished. split.
  - intros [[Hs Hl] Ht]. destruct (Job.lease_expires_at j) as [t|] eqn:E; [|done].
    destruct (Job.locked_by j) eqn:El; [|done]. apply Z.ltb_lt in Ht. constructor; [done|by rewrite El|by exists t].
  - intros [Hs [w Hw] (t & Ht & Hlt)]. rewrite Hw, Ht. by apply Z.ltb_lt in Hlt.
Qed.

(** Nothing of each table is left to sweep. *)
Definition items_swept (now : Z) (s : db) : Prop := forall r, r ∈ items s -> ~ item_lease_over now s r.
Definition jobs_swept (now : Z) (s : db) : Prop := forall j, j ∈ jobs s -> ~ job_lease_over now j.

(** What may happen to an item and to the lease of a job, if only expired leases
    are taken. *)
Record item_reclaimed (r r' : Item.batch_item) : Prop := mkItemReclaimed {
  ir_id : Item.item_id r' = Item.item_id r;
  ir_status : Item.status r' = BatchItemStatus.PENDING;
  ir_locked : Item.locked_by r' = None;
  ir_lease : Item.lease_expires_at r' = None;
  ir_attempts : Item.attempts r' = Item.attempts r
}.
Definition item_kept (now : Z) (s : db) (r r' : Item.batch_item) : Prop :=
  r' = r \/ item_lease_over now s r /\ item_reclaimed r r'.
Definition job_lease (j : Job.batch_job) : string * option string * option Z :=
  (Job.batch_id j, Job.locked_by j, Job.lease_expires_at j).
Definition job_kept (now : Z) (j j' : Job.batch_job) : Prop :=
  job_lease j' = job_lease j \/ job_lease_over now j /\ job_lease j' = (Job.batch_id j, None, None).

(** Row by row, from [s] to [s']. *)
Definition only_expired_taken (now : Z) (s s' : db) : Prop :=
  Forall2 (item_kept now s) (items s) (items s') /\ Forall2 (job_kept now) (jobs s) (jobs s').

(** The same for a run of statements that leave the status of each job. *)
Record taken (now : Z) (s s' : db) : Prop := mkTaken {
  tk_items : Forall2 (item_kept now s) (items s) (items s');
  tk_jobs : Forall2 (fun j j' => job_kept now j j' /\ Job.status j' = Job.status j) (jobs s) (jobs s');
  tk_active : forall b, job_active s' b = job_active s b
}.

Lemma Forall2_update {R} (P : R -> R -> Prop) p f (t : list R) :
  (forall r, P r r) -> (forall r, p r = true -> P r (f r)) -> Forall2 P t (update_where p f t).
Proof.
  intros Hr Hf. unfold update_where. induction t as [|r t IH]; cbn; constructor; [|done]. destruct (p r) eqn:E; auto.
Qed.

Lemma item_lease_over_same now s s' r : (forall b, job_active s' b = job_active s b) ->
  item_lease_over now s' r -> item_lease_over now s r.
Proof. intros Ha [H1 H2 H3 H4]. constructor; try done. apply job_active_unfinished. rewrite <- Ha. by apply job_active_unfinished. Qed.

Lemma taken_refl now s : taken now s s.
Proof. constructor; [| |done]; apply Forall2_same_length_lookup_2; try done; intros i x y ? ?; simplify_eq; [by left|split; [by left|done]]. Qed.

Lemma taken_trans now s1 s2 s3 : taken now s1 s2 -> taken now s2 s3 -> taken now s1 s3.
Proof.
  intros [Hi1 Hj1 Ha1] [Hi2 Hj2 Ha2]. constructor; [| |intros b; by rewrite Ha2].
  - eapply Forall2_trans; [|exact Hi1|exact Hi2]. intros r1 r2 r3 [->|[Ho Hr]] [->|[Ho' Hr']].
    + by left.
    + right. split; [by eapply item_lease_over_same|done].
    + by right.
    + destruct Hr as [_ Hr _ _ _], Ho' as [Ho' _ _ _]. congruence.
  - eapply Forall2_trans; [|exact Hj1|exact Hj2]. intros j1 j2 j3 [H1 E1] [H2 E2]. split; [|congruence].
    destruct H1 as [L1|[O1 L1]], H2 as [L2|[O2 L2]]; unfold job_kept, job_lease in *.
    + left. congruence.
    + right. injection L1 as Eb El Ee. rewrite Eb in L2. split; [|done]. destruct O2 as [Hs Hl He]. rewrite E1, El, Ee in *. by constructor.
    + right. split; [done|congruence].
    + destruct O2 as [_ [w Hw] _]. congruence.
Qed.

(** ** The two statements of a pass *)

Lemma sweepable_jobs now s s' r : (forall b, job_active s' b = job_active s b) -> sweepable now s' r = sweepable now s r.
Proof. intros H. unfold sweepable. by rewrite H. Qed.

Lemma job_active_same s s' : jobs s' = jobs s -> forall b, job_active s' b = job_active s b.
Proof. intros E b. unfold job_active, job_row. by rewrite E. Qed.

Lemma job_active_live s b : job_active s b = match job_row b s with Some j => live j | None => false end.
Proof. unfold job_active, live. destruct (job_row b s) as [j|]; [|done]. by destruct (Job.status j). Qed.

Lemma job_active_update p f s :
  (forall j, Job.batch_id (f j) = Job.batch_id j) -> (forall j, live (f j) = live j) ->
  forall b, job_active (on_jobs (update_where p f) s) b = job_active s b.
Proof.
  intros Hk Hl b. rewrite !job_active_live, job_row_update by done. destruct (job_row b s) as [j|]; [|done].
  cbn. by destruct (p j).
Qed.

Lemma requeue_spec now held n s :
  keyed s -> 0 <= n ->
  exists k bs s', requeue_expired_item_leases now held n s = (s', Ret (k, bs)) /\ keyed s' /\ jobs s' = jobs s /\
    0 <= k <= n /\ ((forall b, held b = false) -> k < n -> items_swept now s') /\ taken now s s'.
Proof.
  intros [Hi Hj] Hn. set (pg := in_page Item.item_id by_lease (sweepable now s) held n (items s)).
  pose proof (page_count Item.item_id by_lease (sweepable now s) held n (items s) Hi Hn) as Hc. fold pg in Hc.
  exists (Z.of_nat (length (select_where pg (items s)))), (remove_dups (List.filter (fun b => negb (Str.is_empty b))
    (map Item.batch_id (select_where pg (items s))))), (on_items (update_where pg requeue_row) s).
  split; [reflexivity|]. split_and!; cbn [items jobs on_items]; [|done|lia|lia| |].
  - split; [|done]. cbn [items on_items]. by rewrite keys_update.
  - intros Hh Hlt r Hr. rewrite <- sweepable_spec, (sweepable_jobs now s) by (by apply job_active_same). apply not_true_iff_false.
    eapply (page_last Item.item_id by_lease (sweepable now s) held n (items s) Hi Hn requeue_row); [exact Hh| |exact Hlt|exact Hr].
    intros x _. unfold sweepable, expired_in_progress. cbn. by rewrite andb_false_r.
  - constructor; cbn [items jobs on_items]; [| |by apply job_active_same].
    + apply Forall2_update; [by left|]. intros r Hr. right. unfold pg, in_page in Hr. apply andb_true_iff in Hr as [_ Hr].
      split; [by apply sweepable_spec|by constructor].
    + apply (taken_refl now s).
Qed.

Definition unlease_row (db_now : Z) (j : Job.batch_job) : Job.batch_job :=
  Job.set_locked_by None (Job.set_lease_expires_at None (Job.set_status_last_updated_at db_now j)).

Lemma release_spec now db_now held n s :
  keyed s -> 0 <= n ->
  exists k s', release_expired_job_leases now db_now held n s = (s', Ret k) /\ keyed s' /\ items s' = items s /\
    (forall b, job_active s' b = job_active s b) /\
    0 <= k <= n /\ ((forall b, held b = false) -> k < n -> jobs_swept now s') /\ taken now s s'.
Proof.
  intros [Hi Hj] Hn. set (pg := in_page Job.batch_id by_job_lease (job_lease_expired now) held n (jobs s)).
  pose proof (page_count Job.batch_id by_job_lease (job_lease_expired now) held n (jobs s) Hj Hn) as Hc. fold pg in Hc.
  exists (Z.of_nat (length (select_where pg (jobs s)))), (on_jobs (update_where pg (unlease_row db_now)) s). split.
  { rewrite <- (length_map (unlease_row db_now)). reflexivity. }
  assert (Hact : forall b, job_active (on_jobs (update_where pg (unlease_row db_now)) s) b = job_active s b) by by apply job_active_update.
  split_and!; cbn [items jobs on_jobs]; [|done|exact Hact|lia|lia| |].
  - split; [done|]. cbn [jobs on_jobs]. by rewrite keys_update.
  - intros Hh Hlt j Hr. rewrite <- job_lease_expired_spec. apply not_true_iff_false.
    eapply (page_last Job.batch_id by_job_lease (job_lease_expired now) held n (jobs s) Hj Hn (unlease_row db_now));
      [exact Hh| |exact Hlt|exact Hr].
    intros x _. unfold job_lease_expired. cbn. by rewrite andb_false_r.
  - constructor; cbn [items jobs on_jobs]; [apply (taken_refl now s)| |exact Hact].
    apply Forall2_update; [by split; [left|]|]. intros j Hr. split; [|done]. right.
    unfold pg, in_page in Hr. apply andb_true_iff in Hr as [_ Hr]. split; [by apply job_lease_expired_spec|done].
Qed.

(** ** The loop *)

(** The error of some statement. *)
Definition statement_error (faults : nat -> fault) (e : exn) : Prop :=
  exists k, faults k = RolledBack e \/ faults k = AckLost e.

(** A statement that returns in [s'], or fails. *)
Lemma with_fault_cases {A} (faults : nat -> fault) k (m : st db exn A) s s' a : m s = (s', Ret a) ->
  exists s1 r, with_fault (faults k) m s = (s1, r) /\ (s1 = s \/ s1 = s') /\
    (r = Ret a /\ s1 = s' \/ exists e, r = Raise e /\ statement_error faults e).
Proof.
  intros H. unfold with_fault, transaction, statement_error. rewrite H. destruct (faults k) as [|e|e] eqn:E; eexists _, _; split; [done|naive_solver..].
Qed.

Section loop.
Context (now db_now page_size : Z) (held : nat -> string -> bool) (others : nat -> db -> db) (faults : nat -> fault).
Hypothesis page_sane : 1 <= page_size.
Hypothesis others_keyed : forall k s, keyed s -> keyed (others k s).

(** Nobody else changes the tables; and nobody holds a row either. *)
Definition undisturbed : Prop := forall k s, others k s = s.
Definition alone : Prop := (forall k b, held k b = false) /\ undisturbed.

Definition kept_swept (ie je : bool) (s : db) : Prop :=
  (ie = true -> items_swept now s) /\ (je = true -> jobs_swept now s).

(** A statement of a pass: what holds of its result, and what it took. *)
Lemma pass_items h k (ie je : bool) n s :
  keyed s -> 0 <= n ->
  exists s1 r,
    (if ie then (s, Ret (0, []))
     else with_fault (faults k) (requeue_expired_item_leases now (held h) n) (others k s)) = (s1, r) /\
    keyed s1 /\ (undisturbed -> taken now s s1) /\
    match r with
    | Ret (c, bs) => 0 <= c <= n /\ (alone -> kept_swept ie je s -> kept_swept (ie || (c <? n)) je s1)
    | Raise e => statement_error faults e
    end.
Proof.
  intros Hs Hn. destruct ie.
  - exists s, (Ret (0, [])). split_and!; [done|done|intros _; apply taken_refl|lia|lia|]. by intros _ H.
  - destruct (requeue_spec now (held h) n (others k s) (others_keyed k s Hs) Hn) as (c & bs & s' & E & Hk & Ej & Hc & Hlast & Ht).
    destruct (with_fault_cases faults k _ _ _ _ E) as (s1 & r & Ef & Hs1 & Hr). exists s1, r. split; [done|].
    split; [by destruct Hs1; subst s1; [apply others_keyed|]|]. split.
    { intros Ho. destruct Hs1; subst s1; rewrite Ho in *; [apply taken_refl|done]. }
    destruct Hr as [[-> ->]|(e & -> & He)]; [|done]. split; [lia|]. intros [Hh Ho] [_ Hj]. cbn [orb]. split.
    + intros Hlt%Z.ltb_lt. apply Hlast; [apply Hh|done].
    + intros Hje j. rewrite Ej, Ho. by apply Hj.
Qed.

Lemma pass_jobs h k (ie je run : bool) n s :
  keyed s -> 0 <= n -> (run = true -> je = false) ->
  exists s1 r,
    (if run then with_fault (faults k) (release_expired_job_leases now db_now (held h) n) (others k s) else (s, Ret 0)) = (s1, r) /\
    keyed s1 /\ (undisturbed -> taken now s s1) /\
    match r with
    | Ret c => 0 <= c <= n /\ (alone -> kept_swept ie je s -> kept_swept ie (je || (run && (c <? n))) s1)
    | Raise e => statement_error faults e
    end.
Proof.
  intros Hs Hn Hrun. destruct run.
  - destruct (release_spec now db_now (held h) n (others k s) (others_keyed k s Hs) Hn)
      as (c & s' & E & Hk & Ei & Ha & Hc & Hlast & Ht).
    destruct (with_fault_cases faults k _ _ _ _ E) as (s1 & r & Ef & Hs1 & Hr). exists s1, r. split; [done|].
    split; [by destruct Hs1; subst s1; [apply others_keyed|]|]. split.
    { intros Ho. destruct Hs1; subst s1; rewrite Ho in *; [apply taken_refl|done]. }
    destruct Hr as [[-> ->]|(e & -> & He)]; [|done]. split; [lia|]. intros [Hh Ho] [Hi _]. rewrite Hrun by done. cbn [orb andb]. split.
    + intros Hie r Hin Hover. rewrite Ei, Ho in Hin. apply (Hi Hie r Hin).
      eapply item_lease_over_same; [|exact Hover]. intros b. by rewrite Ha, Ho.
    + intros Hlt%Z.ltb_lt. apply Hlast; [apply Hh|done].
  - exists s, (Ret 0). split_and!; [done|done|intros _; apply taken_refl|lia|lia|]. intros _. cbn [andb]. by rewrite orb_false_r.
Qed.

Definition sweep_total (x : sweep_result) : Z := sw_items x + sw_jobs x + sw_remaining x.

Lemma sweep_loop_spec fuel ie je x s :
  keyed s -> 0 <= sw_remaining x -> (Z.to_nat (sw_remaining x) < fuel)%nat ->
  exists s' r, sweep_loop now db_now page_size held others faults fuel ie je x s = Some (s', r) /\ keyed s' /\
    (undisturbed -> taken now s s') /\
    match r with
    | Ret x' =>
      sw_items x <= sw_items x' /\ sw_jobs x <= sw_jobs x' /\ 0 <= sw_remaining x' /\
      sweep_total x' = sweep_total x /\
      (alone -> kept_swept ie je s -> 0 < sw_remaining x' -> items_swept now s' /\ jobs_swept now s')
    | Raise e => statement_error faults e
    end.
Proof.
  revert ie je x s. induction fuel as [|fuel IH]; intros ie je x s Hs Hrem Hfuel; [lia|]. cbn [sweep_loop].
  destruct (negb (0 <? sw_remaining x) || (ie && je)) eqn:Estop.
  { exists s, (Ret x). split_and!; try done; try lia; [intros _; apply taken_refl|]. intros _ [Hi Hj] Hpos. apply Z.ltb_lt in Hpos.
    rewrite Hpos in Estop. apply andb_true_iff in Estop as [-> ->]. auto. }
  apply orb_false_iff in Estop as [Hpos%negb_false_iff%Z.ltb_lt Hboth].
  set (nl := Z.min page_size _).
  assert (Hnl : 1 <= nl <= sw_remaining x).
  { unfold nl. destruct je; [lia|]. assert (1 <= Z.max 1 ((sw_remaining x + 1) / 2) <= sw_remaining x); [|lia].
    split; [lia|]. apply Z.max_lub; [lia|]. apply Z.div_le_upper_bound; lia. }
  clearbody nl.
  destruct (pass_items (2 * S fuel) (2 * S fuel) ie je nl s Hs) as (s1 & r1 & -> & Hs1 & Ht1 & Hr1); [lia|].
  destruct r1 as [[c bs]|e]; [|by exists s1, (Raise e)]. destruct Hr1 as [Hc Hsw1].
  cbv zeta. set (ie' := ie || (c <? nl)) in *. set (rem := sw_remaining x - c).
  set (run := negb je && (0 <? rem)). set (nj := Z.min page_size rem).
  destruct (pass_jobs (2 * S fuel + 1) (2 * S fuel + 1) ie' je run nj s1 Hs1) as (s2 & r2 & -> & Hs2 & Ht2 & Hr2);
    [unfold nj, rem; lia|unfold run; by destruct je|].
  assert (Ht : undisturbed -> taken now s s2) by (intros Ho; by eapply taken_trans; [apply Ht1|apply Ht2]).
  destruct r2 as [d|e]; [|by exists s2, (Raise e)]. destruct Hr2 as [Hd Hsw2].
  set (je' := je || (run && (d <? nj))) in *. set (x' := mkSweep _ _ _ _).
  assert (Hx' : sw_items x <= sw_items x' /\ sw_jobs x <= sw_jobs x' /\ 0 <= sw_remaining x' /\
                sweep_total x' = sweep_total x).
  { unfold x', sweep_total, rem. cbn. unfold nj, rem in Hd. lia. }
  destruct Hx' as (Hx1 & Hx2 & Hx3 & Hx4).
  destruct (Z.eqb_spec (c + d) 0) as [Hz|Hz].
  - exists s2, (Ret x'). split_and!; try done. intros Ha Hk _. destruct (Hsw2 Ha (Hsw1 Ha Hk)) as [Hi Hj]. split.
    + apply Hi. unfold ie'. apply orb_true_iff. right. apply Z.ltb_lt. lia.
    + apply Hj. unfold je', run, nj, rem. destruct je; [done|]. cbn [orb negb andb].
      rewrite (proj2 (Z.ltb_lt 0 _)) by lia. apply Z.ltb_lt. lia.
  - destruct (IH ie' je' x' s2) as (s' & r & Hrun & Hs' & Ht' & Hr); [done|done| |].
    { unfold x', rem. cbn. unfold nj, rem in Hd. lia. }
    exists s', r. split; [exact Hrun|]. split; [done|]. split; [intros Ho; by eapply taken_trans; [apply Ht|apply Ht']|].
    destruct r as [y|e]; [|done]. destruct Hr as (Hy1 & Hy2 & Hy3 & Hy4 & Hy5). split_and!; [lia|lia|done|congruence|].
    intros Ha Hk. apply Hy5; [done|]. exact (Hsw2 Ha (Hsw1 Ha Hk)).
Qed.
End loop.

(** The refresh touches no lease and decides no batch. *)
Lemma refresh_many_spec db_now h bs n s :
  exists k s', refresh_job_progress_for_batches db_now h bs n s = (s', Ret k) /\ items s' = items s /\
    (forall b, job_active s' b = job_active s b) /\
    Forall2 (fun j j' => job_lease j' = job_lease j /\ live j' = live j) (jobs s) (jobs s').
Proof.
  unfold refresh_job_progress_for_batches. destruct (limit n _) as [|b l].
  { exists 0, s. split_and!; try done. apply Forall2_same_length_lookup_2; [done|]. intros i x y ? ?; by simplify_eq. }
  unfold update_jobs, mbind, st_bind, mret, st_ret. eexists _, _. split; [reflexivity|].
  assert (Hlive : forall now' x j, live (refresh_row now' x j) = live j).
  { intros now' x j. unfold live. destruct (refresh_row_keeps now' x j) as (_ & -> & _). by rewrite refreshed_terminal. }
  split; [done|]. split; [by apply job_active_update|]. by apply Forall2_update.
Qed.

Lemma refreshed_swept s s' now : items s' = items s -> (forall b, job_active s' b = job_active s b) ->
  Forall2 (fun j j' => job_lease j' = job_lease j /\ live j' = live j) (jobs s) (jobs s') ->
  items_swept now s -> jobs_swept now s -> items_swept now s' /\ jobs_swept now s'.
Proof.
  intros Ei Ha Hf Hi Hj. split.
  - intros r Hr Ho. rewrite Ei in Hr. eapply Hi; [done|]. by eapply item_lease_over_same.
  - intros j Hin [Hs Hl He]. apply list_elem_of_lookup in Hin as [i Hin].
    destruct (Forall2_lookup_r _ _ _ _ _ Hf Hin) as (j0 & Hj0 & El & Ev). apply (Hj j0); [by eapply list_elem_of_lookup_2|].
    unfold job_lease in El. injection El as _ El Ee. rewrite El in Hl. rewrite Ee in He.
    constructor; [|done|done]. apply live_unfinished. rewrite <- Ev. by apply live_unfinished.
Qed.

Lemma refreshed_taken now s s1 s2 : taken now s s1 -> items s2 = items s1 ->
  Forall2 (fun j j' => job_lease j' = job_lease j /\ live j' = live j) (jobs s1) (jobs s2) -> only_expired_taken now s s2.
Proof.
  intros [Hi Hj _] Ei Hf. split; [by rewrite Ei|]. eapply Forall2_trans; [|exact Hj|exact Hf].
  intros j1 j2 j3 [H _] [E _]. unfold job_kept in *. by rewrite E.
Qed.

Lemma taken_only_expired now s s' : taken now s s' -> only_expired_taken now s s'.
Proof. intros [Hi Hj _]. split; [done|]. eapply Forall2_impl; [exact Hj|]. by intros ? ? [? _]. Qed.

(** C38: A run of the stale-lease sweep ends, within its budget, takes only what
    is over and leaves nothing that is.  Whatever other transactions do between
    its statements, whichever rows they hold and whichever statement fails (keys
    staying unique), a run ends after at most one pass per row of its budget: it
    returns, having taken back at most [min(max_rows_per_run, 5000)] leases, or
    raises the error of the statement that failed.  Either way, unless others
    change the tables meanwhile, an item is as it was or had, in an unfinished
    batch, a lease that was over, and is then pending again with its attempts;
    and the lease of a job is as it was or was over, on an unfinished job, and
    is gone.  When the run returns, nobody interfered and the budget was not used
    up, no lease that is over is left. *)
Theorem sweep_reclaims now db_now page_size max_rows held others faults fuel s :
  (forall k s, keyed s -> keyed (others k s)) -> keyed s ->
  (Z.to_nat (Z.min max_rows 5000) < fuel)%nat ->
  exists s' r,
    sweep_expired_batch_leases now db_now page_size max_rows held others faults fuel s = Some (s', r) /\
    ((forall k s, others k s = s) -> only_expired_taken now s s') /\
    match r with
    | Ret (x, _) =>
      0 <= sw_items x /\ 0 <= sw_jobs x /\ sw_items x + sw_jobs x <= Z.max 0 (Z.min max_rows 5000) /\
      ((forall k b, held k b = false) -> (forall k s, others k s = s) ->
       sw_items x + sw_jobs x < Z.min max_rows 5000 -> items_swept now s' /\ jobs_swept now s')
    | Raise e => exists k, faults k = RolledBack e \/ faults k = AckLost e
    end.
Proof.
  intros Ho Hs Hf. unfold sweep_expired_batch_leases.
  assert (Hpage : 1 <= sweep_page page_size) by (unfold sweep_page, LEASE_SWEEP_MAX_PAGE_SIZE; lia).
  destruct (sweep_loop_spec now db_now (sweep_page page_size) held others faults Hpage Ho fuel false false
              (sweep_start max_rows) s Hs) as (s1 & r1 & -> & Hk1 & Ht & Hr1).
  { unfold sweep_start. cbn [sw_remaining]. lia. }
  { unfold sweep_start, LEASE_SWEEP_MAX_ROWS_PER_RUN. cbn [sw_remaining]. lia. }
  destruct r1 as [x|e]; [|exists s1, (Raise e); split_and!; [done|intros Hid; apply taken_only_expired; by apply Ht|exact Hr1]].
  destruct Hr1 as (H1 & H2 & H3 & H4 & H5).
  unfold sweep_total, sweep_start, LEASE_SWEEP_MAX_ROWS_PER_RUN in *. cbn [sw_items sw_jobs sw_remaining] in *.
  set (h0 := held 0%nat). set (lim := Z.min 5000 _).
  destruct (refresh_many_spec db_now h0 (sw_batches x) lim (others 0%nat s1)) as (n & s2 & E & Ei & Ha & Hj).
  destruct (with_fault_cases faults 0 _ _ _ _ E) as (s3 & r & -> & Hs3 & Hr).
  assert (Htaken : (forall k s, others k s = s) -> only_expired_taken now s s3).
  { intros Hid. specialize (Ht Hid). rewrite Hid in *. destruct Hs3 as [->| ->]; [by apply taken_only_expired|by eapply refreshed_taken]. }
  destruct Hr as [[-> ->]|(e & -> & He)]; [|by exists s3, (Raise e)].
  destruct (faults 1%nat) as [|e|e] eqn:E1; [|exists s2, (Raise e); split_and!; eauto..].
  exists s2, (Ret (x, n)). split_and!; [done|done|lia|lia|lia|].
  intros Hh Hid Hlt. destruct H5 as [Hi Hj']; [by split|by split|lia|]. rewrite Hid in *. by eapply refreshed_swept.
Qed.

(** Worker "w" died with both items of the batch and its lease. *)
Definition abandoned : db :=
  fst (claim_next_job (12 * usec) nothing_held "w" 60 sliced2).

(** The first page of items fails: the run ends with that error. *)
Example sweep_error_escapes :
  (match sweep_expired_batch_leases (100 * usec) (100 * usec) 100 500 (fun _ => nothing_held) (fun _ s => s)
           (fun k => if (k =? 1002)%nat then RolledBack EAsyncioTimeout else NoFault) 501 abandoned with
   | Some (s', Raise e) => bool_decide (length (items s') = length (items abandoned)) && match e with EAsyncioTimeout => true | _ => false end
   | _ => false
   end) = true.
Proof. vm_compute. reflexivity. Qed.

Lemma sweep_reclaims_witness :
  (match sweep_expired_batch_leases (100 * usec) (100 * usec) 100 500 (fun _ => nothing_held) (fun _ s => s) (fun _ => NoFault) 501 abandoned with
   | Some (_, Ret (x, n)) => (sw_items x, sw_jobs x, sw_batches x, n)
   | _ => (0, 0, [], 0)
   end) = (2, 1, ["batch"], 1) /\
  exists s' r,
    sweep_expired_batch_leases (100 * usec) (100 * usec) 100 500 (fun _ => nothing_held) (fun _ s => s) (fun _ => NoFault) 501 abandoned
      = Some (s', r) /\ only_expired_taken (100 * usec) abandoned s' /\
    match r with
    | Ret (x, _) => sw_items x + sw_jobs x < 500 -> items_swept (100 * usec) s' /\ jobs_swept (100 * usec) s'
    | Raise _ => False
    end.
Proof.
  split; [vm_compute; reflexivity|].
  destruct (sweep_reclaims (100 * usec) (100 * usec) 100 500 (fun _ => nothing_held) (fun _ s => s) (fun _ => NoFault) 501 abandoned)
    as (s' & r & E & Ht & H).
  - intros _ s Hs. exact Hs.
  - split; apply (bool_decide_unpack _); vm_compute; exact I.
  - apply Nat.ltb_lt. vm_compute. reflexivity.
  - exists s', r. split; [exact E|]. split; [by apply Ht|]. destruct r as [[x n]|e].
    + intros Hlt. apply H; [reflexivity|reflexivity|exact Hlt].
    + by destruct H as [k [H|H]].
Defined.
