(* ===== verification/Calendar.v ===== *)
(** * Calendar arithmetic

    The part of Python's [datetime] and [calendar] modules the budget code
    computes with: proleptic Gregorian dates with a time of day in
    microseconds, read in UTC; [calendar.monthrange], [datetime.replace] of
    the date fields, comparison, subtraction and the addition of a
    [timedelta]. *)

From S2P Require Import Prelude PyVal.

(** ** Dates *)

Definition is_leap (y : Z) : bool :=
  (y mod 4 =? 0) && (negb (y mod 100 =? 0) || (y mod 400 =? 0)).

Definition days_in_year (y : Z) : Z := if is_leap y then 366 else 365.

(** [calendar.monthrange(year, month)[1]] *)
Definition days_in_month (y m : Z) : Z :=
  if m =? 2 then if is_leap y then 29 else 28
  else if (m =? 4) || (m =? 6) || (m =? 9) || (m =? 11) then 30 else 31.

Definition days_before_year (y : Z) : Z :=
  let p := y - 1 in p * 365 + p / 4 - p / 100 + p / 400.

(** The days of the [n] months from January on. *)
Fixpoint days_of_months (y : Z) (n : nat) : Z :=
  match n with
  | O => 0
  | S n' => days_of_months y n' + days_in_month y (Z.of_nat n' + 1)
  end.
Definition days_before_month (y m : Z) : Z := days_of_months y (Z.to_nat (m - 1)).

(** A UTC [datetime]; [dt_tod] is the time of day in microseconds. *)
Record datetime : Type := mkDatetime {
  dt_year : Z;
  dt_month : Z;
  dt_day : Z;
  dt_tod : Z
}.
#[export] Instance datetime_eq_dec : EqDecision datetime.
Proof. solve_decision. Defined.

Definition day_usec : Z := 86400 * usec.
Definition MINYEAR : Z := 1.
Definition MAXYEAR : Z := 9999.

Definition date_fields_ok (y m d : Z) : bool :=
  (MINYEAR <=? y) && (y <=? MAXYEAR) && (1 <=? m) && (m <=? 12) && (1 <=? d) && (d <=? days_in_month y m).

Definition dt_ok (t : datetime) : bool :=
  date_fields_ok (dt_year t) (dt_month t) (dt_day t) && (0 <=? dt_tod t) && (dt_tod t <? day_usec).

(** [date.toordinal]: the first of January of the year 1 is day 1. *)
Definition toordinal (y m d : Z) : Z := days_before_year y + days_before_month y m + d.

(** Microseconds since the start of day 0. *)
Definition to_usec (t : datetime) : Z :=
  toordinal (dt_year t) (dt_month t) (dt_day t) * day_usec + dt_tod t.

Definition dt_ltb (a b : datetime) : bool := to_usec a <? to_usec b.
Definition dt_leb (a b : datetime) : bool := to_usec a <=? to_usec b.

(** The month and day of the [d]-th day (from zero) of a year. *)
Fixpoint find_month (y : Z) (fuel : nat) (m d : Z) : Z * Z :=
  match fuel with
  | O => (m, d + 1)
  | S f => if d <? days_in_month y m then (m, d + 1) else find_month y f (m + 1) (d - days_in_month y m)
  end.

(** The year, month and day of the [d]-th day (from zero) counted from a year. *)
Fixpoint find_year (fuel : nat) (y d : Z) : option (Z * Z * Z) :=
  match fuel with
  | O => None
  | S f =>
    if d <? days_in_year y then let '(m, dd) := find_month y 11 1 d in Some (y, m, dd)
    else find_year f (y + 1) (d - days_in_year y)
  end.

(** [date.fromordinal]; [None] is the [OverflowError] of an ordinal out of range. *)
Definition fromordinal (n : Z) : option (Z * Z * Z) :=
  if n <? 1 then None else find_year (Z.to_nat MAXYEAR) MINYEAR (n - 1).

Definition of_usec (u : Z) : res pyexc datetime :=
  match fromordinal (u / day_usec) with
  | Some (y, m, d) => Ret (mkDatetime y m d (u mod day_usec))
  | None => Raise OverflowError
  end.

(** [value + delta], a [timedelta] in microseconds. *)
Definition dt_add (t : datetime) (delta : Z) : res pyexc datetime := of_usec (to_usec t + delta).

(** [a - b] *)
Definition dt_sub (a b : datetime) : Z := to_usec a - to_usec b.

(** [value.replace(year=y, month=m, day=d)] *)
Definition replace_date (t : datetime) (y m d : Z) : res pyexc datetime :=
  if date_fields_ok y m d then Ret (mkDatetime y m d (dt_tod t)) else Raise ValueError.

(** ** Laws *)

Lemma days_in_month_range y m : 28 <= days_in_month y m <= 31.
Proof. unfold days_in_month. repeat case_match; lia. Qed.

Lemma days_before_year_succ y : days_before_year (y + 1) = days_before_year y + days_in_year y.
Proof.
  unfold days_before_year, days_in_year, is_leap. replace (y + 1 - 1) with (y - 1 + 1) by lia.
  set (p := y - 1). replace y with (p + 1) by lia.
  destruct (Z.eqb_spec ((p + 1) mod 4) 0), (Z.eqb_spec ((p + 1) mod 100) 0),
    (Z.eqb_spec ((p + 1) mod 400) 0); simpl; Z.div_mod_to_equations; lia.
Qed.

Lemma days_of_months_mono y n n' : (n <= n')%nat -> days_of_months y n <= days_of_months y n'.
Proof.
  induction 1 as [|n' _ IH]; [done|]. simpl. pose proof (days_in_month_range y (Z.of_nat n' + 1)). lia.
Qed.

Lemma days_of_year y : days_of_months y 12 = days_in_year y.
Proof. unfold days_in_year, days_of_months, days_in_month. simpl. destruct (is_leap y); reflexivity. Qed.

Lemma days_before_month_succ y m : 1 <= m ->
  days_before_month y (m + 1) = days_before_month y m + days_in_month y m.
Proof.
  intros Hm. unfold days_before_month. replace (Z.to_nat (m + 1 - 1)) with (S (Z.to_nat (m - 1))) by lia.
  simpl. by rewrite Z2Nat.id, Z.sub_add by lia.
Qed.

Lemma days_before_month_mono y m m' : 1 <= m < m' ->
  days_before_month y m + days_in_month y m <= days_before_month y m'.
Proof.
  intros Hm. rewrite <- days_before_month_succ by lia. apply days_of_months_mono. lia.
Qed.

Lemma days_before_month_end y m : 1 <= m <= 12 ->
  0 <= days_before_month y m /\ days_before_month y m + days_in_month y m <= days_in_year y.
Proof.
  intros Hm. rewrite <- days_before_month_succ, <- days_of_year by lia. split.
  - apply (days_of_months_mono y 0). lia.
  - apply days_of_months_mono. lia.
Qed.

Lemma days_before_year_mono y y' : y < y' -> days_before_year y + days_in_year y <= days_before_year y'.
Proof.
  intros Hy. rewrite <- days_before_year_succ. unfold days_before_year.
  Z.div_mod_to_equations. lia.
Qed.

(** Years and months counted together. *)
Definition month_index (t : datetime) : Z := dt_year t * 12 + (dt_month t - 1).

Lemma date_fields_ok_spec y m d :
  date_fields_ok y m d = true <-> 1 <= y <= 9999 /\ 1 <= m <= 12 /\ 1 <= d <= days_in_month y m.
Proof. unfold date_fields_ok, MINYEAR, MAXYEAR. rewrite !andb_true_iff, !Z.leb_le. lia. Qed.

Lemma dt_ok_spec t : dt_ok t = true <->
  (1 <= dt_year t <= 9999 /\ 1 <= dt_month t <= 12 /\ 1 <= dt_day t <= days_in_month (dt_year t) (dt_month t)) /\
  0 <= dt_tod t < day_usec.
Proof. unfold dt_ok. rewrite !andb_true_iff, date_fields_ok_spec, Z.leb_le, Z.ltb_lt. tauto. Qed.

Lemma toordinal_month_lt y m d y' m' d' :
  1 <= m <= 12 -> 1 <= d <= days_in_month y m -> 1 <= m' <= 12 -> 1 <= d' ->
  y * 12 + m < y' * 12 + m' -> toordinal y m d < toordinal y' m' d'.
Proof.
  intros Hm Hd Hm' Hd' Hlt. unfold toordinal.
  pose proof (days_before_month_end y m Hm). pose proof (days_before_month_end y' m' Hm').
  destruct (Z.lt_trichotomy y y') as [Hy|[->|Hy]]; [|pose proof (days_before_month_mono y' m m'); lia|lia].
  pose proof (days_before_year_mono y y' Hy). lia.
Qed.

(** A later month is a later instant. *)
Lemma month_index_lt a b : dt_ok a = true -> dt_ok b = true ->
  month_index a < month_index b -> to_usec a < to_usec b.
Proof.
  intros (Ha & Ta)%dt_ok_spec (Hb & Tb)%dt_ok_spec Hlt. unfold month_index in Hlt. unfold to_usec.
  pose proof (toordinal_month_lt (dt_year a) (dt_month a) (dt_day a) (dt_year b) (dt_month b) (dt_day b)
    ltac:(lia) ltac:(lia) ltac:(lia) ltac:(lia) ltac:(lia)). nia.
Qed.

Lemma find_month_spec y fuel m d m' d' : 1 <= m -> 0 <= d -> m + Z.of_nat fuel = 12 ->
  days_before_month y m + d < days_in_year y ->
  find_month y fuel m d = (m', d') ->
  m <= m' <= 12 /\ 1 <= d' <= days_in_month y m' /\ days_before_month y m' + d' = days_before_month y m + d + 1.
Proof.
  revert m d. induction fuel as [|f IH]; intros m d Hm Hd Hf Hlt; simpl.
  - intros [= <- <-]. assert (m = 12) as -> by lia. split_and!; try lia.
    pose proof (days_before_month_succ y 12 ltac:(lia)) as Hs.
    rewrite <- days_of_year in Hlt. change (days_before_month y (12 + 1)) with (days_of_months y 12) in Hs. lia.
  - destruct (Z.ltb_spec d (days_in_month y m)); [intros [= <- <-]; lia|].
    intros H'. apply IH in H'; rewrite ?days_before_month_succ in * by lia; lia.
Qed.

Lemma find_year_spec fuel y d y' m' d' : 0 <= d ->
  find_year fuel y d = Some (y', m', d') ->
  y <= y' < y + Z.of_nat fuel /\ 1 <= m' <= 12 /\ 1 <= d' <= days_in_month y' m' /\
  toordinal y' m' d' = days_before_year y + d + 1.
Proof.
  revert y d. induction fuel as [|f IH]; intros y d Hd; cbn [find_year]; [done|].
  destruct (Z.ltb_spec d (days_in_year y)).
  - destruct (find_month y 11 1 d) as [m dd] eqn:E. intros [= <- <- <-].
    apply find_month_spec in E; [|lia..|change (days_before_month y 1) with 0; lia].
    change (days_before_month y 1) with 0 in E. unfold toordinal. lia.
  - intros H'. apply IH in H'; [|lia]. rewrite days_before_year_succ in H'. lia.
Qed.

(** Converting an instant to fields and back loses nothing. *)
Lemma of_usec_spec u t : of_usec u = Ret t -> dt_ok t = true /\ to_usec t = u.
Proof.
  unfold of_usec, fromordinal. destruct (Z.ltb_spec (u / day_usec) 1); [done|].
  destruct (find_year _ _ _) as [[[y m] d]|] eqn:E; [|done]. intros [= <-].
  apply find_year_spec in E; [|lia]. change (days_before_year MINYEAR) with 0 in E.
  unfold MINYEAR, MAXYEAR in E. rewrite Z2Nat.id in E by lia.
  assert (Hday : 0 < day_usec) by done. pose proof (Z.mod_pos_bound u day_usec Hday).
  rewrite dt_ok_spec. unfold to_usec. cbn [dt_year dt_month dt_day dt_tod]. split; [lia|].
  pose proof (Z.div_mod u day_usec ltac:(lia)). lia.
Qed.

Lemma find_year_total fuel y d : 0 <= d < days_before_year (y + Z.of_nat fuel) - days_before_year y ->
  is_Some (find_year fuel y d).
Proof.
  revert y d. induction fuel as [|f IH]; intros y d Hd; cbn [find_year].
  - rewrite Z.add_0_r in Hd. lia.
  - destruct (Z.ltb_spec d (days_in_year y)); [destruct (find_month _ _ _ _); eauto|].
    apply IH. rewrite days_before_year_succ. replace (y + 1 + Z.of_nat f) with (y + Z.of_nat (S f)) by lia. lia.
Qed.

(** Only instants outside the years 1 to 9999 have no fields. *)
Lemma of_usec_total u : day_usec <= u < (days_before_year 10000 + 1) * day_usec -> exists t, of_usec u = Ret t.
Proof.
  intros Hu. assert (Hday : 0 < day_usec) by done. unfold of_usec, fromordinal.
  assert (1 <= u / day_usec < days_before_year 10000 + 1).
  { split; [apply Z.div_le_lower_bound; lia|apply Z.div_lt_upper_bound; lia]. }
  destruct (Z.ltb_spec (u / day_usec) 1); [lia|].
  destruct (find_year_total (Z.to_nat MAXYEAR) MINYEAR (u / day_usec - 1)) as [[[y m] d] ->]; [|eauto].
  unfold MINYEAR, MAXYEAR. rewrite Z2Nat.id by lia. change (days_before_year 1) with 0. change (1 + 9999) with 10000. lia.
Qed.

(** A valid datetime is determined by its instant. *)
Lemma to_usec_inj a b : dt_ok a = true -> dt_ok b = true -> to_usec a = to_usec b -> a = b.
Proof.
  intros Ha Hb Heq.
  destruct (Z.lt_trichotomy (month_index a) (month_index b)) as [H|[H|H]].
  - pose proof (month_index_lt a b Ha Hb H). lia.
  - apply dt_ok_spec in Ha as [Ha Ta], Hb as [Hb Tb]. unfold month_index in H.
    destruct a as [y m d tod], b as [y' m' d' tod']. cbn [dt_year dt_month dt_day dt_tod] in *.
    assert (y = y' /\ m = m') as [-> ->] by lia. unfold to_usec, toordinal in Heq.
    cbn [dt_year dt_month dt_day dt_tod] in Heq.
    assert (d = d') as -> by nia. f_equal. lia.
  - pose proof (month_index_lt b a Hb Ha H). lia.
Qed.

Example ordinal_ex : toordinal 2024 2 29 = 738945.
Proof. reflexivity. Qed.
Example fromordinal_ex : fromordinal 738945 = Some (2024, 2, 29).
Proof. vm_compute. reflexivity. Qed.
