(* ===== verification/Budget.v ===== *)
(** * Budgets: src/billing/budget.py and the alert slots of src/billing/alerts.py

    Hard and soft spending limits of keys, users, teams and organizations,
    the limits of a team per model, and the periodic reset of the spend
    counters.  A budget row is read, reset when its period is over by an
    update conditional on the reset time that was read, and then compared. *)

From Stdlib Require Import Sorting.Sorted.
From S2P Require Import Prelude PyVal Billing Calendar.

(** ** Durations *)

Definition MAX_BUDGET_DURATION_AMOUNT : Z := 10000.

(** [str.isdigit] of a code point below 256: the superscripts count. *)
Definition isdigit_ascii (a : ascii) : bool :=
  let n := nat_of_ascii a in is_digit a || ((n =? 178) || (n =? 179) || (n =? 185))%nat.
Definition isdigit (s : string) : bool :=
  negb (Str.is_empty s) && forallb isdigit_ascii (list_ascii_of_string s).

(** [s[:-2]], [s[:-1]] and [s[-1:]] *)
Definition cut_end (n : nat) (s : string) : string := Str.take (String.length s - n) s.
Definition last_char (s : string) : string := Str.drop (String.length s - 1) s.

Definition known_unit (u : string) : bool :=
  String.eqb u "h" || String.eqb u "d" || String.eqb u "mo".

Definition parse_duration (duration : pyval) : res pyexc (option (Z * string)) :=
  match duration with
  | PyStr d =>
    let '(unit, value) :=
      if Str.endswith d "mo" then ("mo", cut_end 2 d) else (last_char d, cut_end 1 d) in
    if negb (isdigit value) then Ret None else
    amount ← int_of_string value;
    if (amount <=? 0) || (MAX_BUDGET_DURATION_AMOUNT <? amount) then Ret None
    else if negb (known_unit unit) then Ret None
    else Ret (Some (amount, unit))
  | _ => Ret None
  end.

Definition duration_unit (duration : pyval) : res pyexc (option string) :=
  parsed ← parse_duration duration; Ret (option_map snd parsed).

(** ** The next reset *)

Definition is_last_day_of_month (t : datetime) : bool := dt_day t =? days_in_month (dt_year t) (dt_month t).

Definition add_months (value : datetime) (months : Z) (anchor_day : option Z) : res pyexc datetime :=
  let zero_based_month := dt_month value - 1 + months in
  let year := dt_year value + zero_based_month / 12 in
  let month := zero_based_month mod 12 + 1 in
  let last_day := days_in_month year month in
  let day := match anchor_day with
             | Some a => Z.min a last_day
             | None => if is_last_day_of_month value then last_day else Z.min (dt_day value) last_day
             end in
  replace_date value year month day.

(** The microseconds of [timedelta(hours=amount)] or [timedelta(days=amount)]. *)
Definition step_usec (amount : Z) (unit : string) : option Z :=
  if String.eqb unit "h" then Some (amount * 3600 * usec)
  else if String.eqb unit "d" then Some (amount * 86400 * usec)
  else None.

Definition next_fixed_reset_after (value : datetime) (amount : Z) (unit : string) (now : datetime)
    : res pyexc (option datetime) :=
  match step_usec amount unit with
  | None => Ret None
  | Some step =>
    let elapsed_intervals := Z.max 0 (dt_sub now value / step) in
    t ← dt_add value (step * (elapsed_intervals + 1)); Ret (Some t)
  end.

(** [while next_reset <= now]; [None] when the fuel runs out. *)
Fixpoint month_reset_loop (fuel : nat) (value : datetime) (amount elapsed_intervals : Z)
    (now : datetime) (anchor : option Z) : option (res pyexc datetime) :=
  match add_months value (amount * elapsed_intervals) anchor with
  | Raise e => Some (Raise e)
  | Ret next_reset =>
    if dt_leb next_reset now then
      match fuel with
      | O => None
      | S f => month_reset_loop f value amount (elapsed_intervals + 1) now anchor
      end
    else Some (Ret next_reset)
  end.

Definition first_month_interval (value : datetime) (amount : Z) (now : datetime) : Z :=
  let elapsed_months :=
    Z.max 0 ((dt_year now - dt_year value) * 12 + (dt_month now - dt_month value)) in
  Z.max 1 (elapsed_months / amount).

(** One turn of the loop is enough: [month_reset_loop_total]. *)
Definition next_month_reset_after (value : datetime) (amount : Z) (now : datetime)
    (anchor : option Z) : option (res pyexc datetime) :=
  month_reset_loop 1 value amount (first_month_interval value amount now) now anchor.

Definition next_reset_after (duration : pyval) (previous now : datetime) (anchor : option Z)
    : res pyexc (option datetime) :=
  parsed ← parse_duration duration;
  match parsed with
  | None => Ret None
  | Some (amount, unit) =>
    if String.eqb unit "h" || String.eqb unit "d" then
      match next_fixed_reset_after previous amount unit now with
      | Ret t => Ret t
      | Raise _ => Ret None
      end
    else if String.eqb unit "mo" then
      match next_month_reset_after previous amount now anchor with
      | Some (Ret t) => Ret (Some t)
      | Some (Raise _) | None => Ret None
      end
    else Ret None
  end.

(** ** Timestamps as the driver returns them *)

Inductive raw_datetime : Type :=
  | RawNone
  | RawNaive (t : datetime)
  | RawAware (t : datetime) (utcoffset : Z)         (* microseconds *)
  | RawStr (s : string)
  | RawOther.

(** Exactly [n] digits. *)
Fixpoint take_digits (n : nat) (acc : Z) (l : list ascii) : option (Z * list ascii) :=
  match n, l with
  | O, _ => Some (acc, l)
  | S n', a :: l' => if is_digit a then take_digits n' (acc * 10 + digit_val a) l' else None
  | S _, [] => None
  end.

Definition expect (c : ascii) (l : list ascii) : option (list ascii) :=
  match l with a :: l' => if Ascii.eqb a c then Some l' else None | [] => None end.

Definition iso_date (l : list ascii) : option (Z * Z * Z * list ascii) :=
  '(y, l) ← take_digits 4 0 l; l ← expect "-" l;
  '(m, l) ← take_digits 2 0 l; l ← expect "-" l;
  '(d, l) ← take_digits 2 0 l;
  Some (y, m, d, l).

(** The fraction of a second: the first six digits count. *)
Fixpoint iso_fraction (weight acc : Z) (l : list ascii) : Z * list ascii :=
  match l with
  | a :: l' => if is_digit a then iso_fraction (weight / 10) (acc + digit_val a * weight) l' else (acc, l)
  | [] => (acc, [])
  end.

(** [HH[:MM[:SS[.f+]]]] *)
Definition iso_time (l : list ascii) : option (Z * list ascii) :=
  '(h, l) ← take_digits 2 0 l;
  if negb (h <? 24) then None else
  match expect ":" l with
  | None => Some (h * 3600 * usec, l)
  | Some l =>
    '(mi, l) ← take_digits 2 0 l;
    if negb (mi <? 60) then None else
    match expect ":" l with
    | None => Some ((h * 60 + mi) * 60 * usec, l)
    | Some l =>
      '(s, l) ← take_digits 2 0 l;
      if negb (s <? 60) then None else
      let whole := ((h * 60 + mi) * 60 + s) * usec in
      match expect "." l with
      | None => Some (whole, l)
      | Some [] => None
      | Some ((a :: _) as l) =>
        if is_digit a then let '(f, l) := iso_fraction 100000 0 l in Some (whole + f, l) else None
      end
    end
  end.

(** [datetime.fromisoformat] of the extended calendar form. *)
Definition fromisoformat (s : string) : option raw_datetime :=
  '(y, m, d, l) ← iso_date (list_ascii_of_string s);
  if negb (date_fields_ok y m d) then None else
  match l with
  | [] => Some (RawNaive (mkDatetime y m d 0))
  | _ :: l =>
    '(tod, l) ← iso_time l;
    let t := mkDatetime y m d tod in
    match l with
    | [] => Some (RawNaive t)
    | c :: l =>
      '(off, l) ← iso_time l;
      match l with
      | [] => if Ascii.eqb c "+" then Some (RawAware t off)
              else if Ascii.eqb c "-" then Some (RawAware t (- off)) else None
      | _ => None
      end
    end
  end.

(** [value.replace("Z", "+00:00")] *)
Fixpoint replace_Z (l : list ascii) : list ascii :=
  match l with
  | [] => []
  | a :: l' => if Ascii.eqb a "Z" then list_ascii_of_string "+00:00" ++ replace_Z l' else a :: replace_Z l'
  end.

Definition astimezone_utc (r : raw_datetime) : res pyexc (option datetime) :=
  match r with
  | RawNaive t => Ret (Some t)
  | RawAware t off => u ← dt_add t (- off); Ret (Some u)
  | _ => Ret None
  end.

Definition as_datetime (v : raw_datetime) : res pyexc (option datetime) :=
  match v with
  | RawNaive _ | RawAware _ _ => astimezone_utc v
  | RawStr s =>
    match fromisoformat (string_of_list_ascii (replace_Z (list_ascii_of_string s))) with
    | Some r => astimezone_utc r
    | None => Ret None
    end
  | RawNone | RawOther => Ret None
  end.

Definition raw_truthy (v : raw_datetime) : bool :=
  match v with RawNone => false | RawStr s => negb (Str.is_empty s) | _ => true end.

(** ** Metadata *)

Definition monthly_anchor_day (metadata : pyval) : res pyexc (option Z) :=
  match metadata with
  | PyDict m =>
    match vget m "_budget_reset" with
    | PyDict settings =>
      match py_int (vget settings "monthly_anchor_day") with
      | Ret day => Ret (if (1 <=? day) && (day <=? 31) then Some day else None)
      | Raise OverflowError => Raise OverflowError
      | Raise _ => Ret None
      end
    | _ => Ret None
    end
  | _ => Ret None
  end.

Definition dict_or_empty (v : pyval) : list (string * pyval) := match v with PyDict d => d | _ => [] end.

Definition with_monthly_anchor_day (metadata : pyval) (day : Z) : pyval :=
  let next_metadata := dict_or_empty metadata in
  let settings := dict_set (dict_or_empty (vget next_metadata "_budget_reset")) "monthly_anchor_day" (PyInt day) in
  PyDict (dict_set next_metadata "_budget_reset" (PyDict settings)).

(** The [CASE] of the update; [None] is the error of [jsonb_set] on a value
    that is not an object. *)
Definition stored_metadata (metadata : pyval) (anchor : option Z) : option pyval :=
  match anchor with
  | None => Some metadata
  | Some day =>
    match metadata with
    | PyNone | PyDict _ => Some (with_monthly_anchor_day metadata day)
    | _ => None
    end
  end.

Example parse_duration_ex :
  parse_duration (PyStr "3mo") = Ret (Some (3, "mo")) /\ parse_duration (PyStr "1m") = Ret None /\
  parse_duration (PyStr "24h") = Ret (Some (24, "h")).
Proof. vm_compute. auto. Qed.
Example as_datetime_ex :
  as_datetime (RawStr "2024-02-29T23:30:00.25-01:00") = Ret (Some (mkDatetime 2024 3 1 1800250000)).
Proof. vm_compute. reflexivity. Qed.

(** ** Tables *)

Inductive budget_table : Type := KeyTable | UserTable | TeamTable | OrgTable.
#[export] Instance budget_table_eq_dec : EqDecision budget_table.
Proof. solve_decision. Defined.

Definition table_map (entity_type : string) : option budget_table :=
  if String.eqb entity_type "key" then Some KeyTable
  else if String.eqb entity_type "user" then Some UserTable
  else if String.eqb entity_type "team" then Some TeamTable
  else if String.eqb entity_type "org" then Some OrgTable
  else None.

(** The budget columns of a row; [R] is the type of [budget_reset_at]. *)
Record BudgetRow (R : Type) : Type := mkBudgetRow {
  max_budget : option pyfloat;
  soft_budget : option pyfloat;
  spend : pyfloat;
  budget_duration : option string;
  budget_reset_at : R;
  metadata : pyval
}.
Arguments mkBudgetRow {R}.
Arguments max_budget {R}.
Arguments soft_budget {R}.
Arguments spend {R}.
Arguments budget_duration {R}.
Arguments budget_reset_at {R}.
Arguments metadata {R}.

Abbreviation stored_row := (BudgetRow (option datetime)).
Abbreviation entity_row := (BudgetRow raw_datetime).

Record budget_db : Type := mkBudgetDb {
  budget_rows : budget_table -> gmap string stored_row;
  model_max_budget : gmap string pyval;                 (* team table column, by team *)
  team_model_spend : gmap (string * string) pyfloat;
  spendlog : list (string * string * pyfloat)           (* team, model, spend *)
}.

Definition set_budget_row (t : budget_table) (id : string) (r : stored_row) (db : budget_db) : budget_db :=
  mkBudgetDb (fun t' => if decide (t' = t) then <[id := r]> (budget_rows db t') else budget_rows db t')
    (model_max_budget db) (team_model_spend db) (spendlog db).

(** The conditional update: the row is reset only while it still carries the
    reset time that was read.  [None] is a statement that fails. *)
Definition reset_row (next_reset : datetime) (anchor : option Z) (r : stored_row) : option stored_row :=
  m ← stored_metadata (metadata r) anchor;
  Some (mkBudgetRow (max_budget r) (soft_budget r) Fl.zero (budget_duration r) (Some next_reset) m).

Definition reset_update (t : budget_table) (id : string) (next_reset seen : datetime) (anchor : option Z)
    (db : budget_db) : option (budget_db * Z) :=
  match budget_rows db t !! id with
  | Some r =>
    if decide (budget_reset_at r = Some seen) then
      r' ← reset_row next_reset anchor r; Some (set_budget_row t id r' db, 1)
    else Some (db, 0)
  | None => Some (db, 0)
  end.

(** ** The service *)

Inductive budget_exc : Type :=
  | BudgetExceeded (entity_type entity_id : string) (spent limit : pyfloat)
  | BudgetPyError (e : pyexc)
  | AlertError.

Definition exceeded (spent : pyfloat) (limit : pyfloat) : bool := Fl.ltb limit spent || Fl.eqb limit spent.

(** One alert that was sent. *)
Record budget_alert : Type := mkAlert {
  al_entity_type : string;
  al_entity_id : string;
  al_spend : pyfloat;
  al_soft : pyfloat;
  al_hard : option pyfloat
}.

(** How sending an alert ends when its slot is free. *)
Inductive alert_delivery : Type := Queued | NoRecipients | Undeliverable | DeliveryError.

(** The alert service: the budget of its slots, and its collaborators'
    answers.  [redis] is [None] without a client, [Some false] when a command
    raises. *)
Record alert_service : Type := mkAlertService {
  notifications_enabled : bool;
  budget_alert_ttl : Z;                                 (* seconds *)
  redis : option bool;
  delivery : string -> string -> alert_delivery
}.

Record budget_world : Type := mkWorld {
  db : budget_db;
  slots : gmap string Z;                                (* key, end of life *)
  outbox : list budget_alert
}.

Definition set_db (d : budget_db) (w : budget_world) : budget_world := mkWorld d (slots w) (outbox w).
Definition set_slots (s : gmap string Z) (w : budget_world) : budget_world := mkWorld (db w) s (outbox w).
Definition add_alert (a : budget_alert) (w : budget_world) : budget_world :=
  mkWorld (db w) (slots w) (outbox w ++ [a]).

Definition alert_key (alert_type entity_type entity_id : string) : string :=
  "alert:" +:+ alert_type +:+ ":" +:+ entity_type +:+ ":" +:+ entity_id.

(** [SET key 1 EX ttl NX] *)
Definition claim_alert_slot (s : alert_service) (now : Z) (key : string) : st budget_world budget_exc bool := fun w =>
  match redis s with
  | None => (w, Ret true)
  | Some false => (w, Raise AlertError)
  | Some true =>
    match slots w !! key with
    | Some expires =>
      if now <? expires then (w, Ret false)
      else (set_slots (<[key := now + budget_alert_ttl s * usec]> (slots w)) w, Ret true)
    | None => (set_slots (<[key := now + budget_alert_ttl s * usec]> (slots w)) w, Ret true)
    end
  end.

Definition release_alert_slot (s : alert_service) (key : string) (w : budget_world) : budget_world :=
  match redis s with None => w | Some _ => set_slots (delete key (slots w)) w end.

Definition send_budget_alert (s : alert_service) (now : Z) (a : budget_alert) : st budget_world budget_exc unit :=
  if negb (notifications_enabled s) then mret tt else
  let key := alert_key "budget" (al_entity_type a) (al_entity_id a) in
  claimed ← claim_alert_slot s now key;
  if negb (claimed : bool) then mret tt else
  match delivery s (al_entity_type a) (al_entity_id a) with
  | Queued => modify (add_alert a)
  | NoRecipients | Undeliverable | DeliveryError => modify (release_alert_slot s key)
  end.

(** What happens around one check: the clock, what other processes do between
    the read and the update, and whether the update fails ([Some true]: it was
    applied all the same). *)
Record check_env : Type := mkCheckEnv {
  now : datetime;
  interfere : budget_db -> budget_db;
  update_fault : option bool
}.

Section service.
(** How the database client returns a timestamp column. *)
Context (driver : option datetime -> raw_datetime).

Definition entity_of (entity_type : string) (r : stored_row) : entity_row :=
  mkBudgetRow (max_budget r) (if String.eqb entity_type "org" then soft_budget r else None) (spend r)
    (budget_duration r) (driver (budget_reset_at r)) (metadata r).

Definition get_entity (entity_type entity_id : string) (d : budget_db) : option entity_row :=
  t ← table_map entity_type;
  entity_of entity_type <$> budget_rows d t !! entity_id.

Definition lift {A} (r : res pyexc A) : st budget_world budget_exc A := fun w =>
  match r with Ret a => (w, Ret a) | Raise e => (w, Raise (BudgetPyError e)) end.

(** What a check that has to reset the row will write: the reset time that was
    read, the next one, and an anchor day to record. *)
Definition plan_reset (e : entity_row) (now : datetime) : res pyexc (option (datetime * datetime * option Z)) :=
  match budget_duration e with
  | None => Ret None
  | Some duration =>
    if Str.is_empty duration || negb (raw_truthy (budget_reset_at e)) then Ret None else
    reset_at ← as_datetime (budget_reset_at e);
    match reset_at with
    | None => Ret None
    | Some reset_at =>
      if dt_ltb now reset_at then Ret None else
      anchor ← monthly_anchor_day (metadata e);
      inferred ← match anchor with
                 | Some _ => Ret None
                 | None => unit ← duration_unit (PyStr duration);
                           Ret (if decide (unit = Some "mo") then Some (dt_day reset_at) else None)
                 end;
      let anchor := match anchor with Some a => Some a | None => inferred end in
      match next_reset_after (PyStr duration) reset_at now anchor with
      | Raise OverflowError | Raise ValueError => Ret None
      | Raise e => Raise e
      | Ret None => Ret None
      | Ret (Some next_reset) => Ret (Some (reset_at, next_reset, inferred))
      end
    end
  end.

(** The entity after its own reset. *)
Definition reset_entity (e : entity_row) (next_reset : datetime) (inferred : option Z) : entity_row :=
  mkBudgetRow (max_budget e) (soft_budget e) Fl.zero (budget_duration e) (RawNaive next_reset)
    (match inferred with Some day => with_monthly_anchor_day (metadata e) day | None => metadata e end).

(** The update and what the check goes on with. *)
Definition perform_reset (env : check_env) (entity_type entity_id : string) (t : budget_table) (e : entity_row)
    (seen next_reset : datetime) (inferred : option Z) : st budget_world budget_exc entity_row := fun w =>
  let d := interfere env (db w) in
  match reset_update t entity_id next_reset seen inferred d, update_fault env with
  | None, _ | Some _, Some false => (set_db d w, Ret e)
  | Some (d', _), Some true => (set_db d' w, Ret e)
  | Some (d', count), None =>
    (set_db d' w,
     Ret (if count <=? 0 then default e (get_entity entity_type entity_id d')
          else reset_entity e next_reset inferred))
  end.

Definition check_budget_reset (env : check_env) (entity_type entity_id : string) (e : entity_row)
    : st budget_world budget_exc entity_row :=
  plan ← lift (plan_reset e (now env));
  match plan, table_map entity_type with
  | Some (seen, next_reset, inferred), Some t => perform_reset env entity_type entity_id t e seen next_reset inferred
  | _, _ => mret e
  end.

Definition alert_soft_budget (alerts : option alert_service) (env : check_env) (entity_type id : string)
    (e : entity_row) : st budget_world budget_exc unit :=
  match soft_budget e, alerts with
  | Some soft, Some s =>
    if exceeded (spend e) soft
    then send_budget_alert s (to_usec (now env)) (mkAlert entity_type id (spend e) soft (max_budget e))
    else mret tt
  | _, _ => mret tt
  end.

Definition compare_budget (alerts : option alert_service) (env : check_env) (entity_type id : string)
    (e : entity_row) : st budget_world budget_exc unit :=
  match max_budget e with
  | Some limit => if exceeded (spend e) limit then raise (BudgetExceeded entity_type id (spend e) limit) else mret tt
  | None => mret tt
  end ≫= fun _ => alert_soft_budget alerts env entity_type id e.

Definition check_entity_budget (alerts : option alert_service) (env : check_env) (entity_type : string)
    (entity_id : option string) : st budget_world budget_exc unit :=
  match entity_id with
  | None => mret tt
  | Some id =>
    if Str.is_empty id then mret tt else
    w ← get_st;
    match get_entity entity_type id (db w) with
    | None => mret tt
    | Some e =>
      e ← check_budget_reset env entity_type id e;
      compare_budget alerts env entity_type id e
    end
  end.

(** [SUM(spend)] of the events of a team and model. *)
Definition logged_spend (team model : string) (d : budget_db) : pyfloat :=
  foldl (fun acc ev => let '(t, m, x) := ev in
           if String.eqb t team && String.eqb m model then Fl.add acc x else acc) Fl.zero (spendlog d).

Definition model_spend (team model : string) (d : budget_db) : pyfloat :=
  match team_model_spend d !! (team, model) with
  | Some x => x
  | None => logged_spend team model d
  end.

Definition to_float_or_none (v : pyval) : option pyfloat :=
  match v with
  | PyNone => None
  | _ => match py_float v with Ret f => Some f | Raise _ => None end
  end.

(** The limit of the team for the model, when it sets one. *)
Definition model_limit (team model : string) (d : budget_db) : option pyfloat :=
  match model_max_budget d !! team with
  | Some (PyDict budgets) => to_float_or_none (vget budgets model)
  | _ => None
  end.

Definition check_team_model_budget (team model : string) : st budget_world budget_exc unit :=
  w ← get_st;
  match model_limit team model (db w) with
  | None => mret tt
  | Some limit =>
    let current_spend := model_spend team model (db w) in
    if exceeded current_spend limit
    then raise (BudgetExceeded "team_model" (team +:+ "/" +:+ model) current_spend limit) else mret tt
  end.

Definition nonempty (s : option string) : option string :=
  match s with Some x => if Str.is_empty x then None else Some x | None => None end.

Definition check_budgets (alerts : option alert_service) (env : string -> check_env)
    (api_key user_id team_id organization_id model : option string) : st budget_world budget_exc unit :=
  check_entity_budget alerts (env "key") "key" api_key ≫= fun _ =>
  check_entity_budget alerts (env "user") "user" user_id ≫= fun _ =>
  check_entity_budget alerts (env "team") "team" team_id ≫= fun _ =>
  check_entity_budget alerts (env "org") "org" organization_id ≫= fun _ =>
  match nonempty team_id, nonempty model with
  | Some team, Some m => check_team_model_budget team m
  | _, _ => mret tt
  end.
End service.

(** ** The reset schedule *)

(** The [k]-th reset after [prev]. *)
Definition schedule (amount : Z) (unit : string) (anchor : option Z) (prev : datetime) (k : Z)
    : res pyexc datetime :=
  if String.eqb unit "mo" then add_months prev (amount * k) anchor
  else match step_usec amount unit with
       | Some step => dt_add prev (step * k)
       | None => Raise ValueError
       end.

Definition anchor_ok (anchor : option Z) : Prop := forall a, anchor = Some a -> 1 <= a <= 31.

(** The first point of a schedule after [now]: every earlier one is due. *)
Definition first_after (sched : Z -> res pyexc datetime) (now : datetime) (k : Z) : Prop :=
  1 <= k /\ forall j, 1 <= j < k -> exists u, sched j = Ret u /\ to_usec u <= to_usec now.

Section months.
Implicit Types (v t : datetime) (a : option Z).

Definition month_day v a (last_day : Z) : Z :=
  match a with
  | Some d => Z.min d last_day
  | None => if is_last_day_of_month v then last_day else Z.min (dt_day v) last_day
  end.

(** The date in the month with index [i] that stands for [v]. *)
Definition month_point v a (i : Z) : datetime :=
  mkDatetime (i / 12) (i mod 12 + 1) (month_day v a (days_in_month (i / 12) (i mod 12 + 1))) (dt_tod v).

Lemma month_day_range v a l : dt_ok v = true -> anchor_ok a -> 28 <= l <= 31 -> 1 <= month_day v a l <= l.
Proof.
  intros (Hv & _)%dt_ok_spec Ha Hl. unfold month_day. destruct a as [d|]; [specialize (Ha d eq_refl); lia|].
  case_match; lia.
Qed.

Lemma add_months_eq v n a : dt_ok v = true -> anchor_ok a ->
  add_months v n a =
  let i := month_index v + n in
  if (12 <=? i) && (i <? 120000) then Ret (month_point v a i) else Raise ValueError.
Proof.
  intros Hv Ha. unfold add_months, replace_date, month_point, month_index.
  set (i := dt_year v * 12 + (dt_month v - 1) + n). cbv zeta.
  replace (dt_year v + (dt_month v - 1 + n) / 12) with (i / 12)
    by (unfold i; Z.div_mod_to_equations; lia).
  replace ((dt_month v - 1 + n) mod 12) with (i mod 12) by (unfold i; Z.div_mod_to_equations; lia).
  change (match a with Some d => _ | None => _ end)
    with (month_day v a (days_in_month (i / 12) (i mod 12 + 1))).
  pose proof (month_day_range v a _ Hv Ha (days_in_month_range (i / 12) (i mod 12 + 1))) as Hd.
  destruct (date_fields_ok _ _ _) eqn:E.
  - apply date_fields_ok_spec in E. rewrite (proj2 (andb_true_iff _ _)); [done|].
    rewrite Z.leb_le, Z.ltb_lt. Z.div_mod_to_equations. lia.
  - destruct ((12 <=? i) && (i <? 120000)) eqn:E'; [|done].
    apply andb_true_iff in E' as [E1%Z.leb_le E2%Z.ltb_lt].
    rewrite (proj2 (date_fields_ok_spec _ _ _)) in E; [done|]. Z.div_mod_to_equations. lia.
Qed.

Lemma month_point_ok v a i : dt_ok v = true -> anchor_ok a -> 12 <= i < 120000 ->
  dt_ok (month_point v a i) = true /\ month_index (month_point v a i) = i.
Proof.
  intros Hv Ha Hi. pose proof (month_day_range v a _ Hv Ha (days_in_month_range (i / 12) (i mod 12 + 1))).
  apply dt_ok_spec in Hv as [_ Ht]. rewrite dt_ok_spec. unfold month_point, month_index.
  cbn [dt_year dt_month dt_day dt_tod]. split; [split; [|done]|]; Z.div_mod_to_equations; lia.
Qed.

Lemma add_months_inv v n a t : dt_ok v = true -> anchor_ok a -> add_months v n a = Ret t ->
  dt_ok t = true /\ month_index t = month_index v + n /\ t = month_point v a (month_index v + n).
Proof.
  intros Hv Ha. rewrite add_months_eq by done. cbv zeta. destruct (_ && _) eqn:E; [|done]. intros [= <-].
  apply andb_true_iff in E as [E1%Z.leb_le E2%Z.ltb_lt].
  destruct (month_point_ok v a _ Hv Ha (conj E1 E2)). done.
Qed.

Lemma month_index_range t : dt_ok t = true -> 12 <= month_index t < 120000.
Proof. intros (Ht & _)%dt_ok_spec. unfold month_index. lia. Qed.

(** A month no later than that of a valid date can be named. *)
Lemma add_months_total v n a t : dt_ok v = true -> anchor_ok a -> dt_ok t = true ->
  0 <= n -> month_index v + n <= month_index t -> exists u, add_months v n a = Ret u.
Proof.
  intros Hv Ha Ht Hn Hle. rewrite add_months_eq by done. cbv zeta.
  pose proof (month_index_range v Hv). pose proof (month_index_range t Ht).
  rewrite (proj2 (andb_true_iff _ _)); [eauto|]. rewrite Z.leb_le, Z.ltb_lt. lia.
Qed.

(** With an anchor day, steps add up: no drift through short months. *)
Lemma add_months_add v m n d t : dt_ok v = true -> anchor_ok (Some d) ->
  add_months v m (Some d) = Ret t -> add_months t n (Some d) = add_months v (m + n) (Some d).
Proof.
  intros Hv Ha Ht. destruct (add_months_inv v m (Some d) t Hv Ha Ht) as (Hok & Hi & Heq).
  rewrite !add_months_eq by done. cbv zeta. rewrite Hi, Z.add_assoc.
  destruct (_ && _); [|done]. rewrite Heq. done.
Qed.

(** The first interval tried is at most one short, and all before it are due. *)
Lemma first_month_interval_spec v amount now : 0 < amount ->
  let k := first_month_interval v amount now in
  1 <= k /\ (forall j, 1 <= j < k -> month_index v + amount * j < month_index now) /\
  month_index now < month_index v + amount * (k + 1).
Proof.
  intros Ham k. unfold k, first_month_interval, month_index.
  set (e := dt_year now * 12 + (dt_month now - 1) - (dt_year v * 12 + (dt_month v - 1))).
  replace ((dt_year now - dt_year v) * 12 + (dt_month now - dt_month v)) with e by (unfold e; lia).
  pose proof (Z.div_mod (Z.max 0 e) amount ltac:(lia)) as Hdm.
  pose proof (Z.mod_pos_bound (Z.max 0 e) amount Ham) as Hmod.
  set (q := Z.max 0 e / amount) in *. split_and!; [lia| |].
  - intros j Hj. assert (j + 1 <= q) by lia. assert (amount * (j + 1) <= amount * q) by nia. lia.
  - assert (amount * q <= amount * Z.max 1 q) by nia. lia.
Qed.

(** The loop takes at most one turn, and ends on the first point after [now]
    or where the calendar ends. *)
Lemma month_reset_loop_total v amount now a : dt_ok v = true -> dt_ok now = true -> anchor_ok a ->
  0 < amount -> to_usec v <= to_usec now ->
  exists r k, next_month_reset_after v amount now a = Some r /\
    first_after (fun k => add_months v (amount * k) a) now k /\ add_months v (amount * k) a = r /\
    (forall t, r = Ret t -> dt_ok t = true /\ to_usec now < to_usec t).
Proof.
  intros Hv Hn Ha Ham Hle. unfold next_month_reset_after.
  destruct (first_month_interval_spec v amount now Ham) as (Hk1 & Hdue & Hnext).
  set (k := first_month_interval v amount now) in *.
  assert (Hf : first_after (fun k => add_months v (amount * k) a) now k).
  { split; [done|]. intros j Hj. specialize (Hdue j Hj).
    destruct (add_months_total v (amount * j) a now) as [u Hu]; [done..|nia|lia|].
    exists u. split; [done|]. destruct (add_months_inv _ _ _ _ Hv Ha Hu) as (Hok & Hi & _).
    apply Z.lt_le_incl, month_index_lt; [done|done|lia]. }
  cbn [month_reset_loop]. destruct (add_months v (amount * k) a) as [t|e] eqn:E.
  2: { exists (Raise e), k. split_and!; [done|done|done|discriminate]. }
  destruct (add_months_inv _ _ _ _ Hv Ha E) as (Hok & Hi & _).
  destruct (dt_leb t now) eqn:Hdl.
  2: { exists (Ret t), k. split_and!; [done|done|done|]. intros t' [= <-]. split; [done|].
       unfold dt_leb in Hdl. apply Z.leb_gt in Hdl. lia. }
  assert (Hf' : first_after (fun k => add_months v (amount * k) a) now (k + 1)).
  { split; [lia|]. intros j Hj. destruct (decide (j = k)) as [->|Hne]; [|apply Hf; lia].
    exists t. split; [done|]. unfold dt_leb in Hdl. apply Z.leb_le in Hdl. lia. }
  destruct (add_months v (amount * (k + 1)) a) as [t'|e] eqn:E'.
  2: { exists (Raise e), (k + 1). split_and!; [done|done|done|discriminate]. }
  destruct (add_months_inv _ _ _ _ Hv Ha E') as (Hok' & Hi' & _).
  assert (Hlt : to_usec now < to_usec t') by (apply month_index_lt; [done|done|lia]).
  exists (Ret t'), (k + 1). split_and!; [|done|done|by intros ? [= <-]].
  unfold dt_leb. by rewrite (proj2 (Z.leb_gt _ _) Hlt).
Qed.
End months.

Section fixed.
Lemma dt_add_spec t delta u : dt_add t delta = Ret u -> dt_ok u = true /\ to_usec u = to_usec t + delta.
Proof. apply of_usec_spec. Qed.

Lemma to_usec_range t : dt_ok t = true -> day_usec <= to_usec t < (days_before_year 10000 + 1) * day_usec.
Proof.
  intros (Ht & Htod)%dt_ok_spec. unfold to_usec, toordinal.
  pose proof (days_before_month_end (dt_year t) (dt_month t) ltac:(lia)) as Hm.
  assert (0 <= days_before_year (dt_year t) /\
          days_before_year (dt_year t) + days_in_year (dt_year t) <= days_before_year 10000) as Hy.
  { rewrite <- days_before_year_succ. unfold days_before_year.
    split; Z.div_mod_to_equations; lia. }
  assert (Hday : 0 < day_usec) by done. nia.
Qed.

(** An instant between two valid ones has fields. *)
Lemma dt_add_between t delta now : dt_ok t = true -> dt_ok now = true ->
  0 <= delta -> to_usec t + delta <= to_usec now -> exists u, dt_add t delta = Ret u.
Proof.
  intros Ht Hn Hd Hle. apply of_usec_total.
  pose proof (to_usec_range t Ht). pose proof (to_usec_range now Hn). lia.
Qed.

Lemma step_usec_pos amount unit step : 0 < amount -> step_usec amount unit = Some step -> 0 < step.
Proof.
  assert (0 < usec) by done. unfold step_usec. intros Ha. repeat case_match; intros [= <-]; nia.
Qed.

Lemma next_fixed_spec v amount unit now step : dt_ok v = true -> dt_ok now = true ->
  0 < amount -> step_usec amount unit = Some step -> to_usec v <= to_usec now ->
  exists r k, next_fixed_reset_after v amount unit now = (t ← r; Ret (Some t)) /\
    first_after (fun k => dt_add v (step * k)) now k /\ dt_add v (step * k) = r /\
    (forall t, r = Ret t -> dt_ok t = true /\ to_usec now < to_usec t).
Proof.
  intros Hv Hn Ha Hs Hle. pose proof (step_usec_pos _ _ _ Ha Hs) as Hpos.
  unfold next_fixed_reset_after. rewrite Hs. unfold dt_sub.
  set (d := to_usec now - to_usec v). set (q := d / step).
  assert (Hq : 0 <= q) by (apply Z.div_pos; unfold d; lia). rewrite Z.max_r by done.
  pose proof (Z.div_mod d step ltac:(lia)) as Hdm. pose proof (Z.mod_pos_bound d step Hpos) as Hmod.
  fold q in Hdm.
  exists (dt_add v (step * (q + 1))), (q + 1). split_and!; [done| |done|].
  - split; [lia|]. intros j Hj. assert (step * j <= step * q) by nia.
    assert (0 <= step * j) by nia.
    destruct (dt_add_between v (step * j) now) as [u Hu]; [done|done|done|unfold d in *; lia|].
    exists u. split; [done|]. apply dt_add_spec in Hu as [_ ->]. unfold d in *. lia.
  - intros t Ht. apply dt_add_spec in Ht as [Hok Heq]. split; [done|]. unfold d in *. lia.
Qed.

Lemma dt_add_add v m n t : dt_ok v = true -> dt_add v m = Ret t -> dt_add t n = dt_add v (m + n).
Proof. intros Hv Ht. apply dt_add_spec in Ht as [_ Heq]. unfold dt_add. by rewrite Heq, Z.add_assoc. Qed.
End fixed.

Lemma parse_duration_spec d amount unit : parse_duration d = Ret (Some (amount, unit)) ->
  0 < amount <= MAX_BUDGET_DURATION_AMOUNT /\ (unit = "mo" \/ exists step, unit <> "mo" /\
    (String.eqb unit "h" || String.eqb unit "d") = true /\ step_usec amount unit = Some step).
Proof.
  destruct d as [| | | |s| |]; try done. unfold parse_duration.
  destruct (if Str.endswith s "mo" then _ else _) as [u v].
  destruct (negb (isdigit v)); [done|].
  destruct (int_of_string v) as [n|e]; cbn [mbind res_bind]; [|done].
  destruct (_ || _) eqn:E; [done|]. apply orb_false_iff in E as [E1%Z.leb_gt E2%Z.ltb_ge].
  destruct (known_unit u) eqn:Hu; [|done]. intros [= <- <-]. split; [lia|].
  unfold known_unit, step_usec in *. destruct (String.eqb_spec u "mo") as [->|Hne]; [by left|right].
  destruct (String.eqb u "h"); [eauto|]. destruct (String.eqb u "d"); [eauto|done].
Qed.

(** Both kinds of period at once. *)
Lemma next_reset_first_after d amount unit prev now a :
  parse_duration d = Ret (Some (amount, unit)) -> dt_ok prev = true -> dt_ok now = true -> anchor_ok a ->
  to_usec prev <= to_usec now ->
  exists r k, first_after (schedule amount unit a prev) now k /\ schedule amount unit a prev k = r /\
    next_reset_after d prev now a = Ret (match r with Ret t => Some t | Raise _ => None end) /\
    (forall t, r = Ret t -> dt_ok t = true /\ to_usec now < to_usec t).
Proof.
  intros Hd Hp Hn Ha Hle. destruct (parse_duration_spec _ _ _ Hd) as [Ham Hu].
  unfold next_reset_after. rewrite Hd. cbn [mbind res_bind]. destruct Hu as [->|(step & Hne & Hor & Hs)].
  - destruct (month_reset_loop_total prev amount now a) as (r & k & Hnext & Hf & Hk & Ht); [done..|lia|done|].
    exists r, k. unfold schedule. split_and!; [done|done| |done].
    change (String.eqb "mo" "h" || String.eqb "mo" "d") with false. change (String.eqb "mo" "mo") with true.
    cbv iota. rewrite Hnext. by destruct r.
  - destruct (next_fixed_spec prev amount unit now step) as (r & k & Hnext & Hf & Hk & Ht); [done..|lia|done|done|].
    assert (Hsch : forall k, schedule amount unit a prev k = dt_add prev (step * k)).
    { intros k'. unfold schedule. rewrite (proj2 (String.eqb_neq _ _) Hne), Hs. done. }
    exists r, k. split_and!; [|by rewrite Hsch| |done].
    + destruct Hf as [Hk1 Hf]. split; [done|]. intros j Hj. rewrite Hsch. by apply Hf.
    + rewrite Hor, Hnext. by destruct r.
Qed.

(** The next reset of a budget is the first point of its schedule after the
    present: it lies after [now], it is a whole number of periods after the
    previous reset, and every earlier point of the schedule is already due.
    The search always ends, and it gives up exactly when that point lies
    beyond the year 9999. *)
Theorem next_reset_is_first_due d amount unit prev now a :
  parse_duration d = Ret (Some (amount, unit)) -> dt_ok prev = true -> dt_ok now = true -> anchor_ok a ->
  to_usec prev <= to_usec now ->
  exists k, first_after (schedule amount unit a prev) now k /\
    match next_reset_after d prev now a with
    | Ret (Some t) => schedule amount unit a prev k = Ret t /\ dt_ok t = true /\ to_usec now < to_usec t
    | Ret None => is_ret (schedule amount unit a prev k) = false
    | Raise _ => False
    end.
Proof.
  intros Hd Hp Hn Ha Hle.
  destruct (next_reset_first_after d amount unit prev now a) as (r & k & Hf & Hk & -> & Ht); [done..|].
  exists k. split; [done|]. rewrite Hk. destruct r as [t|e]; [|done]. destruct (Ht t eq_refl). done.
Qed.

Definition dt (y m d : Z) : datetime := mkDatetime y m d 0.

Lemma next_reset_is_first_due_witness :
  exists k, first_after (schedule 1 "mo" (Some 31) (dt 2024 1 31)) (dt 2024 4 30) k /\
    match next_reset_after (PyStr "1mo") (dt 2024 1 31) (dt 2024 4 30) (Some 31) with
    | Ret (Some t) => schedule 1 "mo" (Some 31) (dt 2024 1 31) k = Ret t /\ dt_ok t = true /\
                      to_usec (dt 2024 4 30) < to_usec t
    | Ret None => is_ret (schedule 1 "mo" (Some 31) (dt 2024 1 31) k) = false
    | Raise _ => False
    end.
Proof.
  apply (next_reset_is_first_due (PyStr "1mo")); [vm_compute; reflexivity..| |vm_compute; discriminate].
  intros a [= <-]. lia.
Defined.

Example next_reset_ex :
  next_reset_after (PyStr "1mo") (dt 2024 1 31) (dt 2024 4 30) (Some 31) = Ret (Some (dt 2024 5 31)) /\
  next_reset_after (PyStr "7d") (dt 2024 1 31) (dt 2024 4 30) None = Ret (Some (dt 2024 5 1)).
Proof. vm_compute. auto. Qed.

(** A schedule has one first point after an instant. *)
Lemma first_after_unique sched now k k' :
  first_after sched now k -> first_after sched now k' ->
  (forall t, sched k = Ret t -> to_usec now < to_usec t) ->
  (forall t, sched k' = Ret t -> to_usec now < to_usec t) -> k = k'.
Proof.
  intros (Hk1 & Hf) (Hk1' & Hf') Hlt Hlt'.
  destruct (Z.lt_trichotomy k k') as [H|[H|H]]; [|done|].
  - destruct (Hf' k) as (u & Hu & Hule); [lia|]. specialize (Hlt u Hu). lia.
  - destruct (Hf k') as (u & Hu & Hule); [lia|]. specialize (Hlt' u Hu). lia.
Qed.

(** The schedule restarted at one of its points is the same schedule. *)
Lemma schedule_restart d amount unit a prev k t j :
  parse_duration d = Ret (Some (amount, unit)) -> dt_ok prev = true -> anchor_ok a ->
  (unit = "mo" -> is_Some a) -> schedule amount unit a prev k = Ret t ->
  schedule amount unit a t j = schedule amount unit a prev (k + j).
Proof.
  intros Hd Hp Ha Hmo. destruct (parse_duration_spec _ _ _ Hd) as [Ham [->|(step & Hne & _ & Hs)]]; unfold schedule.
  - destruct (Hmo eq_refl) as [day ->]. simpl. intros Ht.
    rewrite (add_months_add prev (amount * k)) by done. f_equal. lia.
  - rewrite (proj2 (String.eqb_neq _ _) Hne), Hs. intros Ht.
    rewrite (dt_add_add prev (step * k)) by done. f_equal. lia.
Qed.

(** The reset times of a budget do not depend on when requests happen to
    check it.  Going from [prev] over a reset found at [now1] to the one due at
    [now2] gives the reset that a single check at [now2] finds: monthly
    periods with their anchor day do not drift through short months. *)
Theorem reset_times_path_independent d amount unit prev now1 now2 a t1 t2 :
  parse_duration d = Ret (Some (amount, unit)) -> dt_ok prev = true -> dt_ok now1 = true -> dt_ok now2 = true ->
  anchor_ok a -> (unit = "mo" -> is_Some a) ->
  to_usec prev <= to_usec now1 ->
  next_reset_after d prev now1 a = Ret (Some t1) -> to_usec t1 <= to_usec now2 ->
  next_reset_after d t1 now2 a = Ret (Some t2) ->
  next_reset_after d prev now2 a = Ret (Some t2).
Proof.
  intros Hd Hp Hn1 Hn2 Ha Hmo Hle1 H1 Hle2 H2.
  destruct (next_reset_first_after d amount unit prev now1 a) as (r1 & k1 & Hf1 & Hk1 & He1 & Ht1); [done..|].
  rewrite H1 in He1. destruct r1 as [t|]; [|done]. injection He1 as <-.
  destruct (Ht1 _ eq_refl) as [Hok1 Hlt1].
  destruct (next_reset_first_after d amount unit t1 now2 a) as (r2 & k2 & Hf2 & Hk2 & He2 & Ht2); [done..|].
  rewrite H2 in He2. destruct r2 as [t|]; [|done]. injection He2 as <-.
  destruct (Ht2 _ eq_refl) as [Hok2 Hlt2].
  destruct (next_reset_first_after d amount unit prev now2 a) as (r & k & Hf & Hk & -> & Ht); [done..|lia|].
  pose proof (schedule_restart d amount unit a prev k1 t1) as Hre.
  assert (Hf' : first_after (schedule amount unit a prev) now2 (k1 + k2)).
  { destruct Hf1 as [? Hf1], Hf2 as [? Hf2]. split; [lia|]. intros j Hj.
    destruct (Z.lt_trichotomy j k1) as [Hj'|[->|Hj']].
    - destruct (Hf1 j) as (u & Hu & Hule); [lia|]. exists u. split; [done|]. lia.
    - exists t1. done.
    - destruct (Hf2 (j - k1)) as (u & Hu & Hule); [lia|]. exists u. split; [|done].
      rewrite Hre in Hu by done. replace (k1 + (j - k1)) with j in Hu by lia. done. }
  rewrite Hre in Hk2 by done.
  rewrite (first_after_unique (schedule amount unit a prev) now2 k (k1 + k2)) in Hk; [by rewrite <- Hk, Hk2|done|done| |].
  - rewrite Hk. intros t Hr. by apply Ht.
  - rewrite Hk2. by intros t [= <-].
Qed.

Lemma reset_times_path_independent_witness :
  next_reset_after (PyStr "1mo") (dt 2024 1 30) (dt 2024 4 1) (Some 30) = Ret (Some (dt 2024 4 30)).
Proof.
  apply (reset_times_path_independent (PyStr "1mo") 1 "mo" (dt 2024 1 30) (dt 2024 2 3) (dt 2024 4 1) (Some 30)
    (dt 2024 2 29)); try (vm_compute; reflexivity); try (vm_compute; discriminate).
  - intros a [= <-]. lia.
  - intros _. by exists 30.
Defined.

(** ** The decision of a check *)

Definition row_over {R} (r : BudgetRow R) : bool :=
  match max_budget r with Some limit => exceeded (spend r) limit | None => false end.

(** [spent] is at or above [limit]; nothing reaches NaN, and NaN reaches nothing. *)
Definition reaches (spent limit : pyfloat) : Prop :=
  match spent, limit with
  | FNaN, _ | _, FNaN => False
  | FInf false, _ | _, FInf true => True
  | FFin a, FFin b => (b <= a)%Q
  | _, _ => False
  end.

Lemma exceeded_spec spent limit : exceeded spent limit = true <-> reaches spent limit.
Proof.
  unfold exceeded, reaches. destruct spent as [a|[]|], limit as [b|[]|]; cbn; try (split; done).
  rewrite orb_true_iff. rewrite Qeq_bool_iff. unfold Qlt_bool. rewrite negb_true_iff, <- not_true_iff_false, Qle_bool_iff.
  split; [intros [H|H]; lra|]. intros H. destruct (Qlt_le_dec b a); [left|right]; lra.
Qed.

(** A scope that names an existing row over its hard limit. *)
Definition scope_over (t : budget_table) (id : option string) (d : budget_db) : Prop :=
  exists i r limit, nonempty id = Some i /\ budget_rows d t !! i = Some r /\ max_budget r = Some limit /\
    reaches (spend r) limit.

Lemma row_over_spec {R} (r : BudgetRow R) : row_over r = true <-> exists limit, max_budget r = Some limit /\ reaches (spend r) limit.
Proof. unfold row_over. destruct (max_budget r) as [l|]; [rewrite exceeded_spec|]; naive_solver. Qed.

(** Nothing but one table changed. *)
Definition only_table (t : budget_table) (d d' : budget_db) : Prop :=
  (forall t', t' <> t -> budget_rows d' t' = budget_rows d t') /\
  model_max_budget d' = model_max_budget d /\ team_model_spend d' = team_model_spend d /\ spendlog d' = spendlog d.

Lemma only_table_refl t d : only_table t d d.
Proof. done. Qed.
#[export] Hint Resolve only_table_refl : py.

Lemma scope_over_only t t' id d d' : only_table t d d' -> t' <> t -> scope_over t' id d' <-> scope_over t' id d.
Proof. intros (H & _) Hne. unfold scope_over. by rewrite (H t' Hne). Qed.

Lemma model_spend_only t team m d d' : only_table t d d' ->
  model_limit team m d' = model_limit team m d /\ model_spend team m d' = model_spend team m d.
Proof. intros (_ & H1 & H2 & H3). unfold model_limit, model_spend, logged_spend. by rewrite H1, H2, H3. Qed.

(** The client returns a timestamp column as something that reads back. *)
Definition driver_ok (driver : option datetime -> raw_datetime) : Prop :=
  forall o, as_datetime (driver o) = Ret o.

(** Nothing else is committed meanwhile; an update that fails was not applied. *)
Definition quiet (env : check_env) : Prop := (forall d, interfere env d = d) /\ update_fault env <> Some true.

(** Reading the row of a due reset fails. *)
Definition plan_fails driver entity_type (t : budget_table) id (env : check_env) d (e : pyexc) : Prop :=
  exists i r, nonempty id = Some i /\ budget_rows d t !! i = Some r /\
    plan_reset (entity_of driver entity_type r) (now env) = Raise e.

Section decision.
Context (driver : option datetime -> raw_datetime) (alerts : option alert_service).
Context (Hdriver : driver_ok driver).

(** The alert service is there and its Redis raises. *)
Definition alerts_down : Prop := exists s, alerts = Some s /\ redis s = Some false.

(** An alert changes no table, and raises only without its Redis. *)
Lemma send_budget_alert_quiet s t a w : alerts = Some s ->
  db (fst (send_budget_alert s t a w)) = db w /\
  (snd (send_budget_alert s t a w) = Ret tt \/ snd (send_budget_alert s t a w) = Raise AlertError /\ alerts_down).
Proof.
  intros Hs. unfold send_budget_alert, alerts_down.
  destruct (negb _); [by auto|]. unfold mbind, st_bind, claim_alert_slot.
  destruct (redis s) as [[]|] eqn:Er; [|simpl; eauto 6|].
  - destruct (slots w !! _) as [x|]; [destruct (t <? x)|]; simpl; try (by auto);
      destruct (delivery _ _ _); simpl; unfold release_alert_slot; rewrite ?Er; by auto.
  - simpl. destruct (delivery _ _ _); simpl; unfold release_alert_slot; rewrite ?Er; by auto.
Qed.

Lemma plan_reset_seen et r n seen nr inf :
  plan_reset (entity_of driver et r) n = Ret (Some (seen, nr, inf)) -> budget_reset_at r = Some seen.
Proof.
  unfold plan_reset. cbn [budget_duration budget_reset_at entity_of].
  destruct (budget_duration r); [|done]. destruct (_ || _); [done|]. rewrite Hdriver. cbn [mbind res_bind].
  destruct (budget_reset_at r) as [ra|]; [|done]. destruct (dt_ltb _ _); [done|].
  intros (a & _ & (i & _ & H)%res_bind_ret)%res_bind_ret. repeat (case_match; try done); by simplify_eq.
Qed.

Lemma set_budget_row_lookup t i r d : budget_rows (set_budget_row t i r d) t !! i = Some r.
Proof. simpl. rewrite decide_True by done. apply lookup_insert_eq. Qed.

Lemma only_table_set t i r d : only_table t d (set_budget_row t i r d).
Proof. split; [|done]. intros t' Hne. simpl. by rewrite decide_False by done. Qed.
#[local] Hint Resolve only_table_set : py.

(** The reset step: what the check goes on with is what the table holds. *)
Lemma check_budget_reset_quiet et t env i r w :
  table_map et = Some t -> quiet env -> budget_rows (db w) t !! i = Some r ->
  let '(w', res) := check_budget_reset driver env et i (entity_of driver et r) w in
  only_table t (db w) (db w') /\
  match res with
  | Ret e => exists r', budget_rows (db w') t !! i = Some r' /\ max_budget e = max_budget r' /\ spend e = spend r' /\
                       soft_budget e = if String.eqb et "org" then soft_budget r' else None
  | Raise (BudgetPyError e) => plan_reset (entity_of driver et r) (now env) = Raise e
  | Raise _ => False
  end.
Proof.
  intros Ht (Hq & Hf) Hr. unfold check_budget_reset, mbind, st_bind, lift.
  destruct (plan_reset _ _) as [[[[seen nr] inf]|]|e] eqn:E; [|by split; [|exists r]|by split].
  rewrite Ht. unfold perform_reset. cbv zeta. rewrite Hq. unfold reset_update.
  rewrite Hr.
  rewrite decide_True by (by eapply plan_reset_seen). unfold reset_row.
  destruct (stored_metadata _ _) as [m|]; simpl; [|by split; [|exists r]].
  destruct (update_fault env) as [[]|]; [by destruct Hf|by split; [|exists r]|].
  split; [apply only_table_set|]. eexists. cbn [db set_db]. rewrite set_budget_row_lookup. done.
Qed.

Lemma alert_soft_budget_quiet et i env (e : entity_row) w :
  let '(w', res) := alert_soft_budget alerts env et i e w in
  db w' = db w /\
  (res = Ret tt \/ res = Raise AlertError /\ alerts_down /\
     exists soft, soft_budget e = Some soft /\ reaches (spend e) soft).
Proof.
  pose proof send_budget_alert_quiet as Hsend. unfold alert_soft_budget.
  destruct (soft_budget e) as [soft|]; [|split; [done|by left]]. destruct alerts as [s|]; [|split; [done|by left]].
  destruct (exceeded _ _) eqn:Ex; [|split; [done|by left]]. apply exceeded_spec in Ex.
  match goal with |- context [send_budget_alert ?s ?t ?a ?w] => specialize (Hsend s t a w eq_refl); destruct (send_budget_alert s t a w) end.
  destruct Hsend as [Hd [Hs|[Hs Ha]]]; cbn [fst snd] in *; split; eauto 8.
Qed.

(** What the rest of the check does with the entity. *)
Lemma compare_budget_quiet et i env (e : entity_row) w :
  let '(w', res) := compare_budget alerts env et i e w in
  db w' = db w /\
  match res with
  | Ret _ => row_over e = false
  | Raise AlertError => alerts_down /\ exists soft, soft_budget e = Some soft /\ reaches (spend e) soft
  | Raise x => exists limit, x = BudgetExceeded et i (spend e) limit /\ max_budget e = Some limit /\ exceeded (spend e) limit = true
  end.
Proof.
  pose proof (alert_soft_budget_quiet et i env e w) as Ha.
  unfold row_over, compare_budget. unfold mbind, st_bind.
  destruct (max_budget e) as [limit|]; [destruct (exceeded (spend e) limit) eqn:Ex; [simpl; by eauto 10|]|].
  all: simpl; destruct (alert_soft_budget _ _ _ _ _ _) as [w' r]; destruct Ha as [Hd [->|[-> Ha]]]; done.
Qed.

(** The organization of the row has spent its soft budget, and the alert about
    it cannot be claimed. *)
Definition soft_reached (et : string) (t : budget_table) (id : option string) (d : budget_db) : Prop :=
  alerts_down /\ et = "org" /\ exists i r soft, nonempty id = Some i /\ budget_rows d t !! i = Some r /\
    soft_budget r = Some soft /\ reaches (spend r) soft.

Lemma check_entity_budget_quiet et t env id w :
  table_map et = Some t -> quiet env ->
  let '(w', res) := check_entity_budget driver alerts env et id w in
  only_table t (db w) (db w') /\
  match res with
  | Ret _ => ~ scope_over t id (db w')
  | Raise (BudgetExceeded ty i sp limit) =>
      ty = et /\ nonempty id = Some i /\ exceeded sp limit = true /\
      exists r, budget_rows (db w') t !! i = Some r /\ max_budget r = Some limit /\ spend r = sp
  | Raise (BudgetPyError e) => plan_fails driver et t id env (db w) e
  | Raise AlertError => soft_reached et t id (db w')
  end.
Proof.
  intros Ht Hq. unfold check_entity_budget, scope_over, mret, st_ret. destruct id as [i|]; [simpl|by simpl; split; [|intros (? & ? & ? & [=] & _)]].
  destruct (Str.is_empty i) eqn:Ei; [by simpl; split; [|intros (? & ? & ? & [=] & _)]|].
  unfold mbind at 1, st_bind, get_st, get_entity. rewrite Ht. simpl.
  destruct (budget_rows (db w) t !! i) as [r|] eqn:Er; simpl; [|split; [done|]; intros (? & ? & ? & [= <-] & ? & _); congruence].
  pose proof (check_budget_reset_quiet et t env i r w Ht Hq Er) as H1.
  unfold mbind at 1, st_bind. destruct (check_budget_reset _ _ _ _ _ _) as [w1 [e|x]].
  - destruct H1 as (Hot & r' & Hr' & Hmax & Hsp & Hsoft). pose proof (compare_budget_quiet et i env e w1) as H2.
    destruct (compare_budget _ _ _ _ _ _) as [w2 res]. destruct H2 as [Hdb H2]. rewrite Hdb. split; [done|].
    destruct res as [u|x].
    2: { assert (Hx : (x <> AlertError /\ exists limit, x = BudgetExceeded et i (spend e) limit /\ max_budget e = Some limit /\
           exceeded (spend e) limit = true) \/ x = AlertError /\ alerts_down /\ exists soft, soft_budget e = Some soft /\ reaches (spend e) soft)
           by (destruct x; [left|left|right]; by split).
         destruct Hx as [(_ & limit & -> & Hm & Hex)|(-> & Ha & soft & Hs & Hre)].
         - split_and!; [done..|]. exists r'. by rewrite <- Hmax, <- Hsp.
         - rewrite Hs in Hsoft. destruct (String.eqb_spec et "org") as [->|]; [|done].
           split; [done|]. split; [done|]. exists i, r', soft. rewrite <- Hsp. split_and!; [|done..].
           unfold nonempty. by rewrite Ei. }
    intros (i' & r2 & limit & [= <-] & Hr2 & Hl & Hover). rewrite Hr' in Hr2. injection Hr2 as <-.
    apply not_true_iff_false in H2. apply H2, row_over_spec. exists limit. by rewrite Hmax, Hsp.
  - destruct H1 as (Hot & H1). split; [done|]. destruct x; [done| |done].
    unfold plan_fails. simpl. rewrite Ei. eauto 10.
Qed.
(** *** All the scopes *)

Abbreviation scope := (string * budget_table * option string)%type.

Definition scopes_checked (l : list scope) (env : string -> check_env) (d d' : budget_db) (res : res budget_exc unit) : Prop :=
  match res with
  | Ret _ => forall et tb id, (et, tb, id) ∈ l -> ~ scope_over tb id d'
  | Raise (BudgetExceeded et i sp limit) => exceeded sp limit = true /\
      exists tb id r, (et, tb, id) ∈ l /\ nonempty id = Some i /\ budget_rows d' tb !! i = Some r /\
        max_budget r = Some limit /\ spend r = sp
  | Raise (BudgetPyError e) => exists et tb id, (et, tb, id) ∈ l /\ plan_fails driver et tb id (env et) d e
  | Raise AlertError => exists et tb id, (et, tb, id) ∈ l /\ soft_reached et tb id d'
  end.

Definition check_scope (env : string -> check_env) (x : scope) : st budget_world budget_exc unit :=
  check_entity_budget driver alerts (env x.1.1) x.1.1 x.2.

Lemma check_scopes_quiet l env w :
  NoDup (map (fun x : scope => x.1.2) l) -> (forall et tb id, (et, tb, id) ∈ l -> table_map et = Some tb) ->
  (forall et, quiet (env et)) ->
  let '(w', res) := for_each l (check_scope env) w in
  (forall tb, tb ∉ map (fun x : scope => x.1.2) l -> budget_rows (db w') tb = budget_rows (db w) tb) /\
  (forall team m, model_limit team m (db w') = model_limit team m (db w) /\
                  model_spend team m (db w') = model_spend team m (db w)) /\
  scopes_checked l env (db w) (db w') res.
Proof.
  intros Hnd Hmap Hq. revert w. induction l as [|[[et tb] id] l IH]; intros w.
  { simpl. split_and!; [done..|]. intros et tb id Hin. by apply not_elem_of_nil in Hin. }
  simpl in Hnd. apply NoDup_cons in Hnd as [Hni Hnd].
  pose proof (check_entity_budget_quiet et tb (env et) id w (Hmap et tb id ltac:(left)) (Hq et)) as H1.
  cbn [for_each]. unfold mbind, st_bind. change (check_scope env (et, tb, id)) with (check_entity_budget driver alerts (env et) et id).
  destruct (check_entity_budget _ _ _ _ _ w) as [w1 [[]|x]]; destruct H1 as [Hot H1].
  2: { split_and!; [intros tb' Hnin; apply Hot; set_solver|by intros; apply (model_spend_only tb)|].
       destruct x as [ty i sp limit|e|]; simpl; [|exists et, tb, id; split; [left|done]|exists et, tb, id; split; [left|done]].
       destruct H1 as (-> & Hi & Hex & r & Hr). split; [done|]. exists tb, id, r. split; [left|done]. }
  specialize (IH Hnd ltac:(intros; apply (Hmap _ _ id0); by right) w1).
  destruct (for_each l (check_scope env) w1) as [w2 res]. destruct IH as (Hfr & Hms & Hres). split_and!.
  - intros tb' Hnin. rewrite Hfr by set_solver. apply Hot. set_solver.
  - intros team m. destruct (Hms team m) as [-> ->]. by apply (model_spend_only tb).
  - destruct res as [[]|[ty i sp limit|e|]]; simpl in *.
    + intros et' tb' id' [[= -> -> ->]|Hin]%elem_of_cons; [|by eapply Hres].
      unfold scope_over in *. by rewrite (Hfr tb Hni).
    + destruct Hres as (? & tb' & id' & r & ? & ?). split; [done|]. exists tb', id', r. split; [by right|done].
    + destruct Hres as (et' & tb' & id' & Hin & Hp). exists et', tb', id'. split; [by right|].
      unfold plan_fails in *. rewrite <- (proj1 Hot tb'); [done|]. intros ->. apply Hni.
      apply list_elem_of_fmap. by exists (et', tb, id').
    + destruct Hres as (et' & tb' & id' & Hin & Hp). exists et', tb', id'. split; [by right|done].
Qed.

Definition budget_scopes (api_key user_id team_id organization_id : option string) : list scope :=
  [("key", KeyTable, api_key); ("user", UserTable, user_id); ("team", TeamTable, team_id);
   ("org", OrgTable, organization_id)].

Lemma check_budgets_eq env k u t o m w :
  check_budgets driver alerts env k u t o m w =
  (for_each (budget_scopes k u t o) (check_scope env) ≫= fun _ =>
   match nonempty t, nonempty m with
   | Some team, Some m => check_team_model_budget team m
   | _, _ => mret tt
   end) w.
Proof.
  unfold check_budgets, budget_scopes, check_scope. cbn [for_each fst snd]. unfold mbind, st_bind.
  repeat match goal with |- context [check_entity_budget ?a ?b ?c ?d ?e ?w] =>
    destruct (check_entity_budget a b c d e w) as [? [[]|]]; [|reflexivity] end.
  reflexivity.
Qed.

Definition team_model_over (team_id model : option string) (d : budget_db) : Prop :=
  exists t m limit, nonempty team_id = Some t /\ nonempty model = Some m /\
    model_limit t m d = Some limit /\ reaches (model_spend t m d) limit.

End decision.


(** ** A row over time *)

(** [UPDATE ... SET spend = spend + x] of the ledger. *)
Definition charge_update (t : budget_table) (id : string) (x : pyfloat) (d : budget_db) : budget_db :=
  match budget_rows d t !! id with
  | Some r => set_budget_row t id (mkBudgetRow (max_budget r) (soft_budget r) (Fl.add (spend r) x)
                (budget_duration r) (budget_reset_at r) (metadata r)) d
  | None => d
  end.

(** What checkers and the ledger do to one row, in any order.  A checker may
    issue its update long after it read [seen]. *)
Inductive row_event : Type :=
  | Charge (x : pyfloat)
  | IssueReset (seen next_reset : datetime) (anchor : option Z).

(** The history of the row: charges since the last reset that took effect, and
    the reset times whose period was closed. *)
Record row_history : Type := mkHistory {
  h_db : budget_db;
  h_charged : pyfloat;
  h_closed : list datetime
}.

Definition run_row_event (t : budget_table) (id : string) (h : row_history) (e : row_event) : row_history :=
  match e with
  | Charge x => mkHistory (charge_update t id x (h_db h)) (Fl.add (h_charged h) x) (h_closed h)
  | IssueReset seen next_reset anchor =>
    match reset_update t id next_reset seen anchor (h_db h) with
    | Some (d', count) =>
      if 0 <? count then mkHistory d' Fl.zero (h_closed h ++ [seen]) else mkHistory d' (h_charged h) (h_closed h)
    | None => h
    end
  end.

(** An update that some checker computed from the row it read. *)
Definition issued (e : row_event) : Prop :=
  match e with
  | Charge _ => True
  | IssueReset seen next_reset anchor =>
    exists driver et r now, driver_ok driver /\ dt_ok seen = true /\ dt_ok now = true /\
      plan_reset (entity_of driver et r) now = Ret (Some (seen, next_reset, anchor))
  end.

Lemma monthly_anchor_day_ok m a : monthly_anchor_day m = Ret (Some a) -> 1 <= a <= 31.
Proof.
  unfold monthly_anchor_day. repeat (case_match; try done); intros [= <-]; try lia.
Qed.

(** A planned reset moves the reset time forward, past the present. *)
Lemma plan_reset_forward driver et r now seen nr inf : driver_ok driver ->
  dt_ok seen = true -> dt_ok now = true ->
  plan_reset (entity_of driver et r) now = Ret (Some (seen, nr, inf)) ->
  to_usec seen <= to_usec now < to_usec nr /\ dt_ok nr = true.
Proof.
  intros Hdr Hs Hn H. pose proof (plan_reset_seen driver Hdr et r now seen nr inf H) as Hcol. revert H.
  unfold plan_reset. cbn [budget_duration budget_reset_at entity_of metadata].
  destruct (budget_duration r) as [dur|]; [|done]. destruct (_ || _); [done|]. rewrite Hdr, Hcol. cbn [mbind res_bind].
  destruct (dt_ltb now seen) eqn:Hlt; [done|]. unfold dt_ltb in Hlt. apply Z.ltb_ge in Hlt.
  intros (a & Ha & (i & Hi & H)%res_bind_ret)%res_bind_ret.
  set (anchor := match a with Some a => Some a | None => i end) in *.
  assert (Hok : anchor_ok anchor).
  { intros x Hx. unfold anchor in Hx. destruct a as [a'|]; [simplify_eq; by eapply monthly_anchor_day_ok|].
    subst i. apply res_bind_ret in Hi as (u & _ & Hi). case_decide; simplify_eq.
    apply dt_ok_spec in Hs as [Hs _]. pose proof (days_in_month_range (dt_year seen) (dt_month seen)). lia. }
  destruct (next_reset_after _ _ _ anchor) as [[t|]|[]] eqn:E; try done. injection H as <- <-.
  destruct (parse_duration (PyStr dur)) as [[[amount unit]|]|] eqn:Ep.
  2, 3: unfold next_reset_after in E; by rewrite Ep in E.
  destruct (next_reset_first_after (PyStr dur) amount unit seen now anchor) as (r' & k & _ & _ & E' & Ht); [done..|].
  rewrite E in E'. destruct r' as [t'|]; [|done]. injection E' as <-. destruct (Ht _ eq_refl). split; [lia|done].
Qed.

(** What holds of a row along its history. *)
Definition row_inv (t : budget_table) (id : string) (h : row_history) : Prop :=
  exists r, budget_rows (h_db h) t !! id = Some r /\ spend r = h_charged h /\
    StronglySorted (fun a b => to_usec a < to_usec b) (h_closed h) /\
    (h_closed h <> [] -> exists cur, budget_reset_at r = Some cur /\
       Forall (fun a => to_usec a < to_usec cur) (h_closed h)).

Lemma StronglySorted_snoc {A} (R : A -> A -> Prop) l x :
  StronglySorted R l -> Forall (fun a => R a x) l -> StronglySorted R (l ++ [x]).
Proof.
  induction 1 as [|a l _ IH Ha]; intros Hx; simpl; [repeat constructor|].
  apply Forall_cons in Hx as [Hax Hx]. constructor; [by apply IH|]. apply Forall_app. by repeat constructor.
Qed.

Lemma run_row_event_inv t id h e : issued e -> row_inv t id h -> row_inv t id (run_row_event t id h e).
Proof.
  intros He (r & Hr & Hsp & Hss & Hcl). destruct e as [x|seen nr anchor]; unfold row_inv; simpl.
  - unfold charge_update. rewrite Hr. eexists. rewrite set_budget_row_lookup. split; [done|]. simpl.
    split_and!; [by rewrite Hsp|done|]. intros Hne. destruct (Hcl Hne) as (cur & -> & Hf). eauto.
  - destruct He as (driver & et & r0 & now & Hdr & Hs & Hn & Hp).
    destruct (plan_reset_forward _ _ _ _ _ _ _ Hdr Hs Hn Hp) as [Hlt _].
    unfold reset_update. rewrite Hr. destruct (decide _) as [Hcur|]; [|by exists r].
    unfold reset_row. destruct (stored_metadata _ _) as [m|]; simpl; [|by exists r].
    eexists. rewrite decide_True, lookup_insert_eq by done. split; [done|]. simpl.
    assert (Hf : Forall (fun a => to_usec a < to_usec seen) (h_closed h)).
    { destruct (h_closed h) as [|c l] eqn:E; [constructor|].
      destruct Hcl as (cur & Hc & Hf); [done|]. rewrite Hcur in Hc. by injection Hc as <-. }
    split_and!; [done|by apply StronglySorted_snoc|]. intros _. exists nr. split; [done|].
    apply Forall_app. split; [|repeat constructor; lia]. eapply Forall_impl; [exact Hf|]. simpl. lia.
Qed.

(** C29: whatever the order in which requests find a budget due, issue its reset
    and charge it, each period is closed at most once, in order, and the spend
    counter is exactly the sum of the charges since the last reset: a checker
    that comes late with a stale reset time changes nothing. *)
Theorem budget_periods_close_once t id d r events :
  budget_rows d t !! id = Some r -> Forall issued events ->
  let h := foldl (run_row_event t id) (mkHistory d (spend r) []) events in
  NoDup (h_closed h) /\ StronglySorted (fun a b => to_usec a < to_usec b) (h_closed h) /\
  exists r', budget_rows (h_db h) t !! id = Some r' /\ spend r' = h_charged h.
Proof.
  intros Hr Hev h. assert (Hi : row_inv t id h).
  { unfold h. clear h. assert (H0 : row_inv t id (mkHistory d (spend r) [])).
    { exists r. split_and!; [done|done|constructor|done]. }
    revert H0. generalize (mkHistory d (spend r) []). induction Hev as [|e l He _ IH]; intros h0 H0; [done|].
    simpl. apply IH, run_row_event_inv; done. }
  destruct Hi as (r' & Hr' & Hsp & Hss & _). split; [|eauto].
  clear -Hss. induction Hss as [|a l _ IH Hf]; [constructor|]. constructor; [|done].
  intros Hin. rewrite Forall_forall in Hf. specialize (Hf a Hin). lia.
Qed.

Lemma budget_periods_close_once_witness :
  let row := mkBudgetRow (Some (FFin 10)) None (FFin 12) (Some "1mo") (Some (dt 2024 1 30)) PyNone in
  let d := mkBudgetDb (fun _ => {["u" := row]}) ∅ ∅ [] in
  let reset := IssueReset (dt 2024 1 30) (dt 2024 2 29) (Some 30) in
  let events := [Charge (FFin 1); reset; Charge (FFin 2); reset; Charge (FFin 3)] in
  let h := foldl (run_row_event UserTable "u") (mkHistory d (FFin 12) []) events in
  h_closed h = [dt 2024 1 30] /\ exists r', budget_rows (h_db h) UserTable !! "u" = Some r' /\ spend r' = h_charged h.
Proof.
  cbv zeta. split; [vm_compute; reflexivity|].
  set (row := mkBudgetRow _ _ _ _ _ _). set (reset := IssueReset _ _ _).
  assert (Hi : issued reset).
  { exists (fun o => match o with Some t => RawNaive t | None => RawNone end), "user", row, (dt 2024 2 3).
    split_and!; [by intros [?|]|vm_compute; reflexivity..]. }
  apply (budget_periods_close_once UserTable "u" (mkBudgetDb (fun _ => {["u" := row]}) ∅ ∅ []) row
    [Charge (FFin 1); reset; Charge (FFin 2); reset; Charge (FFin 3)]); [vm_compute; reflexivity|].
  repeat constructor; done.
Defined.
