(* ===== verification/WorkerFailure.v ===== *)
(** * Failed items and persistence retries

    [src/batch/worker_failure_handling.py] and the persistence of
    [src/batch/worker_persistence.py]: whether a failed item is retried, after
    which delay, what its row then holds, and how a worker reacts when the
    transaction that completes items fails. *)

From Stdlib Require Import QArith.Qround QArith.Qpower.
From S2P Require Import Prelude PyVal Errors ErrorPolicy RouterState Backend Backpressure.
From S2P Require Import BatchModels BatchDb Scheduling BatchItems BatchOutbox BatchBilling BatchJobs.
Import BatchRetry.

(** The settings of [BatchWorkerConfig] read here. *)
Record BatchWorkerConfig : Type := mkWorkerConfig {
  wk_worker_id : string;
  wk_item_lease_seconds : Z;
  wk_max_attempts : Z;
  wk_retry_initial_seconds : Z;
  wk_retry_max_seconds : Z;
  wk_retry_multiplier : Q;
  wk_retry_jitter : bool
}.

(** ** The retry policy *)

Definition Qmax1 (q : Q) : Q := if Qlt_bool 1 q then q else 1%Q.

(** [ceil(initial * (multiplier ** exponent))]; a result out of the range of
    floats is an [OverflowError]. *)
Definition backoff_ceiling (initial : Z) (multiplier : Q) (exponent : Z) : res pyexc Z :=
  let x := (inject_Z initial * Qpower multiplier exponent)%Q in
  if Qle_bool (inject_Z float_overflow) x then Raise OverflowError else Ret (Qceiling x).

(** [random.randint] *)
Definition randint (draw : Z -> Z -> Z) (lower upper : Z) : res pyexc Z :=
  if upper <? lower then Raise ValueError else Ret (draw lower upper).

Definition retry_delay_seconds (cfg : BatchWorkerConfig) (draw : Z -> Z -> Z) (item_attempts : Z) (d : decision)
    : res pyexc Z :=
  let initial := Z.max 1 (wk_retry_initial_seconds cfg) in
  let max_delay := Z.max initial (wk_retry_max_seconds cfg) in
  let multiplier := Qmax1 (wk_retry_multiplier cfg) in
  let provider_delay := Z.min max_delay <$> retry_after_seconds d in
  let exponent := Z.max 0 (item_attempts - 1) in
  ceiling ← backoff_ceiling initial multiplier exponent;
  let backoff_delay := Z.min max_delay ceiling in
  let target_delay := Z.max backoff_delay (default 0 provider_delay) in
  if negb (wk_retry_jitter cfg) || (target_delay <=? 1) then Ret target_delay
  else
    let lower_bound := Z.max (Z.max 1 (default 0 provider_delay)) (Qceiling (inject_Z target_delay / inject_Z 2)) in
    randint draw lower_bound target_delay.

Definition retry_terminal_reason (cfg : BatchWorkerConfig) (item : Item.batch_item) (d : decision)
    : option terminal_reason :=
  if negb (retryable d) then Some (default NOT_RETRYABLE (reason d))
  else if wk_max_attempts cfg <=? Item.attempts item then Some ATTEMPTS_EXHAUSTED
  else None.

Definition can_retry_item (cfg : BatchWorkerConfig) (item : Item.batch_item) (d : decision) : bool :=
  match retry_terminal_reason cfg item d with None => true | Some _ => false end.

(** The values of the enums of [src/batch/retry.py]. *)
Definition category_value (c : category) : string :=
  match c with
  | C_AUTHENTICATION => "authentication" | C_RATE_LIMIT => "rate_limit" | C_TIMEOUT => "timeout"
  | C_TRANSPORT => "transport" | C_UPSTREAM_5XX => "upstream_5xx"
  | C_SERVICE_UNAVAILABLE => "service_unavailable"
  | C_NO_HEALTHY_DEPLOYMENTS => "no_healthy_deployments" | C_INVALID_REQUEST => "invalid_request"
  | C_RESPONSE_SHAPE => "response_shape" | C_BUDGET => "budget" | C_MISSING_MODEL => "missing_model"
  | C_PERMISSION => "permission" | C_UNKNOWN => "unknown"
  end.
Definition terminal_reason_value (r : terminal_reason) : string :=
  match r with
  | NOT_RETRYABLE => "not_retryable" | ATTEMPTS_EXHAUSTED => "attempts_exhausted" | BATCH_EXPIRED => "batch_expired"
  end.

Section failure.
Context {S : Type} `{RedisExec S} `{PyRepr}.
Context (digest : string -> string) (dumps : string -> Z -> Z -> string) (parsedate : string -> option Z).
(** [exc.__class__.__name__] *)
Context (class_name : exn -> string).

Definition build_failure_error_payload (cfg : BatchWorkerConfig) (item : Item.batch_item) (exc : exn) (d : decision)
    (retryable : bool) (retry_delay_seconds : Z) (terminal : option terminal_reason) : pyval :=
  PyDict ([("message", PyStr (exn_str exc)); ("type", PyStr (class_name exc)); ("retryable", PyBool retryable);
           ("retry_category", PyStr (category_value (cat d))); ("attempt", PyInt (Item.attempts item));
           ("max_attempts", PyInt (wk_max_attempts cfg))] ++
          if retryable then [("retry_delay_seconds", PyInt retry_delay_seconds)]
          else [("terminal_reason", PyStr (terminal_reason_value (default NOT_RETRYABLE terminal)))]).

(** The database and the backpressure coordinator of the process. *)
Definition world : Type := (db * coordinator S).
Local Abbreviation op := (st world exn).

Definition on_db {A} (m : st db exn A) : op A := fun w =>
  let '(s, r) := m w.1 in ((s, w.2), r).
Definition on_coordinator {A} (m : st (coordinator S) exn A) : op A := fun w =>
  let '(c, r) := m w.2 in ((w.1, c), r).
Definition of_python {A} (r : res pyexc A) : op A := fun w =>
  match r with Ret a => (w, Ret a) | Raise e => (w, Raise (exn_of_pyexc e)) end.

(** The clock of the worker, and of the database at its statements. *)
Record failure_clock : Type := mkFailureClock { fc_now : Z; fc_first : Z; fc_second : Z; fc_refresh : Z }.

(** The delay a failure computes before anything is written. *)
Definition candidate_delay (cfg : BatchWorkerConfig) (draw : Z -> Z -> Z) (item : Item.batch_item) (d : decision)
    : res pyexc Z :=
  if retryable d then retry_delay_seconds cfg draw (Item.attempts item) d else Ret 0.

(** The statements of [_mark_item_failed]: a retry the repository refuses,
    because the batch expires first, is recorded as a failure instead. *)
Definition record_failure (cfg : BatchWorkerConfig) (t : failure_clock) (batch_id : string)
    (item : Item.batch_item) (exc : exn) (d : decision) (candidate : Z) : st db exn unit :=
  let terminal := retry_terminal_reason cfg item d in
  let can_retry := can_retry_item cfg item d in
  let mark now retryable delay terminal :=
    mark_item_failed now (Item.item_id item) (Some (wk_worker_id cfg))
      (build_failure_error_payload cfg item exc d retryable delay terminal) (exn_str exc) retryable delay
      (Some (Item.claim_epoch item)) in
  updated ← mark (fc_first t) can_retry (if can_retry then candidate else 0) terminal;
  updated ← (if negb updated && can_retry then mark (fc_second t) false 0 (Some BATCH_EXPIRED) else mret updated);
  if negb (updated : bool) then mret tt
  else _ ← refresh_job_progress (fc_refresh t) batch_id; mret tt.

(** [_mark_item_failed]; [model_group] is what the item's model resolves to. *)
Definition handle_failure (cfg : BatchWorkerConfig) (draw : Z -> Z -> Z) (t : failure_clock) (batch_id : string)
    (item : Item.batch_item) (model_group : option string) (exc : exn) : op unit :=
  let d := classify_batch_retry parsedate (fc_now t) exc in
  candidate ← of_python (candidate_delay cfg draw item d);
  _ ← on_coordinator (maybe_defer_model_group_for_retry digest dumps (fc_now t) model_group exc d candidate);
  on_db (record_failure cfg t batch_id item exc d candidate).
End failure.

(** ** Persisting completions *)

Definition renew_item_lease_once (now : Z) (cfg : BatchWorkerConfig) (f : fault) (item_id : string)
    (claim_epoch : option Z) : st db exn bool :=
  try_except (with_fault f (renew_item_lease now item_id (wk_worker_id cfg) (wk_item_lease_seconds cfg) claim_epoch))
    (fun _ => mret false).

(** What one attempt at the transaction sees. *)
Record attempt_env : Type := mkAttempt {
  at_now : Z; at_held : string -> bool; at_uuid4 : nat -> string; at_fault : fault
}.

(** [{str(item["item_id"]): int(item["claim_epoch"]) ...}] *)
Definition item_claim_epochs (l : list item_completion) : gmap string Z :=
  foldl (fun m i => match cm_claim_epoch (icp_completion i) with
                    | Some e => <[icp_item_id i := e]> m
                    | None => m
                    end) ∅ l.

(** The [for attempt in range(2)] loop: [Some b] is a [return b]. *)
Fixpoint persist_attempts (cfg : BatchWorkerConfig) (l : list item_completion) (attempts : list attempt_env)
    : st db exn (option bool) :=
  match attempts with
  | [] => mret None
  | a :: attempts' => fun s =>
    match with_fault (at_fault a)
            (complete_items_with_outbox_bulk (at_now a) (at_held a) (at_uuid4 a) l (Some (wk_worker_id cfg))) s with
    | (s', Raise _) => persist_attempts cfg l attempts' s'
    | (s', Ret (R_completed | R_already_completed)) => (s', Ret (Some true))
    | (s', Ret R_not_owned) => (s', Ret (Some false))
    end
  end.

Definition persist_completion_rows_with_outbox (cfg : BatchWorkerConfig) (first second : attempt_env)
    (now : Z) (f : fault) (l : list item_completion) : st db exn bool :=
  outcome ← persist_attempts cfg l [first; second];
  match outcome with
  | Some b => mret b
  | None =>
    try_except
      (_ ← with_fault f (release_items_for_retry now (map icp_item_id l) (wk_worker_id cfg) 0 None None
             (Some (item_claim_epochs l)));
       mret false)
      (fun _ => mret false)
  end.

(** ** Delays *)

(** What is documented of [random.randint]. *)
Definition draw_ok (draw : Z -> Z -> Z) : Prop := forall a b, a <= b -> a <= draw a b <= b.

Lemma Qmax1_ge q : (1 <= Qmax1 q)%Q.
Proof. unfold Qmax1. destruct (Qlt_bool 1 q) eqn:E; [apply Qlt_bool_iff in E; lra|lra]. Qed.

Lemma Qpower_ge1 q n : (1 <= q)%Q -> 0 <= n -> (1 <= Qpower q n)%Q.
Proof. intros Hq Hn. by apply Qpower_1_le. Qed.

Lemma backoff_ceiling_ge1 initial m e c : 1 <= initial -> (1 <= m)%Q -> 0 <= e ->
  backoff_ceiling initial m e = Ret c -> initial <= c.
Proof.
  intros Hi Hm He. unfold backoff_ceiling. destruct (Qle_bool _ _); [done|]. intros [= <-].
  pose proof (Qpower_ge1 m e Hm He) as Hp.
  rewrite <- (Qceiling_Z initial) at 1. apply Qceiling_resp_le.
  assert (0 <= inject_Z initial)%Q by (rewrite <- (inject_Z_injective 0 0) || (change 0%Q with (inject_Z 0); rewrite <- Zle_Qle; lia)).
  nra.
Qed.

Lemma half_ceiling_le n : 1 <= n -> Qceiling (inject_Z n / inject_Z 2) <= n.
Proof.
  intros Hn. rewrite <- (Qceiling_Z n) at 2. apply Qceiling_resp_le.
  assert (1 <= inject_Z n)%Q by (change 1%Q with (inject_Z 1); rewrite <- Zle_Qle; lia).
  apply Qle_shift_div_r; [reflexivity|]. change (inject_Z 2) with 2%Q. lra.
Qed.

(** The delay before a retry is at least one second, never above the
    configured maximum (or the initial delay, when that is larger), and never
    below what the provider asked for, capped at that maximum; jitter only
    shortens the delay, to no less than half.  The call fails only when the
    back-off leaves the range of floats. *)
Theorem retry_delay_bounds cfg draw attempts d :
  draw_ok draw ->
  let max_delay := Z.max (Z.max 1 (wk_retry_initial_seconds cfg)) (wk_retry_max_seconds cfg) in
  match retry_delay_seconds cfg draw attempts d with
  | Ret delay => 1 <= delay <= max_delay /\
      (forall after, retry_after_seconds d = Some after -> Z.min max_delay after <= delay)
  | Raise e => e = OverflowError /\
      (inject_Z float_overflow <= inject_Z (Z.max 1 (wk_retry_initial_seconds cfg)) *
         Qpower (Qmax1 (wk_retry_multiplier cfg)) (Z.max 0 (attempts - 1)))%Q
  end.
Proof.
  intros Hdraw. cbv zeta. unfold retry_delay_seconds.
  set (initial := Z.max 1 (wk_retry_initial_seconds cfg)). set (mx := Z.max initial (wk_retry_max_seconds cfg)).
  destruct (backoff_ceiling _ _ _) as [c|e] eqn:Ec; cbn [mbind res_bind].
  2: { unfold backoff_ceiling in Ec. destruct (Qle_bool _ _) eqn:E; [|done]. injection Ec as <-.
       split; [done|]. by apply Qle_bool_iff. }
  apply backoff_ceiling_ge1 in Ec; [|lia|apply Qmax1_ge|lia].
  assert (Hp : forall after, retry_after_seconds d = Some after ->
    default 0 (Z.min mx <$> retry_after_seconds d) = Z.min mx after) by (intros after ->; done).
  assert (Hp' : default 0 (Z.min mx <$> retry_after_seconds d) <= mx).
  { destruct (retry_after_seconds d); simpl; lia. }
  set (p := default 0 (Z.min mx <$> retry_after_seconds d)) in *.
  set (target := Z.max (Z.min mx c) p). assert (Ht : 1 <= target <= mx) by (unfold target; lia).
  destruct (negb _ || _); [split; [done|]; intros after Ha; rewrite <- (Hp after Ha); unfold target; lia|].
  pose proof (half_ceiling_le target ltac:(lia)) as Hh. set (lo := Z.max (Z.max 1 p) _).
  assert (Hlo : lo <= target) by (unfold lo, target in *; lia).
  unfold randint. rewrite (proj2 (Z.ltb_ge _ _)) by done. specialize (Hdraw lo target Hlo).
  split; [unfold lo in *; lia|]. intros after Ha. rewrite <- (Hp after Ha). unfold lo in *. lia.
Qed.

Definition sample_worker : BatchWorkerConfig := mkWorkerConfig "w" 360 3 5 300 2 true.

Lemma retry_delay_bounds_witness :
  let d := retry_as C_RATE_LIMIT (Some 17) in
  retry_delay_seconds sample_worker (fun a _ => a) 2 d = Ret 17 /\ 1 <= 17 <= 300.
Proof.
  cbv zeta. split; [vm_compute; reflexivity|].
  pose proof (retry_delay_bounds sample_worker (fun a _ => a) 2 (retry_as C_RATE_LIMIT (Some 17)) ltac:(intros a b; lia)) as H.
  replace (retry_delay_seconds _ _ _ _) with (@Ret pyexc Z 17) in H by (vm_compute; reflexivity).
  exact (proj1 H).
Defined.

(** ** What a failure does to the row *)

Lemma item_row_update p f id s : (forall r, Item.item_id (f r) = Item.item_id r) ->
  item_row id (on_items (update_where p f) s) = (fun r => if p r then f r else r) <$> item_row id s.
Proof. intros Hf. unfold item_row. cbn [on_items items]. by apply row_at_update. Qed.

Lemma item_row_id id s r : item_row id s = Some r -> r ∈ items s /\ Item.item_id r = id.
Proof. apply row_at_key. Qed.

Lemma owned_id id w e r : owned id w e r = true -> Item.item_id r = id.
Proof. by intros (<- & _)%owned_spec. Qed.

(** An update under an ownership guard strikes the owned row alone. *)
Lemma owned_update_spec id w e (g : Item.batch_item -> bool) f s r :
  items_ok s -> (forall x, Item.item_id (f x) = Item.item_id x) -> item_row id s = Some r ->
  let p x := owned id w e x && g x in
  let '(s', res) := (rows ← update_items p f; mret (any_row rows)) s in
  res = Ret (p r) /\ jobs s' = jobs s /\ item_row id s' = Some (if p r then f r else r) /\
  (forall i, i <> id -> item_row i s' = item_row i s) /\ (p r = false -> s' = s).
Proof.
  intros [[Hu _] _] Hf Hr p. unfold mbind, st_bind, update_items, mret, st_ret.
  destruct (item_row_id _ _ _ Hr) as [Hin Hid].
  assert (Honly : forall x, x ∈ items s -> p x = true -> x = r).
  { intros x Hx (Hox%owned_id & _)%andb_true_iff. eapply (NoDup_map_inj Item.item_id); eauto. congruence. }
  assert (Hno : p r = false -> forall x, x ∈ items s -> p x = false).
  { intros Hp x Hx. destruct (p x) eqn:E; [|done]. rewrite (Honly x Hx E) in E. congruence. }
  split_and!.
  - f_equal. unfold any_row. destruct (p r) eqn:E.
    + assert (Hs : r ∈ select_where p (items s)) by (apply elem_select; done).
      destruct (select_where p (items s)); [by apply not_elem_of_nil in Hs|done].
    + destruct (select_where p (items s)) as [|x l] eqn:Es; [done|].
      assert (Hx : x ∈ select_where p (items s)) by (rewrite Es; left). apply elem_select in Hx as [Hx Hp].
      by rewrite (Hno eq_refl x Hx) in Hp.
  - done.
  - rewrite item_row_update, Hr by done. done.
  - intros i Hne. rewrite item_row_update by done. destruct (item_row i s) as [x|] eqn:Ex; [|done]. simpl.
    destruct (p x) eqn:E; [|done]. exfalso. apply item_row_id in Ex as [_ Ei].
    apply andb_true_iff in E as [E%owned_id _]. congruence.
  - intros Hp. unfold on_items. rewrite update_none by auto. by destruct s.
Qed.

(** The repository's statement on an owned row. *)
Lemma mark_item_failed_owned now id w e body msg rt delay s r :
  items_ok s -> item_row id s = Some r ->
  let ok := owned id w e r && (negb rt || before_expiry now (Z.max 0 delay) s r) in
  let '(s', res) := mark_item_failed now id (Some w) body msg rt delay (Some e) s in
  res = Ret ok /\ jobs s' = jobs s /\
  item_row id s' = Some (if ok then if rt then retry_row (Some (after_seconds now (Z.max 0 delay))) (Some body) (Some msg) r
                                    else fail_row now body msg r else r) /\
  (forall i, i <> id -> item_row i s' = item_row i s) /\ (ok = false -> s' = s).
Proof.
  intros Hok Hr ok. unfold mark_item_failed. cbv zeta. destruct rt; unfold ok; cbn [negb orb].
  - apply (owned_update_spec id w e (before_expiry now (Z.max 0 delay) s)); done.
  - rewrite andb_true_r. pose proof (owned_update_spec id w e (fun _ => true) (fail_row now body msg) s r Hok) as H.
    specialize (H ltac:(done) Hr). cbv zeta beta in H. rewrite andb_true_r in H.
    assert (E : forall x, (rows ← update_items (owned id w e) (fail_row now body msg); mret (any_row rows)) x =
                (rows ← update_items (fun x => owned id w e x && true) (fail_row now body msg); mret (any_row rows)) x).
    { intros x. unfold mbind, st_bind, update_items, on_items.
      rewrite (update_where_ext (fun x => owned id w e x && true) (owned id w e)),
        (select_where_ext (fun x => owned id w e x && true) (owned id w e)); [done|..]; intros; by rewrite andb_true_r. }
    rewrite E. done.
Qed.

Lemma refresh_leaves_items now b s :
  let '(s', r) := refresh_job_progress now b s in items s' = items s /\ is_ret r = true.
Proof. done. Qed.

Section outcome.
Context {S : Type} `{RedisExec S} `{PyRepr}.
Context (digest : string -> string) (dumps : string -> Z -> Z -> string) (parsedate : string -> option Z).
Context (class_name : exn -> string) (cfg : BatchWorkerConfig) (draw : Z -> Z -> Z).

Lemma maybe_defer_returns now g exc d delay (c : coordinator S) :
  snd (maybe_defer_model_group_for_retry digest dumps now g exc d delay c) = Ret tt.
Proof.
  unfold maybe_defer_model_group_for_retry. destruct (negb _); [done|].
  assert (Hw : forall group, snd (if Str.is_empty group || negb (bp_enabled c) then (c, Ret tt)
     else (_ ← try_except (defer_model_group digest dumps now group delay "no_healthy_deployments")
                 (fun _ => mret None : st (coordinator S) exn (option Deferral)); mret tt) c) = Ret tt).
  { intros group. destruct (_ || _); [done|]. unfold try_except, mbind, st_bind.
    by destruct (defer_model_group _ _ _ _ _ _ c) as [? [?|?]]. }
  destruct exc; destruct g; try done; apply Hw.
Qed.

Lemma handle_failure_eq t b item g exc s (c : coordinator S) :
  let d := classify_batch_retry parsedate (fc_now t) exc in
  exists c', handle_failure digest dumps parsedate class_name cfg draw t b item g exc (s, c) =
    match candidate_delay cfg draw item d with
    | Raise e => ((s, c), Raise (exn_of_pyexc e))
    | Ret delay => ((fst (record_failure class_name cfg t b item exc d delay s), c'),
                    snd (record_failure class_name cfg t b item exc d delay s))
    end.
Proof.
  intros d. unfold handle_failure. fold d. unfold mbind, st_bind, of_python.
  destruct (candidate_delay cfg draw item d) as [delay|e]; [|by exists c].
  unfold on_coordinator, on_db. cbn [fst snd].
  pose proof (maybe_defer_returns (fc_now t) g exc d delay c) as Hr.
  destruct (maybe_defer_model_group_for_retry _ _ _ _ _ _ _ c) as [c' r]. cbn [snd] in Hr. subst r. cbn [fst snd].
  exists c'. by destruct (record_failure _ _ _ _ _ _ _ _ s).
Qed.

(** The row a failure leaves. *)
Definition failed_item_row (t : failure_clock) (s : db) (item r : Item.batch_item) (exc : exn) (d : decision) (delay : Z)
    : Item.batch_item :=
  let payload := build_failure_error_payload class_name cfg item exc d in
  match retry_terminal_reason cfg item d with
  | Some reason => fail_row (fc_first t) (payload false 0 (Some reason)) (exn_str exc) r
  | None =>
    if before_expiry (fc_first t) (Z.max 0 delay) s r
    then retry_row (Some (after_seconds (fc_first t) (Z.max 0 delay))) (Some (payload true delay None))
           (Some (exn_str exc)) r
    else fail_row (fc_second t) (payload false 0 (Some BATCH_EXPIRED)) (exn_str exc) r
  end.

Lemma record_failure_spec t b item r exc d delay s :
  items_ok s -> item_row (Item.item_id item) s = Some r ->
  let mine := owned (Item.item_id item) (wk_worker_id cfg) (Item.claim_epoch item) r in
  let '(s', res) := record_failure class_name cfg t b item exc d delay s in
  res = Ret tt /\ (forall i, i <> Item.item_id item -> item_row i s' = item_row i s) /\
  item_row (Item.item_id item) s' = Some (if mine then failed_item_row t s item r exc d delay else r) /\
  (mine = false -> s' = s).
Proof.
  intros Hok Hr mine. unfold record_failure, failed_item_row, can_retry_item.
  set (id := Item.item_id item) in *. set (w := wk_worker_id cfg) in *. set (ep := Item.claim_epoch item) in *.
  set (term := retry_terminal_reason cfg item d).
  set (rt := match term with None => true | Some _ => false end).
  set (p1 := build_failure_error_payload _ _ _ _ _ rt _ term).
  pose proof (mark_item_failed_owned (fc_first t) id w ep p1 (exn_str exc) rt (if rt then delay else 0) s r Hok Hr) as H1.
  fold mine in H1. cbv zeta. unfold mbind at 1, st_bind.
  destruct (mark_item_failed (fc_first t) _ _ _ _ _ _ _ s) as [s1 r1]. destruct H1 as (-> & _ & Hrow & Hoth & Hsame).
  assert (Hrest : forall ok x (s2 : db), (forall i, i <> id -> item_row i s2 = item_row i s) ->
     item_row id s2 = Some (if mine then x else r) -> ok = mine -> (mine = false -> s2 = s) ->
     let '(s', res) := (if negb ok then mret tt else _ ← refresh_job_progress (fc_refresh t) b; mret tt : st db exn unit) s2 in
     res = Ret tt /\ (forall i, i <> id -> item_row i s' = item_row i s) /\
     item_row id s' = Some (if mine then x else r) /\ (mine = false -> s' = s)).
  { intros ok x s2 Ho Hx -> Hs. destruct mine; [|done]. cbn [negb]. unfold mbind, st_bind.
    pose proof (refresh_leaves_items (fc_refresh t) b s2) as Hi.
    destruct (refresh_job_progress _ b s2) as [s3 [j|e]]; destruct Hi as [Hi Hre]; [|done].
    unfold mret, st_ret, item_row in *. cbv beta iota. rewrite Hi. by split_and!. }
  unfold rt in *. destruct term as [reason|] eqn:Et; cbn [negb orb andb] in *.
  - rewrite andb_true_r in *. rewrite andb_false_r. unfold mbind at 1, st_bind, mret, st_ret. by eapply Hrest.
  - rewrite andb_true_r. destruct (mine && before_expiry (fc_first t) (Z.max 0 delay) s r) eqn:Eok.
    + apply andb_true_iff in Eok as [Em Eb]. rewrite Em in *. cbn [negb]. unfold mbind at 1, st_bind, mret, st_ret.
      rewrite Eb. by eapply (Hrest true).
    + cbn [negb]. rewrite (Hsame eq_refl). clear s1 Hrow Hoth Hsame.
      set (p2 := build_failure_error_payload _ _ _ _ _ false 0 _).
      pose proof (mark_item_failed_owned (fc_second t) id w ep p2 (exn_str exc) false 0 s r Hok Hr) as H2.
      fold mine in H2. cbv zeta in H2. cbn [negb orb] in H2. rewrite andb_true_r in H2. unfold mbind at 1, st_bind.
      destruct (mark_item_failed (fc_second t) _ _ _ _ _ _ _ s) as [s2 r2]. destruct H2 as (-> & _ & Hrow & Hoth & Hsame).
      assert (Hx : (if before_expiry (fc_first t) (Z.max 0 delay) s r
        then retry_row (Some (after_seconds (fc_first t) (Z.max 0 delay)))
               (Some (build_failure_error_payload class_name cfg item exc d true delay None)) (Some (exn_str exc)) r
        else fail_row (fc_second t) p2 (exn_str exc) r) = fail_row (fc_second t) p2 (exn_str exc) r \/ mine = false).
      { destruct mine; [left|by right]. cbn [andb] in Eok. by rewrite Eok. }
      eapply Hrest; [done| |done|done]. destruct Hx as [->| ->]; [done|]. by rewrite Hsame in *.
Qed.
End outcome.

(** What a failed item becomes.  The failure handler either stops before it
    writes anything, when the back-off overflows, or returns after exactly one
    of three things happened to the row its worker still owns: it waits for its
    retry, because the failure can be retried, attempts are left and the retry
    comes before the batch expires; it failed with the reason of the policy; or
    it failed because the batch expires first.  Other rows are untouched, and
    after a lost lease so is the whole database. *)
Theorem failure_outcome {S} `{RedisExec S} `{PyRepr} digest dumps parsedate class_name cfg draw t b item g exc s
    (c : coordinator S) r :
  items_ok s -> item_row (Item.item_id item) s = Some r ->
  let d := classify_batch_retry parsedate (fc_now t) exc in
  let mine := owned (Item.item_id item) (wk_worker_id cfg) (Item.claim_epoch item) r in
  let '(w, res) := handle_failure digest dumps parsedate class_name cfg draw t b item g exc (s, c) in
  match candidate_delay cfg draw item d with
  | Raise e => fst w = s /\ res = Raise (exn_of_pyexc e)
  | Ret delay =>
      res = Ret tt /\ (forall i, i <> Item.item_id item -> item_row i (fst w) = item_row i s) /\
      item_row (Item.item_id item) (fst w) =
        Some (if mine then failed_item_row class_name cfg t s item r exc d delay else r) /\
      (mine = false -> fst w = s)
  end.
Proof.
  intros Hok Hr d mine.
  destruct (handle_failure_eq digest dumps parsedate class_name cfg draw t b item g exc s c) as [c' ->]. fold d.
  destruct (candidate_delay cfg draw item d) as [delay|e]; [|done].
  pose proof (record_failure_spec class_name cfg t b item r exc d delay s Hok Hr) as Hspec. cbv zeta in Hspec.
  destruct (record_failure _ _ _ _ _ _ _ _ s) as [s' res]. exact Hspec.
Qed.

(** ** A failing item is failed for good *)

Lemma bind_steps {A B} (m : st db exn A) (f : A -> st db exn B) s :
  rtc items_step s (fst (m s)) -> (forall a s', rtc items_step s' (fst (f a s'))) ->
  rtc items_step s (fst ((m ≫= f) s)).
Proof.
  intros Hm Hf. unfold mbind, st_bind. destruct (m s) as [s1 [a|e]]; [|done]. by etransitivity; [|apply Hf].
Qed.

Lemma record_failure_steps class_name cfg t b item exc d delay s :
  rtc items_step s (fst (record_failure class_name cfg t b item exc d delay s)).
Proof.
  unfold record_failure. cbv zeta.
  assert (Hmark : forall now id w body msg rt dl ep s, items_step s (fst (mark_item_failed now id w body msg rt dl ep s))).
  { intros now id w body msg rt dl ep s0.
    apply (run_item_op_step (fun _ => None) (fun _ => "") (OpFail now id w body msg rt dl ep) s0 eq_refl). }
  apply bind_steps; [by apply rtc_once|]. intros u s1. apply bind_steps.
  { destruct (_ && _); [by apply rtc_once|done]. }
  intros u' s2. destruct (negb u'); [done|]. apply rtc_once, items_step_same. done.
Qed.

(** A terminal row never changes again. *)
Lemma terminal_row_stays s s' id r : items_ok s -> rtc items_step s s' -> item_row id s = Some r ->
  BatchItemStatus.terminal_item (Item.status r) = true -> item_row id s' = Some r.
Proof.
  intros [U _] Hs Hr Ht. destruct (items_steps_row (eq r) s s' id r) as (r' & Hr' & <-); [|done..].
  intros x x' <- Hx. apply row_step_terminal in Hx. congruence.
Qed.

(** One more failure of item [id] that is recorded: a worker claims it, among
    other items and whatever else happens to the table, still owns it when it
    fails, and its failure handler returns. *)
Inductive failed_round (max_attempts : Z) (id : string) : db -> db -> Prop :=
  | failed_round_intro S (exec : RedisExec S) (repr : PyRepr) digest dumps parsedate class_name cfg draw
      now held batch limit_ lease t b g exc s s1 claimed r s2 r2 (c c' : coordinator S) s3 :
      wk_max_attempts cfg = max_attempts ->
      rtc items_step s s1 ->
      snd (claim_items now held batch (wk_worker_id cfg) limit_ lease s1) = Ret claimed ->
      r ∈ claimed -> Item.item_id r = id ->
      rtc items_step (fst (claim_items now held batch (wk_worker_id cfg) limit_ lease s1)) s2 ->
      item_row id s2 = Some r2 -> owned id (wk_worker_id cfg) (Item.claim_epoch r) r2 = true ->
      handle_failure digest dumps parsedate class_name cfg draw t b r g exc (s2, c) = ((s3, c'), Ret tt) ->
      failed_round max_attempts id s s3.

(** A handler that returned has recorded the failure. *)
Lemma handled_recorded {S} `{RedisExec S} `{PyRepr} digest dumps parsedate class_name cfg draw t b item g exc s
    (c : coordinator S) s' c' :
  handle_failure digest dumps parsedate class_name cfg draw t b item g exc (s, c) = ((s', c'), Ret tt) ->
  exists delay, s' = fst (record_failure class_name cfg t b item exc (classify_batch_retry parsedate (fc_now t) exc) delay s).
Proof.
  destruct (handle_failure_eq digest dumps parsedate class_name cfg draw t b item g exc s c) as [c0 ->].
  destruct (candidate_delay _ _ _ _) as [delay|e]; [|done]. intros [= <- _ _]. by exists delay.
Qed.

Lemma claimed_row now held batch w limit_ lease s claimed r : items_ok s ->
  snd (claim_items now held batch w limit_ lease s) = Ret claimed -> r ∈ claimed ->
  exists r0, item_row (Item.item_id r) s = Some r0 /\ r = claim_row now w lease r0 /\
             BatchItemStatus.terminal_item (Item.status r0) = false.
Proof.
  intros [[U ?] _] [= <-] (r0 & -> & Hr0)%list_elem_of_fmap. apply elem_select in Hr0 as [Hin Hc].
  exists r0. change (Item.item_id (claim_row now w lease r0)) with (Item.item_id r0).
  split; [by apply (row_at_elem Item.item_id)|]. split; [done|].
  apply bool_decide_eq_true, list_elem_of_fmap in Hc as (x & Hid & Hx).
  apply claim_candidate_runnable in Hx as (Hxs & _ & Hrun & _).
  assert (x = r0) as -> by (eapply (NoDup_map_inj Item.item_id); eauto).
  unfold runnable in Hrun. by destruct (Item.status r0).
Qed.

Lemma failed_row_status class_name cfg t s item r exc d delay : wk_max_attempts cfg <= Item.attempts item ->
  Item.status (failed_item_row class_name cfg t s item r exc d delay) = BatchItemStatus.FAILED.
Proof.
  intros Hle. unfold failed_item_row, retry_terminal_reason.
  rewrite (proj2 (Z.leb_le _ _) Hle). by destruct (negb (retryable d)).
Qed.

Lemma failed_row_attempts class_name cfg t s item r exc d delay :
  Item.attempts (failed_item_row class_name cfg t s item r exc d delay) = Item.attempts r.
Proof. unfold failed_item_row. by repeat case_match. Qed.

(** What a round does to the item, seen from the row before it. *)
Lemma failed_round_row max_attempts id s s' : items_ok s -> failed_round max_attempts id s s' ->
  items_ok s' /\ exists r0 r', (exists s1, rtc items_step s s1 /\ item_row id s1 = Some r0) /\
    BatchItemStatus.terminal_item (Item.status r0) = false /\ item_row id s' = Some r' /\
    Item.attempts r0 < Item.attempts r' /\ (max_attempts <= Item.attempts r' -> Item.status r' = BatchItemStatus.FAILED).
Proof.
  intros Hok Hr. destruct Hr as [S exec repr digest dumps parsedate class_name cfg draw now held batch limit_ lease
    t b g exc s s1 claimed r s2 r2 c c' s3 Hmax Hs1 Hcl Hin Hid Hs2 Hr2 Hown Hrec].
  apply handled_recorded in Hrec as [delay ->]. set (d := classify_batch_retry parsedate (fc_now t) exc).
  assert (Hok1 : items_ok s1) by (by eapply items_ok_steps).
  destruct (claimed_row _ _ _ _ _ _ _ _ _ Hok1 Hcl Hin) as (r0 & Hr0 & Hreq & Hterm). rewrite Hid in Hr0.
  assert (Hok2 : items_ok s2).
  { eapply items_ok_steps; [|exact Hok1]. eapply rtc_l; [apply claim_items_step|exact Hs2]. }
  assert (Hok3 : items_ok (fst (record_failure class_name cfg t b r exc d delay s2)))
    by (eapply items_ok_steps; [apply record_failure_steps|done]).
  split; [done|]. rewrite <- Hid in Hr2.
  pose proof (record_failure_spec class_name cfg t b r r2 exc d delay s2 Hok2 Hr2) as Hspec. cbv zeta in Hspec.
  rewrite Hid, Hown in Hspec. destruct (record_failure _ _ _ _ _ _ _ _ s2) as [s3 res].
  destruct Hspec as (_ & _ & Hrow & _). exists r0. eexists. split; [by exists s1|]. split; [done|]. split; [exact Hrow|].
  assert (Hatt : Item.attempts r2 = Item.attempts r).
  { apply owned_spec in Hown as (_ & _ & Hep & _).
    assert (Hrok : forall x s0 i, items_ok s0 -> item_row i s0 = Some x -> Item.attempts x = Item.claim_epoch x).
    { intros x s0 i [_ Hall] Hx. apply item_row_id in Hx as [Hx _]. rewrite Forall_forall in Hall. by apply Hall. }
    rewrite (Hrok r2 s2 _ Hok2 Hr2), Hep, Hreq. simpl. by rewrite (Hrok r0 s1 id Hok1 Hr0). }
  rewrite failed_row_attempts, Hatt. split; [rewrite Hreq; simpl; lia|].
  intros Hle. apply failed_row_status. by rewrite Hmax.
Qed.

Lemma failed_rounds_row max_attempts id n s s' : items_ok s -> nsteps (failed_round max_attempts id) n s s' ->
  items_ok s' /\
  (n = 0%nat \/ Z.of_nat n <= Z.max 1 max_attempts /\
     exists r, item_row id s' = Some r /\ Z.of_nat n <= Item.attempts r /\
       (max_attempts <= Item.attempts r -> Item.status r = BatchItemStatus.FAILED)).
Proof.
  intros Hok. revert s'. induction n as [|n IH]; intros s' Hsteps.
  { inversion Hsteps; subst. by split; [|left]. }
  apply nsteps_inv_r in Hsteps as (y & Hy & Hround). destruct (IH y Hy) as [Hoky Hn]. clear IH.
  destruct (failed_round_row _ _ _ _ Hoky Hround) as (Hok' & r0 & r' & (s1 & Hs1 & Hr0) & Hterm & Hr' & Hlt & Hf).
  split; [done|]. right.
  assert (H0 : 0 <= Item.attempts r0 /\ (n = 0%nat \/ Z.of_nat n <= Item.attempts r0 /\ Z.of_nat n < max_attempts)).
  { pose proof (items_ok_steps _ _ Hs1 Hoky) as Hok1. apply item_row_id in Hr0 as Hin.
    destruct Hok1 as [_ Hall]. rewrite Forall_forall in Hall. destruct (Hall r0 (proj1 Hin)) as (Ha & He & _).
    split; [lia|]. destruct Hn as [->|(Hle & r & Hr & Hna & Hfr)]; [by left|right].
    destruct (items_steps_row (fun x => Item.attempts r <= Item.attempts x) y s1 id r) as (x & Hx & Hge);
      [|done|by apply Hoky|done|lia|].
    { intros x x' Hx Hxx. destruct Hxx; simpl; lia. }
    assert (x = r0) as -> by congruence. split; [lia|].
    destruct (decide (max_attempts <= Item.attempts r)) as [Hm|]; [|lia].
    exfalso. rewrite (terminal_row_stays y s1 id r Hoky Hs1 Hr) in Hr0 by (by rewrite (Hfr Hm)).
    injection Hr0 as <-. by rewrite (Hfr Hm) in Hterm. }
  split; [lia|]. exists r'. split_and!; [done|lia|done].
Qed.

(** C31: an item that keeps failing is failed for good: however its failures
    interleave with the rest of the system, with retries, lost leases and
    reclaims, [max_attempts] of them (one when that is less than one) are
    recorded at most, and once that many are, its row is [failed].  The first
    attempt is one of them: docs/features/batching.md says both that an item is
    retried up to that many times, which would allow one failure more, and that
    it is retried until it reaches that many attempts, which is what the code
    does.  Only failures whose handler returns count.  A handler that raises,
    because the back-off of a retryable failure leaves the range of floats or
    because a statement of it fails, leaves the item to the expiry of its lease
    ([overflowing_failure_unrecorded]); nothing bounds how often that happens. *)
Theorem failing_item_terminates max_attempts id n s s' :
  items_ok s -> nsteps (failed_round max_attempts id) (S n) s s' ->
  Z.of_nat (S n) <= Z.max 1 max_attempts /\
  exists r, item_row id s' = Some r /\
    (max_attempts <= Z.of_nat (S n) -> Item.status r = BatchItemStatus.FAILED).
Proof.
  intros Hok Hs. destruct (failed_rounds_row _ _ _ _ _ Hok Hs) as (_ & [?|(Hle & r & Hr & Hn & Hf)]); [done|].
  split; [done|]. exists r. split; [done|]. intros. apply Hf. lia.
Qed.

(** ** Persisting completions *)

(** Every item of the call is completed and has its outbox row. *)
Definition all_done (l : list item_completion) (s : db) : Prop :=
  forall i, i ∈ l -> exists it r, item_row (icp_item_id i) s = Some it /\ Item.status it = BatchItemStatus.COMPLETED /\
    r ∈ outbox s /\ Outbox.item_id r = icp_item_id i.

Lemma same_set_spec l ids : same_set l ids = true -> forall x, x ∈ ids -> x ∈ l.
Proof.
  unfold same_set. rewrite andb_true_iff, !forallb_forall. intros [_ H] x Hx.
  apply list_elem_of_In in Hx. exact (bool_decide_eq_true_1 _ (H x Hx)).
Qed.

Lemma elem_joined {R} (key : R -> string) ids (t : list R) (r : R) :
  r ∈ flat_map (fun r => map (fun _ => r) (List.filter (String.eqb (key r)) ids)) t -> r ∈ t.
Proof.
  rewrite !list_elem_of_In, in_flat_map. intros (x & Hx & Hr). apply in_map_iff in Hr as (y & -> & _). done.
Qed.

Lemma elem_list_by_item_ids ids s r : r ∈ list_by_item_ids ids s -> r ∈ outbox s.
Proof.
  unfold list_by_item_ids. destruct ids as [|i0 ids]; [by intros ?%not_elem_of_nil|].
  rewrite order_by_perm. apply elem_joined.
Qed.

Lemma elem_list_items_by_ids ids s r : r ∈ list_items_by_ids ids s -> r ∈ items s.
Proof.
  unfold list_items_by_ids. destruct ids as [|i0 ids]; [by intros ?%not_elem_of_nil|].
  rewrite order_by_perm. apply elem_joined.
Qed.

(** The [already_completed] answer is right. *)
Lemma already_completed_done l s : unique_keys (items s) ->
  same_set (map Item.item_id (List.filter (fun r => bool_decide (Item.status r = BatchItemStatus.COMPLETED))
             (list_items_by_ids (map icp_item_id l) s))) (map icp_item_id l) = true ->
  same_set (map Outbox.item_id (list_by_item_ids (map icp_item_id l) s)) (map icp_item_id l) = true ->
  all_done l s.
Proof.
  intros [U _] H1 H2 i Hi.
  assert (Hid : icp_item_id i ∈ map icp_item_id l) by (by apply list_elem_of_fmap_2).
  pose proof (same_set_spec _ _ H1 _ Hid) as (it & Hit & Hin)%list_elem_of_fmap.
  pose proof (same_set_spec _ _ H2 _ Hid) as (r & Hr & Hrin)%list_elem_of_fmap.
  apply list_elem_of_In, filter_In in Hin as [Hin Hst]. apply list_elem_of_In, elem_list_items_by_ids in Hin.
  apply elem_list_by_item_ids in Hrin. exists it, r. split_and!; [|by apply (bool_decide_eq_true_1 _)|done|done].
  rewrite Hit. by apply (row_at_elem Item.item_id).
Qed.

Section persist.
Context (cfg : BatchWorkerConfig) (l : list item_completion).
Context (Hids : NoDup (map icp_item_id l)) (Hne : l <> []).

(** One attempt without faults: the answers mean what they say. *)
Lemma complete_answers now held uuid4 s : unique_keys (items s) ->
  let '(s', r) := complete_items_with_outbox_bulk now held uuid4 l (Some (wk_worker_id cfg)) s in
  (s' = s \/ all_done l s') /\
  match r with Ret (R_completed | R_already_completed) => all_done l s' | _ => True end.
Proof.
  intros U. pose proof (complete_spec now held uuid4 l (Some (wk_worker_id cfg)) s U Hids) as Hspec. cbv zeta in Hspec.
  destruct (complete_items_with_outbox_bulk now held uuid4 l (Some (wk_worker_id cfg)) s) as [s' r] eqn:E.
  cbn [fst snd] in Hspec.
  assert (Hdone : (exists rows, Forall (completable held (wk_worker_id cfg) s) (map icp_completion l) /\
      items s' = update_where (id_in (map icp_item_id l)) (complete_from now (map icp_completion l)) (items s) /\
      outbox s' = outbox s ++ rows /\
      Forall2 (fun i r => Outbox.item_id r = icp_item_id i) l rows) -> all_done l s').
  { intros (rows & Hcan & Ei & Eo & Hrows) i Hi. rewrite Forall_forall in Hcan.
    destruct (Hcan (icp_completion i)) as (e & r0 & _ & Hr & _); [by apply list_elem_of_fmap_2|].
    change (cm_item_id (icp_completion i)) with (icp_item_id i) in Hr.
    assert (Hrow : item_row (icp_item_id i) s' = Some (complete_from now (map icp_completion l) r0)).
    { unfold item_row. rewrite Ei, (row_at_update Item.item_id).
      2:{ intros x. unfold complete_from. by destruct (payload_for _ _). }
      unfold item_row in Hr. rewrite Hr. cbn. apply row_at_key in Hr as [_ Hid]. unfold id_in.
      rewrite bool_decide_eq_true_2; [done|]. rewrite Hid. by apply list_elem_of_fmap_2. }
    apply row_at_key in Hr as [_ Hid].
    destruct (payload_for_some (Item.item_id r0) (map icp_completion l) (icp_completion i)) as [c Hc];
      [by apply list_elem_of_fmap_2|done|].
    apply list_elem_of_lookup in Hi as [k Hk]. destruct (Forall2_lookup_l _ _ _ _ _ Hrows Hk) as (r1 & Hr1 & Hrid).
    exists (complete_from now (map icp_completion l) r0), r1. split_and!; [done| | |done].
    - unfold complete_from. by rewrite Hc.
    - rewrite Eo. apply elem_of_app. right. by eapply list_elem_of_lookup_2. }
  destruct Hspec as [->|(w & rows & Hw & Hcan & -> & Ei & Eo & _ & _ & _ & _ & Hrows)].
  2: { injection Hw as <-. assert (all_done l s') by (apply Hdone; exists rows; split_and!; [done..|];
         eapply Forall2_impl; [exact Hrows|]; simpl; tauto). tauto. }
  split; [by left|]. revert E. unfold complete_items_with_outbox_bulk.
  destruct l as [|i0 l0] eqn:El; [done|]. rewrite <- El in *. unfold transaction, run_in_current_repo, mbind, st_bind, mret, st_ret.
  assert (Hm : map cm_item_id (map icp_completion l) = map icp_item_id l) by (by rewrite map_map).
  destruct (bulk_completion_spec now held (map icp_completion l) (Some (wk_worker_id cfg)) s U)
    as [E|(w & [= <-] & Hc & E)]; [by rewrite Hm|by rewrite El|rewrite E|rewrite E].
  - intros [= <-]. destruct (_ && _) eqn:Es; [|done]. apply andb_true_iff in Es as [E1 E2].
    by apply already_completed_done.
  - destruct (enqueue_many _ _ _ _) as [s1 [ids|e]] eqn:Eq; [|by intros [= <-]].
    destruct (Nat.eqb _ _); [|by intros [= <-]]. intros [= -> <-]. exfalso.
    (* the rows have left in_progress *)
    assert (Hi : items s = update_where (id_in (map cm_item_id (map icp_completion l)))
                   (complete_from now (map icp_completion l)) (items s)).
    { rewrite enqueue_many_rows in Eq by (by rewrite El).
      destruct (insert_outbox _ _) as [[t ids']|e]; [|done].
      injection Eq as Eq _. rewrite <- Eq at 1. done. }
    rewrite Forall_forall in Hc. destruct (Hc (icp_completion i0)) as (e & r0 & _ & Hr & Ho & _).
    { rewrite El. left. }
    assert (Hrow : item_row (cm_item_id (icp_completion i0)) s = Some (complete_from now (map icp_completion l) r0)).
    { unfold item_row at 1. rewrite Hi, (row_at_update Item.item_id).
      2:{ intros x. unfold complete_from. by destruct (payload_for _ _). }
      unfold item_row in Hr. rewrite Hr. cbn. unfold id_in.
      rewrite bool_decide_eq_true_2; [done|]. rewrite (proj2 (row_at_key _ _ _ _ Hr)), El. left. }
    apply owned_spec in Ho as (Hid & _ & _ & Hst). rewrite Hr in Hrow. injection Hrow as Hrow.
    destruct (payload_for_some (Item.item_id r0) (map icp_completion l) (icp_completion i0)) as [c Hpc];
      [rewrite El; left|done|].
    unfold complete_from in Hrow. rewrite Hpc in Hrow. rewrite Hrow in Hst. discriminate Hst.
Qed.
(** One attempt under any fault. *)
Lemma attempt_answers a s : unique_keys (items s) ->
  let '(s', r) := with_fault (at_fault a)
    (complete_items_with_outbox_bulk (at_now a) (at_held a) (at_uuid4 a) l (Some (wk_worker_id cfg))) s in
  unique_keys (items s') /\ (s' = s \/ all_done l s') /\
  match r with Ret (R_completed | R_already_completed) => all_done l s' | _ => True end.
Proof.
  intros U. pose proof (complete_answers (at_now a) (at_held a) (at_uuid4 a) s U) as Hc.
  pose proof (complete_is_step (at_now a) (at_held a) (at_uuid4 a) l (Some (wk_worker_id cfg)) s U) as [U' _].
  unfold with_fault, transaction.
  destruct (complete_items_with_outbox_bulk _ _ _ l _ s) as [s' [b|e]]; destruct Hc as [Hs Hr];
    destruct (at_fault a); cbn [fst]; tauto.
Qed.

Lemma attempts_answers attempts s : unique_keys (items s) ->
  let '(s', r) := persist_attempts cfg l attempts s in
  unique_keys (items s') /\ (s' = s \/ all_done l s') /\
  match r with Ret (Some true) => all_done l s' | Ret _ => True | Raise _ => False end.
Proof.
  revert s. induction attempts as [|a attempts IH]; intros s U; [cbn; tauto|]. cbn [persist_attempts].
  pose proof (attempt_answers a s U) as Ha.
  destruct (with_fault _ _ s) as [s1 [[| |]|e]]; destruct Ha as (U1 & Hs & Hr); try tauto.
  specialize (IH s1 U1). destruct (persist_attempts cfg l attempts s1) as [s2 r].
  destruct IH as (U2 & Hs2 & Hr2). split_and!; [done| |done].
  destruct Hs2 as [->|]; [done|by right].
Qed.

(** What a release may do to a row: put an item its worker still runs back in
    the queue. *)
Definition requeued (s s' : db) : Prop :=
  outbox s' = outbox s /\
  forall id, item_row id s' = item_row id s \/
    exists r e, item_row id s = Some r /\ id ∈ map icp_item_id l /\ owned id (wk_worker_id cfg) e r = true /\
      item_row id s' = Some (retry_row None None None r).

Lemma requeued_refl s : requeued s s.
Proof. split; [done|]. by left. Qed.

Lemma release_requeues now s :
  requeued s (fst (release_items_for_retry now (map icp_item_id l) (wk_worker_id cfg) 0 None None
    (Some (item_claim_epochs l)) s)).
Proof.
  unfold release_items_for_retry. destruct (map icp_item_id l) as [|i0 ids] eqn:El; [apply requeued_refl|].
  rewrite <- El. destruct (existsb _ _); [apply requeued_refl|]. cbv zeta. split; [done|]. intros id.
  unfold update_items. cbn [fst]. rewrite item_row_update by done.
  destruct (item_row id s) as [r|] eqn:Er; [|by left]. cbn.
  destruct (owned_any _ _ _ r && _) eqn:E; [right|by left]. apply andb_true_iff in E as [E _].
  apply andb_true_iff in E as [E1%bool_decide_eq_true_1 E2]. apply item_row_id in Er as [_ Hid].
  destruct (item_claim_epochs l !! Item.item_id r) as [e|]; [|done]. exists r, e. rewrite <- Hid. done.
Qed.

Lemma requeued_done s s' : requeued s s' -> all_done l s -> all_done l s'.
Proof.
  intros [Ho Hr] Hd i Hi. destruct (Hd i Hi) as (it & r & Hit & Hst & Hrin & Hrid).
  destruct (Hr (icp_item_id i)) as [E|(r0 & e & Hr0 & _ & Hown & _)]; [exists it, r; by rewrite E, Ho|].
  apply owned_spec in Hown as (_ & _ & _ & Hp). congruence.
Qed.

(** Persisting a group of completions is all or nothing, whatever the
    database does to the two attempts and to the release: the call always
    returns; it answers true only when every item is completed and has its
    outbox row; and in the end either that is so, or no outbox row was written
    and every item is as it was or, while this worker still owned it, back in
    the queue. *)
Theorem persist_all_or_nothing first second now f s :
  unique_keys (items s) ->
  let '(s', r) := persist_completion_rows_with_outbox cfg first second now f l s in
  exists b, r = Ret b /\ (b = true -> all_done l s') /\ (all_done l s' \/ requeued s s').
Proof.
  intros U. unfold persist_completion_rows_with_outbox, mbind at 1, st_bind.
  pose proof (attempts_answers [first; second] s U) as Ha.
  destruct (persist_attempts cfg l [first; second] s) as [s1 [[b|]|e]]; destruct Ha as (U1 & Hs & Hr); [| |done].
  - cbn. exists b. split; [done|]. split; [by destruct b|].
    destruct Hs as [->|]; [right; apply requeued_refl|by left].
  - pose proof (release_requeues now s1) as Hrel. unfold try_except, mbind, st_bind, mret, st_ret.
    assert (Hw : requeued s1 (fst (with_fault f (release_items_for_retry now (map icp_item_id l) (wk_worker_id cfg) 0
               None None (Some (item_claim_epochs l))) s1))).
    { apply (with_fault_keeps (requeued s1)); [apply requeued_refl|done]. }
    destruct (with_fault f _ s1) as [s2 [ids|e]]; cbn [fst] in Hw; exists false;
      (split; [done|]; split; [done|]); (destruct Hs as [->|Hd]; [by right|left; by eapply requeued_done]).
Qed.
End persist.

(** *** Examples *)

#[local] Existing Instances no_server no_repr.

Lemma failure_outcome_witness :
  let t := 120 * usec in
  let cfg := mkWorkerConfig "b" 60 2 5 300 2 false in
  let item := sample_row "1" sample_reclaimed in
  let c := init_coordinator (None : option (connection unit)) true 5 60 in
  let w := fst (handle_failure (fun s => s) (fun _ _ _ => ""%string) (fun _ => None)
             (fun _ => "E") cfg (fun a _ => a) (mkFailureClock t t t t) "batch" item None EAsyncioTimeout (sample_reclaimed, c)) in
  Item.status item = BatchItemStatus.IN_PROGRESS /\
  item_row "1" (fst w) = Some (failed_item_row (fun _ => "E") cfg (mkFailureClock t t t t) sample_reclaimed item item EAsyncioTimeout
     (reject_as C_UNKNOWN) 0).
Proof.
  intros t cfg item c w. split; [vm_compute; reflexivity|].
  pose proof (failure_outcome (fun s => s) (fun _ _ _ => ""%string) (fun _ => None)
             (fun _ => "E") cfg (fun a _ => a) (mkFailureClock t t t t) "batch" item None EAsyncioTimeout sample_reclaimed c item
             sample_reclaimed_ok ltac:(vm_compute; reflexivity)) as Hthm.
  cbv zeta in Hthm. unfold w. destruct (handle_failure _ _ _ _ _ _ _ _ _ _ _ _) as [w' res].
  destruct Hthm as (_ & _ & Hrow & _). exact Hrow.
Defined.

Lemma persist_all_or_nothing_witness :
  let s := bill2 in
  let l := [sample_item_completion "0" 1; sample_item_completion "1" 1] in
  let a f := mkAttempt (2 * usec) nothing_held (fun n => "c" ++ sample_uuid n)%string f in
  let s' := fst (persist_completion_rows_with_outbox (mkWorkerConfig "a" 60 3 5 300 2 false)
                   (a (AckLost EAsyncioTimeout)) (a NoFault) (3 * usec) NoFault l s) in
  map Item.status (items s') = [BatchItemStatus.COMPLETED; BatchItemStatus.COMPLETED] /\ all_done l s'.
Proof.
  cbv zeta. split; [vm_compute; reflexivity|].
  set (cfg := mkWorkerConfig _ _ _ _ _ _ _). set (l := [_; _]). set (a1 := mkAttempt _ _ _ (AckLost _)).
  set (a2 := mkAttempt _ _ _ NoFault).
  assert (U : unique_keys (items bill2)).
  { split_and!; apply (bool_decide_unpack _); vm_compute; exact I. }
  pose proof (persist_all_or_nothing cfg l ltac:(apply (bool_decide_unpack _); vm_compute; exact I) ltac:(discriminate)
    a1 a2 (3 * usec) NoFault bill2 U) as H.
  assert (Hb : snd (persist_completion_rows_with_outbox cfg a1 a2 (3 * usec) NoFault l bill2) = Ret true)
    by (vm_compute; reflexivity).
  destruct (persist_completion_rows_with_outbox _ _ _ _ _ _ _) as [s' r]. cbn [fst snd] in *.
  destruct H as (b & Hr & Hd & _). apply Hd. congruence.
Defined.

(** Item "1", claimed by "b" for its second attempt, fails. *)
Definition failing_config (max_attempts : Z) (multiplier : Q) : BatchWorkerConfig :=
  mkWorkerConfig "b" 60 max_attempts 5 300 multiplier false.
Definition claimed_sample : db := fst (claim_items (100 * usec) nothing_held "batch" "b" 5 60 sample_db).
Definition fail_sample (cfg : BatchWorkerConfig) : (db * coordinator unit) * res exn unit :=
  let t := 110 * usec in
  handle_failure (fun s => s) (fun _ _ _ => ""%string) (fun _ => None) (fun _ => "E") cfg (fun a _ => a)
    (mkFailureClock t t t t) "batch" (sample_row "1" claimed_sample) None (EHttp OtherTimeout "slow")
    (claimed_sample, init_coordinator None true 5 60).

(** Its second attempt is the last of two: the failure is recorded for good,
    unless the back-off overflows, which is computed first: then nothing is
    recorded and the item stays in progress. *)
Example overflowing_failure_unrecorded :
  let '((s, _), r) := fail_sample (failing_config 2 (inject_Z (10 ^ 308))) in
  r = Raise (exn_of_pyexc OverflowError) /\ s = claimed_sample /\
  Item.attempts (sample_row "1" s) = 2 /\ Item.status (sample_row "1" s) = BatchItemStatus.IN_PROGRESS /\
  Item.status (sample_row "1" (fst (fst (fail_sample (failing_config 2 2))))) = BatchItemStatus.FAILED.
Proof. vm_compute. by split_and!. Qed.

Lemma failing_item_terminates_witness :
  exists r, item_row "1" (fst (fst (fail_sample (failing_config 1 2)))) = Some r /\
    (1 <= 1 -> Item.status r = BatchItemStatus.FAILED).
Proof.
  set (w := fail_sample (failing_config 1 2)).
  assert (Hround : failed_round 1 "1" sample_db (fst (fst w))).
  { apply (failed_round_intro 1 "1" unit _ _ (fun s => s) (fun _ _ _ => ""%string) (fun _ => None)
      (fun _ => "E") (failing_config 1 2) (fun a _ => a) (100 * usec) nothing_held "batch" 5 60
      (mkFailureClock (110 * usec) (110 * usec) (110 * usec) (110 * usec)) "batch" None (EHttp OtherTimeout "slow")
      sample_db sample_db
      (map (claim_row (100 * usec) "b" 60) (select_where (id_in ["1"; "2"]) (items sample_db)))
      (sample_row "1" claimed_sample) claimed_sample (sample_row "1" claimed_sample)
      (init_coordinator None true 5 60) (snd (fst w)));
      [reflexivity|reflexivity|vm_compute; reflexivity| |vm_compute; reflexivity|reflexivity|vm_compute; reflexivity..].
    apply list_elem_of_lookup. exists 0%nat. vm_compute. reflexivity. }
  destruct (failing_item_terminates 1 "1" 0 sample_db (fst (fst w)) (sample_ok sample_ops)) as [_ H]; [|exact H].
  by apply nsteps_once.
Defined.
