(* ===== verification/BatchStorage.v ===== *)
(** * Batch artifact storage: src/batch/storage.py

    Lines of text as files: the stream of lines read back from chunks of bytes,
    and the local backend, which writes to a temporary file and renames it. *)

From S2P Require Import Prelude PyVal Errors BatchModels.

Abbreviation bytes := (list ascii).

Definition LF : ascii := "010".

(** ** UTF-8 of code points below 256 *)

Definition encode_char (a : ascii) : bytes :=
  let n := nat_of_ascii a in
  if (n <? 128)%nat then [a] else [ascii_of_nat (192 + n / 64); ascii_of_nat (128 + n mod 64)].
Definition encode (s : string) : bytes := flat_map encode_char (list_ascii_of_string s).

(** [None] is a [UnicodeDecodeError] (or a code point outside the model). *)
Fixpoint decode_list (b : bytes) : option (list ascii) :=
  match b with
  | [] => Some []
  | a :: b' =>
    let n := nat_of_ascii a in
    if (n <? 128)%nat then l ← decode_list b'; Some (a :: l)
    else if ((n =? 194) || (n =? 195))%nat then
      match b' with
      | c :: b'' =>
        let m := nat_of_ascii c in
        if ((128 <=? m) && (m <? 192))%nat
        then l ← decode_list b''; Some (ascii_of_nat ((n - 192) * 64 + (m - 128)) :: l)
        else None
      | [] => None
      end
    else None
  end.
Definition decode (b : bytes) : option string := string_of_list_ascii <$> decode_list b.

(** ** Reading lines *)

Inductive read_exc : Type :=
  | LineTooLong (line_number max_line_bytes : Z)
  | UnicodeDecodeError
  | ReadError (e : exn).

(** What a generator produced: the values it yielded and how it ended. *)
Record stream (A E : Type) : Type := mkStream { yielded : list A; ended : option E }.
Arguments mkStream {A E}.
Arguments yielded {A E}.
Arguments ended {A E}.

Definition yield {A E} (a : A) (s : stream A E) : stream A E := mkStream (a :: yielded s) (ended s).
Definition finish {A E} : stream A E := mkStream [] None.
Definition throw {A E} (e : E) : stream A E := mkStream [] (Some e).

(** [buffer.find(LF)] with what is before and after it. *)
Fixpoint cut_line (b : bytes) : option (bytes * bytes) :=
  match b with
  | [] => None
  | a :: b' => if Ascii.eqb a LF then Some ([], b') else '(l, rest) ← cut_line b'; Some (a :: l, rest)
  end.

Definition too_long (max_line_bytes : option Z) (line : bytes) : bool :=
  match max_line_bytes with Some m => m <? Z.of_nat (length line) | None => false end.

Definition too_long_error (max_line_bytes : option Z) (line_number : Z) : read_exc :=
  LineTooLong line_number (default 0 max_line_bytes).

(** The inner loop on a buffer: the lines it yields, then the rest of the
    buffer and the next line number go on to [k].  The buffer shrinks. *)
Fixpoint drain (fuel : nat) (max_line_bytes : option Z) (buffer : bytes) (line_number : Z)
    (k : bytes -> Z -> stream string read_exc) : stream string read_exc :=
  match fuel with
  | O => k buffer line_number
  | S f =>
    match cut_line buffer with
    | None => k buffer line_number
    | Some (raw_line, rest) =>
      if too_long max_line_bytes raw_line then throw (too_long_error max_line_bytes line_number)
      else match decode raw_line with
           | None => throw UnicodeDecodeError
           | Some s => yield s (drain f max_line_bytes rest (line_number + 1) k)
           end
    end
  end.

Fixpoint iter_lines_from (max_line_bytes : option Z) (chunks : list bytes) (buffer : bytes) (line_number : Z)
    : stream string read_exc :=
  match chunks with
  | [] =>
    match buffer with
    | [] => finish
    | _ => match decode buffer with Some s => yield s finish | None => throw UnicodeDecodeError end
    end
  | chunk :: chunks' =>
    let buffer := buffer ++ chunk in
    drain (length buffer) max_line_bytes buffer line_number (fun buffer line_number =>
      if too_long max_line_bytes buffer then throw (too_long_error max_line_bytes line_number)
      else iter_lines_from max_line_bytes chunks' buffer line_number)
  end.

Definition iter_lines (max_line_bytes : option Z) (chunks : list bytes) : stream string read_exc :=
  iter_lines_from max_line_bytes chunks [] 1.

(** [write_lines]: one chunk per line. *)
Definition line_chunks (lines : list string) : list bytes := map (fun line => encode (line +:+ String LF "")) lines.

Definition read_bytes (chunks : list bytes) : bytes := concat chunks.

(** ** The local backend *)

(** The files below the base directory. *)
Abbreviation files := (gmap string bytes).

(** [_build_sharded_storage_key], [stamp] and [uuid] rendered by the caller. *)
Fixpoint replace_slash (l : list ascii) : list ascii :=
  match l with
  | [] => []
  | a :: l' => (if Ascii.eqb a "/" then "_"%char else a) :: replace_slash l'
  end.
Definition safe_artifact_filename (filename : string) : string :=
  string_of_list_ascii (replace_slash (list_ascii_of_string filename)).
Definition build_sharded_storage_key (purpose day stamp uuid filename : string) : string :=
  purpose +:+ "/" +:+ day +:+ "/" +:+ stamp +:+ "-" +:+ uuid +:+ "-" +:+ safe_artifact_filename filename.

(** What the disk does: an error of the [n]-th write (opening included), and
    one of flushing, closing or renaming. *)
Record disk (E : Type) : Type := mkDisk { write_error : nat -> option E; finish_error : option E }.
Arguments mkDisk {E}.
Arguments write_error {E}.
Arguments finish_error {E}.

Section write.
Context {E : Type} (sha256 : bytes -> string).

(** The loop over the chunks: [None] for [data] until the file is open. *)
Fixpoint write_loop (d : disk E) (temp : string) (chunks : list bytes) (n : nat) (data : option bytes)
    : st files E (option bytes) :=
  match chunks with
  | [] => mret data
  | chunk :: chunks' =>
    match chunk with
    | [] => write_loop d temp chunks' n data
    | _ => fun fs =>
      let data' := default [] data ++ chunk in
      match write_error d n with
      | Some e => (<[temp := default [] data]> fs, Raise e)
      | None => write_loop d temp chunks' (n + 1) (Some data') (<[temp := data']> fs)
      end
    end
  end.

(** [LocalBatchArtifactStorage.write_chunks]; the generator of the chunks ends
    normally or with an exception. *)
Definition write_chunks (d : disk E) (key temp : string) (chunks : stream bytes E)
    : st files E (string * Z * string) := fun fs =>
  let body : st files E (string * Z * string) :=
    data ← write_loop d temp (yielded chunks) 0 None;
    match ended chunks with
    | Some e => raise e
    | None =>
      match (data : option bytes) with
      | None => mret (""%string, 0, sha256 [])
      | Some data =>
        match finish_error d with
        | Some e => raise e
        | None => _ ← modify (fun fs => <[key := data]> (delete temp fs));
                  mret (key, Z.of_nat (length data), sha256 data)
        end
      end
    end in
  match body fs with
  | (fs', Raise e) => (delete temp fs', Raise e)
  | (fs', Ret r) => (fs', Ret r)
  end.

(** [write_lines_stream] *)
Definition write_lines_stream (d : disk E) (key temp : string) (lines : stream string E)
    : st files E (string * Z * string) :=
  write_chunks d key temp (mkStream (line_chunks (yielded lines)) (ended lines)).
End write.

Definition delete_file_at (key : string) (fs : files) : files := delete key fs.

(** ** Lines do not depend on the chunks *)

(** The lines of a whole file. *)
Fixpoint file_lines (fuel : nat) (max_line_bytes : option Z) (b : bytes) (line_number : Z) : stream string read_exc :=
  match fuel with
  | O => finish
  | S f =>
    match cut_line b with
    | Some (raw_line, rest) =>
      if too_long max_line_bytes raw_line then throw (too_long_error max_line_bytes line_number)
      else match decode raw_line with
           | None => throw UnicodeDecodeError
           | Some s => yield s (file_lines f max_line_bytes rest (line_number + 1))
           end
    | None =>
      match b with
      | [] => finish
      | _ => if too_long max_line_bytes b then throw (too_long_error max_line_bytes line_number)
             else match decode b with Some s => yield s finish | None => throw UnicodeDecodeError end
      end
    end
  end.

Section lines.
Context (max_line_bytes : option Z) (max_ok : forall m, max_line_bytes = Some m -> 0 <= m).
Implicit Types (b rest : bytes) (n : Z).

Lemma cut_line_length b l rest : cut_line b = Some (l, rest) -> (length rest < length b)%nat.
Proof.
  revert l rest. induction b as [|a b IH]; intros l rest; simpl; [done|].
  destruct (Ascii.eqb a LF); [intros [= <- <-]; lia|]. destruct (cut_line b) as [[l' r']|]; simpl; [|done].
  intros [= <- <-]. specialize (IH l' r' eq_refl). lia.
Qed.

Lemma cut_line_app b b' l rest : cut_line b = Some (l, rest) -> cut_line (b ++ b') = Some (l, rest ++ b').
Proof.
  revert l rest. induction b as [|a b IH]; intros l rest; simpl; [done|].
  destruct (Ascii.eqb a LF); [by intros [= <- <-]|]. destruct (cut_line b) as [[l' r']|]; simpl; [|done].
  intros [= <- <-]. by rewrite (IH l' r').
Qed.

(** Without a line end in the buffer the first line only gets longer. *)
Lemma cut_line_none_app b b' : cut_line b = None ->
  cut_line (b ++ b') = '(l, rest) ← cut_line b'; Some (b ++ l, rest).
Proof.
  induction b as [|a b IH]; simpl; [by destruct (cut_line b') as [[??]|]|].
  destruct (Ascii.eqb a LF); [done|]. destruct (cut_line b) as [[??]|]; [done|]. intros _.
  rewrite IH by done. by destruct (cut_line b') as [[??]|].
Qed.

Lemma too_long_app b b' : too_long max_line_bytes b = true -> too_long max_line_bytes (b ++ b') = true.
Proof. unfold too_long. destruct max_line_bytes; [|done]. rewrite length_app, !Z.ltb_lt. lia. Qed.

(** More fuel than bytes changes nothing. *)
Lemma file_lines_fuel f f' b n : (length b < f)%nat -> (length b < f')%nat ->
  file_lines f max_line_bytes b n = file_lines f' max_line_bytes b n.
Proof.
  revert f' b n. induction f as [|f IH]; intros f' b n Hf Hf'; [lia|]. destruct f' as [|f']; [lia|]. simpl.
  destruct (cut_line b) as [[l rest]|] eqn:E; [|done]. apply cut_line_length in E.
  destruct (too_long _ _); [done|]. destruct (decode l); [|done]. f_equal. apply IH; lia.
Qed.

Definition lines_of b n : stream string read_exc := file_lines (S (length b)) max_line_bytes b n.

Lemma lines_of_cut b l rest n : cut_line b = Some (l, rest) ->
  lines_of b n = if too_long max_line_bytes l then throw (too_long_error max_line_bytes n)
                 else match decode l with
                      | None => throw UnicodeDecodeError
                      | Some s => yield s (lines_of rest (n + 1))
                      end.
Proof.
  intros E. unfold lines_of at 1. cbn [file_lines]. rewrite E. destruct (too_long _ _); [done|].
  destruct (decode l); [|done]. f_equal. apply cut_line_length in E. apply file_lines_fuel; lia.
Qed.

(** A line that is too long already in part. *)
Lemma lines_of_too_long b b' n : cut_line b = None -> too_long max_line_bytes b = true ->
  lines_of (b ++ b') n = throw (too_long_error max_line_bytes n).
Proof.
  intros Hc Ht. unfold lines_of. cbn [file_lines]. rewrite (cut_line_none_app b b' Hc).
  destruct (cut_line b') as [[l rest]|]; simpl; [by rewrite too_long_app|].
  destruct (b ++ b') eqn:E; [|by rewrite <- E, too_long_app].
  apply app_eq_nil in E as [-> _]. exfalso. revert Ht. unfold too_long. destruct max_line_bytes as [m|]; [|done].
  specialize (max_ok m eq_refl). rewrite Z.ltb_lt. simpl. lia.
Qed.

Lemma drain_lines fuel b b' n k : (length b <= fuel)%nat ->
  (forall buf n, cut_line buf = None -> k buf n = lines_of (buf ++ b') n) ->
  drain fuel max_line_bytes b n k = lines_of (b ++ b') n.
Proof.
  intros Hf Hk. revert b n Hf. induction fuel as [|f IH]; intros b n Hf; cbn [drain].
  - destruct b; [|simpl in Hf; lia]. by apply Hk.
  - destruct (cut_line b) as [[l rest]|] eqn:E; [|by apply Hk].
    rewrite (lines_of_cut (b ++ b') l (rest ++ b')) by (by apply cut_line_app).
    destruct (too_long _ _); [done|]. destruct (decode l); [|done]. f_equal.
    apply IH. apply cut_line_length in E. lia.
Qed.

Lemma iter_lines_from_lines chunks b n : cut_line b = None -> too_long max_line_bytes b = false ->
  iter_lines_from max_line_bytes chunks b n = lines_of (b ++ concat chunks) n.
Proof.
  revert b n. induction chunks as [|c chunks IH]; intros b n Hc Ht; cbn [iter_lines_from concat].
  - rewrite app_nil_r. unfold lines_of. cbn [file_lines]. rewrite Hc, Ht. by destruct b.
  - rewrite app_assoc. apply drain_lines; [done|]. intros buf m Hb.
    destruct (too_long max_line_bytes buf) eqn:E; [by rewrite lines_of_too_long|by apply IH].
Qed.

(** *** Files written line by line *)

Lemma cut_line_no_LF b b' : LF ∉ b -> cut_line (b ++ LF :: b') = Some (b, b').
Proof.
  induction b as [|a b IH]; simpl; [done|]. intros (Hne & Hn)%not_elem_of_cons.
  destruct (Ascii.eqb_spec a LF) as [->|_]; [done|]. by rewrite IH.
Qed.
End lines.

(** All 256 code points survive encoding. *)
Lemma decode_encode_char a l : decode_list (encode_char a ++ l) = (l' ← decode_list l; Some (a :: l')).
Proof. destruct a as [[] [] [] [] [] [] [] []]; reflexivity. Qed.

Lemma decode_encode s : decode (encode s) = Some s.
Proof.
  unfold decode, encode. assert (H : forall l, decode_list (flat_map encode_char l) = Some l).
  { induction l as [|a l IH]; [done|]. cbn [flat_map]. by rewrite decode_encode_char, IH. }
  rewrite H. simpl. by rewrite string_of_list_ascii_of_string.
Qed.

Lemma encode_no_LF s : LF ∉ list_ascii_of_string s -> LF ∉ encode s.
Proof.
  unfold encode. induction (list_ascii_of_string s) as [|a l IH]; [done|]. cbn [flat_map].
  rewrite not_elem_of_cons, not_elem_of_app. intros [Ha Hl]. split; [|by apply IH].
  destruct a as [[] [] [] [] [] [] [] []]; (try by destruct Ha); apply (bool_decide_unpack _); vm_compute; exact I.
Qed.

Lemma encode_app s t : encode (s +:+ t) = encode s ++ encode t.
Proof.
  unfold encode. induction s as [|a s IH]; [done|].
  change (list_ascii_of_string (String a s +:+ t)) with (a :: list_ascii_of_string (s +:+ t)).
  cbn [list_ascii_of_string flat_map]. by rewrite <- app_assoc, IH.
Qed.

(** Reading an artifact line by line does not depend on how the storage cuts
    the file into chunks: whatever the chunks, [iter_lines] yields the lines of
    the file, the last one even without a line end, and stops with the number
    of the first line that is too long or undecodable. *)
Theorem iter_lines_chunk_independent max_line_bytes chunks :
  (forall m, max_line_bytes = Some m -> 0 <= m) ->
  iter_lines max_line_bytes chunks = lines_of max_line_bytes (read_bytes chunks) 1.
Proof.
  intros Hm. unfold iter_lines. rewrite iter_lines_from_lines; [done|done|done|].
  unfold too_long. destruct max_line_bytes as [m|]; [|done]. specialize (Hm m eq_refl). apply Z.ltb_ge. simpl. lia.
Qed.

Lemma iter_lines_chunk_independent_witness :
  iter_lines (Some 3) (map encode ["ab"; String LF "c"; ""; "d"; String LF "efgh"]) =
  mkStream ["ab"; "cd"] (Some (LineTooLong 3 3)).
Proof.
  rewrite iter_lines_chunk_independent; [vm_compute; reflexivity|]. intros m [= <-]. lia.
Defined.

(** The file that [write_lines] makes of some lines. *)
Definition lines_file (lines : list string) : bytes := read_bytes (line_chunks lines).

Lemma lines_of_lines_file lines n : Forall (fun s => LF ∉ list_ascii_of_string s) lines ->
  lines_of None (lines_file lines) n = mkStream lines None.
Proof.
  intros Hl. revert n. induction Hl as [|s lines Hs _ IH]; intros n; [done|].
  assert (E : lines_file (s :: lines) = encode s ++ LF :: lines_file lines).
  { unfold lines_file, read_bytes, line_chunks. cbn [map concat]. rewrite encode_app. by rewrite <- app_assoc. }
  rewrite E, (lines_of_cut None (encode s ++ LF :: lines_file lines) (encode s) (lines_file lines));
    [|by apply cut_line_no_LF, encode_no_LF]. simpl. rewrite decode_encode, IH. done.
Qed.

(** What is written line by line is read back: every chunking of the file
    that [write_lines] makes yields exactly the lines written. *)
Theorem written_lines_read_back lines chunks :
  Forall (fun s => LF ∉ list_ascii_of_string s) lines -> read_bytes chunks = lines_file lines ->
  iter_lines None chunks = mkStream lines None.
Proof.
  intros Hl Hc. unfold iter_lines. rewrite iter_lines_from_lines by done. fold (read_bytes chunks). simpl.
  rewrite Hc. by apply lines_of_lines_file.
Qed.

Lemma written_lines_read_back_witness :
  iter_lines None [encode "a"; encode ("b" +:+ String LF "c"); encode (String LF "")] = mkStream ["ab"; "c"] None.
Proof.
  apply (written_lines_read_back ["ab"; "c"]); [|vm_compute; reflexivity].
  repeat constructor; apply (bool_decide_unpack _); vm_compute; exact I.
Defined.

(** ** Writing is all or nothing *)

Lemma write_loop_spec {E} (d : disk E) temp chunks n data fs : (forall x, data = Some x -> fs !! temp = Some x) -> 
  let '(fs', r) := write_loop d temp chunks n data fs in
  delete temp fs' = delete temp fs /\
  match r with
  | Ret None => data = None /\ read_bytes chunks = [] /\ fs' = fs
  | Ret (Some x) => x = default [] data ++ read_bytes chunks /\ (data = None -> read_bytes chunks <> [])
  | Raise _ => True
  end.
Proof.
  revert n data fs. induction chunks as [|c chunks IH]; intros n data fs Hd; simpl.
  { split; [done|]. destruct data; [by rewrite app_nil_r|done]. }
  destruct c as [|a c]; [by apply IH|].
  destruct (write_error d n); [split; [apply delete_insert_eq|done]|].
  specialize (IH (n + 1)%nat (Some (default [] data ++ a :: c)) (<[temp := default [] data ++ a :: c]> fs)).
  destruct (write_loop _ _ _ _ _ _) as [fs' r]. destruct IH as [Hdel Hr]; [intros x [= <-]; apply lookup_insert_eq|].
  rewrite delete_insert_eq in Hdel. split; [done|]. destruct r as [[x|]|e]; [|by destruct Hr|done].
  destruct Hr as [-> _]. simpl. by rewrite <- app_assoc.
Qed.

(** What [write_chunks] leaves, error or not. *)
Lemma write_chunks_spec {E} sha256 (d : disk E) key temp chunks fs :
  fs !! temp = None -> key <> temp ->
  let '(fs', r) := write_chunks sha256 d key temp chunks fs in
  let data := read_bytes (yielded chunks) in
  match r with
  | Raise _ => fs' = fs
  | Ret (k, size, checksum) =>
      ended chunks = None /\ size = Z.of_nat (length data) /\ checksum = sha256 data /\
      match data with [] => k = "" /\ fs' = fs | _ => k = key /\ fs' = <[key := data]> fs end
  end.
Proof.
  intros Ht Hne. unfold write_chunks, mbind at 1, st_bind at 1.
  pose proof (write_loop_spec d temp (yielded chunks) 0 None fs ltac:(done)) as Hw.
  assert (Hdel : delete temp fs = fs) by (by apply delete_id).
  destruct (write_loop _ _ _ _ _ fs) as [fs1 [data|e]]; destruct Hw as [Hd Hr]; rewrite Hdel in Hd.
  2: done.
  destruct (ended chunks); [done|]. destruct data as [x|].
  - destruct Hr as [-> Hne']. simpl. destruct (finish_error d); [done|].
    unfold mbind, st_bind, modify, mret, st_ret. rewrite Hd. split_and!; [done..|].
    destruct (read_bytes (yielded chunks)); [by destruct Hne'|done].
  - destruct Hr as (_ & -> & ->). done.
Qed.

(** An artifact is written completely or not at all: when the generator of
    its lines or the disk fails, the directory is as before, without a
    temporary file; otherwise the file holds exactly the bytes produced, and
    an empty artifact makes no file. *)
Theorem write_all_or_nothing {E} sha256 (d : disk E) key temp chunks fs :
  fs !! temp = None -> key <> temp ->
  let '(fs', r) := write_chunks sha256 d key temp chunks fs in
  let data := read_bytes (yielded chunks) in
  match r with
  | Raise _ => fs' = fs
  | Ret (k, size, checksum) =>
      ended chunks = None /\ size = Z.of_nat (length data) /\ checksum = sha256 data /\
      match data with [] => k = "" /\ fs' = fs | _ => k = key /\ fs' = <[key := data]> fs end
  end.
Proof. exact (write_chunks_spec sha256 d key temp chunks fs). Qed.

(** The [n]-th write fails. *)
Definition sample_disk (n : nat) : disk exn := mkDisk (fun i => if (i =? n)%nat then Some EAsyncioTimeout else None) None.
Definition sample_write (n : nat) : files * res exn (string * Z * string) :=
  write_chunks (fun _ => "sum") (sample_disk n) "k" "t" (mkStream (line_chunks ["a"; "b"]) None) ∅.

Lemma write_all_or_nothing_witness :
  snd (sample_write 1) = Raise EAsyncioTimeout /\ fst (sample_write 1) = ∅ /\
  fst (sample_write 7) = {["k" := lines_file ["a"; "b"]]}.
Proof.
  assert (E1 : snd (sample_write 1) = Raise EAsyncioTimeout) by (vm_compute; reflexivity).
  assert (E2 : snd (sample_write 7) = Ret ("k", 4, "sum")) by (vm_compute; reflexivity).
  split; [exact E1|].
  pose proof (write_all_or_nothing (fun _ => "sum") (sample_disk 1) "k" "t" (mkStream (line_chunks ["a"; "b"]) None) ∅
    ltac:(done) ltac:(done)) as H1.
  pose proof (write_all_or_nothing (fun _ => "sum") (sample_disk 7) "k" "t" (mkStream (line_chunks ["a"; "b"]) None) ∅
    ltac:(done) ltac:(done)) as H2.
  unfold sample_write in *. split.
  - destruct (write_chunks _ (sample_disk 1) _ _ _ ∅) as [fs r]. simpl in E1. by subst r.
  - destruct (write_chunks _ (sample_disk 7) _ _ _ ∅) as [fs r]. simpl in E2. subst r.
    destruct H2 as (_ & _ & _ & _ & H2). exact H2.
Defined.
