(* ===== verification/BatchArtifacts.v ===== *)
(** * Finalisation of a batch: src/batch/worker_artifacts.py

    The public rows a finished batch is written out as, the pages they are read
    by, the artifact files with their records ([src/batch/repositories/
    file_repository.py]), and the finalisation that publishes them: its
    clean-up after an error, permanent failures and retries. *)

From Stdlib Require Import Sorting.Sorted.
From stdpp Require Import sorting.
From S2P Require Import Prelude PyVal Errors BatchModels BatchDb Scheduling BatchItems BatchOutbox BatchBilling.
From S2P Require Import BatchJobs BatchStorage.

(** What finalisation raises. *)
Inductive fin_exc : Type :=
  | ArtifactValidation (message : string)
  | FinalizeError (e : exn).

Definition ENDPOINT_CHAT : string := "/v1/chat/completions".
Definition ENDPOINT_EMBEDDINGS : string := "/v1/embeddings".

(** ** Public rows *)

Section rows.
(** [repr] of a JSON value. *)
Context (py_repr : pyval -> string).
Implicit Types (item : Item.batch_item).

Definition validation_error {A} (message : string) : res fin_exc A := Raise (ArtifactValidation message).

Definition public_batch_row_id item : string := "batch_req_" +:+ Item.item_id item.
Definition public_batch_request_id item : string := "req_batch_" +:+ Item.item_id item.

(** [isinstance(v, str) and v.strip()] *)
Definition text_value (v : pyval) : option string :=
  match v with PyStr s => if Str.is_empty (Str.strip s) then None else Some s | _ => None end.

Definition setdefault (d : list (string * pyval)) (k : string) (v : pyval) : list (string * pyval) :=
  if dict_has d k then d else dict_set d k v.

Definition normalize_data_row (row_number : nat) (row : pyval) : pyval :=
  match row with
  | PyDict d => PyDict (dict_set (setdefault d "object" (PyStr "embedding")) "index" (PyInt (Z.of_nat row_number)))
  | _ => row
  end.

Definition normalize_persisted_embedding_response_body (response_body : list (string * pyval))
    (usage : list (string * pyval)) (api_provider : string) (model_fallback : option string)
    : list (string * pyval) :=
  let n := if is_none (vget response_body "object") then dict_set response_body "object" (PyStr "list") else response_body in
  let n := match vget n "data" with
           | PyList rows => dict_set n "data" (PyList (imap normalize_data_row rows))
           | _ => n
           end in
  let n := dict_set (dict_set n "usage" (PyDict usage)) "_provider" (PyStr api_provider) in
  match text_value (vget n "model") with
  | Some _ => n
  | None =>
    let fallback_model := Str.strip (default "" model_fallback) in
    if Str.is_empty fallback_model then n else dict_set n "model" (PyStr fallback_model)
  end.

Definition TOKEN_FIELDS : list string := ["prompt_tokens"; "completion_tokens"; "total_tokens"].

(** [type(v) is int and v >= 0] *)
Definition token_count (v : pyval) : bool := match v with PyInt n => 0 <=? n | _ => false end.

Definition normalized_embedding_usage_or_none (value : pyval) : option (list (string * pyval)) :=
  match value with
  | PyDict d => if forallb (fun f => token_count (vget d f)) TOKEN_FIELDS then Some d else None
  | _ => None
  end.

Definition normalized_chat_usage_or_none (value : pyval) : option (list (string * pyval)) :=
  match value with
  | PyDict d => if forallb (fun f => is_none (vget d f) || token_count (vget d f)) TOKEN_FIELDS then Some d else None
  | _ => None
  end.

(** The check of one token field; [optional] for chat. *)
Definition validate_token_field (what : string) (optional : bool) (d : list (string * pyval)) (field : string)
    : res fin_exc unit :=
  let v := vget d field in
  if optional && is_none v then Ret tt else
  match v with
  | PyInt n =>
    if n <? 0 then validation_error ("completed batch item " +:+ what +:+ " response usage has negative " +:+ field +:+ "=" +:+ py_repr v)
    else Ret tt
  | _ => validation_error ("completed batch item " +:+ what +:+ " response usage has invalid " +:+ field +:+ "=" +:+ py_repr v)
  end.

Definition validate_public_usage (what : string) (optional : bool) (value : pyval) : res fin_exc (list (string * pyval)) :=
  match value with
  | PyDict d =>
    _ ← validate_token_field what optional d "prompt_tokens";
    _ ← validate_token_field what optional d "completion_tokens";
    _ ← validate_token_field what optional d "total_tokens";
    Ret d
  | _ => validation_error ("completed batch item " +:+ what +:+ " response usage is not an object")
  end.
Definition validate_public_embedding_usage := validate_public_usage "embedding" false.
Definition validate_public_chat_usage := validate_public_usage "chat" true.

Definition public_embedding_model_fallback item : option string :=
  match Item.request_body item with
  | PyDict d =>
    match vget d "model" with
    | PyStr m => let m := Str.strip m in if Str.is_empty m then None else Some m
    | _ => None
    end
  | _ => None
  end.

(** The model of the row: the response's, or else the request's. *)
Definition ensure_model (what : string) item (d : list (string * pyval)) : res fin_exc (list (string * pyval)) :=
  let d := match text_value (vget d "model") with
           | Some _ => d
           | None => match public_embedding_model_fallback item with
                     | Some m => dict_set d "model" (PyStr m)
                     | None => d
                     end
           end in
  match text_value (vget d "model") with
  | Some _ => Ret d
  | None => validation_error ("completed batch item " +:+ what +:+ " response is missing a valid model")
  end.

Definition usage_value item : pyval := default PyNone (Item.usage item).

Definition sanitize_data_row (row_number : nat) (row : pyval) : res fin_exc pyval :=
  let at_row := "completed batch item embedding response row " +:+ Str.of_Z (Z.of_nat row_number) in
  match row with
  | PyDict d =>
    if negb (dict_has d "embedding") then validation_error (at_row +:+ " is missing embedding") else
    d ← match vget d "object" with
        | PyNone => Ret (dict_set d "object" (PyStr "embedding"))
        | PyStr s => if String.eqb s "embedding" then Ret d
                     else validation_error (at_row +:+ " has invalid object=" +:+ py_repr (PyStr s))
        | v => validation_error (at_row +:+ " has invalid object=" +:+ py_repr v)
        end;
    match vget d "index" with
    | PyNone => Ret (PyDict (dict_set d "index" (PyInt (Z.of_nat row_number))))
    | PyInt _ => Ret (PyDict d)
    | v => validation_error (at_row +:+ " has invalid index=" +:+ py_repr v)
    end
  | _ => validation_error (at_row +:+ " is not an object")
  end.

Fixpoint sanitize_data_rows (row_number : nat) (rows : list pyval) : res fin_exc (list pyval) :=
  match rows with
  | [] => Ret []
  | row :: rows' => r ← sanitize_data_row row_number row; rs ← sanitize_data_rows (row_number + 1) rows'; Ret (r :: rs)
  end.

(** The [object] field: set when absent, else it must be the expected one. *)
Definition ensure_object (what expected : string) (d : list (string * pyval)) : res fin_exc (list (string * pyval)) :=
  match vget d "object" with
  | PyNone => Ret (dict_set d "object" (PyStr expected))
  | v => if match v with PyStr s => String.eqb s expected | _ => false end then Ret d
         else validation_error ("completed batch item has invalid " +:+ what +:+ " response object=" +:+ py_repr v)
  end.

Definition sanitize_public_embedding_body item : res fin_exc (list (string * pyval)) :=
  match Item.response_body item with
  | Some (PyDict response_body) =>
    d ← ensure_object "embedding" "list" (dict_pop response_body "_provider");
    match vget d "data" with
    | PyList [] => validation_error "completed batch item embedding response data is empty"
    | PyList rows =>
      rows ← sanitize_data_rows 0 rows;
      d ← ensure_model "embedding" item (dict_set d "data" (PyList rows));
      match validate_public_embedding_usage (vget d "usage") with
      | Ret u => Ret (dict_set d "usage" (PyDict u))
      | Raise e => match normalized_embedding_usage_or_none (usage_value item) with
                   | Some u => Ret (dict_set d "usage" (PyDict u))
                   | None => Raise e
                   end
      end
    | _ => validation_error "completed batch item embedding response data is not a list"
    end
  | _ => validation_error "completed batch item is missing an embedding response body"
  end.

Definition is_dict (v : pyval) : bool := match v with PyDict _ => true | _ => false end.

Definition sanitize_public_chat_body item : res fin_exc (list (string * pyval)) :=
  match Item.response_body item with
  | Some (PyDict response_body) =>
    d ← ensure_object "chat" "chat.completion" (List.filter (fun kv => negb (Str.startswith kv.1 "_")) response_body);
    match vget d "choices" with
    | PyList choices =>
      let kept := List.filter is_dict choices in
      let d := dict_set d "choices" (PyList kept) in
      if negb (Nat.eqb (length kept) (length choices))
      then validation_error "completed batch item chat response contains a non-object choice" else
      d ← ensure_model "chat" item d;
      match vget d "usage" with
      | PyNone => Ret (dict_set d "usage" (PyDict (default [] (normalized_chat_usage_or_none (usage_value item)))))
      | v =>
        match validate_public_chat_usage v with
        | Ret u => Ret (dict_set d "usage" (PyDict u))
        | Raise e => match normalized_chat_usage_or_none (usage_value item) with
                     | Some u => Ret (dict_set d "usage" (PyDict u))
                     | None => Raise e
                     end
        end
      end
    | _ => validation_error "completed batch item chat response choices is not a list"
    end
  | _ => validation_error "completed batch item is missing a chat completion response body"
  end.

Definition serialize_completed_artifact_row (endpoint : string) item : res fin_exc pyval :=
  body ← (if String.eqb endpoint ENDPOINT_CHAT then sanitize_public_chat_body item
          else sanitize_public_embedding_body item);
  Ret (PyDict [("id", PyStr (public_batch_row_id item)); ("custom_id", PyStr (Item.custom_id item));
               ("response", PyDict [("status_code", PyInt 200);
                                    ("request_id", PyStr (public_batch_request_id item)); ("body", PyDict body)]);
               ("error", PyNone)]).

Definition serialize_failed_artifact_row item : pyval :=
  let cancelled := bool_decide (Item.status item = BatchItemStatus.CANCELLED) in
  let d := match Item.error_body item with Some (PyDict d) => d | _ => [] end in
  let d := if truthy (vget d "message") then d
           else dict_set d "message" (PyStr (match Item.last_error item with
                  | Some e => if Str.is_empty e then (if cancelled then "Batch request cancelled" else "Batch request failed") else e
                  | None => if cancelled then "Batch request cancelled" else "Batch request failed"
                  end)) in
  let d := if truthy (vget d "type") then d
           else dict_set d "type" (PyStr (if cancelled then "BatchItemCancelled" else "BatchItemError")) in
  PyDict [("id", PyStr (public_batch_row_id item)); ("custom_id", PyStr (Item.custom_id item));
          ("response", PyNone); ("error", PyDict d)].

(** ** Reading the items by pages *)

(** The loop of [_iter_batch_items]: the items read and the error of the query
    that ended it, if one did ([fault], by the line it asks after); [None] when
    the fuel runs out. *)
Fixpoint iter_pages (fault : option Z -> option exn) (fuel : nat) (page_size : Z) (batch_id : string)
    (after_line_number : option Z) (s : db) : option (list Item.batch_item * option exn) :=
  match fuel with
  | O => None
  | S f =>
    match fault after_line_number with
    | Some e => Some ([], Some e)
    | None =>
      let page := list_items_page batch_id page_size after_line_number s in
      match last page with
      | None => Some ([], None)
      | Some item => '(rest, e) ← iter_pages fault f page_size batch_id (Some (Item.line_number item)) s;
                     Some (page ++ rest, e)
      end
    end
  end.

(** One page per item is more than enough. *)
Definition iter_batch_items (fault : option Z -> option exn) (page_size : Z) (batch_id : string) (s : db)
    : option (list Item.batch_item * option exn) :=
  iter_pages fault (S (length (items s))) page_size batch_id None s.

Context (json_dumps : pyval -> string).

(** A generator over the items: it stops where a row cannot be serialised, or
    where the reading of the items did. *)
Fixpoint iter_lines_of (row : Item.batch_item -> option (res fin_exc pyval)) (l : list Item.batch_item)
    (unread : option exn) : stream string fin_exc :=
  match l with
  | [] => match unread with None => finish | Some e => throw (FinalizeError e) end
  | item :: l' =>
    match row item with
    | None => iter_lines_of row l' unread
    | Some (Raise e) => throw e
    | Some (Ret v) => yield (json_dumps v) (iter_lines_of row l' unread)
    end
  end.

Definition output_row (endpoint : string) item : option (res fin_exc pyval) :=
  if bool_decide (Item.status item = BatchItemStatus.COMPLETED)
  then Some (serialize_completed_artifact_row endpoint item) else None.

Definition error_row item : option (res fin_exc pyval) :=
  match Item.status item with
  | BatchItemStatus.FAILED | BatchItemStatus.CANCELLED => Some (Ret (serialize_failed_artifact_row item))
  | _ => None
  end.

Definition iter_output_lines (fault : option Z -> option exn) (page_size : Z) (endpoint batch_id : string) (s : db)
    : stream string fin_exc :=
  let '(l, unread) := default ([], None) (iter_batch_items fault page_size batch_id s) in
  iter_lines_of (output_row endpoint) l unread.
Definition iter_error_lines (fault : option Z -> option exn) (page_size : Z) (batch_id : string) (s : db)
    : stream string fin_exc :=
  let '(l, unread) := default ([], None) (iter_batch_items fault page_size batch_id s) in
  iter_lines_of error_row l unread.
End rows.

(** ** Files, objects and finalisation *)

(** A row of [deltallm_batch_file]; creation time and owners aside. *)
Record file_row : Type := mkFile {
  file_purpose : string;
  file_name : string;
  file_bytes : Z;
  file_storage_backend : string;
  file_storage_key : string;
  file_checksum : string;
  file_expires_at : option Z
}.

(** The database with its file table, and the artifact storage. *)
Record world : Type := mkWorld { w_db : db; w_files : gmap string file_row; w_objects : files }.

Definition on_db (f : db -> db) (w : world) : world := mkWorld (f (w_db w)) (w_files w) (w_objects w).
Definition on_objects (f : files -> files) (w : world) : world := mkWorld (w_db w) (w_files w) (f (w_objects w)).

(** [INSERT]; [file_id] is a fresh uuid. *)
Definition insert_file (file_id : string) (r : file_row) (w : world) : world :=
  mkWorld (w_db w) (<[file_id := r]> (w_files w)) (w_objects w).

(** [output_file_id] and [error_file_id] are foreign keys [ON DELETE SET NULL]. *)
Definition unless_is (file_id : string) (c : option string) : option string :=
  match c with Some f => if String.eqb f file_id then None else c | None => None end.
Definition forget_file (file_id : string) (j : Job.batch_job) : Job.batch_job :=
  Job.set_output_file_id (unless_is file_id (Job.output_file_id j))
    (Job.set_error_file_id (unless_is file_id (Job.error_file_id j)) j).
Definition delete_file (file_id : string) (w : world) : world :=
  mkWorld (on_jobs (map (forget_file file_id)) (w_db w)) (delete file_id (w_files w)) (w_objects w).

(** The settings of [BatchWorkerConfig] read by finalisation. *)
Record finalize_config : Type := mkFinalizeConfig {
  fc_worker_id : string;
  fc_page_size : Z;
  fc_completed_retention_days : Z;
  fc_failed_retention_days : Z;
  fc_retry_delay_seconds : Z;
  fc_backend : string
}.

(** The identifiers drawn for one artifact. *)
Record artifact_ids : Type := mkIds { ids_key : string; ids_temp : string; ids_file : string }.

(** What surrounds one finalisation: the disk and the [INSERT] of each artifact,
    what other processes commit before the last statement, and that statement;
    then which clean-up deletions fail. *)
Record surroundings : Type := mkSurroundings {
  at_output_pages : option Z -> option exn;
  at_output_disk : disk fin_exc;
  at_output_record : fault;
  at_error_pages : option Z -> option exn;
  at_error_disk : disk fin_exc;
  at_error_record : fault;
  meanwhile : db -> db;
  at_attach : fault;
  at_delete_object : string -> bool;
  at_delete_record : string -> fault
}.

(** The local variables that the clean-up reads. *)
Record finalize_locals : Type := mkLocals {
  created_artifacts : list (string * string);
  unrecorded_artifact_keys : list string
}.
Definition no_locals : finalize_locals := mkLocals [] [].

Abbreviation fin A := (st (world * finalize_locals) fin_exc A).

Definition day_usec : Z := 86400 * usec.

(** The error raised by a statement of the database. *)
Definition statement_error (f : fault) : option exn :=
  match f with NoFault => None | RolledBack e | AckLost e => Some e end.
Definition committed (f : fault) : bool := match f with RolledBack _ => false | _ => true end.

(** [create_file]: with a database the [INSERT] returns its row. *)
Definition create_file (f : fault) (file_id : string) (r : file_row) : st world fin_exc string := fun w =>
  let w' := if committed f then insert_file file_id r w else w in
  match statement_error f with
  | None => (w', Ret file_id)
  | Some e => (w', Raise (FinalizeError e))
  end.

Definition with_world {A} (m : st world fin_exc A) : fin A := fun '(w, l) =>
  let '(w', r) := m w in ((w', l), r).
Definition with_objects {A} (m : st files fin_exc A) : st world fin_exc A := fun w =>
  let '(fs, r) := m (w_objects w) in (on_objects (fun _ => fs) w, r).
Definition set_locals (f : finalize_locals -> finalize_locals) : fin unit := modify (fun '(w, l) => (w, f l)).

Definition note_unrecorded (key : string) (l : finalize_locals) : finalize_locals :=
  if Str.is_empty key then l else mkLocals (created_artifacts l) (unrecorded_artifact_keys l ++ [key]).
Definition note_created (file_id key : string) (l : finalize_locals) : finalize_locals :=
  mkLocals (created_artifacts l ++ [(file_id, key)])
    (List.filter (fun k => negb (String.eqb k key)) (unrecorded_artifact_keys l)).

Section finalize.
Context (py_repr : pyval -> string) (json_dumps : pyval -> string) (sha256 : bytes -> string).
Implicit Types (job : Job.batch_job) (w : world) (env : surroundings).

(** One artifact: written, then recorded; its lines come from the database. *)
Definition write_artifact (cfg : finalize_config) (d : disk fin_exc) (f : fault) (ids : artifact_ids)
    (purpose filename : string) (expires_at : Z) (lines : db -> stream string fin_exc) : fin string :=
  '(w, _) ← get_st;
  '(key, size, checksum) ← with_world (with_objects
     (write_lines_stream sha256 d (ids_key ids) (ids_temp ids) (lines (w_db w))));
  _ ← set_locals (note_unrecorded key);
  file_id ← with_world (create_file f (ids_file ids)
     (mkFile purpose filename size (fc_backend cfg) key checksum (Some expires_at)));
  _ ← set_locals (note_created file_id key);
  mret file_id.

(** Both branches of [finalize_artifacts] that write an artifact. *)
Definition optional_artifact (cfg : finalize_config) (needed : bool) (d : disk fin_exc) (f : fault) (ids : artifact_ids)
    (purpose filename : string) (expires_at : Z) (lines : db -> stream string fin_exc) : fin (option string) :=
  if needed then file_id ← write_artifact cfg d f ids purpose filename expires_at lines; mret (Some file_id)
  else mret None.

Definition attach_artifacts (now : Z) (b : string) (output error : option string) (final : BatchJobStatus.job_status)
    (worker_id : string) (f : fault) : st world fin_exc (option Job.batch_job) := fun w =>
  let '(s, r) := with_fault f (attach_artifacts_and_finalize now b output error (inl final) (Some worker_id)) (w_db w) in
  (on_db (fun _ => s) w, match r with Ret j => Ret j | Raise e => Raise (FinalizeError e) end).

Definition no_finalize (b : string) : fin_exc :=
  FinalizeError (EOther {| oe_message := "Failed to finalize batch " +:+ b; oe_status_code := None;
                         oe_response_status := None; oe_error_type := None; oe_affects := None |}).

Definition artifact_retention_days (cfg : finalize_config) (final : BatchJobStatus.job_status) : Z :=
  match final with
  | BatchJobStatus.FAILED | BatchJobStatus.CANCELLED => fc_failed_retention_days cfg
  | _ => fc_completed_retention_days cfg
  end.

(** The body of the [try] of [finalize_artifacts]. *)
Definition publish_artifacts (now : Z) (cfg : finalize_config) env (out err : artifact_ids) job : fin unit :=
  let b := Job.batch_id job in
  let final_status := resolve_final_status job in
  output_file_id ← optional_artifact cfg (0 <? Job.completed_items job) (at_output_disk env) (at_output_record env) out
    "batch_output" (b +:+ "-output.jsonl") (now + fc_completed_retention_days cfg * day_usec)
    (iter_output_lines py_repr json_dumps (at_output_pages env) (fc_page_size cfg) (Job.endpoint job) b);
  error_file_id ← optional_artifact cfg ((0 <? Job.failed_items job) || (0 <? Job.cancelled_items job))
    (at_error_disk env) (at_error_record env) err "batch_error" (b +:+ "-error.jsonl")
    (now + artifact_retention_days cfg final_status * day_usec)
    (iter_error_lines json_dumps (at_error_pages env) (fc_page_size cfg) b);
  _ ← with_world (modify (on_db (meanwhile env)));
  finalized ← with_world (attach_artifacts now b output_file_id error_file_id final_status (fc_worker_id cfg)
                            (at_attach env));
  match finalized with
  | None => raise (no_finalize b)
  | Some _ => mret tt
  end.

Definition delete_object env (storage_key : string) w : world :=
  if at_delete_object env storage_key then w else on_objects (delete_file_at storage_key) w.

(** Errors of the clean-up are suppressed. *)
Definition cleanup_unattached_artifacts env (artifacts : list (string * string)) w : world :=
  fold_left (fun w '(file_id, storage_key) =>
    let w := delete_object env storage_key w in
    if committed (at_delete_record env file_id) then delete_file file_id w else w) artifacts w.
Definition cleanup_unrecorded_artifacts env (storage_keys : list string) w : world :=
  fold_left (fun w storage_key => delete_object env storage_key w) storage_keys w.

Definition finalize_artifacts (now : Z) (cfg : finalize_config) env (out err : artifact_ids) job
    : st world fin_exc unit := fun w =>
  match publish_artifacts now cfg env out err job (w, no_locals) with
  | ((w', _), Ret _) => (w', Ret tt)
  | ((w', l), Raise e) =>
      (cleanup_unattached_artifacts env (created_artifacts l)
         (cleanup_unrecorded_artifacts env (unrecorded_artifact_keys l) w'), Raise e)
  end.

(** ** Retries *)

(** How [finalize_with_retry] ended. *)
Inductive finalize_outcome : Type :=
  | Published
  | PermanentlyFailed
  | Rescheduled
  | LeaseLost.

(** The statements after an error: the permanent failure, its reason, the reschedule. *)
Record retry_faults : Type := mkRetryFaults {
  at_permanent : fault;
  at_reason : fault;
  at_reschedule : fault
}.

Definition on_db_st {A} (f : fault) (m : st db exn A) : st world exn A := fun w =>
  let '(s, r) := with_fault f m (w_db w) in (on_db (fun _ => s) w, r).

(** An error while the reason is recorded is only logged. *)
Definition record_reason (now : Z) (fs : retry_faults) (b reason : string) : st world exn unit := fun w =>
  (fst (on_db_st (at_reason fs) (set_provider_error now b (Some ("artifact_validation_failed: " +:+ reason))) w), Ret tt).

Definition persist_permanent_finalization_failure (now : Z) (cfg : finalize_config) (fs : retry_faults) job
    (reason : string) : st world exn bool :=
  let b := Job.batch_id job in
  finalized ← on_db_st (at_permanent fs)
    (attach_artifacts_and_finalize now b None None (inl BatchJobStatus.FAILED) (Some (fc_worker_id cfg)));
  match finalized with
  | None => mret false
  | Some _ => _ ← record_reason now fs b reason; mret true
  end.

Definition schedule_finalization_retry (now : Z) (cfg : finalize_config) (fs : retry_faults) job
    : st world exn finalize_outcome :=
  rescheduled ← on_db_st (at_reschedule fs)
    (reschedule_finalization now (Job.batch_id job) (fc_worker_id cfg) (fc_retry_delay_seconds cfg));
  mret (if (rescheduled : bool) then Rescheduled else LeaseLost).

(** Only an error of the reschedule escapes. *)
Definition finalize_with_retry (now : Z) (cfg : finalize_config) env (fs : retry_faults) (out err : artifact_ids) job
    : st world exn finalize_outcome := fun w =>
  match finalize_artifacts now cfg env out err job w with
  | (w', Ret _) => (w', Ret Published)
  | (w', Raise (ArtifactValidation reason)) =>
      match persist_permanent_finalization_failure now cfg fs job reason w' with
      | (w'', Ret true) => (w'', Ret PermanentlyFailed)
      | (w'', _) => schedule_finalization_retry now cfg fs job w''
      end
  | (w', Raise (FinalizeError _)) => schedule_finalization_retry now cfg fs job w'
  end.
End finalize.

(** ** The pages are the whole batch *)

Definition beyond (after_line_number : option Z) (r : Item.batch_item) : bool :=
  match after_line_number with Some n => n <? Item.line_number r | None => true end.
Definition line_lt (x y : Item.batch_item) : Prop := Item.line_number x < Item.line_number y.

Lemma line_lt_filter (p : Item.batch_item -> bool) l : StronglySorted line_lt l -> StronglySorted line_lt (List.filter p l).
Proof.
  induction 1 as [|x l _ IH Hx]; simpl; [constructor|]. destruct (p x); [|done]. constructor; [done|].
  rewrite Forall_forall in *. intros y Hy. apply Hx. apply list_elem_of_In in Hy. apply list_elem_of_In.
  by apply filter_In in Hy as [Hy _].
Qed.

Lemma sorted_lines t : NoDup (map Item.line_number t) -> StronglySorted line_lt (order_by by_line t).
Proof.
  intros Hnd. rewrite <- (order_by_perm by_line t) in Hnd.
  assert (H : StronglySorted (fun x y => by_line x y = true) (order_by by_line t)).
  { apply order_by_sorted; unfold by_line; intros *; rewrite ?Z.leb_gt, ?Z.leb_le; lia. }
  revert Hnd. induction H as [|x l _ IH Hx]; [constructor|].
  change (map Item.line_number (x :: l)) with (Item.line_number x :: map Item.line_number l).
  intros [Hn Hnd]%NoDup_cons.
  constructor; [by apply IH|]. rewrite Forall_forall in *. intros y Hy. specialize (Hx y Hy).
  unfold by_line, line_lt in *. apply Z.leb_le in Hx. destruct (decide (Item.line_number x = Item.line_number y)) as [E|]; [|lia].
  destruct Hn. rewrite E. by apply list_elem_of_fmap_2.
Qed.

Lemma batch_lines_NoDup b s (p : Item.batch_item -> bool) : unique_keys (items s) ->
  NoDup (map Item.line_number (select_where (fun r => in_batch b r && p r) (items s))).
Proof.
  intros U. pose proof (unique_keys_NoDup _ U) as Hnd. destruct U as (_ & Hl & _).
  apply NoDup_fmap_2_strong.
  - intros x y [Hx Hbx]%elem_select [Hy Hby]%elem_select E. apply andb_true_iff in Hbx as [Hbx _].
    apply andb_true_iff in Hby as [Hby _]. unfold in_batch in *. apply String.eqb_eq in Hbx, Hby.
    apply (NoDup_map_inj (fun r => (Item.batch_id r, Item.line_number r)) (items s)); [done..|]. congruence.
  - by apply select_NoDup.
Qed.

Lemma select_true {R} (p : R -> bool) t : select_where (fun r => p r && true) t = select_where p t.
Proof. unfold select_where. apply filter_ext. intros. apply andb_true_r. Qed.

Lemma list_items_sorted b s : unique_keys (items s) -> StronglySorted line_lt (list_items b s).
Proof.
  intros U. unfold list_items. apply sorted_lines. rewrite <- select_true. by apply (batch_lines_NoDup b s (fun _ => true)).
Qed.

Lemma elem_list_items b s r : r ∈ list_items b s <-> r ∈ items s /\ in_batch b r = true.
Proof. unfold list_items. by rewrite order_by_perm, elem_select. Qed.

(** A page is a prefix of what remains. *)
Lemma page_prefix b n after s : unique_keys (items s) ->
  list_items_page b n after s = limit (Z.max 1 (Z.min n 5000)) (List.filter (beyond after) (list_items b s)).
Proof.
  intros U. unfold list_items_page. f_equal.
  apply (StronglySorted_unique_strong line_lt).
  - intros x y _ _. unfold line_lt. lia.
  - apply sorted_lines. apply (batch_lines_NoDup b s (beyond after) U).
  - by apply line_lt_filter, list_items_sorted.
  - rewrite order_by_perm. unfold list_items, select_where.
    transitivity (List.filter (beyond after) (List.filter (in_batch b) (items s))).
    + clear U. induction (items s) as [|r t IH]; simpl; [done|].
      destruct (in_batch b r); simpl; [|exact IH]. fold (beyond after r).
      destruct (beyond after r); simpl; [by constructor|exact IH].
    + clear U. symmetry. generalize (List.filter (in_batch b) (items s)). intros l.
      pose proof (order_by_perm by_line l) as H. revert H. generalize (order_by by_line l). intros l' H.
      induction H as [|x l1 l2 _ IH|x y l1|l1 l2 l3 _ IH1 _ IH2]; simpl.
      * done.
      * by destruct (beyond after x); rewrite ?IH.
      * destruct (beyond after x), (beyond after y); try done. by constructor.
      * by rewrite IH1.
Qed.

Lemma sorted_split (M : list Item.batch_item) n it :
  StronglySorted line_lt M -> last (take n M) = Some it ->
  List.filter (beyond (Some (Item.line_number it))) M = drop n M.
Proof.
  intros HM. revert n. induction HM as [|x M HM IH Hx]; intros n; [by rewrite take_nil|].
  destruct n as [|n]; [done|]. cbn [take]. rewrite last_cons. simpl.
  destruct (last (take n M)) as [y|] eqn:E.
  - intros [= ->]. rewrite <- (IH n E). apply last_Some_elem_of in E.
    replace (Item.line_number it <? Item.line_number x) with false; [done|]. symmetry. apply Z.ltb_ge.
    rewrite Forall_forall in Hx. assert (Hit : it ∈ M) by (by apply elem_of_take in E as (i & E & _); eapply list_elem_of_lookup_2).
    specialize (Hx it Hit). unfold line_lt in Hx. lia.
  - intros [= ->]. rewrite Z.ltb_irrefl. apply last_None in E.
    assert (Hd : drop n M = M).
    { pose proof (take_drop n M) as T. by rewrite E in T. }
    rewrite Hd.
    clear -Hx. induction Hx as [|y M Hy _ IH]; simpl; [done|]. unfold line_lt in Hy.
    by rewrite (proj2 (Z.ltb_lt _ _) Hy), IH.
Qed.

Lemma filter_beyond_twice after it (L : list Item.batch_item) :
  it ∈ List.filter (beyond after) L ->
  List.filter (beyond (Some (Item.line_number it))) L =
  List.filter (beyond (Some (Item.line_number it))) (List.filter (beyond after) L).
Proof.
  intros Hit. apply list_elem_of_In, filter_In in Hit as [_ Hit].
  induction L as [|x L IH]; simpl; [done|]. destruct (beyond after x) eqn:E; simpl; [by rewrite IH|].
  replace (Item.line_number it <? Item.line_number x) with false; [done|]. symmetry. apply Z.ltb_ge.
  unfold beyond in *. destruct after as [n|]; [|done]. apply Z.ltb_lt in Hit. apply Z.ltb_ge in E. lia.
Qed.

Lemma iter_pages_rest fault fuel n b after s : unique_keys (items s) ->
  (length (List.filter (beyond after) (list_items b s)) < fuel)%nat ->
  exists l unread, iter_pages fault fuel n b after s = Some (l, unread) /\
    (unread = None -> l = List.filter (beyond after) (list_items b s)).
Proof.
  intros U. revert after. induction fuel as [|f IH]; intros after Hf; [lia|]. cbn [iter_pages].
  destruct (fault after) as [e|]; [by eexists _, _|].
  rewrite page_prefix by done. unfold limit. set (k := Z.to_nat _). remember (List.filter (beyond after) (list_items b s)) as M eqn:EM.
  assert (HM : StronglySorted line_lt M) by (subst M; by apply line_lt_filter, list_items_sorted).
  destruct (last (take k M)) as [it|] eqn:E.
  - assert (Hit : it ∈ take k M) by (by apply last_Some_elem_of).
    assert (HitM : it ∈ M) by (by rewrite <- (take_drop k M); apply elem_of_app; left).
    assert (Hrest : List.filter (beyond (Some (Item.line_number it))) (list_items b s) = drop k M).
    { rewrite (filter_beyond_twice after), <- EM by (by rewrite <- EM). by apply sorted_split. }
    destruct (IH (Some (Item.line_number it))) as (l & unread & -> & Hl); rewrite ?Hrest in *.
    + rewrite length_drop. assert (length M <> 0)%nat by (intros ->%nil_length_inv; by apply elem_of_nil in HitM). unfold k. lia.
    + eexists _, _. split; [reflexivity|]. intros Hu. rewrite Hl by done. by rewrite take_drop.
  - apply last_None in E. destruct M as [|x M']; [by eexists _, _|]. exfalso.
    assert (k = S (Nat.pred k)) as Hk by (unfold k; lia). rewrite Hk in E. done.
Qed.

(** Reading a batch page by page, each page asked for after the last line of
    the one before, ends and, unless a query fails, yields every item of the
    batch once, in line order, whatever the configured page size (also zero,
    negative or above the cap). *)
Lemma paging_reads_whole_batch fault page_size b s :
  unique_keys (items s) ->
  exists l unread, iter_batch_items fault page_size b s = Some (l, unread) /\ (unread = None -> l = list_items b s).
Proof.
  intros U. unfold iter_batch_items.
  assert (E : List.filter (beyond None) (list_items b s) = list_items b s) by (by apply forallb_filter_id, forallb_forall).
  destruct (iter_pages_rest fault (S (length (items s))) page_size b None s U) as (l & unread & -> & H).
  - rewrite E. unfold list_items.
    rewrite order_by_perm. unfold select_where. pose proof (filter_length_le (in_batch b) (items s)). lia.
  - rewrite E in H. by eexists _, _.
Qed.

(** ** The lines of a finished batch *)

Section published.
Context (py_repr : pyval -> string) (json_dumps : pyval -> string) (sha256 : bytes -> string).
Implicit Types (item : Item.batch_item) (w : world) (l : finalize_locals).

Definition is_completed item : bool := bool_decide (Item.status item = BatchItemStatus.COMPLETED).
Definition is_unsuccessful item : bool :=
  match Item.status item with BatchItemStatus.FAILED | BatchItemStatus.CANCELLED => true | _ => false end.

Definition completed_line (endpoint : string) item (line : string) : Prop :=
  exists v, serialize_completed_artifact_row py_repr endpoint item = Ret v /\ line = json_dumps v.

Lemma output_lines_of endpoint L unread :
  let str := iter_lines_of json_dumps (output_row py_repr endpoint) L unread in
  ended str = None -> unread = None /\ Forall2 (completed_line endpoint) (List.filter is_completed L) (yielded str).
Proof.
  induction L as [|item L IH]; simpl; [by destruct unread|].
  assert (R : output_row py_repr endpoint item =
    if is_completed item then Some (serialize_completed_artifact_row py_repr endpoint item) else None) by done.
  rewrite !R. destruct (is_completed item); [|exact IH]. destruct (serialize_completed_artifact_row _ _ _) as [v|e] eqn:E; [|done].
  intros H'. destruct (IH H') as [? ?]. split; [done|]. constructor; [by exists v|done].
Qed.

Lemma error_lines_of L unread :
  iter_lines_of json_dumps error_row L unread =
  mkStream (map (fun i => json_dumps (serialize_failed_artifact_row i)) (List.filter is_unsuccessful L))
    (FinalizeError <$> unread).
Proof.
  induction L as [|item L IH]; [by destruct unread|]. simpl. unfold error_row at 1, is_unsuccessful at 1.
  destruct (Item.status item); try exact IH; by rewrite IH.
Qed.

Lemma finished_partition L : Forall (fun i => BatchItemStatus.terminal_item (Item.status i) = true) L ->
  L ≡ₚ List.filter is_completed L ++ List.filter is_unsuccessful L.
Proof.
  induction 1 as [|item L Ht _ IH]; [done|]. simpl. unfold is_completed at 1, is_unsuccessful at 1.
  case_bool_decide as Hc; [rewrite Hc; simpl; by f_equiv|].
  destruct (Item.status item); try done; rewrite <- Permutation_middle; by f_equiv.
Qed.

(** *** One artifact *)

Definition put (key : string) (data : bytes) (fs : files) : files :=
  match data with [] => fs | _ => <[key := data]> fs end.
Definition artifact_key (ids : artifact_ids) (data : bytes) : string :=
  match data with [] => "" | _ => ids_key ids end.
Definition artifact_row (cfg : finalize_config) (ids : artifact_ids) (purpose filename : string) (expires_at : Z)
    (data : bytes) : file_row :=
  mkFile purpose filename (Z.of_nat (length data)) (fc_backend cfg) (artifact_key ids data) (sha256 data) (Some expires_at).

Definition usable (ids : artifact_ids) (fs : files) : Prop :=
  fs !! ids_temp ids = None /\ ids_key ids <> ids_temp ids /\ ids_key ids <> "".

Lemma write_artifact_spec cfg d f ids purpose filename expires_at lines w l :
  usable ids (w_objects w) ->
  let str := lines (w_db w) in
  let data := lines_file (yielded str) in
  let key := artifact_key ids data in
  let objects := put (ids_key ids) data (w_objects w) in
  let files := <[ids_file ids := artifact_row cfg ids purpose filename expires_at data]> (w_files w) in
  match write_artifact sha256 cfg d f ids purpose filename expires_at lines (w, l) with
  | ((w', l'), Ret fid) =>
      fid = ids_file ids /\ ended str = None /\ statement_error f = None /\
      w' = mkWorld (w_db w) files objects /\ l' = note_created (ids_file ids) key (note_unrecorded key l)
  | ((w', l'), Raise e) =>
      (w' = w /\ l' = l) \/
      (ended str = None /\ is_Some (statement_error f) /\ l' = note_unrecorded key l /\
       w' = mkWorld (w_db w) (if committed f then files else w_files w) objects)
  end.
Proof.
  intros (Ht & Hne & _) str data key objects fls. unfold write_artifact, write_lines_stream.
  unfold mbind at 1, st_bind at 1, get_st at 1. cbn beta iota zeta. fold str.
  unfold mbind at 1, st_bind at 1, with_world at 1, with_objects at 1.
  pose proof (write_chunks_spec sha256 d (ids_key ids) (ids_temp ids) (mkStream (line_chunks (yielded str)) (ended str))
    (w_objects w) Ht Hne) as H.
  destruct (write_chunks _ _ _ _ _ _) as [fs [[[k size] checksum]|e]].
  2:{ left. cbn in H. rewrite H. split; [|done]. by destruct w. }
  cbn [yielded ended] in H. fold (lines_file (yielded str)) in H. fold data in H.
  destruct H as (Hend & -> & -> & H).
  assert (Hk : k = key /\ fs = objects) by (unfold key, objects, artifact_key, put; by destruct data).
  destruct Hk as [-> ->]. clear H.
  unfold mbind, st_bind, set_locals, modify, with_world, create_file. cbn beta iota zeta.
  destruct (statement_error f) as [e|] eqn:Ef; cbn beta iota zeta.
  - right. split_and!; [done|by eexists|done|]. by destruct (committed f).
  - replace (committed f) with true by (by destruct f). done.
Qed.

(** *** The last statement *)

(** The rows it finalises. *)
Definition held_for_finalization (b worker_id : string) (j : Job.batch_job) : bool :=
  is_job b j && (locked_for worker_id j && finalizing j).

Definition finalized_db now b output error final worker_id (s : db) : db :=
  on_jobs (update_where (held_for_finalization b worker_id) (finalize_row now output error final)) s.

Lemma attach_statement now b output error final worker_id s :
  attach_artifacts_and_finalize now b output error (inl final) (Some worker_id) s =
  (finalized_db now b output error final worker_id s,
   Ret (head (map (finalize_row now output error final) (select_where (held_for_finalization b worker_id) (jobs s))))).
Proof. unfold attach_artifacts_and_finalize, update_job. by rewrite normalize_inl. Qed.

Lemma finalized_none now b output error final worker_id s :
  select_where (held_for_finalization b worker_id) (jobs s) = [] -> finalized_db now b output error final worker_id s = s.
Proof.
  intros H. unfold finalized_db, on_jobs. rewrite update_none; [by destruct s|]. intros j Hj.
  destruct (held_for_finalization b worker_id j) eqn:E; [|done].
  assert (Hin : j ∈ select_where (held_for_finalization b worker_id) (jobs s)) by (by apply elem_select).
  rewrite H in Hin. by apply elem_of_nil in Hin.
Qed.

(** With the answer received: finalised, or nothing happened. *)
Lemma attach_spec now b output error final worker_id f w :
  match attach_artifacts now b output error final worker_id f w with
  | (w', Ret (Some _)) =>
      w' = on_db (finalized_db now b output error final worker_id) w /\
      exists j, j ∈ jobs (w_db w) /\ held_for_finalization b worker_id j = true
  | (w', Ret None) => w' = w
  | (w', Raise _) => (exists e, f = RolledBack e \/ f = AckLost e) /\ ((forall e, f <> AckLost e) -> w' = w)
  end.
Proof.
  unfold attach_artifacts, with_fault, transaction. rewrite attach_statement.
  pose proof (finalized_none now b output error final worker_id (w_db w)) as Hnone.
  assert (Hin : forall j js, select_where (held_for_finalization b worker_id) (jobs (w_db w)) = j :: js ->
            j ∈ jobs (w_db w) /\ held_for_finalization b worker_id j = true).
  { intros j js E. apply elem_select. rewrite E. left. }
  assert (Hid : on_db (fun _ => w_db w) w = w) by (by destruct w).
  destruct f as [|e|e]; cbn [fst].
  - destruct (select_where _ _) as [|j js]; simpl.
    + rewrite Hnone by done. by destruct w.
    + split; [done|]. exists j. by apply (Hin j js).
  - split; [by exists e; left|]. by rewrite Hid.
  - split; [by exists e; right|]. intros H. by destruct (H e).
Qed.

(** *** The whole finalisation *)

Context (now : Z) (cfg : finalize_config) (env : surroundings) (out err : artifact_ids) (job : Job.batch_job).

Definition output_of : option string := if 0 <? Job.completed_items job then Some (ids_file out) else None.
Definition error_of : option string :=
  if (0 <? Job.failed_items job) || (0 <? Job.cancelled_items job) then Some (ids_file err) else None.

(** The identifiers drawn are new and different. *)
Definition ids_fresh (w : world) : Prop :=
  usable out (w_objects w) /\ usable err (w_objects w) /\
  ids_key out <> ids_key err /\ ids_key out <> ids_temp err /\ ids_file out <> ids_file err.

Lemma usable_put ids key data fs : key <> ids_temp ids -> usable ids fs -> usable ids (put key data fs).
Proof.
  intros Hk [H1 H2]. split; [|done]. unfold put. destruct data; [done|]. by rewrite lookup_insert_ne.
Qed.

(** A file is published: its row, and its object unless it is empty. *)
Definition published_file (w : world) (file_id : string) (lines : list string) : Prop :=
  exists r, w_files w !! file_id = Some r /\ file_bytes r = Z.of_nat (length (lines_file lines)) /\
    file_checksum r = sha256 (lines_file lines) /\
    match lines_file lines with
    | [] => file_storage_key r = ""
    | data => w_objects w !! file_storage_key r = Some data
    end.

Definition out_lines : db -> stream string fin_exc :=
  iter_output_lines py_repr json_dumps (at_output_pages env) (fc_page_size cfg) (Job.endpoint job) (Job.batch_id job).
Definition err_lines : db -> stream string fin_exc :=
  iter_error_lines json_dumps (at_error_pages env) (fc_page_size cfg) (Job.batch_id job).

Lemma optional_artifact_spec needed d f ids purpose filename expires_at lines w l :
  usable ids (w_objects w) ->
  let str := lines (w_db w) in
  let data := lines_file (yielded str) in
  let key := artifact_key ids data in
  let objects := put (ids_key ids) data (w_objects w) in
  let files := <[ids_file ids := artifact_row cfg ids purpose filename expires_at data]> (w_files w) in
  match optional_artifact sha256 cfg needed d f ids purpose filename expires_at lines (w, l) with
  | ((w', l'), Ret o) =>
      o = (if needed then Some (ids_file ids) else None) /\ (needed = true -> ended str = None) /\
      w' = (if needed then mkWorld (w_db w) files objects else w) /\
      l' = (if needed then note_created (ids_file ids) key (note_unrecorded key l) else l)
  | ((w', l'), Raise e) =>
      (w' = w /\ l' = l) \/
      (is_Some (statement_error f) /\ l' = note_unrecorded key l /\
       w' = mkWorld (w_db w) (if committed f then files else w_files w) objects)
  end.
Proof.
  intros Hu. unfold optional_artifact. destruct needed; [|done].
  pose proof (write_artifact_spec cfg d f ids purpose filename expires_at lines w l Hu) as H.
  unfold mbind, st_bind.
  destruct (write_artifact _ _ _ _ _ _ _ _ _ _) as [[w' l'] [fid|e]].
  - destruct H as (-> & H1 & _ & -> & ->). done.
  - destruct H as [H|(_ & H)]; [by left|by right].
Qed.

Definition finalize : st world fin_exc unit := finalize_artifacts py_repr json_dumps sha256 now cfg env out err job.

(** What [publish_artifacts] leaves when it succeeds. *)
Lemma publish_success w w' l' : ids_fresh w ->
  publish_artifacts py_repr json_dumps sha256 now cfg env out err job (w, no_locals) = ((w', l'), Ret tt) ->
  let data := lines_file (yielded (out_lines (w_db w))) in
  let data' := lines_file (yielded (err_lines (w_db w))) in
  let s := meanwhile env (w_db w) in
  w_db w' = finalized_db now (Job.batch_id job) output_of error_of (resolve_final_status job) (fc_worker_id cfg) s /\
  (exists j, j ∈ jobs s /\ held_for_finalization (Job.batch_id job) (fc_worker_id cfg) j = true) /\
  (output_of <> None -> ended (out_lines (w_db w)) = None /\
     published_file w' (ids_file out) (yielded (out_lines (w_db w)))) /\
  (error_of <> None -> ended (err_lines (w_db w)) = None /\
     published_file w' (ids_file err) (yielded (err_lines (w_db w)))).
Proof.
  intros (Hu & Hu' & Hk & Hkt & Hf) H data data' s. unfold publish_artifacts in H.
  set (needed := 0 <? Job.completed_items job) in *.
  set (needed' := (0 <? Job.failed_items job) || (0 <? Job.cancelled_items job)) in *.
  apply bind_ret_inv in H as ([w1 l1] & o & Ho & H).
  pose proof (optional_artifact_spec needed (at_output_disk env) (at_output_record env) out "batch_output"
    (Job.batch_id job +:+ "-output.jsonl") (now + fc_completed_retention_days cfg * day_usec) out_lines w no_locals Hu) as H1.
  fold out_lines in Ho. cbv zeta in H1. rewrite Ho in H1. fold data in H1. destruct H1 as (-> & Hend & -> & ->).
  apply bind_ret_inv in H as ([w2 l2] & o' & Ho' & H).
  match type of Ho' with _ (?w1, ?l1) = _ => set (x1 := w1) in *; set (l1' := l1) in * end.
  assert (Hdb1 : w_db x1 = w_db w) by (by unfold x1; destruct needed).
  assert (Hu1 : usable err (w_objects x1)) by (unfold x1; destruct needed; [by apply usable_put|done]).
  pose proof (optional_artifact_spec needed' (at_error_disk env) (at_error_record env) err "batch_error"
    (Job.batch_id job +:+ "-error.jsonl")
    (now + artifact_retention_days cfg (resolve_final_status job) * day_usec) err_lines x1 l1' Hu1) as H2.
  fold err_lines in Ho'. cbv zeta in H2. rewrite Ho', Hdb1 in H2. fold data' in H2. destruct H2 as (-> & Hend' & -> & ->). clear Ho Ho'.
  apply bind_ret_inv in H as ([w3 l3] & [] & Ho & H). unfold with_world, modify in Ho. injection Ho as <- <-.
  apply bind_ret_inv in H as ([w4 l4] & r & Ho & H). unfold with_world in Ho.
  match type of Ho with (let '(_, _) := attach_artifacts _ _ _ _ _ _ _ ?x in _) = _ => set (x3 := x) in * end.
  assert (Hdb3 : w_db x3 = s) by (unfold x3, s; rewrite <- Hdb1; by destruct needed').
  pose proof (attach_spec now (Job.batch_id job) output_of error_of (resolve_final_status job) (fc_worker_id cfg)
    (at_attach env) x3) as H3.
  fold output_of error_of in Ho. destruct (attach_artifacts _ _ _ _ _ _ _ x3) as [w5 [r'|e]]; [|done].
  injection Ho as <- <- <-. destruct r' as [j'|]; [|done]. injection H as <- <-.
  destruct H3 as (-> & j & Hj & Hheld). rewrite Hdb3 in Hj. cbn [w_db on_db]. rewrite Hdb3.
  split_and!; [done|by exists j| |].
  - unfold output_of. fold needed. destruct needed; [|done]. intros _. split; [by apply Hend|].
    exists (artifact_row cfg out "batch_output" (Job.batch_id job +:+ "-output.jsonl")
              (now + fc_completed_retention_days cfg * day_usec) data).
    unfold x3, x1. split_and!; try done.
    + destruct needed'; cbn; rewrite ?lookup_insert_ne by congruence; apply lookup_insert_eq.
    + fold data. unfold artifact_row, artifact_key. cbn [file_storage_key]. destruct data as [|a rest] eqn:E; [done|].
      destruct needed'; cbn; [|apply lookup_insert_eq]. unfold put. destruct data'; [apply lookup_insert_eq|].
      rewrite lookup_insert_ne by congruence. apply lookup_insert_eq.
  - unfold error_of. fold needed'. destruct needed'; [|done]. intros _. split; [by apply Hend'|].
    exists (artifact_row cfg err "batch_error" (Job.batch_id job +:+ "-error.jsonl")
              (now + artifact_retention_days cfg (resolve_final_status job) * day_usec) data').
    unfold x3. split_and!; try done; [apply lookup_insert_eq|].
    fold data'. unfold artifact_row, artifact_key. cbn [file_storage_key]. destruct data'; [done|]. apply lookup_insert_eq.
Qed.

(** *** Clean-up *)

(** The objects and the records it removes. *)
Definition noted_keys (l : finalize_locals) : list string :=
  unrecorded_artifact_keys l ++ map snd (created_artifacts l).
Definition noted_files (l : finalize_locals) : list string := map fst (created_artifacts l).

(** [w] differs from [w0] at most in what is noted, which is new. *)
Definition only_noted (w0 w : world) (l : finalize_locals) : Prop :=
  (forall k, k ∈ noted_keys l -> w_objects w0 !! k = None) /\
  (forall k, k ∉ noted_keys l -> w_objects w !! k = w_objects w0 !! k) /\
  (forall f, f ∈ noted_files l -> f ∈ [ids_file out; ids_file err] /\ w_files w0 !! f = None) /\
  (forall f, f ∉ noted_files l -> w_files w !! f = w_files w0 !! f).

Definition cleanup_works : Prop :=
  (forall k, at_delete_object env k = false) /\ (forall f, committed (at_delete_record env f) = true).
Definition acknowledged (f : fault) : Prop := forall e, f <> AckLost e.

(** No job refers to the new files. *)
Definition unreferenced (file_id : string) (s : db) : Prop :=
  Forall (fun j => Job.output_file_id j <> Some file_id /\ Job.error_file_id j <> Some file_id) (jobs s).

Lemma forget_unreferenced file_id s : unreferenced file_id s -> on_jobs (map (forget_file file_id)) s = s.
Proof.
  unfold unreferenced. intros H. unfold on_jobs. destruct s as [its js ob fl sl sp]. cbn in *. f_equal.
  induction H as [|j js [H1 H2] _ IH]; simpl; [done|]. f_equal; [|done]. unfold forget_file, unless_is.
  destruct j as [? ? ? ? o e]. cbn in *.
  assert (E1 : match o with Some f => if String.eqb f file_id then None else o | None => None end = o).
  { destruct o as [f|]; [|done]. destruct (String.eqb_spec f file_id); [congruence|done]. }
  assert (E2 : match e with Some f => if String.eqb f file_id then None else e | None => None end = e).
  { destruct e as [f|]; [|done]. destruct (String.eqb_spec f file_id); [congruence|done]. }
  rewrite E1, E2. done.
Qed.

Lemma cleanup_unrecorded_spec ks w : cleanup_works ->
  cleanup_unrecorded_artifacts env ks w = mkWorld (w_db w) (w_files w) (foldl (fun fs k => delete k fs) (w_objects w) ks).
Proof.
  intros (Hd & _). unfold cleanup_unrecorded_artifacts, delete_object.
  revert w. induction ks as [|k ks IH]; intros w; [by destruct w|]. simpl. rewrite IH, Hd. done.
Qed.

Lemma cleanup_unattached_spec arts w : cleanup_works -> Forall (fun a => unreferenced (fst a) (w_db w)) arts ->
  cleanup_unattached_artifacts env arts w =
  mkWorld (w_db w) (foldl (fun fs f => delete f fs) (w_files w) (map fst arts))
    (foldl (fun fs k => delete k fs) (w_objects w) (map snd arts)).
Proof.
  intros (Hd & Hr) Ha. unfold cleanup_unattached_artifacts, delete_object. revert w Ha.
  induction arts as [|[f k] arts IH]; intros w Ha; [by destruct w|]. inversion Ha as [|? ? Hf Ha']; subst. cbn in Hf.
  cbn [fold_left]. rewrite Hd, Hr. unfold delete_file, delete_file_at, on_objects. cbn [w_db w_files w_objects].
  rewrite forget_unreferenced by done. by rewrite IH.
Qed.

Lemma lookup_delete_all {V} (m : gmap string V) ks k :
  foldl (fun fs k => delete k fs) m ks !! k = if bool_decide (k ∈ ks) then None else m !! k.
Proof.
  revert m. induction ks as [|k' ks IH]; intros m; [done|]. cbn [foldl]. rewrite IH.
  destruct (decide (k = k')) as [->|Hne].
  - rewrite lookup_delete_eq, (bool_decide_true (k' ∈ k' :: ks)) by left. by case_bool_decide.
  - rewrite lookup_delete_ne by congruence. do 2 case_bool_decide; set_solver.
Qed.

(** The clean-up takes [w] back to [w0], apart from the database. *)
Lemma cleanup_restores w0 w l : cleanup_works -> only_noted w0 w l ->
  unreferenced (ids_file out) (w_db w) -> unreferenced (ids_file err) (w_db w) ->
  cleanup_unattached_artifacts env (created_artifacts l)
    (cleanup_unrecorded_artifacts env (unrecorded_artifact_keys l) w) =
  mkWorld (w_db w) (w_files w0) (w_objects w0).
Proof.
  intros Hc (Hk & Hk' & Hf & Hf') Ho He. rewrite cleanup_unrecorded_spec by done.
  rewrite cleanup_unattached_spec; [|done|].
  - cbn [w_db w_files w_objects]. f_equal; apply map_eq; intros k.
    + rewrite lookup_delete_all. fold (noted_files l). case_bool_decide as E; [symmetry; by apply Hf|by apply Hf'].
    + rewrite <- foldl_app, lookup_delete_all. fold (noted_keys l).
      case_bool_decide as E; [symmetry; by apply Hk|by apply Hk'].
  - apply Forall_forall. intros a Ha. cbn [w_db].
    assert (Hin : fst a ∈ noted_files l) by (by apply list_elem_of_fmap_2).
    apply Hf in Hin as [[E|[E|[]%elem_of_nil]%elem_of_cons]%elem_of_cons _]; by rewrite E.
Qed.

Lemma noted_created k f key l : k ∈ noted_keys (note_created f key l) <-> k = key \/ k ∈ noted_keys l.
Proof.
  unfold noted_keys, note_created. cbn. rewrite map_app, !elem_of_app. cbn. rewrite list_elem_of_singleton.
  rewrite (list_elem_of_In (List.filter _ _)), filter_In, <- list_elem_of_In.
  destruct (String.eqb_spec k key) as [->|Hne]; [tauto|]. cbn. tauto.
Qed.

Lemma noted_unrecorded k key l : k ∈ noted_keys (note_unrecorded key l) <-> (key <> "" /\ k = key) \/ k ∈ noted_keys l.
Proof.
  unfold noted_keys, note_unrecorded. unfold Str.is_empty.
  destruct (String.eqb_spec key "") as [->|Hne]; [naive_solver|].
  cbn. rewrite !elem_of_app, list_elem_of_singleton. tauto.
Qed.

Lemma noted_files_created f' f key l : f' ∈ noted_files (note_created f key l) <-> f' = f \/ f' ∈ noted_files l.
Proof. unfold noted_files, note_created. cbn. rewrite map_app, elem_of_app. cbn. rewrite list_elem_of_singleton. tauto. Qed.

Lemma noted_files_unrecorded key l : noted_files (note_unrecorded key l) = noted_files l.
Proof. unfold note_unrecorded. by destruct (Str.is_empty key). Qed.

(** Nothing is stored under the new names, nor under the empty key. *)
Definition ids_new (w : world) : Prop :=
  w_objects w !! "" = None /\ w_objects w !! ids_key out = None /\ w_objects w !! ids_key err = None /\
  w_files w !! ids_file out = None /\ w_files w !! ids_file err = None.

Lemma put_noted (ids : artifact_ids) data fs k : k <> artifact_key ids data -> put (ids_key ids) data fs !! k = fs !! k.
Proof. unfold put, artifact_key. destruct data; [done|]. intros H. by rewrite lookup_insert_ne. Qed.

Lemma put_or_same (ids : artifact_ids) data fs k : ids_key ids <> "" ->
  ~ (artifact_key ids data <> "" /\ k = artifact_key ids data) -> put (ids_key ids) data fs !! k = fs !! k.
Proof.
  unfold put, artifact_key. destruct data; [done|]. intros Hne H. by rewrite lookup_insert_ne by naive_solver.
Qed.

Lemma new_key ids data w0 : ids = out \/ ids = err -> ids_new w0 -> w_objects w0 !! artifact_key ids data = None.
Proof. intros [-> | ->] (H1 & H2 & H3 & _); by destruct data. Qed.

Lemma optional_only_noted w0 needed d f ids purpose filename expires_at lines w l :
  ids = out \/ ids = err -> ids_new w0 -> usable ids (w_objects w) -> acknowledged f -> only_noted w0 w l ->
  match optional_artifact sha256 cfg needed d f ids purpose filename expires_at lines (w, l) with
  | ((w', l'), _) => only_noted w0 w' l' /\ w_db w' = w_db w
  end.
Proof.
  intros Hids Hnew Hu Hack Hon.
  pose proof (optional_artifact_spec needed d f ids purpose filename expires_at lines w l Hu) as H. cbv zeta in H.
  set (data := lines_file (yielded (lines (w_db w)))) in *.
  pose proof (new_key ids data w0 Hids Hnew) as Hkey.
  destruct Hon as (Hk & Hk' & Hf & Hf').
  destruct (optional_artifact _ _ _ _ _ _ _ _ _ _ _) as [[w' l'] [o|e]].
  - destruct H as (_ & _ & -> & ->). destruct needed; [|done]. split; [|done]. split_and!.
    + intros k [->|[[_ ->]|H]%noted_unrecorded]%noted_created; [done|done|by apply Hk].
    + intros k H. cbn. rewrite noted_created, noted_unrecorded in H. rewrite put_noted by tauto. apply Hk'. tauto.
    + intros g [->|H]%noted_files_created; [|rewrite noted_files_unrecorded in H; by apply Hf].
      destruct Hnew as (_ & _ & _ & H1 & H2). split; [set_solver|by destruct Hids as [-> | ->]].
    + intros g H. cbn. rewrite noted_files_created, noted_files_unrecorded in H.
      rewrite lookup_insert_ne by naive_solver. apply Hf'. tauto.
  - destruct H as [[-> ->]|([e' He] & -> & ->)]; [done|].
    replace (committed f) with false by (destruct f as [|e''|e'']; [done|done|by destruct (Hack e'')]).
    split; [|done]. unfold only_noted. rewrite noted_files_unrecorded. split_and!; [| |done|done].
    + intros k [[_ ->]|H]%noted_unrecorded; [done|by apply Hk].
    + intros k H. cbn. rewrite noted_unrecorded in H.
      rewrite put_or_same by (destruct Hu as (_ & _ & Hu); tauto). apply Hk'. tauto.
Qed.

Lemma only_noted_start w : only_noted w w no_locals.
Proof. unfold only_noted, noted_keys, noted_files. cbn. split_and!; (done || by intros ? ?%elem_of_nil). Qed.

Lemma only_noted_db w0 w w' l :
  w_files w' = w_files w -> w_objects w' = w_objects w -> only_noted w0 w l -> only_noted w0 w' l.
Proof. intros H1 H2. unfold only_noted. by rewrite H1, H2. Qed.

(** What [publish_artifacts] leaves when it fails. *)
Lemma publish_failure w w' l' e : ids_fresh w -> ids_new w ->
  acknowledged (at_output_record env) -> acknowledged (at_error_record env) -> acknowledged (at_attach env) ->
  publish_artifacts py_repr json_dumps sha256 now cfg env out err job (w, no_locals) = ((w', l'), Raise e) ->
  only_noted w w' l' /\ (w_db w' = w_db w \/ w_db w' = meanwhile env (w_db w)).
Proof.
  intros (Hu & Hu' & Hk & Hkt & Hf) Hnew Ha1 Ha2 Ha3 H. unfold publish_artifacts in H.
  set (needed := 0 <? Job.completed_items job) in *.
  set (needed' := (0 <? Job.failed_items job) || (0 <? Job.cancelled_items job)) in *.
  fold out_lines err_lines in H. unfold mbind at 1, st_bind at 1 in H.
  match type of H with context [optional_artifact _ _ needed ?d ?f out ?p ?n ?x ?ls _] =>
    pose proof (optional_only_noted w needed d f out p n x ls w no_locals (or_introl eq_refl) Hnew Hu Ha1
      (only_noted_start w)) as H1;
    pose proof (optional_artifact_spec needed d f out p n x ls w no_locals Hu) as H1' end.
  cbv zeta in H1'. destruct (optional_artifact _ _ needed _ _ _ _ _ _ _ _) as [[w1 l1] [o|e1]].
  2:{ injection H as <- <- <-. destruct H1 as [H1 ->]. by split; [|left]. }
  destruct H1 as [H1 Hdb1]. destruct H1' as (_ & _ & Hw1 & _).
  assert (Hu1 : usable err (w_objects w1)) by (rewrite Hw1; destruct needed; [by apply usable_put|done]).
  clear Hw1. unfold mbind at 1, st_bind at 1 in H.
  match type of H with context [optional_artifact _ _ needed' ?d ?f err ?p ?n ?x ?ls _] =>
    pose proof (optional_only_noted w needed' d f err p n x ls w1 l1 (or_intror eq_refl) Hnew Hu1 Ha2 H1) as H2 end.
  destruct (optional_artifact _ _ needed' _ _ _ _ _ _ _ _) as [[w2 l2] [o'|e2]].
  2:{ injection H as <- <- <-. destruct H2 as [H2 Hdb2]. split; [done|left; congruence]. }
  destruct H2 as [H2 Hdb2]. unfold mbind, st_bind, with_world, modify in H. cbn beta iota zeta in H.
  pose proof (attach_spec now (Job.batch_id job) o o' (resolve_final_status job) (fc_worker_id cfg)
    (at_attach env) (on_db (meanwhile env) w2)) as H3.
  assert (Hend : only_noted w (on_db (meanwhile env) w2) l2 /\
                 w_db (on_db (meanwhile env) w2) = meanwhile env (w_db w)).
  { split; [by apply (only_noted_db w w2)|]. cbn. congruence. }
  destruct (attach_artifacts _ _ _ _ _ _ _ _) as [w5 [[j|]|e5]]; [done| |]; injection H as <- <- <-.
  - rewrite H3. by destruct Hend as [? ->]; split; [|right].
  - destruct H3 as [_ H3]. rewrite (H3 Ha3). by destruct Hend as [? ->]; split; [|right].
Qed.

(** *** The theorems *)

(** The file a job row names, with these lines; no file when there are none. *)
Definition attached (w : world) (file_id : option string) (lines : list string) : Prop :=
  match file_id with Some f => published_file w f lines | None => lines = [] end.

Lemma counted_status t j k : counted t j ->
  Forall (fun i => Item.status i <> k) t \/ 0 < match k with
    | BatchItemStatus.COMPLETED => Job.completed_items j
    | BatchItemStatus.FAILED => Job.failed_items j
    | BatchItemStatus.CANCELLED => Job.cancelled_items j
    | _ => 1 end.
Proof.
  unfold counted, stats_of. intros [= _ _ _ -> -> -> _].
  destruct (decide (Exists (fun i => Item.status i = k) t)) as [(i & Hi & Hk)%Exists_exists|Hn].
  - right. assert (Hc : forall p, p i = true -> 0 < cnt p t).
    { intros p Hp. rewrite cnt_select. assert (Hs : i ∈ select_where p t) by (by apply elem_select).
      destruct (select_where p t); [by apply elem_of_nil in Hs|cbn; lia]. }
    destruct k; try done; apply Hc; unfold has_status; by rewrite Hk.
  - left. apply Forall_forall. intros i Hi Hk. apply Hn, Exists_exists. by exists i.
Qed.

(** The counters of the finalised job say which files there are. *)
Lemma files_needed w : system_ok (w_db w) -> job_row (Job.batch_id job) (w_db w) = Some job -> closed (Job.status job) = true ->
  let L := list_items (Job.batch_id job) (w_db w) in
  Forall (fun i => BatchItemStatus.terminal_item (Item.status i) = true) L /\
  (output_of = None -> List.filter is_completed L = []) /\
  (error_of = None -> List.filter is_unsuccessful L = []).
Proof.
  intros (_ & _ & Hok) Hj Hc L. rewrite Forall_forall in Hok.
  destruct (Hok job) as (_ & _ & H); [exact (proj1 (row_at_key _ _ _ _ Hj))|]. destruct (H Hc) as [Hf Hn].
  assert (Hp : L ≡ₚ items_of (Job.batch_id job) (items (w_db w))) by apply order_by_perm.
  assert (Hnone : forall p : Item.batch_item -> bool,
    (forall i, i ∈ items_of (Job.batch_id job) (items (w_db w)) -> p i = false) -> List.filter p L = []).
  { intros p Hi. destruct (List.filter p L) as [|x l] eqn:E; [done|]. exfalso.
    assert (Hx : In x (List.filter p L)) by (rewrite E; by left). apply filter_In in Hx as [Hx Hpx].
    apply list_elem_of_In in Hx. rewrite Hp in Hx. by rewrite Hi in Hpx. }
  split; [|destruct Hn as [Hn|Hn]].
  - rewrite Hp. exact Hf.
  - split; intros _; apply Hnone; rewrite Hn; by intros i ?%elem_of_nil.
  - pose proof (counted_status _ _ BatchItemStatus.COMPLETED Hn) as H1.
    pose proof (counted_status _ _ BatchItemStatus.FAILED Hn) as H2.
    pose proof (counted_status _ _ BatchItemStatus.CANCELLED Hn) as H3. cbn in H1, H2, H3. rewrite !Forall_forall in H1, H2, H3.
    split; [unfold output_of|unfold error_of]; intros Ho; apply Hnone; intros i Hi.
    + destruct (Z.ltb_spec 0 (Job.completed_items job)); [done|]. destruct H1 as [H1|H1]; [|lia].
      unfold is_completed. by rewrite bool_decide_false by (by apply H1).
    + destruct ((0 <? _) || _) eqn:E; [done|]. apply orb_false_iff in E as [E1%Z.ltb_ge E2%Z.ltb_ge].
      destruct H2 as [H2|H2]; [|lia]. destruct H3 as [H3|H3]; [|lia]. unfold is_unsuccessful.
      specialize (H2 i Hi). specialize (H3 i Hi). by destruct (Item.status i).
Qed.

(** C7: a published batch is complete.  In whatever state the batch system has
    reached, let a worker finalise the batch it has claimed, while the system
    goes on.  When that succeeds, the job it still held has the final status and
    the files; there is one output line per completed item, in line order, and
    one error line per failed or cancelled item, every item of the batch is one
    of these, and the lines, their size and checksum are those of the file the
    job names; a file that it does not name would have no line. *)
Theorem finalize_publishes sha256_hex resolver item_dumps item_str w w' :
  let b := Job.batch_id job in
  let L := list_items b (w_db w) in
  let s := meanwhile env (w_db w) in
  rtc (batch_step sha256_hex resolver item_dumps item_str) empty_db (w_db w) ->
  rtc (batch_step sha256_hex resolver item_dumps item_str) (w_db w) s ->
  job_row b (w_db w) = Some job -> closed (Job.status job) = true -> ids_fresh w ->
  finalize w = (w', Ret tt) ->
  exists j out_lines err_lines,
    job_row b s = Some j /\ held_for_finalization b (fc_worker_id cfg) j = true /\
    job_row b (w_db w') = Some (finalize_row now output_of error_of (resolve_final_status job) j) /\
    Forall2 (completed_line (Job.endpoint job)) (List.filter is_completed L) out_lines /\
    err_lines = map (fun i => json_dumps (serialize_failed_artifact_row i)) (List.filter is_unsuccessful L) /\
    L ≡ₚ List.filter is_completed L ++ List.filter is_unsuccessful L /\
    attached w' output_of out_lines /\ attached w' error_of err_lines.
Proof.
  intros b L s Hreach Hmean Hjob Hclosed Hfresh H. apply batch_steps_ok in Hreach; [|apply system_ok_empty].
  pose proof (batch_steps_ok _ _ _ _ _ _ Hmean Hreach) as (_ & Hnd & _).
  destruct (files_needed w Hreach Hjob Hclosed) as (Hdone & Hno & Hne). fold b L in Hdone, Hno, Hne.
  destruct Hreach as (U & _ & _). unfold finalize, finalize_artifacts in H.
  destruct (publish_artifacts _ _ _ _ _ _ _ _ _ _) as [[w1 l1] [[]|e]] eqn:E; [|done]. injection H as <-.
  destruct (publish_success w w1 l1 Hfresh E) as (Hdb & (j & Hj & Hheld) & Hout & Herr).
  destruct (paging_reads_whole_batch (at_output_pages env) (fc_page_size cfg) b (w_db w) U) as (l & unread & Hl & Hread).
  destruct (paging_reads_whole_batch (at_error_pages env) (fc_page_size cfg) b (w_db w) U) as (l' & unread' & Hl' & Hread').
  unfold out_lines, iter_output_lines, err_lines, iter_error_lines in Hout, Herr.
  fold b in Hout, Herr, Hdb, Hheld. rewrite Hl in Hout. rewrite Hl' in Herr. cbn [default from_option id] in Hout, Herr.
  fold L in Hread, Hread'. rewrite error_lines_of in Herr.
  assert (Hrow : job_row b s = Some j).
  { unfold held_for_finalization in Hheld. apply andb_true_iff in Hheld as [Hb%String.eqb_eq _].
    rewrite <- Hb. by apply row_at_elem. }
  assert (Hfinal : job_row b (w_db w1) = Some (finalize_row now output_of error_of (resolve_final_status job) j)).
  { rewrite Hdb. fold s. unfold job_row, finalized_db. cbn [jobs on_jobs].
    rewrite row_at_update by done. unfold job_row in Hrow. rewrite Hrow. cbn. by rewrite Hheld. }
  assert (Hline : exists lines, Forall2 (completed_line (Job.endpoint job)) (List.filter is_completed L) lines /\
    attached w1 output_of lines).
  { destruct output_of as [o|] eqn:Eo.
    - destruct Hout as [Hend Hp]; [done|]. destruct (output_lines_of _ _ _ Hend) as [Hu Hf]. rewrite (Hread Hu) in Hf, Hp.
      eexists. split; [exact Hf|].
      assert (o = ids_file out) as -> by (unfold output_of in Eo; destruct (0 <? _); congruence). exact Hp.
    - exists []. by rewrite Hno. }
  destruct Hline as (lines & Hf & Ha). exists j, lines. eexists. split_and!; try done; [by apply finished_partition|].
  destruct error_of as [o|] eqn:Eo; [|by rewrite Hne].
  assert (o = ids_file err) as -> by (unfold error_of in Eo; destruct (_ || _); congruence).
  destruct Herr as [Hend Hp]; [done|]. cbn in Hend. destruct unread'; [done|]. by rewrite (Hread' eq_refl) in Hp.
Qed.

(** C39: a finalisation that fails leaves nothing behind.  Whatever fails (a row
    that cannot be made public, the disk, a statement, a lease lost meanwhile),
    the files and the objects are as before and the database is as the others
    left it, provided every statement that was committed was acknowledged and
    the clean-up works. *)
Theorem finalize_failure_restores w w' e :
  ids_fresh w -> ids_new w -> cleanup_works ->
  acknowledged (at_output_record env) -> acknowledged (at_error_record env) -> acknowledged (at_attach env) ->
  (forall f, f ∈ [ids_file out; ids_file err] -> unreferenced f (w_db w) /\ unreferenced f (meanwhile env (w_db w))) ->
  finalize w = (w', Raise e) ->
  w_files w' = w_files w /\ w_objects w' = w_objects w /\
  (w_db w' = w_db w \/ w_db w' = meanwhile env (w_db w)).
Proof.
  intros Hfresh Hnew Hc Ha1 Ha2 Ha3 Href H. unfold finalize, finalize_artifacts in H.
  destruct (publish_artifacts _ _ _ _ _ _ _ _ _ _) as [[w1 l1] [[]|e1]] eqn:E; [done|].
  apply publish_failure in E as [Hon Hdb]; [|done..].
  destruct (Href (ids_file out)) as [Ho Ho']; [set_solver|]. destruct (Href (ids_file err)) as [He He']; [set_solver|].
  rewrite (cleanup_restores w w1 l1) in H; [|done|done|by destruct Hdb as [-> | ->]..].
  by injection H as <- _.
Qed.

(** *** Letting go of the batch *)

Definition let_go (b worker_id : string) (s : db) : Prop :=
  Forall (fun j => held_for_finalization b worker_id j = false) (jobs s).

Lemma update_lets_go b worker_id f s : (forall j, Job.locked_by (f j) = None) ->
  let_go b worker_id (on_jobs (update_where (held_for_finalization b worker_id) f) s).
Proof.
  intros Hf. apply Forall_forall. intros j Hj. cbn in Hj. apply elem_update in Hj as (j0 & _ & ->).
  destruct (held_for_finalization b worker_id j0) eqn:E; [|done].
  unfold held_for_finalization, locked_for. rewrite Hf. cbn. by rewrite andb_false_r.
Qed.

Definition ended_at (b : string) (s : db) : Prop :=
  exists j, j ∈ jobs s /\ is_job b j = true /\ BatchJobStatus.terminal_job (Job.status j) = true.

Lemma finalized_ended t b o o' final worker_id s j : BatchJobStatus.terminal_job final = true ->
  j ∈ jobs s -> held_for_finalization b worker_id j = true -> ended_at b (finalized_db t b o o' final worker_id s).
Proof.
  intros Ht Hj Hheld. exists (finalize_row t o o' final j). split_and!; [|by apply andb_true_iff in Hheld as [? _]|done].
  cbn. apply elem_update. exists j. by rewrite Hheld.
Qed.

Lemma published_ends w w' : finalize w = (w', Ret tt) ->
  let_go (Job.batch_id job) (fc_worker_id cfg) (w_db w') /\ ended_at (Job.batch_id job) (w_db w').
Proof.
  intros H. unfold finalize, finalize_artifacts in H.
  destruct (publish_artifacts _ _ _ _ _ _ _ _ _ _) as [[w1 l1] [[]|e]] eqn:E; [|done]. injection H as <-.
  unfold publish_artifacts in E. apply bind_ret_inv in E as (x1 & o & _ & E). apply bind_ret_inv in E as (x2 & o' & _ & E).
  apply bind_ret_inv in E as ([w3 l3] & [] & _ & E). apply bind_ret_inv in E as ([w4 l4] & r & Ho & E). unfold with_world in Ho.
  pose proof (attach_spec now (Job.batch_id job) o o' (resolve_final_status job) (fc_worker_id cfg) (at_attach env) w3) as H.
  destruct (attach_artifacts _ _ _ _ _ _ _ _) as [w5 [r'|e]]; [|done]. injection Ho as <- <- <-.
  destruct r' as [j'|]; [|done]. injection E as <- <-. destruct H as (-> & j & Hj & Hheld). split.
  - by apply update_lets_go.
  - eapply finalized_ended; [apply resolve_final_terminal|done..].
Qed.

Lemma set_provider_error_keeps t b text f w :
  let s' := w_db (fst (on_db_st f (set_provider_error t b text) w)) in
  (forall b' worker_id, let_go b' worker_id (w_db w) -> let_go b' worker_id s') /\
  (ended_at b (w_db w) -> ended_at b s').
Proof.
  assert (Hs : fst (set_provider_error t b text (w_db w)) =
    on_jobs (update_where (is_job b) (fun j => Job.set_provider_error text (Job.set_status_last_updated_at t j))) (w_db w)) by done.
  assert (Hc : let s' := w_db (fst (on_db_st f (set_provider_error t b text) w)) in
    s' = w_db w \/ s' = fst (set_provider_error t b text (w_db w))).
  { unfold on_db_st, with_fault, transaction. destruct f; cbn; [by right|by left|by right]. }
  cbv zeta in *. destruct Hc as [-> | ->]; [done|]. rewrite Hs. split.
  - intros b' wk H. apply Forall_forall. intros j Hj. cbn in Hj. apply elem_update in Hj as (j0 & Hj0 & ->).
    unfold let_go in H. rewrite Forall_forall in H. specialize (H j0 Hj0). by destruct (is_job b j0).
  - intros (j & Hj & Hb & Ht). eexists. cbn. split; [apply elem_update; by exists j|]. by rewrite Hb.
Qed.

(** The row a retry leaves. *)
Definition rescheduled_row (j : Job.batch_job) : Prop :=
  is_job (Job.batch_id job) j = true /\ finalizing j = true /\ Job.locked_by j = None /\
  Job.lease_expires_at j = Some (after_seconds now (Z.max 1 (fc_retry_delay_seconds cfg))).

Lemma schedule_spec fs w : at_reschedule fs = NoFault ->
  exists w' outcome, schedule_finalization_retry now cfg fs job w = (w', Ret outcome) /\
    let_go (Job.batch_id job) (fc_worker_id cfg) (w_db w') /\
    match outcome with
    | Rescheduled => exists j, j ∈ jobs (w_db w') /\ rescheduled_row j
    | LeaseLost => w' = w /\ let_go (Job.batch_id job) (fc_worker_id cfg) (w_db w)
    | _ => False
    end.
Proof.
  intros Hf. unfold schedule_finalization_retry, on_db_st, mbind, st_bind. rewrite Hf. unfold with_fault, transaction.
  set (b := Job.batch_id job). set (wk := fc_worker_id cfg).
  set (f := fun j => Job.set_lease_expires_at (Some (after_seconds now (Z.max 1 (fc_retry_delay_seconds cfg))))
                (Job.set_locked_by None (Job.set_status_last_updated_at now j))).
  assert (E : reschedule_finalization now b wk (fc_retry_delay_seconds cfg) (w_db w) =
    (on_jobs (update_where (held_for_finalization b wk) f) (w_db w),
     Ret (any_row (map f (select_where (held_for_finalization b wk) (jobs (w_db w))))))).
  { unfold reschedule_finalization, update_any_job, update_jobs, mbind, st_bind, mret, st_ret.
    assert (X : forall j, is_job b j && locked_for wk j && finalizing j = held_for_finalization b wk j)
      by (intros j; unfold held_for_finalization; by rewrite andb_assoc).
    unfold select_where. rewrite (filter_ext _ _ X). f_equal. unfold on_jobs. f_equal.
    unfold update_where. apply map_ext. intros j. by rewrite X. }
  rewrite E. eexists _, _. split; [reflexivity|]. split; [by apply update_lets_go|].
  destruct (select_where (held_for_finalization b wk) (jobs (w_db w))) as [|j js] eqn:Es; cbn [map any_row].
  - assert (Hn : forall j, j ∈ jobs (w_db w) -> held_for_finalization b wk j = false).
    { intros j Hj. destruct (held_for_finalization b wk j) eqn:Eh; [|done].
      assert (Hin : j ∈ select_where (held_for_finalization b wk) (jobs (w_db w))) by (by apply elem_select).
      rewrite Es in Hin. by apply elem_of_nil in Hin. }
    split; [|by apply Forall_forall]. unfold on_db, on_jobs. rewrite update_none by done. by destruct w as [[] ? ?].
  - assert (Hin : j ∈ select_where (held_for_finalization b wk) (jobs (w_db w))) by (rewrite Es; left).
    apply elem_select in Hin as [Hin Hh]. exists (f j). split; [cbn; apply elem_update; exists j; by rewrite Hh|].
    unfold held_for_finalization in Hh. apply andb_true_iff in Hh as [Hb [_ Hfin]%andb_true_iff]. done.
Qed.

Lemma permanent_failure_ends fs reason w w' :
  persist_permanent_finalization_failure now cfg fs job reason w = (w', Ret true) ->
  let_go (Job.batch_id job) (fc_worker_id cfg) (w_db w') /\ ended_at (Job.batch_id job) (w_db w').
Proof.
  intros H. apply bind_ret_inv in H as (w1 & r & Ho & H). unfold on_db_st, with_fault, transaction in Ho.
  rewrite attach_statement in Ho. destruct (at_permanent fs); [|done..]. injection Ho as <- <-.
  match type of H with context [head ?l] => destruct (head l) as [j|] eqn:Eh; [|done] end.
  apply head_Some_elem_of, list_elem_of_fmap in Eh as (j0 & _ & [Hj Hh]%elem_select).
  match goal with H : _ ?w1 = _ |- _ => set (x := w1) in * end.
  destruct (set_provider_error_keeps now (Job.batch_id job)
    (Some ("artifact_validation_failed: " +:+ reason)) (at_reason fs) x) as [H1 H2].
  unfold mbind, st_bind, record_reason in H. injection H as <-. split; [apply H1; by apply update_lets_go|].
  apply H2. unfold x. by eapply (finalized_ended now _ _ _ _ _ _ j0).
Qed.

(** Finalisation lets go of the batch.  However [finalize_with_retry] ends
    (an error of the reschedule itself aside), this worker no longer holds the
    batch: the job has a final status, or it waits for any worker to finalise it
    once the retry delay is over, or the lease had been lost. *)
Theorem finalization_lets_go fs w :
  at_reschedule fs = NoFault ->
  exists w' outcome,
    finalize_with_retry py_repr json_dumps sha256 now cfg env fs out err job w = (w', Ret outcome) /\
    let_go (Job.batch_id job) (fc_worker_id cfg) (w_db w') /\
    match outcome with
    | Published | PermanentlyFailed => ended_at (Job.batch_id job) (w_db w')
    | Rescheduled => exists j, j ∈ jobs (w_db w') /\ rescheduled_row j
    | LeaseLost => True
    end.
Proof.
  intros Hf. unfold finalize_with_retry. fold finalize.
  destruct (finalize w) as [w1 [[]|[reason|e]]] eqn:E.
  - apply published_ends in E as [H1 H2]. by eexists _, Published.
  - destruct (persist_permanent_finalization_failure now cfg fs job reason w1) as [w2 [[]|e]] eqn:Ep.
    1: { apply permanent_failure_ends in Ep as [H1 H2]. by eexists _, PermanentlyFailed. }
    all: destruct (schedule_spec fs w2 Hf) as (w' & o & -> & H1 & H2); exists w', o; by destruct o.
  - destruct (schedule_spec fs w1 Hf) as (w' & o & -> & H1 & H2). exists w', o. by destruct o.
Qed.
End published.

(** ** Examples *)

Definition sample_embedding : pyval :=
  PyDict [("model", PyStr "m"); ("data", PyList [PyDict [("embedding", PyList [])]]);
          ("usage", PyDict [("prompt_tokens", PyInt 1); ("completion_tokens", PyInt 0); ("total_tokens", PyInt 1)])].

(** Item "0" completes, item "1" fails; worker "w" finalises. *)
Definition mixed_db : db :=
  let s := fst (mark_item_completed (20 * usec) (Some "w")
    (mkCompletion "0" (Some 1) sample_embedding None (1 # 2) (3 # 4)) sliced2) in
  let s := fst (mark_item_failed (20 * usec) "1" (Some "w")
    (PyDict [("message", PyStr "no")]) "no" false 0 (Some 1) s) in
  fst (refresh_job_progress (21 * usec) "batch" s).
Definition mixed_finalizer : db * res exn (option Job.batch_job) :=
  claim_next_finalization (22 * usec) nothing_held "w" 60 mixed_db.

Definition sample_finalize_config : finalize_config := mkFinalizeConfig "w" 1 30 14 60 "local".
Definition good_disk : disk fin_exc := mkDisk (fun _ => None) None.
Definition sample_surroundings (record attach : fault) : surroundings :=
  mkSurroundings (fun _ => None) good_disk NoFault (fun _ => None) good_disk record (fun s => s) attach (fun _ => false) (fun _ => NoFault).
Definition sample_out : artifact_ids := mkIds "out" "out.tmp" "f1".
Definition sample_err : artifact_ids := mkIds "err" "err.tmp" "f2".
Definition sample_render (v : pyval) : string := match v with PyDict d => sample_str (vget d "custom_id") | _ => "" end.
Definition mixed_world : world := mkWorld (fst mixed_finalizer) ∅ ∅.

Abbreviation sample_finalize record attach :=
  (finalize sample_str sample_render (fun _ => "sum") (23 * usec) sample_finalize_config
    (sample_surroundings record attach) sample_out sample_err (sample_record mixed_finalizer)).

Example mixed_files :
  w_objects (fst (sample_finalize NoFault NoFault mixed_world)) =
    <["err" := lines_file ["y"]]> {["out" := lines_file ["x"]]} /\
  job_view "batch" (w_db (fst (sample_finalize NoFault NoFault mixed_world))) =
    Some (BatchJobStatus.COMPLETED, 2, 1, 1, Some "f1").
Proof. split; vm_compute; reflexivity. Qed.

Lemma mixed_steps : rtc sample_step empty_db (fst mixed_finalizer).
Proof.
  apply (rtc_l _ _ promoted); [apply sys_promote|]. apply (rtc_l _ _ sliced); [apply sys_claim_work|].
  apply (rtc_l _ _ sliced2); [apply sys_claim_work|].
  eapply rtc_l; [by apply (sys_item _ _ _ _ (OpComplete (20 * usec) (Some "w")
    (mkCompletion "0" (Some 1) sample_embedding None (1 # 2) (3 # 4))))|].
  eapply rtc_l; [by apply (sys_item _ _ _ _ (OpFail (20 * usec) "1" (Some "w")
    (PyDict [("message", PyStr "no")]) "no" false 0 (Some 1)))|].
  eapply rtc_l; [apply (sys_refresh _ _ _ _ (21 * usec) "batch")|].
  apply rtc_once, (sys_claim_finalization _ _ _ _ (22 * usec) nothing_held "w" 60).
Qed.

Lemma finalize_publishes_witness :
  let w' := fst (sample_finalize NoFault NoFault mixed_world) in
  published_file (fun _ => "sum") w' "f1" ["x"] /\ published_file (fun _ => "sum") w' "f2" ["y"].
Proof.
  intros w'.
  assert (E : sample_finalize NoFault NoFault mixed_world = (w', Ret tt)) by (vm_compute; reflexivity).
  destruct (finalize_publishes sample_str sample_render (fun _ => "sum") (23 * usec) sample_finalize_config
    (sample_surroundings NoFault NoFault) sample_out sample_err (sample_record mixed_finalizer)
    (fun s => s) None sample_dumps sample_str mixed_world w' mixed_steps (rtc_refl _ _))
    as (j & out_lines & err_lines & _ & _ & _ & Hl & He & _ & Ho & Hx).
  - vm_compute. reflexivity.
  - vm_compute. reflexivity.
  - unfold ids_fresh, usable. split_and!; first [by vm_compute; reflexivity | discriminate].
  - exact E.
  - assert (El : out_lines = ["x"]).
    { revert Hl. match goal with |- Forall2 _ ?l _ -> _ => let v := eval vm_compute in l in
        replace l with v by (vm_compute; reflexivity) end.
      intros Hl. apply Forall2_cons_inv_l in Hl as (line & rest & (v & Hv & ->) & Hrest & ->).
      apply Forall2_nil_inv_l in Hrest as ->. vm_compute in Hv. injection Hv as <-. reflexivity. }
    assert (Ex : err_lines = ["y"]) by (rewrite He; vm_compute; reflexivity).
    rewrite El in Ho. rewrite Ex in Hx. split; [exact Ho|exact Hx].
Defined.

Definition is_none_str (c : option string) : bool := match c with None => true | Some _ => false end.

(** The answer to the last statement is a failure: everything is taken back. *)
Lemma finalize_failure_restores_witness :
  let w' := fst (sample_finalize NoFault (RolledBack EAsyncioTimeout) mixed_world) in
  w_files w' = ∅ /\ w_objects w' = ∅ /\ w_db w' = w_db mixed_world.
Proof.
  intros w'.
  assert (E : sample_finalize NoFault (RolledBack EAsyncioTimeout) mixed_world =
              (w', Raise (FinalizeError EAsyncioTimeout))) by (vm_compute; reflexivity).
  pose proof (finalize_failure_restores sample_str sample_render (fun _ => "sum") (23 * usec) sample_finalize_config
    (sample_surroundings NoFault (RolledBack EAsyncioTimeout)) sample_out sample_err (sample_record mixed_finalizer)
    mixed_world w' (FinalizeError EAsyncioTimeout)) as H.
  destruct H as (H1 & H2 & H3).
  - unfold ids_fresh, usable. split_and!; first [by vm_compute; reflexivity | discriminate].
  - unfold ids_new. split_and!; vm_compute; reflexivity.
  - split; [reflexivity|]. intros f. reflexivity.
  - intros e. discriminate.
  - intros e. discriminate.
  - intros e. discriminate.
  - assert (Hn : forall j, In j (jobs (w_db mixed_world)) ->
      is_none_str (Job.output_file_id j) && is_none_str (Job.error_file_id j) = true)
      by (apply forallb_forall; vm_compute; reflexivity).
    intros f _. clear -Hn. cbn [meanwhile sample_surroundings]. revert Hn. generalize (w_db mixed_world). intros s Hn.
    split; apply Forall_forall; intros j Hj%list_elem_of_In; specialize (Hn j Hj);
      destruct (Job.output_file_id j), (Job.error_file_id j); try discriminate Hn; split; discriminate.
  - exact E.
  - split_and!; [exact H1|exact H2|cbn [meanwhile sample_surroundings] in H3; destruct H3 as [H3|H3]; exact H3].
Defined.

Definition sample_retry (attach : fault) : world * res exn finalize_outcome :=
  finalize_with_retry sample_str sample_render (fun _ => "sum") (23 * usec) sample_finalize_config
    (sample_surroundings NoFault attach) (mkRetryFaults NoFault NoFault NoFault) sample_out sample_err
    (sample_record mixed_finalizer) mixed_world.

Lemma finalization_lets_go_witness :
  snd (sample_retry (RolledBack EAsyncioTimeout)) = Ret Rescheduled /\
  let_go "batch" "w" (w_db (fst (sample_retry (RolledBack EAsyncioTimeout)))).
Proof.
  destruct (finalization_lets_go sample_str sample_render (fun _ => "sum") (23 * usec) sample_finalize_config
    (sample_surroundings NoFault (RolledBack EAsyncioTimeout)) sample_out sample_err (sample_record mixed_finalizer)
    (mkRetryFaults NoFault NoFault NoFault) mixed_world eq_refl) as (w' & o & E & H & _).
  split; [vm_compute; reflexivity|]. unfold sample_retry. rewrite E. exact H.
Defined.

(** The commit of [attach_artifacts_and_finalize] whose answer is lost: the
    clean-up deletes the files just published, the foreign keys forget them, and
    the batch stays "completed" without its output. *)
Lemma lost_acknowledgement_unpublishes :
  let w' := fst (sample_retry (AckLost EAsyncioTimeout)) in
  snd (sample_retry (AckLost EAsyncioTimeout)) = Ret LeaseLost /\
  job_view "batch" (w_db w') = Some (BatchJobStatus.COMPLETED, 2, 1, 1, None) /\
  w_files w' = ∅ /\ w_objects w' = ∅.
Proof. vm_compute. split_and!; reflexivity. Qed.
