(* ===== verification/ModelCapacity.v ===== *)
(** * Model capacity: src/batch/scheduling/model_capacity.py

    What each model group could take on now: the backlog and the work in flight
    ([list_model_group_backlog] and [list_model_group_in_flight] of
    job_repository.py), the limits of its healthy deployments, and the groups
    to claim from, oldest queue first. *)

From Stdlib Require Import Sorting.Sorted Qround.
From S2P Require Import Prelude PyVal Errors Calendar Billing RouterState Backend Strategies Router Backpressure.
From S2P Require Import BatchModels BatchDb Scheduling BatchItems BatchOutbox BatchBilling WorkClaim FairShare.
Import BatchItemStatus.

(** ** Grouping *)

(** [GROUP BY], and a dict filled by [setdefault]. *)
Definition tally {A K V} `{Countable K} (key : A -> K) (add : option V -> A -> V) (l : list A) : gmap K V :=
  foldl (fun m a => <[key a := add (m !! key a) a]> m) ∅ l.

(** What is tallied under a key. *)
Definition tallied {A V} (add : option V -> A -> V) (l : list A) : option V :=
  foldl (fun v a => Some (add v a)) None l.

Lemma tally_from {A K V} `{Countable K} (key : A -> K) (add : option V -> A -> V) (l : list A) (m : gmap K V) k :
  foldl (fun m a => <[key a := add (m !! key a) a]> m) m l !! k =
  foldl (fun v a => Some (add v a)) (m !! k) (List.filter (fun a => bool_decide (key a = k)) l).
Proof.
  revert m. induction l as [|a l IH]; intros m; [done|]. cbn [foldl List.filter]. rewrite IH.
  case_bool_decide as E; [subst k; by rewrite lookup_insert_eq|by rewrite lookup_insert_ne].
Qed.

Lemma tally_lookup {A K V} `{Countable K} (key : A -> K) (add : option V -> A -> V) (l : list A) k :
  tally key add l !! k = tallied add (List.filter (fun a => bool_decide (key a = k)) l).
Proof. unfold tally, tallied. by rewrite tally_from, lookup_empty. Qed.

(** ** The queries *)

Record BatchModelBacklogRecord : Type := mkBacklog {
  bl_model_group : string;
  bl_service_tier : string;
  bl_size_class : string;
  bl_queued_jobs : Z;
  bl_queued_work_units : Z;
  bl_oldest_queue_entered_at : option Z
}.

Record BatchModelInFlightRecord : Type := mkInFlight { if_items : Z; if_work_units : Z }.

Definition tier_column (j : Job.batch_job) : string := text_or "standard" (Job.service_tier j).

(** [base_jobs] joined with [runnable_job_backlog]. *)
Definition runnable_job (now : Z) (s : db) (j : Job.batch_job) : bool :=
  job_claimable now j && if_set (fun g => negb (Str.is_empty g)) (Job.scheduling_model_group j)
  && match runnable_items now (Job.batch_id j) s with [] => false | _ => true end.
Definition runnable_work_units (now : Z) (s : db) (j : Job.batch_job) : Z :=
  Z.max (work_units (runnable_items now (Job.batch_id j) s)) 1.

Definition backlog_key (j : Job.batch_job) : string * string * string :=
  (default "" (Job.scheduling_model_group j), tier_column j, text_or "unknown" (Job.size_class j)).
Definition add_backlog (now : Z) (s : db) (r : option (Z * Z * Z)) (j : Job.batch_job) : Z * Z * Z :=
  let u := runnable_work_units now s j in
  match r with
  | None => (1, u, SizeAging.queue_time j)
  | Some (n, units, oldest) => (n + 1, units + u, Z.min oldest (SizeAging.queue_time j))
  end.

Definition backlog_order (x y : BatchModelBacklogRecord) : bool :=
  le_of (then_by (nulls_last (bl_oldest_queue_entered_at x) (bl_oldest_queue_entered_at y))
    (then_by (String.compare (bl_model_group x) (bl_model_group y))
      (then_by (String.compare (bl_service_tier x) (bl_service_tier y))
               (String.compare (bl_size_class x) (bl_size_class y))))).

Definition backlog_row (r : string * string * string * (Z * Z * Z)) : BatchModelBacklogRecord :=
  let '(group, tier, size, (n, units, oldest)) := r in mkBacklog group tier size n units (Some oldest).

Definition list_model_group_backlog (now : Z) (s : db) : list BatchModelBacklogRecord :=
  order_by backlog_order
    (map backlog_row (map_to_list
       (tally backlog_key (add_backlog now s) (select_where (runnable_job now s) (jobs s))))).

(** An item counted by [list_model_group_in_flight], with its group and tier. *)
Definition flying (now : Z) (s : db) (i : Item.batch_item) : bool :=
  bool_decide (Item.status i = IN_PROGRESS) && null_or (fun t => now <? t) (Item.lease_expires_at i)
  && match capacity_group s i with Some _ => true | None => false end.
Definition flight_key (s : db) (i : Item.batch_item) : string * string :=
  (default "" (capacity_group s i), match job_row (Item.batch_id i) s with Some j => tier_column j | None => "" end).
Definition add_flying (r : option BatchModelInFlightRecord) (i : Item.batch_item) : BatchModelInFlightRecord :=
  match r with
  | None => mkInFlight 1 (est i)
  | Some r => mkInFlight (if_items r + 1) (if_work_units r + est i)
  end.

(** The rows as the resolver indexes them; it skips empty names. *)
Definition in_flight_index (now : Z) (s : db) : gmap (string * string) BatchModelInFlightRecord :=
  tally (flight_key s) add_flying
    (select_where (fun i => flying now s i && negb (Str.is_empty (fst (flight_key s i)))
                            && negb (Str.is_empty (snd (flight_key s i)))) (items s)).

(** ** Configuration *)

Record BatchModelCapacityConfig : Type := mkCapacityConfig {
  cc_enabled : bool;
  cc_default_model_max_in_flight : Z;
  cc_default_model_max_claim_work_units : Z;
  cc_capacity_fraction : pyfloat;
  cc_refresh : Z;       (* microseconds *)
  cc_fail_open : bool
}.

(** The settings read beside the modes. *)
Record capacity_settings : Type := mkCapacitySettings {
  cs_default_model_max_in_flight : Z;
  cs_default_model_max_claim_work_units : Z;
  cs_capacity_fraction : pyfloat;
  cs_refresh : Z;
  cs_fail_open : bool
}.

(** [max(a, b)] and [min(a, b)]: the first argument unless the second is beyond it. *)
Definition fmax (a b : pyfloat) : pyfloat := if Fl.ltb a b then b else a.
Definition fmin (a b : pyfloat) : pyfloat := if Fl.ltb b a then b else a.
Definition int_or (d n : Z) : Z := if n =? 0 then d else n.
Definition least_fraction : pyfloat := FFin (1 # 10000).

Definition from_settings (modes : Modes.settings) (c : capacity_settings) : BatchModelCapacityConfig :=
  let m := Modes.resolve_scheduler_modes_from_settings modes in
  let explicit_mode_control := Modes.field_was_set modes "embeddings_batch_scheduler_mode"
                               || Modes.field_was_set modes "embeddings_batch_scheduler_shadow_mode" in
  let mode_enabled := Modes.scheduler_mode_uses_model_capacity (Modes.active_mode m)
                      || Modes.scheduler_mode_uses_model_capacity (Modes.shadow_mode m) in
  mkCapacityConfig
    (if explicit_mode_control then mode_enabled
     else Modes.embeddings_batch_model_capacity_enabled modes || mode_enabled)
    (Z.max 1 (int_or 16 (cs_default_model_max_in_flight c)))
    (Z.max 1 (int_or 64 (cs_default_model_max_claim_work_units c)))
    (fmin (FFin 1) (fmax least_fraction
       (if Fl.truthy (cs_capacity_fraction c) then cs_capacity_fraction c else FFin (1 # 4))))
    (Z.max (usec / 10) (int_or (5 * usec) (cs_refresh c)))
    (cs_fail_open c).

(** ** Snapshots *)

(** The selection time and the skip counters that a snapshot also shows are
    read from the resolver's dictionaries. *)
Record BatchModelCapacitySnapshot : Type := mkSnap {
  sp_model_group : string;
  sp_service_tier : string;
  sp_max_in_flight_items : Z;
  sp_max_claim_work_units : Z;
  sp_available_in_flight_items : Z;
  sp_available_work_units : Z;
  sp_rpm_remaining : option Z;
  sp_tpm_remaining : option Z;
  sp_healthy_deployments : Z;
  sp_backpressure_until : option Z;
  sp_reason : option string;
  sp_capacity_source : string;
  sp_queued_jobs : Z;
  sp_queued_work_units : Z;
  sp_in_flight_items : Z;
  sp_in_flight_work_units : Z;
  sp_oldest_queue_entered_at : option Z
}.

Definition eligible (x : BatchModelCapacitySnapshot) : bool :=
  match sp_reason x with None => true | Some _ => false end && (0 <? sp_available_in_flight_items x)
  && (0 <? sp_available_work_units x) && (0 <? sp_queued_jobs x).

Record BatchModelCapacitySelection : Type := mkCapacitySelection {
  cl_snapshot : BatchModelCapacitySnapshot;
  cl_max_items : Z;
  cl_max_work_units : Z
}.

Record backlog_aggregate : Type := mkBacklogAggregate {
  ba_queued_jobs : Z;
  ba_queued_work_units : Z;
  ba_oldest_queue_entered_at : option Z
}.

Definition min_oldest (a b : option Z) : option Z :=
  match a, b with Some x, Some y => Some (Z.min x y) | None, c | c, None => c end.

Definition add_aggregate (a : option backlog_aggregate) (r : BatchModelBacklogRecord) : backlog_aggregate :=
  let a := default (mkBacklogAggregate 0 0 None) a in
  mkBacklogAggregate (ba_queued_jobs a + Z.max 0 (bl_queued_jobs r))
    (ba_queued_work_units a + Z.max 0 (bl_queued_work_units r))
    (min_oldest (ba_oldest_queue_entered_at a) (bl_oldest_queue_entered_at r)).

Definition aggregate_key (r : BatchModelBacklogRecord) : string * string :=
  (Str.strip (bl_model_group r), text_or "standard" (Str.strip (text_or "standard" (bl_service_tier r)))).

Definition aggregate_backlog (rows : list BatchModelBacklogRecord) : gmap (string * string) backlog_aggregate :=
  tally aggregate_key add_aggregate (List.filter (fun r => negb (Str.is_empty (Str.strip (bl_model_group r)))) rows).

(** [_CapacityLimits] *)
Record capacity_limits : Type := mkLimits {
  cl_max_in_flight_items : Z;
  cl_max_claim_work_units : Z;
  cl_rpm_remaining : option Z;
  cl_tpm_remaining : option Z;
  cl_healthy_deployments : Z;
  cl_source : string;
  cl_reason : option string
}.

(** *** Metadata of the deployments *)

Definition positive_int (value : pyval) : res pyexc (option Z) :=
  match value with
  | PyNone => Ret None
  | _ => match py_int value with
         | Ret n => Ret (if 0 <? n then Some n else None)
         | Raise OverflowError => Raise OverflowError
         | Raise _ => Ret None
         end
  end.

Definition mapping_of (v : pyval) : pydict := match v with PyDict d => d | _ => [] end.
Definition batch_capacity (d : Deployment) : pydict := mapping_of (vget (model_info d) "batch_capacity").
Definition batch_capacity_int (key : string) (d : Deployment) : res pyexc (option Z) :=
  positive_int (vget (batch_capacity d) key).
Definition batch_capacity_float (key : string) (d : Deployment) : res pyexc (option pyfloat) :=
  match vget (batch_capacity d) key with
  | PyNone => Ret None
  | v => match py_float v with
         | Ret f => Ret (if Fl.ltb Fl.zero f || match f with FNaN => true | _ => false end then Some f else None)
         | Raise OverflowError => Raise OverflowError
         | Raise _ => Ret None
         end
  end.
Definition model_info_int (key : string) (d : Deployment) : res pyexc (option Z) := positive_int (vget (model_info d) key).
Definition router_max_in_flight (d : Deployment) : res pyexc (option Z) :=
  match vget (deltallm_params d) "chat_batching" with
  | PyDict c => positive_int (vget c "max_in_flight")
  | _ => Ret None
  end.

(** [[v for d in l if (v := f(d)) is not None]] *)
Fixpoint known_values {A V} (f : A -> res pyexc (option V)) (l : list A) : res pyexc (list V) :=
  match l with
  | [] => Ret []
  | d :: l' => v ← f d; vs ← known_values f l'; Ret (match v with Some v => v :: vs | None => vs end)
  end.

(** [math.floor] *)
Definition float_floor (x : pyfloat) : res pyexc Z :=
  match x with FFin q => Ret (Qfloor q) | FInf _ => Raise OverflowError | FNaN => Raise ValueError end.

Definition capacity_fraction (cfg : BatchModelCapacityConfig) (l : list Deployment) : res pyexc pyfloat :=
  fractions ← known_values (batch_capacity_float "capacity_fraction") l;
  match fractions with
  | [] => Ret (cc_capacity_fraction cfg)
  | f :: fs => Ret (fmin (FFin 1) (fmax least_fraction (foldl fmin f fs)))
  end.

Definition max_in_flight_from_deployments (cfg : BatchModelCapacityConfig) (l : list Deployment)
    : res pyexc (option Z * string) :=
  explicit ← known_values (batch_capacity_int "max_in_flight") l;
  match explicit with
  | _ :: _ => Ret (Some (zsum explicit), "model_metadata")
  | [] =>
    known ← known_values router_max_in_flight l;
    match known with
    | _ :: _ =>
      fraction ← capacity_fraction cfg l;
      n ← float_floor (Fl.mul (Fl.of_Z (zsum known)) fraction);
      Ret (Some (Z.max 1 n), "router_limit")
    | [] => Ret (None, "unknown")
    end
  end.

Definition max_claim_work_units_from_deployments (cfg : BatchModelCapacityConfig) (l : list Deployment) : res pyexc Z :=
  explicit ← known_values (batch_capacity_int "max_claim_work_units") l;
  match explicit with
  | _ :: _ => Ret (Z.max 1 (zsum explicit))
  | [] =>
    upstream_inputs ← known_values (model_info_int "upstream_max_batch_inputs") l;
    Ret (match upstream_inputs with
         | _ :: _ => Z.max 1 (zsum upstream_inputs)
         | [] => cc_default_model_max_claim_work_units cfg
         end)
  end.

(** The limit, the use of one resource over the deployments that limit it. *)
Definition remaining_of (limit_of : Deployment -> option Z) (counter : string) (usage : gmap string (gmap string Z))
    (l : list Deployment) : option Z :=
  let known := omap (fun d => n ← limit_of d;
    Some (Z.max 0 n, Z.max 0 (default 0 (default ∅ (usage !! deployment_id d) !! counter)))) l in
  match known with
  | [] => None
  | _ => Some (Z.max 0 (zsum (map fst known) - zsum (map snd known)))
  end.

(** ** The resolver *)

Record resolver : Type := mkResolver {
  rs_last_selected_at : gmap (string * string) Z;
  rs_skip_reasons : gmap (string * string) (gmap string Z);
  rs_snapshot_cache : option (list BatchModelCapacitySnapshot);
  rs_snapshot_cache_expires_at : Z
}.
Definition new_resolver : resolver := mkResolver ∅ ∅ None 0.

Section resolver.
Context {B : Type} `{DeploymentStateBackend B} {S : Type} `{RedisExec S} `{PyRepr}.
(** As for [Backpressure]. *)
Context (digest : string -> string) (loads : string -> option pyval).

(** The resolver with what it reads: the router's registry and state backend
    and the backpressure coordinator, each absent when not configured. *)
Record capacity_world : Type := mkCapacityWorld {
  cw_resolver : resolver;
  cw_registry : option registry;
  cw_state : option B;
  cw_backpressure : option (coordinator S)
}.
Implicit Types (w : capacity_world).
Local Abbreviation op := (st capacity_world exn).

Definition on_resolver (f : resolver -> resolver) w : capacity_world :=
  mkCapacityWorld (f (cw_resolver w)) (cw_registry w) (cw_state w) (cw_backpressure w).
Definition of_py {A} (r : res pyexc A) : op A := fun w => (w, lift_exn r).

Definition get_deferral (now : Z) (model_group : string) : op (option Deferral) := fun w =>
  match cw_backpressure w with
  | None => (w, Ret None)
  | Some c =>
    let '(c', r) := get_model_group_deferral digest loads now model_group c in
    (mkCapacityWorld (cw_resolver w) (cw_registry w) (cw_state w) (Some c'),
     Ret (match r with Ret d => d | Raise _ => None end))
  end.

(** A call of the state backend under [try]: [None] when it raises. *)
Definition ask_state {A} (m : st B exn A) : op (option A) := fun w =>
  match cw_state w with
  | None => (w, Ret None)
  | Some b =>
    let '(b', r) := m b in
    (mkCapacityWorld (cw_resolver w) (cw_registry w) (Some b') (cw_backpressure w),
     Ret (match r with Ret a => Some a | Raise _ => None end))
  end.

Definition deployments_for_model_group (model_group : string) w : list Deployment :=
  match cw_registry w with
  | Some r => default [] (dict_get r model_group)
  | None => []
  end.

Definition deployment_ids (l : list Deployment) : list string :=
  List.filter (fun i => negb (Str.is_empty i)) (map deployment_id l).

Definition health_and_cooldown (now : Z) (ids : list string)
    : st B exn (gmap string (gmap string string) * gmap string bool) :=
  health ← be_get_health_batch now ids;
  cooldown ← be_get_cooldown_batch now ids;
  mret (health, cooldown).

Definition usable_deployment (health : gmap string (gmap string string)) (cooldown : gmap string bool) (d : Deployment)
    : bool :=
  negb (Str.is_empty (deployment_id d)) && negb (default false (cooldown !! deployment_id d))
  && negb (String.eqb (default "true" (default ∅ (health !! deployment_id d) !! "healthy")) "false").

Definition healthy_deployments (now : Z) (l : list Deployment) : op (option (list Deployment)) :=
  r ← ask_state (health_and_cooldown now (deployment_ids l));
  mret ('(health, cooldown) ← r; Some (List.filter (usable_deployment health cooldown) l)).

Definition remaining_usage (now : Z) (l : list Deployment) : op (option Z * option Z) :=
  match deployment_ids l with
  | [] => mret (None, None)
  | ids =>
    usage ← ask_state (be_get_usage_batch now ids);
    mret (match (usage : option (gmap string (gmap string Z))) with
          | None => (None, None)
          | Some u => (remaining_of rpm_limit "rpm" u l, remaining_of tpm_limit "tpm" u l)
          end)
  end.

Definition blocked_limits (cfg : BatchModelCapacityConfig) (reason : string) : capacity_limits :=
  mkLimits 0 (cc_default_model_max_claim_work_units cfg) None None 0 "unknown" (Some reason).

Definition limits_of_healthy (cfg : BatchModelCapacityConfig) (now : Z) (l : list Deployment) : op capacity_limits :=
  '(max_in_flight, source) ← of_py (max_in_flight_from_deployments cfg l);
  max_claim_work_units ← of_py (max_claim_work_units_from_deployments cfg l);
  '(rpm_remaining, tpm_remaining) ← remaining_usage now l;
  let n := Z.of_nat (length l) in
  mret match max_in_flight, cc_fail_open cfg with
       | None, false => mkLimits 0 max_claim_work_units rpm_remaining tpm_remaining n "unknown" (Some "unknown_capacity")
       | None, true => mkLimits (Z.max 1 (cc_default_model_max_in_flight cfg)) (Z.max 1 max_claim_work_units)
                         rpm_remaining tpm_remaining n "default" None
       | Some m, _ => mkLimits (Z.max 1 m) (Z.max 1 max_claim_work_units) rpm_remaining tpm_remaining n source None
       end.

Definition resolve_limits (cfg : BatchModelCapacityConfig) (now : Z) (model_group : string) : op capacity_limits :=
  w ← get_st;
  match deployments_for_model_group model_group w with
  | [] => mret (blocked_limits cfg "unknown_model_group")
  | deployments =>
    healthy ← healthy_deployments now deployments;
    match (healthy : option (list Deployment)) with
    | None => mret (blocked_limits cfg "health_state_unavailable")
    | Some [] => mret (mkLimits 0 0 None None 0 "router_health" (Some "no_healthy_deployments"))
    | Some l => limits_of_healthy cfg now l
    end
  end.

(** The slots, the work units and the reason that a snapshot shows. *)
Definition availability (a : backlog_aggregate) (in_flight_items : Z) (l : capacity_limits) : Z * Z * option string :=
  let slots := Z.max 0 (cl_max_in_flight_items l - in_flight_items) in
  match cl_reason l with
  | Some reason => (slots, 0, Some reason)
  | None =>
    let '(slots, reason) := match cl_rpm_remaining l with
                            | Some r => if r <=? 0 then (0, Some "rpm_exhausted") else (Z.min slots r, None)
                            | None => (slots, None)
                            end in
    if slots <=? 0 then (slots, 0, Some (default "no_available_slots" reason))
    else
      let units := Z.min (Z.max 0 (ba_queued_work_units a)) (Z.max 0 (cl_max_claim_work_units l)) in
      let '(slots, units, reason) := match cl_tpm_remaining l with
                                     | Some t => if t <=? 0 then (0, 0, Some "tpm_exhausted") else (slots, Z.min units t, reason)
                                     | None => (slots, units, reason)
                                     end in
      (slots, units, if units <=? 0 then Some (default "no_available_work_units" reason) else reason)
  end.

Definition snapshot_for (cfg : BatchModelCapacityConfig) (now : Z) (key : string * string) (a : backlog_aggregate)
    (in_flight : option BatchModelInFlightRecord) : op BatchModelCapacitySnapshot :=
  let '(group, tier) := key in
  let items := match in_flight with Some r => Z.max 0 (if_items r) | None => 0 end in
  let units := match in_flight with Some r => Z.max 0 (if_work_units r) | None => 0 end in
  deferral ← get_deferral now group;
  match (deferral : option Deferral) with
  | Some d =>
    (* [datetime.fromtimestamp] *)
    _ ← of_py (of_usec (df_until_epoch_seconds d * usec));
    mret (mkSnap group tier 0 0 0 0 None None 0 (Some (df_until_epoch_seconds d))
            (Some (if Str.is_empty (df_reason d) then "backpressure" else df_reason d)) "backpressure"
            (ba_queued_jobs a) (ba_queued_work_units a) items units (ba_oldest_queue_entered_at a))
  | None =>
    l ← resolve_limits cfg now group;
    let '(slots, available, reason) := availability a items l in
    mret (mkSnap group tier (cl_max_in_flight_items l) (cl_max_claim_work_units l) slots available
            (cl_rpm_remaining l) (cl_tpm_remaining l) (cl_healthy_deployments l) None reason (cl_source l)
            (ba_queued_jobs a) (ba_queued_work_units a) items units (ba_oldest_queue_entered_at a))
  end.

Definition aggregate_order (x y : string * string * backlog_aggregate) : bool :=
  let '(gx, tx, ax) := x in
  let '(gy, ty, ay) := y in
  le_of (then_by (nulls_last (ba_oldest_queue_entered_at ax) (ba_oldest_queue_entered_at ay))
    (then_by (String.compare gx gy) (String.compare tx ty))).

Fixpoint snapshots_for (cfg : BatchModelCapacityConfig) (now : Z)
    (in_flight : gmap (string * string) BatchModelInFlightRecord) (l : list (string * string * backlog_aggregate))
    : op (list BatchModelCapacitySnapshot) :=
  match l with
  | [] => mret []
  | (key, a) :: l' =>
    x ← snapshot_for cfg now key a (in_flight !! key);
    xs ← snapshots_for cfg now in_flight l';
    mret (x :: xs)
  end.

(** [s] is what the two queries read, [monotonic] the clock of the cache. *)
Definition build_snapshots (cfg : BatchModelCapacityConfig) (now monotonic : Z) (s : db) (force_refresh : bool)
    : op (list BatchModelCapacitySnapshot) :=
  w ← get_st;
  let build :=
    snapshots ← snapshots_for cfg now (in_flight_index now s)
      (order_by aggregate_order (map_to_list (aggregate_backlog (list_model_group_backlog now s))));
    _ ← modify (on_resolver (fun r => mkResolver (rs_last_selected_at r) (rs_skip_reasons r) (Some snapshots)
                               (monotonic + Z.max (usec / 10) (cc_refresh cfg))));
    mret snapshots in
  match rs_snapshot_cache (cw_resolver w) with
  | Some cached => if negb force_refresh && (monotonic <? rs_snapshot_cache_expires_at (cw_resolver w))
                   then mret cached else build
  | None => build
  end.

Definition snapshot_key (x : BatchModelCapacitySnapshot) : string * string := (sp_model_group x, sp_service_tier x).

Definition record_skip (x : BatchModelCapacitySnapshot) (reason : string) (r : resolver) : resolver :=
  let reasons := default ∅ (rs_skip_reasons r !! snapshot_key x) in
  mkResolver (rs_last_selected_at r)
    (<[snapshot_key x := <[reason := default 0 (reasons !! reason) + 1]> reasons]> (rs_skip_reasons r))
    (rs_snapshot_cache r) (rs_snapshot_cache_expires_at r).

Definition record_selection (now : Z) (x : BatchModelCapacitySnapshot) : op unit :=
  modify (on_resolver (fun r => mkResolver (<[snapshot_key x := now]> (rs_last_selected_at r)) (rs_skip_reasons r)
                                  (rs_snapshot_cache r) (rs_snapshot_cache_expires_at r))).

Definition selection_order (x y : BatchModelCapacitySnapshot) : bool :=
  le_of (then_by (nulls_last (sp_oldest_queue_entered_at x) (sp_oldest_queue_entered_at y))
    (then_by (String.compare (sp_model_group x) (sp_model_group y))
             (String.compare (sp_service_tier x) (sp_service_tier y)))).

Definition selection_of (max_items max_work_units : Z) (x : BatchModelCapacitySnapshot) : BatchModelCapacitySelection :=
  mkCapacitySelection x (Z.max 1 (Z.min max_items (sp_available_in_flight_items x)))
    (Z.max 1 (Z.min max_work_units (sp_available_work_units x))).

Definition select_model_groups (cfg : BatchModelCapacityConfig) (now monotonic : Z) (s : db) (max_items max_work_units : Z)
    : op (list BatchModelCapacitySelection) :=
  snapshots ← build_snapshots cfg now monotonic s true;
  _ ← modify (on_resolver (fun r => foldl (fun r x => record_skip x (default "no_available_capacity" (sp_reason x)) r) r
                                      (List.filter (fun x => negb (eligible x)) snapshots)));
  mret (map (selection_of max_items max_work_units) (order_by selection_order (List.filter eligible snapshots))).

Definition select_model_group (cfg : BatchModelCapacityConfig) (now monotonic : Z) (s : db) (max_items max_work_units : Z)
    : op (option BatchModelCapacitySelection) :=
  selections ← select_model_groups cfg now monotonic s max_items max_work_units;
  match selections with
  | [] => mret None
  | x :: _ => _ ← record_selection now (cl_snapshot x); mret (Some x)
  end.
End resolver.

(** ** What a selection promises *)

(** An eligible snapshot: its group has a healthy deployment and is not
    deferred, and what it offers fits every limit. *)
Definition snapshot_ok (x : BatchModelCapacitySnapshot) : Prop :=
  eligible x = true ->
  1 <= sp_healthy_deployments x /\ sp_backpressure_until x = None /\
  0 < sp_available_in_flight_items x /\ 0 < sp_available_work_units x /\
  sp_in_flight_items x + sp_available_in_flight_items x <= sp_max_in_flight_items x /\
  (forall n, sp_rpm_remaining x = Some n -> sp_available_in_flight_items x <= n) /\
  sp_available_work_units x <= sp_max_claim_work_units x /\
  sp_available_work_units x <= sp_queued_work_units x /\
  (forall n, sp_tpm_remaining x = Some n -> sp_available_work_units x <= n).

Lemma availability_spec a items l :
  let '(slots, units, reason) := availability a items l in
  reason = None -> 0 < slots -> 0 < units ->
  cl_reason l = None /\ items + slots <= cl_max_in_flight_items l /\
  (forall n, cl_rpm_remaining l = Some n -> slots <= n) /\
  units <= cl_max_claim_work_units l /\ units <= ba_queued_work_units a /\
  (forall n, cl_tpm_remaining l = Some n -> units <= n).
Proof.
  unfold availability. destruct (cl_reason l); [done|].
  set (free := Z.max 0 (cl_max_in_flight_items l - items)).
  assert (Hgo : forall slots, (forall n, cl_rpm_remaining l = Some n -> slots <= n) -> slots <= free ->
    let '(slots, units, reason) :=
      if slots <=? 0 then (slots, 0, Some (default "no_available_slots" None))
      else let units := Z.min (Z.max 0 (ba_queued_work_units a)) (Z.max 0 (cl_max_claim_work_units l)) in
           let '(slots, units, reason) := match cl_tpm_remaining l with
             | Some t => if t <=? 0 then (0, 0, Some "tpm_exhausted") else (slots, Z.min units t, None)
             | None => (slots, units, None)
             end in
           (slots, units, if units <=? 0 then Some (default "no_available_work_units" reason) else reason) in
    reason = None -> 0 < slots -> 0 < units ->
    None = @None string /\ items + slots <= cl_max_in_flight_items l /\
    (forall n, cl_rpm_remaining l = Some n -> slots <= n) /\
    units <= cl_max_claim_work_units l /\ units <= ba_queued_work_units a /\
    (forall n, cl_tpm_remaining l = Some n -> units <= n)).
  { intros slots Hr Hf. destruct (Z.leb_spec slots 0); [done|].
    destruct (cl_tpm_remaining l) as [t|]; [destruct (Z.leb_spec t 0)|]; cbn zeta beta iota; intros _ Hs Hu;
      unfold free in Hf; split_and!; try done; try lia; intros n [= <-]; lia. }
  destruct (cl_rpm_remaining l) as [r|]; [destruct (Z.leb_spec r 0); [done|]|]; apply Hgo; try lia; [|done].
  intros n [= <-]. lia.
Qed.

(** *** Orders *)

(** A comparison of a total preorder. *)
Record preorder {A} (c : A -> A -> comparison) : Prop := {
  cmp_opp x y : c y x = CompOpp (c x y);
  cmp_lt x y z : c x y = Lt -> c y z = Lt -> c x z = Lt;
  cmp_eq x y z : c x y = Eq -> c x z = c y z
}.

Lemma preorder_Z {A} (f : A -> Z) : preorder (fun x y => Z.compare (f x) (f y)).
Proof.
  split; intros *; [apply Z.compare_antisym| |]; rewrite ?Z.compare_lt_iff, ?Z.compare_eq_iff; [lia|by intros ->].
Qed.

Lemma preorder_nulls_last {A} (f : A -> option Z) : preorder (fun x y => nulls_last (f x) (f y)).
Proof.
  split; intros *; destruct (f x), (f y); try destruct (f z); cbn; try done;
    [apply Z.compare_antisym| |]; rewrite ?Z.compare_lt_iff, ?Z.compare_eq_iff; [lia|by intros ->].
Qed.

Lemma string_lt_trans x y z : String.compare x y = Lt -> String.compare y z = Lt -> String.compare x z = Lt.
Proof.
  revert y z. induction x as [|a x IH]; intros [|b y] [|d z]; cbn; try done. unfold Ascii.compare.
  destruct (N.compare_spec (N_of_ascii a) (N_of_ascii b)) as [Hab|Hab|Hab]; [rewrite Hab| |done];
    (destruct (N.compare_spec (N_of_ascii b) (N_of_ascii d)) as [Hbd|Hbd|Hbd]; [| |done]).
  - apply IH.
  - done.
  - intros _ _. by rewrite (proj2 (N.compare_lt_iff _ _)) by lia.
  - intros _ _. by rewrite (proj2 (N.compare_lt_iff _ _)) by lia.
Qed.

Lemma preorder_string {A} (f : A -> string) : preorder (fun x y => String.compare (f x) (f y)).
Proof.
  split; intros *; [apply String.compare_antisym|apply string_lt_trans|]. by intros ->%String.compare_eq_iff.
Qed.

Lemma preorder_then {A} (c d : A -> A -> comparison) :
  preorder c -> preorder d -> preorder (fun x y => then_by (c x y) (d x y)).
Proof.
  intros [Ho Hl He] [Ho' Hl' He']. split; intros *.
  - rewrite (Ho x y), (Ho' x y). by destruct (c x y).
  - destruct (c x y) eqn:E; cbn; [| |done].
    + rewrite (He x y z E). destruct (c y z); cbn; eauto.
    + intros _. destruct (c y z) eqn:E'; cbn; [|by rewrite (Hl x y z)|done]. intros _.
      enough (c x z = Lt) as -> by done. rewrite (Ho z x). assert (Ez : c z y = Eq) by (by rewrite (Ho y z), E').
      by rewrite (He z y x Ez), <- (Ho y x), E.
  - destruct (c x y) eqn:E; cbn; [|done..]. intros E'. by rewrite (He x y z E), (He' x y z E').
Qed.

Lemma preorder_sorted {A} (c : A -> A -> comparison) (l : list A) : preorder c ->
  StronglySorted (fun x y => le_of (c x y) = true) (order_by (fun x y => le_of (c x y)) l).
Proof.
  intros [Ho Hl He]. apply (order_by_sorted (fun x y => le_of (c x y))).
  - intros x y. rewrite (Ho x y). by destruct (c x y).
  - intros x y z. destruct (c x y) eqn:E; [rewrite (He x y z E); by destruct (c y z)| |done].
    destruct (c y z) eqn:E'; [|by rewrite (Hl x y z)|done].
    assert (Ez : c z y = Eq) by (by rewrite (Ho y z), E'). rewrite (Ho z x), (He z y x Ez), <- (Ho y x), E. done.
Qed.

Section resolver_spec.
Context {B : Type} `{DeploymentStateBackend B} {S : Type} `{RedisExec S} `{PyRepr}.
Context (digest : string -> string) (loads : string -> option pyval).
Context (cfg : BatchModelCapacityConfig) (now : Z).
Implicit Types (w : capacity_world (B := B) (S := S)).

Lemma resolve_limits_spec group w w' l :
  resolve_limits cfg now group w = (w', Ret l) -> cl_reason l = None -> 1 <= cl_healthy_deployments l.
Proof.
  intros E Hr. unfold resolve_limits in E. apply bind_ret_inv in E as (w1 & w0 & _ & E).
  destruct (deployments_for_model_group group w0) as [|d ds]; [by injection E as <- <-|].
  apply bind_ret_inv in E as (w2 & healthy & _ & E).
  destruct healthy as [[|d' l']|]; [by injection E as <- <-| |by injection E as <- <-].
  unfold limits_of_healthy in E. apply bind_ret_inv in E as (w3 & [m source] & _ & E).
  apply bind_ret_inv in E as (w4 & units & _ & E). apply bind_ret_inv in E as (w5 & [rpm tpm] & _ & E).
  injection E as <- <-. destruct m, (cc_fail_open cfg); cbn in *; done || lia.
Qed.

(** What the snapshot of a group shows. *)
Definition shows (in_flight : gmap (string * string) BatchModelInFlightRecord) (r : string * string * backlog_aggregate)
    (x : BatchModelCapacitySnapshot) : Prop :=
  snapshot_ok x /\ snapshot_key x = fst r /\
  sp_queued_jobs x = ba_queued_jobs (snd r) /\ sp_queued_work_units x = ba_queued_work_units (snd r) /\
  sp_oldest_queue_entered_at x = ba_oldest_queue_entered_at (snd r) /\
  sp_in_flight_items x = match in_flight !! fst r with Some f => Z.max 0 (if_items f) | None => 0 end /\
  sp_in_flight_work_units x = match in_flight !! fst r with Some f => Z.max 0 (if_work_units f) | None => 0 end.

Lemma snapshot_for_spec in_flight key a w w' x :
  snapshot_for digest loads cfg now key a (in_flight !! key) w = (w', Ret x) -> shows in_flight (key, a) x.
Proof.
  unfold snapshot_for. destruct key as [group tier]. intros E.
  apply bind_ret_inv in E as (w1 & deferral & _ & E). destruct deferral as [d|].
  - apply bind_ret_inv in E as (w2 & ? & _ & E). injection E as <- <-. split_and!; done.
  - apply bind_ret_inv in E as (w2 & l & El & E).
    pose proof (availability_spec a (match in_flight !! (group, tier) with Some r => Z.max 0 (if_items r) | None => 0 end) l) as Ha.
    destruct (availability _ _ _) as [[slots units] reason]. injection E as <- <-.
    split_and!; try done. intros He. unfold eligible in He. cbn in He.
    apply andb_true_iff in He as [[[Hr Hs]%andb_true_iff Hu]%andb_true_iff _].
    destruct reason; [done|]. apply Z.ltb_lt in Hs, Hu. destruct (Ha eq_refl Hs Hu) as (Hn & H2 & H3 & H4 & H5 & H6).
    cbn. split_and!; try done. by eapply resolve_limits_spec.
Qed.

Lemma snapshots_for_spec in_flight l w w' xs :
  snapshots_for digest loads cfg now in_flight l w = (w', Ret xs) -> Forall2 (shows in_flight) l xs.
Proof.
  revert w xs. induction l as [|[key a] l IH]; intros w xs E; cbn [snapshots_for] in E.
  - injection E as <- <-. constructor.
  - apply bind_ret_inv in E as (w1 & x & Ex & E). apply bind_ret_inv in E as (w2 & xs' & Exs & E).
    injection E as <- <-. constructor; [by eapply snapshot_for_spec|by eapply IH].
Qed.

Definition backlog_of (s : db) : gmap (string * string) backlog_aggregate :=
  aggregate_backlog (list_model_group_backlog now s).

Lemma build_snapshots_spec monotonic s w w' xs :
  build_snapshots digest loads cfg now monotonic s true w = (w', Ret xs) ->
  exists l, l ≡ₚ map_to_list (backlog_of s) /\ Forall2 (shows (in_flight_index now s)) l xs.
Proof.
  unfold build_snapshots. intros E. apply bind_ret_inv in E as (w1 & w0 & _ & E). cbn [negb andb] in E.
  assert (E' : exists w2 w3, snapshots_for digest loads cfg now (in_flight_index now s)
      (order_by aggregate_order (map_to_list (backlog_of s))) w2 = (w3, Ret xs)).
  { destruct (rs_snapshot_cache (cw_resolver w0));
      apply bind_ret_inv in E as (w2 & xs' & Exs & E); apply bind_ret_inv in E as (w3 & ? & _ & E);
      injection E as _ <-; by eexists _, _. }
  destruct E' as (w2 & w3 & E'). eexists. split; [apply order_by_perm|]. by eapply snapshots_for_spec.
Qed.

Lemma selected_snapshots monotonic s max_items max_work_units w w' l :
  select_model_groups digest loads cfg now monotonic s max_items max_work_units w = (w', Ret l) ->
  Forall (fun c => eligible (cl_snapshot c) = true /\ snapshot_ok (cl_snapshot c) /\
    0 <= sp_in_flight_items (cl_snapshot c) /\ 0 <= sp_in_flight_work_units (cl_snapshot c)) l.
Proof.
  unfold select_model_groups. intros E. apply bind_ret_inv in E as (w1 & xs & Ex & E).
  apply bind_ret_inv in E as (w2 & u & _ & E). injection E as _ <-.
  apply build_snapshots_spec in Ex as (keys & _ & Hs). apply Forall_forall.
  intros c (x & -> & Hx)%list_elem_of_fmap. rewrite order_by_perm in Hx. cbn [cl_snapshot selection_of].
  rewrite list_elem_of_In, filter_In, <- list_elem_of_In in Hx. destruct Hx as [Hx He].
  apply list_elem_of_lookup in Hx as [i Hx]. pose proof (Forall2_lookup_r _ _ _ _ _ Hs Hx) as (k & _ & Hsh).
  destruct Hsh as (Hok & _ & _ & _ & _ & Hi & Hw). split_and!; [done..| |]; rewrite ?Hi, ?Hw; case_match; lia.
Qed.
End resolver_spec.

(** ** The backlog counts the runnable jobs *)

(** Sums over a commutative operation, and grouping in two steps. *)
Section grouping.
Context {V : Type} (op : V -> V -> V) (op_assoc : forall a b c, op a (op b c) = op (op a b) c)
  (op_comm : forall a b, op a b = op b a).

Definition oop (a b : option V) : option V :=
  match a, b with None, c | c, None => c | Some x, Some y => Some (op x y) end.
Fixpoint msum {A} (f : A -> option V) (l : list A) : option V :=
  match l with [] => None | a :: l' => oop (f a) (msum f l') end.

Lemma oop_assoc a b c : oop a (oop b c) = oop (oop a b) c.
Proof using op_assoc. destruct a, b, c; cbn; try done. by rewrite op_assoc. Qed.
Lemma oop_comm a b : oop a b = oop b a.
Proof using op_comm. destruct a, b; cbn; try done. by rewrite op_comm. Qed.
Lemma oop_none a : oop a None = a.
Proof. by destruct a. Qed.

Lemma msum_app {A} (f : A -> option V) l l' : msum f (l ++ l') = oop (msum f l) (msum f l').
Proof using op_assoc. induction l as [|a l IH]; [done|]. cbn. by rewrite IH, oop_assoc. Qed.

Lemma msum_perm {A} (f : A -> option V) l l' : l ≡ₚ l' -> msum f l = msum f l'.
Proof using op_assoc op_comm.
  induction 1 as [|a l l' _ IH|a b l|l l' l'' _ IH _ IH']; cbn; [done|by rewrite IH| |by rewrite IH, IH'].
  by rewrite !oop_assoc, (oop_comm (f b)).
Qed.

Lemma msum_filter {A} (f : A -> option V) (p : A -> bool) l :
  msum f (List.filter p l) = msum (fun a => if p a then f a else None) l.
Proof. induction l as [|a l IH]; [done|]. cbn. destruct (p a); cbn; by rewrite IH. Qed.

Lemma msum_ext {A} (f g : A -> option V) l : (forall a, a ∈ l -> f a = g a) -> msum f l = msum g l.
Proof.
  induction l as [|a l IH]; intros H; [done|]. cbn. rewrite (H a) by left. f_equal. apply IH. intros b Hb. apply H. by right.
Qed.

Lemma msum_map {A A'} (f : A -> option V) (h : A' -> A) l : msum f (map h l) = msum (fun a => f (h a)) l.
Proof. induction l as [|a l IH]; [done|]. cbn. by rewrite IH. Qed.

(** A tally that adds [g a] for each [a]. *)
Context {A K : Type} `{Countable K} (key : A -> K) (g : A -> V) (add : option V -> A -> V)
  (add_spec : forall v a, Some (add v a) = oop v (Some (g a))).

Lemma tally_snoc l a : tally key add (l ++ [a]) = <[key a := add (tally key add l !! key a) a]> (tally key add l).
Proof. unfold tally. by rewrite foldl_app. Qed.

Lemma tally_msum (P : K -> bool) l :
  msum (fun kv => if P (fst kv) then Some (snd kv) else None) (map_to_list (tally key add l)) =
  msum (fun a => if P (key a) then Some (g a) else None) l.
Proof using op_assoc op_comm add_spec.
  induction l as [|a l IH] using rev_ind; [unfold tally; cbn [foldl]; by rewrite map_to_list_empty|].
  rewrite tally_snoc, msum_app, <- IH. cbn [msum]. rewrite oop_none. set (m := tally key add l).
  set (f := fun kv : K * V => if P (fst kv) then Some (snd kv) else None).
  destruct (m !! key a) as [v|] eqn:E.
  - rewrite (msum_perm f (map_to_list m) ((key a, v) :: map_to_list (delete (key a) m)))
      by (symmetry; by apply map_to_list_delete).
    rewrite <- insert_delete_eq.
    rewrite (msum_perm f (map_to_list (<[key a := add (Some v) a]> (delete (key a) m)))
               ((key a, add (Some v) a) :: map_to_list (delete (key a) m)))
      by (apply map_to_list_insert, lookup_delete_eq).
    cbn [msum]. set (R := msum f (map_to_list (delete (key a) m))). unfold f. cbn [fst snd].
    destruct (P (key a)); [|by rewrite oop_none]. rewrite add_spec, <- !oop_assoc. f_equal. apply oop_comm.
  - rewrite (msum_perm f (map_to_list (<[key a := add None a]> m)) ((key a, add None a) :: map_to_list m))
      by (by apply map_to_list_insert).
    cbn [msum]. rewrite oop_comm. f_equal. unfold f. cbn [fst snd]. destruct (P (key a)); [|done]. apply (add_spec None).
Qed.

Lemma tallied_msum l : tallied add l = msum (fun a => Some (g a)) l.
Proof using op_assoc add_spec.
  unfold tallied. change (msum (fun a => Some (g a)) l) with (oop None (msum (fun a => Some (g a)) l)).
  generalize (@None V). induction l as [|a l IH]; intros v; cbn [foldl msum]; [by rewrite oop_none|].
  by rewrite IH, add_spec, <- oop_assoc.
Qed.

Lemma tally_all (Q : V -> Prop) l :
  (forall a, a ∈ l -> Q (g a)) -> (forall x y, Q x -> Q y -> Q (op x y)) -> forall k v, tally key add l !! k = Some v -> Q v.
Proof using op_assoc op_comm add_spec.
  intros Hg Hop. induction l as [|a l IH] using rev_ind; intros k v; [unfold tally; cbn [foldl]; by rewrite lookup_empty|].
  rewrite tally_snoc. destruct (decide (k = key a)) as [->|Hne]; [|rewrite lookup_insert_ne by done; apply IH; set_solver].
  rewrite lookup_insert_eq. intros [= <-]. specialize (add_spec (tally key add l !! key a) a).
  assert (Ha : Q (g a)) by (apply Hg; set_solver).
  destruct (tally key add l !! key a) as [x|] eqn:E; cbn in add_spec; injection add_spec as ->; [|done].
  apply Hop; [|done]. eapply IH; [|exact E]. set_solver.
Qed.
End grouping.

(** Counts, work units and the oldest entry of a group of jobs. *)
Definition op3 (x y : Z * Z * Z) : Z * Z * Z :=
  let '(n, u, o) := x in let '(n', u', o') := y in (n + n', u + u', Z.min o o').
Lemma op3_assoc x y z : op3 x (op3 y z) = op3 (op3 x y) z.
Proof. destruct x as [[??]?], y as [[??]?], z as [[??]?]. cbn. f_equal; [f_equal|]; lia. Qed.
Lemma op3_comm x y : op3 x y = op3 y x.
Proof. destruct x as [[??]?], y as [[??]?]. cbn. f_equal; [f_equal|]; lia. Qed.

Definition job_triple (now : Z) (s : db) (j : Job.batch_job) : Z * Z * Z :=
  (1, runnable_work_units now s j, SizeAging.queue_time j).

Definition aggregate_of (x : Z * Z * Z) : backlog_aggregate :=
  let '(n, u, o) := x in mkBacklogAggregate n u (Some o).

Lemma aggregate_rows l :
  Forall (fun r => 0 <= bl_queued_jobs r /\ 0 <= bl_queued_work_units r /\ is_Some (bl_oldest_queue_entered_at r)) l ->
  tallied add_aggregate l =
  aggregate_of <$> msum op3 (fun r => Some (bl_queued_jobs r, bl_queued_work_units r,
                                            default 0 (bl_oldest_queue_entered_at r))) l.
Proof.
  intros Hl. unfold tallied.
  enough (E : forall v, foldl (fun v a => Some (add_aggregate v a)) (aggregate_of <$> v) l =
    aggregate_of <$> oop op3 v (msum op3 (fun r => Some (bl_queued_jobs r, bl_queued_work_units r,
                                            default 0 (bl_oldest_queue_entered_at r))) l)) by exact (E None).
  induction Hl as [|r l (H1 & H2 & [o Ho]) _ IH]; intros v; cbn [foldl msum]; [by rewrite oop_none|].
  rewrite (oop_assoc op3 op3_assoc), <- IH. f_equal. unfold add_aggregate. rewrite Ho.
  destruct v as [[[n u] o']|]; cbn; by rewrite !Z.max_r by done.
Qed.

(** What the jobs of one group and tier amount to. *)
Fixpoint total_backlog (now : Z) (s : db) (l : list Job.batch_job) : option backlog_aggregate :=
  match l with
  | [] => None
  | j :: l' =>
    let u := runnable_work_units now s j in
    let t := SizeAging.queue_time j in
    Some match total_backlog now s l' with
         | None => mkBacklogAggregate 1 u (Some t)
         | Some a => mkBacklogAggregate (1 + ba_queued_jobs a) (u + ba_queued_work_units a)
                       (Some (match ba_oldest_queue_entered_at a with Some o => Z.min t o | None => t end))
         end
  end.

Lemma total_backlog_msum now s l : total_backlog now s l = aggregate_of <$> msum op3 (fun j => Some (job_triple now s j)) l.
Proof.
  induction l as [|j l IH]; [done|]. cbn [total_backlog msum]. rewrite IH.
  by destruct (msum op3 _ l) as [[[n u] o]|].
Qed.

(** The key a job is aggregated under. *)
Definition job_key (j : Job.batch_job) : string * string :=
  (Str.strip (default "" (Job.scheduling_model_group j)), text_or "standard" (Str.strip (tier_column j))).

(** The backlog of a model group and tier, however the query groups it by
    size class, is that of its runnable jobs: those queued or in progress
    without a live lease that have a runnable item.  Their number, the work
    units of their runnable items and the oldest time of entry agree. *)
Theorem backlog_counts_runnable_jobs now s group tier :
  group <> "" ->
  aggregate_backlog (list_model_group_backlog now s) !! (group, tier) =
  total_backlog now s (select_where (fun j => runnable_job now s j && bool_decide (job_key j = (group, tier))) (jobs s)).
Proof.
  intros Hg. unfold aggregate_backlog, list_model_group_backlog. rewrite tally_lookup.
  set (T := tally backlog_key (add_backlog now s) (select_where (runnable_job now s) (jobs s))).
  assert (Hadd : forall v j, Some (add_backlog now s v j) = oop op3 v (Some (job_triple now s j))).
  { intros [[[n u] o]|] j; done. }
  assert (HT : forall k v, T !! k = Some v -> let '(n, u, _) := v in 0 <= n /\ 0 <= u).
  { intros k v Hv. eapply (tally_all op3 op3_assoc op3_comm backlog_key (job_triple now s) (add_backlog now s) Hadd
      (fun v => let '(n, u, _) := v in 0 <= n /\ 0 <= u)); [| |exact Hv].
    - intros j _. unfold job_triple, runnable_work_units. lia.
    - intros [[??]?] [[??]?] [??] [??]. cbn. lia. }
  assert (Hrow : forall r, r ∈ order_by backlog_order (map backlog_row (map_to_list T)) ->
            exists kv, r = backlog_row kv /\ T !! fst kv = Some (snd kv)).
  { intros r. rewrite order_by_perm. intros ([k v] & -> & Hkv)%list_elem_of_fmap. exists (k, v).
    split; [done|]. by apply elem_of_map_to_list in Hkv. }
  rewrite aggregate_rows.
  2: { apply Forall_forall. intros r [[Hr _]%elem_select _]%elem_select. apply Hrow in Hr as ([[[g t] z] [[n u] o]] & -> & Hkv).
       specialize (HT _ _ Hkv). cbn. destruct HT. by split_and!; [| |eexists]. }
  rewrite total_backlog_msum. f_equal. rewrite !(msum_filter op3).
  rewrite (msum_perm op3 op3_assoc op3_comm _ _ _ (order_by_perm backlog_order (map backlog_row (map_to_list T)))).
  rewrite (msum_map op3).
  set (P := fun k : string * string * string => let '(g, t, _) := k in
    bool_decide ((Str.strip g, text_or "standard" (Str.strip (text_or "standard" t))) = (group, tier))).
  rewrite (msum_ext op3 _ (fun kv => if P (fst kv) then Some (snd kv) else None)).
  2: { intros [[[g t] z] [[n u] o]] _. cbn [backlog_row fst snd bl_model_group bl_queued_jobs bl_queued_work_units
         bl_oldest_queue_entered_at default]. unfold P, aggregate_key. cbn [bl_model_group bl_service_tier].
       case_bool_decide as E; [|by destruct (negb _)]. injection E as E _. rewrite E. unfold Str.is_empty.
       rewrite (proj2 (String.eqb_neq _ _) Hg). done. }
  unfold T. rewrite (tally_msum op3 op3_assoc op3_comm backlog_key (job_triple now s) (add_backlog now s) Hadd P).
  unfold select_where. rewrite !(msum_filter op3). apply msum_ext. intros j _.
  assert (E : P (backlog_key j) = bool_decide (job_key j = (group, tier))).
  { unfold P, backlog_key, job_key. unfold tier_column, text_or. by destruct (Str.is_empty (Job.service_tier j)) eqn:Ee; cbn; rewrite ?Ee. }
  rewrite E. by destruct (runnable_job now s j), (bool_decide _).
Qed.

(** ** The work in flight *)

Lemma tallied_flying l : tallied add_flying l =
  match l with [] => None | _ => Some (mkInFlight (Z.of_nat (length l)) (work_units l)) end.
Proof.
  unfold tallied.
  assert (E : forall l n u, foldl (fun v a => Some (add_flying v a)) (Some (mkInFlight n u)) l =
    Some (mkInFlight (n + Z.of_nat (length l)) (u + work_units l))).
  { clear l. induction l as [|i l IH]; intros n u; cbn [foldl]; [f_equal; f_equal; cbn; lia|].
    cbn [add_flying if_items if_work_units]. rewrite IH, work_units_cons, length_cons. f_equal. f_equal; lia. }
  destruct l as [|i l]; [done|]. cbn [foldl add_flying]. rewrite E, work_units_cons, length_cons. f_equal. f_equal; lia.
Qed.

(** The index agrees with the counts that limit a claim. *)
Lemma in_flight_index_spec now s group tier : group <> "" -> tier <> "" ->
  match in_flight_index now s !! (group, tier) with
  | Some r => if_items r = in_flight_items now group tier s /\ if_work_units r = in_flight_work_units now group tier s
  | None => in_flight_items now group tier s = 0 /\ in_flight_work_units now group tier s = 0
  end.
Proof.
  intros Hg Ht. unfold in_flight_index. rewrite tally_lookup, tallied_flying.
  unfold in_flight_items, in_flight_work_units. rewrite cnt_select.
  assert (E : List.filter (fun i => bool_decide (flight_key s i = (group, tier)))
      (select_where (fun i => flying now s i && negb (Str.is_empty (fst (flight_key s i)))
                            && negb (Str.is_empty (snd (flight_key s i)))) (items s)) =
    select_where (in_flight now group tier s) (items s)).
  { unfold select_where. generalize (items s). intros l. 
    assert (Hp : forall i, bool_decide (flight_key s i = (group, tier)) && (flying now s i && negb (Str.is_empty (fst (flight_key s i)))
                            && negb (Str.is_empty (snd (flight_key s i)))) = in_flight now group tier s i).
    { intros i. unfold flying, flight_key, in_flight, Str.is_empty. cbn [fst snd].
      destruct (bool_decide (Item.status i = IN_PROGRESS)), (null_or _ (Item.lease_expires_at i));
        rewrite ?andb_false_l, ?andb_false_r; try done. cbn [andb].
      unfold capacity_group. destruct (job_row (Item.batch_id i) s) as [j|]; [|by rewrite andb_false_r].
      destruct (coalesce _ _) as [g|]; [|by rewrite andb_false_r].
      unfold sql_eq, if_set, default, from_option, id. fold (tier_column j).
      destruct (String.eqb_spec group g) as [->|Hne].
      - rewrite (proj2 (String.eqb_neq _ _) Hg). cbn [negb andb].
        destruct (String.eqb_spec (tier_column j) tier) as [E|Hne].
        + rewrite E, (proj2 (String.eqb_neq _ _) Ht), bool_decide_true by congruence. done.
        + rewrite bool_decide_false by congruence. done.
      - rewrite bool_decide_false by congruence. done. }
    induction l as [|i l IH]; [done|]. cbn [List.filter]. rewrite <- (Hp i).
    destruct (flying now s i && _ && _); cbn [List.filter]; [rewrite andb_true_r; destruct (bool_decide _); by rewrite IH|].
    by rewrite andb_false_r. }
  rewrite E. set (L := select_where _ _). destruct L; split; reflexivity.
Qed.

(** ** The selections are what the groups have room for *)

(** A deployment the answers of the backend let through. *)
Definition reachable (health : gmap string (gmap string string)) (cooldown : gmap string bool) (d : Deployment) : Prop :=
  deployment_id d <> "" /\ cooldown !! deployment_id d <> Some true /\
  default ∅ (health !! deployment_id d) !! "healthy" <> Some "false".
#[export] Instance reachable_dec health cooldown d : Decision (reachable health cooldown d) := _.

(** What is left of a resource: the limits of the deployments that have one,
    less what those have used. *)
Definition spare (limit_of : Deployment -> option Z) (used : Deployment -> Z) (l : list Deployment) : option Z :=
  match filter (fun d => is_Some (limit_of d)) l with
  | [] => None
  | limited => Some (zsum (map (fun d => Z.max 0 (default 0 (limit_of d))) limited)
                     - zsum (map (fun d => Z.max 0 (used d)) limited))
  end.
Definition bounded (o : option Z) (n : Z) : Z := match o with Some m => Z.min n m | None => n end.

Section room.
Context {B : Type} `{DeploymentStateBackend B} {S : Type} `{RedisExec S} `{PyRepr}.
Context (digest : string -> string) (loads : string -> option pyval).
Context (cfg : BatchModelCapacityConfig) (now : Z).
Implicit Types (w : capacity_world (B := B) (S := S)).

(** The coordinator, when there is one, answers with no deferral. *)
Definition not_deferred (group : string) w : Prop :=
  forall c, cw_backpressure w = Some c ->
  forall d, snd (get_model_group_deferral digest loads now group c) <> Ret (Some d).

(** The items in flight that the deployments of a group accept. *)
Definition slots_of (declared : option Z) : option Z :=
  match declared with
  | Some m => Some (Z.max 1 m)
  | None => if cc_fail_open cfg then Some (Z.max 1 (cc_default_model_max_in_flight cfg)) else None
  end.

(** What [w] says of a group: the health and cooldown calls answer; of its
    deployments those they let through are not none; these declare, or the
    default gives, how many items they take at once and how many work units a
    claim; and the usage call says what they have left this minute, unless it
    fails. *)
Definition group_limits (group : string) w (slots claim : Z) (requests tokens : option Z) : Prop :=
  exists b b1 health cooldown declared source,
    let deployments := deployments_for_model_group group w in
    let live := filter (reachable health cooldown) deployments in
    let usage := snd (be_get_usage_batch now (deployment_ids live) b1) in
    let left limit_of counter :=
      match usage with
      | Ret u => spare limit_of (fun d => default 0 (default ∅ (u !! deployment_id d) !! counter)) live
      | Raise _ => None
      end in
    cw_state w = Some b /\
    health_and_cooldown now (deployment_ids deployments) b = (b1, Ret (health, cooldown)) /\
    live <> [] /\
    max_in_flight_from_deployments cfg live = Ret (declared, source) /\ slots_of declared = Some slots /\
    max_claim_work_units_from_deployments cfg live = Ret claim /\
    requests = left rpm_limit "rpm" /\ tokens = left tpm_limit "tpm".

(** How many items and work units of the backlog [a] the group can take on. *)
Definition room_of (s : db) (key : string * string) w (a : backlog_aggregate) (items units : Z) : Prop :=
  exists slots claim requests tokens,
    not_deferred (fst key) w /\ group_limits (fst key) w slots claim requests tokens /\
    items = bounded requests (slots - in_flight_items now (fst key) (snd key) s) /\
    units = bounded tokens (Z.min (ba_queued_work_units a) (Z.max 1 claim)) /\ 0 < items /\ 0 < units.

(** The groups are visited oldest first; this is the world a selection that
    starts in [w] has reached when it comes to [key]. *)
Definition reached_at (s : db) w (key : string * string) wi : Prop :=
  let groups := order_by aggregate_order (map_to_list (backlog_of now s)) in
  exists i a, groups !! i = Some (key, a) /\
    wi = fst (snapshots_for digest loads cfg now (in_flight_index now s) (take i groups) w).

(** The group has runnable jobs, which amount to [a], and room for them. *)
Definition offer (s : db) w (key : string * string) (a : backlog_aggregate) (items units : Z) : Prop :=
  total_backlog now s (select_where (fun j => runnable_job now s j && bool_decide (job_key j = key)) (jobs s)) = Some a /\
  exists wi, reached_at s w key wi /\ room_of s key wi a items units.

(** *** The steps of a snapshot *)

Lemma reachable_usable health cooldown d : usable_deployment health cooldown d = true <-> reachable health cooldown d.
Proof.
  unfold usable_deployment, reachable, Str.is_empty. rewrite !andb_true_iff, !negb_true_iff, !String.eqb_neq.
  destruct (cooldown !! deployment_id d) as [[|]|]; cbn; destruct (default ∅ (health !! deployment_id d) !! "healthy");
    cbn; naive_solver.
Qed.

Lemma filter_reachable health cooldown l : List.filter (usable_deployment health cooldown) l = filter (reachable health cooldown) l.
Proof.
  induction l as [|d l IH]; [done|]. cbn [List.filter]. rewrite filter_cons, <- IH.
  pose proof (reachable_usable health cooldown d). destruct (usable_deployment _ _ d), (decide _); naive_solver.
Qed.

Lemma remaining_spare limit_of counter u l :
  remaining_of limit_of counter u l =
  Z.max 0 <$> spare limit_of (fun d => default 0 (default ∅ (u !! deployment_id d) !! counter)) l.
Proof.
  unfold remaining_of, spare. set (use := fun d : Deployment => default 0 (default ∅ (u !! deployment_id d) !! counter)).
  set (f := fun d => n ← limit_of d; Some (Z.max 0 n, Z.max 0 (use d))).
  assert (E : omap f l = map (fun d => (Z.max 0 (default 0 (limit_of d)), Z.max 0 (use d))) (filter (fun d => is_Some (limit_of d)) l)).
  { clear. induction l as [|d l IH]; [done|]. rewrite filter_cons. cbn [omap list_omap]. rewrite IH. unfold f at 1.
    destruct (decide (is_Some (limit_of d))) as [[n Hd]|Hd]; [by cbn [map]; rewrite Hd|].
    destruct (limit_of d); [destruct Hd; by eexists|done]. }
  change (omap _ l) with (omap f l). rewrite E. destruct (filter _ l); [done|]. cbn [map fmap option_fmap option_map]. 
  by rewrite !map_map.
Qed.

Lemma bounded_pos o n : (0 < bounded (Z.max 0 <$> o) n <-> 0 < bounded o n) /\
  (0 < bounded o n -> bounded (Z.max 0 <$> o) n = bounded o n).
Proof. destruct o; cbn; lia. Qed.

(** The availability of a group, when its limits are known. *)
Lemma availability_room a items l : cl_reason l = None ->
  let '(slots, units, reason) := availability a items l in
  let n := bounded (cl_rpm_remaining l) (cl_max_in_flight_items l - items) in
  let m := bounded (cl_tpm_remaining l) (Z.min (ba_queued_work_units a) (cl_max_claim_work_units l)) in
  (reason = None /\ 0 < slots /\ 0 < units <-> 0 < n /\ 0 < m) /\ (0 < n -> 0 < m -> slots = n /\ units = m).
Proof.
  intros Hr. unfold availability, bounded. rewrite Hr.
  repeat case_match; simplify_eq; rewrite ?Z.leb_le, ?Z.leb_gt in *;
    (split; [split; [intros (? & ? & ?)|intros [? ?]; split_and!]|intros; split]); done || lia.
Qed.

Lemma get_deferral_spec group w w1 d : get_deferral digest loads now group w = (w1, Ret d) ->
  cw_state w1 = cw_state w /\ cw_registry w1 = cw_registry w /\ (d = None <-> not_deferred group w).
Proof.
  unfold get_deferral, not_deferred. destruct (cw_backpressure w) as [c|]; [|intros [= <- <-]; by split_and!].
  destruct (get_model_group_deferral _ _ _ _ _) as [c' [r|e]] eqn:E; intros [= <- <-]; split_and!; try done.
  - split; [intros -> c1 [= <-] d; by rewrite E|]. intros Hn. destruct r as [d|]; [|done]. by destruct (Hn c eq_refl d); rewrite E.
  - split; [intros _ c1 [= <-] d; by rewrite E|done].
Qed.

Lemma group_limits_fun group w s1 c1 r1 t1 s2 c2 r2 t2 :
  group_limits group w s1 c1 r1 t1 -> group_limits group w s2 c2 r2 t2 -> s1 = s2 /\ c1 = c2 /\ r1 = r2 /\ t1 = t2.
Proof.
  intros (b & b1 & h & k & d & u & Hb & Hh & _ & Hm & Hs & Hc & -> & ->) (b' & b1' & h' & k' & d' & u' & Hb' & Hh' & _ & Hm' & Hs' & Hc' & -> & ->).
  rewrite Hb in Hb'. injection Hb' as <-. rewrite Hh in Hh'. injection Hh' as <- <- <-. rewrite Hm in Hm'. injection Hm' as <- _.
  rewrite Hs in Hs'. injection Hs' as <-. rewrite Hc in Hc'. by injection Hc' as <-.
Qed.

(** The limits the resolver works with are those of the group, and it gives a
    reason exactly when the group has none. *)
Lemma resolve_limits_group group w w' l : resolve_limits cfg now group w = (w', Ret l) ->
  match cl_reason l with
  | None => exists claim requests tokens, group_limits group w (cl_max_in_flight_items l) claim requests tokens /\
      cl_max_claim_work_units l = Z.max 1 claim /\ cl_rpm_remaining l = Z.max 0 <$> requests /\
      cl_tpm_remaining l = Z.max 0 <$> tokens
  | Some _ => forall slots claim requests tokens, ~ group_limits group w slots claim requests tokens
  end.
Proof.
  intros E. unfold resolve_limits, get_st, mbind at 1, st_bind in E.
  destruct (deployments_for_model_group group w) as [|d0 ds] eqn:Ed.
  { injection E as <- <-. intros slots claim requests tokens (b & b1 & h & k & d & u & _ & _ & Hl & _). by rewrite Ed in Hl. }
  rewrite <- Ed in E. unfold healthy_deployments, mbind at 1 2, st_bind, ask_state in E.
  destruct (cw_state w) as [b|] eqn:Eb.
  2: { injection E as <- <-. intros slots claim requests tokens (b & b1 & h & k & d & u & Hb & _). by rewrite Eb in Hb. }
  destruct (health_and_cooldown now _ b) as [b1 [[health cooldown]|e]] eqn:Eh; cbn [mret st_ret mbind option_bind] in E.
  2: { injection E as <- <-. intros slots claim requests tokens (b' & b1' & h & k & d & u & Hb & Hh & _).
       rewrite Eb in Hb. injection Hb as <-. by rewrite Eh in Hh. }
  unfold mret, st_ret in E. cbv beta iota in E. rewrite filter_reachable in E.
  destruct (filter (reachable health cooldown) _) as [|d1 l1] eqn:El.
  { injection E as <- <-. intros slots claim requests tokens (b' & b1' & h & k & d & u & Hb & Hh & Hl & _).
    rewrite Eb in Hb. injection Hb as <-. rewrite Eh in Hh. injection Hh as <- <- <-. by rewrite El in Hl. }
  unfold limits_of_healthy in E. rewrite <- El in E.
  apply bind_ret_inv in E as (w3 & [declared source] & Em & E). unfold of_py, lift_exn in Em.
  destruct (max_in_flight_from_deployments cfg _) as [[declared' source']|e] eqn:Emx; [|done]. injection Em as <- -> ->.
  apply bind_ret_inv in E as (w4 & claim & Ec & E). unfold of_py, lift_exn in Ec.
  destruct (max_claim_work_units_from_deployments cfg _) as [claim'|e] eqn:Ecx; [|done]. injection Ec as <- ->.
  apply bind_ret_inv in E as (w5 & [rpm tpm] & Eu & E). injection E as _ <-.
  set (live := filter (reachable health cooldown) (deployments_for_model_group group w)) in *.
  assert (Hlive : exists i l', deployment_ids live = i :: l').
  { assert (Hd : d1 ∈ live) by (rewrite El; left).
    apply list_elem_of_filter in Hd as [[Hne _] _]. rewrite El. unfold deployment_ids. cbn [map List.filter]. unfold Str.is_empty.
    rewrite (proj2 (String.eqb_neq _ _) Hne). by eexists _, _. }
  set (usage := snd (be_get_usage_batch now (deployment_ids live) b1)).
  set (left := fun (limit_of : Deployment -> option Z) (counter : string) => match usage with
      | Ret u => spare limit_of (fun d => default 0 (default ∅ (u !! deployment_id d) !! counter)) live
      | Raise _ => None
      end).
  assert (Er : rpm = Z.max 0 <$> left rpm_limit "rpm"%string /\ tpm = Z.max 0 <$> left tpm_limit "tpm"%string).
  { revert Eu. unfold remaining_usage, left, usage. destruct Hlive as (i & l' & ->). unfold mbind, st_bind, ask_state. cbn [cw_state].
    destruct (be_get_usage_batch now (i :: l') b1) as [b2 [u|e]]; intros [= _ <- <-]; [|done]. by rewrite !remaining_spare. }
  destruct Er as [-> ->].
  assert (Hg : forall slots, slots_of declared = Some slots -> group_limits group w slots claim (left rpm_limit "rpm"%string) (left tpm_limit "tpm"%string)).
  { intros slots Hs. exists b, b1, health, cooldown, declared, source. cbv zeta. split_and!; try done. change (live <> []). by rewrite El. }
  unfold slots_of in Hg. destruct declared as [m|], (cc_fail_open cfg) eqn:Ef; cbn [cl_reason cl_max_in_flight_items
    cl_max_claim_work_units cl_rpm_remaining cl_tpm_remaining].
  1-3: by eexists _, _, _; split_and!; [by apply Hg| |..].
  intros slots cl requests tokens (b' & b1' & h & k & d & u & Hb & Hh & _ & Hm & Hs & _).
  rewrite Eb in Hb. injection Hb as <-. rewrite Eh in Hh. injection Hh as <- <- <-. fold live in Hm. rewrite Emx in Hm.
  injection Hm as <- _. unfold slots_of in Hs. by rewrite Ef in Hs.
Qed.
Lemma indexed_in_flight s group tier : group <> "" -> tier <> "" ->
  match in_flight_index now s !! (group, tier) with Some r => Z.max 0 (if_items r) | None => 0 end =
  in_flight_items now group tier s.
Proof.
  intros Hg Ht. pose proof (in_flight_index_spec now s group tier Hg Ht) as Hi.
  assert (0 <= in_flight_items now group tier s) by (unfold in_flight_items; rewrite cnt_select; lia).
  destruct (in_flight_index now s !! (group, tier)); [destruct Hi as [-> _]|destruct Hi as [-> _]]; lia.
Qed.

(** A snapshot is eligible when its group has room, and offers that room. *)
Lemma snapshot_room s group tier a w w' x : group <> "" -> tier <> "" -> 0 < ba_queued_jobs a ->
  snapshot_for digest loads cfg now (group, tier) a (in_flight_index now s !! (group, tier)) w = (w', Ret x) ->
  (eligible x = true -> exists items units, room_of s (group, tier) w a items units /\
     sp_available_in_flight_items x = items /\ sp_available_work_units x = units) /\
  (forall items units, room_of s (group, tier) w a items units -> eligible x = true).
Proof.
  intros Hg Ht Hq. unfold snapshot_for. rewrite indexed_in_flight by done. intros E.
  apply bind_ret_inv in E as (w1 & deferral & Ed & E). apply get_deferral_spec in Ed as (Hs & Hr & Hd).
  destruct deferral as [d|].
  { apply bind_ret_inv in E as (w2 & ? & _ & E). injection E as _ <-. split; [done|].
    intros items units (slots & claim & requests & tokens & Hn & _). by apply Hd in Hn. }
  apply bind_ret_inv in E as (w2 & l & El & E). apply resolve_limits_group in El.
  assert (Hw : forall sl cl r t, group_limits group w1 sl cl r t <-> group_limits group w sl cl r t).
  { intros. unfold group_limits, deployments_for_model_group. by rewrite Hs, Hr. }
  set (fl := in_flight_items now group tier s) in *. pose proof (availability_room a fl l) as Ha.
  destruct (availability a fl l) as [[slots units] reason] eqn:Eav. injection E as _ <-. unfold eligible.
  cbn [sp_reason sp_available_in_flight_items sp_available_work_units sp_queued_jobs].
  destruct (cl_reason l) as [why|] eqn:Ewhy.
  { assert (reason = Some why) as -> by (unfold availability in Eav; rewrite Ewhy in Eav; congruence). split; [done|].
    intros items u (sl & claim & requests & tokens & _ & Hl & _). apply Hw in Hl. by apply El in Hl. }
  destruct El as (claim & requests & tokens & Hl & Hc & Hrq & Htk). apply Hw in Hl.
  destruct (Ha eq_refl) as [Hiff Heq]. rewrite Hc, Hrq, Htk in Hiff, Heq. clear Ha Eav.
  set (n0 := cl_max_in_flight_items l - fl) in *. set (m0 := Z.min (ba_queued_work_units a) (Z.max 1 claim)) in *.
  pose proof (bounded_pos requests n0) as [Hp1 He1]. pose proof (bounded_pos tokens m0) as [Hp2 He2].
  rewrite Hp1, Hp2 in Hiff. split.
  - intros He. apply andb_true_iff in He as [[[Hrs Hsl]%andb_true_iff Hu]%andb_true_iff _].
    apply Z.ltb_lt in Hsl, Hu. destruct (proj1 Hiff) as [Hn Hm]; [by destruct reason|].
    destruct Heq as [-> ->]; [tauto..|]. rewrite He1, He2 by done. exists (bounded requests n0), (bounded tokens m0).
    split; [|done]. exists (cl_max_in_flight_items l), claim, requests, tokens. split_and!; try done. by apply Hd.
  - intros items u (sl & claim' & requests' & tokens' & _ & Hl' & Hi & Hu & Hi0 & Hu0).
    destruct (group_limits_fun _ _ _ _ _ _ _ _ _ _ Hl Hl') as (<- & <- & <- & <-).
    destruct (proj2 Hiff) as (-> & Hsl & Hun); [subst; done|]. cbn [andb]. apply Z.ltb_lt in Hsl, Hun, Hq. by rewrite Hsl, Hun, Hq.
Qed.

(** Each snapshot is built in the world its predecessors leave. *)
Lemma snapshots_for_at index l w w' xs : snapshots_for digest loads cfg now index l w = (w', Ret xs) ->
  length xs = length l /\
  forall i key a x, l !! i = Some (key, a) -> xs !! i = Some x ->
    exists wi', snapshot_for digest loads cfg now key a (index !! key)
      (fst (snapshots_for digest loads cfg now index (take i l) w)) = (wi', Ret x).
Proof.
  revert w w' xs. induction l as [|[k b] l IH]; intros w w' xs E; cbn [snapshots_for] in E.
  { injection E as _ <-. done. }
  apply bind_ret_inv in E as (w1 & x0 & Ex & E). apply bind_ret_inv in E as (w2 & xs' & Exs & E). injection E as _ <-.
  destruct (IH w1 w2 xs' Exs) as [Hlen Hat]. split; [cbn; lia|]. intros [|i] key a x; cbn [lookup list_lookup take].
  - intros [= <- <-] [= <-]. by exists w1.
  - intros Hl Hx. destruct (Hat i key a x Hl Hx) as [wi' Hi]. exists wi'. rewrite <- Hi. f_equal.
    cbn [snapshots_for]. unfold mbind, st_bind. rewrite Ex. clear.
    by destruct (snapshots_for digest loads cfg now index (take i l) w1) as [w3 [ys|e]].
Qed.

Lemma backlog_key_named s group tier a : backlog_of now s !! (group, tier) = Some a -> group <> "" /\ tier <> "".
Proof.
  unfold backlog_of, aggregate_backlog. rewrite tally_lookup. set (l := List.filter _ _).
  destruct l as [|r l'] eqn:El; [done|]. intros _. assert (Hr : In r l) by (rewrite El; by left).
  apply filter_In in Hr as [Hr Hk%bool_decide_eq_true_1]. apply filter_In in Hr as [_ Hn%negb_true_iff].
  unfold aggregate_key in Hk. injection Hk as <- <-. unfold Str.is_empty in Hn. apply String.eqb_neq in Hn. split; [done|].
  generalize (Str.strip (text_or "standard" (bl_service_tier r))). intros t. unfold text_or, Str.is_empty.
  destruct (String.eqb_spec t ""); [discriminate|done].
Qed.

Lemma total_backlog_jobs s l a : total_backlog now s l = Some a -> 0 < ba_queued_jobs a.
Proof.
  revert a. induction l as [|j l IH]; intros a; cbn [total_backlog]; [done|].
  destruct (total_backlog now s l) as [b|]; intros [= <-]; cbn; [|lia]. specialize (IH b eq_refl). lia.
Qed.

(** A selection builds the snapshots of all groups and keeps the eligible ones. *)
Lemma select_groups_run monotonic s max_items max_work_units w w' l :
  select_model_groups digest loads cfg now monotonic s max_items max_work_units w = (w', Ret l) ->
  exists xs w1, snapshots_for digest loads cfg now (in_flight_index now s)
      (order_by aggregate_order (map_to_list (backlog_of now s))) w = (w1, Ret xs) /\
    l = map (selection_of max_items max_work_units) (order_by selection_order (List.filter eligible xs)).
Proof.
  unfold select_model_groups. intros E. apply bind_ret_inv in E as (w1 & xs & Ex & E).
  apply bind_ret_inv in E as (w2 & u & _ & E). injection E as _ <-. exists xs.
  unfold build_snapshots, get_st, mbind at 1, st_bind in Ex. cbn [negb andb] in Ex.
  destruct (rs_snapshot_cache (cw_resolver w)); apply bind_ret_inv in Ex as (w3 & xs' & Exs & Ex);
    apply bind_ret_inv in Ex as (w4 & ? & _ & Ex); injection Ex as _ <-; by exists w3.
Qed.

Lemma selections_sorted max_items max_work_units xs :
  StronglySorted (fun x y => selection_order (cl_snapshot x) (cl_snapshot y) = true)
    (map (selection_of max_items max_work_units) (order_by selection_order (List.filter eligible xs))).
Proof.
  assert (Hsort : StronglySorted (fun x y => selection_order x y = true) (order_by selection_order (List.filter eligible xs))).
  { apply (preorder_sorted (fun x y => then_by (nulls_last (sp_oldest_queue_entered_at x) (sp_oldest_queue_entered_at y))
      (then_by (String.compare (sp_model_group x) (sp_model_group y))
               (String.compare (sp_service_tier x) (sp_service_tier y))))).
    repeat apply preorder_then; apply preorder_nulls_last || apply preorder_string. }
  induction Hsort as [|x l _ IH Hx]; [constructor|]. cbn [map]. constructor; [done|].
  apply Forall_map. eapply Forall_impl; [exact Hx|]. done.
Qed.

(** What the [i]-th snapshot says of its group. *)
Lemma group_at s w w1 xs :
  snapshots_for digest loads cfg now (in_flight_index now s) (order_by aggregate_order (map_to_list (backlog_of now s))) w
    = (w1, Ret xs) ->
  forall i x, xs !! i = Some x ->
  exists key a, order_by aggregate_order (map_to_list (backlog_of now s)) !! i = Some (key, a) /\
    total_backlog now s (select_where (fun j => runnable_job now s j && bool_decide (job_key j = key)) (jobs s)) = Some a /\
    0 < ba_queued_jobs a /\ snapshot_key x = key /\ sp_oldest_queue_entered_at x = ba_oldest_queue_entered_at a /\
    let wi := fst (snapshots_for digest loads cfg now (in_flight_index now s)
                     (take i (order_by aggregate_order (map_to_list (backlog_of now s)))) w) in
    (eligible x = true -> exists items units, room_of s key wi a items units /\
       sp_available_in_flight_items x = items /\ sp_available_work_units x = units) /\
    (forall items units, room_of s key wi a items units -> eligible x = true).
Proof.
  intros Hxs i x Hi. destruct (snapshots_for_at _ _ _ _ _ Hxs) as [_ Hat].
  pose proof (snapshots_for_spec _ _ _ _ _ _ _ _ _ Hxs) as Hsh.
  destruct (Forall2_lookup_r _ _ _ _ _ Hsh Hi) as ([[group tier] a] & Hk & (_ & Hkey & _ & _ & Ho & _)).
  assert (Hb : backlog_of now s !! (group, tier) = Some a).
  { apply elem_of_map_to_list. rewrite <- (order_by_perm aggregate_order). by eapply list_elem_of_lookup_2. }
  destruct (backlog_key_named _ _ _ _ Hb) as [Hg Ht].
  pose proof Hb as Htot. unfold backlog_of in Htot. rewrite backlog_counts_runnable_jobs in Htot by done.
  exists (group, tier), a. split_and!; [done|done|by eapply total_backlog_jobs|done|done|].
  destruct (Hat _ _ _ _ Hk Hi) as [wi' Hx].
  by apply (snapshot_room _ _ _ _ _ _ _ Hg Ht (total_backlog_jobs _ _ _ Htot)) in Hx.
Qed.

Lemma snapshots_distinct s w w1 xs :
  snapshots_for digest loads cfg now (in_flight_index now s) (order_by aggregate_order (map_to_list (backlog_of now s))) w
    = (w1, Ret xs) ->
  NoDup (map snapshot_key (order_by selection_order (List.filter eligible xs))).
Proof.
  intros Hxs. rewrite order_by_perm.
  assert (Hall : NoDup (map snapshot_key xs)).
  { pose proof (snapshots_for_spec _ _ _ _ _ _ _ _ _ Hxs) as Hsh.
    replace (map snapshot_key xs) with (map fst (order_by aggregate_order (map_to_list (backlog_of now s)))).
    - rewrite order_by_perm. apply NoDup_fst_map_to_list.
    - clear -Hsh. induction Hsh as [|k x l xs (_ & Hk & _) _ IH]; [done|]. cbn [map]. by rewrite IH, Hk. }
  revert Hall. clear. induction xs as [|x xs IH]; [done|]. cbn [map List.filter]. intros [Hx Hn]%NoDup_cons.
  destruct (eligible x); [|by apply IH]. cbn [map]. constructor; [|by apply IH].
  intros (y & Hk & Hy)%list_elem_of_fmap. apply Hx. rewrite Hk. apply list_elem_of_fmap_2.
  by apply list_elem_of_In, filter_In in Hy as [Hy%list_elem_of_In _].
Qed.

(** C33: what the worker is told to claim from is exactly where there is
    something to take on and room for it.  When the selection returns, a model
    group and tier is in it, once, if and only if it has runnable jobs and room
    in the world the selection has reached when it comes to the group: the
    coordinator does not defer it, the health and cooldown calls made there
    leave it deployments, and both numbers it offers are positive.  It offers
    the items these deployments take at once less those of the group that are in
    flight in the tables, up to the requests they have left this minute, and the
    work units of its runnable jobs, up to a claim's limit and the tokens left;
    the selection asks for that much or the worker's own maximum, whichever is
    less.  The groups come oldest queue first.  A usage call that fails leaves
    requests and tokens unlimited; a state backend that does not answer for
    health leaves the group out. *)
Theorem selections_fit_capacity monotonic s max_items max_work_units w w' l :
  select_model_groups digest loads cfg now monotonic s max_items max_work_units w = (w', Ret l) ->
  (forall c, c ∈ l -> exists a items units, offer s w (snapshot_key (cl_snapshot c)) a items units /\
     cl_max_items c = Z.max 1 (Z.min max_items items) /\ cl_max_work_units c = Z.max 1 (Z.min max_work_units units) /\
     sp_oldest_queue_entered_at (cl_snapshot c) = ba_oldest_queue_entered_at a) /\
  (forall key a items units, offer s w key a items units -> exists c, c ∈ l /\ snapshot_key (cl_snapshot c) = key) /\
  NoDup (map (fun c => snapshot_key (cl_snapshot c)) l) /\
  StronglySorted (fun x y => selection_order (cl_snapshot x) (cl_snapshot y) = true) l.
Proof.
  intros E. destruct (select_groups_run _ _ _ _ _ _ _ E) as (xs & w1 & Hxs & Hl).
  pose proof (snapshots_for_at _ _ _ _ _ Hxs) as [Hlen _].
  assert (Hin : forall c, c ∈ l <-> exists x, c = selection_of max_items max_work_units x /\ x ∈ xs /\ eligible x = true).
  { intros c. rewrite Hl, list_elem_of_fmap. setoid_rewrite order_by_perm. by setoid_rewrite elem_select. }
  split_and!; [| | |rewrite Hl; apply selections_sorted].
  - intros c (x & -> & Hx & He)%Hin. apply list_elem_of_lookup in Hx as [i Hi].
    destruct (group_at s w w1 xs Hxs i x Hi) as (key & a & Hk & Ht & Hq & Hkey & Ho & Hroom).
    destruct (proj1 Hroom He) as (items & units & Hr & Hai & Hau). exists a, items, units.
    cbn [selection_of cl_snapshot cl_max_items cl_max_work_units].
    rewrite Hkey, Hai, Hau. split_and!; try done. split; [done|]. eexists. split; [by exists i, a|done].
  - intros key a items units (Ht & wi & (i & a' & Hk & ->) & Hr).
    assert (Hi : is_Some (xs !! i)) by (apply lookup_lt_is_Some; rewrite Hlen; by eapply lookup_lt_Some).
    destruct Hi as [x Hi]. destruct (group_at s w w1 xs Hxs i x Hi) as (key' & a'' & Hk' & Ht' & _ & Hkey & _ & Hroom).
    rewrite Hk in Hk'. injection Hk' as <- <-. rewrite Ht in Ht'. injection Ht' as <-.
    exists (selection_of max_items max_work_units x). split; [|done]. apply Hin. exists x.
    split_and!; [done|by eapply list_elem_of_lookup_2|by eapply Hroom].
  - rewrite Hl, map_map. cbn [selection_of cl_snapshot]. by eapply snapshots_distinct.
Qed.
End room.

(** ** Examples *)

#[local] Existing Instances no_server no_rendering no_repr.

(** One deployment that takes three items at a time and two requests a minute. *)
Definition sample_deployment : Deployment :=
  mkDeployment "d1" "m" [] [("batch_capacity", PyDict [("max_in_flight", PyInt 3)])] 1 0 [] (FFin 0) (FFin 0)
    (Some 2) None None None None None.
Definition sample_capacity_config : BatchModelCapacityConfig := mkCapacityConfig true 16 64 (FFin (1 # 4)) (5 * usec) false.
Definition sample_capacity : capacity_world (B := backend unit) (S := unit) :=
  mkCapacityWorld new_resolver (Some [("m", [sample_deployment])]) (Some offline) None.
Definition sample_selections : capacity_world (B := backend unit) (S := unit) * res exn (list BatchModelCapacitySelection) :=
  select_model_groups (fun s => s) (fun _ => None) sample_capacity_config (2 * usec) 0 sample_slices 20 80 sample_capacity.

Lemma selections_fit_capacity_witness :
  exists c, snd sample_selections = Ret [c] /\ cl_max_items c = 2 /\
    exists a items units, offer (fun s => s) (fun _ => None) sample_capacity_config (2 * usec) sample_slices sample_capacity
      (snapshot_key (cl_snapshot c)) a items units /\ 2 = Z.max 1 (Z.min 20 items).
Proof.
  destruct (snd sample_selections) as [l|e] eqn:E; [|vm_compute in E; discriminate E].
  destruct (selections_fit_capacity (B := backend unit) (S := unit) (fun s => s) (fun _ => None) sample_capacity_config
    (2 * usec) 0 sample_slices 20 80 sample_capacity (fst sample_selections) l) as (H & _).
  { unfold sample_selections in E |- *. destruct (select_model_groups _ _ _ _ _ _ _ _ _). cbn in E. by rewrite E. }
  assert (Hl : exists c, l = [c] /\ cl_max_items c = 2).
  { vm_compute in E. injection E as <-. eexists. split; reflexivity. }
  destruct Hl as (c & -> & Hc). exists c. split_and!; [done|done|].
  destruct (H c) as (a & items & units & Ho & Hi & _); [left|]. exists a, items, units. split; [done|]. by rewrite <- Hi, Hc.
Defined.

Lemma backlog_counts_runnable_jobs_witness :
  aggregate_backlog (list_model_group_backlog (2 * usec) sample_slices) !! ("m", "standard") =
  Some (mkBacklogAggregate 1 1 (Some 0)).
Proof.
  rewrite backlog_counts_runnable_jobs; [vm_compute; reflexivity|discriminate].
Defined.
