(* ===== verification/FlowSnapshot.v ===== *)
(** * The snapshots behind fair share

    [_load_scheduler_flow_refresh_snapshot] and
    [_load_scheduler_flow_in_flight_snapshot] of
    src/batch/repositories/job_repository.py: what the tables say of each flow,
    read row by row into one aggregate per flow, and [preview_scheduler_flows],
    which shows what a refresh would store.  [FairShare] works on the merged
    snapshot. *)

From Stdlib Require Import Sorting.Sorted.
From S2P Require Import Prelude PyVal Errors BatchModels BatchDb Scheduling BatchItems WorkClaim FairShare ModelCapacity.
Import BatchItemStatus.

(** ** Dictionaries in insertion order *)

Section dict.
Context {K V : Type} `{EqDecision K}.

Fixpoint dict_get (k : K) (d : list (K * V)) : option V :=
  match d with
  | [] => None
  | (k', v) :: d' => if decide (k' = k) then Some v else dict_get k d'
  end.

(** [d[k] = f(d.get(k))] *)
Fixpoint dict_update (k : K) (f : option V -> V) (d : list (K * V)) : list (K * V) :=
  match d with
  | [] => [(k, f None)]
  | (k', v) :: d' => if decide (k' = k) then (k', f (Some v)) :: d' else (k', v) :: dict_update k f d'
  end.

Lemma dict_get_update k k' f d :
  dict_get k' (dict_update k f d) = if decide (k = k') then Some (f (dict_get k d)) else dict_get k' d.
Proof.
  induction d as [|[k1 v] d IH]; cbn.
  - by destruct (decide (k = k')).
  - destruct (decide (k1 = k)) as [->|Hn]; cbn.
    + by destruct (decide (k = k')).
    + rewrite IH. destruct (decide (k1 = k')) as [->|]; [by rewrite decide_False|done].
Qed.

Lemma dict_update_keys k f d k' : k' ∈ map fst (dict_update k f d) <-> k' = k \/ k' ∈ map fst d.
Proof.
  induction d as [|[k1 v] d IH]; cbn; [rewrite elem_of_cons; tauto|].
  destruct (decide (k1 = k)) as [->|]; cbn; rewrite !elem_of_cons, ?IH; tauto.
Qed.

Lemma dict_update_NoDup k f d : NoDup (map fst d) -> NoDup (map fst (dict_update k f d)).
Proof.
  induction d as [|[k1 v] d IH]; cbn; [intros _; apply NoDup_singleton|].
  intros [Hn Hd]%NoDup_cons. destruct (decide (k1 = k)) as [->|Hne]; cbn; [by constructor|].
  constructor; [|by apply IH]. rewrite dict_update_keys. intros [->|?]; done.
Qed.

Lemma dict_get_member k v d : NoDup (map fst d) -> (k, v) ∈ d <-> dict_get k d = Some v.
Proof.
  induction d as [|[k1 v1] d IH]; cbn; [intros _; split; [by intros ?%elem_of_nil|done]|].
  intros [Hn Hd]%NoDup_cons. rewrite elem_of_cons. destruct (decide (k1 = k)) as [->|Hne].
  - split; [|intros [= ->]; by left]. intros [[= ->]|Hin]; [done|].
    exfalso. apply Hn. apply (list_elem_of_fmap_2 fst _ _ Hin).
  - rewrite <- IH by done. split; [|by right]. intros [[= -> ->]|?]; done.
Qed.

(** One entry per key, updated by each element with that key. *)
Definition dict_of {A} (key : A -> K) (add : option V -> A -> V) (l : list A) : list (K * V) :=
  foldl (fun d a => dict_update (key a) (fun v => add v a) d) [] l.

Lemma dict_of_get {A} (key : A -> K) (add : option V -> A -> V) (l : list A) k :
  dict_get k (dict_of key add l) = tallied add (List.filter (fun a => bool_decide (key a = k)) l).
Proof.
  unfold dict_of, tallied. change (@None V) with (dict_get k []). generalize (@nil (K * V)).
  induction l as [|a l IH]; intros d; [done|]. cbn [foldl List.filter]. rewrite IH, dict_get_update.
  destruct (decide (key a = k)) as [E|E]; [rewrite bool_decide_true by done; subst; done|by rewrite bool_decide_false].
Qed.

Lemma dict_of_NoDup {A} (key : A -> K) (add : option V -> A -> V) (l : list A) : NoDup (map fst (dict_of key add l)).
Proof.
  unfold dict_of. assert (H : NoDup (map fst (@nil (K * V)))) by constructor.
  revert H. generalize (@nil (K * V)). induction l as [|a l IH]; intros d Hd; [done|]. cbn. by apply IH, dict_update_NoDup.
Qed.
End dict.

(** [GROUP BY], each group with its rows. *)
Definition groups {A K} `{Countable K} (key : A -> K) (l : list A) : gmap K (list A) :=
  tally key (fun v a => default [] v ++ [a]) l.

(** ** Reading the tables *)

(** Service tier, model group, tenant scope type and id. *)
Abbreviation flow_key := (string * string * string * string)%type.

(** The keyword arguments of the refresh snapshot. *)
Record snapshot_request : Type := mkSnapshotRequest {
  sr_service_tier : option string;
  sr_model_group : option string;
  sr_max_candidate_jobs_per_flow : Z;
  sr_size_aware_scheduling_enabled : bool;
  sr_aging : SizeAging.aging_policy;
  sr_include_in_flight : bool
}.

Definition bounded_max_candidate_jobs (q : snapshot_request) : Z :=
  let n := sr_max_candidate_jobs_per_flow q in Z.max 1 (Z.min (if n =? 0 then 50 else n) 1000).

(** The two optional filters; an empty text filters nothing. *)
Definition tier_filter (q : snapshot_request) (j : Job.batch_job) : bool :=
  let tier := stripped (sr_service_tier q) in Str.is_empty tier || String.eqb (tier_column j) tier.
Definition group_filter (q : snapshot_request) (group : option string) : bool :=
  let g := stripped (sr_model_group q) in Str.is_empty g || sql_eq group g.

Definition non_empty (column : option string) : bool := if_set (fun t => negb (Str.is_empty t)) column.

(** [base_jobs] *)
Definition base_job (now : Z) (q : snapshot_request) (j : Job.batch_job) : bool :=
  job_claimable now j && non_empty (Job.scheduling_model_group j)
  && non_empty (Job.tenant_scope_type j) && non_empty (Job.tenant_scope_id j)
  && group_filter q (Job.scheduling_model_group j) && tier_filter q j.

(** [flow_jobs]: a base job with a runnable item. *)
Definition flow_job (now : Z) (q : snapshot_request) (s : db) (j : Job.batch_job) : bool :=
  base_job now q j && match runnable_items now (Job.batch_id j) s with [] => false | _ => true end.

Definition scope_column (column : option string) : string := text_or "anonymous" (default "" column).
Definition job_flow_key (j : Job.batch_job) : flow_key :=
  (tier_column j, default "" (Job.scheduling_model_group j),
   scope_column (Job.tenant_scope_type j), scope_column (Job.tenant_scope_id j)).

(** A row of [candidate_jobs]. *)
Record candidate : Type := mkCandidate {
  ca_job : Job.batch_job;
  ca_next_item_work_units : Z;
  ca_rank : SizeAging.BatchJobRankResult
}.

(** [candidate_rank_fields_sql]; the remaining work is that of the runnable
    items, not the column. *)
Definition candidate_rank (now : Z) (q : snapshot_request) (s : db) (j : Job.batch_job) : SizeAging.BatchJobRankResult :=
  if sr_size_aware_scheduling_enabled q
  then SizeAging.sql_rank now (sr_aging q) (Job.set_remaining_work_units (runnable_work_units now s j) j)
  else SizeAging.mkRankResult 0 0 "tenant_fair_share" false.

Definition candidate_of (now : Z) (q : snapshot_request) (s : db) (j : Job.batch_job) : option candidate :=
  match runnable_items now (Job.batch_id j) s with
  | [] => None
  | i :: _ => Some (mkCandidate j (est i) (candidate_rank now q s j))
  end.

(** [large_job_progress_floor DESC, scheduler_rank ASC]: constant unless
    scheduling is size-aware. *)
Definition rank_order (x y : SizeAging.BatchJobRankResult) : comparison :=
  then_by (match SizeAging.rk_large_job_progress_floor x, SizeAging.rk_large_job_progress_floor y with
           | true, false => Lt
           | false, true => Gt
           | _, _ => Eq
           end)
    (Qcompare (SizeAging.rk_rank x) (SizeAging.rk_rank y)).

(** [candidate_order_sql] *)
Definition candidate_order (x y : candidate) : comparison :=
  then_by (rank_order (ca_rank x) (ca_rank y)) (fifo_order (ca_job x) (ca_job y)).

(** The seeds of one flow are its first jobs in queue order. *)
Definition flow_candidates (now : Z) (q : snapshot_request) (s : db) (l : list Job.batch_job) : list candidate :=
  omap (candidate_of now q s) (limit (bounded_max_candidate_jobs q) (order_by (fun x y => le_of (fifo_order x y)) l)).

(** [(ARRAY_AGG(... ORDER BY candidate_order))[1]] of each column *)
Definition next_candidate (now : Z) (q : snapshot_request) (s : db) (l : list Job.batch_job) : option candidate :=
  head (order_by (fun x y => le_of (candidate_order x y)) (flow_candidates now q s l)).

(** A row that the snapshot queries return. *)
Record flow_read : Type := mkRead {
  rd_key : flow_key;
  rd_queued_jobs : Z;
  rd_queued_work_units : Z;
  rd_in_flight_work_units : Z;
  rd_oldest_queue_entered_at : option Z;
  rd_next : option candidate
}.

(** [MIN(queue_entered_at)] *)
Fixpoint oldest_entry (l : list Job.batch_job) : option Z :=
  match l with [] => None | j :: l' => min_oldest (Some (SizeAging.queue_time j)) (oldest_entry l') end.

(** [queued_state] *)
Definition queued_row (now : Z) (q : snapshot_request) (s : db) (r : flow_key * list Job.batch_job) : flow_read :=
  mkRead (fst r) (Z.of_nat (length (snd r))) (zsum (map (runnable_work_units now s) (snd r))) 0
    (oldest_entry (snd r)) (next_candidate now q s (snd r)).
Definition queued_rows (now : Z) (q : snapshot_request) (s : db) : list flow_read :=
  map (queued_row now q s)
    (map_to_list (groups job_flow_key (select_where (flow_job now q s) (jobs s)))).

(** *** In flight *)

Definition on_job_of (s : db) (i : Item.batch_item) (p : Job.batch_job -> bool) : bool :=
  match job_row (Item.batch_id i) s with Some j => p j | None => false end.

(** The full snapshot filters on the group of the job, the other one on the
    group of the work. *)
Definition flying_item (now : Z) (full : bool) (q : snapshot_request) (s : db) (i : Item.batch_item) : bool :=
  flying now s i
  && (if full then on_job_of s i (fun j => group_filter q (Job.scheduling_model_group j))
      else group_filter q (capacity_group s i))
  && on_job_of s i (tier_filter q).

(** [GROUP BY service_tier, model_group, tenant_scope_type, tenant_scope_id]:
    a name that is a column of a table is that column, so a missing scope, an
    empty one and the text anonymous are different groups with one key. *)
Definition flight_group (s : db) (i : Item.batch_item) : string * string * option string * option string :=
  (match job_row (Item.batch_id i) s with Some j => Job.service_tier j | None => "" end,
   default "" (capacity_group s i),
   match job_row (Item.batch_id i) s with Some j => Job.tenant_scope_type j | None => None end,
   match job_row (Item.batch_id i) s with Some j => Job.tenant_scope_id j | None => None end).
Definition flight_group_key (g : string * string * option string * option string) : flow_key :=
  let '(tier, group, scope_type, scope_id) := g in
  (text_or "standard" tier, group, scope_column scope_type, scope_column scope_id).

Definition in_flight_row (r : string * string * option string * option string * list Item.batch_item) : flow_read :=
  mkRead (flight_group_key (fst r)) 0 0 (work_units (snd r)) None None.
Definition in_flight_rows (now : Z) (full : bool) (q : snapshot_request) (s : db) : list flow_read :=
  map in_flight_row (map_to_list (groups (flight_group s) (select_where (flying_item now full q s) (items s)))).

(** [ORDER BY service_tier, model_group, tenant_scope_type, tenant_scope_id] *)
Definition key_order (x y : flow_key) : comparison :=
  let '(t, g, y1, i) := x in let '(t', g', y1', i') := y in
  then_by (String.compare t t') (then_by (String.compare g g')
    (then_by (String.compare y1 y1') (String.compare i i'))).
Definition in_flight_order (x y : flow_read) : bool := le_of (key_order (rd_key x) (rd_key y)).

(** *** The rows of the full snapshot *)

Definition with_in_flight (x f : flow_read) : flow_read :=
  mkRead (rd_key x) (rd_queued_jobs x) (rd_queued_work_units x) (rd_in_flight_work_units f)
    (rd_oldest_queue_entered_at x) (rd_next x).

(** [queued_state FULL OUTER JOIN in_flight] *)
Definition full_join (queued in_flight : list flow_read) : list flow_read :=
  flat_map (fun x => match List.filter (fun f => bool_decide (rd_key f = rd_key x)) in_flight with
                     | [] => [x]
                     | fs => map (with_in_flight x) fs
                     end) queued
  ++ List.filter (fun f => negb (existsb (fun x => bool_decide (rd_key x = rd_key f)) queued)) in_flight.

Definition refresh_order (x y : flow_read) : bool :=
  let '(_, g, y1, i) := rd_key x in let '(_, g', y1', i') := rd_key y in
  le_of (then_by (nulls_last (rd_oldest_queue_entered_at x) (rd_oldest_queue_entered_at y))
    (then_by (String.compare g g') (then_by (String.compare y1 y1') (String.compare i i')))).

Definition refresh_rows (now : Z) (q : snapshot_request) (s : db) : list flow_read :=
  order_by refresh_order
    (full_join (queued_rows now q s) (if sr_include_in_flight q then in_flight_rows now true q s else [])).

(** ** Aggregating the rows *)

(** [candidate_sort_key]; [None] is [datetime.max]. *)
Record sort_key : Type := mkSortKey {
  sk_floor : bool;
  sk_rank : Q;
  sk_queue_entered_at : option Z;
  sk_created_at : option Z;
  sk_batch_id : string
}.
Definition sort_key_order (x y : sort_key) : comparison :=
  then_by (match sk_floor x, sk_floor y with true, false => Lt | false, true => Gt | _, _ => Eq end)
    (then_by (Qcompare (sk_rank x) (sk_rank y))
      (then_by (nulls_last (sk_queue_entered_at x) (sk_queue_entered_at y))
        (then_by (nulls_last (sk_created_at x) (sk_created_at y)) (String.compare (sk_batch_id x) (sk_batch_id y))))).

(** [_SchedulerFlowRefreshAggregate]: what the scheduler reads, and what is
    only shown. *)
Record refresh_aggregate : Type := mkRefreshAggregate {
  ra_base : flow_aggregate;
  ra_next_size_class : option string;
  ra_next_scheduler_rank : option Q;
  ra_next_age_credit_work_units : option Z;
  ra_next_policy_reason : option string;
  ra_next_candidate_sort_key : option sort_key
}.

Section hashed.
Context (sha256_hex : string -> string).

Definition normalize_scheduler_tenant_scope (tenant_scope_type tenant_scope_id : string) : string * string :=
  let normalized_type := text_or "anonymous" (Str.strip tenant_scope_type) in
  let normalized_id := text_or "anonymous" (Str.strip tenant_scope_id) in
  (normalized_type,
   if String.eqb normalized_type "api_key" then Dimensions.stable_tenant_scope_id sha256_hex normalized_type normalized_id
   else normalized_id).

(** The key a row is aggregated under. *)
Definition normal_key (k : flow_key) : flow_key :=
  let '(tier, group, scope_type, scope_id) := k in
  let '(t, i) := normalize_scheduler_tenant_scope (Str.strip (text_or "anonymous" scope_type))
                   (Str.strip (text_or "anonymous" scope_id)) in
  (text_or "standard" (Str.strip tier), Str.strip group, t, i).
Definition has_group (r : flow_read) : bool :=
  let '(_, group, _, _) := rd_key r in negb (Str.is_empty (Str.strip group)).

(** The scope ids of keys stored as they are, with their hash. *)
Definition repair_of (r : flow_read) : option (string * string) :=
  let '(_, _, scope_type, scope_id) := rd_key r in
  let raw_type := Str.strip (text_or "anonymous" scope_type) in
  let raw_id := Str.strip (text_or "anonymous" scope_id) in
  if String.eqb raw_type "api_key" && negb (Str.is_empty raw_id) && negb (String.eqb raw_id "anonymous")
     && negb (Str.startswith raw_id Dimensions.API_KEY_TENANT_SCOPE_PREFIX)
  then Some (raw_id, snd (normalize_scheduler_tenant_scope raw_type raw_id)) else None.

Definition new_aggregate (k : flow_key) : refresh_aggregate :=
  let '(tier, group, scope_type, scope_id) := k in
  mkRefreshAggregate (mkAggregate tier group scope_type scope_id 0 0 0 None 1 None) None None None None None.

Definition set_next_item (n : Z) (b : flow_aggregate) : flow_aggregate :=
  mkAggregate (ag_service_tier b) (ag_model_group b) (ag_tenant_scope_type b) (ag_tenant_scope_id b)
    (ag_queued_jobs b) (ag_queued_work_units b) (ag_in_flight_work_units b) (ag_oldest_queue_entered_at b) n
    (ag_next_batch_id b).
Definition set_next_batch (v : option string) (b : flow_aggregate) : flow_aggregate :=
  mkAggregate (ag_service_tier b) (ag_model_group b) (ag_tenant_scope_type b) (ag_tenant_scope_id b)
    (ag_queued_jobs b) (ag_queued_work_units b) (ag_in_flight_work_units b) (ag_oldest_queue_entered_at b)
    (ag_next_item_work_units b) v.

(** The counters and the oldest entry, which [candidate_of] the row names. *)
Definition add_counts (b : flow_aggregate) (r : flow_read) : flow_aggregate :=
  mkAggregate (ag_service_tier b) (ag_model_group b) (ag_tenant_scope_type b) (ag_tenant_scope_id b)
    (ag_queued_jobs b + Z.max 0 (rd_queued_jobs r)) (ag_queued_work_units b + Z.max 0 (rd_queued_work_units r))
    (ag_in_flight_work_units b + Z.max 0 (rd_in_flight_work_units r))
    (match rd_oldest_queue_entered_at r, ag_oldest_queue_entered_at b with
     | Some t, Some u => if t <? u then Some t else Some u
     | Some t, None => Some t
     | None, o => o
     end)
    (ag_next_item_work_units b) (ag_next_batch_id b).
Definition is_older (b : flow_aggregate) (r : flow_read) : bool :=
  match rd_oldest_queue_entered_at r, ag_oldest_queue_entered_at b with
  | Some t, Some u => t <? u
  | Some _, None => true
  | None, _ => false
  end.

Definition row_batch_id (r : flow_read) : option string :=
  match rd_next r with Some c => Dimensions.normalize_optional (Some (Job.batch_id (ca_job c))) | None => None end.
Definition row_next_item (r : flow_read) : Z :=
  match rd_next r with Some c => at_least_one (ca_next_item_work_units c) | None => 1 end.
Definition row_sort_key (c : candidate) (batch_id : string) : sort_key :=
  mkSortKey (SizeAging.rk_large_job_progress_floor (ca_rank c)) (SizeAging.rk_rank (ca_rank c))
    (Some (SizeAging.queue_time (ca_job c))) (Some (Job.created_at (ca_job c))) batch_id.

Definition is_better (a : refresh_aggregate) (k : sort_key) : bool :=
  match ra_next_candidate_sort_key a with
  | None => true
  | Some best => match sort_key_order k best with Lt => true | _ => false end
  end.

(** One row of the loop. *)
Definition add_row (a : refresh_aggregate) (r : flow_read) : refresh_aggregate :=
  let b := add_counts (ra_base a) r in
  let b := match row_batch_id r with
           | None => if is_older (ra_base a) r then set_next_item (row_next_item r) b else b
           | Some _ => b
           end in
  let a' := mkRefreshAggregate b (ra_next_size_class a) (ra_next_scheduler_rank a)
              (ra_next_age_credit_work_units a) (ra_next_policy_reason a) (ra_next_candidate_sort_key a) in
  match rd_next r, row_batch_id r with
  | Some c, Some batch_id =>
      let k := row_sort_key c batch_id in
      if is_better a k
      then mkRefreshAggregate (set_next_item (row_next_item r) (set_next_batch (Some batch_id) b))
             (Dimensions.normalize_optional (Some (text_or "unknown" (Job.size_class (ca_job c)))))
             (Some (SizeAging.rk_rank (ca_rank c))) (Some (SizeAging.rk_age_credit_work_units (ca_rank c)))
             (Dimensions.normalize_optional (Some (SizeAging.rk_policy_reason (ca_rank c)))) (Some k)
      else a'
  | _, _ => a'
  end.

(** The loop of the in-flight snapshot only adds the work in flight. *)
Definition add_in_flight_row (a : refresh_aggregate) (r : flow_read) : refresh_aggregate :=
  mkRefreshAggregate (set_ag_in_flight (ag_in_flight_work_units (ra_base a) + Z.max 0 (rd_in_flight_work_units r)) (ra_base a))
    (ra_next_size_class a) (ra_next_scheduler_rank a) (ra_next_age_credit_work_units a) (ra_next_policy_reason a)
    (ra_next_candidate_sort_key a).

Definition aggregates (add : refresh_aggregate -> flow_read -> refresh_aggregate) (rows : list flow_read)
    : list (flow_key * refresh_aggregate) :=
  dict_of (fun r => normal_key (rd_key r))
    (fun v r => add (default (new_aggregate (normal_key (rd_key r))) v) r) (List.filter has_group rows).

Definition repairs (rows : list flow_read) : list (string * string) :=
  fold_left put_repair (omap repair_of (List.filter has_group rows)) [].

Definition bases (d : list (flow_key * refresh_aggregate)) : list flow_aggregate := map (fun x => ra_base (snd x)) d.

Definition load_scheduler_flow_refresh_snapshot (now : Z) (q : snapshot_request) (s : db) : refresh_snapshot :=
  let rows := refresh_rows now q s in
  mkSnapshot (stripped (sr_service_tier q)) (stripped (sr_model_group q))
    (order_by FairShare.aggregate_order (bases (aggregates add_row rows))) (repairs rows).

Definition load_scheduler_flow_in_flight_snapshot (now : Z) (q : snapshot_request) (s : db) : refresh_snapshot :=
  let rows := order_by in_flight_order (in_flight_rows now false q s) in
  mkSnapshot (stripped (sr_service_tier q)) (stripped (sr_model_group q))
    (bases (aggregates add_in_flight_row rows)) (repairs rows).

(** What [claim_next_fair_share_work] refreshes the flows from. *)
Definition claim_snapshot (now : Z) (q : snapshot_request) (s : db) : refresh_snapshot :=
  merge_scheduler_flow_snapshots (load_scheduler_flow_refresh_snapshot now q s)
    (load_scheduler_flow_in_flight_snapshot now q s).

Definition refresh_scheduler_flows (now : Z) (q : snapshot_request) (base_quantum_work_units max_deficit_multiplier : Z)
    : st db exn (list BatchSchedulerFlowRecord) := fun s =>
  refresh_scheduler_flows_from_snapshot sha256_hex now (load_scheduler_flow_refresh_snapshot now q s)
    base_quantum_work_units max_deficit_multiplier s.

(** *** The preview *)

Record flow_filter : Type := mkFlowFilter {
  ff_service_tier : option string;
  ff_model_group : option string;
  ff_tenant_scope_type : option string;
  ff_active : option bool;
  ff_limit : option Z
}.

(** Each filter applies when the argument is not empty. *)
Definition flow_matches (f : flow_filter) (r : Flow.flow_row) : bool :=
  null_or (fun t => Str.is_empty t || String.eqb (Flow.service_tier r) (text_or "standard" (Str.strip t))) (ff_service_tier f)
  && null_or (fun t => Str.is_empty t || String.eqb (Flow.model_group r) (Str.strip t)) (ff_model_group f)
  && null_or (fun t => Str.is_empty t || String.eqb (Flow.tenant_scope_type r) (Str.strip t)) (ff_tenant_scope_type f)
  && null_or (Bool.eqb (Flow.active r)) (ff_active f).

(** [service_tier, model_group, active DESC, last_selected_at NULLS FIRST, ...] *)
Definition flow_list_order (x y : Flow.flow_row) : bool :=
  le_of (then_by (String.compare (Flow.service_tier x) (Flow.service_tier y))
    (then_by (String.compare (Flow.model_group x) (Flow.model_group y))
      (then_by (match Flow.active x, Flow.active y with true, false => Lt | false, true => Gt | _, _ => Eq end)
        (then_by (nulls_first (Flow.last_selected_at x) (Flow.last_selected_at y))
          (then_by (String.compare (Flow.tenant_scope_type x) (Flow.tenant_scope_type y))
                   (String.compare (Flow.tenant_scope_id x) (Flow.tenant_scope_id y))))))).

Definition list_scheduler_flows (f : flow_filter) (s : db) : list BatchSchedulerFlowRecord :=
  let rows := order_by flow_list_order (select_where (flow_matches f) (flows s)) in
  map (fun r => flow_from_row r None 1 None)
    (match ff_limit f with Some n => limit (Z.max 1 (Z.min n 1000)) rows | None => rows end).

Definition record_key (f : BatchSchedulerFlowRecord) : flow_key :=
  let '(t, i) := normalize_scheduler_tenant_scope (Flow.tenant_scope_type (row f)) (Flow.tenant_scope_id (row f)) in
  (Flow.service_tier (row f), Flow.model_group (row f), t, i).

(** [existing_by_key]: of several flows with one key, the one already stored
    under the normal scope id, or else the first. *)
Definition put_existing (d : list (flow_key * BatchSchedulerFlowRecord)) (f : BatchSchedulerFlowRecord)
    : list (flow_key * BatchSchedulerFlowRecord) :=
  let k := record_key f in
  let '(_, _, _, i) := k in
  match dict_get k d with
  | None => dict_update k (fun _ => f) d
  | Some _ => if String.eqb (Flow.tenant_scope_id (row f)) i then dict_update k (fun _ => f) d else d
  end.

Definition aggregate_key (a : flow_aggregate) : flow_key :=
  (ag_service_tier a, ag_model_group a, ag_tenant_scope_type a, ag_tenant_scope_id a).

Definition preview_scheduler_flows (now : Z) (q : snapshot_request) (base_quantum_work_units max_deficit_multiplier : Z)
    (s : db) : list BatchSchedulerFlowRecord :=
  let snapshot := load_scheduler_flow_refresh_snapshot now q s in
  let existing := list_scheduler_flows
    (mkFlowFilter (Some (sn_service_tier snapshot)) (Some (sn_model_group snapshot)) None None None) s in
  let existing_by_key := fold_left put_existing existing [] in
  map (fun a => preview_flow_from_refresh_aggregate sha256_hex now a (dict_get (aggregate_key a) existing_by_key)
                  base_quantum_work_units max_deficit_multiplier) (sn_aggregates snapshot).

(** ** What an aggregate says of its flow *)

Implicit Types (k : flow_key) (r : flow_read) (a : flow_aggregate).

Definition grouped k : bool := let '(_, group, _, _) := k in negb (Str.is_empty group).

Lemma has_group_normal r : has_group r = grouped (normal_key (rd_key r)).
Proof. unfold grouped, has_group, normal_key. destruct (rd_key r) as [[[t g] y] i]. by destruct (normalize_scheduler_tenant_scope _ _). Qed.

Lemma aggregate_key_set n a : aggregate_key (set_ag_in_flight n a) = aggregate_key a.
Proof. done. Qed.

Lemma new_aggregate_key k : aggregate_key (ra_base (new_aggregate k)) = k.
Proof. by destruct k as [[[t g] y] i]. Qed.

Lemma add_row_base (x : refresh_aggregate) r :
  let b := ra_base x in let b' := ra_base (add_row x r) in
  aggregate_key b' = aggregate_key b /\
  ag_queued_jobs b' = ag_queued_jobs b + Z.max 0 (rd_queued_jobs r) /\
  ag_queued_work_units b' = ag_queued_work_units b + Z.max 0 (rd_queued_work_units r) /\
  ag_in_flight_work_units b' = ag_in_flight_work_units b + Z.max 0 (rd_in_flight_work_units r) /\
  ag_oldest_queue_entered_at b' = min_oldest (ag_oldest_queue_entered_at b) (rd_oldest_queue_entered_at r).
Proof.
  assert (Ho : ag_oldest_queue_entered_at (add_counts (ra_base x) r)
               = min_oldest (ag_oldest_queue_entered_at (ra_base x)) (rd_oldest_queue_entered_at r)).
  { cbn. destruct (rd_oldest_queue_entered_at r) as [t|], (ag_oldest_queue_entered_at _) as [u|]; cbn; try done.
    destruct (Z.ltb_spec t u); f_equal; lia. }
  cbv zeta. rewrite <- Ho. unfold add_row.
  destruct (rd_next r) as [c|], (row_batch_id r) as [i|]; cbn [ra_base];
    repeat match goal with |- context [if ?p then _ else _] => destruct p end; cbn; split_and!; reflexivity.
Qed.

(** Folding the rows of a flow. *)
Lemma foldl_add_row l (x : refresh_aggregate) :
  let b := ra_base x in let b' := ra_base (foldl add_row x l) in
  aggregate_key b' = aggregate_key b /\
  ag_queued_jobs b' = ag_queued_jobs b + zsum (map (fun r => Z.max 0 (rd_queued_jobs r)) l) /\
  ag_queued_work_units b' = ag_queued_work_units b + zsum (map (fun r => Z.max 0 (rd_queued_work_units r)) l) /\
  ag_oldest_queue_entered_at b' = foldl min_oldest (ag_oldest_queue_entered_at b) (map rd_oldest_queue_entered_at l).
Proof.
  revert x. induction l as [|r l IH]; intros x; cbv zeta; cbn [foldl map]; [cbn [zsum foldr]; split_and!; [done|lia|lia|done]|].
  destruct (IH (add_row x r)) as (-> & -> & -> & ->). destruct (add_row_base x r) as (-> & -> & -> & _ & ->).
  rewrite !zsum_cons. split_and!; [done|lia|lia|done].
Qed.

Lemma foldl_add_in_flight l (x : refresh_aggregate) :
  let b := ra_base x in let b' := ra_base (foldl add_in_flight_row x l) in
  b' = set_ag_in_flight (ag_in_flight_work_units b + zsum (map (fun r => Z.max 0 (rd_in_flight_work_units r)) l)) b.
Proof.
  revert x. induction l as [|r l IH]; intros x; cbv zeta; cbn [foldl map].
  - cbn [zsum foldr]. rewrite Z.add_0_r. by destruct (ra_base x).
  - rewrite IH, zsum_cons. cbn. unfold set_ag_in_flight. cbn. f_equal. lia.
Qed.

(** The aggregate of a key is the fold of its rows. *)
Lemma aggregates_get add rows k : grouped k = true ->
  dict_get k (aggregates add rows) =
  match List.filter (fun r => bool_decide (normal_key (rd_key r) = k)) rows with
  | [] => None
  | l => Some (foldl add (new_aggregate k) l)
  end.
Proof.
  intros Hg. unfold aggregates. rewrite dict_of_get.
  assert (E : List.filter (fun r => bool_decide (normal_key (rd_key r) = k)) (List.filter has_group rows)
    = List.filter (fun r => bool_decide (normal_key (rd_key r) = k)) rows).
  { induction rows as [|r rows IH]; [done|]. cbn. destruct (has_group r) eqn:Hr; cbn; [by rewrite IH|].
    rewrite IH. rewrite bool_decide_false; [done|]. intros E. rewrite has_group_normal, E in Hr. congruence. }
  rewrite E. clear E. assert (Hk : Forall (fun r => normal_key (rd_key r) = k) (List.filter (fun r => bool_decide (normal_key (rd_key r) = k)) rows)).
  { apply Forall_forall. intros r [_ Hr]%elem_select. by apply bool_decide_eq_true in Hr. }
  unfold tallied. destruct Hk as [|r l Hr Hl]; [done|]. cbn [foldl default]. rewrite Hr. unfold id.
  generalize (add (new_aggregate k) r). induction Hl as [|r' l Hr' _ IH]; intros x; [done|]. cbn [foldl default]. unfold id. apply IH.
Qed.

Lemma aggregates_group add rows k x : dict_get k (aggregates add rows) = Some x -> grouped k = true.
Proof.
  unfold aggregates. rewrite dict_of_get. destruct (List.filter _ _) as [|r l] eqn:E; [done|]. intros _.
  assert (Hr : r ∈ r :: l) by left. rewrite <- E in Hr. apply elem_select in Hr as [[_ Hr]%elem_select Hk%bool_decide_eq_true].
  by rewrite has_group_normal, Hk in Hr.
Qed.

Lemma foldl_key (add : refresh_aggregate -> flow_read -> refresh_aggregate) rs x :
  (forall x r, aggregate_key (ra_base (add x r)) = aggregate_key (ra_base x)) ->
  aggregate_key (ra_base (foldl add x rs)) = aggregate_key (ra_base x).
Proof. intros Hadd. revert x. induction rs as [|r rs IH]; intros x; cbn [foldl]; [done|]. by rewrite IH, Hadd. Qed.

(** The aggregates of a snapshot, by key. *)
Lemma bases_spec add rows : (forall x r, aggregate_key (ra_base (add x r)) = aggregate_key (ra_base x)) ->
  NoDup (map aggregate_key (bases (aggregates add rows))) /\
  forall a, a ∈ bases (aggregates add rows) <->
    exists x, a = ra_base x /\ dict_get (aggregate_key a) (aggregates add rows) = Some x.
Proof.
  intros Hadd. pose proof (dict_of_NoDup (fun r => normal_key (rd_key r))
    (fun v r => add (default (new_aggregate (normal_key (rd_key r))) v) r) (List.filter has_group rows)) as Hn.
  fold (aggregates add rows) in Hn. set (d := aggregates add rows) in *.
  assert (Hk : forall k x, (k, x) ∈ d -> aggregate_key (ra_base x) = k).
  { intros k x Hx. apply (dict_get_member k x d Hn) in Hx. pose proof (aggregates_group add rows k x Hx) as Hg.
    unfold d in Hx. rewrite aggregates_get in Hx by done. destruct (List.filter _ _) as [|r l]; [done|].
    injection Hx as <-. rewrite foldl_key by done. cbn [foldl]. by rewrite Hadd, new_aggregate_key. }
  assert (E : map aggregate_key (bases d) = map fst d).
  { unfold bases. rewrite map_map. apply map_ext_in. intros [k x] Hx%list_elem_of_In. by apply Hk. }
  split; [by rewrite E|]. intros a. unfold bases. rewrite list_elem_of_fmap. split.
  - intros ([k x] & -> & Hx). exists x. split; [done|]. cbn [snd]. rewrite (Hk _ _ Hx). by apply dict_get_member.
  - intros (x & -> & Hx). apply dict_get_member in Hx; [|done]. by exists (aggregate_key (ra_base x), x).
Qed.
End hashed.

(** ** The merge, by key *)

Definition find_key (k : flow_key) (l : list flow_aggregate) : option flow_aggregate :=
  List.find (fun a => bool_decide (aggregate_key a = k)) l.

Lemma same_aggregate_key x y : same_aggregate x y = bool_decide (aggregate_key x = aggregate_key y).
Proof.
  apply eq_true_iff_eq. unfold same_aggregate, aggregate_key.
  rewrite !andb_true_iff, !String.eqb_eq, bool_decide_eq_true. split; [intros (((-> & ->) & ->) & ->)|intros [= -> -> -> ->]]; done.
Qed.

Lemma find_key_none k l : find_key k l = None <-> k ∉ map aggregate_key l.
Proof.
  induction l as [|a l IH]; cbn; [split; [intros _ ?%elem_of_nil|]; done|].
  case_bool_decide as E; rewrite not_elem_of_cons; [split; [done|intros [? _]; congruence]|].
  rewrite IH. split; [|tauto]. intros ?. split; [congruence|done].
Qed.

Lemma find_key_some k l a : NoDup (map aggregate_key l) -> find_key k l = Some a <-> a ∈ l /\ aggregate_key a = k.
Proof.
  intros Hn. split.
  - intros [Ha Hk]%find_some. apply bool_decide_eq_true in Hk. by rewrite list_elem_of_In.
  - intros [Ha <-]. destruct (find_key (aggregate_key a) l) as [b|] eqn:E.
    + apply find_some in E as [Hb Hk]. apply bool_decide_eq_true in Hk. f_equal.
      apply (NoDup_map_inj aggregate_key l); [done|by apply list_elem_of_In|done|done].
    + apply find_key_none in E. exfalso. apply E. by apply (list_elem_of_fmap_2 aggregate_key).
Qed.

Lemma put_fresh a m : aggregate_key a ∉ map aggregate_key m -> put_aggregate a m = m ++ [a].
Proof.
  intros H. unfold put_aggregate. destruct (existsb _ m) eqn:E; [|done].
  apply existsb_exists in E as (x & Hx & E). rewrite same_aggregate_key in E. apply bool_decide_eq_true in E.
  exfalso. apply H. rewrite E. apply (list_elem_of_fmap_2 aggregate_key). by apply list_elem_of_In.
Qed.

Lemma put_all_fresh (f : flow_aggregate -> flow_aggregate) l m :
  (forall a, aggregate_key (f a) = aggregate_key a) -> NoDup (map aggregate_key (m ++ l)) ->
  fold_left (fun m a => put_aggregate (f a) m) l m = m ++ map f l.
Proof.
  intros Hf. revert m. induction l as [|a l IH]; intros m Hn; cbn [fold_left map]; [by rewrite app_nil_r|].
  rewrite map_app in Hn. apply NoDup_app in Hn as (Hm & Hd & Hl). cbn [map] in Hd, Hl.
  rewrite put_fresh by (rewrite Hf; intros Hx; apply (Hd _ Hx); by left).
  rewrite IH, <- app_assoc; [done|]. rewrite !map_app. cbn [map]. rewrite Hf, <- app_assoc.
  apply NoDup_app. split_and!; [done| |by apply NoDup_app; split_and!; [apply NoDup_singleton|
    intros x ->%list_elem_of_singleton; by apply NoDup_cons in Hl as [? _]|by apply NoDup_cons in Hl as [_ ?]]].
  intros x Hx Hi. apply (Hd x Hx). done.
Qed.

Definition set_from (l : list flow_aggregate) (x : flow_aggregate) : flow_aggregate :=
  match find_key (aggregate_key x) l with
  | Some b => set_ag_in_flight (Z.max 0 (ag_in_flight_work_units b)) x
  | None => x
  end.

Lemma set_from_key l x : aggregate_key (set_from l x) = aggregate_key x.
Proof. unfold set_from. by destruct (find_key _ l). Qed.

Lemma merge_in_flight_all l m : NoDup (map aggregate_key m) -> NoDup (map aggregate_key l) ->
  fold_left merge_in_flight l m
  = map (set_from l) m ++ List.filter (fun b => bool_decide (aggregate_key b ∉ map aggregate_key m)) l.
Proof.
  revert m. induction l as [|b l IH]; intros m Hm Hl.
  - cbn. rewrite app_nil_r. symmetry. apply map_id.
  - cbn [map] in Hl. apply NoDup_cons in Hl as [Hb Hl]. cbn [fold_left List.filter]. unfold merge_in_flight at 2.
    assert (Ef : List.find (same_aggregate b) m = find_key (aggregate_key b) m).
    { clear. induction m as [|x m IH]; [done|]. cbn. rewrite same_aggregate_key.
      repeat case_bool_decide; try congruence; done. }
    rewrite Ef. destruct (find_key (aggregate_key b) m) as [e|] eqn:E.
    + apply find_key_some in E as [He Hk]; [|done].
      rewrite bool_decide_false by (intros H; apply H; rewrite <- Hk; by apply (list_elem_of_fmap_2 aggregate_key)).
      assert (Em : put_aggregate (set_ag_in_flight (Z.max 0 (ag_in_flight_work_units b)) e) m = map (set_from [b]) m).
      { unfold put_aggregate. replace (existsb _ m) with true.
        2: { symmetry. apply existsb_exists. exists e. split; [by apply list_elem_of_In|]. rewrite same_aggregate_key.
             by apply bool_decide_true. }
        apply map_ext_in. intros x Hx%list_elem_of_In. rewrite same_aggregate_key. unfold set_from. cbn.
        change (aggregate_key (set_ag_in_flight _ e)) with (aggregate_key e). rewrite Hk.
        case_bool_decide as Ex; [|done]. f_equal. apply (NoDup_map_inj aggregate_key m); congruence. }
      rewrite Em, IH; [|by rewrite map_map, (map_ext _ aggregate_key) by apply set_from_key|done].
      rewrite map_map, (map_map (set_from [b])), (map_ext (fun x => aggregate_key (set_from [b] x)) aggregate_key) by apply set_from_key.
      f_equal. apply map_ext_in. intros x _. unfold set_from at 1. rewrite set_from_key. unfold set_from. cbn.
      case_bool_decide as Ex; [|done]. rewrite <- Ex, (proj2 (find_key_none _ l)) by done. done.
    + rewrite find_key_none in E. rewrite bool_decide_true by done. rewrite IH; [| |done].
      2: { rewrite map_app. apply NoDup_app. split_and!; [done| |apply NoDup_singleton].
           intros x Hx ->%list_elem_of_singleton. done. }
      rewrite map_app, <- app_assoc. cbn [map app]. f_equal; [|f_equal].
      * apply map_ext_in. intros x Hx%list_elem_of_In. unfold set_from. cbn.
        rewrite bool_decide_false; [done|]. intros Ex. apply E. rewrite Ex. by apply (list_elem_of_fmap_2 aggregate_key).
      * unfold set_from. by rewrite (proj2 (find_key_none _ l)).
      * apply filter_ext_elem. intros x Hx. apply bool_decide_ext. rewrite map_app. cbn [map].
        rewrite not_elem_of_app, list_elem_of_singleton. split; [tauto|]. intros ?. split; [done|].
        intros Ex. apply Hb. rewrite <- Ex. by apply (list_elem_of_fmap_2 aggregate_key).
Qed.

(** Each flow once, with the queue of the one snapshot and the flight of the
    other. *)
Lemma merge_spec candidate in_flight :
  NoDup (map aggregate_key (sn_aggregates candidate)) -> NoDup (map aggregate_key (sn_aggregates in_flight)) ->
  let l := sn_aggregates (merge_scheduler_flow_snapshots candidate in_flight) in
  NoDup (map aggregate_key l) /\
  forall a, a ∈ l <->
    (exists c, c ∈ sn_aggregates candidate /\ a = set_from (sn_aggregates in_flight) (set_ag_in_flight 0 c)) \/
    a ∈ sn_aggregates in_flight /\ aggregate_key a ∉ map aggregate_key (sn_aggregates candidate).
Proof.
  intros Hc Hi. cbv zeta. cbn [merge_scheduler_flow_snapshots sn_aggregates].
  set (c := sn_aggregates candidate) in *. set (i := sn_aggregates in_flight) in *.
  rewrite (put_all_fresh (set_ag_in_flight 0) c []) by done. cbn [app].
  assert (Hk : map aggregate_key (map (set_ag_in_flight 0) c) = map aggregate_key c) by (rewrite map_map; by apply map_ext).
  rewrite merge_in_flight_all; [|by rewrite Hk|done]. rewrite Hk. split.
  - rewrite order_by_perm, map_app. apply NoDup_app. split_and!.
    + rewrite !map_map, (map_ext _ aggregate_key); [done|]. intros x. by rewrite set_from_key.
    + intros k Hx (b & -> & [_ Hb]%elem_select)%list_elem_of_fmap. apply bool_decide_eq_true in Hb. apply Hb.
      rewrite !map_map, (map_ext _ aggregate_key) in Hx; [done|]. intros x. by rewrite set_from_key.
    + clear -Hi. induction i as [|b i IH]; cbn; [constructor|]. cbn in Hi. apply NoDup_cons in Hi as [Hb Hi].
      case_bool_decide; [|by apply IH]. constructor; [|by apply IH].
      intros (x & Ex & [Hx _]%elem_select)%list_elem_of_fmap. apply Hb. rewrite Ex. by apply (list_elem_of_fmap_2 aggregate_key).
  - intros a. rewrite order_by_perm, elem_of_app, elem_select. rewrite bool_decide_eq_true, map_map, list_elem_of_fmap.
    split; (intros [(x & H1 & H2)|H]; [left|right]); naive_solver.
Qed.

(** ** The snapshot is exact *)

(** The rows of the groups that [P] picks are the rows with such a key. *)
Lemma groups_perm {A K} `{Countable K} (key : A -> K) (P : K -> bool) (l : list A) :
  concat (map snd (List.filter (fun g => P (fst g)) (map_to_list (groups key l)))) ≡ₚ List.filter (fun a => P (key a)) l.
Proof.
  set (f := fun m : gmap K (list A) => concat (map snd (List.filter (fun g => P (fst g)) (map_to_list m)))).
  assert (Hp : forall (x y : list (K * list A)), x ≡ₚ y ->
    concat (map snd (List.filter (fun g => P (fst g)) x)) ≡ₚ concat (map snd (List.filter (fun g => P (fst g)) y))).
  { intros x y. induction 1 as [|g x y _ IH|g g' x|]; cbn; [done| | |by etransitivity].
    - destruct (P (fst g)); cbn; by rewrite ?IH.
    - destruct (P (fst g)), (P (fst g')); cbn; try done. rewrite !app_assoc. by rewrite (Permutation_app_comm (snd g')). }
  change (f (groups key l) ≡ₚ List.filter (fun a => P (key a)) l).
  induction l as [|a l IH] using rev_ind; [unfold f, groups, tally; cbn [foldl]; by rewrite map_to_list_empty|].
  rewrite List.filter_app, <- IH. unfold groups. rewrite tally_snoc. fold (groups key l).
  set (m := groups key l). set (v := default [] (m !! key a)).
  assert (E : f m ≡ₚ (if P (key a) then v else []) ++ f (delete (key a) m)).
  { unfold v, f. destruct (m !! key a) as [x|] eqn:Ex.
    - rewrite (Hp _ _ (symmetry (map_to_list_delete m (key a) x Ex))). cbn. by destruct (P (key a)).
    - rewrite delete_id by done. by destruct (P (key a)). }
  rewrite E, <- insert_delete_eq. unfold f at 1.
  rewrite (Hp _ _ (map_to_list_insert (delete (key a) m) (key a) (v ++ [a]) (lookup_delete_eq _ _))). cbn.
  destruct (P (key a)); cbn; [|by rewrite app_nil_r]. unfold f. rewrite <- !app_assoc. apply Permutation_app_head.
  apply Permutation_app_comm.
Qed.

Lemma groups_members {A K} `{Countable K} (key : A -> K) (l : list A) k g :
  (k, g) ∈ map_to_list (groups key l) -> g <> [] /\ g = List.filter (fun a => bool_decide (key a = k)) l.
Proof.
  intros Hg%elem_of_map_to_list. unfold groups in Hg. rewrite tally_lookup in Hg. unfold tallied in Hg.
  assert (E : forall rows acc : list A, foldl (fun (v : option (list A)) a => Some (default [] v ++ [a])) (Some acc) rows = Some (acc ++ rows)).
  { induction rows as [|a rows IH]; intros acc; cbn; [by rewrite app_nil_r|]. by rewrite IH, <- app_assoc. }
  destruct (List.filter _ l) as [|a rows]; [done|]. cbn in Hg. rewrite E in Hg. by injection Hg as <-.
Qed.

(** What the rows of some groups add up to. *)
Lemma groups_counts now q s gs :
  let rows := map (queued_row now q s) gs in let l := concat (map snd gs) in
  zsum (map (fun r => Z.max 0 (rd_queued_jobs r)) rows) = Z.of_nat (length l) /\
  zsum (map (fun r => Z.max 0 (rd_queued_work_units r)) rows) = zsum (map (runnable_work_units now s) l) /\
  foldl min_oldest None (map rd_oldest_queue_entered_at rows) = oldest_entry l.
Proof.
  assert (Hn : forall l, 0 <= zsum (map (runnable_work_units now s) l)).
  { intros l. apply zsum_nonneg, Forall_map, Forall_forall. intros j _. unfold runnable_work_units. lia. }
  assert (Ho : forall x y, min_oldest x y = oop Z.min x y) by by intros [x|] [y|].
  assert (He : forall l, oldest_entry l = msum Z.min (fun j => Some (SizeAging.queue_time j)) l).
  { induction l as [|j l IH]; [done|]. cbn [oldest_entry msum]. by rewrite Ho, IH. }
  cbv zeta. split_and!.
  - induction gs as [|g gs IH]; [done|]. cbn [map concat]. rewrite zsum_cons, IH, length_app. cbn. lia.
  - induction gs as [|g gs IH]; [done|]. cbn [map concat]. rewrite zsum_cons, IH, map_app, zsum_app. cbn.
    rewrite Z.max_r; [done|apply Hn].
  - rewrite He. change (msum Z.min (fun j => Some (SizeAging.queue_time j)) (concat (map snd gs)))
      with (oop Z.min None (msum Z.min (fun j => Some (SizeAging.queue_time j)) (concat (map snd gs)))).
    generalize (@None Z). induction gs as [|g gs IH]; intros o; cbn [map concat foldl msum]; [by rewrite oop_none|].
    rewrite IH, (msum_app Z.min Z.min_assoc), (oop_assoc Z.min Z.min_assoc). f_equal.
    cbn [queued_row rd_oldest_queue_entered_at]. by rewrite Ho, He.
Qed.

Lemma flight_units gs :
  zsum (map (fun r => Z.max 0 (rd_in_flight_work_units r)) (map in_flight_row gs)) = work_units (concat (map snd gs)).
Proof.
  induction gs as [|g gs IH]; [done|]. cbn [map concat]. unfold work_units in *. rewrite zsum_cons, IH, map_app, zsum_app.
  cbn. pose proof (work_units_length (snd g)). unfold work_units in *. lia.
Qed.

Lemma oldest_entry_perm l l' : l ≡ₚ l' -> oldest_entry l = oldest_entry l'.
Proof.
  assert (He : forall l, oldest_entry l = msum Z.min (fun j => Some (SizeAging.queue_time j)) l).
  { clear. induction l as [|j l IH]; [done|]. cbn [oldest_entry msum]. rewrite IH. by destruct (msum _ _ l). }
  intros H. rewrite !He. apply msum_perm; [exact Z.min_assoc|exact Z.min_comm|done].
Qed.

Lemma min_oldest_perm l l' o : l ≡ₚ l' -> foldl min_oldest o l = foldl min_oldest o l'.
Proof.
  intros H. revert o. induction H as [|x l l' _ IH|x y l|l l' l'' _ IH _ IH']; intros o; cbn; [done|done| |by rewrite IH].
  f_equal. destruct o as [o|], x as [x|], y as [y|]; cbn; try done; f_equal; lia.
Qed.

Section exact.
Context (sha256_hex : string -> string) (now : Z) (q : snapshot_request) (s : db).
Hypothesis no_flight : sr_include_in_flight q = false.

(** The runnable jobs and the items in flight of a flow, under its normal key. *)
Definition flow_queue (k : flow_key) : list Job.batch_job :=
  select_where (fun j => flow_job now q s j && bool_decide (normal_key sha256_hex (job_flow_key j) = k)) (jobs s).
Definition flow_flight (k : flow_key) : list Item.batch_item :=
  select_where (fun i => flying_item now false q s i
                         && bool_decide (normal_key sha256_hex (flight_group_key (flight_group s i)) = k)) (items s).

#[local] Abbreviation snapshot := (load_scheduler_flow_refresh_snapshot sha256_hex now q s).
#[local] Abbreviation flights := (load_scheduler_flow_in_flight_snapshot sha256_hex now q s).
#[local] Abbreviation of_key k := (fun r => bool_decide (normal_key sha256_hex (rd_key r) = k)).
#[local] Abbreviation job_groups := (map_to_list (groups job_flow_key (select_where (flow_job now q s) (jobs s)))).
#[local] Abbreviation groups_at k :=
  (List.filter (fun g => bool_decide (normal_key sha256_hex (fst g) = k)) job_groups).

Lemma refresh_rows_perm : refresh_rows now q s ≡ₚ queued_rows now q s.
Proof using no_flight.
  unfold refresh_rows. rewrite order_by_perm, no_flight. unfold full_join. cbn [List.filter].
  rewrite app_nil_r. induction (queued_rows now q s) as [|x l IH]; cbn; by rewrite ?IH.
Qed.

Lemma filter_perm {A} (p : A -> bool) l l' : l ≡ₚ l' -> List.filter p l ≡ₚ List.filter p l'.
Proof.
  induction 1 as [|x l l' _ IH|x y l|]; cbn; [done| | |by etransitivity].
  - destruct (p x); by rewrite IH.
  - destruct (p x), (p y); done || constructor.
Qed.

Lemma filter_map {A B} (f : A -> B) (p : B -> bool) l : List.filter p (map f l) = map f (List.filter (fun x => p (f x)) l).
Proof. induction l as [|x l IH]; [done|]. cbn. rewrite IH. by destruct (p (f x)). Qed.

Lemma rows_at k : List.filter (of_key k) (refresh_rows now q s) ≡ₚ map (queued_row now q s) (groups_at k).
Proof using no_flight. rewrite (filter_perm _ _ _ refresh_rows_perm). unfold queued_rows. by rewrite filter_map. Qed.

Lemma queue_perm k : concat (map snd (groups_at k)) ≡ₚ flow_queue k.
Proof.
  etransitivity; [exact (groups_perm job_flow_key (fun x => bool_decide (normal_key sha256_hex x = k)) _)|].
  unfold flow_queue, select_where. generalize (jobs s). intros l. induction l as [|j l IH]; [done|]. cbn.
  destruct (flow_job now q s j); cbn; [|done]. by case_bool_decide; rewrite IH.
Qed.

Lemma groups_at_nil k : groups_at k = [] <-> flow_queue k = [].
Proof.
  split; intros E.
  - apply Permutation_nil. rewrite <- queue_perm. by rewrite E.
  - pose proof (queue_perm k) as Hp. rewrite E in Hp. apply Permutation_sym, Permutation_nil in Hp.
    destruct (groups_at k) as [|[k' g] gs] eqn:Eg; [done|]. cbn in Hp. apply app_eq_nil in Hp as [-> _].
    assert (Hg : (k', []) ∈ groups_at k) by (rewrite Eg; left). apply elem_select in Hg as [Hg _].
    by apply groups_members in Hg as [? _].
Qed.

Lemma snapshot_keys : NoDup (map aggregate_key (sn_aggregates snapshot)).
Proof.
  cbn [load_scheduler_flow_refresh_snapshot sn_aggregates]. rewrite order_by_perm.
  apply bases_spec. intros x r. apply add_row_base.
Qed.

Lemma flights_keys : NoDup (map aggregate_key (sn_aggregates flights)).
Proof. by apply bases_spec. Qed.

(** The rows behind an aggregate. *)
Lemma snapshot_elem a :
  a ∈ sn_aggregates snapshot <->
  grouped (aggregate_key a) = true /\ flow_queue (aggregate_key a) <> [] /\
  a = ra_base (foldl add_row (new_aggregate (aggregate_key a)) (List.filter (of_key (aggregate_key a)) (refresh_rows now q s))).
Proof using no_flight.
  cbn [load_scheduler_flow_refresh_snapshot sn_aggregates]. rewrite order_by_perm.
  rewrite (proj2 (bases_spec sha256_hex add_row _ (fun x r => proj1 (add_row_base x r)))).
  set (k := aggregate_key a). pose proof (rows_at k) as Hr. rewrite <- groups_at_nil.
  split.
  - intros (x & Ha & Hx). pose proof (aggregates_group _ _ _ _ _ Hx) as Hg. split; [done|].
    rewrite aggregates_get in Hx by done. destruct (List.filter (of_key k) _) as [|r l]; [done|]. injection Hx as <-.
    split; [|exact Ha]. intros E. rewrite E in Hr. by apply Permutation_sym, Permutation_nil_cons in Hr.
  - intros (Hg & Hne & Ha). eexists. split; [exact Ha|]. rewrite aggregates_get by done.
    destruct (List.filter (of_key k) _) as [|r l]; [|done]. apply Permutation_nil in Hr.
    destruct (groups_at k); [|done]. done.
Qed.

Lemma snapshot_counts a : a ∈ sn_aggregates snapshot ->
  let l := flow_queue (aggregate_key a) in
  ag_queued_jobs a = Z.of_nat (length l) /\ ag_queued_work_units a = zsum (map (runnable_work_units now s) l) /\
  ag_oldest_queue_entered_at a = oldest_entry l.
Proof using no_flight.
  intros (_ & _ & Ha)%snapshot_elem. cbv zeta. set (k := aggregate_key a) in *.
  pose proof (foldl_add_row (List.filter (of_key k) (refresh_rows now q s)) (new_aggregate k)) as (_ & Hj & Hu & Ho).
  rewrite <- Ha in Hj, Hu, Ho. pose proof (groups_counts now q s (groups_at k)) as (Ej & Eu & Eo).
  rewrite (Permutation_map (fun r => Z.max 0 (rd_queued_jobs r)) (rows_at k)), Ej, (queue_perm k) in Hj.
  rewrite (Permutation_map (fun r => Z.max 0 (rd_queued_work_units r)) (rows_at k)), Eu,
    (Permutation_map (runnable_work_units now s) (queue_perm k)) in Hu.
  rewrite (min_oldest_perm _ _ _ (Permutation_map rd_oldest_queue_entered_at (rows_at k))) in Ho.
  assert (E0 : ra_base (new_aggregate k) = let '(t, g, y, i) := k in mkAggregate t g y i 0 0 0 None 1 None)
    by by destruct k as [[[??]?]?].
  destruct k as [[[??]?]?]. rewrite E0 in Hj, Hu, Ho. cbn [ag_queued_jobs ag_queued_work_units ag_oldest_queue_entered_at] in Hj, Hu, Ho.
  rewrite Eo in Ho. rewrite (oldest_entry_perm _ _ (queue_perm _)) in Ho. by rewrite Hj, Hu.
Qed.

#[local] Abbreviation flight_rows := (order_by in_flight_order (in_flight_rows now false q s)).
#[local] Abbreviation flights_at k :=
  (List.filter (fun g => bool_decide (normal_key sha256_hex (flight_group_key (fst g)) = k))
     (map_to_list (groups (flight_group s) (select_where (flying_item now false q s) (items s))))).

Lemma flight_rows_at k : List.filter (of_key k) flight_rows ≡ₚ map in_flight_row (flights_at k).
Proof. rewrite (filter_perm _ _ _ (order_by_perm _ _)). unfold in_flight_rows. by rewrite filter_map. Qed.

Lemma flight_perm k : concat (map snd (flights_at k)) ≡ₚ flow_flight k.
Proof.
  etransitivity;
    [exact (groups_perm (flight_group s) (fun x => bool_decide (normal_key sha256_hex (flight_group_key x) = k)) _)|].
  unfold flow_flight, select_where. generalize (items s). intros l. induction l as [|i l IH]; [done|]. cbn.
  destruct (flying_item now false q s i); cbn; [|done]. by case_bool_decide; rewrite IH.
Qed.

Lemma flights_at_nil k : flights_at k = [] <-> flow_flight k = [].
Proof.
  split; intros E.
  - apply Permutation_nil. rewrite <- flight_perm. by rewrite E.
  - pose proof (flight_perm k) as Hp. rewrite E in Hp. apply Permutation_sym, Permutation_nil in Hp.
    destruct (flights_at k) as [|[k' g] gs] eqn:Eg; [done|]. cbn in Hp. apply app_eq_nil in Hp as [-> _].
    assert (Hg : (k', []) ∈ flights_at k) by (rewrite Eg; left). apply elem_select in Hg as [Hg _].
    by apply groups_members in Hg as [? _].
Qed.

Lemma flights_elem a :
  a ∈ sn_aggregates flights <->
  grouped (aggregate_key a) = true /\ flow_flight (aggregate_key a) <> [] /\
  a = set_ag_in_flight (work_units (flow_flight (aggregate_key a))) (ra_base (new_aggregate (aggregate_key a))).
Proof.
  cbn [load_scheduler_flow_in_flight_snapshot sn_aggregates].
  rewrite (proj2 (bases_spec sha256_hex add_in_flight_row _ (fun x r => eq_refl))).
  set (k := aggregate_key a). pose proof (flight_rows_at k) as Hr. rewrite <- flights_at_nil.
  assert (Ef : forall l, l ≡ₚ map in_flight_row (flights_at k) ->
    ra_base (foldl add_in_flight_row (new_aggregate k) l)
    = set_ag_in_flight (work_units (flow_flight k)) (ra_base (new_aggregate k))).
  { intros l Hl. rewrite foldl_add_in_flight.
    rewrite (Permutation_map (fun r => Z.max 0 (rd_in_flight_work_units r)) Hl), flight_units.
    unfold work_units. rewrite (Permutation_map est (flight_perm k)). by destruct k as [[[??]?]?]. }
  split.
  - intros (x & Ha & Hx). pose proof (aggregates_group _ _ _ _ _ Hx) as Hg. split; [done|].
    rewrite aggregates_get in Hx by done. specialize (Ef _ Hr). destruct (List.filter (of_key k) _) as [|r l]; [done|].
    apply (f_equal (option_map ra_base)) in Hx. cbn [option_map] in Hx. injection Hx as Hx.
    split; [|by rewrite Ha, <- Ef, <- Hx]. intros E. rewrite E in Hr. by apply Permutation_sym, Permutation_nil_cons in Hr.
  - intros (Hg & Hne & Ha). rewrite aggregates_get by done. specialize (Ef _ Hr).
    destruct (List.filter (of_key k) _) as [|r l] eqn:E; [|eexists; split; [|reflexivity]; by rewrite Ef].
    apply Permutation_nil in Hr. destruct (flights_at k); [|done]. done.
Qed.

(** The flight that the merge finds for a key. *)
Lemma flight_found k : grouped k = true ->
  match find_key k (sn_aggregates flights) with
  | Some b => ag_in_flight_work_units b = work_units (flow_flight k)
  | None => flow_flight k = []
  end.
Proof.
  intros Hg. destruct (find_key k _) as [b|] eqn:E.
  - apply find_key_some in E as [Hb Hk]; [|apply flights_keys]. apply flights_elem in Hb as (_ & _ & ->).
    rewrite <- Hk. done.
  - apply find_key_none in E. destruct (decide (flow_flight k = [])) as [|Hne]; [done|]. exfalso. apply E.
    assert (Ek : aggregate_key (set_ag_in_flight (work_units (flow_flight k)) (ra_base (new_aggregate k))) = k)
      by by destruct k as [[[??]?]?].
    rewrite <- Ek at 1. apply (list_elem_of_fmap_2 aggregate_key), flights_elem. by rewrite Ek.
Qed.

Lemma queue_found k : grouped k = true -> flow_queue k <> [] -> k ∈ map aggregate_key (sn_aggregates snapshot).
Proof using no_flight.
  intros Hg Hne. set (a := ra_base (foldl add_row (new_aggregate k) (List.filter (of_key k) (refresh_rows now q s)))).
  assert (Ek : aggregate_key a = k) by (unfold a; rewrite (proj1 (foldl_add_row _ _)); apply new_aggregate_key).
  rewrite <- Ek at 1. apply (list_elem_of_fmap_2 aggregate_key), snapshot_elem. by rewrite Ek.
Qed.

Lemma set_from_flights c : grouped (aggregate_key c) = true ->
  set_from (sn_aggregates flights) (set_ag_in_flight 0 c) = set_ag_in_flight (work_units (flow_flight (aggregate_key c))) c.
Proof.
  intros Hg. pose proof (flight_found _ Hg) as Hf. unfold set_from. rewrite aggregate_key_set.
  pose proof (work_units_length (flow_flight (aggregate_key c))).
  destruct (find_key _ _) as [b|]; [rewrite Hf, Z.max_r by lia; done|]. by rewrite Hf.
Qed.

(** The merged snapshot, from the tables. *)
Lemma claim_snapshot_elem a :
  a ∈ sn_aggregates (claim_snapshot sha256_hex now q s) <->
  grouped (aggregate_key a) = true /\
  ((exists c, c ∈ sn_aggregates snapshot /\ aggregate_key c = aggregate_key a /\
      a = set_ag_in_flight (work_units (flow_flight (aggregate_key a))) c) \/
   flow_queue (aggregate_key a) = [] /\ a ∈ sn_aggregates flights).
Proof using no_flight.
  unfold claim_snapshot. rewrite (proj2 (merge_spec snapshot flights snapshot_keys flights_keys)). split.
  - intros [(c & Hc & ->)|[Ha Hk]].
    + assert (Hg : grouped (aggregate_key c) = true) by by apply snapshot_elem in Hc as [? _].
      rewrite set_from_flights by done. rewrite aggregate_key_set. split; [done|]. left. by exists c.
    + assert (Hg : grouped (aggregate_key a) = true) by by apply flights_elem in Ha as [? _].
      split; [done|]. right. split; [|done].
      destruct (decide (flow_queue (aggregate_key a) = [])) as [|Hne]; [done|]. by apply queue_found in Hne.
  - intros (Hg & [(c & Hc & Ek & Ha)|[Hq Ha]]).
    + left. exists c. split; [done|]. rewrite set_from_flights by by rewrite Ek. by rewrite Ek.
    + right. split; [done|]. intros (c & Ek & Hc)%list_elem_of_fmap. apply snapshot_elem in Hc as (_ & Hne & _). congruence.
Qed.
End exact.

(** C28: the snapshot a claim refreshes the flows from (the candidate snapshot,
    read without in-flight rows, merged with the separate in-flight snapshot)
    says exactly what the tables hold.  There is one aggregate per flow, and a
    flow has one exactly when it has a runnable job or work in flight; its
    counts are those of the claimable jobs with a runnable item and of the
    leased items, its oldest entry the earliest of those jobs, however many
    spellings of the tenant the rows hold.  The other caller, the refresh an
    administrator asks for, reads both kinds of row in one query: it is not
    covered here, and counts in-flight work wrongly for a flow with several
    spellings. *)
Theorem flow_snapshot_exact sha256_hex now q s :
  sr_include_in_flight q = false ->
  let l := sn_aggregates (claim_snapshot sha256_hex now q s) in
  NoDup (map aggregate_key l) /\
  (forall k, k ∈ map aggregate_key l <->
     grouped k = true /\ (flow_queue sha256_hex now q s k <> [] \/ flow_flight sha256_hex now q s k <> [])) /\
  forall a, a ∈ l ->
    let queue := flow_queue sha256_hex now q s (aggregate_key a) in
    ag_queued_jobs a = Z.of_nat (length queue) /\
    ag_queued_work_units a = zsum (map (runnable_work_units now s) queue) /\
    ag_oldest_queue_entered_at a = oldest_entry queue /\
    ag_in_flight_work_units a = work_units (flow_flight sha256_hex now q s (aggregate_key a)).
Proof.
  intros Hq. cbv zeta. split_and!.
  - apply merge_spec; [apply snapshot_keys|apply flights_keys].
  - intros k. split.
    + intros (a & -> & Ha)%list_elem_of_fmap. apply claim_snapshot_elem in Ha as (Hg & [(c & Hc & Ek & _)|[_ Ha]]); [| |done].
      * split; [done|]. left. apply snapshot_elem in Hc as (_ & Hne & _); [|done]. congruence.
      * split; [done|]. right. by apply flights_elem in Ha as (_ & Hne & _).
    + intros (Hg & Hne). destruct (decide (flow_queue sha256_hex now q s k = [])) as [Eq|Eq].
      * destruct Hne as [?|Hne]; [done|].
        set (a := set_ag_in_flight (work_units (flow_flight sha256_hex now q s k)) (ra_base (new_aggregate k))).
        assert (Ek : aggregate_key a = k) by by destruct k as [[[??]?]?].
        rewrite <- Ek at 1. apply (list_elem_of_fmap_2 aggregate_key), claim_snapshot_elem; [done|]. rewrite Ek.
        split; [done|]. right. split; [done|]. apply flights_elem. by rewrite Ek.
      * apply (queue_found sha256_hex now q s Hq) in Eq as (c & Ek & Hc)%list_elem_of_fmap; [|done].
        set (a := set_ag_in_flight (work_units (flow_flight sha256_hex now q s k)) c).
        rewrite Ek. change (aggregate_key c) with (aggregate_key a).
        apply (list_elem_of_fmap_2 aggregate_key), claim_snapshot_elem; [done|].
        change (aggregate_key a) with (aggregate_key c). rewrite <- Ek. split; [done|]. left. by exists c.
  - intros a Ha. apply claim_snapshot_elem in Ha as (Hg & [(c & Hc & Ek & Ea)|[Eq Ha]]); [| |done].
    + apply (snapshot_counts sha256_hex now q s Hq) in Hc as (Hj & Hu & Ho). rewrite Ek in Hj, Hu, Ho.
      revert Ea Hj Hu Ho. generalize (aggregate_key a). intros k -> Hj Hu Ho. by split_and!.
    + apply flights_elem in Ha as (_ & _ & Ea). rewrite Eq. revert Ea. generalize (aggregate_key a).
      intros [[[??]?]?] ->. done.
Qed.

(** ** The head of a flow is what its claim takes *)

Lemma order_by_head {A} (c : A -> A -> comparison) l h : preorder c ->
  head (order_by (fun x y => le_of (c x y)) l) = Some h -> h ∈ l /\ forall x, x ∈ l -> c h x <> Gt.
Proof.
  intros Hc Hh. pose proof (preorder_sorted c l Hc) as Hs. pose proof (order_by_perm (fun x y => le_of (c x y)) l) as Hp.
  destruct (order_by _ l) as [|y l'] eqn:E; [done|]. injection Hh as ->. split; [rewrite <- Hp; left|].
  intros x Hx. rewrite <- Hp in Hx. apply elem_of_cons in Hx as [->|Hx].
  - intros E'. pose proof (cmp_opp c Hc h h) as H. by rewrite E' in H.
  - inversion Hs as [|? ? _ Hf]. rewrite Forall_forall in Hf. specialize (Hf x Hx). by destruct (c h x).
Qed.

Lemma order_by_head_exists {A} (le : A -> A -> bool) l : l <> [] -> exists h, head (order_by le l) = Some h.
Proof.
  intros Hl. pose proof (order_by_perm le l) as Hp. destruct (order_by le l) as [|h t]; [|by exists h].
  by apply Permutation_nil in Hp.
Qed.

Lemma preorder_fifo : preorder fifo_order.
Proof. repeat apply preorder_then; apply preorder_Z || apply preorder_string. Qed.

Lemma fifo_trans x y z : fifo_order x y <> Gt -> fifo_order y z <> Gt -> fifo_order x z <> Gt.
Proof.
  destruct preorder_fifo as [_ Hl He]. destruct (fifo_order x y) eqn:E; [rewrite (He x y z E); done| |done].
  intros _. destruct (fifo_order y z) eqn:E'; [|by rewrite (Hl x y z)|done]. intros _.
  destruct preorder_fifo as [Ho _ _]. assert (Ez : fifo_order z y = Eq) by (by rewrite (Ho y z), E').
  by rewrite (Ho z x), (He z y x Ez), <- (Ho y x), E.
Qed.

Lemma fifo_eq x y : fifo_order x y = Eq -> Job.batch_id x = Job.batch_id y.
Proof.
  unfold fifo_order, then_by. do 2 (case_match; try done). apply String.compare_eq_iff.
Qed.

Section fifo.
Context (sha256_hex : string -> string) (now : Z) (q : snapshot_request) (s : db).
Hypothesis no_flight : sr_include_in_flight q = false.
Hypothesis fifo : sr_size_aware_scheduling_enabled q = false.

Lemma candidate_of_spec j c : candidate_of now q s j = Some c ->
  ca_job c = j /\ ca_rank c = SizeAging.mkRankResult 0 0 "tenant_fair_share" false /\
  exists i rest, runnable_items now (Job.batch_id j) s = i :: rest /\ ca_next_item_work_units c = est i.
Proof using fifo.
  unfold candidate_of, candidate_rank. rewrite fifo. destruct (runnable_items _ _ _) as [|i rest]; [done|].
  intros [= <-]. split_and!; [done|done|by exists i, rest].
Qed.

(** The head of a group of jobs. *)
Lemma next_candidate_spec l :
  l <> [] -> Forall (fun j => runnable_items now (Job.batch_id j) s <> []) l ->
  exists c, next_candidate now q s l = Some c /\ ca_job c ∈ l /\ candidate_of now q s (ca_job c) = Some c /\
    forall x, x ∈ l -> fifo_order (ca_job c) x <> Gt.
Proof using fifo.
  intros Hl Hr. set (le := fun x y => le_of (fifo_order x y)).
  destruct (order_by_head_exists le l Hl) as [j Hj]. pose proof (order_by_head fifo_order l j preorder_fifo Hj) as [Hin Hmin].
  assert (Hseed : j ∈ limit (bounded_max_candidate_jobs q) (order_by le l)).
  { unfold le, limit, bounded_max_candidate_jobs in *. destruct (order_by _ l) as [|y t]; [done|]. injection Hj as ->.
    destruct (Z.to_nat _) eqn:E; [lia|]. left. }
  assert (Hsub : forall x, x ∈ limit (bounded_max_candidate_jobs q) (order_by le l) -> x ∈ l).
  { intros x Hx. rewrite <- (order_by_perm le l). eapply sublist_elem; [apply sublist_take|exact Hx]. }
  rewrite Forall_forall in Hr.
  assert (Hc : exists c0, candidate_of now q s j = Some c0).
  { unfold candidate_of. specialize (Hr j Hin). destruct (runnable_items _ _ _); [done|]. by eexists. }
  destruct Hc as [c0 Hc0].
  assert (H0 : c0 ∈ flow_candidates now q s l) by (apply list_elem_of_omap; by exists j).
  destruct (order_by_head_exists (fun x y => le_of (candidate_order x y)) (flow_candidates now q s l)) as [c Hc];
    [intros E; rewrite E in H0; by apply elem_of_nil in H0|].
  exists c. split; [exact Hc|].
  assert (Hf : forall x y, x ∈ flow_candidates now q s l -> y ∈ flow_candidates now q s l ->
            candidate_order x y = fifo_order (ca_job x) (ca_job y)).
  { intros x y (jx & _ & Ex)%list_elem_of_omap (jy & _ & Ey)%list_elem_of_omap.
    apply candidate_of_spec in Ex as (_ & Ex & _), Ey as (_ & Ey & _). unfold candidate_order. by rewrite Ex, Ey. }
  assert (Hp : preorder candidate_order).
  { unfold candidate_order. apply (preorder_then (fun x y => rank_order (ca_rank x) (ca_rank y))
      (fun x y => fifo_order (ca_job x) (ca_job y))).
    - apply (preorder_then (fun x y => match SizeAging.rk_large_job_progress_floor (ca_rank x), SizeAging.rk_large_job_progress_floor (ca_rank y) with
        | true, false => Lt | false, true => Gt | _, _ => Eq end)
        (fun x y => Qcompare (SizeAging.rk_rank (ca_rank x)) (SizeAging.rk_rank (ca_rank y)))).
      + split; intros *; repeat destruct (SizeAging.rk_large_job_progress_floor _); done.
      + split; intros *; [symmetry; apply Qcompare_antisym| |].
        * rewrite <- !Qlt_alt. apply Qlt_trans.
        * rewrite <- Qeq_alt. intros E. by rewrite E.
    - destruct preorder_fifo as [Ho Hl' He]. split; intros *; eauto. }
  destruct (order_by_head _ _ _ Hp Hc) as [Hci Hcm]. pose proof Hci as (jc & Hjc & Ec)%list_elem_of_omap.
  pose proof (candidate_of_spec _ _ Ec) as (Ejc & _ & _). rewrite Ejc. split_and!; [by apply Hsub|done|].
  intros x Hx. apply (fifo_trans jc j); [|by apply Hmin].
  specialize (Hcm c0 H0). rewrite Hf in Hcm by done. pose proof (candidate_of_spec _ _ Hc0) as (Ej0 & _ & _).
  by rewrite Ejc, Ej0 in Hcm.
Qed.

Definition clean_id (j : Job.batch_job) : Prop := Dimensions.normalize_optional (Some (Job.batch_id j)) = Some (Job.batch_id j).

Lemma sort_key_fifo c c' jid jid' :
  candidate_of now q s (ca_job c) = Some c -> candidate_of now q s (ca_job c') = Some c' ->
  jid = Job.batch_id (ca_job c) -> jid' = Job.batch_id (ca_job c') ->
  sort_key_order (row_sort_key c jid) (row_sort_key c' jid') = fifo_order (ca_job c) (ca_job c').
Proof using fifo.
  intros (_ & Hr & _)%candidate_of_spec (_ & Hr' & _)%candidate_of_spec -> ->.
  unfold sort_key_order, row_sort_key. cbn. by rewrite Hr, Hr'.
Qed.

(** Of the rows seen so far the aggregate shows the first head. *)
Definition shows_head (x : refresh_aggregate) (rows : list flow_read) : Prop :=
  match ra_next_candidate_sort_key x with
  | None => rows = []
  | Some k => exists r c, r ∈ rows /\ rd_next r = Some c /\ k = row_sort_key c (Job.batch_id (ca_job c)) /\
      ag_next_batch_id (ra_base x) = Some (Job.batch_id (ca_job c)) /\
      ag_next_item_work_units (ra_base x) = at_least_one (ca_next_item_work_units c) /\
      forall r' c', r' ∈ rows -> rd_next r' = Some c' -> fifo_order (ca_job c) (ca_job c') <> Gt
  end.

Definition good_read (r : flow_read) : Prop :=
  exists c, rd_next r = Some c /\ candidate_of now q s (ca_job c) = Some c /\ clean_id (ca_job c).

Lemma shows_head_fold rows k : Forall good_read rows -> shows_head (foldl add_row (new_aggregate k) rows) rows.
Proof using fifo.
  induction rows as [|r rows IH] using rev_ind; [by destruct k as [[[??]?]?]|].
  intros [Hf Hr]%Forall_app. specialize (IH Hf). apply Forall_singleton in Hr as (c & Ec & Hc & Hid).
  rewrite foldl_app. cbn [foldl]. set (x := foldl add_row (new_aggregate k) rows) in *.
  unfold add_row, row_batch_id, row_next_item. rewrite Ec. unfold clean_id in Hid. rewrite Hid.
  assert (Hself : fifo_order (ca_job c) (ca_job c) <> Gt).
  { intros E. pose proof (cmp_opp _ preorder_fifo (ca_job c) (ca_job c)) as H. by rewrite E in H. }
  unfold is_better. unfold shows_head in IH. destruct (ra_next_candidate_sort_key x) as [best|] eqn:Eb.
  - destruct IH as (r1 & c1 & Hr1 & Ec1 & -> & Hb & Hi & Hm).
    assert (Hg1 : candidate_of now q s (ca_job c1) = Some c1).
    { rewrite Forall_forall in Hf. destruct (Hf r1 Hr1) as (c' & E' & H' & _). congruence. }
    rewrite (sort_key_fifo c c1) by done. destruct (fifo_order (ca_job c) (ca_job c1)) eqn:E;
      unfold shows_head; cbn [ra_next_candidate_sort_key]; rewrite ?Eb.
    1,3: exists r1, c1; split_and!; try done; [by apply elem_of_app; left|]; intros r' c' [Hr'|Hr']%elem_of_app Ec';
      [by eapply Hm|apply list_elem_of_singleton in Hr' as ->; assert (c' = c) as -> by congruence;
       rewrite (cmp_opp _ preorder_fifo (ca_job c)); by rewrite E].
    exists r, c. split_and!; try done; [apply elem_of_app; right; left|].
    intros r' c' [Hr'|Hr']%elem_of_app Ec'.
    + apply (fifo_trans _ (ca_job c1)); [by rewrite E|by eapply Hm].
    + apply list_elem_of_singleton in Hr' as ->. by assert (c' = c) as -> by congruence.
  - subst rows. unfold shows_head. cbn [ra_next_candidate_sort_key]. exists r, c. split_and!; try done; [left|].
    intros r' c' ->%list_elem_of_singleton Ec'. by assert (c' = c) as -> by congruence.
Qed.

(** The aggregate of a flow names its first job and that job's first item. *)
Lemma snapshot_head a : Forall clean_id (jobs s) ->
  a ∈ sn_aggregates (load_scheduler_flow_refresh_snapshot sha256_hex now q s) ->
  exists j i rest, j ∈ flow_queue sha256_hex now q s (aggregate_key a) /\
    (forall x, x ∈ flow_queue sha256_hex now q s (aggregate_key a) -> fifo_order j x <> Gt) /\
    runnable_items now (Job.batch_id j) s = i :: rest /\
    ag_next_batch_id a = Some (Job.batch_id j) /\ ag_next_item_work_units a = est i.
Proof using fifo no_flight.
  intros Hclean (Hg & Hne & Ha)%snapshot_elem; [|done]. set (k := aggregate_key a) in *.
  pose proof (rows_at sha256_hex now q s no_flight k) as Hrows.
  set (rows := List.filter _ (refresh_rows now q s)) in *.
  set (gs := List.filter _ (map_to_list (groups job_flow_key _))) in Hrows.
  assert (Hgs : forall g, g ∈ gs -> exists c, next_candidate now q s (snd g) = Some c /\ ca_job c ∈ snd g /\
    candidate_of now q s (ca_job c) = Some c /\ clean_id (ca_job c) /\ forall x, x ∈ snd g -> fifo_order (ca_job c) x <> Gt).
  { intros [k' g] [Hg' _]%elem_select. apply groups_members in Hg' as [Hn Hm].
    assert (Hj : forall x, x ∈ g -> x ∈ jobs s /\ runnable_items now (Job.batch_id x) s <> []).
    { intros x Hx. rewrite Hm in Hx. apply elem_select in Hx as [[Hx Hfj]%elem_select _]. split; [done|].
      unfold flow_job in Hfj. apply andb_true_iff in Hfj as [_ Hfj]. by destruct (runnable_items _ _ _). }
    destruct (next_candidate_spec g Hn) as (c & E & Hin & Hc & Hmin).
    { apply Forall_forall. intros x Hx. by apply Hj. }
    exists c. split_and!; try done. rewrite Forall_forall in Hclean. by apply Hclean, Hj. }
  assert (Hgood : Forall good_read rows).
  { rewrite Hrows. apply Forall_map, Forall_forall. intros g (c & E & _ & Hc & Hid & _)%Hgs. by exists c. }
  pose proof (shows_head_fold rows k Hgood) as Hs. unfold shows_head in Hs. rewrite <- Ha in Hs.
  pose proof (queue_perm sha256_hex now q s k) as Hq. fold gs in Hq.
  destruct (ra_next_candidate_sort_key _) as [best|].
  2: { exfalso. apply Hne. rewrite Hs in Hrows. apply Permutation_nil, map_eq_nil in Hrows. apply groups_at_nil. exact Hrows. }
  destruct Hs as (r & c & Hr & Ec & _ & Hb & Hi & Hm).
  rewrite Hrows in Hr. apply list_elem_of_fmap in Hr as (g & -> & Hgin). cbn [queued_row rd_next] in Ec.
  destruct (Hgs g Hgin) as (c1 & E1 & Hin & Hc & _ & Hmin). assert (c1 = c) as -> by congruence.
  destruct (candidate_of_spec _ _ Hc) as (_ & _ & i & rest & Hrun & Hest).
  exists (ca_job c), i, rest. split_and!; try done.
  - rewrite <- Hq, list_elem_of_In. apply in_concat. exists (snd g). split; apply list_elem_of_In; [|done].
    by apply (list_elem_of_fmap_2 snd).
  - intros x Hx. rewrite <- Hq, list_elem_of_In in Hx. apply in_concat in Hx as (g2 & Hg2 & Hx).
    apply list_elem_of_In, list_elem_of_fmap in Hg2 as (g' & -> & Hg'). apply list_elem_of_In in Hx.
    destruct (Hgs g' Hg') as (c2 & E2 & _ & _ & _ & Hmin2). apply (fifo_trans _ (ca_job c2)); [|by apply Hmin2].
    apply (Hm (queued_row now q s g')); [|done]. rewrite Hrows. by apply (list_elem_of_fmap_2 (queued_row now q s)).
  - rewrite Hi, Hest, at_least_one_id; [done|apply est_pos].
Qed.
End fifo.

(** A text that reading and writing leave alone. *)
Definition plain (t : string) : Prop := Str.strip t = t /\ Str.is_empty t = false.

(** A job whose columns are in their normal spelling; [create_job] and
    [set_job_queued] store them so. *)
Definition plain_job (sha256_hex : string -> string) (j : Job.batch_job) : Prop :=
  plain (Job.batch_id j) /\ plain (Job.service_tier j) /\
  exists g t i, Job.scheduling_model_group j = Some g /\ Job.tenant_scope_type j = Some t /\
    Job.tenant_scope_id j = Some i /\ plain g /\ plain t /\ plain i /\
    (t = "api_key" -> Dimensions.stable_tenant_scope_id sha256_hex t i = i).

Lemma plain_text d t : plain t -> text_or d (Str.strip t) = t /\ text_or d t = t.
Proof. intros [Hs He]. unfold text_or. by rewrite Hs, He. Qed.

Lemma plain_clean sha256_hex j : plain_job sha256_hex j -> clean_id j.
Proof.
  intros ([Hs He] & _). unfold clean_id, Dimensions.normalize_optional. cbn [default from_option]. unfold id. by rewrite Hs, He.
Qed.

(** Such a job is aggregated under its own columns. *)
Lemma plain_key sha256_hex j : plain_job sha256_hex j ->
  normal_key sha256_hex (job_flow_key j)
  = (Job.service_tier j, default "" (Job.scheduling_model_group j), default "" (Job.tenant_scope_type j),
     default "" (Job.tenant_scope_id j)).
Proof.
  intros (_ & Ht & g & y & i & Eg & Ey & Ei & Hg & Hy & Hi & Hk).
  unfold normal_key, job_flow_key, tier_column, scope_column. rewrite Eg, Ey, Ei. cbn [default from_option]. unfold id.
  rewrite !(proj2 (plain_text _ _ Ht)), !(proj1 (plain_text _ _ Ht)).
  rewrite !(proj2 (plain_text _ _ Hy)), !(proj2 (plain_text _ _ Hi)). unfold normalize_scheduler_tenant_scope.
  rewrite !(proj1 Hg), !(proj1 Hy), !(proj1 Hi), !(proj2 (plain_text _ _ Hy)), !(proj2 (plain_text _ _ Hi)).
  destruct (String.eqb_spec y "api_key") as [->|]; [by rewrite Hk|done].
Qed.

Definition record_flow_key (f : BatchSchedulerFlowRecord) : flow_key :=
  (Flow.service_tier (row f), Flow.model_group (row f), Flow.tenant_scope_type (row f), Flow.tenant_scope_id (row f)).

(** What the request for a flow matches. *)
Lemma flow_request_filters r f items units oversized j :
  plain (Flow.service_tier (row f)) -> plain (Flow.model_group (row f)) -> plain (Flow.tenant_scope_type (row f)) ->
  plain (Flow.tenant_scope_id (row f)) ->
  job_filters Job.service_tier (flow_request r f items units oversized) j
  = bool_decide (Job.service_tier j = Flow.service_tier (row f)
                 /\ Job.scheduling_model_group j = Some (Flow.model_group (row f))
                 /\ Job.tenant_scope_type j = Some (Flow.tenant_scope_type (row f))
                 /\ Job.tenant_scope_id j = Some (Flow.tenant_scope_id (row f))).
Proof.
  intros [Ht Et] [Hg Eg] [Hy Ey] [Hi Ei]. apply eq_true_iff_eq. rewrite bool_decide_eq_true.
  unfold job_filters, normalized_model_groups, stripped, flow_request.
  cbn [allowed_model_groups wr_service_tier wr_tenant_scope_type wr_tenant_scope_id legacy_only map default from_option].
  unfold id. rewrite Ht, Hg, Hy, Hi, Et, Ey, Ei. cbn [List.filter]. rewrite Eg. cbn [negb orb].
  unfold sql_eq, if_set. rewrite !andb_true_iff.
  destruct (Job.scheduling_model_group j) as [g|], (Job.tenant_scope_type j) as [y|], (Job.tenant_scope_id j) as [i|];
    try (split; naive_solver); rewrite ?bool_decide_eq_true, ?list_elem_of_singleton, ?String.eqb_eq; naive_solver.
Qed.

(** The first of a sorted selection, when ties are broken. *)
Lemma order_by_first {A} (c : A -> A -> comparison) l h : preorder c ->
  h ∈ l -> (forall x, x ∈ l -> c h x <> Gt) -> (forall x, x ∈ l -> c h x = Eq -> x = h) ->
  head (order_by (fun x y => le_of (c x y)) l) = Some h.
Proof.
  intros Hc Hin Hmin Heq. destruct (order_by_head_exists (fun x y => le_of (c x y)) l) as [x Hx];
    [intros ->; by apply elem_of_nil in Hin|].
  rewrite Hx. f_equal. apply (order_by_head c l x Hc) in Hx as [Hxl Hxm]. apply Heq; [done|].
  specialize (Hxm h Hin). specialize (Hmin x Hxl). rewrite (cmp_opp c Hc h x) in Hxm. by destruct (c h x).
Qed.


Lemma flow_request_fifo r f items units oversized now : size_aware_scheduling_enabled r = false ->
  size_aware (flow_request r f items units oversized) = false /\
  job_order now (flow_request r f items units oversized) = fun x y => le_of (fifo_order x y).
Proof.
  intros Hr. assert (H : size_aware (flow_request r f items units oversized) = false).
  { unfold size_aware, flow_request. cbn [size_aware_scheduling_enabled claim_order]. by rewrite Hr. }
  split; [done|]. unfold job_order. rewrite H. unfold flow_request. cbn [claim_order]. by rewrite Hr.
Qed.

(** The job of a selection whose head is known takes its first item. *)
Lemma claim_of_head now w s j i rest uuid4 :
  selected_job now nothing_held w s = Some j -> runnable_items now (Job.batch_id j) s = i :: rest ->
  capacity_open (capacity_state now w s) = true -> size_aware w = false ->
  allow_oversized_first_item w = true \/ est i <= work_unit_limit w (capacity_state now w s) ->
  exists c rest', snd (claim_next_work_with_client now uuid4 nothing_held nothing_held w s) = Ret (Some c) /\
    wc_batch_id c = Job.batch_id j /\ wc_item_ids c = map Item.item_id (i :: rest').
Proof.
  intros Hj Hi Hc Hs Ho. unfold claim_next_work_with_client. rewrite Hj.
  assert (E : exists rest', claimed_items now nothing_held w s j = i :: rest').
  { unfold claimed_items, locked_items. rewrite filter_all by done. rewrite Hi. unfold limit.
    assert (Hl : 1 <= claim_items_limit w (capacity_state now w s) j).
    { unfold claim_items_limit. rewrite Hs. unfold items_limit, capacity_open, bounded_max_items in *.
      destruct (capacity_state now w s) as [[slots u]|]; [|lia]. apply andb_true_iff in Hc as [Hc _]. apply Z.ltb_lt in Hc. lia. }
    destruct (Z.to_nat _) as [|n] eqn:En; [lia|]. cbn [take eligible_items].
    replace ((0 + est i <=? work_unit_limit w (capacity_state now w s)) || allow_oversized_first_item w) with true; [by eexists|].
    symmetry. apply orb_true_iff. destruct Ho as [Ho|Ho]; [by right|]. left. apply Z.leb_le. lia. }
  destruct E as [rest' E]. rewrite E. eexists _, rest'. split; [reflexivity|]. done.
Qed.

(** The claim for a flow selects the first job of its queue. *)
Lemma flow_selects_head sha256_hex now q s f r items units oversized j i rest :
  let w := flow_request r f items units oversized in
  size_aware_scheduling_enabled r = false -> NoDup (map Job.batch_id (jobs s)) -> Forall (plain_job sha256_hex) (jobs s) ->
  j ∈ flow_queue sha256_hex now q s (record_flow_key f) ->
  (forall x, x ∈ flow_queue sha256_hex now q s (record_flow_key f) -> fifo_order j x <> Gt) ->
  runnable_items now (Job.batch_id j) s = i :: rest -> capacity_open (capacity_state now w s) = true ->
  allow_oversized_first_item w = true \/ est i <= work_unit_limit w (capacity_state now w s) ->
  selected_job now nothing_held w s = Some j.
Proof.
  intros w Hr Hn Hplain Hj Hmin Hi Hc Ho. destruct (flow_request_fifo r f items units oversized now Hr) as [_ Hord].
  rewrite Forall_forall in Hplain. apply elem_select in Hj as [Hjin Hj]. pose proof (Hplain j Hjin) as Hpj.
  apply andb_true_iff in Hj as [Hjf Hk]. apply bool_decide_eq_true in Hk. rewrite (plain_key _ _ Hpj) in Hk.
  destruct Hpj as (Hid & Ht & g & y & t & Eg & Ey & Et & Hg & Hy & Hti & _). rewrite Eg, Ey, Et in Hk.
  unfold record_flow_key in Hk. cbn [default from_option] in Hk. unfold id in Hk. injection Hk as Kt Kg Ky Ki.
  assert (Hfil : forall x, job_filters Job.service_tier w x
    = bool_decide (Job.service_tier x = Job.service_tier j /\ Job.scheduling_model_group x = Some g
                   /\ Job.tenant_scope_type x = Some y /\ Job.tenant_scope_id x = Some t)).
  { intros x. unfold w. rewrite flow_request_filters; rewrite <- ?Kt, <- ?Kg, <- ?Ky, <- ?Ki; done. }
  assert (Hflow : forall x, x ∈ jobs s -> job_claimable now x = true -> job_filters Job.service_tier w x = true ->
    has_head_item now w (capacity_state now w s) s x = true -> x ∈ flow_queue sha256_hex now q s (record_flow_key f)).
  { intros x Hx Hxc Hxf Hxh. rewrite Hfil in Hxf. apply bool_decide_eq_true in Hxf as (X1 & X2 & X3 & X4).
    apply elem_select. split; [done|]. apply andb_true_iff. split; [|apply bool_decide_eq_true].
    - unfold flow_job, base_job, tier_filter, tier_column in *. rewrite X1, X2, X3, X4. rewrite Eg, Ey, Et in Hjf.
      apply andb_true_iff in Hjf as [Hjf _]. rewrite !andb_true_iff in Hjf. rewrite !andb_true_iff.
      split; [tauto|]. unfold has_head_item in Hxh.
      destruct (runnable_items now (Job.batch_id x) s); [discriminate Hxh|reflexivity].
    - rewrite (plain_key _ _ (Hplain x Hx)), X1, X2, X3, X4. unfold record_flow_key. cbn. unfold id. congruence. }
  unfold selected_job. fold w in Hord. rewrite Hord. apply order_by_first; [exact preorder_fifo| | |].
  - apply elem_select. split; [done|]. rewrite Hfil, bool_decide_true by done. rewrite Hc.
    unfold flow_job, base_job in Hjf. rewrite !andb_true_iff in Hjf. unfold has_head_item. rewrite Hi. unfold nothing_held.
    rewrite !andb_true_iff. split_and!; try tauto. destruct Ho as [->|Ho]; [done|].
    apply orb_true_iff. right. by apply Z.leb_le.
  - intros x [Hx Hp]%elem_select. rewrite !andb_true_iff in Hp. apply Hmin, Hflow; tauto.
  - intros x [Hx _]%elem_select E%fifo_eq. symmetry. by apply (NoDup_map_inj Job.batch_id (jobs s)).
Qed.

(** The head that a flow's aggregate names is what a claim for the flow
    takes.  In queue order, with columns in their normal spelling, an aggregate
    with queued jobs names the job that the claim for this flow selects and the
    work units of the first item that it leases, as soon as capacity is left,
    that item fits the limit or oversized items are allowed, and no other
    transaction holds the rows. *)
Theorem snapshot_head_is_claimed sha256_hex now q s a uuid4 r f items units oversized :
  let w := flow_request r f items units oversized in
  sr_include_in_flight q = false -> sr_size_aware_scheduling_enabled q = false ->
  size_aware_scheduling_enabled r = false ->
  NoDup (map Job.batch_id (jobs s)) -> Forall (plain_job sha256_hex) (jobs s) ->
  a ∈ sn_aggregates (claim_snapshot sha256_hex now q s) -> 0 < ag_queued_jobs a -> record_flow_key f = aggregate_key a ->
  capacity_open (capacity_state now w s) = true ->
  oversized = true \/ ag_next_item_work_units a <= work_unit_limit w (capacity_state now w s) ->
  exists c i rest, snd (claim_next_work_with_client now uuid4 nothing_held nothing_held w s) = Ret (Some c) /\
    ag_next_batch_id a = Some (wc_batch_id c) /\ wc_item_ids c = map Item.item_id (i :: rest) /\
    ag_next_item_work_units a = est i.
Proof.
  intros w Hq Hqs Hr Hn Hplain Ha Hpos Hf Hc Ho.
  apply claim_snapshot_elem in Ha as (Hg & [(b & Hb & Ek & Ea)|[_ Ha]]); [| |done].
  2: { exfalso. apply flights_elem in Ha as (_ & _ & Ea). revert Ea. generalize (aggregate_key a).
       intros [[[??]?]?] ->. cbn in Hpos. lia. }
  destruct (snapshot_head sha256_hex now q s Hq Hqs b) as (j & i & rest & Hj & Hmin & Hi & Eb & Ei); [|done|].
  { eapply Forall_impl; [exact Hplain|]. intros x. apply plain_clean. }
  rewrite Ek, <- Hf in Hj, Hmin.
  assert (E : ag_next_batch_id a = Some (Job.batch_id j) /\ ag_next_item_work_units a = est i).
  { revert Ea. generalize (aggregate_key a). intros k ->. done. }
  destruct E as [Eb' Ei']. rewrite Ei' in Ho.
  assert (Hsel : selected_job now nothing_held w s = Some j) by (eapply flow_selects_head; eauto).
  destruct (claim_of_head now w s j i rest uuid4 Hsel Hi Hc) as (c & rest' & E1 & E2 & E3); [|done|].
  { by destruct (flow_request_fifo r f items units oversized now Hr). }
  exists c, i, rest'. rewrite E2. done.
Qed.

(** ** Examples *)

Definition sample_snapshot_request : snapshot_request :=
  mkSnapshotRequest (Some "standard") (Some "m") 50 false (SizeAging.mkAging 30 1000 30 100) false.

(** The first job of [sample_slices] and another one of its tenant, entered
    earlier but with nothing to run. *)
Definition sample_queue : db := on_jobs (fun l => sample_job "idle" (-5) 3 "xs" :: l) sample_slices.
Definition sample_head : list flow_aggregate :=
  sn_aggregates (claim_snapshot (fun s => s) (100 * usec) sample_snapshot_request sample_queue).

Example sample_head_shows :
  map (fun a => (aggregate_key a, ag_queued_jobs a, ag_next_batch_id a, ag_next_item_work_units a)) sample_head
  = [("standard", "m", "team", "t1", 1, Some "batch", 1)].
Proof. vm_compute. reflexivity. Qed.

Lemma flow_snapshot_exact_witness :
  length sample_head = 1%nat /\
  forall a, a ∈ sample_head ->
    ag_queued_jobs a
    = Z.of_nat (length (flow_queue (fun s => s) (100 * usec) sample_snapshot_request sample_queue (aggregate_key a))).
Proof.
  split; [vm_compute; reflexivity|]. intros a Ha.
  destruct (flow_snapshot_exact (fun s => s) (100 * usec) sample_snapshot_request sample_queue eq_refl) as (_ & _ & H).
  by destruct (H a Ha) as [E _].
Defined.

Lemma snapshot_head_is_claimed_witness :
  exists c, snd (claim_next_work_with_client (100 * usec) "claim" nothing_held nothing_held
                   (flow_request (sample_request (Some 4)) (mkFlowRecord (sample_flow "t1" 0) None 1 None) 5 3 false)
                   sample_queue) = Ret (Some c) /\ wc_batch_id c = "batch".
Proof.
  destruct sample_head as [|a l] eqn:E; [vm_compute in E; discriminate E|].
  assert (Hf : aggregate_key a = ("standard", "m", "team", "t1") /\ ag_queued_jobs a = 1 /\
    ag_next_batch_id a = Some "batch" /\ ag_next_item_work_units a = 1).
  { vm_compute in E. injection E as <- _. split_and!; reflexivity. }
  destruct Hf as (Hk & Hj & Hb & Hi).
  destruct (snapshot_head_is_claimed (fun s => s) (100 * usec) sample_snapshot_request sample_queue a "claim"
    (sample_request (Some 4)) (mkFlowRecord (sample_flow "t1" 0) None 1 None) 5 3 false) as (c & i & rest & Hc & Hn & _);
    [reflexivity|reflexivity|reflexivity| | | |rewrite Hj; reflexivity|rewrite Hk; reflexivity|vm_compute; reflexivity| |].
  - apply (bool_decide_unpack _). vm_compute. exact I.
  - repeat constructor; (split; reflexivity) || (exists "m", "team", "t1"; split_and!; try reflexivity; try (split; reflexivity); discriminate).
  - fold sample_head. rewrite E. left.
  - right. rewrite Hi. vm_compute. discriminate.
  - exists c. split; [exact Hc|]. rewrite Hb in Hn. by injection Hn as <-.
Defined.
