(* ===== verification/Worker.v ===== *)
(** * The batch worker: its settings, its pauses and why it found nothing

    src/batch/worker.py: the scheduling mode, the limits of a claim, the pauses
    between idle turns and after a busy flow lock; and the two diagnoses of
    job_repository.py that name the reason of an empty claim. *)

From Stdlib Require Import Qround Qminmax.
From S2P Require Import Prelude PyVal Errors BatchModels BatchDb Scheduling BatchItems WorkClaim FairShare ModelCapacity FlowSnapshot.
Import BatchItemStatus.

(** ** Settings *)

(** The fields of [BatchWorkerConfig] that a turn reads. *)
Record worker_config : Type := mkConfig {
  wf_worker_id : string;
  wf_poll_interval_seconds : Q;
  wf_job_lease_seconds : Z;
  wf_item_lease_seconds : Z;
  wf_worker_concurrency : Z;
  wf_item_buffer_multiplier : Z;
  wf_item_claim_limit : Z;
  wf_scheduler_mode : option string;
  wf_scheduler_shadow_mode : option string;
  wf_scheduler_claim_mode : string;
  wf_scheduler_shadow_max_pending_decisions : Z;
  wf_work_claim_max_items : Z;
  wf_work_claim_max_work_units : Z;
  wf_work_claim_min_items_for_microbatch : Z;
  wf_model_capacity_enabled : bool;
  wf_scheduler_shadow_enabled : bool;
  wf_tenant_fair_share_enabled : bool;
  wf_tenant_fair_share_base_quantum_work_units : Z;
  wf_tenant_fair_share_max_deficit_multiplier : Z;
  wf_tenant_max_in_flight_work_units : Z;
  wf_tenant_fair_share_max_active_flows_per_decision : Z;
  wf_tenant_fair_share_max_candidate_jobs_per_flow : Z;
  wf_tenant_fair_share_disabled_model_groups : list string;
  wf_size_aware_scheduling_enabled : bool;
  wf_aging : SizeAging.aging_policy;
  wf_finalization_first : bool
}.

Implicit Types (cfg : worker_config).

(** A text that is set and not empty. *)
Definition set_text (value : option string) : option string := nullif_empty value.

Definition active_scheduler_mode cfg : string :=
  match set_text (wf_scheduler_mode cfg) with
  | Some mode => Modes.normalize_scheduler_mode mode
  | None =>
    if negb (String.eqb (wf_scheduler_claim_mode cfg) "work_slice") then "fifo_v1"
    else if wf_model_capacity_enabled cfg && wf_tenant_fair_share_enabled cfg && wf_size_aware_scheduling_enabled cfg
    then "smart_v1"
    else if wf_model_capacity_enabled cfg && wf_tenant_fair_share_enabled cfg then "fair_share_v1"
    else if wf_model_capacity_enabled cfg then "model_capacity_v1"
    else "slice_v1"
  end.

Definition shadow_scheduler_mode cfg : string :=
  match set_text (wf_scheduler_shadow_mode cfg) with
  | Some mode => Modes.normalize_scheduler_shadow_mode mode
  | None =>
    if negb (wf_scheduler_shadow_enabled cfg) then "none"
    else if wf_size_aware_scheduling_enabled cfg then "smart_v1"
    else "fair_share_v1"
  end.

Definition claim_limit cfg : Z :=
  Z.max (wf_item_claim_limit cfg) (wf_worker_concurrency cfg * wf_item_buffer_multiplier cfg).

Definition work_claim_max_items cfg : Z :=
  let configured := wf_work_claim_max_items cfg in
  if 0 <? configured then Z.max 1 (Z.min configured 200)
  else
    let n := wf_work_claim_min_items_for_microbatch cfg in
    let microbatch_floor := Z.max 1 (Z.min (if n =? 0 then 1 else n) 200) in
    Z.max microbatch_floor (Z.min (claim_limit cfg) 200).

Definition work_claim_max_work_units cfg : Z :=
  let configured := wf_work_claim_max_work_units cfg in
  if 0 <? configured then configured else work_claim_max_items cfg * 4.

Definition tenant_fair_share_model_enabled cfg (model_group : string) : bool :=
  let normalized := Str.strip model_group in
  Str.is_empty normalized
  || negb (bool_decide (normalized ∈ List.filter (fun g => negb (Str.is_empty g))
                                       (map Str.strip (wf_tenant_fair_share_disabled_model_groups cfg)))).

(** ** Pauses *)

Section pauses.
(** [random.uniform] *)
Context (uniform : Q -> Q -> Q).

Definition IDLE_BACKOFF_MAX_MULTIPLIER : Q := 8.
Definition IDLE_BACKOFF_MAX_SECONDS : Q := 10.
Definition IDLE_BACKOFF_JITTER_FRACTION : Q := 1 # 5.
Definition FLOW_LOCK_BUSY_BACKOFF_MAX_SECONDS : Q := 2.
Definition FLOW_LOCK_BUSY_BACKOFF_JITTER_FRACTION : Q := 1 # 5.

Definition power_of_two (n : Z) : Q := inject_Z (2 ^ n).

(** [lower if upper <= lower else random.uniform(lower, upper)] *)
Definition jittered (delay fraction cap : Q) : Q :=
  let jitter := (delay * fraction)%Q in
  let lower := Qmax 0 (delay - jitter) in
  let upper := Qmin cap (delay + jitter) in
  if Qle_bool upper lower then lower else uniform lower upper.

Definition idle_base_delay cfg : Q := Qmax 0 (wf_poll_interval_seconds cfg).
Definition idle_cap cfg : Q :=
  Qmax (idle_base_delay cfg) (Qmin IDLE_BACKOFF_MAX_SECONDS (idle_base_delay cfg * IDLE_BACKOFF_MAX_MULTIPLIER)).
Definition idle_attempt (idle_backoff_attempts : Z) : Z := Z.min (Z.max 0 idle_backoff_attempts) 32.
Definition idle_delay cfg (attempt : Z) : Q := Qmin (idle_cap cfg) (idle_base_delay cfg * power_of_two attempt).

(** The new attempt counter and the pause. *)
Definition next_idle_poll_delay_seconds cfg (idle_backoff_attempts : Z) : Z * Q :=
  if Qle_bool (idle_base_delay cfg) 0 then (idle_backoff_attempts, 0%Q)
  else
    let attempt := idle_attempt idle_backoff_attempts in
    (Z.min (attempt + 1) 32, jittered (idle_delay cfg attempt) IDLE_BACKOFF_JITTER_FRACTION (idle_cap cfg)).

(** *** Flows whose lock was busy *)

Record flow_backoff : Type := mkBackoff {
  busy_attempts : gmap (string * string) Z;
  busy_until : gmap (string * string) Q     (* of [time.monotonic()] *)
}.

(** [str(service_tier or "standard").strip() or "standard"], [str(model_group or "").strip()] *)
Definition fair_share_flow_lock_key (service_tier model_group : string) : string * string :=
  (text_or "standard" (Str.strip (text_or "standard" service_tier)), Str.strip model_group).

Definition fair_share_flow_lock_busy_deferred (monotonic : Q) (key : string * string) (b : flow_backoff) : bool :=
  Qlt_bool monotonic (default 0%Q (busy_until b !! key)).

Definition busy_base_delay cfg : Q :=
  Qmax (1 # 20) (Qmin 1 (if Qeq_bool (wf_poll_interval_seconds cfg) 0 then 1 else wf_poll_interval_seconds cfg)).
Definition busy_attempt (key : string * string) (b : flow_backoff) : Z :=
  Z.min (Z.max 0 (default 0 (busy_attempts b !! key))) 8.
Definition busy_delay cfg (attempt : Z) : Q :=
  Qmin FLOW_LOCK_BUSY_BACKOFF_MAX_SECONDS (busy_base_delay cfg * power_of_two attempt).

Definition record_fair_share_flow_lock_busy cfg (monotonic : Q) (key : string * string) (b : flow_backoff) : flow_backoff :=
  let attempt := busy_attempt key b in
  mkBackoff (<[key := Z.min (attempt + 1) 8]> (busy_attempts b))
    (<[key := (monotonic + jittered (busy_delay cfg attempt) FLOW_LOCK_BUSY_BACKOFF_JITTER_FRACTION
                 FLOW_LOCK_BUSY_BACKOFF_MAX_SECONDS)%Q]> (busy_until b)).

Definition reset_fair_share_flow_lock_busy (key : string * string) (b : flow_backoff) : flow_backoff :=
  mkBackoff (delete key (busy_attempts b)) (delete key (busy_until b)).
End pauses.

(** ** Why a claim was empty *)

(** The head of each claimable job of a group and tier: the work units of its
    first runnable item. *)
Definition runnable_head (now : Z) (s : db) (j : Job.batch_job) : option Z := est <$> head (runnable_items now (Job.batch_id j) s).
Definition runnable_head_items (now : Z) (group tier : string) (s : db) : list Z :=
  omap (runnable_head now s)
    (select_where (fun j => job_claimable now j && sql_eq (Job.scheduling_model_group j) group
                            && String.eqb (text_or "standard" (Job.service_tier j)) tier) (jobs s)).

(** [head_work_threshold_sql] *)
Definition head_work_threshold (now : Z) (group tier : string) (max_work_units : Z) (cap_units : option Z) (s : db) : Z :=
  match cap_units with
  | Some u => Z.min max_work_units (Z.max (Z.max 0 u - in_flight_work_units now group tier s) 0)
  | None => max_work_units
  end.

Definition diagnose_model_group_work_claim_empty (now : Z) (model_group service_tier : string) (max_work_units : Z)
    (cap_items cap_units : option Z) (s : db) : string :=
  let group := Str.strip model_group in
  let tier := text_or "standard" (Str.strip (text_or "standard" service_tier)) in
  let bounded_max_work_units := Z.max 1 max_work_units in
  if Str.is_empty group then "empty_after_selection"
  else if if_set (fun n => n <=? 0) cap_items then "capacity_full_after_lock"
  else if if_set (fun u => u <=? 0) cap_units then "capacity_work_units_full_after_lock"
  else
    let heads := runnable_head_items now group tier s in
    let fitting := existsb (fun u => u <=? head_work_threshold now group tier bounded_max_work_units cap_units s) heads in
    if if_set (fun n => n <=? in_flight_items now group tier s) cap_items then "capacity_full_after_lock"
    else if if_set (fun u => u <=? in_flight_work_units now group tier s) cap_units
    then "capacity_work_units_full_after_lock"
    else match heads with
         | [] => "no_runnable_items_after_selection"
         | _ => if fitting then "empty_after_selection" else "oversized_head_item"
         end.

(** *** Without a group *)

Definition active_status (j : Job.batch_job) : bool :=
  match Job.status j with BatchJobStatus.QUEUED | BatchJobStatus.IN_PROGRESS => true | _ => false end.
Definition candidate_jobs (s : db) : list Job.batch_job :=
  limit 100 (order_by (fun x y => le_of (round_robin_order Eq x y)) (select_where active_status (jobs s))).
Definition unleased (now : Z) (j : Job.batch_job) : bool :=
  match Job.locked_by j with None => true | Some _ => false end || null_or (fun t => t <? now) (Job.lease_expires_at j).
Definition unleased_jobs (now : Z) (s : db) : list Job.batch_job := List.filter (unleased now) (candidate_jobs s).

(** [EXISTS (SELECT 1 FROM unleased_jobs JOIN items WHERE p)] *)
Definition exists_item (now : Z) (s : db) (p : Item.batch_item -> bool) : bool :=
  existsb (fun j => existsb (fun i => in_batch (Job.batch_id j) i && p i) (items s)) (unleased_jobs now s).

Definition is_due (now : Z) (i : Item.batch_item) : bool := null_or (fun t => t <=? now) (Item.not_before_at i).

(** The probe skips items that another transaction holds, and items of jobs it
    holds. *)
Definition diagnose_empty_work_claim (now : Z) (held_job held_item : string -> bool) (s : db) : string :=
  let pending i := bool_decide (Item.status i = PENDING) in
  let in_progress i := bool_decide (Item.status i = IN_PROGRESS) in
  let pending_items := exists_item now s pending in
  let in_progress_items := exists_item now s in_progress in
  let due_pending_items := exists_item now s (fun i => pending i && is_due now i) in
  let future_pending_items := exists_item now s (fun i => pending i && if_set (fun t => now <? t) (Item.not_before_at i)) in
  let claimable_items :=
    existsb (fun j => negb (held_job (Job.batch_id j))
                      && existsb (fun i => in_batch (Job.batch_id j) i && runnable now i && negb (held_item (Item.item_id i)))
                           (items s)) (unleased_jobs now s) in
  match unleased_jobs now s with
  | [] => "job_terminal_or_leased"
  | _ =>
    if negb (exists_item now s (fun i => pending i || in_progress i)) then "no_pending_items"
    else if negb (exists_item now s (runnable now)) then
      if pending_items && future_pending_items && negb due_pending_items && negb in_progress_items then "not_before_future"
      else "all_items_locked"
    else if negb claimable_items then "all_items_locked"
    else "no_available_work"
  end.

(** ** The requests of a worker *)

(** What [claim_next_work] is called with when the caller names nothing. *)
Definition default_aging : SizeAging.aging_policy := SizeAging.mkAging 30 1000 30 100.

Definition slice_request cfg (max_items max_work_units : Z) : work_request :=
  mkWorkRequest (wf_worker_id cfg) max_items max_work_units (wf_item_lease_seconds cfg) [] None false "round_robin"
    None None None None None None true false default_aging 4.

(** [_claim_model_capacity_work_slice] *)
Definition capacity_request cfg (group tier : string) (max_items max_work_units cap_items : Z) (cap_units : option Z)
    : work_request :=
  mkWorkRequest (wf_worker_id cfg) max_items max_work_units (wf_item_lease_seconds cfg) [group] (Some tier) false "fifo"
    (Some group) (Some tier) (Some cap_items) cap_units None None false false default_aging 4.

(** [_claim_legacy_work_slice] *)
Definition legacy_request cfg (max_items max_work_units : Z) : work_request :=
  mkWorkRequest (wf_worker_id cfg) max_items max_work_units (wf_item_lease_seconds cfg) [] None true "fifo"
    None None None None None None true false default_aging 4.

(** ** The pauses are bounded *)

Lemma power_of_two_pos n : 0 <= n -> (1 <= power_of_two n)%Q.
Proof. intros Hn. unfold power_of_two. change 1%Q with (inject_Z 1). rewrite <- Zle_Qle. pose proof (Z.pow_pos_nonneg 2 n). lia. Qed.

Section pause_bounds.
Context (uniform : Q -> Q -> Q).
Hypothesis uniform_between : forall a b, (a <= b)%Q -> (a <= uniform a b <= b)%Q.

Lemma jittered_bounds delay cap : (0 <= delay)%Q -> (delay <= cap)%Q ->
  (delay * (4 # 5) <= jittered uniform delay (1 # 5) cap <= cap)%Q /\ (jittered uniform delay (1 # 5) cap <= delay * (6 # 5))%Q.
Proof.
  intros Hd Hc. unfold jittered. set (lower := Qmax 0 (delay - delay * (1 # 5))).
  set (upper := Qmin cap (delay + delay * (1 # 5))).
  assert (Hl : (lower == delay * (4 # 5))%Q).
  { unfold lower. rewrite Q.max_r by lra. ring. }
  assert (Hu : (upper <= cap)%Q) by apply Q.le_min_l.
  assert (Hu' : (upper <= delay * (6 # 5))%Q).
  { unfold upper. eapply Qle_trans; [apply Q.le_min_r|]. lra. }
  destruct (Qle_bool upper lower) eqn:E.
  - rewrite Hl. split; [split|]; lra.
  - assert (Hlu : (lower <= upper)%Q).
    { apply Qlt_le_weak, Qnot_le_lt. intros H. apply Qle_bool_iff in H. congruence. }
    specialize (uniform_between lower upper Hlu). lra.
Qed.
End pause_bounds.

Lemma busy_base_bounds cfg : (1 # 20 <= busy_base_delay cfg)%Q /\ (busy_base_delay cfg <= 1)%Q.
Proof.
  unfold busy_base_delay. split; [apply Q.le_max_l|]. apply Q.max_lub; [done|]. apply Q.le_min_l.
Qed.

(** Until when a flow is left alone after a busy answer. *)
Lemma busy_until_bounds uniform cfg key b monotonic :
  (forall x y, (x <= y)%Q -> (x <= uniform x y <= y)%Q) ->
  exists t, busy_until (record_fair_share_flow_lock_busy uniform cfg monotonic key b) !! key = Some t /\
    (monotonic + (1 # 25) <= t)%Q /\ (t <= monotonic + 2)%Q.
Proof.
  intros Hun. unfold record_fair_share_flow_lock_busy. cbn [busy_until]. rewrite lookup_insert_eq.
  eexists. split; [reflexivity|]. set (n := busy_attempt key b).
  assert (Hn : 0 <= n) by (unfold n, busy_attempt; lia). pose proof (power_of_two_pos n Hn) as Hp.
  destruct (busy_base_bounds cfg) as [Hb1 Hb2].
  assert (Hm : (1 # 20 <= busy_base_delay cfg * power_of_two n)%Q).
  { eapply Qle_trans; [exact Hb1|]. rewrite <- (Qmult_1_r (busy_base_delay cfg)) at 1.
    rewrite Qmult_comm, (Qmult_comm _ (power_of_two n)). apply Qmult_le_compat_r; [exact Hp|lra]. }
  assert (Hd : (1 # 20 <= busy_delay cfg n)%Q) by (apply Q.min_glb; [done|exact Hm]).
  assert (Hc : (busy_delay cfg n <= 2)%Q) by apply Q.le_min_l.
  destruct (jittered_bounds uniform Hun (busy_delay cfg n) 2) as [[J1 J2] _]; [lra|exact Hc|].
  unfold FLOW_LOCK_BUSY_BACKOFF_JITTER_FRACTION, FLOW_LOCK_BUSY_BACKOFF_MAX_SECONDS.
  set (x := jittered uniform (busy_delay cfg n) (1 # 5) 2) in *. lra.
Qed.

(** The worker's pauses are bounded.  After any number of idle turns the
    next pause is, up to a fifth, the poll interval doubled once per idle turn
    and never more than ten seconds (or the interval, when that is longer); a
    flow whose lock was busy is left alone for some time, at most two seconds,
    and a flow that answered is not left alone at all. *)
Theorem pauses_bounded uniform cfg attempts b key monotonic :
  (forall x y, (x <= y)%Q -> (x <= uniform x y <= y)%Q) -> (0 < wf_poll_interval_seconds cfg)%Q ->
  let '(attempts', pause) := next_idle_poll_delay_seconds uniform cfg attempts in
  let nominal := Qmin (idle_cap cfg) (wf_poll_interval_seconds cfg * power_of_two (idle_attempt attempts)) in
  attempts' = Z.min (idle_attempt attempts + 1) 32 /\
  (nominal * (4 # 5) <= pause)%Q /\ (pause <= nominal * (6 # 5))%Q /\
  (pause <= Qmax (wf_poll_interval_seconds cfg) 10)%Q /\
  let b' := record_fair_share_flow_lock_busy uniform cfg monotonic key b in
  fair_share_flow_lock_busy_deferred monotonic key b' = true /\
  (forall later, (monotonic + 2 <= later)%Q -> fair_share_flow_lock_busy_deferred later key b' = false) /\
  ((0 <= monotonic)%Q -> fair_share_flow_lock_busy_deferred monotonic key (reset_fair_share_flow_lock_busy key b') = false).
Proof.
  intros Hun Hpoll. assert (Hbase : (idle_base_delay cfg == wf_poll_interval_seconds cfg)%Q)
    by (unfold idle_base_delay; apply Q.max_r; lra).
  unfold next_idle_poll_delay_seconds. replace (Qle_bool (idle_base_delay cfg) 0) with false.
  2: { symmetry. apply not_true_iff_false. rewrite Qle_bool_iff, Hbase. lra. }
  set (n := idle_attempt attempts). assert (Hn : 0 <= n) by (unfold n, idle_attempt; lia).
  pose proof (power_of_two_pos n Hn) as Hp.
  assert (Hcap : (wf_poll_interval_seconds cfg <= idle_cap cfg)%Q) by (rewrite <- Hbase; apply Q.le_max_l).
  assert (Hmul : (wf_poll_interval_seconds cfg <= wf_poll_interval_seconds cfg * power_of_two n)%Q).
  { rewrite <- (Qmult_1_r (wf_poll_interval_seconds cfg)) at 1. rewrite Qmult_comm, (Qmult_comm _ (power_of_two n)).
    apply Qmult_le_compat_r; [exact Hp|lra]. }
  assert (Hdel : (idle_delay cfg n == Qmin (idle_cap cfg) (wf_poll_interval_seconds cfg * power_of_two n))%Q)
    by (unfold idle_delay; by rewrite Hbase).
  assert (Hpos : (0 <= idle_delay cfg n)%Q) by (rewrite Hdel; apply Q.min_glb; lra).
  assert (Hle : (idle_delay cfg n <= idle_cap cfg)%Q) by (rewrite Hdel; apply Q.le_min_l).
  destruct (jittered_bounds uniform Hun (idle_delay cfg n) (idle_cap cfg) Hpos Hle) as [[J1 J2] J3].
  unfold IDLE_BACKOFF_JITTER_FRACTION. set (pause := jittered uniform (idle_delay cfg n) (1 # 5) (idle_cap cfg)) in *.
  split; [done|]. split; [|split; [|split]].
  - by rewrite Hdel in J1.
  - by rewrite Hdel in J3.
  - eapply Qle_trans; [exact J2|]. unfold idle_cap. rewrite Hbase. apply Q.max_le_compat_l, Q.le_min_l.
  - cbv zeta. unfold fair_share_flow_lock_busy_deferred.
    destruct (busy_until_bounds uniform cfg key b monotonic Hun) as (t & Ht & H1 & H2). rewrite Ht. cbn [default from_option].
    unfold id. split_and!.
    + apply Qlt_bool_iff. lra.
    + intros later Hl. apply Qlt_bool_false. lra.
    + intros Hm. cbn [reset_fair_share_flow_lock_busy busy_until]. rewrite lookup_delete_eq. by apply Qlt_bool_false.
Qed.

(** ** The diagnosis of an empty claim *)

Lemma selected_none now held_job w s :
  selected_job now held_job w s = None <->
  forall j, j ∈ jobs s ->
    job_claimable now j && job_filters Job.service_tier w j && capacity_open (capacity_state now w s)
    && has_head_item now w (capacity_state now w s) s j && negb (held_job (Job.batch_id j)) = false.
Proof.
  unfold selected_job. match goal with |- context [select_where ?p _] => set (pred := p) end.
  match goal with |- context [order_by ?le _] => pose proof (order_by_perm le (select_where pred (jobs s))) as Hp end. split.
  - intros Hh j Hj. apply not_true_iff_false. intros E. assert (Hin : j ∈ select_where pred (jobs s)) by (by apply elem_select).
    rewrite <- Hp in Hin. destruct (order_by _ _); [by apply elem_of_nil in Hin|done].
  - intros H. destruct (order_by _ _) as [|j l]; [done|]. exfalso.
    assert (Hin : j ∈ select_where pred (jobs s)) by (rewrite <- Hp; left). apply elem_select in Hin as [Hj E].
    specialize (H j Hj). unfold pred in E. congruence.
Qed.

(** With nothing held, a claim without size-aware order is empty exactly when no
    job qualifies. *)
Lemma claim_none now uuid4 w s : size_aware w = false ->
  snd (claim_next_work_with_client now uuid4 nothing_held nothing_held w s) = Ret None <->
  selected_job now nothing_held w s = None.
Proof.
  intros Hs. split; [|intros E; unfold claim_next_work_with_client; by rewrite E].
  intros H. destruct (selected_job now nothing_held w s) as [j|] eqn:Hj; [|done]. exfalso.
  unfold selected_job in Hj. apply head_Some_elem_of in Hj as Hin. rewrite order_by_perm in Hin.
  apply elem_select in Hin as [_ Hp]. rewrite !andb_true_iff in Hp. destruct Hp as ((((_ & _) & Hc) & Hh) & _).
  unfold has_head_item in Hh. destruct (runnable_items now (Job.batch_id j) s) as [|i rest] eqn:Hi; [done|].
  destruct (claim_of_head now w s j i rest uuid4 Hj Hi Hc Hs) as (c & ? & E & _); [|congruence].
  apply orb_true_iff in Hh as [Hh|Hh]; [by left|right]. by apply Z.leb_le.
Qed.

Section capacity_diagnosis.
Context (now : Z) (cfg : worker_config) (group tier : string) (max_items max_work_units n : Z) (cap_units : option Z) (s : db).
Hypothesis plain_group : plain group.
Hypothesis plain_tier : plain tier.
Hypothesis tiers_set : Forall (fun j => Job.service_tier j <> "") (jobs s).

Abbreviation w := (capacity_request cfg group tier max_items max_work_units n cap_units).

Lemma capacity_text : stripped (capacity_model_group w) = group /\ normalized_capacity_service_tier w = tier.
Proof using plain_group plain_tier.
  destruct plain_group as [Hg Eg], plain_tier as [Ht Et]. unfold stripped, normalized_capacity_service_tier.
  cbn [capacity_request capacity_model_group capacity_service_tier wr_service_tier default from_option]. unfold id.
  rewrite Hg, Et. cbn [coalesce default from_option]. unfold id. rewrite Ht. unfold text_or. by rewrite Et.
Qed.

Lemma capacity_filters j : j ∈ jobs s ->
  job_filters Job.service_tier w j
  = sql_eq (Job.scheduling_model_group j) group && String.eqb (text_or "standard" (Job.service_tier j)) tier.
Proof using plain_group plain_tier tiers_set.
  intros Hj. rewrite (tier_set s tiers_set j Hj). destruct plain_group as [Hg Eg], plain_tier as [Ht Et].
  unfold job_filters, normalized_model_groups, stripped, capacity_request.
  cbn [allowed_model_groups wr_service_tier wr_tenant_scope_type wr_tenant_scope_id legacy_only map default from_option].
  unfold id. rewrite Hg, Ht, Et. cbn [List.filter]. rewrite Eg. cbn [negb orb]. rewrite !andb_true_r.
  f_equal. unfold sql_eq, if_set. destruct (Job.scheduling_model_group j) as [g|]; [|done].
  apply eq_true_iff_eq. rewrite bool_decide_eq_true, list_elem_of_singleton, String.eqb_eq. naive_solver.
Qed.

Lemma capacity_threshold :
  work_unit_limit w (capacity_state now w s)
  = head_work_threshold now group tier (Z.max 1 max_work_units) cap_units s.
Proof using plain_group plain_tier.
  destruct capacity_text as [Hg Ht]. unfold capacity_state. rewrite Hg, Ht.
  cbn [capacity_request capacity_max_in_flight_items capacity_max_in_flight_work_units]. destruct plain_group as [_ ->].
  unfold work_unit_limit, head_work_threshold, bounded_max_work_units. cbn [capacity_request WorkClaim.max_work_units].
  destruct cap_units; [done|]. lia.
Qed.

Lemma in_flight_nonneg : 0 <= in_flight_items now group tier s /\ 0 <= in_flight_work_units now group tier s.
Proof.
  split; [apply cnt_nonneg|]. pose proof (work_units_length (select_where (in_flight now group tier s) (items s))).
  unfold in_flight_work_units, work_units in *. lia.
Qed.

Lemma capacity_is_open :
  capacity_open (capacity_state now w s)
  = negb (n <=? in_flight_items now group tier s)
    && null_or (fun u => negb (u <=? in_flight_work_units now group tier s)) cap_units.
Proof using plain_group plain_tier.
  destruct capacity_text as [Hg Ht]. unfold capacity_state. rewrite Hg, Ht.
  cbn [capacity_request capacity_max_in_flight_items capacity_max_in_flight_work_units]. destruct plain_group as [_ ->].
  unfold capacity_open, bounded_max_work_units. cbn [capacity_request WorkClaim.max_work_units].
  destruct in_flight_nonneg. apply eq_true_iff_eq. destruct cap_units as [u|]; cbn [null_or]; rewrite ?andb_true_r, ?andb_true_iff, ?negb_true_iff,
    ?Z.ltb_lt, ?Z.leb_gt; lia.
Qed.

(** A head that fits. *)
Lemma fitting_head :
  existsb (fun u => u <=? head_work_threshold now group tier (Z.max 1 max_work_units) cap_units s)
    (runnable_head_items now group tier s) = true <->
  exists j, j ∈ jobs s /\ job_claimable now j = true /\ job_filters Job.service_tier w j = true /\
    has_head_item now w (capacity_state now w s) s j = true.
Proof using plain_group plain_tier tiers_set.
  rewrite existsb_exists. unfold runnable_head_items. split.
  - intros (u & Hu & Hle). apply list_elem_of_In, list_elem_of_omap in Hu as (j & [Hj Hp]%elem_select & Hh).
    apply andb_true_iff in Hp as [[Hc Hg]%andb_true_iff Ht]. exists j. split_and!; [done|done| |].
    + rewrite capacity_filters by done. by rewrite Hg, Ht.
    + unfold has_head_item. unfold runnable_head in Hh. destruct (runnable_items _ _ _) as [|i l]; [done|].
      injection Hh as <-. rewrite capacity_threshold. by rewrite Hle, orb_true_r.
  - intros (j & Hj & Hc & Hf & Hh). rewrite capacity_filters in Hf by done.
    unfold has_head_item in Hh. destruct (runnable_items now (Job.batch_id j) s) as [|i l] eqn:Hi; [done|].
    rewrite capacity_threshold in Hh. exists (est i). split; [|done].
    apply list_elem_of_In, list_elem_of_omap. exists j. split; [|unfold runnable_head; by rewrite Hi].
    apply elem_select. split; [done|]. apply andb_true_iff in Hf as [-> ->]. by rewrite Hc.
Qed.

Lemma capacity_diagnosis :
  diagnose_model_group_work_claim_empty now group tier max_work_units (Some n) cap_units s = "empty_after_selection" <->
  0 < n /\ null_or (fun u => 0 <? u) cap_units = true /\ capacity_open (capacity_state now w s) = true /\
  exists j, j ∈ jobs s /\ job_claimable now j = true /\ job_filters Job.service_tier w j = true /\
    has_head_item now w (capacity_state now w s) s j = true.
Proof using plain_group plain_tier tiers_set.
  rewrite <- fitting_head, capacity_is_open.
  destruct plain_group as [Hg Eg], plain_tier as [Ht Et]. unfold diagnose_model_group_work_claim_empty.
  assert (El : text_or "standard" (Str.strip (text_or "standard" tier)) = tier) by (unfold text_or; by rewrite Et, Ht, Et).
  rewrite El, Hg, Eg. cbn [if_set]. destruct (Z.leb_spec n 0); [split; [discriminate|lia]|].
  assert (Ecap : if_set (fun u => u <=? 0) cap_units = negb (null_or (fun u => 0 <? u) cap_units))
    by (destruct cap_units as [u|]; cbn; [destruct (Z.leb_spec u 0), (Z.ltb_spec 0 u); done || lia|done]).
  rewrite Ecap. destruct (null_or (fun u => 0 <? u) cap_units); [|split; [discriminate|naive_solver]]. cbn [negb].
  destruct (n <=? in_flight_items now group tier s); [split; [discriminate|naive_solver]|]. cbn [negb andb].
  assert (Eu : if_set (fun u => u <=? in_flight_work_units now group tier s) cap_units
    = negb (null_or (fun u => negb (u <=? in_flight_work_units now group tier s)) cap_units))
    by (destruct cap_units; cbn; by rewrite ?negb_involutive).
  rewrite Eu. destruct (null_or (fun u => negb _) cap_units); [|split; [discriminate|naive_solver]]. cbn [negb].
  destruct (runnable_head_items now group tier s) as [|u l]; [split; [discriminate|naive_solver]|].
  destruct (existsb _ _); split; naive_solver.
Qed.
End capacity_diagnosis.

Lemma slice_pred now cfg max_items max_work_units s j :
  let w := slice_request cfg max_items max_work_units in
  job_claimable now j && job_filters Job.service_tier w j && capacity_open (capacity_state now w s)
    && has_head_item now w (capacity_state now w s) s j && negb (nothing_held (Job.batch_id j))
  = active_status j && unleased now j && match runnable_items now (Job.batch_id j) s with [] => false | _ => true end.
Proof.
  cbv zeta. unfold job_claimable, active_status, unleased, nothing_held, has_head_item. cbn [negb]. rewrite andb_true_r.
  change (capacity_state now (slice_request cfg max_items max_work_units) s) with (@None (Z * Z)).
  change (job_filters Job.service_tier (slice_request cfg max_items max_work_units) j) with true.
  cbn [capacity_open]. rewrite !andb_true_r. by destruct (runnable_items _ _ _).
Qed.

Lemma unleased_elem now s j : (length (select_where active_status (jobs s)) <= 100)%nat ->
  j ∈ unleased_jobs now s <-> j ∈ jobs s /\ active_status j = true /\ unleased now j = true.
Proof.
  intros Hl. unfold unleased_jobs. rewrite list_elem_of_In, filter_In, <- list_elem_of_In.
  assert (E : forall x, x ∈ candidate_jobs s <-> x ∈ select_where active_status (jobs s)).
  { intros x. unfold candidate_jobs, limit. rewrite take_ge; [by rewrite order_by_perm|]. rewrite order_by_perm. lia. }
  rewrite E, elem_select. tauto.
Qed.

Lemma exists_item_spec now s p : exists_item now s p = true <->
  exists j i, j ∈ unleased_jobs now s /\ i ∈ items s /\ Item.batch_id i = Job.batch_id j /\ p i = true.
Proof.
  unfold exists_item. rewrite existsb_exists. split.
  - intros (j & Hj & H). apply existsb_exists in H as (i & Hi & H). apply andb_true_iff in H as [Hb Hp].
    exists j, i. rewrite !list_elem_of_In. unfold in_batch in Hb. apply String.eqb_eq in Hb. done.
  - intros (j & i & Hj & Hi & Hb & Hp). exists j. rewrite <- list_elem_of_In. split; [done|].
    apply existsb_exists. exists i. rewrite <- list_elem_of_In. split; [done|]. unfold in_batch. by rewrite Hb, String.eqb_refl.
Qed.

Lemma runnable_in now b s i : i ∈ items s -> Item.batch_id i = b -> runnable now i = true -> i ∈ runnable_items now b s.
Proof.
  intros Hi Hb Hr. unfold runnable_items, in_batch. rewrite order_by_perm, elem_select, Hb, String.eqb_refl. done.
Qed.

Lemma slice_diagnosis now s : (length (select_where active_status (jobs s)) <= 100)%nat ->
  diagnose_empty_work_claim now nothing_held nothing_held s = "no_available_work" <->
  exists j, j ∈ jobs s /\ active_status j = true /\ unleased now j = true /\ runnable_items now (Job.batch_id j) s <> [].
Proof.
  intros Hl.
  assert (Hr : exists_item now s (runnable now) = true <->
    exists j, j ∈ jobs s /\ active_status j = true /\ unleased now j = true /\ runnable_items now (Job.batch_id j) s <> []).
  { rewrite exists_item_spec. split.
    - intros (j & i & Hj & Hi & Hb & Hp). apply unleased_elem in Hj as (H1 & H2 & H3); [|done]. exists j. split_and!; try done.
      assert (Hin : i ∈ runnable_items now (Job.batch_id j) s) by (by apply runnable_in). intros E. rewrite E in Hin.
      by apply elem_of_nil in Hin.
    - intros (j & H1 & H2 & H3 & Hn). destruct (runnable_items now (Job.batch_id j) s) as [|i l] eqn:E; [done|].
      assert (Hin : i ∈ runnable_items now (Job.batch_id j) s) by (rewrite E; left).
      apply runnable_item in Hin as (Hi & Hb & Hp). exists j, i. split_and!; try done. by apply unleased_elem. }
  rewrite <- Hr. unfold diagnose_empty_work_claim. cbv zeta.
  set (claimable := existsb (fun j => negb (nothing_held (Job.batch_id j)) && _) (unleased_jobs now s)).
  assert (Hc : claimable = exists_item now s (runnable now)).
  { unfold claimable, exists_item, nothing_held. cbn [negb andb]. apply eq_true_iff_eq.
    setoid_rewrite existsb_exists. setoid_rewrite existsb_exists. by setoid_rewrite andb_true_r. }
  rewrite Hc. destruct (exists_item now s (runnable now)) eqn:E.
  - split; [done|]. intros _. apply exists_item_spec in E as (j & i & Hj & Hi & Hb & Hp).
    destruct (unleased_jobs now s) eqn:Eu; [by apply elem_of_nil in Hj|]. rewrite <- Eu in Hj.
    assert (Hpi : exists_item now s (fun i => bool_decide (Item.status i = PENDING) || bool_decide (Item.status i = IN_PROGRESS)) = true).
    { apply exists_item_spec. exists j, i. split_and!; try done. unfold runnable in Hp. destruct (Item.status i); done. }
    by rewrite Hpi.
  - split; [|done]. cbn [negb]. destruct (unleased_jobs now s); [done|]. repeat case_match; done.
Qed.

(** The reported reason of an empty claim is true.  With nothing held by
    others, a capacity claim takes nothing exactly when the diagnosis of its
    group finds a reason (the items or the work units in flight are at the cap,
    nothing is runnable, no head fits); and, with at most a hundred active jobs,
    the unrestricted claim takes nothing exactly when the other diagnosis finds
    one ("no_available_work" is left for work that somebody else took). *)
Theorem empty_claim_diagnosed now uuid4 cfg group tier max_items max_work_units n cap_units s :
  plain group -> plain tier -> Forall (fun j => Job.service_tier j <> "") (jobs s) ->
  (length (select_where active_status (jobs s)) <= 100)%nat ->
  (snd (claim_next_work now true uuid4 nothing_held nothing_held
          (capacity_request cfg group tier max_items max_work_units n cap_units) s) = Ret None <->
   diagnose_model_group_work_claim_empty now group tier max_work_units (Some n) cap_units s <> "empty_after_selection") /\
  (snd (claim_next_work now true uuid4 nothing_held nothing_held (slice_request cfg max_items max_work_units) s) = Ret None <->
   diagnose_empty_work_claim now nothing_held nothing_held s <> "no_available_work").
Proof.
  intros Hg Ht Hs Hl. split.
  - rewrite (capacity_diagnosis now cfg group tier max_items max_work_units n cap_units s Hg Ht Hs), claim_next_work_tx.
    set (w := capacity_request cfg group tier max_items max_work_units n cap_units).
    destruct (capacity_text cfg group tier max_items max_work_units n cap_units Hg Ht) as [Hw _]. fold w in Hw.
    change (capacity_max_in_flight_items w) with (Some n). change (capacity_max_in_flight_work_units w) with cap_units.
    cbn match. rewrite Hw, (proj2 Hg). cbn [negb andb].
    destruct (Z.leb_spec n 0) as [Hn|Hn]; [split; [intros _ (? & _); lia|done]|]. cbn [orb].
    destruct (if_set (fun u => u <=? 0) cap_units) eqn:Eu.
    { split; [intros _ (_ & Hu & _)|done]. destruct cap_units as [u|]; cbn in *; [|done].
      destruct (Z.leb_spec u 0), (Z.ltb_spec 0 u); done || lia. }
    assert (Hu : null_or (fun u => 0 <? u) cap_units = true).
    { destruct cap_units as [u|]; cbn in *; [|done]. destruct (Z.leb_spec u 0), (Z.ltb_spec 0 u); done || lia. }
    rewrite claim_none by done. rewrite selected_none. split.
    + intros H (_ & _ & Hc & j & Hj & H1 & H2 & H3). specialize (H j Hj). fold w in Hc, H2, H3.
      unfold nothing_held in H. by rewrite Hc, H1, H2, H3 in H.
    + intros H j Hj. apply not_true_iff_false. rewrite !andb_true_iff. intros ((((H1 & H2) & Hc) & H3) & _). apply H.
      split_and!; try done. by exists j.
  - rewrite slice_diagnosis by done. rewrite claim_next_work_tx. cbn [slice_request capacity_max_in_flight_items].
    rewrite claim_none by done. rewrite selected_none. split.
    + intros H (j & Hj & H1 & H2 & H3). specialize (H j Hj). rewrite slice_pred, H1, H2 in H.
      by destruct (runnable_items now (Job.batch_id j) s).
    + intros H j Hj. rewrite slice_pred. apply not_true_iff_false. rewrite !andb_true_iff. intros ((H1 & H2) & H3). apply H.
      exists j. split_and!; try done. intros E. by rewrite E in H3.
Qed.

(** ** Examples *)

Definition sample_worker_config : worker_config :=
  mkConfig "w" 1 120 360 4 2 20 (Some "model_capacity_v1") None "work_slice" 16 0 0 4 true false false 16 8 0 100 50 []
    false (SizeAging.mkAging 30 1000 30 100) true.

Example sample_limits :
  (work_claim_max_items sample_worker_config, work_claim_max_work_units sample_worker_config) = (20, 80).
Proof. reflexivity. Qed.

Lemma pauses_bounded_witness :
  snd (next_idle_poll_delay_seconds (fun a _ => a) sample_worker_config 2) = Qmax 0 (4 - 4 * (1 # 5)) /\
  (snd (next_idle_poll_delay_seconds (fun a _ => a) sample_worker_config 2) <= 10)%Q.
Proof.
  split; [vm_compute; reflexivity|].
  pose proof (pauses_bounded (fun a _ => a) sample_worker_config 2 (mkBackoff ∅ ∅) ("standard", "m") 5) as H.
  destruct (next_idle_poll_delay_seconds (fun a _ => a) sample_worker_config 2) as [attempts pause].
  destruct H as (_ & _ & _ & H & _); [intros x y Hxy; split; [apply Qle_refl|exact Hxy]|reflexivity|].
  eapply Qle_trans; [exact H|]. vm_compute. discriminate.
Defined.

Lemma empty_claim_diagnosed_witness :
  let request := capacity_request sample_worker_config "m" "standard" 5 80 1 None in
  let claimed := fst (claim_next_work (100 * usec) true "claim" nothing_held nothing_held request sample_slices) in
  diagnose_model_group_work_claim_empty (100 * usec) "m" "standard" 80 (Some 1) None claimed = "capacity_full_after_lock" /\
  snd (claim_next_work (100 * usec) true "again" nothing_held nothing_held request claimed) = Ret None.
Proof.
  intros request claimed. assert (Ed : diagnose_model_group_work_claim_empty (100 * usec) "m" "standard" 80 (Some 1) None claimed
    = "capacity_full_after_lock") by (vm_compute; reflexivity).
  split; [exact Ed|].
  destruct (empty_claim_diagnosed (100 * usec) "again" sample_worker_config "m" "standard" 5 80 1 None claimed) as [[_ H] _].
  - split; reflexivity.
  - split; reflexivity.
  - apply (bool_decide_unpack _). vm_compute. exact I.
  - apply Nat.leb_le. vm_compute. reflexivity.
  - apply H. rewrite Ed. discriminate.
Defined.
