(* ===== verification/WorkerTurn.v ===== *)
(** * A turn of the batch worker

    [process_once] of src/batch/worker.py: the work slice it claims, from a
    model group with capacity, a tenant's flow or the whole queue; the release
    of what the execution left unfinished; finalisation; and the older turn that
    leases whole jobs.  Every statement comes with what the other processes
    commit before it and with its fault; the execution of the items is a
    parameter, and heartbeats are among what happens in between. *)

From S2P Require Import Prelude PyVal Errors RouterState Backend Router Backpressure BatchModels BatchDb Scheduling BatchItems.
From S2P Require Import BatchOutbox BatchBilling WorkClaim FairShare BatchJobs BatchStorage BatchArtifacts ModelCapacity.
From S2P Require Import FlowSnapshot Worker.

(** ** Surroundings *)

(** One call of the repository. *)
Record statement : Type := mkStatement {
  st_now : Z;
  st_before : db -> db;
  st_fault : fault
}.

(** A claim: what others hold while it runs. *)
Record claim_env : Type := mkClaimEnv {
  ce_statement : statement;
  ce_has_tx : bool;
  ce_uuid4 : string;
  ce_held_job : string -> bool;
  ce_held_item : string -> bool
}.

Record fair_env : Type := mkFairEnv {
  fe_monotonic : Q;
  fe_answered : Q;       (* the clock when the answer is recorded *)
  fe_candidate : statement;
  fe_flow_lock : bool;
  fe_claim : claim_env
}.

Record selection_env : Type := mkSelectionEnv {
  se_selected_at : Z;
  se_fair : fair_env;
  se_claim : claim_env;
  se_diagnose : statement
}.

Record slice_claim_env : Type := mkSliceClaimEnv {
  sc_select : statement;
  sc_select_monotonic : Z;
  sc_selection : nat -> selection_env;
  sc_claim : claim_env          (* the unrestricted or the legacy claim *)
}.

Record finalization_env : Type := mkFinalizationEnv {
  fz_claim : statement;
  fz_held_job : string -> bool;
  fz_now : Z;
  fz_surroundings : surroundings;
  fz_retry : retry_faults;
  fz_output : artifact_ids;
  fz_error : artifact_ids;
  fz_release : statement
}.

(** ** The worker *)

Section turn.
Context {B : Type} `{DeploymentStateBackend B} {S : Type} `{RedisExec S} `{PyRepr}.
Context (digest : string -> string) (loads : string -> option pyval) (sha256_hex : string -> string).
Context (py_repr : pyval -> string) (json_dumps : pyval -> string) (sha256 : bytes -> string) (uniform : Q -> Q -> Q).
(** [_process_items]: it may change the items in any way. *)
Context (process_items : Job.batch_job -> list Item.batch_item -> st db exn unit).

Record worker : Type := mkWorker {
  wk_idle_backoff_attempts : Z;
  wk_flow_backoff : flow_backoff;
  wk_capacity : capacity_world (B := B) (S := S);
  wk_world : world
}.
Local Abbreviation op := (st worker exn).

Definition wk_db (w : worker) : db := w_db (wk_world w).
Definition set_world (x : world) (w : worker) : worker :=
  mkWorker (wk_idle_backoff_attempts w) (wk_flow_backoff w) (wk_capacity w) x.
Definition set_flow_backoff (x : flow_backoff) (w : worker) : worker :=
  mkWorker (wk_idle_backoff_attempts w) x (wk_capacity w) (wk_world w).
Definition set_idle_attempts (n : Z) (w : worker) : worker :=
  mkWorker n (wk_flow_backoff w) (wk_capacity w) (wk_world w).

Definition on_database {A} (m : st db exn A) : op A := fun w =>
  let '(s, r) := m (wk_db w) in (set_world (on_db (fun _ => s) (wk_world w)) w, r).
Definition perform {A} (e : statement) (m : Z -> st db exn A) : op A :=
  on_database (fun s => with_fault (st_fault e) (m (st_now e)) (st_before e s)).
Definition on_capacity {A} (m : st (capacity_world (B := B) (S := S)) exn A) : op A := fun w =>
  let '(c, r) := m (wk_capacity w) in
  (mkWorker (wk_idle_backoff_attempts w) (wk_flow_backoff w) c (wk_world w), r).
Definition on_world {A} (m : st world exn A) : op A := fun w =>
  let '(x, r) := m (wk_world w) in (set_world x w, r).

(** The configuration of the worker, of its capacity resolver when it has one,
    and of finalisation. *)
Context (cfg : worker_config) (capacity : option BatchModelCapacityConfig) (fcfg : finalize_config).

(** ** Claiming a slice *)

Definition claim_work (e : claim_env) (r : work_request) : op (option BatchWorkClaim) :=
  perform (ce_statement e)
    (fun now => claim_next_work now (ce_has_tx e) (ce_uuid4 e) (ce_held_job e) (ce_held_item e) r).

(** The totals that the claim rechecks under its lock. *)
Definition capacity_claim_caps (x : BatchModelCapacitySnapshot) : Z * option Z :=
  (Z.max 0 (sp_in_flight_items x) + Z.max 0 (sp_available_in_flight_items x),
   (fun t => Z.max 0 (sp_in_flight_work_units x) + Z.max 0 t) <$> sp_tpm_remaining x).

Definition selection_request (c : BatchModelCapacitySelection) : work_request :=
  let x := cl_snapshot c in
  let '(cap_items, cap_units) := capacity_claim_caps x in
  capacity_request cfg (sp_model_group x) (sp_service_tier x) (cl_max_items c) (cl_max_work_units c) cap_items cap_units.

(** A diagnosis that fails is only logged. *)
Definition capacity_empty_claim_result (e : statement) (c : BatchModelCapacitySelection) : op string :=
  let x := cl_snapshot c in
  let '(cap_items, cap_units) := capacity_claim_caps x in
  try_except
    (perform e (fun now s =>
       (s, Ret (diagnose_model_group_work_claim_empty now (sp_model_group x) (sp_service_tier x) (cl_max_work_units c)
                  (Some cap_items) cap_units s))))
    (fun _ => mret "empty_after_selection").

Definition capacity_step (e : selection_env) (c : BatchModelCapacitySelection) : op (option BatchWorkClaim * string) :=
  claim ← claim_work (se_claim e) (selection_request c);
  match claim with
  | Some k => mret (Some k, "claimed")
  | None => result ← capacity_empty_claim_result (se_diagnose e) c; mret (None, result)
  end.

(** *** From a flow *)

Definition FAIR_SHARE_MODEL_FALLBACK_RESULTS : list string := ["no_active_flow"; "transaction_unavailable"].

(** What [claim_next_fair_share_work] passes to the claim of a flow. *)
Definition fair_share_request (c : BatchModelCapacitySelection) (size_aware_ : bool) : work_request :=
  let x := cl_snapshot c in
  let '(cap_items, cap_units) := capacity_claim_caps x in
  mkWorkRequest (wf_worker_id cfg) (cl_max_items c) (cl_max_work_units c) (wf_item_lease_seconds cfg) [] None false
    "round_robin" None None (Some cap_items) cap_units None None false size_aware_ (wf_aging cfg)
    (wf_work_claim_min_items_for_microbatch cfg).

Definition fair_share_snapshot_request (x : BatchModelCapacitySnapshot) (size_aware_ : bool) : snapshot_request :=
  mkSnapshotRequest (Some (sp_service_tier x)) (Some (sp_model_group x))
    (wf_tenant_fair_share_max_candidate_jobs_per_flow cfg) size_aware_ (wf_aging cfg) false.

(** The candidate snapshot is read before the transaction, and only when there
    will be one; the work in flight under the flow lock. *)
Definition candidate_snapshot (e : fair_env) (x : BatchModelCapacitySnapshot) (size_aware_ : bool)
    : op refresh_snapshot :=
  if Str.is_empty (Str.strip (sp_model_group x)) || negb (ce_has_tx (fe_claim e)) then mret (mkSnapshot "" "" [] [])
  else perform (fe_candidate e) (fun now s =>
    (s, Ret (load_scheduler_flow_refresh_snapshot sha256_hex now (fair_share_snapshot_request x size_aware_) s))).

Definition claim_fair_share (e : fair_env) (c : BatchModelCapacitySelection) (size_aware_ : bool)
    : op BatchFairShareClaimResult :=
  let x := cl_snapshot c in
  let q := fair_share_snapshot_request x size_aware_ in
  let k := fe_claim e in
  candidate ← candidate_snapshot e x size_aware_;
  perform (ce_statement k) (fun now s =>
    claim_next_fair_share_work (cl_max_work_units c) (wf_tenant_max_in_flight_work_units cfg)
      (wf_tenant_fair_share_max_deficit_multiplier cfg) (wf_tenant_fair_share_max_active_flows_per_decision cfg)
      now (ce_uuid4 k) (ce_held_job k) (ce_held_item k) sha256_hex (ce_has_tx k) (fe_flow_lock e)
      (Some (sp_service_tier x)) (Some (sp_model_group x)) (wf_tenant_fair_share_base_quantum_work_units cfg)
      candidate (load_scheduler_flow_in_flight_snapshot sha256_hex now q s) (fair_share_request c size_aware_) s).

Definition note_answer (e : fair_env) (x : BatchModelCapacitySnapshot) (result : string) : op unit :=
  let key := fair_share_flow_lock_key (sp_service_tier x) (sp_model_group x) in
  modify (fun w => set_flow_backoff
    (if String.eqb result "flow_lock_busy"
     then record_fair_share_flow_lock_busy uniform cfg (fe_answered e) key (wk_flow_backoff w)
     else reset_fair_share_flow_lock_busy key (wk_flow_backoff w)) w).

Definition fair_share_step (e : selection_env) (c : BatchModelCapacitySelection) : op (option BatchWorkClaim * string) :=
  let x := cl_snapshot c in
  w ← get_st;
  if fair_share_flow_lock_busy_deferred (fe_monotonic (se_fair e))
       (fair_share_flow_lock_key (sp_service_tier x) (sp_model_group x)) (wk_flow_backoff w)
  then mret (None, "flow_lock_busy")
  else
    r ← claim_fair_share (se_fair e) c (Modes.scheduler_mode_uses_size_aware (active_scheduler_mode cfg));
    _ ← note_answer (se_fair e) x (fr_result r);
    match fr_claim r with
    | None => if bool_decide (fr_result r ∈ FAIR_SHARE_MODEL_FALLBACK_RESULTS) then capacity_step e c
              else mret (None, fr_result r)
    | Some k => mret (Some k, fr_result r)
    end.

Definition selection_step (e : selection_env) (c : BatchModelCapacitySelection) : op (option BatchWorkClaim * string) :=
  let x := cl_snapshot c in
  _ ← on_capacity (record_selection (se_selected_at e) x);
  if Modes.scheduler_mode_uses_fair_share (active_scheduler_mode cfg)
     && tenant_fair_share_model_enabled cfg (sp_model_group x)
  then fair_share_step e c else capacity_step e c.

(** The loop over the selections; [env] per round. *)
Fixpoint claim_from (env : nat -> selection_env) (round : nat) (l : list BatchModelCapacitySelection)
    : op (option BatchWorkClaim) :=
  match l with
  | [] => mret None
  | c :: l' =>
      r ← selection_step (env round) c;
      match fst r with
      | Some k => mret (Some k)
      | None => claim_from env (Datatypes.S round) l'
      end
  end.

Definition select_groups (ccfg : BatchModelCapacityConfig) (e : slice_claim_env) : op (list BatchModelCapacitySelection) :=
  _ ← perform (sc_select e) (fun _ => mret tt);
  w ← get_st;
  on_capacity (select_model_groups digest loads ccfg (st_now (sc_select e)) (sc_select_monotonic e) (wk_db w)
                 (work_claim_max_items cfg) (work_claim_max_work_units cfg)).

(** [_claim_next_work_slice]; the shadow decisions beside it only read. *)
Definition claim_next_work_slice (e : slice_claim_env) : op (option BatchWorkClaim) :=
  let mode := active_scheduler_mode cfg in
  match (if Modes.scheduler_mode_uses_model_capacity mode then capacity else None) with
  | None => claim_work (sc_claim e) (slice_request cfg (work_claim_max_items cfg) (work_claim_max_work_units cfg))
  | Some ccfg =>
      selections ← select_groups ccfg e;
      claim ← claim_from (sc_selection e) 0 selections;
      match claim with
      | Some k => mret (Some k)
      | None => claim_work (sc_claim e) (legacy_request cfg (work_claim_max_items cfg) (work_claim_max_work_units cfg))
      end
  end.

(** ** Finalisation *)

Definition release_lease (e : statement) (b : string) : op unit :=
  perform e (fun _ => release_job_lease b (wf_worker_id cfg)).

Definition finalize_job (e : finalization_env) (job : Job.batch_job) : op finalize_outcome :=
  on_world (finalize_with_retry py_repr json_dumps sha256 (fz_now e) fcfg (fz_surroundings e) (fz_retry e)
              (fz_output e) (fz_error e) job).

Definition process_finalization_job (e : finalization_env) (job : Job.batch_job) : op unit :=
  try_finally (_ ← finalize_job e job; mret tt) (release_lease (fz_release e) (Job.batch_id job)).

Definition try_process_finalization_claim (e : finalization_env) : op bool :=
  job ← perform (fz_claim e)
          (fun now => claim_next_finalization now (fz_held_job e) (wf_worker_id cfg) (wf_job_lease_seconds cfg));
  match job with
  | None => mret false
  | Some j => _ ← process_finalization_job e j; mret true
  end.

(** ** The turn of a work slice *)

Record slice_env : Type := mkSliceEnv {
  sl_first : finalization_env;
  sl_claim : slice_claim_env;
  sl_instead : finalization_env;
  sl_diagnose : claim_env;
  sl_get_job : statement;
  sl_release_cancelled : statement;
  sl_cancel : statement;
  sl_load : statement;
  sl_process : statement;
  sl_release : statement;
  sl_refresh : statement;
  sl_finalization : finalization_env
}.

Inductive slice_outcome : Type := MissingJob | CancelRequested | Processed.

Definition get_job (b : string) : st db exn (option Job.batch_job) := fun s => (s, Ret (job_row b s)).

Definition release_items (e : statement) (c : BatchWorkClaim) : op Z :=
  perform e (fun _ => release_claim_items (wc_item_ids c) (wf_worker_id cfg)).

Definition process_claim (e : slice_env) (c : BatchWorkClaim) : op slice_outcome :=
  job ← perform (sl_get_job e) (fun _ => get_job (wc_batch_id c));
  match job with
  | None => mret MissingJob
  | Some j =>
      match Job.cancel_requested_at j with
      | Some _ =>
          _ ← release_items (sl_release_cancelled e) c;
          _ ← perform (sl_cancel e) (fun now => mark_pending_items_cancelled now (Job.batch_id j));
          mret CancelRequested
      | None =>
          items ← perform (sl_load e) (fun _ s => (s, Ret (list_items_by_ids (wc_item_ids c) s)));
          match items with
          | [] => mret Processed
          | _ => _ ← on_database (fun s => process_items j items (st_before (sl_process e) s)); mret Processed
          end
      end
  end.

(** The [finally] of the turn: the cancelled slice is already released. *)
Definition releasing (e : slice_env) (c : BatchWorkClaim) (m : op slice_outcome) : op slice_outcome := fun w =>
  match m w with
  | (w', Ret CancelRequested) => (w', Ret CancelRequested)
  | (w', r) =>
      match release_items (sl_release e) c w' with
      | (w'', Ret _) => (w'', r)
      | (w'', Raise x) => (w'', Raise x)
      end
  end.

Definition after_slice (e : slice_env) (c : BatchWorkClaim) : op bool :=
  refreshed ← perform (sl_refresh e) (fun now => refresh_jobs_after_claim now [] [wc_batch_id c]);
  if existsb finalizing refreshed
  then _ ← try_process_finalization_claim (sl_finalization e); mret true
  else mret true.

Definition process_slice (e : slice_env) (c : BatchWorkClaim) : op bool :=
  outcome ← releasing e c (process_claim e c);
  match outcome with
  | MissingJob => mret true
  | _ => after_slice e c
  end.

(** Nothing to claim: finalisation, unless it came first; the reason of the
    empty claim is only counted, but its probe takes row locks. *)
Definition no_slice (e : slice_env) : op bool :=
  if wf_finalization_first cfg then mret false else try_process_finalization_claim (sl_instead e).

Definition empty_work_claim_reason (e : claim_env) : op string :=
  try_except
    (perform (ce_statement e) (fun now s => (s, Ret (diagnose_empty_work_claim now (ce_held_job e) (ce_held_item e) s))))
    (fun _ => mret "no_available_work").

Definition process_once_work_slice (e : slice_env) : op bool :=
  first ← (if wf_finalization_first cfg then try_process_finalization_claim (sl_first e) else mret false);
  if (first : bool) then mret true
  else
    claim ← claim_next_work_slice (sl_claim e);
    match claim with
    | Some c => process_slice e c
    | None =>
        done ← no_slice e;
        if (done : bool) then mret true else _ ← empty_work_claim_reason (sl_diagnose e); mret false
    end.

(** ** The turn of a leased job *)

Record fifo_env : Type := mkFifoEnv {
  ff_claim : statement;
  ff_held_job : string -> bool;
  ff_cancel : statement;
  ff_claim_items : claim_env;
  ff_process : statement;
  ff_refresh : statement;
  ff_finalization : finalization_env;
  ff_release : statement
}.

Definition process_leased_job (e : fifo_env) (job : Job.batch_job) : op bool :=
  if finalizing job then _ ← finalize_job (ff_finalization e) job; mret true
  else
    _ ← (match Job.cancel_requested_at job with
         | Some _ => perform (ff_cancel e) (fun now => mark_pending_items_cancelled now (Job.batch_id job))
         | None => mret tt
         end);
    items ← perform (ce_statement (ff_claim_items e))
              (fun now => claim_items now (ce_held_item (ff_claim_items e)) (Job.batch_id job) (wf_worker_id cfg)
                            (claim_limit cfg) (wf_item_lease_seconds cfg));
    _ ← on_database (fun s => process_items job items (st_before (ff_process e) s));
    refreshed ← perform (ff_refresh e) (fun now => refresh_job_progress now (Job.batch_id job));
    match refreshed with
    | Some j => if finalizing j then _ ← finalize_job (ff_finalization e) j; mret true else mret true
    | None => mret true
    end.

Definition process_once_job_fifo (e : fifo_env) : op bool :=
  job ← perform (ff_claim e)
          (fun now => claim_next_job now (ff_held_job e) (wf_worker_id cfg) (wf_job_lease_seconds cfg));
  match job with
  | None => mret false
  | Some j => try_finally (process_leased_job e j) (release_lease (ff_release e) (Job.batch_id j))
  end.

(** ** The loop *)

Definition process_once (slice : slice_env) (fifo : fifo_env) : op bool :=
  if Modes.scheduler_mode_uses_work_slice (active_scheduler_mode cfg) then process_once_work_slice slice
  else process_once_job_fifo fifo.

(** One round of [run], with the pause that follows it. *)
Definition run_once (slice : slice_env) (fifo : fifo_env) (w : worker) : worker * Q :=
  match process_once slice fifo w with
  | (w', Raise _) => (w', wf_poll_interval_seconds cfg)
  | (w', Ret true) => (set_idle_attempts 0 w', 0%Q)
  | (w', Ret false) =>
      let '(attempts, pause) := next_idle_poll_delay_seconds uniform cfg (wk_idle_backoff_attempts w') in
      (set_idle_attempts attempts w', pause)
  end.
End turn.

(** ** What a worker holds *)

Section leases.
Context (wid : string).

Definition holds_item (i : Item.batch_item) : bool :=
  bool_decide (Item.status i = BatchItemStatus.IN_PROGRESS) && sql_eq (Item.locked_by i) wid.

(** Every lease of the worker is on one of these items, one of these jobs. *)
Definition items_within (ids : list string) (s : db) : Prop :=
  Forall (fun i => holds_item i = true -> Item.item_id i ∈ ids) (items s).
Definition jobs_within (bs : list string) (s : db) : Prop :=
  Forall (fun j => locked_for wid j = true -> Job.batch_id j ∈ bs) (jobs s).
Definition leases_within (ids bs : list string) (s : db) : Prop := items_within ids s /\ jobs_within bs s.

(** What other processes do: they lease nothing in this worker's name. *)
Definition no_new_lease (f : db -> db) : Prop :=
  (forall ids s, items_within ids s -> items_within ids (f s)) /\ (forall bs s, jobs_within bs s -> jobs_within bs (f s)).

Lemma leases_ext ids bs s s' : items s' = items s -> jobs s' = jobs s -> leases_within ids bs s -> leases_within ids bs s'.
Proof. unfold leases_within, items_within, jobs_within. by intros -> ->. Qed.

Lemma no_new_lease_keeps f ids bs s : no_new_lease f -> leases_within ids bs s -> leases_within ids bs (f s).
Proof. intros [H1 H2] [H3 H4]. split; auto. Qed.

Lemma leases_weaken ids ids' bs bs' s : ids ⊆ ids' -> bs ⊆ bs' -> leases_within ids bs s -> leases_within ids' bs' s.
Proof.
  intros H1 H2 [H3 H4]. split; (eapply Forall_impl; [eassumption|]); cbn; auto.
Qed.

(** Changes of rows that take no lease. *)
Definition job_keeps (f : Job.batch_job -> Job.batch_job) : Prop :=
  forall j, Job.batch_id (f j) = Job.batch_id j /\ (locked_for wid (f j) = true -> locked_for wid j = true).
Definition item_keeps (f : Item.batch_item -> Item.batch_item) : Prop :=
  forall i, Item.item_id (f i) = Item.item_id i /\ (holds_item (f i) = true -> holds_item i = true).

Lemma jobs_update ids bs p f s : job_keeps f -> leases_within ids bs s -> leases_within ids bs (on_jobs (update_where p f) s).
Proof.
  intros Hf [H1 H2]. split; [exact H1|]. unfold jobs_within in *. cbn [jobs on_jobs]. rewrite Forall_forall in *.
  intros j (j0 & Hj & ->)%elem_update Hl. destruct (p j0); [|by apply H2]. destruct (Hf j0) as [-> Hk]. apply H2; auto.
Qed.

Lemma items_update ids bs p f s : item_keeps f -> leases_within ids bs s -> leases_within ids bs (on_items (update_where p f) s).
Proof.
  intros Hf [H1 H2]. split; [|exact H2]. unfold items_within in *. cbn [items on_items]. rewrite Forall_forall in *.
  intros i (i0 & Hi & ->)%elem_update Hl. destruct (p i0); [|by apply H1]. destruct (Hf i0) as [-> Hk]. apply H1; auto.
Qed.

Lemma unlocked_keeps f : (forall j, Job.batch_id (f j) = Job.batch_id j) -> (forall j, Job.locked_by (f j) = None) -> job_keeps f.
Proof. intros H1 H2 j. split; [done|]. unfold locked_for, sql_eq. by rewrite H2. Qed.

(** Releasing items and jobs. *)
Lemma release_items_within ids bs s :
  leases_within ids bs s -> leases_within [] bs (fst (release_claim_items ids wid s)).
Proof.
  intros [H1 H2]. unfold release_claim_items. destruct ids as [|id ids]; [done|]. set (l := id :: ids) in *.
  cbn [mbind st_bind update_items fst]. split; [|exact H2]. unfold items_within in *. cbn [items on_items].
  rewrite Forall_forall in *. intros i (i0 & Hi & ->)%elem_update. unfold holds_item.
  destruct (id_in l i0 && sql_eq (Item.locked_by i0) wid && bool_decide _) eqn:E; [done|]. intros Hl.
  exfalso. apply andb_true_iff in Hl as Hl'. destruct Hl' as [Hs Hk]. specialize (H1 i0 Hi).
  unfold id_in in E. rewrite Hk, Hs, !andb_true_r, bool_decide_eq_false in E. apply E, H1. exact Hl.
Qed.

Lemma release_job_within ids b bs s :
  leases_within ids (b :: bs) s -> leases_within ids bs (fst (release_job_lease b wid s)).
Proof.
  intros [H1 H2]. split; [exact H1|]. unfold jobs_within in *. cbn [release_job_lease mbind st_bind update_jobs fst jobs on_jobs].
  rewrite Forall_forall in *. intros j (j0 & Hj & ->)%elem_update. unfold is_job.
  destruct (String.eqb (Job.batch_id j0) b && locked_for wid j0) eqn:E; [done|]. intros Hl.
  specialize (H2 j0 Hj Hl). apply elem_of_cons in H2 as [Hb|]; [|done]. by rewrite Hb, String.eqb_refl, Hl in E.
Qed.

Lemma release_items_jobs ids bs s l : leases_within ids bs s -> leases_within ids bs (fst (release_claim_items l wid s)).
Proof.
  intros Hs. unfold release_claim_items. destruct l as [|id l]; [done|]. cbn [mbind st_bind update_items fst].
  apply items_update; [|done]. intros i. split; [done|]. unfold holds_item. done.
Qed.

Lemma cancel_pending_keeps now b ids bs s : leases_within ids bs s -> leases_within ids bs (fst (mark_pending_items_cancelled now b s)).
Proof. apply items_update. intros i. split; done. Qed.

Lemma update_job_keeps p f ids bs s : job_keeps f -> leases_within ids bs s -> leases_within ids bs (fst (update_job p f s)).
Proof. intros Hf Hs. unfold update_job. by apply jobs_update. Qed.

(** *** Claims *)

Definition claimed_within (c : option BatchWorkClaim) : db -> Prop :=
  leases_within (match c with Some k => wc_item_ids k | None => [] end) [].

Lemma claim_client_within now uuid4 held_job held_item r s : leases_within [] [] s ->
  let '(s', c) := claim_next_work_with_client now uuid4 held_job held_item r s in
  match c with Ret k => claimed_within k s' | Raise _ => leases_within [] [] s' end.
Proof.
  intros Hs. destruct (claim_cases now held_item r uuid4 held_job s) as [->|(j & _ & _ & ->)]; [exact Hs|].
  unfold claimed_within. cbn [wc_item_ids]. set (l := map Item.item_id (claimed_items now held_item r s j)).
  destruct Hs as [H1 H2]. split.
  - unfold items_within in *. cbn [items on_items on_jobs]. rewrite Forall_forall in *.
    intros i (i0 & Hi & ->)%elem_update. destruct (id_in l i0) eqn:E; intros Hl.
    + unfold id_in in E. by apply bool_decide_eq_true in E.
    + specialize (H1 i0 Hi Hl). by apply elem_of_nil in H1.
  - refine (proj2 (jobs_update [] [] _ (schedule_job now) s _ (conj H1 H2))). apply unlocked_keeps; done.
Qed.

Lemma claim_work_within now has_tx uuid4 held_job held_item r s : leases_within [] [] s ->
  let '(s', c) := claim_next_work now has_tx uuid4 held_job held_item r s in
  match c with Ret k => claimed_within k s' | Raise _ => leases_within [] [] s' end.
Proof.
  intros Hs. pose proof (claim_client_within now uuid4 held_job held_item r s Hs) as H. unfold claim_next_work.
  destruct (capacity_max_in_flight_items r) as [n|]; [|exact H]. destruct (Str.is_empty _); [exact H|].
  destruct (_ || _); [exact Hs|]. unfold transaction. destruct (claim_next_work_with_client _ _ _ _ _ s) as [s' [k|e]]; done.
Qed.

(** *** Flows *)

Lemma flows_within ids bs f s : leases_within ids bs s -> leases_within ids bs (on_flows f s).
Proof. by apply leases_ext. Qed.

Lemma repair_within tier group raw stable ids bs s :
  leases_within ids bs s -> leases_within ids bs (fst (repair_scope_id tier group raw stable s)).
Proof.
  intros Hs. unfold repair_scope_id. destruct (_ || _); [exact Hs|]. apply jobs_update; [|exact Hs]. intros j. done.
Qed.

Lemma refresh_flows_within sha256_hex now base m l ids bs s :
  leases_within ids bs s -> leases_within ids bs (fst (refresh_flows sha256_hex now base m l s)).
Proof.
  revert s. induction l as [|a l IH]; intros s Hs; [exact Hs|]. cbn [refresh_flows]. apply bind_keeps; [| |exact Hs].
  - intros s' Hs'. unfold refresh_flow. rewrite fst_bind_ret. unfold upsert_flow.
    destruct (List.find _ (flows s')); [by apply flows_within|]. destruct (existsb _ _); [done|by apply flows_within].
  - intros f s' Hs'. rewrite fst_bind_ret. by apply IH.
Qed.

Lemma refresh_within sha256_hex now sn base m ids bs s :
  leases_within ids bs s ->
  leases_within ids bs (fst (refresh_scheduler_flows_from_snapshot sha256_hex now sn base m s)).
Proof.
  intros Hs. unfold refresh_scheduler_flows_from_snapshot. apply bind_keeps; [| |exact Hs].
  - intros s' Hs'. apply for_each_keeps; [|exact Hs']. intros [raw stable] s1 _ Hs1. by apply repair_within.
  - intros _ s' Hs'. apply bind_keeps; [| |exact Hs'].
    + intros s1 Hs1. by apply refresh_flows_within.
    + intros fs s1 Hs1. rewrite fst_bind_ret. by apply flows_within.
Qed.

(** What a fair-share claim may leave. *)
Definition fair_within (x : db * res exn BatchFairShareClaimResult) : Prop :=
  match snd x with Ret r => claimed_within (fr_claim r) (fst x) | Raise _ => leases_within [] [] (fst x) end.

(** Noting the skip reasons of a selection touches flows only. *)
Lemma noted_within {A} now reasons (f : unit -> st db exn A) s : leases_within [] [] s ->
  exists s', leases_within [] [] s' /\ (record_scheduler_flow_skip_reasons now reasons ≫= f) s = f tt s'.
Proof. intros Hs. eexists. split; [|reflexivity]. by apply flows_within. Qed.

Lemma selected_claim_within mw tm m now uuid4 held_job held_item r f sel n o s : leases_within [] [] s ->
  fair_within (claim_scheduler_selected_flow mw tm m now uuid4 held_job held_item r f sel n o s).
Proof.
  intros Hs. unfold claim_scheduler_selected_flow. cbv zeta. unfold mbind at 1, st_bind at 1.
  match goal with |- context [claim_next_work_with_client now uuid4 held_job held_item ?q s] =>
    pose proof (claim_client_within now uuid4 held_job held_item q s Hs) as H;
    destruct (claim_next_work_with_client now uuid4 held_job held_item q s) as [s' [[c|]|e]] end; [| |exact H].
  - unfold pay_for_claim, fair_within. cbn [fst snd fr_claim fair_share_result]. by apply flows_within.
  - destruct (noted_within now {[flow_id f := "empty_flow"]}
      (fun _ => mret (fair_share_result None "empty_flow" (Some f))) s' H) as (s1 & H1 & ->). exact H1.
Qed.

Lemma rounds_within mw tm m ma now uuid4 held_job held_item r tier group n fs empty s : leases_within [] [] s ->
  fair_within (claim_rounds_of mw tm m ma now uuid4 held_job held_item r tier group n fs empty s).
Proof.
  revert fs empty s. induction n as [|n IH]; intros fs empty s Hs; cbn [claim_rounds_of]; cbv zeta;
    (match goal with |- context [(record_scheduler_flow_skip_reasons now ?x ≫= ?k) s] =>
       destruct (noted_within now x k s Hs) as (s1 & H1 & ->) end).
  - destruct (selected _) as [f|]; [by apply selected_claim_within|exact H1].
  - destruct (selected _) as [f|].
    + unfold mbind at 1, st_bind at 1.
      match goal with |- context [claim_scheduler_selected_flow mw tm m now uuid4 held_job held_item r f ?sel ?k ?o s1] =>
        pose proof (selected_claim_within mw tm m now uuid4 held_job held_item r f sel k o s1 H1) as Hc;
        destruct (claim_scheduler_selected_flow mw tm m now uuid4 held_job held_item r f sel k o s1) as [s2 [x|e]] eqn:E end;
        [|exact Hc].
      destruct (String.eqb_spec (fr_result x) "empty_flow") as [Er|]; [|exact Hc]. apply IH.
      unfold fair_within in Hc. cbn [fst snd] in Hc. destruct (fr_claim x) as [c|] eqn:Ec; [|exact Hc].
      exfalso. revert E. unfold claim_scheduler_selected_flow. cbv zeta. unfold mbind at 1, st_bind at 1.
      destruct (claim_next_work_with_client _ _ _ _ _ s1) as [s3 [[c'|]|e]]; [| |done].
      * unfold pay_for_claim. intros [= _ <-]. done.
      * intros [= _ <-]. done.
    + destruct (terminal_empty_scheduler_flow_result _); [exact H1|].
      unfold mbind at 1, st_bind at 1, refill_scheduler_flow_deficits at 1. apply IH. by apply flows_within.
Qed.

Lemma fair_claim_within mw tm m ma now uuid4 held_job held_item sha256_hex has_tx flow_lock tier group base c i r s :
  leases_within [] [] s ->
  fair_within (claim_next_fair_share_work mw tm m ma now uuid4 held_job held_item sha256_hex has_tx flow_lock tier group
                 base c i r s).
Proof.
  intros Hs. unfold claim_next_fair_share_work. destruct (Str.is_empty _); [exact Hs|]. destruct (negb has_tx); [exact Hs|].
  destruct flow_lock; [|exact Hs]. unfold transaction. unfold mbind, st_bind.
  match goal with |- context [refresh_scheduler_flows_from_snapshot ?a ?b ?x ?d ?e s] =>
    pose proof (refresh_within a b x d e [] [] s Hs) as H;
    destruct (refresh_scheduler_flows_from_snapshot a b x d e s) as [s1 [fs|ex]] end; [|exact Hs].
  match goal with |- context [claim_rounds_of ?a ?b ?x ?d ?e ?g ?h ?i ?j ?k ?l ?o ?p ?q s1] =>
    pose proof (rounds_within a b x d e g h i j k l o p q s1 H) as H';
    destruct (claim_rounds_of a b x d e g h i j k l o p q s1) as [s2 [v|ex]] end; [exact H'|exact Hs].
Qed.

(** *** Finalisation *)

Definition db_keeps {A} (m : st db exn A) : Prop :=
  forall ids bs s, leases_within ids bs s -> leases_within ids bs (fst (m s)).

Lemma with_fault_leases {A} f (m : st db exn A) : db_keeps m -> db_keeps (with_fault f m).
Proof.
  intros Hm ids bs s Hs. pose proof (Hm ids bs s Hs) as H. unfold with_fault, transaction.
  destruct f; try done; by destruct (m s) as [s' [?|?]].
Qed.

Lemma finalize_row_keeps now output error final : job_keeps (finalize_row now output error final).
Proof. apply unlocked_keeps; done. Qed.

Lemma attach_leases now b output error final w : db_keeps (attach_artifacts_and_finalize now b output error (inl final) w).
Proof. intros ids bs s Hs. cbn. by apply update_job_keeps; [apply finalize_row_keeps|]. Qed.

Section finalize.
Context (py_repr : pyval -> string) (json_dumps : pyval -> string) (sha256 : bytes -> string).
Context (ids bs : list string).

Definition world_within (w : world) : Prop := leases_within ids bs (w_db w).
Definition locals_within (x : world * finalize_locals) : Prop := world_within (fst x).

Lemma with_world_keeps {A} (m : st world fin_exc A) x :
  (forall w, world_within w -> world_within (fst (m w))) -> locals_within x -> locals_within (fst (with_world m x)).
Proof. destruct x as [w l]. intros Hm Hw. specialize (Hm w Hw). unfold with_world. by destruct (m w). Qed.

Lemma with_objects_keeps {A} (m : st files fin_exc A) w : world_within w -> world_within (fst (with_objects m w)).
Proof. intros Hw. unfold with_objects. by destruct (m (w_objects w)). Qed.

Lemma set_locals_keeps f x : locals_within x -> locals_within (fst (set_locals f x)).
Proof. by destruct x. Qed.

Lemma create_file_keeps f file_id r w : world_within w -> world_within (fst (create_file f file_id r w)).
Proof. intros Hw. unfold create_file. destruct f; done. Qed.

Lemma artifact_keeps cfg needed d f aids purpose filename expires_at lines x :
  locals_within x -> locals_within (fst (optional_artifact sha256 cfg needed d f aids purpose filename expires_at lines x)).
Proof.
  intros Hx. unfold optional_artifact. destruct needed; [|exact Hx]. rewrite fst_bind_ret. unfold write_artifact.
  apply bind_keeps; [done| |exact Hx]. intros [w l] x1 H1. apply bind_keeps; [| |exact H1].
  { intros x2 H2. apply with_world_keeps; [|exact H2]. intros w2. apply with_objects_keeps. }
  intros [[key size] checksum] x2 H2. apply bind_keeps; [intros x3; apply set_locals_keeps| |exact H2].
  intros _ x3 H3. apply bind_keeps; [| |exact H3].
  { intros x4 H4. apply with_world_keeps; [|exact H4]. intros w4. apply create_file_keeps. }
  intros file_id x4 H4. apply bind_keeps; [intros x5; apply set_locals_keeps|done|exact H4].
Qed.

Lemma publish_keeps now cfg env out err job x : no_new_lease (meanwhile env) ->
  locals_within x -> locals_within (fst (publish_artifacts py_repr json_dumps sha256 now cfg env out err job x)).
Proof.
  intros Hm Hx. unfold publish_artifacts. apply bind_keeps; [intros ?; apply artifact_keeps| |exact Hx].
  intros o x1 H1. apply bind_keeps; [intros ?; apply artifact_keeps| |exact H1].
  intros o' x2 H2. apply bind_keeps; [| |exact H2].
  { intros x3 H3. apply with_world_keeps; [|exact H3]. intros w Hw. unfold world_within. cbn. by apply no_new_lease_keeps. }
  intros _ x3 H3. apply bind_keeps; [| |exact H3].
  { intros x4 H4. apply with_world_keeps; [|exact H4]. intros w Hw. unfold attach_artifacts, world_within.
    pose proof (with_fault_leases (at_attach env) _ (attach_leases now (Job.batch_id job) o o' (resolve_final_status job)
      (Some (fc_worker_id cfg))) ids bs (w_db w) Hw) as H. by destruct (with_fault _ _ (w_db w)). }
  intros [j|] x4 H4; exact H4.
Qed.

Lemma delete_file_keeps file_id w : world_within w -> world_within (delete_file file_id w).
Proof.
  intros Hw. unfold world_within, delete_file. cbn [w_db].
  apply (jobs_update ids bs (fun _ => true) (forget_file file_id)); [|exact Hw]. intros j. done.
Qed.

Lemma delete_object_keeps env k w : world_within w -> world_within (delete_object env k w).
Proof. unfold delete_object. by destruct (at_delete_object env k). Qed.

Lemma cleanup_keeps env arts keys w : world_within w ->
  world_within (cleanup_unattached_artifacts env arts (cleanup_unrecorded_artifacts env keys w)).
Proof.
  intros Hw. unfold cleanup_unattached_artifacts, cleanup_unrecorded_artifacts.
  assert (H1 : forall w, world_within w -> world_within (fold_left (fun w k => delete_object env k w) keys w)).
  { clear. induction keys as [|k keys IH]; intros w Hw; cbn; [done|]. by apply IH, delete_object_keeps. }
  specialize (H1 w Hw). revert H1. generalize (fold_left (fun w k => delete_object env k w) keys w). clear.
  induction arts as [|[f k] arts IH]; intros w Hw; cbn [fold_left]; [done|]. apply IH.
  destruct (committed _); [apply delete_file_keeps|]; by apply delete_object_keeps.
Qed.

Lemma on_db_st_keeps {A} f (m : st db exn A) w : db_keeps m -> world_within w -> world_within (fst (on_db_st f m w)).
Proof.
  intros Hm Hw. unfold on_db_st, world_within. pose proof (with_fault_leases f m Hm ids bs (w_db w) Hw) as H.
  by destruct (with_fault f m (w_db w)).
Qed.

Lemma schedule_keeps now cfg fs job w : world_within w -> world_within (fst (schedule_finalization_retry now cfg fs job w)).
Proof.
  intros Hw. unfold schedule_finalization_retry. rewrite fst_bind_ret. apply on_db_st_keeps; [|exact Hw].
  intros i b s Hs. unfold reschedule_finalization, update_any_job. rewrite fst_bind_ret. cbn [update_jobs fst].
  apply jobs_update; [|exact Hs]. apply unlocked_keeps; done.
Qed.

Lemma permanent_keeps now cfg fs job reason w : world_within w ->
  world_within (fst (persist_permanent_finalization_failure now cfg fs job reason w)).
Proof.
  intros Hw. unfold persist_permanent_finalization_failure. apply bind_keeps; [| |exact Hw].
  - intros w1 H1. apply on_db_st_keeps; [apply attach_leases|exact H1].
  - intros [j|] w1 H1; [|exact H1]. apply bind_keeps; [|done|exact H1]. intros w2 H2. unfold record_reason. cbn [fst].
    apply on_db_st_keeps; [|exact H2]. intros i b s Hs. unfold set_provider_error.
    apply update_job_keeps; [|exact Hs]. intros x. done.
Qed.

Lemma finalize_with_retry_keeps now cfg env fs out err job w : no_new_lease (meanwhile env) ->
  world_within w -> world_within (fst (finalize_with_retry py_repr json_dumps sha256 now cfg env fs out err job w)).
Proof.
  intros Hm Hw. unfold finalize_with_retry.
  assert (H : world_within (fst (finalize_artifacts py_repr json_dumps sha256 now cfg env out err job w))).
  { unfold finalize_artifacts. pose proof (publish_keeps now cfg env out err job (w, no_locals) Hm Hw) as H.
    destruct (publish_artifacts _ _ _ _ _ _ _ _ _ _) as [[w' l] [a|e]]; [exact H|]. by apply cleanup_keeps. }
  destruct (finalize_artifacts _ _ _ _ _ _ _ _ _ w) as [w' [[]|[reason|e]]]; [exact H| |by apply schedule_keeps].
  pose proof (permanent_keeps now cfg fs job reason w' H) as H'.
  destruct (persist_permanent_finalization_failure _ _ _ _ _ w') as [w'' [[]|e]]; [exact H'|by apply schedule_keeps..].
Qed.
End finalize.
End leases.

(** ** A turn leaves no lease behind *)

Section turn_leases.
Context {B : Type} {backend : DeploymentStateBackend B} {S : Type} {exec : RedisExec S} {repr : PyRepr}.
Context (digest : string -> string) (loads : string -> option pyval) (sha256_hex : string -> string).
Context (py_repr : pyval -> string) (json_dumps : pyval -> string) (sha256 : bytes -> string) (uniform : Q -> Q -> Q).
Context (process_items : Job.batch_job -> list Item.batch_item -> st db exn unit).
Context (cfg : worker_config) (capacity : option BatchModelCapacityConfig) (fcfg : finalize_config).
#[local] Abbreviation wid := (wf_worker_id cfg).
Implicit Types (w : worker (B := B) (S := S)).

(** Only this worker leases in its name, also while it executes items. *)
Definition quiet (e : statement) : Prop := no_new_lease wid (st_before e).
Hypothesis quiet_execution : forall j l, no_new_lease wid (fun s => fst (process_items j l s)).

Definition good_claim (e : claim_env) : Prop := quiet (ce_statement e) /\ acknowledged (st_fault (ce_statement e)).
Definition good_selection (e : selection_env) : Prop :=
  quiet (fe_candidate (se_fair e)) /\ good_claim (fe_claim (se_fair e)) /\ good_claim (se_claim e) /\ quiet (se_diagnose e).
Definition good_slice_claim (e : slice_claim_env) : Prop :=
  quiet (sc_select e) /\ good_claim (sc_claim e) /\ forall n, good_selection (sc_selection e n).
(** A claim that was committed was acknowledged, and a release is committed. *)
Definition good_finalization (e : finalization_env) : Prop :=
  quiet (fz_claim e) /\ acknowledged (st_fault (fz_claim e)) /\ no_new_lease wid (meanwhile (fz_surroundings e)) /\
  quiet (fz_release e) /\ committed (st_fault (fz_release e)) = true.
Definition good_slice (e : slice_env) : Prop :=
  good_finalization (sl_first e) /\ good_slice_claim (sl_claim e) /\ good_finalization (sl_instead e) /\
  quiet (ce_statement (sl_diagnose e)) /\ quiet (sl_get_job e) /\ quiet (sl_release_cancelled e) /\ quiet (sl_cancel e) /\
  quiet (sl_load e) /\ quiet (sl_process e) /\ quiet (sl_release e) /\ committed (st_fault (sl_release e)) = true /\
  quiet (sl_refresh e) /\ good_finalization (sl_finalization e).
Definition good_fifo (e : fifo_env) : Prop :=
  quiet (ff_claim e) /\ acknowledged (st_fault (ff_claim e)) /\ quiet (ff_cancel e) /\
  quiet (ce_statement (ff_claim_items e)) /\ quiet (ff_process e) /\ quiet (ff_refresh e) /\
  no_new_lease wid (meanwhile (fz_surroundings (ff_finalization e))) /\
  quiet (ff_release e) /\ committed (st_fault (ff_release e)) = true.

Definition within (ids bs : list string) w : Prop := leases_within wid ids bs (wk_db w).

Lemma quiet_before e ids bs w : quiet e -> within ids bs w -> leases_within wid ids bs (st_before e (wk_db w)).
Proof. intros He Hw. by apply no_new_lease_keeps. Qed.

Lemma perform_keeps {A} e (m : Z -> st db exn A) ids bs w : quiet e -> (forall t, db_keeps wid (m t)) ->
  within ids bs w -> within ids bs (fst (perform e m w)).
Proof.
  intros He Hm Hw. unfold perform, on_database.
  pose proof (with_fault_leases wid (st_fault e) (m (st_now e)) (Hm _) ids bs _ (quiet_before e ids bs w He Hw)) as H'.
  by destruct (with_fault _ _ _).
Qed.

Lemma read_keeps {A} e (f : Z -> db -> res exn A) ids bs w : quiet e ->
  within ids bs w -> within ids bs (fst (perform e (fun t s => (s, f t s)) w)).
Proof. intros He. apply perform_keeps; [done|]. by intros t i b s. Qed.

(** A statement whose commit was acknowledged did what it says, or nothing. *)
Lemma perform_acknowledged {A} e (m : Z -> st db exn A) w : acknowledged (st_fault e) ->
  let s := st_before e (wk_db w) in
  let '(w', r) := perform e m w in
  match r with
  | Ret a => m (st_now e) s = (wk_db w', Ret a)
  | Raise _ => wk_db w' = s
  end.
Proof.
  intros Ha. cbv zeta. unfold perform, on_database, with_fault. destruct (st_fault e) as [|x|x] eqn:Ef;
    [|done|by destruct (Ha x)].
  unfold transaction. by destruct (m (st_now e) (st_before e (wk_db w))) as [s' [a|x]].
Qed.

Lemma perform_committed {A} e (m : Z -> st db exn A) w s' a : committed (st_fault e) = true ->
  m (st_now e) (st_before e (wk_db w)) = (s', Ret a) -> wk_db (fst (perform e m w)) = s'.
Proof.
  intros Hc E. unfold perform, on_database, with_fault, transaction. rewrite E. by destruct (st_fault e).
Qed.

(** *** Claims *)

Definition claims_within (x : worker (B := B) (S := S) * res exn (option BatchWorkClaim)) : Prop :=
  match snd x with
  | Ret c => claimed_within wid c (wk_db (fst x))
  | Raise _ => within [] [] (fst x)
  end.
Definition steps_within (x : worker (B := B) (S := S) * res exn (option BatchWorkClaim * string)) : Prop :=
  match snd x with
  | Ret (c, _) => claimed_within wid c (wk_db (fst x))
  | Raise _ => within [] [] (fst x)
  end.

Lemma claim_work_leases e r w : good_claim e -> within [] [] w -> claims_within (claim_work e r w).
Proof.
  intros [Hq Ha] Hw. unfold claim_work. set (m := fun now => claim_next_work now _ _ _ _ r).
  pose proof (perform_acknowledged (ce_statement e) m w Ha) as Hp. cbv zeta in Hp.
  pose proof (quiet_before _ _ _ w Hq Hw) as Hs.
  destruct (perform (ce_statement e) m w) as [w' [c|x]]; unfold claims_within; cbn [fst snd].
  - pose proof (claim_work_within wid (st_now (ce_statement e)) (ce_has_tx e) (ce_uuid4 e) (ce_held_job e)
      (ce_held_item e) r _ Hs) as H'. unfold m in Hp. by rewrite Hp in H'.
  - unfold within. by rewrite Hp.
Qed.

Lemma capacity_step_keeps e c w : good_claim (se_claim e) -> quiet (se_diagnose e) -> within [] [] w ->
  steps_within (capacity_step cfg e c w).
Proof.
  intros Hc Hd Hw. unfold capacity_step. unfold mbind at 1, st_bind at 1.
  pose proof (claim_work_leases (se_claim e) (selection_request cfg c) w Hc Hw) as H'.
  destruct (claim_work _ _ w) as [w1 [[k|]|x]]; [exact H'| |exact H'].
  assert (Hr : within [] [] (fst (capacity_empty_claim_result (se_diagnose e) c w1))).
  { unfold capacity_empty_claim_result. destruct (capacity_claim_caps (cl_snapshot c)) as [n u]. unfold try_except.
    match goal with |- context [perform (se_diagnose e) ?m w1] =>
      pose proof (perform_keeps (se_diagnose e) m [] [] w1 Hd (fun t i b s Hs => Hs) H') as Hp;
      by destruct (perform (se_diagnose e) m w1) as [w2 [a|x]] end. }
  unfold mbind, st_bind. by destruct (capacity_empty_claim_result _ _ w1) as [w2 [a|x]].
Qed.

Lemma fair_share_keeps e c size_aware_ w : quiet (fe_candidate e) -> good_claim (fe_claim e) -> within [] [] w ->
  match claim_fair_share sha256_hex cfg e c size_aware_ w with
  | (w', Ret r) => claimed_within wid (fr_claim r) (wk_db w')
  | (w', Raise _) => within [] [] w'
  end.
Proof.
  intros Hq [Hk Ha] Hw. unfold claim_fair_share. unfold mbind at 1, st_bind at 1.
  assert (H1 : within [] [] (fst (candidate_snapshot sha256_hex cfg e (cl_snapshot c) size_aware_ w))).
  { unfold candidate_snapshot. destruct (_ || _); [exact Hw|]. by apply read_keeps. }
  destruct (candidate_snapshot _ _ _ _ _ w) as [w1 [candidate|x]]; [|exact H1]. cbn [fst] in H1.
  match goal with |- context [perform (ce_statement (fe_claim e)) ?m w1] => set (m1 := m) end.
  pose proof (perform_acknowledged (ce_statement (fe_claim e)) m1 w1 Ha) as Hp. cbv zeta in Hp.
  pose proof (quiet_before _ _ _ w1 Hk H1) as Hs.
  destruct (perform (ce_statement (fe_claim e)) m1 w1) as [w2 [r|x]]; [|unfold within; by rewrite Hp].
  unfold m1 in Hp.
  match type of Hp with claim_next_fair_share_work ?a ?b ?x ?d ?e1 ?f ?g ?h ?i ?j ?k ?l ?n ?o ?p ?q ?r1 ?t = _ =>
    pose proof (fair_claim_within wid a b x d e1 f g h i j k l n o p q r1 t Hs) as H2 end.
  unfold fair_within in H2. rewrite Hp in H2. exact H2.
Qed.

Lemma selection_keeps e c w : good_selection e -> within [] [] w ->
  steps_within (selection_step sha256_hex uniform cfg e c w).
Proof.
  intros (Hq & Hf & Hc & Hd) Hw. unfold selection_step. unfold mbind at 1, st_bind at 1.
  assert (H1 : within [] [] (fst (on_capacity (record_selection (se_selected_at e) (cl_snapshot c)) w))).
  { unfold on_capacity. by destruct (record_selection _ _ (wk_capacity w)). }
  destruct (on_capacity _ w) as [w1 [u|x]]; [|exact H1]. cbn [fst] in H1.
  destruct (_ && _); [|by apply capacity_step_keeps].
  unfold fair_share_step. cbn [mbind st_bind get_st]. unfold mbind at 1, st_bind at 1, get_st at 1.
  destruct (fair_share_flow_lock_busy_deferred _ _ _); [exact H1|]. unfold mbind at 1, st_bind at 1.
  pose proof (fair_share_keeps (se_fair e) c (Modes.scheduler_mode_uses_size_aware (active_scheduler_mode cfg)) w1 Hq Hf H1) as H2.
  destruct (claim_fair_share _ _ _ _ _ w1) as [w2 [r|x]]; [|exact H2].
  unfold mbind, st_bind. cbn [note_answer modify]. destruct (fr_claim r) as [k|] eqn:E; [exact H2|].
  destruct (bool_decide _); [|exact H2]. apply capacity_step_keeps; [done..|exact H2].
Qed.

Lemma claim_from_keeps env round l w : (forall n, good_selection (env n)) -> within [] [] w ->
  claims_within (claim_from sha256_hex uniform cfg env round l w).
Proof.
  intros He. revert round w. induction l as [|c l IH]; intros round w Hw; [exact Hw|]. cbn [claim_from].
  unfold mbind, st_bind. pose proof (selection_keeps (env round) c w (He round) Hw) as H'.
  destruct (selection_step _ _ _ _ c w) as [w1 [[[k|] result]|x]]; [exact H'| |exact H']. by apply IH.
Qed.

Lemma claim_slice_keeps e w : good_slice_claim e -> within [] [] w ->
  claims_within (claim_next_work_slice digest loads sha256_hex uniform cfg capacity e w).
Proof.
  intros (Hs & Hc & He) Hw. unfold claim_next_work_slice.
  destruct (if Modes.scheduler_mode_uses_model_capacity _ then capacity else None) as [ccfg|]; [|by apply claim_work_leases].
  unfold mbind at 1, st_bind at 1.
  assert (H1 : within [] [] (fst (select_groups digest loads cfg ccfg e w))).
  { unfold select_groups. apply bind_keeps; [| |exact Hw].
    - intros w1. apply perform_keeps; [done|]. by intros t i b s.
    - intros _ w1 H1. apply bind_keeps; [done| |exact H1]. intros w2 w3 H3. unfold on_capacity.
      by destruct (select_model_groups _ _ _ _ _ _ _ _ (wk_capacity w3)). }
  destruct (select_groups _ _ _ _ _ w) as [w1 [selections|x]]; [|exact H1]. cbn [fst] in H1.
  unfold mbind at 1, st_bind at 1. pose proof (claim_from_keeps (sc_selection e) 0 selections w1 He H1) as H2.
  destruct (claim_from _ _ _ _ _ _ w1) as [w2 [[k|]|x]]; [exact H2| |exact H2]. by apply claim_work_leases.
Qed.

(** *** Releases *)

Lemma release_items_done e c bs w : quiet e -> committed (st_fault e) = true ->
  within (wc_item_ids c) bs w -> within [] bs (fst (release_items cfg e c w)).
Proof.
  intros Hq Hc Hw. pose proof (release_items_within wid _ bs _ (quiet_before e _ bs w Hq Hw)) as H'.
  destruct (release_claim_items (wc_item_ids c) wid (st_before e (wk_db w))) as [s' r] eqn:E.
  assert (exists n, r = Ret n) as [n ->] by (revert E; unfold release_claim_items; destruct (wc_item_ids c); intros [= _ <-]; by eexists).
  unfold within, release_items. by rewrite (perform_committed e _ w s' n Hc E).
Qed.

Lemma release_items_keeps e c ids bs w : quiet e -> within ids bs w -> within ids bs (fst (release_items cfg e c w)).
Proof. intros Hq. apply perform_keeps; [done|]. intros _ i b s. apply release_items_jobs. Qed.

Lemma release_items_returned e c bs w n : quiet e -> within (wc_item_ids c) bs w ->
  snd (release_items cfg e c w) = Ret n -> within [] bs (fst (release_items cfg e c w)).
Proof.
  intros Hq Hw Hr. apply release_items_done; [done| |done]. revert Hr. unfold release_items, perform, on_database, with_fault.
  destruct (st_fault e) as [|x|x]; [done|done|].
  destruct (transaction (release_claim_items (wc_item_ids c) wid) (st_before e (wk_db w))) as [s1 r]. done.
Qed.

Lemma release_lease_done e b ids bs w : quiet e -> committed (st_fault e) = true ->
  within ids (b :: bs) w -> within ids bs (fst (release_lease cfg e b w)).
Proof.
  intros Hq Hc Hw. pose proof (release_job_within wid ids b bs _ (quiet_before e _ _ w Hq Hw)) as H'.
  destruct (release_job_lease b wid (st_before e (wk_db w))) as [s' r] eqn:E.
  assert (r = Ret tt) as -> by (revert E; by intros [= _ <-]).
  unfold within, release_lease. by rewrite (perform_committed e _ w s' tt Hc E).
Qed.

(** *** Leases of jobs *)

Definition leased_within ids (j : option Job.batch_job) : db -> Prop :=
  leases_within wid ids (match j with Some j => [Job.batch_id j] | None => [] end).

Lemma claim_candidate_within order p held f ids s : (forall j, Job.batch_id (f j) = Job.batch_id j) ->
  leases_within wid ids [] s ->
  exists j, snd (claim_candidate order p held f s) = Ret j /\ leased_within ids j (fst (claim_candidate order p held f s)).
Proof.
  intros Hf [Hi Hj]. unfold claim_candidate. destruct (head _) as [c|] eqn:E; [|by exists None].
  eexists. split; [reflexivity|]. cbn [update_job fst snd]. split; [exact Hi|]. unfold jobs_within in *.
  cbn [jobs on_jobs]. rewrite Forall_forall in *. intros j (j0 & Hj0 & ->)%elem_update Hl.
  destruct (is_job (Job.batch_id c) j0) eqn:Ec.
  - apply String.eqb_eq in Ec.
    destruct (select_where (is_job (Job.batch_id c)) (jobs s)) as [|r l] eqn:Er.
    + exfalso. assert (j0 ∈ select_where (is_job (Job.batch_id c)) (jobs s)) as Hin; [|rewrite Er in Hin; by inversion Hin].
      apply elem_select. split; [done|]. unfold is_job. by rewrite Ec, String.eqb_refl.
    + cbn. assert (is_job (Job.batch_id c) r = true) as Hr%String.eqb_eq.
      { apply (elem_select _ (jobs s) r). rewrite Er. by left. }
      rewrite !Hf, Ec, Hr. by left.
  - specialize (Hj j0 Hj0 Hl). by inversion Hj.
Qed.

Lemma perform_leased e m ids w : quiet e -> acknowledged (st_fault e) ->
  (forall t s, leases_within wid ids [] s -> exists j, snd (m t s) = Ret j /\ leased_within ids j (fst (m t s))) ->
  within ids [] w ->
  match perform e m w with
  | (w', Ret j) => leased_within ids j (wk_db w')
  | (w', Raise _) => within ids [] w'
  end.
Proof.
  intros Hq Ha Hm Hw. pose proof (quiet_before e ids [] w Hq Hw) as Hs.
  destruct (Hm (st_now e) _ Hs) as (j & Hr & Hl). pose proof (perform_acknowledged e m w Ha) as Hp. cbv zeta in Hp.
  destruct (perform e m w) as [w' [a|x]]; [|unfold within; by rewrite Hp].
  rewrite Hp in Hr, Hl. cbn [fst snd] in Hr, Hl. by simplify_eq.
Qed.

Lemma finalize_job_keeps e j ids bs w : no_new_lease wid (meanwhile (fz_surroundings e)) -> within ids bs w ->
  within ids bs (fst (finalize_job py_repr json_dumps sha256 fcfg e j w)).
Proof.
  intros Hm Hw. unfold finalize_job, on_world.
  match goal with |- context [finalize_with_retry ?a ?b ?c ?t ?f ?env ?fs ?o ?er j (wk_world w)] =>
    pose proof (finalize_with_retry_keeps wid a b c ids bs t f env fs o er j (wk_world w) Hm Hw) as H';
    destruct (finalize_with_retry a b c t f env fs o er j (wk_world w)) as [x r] end. exact H'.
Qed.

Lemma try_finally_releases {A} (m : st (worker (B := B) (S := S)) exn A) e b ids bs w :
  quiet e -> committed (st_fault e) = true -> within ids (b :: bs) (fst (m w)) ->
  within ids bs (fst (try_finally m (release_lease cfg e b) w)).
Proof.
  intros Hq Hc Hm. unfold try_finally. destruct (m w) as [w1 r].
  pose proof (release_lease_done e b ids bs w1 Hq Hc Hm) as H'. by destruct (release_lease cfg e b w1) as [w2 [[]|x]].
Qed.

Lemma finalization_keeps e w : good_finalization e -> within [] [] w ->
  within [] [] (fst (try_process_finalization_claim py_repr json_dumps sha256 cfg fcfg e w)).
Proof.
  intros (Hq & Ha & Hm & Hr & Hc) Hw. unfold try_process_finalization_claim. unfold mbind at 1, st_bind at 1.
  match goal with |- context [perform (fz_claim e) ?m w] => set (m1 := m) end.
  assert (H' : match perform (fz_claim e) m1 w with
               | (w', Ret j) => leased_within [] j (wk_db w') | (w', Raise _) => within [] [] w' end).
  { apply perform_leased; [done..| |done]. intros t s. by apply claim_candidate_within. }
  destruct (perform (fz_claim e) m1 w) as [w1 [[j|]|x]]; [|exact H'|exact H']. rewrite fst_bind_ret.
  unfold process_finalization_job. apply try_finally_releases; [done..|]. rewrite fst_bind_ret.
  by apply finalize_job_keeps.
Qed.

(** *** The turn of a slice *)

Definition sliced_within c (x : worker (B := B) (S := S) * res exn slice_outcome) : Prop :=
  match snd x with
  | Ret CancelRequested => within [] [] (fst x)
  | _ => within (wc_item_ids c) [] (fst x)
  end.

Lemma execution_keeps e j l ids bs w : quiet e -> within ids bs w ->
  within ids bs (fst (on_database (fun s => process_items j l (st_before e s)) w)).
Proof.
  intros Hq Hw. unfold on_database. pose proof (no_new_lease_keeps wid _ ids bs _ (quiet_execution j l) (quiet_before e _ _ w Hq Hw)) as H'.
  cbn beta in H'. by destruct (process_items j l (st_before e (wk_db w))).
Qed.

Lemma process_claim_within e c w : good_slice e -> within (wc_item_ids c) [] w -> sliced_within c (process_claim process_items cfg e c w).
Proof.
  intros (_ & _ & _ & _ & Hg & Hrc & Hcan & Hl & Hp & _) Hw. unfold process_claim. unfold mbind at 1, st_bind at 1.
  match goal with |- context [perform (sl_get_job e) ?m w] =>
    pose proof (perform_keeps (sl_get_job e) m _ [] w Hg (fun t i b s Hs => Hs) Hw) as H1;
    destruct (perform (sl_get_job e) m w) as [w1 [[j|]|x]] end; [|exact H1|exact H1]. cbn [fst] in H1.
  destruct (Job.cancel_requested_at j).
  - unfold mbind at 1, st_bind at 1.
    pose proof (release_items_keeps (sl_release_cancelled e) c _ _ w1 Hrc H1) as H2.
    pose proof (release_items_returned (sl_release_cancelled e) c [] w1) as H3.
    destruct (release_items cfg (sl_release_cancelled e) c w1) as [w2 [n|x]]; [|exact H2].
    specialize (H3 n Hrc H1 eq_refl). cbn [fst] in H2, H3.
    assert (Hk : forall t, db_keeps wid (mark_pending_items_cancelled t (Job.batch_id j))) by (intros t i b s; apply cancel_pending_keeps).
    pose proof (perform_keeps (sl_cancel e) _ _ [] w2 Hcan Hk H2) as H4.
    pose proof (perform_keeps (sl_cancel e) _ [] [] w2 Hcan Hk H3) as H5.
    unfold mbind, st_bind. by destruct (perform (sl_cancel e) _ w2) as [w3 [u|x]].
  - unfold mbind at 1, st_bind at 1.
    match goal with |- context [perform (sl_load e) ?m w1] =>
      pose proof (perform_keeps (sl_load e) m _ [] w1 Hl (fun t i b s Hs => Hs) H1) as H2;
      destruct (perform (sl_load e) m w1) as [w2 [l|x]] end; [|exact H2]. cbn [fst] in H2.
    destruct l as [|i l]; [exact H2|]. pose proof (execution_keeps (sl_process e) j (i :: l) _ _ w2 Hp H2) as H3.
    unfold mbind, st_bind. by destruct (on_database _ w2) as [w3 [u|x]].
Qed.

Lemma releasing_within e c m w : good_slice e -> sliced_within c (m w) -> within [] [] (fst (releasing cfg e c m w)).
Proof.
  intros (_ & _ & _ & _ & _ & _ & _ & _ & _ & Hr & Hc & _) Hm. unfold sliced_within in Hm. unfold releasing.
  destruct (m w) as [w1 [[]|x]]; cbn [fst snd] in Hm; try exact Hm;
    (pose proof (release_items_done (sl_release e) c [] w1 Hr Hc Hm) as H';
     by destruct (release_items cfg (sl_release e) c w1) as [w2 [n|y]]).
Qed.

Lemma refresh_row_leases now x : job_keeps wid (refresh_row now x).
Proof. by intros j. Qed.

Lemma refresh_jobs_keeps now l seen ids bs s :
  leases_within wid ids bs s -> leases_within wid ids bs (fst (refresh_jobs_after_claim now seen l s)).
Proof.
  revert seen s. induction l as [|b l IH]; intros seen s Hs; [exact Hs|]. cbn [refresh_jobs_after_claim].
  destruct (bool_decide _); [by apply IH|]. apply bind_keeps; [| |exact Hs].
  - intros s1. apply update_job_keeps, refresh_row_leases.
  - intros r s1 H1. rewrite fst_bind_ret. by apply IH.
Qed.

Lemma after_slice_keeps e c w : good_slice e -> within [] [] w ->
  within [] [] (fst (after_slice py_repr json_dumps sha256 cfg fcfg e c w)).
Proof.
  intros (_ & _ & _ & _ & _ & _ & _ & _ & _ & _ & _ & Hq & Hf) Hw. unfold after_slice. apply bind_keeps; [| |exact Hw].
  - intros w1. apply perform_keeps; [done|]. intros t i b s. apply refresh_jobs_keeps.
  - intros l w1 H1. destruct (existsb _ _); [|exact H1]. rewrite fst_bind_ret. by apply finalization_keeps.
Qed.

Lemma slice_keeps e c w : good_slice e -> claimed_within wid (Some c) (wk_db w) ->
  within [] [] (fst (process_slice py_repr json_dumps sha256 process_items cfg fcfg e c w)).
Proof.
  intros He Hw. unfold process_slice. unfold mbind at 1, st_bind at 1.
  pose proof (releasing_within e c _ w He (process_claim_within e c w He Hw)) as H1.
  destruct (releasing cfg e c _ w) as [w1 [o|x]]; [|exact H1]. destruct o; [exact H1|by apply after_slice_keeps..].
Qed.

Lemma slice_turn_keeps e w : good_slice e -> within [] [] w ->
  within [] [] (fst (process_once_work_slice digest loads sha256_hex py_repr json_dumps sha256 uniform process_items
                       cfg capacity fcfg e w)).
Proof.
  intros He Hw. pose proof He as (Hf & Hc & Hi & Hd & _). unfold process_once_work_slice. apply bind_keeps; [| |exact Hw].
  { intros w1 H1. destruct (wf_finalization_first cfg); [by apply finalization_keeps|exact H1]. }
  intros [|] w1 H1; [exact H1|]. unfold mbind at 1, st_bind at 1.
  pose proof (claim_slice_keeps (sl_claim e) w1 Hc H1) as H2.
  destruct (claim_next_work_slice _ _ _ _ _ _ _ w1) as [w2 [[c|]|x]]; [by apply slice_keeps| |exact H2].
  apply bind_keeps; [| |exact H2].
  - intros w3 H3. unfold no_slice. destruct (wf_finalization_first cfg); [exact H3|by apply finalization_keeps].
  - intros [|] w3 H3; [exact H3|]. rewrite fst_bind_ret. unfold empty_work_claim_reason, try_except.
    match goal with |- context [perform ?x ?m w3] =>
      pose proof (perform_keeps x m _ [] w3 Hd (fun t i b s Hs => Hs) H3) as H4; by destruct (perform x m w3) as [w4 [a|y]] end.
Qed.

(** *** The turn of a leased job *)

Definition jobs_held (bs : list string) w : Prop := jobs_within wid bs (wk_db w).

Lemma jobs_only bs bs' (f : worker (B := B) (S := S) -> worker (B := B) (S := S)) w :
  (forall ids, within ids bs w -> within ids bs' (f w)) -> jobs_held bs w -> jobs_held bs' (f w).
Proof.
  intros Hf Hw. refine (proj2 (Hf (map Item.item_id (items (wk_db w))) _)). split; [|exact Hw].
  apply Forall_forall. intros i Hi _. by apply list_elem_of_fmap_2.
Qed.

Lemma claimed_items_keep e b bs w : quiet (ce_statement e) -> jobs_held bs w ->
  jobs_held bs (fst (perform (ce_statement e)
    (fun now => claim_items now (ce_held_item e) b wid (claim_limit cfg) (wf_item_lease_seconds cfg)) w)).
Proof.
  intros [_ Hq] Hw. specialize (Hq bs _ Hw). unfold perform, on_database, with_fault, transaction, claim_items.
  by destruct (st_fault (ce_statement e)).
Qed.

Lemma leased_job_keeps e j bs w : good_fifo e -> jobs_held bs w ->
  jobs_held bs (fst (process_leased_job py_repr json_dumps sha256 process_items cfg fcfg e j w)).
Proof.
  intros (_ & _ & Hcan & Hi & Hp & Hr & Hm & _) Hw.
  assert (Hf : forall j w, jobs_held bs w -> jobs_held bs (fst (finalize_job py_repr json_dumps sha256 fcfg (ff_finalization e) j w))).
  { intros j1 w1. apply (jobs_only bs bs (fun w => fst (finalize_job _ _ _ _ _ j1 w))). intros ids. by apply finalize_job_keeps. }
  unfold process_leased_job. destruct (finalizing j); [rewrite fst_bind_ret; by apply Hf|].
  apply bind_keeps; [| |exact Hw].
  { intros w1 H1. destruct (Job.cancel_requested_at j); [|exact H1]. revert H1.
    apply (jobs_only bs bs (fun w => fst (perform (ff_cancel e) _ w))). intros ids. apply perform_keeps; [done|].
    intros t i b s. apply cancel_pending_keeps. }
  intros _ w1 H1. apply bind_keeps; [| |exact H1]; [intros w2; by apply claimed_items_keep|].
  intros l w2 H2. apply bind_keeps; [| |exact H2].
  { intros w3. apply (jobs_only bs bs (fun w => fst (on_database _ w))). intros ids. by apply execution_keeps. }
  intros _ w3 H3. apply bind_keeps; [| |exact H3].
  { intros w4. apply (jobs_only bs bs (fun w => fst (perform (ff_refresh e) _ w))). intros ids. apply perform_keeps; [done|].
    intros t i b s. apply update_job_keeps, refresh_row_leases. }
  intros [r|] w4 H4; [|exact H4]. destruct (finalizing r); [|exact H4]. rewrite fst_bind_ret. by apply Hf.
Qed.

Lemma fifo_turn_keeps e w : good_fifo e -> jobs_held [] w ->
  jobs_held [] (fst (process_once_job_fifo py_repr json_dumps sha256 process_items cfg fcfg e w)).
Proof.
  intros He Hw. pose proof He as (Hq & Ha & _ & _ & _ & _ & _ & Hr & Hc). unfold process_once_job_fifo.
  unfold mbind at 1, st_bind at 1.
  match goal with |- context [perform (ff_claim e) ?m w] => set (m1 := m) end.
  set (ids := map Item.item_id (items (st_before (ff_claim e) (wk_db w)))).
  pose proof (proj2 Hq [] _ Hw) as Hs.
  assert (H' : match perform (ff_claim e) m1 w with
               | (w', Ret j) => jobs_held (match j with Some j => [Job.batch_id j] | None => [] end) w'
               | (w', Raise _) => jobs_held [] w' end).
  { pose proof (perform_acknowledged (ff_claim e) m1 w Ha) as Hp. cbv zeta in Hp.
    assert (Hi : leases_within wid ids [] (st_before (ff_claim e) (wk_db w))).
    { split; [|exact Hs]. apply Forall_forall. intros i Hi _. by apply list_elem_of_fmap_2. }
    destruct (claim_candidate_within fifo_claim_order (fun j => live j && lease_free (st_now (ff_claim e)) j) (ff_held_job e)
      (claim_job (st_now (ff_claim e)) wid (wf_job_lease_seconds cfg)) ids _ (fun _ => eq_refl) Hi) as (j & Hj & Hl).
    destruct (perform (ff_claim e) m1 w) as [w1 [a|x]]; [|unfold jobs_held; by rewrite Hp].
    unfold m1, claim_next_job in Hp. rewrite Hp in Hj, Hl. injection Hj as <-. exact (proj2 Hl). }
  destruct (perform (ff_claim e) m1 w) as [w1 [[j|]|x]]; [|exact H'|exact H'].
  assert (H2 : jobs_held [Job.batch_id j] (fst (process_leased_job py_repr json_dumps sha256 process_items cfg fcfg e j w1)))
    by (by apply leased_job_keeps).
  unfold try_finally. destruct (process_leased_job _ _ _ _ _ _ e j w1) as [w2 r]. cbn [fst] in H2.
  pose proof (jobs_only [Job.batch_id j] [] (fun w => fst (release_lease cfg (ff_release e) (Job.batch_id j) w)) w2
    (fun ids => release_lease_done (ff_release e) (Job.batch_id j) ids [] w2 Hr Hc) H2) as H3. cbn beta in H3.
  by destruct (release_lease cfg (ff_release e) (Job.batch_id j) w2) as [w3 [[]|x]].
Qed.

(** C3: a round of the worker's loop leaves no lease behind, whether the turn
    returns or raises, and at whatever point: when the worker held no item and
    no job before it, then after a work-slice round (claim of a slice from a
    model group, a tenant's flow or the queue, execution of the items, release,
    finalisation of a job) it holds none, and after a round of the older mode
    it holds no job.  Assumed: only this worker leases in its name, a claim that
    was committed was acknowledged, and the releases are committed. *)
Theorem turn_leaves_no_lease slice fifo w :
  let w' := fst (run_once digest loads sha256_hex py_repr json_dumps sha256 uniform process_items cfg capacity fcfg slice fifo w) in
  if Modes.scheduler_mode_uses_work_slice (active_scheduler_mode cfg)
  then good_slice slice -> within [] [] w -> within [] [] w'
  else good_fifo fifo -> jobs_held [] w -> jobs_held [] w'.
Proof.
  cbv zeta. unfold run_once, process_once.
  destruct (Modes.scheduler_mode_uses_work_slice _); intros He Hw.
  - pose proof (slice_turn_keeps slice w He Hw) as H'.
    destruct (process_once_work_slice _ _ _ _ _ _ _ _ _ _ _ slice w) as [w1 [[|]|x]]; cbn [fst] in *; [done| |done].
    by destruct (next_idle_poll_delay_seconds _ _ _).
  - pose proof (fifo_turn_keeps fifo w He Hw) as H'.
    destruct (process_once_job_fifo _ _ _ _ _ _ fifo w) as [w1 [[|]|x]]; cbn [fst] in *; [done| |done].
    by destruct (next_idle_poll_delay_seconds _ _ _).
Qed.
End turn_leases.

(** ** From the snapshot to the claim *)

Section selected.
Context {B : Type} {backend : DeploymentStateBackend B} {S : Type} {exec : RedisExec S} {repr : PyRepr}.
Context (digest : string -> string) (loads : string -> option pyval).
Context (cfg : worker_config) (ccfg : BatchModelCapacityConfig).

(** C22: the claim for a selected model group keeps to the capacity that was
    computed for it, however the queue has changed since: the selection's
    snapshot may be of any earlier state [s0], the claim locks the group and
    counts again in the state [s] it finds.  It lifts the group's items in flight
    above the deployments' limit only if they were above it already, and its work
    units above what was in flight plus the tokens left only if they were. *)
Theorem selected_claim_fits now0 monotonic s0 max_items max_work_units (w w' : capacity_world (B := B) (S := S)) l c
    now uuid4 held_job held_item s :
  select_model_groups digest loads ccfg now0 monotonic s0 max_items max_work_units w = (w', Ret l) -> c ∈ l ->
  unique_keys (items s) -> stripped (Some (sp_model_group (cl_snapshot c))) <> "" ->
  let x := cl_snapshot c in
  let r := selection_request cfg c in
  let group := stripped (capacity_model_group r) in
  let tier := normalized_capacity_service_tier r in
  let s' := fst (claim_next_work now true uuid4 held_job held_item r s) in
  in_flight_items now group tier s' <= Z.max (sp_max_in_flight_items x) (in_flight_items now group tier s) /\
  (forall t, sp_tpm_remaining x = Some t ->
     in_flight_work_units now group tier s' <=
     Z.max (sp_in_flight_work_units x + t) (in_flight_work_units now group tier s)).
Proof.
  intros E Hc U Hg x r group tier s'. apply selected_snapshots in E. rewrite Forall_forall in E.
  destruct (E c Hc) as (He & Hok & Hi & Hw). destruct (Hok He) as (_ & _ & Ha & Hu & Hm & _ & _ & _ & Ht).
  destruct (capacity_respected_spec now uuid4 held_job held_item r s
    (Z.max 0 (sp_in_flight_items x) + Z.max 0 (sp_available_in_flight_items x)) U) as (H1 & H2 & _);
    [reflexivity|exact Hg|]. fold group tier s' x in H1, H2, Hi, Hw, Ha, Hm, Ht.
  split; [unfold x in *; lia|]. intros t Et. specialize (Ht t Et). specialize (H2 (Z.max 0 (sp_in_flight_work_units x) + Z.max 0 t)).
  assert (capacity_max_in_flight_work_units r = Some (Z.max 0 (sp_in_flight_work_units x) + Z.max 0 t)) as Hr.
  { unfold r, selection_request. cbn. fold x. by rewrite Et. }
  specialize (H2 Hr eq_refl). unfold x in *. lia.
Qed.
End selected.

(** ** Examples *)

#[local] Existing Instances no_server no_rendering no_repr.

(** An execution that completes every item it is given. *)
Definition sample_execution (_ : Job.batch_job) (l : list Item.batch_item) : st db exn unit := fun s =>
  (on_items (update_where (id_in (map Item.item_id l))
     (fun i => Item.set_status BatchItemStatus.COMPLETED (Item.set_response_body (Some sample_embedding) i))) s, Ret tt).

Definition at_time (t : Z) : statement := mkStatement t (fun s => s) NoFault.
Definition claim_at (t : Z) : claim_env := mkClaimEnv (at_time t) true "claim" nothing_held nothing_held.
Definition selection_at (t : Z) : selection_env :=
  mkSelectionEnv t (mkFairEnv 0 0 (at_time t) true (claim_at t)) (claim_at t) (at_time t).
Definition finalization_at (t : Z) : finalization_env :=
  mkFinalizationEnv (at_time t) nothing_held t (sample_surroundings NoFault NoFault) (mkRetryFaults NoFault NoFault NoFault)
    sample_out sample_err (at_time t).
Definition sample_slice : slice_env :=
  mkSliceEnv (finalization_at (10 * usec)) (mkSliceClaimEnv (at_time (11 * usec)) 0 (fun _ => selection_at (11 * usec)) (claim_at (12 * usec)))
    (finalization_at (13 * usec)) (claim_at (13 * usec)) (at_time (13 * usec)) (at_time (13 * usec)) (at_time (13 * usec))
    (at_time (14 * usec)) (at_time (15 * usec)) (at_time (16 * usec)) (at_time (17 * usec)) (finalization_at (18 * usec)).
Definition sample_fifo : fifo_env :=
  mkFifoEnv (at_time (10 * usec)) nothing_held (at_time (11 * usec)) (claim_at (12 * usec)) (at_time (13 * usec))
    (at_time (14 * usec)) (finalization_at (15 * usec)) (at_time (16 * usec)).

Definition sample_worker : worker (B := backend unit) (S := unit) :=
  mkWorker 3 (mkBackoff ∅ ∅) sample_capacity (mkWorld promoted ∅ ∅).

(** A round: the slice it claims, what it leaves when the execution does
    [execute], and the pause. *)
Definition sample_round (execute : Job.batch_job -> list Item.batch_item -> st db exn unit)
    : worker (B := backend unit) (S := unit) * Q :=
  run_once (fun s => s) (fun _ => None) (fun s => s) sample_str sample_render (fun _ => "sum") (fun a _ => a) execute
    sample_worker_config (Some sample_capacity_config) sample_finalize_config sample_slice sample_fifo sample_worker.

(** The batch is executed, finalised and published in one round. *)
Example round_view :
  job_view "batch" (wk_db (fst (sample_round sample_execution))) = Some (BatchJobStatus.COMPLETED, 2, 2, 0, Some "f1") /\
  wk_idle_backoff_attempts (fst (sample_round sample_execution)) = 0.
Proof. vm_compute. split; reflexivity. Qed.

(** An execution that fails: the slice is released at once, the idle counter
    stays. *)
Example failed_round_view :
  let w' := fst (sample_round (fun _ _ => raise EAsyncioTimeout)) in
  map (fun i => (Item.status i, Item.locked_by i)) (items (wk_db w')) =
    [(BatchItemStatus.PENDING, None); (BatchItemStatus.PENDING, None)] /\
  wk_idle_backoff_attempts w' = 3.
Proof. vm_compute. split; reflexivity. Qed.

Lemma at_time_quiet t : quiet sample_worker_config (at_time t).
Proof. by split. Qed.

Lemma finalization_at_good t : good_finalization sample_worker_config (finalization_at t).
Proof. unfold good_finalization. split_and!; [apply at_time_quiet|by intros x|by split|apply at_time_quiet|done]. Qed.

Lemma sample_slice_good : good_slice sample_worker_config sample_slice.
Proof.
  unfold good_slice. split_and!; try apply at_time_quiet; try apply finalization_at_good; try done.
Qed.

Lemma execution_quiet j l : no_new_lease "w" (fun s => fst (sample_execution j l s)).
Proof.
  assert (Hk : item_keeps "w" (fun i => Item.set_status BatchItemStatus.COMPLETED (Item.set_response_body (Some sample_embedding) i)))
    by done.
  split; [|done]. intros ids s Hs. unfold items_within in *. rewrite Forall_forall in *. cbn [sample_execution fst items on_items].
  intros i (i0 & Hi & ->)%elem_update Hl. destruct (id_in _ i0); [|by apply Hs]. done.
Qed.

Lemma turn_leaves_no_lease_witness :
  leases_within "w" [] [] (wk_db (fst (sample_round sample_execution))).
Proof.
  assert (H : leases_within "w" [] [] (wk_db sample_worker)).
  { split; (apply Forall_forall; intros i Hi%list_elem_of_In; revert i Hi).
    - assert (forallb (fun i => negb (holds_item "w" i)) (items (wk_db sample_worker)) = true) as H by (vm_compute; reflexivity).
      rewrite forallb_forall in H. intros i Hi Hl. specialize (H i Hi). by rewrite Hl in H.
    - assert (forallb (fun j => negb (locked_for "w" j)) (jobs (wk_db sample_worker)) = true) as H by (vm_compute; reflexivity).
      rewrite forallb_forall in H. intros j Hj Hl. specialize (H j Hj). by rewrite Hl in H. }
  exact (turn_leaves_no_lease (fun s => s) (fun _ => None) (fun s => s) sample_str sample_render (fun _ => "sum") (fun a _ => a)
    sample_execution sample_worker_config (Some sample_capacity_config) sample_finalize_config
    execution_quiet sample_slice sample_fifo sample_worker sample_slice_good H).
Defined.

(** Three slots, two requests a minute: the claim takes two of the three items. *)
Lemma selected_claim_fits_witness :
  exists c, snd sample_selections = Ret [c] /\
    let x := cl_snapshot c in
    let r := selection_request sample_worker_config c in
    let s' := fst (claim_next_work (9 * usec) true "claim" nothing_held nothing_held r sample_slices) in
    let n := in_flight_items (9 * usec) (stripped (capacity_model_group r)) (normalized_capacity_service_tier r) in
    n s' = 2 /\ n s' <= Z.max (sp_max_in_flight_items x) (n sample_slices).
Proof.
  destruct (snd sample_selections) as [[|c [|? ?]]|e] eqn:E; try (exfalso; vm_compute in E; discriminate E).
  exists c. split; [reflexivity|]. cbv zeta. split.
  - vm_compute in E. injection E as <-. vm_compute. reflexivity.
  - destruct (selected_claim_fits (B := backend unit) (S := unit) (fun s => s) (fun _ => None) sample_worker_config
      sample_capacity_config (2 * usec) 0 sample_slices 20 80 sample_capacity (fst sample_selections) [c] c
      (9 * usec) "claim" nothing_held nothing_held sample_slices) as [H _]; [| | | |exact H].
    + unfold sample_selections in E |- *. destruct (select_model_groups _ _ _ _ _ _ _ _ _). cbn in E. by rewrite E.
    + by left.
    + exact sample_slices_ok.
    + vm_compute in E. injection E as <-. vm_compute. discriminate.
Defined.
