(* ===== verification/StorageBackends.v ===== *)
(** * Storage backends: src/batch/storage.py

    What an artifact storage promises to its clients, as a class, with the
    local and the S3 backend as its instances, and the listing of old
    artifacts of both. *)

From S2P Require Import Prelude PyVal Errors BatchDb Calendar Budget BatchStorage.

(** ** The interface *)

(** [BatchArtifactStorage]: a storage [S] whose operations raise [E].  The key
    and the name of the temporary file are drawn by the caller; an error the
    operation meets is an argument. *)
Class ArtifactStorage (S E : Type) : Type := {
  backend_name : S -> string;
  put_chunks : S -> disk E -> string -> string -> stream bytes E -> st files E (string * Z * string);
  iter_bytes : S -> option E -> nat -> string -> files -> res E (list bytes);
  remove : S -> option E -> string -> st files E unit
}.

(** A key can be written under: it is new, and so is the temporary name. *)
Definition new_key (key temp : string) (fs : files) : Prop :=
  key <> "" /\ fs !! key = None /\ fs !! temp = None /\ key <> temp.

Class ArtifactStorageLaws (S E : Type) (sha256 : bytes -> string) (missing : string -> E) `{!ArtifactStorage S E} : Prop := {
  put_all_or_nothing (s : S) d key temp chunks fs : new_key key temp fs ->
    let '(fs', r) := put_chunks s d key temp chunks fs in
    let data := read_bytes (yielded chunks) in
    match r with
    | Raise _ => fs' = fs
    | Ret (k, size, checksum) =>
        ended chunks = None /\ size = Z.of_nat (length data) /\ checksum = sha256 data /\
        match data with [] => k = "" /\ fs' = fs | _ => k = key /\ fs' = <[key := data]> fs end
    end;
  put_succeeds (s : S) d key temp chunks fs : (forall n, write_error d n = None) -> finish_error d = None ->
    ended chunks = None -> exists k size checksum, snd (put_chunks s d key temp chunks fs) = Ret (k, size, checksum);
  bytes_of (s : S) n key fs : (0 < n)%nat ->
    match fs !! key with
    | Some data => exists chunks, iter_bytes s None n key fs = Ret chunks /\ read_bytes chunks = data
    | None => iter_bytes s None n key fs = Raise (missing key)
    end;
  remove_deletes (s : S) key fs : remove s None key fs = (delete key fs, Ret tt);
  remove_fails (s : S) e key fs : remove s (Some e) key fs = (fs, Raise e)
}.

(** [read(chunk_size)] until the end of the file. *)
Fixpoint read_chunks (fuel n : nat) (b : bytes) : list bytes :=
  match fuel, b with
  | S f, _ :: _ => take n b :: read_chunks f n (drop n b)
  | _, _ => []
  end.
Definition chunks_of (n : nat) (b : bytes) : list bytes := read_chunks (length b) n b.

Lemma read_chunks_concat fuel n b : (0 < n)%nat -> (length b <= fuel)%nat -> read_bytes (read_chunks fuel n b) = b.
Proof.
  intros Hn. revert b. induction fuel as [|f IH]; intros [|a b] Hb; try done; [simpl in Hb; lia|].
  change (read_chunks (S f) n (a :: b)) with (take n (a :: b) :: read_chunks f n (drop n (a :: b))).
  change (read_bytes (?x :: ?l)) with (x ++ read_bytes l).
  rewrite IH; [apply take_drop|]. rewrite length_drop. simpl in *. lia.
Qed.

Lemma read_chunks_of n b : (0 < n)%nat -> read_bytes (chunks_of n b) = b.
Proof. intros Hn. by apply read_chunks_concat. Qed.

Section backends.
Context {E : Type} (sha256 : bytes -> string) (missing : string -> E).

(** ** The local backend *)

Record local_storage : Type := mkLocal { base_dir : string }.

Definition local_iter_bytes (fault : option E) (chunk_size : nat) (key : string) (fs : files) : res E (list bytes) :=
  match fault, fs !! key with
  | Some e, _ => Raise e
  | None, None => Raise (missing key)
  | None, Some data => Ret (chunks_of chunk_size data)
  end.

(** [if target.exists(): unlink()] *)
Definition local_delete (fault : option E) (key : string) : st files E unit := fun fs =>
  match fault with Some e => (fs, Raise e) | None => (delete_file_at key fs, Ret tt) end.

#[global] Instance local_backend : ArtifactStorage local_storage E := {
  backend_name _ := "local";
  put_chunks _ := write_chunks sha256;
  iter_bytes _ := local_iter_bytes;
  remove _ := local_delete
}.

Lemma write_loop_no_error (d : disk E) temp chunks n data fs : (forall i, write_error d i = None) ->
  exists data', snd (write_loop d temp chunks n data fs) = Ret data'.
Proof.
  intros Hw. revert n data fs. induction chunks as [|c chunks IH]; intros n data fs; cbn [write_loop]; [by eexists|].
  destruct c as [|a c]; [apply IH|]. rewrite Hw. apply IH.
Qed.

Lemma write_chunks_succeeds (d : disk E) key temp chunks fs : (forall n, write_error d n = None) ->
  finish_error d = None -> ended chunks = None ->
  exists k size checksum, snd (write_chunks sha256 d key temp chunks fs) = Ret (k, size, checksum).
Proof.
  intros Hw Hf He. unfold write_chunks, mbind, st_bind.
  destruct (write_loop_no_error d temp (yielded chunks) 0 None fs Hw) as [data' Hd].
  destruct (write_loop d temp (yielded chunks) 0 None fs) as [fs1 r]. cbn [snd] in Hd. subst r. rewrite He, Hf.
  destruct data'; by repeat eexists.
Qed.

#[global] Instance local_laws : ArtifactStorageLaws local_storage E sha256 missing.
Proof.
  constructor.
  - intros s d key temp chunks fs (_ & _ & Ht & Hne). by apply write_chunks_spec.
  - intros s d key temp chunks fs. apply write_chunks_succeeds.
  - intros s n key fs Hn. cbn. unfold local_iter_bytes. destruct (fs !! key) as [data|]; [|done].
    exists (chunks_of n data). split; [done|by apply read_chunks_of].
  - done.
  - done.
Qed.

(** ** The S3 backend *)

Record s3_storage : Type := mkS3 { bucket : string; s3_prefix : string }.

(** [_storage_key] on the sharded key. *)
Definition s3_storage_key (s : s3_storage) (relative : string) : string :=
  if Str.is_empty (s3_prefix s) then relative else s3_prefix s +:+ "/" +:+ relative.

(** The spool, filled from the generator. *)
Fixpoint spool_chunks (d : disk E) (chunks : list bytes) (n : nat) (data : bytes) : res E bytes :=
  match chunks with
  | [] => Ret data
  | [] :: chunks' => spool_chunks d chunks' n data
  | chunk :: chunks' =>
    match write_error d n with
    | Some e => Raise e
    | None => spool_chunks d chunks' (n + 1) (data ++ chunk)
    end
  end.

(** [S3BatchArtifactStorage.write_chunks]: the object appears when the upload
    ends. *)
Definition s3_write_chunks (d : disk E) (key : string) (chunks : stream bytes E) : st files E (string * Z * string) := fun fs =>
  match spool_chunks d (yielded chunks) 0 [] with
  | Raise e => (fs, Raise e)
  | Ret data =>
    match ended chunks with
    | Some e => (fs, Raise e)
    | None =>
      match data with
      | [] => (fs, Ret ("", 0, sha256 []))
      | _ =>
        match finish_error d with
        | Some e => (fs, Raise e)
        | None => (<[key := data]> fs, Ret (key, Z.of_nat (length data), sha256 data))
        end
      end
    end
  end.

#[global] Instance s3_backend : ArtifactStorage s3_storage E := {
  backend_name _ := "s3";
  put_chunks _ d key _ := s3_write_chunks d key;
  iter_bytes _ := local_iter_bytes;
  remove _ := local_delete
}.

Lemma spool_chunks_data d chunks n data data' : spool_chunks d chunks n data = Ret data' -> data' = data ++ read_bytes chunks.
Proof.
  revert n data. induction chunks as [|[|a c] chunks IH]; intros n data; cbn [spool_chunks].
  - intros [= <-]. unfold read_bytes. cbn. by rewrite app_nil_r.
  - apply IH.
  - destruct (write_error d n); [done|]. intros H. rewrite (IH _ _ H). unfold read_bytes. cbn [concat]. by rewrite <- app_assoc.
Qed.

Lemma spool_chunks_no_error d chunks n data : (forall i, write_error d i = None) ->
  exists data', spool_chunks d chunks n data = Ret data'.
Proof.
  intros Hw. revert n data. induction chunks as [|[|a c] chunks IH]; intros n data; cbn [spool_chunks]; [by eexists|apply IH|].
  rewrite Hw. apply IH.
Qed.

#[global] Instance s3_laws : ArtifactStorageLaws s3_storage E sha256 missing.
Proof.
  constructor.
  - intros s d key temp chunks fs _. cbn. unfold s3_write_chunks.
    destruct (spool_chunks d (yielded chunks) 0 []) as [data|e] eqn:Hd; [|done].
    apply spool_chunks_data in Hd. cbn [app] in Hd. subst data. destruct (ended chunks); [done|].
    destruct (read_bytes (yielded chunks)); [done|]. by destruct (finish_error d).
  - intros s d key temp chunks fs Hw Hf He. cbn. unfold s3_write_chunks.
    destruct (spool_chunks_no_error d (yielded chunks) 0 [] Hw) as [data ->]. rewrite He, Hf.
    destruct data; by repeat eexists.
  - intros s n key fs Hn. cbn. unfold local_iter_bytes. destruct (fs !! key) as [data|]; [|done].
    exists (chunks_of n data). split; [done|by apply read_chunks_of].
  - done.
  - done.
Qed.

(** A gateway configured with both. *)
#[global] Instance sum_backend `{!ArtifactStorage A E, !ArtifactStorage B E} : ArtifactStorage (A + B) E := {
  backend_name s := match s with inl a => backend_name a | inr b => backend_name b end;
  put_chunks s := match s with inl a => put_chunks a | inr b => put_chunks b end;
  iter_bytes s := match s with inl a => iter_bytes a | inr b => iter_bytes b end;
  remove s := match s with inl a => remove a | inr b => remove b end
}.

#[global] Instance sum_laws `{HA : !ArtifactStorage A E, HB : !ArtifactStorage B E,
    !ArtifactStorageLaws A E sha256 missing, !ArtifactStorageLaws B E sha256 missing} :
  ArtifactStorageLaws (A + B) E sha256 missing.
Proof.
  constructor.
  - intros [a|b]; cbn; apply put_all_or_nothing.
  - intros [a|b]; cbn; apply put_succeeds.
  - intros [a|b]; cbn; apply bytes_of.
  - intros [a|b]; cbn; apply remove_deletes.
  - intros [a|b]; cbn; apply remove_fails.
Qed.
End backends.

(** ** Listing old artifacts *)

(** [BatchArtifactListEntry] *)
Record list_entry : Type := mkListEntry { le_storage_key : string; le_modified_at : datetime }.

(** [sort(key=lambda entry: (entry.modified_at, entry.storage_key))] *)
Definition entry_le (x y : list_entry) : bool :=
  match Z.compare (to_usec (le_modified_at x)) (to_usec (le_modified_at y)) with
  | Lt => true
  | Gt => false
  | Eq => String.leb (le_storage_key x) (le_storage_key y)
  end.

Definition older (cutoff t : datetime) : bool := to_usec t <? to_usec cutoff.

(** [s.strip("/")] *)
Definition slash (a : ascii) : bool := Ascii.eqb a "/".
Definition strip_slashes (s : string) : string :=
  string_of_list_ascii (reverse (Str.drop_while slash (reverse (Str.drop_while slash (list_ascii_of_string s))))).

Definition first_entries (limit : Z) (l : list list_entry) : list list_entry := take (Z.to_nat limit) (order_by entry_le l).

(** *** Local: a snapshot of the directory *)

Inductive node : Type :=
  | File (mtime : datetime)
  | Dir (mtime : datetime) (children : list (string * node)).
Definition mtime (n : node) : datetime := match n with File t => t | Dir t _ => t end.

(** [sorted(path.iterdir())] *)
Definition sorted_children (l : list (string * node)) : list (string * node) :=
  order_by (fun x y => String.leb (fst x) (fst y)) l.

Definition dirs (l : list (string * node)) : list (string * list (string * node)) :=
  omap (fun '(name, n) => match n with Dir _ l => Some (name, l) | File _ => None end) (sorted_children l).

(** [path.suffix], reversed names. *)
Fixpoint suffix_rev (l after : list ascii) : list ascii :=
  match l with
  | [] => []
  | a :: l' => if Ascii.eqb a "."
               then match l', after with [], _ | _, [] => [] | _, _ => a :: after end
               else suffix_rev l' (a :: after)
  end.
Definition path_suffix (name : string) : string :=
  string_of_list_ascii (suffix_rev (reverse (list_ascii_of_string name)) []).

(** A number of two digits between [lo] and [hi], or of one digit from [lo] on. *)
Definition one_or_two (lo hi : Z) (l : list ascii) : list (Z * list ascii) :=
  match l with
  | a :: c :: l' =>
    if is_digit a && is_digit c
    then let n := digit_val a * 10 + digit_val c in if (lo <=? n) && (n <=? hi) then [(n, l')] else []
    else []
  | _ => []
  end ++
  match l with a :: l' => if is_digit a && (lo <=? digit_val a) then [(digit_val a, l')] else [] | [] => [] end.

(** [%d] also takes a blank and a digit. *)
Definition day_field (l : list ascii) : list (Z * list ascii) :=
  one_or_two 1 31 l ++
  match l with
  | a :: c :: l' => if Ascii.eqb a " " && is_digit c && (1 <=? digit_val c) then [(digit_val c, l')] else []
  | _ => []
  end.

Definition literal (c : ascii) (l : list ascii) : list (list ascii) :=
  match l with a :: l' => if Ascii.eqb (Str.lower_ascii a) (Str.lower_ascii c) then [l'] else [] | [] => [] end.

Definition year_field (l : list ascii) : list (Z * list ascii) := match take_digits 4 0 l with Some r => [r] | None => [] end.

(** [%f]: one to six digits. *)
Fixpoint micros (k : nat) (weight acc : Z) (l : list ascii) : Z * list ascii :=
  match k, l with
  | S k', a :: l' => if is_digit a then micros k' (weight / 10) (acc + digit_val a * weight) l' else (acc, l)
  | _, _ => (acc, l)
  end.
Definition micros_field (l : list ascii) : list (Z * list ascii) :=
  match l with a :: _ => if is_digit a then [micros 6 100000 0 l] else [] | [] => [] end.

(** [datetime.strptime(s, "%Y%m%dT%H%M%S%fZ")]: the first match of the pattern
    must be the whole text and make a date. *)
Definition strptime_compact (s : list ascii) : option datetime :=
  let matches :=
    '(y, l) ← year_field s; '(m, l) ← one_or_two 1 12 l; '(d, l) ← day_field l; l ← literal "T" l;
    '(h, l) ← one_or_two 0 23 l; '(mi, l) ← one_or_two 0 59 l; '(sec, l) ← one_or_two 0 61 l;
    '(f, l) ← micros_field l; l ← literal "Z" l;
    mret (y, m, d, h, mi, sec, f, l) in
  match matches with
  | (y, m, d, h, mi, sec, f, []) :: _ =>
    if date_fields_ok y m d && (sec <? 60)
    then Some (mkDatetime y m d (((h * 60 + mi) * 60 + sec) * usec + f)) else None
  | _ => None
  end.

Fixpoint until_dash (l : list ascii) : list ascii :=
  match l with a :: l' => if Ascii.eqb a "-" then [] else a :: until_dash l' | [] => [] end.

Definition parse_sharded_filename_timestamp (filename : string) : option datetime :=
  strptime_compact (until_dash (list_ascii_of_string filename)).

(** [date(int(year), int(month), int(day))]; a number too large for a C int
    raises OverflowError, which is not caught. *)
Definition c_int (n : Z) : bool := (- 2 ^ 31 <=? n) && (n <? 2 ^ 31).
Definition parse_sharded_day (year month day : string) : res pyexc (option (Z * Z * Z)) :=
  match int_of_string year, int_of_string month, int_of_string day with
  | Ret y, Ret m, Ret d =>
    if negb (c_int y && c_int m && c_int d) then Raise OverflowError
    else Ret (if date_fields_ok y m d then Some (y, m, d) else None)
  | _, _, _ => Ret None
  end.

(** [day_value > cutoff.date()] *)
Definition date_after (x : Z * Z * Z) (cutoff : datetime) : bool :=
  let '(y, m, d) := x in
  (dt_year cutoff <? y)
  || (y =? dt_year cutoff) && ((dt_month cutoff <? m) || (m =? dt_month cutoff) && (dt_day cutoff <? d)).

Definition artifact_file (name : string) : bool :=
  negb (Str.startswith name ".tmp-") && String.eqb (path_suffix name) ".jsonl".

Fixpoint scan_day_loop (cutoff : datetime) (remaining : Z) (path : string) (children : list (string * node))
    (matches : list list_entry) : list list_entry :=
  match children with
  | [] => matches
  | (name, n) :: rest =>
    let add t :=
      let matches' := matches ++ [mkListEntry (path +:+ "/" +:+ name) t] in
      if remaining <=? Z.of_nat (length matches') then matches'
      else scan_day_loop cutoff remaining path rest matches' in
    if negb (artifact_file name) then scan_day_loop cutoff remaining path rest matches
    else match parse_sharded_filename_timestamp name with
         | Some t => if older cutoff t then add t else matches
         | None => if older cutoff (mtime n) then add (mtime n) else scan_day_loop cutoff remaining path rest matches
         end
  end.
Definition scan_day (cutoff : datetime) (remaining : Z) (path : string) (children : list (string * node)) : list list_entry :=
  first_entries remaining (scan_day_loop cutoff remaining path (sorted_children children) []).

Definition scan_legacy (cutoff : datetime) (remaining : Z) (path : string) (children : list (string * node)) : list list_entry :=
  first_entries remaining
    (omap (fun '(name, n) =>
             match n with
             | File t => if older cutoff t then Some (mkListEntry (path +:+ "/" +:+ name) t) else None
             | Dir _ _ => None
             end) (sorted_children children)).

(** The days in the order of the three loops. *)
Definition day_dirs (root : list (string * node)) : list (string * string * string * list (string * node)) :=
  '(y, ly) ← dirs root; '(m, lm) ← dirs ly; '(d, ld) ← dirs lm; mret (y, m, d, ld).

(** The loop: the entries, and whether [_scan] returned. *)
Fixpoint scan_days (cutoff : datetime) (bounded_limit : Z) (path : string)
    (days : list (string * string * string * list (string * node))) (entries : list list_entry)
    : res pyexc (list list_entry * bool) :=
  match days with
  | [] => Ret (entries, false)
  | (y, m, d, children) :: days' =>
    match parse_sharded_day y m d with
    | Raise e => Raise e
    | Ret None => scan_days cutoff bounded_limit path days' entries
    | Ret (Some day) =>
      if date_after day cutoff then Ret (entries, false)
      else
        let remaining := bounded_limit - Z.of_nat (length entries) in
        if remaining <=? 0 then Ret (entries, true)
        else
          let entries := entries ++ scan_day cutoff remaining (path +:+ "/" +:+ y +:+ "/" +:+ m +:+ "/" +:+ d) children in
          if bounded_limit <=? Z.of_nat (length entries) then Ret (entries, true)
          else scan_days cutoff bounded_limit path days' entries
    end
  end.

(** [root] is the directory of the prefix, if it exists. *)
Definition local_list_entries (prefix : string) (cutoff : datetime) (limit : Z) (root : option (list (string * node)))
    : res pyexc (list list_entry) :=
  let path := strip_slashes prefix in
  let bounded_limit := Z.max 1 limit in
  match root with
  | None => Ret []
  | Some root =>
    match scan_days cutoff bounded_limit path (day_dirs root) [] with
    | Raise e => Raise e
    | Ret (entries, returned) =>
      let entries :=
        if negb returned && (Z.of_nat (length entries) <? bounded_limit)
        then entries ++ scan_legacy cutoff (bounded_limit - Z.of_nat (length entries)) path root
        else entries in
      Ret (take (Z.to_nat bounded_limit) entries)
    end
  end.

(** *** S3: the pages of [list_objects_v2] *)

(** One response: the keys with what [LastModified] is, [IsTruncated], and
    [NextContinuationToken]. *)
Record s3_page : Type := mkPage {
  pg_contents : list (string * raw_datetime);
  pg_truncated : bool;
  pg_token : string
}.

(** [LastModified] in UTC; [None] skips the entry. *)
Definition last_modified (v : raw_datetime) : res pyexc (option datetime) :=
  match v with
  | RawNaive _ | RawAware _ _ => astimezone_utc v
  | RawStr s =>
    match fromisoformat (string_of_list_ascii (replace_Z (list_ascii_of_string s))) with
    | Some r => astimezone_utc r
    | None => Raise ValueError
    end
  | RawNone | RawOther => Ret None
  end.

Fixpoint s3_contents (cutoff : datetime) (bounded_limit : Z) (contents : list (string * raw_datetime))
    (matches : list list_entry) : res pyexc (list list_entry) :=
  match contents with
  | [] => Ret matches
  | (key, v) :: rest =>
    if Str.is_empty key then s3_contents cutoff bounded_limit rest matches
    else
      t ← last_modified v;
      match (t : option datetime) with
      | None => s3_contents cutoff bounded_limit rest matches
      | Some t =>
        if negb (older cutoff t) then s3_contents cutoff bounded_limit rest matches
        else let matches := matches ++ [mkListEntry key t] in
             if bounded_limit <=? Z.of_nat (length matches) then Ret matches
             else s3_contents cutoff bounded_limit rest matches
      end
  end.

(** The [while] loop over the responses the service gives, in order; [None]: more
    pages are asked for than given. *)
Fixpoint s3_pages (cutoff : datetime) (bounded_limit : Z) (pages : list s3_page) (matches : list list_entry)
    : option (res pyexc (list list_entry)) :=
  if bounded_limit <=? Z.of_nat (length matches) then Some (Ret matches)
  else match pages with
       | [] => None
       | page :: pages' =>
         match s3_contents cutoff bounded_limit (pg_contents page) matches with
         | Raise e => Some (Raise e)
         | Ret matches =>
           if (bounded_limit <=? Z.of_nat (length matches)) || negb (pg_truncated page) || Str.is_empty (pg_token page)
           then Some (Ret matches)
           else s3_pages cutoff bounded_limit pages' matches
         end
       end.

(** The prefix the objects are asked for. *)
Definition s3_effective_prefix (s : s3_storage) (prefix : string) : string :=
  let normalized := strip_slashes prefix in
  if Str.is_empty (s3_prefix s) then normalized
  else if Str.startswith normalized (s3_prefix s +:+ "/") || String.eqb normalized (s3_prefix s) then normalized
  else if Str.is_empty normalized then s3_prefix s else s3_prefix s +:+ "/" +:+ normalized.

Definition s3_list_entries (cutoff : datetime) (limit : Z) (pages : list s3_page) : option (res pyexc (list list_entry)) :=
  let bounded_limit := Z.max 1 limit in
  match s3_pages cutoff bounded_limit pages [] with
  | Some (Ret matches) => Some (Ret (first_entries bounded_limit matches))
  | other => other
  end.

(** ** What is listed is old *)

Definition all_older (cutoff : datetime) (l : list list_entry) : Prop :=
  Forall (fun e => older cutoff (le_modified_at e) = true) l.

Lemma first_entries_older cutoff n l : all_older cutoff l -> all_older cutoff (first_entries n l).
Proof.
  unfold all_older, first_entries. intros H. apply Forall_take. by rewrite order_by_perm.
Qed.

Lemma first_entries_length n l : (length (first_entries n l) <= Z.to_nat n)%nat.
Proof. unfold first_entries. rewrite length_take. lia. Qed.

Lemma scan_day_loop_older cutoff remaining path children matches : all_older cutoff matches ->
  all_older cutoff (scan_day_loop cutoff remaining path children matches).
Proof.
  revert matches. induction children as [|[name n] rest IH]; intros matches H; cbn [scan_day_loop]; [done|].
  assert (Hadd : forall t, older cutoff t = true -> all_older cutoff (matches ++ [mkListEntry (path +:+ "/" +:+ name) t]))
    by (intros t Ht; apply Forall_app_2; [done|by constructor]).
  destruct (negb (artifact_file name)); [by apply IH|].
  destruct (parse_sharded_filename_timestamp name) as [t|].
  - destruct (older cutoff t) eqn:Et; [|done]. destruct (_ <=? _); [by apply Hadd|by apply IH, Hadd].
  - destruct (older cutoff (mtime n)) eqn:Et; [|by apply IH]. destruct (_ <=? _); [by apply Hadd|by apply IH, Hadd].
Qed.

Lemma scan_legacy_older cutoff remaining path children : all_older cutoff (scan_legacy cutoff remaining path children).
Proof.
  apply first_entries_older. induction (sorted_children children) as [|[name [t|t l]] rest IH]; cbn; [constructor| |done].
  destruct (older cutoff t) eqn:E; [by constructor|done].
Qed.

Lemma scan_days_older cutoff bounded path days entries entries' returned :
  all_older cutoff entries -> scan_days cutoff bounded path days entries = Ret (entries', returned) -> all_older cutoff entries'.
Proof.
  revert entries. induction days as [|[[[y m] d] children] days IH]; intros entries H; cbn [scan_days]; [by intros [= <- _]|].
  destruct (parse_sharded_day y m d) as [[day|]|]; [|by apply IH|done].
  destruct (date_after day cutoff); [by intros [= <- _]|]. destruct (_ <=? 0); [by intros [= <- _]|].
  assert (Hs : all_older cutoff (entries ++ scan_day cutoff (bounded - Z.of_nat (length entries))
                 (path +:+ "/" +:+ y +:+ "/" +:+ m +:+ "/" +:+ d) children)).
  { apply Forall_app_2; [done|]. apply first_entries_older, scan_day_loop_older. constructor. }
  destruct (_ <=? _); [by intros [= <- _]|by apply IH].
Qed.

Lemma local_list_entries_old prefix cutoff limit root entries :
  local_list_entries prefix cutoff limit root = Ret entries ->
  all_older cutoff entries /\ Z.of_nat (length entries) <= Z.max 1 limit.
Proof.
  unfold local_list_entries. destruct root as [root|]; [|intros [= <-]; split; [constructor|cbn; lia]].
  destruct (scan_days _ _ _ _ []) as [[l returned]|] eqn:E; [|done].
  apply scan_days_older in E; [|constructor]. intros H. injection H as <-.
  split; [|etransitivity; [apply inj_le, firstn_le_length|lia]].
  apply Forall_take. destruct (_ && _); [|done]. apply Forall_app_2; [done|apply scan_legacy_older].
Qed.

Lemma s3_contents_older cutoff bounded contents matches l : all_older cutoff matches ->
  s3_contents cutoff bounded contents matches = Ret l -> all_older cutoff l.
Proof.
  revert matches. induction contents as [|[key v] rest IH]; intros matches H; cbn [s3_contents]; [by intros [= <-]|].
  destruct (Str.is_empty key); [by apply IH|]. destruct (last_modified v) as [[t|]|]; cbn; [|by apply IH|done].
  destruct (older cutoff t) eqn:Et; [|by apply IH]. cbn [negb].
  assert (Hm : all_older cutoff (matches ++ [mkListEntry key t])) by (apply Forall_app_2; [done|by constructor]).
  destruct (_ <=? _); [by intros [= <-]|by apply IH].
Qed.

Lemma s3_pages_older cutoff bounded pages matches l : all_older cutoff matches ->
  s3_pages cutoff bounded pages matches = Some (Ret l) -> all_older cutoff l.
Proof.
  revert matches. induction pages as [|page pages IH]; intros matches H; cbn [s3_pages].
  - destruct (_ <=? _); [by intros [= <-]|done].
  - destruct (_ <=? _); [by intros [= <-]|].
    destruct (s3_contents cutoff bounded (pg_contents page) matches) as [m|] eqn:E; [|done].
    apply s3_contents_older in E; [|done]. destruct (_ || _); [by intros [= <-]|by apply IH].
Qed.

Lemma s3_list_entries_old cutoff limit pages entries :
  s3_list_entries cutoff limit pages = Some (Ret entries) ->
  all_older cutoff entries /\ Z.of_nat (length entries) <= Z.max 1 limit.
Proof.
  unfold s3_list_entries. destruct (s3_pages _ _ _ []) as [[m|]|] eqn:E; [|done|done]. intros [= <-].
  apply s3_pages_older in E; [|constructor]. split; [by apply first_entries_older|].
  pose proof (first_entries_length (Z.max 1 limit) m). lia.
Qed.

(** The listing of S3 ends with the last page the service has. *)
Lemma s3_list_entries_ends cutoff limit pages page :
  pg_truncated page = false -> s3_list_entries cutoff limit (pages ++ [page]) <> None.
Proof.
  intros Hp. unfold s3_list_entries.
  assert (H : forall matches, s3_pages cutoff (Z.max 1 limit) (pages ++ [page]) matches <> None).
  { induction pages as [|p pages IH]; intros matches; cbn [app s3_pages].
    - destruct (_ <=? _); [done|]. destruct (s3_contents _ _ _ _); [|done]. by rewrite Hp, orb_true_r.
    - destruct (_ <=? _); [done|]. destruct (s3_contents _ _ _ _); [|done]. destruct (_ || _); [done|apply IH]. }
  specialize (H []). by destruct (s3_pages _ _ _ []) as [[m|]|].
Qed.
