(* ===== verification/CreateModels.v ===== *)
(** * Batch create sessions: the data

    src/batch/create/models.py: the status of a create session, the idempotency
    pair, the staged request with its JSON form, the session row; the scopes of
    src/batch/scopes.py, the ownership test of src/batch/access.py and the
    endpoints of src/batch/endpoints.py. *)

From S2P Require Import Prelude PyVal Errors Auth BatchModels BatchDb Scheduling Calendar Budget.

(** ** Status *)

Module CreateStatus.

Inductive create_status : Type := STAGED | COMPLETED | FAILED_RETRYABLE | FAILED_PERMANENT | EXPIRED.

#[global] Instance create_status_eq_dec : EqDecision create_status.
Proof. solve_decision. Defined.

Definition create_status_value (s : create_status) : string :=
  match s with
  | STAGED => "staged" | COMPLETED => "completed" | FAILED_RETRYABLE => "failed_retryable"
  | FAILED_PERMANENT => "failed_permanent" | EXPIRED => "expired"
  end.

Definition BATCH_CREATE_SESSION_STATUSES : list create_status :=
  [STAGED; COMPLETED; FAILED_RETRYABLE; FAILED_PERMANENT; EXPIRED].

Definition normalize_batch_create_session_status (status : string) : res exn create_status :=
  match List.find (fun s => String.eqb (create_status_value s) (Str.strip status)) BATCH_CREATE_SESSION_STATUSES with
  | Some s => Ret s
  | None => Raise (plain_exn ("batch create session status must be one of: "
                              ++ Str.join ", " (map create_status_value BATCH_CREATE_SESSION_STATUSES)))
  end.

(** [_PROMOTABLE_SESSION_STATUSES], also what an administrator may retry. *)
Definition promotable (s : create_status) : bool :=
  match s with STAGED | FAILED_RETRYABLE => true | _ => false end.
(** [_EXPIRABLE_ADMIN_STATUSES] *)
Definition expirable (s : create_status) : bool :=
  match s with STAGED | FAILED_RETRYABLE | FAILED_PERMANENT => true | _ => false end.

End CreateStatus.
Import CreateStatus.

(** ** Idempotency *)

(** [s or None] *)
Definition or_none (s : string) : option string := if Str.is_empty s then None else Some s.
(** [str(x or "").strip() or None] *)
Definition clean_text (x : option string) : option string := or_none (Str.strip (default "" x)).

Definition normalize_idempotency_pair (idempotency_scope_key idempotency_key : option string)
    : res exn (option string * option string) :=
  let scope := clean_text idempotency_scope_key in
  let key := clean_text idempotency_key in
  match scope, key with
  | Some _, None | None, Some _ =>
    Raise (plain_exn "idempotency_scope_key and idempotency_key must both be set or both be omitted")
  | _, _ => Ret (scope, key)
  end.

(** ** Staged requests *)

(** A [ValueError] with its text, or another exception of a conversion. *)
Inductive staged_exc : Type :=
  | StagedValueError (message : string)
  | StagedPyError (e : pyexc).

Definition of_conversion {A} (r : res pyexc A) : res staged_exc A :=
  match r with
  | Ret a => Ret a
  | Raise ValueError => Raise (StagedValueError "invalid literal for int()")
  | Raise e => Raise (StagedPyError e)
  end.

Definition not_iso : staged_exc := StagedValueError "not_before_at must be an ISO datetime".

(** [parsed.replace(tzinfo=UTC)] or [parsed.astimezone(UTC)] *)
Definition to_utc (r : raw_datetime) : res staged_exc (option datetime) :=
  match astimezone_utc r with Ret t => Ret t | Raise e => Raise (StagedPyError e) end.

(** A [datetime] object is naive or aware, and in range. *)
Definition raw_ok (r : raw_datetime) : bool :=
  match r with RawNaive t | RawAware t _ => dt_ok t | _ => false end.

Record py_datetime : Type := mkPyDatetime { pd_value : raw_datetime; pd_ok : raw_ok pd_value = true }.

(** What the constructor may be given: a value of a JSON object or a [datetime]. *)
Inductive time_value : Type :=
  | JsonTime (v : pyval)
  | DatetimeValue (t : py_datetime).
Coercion JsonTime : pyval >-> time_value.

Definition parse_optional_datetime (value : time_value) : res staged_exc (option datetime) :=
  match value with
  | JsonTime PyNone => Ret None
  | DatetimeValue parsed => to_utc (pd_value parsed)
  | JsonTime (PyStr s) =>
    let normalized := Str.strip s in
    if Str.is_empty normalized then Ret None
    else match fromisoformat (string_of_list_ascii (replace_Z (list_ascii_of_string normalized))) with
         | Some r => to_utc r
         | None => Raise not_iso
         end
  | _ => Raise not_iso
  end.

Definition parse_optional_work_units (value : pyval) : res staged_exc (option Z) :=
  match value with
  | PyNone => Ret None
  | _ =>
    if match value with PyStr s => Str.is_empty (Str.strip s) | _ => false end then Ret None
    else match py_int value with
         | Ret n => Ret (Some (Z.max 1 n))
         | Raise OverflowError => Raise (StagedPyError OverflowError)
         | Raise _ => Raise (StagedValueError "estimated_work_units must be an integer")
         end
  end.

Record staged_request : Type := mkStaged {
  sr_line_number : Z;
  sr_custom_id : string;
  sr_request_body : list (string * pyval);
  sr_scheduling_model : option string;
  sr_scheduling_model_group : option string;
  sr_estimated_work_units : option Z;
  sr_not_before_at : option datetime      (* UTC *)
}.

(** *** [datetime.isoformat] of a UTC value *)

Definition digit (n : Z) : ascii := ascii_of_nat (48 + Z.to_nat (n mod 10)).
Fixpoint pad (k : nat) (n : Z) : list ascii :=
  match k with O => [] | S k' => digit (n / 10 ^ Z.of_nat k') :: pad k' n end.

Definition isoformat_list (t : datetime) : list ascii :=
  let s := dt_tod t / usec in
  let f := dt_tod t mod usec in
  pad 4 (dt_year t) ++ "-"%char :: pad 2 (dt_month t) ++ "-"%char :: pad 2 (dt_day t) ++ "T"%char ::
  pad 2 (s / 3600) ++ ":"%char :: pad 2 (s / 60 mod 60) ++ ":"%char :: pad 2 (s mod 60) ++
  (if f =? 0 then [] else "."%char :: pad 6 f) ++ list_ascii_of_string "+00:00".
Definition isoformat (t : datetime) : string := string_of_list_ascii (isoformat_list t).

Definition opt_field (k : string) (v : option pyval) : list (string * pyval) :=
  match v with Some v => [(k, v)] | None => [] end.

Definition to_jsonable (r : staged_request) : list (string * pyval) :=
  [("line_number", PyInt (sr_line_number r)); ("custom_id", PyStr (sr_custom_id r));
   ("request_body", PyDict (sr_request_body r))]
  ++ opt_field "scheduling_model" (PyStr <$> sr_scheduling_model r)
  ++ opt_field "scheduling_model_group" (PyStr <$> sr_scheduling_model_group r)
  ++ opt_field "estimated_work_units" (PyInt <$> sr_estimated_work_units r)
  ++ opt_field "not_before_at" ((fun t => PyStr (isoformat t)) <$> sr_not_before_at r).

Section staged.
Context (py_str : pyval -> string).

(** [str(v)] *)
Definition text_of (v : pyval) : string := match v with PyStr s => s | _ => py_str v end.
(** [str(v or "").strip()] *)
Definition stripped_text (v : pyval) : string := if truthy v then Str.strip (text_of v) else "".

(** The constructor: [__post_init__] after [from_jsonable]'s conversions. *)
Definition make_staged (line_number : Z) (custom_id request_body scheduling_model scheduling_model_group
    estimated_work_units : pyval) (not_before_at : time_value) : res staged_exc staged_request :=
  if line_number <=? 0 then Raise (StagedValueError "line_number must be positive")
  else
    let custom := stripped_text custom_id in
    if Str.is_empty custom then Raise (StagedValueError "custom_id is required")
    else
      match request_body with
      | PyDict body =>
        units ← parse_optional_work_units estimated_work_units;
        not_before ← parse_optional_datetime not_before_at;
        Ret (mkStaged line_number custom body (or_none (stripped_text scheduling_model))
               (or_none (stripped_text scheduling_model_group)) units not_before)
      | _ => Raise (StagedValueError "request_body must be an object")
      end.

Definition from_jsonable (payload : pyval) : res staged_exc staged_request :=
  match payload with
  | PyDict d =>
    n ← of_conversion (py_int (py_or (vget d "line_number") (PyInt 0)));
    make_staged n (PyStr (let v := vget d "custom_id" in if truthy v then text_of v else "")) (vget d "request_body")
      (vget d "scheduling_model") (vget d "scheduling_model_group") (vget d "estimated_work_units")
      (JsonTime (vget d "not_before_at"))
  | _ => Raise (StagedValueError "staged batch-create line must be an object")
  end.
End staged.

(** ** Sessions *)

(** [BatchCreateSessionCreate]; the metadata is a jsonb column, which keeps a
    dictionary up to the order of its keys. *)
Record session_create : Type := mkSessionCreate {
  sc_target_batch_id : string;
  sc_endpoint : string;
  sc_input_file_id : string;
  sc_staged_storage_backend : string;
  sc_staged_storage_key : string;
  sc_staged_bytes : Z;
  sc_expected_item_count : Z;
  sc_status : create_status;
  sc_staged_checksum : option string;
  sc_inferred_model : option string;
  sc_metadata : option (list (string * pyval));
  sc_requested_service_tier : option string;
  sc_effective_service_tier : option string;
  sc_service_tier_source : option string;
  sc_scheduling_scope_key : option string;
  sc_priority_quota_scope_key : option string;
  sc_idempotency_scope_key : option string;
  sc_idempotency_key : option string;
  sc_last_error_code : option string;
  sc_last_error_message : option string;
  sc_promotion_attempt_count : Z;
  sc_created_by_api_key : option string;
  sc_created_by_user_id : option string;
  sc_created_by_team_id : option string;
  sc_created_by_organization_id : option string;
  sc_completed_at : option Z;
  sc_last_attempt_at : option Z;
  sc_expires_at : option Z
}.

(** A row of [deltallm_batch_create_session]. *)
Record session : Type := mkSession {
  ss_session_id : string;
  ss_created_at : Z;
  ss_columns : session_create
}.

Definition ss_status (x : session) : create_status := sc_status (ss_columns x).
Definition ss_target (x : session) : string := sc_target_batch_id (ss_columns x).

(** A value to assign, or [_UNSET]. *)
Definition assigned {A} (v : option A) (old : A) : A := default old v.

(** The assignments of [_update_session]. *)
Record session_update : Type := mkSessionUpdate {
  su_status : create_status;
  su_completed_at : option (option Z);
  su_last_attempt_at : option (option Z);
  su_expires_at : option (option Z);
  su_last_error_code : option (option string);
  su_last_error_message : option (option string);
  su_increment_promotion_attempt_count : bool
}.

Definition update_columns (u : session_update) (c : session_create) : session_create :=
  mkSessionCreate (sc_target_batch_id c) (sc_endpoint c) (sc_input_file_id c) (sc_staged_storage_backend c)
    (sc_staged_storage_key c) (sc_staged_bytes c) (sc_expected_item_count c) (su_status u) (sc_staged_checksum c)
    (sc_inferred_model c) (sc_metadata c) (sc_requested_service_tier c) (sc_effective_service_tier c)
    (sc_service_tier_source c) (sc_scheduling_scope_key c) (sc_priority_quota_scope_key c)
    (sc_idempotency_scope_key c) (sc_idempotency_key c)
    (assigned (su_last_error_code u) (sc_last_error_code c))
    (assigned (su_last_error_message u) (sc_last_error_message c))
    (sc_promotion_attempt_count c + (if su_increment_promotion_attempt_count u then 1 else 0))
    (sc_created_by_api_key c) (sc_created_by_user_id c) (sc_created_by_team_id c) (sc_created_by_organization_id c)
    (assigned (su_completed_at u) (sc_completed_at c)) (assigned (su_last_attempt_at u) (sc_last_attempt_at c))
    (assigned (su_expires_at u) (sc_expires_at c)).

Definition update_row (u : session_update) (x : session) : session :=
  mkSession (ss_session_id x) (ss_created_at x) (update_columns u (ss_columns x)).

(** ** Scopes and owners *)

(** [if x:] of an optional text *)
Definition set_text_of (x : option string) : option string := match x with Some s => or_none s | None => None end.

(** Type, id, and the API key or the team to count by. *)
Definition pending_scope (team_id api_key : option string) : option (string * string * option string * option string) :=
  match set_text_of team_id with
  | Some t => Some ("team", t, None, Some t)
  | None => match set_text_of api_key with
            | Some k => Some ("api_key", k, Some k, None)
            | None => None
            end
  end.

Definition batch_pending_scope_target_for_auth (auth : UserAPIKeyAuth) :=
  pending_scope (team_id auth) (Some (api_key auth)).
Definition batch_pending_scope_target_for_session (x : session) :=
  pending_scope (sc_created_by_team_id (ss_columns x)) (sc_created_by_api_key (ss_columns x)).

Definition batch_pending_scope_key_for_auth (auth : UserAPIKeyAuth) : option string :=
  match set_text_of (team_id auth) with
  | Some t => Some ("team:" +:+ t)
  | None => match or_none (api_key auth) with Some k => Some ("api_key:" +:+ k) | None => None end
  end.

Definition batch_idempotency_scope_key (auth : UserAPIKeyAuth) : option string :=
  match set_text_of (team_id auth), set_text_of (organization_id auth), or_none (api_key auth) with
  | Some t, _, _ => Some ("team:" +:+ t)
  | None, Some o, _ => Some ("organization:" +:+ o)
  | None, None, Some k => Some ("api_key:" +:+ k)
  | None, None, None => None
  end.

Definition can_access_owned_resource (owner_api_key owner_team_id owner_organization_id : option string)
    (auth : UserAPIKeyAuth) : bool :=
  match set_text_of owner_api_key with Some k => String.eqb k (api_key auth) | None => false end
  || match set_text_of owner_team_id, set_text_of (team_id auth) with
     | Some t, Some t' => String.eqb t t'
     | _, _ => false
     end
  || match owner_team_id, set_text_of owner_organization_id, set_text_of (organization_id auth) with
     | None, Some o, Some o' => String.eqb o o'
     | _, _, _ => false
     end.

(** ** Endpoints *)

Definition SUPPORTED_BATCH_ENDPOINTS : list string := [BATCH_ENDPOINT_EMBEDDINGS; BATCH_ENDPOINT_CHAT_COMPLETIONS].
Definition supported_endpoint (endpoint : string) : bool := bool_decide (endpoint ∈ SUPPORTED_BATCH_ENDPOINTS).
Definition supported_batch_endpoints_display : string := Str.join ", " SUPPORTED_BATCH_ENDPOINTS.

(** ** ISO dates read back *)

Lemma digit_spec n : is_digit (digit n) = true /\ digit_val (digit n) = n mod 10.
Proof.
  unfold digit. pose proof (Z.mod_pos_bound n 10 ltac:(lia)) as H.
  assert (Hk : exists k : nat, (k < 10)%nat /\ n mod 10 = Z.of_nat k) by (exists (Z.to_nat (n mod 10)); lia).
  destruct Hk as (k & Hk & ->). rewrite Nat2Z.id. do 10 (destruct k as [|k]; [split; reflexivity|]). lia.
Qed.

Lemma take_digits_pad k n acc l : take_digits k acc (pad k n ++ l) = Some (acc * 10 ^ Z.of_nat k + n mod 10 ^ Z.of_nat k, l).
Proof.
  revert acc. induction k as [|k IH]; intros acc; cbn [pad take_digits app].
  - change (10 ^ Z.of_nat 0) with 1. rewrite Z.mod_1_r. do 2 f_equal. lia.
  - destruct (digit_spec (n / 10 ^ Z.of_nat k)) as [-> ->]. rewrite IH. do 2 f_equal.
    rewrite Nat2Z.inj_succ, Z.pow_succ_r by lia. rewrite (Z.mul_comm 10 (10 ^ _)).
    rewrite Z.rem_mul_r by (pose proof (Z.pow_pos_nonneg 10 (Z.of_nat k)); lia). lia.
Qed.

Lemma iso_fraction_pad k n acc l : (forall a l', l = a :: l' -> is_digit a = false) ->
  iso_fraction (10 ^ Z.of_nat k) acc (pad (S k) n ++ l) = (acc + n mod 10 ^ Z.of_nat (S k), l).
Proof.
  intros Hl. revert acc. induction k as [|k IH]; intros acc.
  - cbn [pad app iso_fraction]. destruct (digit_spec (n / 10 ^ Z.of_nat 0)) as [-> ->].
    replace (iso_fraction (10 ^ Z.of_nat 0 / 10) _ l) with (acc + (n / 10 ^ Z.of_nat 0) mod 10 * 10 ^ Z.of_nat 0, l)
      by (destruct l as [|a l']; [done|]; cbn [iso_fraction]; by rewrite (Hl a l' eq_refl)).
    change (10 ^ Z.of_nat 0) with 1. change (10 ^ Z.of_nat 1) with 10. rewrite Z.div_1_r. f_equal. lia.
  - change (pad (S (S k)) n ++ l) with (digit (n / 10 ^ Z.of_nat (S k)) :: (pad (S k) n ++ l)).
    cbn [iso_fraction]. destruct (digit_spec (n / 10 ^ Z.of_nat (S k))) as [-> ->].
    replace (10 ^ Z.of_nat (S k) / 10) with (10 ^ Z.of_nat k)
      by (rewrite Nat2Z.inj_succ, Z.pow_succ_r, Z.mul_comm, Z.div_mul by lia; done).
    rewrite IH. f_equal. rewrite (Nat2Z.inj_succ (S k)), (Z.pow_succ_r 10 (Z.of_nat (S k))) by lia.
    rewrite (Z.mul_comm 10 (10 ^ _)), Z.rem_mul_r by (pose proof (Z.pow_pos_nonneg 10 (Z.of_nat (S k))); lia). lia.
Qed.

Lemma take_two n l : 0 <= n < 100 -> take_digits 2 0 (pad 2 n ++ l) = Some (n, l).
Proof. intros Hn. rewrite take_digits_pad. change (10 ^ Z.of_nat 2) with 100. rewrite Z.mod_small by lia. do 2 f_equal. Qed.

Lemma take_four n l : 0 <= n < 10000 -> take_digits 4 0 (pad 4 n ++ l) = Some (n, l).
Proof. intros Hn. rewrite take_digits_pad. change (10 ^ Z.of_nat 4) with 10000. rewrite Z.mod_small by lia. do 2 f_equal. Qed.

(** The time of day with its offset. *)
Lemma iso_time_isoformat tod : 0 <= tod < day_usec ->
  let s := tod / usec in
  let f := tod mod usec in
  iso_time (pad 2 (s / 3600) ++ ":"%char :: pad 2 (s / 60 mod 60) ++ ":"%char :: pad 2 (s mod 60) ++
            (if f =? 0 then [] else "."%char :: pad 6 f) ++ list_ascii_of_string "+00:00")
  = Some (tod, list_ascii_of_string "+00:00").
Proof.
  intros Ht s f. assert (Ht' : 0 <= tod < 86400000000) by exact Ht.
  assert (Es : s = tod / 1000000) by reflexivity. assert (Ef : f = tod mod 1000000) by reflexivity. clearbody s f.
  pose proof (Z.div_mod tod 1000000 ltac:(lia)) as Htf. pose proof (Z.mod_pos_bound tod 1000000 ltac:(lia)) as Hf.
  rewrite <- Es, <- Ef in Htf. rewrite <- Ef in Hf. assert (Hs : 0 <= s < 86400) by lia.
  pose proof (Z.div_mod s 60 ltac:(lia)) as H60. pose proof (Z.mod_pos_bound s 60 ltac:(lia)) as Hs60.
  pose proof (Z.div_mod (s / 60) 60 ltac:(lia)) as H3600. pose proof (Z.mod_pos_bound (s / 60) 60 ltac:(lia)) as Hm60.
  assert (Eh : s / 3600 = s / 60 / 60) by (by rewrite Z.div_div).
  assert (Hw : ((s / 3600 * 60 + s / 60 mod 60) * 60 + s mod 60) = s).
  { rewrite Eh. lia. }
  unfold iso_time. rewrite take_two by lia. cbn [mbind option_bind].
  replace (s / 3600 <? 24) with true by (symmetry; apply Z.ltb_lt; lia). cbn [negb expect Ascii.eqb].
  cbn -[take_digits pad iso_fraction Z.mul Z.add Z.ltb].
  rewrite take_two by lia. cbn [mbind option_bind].
  replace (s / 60 mod 60 <? 60) with true by (symmetry; apply Z.ltb_lt; lia).
  cbn -[take_digits pad iso_fraction Z.mul Z.add Z.ltb].
  rewrite take_two by lia. cbn [mbind option_bind].
  replace (s mod 60 <? 60) with true by (symmetry; apply Z.ltb_lt; lia). cbn [negb]. unfold usec.
  rewrite Hw. destruct (Z.eqb_spec f 0) as [Ef0|Ef0].
  - cbn -[Z.mul Z.add]. do 2 f_equal. lia.
  - cbn -[take_digits pad iso_fraction Z.mul Z.add Z.ltb].
    change (pad 6 f) with (digit (f / 10 ^ Z.of_nat 5) :: pad 5 f). cbn [app].
    destruct (digit_spec (f / 10 ^ Z.of_nat 5)) as [-> _].
    change (digit (f / 10 ^ Z.of_nat 5) :: pad 5 f ++ ?l) with (pad 6 f ++ l). change 100000 with (10 ^ Z.of_nat 5).
    rewrite iso_fraction_pad by (by intros a l' [= <- _]). change (10 ^ Z.of_nat 6) with 1000000.
    rewrite Z.mod_small by lia. do 2 f_equal. lia.
Qed.

(** Its characters are neither blank nor a [Z]. *)
Definition iso_char (a : ascii) : bool := negb (Str.isspace a) && negb (Ascii.eqb a "Z").

Lemma digit_iso n : iso_char (digit n) = true.
Proof.
  unfold digit. pose proof (Z.mod_pos_bound n 10 ltac:(lia)) as H.
  assert (Hk : exists k : nat, (k < 10)%nat /\ n mod 10 = Z.of_nat k) by (exists (Z.to_nat (n mod 10)); lia).
  destruct Hk as (k & Hk & ->). rewrite Nat2Z.id. do 10 (destruct k as [|k]; [reflexivity|]). lia.
Qed.

Lemma pad_iso k n : Forall (fun a => iso_char a = true) (pad k n).
Proof. induction k as [|k IH]; cbn [pad]; constructor; [apply digit_iso|done]. Qed.

Lemma isoformat_chars t : Forall (fun a => iso_char a = true) (isoformat_list t).
Proof.
  unfold isoformat_list. repeat first [apply Forall_app; split | apply pad_iso | apply Forall_cons; split; [reflexivity|]].
  - destruct (_ =? 0); [constructor|]. apply Forall_cons. split; [reflexivity|apply pad_iso].
  - repeat constructor.
Qed.

Lemma replace_Z_other l : Forall (fun a => iso_char a = true) l -> replace_Z l = l.
Proof.
  induction 1 as [|a l Ha _ IH]; [done|]. cbn [replace_Z]. unfold iso_char in Ha.
  destruct (Ascii.eqb a "Z"); [by rewrite andb_false_r in Ha|by rewrite IH].
Qed.

Lemma strip_other l : Forall (fun a => iso_char a = true) l -> Str.strip (string_of_list_ascii l) = string_of_list_ascii l.
Proof.
  intros Hl. unfold Str.strip. rewrite list_ascii_of_string_of_list_ascii. f_equal.
  assert (Hd : forall l, Forall (fun a => iso_char a = true) l -> Str.drop_while Str.isspace l = l).
  { clear. intros l Hl. destruct Hl as [|a l Ha _]; [done|]. cbn. unfold iso_char in Ha. by destruct (Str.isspace a). }
  unfold Str.strip_list. rewrite (Hd l Hl), (Hd (reverse l)); [apply reverse_involutive|].
  rewrite Forall_forall in Hl |- *. intros a Ha. apply Hl. by rewrite elem_of_reverse in Ha.
Qed.

Lemma fromisoformat_isoformat t : dt_ok t = true -> fromisoformat (isoformat t) = Some (RawAware t 0).
Proof.
  intros Hok. pose proof Hok as Hok'. unfold dt_ok in Hok. rewrite !andb_true_iff in Hok. destruct Hok as [[Hd H0] H1].
  apply Z.leb_le in H0. apply Z.ltb_lt in H1. pose proof Hd as Hd'. unfold date_fields_ok, MINYEAR, MAXYEAR in Hd.
  rewrite !andb_true_iff, !Z.leb_le in Hd. destruct Hd as [[[[[Hy Hy'] Hm] Hm'] Hdd] Hdd'].
  assert (days_in_month (dt_year t) (dt_month t) <= 31) as Hmax
    by (unfold days_in_month; repeat case_match; lia).
  unfold fromisoformat, isoformat. rewrite list_ascii_of_string_of_list_ascii. unfold isoformat_list, iso_date.
  rewrite take_four by lia.
  cbn -[take_digits pad iso_time Z.mul Z.add]. rewrite take_two by lia.
  cbn -[take_digits pad iso_time Z.mul Z.add]. rewrite take_two by lia.
  cbn -[take_digits pad iso_time Z.mul Z.add]. rewrite Hd'. cbn -[take_digits pad iso_time Z.mul Z.add].
  change ["+"%char; "0"%char; "0"%char; ":"%char; "0"%char; "0"%char] with (list_ascii_of_string "+00:00").
  rewrite (iso_time_isoformat (dt_tod t)) by done. destruct t as [y m d tod]. reflexivity.
Qed.

Lemma dt_add_zero t : dt_ok t = true -> dt_add t 0 = Ret t.
Proof.
  intros Hok. unfold dt_add. rewrite Z.add_0_r. destruct (of_usec_total (to_usec t) (to_usec_range t Hok)) as [u Hu].
  rewrite Hu. apply of_usec_spec in Hu as [H1 H2]. f_equal. by apply to_usec_inj.
Qed.

(** ** What is read is in range *)

Lemma digit_val_range a : is_digit a = true -> 0 <= digit_val a <= 9.
Proof. unfold is_digit, digit_val. rewrite andb_true_iff, !Nat.leb_le. lia. Qed.

Lemma take_digits_nonneg n acc l v l' : 0 <= acc -> take_digits n acc l = Some (v, l') -> 0 <= v.
Proof.
  revert acc l. induction n as [|n IH]; intros acc l Hacc; cbn [take_digits]; [by intros [= <- _]|].
  destruct l as [|a l]; [done|]. destruct (is_digit a) eqn:Ha; [|done].
  apply IH. pose proof (digit_val_range a Ha). lia.
Qed.

Lemma iso_fraction_zero acc l : fst (iso_fraction 0 acc l) = acc.
Proof.
  revert acc. induction l as [|a l IH]; intros acc; cbn [iso_fraction]; [done|].
  destruct (is_digit a); [|done]. change (0 / 10) with 0. rewrite IH. lia.
Qed.

Lemma iso_fraction_range k acc l :
  acc <= fst (iso_fraction (10 ^ Z.of_nat k) acc l) < acc + 10 ^ Z.of_nat (S k).
Proof.
  revert acc l. induction k as [|k IH]; intros acc [|a l]; cbn [iso_fraction fst].
  - change (10 ^ Z.of_nat 1) with 10. lia.
  - destruct (is_digit a) eqn:Ha; cbn [fst]; [|change (10 ^ Z.of_nat 1) with 10; lia].
    change (10 ^ Z.of_nat 0 / 10) with 0. rewrite iso_fraction_zero.
    pose proof (digit_val_range a Ha). change (10 ^ Z.of_nat 0) with 1. change (10 ^ Z.of_nat 1) with 10. lia.
  - pose proof (Z.pow_pos_nonneg 10 (Z.of_nat (S (S k)))). lia.
  - destruct (is_digit a) eqn:Ha; cbn [fst]; [|pose proof (Z.pow_pos_nonneg 10 (Z.of_nat (S (S k)))); lia].
    replace (10 ^ Z.of_nat (S k) / 10) with (10 ^ Z.of_nat k)
      by (rewrite Nat2Z.inj_succ, Z.pow_succ_r, Z.mul_comm, Z.div_mul by lia; done).
    specialize (IH (acc + digit_val a * 10 ^ Z.of_nat (S k)) l). pose proof (digit_val_range a Ha).
    rewrite (Nat2Z.inj_succ (S k)), (Z.pow_succ_r 10 (Z.of_nat (S k))) by lia.
    pose proof (Z.pow_pos_nonneg 10 (Z.of_nat (S k))). nia.
Qed.

Lemma iso_time_range l tod l' : iso_time l = Some (tod, l') -> 0 <= tod < day_usec.
Proof.
  unfold iso_time. intros H. destruct (take_digits 2 0 l) as [[h l1]|] eqn:E1; [|done]. cbn [mbind option_bind] in H.
  apply take_digits_nonneg in E1; [|lia]. destruct (Z.ltb_spec h 24); [|done]. cbn [negb] in H.
  change day_usec with 86400000000. unfold usec in H.
  destruct (expect ":" l1) as [l2|]; [|injection H as <- _; lia].
  destruct (take_digits 2 0 l2) as [[mi l3]|] eqn:E2; [|done]. cbn [mbind option_bind] in H.
  apply take_digits_nonneg in E2; [|lia]. destruct (Z.ltb_spec mi 60); [|done]. cbn [negb] in H.
  destruct (expect ":" l3) as [l4|]; [|injection H as <- _; lia].
  destruct (take_digits 2 0 l4) as [[s l5]|] eqn:E3; [|done]. cbn [mbind option_bind] in H.
  apply take_digits_nonneg in E3; [|lia]. destruct (Z.ltb_spec s 60); [|done]. cbn [negb] in H.
  destruct (expect "." l5) as [[|a l6]|]; [done| |injection H as <- _; lia].
  destruct (is_digit a); [|done]. pose proof (iso_fraction_range 5 0 (a :: l6)) as Hf.
  change (10 ^ Z.of_nat 5) with 100000 in Hf. change (10 ^ Z.of_nat 6) with 1000000 in Hf.
  destruct (iso_fraction 100000 0 (a :: l6)) as [f l7]. cbn [fst] in Hf. injection H as <- _. lia.
Qed.

Lemma dt_ok_fields y m d tod : date_fields_ok y m d = true -> 0 <= tod < day_usec -> dt_ok (mkDatetime y m d tod) = true.
Proof.
  intros Hd Ht. unfold dt_ok. cbn [dt_year dt_month dt_day dt_tod].
  rewrite Hd, (proj2 (Z.leb_le 0 tod)), (proj2 (Z.ltb_lt tod day_usec)) by lia. done.
Qed.

Lemma fromisoformat_ok s r : fromisoformat s = Some r -> raw_ok r = true.
Proof.
  unfold fromisoformat. destruct (iso_date _) as [[[[y m] d] l]|]; [|done]. cbn [mbind option_bind].
  destruct (date_fields_ok y m d) eqn:Hd; [|done]. cbn [negb]. intros H.
  destruct l as [|c l].
  { injection H as <-. by apply dt_ok_fields. }
  destruct (iso_time l) as [[tod l1]|] eqn:E; [|done]. cbn [mbind option_bind] in H. apply iso_time_range in E.
  pose proof (dt_ok_fields y m d tod Hd E) as Hok.
  destruct l1 as [|c1 l1]; [by injection H as <-|].
  destruct (iso_time l1) as [[off l2]|]; [|done]. cbn [mbind option_bind] in H.
  destruct l2; [|done]. repeat case_match; simplify_eq; exact Hok.
Qed.

Lemma to_utc_ok r t : raw_ok r = true -> to_utc r = Ret (Some t) -> dt_ok t = true.
Proof.
  unfold to_utc, astimezone_utc. intros E.
  destruct r as [|u|u off| |]; try done; cbn [raw_ok] in E; [by intros [= <-]|].
  destruct (dt_add u (- off)) as [w|e] eqn:Ed; [|done]. cbn. intros [= <-].
  by apply of_usec_spec in Ed as [Hok _].
Qed.

Lemma parse_optional_datetime_ok v t : parse_optional_datetime v = Ret (Some t) -> dt_ok t = true.
Proof.
  unfold parse_optional_datetime. destruct v as [[| | | |s| |]|[r Hr]]; try done; [|by apply to_utc_ok].
  destruct (Str.is_empty _); [done|]. destruct (fromisoformat _) as [r|] eqn:E; [|done].
  by apply to_utc_ok, (fromisoformat_ok _ _ E).
Qed.

Lemma parse_optional_datetime_isoformat t :
  dt_ok t = true -> parse_optional_datetime (PyStr (isoformat t)) = Ret (Some t).
Proof.
  intros Hok. unfold parse_optional_datetime. pose proof (isoformat_chars t) as Hc.
  unfold isoformat. rewrite strip_other by done. rewrite list_ascii_of_string_of_list_ascii, replace_Z_other by done.
  fold (isoformat t). rewrite fromisoformat_isoformat by done.
  unfold to_utc, astimezone_utc. change (- 0) with 0. rewrite dt_add_zero by done. cbn.
  by destruct (isoformat t) eqn:E.
Qed.

(** ** Staged requests read back *)

(** What the constructor leaves: [from_jsonable] changes none of it. *)
Record staged_ok (r : staged_request) : Prop := mkStagedOk {
  so_line : 0 < sr_line_number r;
  so_custom : Str.strip (sr_custom_id r) = sr_custom_id r /\ Str.is_empty (sr_custom_id r) = false;
  so_model : forall m, sr_scheduling_model r = Some m -> Str.strip m = m /\ Str.is_empty m = false;
  so_group : forall m, sr_scheduling_model_group r = Some m -> Str.strip m = m /\ Str.is_empty m = false;
  so_units : forall n, sr_estimated_work_units r = Some n -> 1 <= n;
  so_not_before : forall t, sr_not_before_at r = Some t -> dt_ok t = true
}.

Section staged_lemmas.
Context (py_str : pyval -> string).

Lemma stripped_text_idemp v : Str.strip (stripped_text py_str v) = stripped_text py_str v.
Proof. unfold stripped_text. destruct (truthy v); [apply strip_idemp|done]. Qed.

Lemma or_none_stripped v m : or_none (stripped_text py_str v) = Some m -> Str.strip m = m /\ Str.is_empty m = false.
Proof.
  unfold or_none. destruct (Str.is_empty (stripped_text py_str v)) eqn:E; [done|]. intros [= <-].
  split; [apply stripped_text_idemp|done].
Qed.

Lemma parse_optional_work_units_pos v n : parse_optional_work_units v = Ret (Some n) -> 1 <= n.
Proof.
  unfold parse_optional_work_units. intros H.
  destruct v; cbn -[py_int Z.max] in H; try done; repeat case_match; simplify_eq; lia.
Qed.

Lemma make_staged_ok n c b m g u t r : make_staged py_str n c b m g u t = Ret r -> staged_ok r.
Proof.
  unfold make_staged. destruct (Z.leb_spec n 0); [done|].
  destruct (Str.is_empty (stripped_text py_str c)) eqn:Ec; [done|]. destruct b; try done.
  destruct (parse_optional_work_units u) as [units|] eqn:Eu; [|done].
  destruct (parse_optional_datetime t) as [nb|] eqn:Et; [|done]. cbn. intros [= <-].
  constructor; cbn; [lia|split; [apply stripped_text_idemp|done]| | | |].
  - intros ?. apply or_none_stripped.
  - intros ?. apply or_none_stripped.
  - intros k ->. by eapply parse_optional_work_units_pos.
  - intros k ->. by eapply parse_optional_datetime_ok.
Qed.

Lemma stripped_text_str s : Str.strip s = s -> stripped_text py_str (PyStr s) = s.
Proof. intros Hs. unfold stripped_text. cbn. by destruct s. Qed.

Lemma stripped_text_option o : (forall m, o = Some m -> Str.strip m = m /\ Str.is_empty m = false) ->
  or_none (stripped_text py_str (match o with Some m => PyStr m | None => PyNone end)) = o.
Proof.
  destruct o as [m|]; intros H; [|done]. destruct (H m eq_refl) as [Hs He].
  rewrite (stripped_text_str m Hs). unfold or_none. by rewrite He.
Qed.

(** The fields of the JSON object, one at a time. *)
Lemma to_jsonable_fields r :
  vget (to_jsonable r) "line_number" = PyInt (sr_line_number r) /\
  vget (to_jsonable r) "custom_id" = PyStr (sr_custom_id r) /\
  vget (to_jsonable r) "request_body" = PyDict (sr_request_body r) /\
  vget (to_jsonable r) "scheduling_model" = match sr_scheduling_model r with Some m => PyStr m | None => PyNone end /\
  vget (to_jsonable r) "scheduling_model_group"
    = match sr_scheduling_model_group r with Some m => PyStr m | None => PyNone end /\
  vget (to_jsonable r) "estimated_work_units"
    = match sr_estimated_work_units r with Some n => PyInt n | None => PyNone end /\
  vget (to_jsonable r) "not_before_at"
    = match sr_not_before_at r with Some t => PyStr (isoformat t) | None => PyNone end.
Proof. destruct r as [n c b [m|] [g|] [u|] [t|]]; repeat split. Qed.

Lemma from_to_jsonable r : staged_ok r -> from_jsonable py_str (PyDict (to_jsonable r)) = Ret r.
Proof.
  intros [Hn [Hc Hce] Hm Hg Hu Ht]. unfold from_jsonable.
  destruct (to_jsonable_fields r) as (-> & -> & -> & -> & -> & -> & ->). unfold py_or. cbn [truthy].
  destruct (Z.eqb_spec (sr_line_number r) 0); [lia|]. cbn [negb py_int of_conversion res_bind]. rewrite Hce. cbn [negb text_of].
  change (make_staged py_str (sr_line_number r) (PyStr (sr_custom_id r)) (PyDict (sr_request_body r))
    (match sr_scheduling_model r with Some m => PyStr m | None => PyNone end)
    (match sr_scheduling_model_group r with Some m => PyStr m | None => PyNone end)
    (match sr_estimated_work_units r with Some n => PyInt n | None => PyNone end)
    (JsonTime (match sr_not_before_at r with Some t => PyStr (isoformat t) | None => PyNone end)) = Ret r).
  unfold make_staged. destruct (Z.leb_spec (sr_line_number r) 0); [lia|].
  rewrite (stripped_text_str _ Hc), Hce, !stripped_text_option by done.
  assert (parse_optional_work_units (match sr_estimated_work_units r with Some n => PyInt n | None => PyNone end)
          = Ret (sr_estimated_work_units r)) as ->.
  { destruct (sr_estimated_work_units r) as [k|]; [|done]. specialize (Hu k eq_refl). cbn -[Z.max].
    by rewrite Z.max_r by lia. }
  assert (parse_optional_datetime (JsonTime (match sr_not_before_at r with Some t => PyStr (isoformat t) | None => PyNone end))
          = Ret (sr_not_before_at r)) as ->.
  { destruct (sr_not_before_at r) as [t|]; [|done]. apply parse_optional_datetime_isoformat, (Ht t eq_refl). }
  by destruct r.
Qed.

(** C40: A staged request read back from its JSON object is the request that was
    written: whatever values the constructor is given (a [datetime] for the
    not-before time included), if it accepts them then
    [from_jsonable] of the object's [to_jsonable] gives the same line number,
    custom id, body, model, model group, work units and not-before time (which
    is printed as an ISO time in UTC, to the microsecond), and nothing is lost
    or changed between staging and promotion. *)
Theorem staged_request_roundtrip n c b m g u t r :
  make_staged py_str n c b m g u t = Ret r ->
  from_jsonable py_str (PyDict (to_jsonable r)) = Ret r.
Proof. intros H. by eapply from_to_jsonable, make_staged_ok. Qed.
End staged_lemmas.

(** A request with a blank-padded id and a not-before time with an offset. *)
Definition a_staged : res staged_exc staged_request :=
  make_staged (fun _ => "") 3 (PyStr " req-1 ") (PyDict [("model", PyStr "m")]) (PyStr "m") PyNone (PyInt 0)
    (PyStr "2024-03-01T00:30:00.5+02:00").

Lemma staged_request_roundtrip_witness : exists r, a_staged = Ret r /\
  sr_not_before_at r = Some (mkDatetime 2024 2 29 81000500000) /\
  from_jsonable (fun _ => "") (PyDict (to_jsonable r)) = Ret r.
Proof.
  eexists. split; [vm_compute; reflexivity|]. split; [reflexivity|].
  eapply (staged_request_roundtrip (fun _ => "") 3 (PyStr " req-1 ") (PyDict [("model", PyStr "m")]) (PyStr "m") PyNone
    (PyInt 0) (PyStr "2024-03-01T00:30:00.5+02:00")).
  vm_compute. reflexivity.
Defined.
