(* ===== verification/CreateSession.v ===== *)
(** * Batch create sessions: the repository and the staging

    src/batch/create/session_repository.py: the statements on the table of
    create sessions.  src/batch/create/staging.py: the staged requests as lines
    of an artifact.  src/batch/create/session_stager.py: an artifact and its
    session, or neither. *)

From S2P Require Import Prelude PyVal Errors Calendar StorageBackends CreateModels BatchModels BatchDb BatchItems BatchOutbox BatchStorage.
Import CreateStatus.

(** ** Exceptions *)

(** What the create path raises: an answer for the client, a refused promotion,
    a line that is too long, a staged request that is not one, a missing file,
    and anything else. *)
Inductive create_exc : Type :=
  | HTTPException (status_code : Z) (detail : string)
  | PromotionError (message code : string) (retryable : bool)
  | ArtifactLineTooLong (line_number max_line_bytes : Z)
  | StagedRequestError (e : staged_exc)
  | MissingFile (storage_key : string)
  | CreateOther (e : exn).

Definition value_error (message : string) : create_exc := StagedRequestError (StagedValueError message).

(** [str(exc)] *)
Definition create_exc_str (e : create_exc) : string :=
  match e with
  | HTTPException _ detail => detail
  | PromotionError message _ _ => message
  | ArtifactLineTooLong n m => "Line " +:+ Str.of_Z n +:+ " exceeds max_line_bytes=" +:+ Str.of_Z m
  | StagedRequestError (StagedValueError m) => m
  | StagedRequestError (StagedPyError _) => "conversion"
  | MissingFile k => k
  | CreateOther e => exn_str e
  end.

Definition of_read_exc (e : read_exc) : create_exc :=
  match e with
  | LineTooLong n m => ArtifactLineTooLong n m
  | BatchStorage.UnicodeDecodeError => value_error "invalid utf-8"
  | ReadError e => CreateOther e
  end.

(** ** The store: the table, the batch tables, the files of each backend *)

Record store : Type := mkStore {
  st_sessions : list session;
  st_db : db;
  st_files : gmap string files
}.

Definition on_sessions (f : list session -> list session) (s : store) : store :=
  mkStore (f (st_sessions s)) (st_db s) (st_files s).
Definition files_of (backend : string) (s : store) : files := default ∅ (st_files s !! backend).
Definition set_files (backend : string) (fs : files) (s : store) : store :=
  mkStore (st_sessions s) (st_db s) (<[backend := fs]> (st_files s)).

(** An operation of one backend. *)
Definition on_backend {A} (backend : string) (m : st files create_exc A) : st store create_exc A := fun s =>
  let '(fs, r) := m (files_of backend s) in (set_files backend fs s, r).

(** ** The repository *)

Module Sessions.

Abbreviation table := (list session).

(** What the unique constraints compare. *)
Definition idempotency_of (c : session_create) : option (string * string) :=
  match sc_idempotency_scope_key c, sc_idempotency_key c with Some a, Some b => Some (a, b) | _, _ => None end.

Definition conflicts (x y : session) : bool :=
  String.eqb (ss_session_id x) (ss_session_id y) || String.eqb (ss_target x) (ss_target y)
  || match idempotency_of (ss_columns x), idempotency_of (ss_columns y) with
     | Some a, Some b => bool_decide (a = b)
     | _, _ => false
     end.

Definition set_idempotency (scope key : option string) (c : session_create) : session_create :=
  mkSessionCreate (sc_target_batch_id c) (sc_endpoint c) (sc_input_file_id c) (sc_staged_storage_backend c)
    (sc_staged_storage_key c) (sc_staged_bytes c) (sc_expected_item_count c) (sc_status c) (sc_staged_checksum c)
    (sc_inferred_model c) (sc_metadata c) (sc_requested_service_tier c) (sc_effective_service_tier c)
    (sc_service_tier_source c) (sc_scheduling_scope_key c) (sc_priority_quota_scope_key c) scope key
    (sc_last_error_code c) (sc_last_error_message c) (sc_promotion_attempt_count c)
    (sc_created_by_api_key c) (sc_created_by_user_id c) (sc_created_by_team_id c) (sc_created_by_organization_id c)
    (sc_completed_at c) (sc_last_attempt_at c) (sc_expires_at c).

(** [INSERT ... RETURNING *]; [insert_fault] is what else may happen: the database
    refuses, the missing input file included, or the row is committed and the
    answer is lost. *)
Definition create_session (insert_fault : fault) (now : Z) (uuid4 : string) (c : session_create) (t : table)
    : table * res exn session :=
  match normalize_idempotency_pair (sc_idempotency_scope_key c) (sc_idempotency_key c) with
  | Raise e => (t, Raise e)
  | Ret (scope, key) =>
    let x := mkSession uuid4 now (set_idempotency scope key c) in
    match insert_fault with
    | RolledBack e => (t, Raise e)
    | NoFault => if existsb (conflicts x) t then (t, Raise unique_violation) else (t ++ [x], Ret x)
    | AckLost e => if existsb (conflicts x) t then (t, Raise unique_violation) else (t ++ [x], Raise e)
    end
  end.

Definition has_id (session_id : string) (x : session) : bool := String.eqb (ss_session_id x) session_id.

Definition get_session (session_id : string) (t : table) : option session := List.find (has_id session_id) t.
Definition get_session_for_update := get_session.
Definition get_session_by_target_batch_id (target_batch_id : string) (t : table) : option session :=
  List.find (fun x => String.eqb (ss_target x) target_batch_id) t.

Definition has_idempotency (scope key : string) (x : session) : bool :=
  sql_eq (sc_idempotency_scope_key (ss_columns x)) scope && sql_eq (sc_idempotency_key (ss_columns x)) key.

Definition get_session_by_idempotency_key (idempotency_scope_key idempotency_key : string) (t : table)
    : res exn (option session) :=
  match normalize_idempotency_pair (Some idempotency_scope_key) (Some idempotency_key) with
  | Ret (Some scope, Some key) => Ret (List.find (has_idempotency scope key) t)
  | _ => Raise (plain_exn "idempotency_scope_key and idempotency_key are required for lookup")
  end.

(** [status IN (...)] *)
Definition status_in (from_statuses : list create_status) (x : session) : bool :=
  match from_statuses with [] => true | _ => bool_decide (ss_status x ∈ from_statuses) end.

Definition update_session (session_id : string) (u : session_update) (from_statuses : list create_status) (t : table)
    : table * option session :=
  let hit x := has_id session_id x && status_in from_statuses x in
  (update_where hit (update_row u) t, update_row u <$> List.find hit t).

Definition mark_session_completed (session_id : string) (completed_at : Z) (expires_at : option Z) (increment : bool) :=
  update_session session_id
    (mkSessionUpdate COMPLETED (Some (Some completed_at)) (Some (Some completed_at)) (Some expires_at) (Some None)
       (Some None) increment).

Definition mark_session_failed (status : create_status) (session_id : string) (error_code error_message : option string)
    (attempted_at : Z) (expires_at : option Z) (increment : bool) :=
  update_session session_id
    (mkSessionUpdate status None (Some (Some attempted_at)) (Some expires_at) (Some error_code) (Some error_message)
       increment).
Definition mark_session_failed_retryable := mark_session_failed FAILED_RETRYABLE.
Definition mark_session_failed_permanent := mark_session_failed FAILED_PERMANENT.

Definition mark_session_expired (session_id : string) (expired_at : Z) :=
  update_session session_id (mkSessionUpdate EXPIRED None None (Some (Some expired_at)) None None false).

(** [COALESCE(c, created_at)] *)
Definition since (c : option Z) (x : session) : Z := default (ss_created_at x) c.

Record cutoffs : Type := mkCutoffs { cut_now : Z; completed_before : Z; retryable_before : Z; failed_before : Z }.

Definition cleanup_due (k : cutoffs) (x : session) : bool :=
  let c := ss_columns x in
  match sc_expires_at c with
  | Some t => t <? cut_now k
  | None =>
    match sc_status c with
    | COMPLETED => since (sc_completed_at c) x <? completed_before k
    | FAILED_RETRYABLE => since (sc_last_attempt_at c) x <? retryable_before k
    | FAILED_PERMANENT => since (sc_last_attempt_at c) x <? failed_before k
    | STAGED | EXPIRED => false
    end
  end.

Definition cleanup_order (x y : session) : bool :=
  let key z := let c := ss_columns z in
               since (coalesce (sc_expires_at c) (coalesce (sc_completed_at c) (sc_last_attempt_at c))) z in
  key x <=? key y.

Definition list_cleanup_candidates (k : cutoffs) (limit_ : Z) (t : table) : list session :=
  limit (Z.max 1 (Z.min limit_ 1000)) (order_by cleanup_order (select_where (cleanup_due k) t)).

Definition summarize_statuses (t : table) : list (create_status * Z) :=
  map (fun k => (k, Z.of_nat (length (select_where (fun x => bool_decide (ss_status x = k)) t))))
      BATCH_CREATE_SESSION_STATUSES.

(** The key of the artifact is stripped before it is compared. *)
Definition is_stage_artifact_referenced (storage_backend storage_key : string) (t : table) : bool :=
  existsb (fun x => String.eqb (sc_staged_storage_backend (ss_columns x)) (Str.strip storage_backend)
                    && String.eqb (sc_staged_storage_key (ss_columns x)) (Str.strip storage_key)) t.

Definition delete_cleanup_candidate (seen : session) (t : table) : table * option session :=
  let hit x :=
    has_id (ss_session_id seen) x && bool_decide (ss_status x = ss_status seen)
    && String.eqb (sc_staged_storage_backend (ss_columns x)) (sc_staged_storage_backend (ss_columns seen))
    && String.eqb (sc_staged_storage_key (ss_columns x)) (sc_staged_storage_key (ss_columns seen))
    && bool_decide (sc_expires_at (ss_columns x) = sc_expires_at (ss_columns seen))
    && bool_decide (sc_completed_at (ss_columns x) = sc_completed_at (ss_columns seen))
    && bool_decide (sc_last_attempt_at (ss_columns x) = sc_last_attempt_at (ss_columns seen)) in
  (select_where (fun x => negb (hit x)) t, List.find hit t).

Definition delete_session (session_id : string) (t : table) : table * bool :=
  (select_where (fun x => negb (has_id session_id x)) t, existsb (has_id session_id) t).

End Sessions.

(** ** Staging *)

Module Staging.

Record artifact : Type := mkArtifact {
  storage_backend : string;
  storage_key : string;
  bytes_size : Z;
  checksum : option string
}.

Definition staged_artifact_from_session (x : session) : artifact :=
  mkArtifact (sc_staged_storage_backend (ss_columns x)) (sc_staged_storage_key (ss_columns x))
    (sc_staged_bytes (ss_columns x)) (sc_staged_checksum (ss_columns x)).

Section staging.
Context {Sto : Type} {storage_class : ArtifactStorage Sto create_exc}.
Context (json_dumps : pyval -> string) (json_loads : string -> option pyval) (py_str : pyval -> string).

Definition normalize_backend (name : string) : string := Str.lower (Str.strip name).
(** [getattr(storage, "backend_name", "local") or "local"] *)
Definition backend_name_or_local (s : Sto) : string :=
  if Str.is_empty (backend_name s) then "local" else backend_name s.

Record staging_backend : Type := mkStaging {
  storage : Sto;
  storage_registry : gmap string Sto;
  chunk_size : nat;
  max_line_bytes : Z
}.

(** The keys are normalised, and the active storage is added by [setdefault]. *)
Definition make_staging (storage : Sto) (registry : list (string * Sto)) (chunk_size : nat) (max_line_bytes : Z) : staging_backend :=
  let m := fold_left (fun m '(k, v) => <[normalize_backend k := v]> m) registry ∅ in
  let active := normalize_backend (backend_name_or_local storage) in
  mkStaging storage (match m !! active with Some _ => m | None => <[active := storage]> m end) chunk_size max_line_bytes.

Definition unavailable (normalized : string) : create_exc :=
  CreateOther (plain_exn ("Storage backend '" ++ normalized
    ++ "' is unavailable; keep batch create-stage storage configured until sessions expire")).

Definition storage_for_backend (b : staging_backend) (name : string) : res create_exc (string * Sto) :=
  let normalized := normalize_backend (if Str.is_empty name then backend_name_or_local (storage b) else name) in
  match storage_registry b !! normalized with
  | Some s => Ret (normalized, s)
  | None => Raise (unavailable normalized)
  end.

(** *** Writing *)

Definition serialize (b : staging_backend) (r : staged_request) : res create_exc string :=
  let line := json_dumps (PyDict (to_jsonable r)) in
  if max_line_bytes b <? Z.of_nat (length (encode line))
  then Raise (ArtifactLineTooLong (sr_line_number r) (max_line_bytes b))
  else Ret line.

Fixpoint serialize_stream (b : staging_backend) (records : list staged_request) (ended : option create_exc)
    : stream string create_exc :=
  match records with
  | [] => mkStream [] ended
  | r :: records' =>
    match serialize b r with
    | Ret line => yield line (serialize_stream b records' ended)
    | Raise e => throw e
    end
  end.

(** The faults of the storage, the key drawn, and the temporary name. *)
Definition write_records (b : staging_backend) (d : disk create_exc) (key temp : string)
    (records : stream staged_request create_exc) : st store create_exc artifact :=
  let name := backend_name_or_local (storage b) in
  '(k, size, sum) ← on_backend (normalize_backend name)
    (put_chunks (storage b) d key temp
       (let lines := serialize_stream b (yielded records) (ended records) in
        mkStream (line_chunks (yielded lines)) (ended lines)));
  if ((size <=? 0) || Str.is_empty k : bool) then raise (value_error "staged batch-create artifact is empty")
  else mret (mkArtifact name k size (Some sum)).

(** *** Reading *)

Fixpoint parse_lines (lines : list string) (ended : option read_exc) : stream staged_request create_exc :=
  match lines with
  | [] => mkStream [] (of_read_exc <$> ended)
  | raw_line :: lines' =>
    let line := Str.strip raw_line in
    if Str.is_empty line then parse_lines lines' ended
    else match json_loads line with
         | None => throw (value_error "Invalid staged batch-create JSONL")
         | Some payload =>
           match from_jsonable py_str payload with
           | Ret r => yield r (parse_lines lines' ended)
           | Raise e => throw (StagedRequestError e)
           end
         end
  end.

Definition read_records (b : staging_backend) (fault : option create_exc) (a : artifact) (s : store)
    : stream staged_request create_exc :=
  match storage_for_backend b (storage_backend a) with
  | Raise e => throw e
  | Ret (name, sto) =>
    match iter_bytes sto fault (chunk_size b) (storage_key a) (files_of name s) with
    | Raise e => throw e
    | Ret chunks => let lines := iter_lines (Some (max_line_bytes b)) chunks in parse_lines (yielded lines) (ended lines)
    end
  end.

Definition delete_artifact (b : staging_backend) (fault : option create_exc) (a : artifact) : st store create_exc unit :=
  match storage_for_backend b (storage_backend a) with
  | Raise e => raise e
  | Ret (name, sto) => on_backend name (remove sto fault (storage_key a))
  end.

(** ** An artifact and its session *)

(** What fails while a session is staged: the disk, the database, and the
    deletion of each attempt; the identifiers drawn; the clock. *)
Record stage_env : Type := mkStageEnv {
  se_disk : disk create_exc;
  se_insert_fault : fault;
  se_delete_fault : nat -> option create_exc;
  se_key : string;
  se_temp : string;
  se_uuid4 : string;
  se_now : Z
}.

Definition COMPENSATION_ATTEMPTS : nat := 3.

(** [_compensate_orphaned_artifact]: [attempt] deletions are left. *)
Fixpoint compensate_orphaned_artifact (b : staging_backend) (fault : nat -> option create_exc) (attempts : nat)
    (a : artifact) (s : store) : store :=
  match attempts with
  | O => s
  | S k =>
    match delete_artifact b (fault (COMPENSATION_ATTEMPTS - attempts)%nat) a s with
    | (s', Ret _) => s'
    | (s', Raise _) => compensate_orphaned_artifact b fault k a s'
    end
  end.

Definition insert_session (env : stage_env) (c : session_create) : st store create_exc session := fun s =>
  let '(t, r) := Sessions.create_session (se_insert_fault env) (se_now env) (se_uuid4 env) c (st_sessions s) in
  (on_sessions (fun _ => t) s, match r with Ret x => Ret x | Raise e => Raise (CreateOther e) end).

(** The [try] around the row. *)
Definition register_session (b : staging_backend) (env : stage_env)
    (build_session : artifact -> res create_exc session_create) (a : artifact) : st store create_exc session := fun s =>
  match (match build_session a with Ret c => insert_session env c s | Raise e => (s, Raise e) end) with
  | (s', Ret x) => (s', Ret x)
  | (s', Raise e) => (compensate_orphaned_artifact b (se_delete_fault env) COMPENSATION_ATTEMPTS a s', Raise e)
  end.

Definition stage_session (b : staging_backend) (env : stage_env) (records : stream staged_request create_exc)
    (build_session : artifact -> res create_exc session_create) : st store create_exc session :=
  a ← write_records b (se_disk env) (se_key env) (se_temp env) records;
  register_session b env build_session a.
End staging.
End Staging.
Import Sessions Staging.

(** ** Lemmas *)

Lemma files_of_set b fs s : files_of b (set_files b fs s) = fs.
Proof. unfold files_of, set_files. cbn. by rewrite lookup_insert_eq. Qed.
Lemma files_of_set_ne b b' fs s : b <> b' -> files_of b' (set_files b fs s) = files_of b' s.
Proof. intros H. unfold files_of, set_files. cbn. by rewrite lookup_insert_ne. Qed.

(** The two stores differ at most in how an empty backend is written down. *)
Definition same_files (s s' : store) : Prop := forall b, files_of b s' = files_of b s.
Definition same_tables (s s' : store) : Prop := st_sessions s' = st_sessions s /\ st_db s' = st_db s.

Lemma same_files_set b s : same_files s (set_files b (files_of b s) s).
Proof. intros b'. destruct (decide (b = b')) as [<-|Hne]; [apply files_of_set|by apply files_of_set_ne]. Qed.

Section json_lines.
Context (json_dumps : pyval -> string) (json_loads : string -> option pyval).

(** What staging relies on of [json]: the text of the value is one line without
    blanks around it, and reads back as the value. *)
Record json_line (v : pyval) : Prop := mkJsonLine {
  jl_loads : json_loads (json_dumps v) = Some v;
  jl_line : LF ∉ list_ascii_of_string (json_dumps v);
  jl_strip : Str.strip (json_dumps v) = json_dumps v;
  jl_full : Str.is_empty (json_dumps v) = false
}.
End json_lines.

Lemma lines_file_cons s lines : lines_file (s :: lines) = encode s ++ LF :: lines_file lines.
Proof. unfold lines_file, read_bytes, line_chunks. cbn [map concat]. rewrite encode_app. by rewrite <- app_assoc. Qed.

(** Lines within the limit are read back. *)
Lemma lines_of_lines_file_max m lines n :
  Forall (fun s => (LF ∉ list_ascii_of_string s) /\ (Z.of_nat (length (encode s)) <= m)) lines ->
  lines_of (Some m) (lines_file lines) n = mkStream lines None.
Proof.
  intros Hl. revert n. induction Hl as [|s lines [Hs Hm] _ IH]; intros n; [done|].
  rewrite lines_file_cons.
  rewrite (lines_of_cut (Some m) (encode s ++ LF :: lines_file lines) (encode s) (lines_file lines))
    by (by apply cut_line_no_LF, encode_no_LF).
  unfold too_long. rewrite (proj2 (Z.ltb_ge _ _)) by done. by rewrite decode_encode, IH.
Qed.

Lemma iter_lines_lines_file m lines chunks : 0 <= m ->
  Forall (fun s => (LF ∉ list_ascii_of_string s) /\ (Z.of_nat (length (encode s)) <= m)) lines ->
  read_bytes chunks = lines_file lines -> iter_lines (Some m) chunks = mkStream lines None.
Proof.
  intros H0 Hl Hc. unfold iter_lines. rewrite iter_lines_from_lines; [|by intros k [= <-]|done|].
  - fold (read_bytes chunks). rewrite Hc. by apply lines_of_lines_file_max.
  - unfold too_long. apply Z.ltb_ge. simpl. lia.
Qed.

Section staging_lemmas.
Context {Sto : Type} {storage_class : ArtifactStorage Sto create_exc}.
Context (sha256 : bytes -> string) {storage_laws : ArtifactStorageLaws Sto create_exc sha256 MissingFile}.
Context (json_dumps : pyval -> string) (json_loads : string -> option pyval) (py_str : pyval -> string).
Implicit Types (b : @staging_backend Sto) (s : store).

(** The active storage is registered under its own name. *)
Definition active_name b : string := backend_name_or_local (storage b).
Definition active_key b : string := normalize_backend (active_name b).
Definition staging_ok b : Prop := storage_registry b !! active_key b = Some (storage b) /\ (0 < chunk_size b)%nat /\ 0 <= max_line_bytes b.

Lemma active_name_set b : Str.is_empty (active_name b) = false.
Proof. unfold active_name, backend_name_or_local. by destruct (Str.is_empty (backend_name (storage b))) eqn:E. Qed.

Lemma storage_for_active b : staging_ok b -> storage_for_backend b (active_name b) = Ret (active_key b, storage b).
Proof. intros [H _]. unfold storage_for_backend. rewrite active_name_set. fold (active_key b). by rewrite H. Qed.

Lemma serialize_stream_ok b records ended lines :
  serialize_stream json_dumps b records ended = mkStream lines None ->
  ended = None /\ lines = map (fun r => json_dumps (PyDict (to_jsonable r))) records /\
  Forall (fun r => Z.of_nat (length (encode (json_dumps (PyDict (to_jsonable r))))) <= max_line_bytes b) records.
Proof.
  revert lines. induction records as [|r records IH]; intros lines; cbn [serialize_stream].
  - intros [= <- ->]. done.
  - unfold serialize at 1. destruct (Z.ltb_spec (max_line_bytes b) (Z.of_nat (length (encode (json_dumps (PyDict (to_jsonable r)))))));
      [done|].
    destruct (serialize_stream json_dumps b records ended) as [l e] eqn:E. intros [= <- ->].
    destruct (IH l eq_refl) as (-> & -> & Hl). split_and!; [done|done|by constructor].
Qed.

(** What [write_records] leaves. *)
Lemma write_records_spec b d key temp records s : new_key key temp (files_of (active_key b) s) ->
  let '(s', r) := write_records json_dumps b d key temp records s in
  same_tables s s' /\
  match r with
  | Raise _ => same_files s s'
  | Ret a =>
      exists lines, serialize_stream json_dumps b (yielded records) (ended records) = mkStream lines None /\
        storage_backend a = active_name b /\ storage_key a = key /\ lines <> [] /\
        s' = set_files (active_key b) (<[key := lines_file lines]> (files_of (active_key b) s)) s
  end.
Proof.
  intros Hk. unfold write_records, on_backend, mbind, st_bind.
  pose proof (put_all_or_nothing (storage b) d key temp
    (let lines := serialize_stream json_dumps b (yielded records) (ended records) in
     mkStream (line_chunks (yielded lines)) (ended lines)) _ Hk) as H. fold (active_key b) in *.
  destruct (put_chunks _ _ _ _ _ _) as [fs [[[k size] sum]|e]]; cbn [yielded ended] in H.
  2: { split; [done|]. subst fs. apply same_files_set. }
  destruct H as (He & Hs & Hc & H).
  destruct (serialize_stream json_dumps b (yielded records) (ended records)) as [lines en] eqn:E. cbn [yielded ended] in *.
  subst en. fold (lines_file lines) in *. destruct lines as [|l lines].
  - destruct H as [-> ->]. subst size. cbn. split; [done|apply same_files_set].
  - rewrite lines_file_cons in *. destruct (encode l ++ LF :: lines_file lines) as [|a data] eqn:El.
    { by destruct (encode l). }
    destruct H as [-> ->]. replace (size <=? 0) with false by (symmetry; apply Z.leb_gt; subst size; simpl; lia).
    destruct Hk as (Hne & _). cbn [orb]. destruct (Str.is_empty key) eqn:Ek; [by destruct key|].
    split; [done|]. exists (l :: lines). split_and!; try done. by rewrite lines_file_cons, El.
Qed.

Definition staged_line (r : staged_request) : Prop :=
  staged_ok r /\ json_line json_dumps json_loads (PyDict (to_jsonable r)).

Lemma parse_lines_map records : Forall staged_line records ->
  parse_lines json_loads py_str (map (fun r => json_dumps (PyDict (to_jsonable r))) records) None = mkStream records None.
Proof.
  induction 1 as [|r records [Hok [Hl _ Hs Hf]] _ IH]; [done|]. cbn [map parse_lines]. rewrite Hs, Hf, Hl.
  rewrite from_to_jsonable by done. by rewrite IH.
Qed.

(** The lines of a staged artifact read back as the requests. *)
Lemma read_staged b a s records lines : staging_ok b ->
  storage_backend a = active_name b -> files_of (active_key b) s !! storage_key a = Some (lines_file lines) ->
  serialize_stream json_dumps b records None = mkStream lines None -> Forall staged_line records ->
  read_records json_loads py_str b None a s = mkStream records None.
Proof.
  intros Hb Ha Hf Hs Hr. unfold read_records. rewrite Ha, storage_for_active by done.
  pose proof (bytes_of (storage b) (chunk_size b) (storage_key a) (files_of (active_key b) s) (proj1 (proj2 Hb))) as H.
  rewrite Hf in H. destruct H as (chunks & -> & Hc).
  apply serialize_stream_ok in Hs as (_ & -> & Hlen).
  rewrite (iter_lines_lines_file (max_line_bytes b) (map (fun r => json_dumps (PyDict (to_jsonable r))) records));
    [by apply parse_lines_map|apply Hb| |done].
  rewrite Forall_map, Forall_forall. rewrite Forall_forall in Hr, Hlen. intros r Hin. cbn.
  split; [apply (Hr r Hin)|by apply Hlen].
Qed.

Lemma same_files_trans s1 s2 s3 : same_files s1 s2 -> same_files s2 s3 -> same_files s1 s3.
Proof. intros H1 H2 b. by rewrite H2. Qed.

(** One deletion of a staged artifact. *)
Lemma delete_staged b fault a s : staging_ok b -> storage_backend a = active_name b ->
  delete_artifact b fault a s =
  match fault with
  | Some e => (set_files (active_key b) (files_of (active_key b) s) s, Raise e)
  | None => (set_files (active_key b) (delete (storage_key a) (files_of (active_key b) s)) s, Ret tt)
  end.
Proof.
  intros Hb Ha. unfold delete_artifact. rewrite Ha, storage_for_active by done. unfold on_backend.
  destruct fault as [e|]; [by rewrite remove_fails|by rewrite remove_deletes].
Qed.

(** The compensation removes the artifact unless every deletion fails. *)
Lemma compensate_spec b fault attempts a s : staging_ok b -> storage_backend a = active_name b ->
  let s' := compensate_orphaned_artifact b fault attempts a s in
  same_tables s s' /\
  (files_of (active_key b) s' = delete (storage_key a) (files_of (active_key b) s)
   /\ (forall n : string, n <> active_key b -> files_of n s' = files_of n s)
   \/ forall i, (COMPENSATION_ATTEMPTS - attempts <= i < COMPENSATION_ATTEMPTS)%nat -> fault i <> None).
Proof.
  intros Hb Ha. revert s. induction attempts as [|k IH]; intros s; cbn [compensate_orphaned_artifact].
  { split; [done|]. right. intros i Hi. lia. }
  rewrite delete_staged by done. destruct (fault (COMPENSATION_ATTEMPTS - S k)%nat) as [e|] eqn:Ef.
  - specialize (IH (set_files (active_key b) (files_of (active_key b) s) s)). destruct IH as [Ht Hf]. split; [done|].
    destruct Hf as [[H1 H2]|H].
    + left. rewrite files_of_set in H1. split; [done|]. intros n Hne. rewrite H2 by done. by apply files_of_set_ne.
    + right. intros i Hi. destruct (decide (i = (COMPENSATION_ATTEMPTS - S k)%nat)) as [->|]; [by rewrite Ef|].
      apply H. unfold COMPENSATION_ATTEMPTS in *. lia.
  - split; [done|]. left. rewrite files_of_set. split; [done|]. intros n Hne. by apply files_of_set_ne.
Qed.

(** What the compensation leaves of a store with the new artifact. *)
Lemma compensate_undoes b fault a data s s1 : staging_ok b -> storage_backend a = active_name b ->
  files_of (active_key b) s !! storage_key a = None ->
  (forall n : string, files_of n s1
     = files_of n (set_files (active_key b) (<[storage_key a := data]> (files_of (active_key b) s)) s)) ->
  let s' := compensate_orphaned_artifact b fault COMPENSATION_ATTEMPTS a s1 in
  same_tables s1 s' /\ (same_files s s' \/ forall i, (i < COMPENSATION_ATTEMPTS)%nat -> fault i <> None).
Proof.
  intros Hb Ha Hnew Hf. destruct (compensate_spec b fault COMPENSATION_ATTEMPTS a s1 Hb Ha) as [Ht' H].
  split; [exact Ht'|]. destruct H as [[H1 H2]|H]; [left|right; intros i Hi; apply H; lia].
  intros n. destruct (decide (n = active_key b)) as [->|Hn].
  - rewrite H1, Hf, files_of_set, delete_insert_eq. by apply delete_id.
  - rewrite H2, Hf by done. by apply files_of_set_ne.
Qed.

(** The row an INSERT adds. *)
Record new_row (env : stage_env) (c : session_create) s (x : session) : Prop := mkNewRow {
  nr_apart : Forall (fun y => conflicts x y = false) (st_sessions s);
  nr_artifact : staged_artifact_from_session x
    = mkArtifact (sc_staged_storage_backend c) (sc_staged_storage_key c) (sc_staged_bytes c) (sc_staged_checksum c);
  nr_id : ss_session_id x = se_uuid4 env;
  nr_target : ss_target x = sc_target_batch_id c;
  nr_status : ss_status x = sc_status c
}.

Lemma insert_session_spec env c s :
  let '(s', r) := insert_session env c s in
  st_db s' = st_db s /\ st_files s' = st_files s /\
  match r with
  | Raise _ => st_sessions s' = st_sessions s \/
               exists e x, se_insert_fault env = AckLost e /\ st_sessions s' = st_sessions s ++ [x] /\ new_row env c s x
  | Ret x => st_sessions s' = st_sessions s ++ [x] /\ new_row env c s x
  end.
Proof.
  unfold insert_session, Sessions.create_session.
  destruct (normalize_idempotency_pair _ _) as [[scope key]|e]; [|by auto].
  assert (Hnew : forall x, x = mkSession (se_uuid4 env) (se_now env) (set_idempotency scope key c) ->
    existsb (conflicts x) (st_sessions s) = false -> new_row env c s x).
  { intros x -> E. constructor; try done. rewrite Forall_forall. intros y Hy. destruct (conflicts _ y) eqn:Ec; [|done].
    rewrite <- E. symmetry. apply existsb_exists. exists y. split; [by apply list_elem_of_In|done]. }
  destruct (se_insert_fault env) as [|e|e] eqn:Ef; [|by auto|]; (destruct (existsb _ _) eqn:E; [by auto|]).
  - cbn. split_and!; try done. by apply Hnew.
  - cbn. split_and!; try done. right. eexists e, _. split_and!; [done|done|by apply Hnew].
Qed.

Lemma stage_session_spec b env records build_session s :
  staging_ok b -> new_key (se_key env) (se_temp env) (files_of (active_key b) s) ->
  Forall staged_line (yielded records) ->
  (forall a c, build_session a = Ret c ->
     mkArtifact (sc_staged_storage_backend c) (sc_staged_storage_key c) (sc_staged_bytes c) (sc_staged_checksum c) = a) ->
  let '(s', r) := stage_session json_dumps b env records build_session s in
  st_db s' = st_db s /\
  match r with
  | Ret x => st_sessions s' = st_sessions s ++ [x] /\ ended records = None /\ yielded records <> [] /\
             read_records json_loads py_str b None (staged_artifact_from_session x) s' = mkStream (yielded records) None
  | Raise _ => (st_sessions s' = st_sessions s \/
                exists e x, se_insert_fault env = AckLost e /\ st_sessions s' = st_sessions s ++ [x] /\
                  ss_session_id x = se_uuid4 env /\ storage_key (staged_artifact_from_session x) = se_key env) /\
               (same_files s s' \/ forall i, (i < COMPENSATION_ATTEMPTS)%nat -> se_delete_fault env i <> None)
  end.
Proof.
  intros Hb Hk Hr Hbuild. unfold stage_session, mbind, st_bind.
  pose proof (write_records_spec b (se_disk env) (se_key env) (se_temp env) records s Hk) as Hw.
  destruct (write_records _ _ _ _ _ _ _) as [s1 [a|e]]; destruct Hw as [[Ht Hd] Hw]; [|by auto].
  destruct Hw as (lines & Hs & Ha & Hkey & Hne & Es1). unfold register_session.
  destruct (build_session a) as [c|e] eqn:Ec.
  - pose proof (insert_session_spec env c s1) as Hi.
    destruct (insert_session _ _ _) as [s2 [x|e]]; destruct Hi as (Hd2 & Hf2 & Hi).
    + destruct Hi as (Ht2 & [_ Hx _ _ _]). rewrite (Hbuild a c Ec) in Hx.
      destruct (serialize_stream_ok _ _ _ _ Hs) as (He & Hl & _). rewrite He in Hs. rewrite Hd2, Ht2, Hd, Ht.
      split; [done|]. split_and!; [done|done|intros Hy; rewrite Hy in Hl; by subst lines|].
      rewrite Hx. eapply read_staged; [done|done| |exact Hs|done].
      unfold files_of. rewrite Hf2. fold (files_of (active_key b) s1). rewrite Es1, files_of_set, Hkey. apply lookup_insert_eq.
    + destruct (compensate_undoes b (se_delete_fault env) a (lines_file lines) s s2) as [[Ht3 Hd3] Hf];
        [done|done|rewrite Hkey; apply Hk|intros n; unfold files_of; by rewrite Hf2, Es1, Hkey|].
      rewrite Hd3, Hd2, Ht3. split; [done|]. split; [|exact Hf].
      destruct Hi as [->|(e' & x & He & -> & [_ Hx Hid _ _])]; [by left|]. right. exists e', x. by rewrite Ht, Hx, (Hbuild a c Ec).
  - destruct (compensate_undoes b (se_delete_fault env) a (lines_file lines) s s1) as [[Ht3 Hd3] Hf];
      [done|done|rewrite Hkey; apply Hk|intros n; by rewrite Es1, Hkey|].
    rewrite Hd3, Ht3, Ht, Hd. auto.
Qed.

(** C32: A session and its artifact appear together or not at all, as long as
    the answer of the INSERT arrives.  If staging returns a session, its row is
    the only change of the tables, every request of the input came through, and
    the artifact the row points to reads back as exactly those requests, in
    order.  If it raises -- the input, the disk, the line limit, the request
    builder, the idempotency pair, a unique constraint or the database -- the
    files of every backend are as before unless all three compensating
    deletions failed, and the tables are as before unless the row was committed
    and its acknowledgement lost: then that row, which points to the drawn key
    of the compensated artifact, is the only one added.  Assumed: the storage is
    registered under its own name, the drawn key and temporary name are unused,
    the builder points the session at the artifact it is given, and each
    request has a normal form whose JSON text is one line that reads back. *)
Theorem stage_all_or_nothing b env records build_session s :
  staging_ok b -> new_key (se_key env) (se_temp env) (files_of (active_key b) s) ->
  Forall staged_line (yielded records) ->
  (forall a c, build_session a = Ret c ->
     mkArtifact (sc_staged_storage_backend c) (sc_staged_storage_key c) (sc_staged_bytes c) (sc_staged_checksum c) = a) ->
  let '(s', r) := stage_session json_dumps b env records build_session s in
  st_db s' = st_db s /\
  match r with
  | Ret x => st_sessions s' = st_sessions s ++ [x] /\ ended records = None /\ yielded records <> [] /\
             read_records json_loads py_str b None (staged_artifact_from_session x) s' = mkStream (yielded records) None
  | Raise _ => (st_sessions s' = st_sessions s \/
                exists e x, se_insert_fault env = AckLost e /\ st_sessions s' = st_sessions s ++ [x] /\
                  ss_session_id x = se_uuid4 env /\ storage_key (staged_artifact_from_session x) = se_key env) /\
               (same_files s s' \/ forall i, (i < COMPENSATION_ATTEMPTS)%nat -> se_delete_fault env i <> None)
  end.
Proof. exact (stage_session_spec b env records build_session s). Qed.
End staging_lemmas.

(** ** A concrete run *)

Definition sample_request (n : Z) (custom : string) : staged_request :=
  mkStaged n custom [("model", PyStr "m"); ("input", PyStr "text")] (Some "m") (Some "g") (Some n) None.

(** A text for each of the two requests. *)
Definition sample_dumps (v : pyval) : string :=
  match v with PyDict d => match vget d "custom_id" with PyStr s => "{" +:+ s +:+ "}" | _ => "{}" end | _ => "0" end.
Definition sample_loads (s : string) : option pyval :=
  if String.eqb s "{a}" then Some (PyDict (to_jsonable (sample_request 1 "a")))
  else if String.eqb s "{b}" then Some (PyDict (to_jsonable (sample_request 2 "b"))) else None.
Definition no_text (v : pyval) : string := "".

Definition sample_staging : staging_backend :=
  make_staging (Sto := local_storage) (storage_class := local_backend (fun _ => "sum") MissingFile) (mkLocal "/data") [] 3 100.

Definition sample_session_create (target : string) (a : artifact) : session_create :=
  mkSessionCreate target "/v1/embeddings" "file" (storage_backend a) (storage_key a) (bytes_size a) 2 STAGED (checksum a)
    (Some "m") None None (Some "standard") None (Some "team:t") (Some "team:t") (Some "team:t") (Some "key") None None 0
    (Some "sk") None (Some "t") None None None None.

Definition sample_env (uuid : string) : stage_env :=
  mkStageEnv (mkDisk (fun _ => None) None) NoFault (fun i => if (i =? 2)%nat then None else Some (CreateOther EAsyncioTimeout))
    ("batch-create-stage/" +:+ uuid) (".tmp-" +:+ uuid) uuid 1000.

Definition sample_stage (uuid target : string) (s : store) : store * res create_exc session :=
  stage_session (storage_class := local_backend (fun _ => "sum") MissingFile) sample_dumps sample_staging (sample_env uuid)
    (mkStream [sample_request 1 "a"; sample_request 2 "b"] None) (fun a => Ret (sample_session_create target a)) s.

Definition empty_store : store := mkStore [] empty_db ∅.
Definition staged_store : store := fst (sample_stage "u1" "batch-1" empty_store).

(** A row that was committed without an answer: the caller sees an error, the
    session stays staged, and its artifact is gone. *)
Definition unacknowledged_env (uuid : string) : stage_env :=
  mkStageEnv (mkDisk (fun _ => None) None) (AckLost EAsyncioTimeout) (fun _ => None)
    ("batch-create-stage/" +:+ uuid) (".tmp-" +:+ uuid) uuid 1000.
Definition unacknowledged_stage (s : store) : store * res create_exc session :=
  stage_session (storage_class := local_backend (fun _ => "sum") MissingFile) sample_dumps sample_staging (unacknowledged_env "u1")
    (mkStream [sample_request 1 "a"; sample_request 2 "b"] None) (fun a => Ret (sample_session_create "batch-1" a)) s.

Example unacknowledged_session_dangles :
  snd (unacknowledged_stage empty_store) = Raise (CreateOther EAsyncioTimeout) /\
  map (fun x => (ss_status x, storage_key (staged_artifact_from_session x))) (st_sessions (fst (unacknowledged_stage empty_store)))
  = [(STAGED, "batch-create-stage/u1")] /\
  files_of "local" (fst (unacknowledged_stage empty_store)) !! "batch-create-stage/u1" = None.
Proof. by vm_compute. Qed.

(** The first call stages a session; the second, with the same idempotency key,
    is refused and deletes its artifact at the third attempt. *)
Lemma stage_all_or_nothing_witness :
  (exists x, snd (sample_stage "u1" "batch-1" empty_store) = Ret x /\
     read_records (storage_class := local_backend (fun _ => "sum") MissingFile) sample_loads no_text sample_staging None
       (staged_artifact_from_session x) staged_store
     = mkStream [sample_request 1 "a"; sample_request 2 "b"] None) /\
  (exists e, snd (sample_stage "u2" "batch-2" staged_store) = Raise e) /\
  st_sessions (fst (sample_stage "u2" "batch-2" staged_store)) = st_sessions staged_store.
Proof.
  pose (laws := local_laws (fun _ => "sum") MissingFile).
  assert (Hl : Forall (staged_line sample_dumps sample_loads) [sample_request 1 "a"; sample_request 2 "b"]).
  { assert (Hone : forall n c, 1 <= n -> Str.strip c = c /\ Str.is_empty c = false -> staged_ok (sample_request n c)).
    { intros n c Hn Hc. constructor; cbn; [lia|done|by intros ? [= <-]|by intros ? [= <-]|by intros ? [= <-]|done]. }
    constructor; [|constructor; [|constructor]]; (split; [apply Hone; [lia|by split]|constructor]); try reflexivity;
      apply (bool_decide_unpack _); vm_compute; exact I. }
  assert (Hb : staging_ok (storage_class := local_backend (fun _ => "sum") MissingFile) sample_staging).
  { split_and!; [vm_compute; reflexivity|cbn; lia|cbn; lia]. }
  assert (Hbuild : forall target a c, @Ret create_exc _ (sample_session_create target a) = Ret c ->
     mkArtifact (sc_staged_storage_backend c) (sc_staged_storage_key c) (sc_staged_bytes c) (sc_staged_checksum c) = a).
  { intros target a c [= <-]. by destruct a. }
  pose proof (stage_all_or_nothing (fun _ => "sum") sample_dumps sample_loads no_text sample_staging (sample_env "u1")
    (mkStream [sample_request 1 "a"; sample_request 2 "b"] None) (fun a => Ret (sample_session_create "batch-1" a)) empty_store
    Hb ltac:(repeat split; try done; vm_compute; done) Hl (Hbuild "batch-1")) as H1.
  pose proof (stage_all_or_nothing (fun _ => "sum") sample_dumps sample_loads no_text sample_staging (sample_env "u2")
    (mkStream [sample_request 1 "a"; sample_request 2 "b"] None) (fun a => Ret (sample_session_create "batch-2" a)) staged_store
    Hb ltac:(repeat split; try done; vm_compute; done) Hl (Hbuild "batch-2")) as H2.
  fold (sample_stage "u1" "batch-1" empty_store) in H1. fold (sample_stage "u2" "batch-2" staged_store) in H2.
  assert (E1 : exists x, snd (sample_stage "u1" "batch-1" empty_store) = Ret x) by (eexists; vm_compute; reflexivity).
  assert (E2 : exists e, snd (sample_stage "u2" "batch-2" staged_store) = Raise e) by (eexists; vm_compute; reflexivity).
  unfold staged_store in *. split_and!.
  - destruct E1 as [x E1]. exists x. split; [done|].
    destruct (sample_stage "u1" "batch-1" empty_store) as [s r]. cbn [snd] in E1. subst r. apply H1.
  - done.
  - destruct E2 as [e E2]. destruct (sample_stage "u2" "batch-2" _) as [s r]. cbn [snd] in E2. subst r.
    destruct H2 as (_ & [H2|(e' & x & H2 & _)] & _); [exact H2|discriminate H2].
Defined.
