(* ===== verification/CreatePromotion.v ===== *)
(** * Promotion of create sessions: src/batch/create/promoter.py

    A staged session becomes a queued batch: its artifact is spooled, and one
    transaction creates the job and its items and completes the session.  The
    count of a tenant's queued work is [get_tenant_queued_work_units] of
    src/batch/repositories/job_repository.py. *)

From S2P Require Import Prelude PyVal Errors Calendar StorageBackends CreateModels BatchModels BatchDb Scheduling BatchItems.
From S2P Require Import BatchOutbox BatchBilling WorkClaim FairShare BatchJobs BatchStorage CreateSession.
Import CreateStatus Sessions Staging.

(** ** Configuration *)

Definition MIXED_MODEL_GROUP : string := "mixed".

(** [parse_tenant_scope_preference] of a text, a sequence or anything else. *)
Inductive scope_preference : Type := PrefText (s : string) | PrefList (l : list string) | PrefOther.
Definition parse_tenant_scope_preference (value : scope_preference) : list string :=
  Dimensions.normalize_tenant_scope_preference
    (match value with PrefText s => Str.split "," s | PrefList l => l | PrefOther => [] end).

Definition resolve_scheduler_version (active_enabled shadow_enabled : bool) (active_mode shadow_mode : option string)
    : string :=
  match active_mode, shadow_mode with
  | None, None =>
    if active_enabled then "scheduler_v2" else if shadow_enabled then "scheduler_v2_shadow"
    else Dimensions.DEFAULT_SCHEDULER_VERSION
  | _, _ => Modes.scheduler_version_for_modes
              (default Dimensions.DEFAULT_SCHEDULER_VERSION (text_orelse active_mode None))
              (default "none" (text_orelse shadow_mode None))
  end.

Record promoter : Type := mkPromoter {
  metadata_retention_days : Z;
  max_pending_batches_per_scope : Z;
  insert_chunk_size : nat;
  soft_precheck_enabled : bool;
  scheduler_enabled : bool;
  scheduler_shadow_enabled : bool;
  scheduler_mode : option string;
  scheduler_shadow_mode : option string;
  strict_model_homogeneity_enabled : bool;
  default_service_tier : string;
  tenant_scope_preference : list string;
  tenant_max_queued_work_units : Z
}.

(** [str(x or "standard").strip() or "standard"] *)
Definition normal_tier (tier : string) : string :=
  let t := Str.strip (if Str.is_empty tier then "standard" else tier) in if Str.is_empty t then "standard" else t.

(** [__init__] *)
Definition make_promoter (metadata_retention_days max_pending insert_chunk_size : Z) (soft_precheck scheduler shadow : bool)
    (mode shadow_mode : option string) (strict : bool) (tier : string) (preference : scope_preference)
    (tenant_max : Z) : promoter :=
  mkPromoter (Z.max 1 metadata_retention_days) (Z.max 0 max_pending) (Z.to_nat (Z.max 1 insert_chunk_size)) soft_precheck
    scheduler shadow mode shadow_mode strict (normal_tier tier) (parse_tenant_scope_preference preference)
    (Z.max 0 tenant_max).

Definition configure_scheduler (p : promoter) (scheduler shadow : bool) (mode shadow_mode : option string) (strict : bool)
    (tier : string) (preference : scope_preference) (tenant_max : Z) : promoter :=
  mkPromoter (metadata_retention_days p) (max_pending_batches_per_scope p) (insert_chunk_size p) (soft_precheck_enabled p)
    scheduler shadow mode shadow_mode strict (normal_tier tier) (parse_tenant_scope_preference preference)
    (Z.max 0 tenant_max).

(** ** A tenant's queued work *)

Section queued.
Context (sha256_hex : string -> string).

(** [item JOIN job] *)
Definition queued_for (now : Z) (p : Job.batch_job -> bool) (s : db) (i : Item.batch_item) : bool :=
  match job_row (Item.batch_id i) s with
  | Some j => match Job.status j with BatchJobStatus.QUEUED | BatchJobStatus.IN_PROGRESS => p j | _ => false end
  | None => false
  end
  && match Item.status i with
     | BatchItemStatus.PENDING => true
     | BatchItemStatus.IN_PROGRESS => if_set (fun t => t <? now) (Item.lease_expires_at i)
     | _ => false
     end.

(** [SUM(GREATEST(estimated_work_units, 1))] *)
Definition queued_units (now : Z) (p : Job.batch_job -> bool) (s : db) : Z :=
  foldr (fun i n => (if queued_for now p s i then Z.max 1 (Item.estimated_work_units i) else 0) + n) 0 (items s).

(** [$n <> '' AND column = $n] *)
Definition owner_is (column : option string) (value : string) : bool := negb (Str.is_empty value) && sql_eq column value.

Definition tenant_job (scope_type scope_id raw_api_key team organization user : string) (j : Job.batch_job) : bool :=
  (sql_eq (Job.tenant_scope_type j) scope_type && sql_eq (Job.tenant_scope_id j) scope_id)
  || (String.eqb scope_type "api_key"
      && (owner_is (Job.tenant_scope_id j) raw_api_key || owner_is (Job.created_by_api_key j) raw_api_key))
  || (String.eqb scope_type "team" && owner_is (Job.created_by_team_id j) team)
  || (String.eqb scope_type "organization" && owner_is (Job.created_by_organization_id j) organization)
  || (String.eqb scope_type "user" && owner_is (Job.created_by_user_id j) user).

Definition get_tenant_queued_work_units (now : Z) (tenant_scope_type tenant_scope_id : string)
    (created_by_api_key created_by_team_id created_by_organization_id created_by_user_id : option string) (s : db)
    : res exn Z :=
  let scope_type := Str.strip tenant_scope_type in
  let scope_id := Str.strip tenant_scope_id in
  let raw_api_key := stripped created_by_api_key in
  let hashed := Str.startswith scope_id Dimensions.API_KEY_TENANT_SCOPE_PREFIX in
  let count scope_id raw_api_key :=
    Ret (Z.max 0 (queued_units now (tenant_job scope_type scope_id raw_api_key (stripped created_by_team_id)
                                      (stripped created_by_organization_id) (stripped created_by_user_id)) s)) in
  if String.eqb scope_type "api_key" then
    let raw := if Str.is_empty raw_api_key && negb hashed then scope_id else raw_api_key in
    if Str.is_empty raw && hashed
    then Raise (plain_exn "created_by_api_key is required when counting api_key tenant backlog")
    else count (Dimensions.stable_tenant_scope_id sha256_hex scope_type scope_id) raw
  else count scope_id raw_api_key.
End queued.

(** ** Spooling *)

Record scheduling_summary : Type := mkSummary {
  sum_scheduling_model : option string;
  sum_scheduling_model_group : option string;
  sum_estimated_work_units : Z;
  sum_remaining_work_units : Z;
  sum_size_class : string;
  sum_mixed_model : bool
}.

Record promotion_result : Type := mkPromotionResult {
  pr_session_id : string;
  pr_batch_id : string;
  pr_promoted : bool;
  pr_job : option Job.batch_job
}.

(** What the loop over the staged requests has gathered. *)
Record spool_state : Type := mkSpool {
  sp_lines : list string;
  sp_count : Z;
  sp_first_model : option string;
  sp_first_model_group : option string;
  sp_estimated_work_units : Z;
  sp_mixed_model : bool
}.
Definition empty_spool : spool_state := mkSpool [] 0 None None 0 false.

(** What a promotion meets on its way: errors of the reading of the session,
    of the precheck, of the artifact, of the transaction and of the record of a
    failure; the clock; the identifiers of the items. *)
Record promotion_env : Type := mkPromotionEnv {
  pe_get_fault : option exn;
  pe_precheck_fault : option exn;
  pe_read_fault : option create_exc;
  pe_tx_fault : option exn;
  pe_record_fault : option exn;
  pe_now : Z;
  pe_uuid4 : nat -> string
}.

Definition opt_pystr (o : option string) : pyval := match o with Some s => PyStr s | None => PyNone end.

Definition session_not_found (session_id : string) : create_exc :=
  PromotionError ("Batch create session '" ++ session_id ++ "' was not found") "session_not_found" false.
Definition session_not_promotable (session_id : string) (status : create_status) : create_exc :=
  PromotionError ("Batch create session '" ++ session_id ++ "' is not promotable from status '"
                  ++ create_status_value status ++ "'") "session_not_promotable" false.
Definition completed_missing_batch (session_id target : string) : create_exc :=
  PromotionError ("Completed batch create session '" ++ session_id ++ "' is missing job '" ++ target ++ "'")
    "completed_session_missing_batch" false.

Definition store_transaction {A} (m : st store create_exc A) : st store create_exc A := fun s =>
  match m s with
  | (s', Ret a) => (s', Ret a)
  | (_, Raise e) => (s, Raise e)
  end.

Definition on_db {A} (m : st db exn A) : st store create_exc A := fun s =>
  let '(d, r) := m (st_db s) in
  (mkStore (st_sessions s) d (st_files s), match r with Ret a => Ret a | Raise e => Raise (CreateOther e) end).

Definition on_table {A} (f : list session -> list session * A) : st store create_exc A := fun s =>
  let '(t, a) := f (st_sessions s) in (on_sessions (fun _ => t) s, Ret a).

Definition PROMOTABLE : list create_status := [STAGED; FAILED_RETRYABLE].

Section promotion.
Context {Sto : Type} {storage_class : ArtifactStorage Sto create_exc}.
(** [json_dumps] is the compact text, of staged lines and of what the estimator
    measures; [sha256_hex] the digest of API keys. *)
Context (json_dumps : pyval -> string) (json_loads : string -> option pyval) (py_str : pyval -> string).
Context (sha256_hex : string -> string).
Context (model_group_resolver : option (string -> res exn (option string))).
Context (cfg : promoter) (b : @staging_backend Sto).
Implicit Types (x : session) (r : staged_request).

(** [str(v or "")]. *)
Definition str_or_empty (v : pyval) : string := if truthy v then text_of py_str v else "".
Definition dumps_chars (v : pyval) : option string := Some (json_dumps v).

(** [str((request_body or {}).get("model") or "").strip() or None] *)
Definition request_model (body : list (string * pyval)) : option string := or_none (stripped_text py_str (vget body "model")).

Definition item_scheduling_model r : option string :=
  match sr_scheduling_model r with Some m => Some m | None => request_model (sr_request_body r) end.
Definition item_scheduling_model_group r : option string :=
  match sr_scheduling_model_group r with
  | Some g => Some g
  | None => Dimensions.resolve_model_group (item_scheduling_model r) model_group_resolver
  end.
Definition item_work_units (endpoint : string) r : Z :=
  Z.max 1 (match sr_estimated_work_units r with
           | Some n => n
           | None => Estimator.estimate_request_work_units dumps_chars str_or_empty (Some endpoint)
                       (PyDict (sr_request_body r))
           end).

(** The line of one request in the spool. *)
Definition spool_payload (endpoint : string) r : list (string * pyval) :=
  dict_set (dict_set (dict_set (to_jsonable r) "scheduling_model" (opt_pystr (item_scheduling_model r)))
    "scheduling_model_group" (opt_pystr (item_scheduling_model_group r)))
    "estimated_work_units" (PyInt (item_work_units endpoint r)).

Definition mixed_model_batch : create_exc :=
  PromotionError "Staged batch create artifact contains multiple scheduler model dimensions" "mixed_model_batch" false.

Definition spool_record (endpoint : string) (acc : spool_state) r : res create_exc spool_state :=
  let m := item_scheduling_model r in
  let g := item_scheduling_model_group r in
  let write first first_group mixed :=
    Ret (mkSpool (sp_lines acc ++ [json_dumps (PyDict (spool_payload endpoint r))]) (sp_count acc + 1) first first_group
           (sp_estimated_work_units acc + item_work_units endpoint r) mixed) in
  match sp_first_model acc with
  | None => write m g (sp_mixed_model acc)
  | Some f =>
    if bool_decide (m = Some f) && bool_decide (g = sp_first_model_group acc)
    then write (sp_first_model acc) (sp_first_model_group acc) (sp_mixed_model acc)
    else if strict_model_homogeneity_enabled cfg then Raise mixed_model_batch
    else write (sp_first_model acc) (sp_first_model_group acc) true
  end.

Fixpoint spool_records (endpoint : string) (acc : spool_state) (records : list staged_request) (ended : option create_exc)
    : res create_exc spool_state :=
  match records with
  | [] => match ended with Some e => Raise e | None => Ret acc end
  | r :: records' => acc' ← spool_record endpoint acc r; spool_records endpoint acc' records' ended
  end.

(** The [except] clauses around the loop. *)
Definition spool_error (e : create_exc) : create_exc :=
  match e with
  | ArtifactLineTooLong n _ =>
    PromotionError ("Staged batch create artifact line " ++ Str.of_Z n ++ " exceeds the configured limit")
      "staged_artifact_invalid" false
  | StagedRequestError (StagedValueError m) =>
    PromotionError ("Staged batch create artifact is invalid: " ++ m) "staged_artifact_invalid" false
  | StagedRequestError (StagedPyError ValueError) =>
    PromotionError "Staged batch create artifact is invalid" "staged_artifact_invalid" false
  | PromotionError _ _ _ => e
  | _ => PromotionError ("Failed to read staged batch create artifact: " ++ create_exc_str e)
           "staged_artifact_unavailable" true
  end.

Definition item_count_mismatch (message : string) : create_exc := PromotionError message "item_count_mismatch" false.

Definition summarize (inferred_model : option string) (acc : spool_state) : scheduling_summary :=
  let units := sp_estimated_work_units acc in
  mkSummary
    (if sp_mixed_model acc then Some MIXED_MODEL_GROUP else text_orelse (sp_first_model acc) inferred_model)
    (if sp_mixed_model acc then Some MIXED_MODEL_GROUP
     else text_orelse (sp_first_model_group acc) (Dimensions.resolve_model_group inferred_model model_group_resolver))
    (Z.max 1 units) (Z.max 1 units) (Estimator.size_class_for_work_units (Some units)) (sp_mixed_model acc).

(** [_spool_staged_items]: every error is a [BatchCreatePromotionError]. *)
Definition spool_staged_items (env : promotion_env) x (s : store) : res create_exc (list string * Z * scheduling_summary) :=
  let records := read_records json_loads py_str b (pe_read_fault env) (staged_artifact_from_session x) s in
  match spool_records (sc_endpoint (ss_columns x)) empty_spool (yielded records) (ended records) with
  | Raise e => Raise (spool_error e)
  | Ret acc =>
    if (sp_count acc <=? 0) || negb (sp_count acc =? sc_expected_item_count (ss_columns x))
    then Raise (item_count_mismatch "Staged batch create artifact item count does not match the session contract")
    else Ret (sp_lines acc, sp_count acc, summarize (sc_inferred_model (ss_columns x)) acc)
  end.

(** ** Limits *)

Definition pending_limit_exceeded : create_exc :=
  PromotionError "Active batch count exceeds embeddings_batch_max_pending_batches_per_scope" "pending_limit_exceeded" true.
Definition tenant_queued_work_limit_exceeded : create_exc :=
  PromotionError "Tenant queued batch work exceeds embeddings_batch_tenant_max_queued_work_units"
    "tenant_queued_work_limit_exceeded" true.

(** The count of active jobs in the scope of the session, if it has one. *)
Definition active_jobs x (s : db) : option Z :=
  match batch_pending_scope_target_for_session x with
  | Some (_, _, created_by_api_key, created_by_team_id) =>
    Some (count_active_jobs_for_scope created_by_api_key created_by_team_id s)
  | None => None
  end.

Definition check_pending_capacity x (s : db) : res create_exc unit :=
  if max_pending_batches_per_scope cfg <=? 0 then Ret tt
  else match active_jobs x s with
       | Some n => if n <? max_pending_batches_per_scope cfg then Ret tt else Raise pending_limit_exceeded
       | None => Ret tt
       end.

Definition precheck_pending_capacity (env : promotion_env) x (s : store) : res create_exc unit :=
  if negb (soft_precheck_enabled cfg) || (max_pending_batches_per_scope cfg <=? 0) then Ret tt
  else match batch_pending_scope_target_for_session x, pe_precheck_fault env with
       | Some _, Some e => Raise (CreateOther e)
       | _, _ => check_pending_capacity x (st_db s)
       end.

Definition session_owners x : Dimensions.owners :=
  Dimensions.mkOwners (sc_created_by_organization_id (ss_columns x)) (sc_created_by_team_id (ss_columns x))
    (sc_created_by_api_key (ss_columns x)) (sc_created_by_user_id (ss_columns x)).

Definition session_tier x : option string :=
  text_orelse (sc_effective_service_tier (ss_columns x)) (Some (default_service_tier cfg)).

Definition session_dimensions x (summary : scheduling_summary) : Dimensions.BatchSchedulingDimensions :=
  Dimensions.build_scheduling_dimensions sha256_hex (sc_endpoint (ss_columns x)) (sc_inferred_model (ss_columns x))
    (sum_scheduling_model_group summary) (session_owners x) (session_tier x) (sum_estimated_work_units summary)
    (Some (sum_remaining_work_units summary)) None ESTIMATOR_VERSION [] false false (tenant_scope_preference cfg).

Definition tenant_queued (now : Z) x (summary : scheduling_summary) (s : db) : res exn Z :=
  let d := session_dimensions x summary in
  get_tenant_queued_work_units sha256_hex now (Dimensions.sd_tenant_scope_type d) (Dimensions.sd_tenant_scope_id d)
    (sc_created_by_api_key (ss_columns x)) (sc_created_by_team_id (ss_columns x))
    (sc_created_by_organization_id (ss_columns x)) (sc_created_by_user_id (ss_columns x)) s.

Definition check_tenant_queued (now : Z) x (summary : scheduling_summary) (s : db) : res create_exc unit :=
  if tenant_max_queued_work_units cfg <=? 0 then Ret tt
  else match tenant_queued now x summary s with
       | Raise e => Raise (CreateOther e)
       | Ret n => if n + Z.max 0 (sum_remaining_work_units summary) <=? tenant_max_queued_work_units cfg then Ret tt
                  else Raise tenant_queued_work_limit_exceeded
       end.

(** ** The transaction *)

Definition item_create r : BatchItemCreate :=
  mkItemCreate (sr_line_number r) (sr_custom_id r) (PyDict (sr_request_body r)) (sr_scheduling_model r)
    (sr_scheduling_model_group r)
    (match sr_estimated_work_units r with Some n => if n =? 0 then 1 else n | None => 1 end)
    (to_usec <$> sr_not_before_at r).

(** A line of the spool: [None] is blank. *)
Definition spool_line (raw_line : string) : res create_exc (option BatchItemCreate) :=
  let line := Str.strip raw_line in
  if Str.is_empty line then Ret None
  else match json_loads line with
       | None => Raise (value_error "JSONDecodeError")
       | Some payload =>
         match from_jsonable py_str payload with
         | Ret r => Ret (Some (item_create r))
         | Raise e => Raise (StagedRequestError e)
         end
       end.

Definition flush_items (now : Z) (uuid4 : nat -> string) (batch_id : string) (n : nat) (buffer : list BatchItemCreate)
    : st store create_exc Z :=
  on_db (create_items dumps_chars str_or_empty (fun i => uuid4 (n - length buffer + i)%nat) now batch_id buffer).

(** [_insert_items_from_spool]; [n] requests are read. *)
Fixpoint insert_spool (now : Z) (uuid4 : nat -> string) (batch_id : string) (n : nat) (buffer : list BatchItemCreate)
    (lines : list string) : st store create_exc Z :=
  match lines with
  | [] => match buffer with [] => mret 0 | _ => flush_items now uuid4 batch_id n buffer end
  | raw_line :: lines' =>
    match spool_line raw_line with
    | Raise e => raise e
    | Ret None => insert_spool now uuid4 batch_id n buffer lines'
    | Ret (Some c) =>
      let buffer' := buffer ++ [c] in
      if Nat.leb (insert_chunk_size cfg) (length buffer')
      then k ← flush_items now uuid4 batch_id (S n) buffer';
           m ← insert_spool now uuid4 batch_id (S n) [] lines';
           mret (k + m)
      else insert_spool now uuid4 batch_id (S n) buffer' lines'
    end
  end.

Definition promoted_job (now : Z) x (item_count : Z) (summary : scheduling_summary) : job_create :=
  mkJobCreate (sc_endpoint (ss_columns x)) (sc_inferred_model (ss_columns x)) (session_owners x)
    (Some (after_seconds now (metadata_retention_days cfg * 86400))) (inl BatchJobStatus.QUEUED) item_count
    (Some (resolve_scheduler_version (scheduler_enabled cfg) (scheduler_shadow_enabled cfg) (scheduler_mode cfg)
             (scheduler_shadow_mode cfg)))
    (sum_scheduling_model summary) (sum_scheduling_model_group summary) (Some (sc_endpoint (ss_columns x))) None None
    (session_tier x) (Some (sum_estimated_work_units summary)) (Some (sum_remaining_work_units summary))
    (Some (sum_size_class summary)) None (tenant_scope_preference cfg).

Definition complete_session (now : Z) (session_id message : string) : st store create_exc session :=
  completed ← on_table (mark_session_completed session_id now None true PROMOTABLE);
  match (completed : option session) with
  | Some x => mret x
  | None => raise (PromotionError message "session_update_failed" true)
  end.

(** The job, its items and the completed session. *)
Definition create_promoted (env : promotion_env) x (spool : list string) (item_count : Z) (summary : scheduling_summary)
    : st store create_exc promotion_result :=
  job ← on_db (create_job sha256_hex model_group_resolver (pe_now env) "" (Some (ss_target x))
                 (promoted_job (pe_now env) x item_count summary));
  match (job : option Job.batch_job) with
  | None => raise (PromotionError "Failed to create queued batch job" "job_create_failed" true)
  | Some j =>
    inserted ← insert_spool (pe_now env) (pe_uuid4 env) (Job.batch_id j) 0 [] spool;
    if (negb (inserted =? item_count) : bool) then raise (item_count_mismatch "Inserted batch items differ from the session")
    else y ← complete_session (pe_now env) (ss_session_id x) "Failed to mark batch create session completed";
         mret (mkPromotionResult (ss_session_id y) (Job.batch_id j) true (Some j))
  end.

(** [_promote_spooled_session] on the locked row. *)
Definition promote_locked (env : promotion_env) x (spool : list string) (item_count : Z) (summary : scheduling_summary)
    : st store create_exc promotion_result := fun s =>
  match job_row (ss_target x) (st_db s) with
  | Some j =>
    match ss_status x with
    | COMPLETED => (s, Ret (mkPromotionResult (ss_session_id x) (Job.batch_id j) false (Some j)))
    | _ => (y ← complete_session (pe_now env) (ss_session_id x) "Failed to reconcile existing batch with session";
            mret (mkPromotionResult (ss_session_id y) (Job.batch_id j) false (Some j))) s
    end
  | None =>
    match ss_status x with
    | COMPLETED => (s, Raise (completed_missing_batch (ss_session_id x) (ss_target x)))
    | status =>
      if negb (promotable status) then (s, Raise (session_not_promotable (ss_session_id x) status))
      else match check_pending_capacity x (st_db s) with
           | Raise e => (s, Raise e)
           | Ret _ =>
             match check_tenant_queued (pe_now env) x summary (st_db s) with
             | Raise e => (s, Raise e)
             | Ret _ => create_promoted env x spool item_count summary s
             end
           end
    end
  end.

Definition promote_spooled_session (env : promotion_env) (session_id : string) (spool : list string) (item_count : Z)
    (summary : scheduling_summary) : st store create_exc promotion_result :=
  store_transaction (fun s =>
    match get_session_for_update session_id (st_sessions s) with
    | None => (s, Raise (session_not_found session_id))
    | Some x =>
      match promote_locked env x spool item_count summary s, pe_tx_fault env with
      | (s', Ret _), Some e => (s', Raise (CreateOther e))
      | result, _ => result
      end
    end).

(** [_record_failure]: an error of it is logged. *)
Definition record_failure (env : promotion_env) x (code message : string) (retryable : bool) (s : store) : store :=
  if negb (promotable (ss_status x)) then s
  else match pe_record_fault env with
       | Some _ => s
       | None =>
         let record := if retryable then mark_session_failed_retryable else mark_session_failed_permanent in
         on_sessions (fun t => fst (record (ss_session_id x) (Some code) (Some message) (pe_now env) None true PROMOTABLE t)) s
       end.

Definition build_completed_result x (s : store) : res create_exc promotion_result :=
  match job_row (ss_target x) (st_db s) with
  | None => Raise (completed_missing_batch (ss_session_id x) (ss_target x))
  | Some j => Ret (mkPromotionResult (ss_session_id x) (Job.batch_id j) false (Some j))
  end.

Definition promotion_failed (session_id : string) (e : create_exc) : create_exc :=
  PromotionError ("Failed to promote batch create session '" ++ session_id ++ "': " ++ create_exc_str e)
    "promotion_failed" true.

(** Record the failure of [x] and raise it. *)
Definition fail_promotion {A} (env : promotion_env) x (e : create_exc) : st store create_exc A := fun s =>
  match e with
  | PromotionError message code retryable => (record_failure env x code message retryable s, Raise e)
  | _ => (s, Raise e)
  end.

Definition promote_session (env : promotion_env) (session_id : string) : st store create_exc promotion_result := fun s =>
  match pe_get_fault env with
  | Some e => (s, Raise (CreateOther e))
  | None =>
    match get_session session_id (st_sessions s) with
    | None => (s, Raise (session_not_found session_id))
    | Some x =>
      match ss_status x with
      | COMPLETED => (s, build_completed_result x s)
      | status =>
        if negb (promotable status) then (s, Raise (session_not_promotable session_id status))
        else match precheck_pending_capacity env x s with
             | Raise e => (s, Raise e)
             | Ret _ =>
               match spool_staged_items env x s with
               | Raise e => fail_promotion env x e s
               | Ret (spool, item_count, summary) =>
                 match promote_spooled_session env session_id spool item_count summary s with
                 | (s', Ret result) => (s', Ret result)
                 | (s', Raise (PromotionError _ _ _ as e)) => fail_promotion env x e s'
                 | (s', Raise e) => fail_promotion env x (promotion_failed session_id e) s'
                 end
               end
             end
      end
    end
  end.
End promotion.

(** ** Lemmas: the table of sessions *)

Abbreviation session_ids t := (map ss_session_id t).

Lemma find_has_id id t x : List.find (has_id id) t = Some x -> x ∈ t /\ ss_session_id x = id.
Proof. intros [Hin Hid]%find_some. split; [by apply list_elem_of_In|]. by apply String.eqb_eq in Hid. Qed.

Lemma update_session_ids id u from t : session_ids (fst (update_session id u from t)) = session_ids t.
Proof. cbn. by apply keys_update. Qed.

Lemma update_session_row id u from t y : y ∈ fst (update_session id u from t) ->
  exists x, x ∈ t /\ ss_session_id y = ss_session_id x /\
    y = if has_id id x && status_in from x then update_row u x else x.
Proof.
  unfold update_session. cbn [fst]. intros (x & Hx & ->)%elem_update. exists x. split_and!; [done| |done].
  by destruct (has_id id x && status_in from x).
Qed.

Lemma update_session_elem id u from t y : y ∈ fst (update_session id u from t) ->
  exists x, x ∈ t /\ ss_session_id y = ss_session_id x /\
    (y = x \/ ss_session_id x = id /\ status_in from x = true /\ ss_status y = su_status u).
Proof.
  cbn. intros (x & Hx & ->)%elem_update. exists x. split; [done|].
  destruct (has_id id x && status_in from x) eqn:E; [|by auto]. apply andb_true_iff in E as [E1 E2].
  apply String.eqb_eq in E1. split; [done|]. right. done.
Qed.

(** With the right statuses to start from, what is hit is the row found. *)
Lemma update_session_hit id u from t x : NoDup (session_ids t) -> get_session id t = Some x ->
  status_in from x = true -> snd (update_session id u from t) = Some (update_row u x).
Proof.
  intros Hnd Hx Hs. unfold update_session. cbn [snd]. pose proof (find_has_id _ _ _ Hx) as [Hin Hid].
  destruct (List.find _ t) as [y|] eqn:E.
  - apply find_some in E as [Hy E]. apply andb_true_iff in E as [E _]. apply String.eqb_eq in E.
    apply list_elem_of_In in Hy. by rewrite (NoDup_map_inj ss_session_id t y x Hnd Hy Hin) by congruence.
  - eapply find_none_forall in E; [|exact Hin]. unfold has_id in E. by rewrite Hid, String.eqb_refl, Hs in E.
Qed.

Lemma update_session_not_hit id u from t x : NoDup (session_ids t) -> get_session id t = Some x ->
  status_in from x = false -> update_session id u from t = (t, None).
Proof.
  intros Hnd Hx Hs. pose proof (find_has_id _ _ _ Hx) as [Hin Hid].
  assert (Hno : forall y, y ∈ t -> has_id id y && status_in from y = false).
  { intros y Hy. unfold has_id. destruct (String.eqb_spec (ss_session_id y) id) as [E|]; [|done].
    by rewrite (NoDup_map_inj ss_session_id t y x Hnd Hy Hin) by congruence. }
  unfold update_session. rewrite update_none by done. f_equal.
  destruct (List.find _ t) as [y|] eqn:E; [|done]. apply find_some in E as [Hy E]. apply list_elem_of_In in Hy.
  by rewrite Hno in E.
Qed.

(** ** Lemmas: a promotion *)

Section promotion_lemmas.
Context {Sto : Type} {storage_class : ArtifactStorage Sto create_exc}.
Context (json_dumps : pyval -> string) (json_loads : string -> option pyval) (py_str : pyval -> string).
Context (sha256_hex : string -> string) (model_group_resolver : option (string -> res exn (option string))).
Context (cfg : promoter) (b : @staging_backend Sto).
Implicit Types (x : session) (r : staged_request) (s : store).

#[local] Abbreviation chars := (dumps_chars json_dumps).
#[local] Abbreviation text := (str_or_empty py_str).
#[local] Abbreviation insert_spool := (insert_spool json_dumps json_loads py_str cfg).
#[local] Abbreviation insert_db := (insert_items_from_spool chars text).

(** The requests of the spool. *)
Fixpoint parse_spool (lines : list string) : res create_exc (list BatchItemCreate) :=
  match lines with
  | [] => Ret []
  | raw_line :: lines' =>
    c ← spool_line json_loads py_str raw_line;
    l ← parse_spool lines';
    Ret (match c with Some c => c :: l | None => l end)
  end.

Lemma parse_spool_length lines l : parse_spool lines = Ret l -> (length l <= length lines)%nat.
Proof.
  revert l. induction lines as [|a lines IH]; intros l H; cbn [parse_spool] in H; [by injection H as <-|].
  destruct (spool_line _ _ a) as [c|]; [|done]. cbn in H. destruct (parse_spool lines) as [l'|]; [|done]. cbn in H.
  specialize (IH l' eq_refl). destruct c; injection H as <-; simpl; lia.
Qed.

Definition with_db (d : db) s : store := mkStore (st_sessions s) d (st_files s).

Lemma on_db_ret {A} (m : st db exn A) s s' a : on_db m s = (s', Ret a) -> s' = with_db (st_db s') s /\ m (st_db s) = (st_db s', Ret a).
Proof. unfold on_db. destruct (m (st_db s)) as [d [a'|e]]; intros [= <- <-]. done. Qed.

(** Inserting from the spool is inserting the requests it parses to. *)
Lemma insert_spool_parse now uuid batch n buffer lines s s' k :
  insert_spool now uuid batch n buffer lines s = (s', Ret k) ->
  exists l, parse_spool lines = Ret l /\ s' = with_db (st_db s') s /\
    insert_db now uuid (insert_chunk_size cfg) batch n buffer l (st_db s) = (st_db s', Ret k).
Proof.
  revert n buffer s k. induction lines as [|a lines IH]; intros n buffer s k H; cbn [CreatePromotion.insert_spool parse_spool] in *.
  - exists []. split; [done|]. cbn [insert_items_from_spool]. destruct buffer as [|c buffer].
    { injection H as <- <-. split; [by destruct s|done]. }
    unfold flush_items in H. by apply on_db_ret in H.
  - destruct (spool_line _ _ a) as [[c|]|e]; [|by apply (IH n buffer s k) in H as (l & -> & H); exists l|done]. cbn [res_bind].
    destruct (Nat.leb _ _) eqn:El.
    + apply bind_ret_inv in H as (s1 & k1 & H1 & H). apply bind_ret_inv in H as (s2 & k2 & H2 & H). injection H as <- <-.
      apply on_db_ret in H1 as [E1 H1]. apply IH in H2 as (l & -> & E2 & H2). exists (c :: l). split; [done|].
      split; [rewrite E2, E1; done|]. cbn [insert_items_from_spool]. rewrite El.
      unfold mbind, st_bind. rewrite H1, H2. done.
    + apply IH in H as (l & -> & E & H). exists (c :: l). split; [done|]. split; [done|].
      cbn [insert_items_from_spool]. by rewrite El.
Qed.

(** *** The rows inserted *)

Definition rows_from (now : Z) (uuid : nat -> string) (batch : string) (first : nat) (l : list BatchItemCreate)
    : list Item.batch_item :=
  imap (fun i c => new_item chars text now batch (uuid (first + i)%nat) c) l.

Lemma rows_from_app now uuid batch first l1 l2 :
  rows_from now uuid batch first (l1 ++ l2)
  = rows_from now uuid batch first l1 ++ rows_from now uuid batch (first + length l1) l2.
Proof. unfold rows_from. rewrite imap_app. f_equal. apply imap_ext. intros i c _. cbn. do 2 f_equal. lia. Qed.

(** Some of the rows, and nothing else, are added. *)
Definition inserts (rows : list Item.batch_item) (d d' : db) (k : Z) : Prop :=
  exists new, d' = on_items (fun t => t ++ new) d /\ sublist new rows /\ k = Z.of_nat (length new).

Lemma inserts_nil d : inserts [] d d 0.
Proof. exists []. split_and!; [|constructor|done]. destruct d. unfold on_items. cbn. by rewrite app_nil_r. Qed.

Lemma inserts_app rows1 rows2 d d1 d2 k1 k2 :
  inserts rows1 d d1 k1 -> inserts rows2 d1 d2 k2 -> inserts (rows1 ++ rows2) d d2 (k1 + k2).
Proof.
  intros (n1 & -> & H1 & ->) (n2 & -> & H2 & ->). exists (n1 ++ n2). split_and!.
  - unfold on_items. cbn. by rewrite app_assoc.
  - by apply sublist_app.
  - rewrite length_app. lia.
Qed.

Lemma insert_chunk_inserts uuid now batch first l d d' k :
  insert_chunk chars text uuid now batch first l d = (d', Ret k) -> inserts (rows_from now uuid batch first l) d d' k.
Proof.
  unfold insert_chunk. fold (rows_from now uuid batch first l).
  destruct (insert_items _ (items d)) as [[t n]|e] eqn:E; [|done]. intros [= <- <-].
  apply insert_items_spec in E as (new & -> & Hs & -> & _). exists new. done.
Qed.

Lemma insert_chunks_inserts uuid now batch l k m d d' n :
  (length l <= (m + k) * MAX_BULK_INSERT_ROWS)%nat ->
  insert_chunks chars text uuid now batch (map (fun k => (k * MAX_BULK_INSERT_ROWS)%nat) (seq k m)) l d = (d', Ret n) ->
  inserts (rows_from now uuid batch (k * MAX_BULK_INSERT_ROWS) (drop (k * MAX_BULK_INSERT_ROWS) l)) d d' n.
Proof.
  revert k d n. induction m as [|m IH]; intros k d n Hl H; cbn [seq map insert_chunks] in H.
  - injection H as <- <-. rewrite drop_ge by lia. apply inserts_nil.
  - apply bind_ret_inv in H as (d1 & n1 & H1 & H). apply bind_ret_inv in H as (d2 & n2 & H2 & H). injection H as <- <-.
    apply insert_chunk_inserts in H1. apply IH in H2; [|lia].
    set (rest := drop (k * MAX_BULK_INSERT_ROWS) l) in *.
    replace (drop (S k * MAX_BULK_INSERT_ROWS) l) with (drop MAX_BULK_INSERT_ROWS rest) in H2
      by (unfold rest; rewrite drop_drop; f_equal; lia).
    rewrite <- (take_drop MAX_BULK_INSERT_ROWS rest), rows_from_app. eapply inserts_app; [exact H1|].
    destruct (Nat.le_gt_cases (length rest) MAX_BULK_INSERT_ROWS) as [Hle|Hgt].
    + rewrite drop_ge by done. rewrite drop_ge in H2 by done. exact H2.
    + rewrite length_take, Nat.min_l by lia. replace (k * MAX_BULK_INSERT_ROWS + MAX_BULK_INSERT_ROWS)%nat
        with (S k * MAX_BULK_INSERT_ROWS)%nat by lia. exact H2.
Qed.

Lemma create_items_inserts uuid now batch l d d' k :
  create_items chars text uuid now batch l d = (d', Ret k) -> inserts (rows_from now uuid batch 0 l) d d' k.
Proof.
  destruct l as [|c l]; [intros [= <- <-]; apply inserts_nil|]. unfold create_items, chunk_starts.
  intros H. apply insert_chunks_inserts in H; [exact H|]. rewrite Nat.add_0_r.
  set (n := length (c :: l)). pose proof (Nat.div_mod (n + (MAX_BULK_INSERT_ROWS - 1)) MAX_BULK_INSERT_ROWS ltac:(done)) as Hd.
  pose proof (Nat.mod_upper_bound (n + (MAX_BULK_INSERT_ROWS - 1)) MAX_BULK_INSERT_ROWS ltac:(done)) as Hm.
  assert (HM : (0 < MAX_BULK_INSERT_ROWS)%nat) by (unfold MAX_BULK_INSERT_ROWS; lia). lia.
Qed.

Lemma rows_from_shift uuid now batch first l : rows_from now (fun i => uuid (first + i)%nat) batch 0 l = rows_from now uuid batch first l.
Proof. done. Qed.

Lemma insert_db_inserts now uuid size batch n buffer l d d' k : (length buffer <= n)%nat ->
  insert_db now uuid size batch n buffer l d = (d', Ret k) ->
  inserts (rows_from now uuid batch (n - length buffer) (buffer ++ l)) d d' k.
Proof.
  revert n buffer d k. induction l as [|c l IH]; intros n buffer d k Hn H; cbn [insert_items_from_spool] in H.
  - rewrite app_nil_r. destruct buffer as [|c buffer]; [injection H as <- <-; apply inserts_nil|].
    by apply create_items_inserts in H.
  - rewrite (app_assoc buffer [c] l : buffer ++ c :: l = _).
    assert (Hlen : length (buffer ++ [c]) = S (length buffer)) by (rewrite length_app; simpl; lia).
    destruct (Nat.leb _ _).
    + apply bind_ret_inv in H as (d1 & k1 & H1 & H). apply bind_ret_inv in H as (d2 & k2 & H2 & H). injection H as <- <-.
      apply create_items_inserts in H1. rewrite rows_from_shift, Hlen in H1. apply IH in H2; [|simpl; lia].
      rewrite rows_from_app, Hlen. eapply inserts_app; [exact H1|].
      replace (n - length buffer + S (length buffer))%nat with (S n) by lia. simpl in H2. exact H2.
    + apply IH in H; [|rewrite Hlen; lia]. rewrite Hlen in H. exact H.
Qed.

(** All of them, when their number is that of the requests. *)
Lemma insert_db_all now uuid size batch l d d' : 
  insert_db now uuid size batch 0 [] l d = (d', Ret (Z.of_nat (length l))) ->
  d' = on_items (fun t => t ++ rows_from now uuid batch 0 l) d.
Proof.
  intros H. apply insert_db_inserts in H; [|simpl; lia]. destruct H as (new & -> & Hs & Hk).
  assert (new = rows_from now uuid batch 0 l) as ->; [|done].
  apply sublist_all; [exact Hs|]. unfold rows_from. rewrite length_imap. lia.
Qed.
(** *** What a promotion did *)

#[local] Abbreviation promote_spooled :=
  (promote_spooled_session json_dumps json_loads py_str sha256_hex model_group_resolver cfg).
#[local] Abbreviation promoted_job := (promoted_job cfg).
#[local] Abbreviation create_job := (create_job sha256_hex model_group_resolver).
#[local] Abbreviation check_pending := (check_pending_capacity cfg).
#[local] Abbreviation check_tenant := (check_tenant_queued sha256_hex cfg).
#[local] Abbreviation completed_table env x :=
  (fun t => mark_session_completed (ss_session_id x) (pe_now env) None true PROMOTABLE t).

Record promoted (env : promotion_env) (id : string) (spool : list string) (n : Z) (summary : scheduling_summary)
    (s s' : store) (p : promotion_result) (x : session) (l : list BatchItemCreate) (d : db) : Prop := mkPromoted {
  pd_session : get_session id (st_sessions s) = Some x;
  pd_promotable : promotable (ss_status x) = true;
  pd_new : job_row (ss_target x) (st_db s) = None;
  pd_pending : check_pending x (st_db s) = Ret tt;
  pd_tenant : check_tenant (pe_now env) x summary (st_db s) = Ret tt;
  pd_parse : parse_spool spool = Ret l;
  pd_job : create_job (pe_now env) "" (Some (ss_target x)) (promoted_job (pe_now env) x n summary) (st_db s)
           = (d, Ret (pr_job p));
  pd_id : exists j, pr_job p = Some j /\ pr_batch_id p = Job.batch_id j;
  pd_items : insert_db (pe_now env) (pe_uuid4 env) (insert_chunk_size cfg) (pr_batch_id p) 0 [] l d
             = (st_db s', Ret n);
  pd_sessions : st_sessions s' = fst (completed_table env x (st_sessions s));
  pd_completed : exists y, snd (completed_table env x (st_sessions s)) = Some y /\ pr_session_id p = ss_session_id y;
  pd_files : st_files s' = st_files s
}.

Lemma complete_session_ret now id m s s' y : complete_session now id m s = (s', Ret y) ->
  s' = on_sessions (fun t => fst (mark_session_completed id now None true PROMOTABLE t)) s /\
  snd (mark_session_completed id now None true PROMOTABLE (st_sessions s)) = Some y.
Proof.
  unfold complete_session, on_table, mbind, st_bind.
  destruct (mark_session_completed id now None true PROMOTABLE (st_sessions s)) as [t [z|]] eqn:E; [|done].
  intros [= <- <-]. split; [|done]. unfold on_sessions. by rewrite E.
Qed.

(** On a locked row without a batch only a new batch is an answer. *)
Lemma promote_locked_new env x spool n summary s s' p : job_row (ss_target x) (st_db s) = None ->
  promote_locked json_dumps json_loads py_str sha256_hex model_group_resolver cfg env x spool n summary s = (s', Ret p) ->
  pr_promoted p = true.
Proof.
  intros Hj H. unfold promote_locked in H. rewrite Hj in H.
  assert (Hc : create_promoted json_dumps json_loads py_str sha256_hex model_group_resolver cfg env x spool n summary s = (s', Ret p)).
  { destruct (ss_status x); cbn [promotable negb] in H; try done; by repeat (case_match; try done). }
  unfold create_promoted in Hc. apply bind_ret_inv in Hc as (s1 & [j|] & _ & Hc); [|done].
  apply bind_ret_inv in Hc as (s2 & k & _ & Hc). destruct (negb (k =? n)); [done|].
  apply bind_ret_inv in Hc as (s3 & y & _ & Hc). by injection Hc as _ <-.
Qed.

Lemma promote_spooled_inv env id spool n summary s s' p :
  promote_spooled env id spool n summary s = (s', Ret p) -> pr_promoted p = true ->
  exists x l d, promoted env id spool n summary s s' p x l d.
Proof.
  unfold promote_spooled_session, store_transaction. intros H Hp.
  destruct (get_session_for_update id (st_sessions s)) as [x|] eqn:Hx; [|done].
  destruct (promote_locked _ _ _ _ _ _ _ _ _ _ _ s) as [s1 [p1|e]] eqn:Hl; [|done].
  destruct (pe_tx_fault env); [done|]. injection H as <- <-. unfold promote_locked in Hl.
  destruct (job_row (ss_target x) (st_db s)) as [j|] eqn:Hj.
  { destruct (ss_status x); try (injection Hl as <- <-; done);
      (apply bind_ret_inv in Hl as (s2 & y & _ & Hl); injection Hl as <- <-; done). }
  assert (Hpr : promotable (ss_status x) = true /\ check_pending x (st_db s) = Ret tt /\
                check_tenant (pe_now env) x summary (st_db s) = Ret tt /\
                create_promoted json_dumps json_loads py_str sha256_hex model_group_resolver cfg env x spool n summary s = (s1, Ret p1)).
  { destruct (ss_status x) eqn:Est; try done; cbn [promotable negb] in *;
      (destruct (check_pending x (st_db s)) as [[]|]; [|done]);
      (destruct (check_tenant (pe_now env) x summary (st_db s)) as [[]|]; [done|done]). }
  destruct Hpr as (Hpr & Hc1 & Hc2 & H). unfold create_promoted in H.
  apply bind_ret_inv in H as (s2 & job & H1 & H). apply on_db_ret in H1 as [E1 H1]. destruct job as [j|]; [|done].
  apply bind_ret_inv in H as (s3 & k & H2 & H). apply insert_spool_parse in H2 as (l & Hp2 & E2 & H2).
  destruct (Z.eqb_spec k n) as [->|]; [|done]. cbn [negb] in H.
  apply bind_ret_inv in H as (s4 & y & H3 & H). injection H as -> <-. apply complete_session_ret in H3 as [E3 H3].
  exists x, l, (st_db s2). rewrite E2, E1 in E3, H3. cbn [with_db st_sessions] in H3. subst s1.
  constructor; try done; cbn; [by exists j|by exists y].
Qed.
Lemma default_text t : default "" (text_orelse (Some t) None) = t.
Proof. unfold text_orelse. by destruct (Str.is_empty t) eqn:E; [apply String.eqb_eq in E as ->|]. Qed.

Lemma create_job_rows now target c d d' j : jc_status c = inl BatchJobStatus.QUEUED ->
  create_job now "" (Some target) c d = (d', Ret (Some j)) ->
  j = new_job sha256_hex model_group_resolver now target BatchJobStatus.QUEUED c /\
  items d' = items d /\ jobs d' = jobs d ++ [j] /\ target ∉ map Job.batch_id (jobs d).
Proof.
  intros Hc H. unfold BatchJobs.create_job in H. rewrite Hc, default_text in H. cbn [BatchJobStatus.normalize_batch_job_status] in H.
  set (j0 := new_job _ _ _ _ _ _) in *.
  apply bind_ret_inv in H as (d1 & [] & Hins & H). apply bind_ret_inv in H as (d2 & y & Hf & H). injection H as -> <-.
  pose proof (queue_flow_same sha256_hex now j0 16 8 d1) as [Hi Hj]. rewrite Hf in Hi, Hj. cbn [fst] in *.
  unfold insert_job in Hins. destruct (existsb _ _) eqn:E; [done|]. injection Hins as <-. cbn in Hi, Hj.
  split_and!; [done|done|done|]. intros (z & Hz & Hin)%list_elem_of_fmap. apply not_true_iff_false in E.
  apply E, existsb_exists. exists z. rewrite <- list_elem_of_In. split; [done|]. unfold is_job. cbn.
  rewrite <- Hz. apply String.eqb_refl.
Qed.

(** The batch of a promotion: one job, and its items. *)
Lemma promoted_rows env id spool n summary s s' p x l d : Z.of_nat (length spool) = n ->
  promoted env id spool n summary s s' p x l d ->
  n = Z.of_nat (length l) /\ pr_batch_id p = ss_target x /\
  exists j, pr_job p = Some j /\
    j = new_job sha256_hex model_group_resolver (pe_now env) (ss_target x) BatchJobStatus.QUEUED
          (promoted_job (pe_now env) x n summary) /\
    jobs (st_db s') = jobs (st_db s) ++ [j] /\
    items (st_db s') = items (st_db s) ++ rows_from (pe_now env) (pe_uuid4 env) (ss_target x) 0 l /\
    ss_target x ∉ map Job.batch_id (jobs (st_db s)).
Proof.
  intros Hn [Hx Hpr Hnew _ _ Hparse Hjob [j [Hj Hid]] Hit _ _ _]. rewrite Hj in Hjob.
  apply create_job_rows in Hjob as (Ej & Hi & Hjs & Hno); [|done].
  assert (Hb : Job.batch_id j = ss_target x) by by rewrite Ej. rewrite Hid, Hb in Hit.
  assert (Hlen : n = Z.of_nat (length l)).
  { apply parse_spool_length in Hparse. apply insert_db_inserts in Hit as (new & _ & Hs & Hk); [|simpl; lia].
    apply sublist_length in Hs. unfold rows_from in Hs. rewrite length_imap in Hs. simpl in Hs. lia. }
  rewrite Hlen in Hit. apply insert_db_all in Hit. split; [done|]. split; [by rewrite Hid|].
  exists j. rewrite Hit. cbn. by rewrite Hi.
Qed.

Lemma promoted_refines env id spool n summary s s' p x l d : Z.of_nat (length spool) = n ->
  promoted env id spool n summary s s' p x l d ->
  promote sha256_hex model_group_resolver chars text (pe_now env) (pe_uuid4 env) (insert_chunk_size cfg) (ss_target x)
    (promoted_job (pe_now env) x n summary) l (st_db s) = (st_db s', Ret true).
Proof.
  intros Hn Hp. destruct (promoted_rows _ _ _ _ _ _ _ _ _ _ _ Hn Hp) as (Hlen & Hb & _).
  destruct Hp as [Hx Hpr Hnew _ _ Hparse Hjob [j [Hj Hid]] Hit _ _ _]. unfold promote. apply transaction_ret. rewrite Hnew.
  unfold mbind, st_bind. rewrite Hlen in Hjob, Hit. rewrite Hj in Hjob. rewrite Hlen. unfold CreatePromotion.promoted_job in *. cbn [jc_endpoint jc_model jc_owners jc_expires_at jc_scheduler_version
    jc_scheduling_model jc_scheduling_model_group jc_service_tier jc_estimated_work_units jc_remaining_work_units jc_size_class
    jc_tenant_scope_preference]. rewrite Hjob. rewrite Hid in Hit. rewrite Hit. by rewrite Z.eqb_refl.
Qed.

(** *** A promotion that nothing stops *)

Lemma unique_keys_app_l t1 t2 : unique_keys (t1 ++ t2) -> unique_keys t1.
Proof.
  unfold unique_keys. rewrite !map_app. intros (H1 & H2 & H3).
  split_and!; [apply NoDup_app in H1 as [? _]|apply NoDup_app in H2 as [? _]|apply NoDup_app in H3 as [? _]]; done.
Qed.

Lemma insert_items_all rows t : unique_keys (t ++ rows) -> insert_items rows t = Ret (t ++ rows, Z.of_nat (length rows)).
Proof.
  revert t. induction rows as [|r rows IH]; intros t H; cbn [insert_items]; [by rewrite app_nil_r|].
  rewrite (app_assoc t [r] rows : t ++ r :: rows = _) in *. pose proof (unique_keys_app_l _ _ H) as (U1 & U2 & U3).
  rewrite map_app in U1, U2, U3.
  assert (Hno : forall i, i ∈ t -> Item.item_id i <> Item.item_id r /\
    (Item.batch_id i, Item.line_number i) <> (Item.batch_id r, Item.line_number r) /\
    (Item.batch_id i, Item.custom_id i) <> (Item.batch_id r, Item.custom_id r)).
  { intros i Hx. apply NoDup_app in U1 as (_ & U1 & _), U2 as (_ & U2 & _), U3 as (_ & U3 & _).
    split_and!; intros E.
    - apply (U1 (Item.item_id i)); [by apply list_elem_of_fmap_2|rewrite E; by left].
    - apply (U2 (Item.batch_id i, Item.line_number i));
        [by apply (list_elem_of_fmap_2 (fun k : Item.batch_item => (Item.batch_id k, Item.line_number k)))|rewrite E; by left].
    - apply (U3 (Item.batch_id i, Item.custom_id i));
        [by apply (list_elem_of_fmap_2 (fun k : Item.batch_item => (Item.batch_id k, Item.custom_id k)))|rewrite E; by left]. }
  unfold insert_item.
  replace (existsb (fun i => String.eqb (Item.batch_id i) (Item.batch_id r) && (Item.line_number i =? Item.line_number r)) t)
    with false.
  2: { symmetry. apply not_true_iff_false. intros (i & Hx & E)%existsb_exists. apply list_elem_of_In in Hx.
       destruct (Hno i Hx) as (_ & N & _). apply andb_true_iff in E as [E1 E2]. apply String.eqb_eq in E1.
       apply Z.eqb_eq in E2. congruence. }
  replace (existsb (fun i => String.eqb (Item.item_id i) (Item.item_id r) ||
    (String.eqb (Item.batch_id i) (Item.batch_id r) && String.eqb (Item.custom_id i) (Item.custom_id r))) t) with false.
  2: { symmetry. apply not_true_iff_false. intros (i & Hx & E)%existsb_exists. apply list_elem_of_In in Hx.
       destruct (Hno i Hx) as (N1 & _ & N2). apply orb_true_iff in E as [E|E]; [by apply String.eqb_eq in E|].
       apply andb_true_iff in E as [E1 E2]. apply String.eqb_eq in E1, E2. congruence. }
  simpl. rewrite (IH (t ++ [r]) H). simpl. do 3 f_equal. lia.
Qed.

Lemma insert_chunk_all uuid now batch first l d : unique_keys (items d ++ rows_from now uuid batch first l) ->
  insert_chunk chars text uuid now batch first l d
  = (on_items (fun t => t ++ rows_from now uuid batch first l) d, Ret (Z.of_nat (length l))).
Proof.
  intros H. unfold insert_chunk. fold (rows_from now uuid batch first l). rewrite insert_items_all by done.
  unfold rows_from. by rewrite length_imap.
Qed.

Lemma insert_chunks_all uuid now batch l k m d : (length l <= (m + k) * MAX_BULK_INSERT_ROWS)%nat ->
  let first := (k * MAX_BULK_INSERT_ROWS)%nat in
  unique_keys (items d ++ rows_from now uuid batch first (drop first l)) ->
  insert_chunks chars text uuid now batch (map (fun k => (k * MAX_BULK_INSERT_ROWS)%nat) (seq k m)) l d
  = (on_items (fun t => t ++ rows_from now uuid batch first (drop first l)) d, Ret (Z.of_nat (length (drop first l)))).
Proof.
  revert k d. induction m as [|m IH]; intros k d Hl first Hu; cbn [seq map insert_chunks].
  - unfold first. rewrite drop_ge by lia. unfold mret, st_ret. f_equal. destruct d. unfold on_items. cbn. by rewrite app_nil_r.
  - fold first. set (rest := drop first l) in *.
    rewrite <- (take_drop MAX_BULK_INSERT_ROWS rest), rows_from_app in Hu |- *.
    assert (Hfirst : rows_from now uuid batch (first + length (take MAX_BULK_INSERT_ROWS rest)) (drop MAX_BULK_INSERT_ROWS rest)
                     = rows_from now uuid batch (S k * MAX_BULK_INSERT_ROWS) (drop (S k * MAX_BULK_INSERT_ROWS) l)).
    { replace (drop (S k * MAX_BULK_INSERT_ROWS) l) with (drop MAX_BULK_INSERT_ROWS rest)
        by (unfold rest, first; rewrite drop_drop; f_equal; lia).
      destruct (Nat.le_gt_cases (length rest) MAX_BULK_INSERT_ROWS) as [Hle|Hgt]; [by rewrite drop_ge|].
      rewrite length_take, Nat.min_l by lia. f_equal. unfold first. lia. }
    rewrite !take_drop. rewrite Hfirst in Hu |- *. rewrite app_assoc in Hu. unfold mbind, st_bind.
    rewrite insert_chunk_all by (by eapply unique_keys_app_l). rewrite IH; [|lia|exact Hu].
    unfold mret, st_ret. f_equal.
    + unfold on_items. cbn. by rewrite <- app_assoc.
    + f_equal. rewrite <- Nat2Z.inj_add. f_equal. rewrite <- (take_drop MAX_BULK_INSERT_ROWS rest) at 2. rewrite length_app. f_equal.
      replace (drop (S k * MAX_BULK_INSERT_ROWS) l) with (drop MAX_BULK_INSERT_ROWS rest)
        by (unfold rest, first; rewrite drop_drop; f_equal; lia). done.
Qed.

Lemma create_items_all uuid now batch l d : unique_keys (items d ++ rows_from now uuid batch 0 l) ->
  create_items chars text uuid now batch l d
  = (on_items (fun t => t ++ rows_from now uuid batch 0 l) d, Ret (Z.of_nat (length l))).
Proof.
  destruct l as [|c l]; [intros _; unfold create_items, mret, st_ret; destruct d; unfold on_items; cbn; by rewrite app_nil_r|].
  unfold create_items, chunk_starts. intros H. apply (insert_chunks_all uuid now batch (c :: l) 0); [|exact H].
  rewrite Nat.add_0_r.
  set (n := length (c :: l)). pose proof (Nat.div_mod (n + (MAX_BULK_INSERT_ROWS - 1)) MAX_BULK_INSERT_ROWS ltac:(done)) as Hd.
  pose proof (Nat.mod_upper_bound (n + (MAX_BULK_INSERT_ROWS - 1)) MAX_BULK_INSERT_ROWS ltac:(done)) as Hm.
  assert (HM : (0 < MAX_BULK_INSERT_ROWS)%nat) by (unfold MAX_BULK_INSERT_ROWS; lia). lia.
Qed.

Lemma insert_db_succeeds now uuid size batch n buffer l d : (length buffer <= n)%nat ->
  unique_keys (items d ++ rows_from now uuid batch (n - length buffer) (buffer ++ l)) ->
  insert_db now uuid size batch n buffer l d
  = (on_items (fun t => t ++ rows_from now uuid batch (n - length buffer) (buffer ++ l)) d,
     Ret (Z.of_nat (length (buffer ++ l)))).
Proof.
  revert n buffer d. induction l as [|c l IH]; intros n buffer d Hn Hu; cbn [insert_items_from_spool].
  - rewrite app_nil_r in *. destruct buffer as [|c buffer].
    + unfold mret, st_ret. destruct d. unfold on_items. cbn. by rewrite app_nil_r.
    + rewrite <- rows_from_shift in Hu |- *. by apply create_items_all.
  - rewrite (app_assoc buffer [c] l : buffer ++ c :: l = _) in *.
    assert (Hlen : length (buffer ++ [c]) = S (length buffer)) by (rewrite length_app; simpl; lia).
    assert (En : (S n - length (buffer ++ [c]) = n - length buffer)%nat) by (rewrite Hlen; lia).
    destruct (Nat.leb _ _).
    + rewrite rows_from_app, app_assoc in Hu. rewrite En. unfold mbind, st_bind.
      rewrite create_items_all by (rewrite rows_from_shift; by eapply unique_keys_app_l). rewrite rows_from_shift.
      rewrite IH; [|simpl; lia|].
      * unfold mret, st_ret. cbn [app length]. rewrite Nat.sub_0_r. f_equal.
        -- unfold on_items. cbn. f_equal. rewrite (rows_from_app _ _ _ _ (buffer ++ [c]) l), <- app_assoc.
           replace (n - length buffer + length (buffer ++ [c]))%nat with (S n) by lia. done.
        -- rewrite (length_app (buffer ++ [c]) l). f_equal. lia.
      * cbn [app length items on_items]. rewrite Nat.sub_0_r.
        replace (n - length buffer + length (buffer ++ [c]))%nat with (S n) in Hu by lia. exact Hu.
    + rewrite IH; rewrite ?En; [done|lia|done].
Qed.

Lemma insert_spool_ok now uuid batch n buffer lines l s d k : parse_spool lines = Ret l ->
  insert_db now uuid (insert_chunk_size cfg) batch n buffer l (st_db s) = (d, Ret k) ->
  insert_spool now uuid batch n buffer lines s = (with_db d s, Ret k).
Proof.
  revert n buffer l s k. induction lines as [|a lines IH]; intros n buffer l s k Hp H;
    cbn [CreatePromotion.insert_spool parse_spool] in *.
  - injection Hp as <-. cbn [insert_items_from_spool] in H. destruct buffer as [|c buffer].
    + injection H as <- <-. unfold mret, st_ret. by destruct s.
    + unfold flush_items, on_db. by rewrite H.
  - destruct (spool_line _ _ a) as [c|e]; [|done]. cbn [res_bind] in Hp.
    destruct (parse_spool lines) as [l'|e]; [|done]. injection Hp as Hp. destruct c as [c|]; [|by apply (IH n buffer l); [congruence|]].
    subst l. cbn [insert_items_from_spool] in H. destruct (Nat.leb _ _); [|by apply (IH _ _ l')].
    apply bind_ret_inv in H as (d1 & k1 & H1 & H). apply bind_ret_inv in H as (d2 & k2 & H2 & H). injection H as -> <-.
    unfold mbind, st_bind, flush_items, on_db. rewrite H1. by rewrite (IH _ _ l' _ k2).
Qed.

(** *** What the spool holds *)

Definition units_of (endpoint : string) (records : list staged_request) : Z :=
  foldr (fun r n => item_work_units json_dumps py_str endpoint r + n) 0 records.

#[local] Abbreviation payload := (spool_payload json_dumps py_str model_group_resolver).

Lemma spool_record_lines endpoint acc r acc' :
  spool_record json_dumps py_str model_group_resolver cfg endpoint acc r = Ret acc' ->
  sp_lines acc' = sp_lines acc ++ [json_dumps (PyDict (payload endpoint r))] /\ sp_count acc' = sp_count acc + 1 /\
  sp_estimated_work_units acc' = sp_estimated_work_units acc + item_work_units json_dumps py_str endpoint r.
Proof. unfold spool_record. repeat case_match; intros [= <-]; done. Qed.

Lemma spool_records_lines endpoint acc records ended acc' :
  spool_records json_dumps py_str model_group_resolver cfg endpoint acc records ended = Ret acc' ->
  ended = None /\ sp_lines acc' = sp_lines acc ++ map (fun r => json_dumps (PyDict (payload endpoint r))) records /\
  sp_count acc' = sp_count acc + Z.of_nat (length records) /\
  sp_estimated_work_units acc' = sp_estimated_work_units acc + units_of endpoint records.
Proof.
  revert acc. induction records as [|r records IH]; intros acc H; cbn [spool_records] in H.
  - destruct ended; [done|]. injection H as <-. rewrite app_nil_r. split_and!; cbn; [done|done|lia|lia].
  - destruct (spool_record _ _ _ _ _ acc r) as [acc1|] eqn:E; [|done]. cbn [res_bind] in H.
    destruct (IH acc1 H) as (-> & -> & -> & ->). apply spool_record_lines in E as (-> & -> & ->).
    cbn [map length units_of foldr]. rewrite <- app_assoc. split_and!; [done|done|lia|fold (units_of endpoint records); lia].
Qed.

(** Without the strict mode the loop ends as the artifact does. *)
Lemma spool_records_ok endpoint acc records : strict_model_homogeneity_enabled cfg = false ->
  exists acc', spool_records json_dumps py_str model_group_resolver cfg endpoint acc records None = Ret acc'.
Proof.
  intros Hs. revert acc. induction records as [|r records IH]; intros acc; cbn [spool_records]; [by eexists|].
  assert (exists a, spool_record json_dumps py_str model_group_resolver cfg endpoint acc r = Ret a) as [a ->]; [|apply IH].
  unfold spool_record. rewrite Hs. repeat case_match; by eexists.
Qed.

(** The request as the spool hands it on. *)
Definition spooled (endpoint : string) r : staged_request :=
  mkStaged (sr_line_number r) (sr_custom_id r) (sr_request_body r)
    (or_none (stripped_text py_str (opt_pystr (item_scheduling_model py_str r))))
    (or_none (stripped_text py_str (opt_pystr (item_scheduling_model_group py_str model_group_resolver r))))
    (Some (item_work_units json_dumps py_str endpoint r)) (sr_not_before_at r).

Lemma spool_payload_fields endpoint r :
  vget (payload endpoint r) "line_number" = PyInt (sr_line_number r) /\
  vget (payload endpoint r) "custom_id" = PyStr (sr_custom_id r) /\
  vget (payload endpoint r) "request_body" = PyDict (sr_request_body r) /\
  vget (payload endpoint r) "scheduling_model" = opt_pystr (item_scheduling_model py_str r) /\
  vget (payload endpoint r) "scheduling_model_group" = opt_pystr (item_scheduling_model_group py_str model_group_resolver r) /\
  vget (payload endpoint r) "estimated_work_units" = PyInt (item_work_units json_dumps py_str endpoint r) /\
  vget (payload endpoint r) "not_before_at" = match sr_not_before_at r with Some t => PyStr (isoformat t) | None => PyNone end.
Proof.
  unfold spool_payload. generalize (item_scheduling_model_group py_str model_group_resolver r), (item_work_units json_dumps py_str endpoint r).
  generalize (item_scheduling_model py_str r). intros m g u.
  destruct r as [n c body [m'|] [g'|] [u'|] [t|]]; repeat split.
Qed.

Lemma item_work_units_pos endpoint r : 1 <= item_work_units json_dumps py_str endpoint r.
Proof. unfold item_work_units. lia. Qed.

Lemma spool_line_payload endpoint r : staged_ok r ->
  json_line json_dumps json_loads (PyDict (payload endpoint r)) ->
  spool_line json_loads py_str (json_dumps (PyDict (payload endpoint r))) = Ret (Some (item_create (spooled endpoint r))).
Proof.
  intros [Hn [Hc Hce] _ _ _ Ht] [Hl _ Hs Hf]. unfold spool_line. rewrite Hs, Hf, Hl. unfold from_jsonable.
  destruct (spool_payload_fields endpoint r) as (-> & -> & -> & -> & -> & -> & ->). unfold py_or. cbn [truthy].
  destruct (Z.eqb_spec (sr_line_number r) 0); [lia|]. cbn [negb py_int of_conversion res_bind]. rewrite Hce. cbn [negb text_of].
  unfold make_staged.
  rewrite (stripped_text_str py_str _ Hc), Hce. unfold parse_optional_work_units. cbn [py_int].
  pose proof (item_work_units_pos endpoint r) as Hu. rewrite Z.max_r by done. cbn [res_bind].
  assert (parse_optional_datetime (JsonTime (match sr_not_before_at r with Some t => PyStr (isoformat t) | None => PyNone end))
          = Ret (sr_not_before_at r)) as ->.
  { destruct (sr_not_before_at r) as [t|]; [|done]. apply parse_optional_datetime_isoformat, (Ht t eq_refl). }
  cbn -[Z.leb item_create spooled]. rewrite (proj2 (Z.leb_gt _ _)) by lia. done.
Qed.

Lemma parse_spool_payloads endpoint records :
  Forall (fun r => staged_ok r /\ json_line json_dumps json_loads (PyDict (payload endpoint r))) records ->
  parse_spool (map (fun r => json_dumps (PyDict (payload endpoint r))) records)
  = Ret (map (fun r => item_create (spooled endpoint r)) records).
Proof.
  induction 1 as [|r records [Hok Hj] _ IH]; [done|]. cbn [map parse_spool]. rewrite spool_line_payload by done.
  cbn [res_bind]. rewrite IH. done.
Qed.
End promotion_lemmas.
