(* ===== verification/CreateCleanup.v ===== *)
(** * Cleaning up create sessions

    src/batch/create/cleanup.py: a round of the cleanup worker.
    src/batch/create/admin_service.py: an administrator retries or expires a
    session. *)

From S2P Require Import Prelude PyVal Errors Calendar BatchStorage StorageBackends CreateModels BatchModels BatchDb BatchItems.
From S2P Require Import Scheduling BatchJobs CreateSession CreatePromotion.
Import CreateStatus Sessions Staging.

(** ** Configuration *)

Record cleanup_config : Type := mkCleanupConfig {
  scan_limit : Z;
  orphan_grace_seconds : Z;
  completed_retention_seconds : Z;
  retryable_retention_seconds : Z;
  failed_retention_seconds : Z
}.
Definition default_cleanup_config : cleanup_config := mkCleanupConfig 200 3600 604800 259200 1209600.

Definition before (now seconds : Z) : Z := now - seconds * usec.
Definition cutoffs_at (c : cleanup_config) (now : Z) : cutoffs :=
  mkCutoffs now (before now (completed_retention_seconds c)) (before now (retryable_retention_seconds c))
    (before now (failed_retention_seconds c)).

Section cleanup.
Context {Sto : Type} {storage_class : ArtifactStorage Sto create_exc}.
Context (b : @staging_backend Sto).
Implicit Types (x : session) (a : artifact) (s : store).

(** ** Orphans *)

(** [(entry.modified_at, backend_name, entry.storage_key)] *)
Definition candidate_le (x y : string * list_entry) : bool :=
  match Z.compare (to_usec (le_modified_at (snd x))) (to_usec (le_modified_at (snd y))) with
  | Lt => true
  | Gt => false
  | Eq => match String.compare (fst x) (fst y) with
          | Lt => true
          | Gt => false
          | Eq => String.leb (le_storage_key (snd x)) (le_storage_key (snd y))
          end
  end.

(** The entries of every storage; [listing] is what its [list_entries] gives. *)
Fixpoint gather (listing : string -> Sto -> res create_exc (list list_entry)) (l : list (string * Sto))
    : res create_exc (list (string * list_entry)) :=
  match l with
  | [] => Ret []
  | (name, sto) :: l' =>
    entries ← listing name sto;
    rest ← gather listing l';
    Ret (map (fun e => (name, e)) entries ++ rest)
  end.

Definition list_orphan_candidates (listing : string -> Sto -> res create_exc (list list_entry)) (limit : Z)
    : res create_exc (list artifact) :=
  candidates ← gather listing (map_to_list (storage_registry b));
  Ret (map (fun '(name, e) => mkArtifact name (le_storage_key e) 0 None)
           (take (Z.to_nat (Z.max 1 limit)) (order_by candidate_le candidates))).

(** ** One round *)

(** What a round meets: errors of the statements and of the deletions, by the
    number of the candidate. *)
Record cleanup_env : Type := mkCleanupEnv {
  ce_now : Z;
  ce_list_fault : option exn;
  ce_row_fault : nat -> option exn;
  ce_delete_fault : nat -> option create_exc;
  ce_listing : string -> Sto -> res create_exc (list list_entry);
  ce_reference_fault : nat -> option exn;
  ce_orphan_fault : nat -> option create_exc
}.

(** Delete an artifact; an error is logged: was it deleted? *)
Definition try_delete (fault : option create_exc) a s : store * bool :=
  match delete_artifact b fault a s with
  | (s', Ret _) => (s', true)
  | (s', Raise _) => (s', false)
  end.

(** The candidates, with the numbers of sessions and artifacts deleted. *)
Fixpoint delete_candidates (env : cleanup_env) (i : nat) (l : list session) (sessions artifacts : Z)
    : st store create_exc (Z * Z) := fun s =>
  match l with
  | [] => (s, Ret (sessions, artifacts))
  | x :: l' =>
    match ce_row_fault env i with
    | Some e => (s, Raise (CreateOther e))
    | None =>
      let '(t, deleted) := delete_cleanup_candidate x (st_sessions s) in
      let s := on_sessions (fun _ => t) s in
      match deleted with
      | None => delete_candidates env (S i) l' sessions artifacts s
      | Some y =>
        let '(s, ok) := try_delete (ce_delete_fault env i) (staged_artifact_from_session y) s in
        delete_candidates env (S i) l' (sessions + 1) (artifacts + (if ok : bool then 1 else 0)) s
      end
    end
  end.

Fixpoint delete_orphans (env : cleanup_env) (i : nat) (l : list artifact) (sessions artifacts : Z)
    : st store create_exc (Z * Z) := fun s =>
  match l with
  | [] => (s, Ret (sessions, artifacts))
  | a :: l' =>
    match ce_reference_fault env i with
    | Some e => (s, Raise (CreateOther e))
    | None =>
      if is_stage_artifact_referenced (storage_backend a) (storage_key a) (st_sessions s)
      then delete_orphans env (S i) l' sessions artifacts s
      else
        let '(s, ok) := try_delete (ce_orphan_fault env i) a s in
        delete_orphans env (S i) l' sessions (artifacts + (if ok : bool then 1 else 0)) s
    end
  end.

(** [process_once]; the refresh of the metrics reads only. *)
Definition process_once (c : cleanup_config) (env : cleanup_env) : st store create_exc (Z * Z) := fun s =>
  match ce_list_fault env with
  | Some e => (s, Raise (CreateOther e))
  | None =>
    let candidates := list_cleanup_candidates (cutoffs_at c (ce_now env)) (scan_limit c) (st_sessions s) in
    match delete_candidates env 0 candidates 0 0 s with
    | (s, Raise e) => (s, Raise e)
    | (s, Ret (sessions, artifacts)) =>
      match list_orphan_candidates (ce_listing env) (scan_limit c) with
      | Raise e => (s, Raise e)
      | Ret orphans => delete_orphans env 0 orphans sessions artifacts s
      end
    end
  end.

(** ** Administration *)

Definition session_missing : create_exc := HTTPException 404 "Batch create session not found".

Definition http_exception_for_promotion_error (code message : string) : create_exc :=
  if String.eqb code "pending_limit_exceeded" || String.eqb code "tenant_queued_work_limit_exceeded"
  then HTTPException 429 message
  else if String.eqb code "staged_artifact_invalid" || String.eqb code "item_count_mismatch" then HTTPException 400 message
  else if String.eqb code "session_not_promotable" then HTTPException 409 message
  else if String.eqb code "session_not_found" then HTTPException 404 message
  else HTTPException 503 message.

Definition retry_session (promote_session : string -> st store create_exc promotion_result) (session_id : string)
    : st store create_exc (session * promotion_result) := fun s =>
  match get_session session_id (st_sessions s) with
  | None => (s, Raise session_missing)
  | Some x =>
    if negb (promotable (ss_status x))
    then (s, Raise (HTTPException 400 ("Batch create session cannot be retried from '"
                                       ++ create_status_value (ss_status x) ++ "' status")))
    else match promote_session session_id s with
         | (s', Raise (PromotionError message code _)) => (s', Raise (http_exception_for_promotion_error code message))
         | (s', Raise e) => (s', Raise e)
         | (s', Ret p) =>
           match get_session session_id (st_sessions s') with
           | None => (s', Raise (HTTPException 503 ("Batch create session '" ++ session_id ++ "' disappeared after retry")))
           | Some y => (s', Ret (y, p))
           end
         end
  end.

Definition EXPIRABLE : list create_status := [STAGED; FAILED_RETRYABLE; FAILED_PERMANENT].

(** [interfere] is what other processes do between the read and the update. *)
Definition expire_session (interfere : store -> store) (now : Z) (fault : option create_exc) (session_id : string)
    : st store create_exc (session * bool) := fun s =>
  match get_session session_id (st_sessions s) with
  | None => (s, Raise session_missing)
  | Some x =>
    if negb (expirable (ss_status x))
    then (s, Raise (HTTPException 400 ("Batch create session cannot be expired from '"
                                       ++ create_status_value (ss_status x) ++ "' status")))
    else
      let s := interfere s in
      let '(t, updated) := mark_session_expired session_id now EXPIRABLE (st_sessions s) in
      let s := on_sessions (fun _ => t) s in
      match updated with
      | None =>
        match get_session session_id (st_sessions s) with
        | None => (s, Raise session_missing)
        | Some y => (s, Raise (HTTPException 409 ("Batch create session changed while expiring and is now in '"
                                                  ++ create_status_value (ss_status y) ++ "' status")))
        end
      | Some y =>
        let '(s, ok) := try_delete fault (staged_artifact_from_session y) s in (s, Ret (y, ok))
      end
  end.
End cleanup.

(** ** A round keeps what is live *)

Section cleanup_lemmas.
Context {Sto : Type} {storage_class : ArtifactStorage Sto create_exc}.
Context (sha256 : bytes -> string) {storage_laws : ArtifactStorageLaws Sto create_exc sha256 MissingFile}.
Context (b : @staging_backend Sto).
Implicit Types (x y : session) (a : artifact) (s : store) (t : list session).

(** Where the artifact of a session is. *)
Definition place x : string * string := (sc_staged_storage_backend (ss_columns x), sc_staged_storage_key (ss_columns x)).

(** A backend's name as it is registered. *)
Definition normal_name (n : string) : Prop := Str.is_empty n = false /\ Str.strip n = n /\ normalize_backend n = n.

(** Sessions have artifacts of their own, under keys without blanks around. *)
Record artifacts_ok t : Prop := mkArtifactsOk {
  ao_ids : NoDup (map ss_session_id t);
  ao_places : NoDup (map place t);
  ao_names : Forall (fun x => normal_name (fst (place x)) /\ Str.strip (snd (place x)) = snd (place x)) t
}.
Definition registry_ok : Prop := forall n, is_Some (storage_registry b !! n) -> normal_name n.

Definition file_at (p : string * string) s : option bytes := files_of (fst p) s !! snd p.

(** Only the file of the artifact may go. *)
Lemma try_delete_spec fault a s s' ok : Str.is_empty (storage_backend a) = false ->
  try_delete b fault a s = (s', ok) ->
  same_tables s s' /\
  (forall p, p <> (normalize_backend (storage_backend a), storage_key a) -> file_at p s' = file_at p s) /\
  (forall p, file_at p s = None -> file_at p s' = None) /\
  (ok = true -> file_at (normalize_backend (storage_backend a), storage_key a) s' = None).
Proof.
  intros Hn. unfold try_delete, delete_artifact, storage_for_backend. rewrite Hn.
  set (n := normalize_backend (storage_backend a)).
  destruct (storage_registry b !! n) as [sto|]; [|intros [= <- <-]; by split_and!]. unfold on_backend.
  assert (Hset : forall fs p, fst p <> n \/ fs !! snd p = files_of n s !! snd p -> file_at p (set_files n fs s) = file_at p s).
  { intros fs [n' k] Hp. unfold file_at. cbn [fst snd] in *. destruct (decide (n' = n)) as [->|Hne].
    - rewrite files_of_set. by destruct Hp.
    - by rewrite files_of_set_ne by congruence. }
  destruct fault as [e|].
  - rewrite remove_fails. intros [= <- <-]. split_and!; [done| | |done]; intros p Hp; rewrite Hset; auto.
  - rewrite remove_deletes. intros [= <- <-]. split_and!; [done| | |].
    + intros [n' k] Hp. apply Hset. cbn. destruct (decide (n' = n)) as [->|]; [right|by left].
      apply lookup_delete_ne. congruence.
    + intros [n' k] Hp. unfold file_at in *. cbn [fst snd] in *. destruct (decide (n' = n)) as [->|Hne].
      * rewrite files_of_set. destruct (decide (k = storage_key a)) as [->|Hk]; [apply lookup_delete_eq|].
        by rewrite lookup_delete_ne by congruence.
      * by rewrite files_of_set_ne by congruence.
    + intros _. unfold file_at. cbn [fst snd]. rewrite files_of_set. apply lookup_delete_eq.
Qed.

(** Rows that are there now were there before, with their files. *)
Record kept (due : session -> Prop) s s' : Prop := mkKept {
  kp_db : st_db s' = st_db s;
  kp_rows : forall y, y ∈ st_sessions s' -> y ∈ st_sessions s;
  kp_ok : artifacts_ok (st_sessions s');
  kp_files : forall y, y ∈ st_sessions s' -> file_at (place y) s' = file_at (place y) s;
  kp_gone : forall p, file_at p s = None -> file_at p s' = None;
  kp_due : forall y, y ∈ st_sessions s -> y ∈ st_sessions s' \/ due y
}.

Lemma kept_refl due s : artifacts_ok (st_sessions s) -> kept due s s.
Proof. by constructor; auto. Qed.

Lemma artifacts_kept_trans due s1 s2 s3 : kept due s1 s2 -> kept due s2 s3 -> kept due s1 s3.
Proof.
  intros [D1 R1 O1 F1 G1 E1] [D2 R2 O2 F2 G2 E2]. constructor; auto.
  - congruence.
  - intros y Hy. rewrite F2 by done. auto.
  - intros y Hy. destruct (E1 y Hy) as [H|]; [apply (E2 y H)|by right].
Qed.

Lemma artifacts_ok_filter p t : artifacts_ok t -> artifacts_ok (select_where p t).
Proof.
  intros [Hi Hp Hn]. constructor.
  - by apply filter_keys.
  - by apply filter_keys.
  - rewrite Forall_forall in Hn |- *. intros y [Hy _]%elem_select. by apply Hn.
Qed.

(** Deleting a candidate of the table deletes its row. *)
Lemma delete_candidate_spec x t : NoDup (map ss_session_id t) -> x ∈ t ->
  exists p, delete_cleanup_candidate x t = (select_where p t, Some x) /\
    x ∉ select_where p t /\ forall z, z ∈ t -> z ∈ select_where p t \/ z = x.
Proof.
  intros Hids Hx. unfold delete_cleanup_candidate.
  match goal with |- context [List.find ?h t] => set (hit := h) end.
  assert (Hhit : hit x = true).
  { unfold hit, has_id. rewrite !String.eqb_refl. repeat (rewrite bool_decide_true by done). done. }
  assert (Hid : forall z, z ∈ t -> hit z = true -> z = x).
  { intros z Hz Ez. apply (NoDup_map_inj ss_session_id t); [done..|]. unfold hit in Ez.
    repeat (apply andb_true_iff in Ez as [Ez _]). by apply String.eqb_eq in Ez. }
  exists (fun z => negb (hit z)). split_and!.
  - f_equal. destruct (List.find hit t) as [y|] eqn:E.
    + apply find_some in E as [Hy E]. apply list_elem_of_In in Hy. by rewrite (Hid y Hy E).
    + eapply find_none_forall in E; [|exact Hx]. cbv beta in E. congruence.
  - intros [_ Hn]%elem_select. cbv beta in Hn. by rewrite Hhit in Hn.
  - intros z Hz. destruct (hit z) eqn:Ez; [right; by apply Hid|left]. apply elem_select. cbv beta. by rewrite Ez.
Qed.

(** The row of a candidate goes, with its file unless the deletion fails. *)
Lemma delete_candidate_kept fault x s : artifacts_ok (st_sessions s) -> x ∈ st_sessions s ->
  exists t s' ok, delete_cleanup_candidate x (st_sessions s) = (t, Some x) /\
    try_delete b fault (staged_artifact_from_session x) (on_sessions (fun _ => t) s) = (s', ok) /\
    kept (fun y => y = x) s s' /\ (x ∉ st_sessions s') /\ st_sessions s' = t /\
    (ok = true -> file_at (place x) s' = None).
Proof.
  intros Hok Hx. pose proof Hok as [Hids Hpl Hnm].
  destruct (delete_candidate_spec x (st_sessions s) Hids Hx) as (p & E & Hgone & Hrest).
  exists (select_where p (st_sessions s)).
  destruct (try_delete b fault (staged_artifact_from_session x) (on_sessions (fun _ => select_where p (st_sessions s)) s))
    as [s' ok] eqn:Et. exists s', ok.
  rewrite Forall_forall in Hnm. destruct (Hnm x Hx) as [(Hne & _ & Hnorm) _].
  destruct (try_delete_spec fault (staged_artifact_from_session x) _ _ _ Hne Et) as ([Ht Hd] & Hf & Hg & Hdel).
  cbn [on_sessions st_sessions st_db storage_backend storage_key staged_artifact_from_session] in Ht, Hd, Hf, Hdel.
  assert (Hn : normalize_backend (sc_staged_storage_backend (ss_columns x)) = sc_staged_storage_backend (ss_columns x))
    by exact Hnorm. rewrite Hn in Hf, Hdel. fold (place x) in Hf, Hdel.
  split_and!; [done|done| |by rewrite Ht|done|].
  - constructor; [done|intros y Hy; rewrite Ht in Hy; by apply elem_select in Hy as [Hy _]|rewrite Ht; by apply artifacts_ok_filter| |done|].
    + intros y Hy. rewrite Ht in Hy. assert (Hyx : y <> x) by (intros ->; by apply Hgone).
      apply elem_select in Hy as [Hy _]. rewrite Hf; [done|]. intros Hp. apply Hyx.
      by apply (NoDup_map_inj place (st_sessions s)).
    + intros y Hy. rewrite Ht. by apply Hrest.
  - exact Hdel.
Qed.

Lemma kept_weaken (due due' : session -> Prop) s s' : (forall y, due y -> due' y) -> kept due s s' -> kept due' s s'.
Proof. intros H [D R O F G E]. constructor; auto. intros y Hy. destruct (E y Hy); auto. Qed.

Lemma delete_candidates_spec (env : @cleanup_env Sto) i l n m s :
  artifacts_ok (st_sessions s) -> NoDup l -> Forall (fun x => x ∈ st_sessions s) l ->
  let '(s', r) := delete_candidates b env i l n m s in
  kept (fun y => y ∈ l) s s' /\
  ((forall k, ce_row_fault env k = None) ->
   (exists m', r = Ret (n + Z.of_nat (length l), m')) /\ (forall x, x ∈ l -> x ∉ st_sessions s') /\
   ((forall k, ce_delete_fault env k = None) -> forall x, x ∈ l -> is_Some (storage_registry b !! fst (place x)) ->
      file_at (place x) s' = None)).
Proof.
  revert i n m s. induction l as [|x l IH]; intros i n m s Hok Hnd Hin; cbn [delete_candidates].
  { split; [by apply kept_refl|]. intros _. split_and!; [exists m; do 2 f_equal; cbn; lia|by intros ? ?%elem_of_nil|by intros _ ? ?%elem_of_nil]. }
  destruct (ce_row_fault env i) as [e|] eqn:Er; [split; [by apply kept_refl|]; intros H; by rewrite H in Er|].
  apply NoDup_cons in Hnd as [Hxl Hnd]. apply Forall_cons in Hin as [Hx Hin].
  destruct (delete_candidate_kept (ce_delete_fault env i) x s Hok Hx) as (t & s1 & ok & Ed & Et & Hk1 & Hx1 & Hs1 & Hf1).
  rewrite Ed, Et. specialize (IH (S i) (n + 1) (m + (if ok then 1 else 0)) s1 (kp_ok _ _ _ Hk1) Hnd).
  destruct (delete_candidates _ _ _ _ _ _ s1) as [s2 r]. destruct IH as [Hk2 Hrest].
  { rewrite Forall_forall in Hin |- *. intros y Hy. destruct (kp_due _ _ _ Hk1 y (Hin y Hy)) as [H| ->]; done. }
  assert (Hk : kept (fun y => y ∈ x :: l) s s2).
  { eapply artifacts_kept_trans; eapply kept_weaken; [|exact Hk1| |exact Hk2]; cbn; intros y Hy; [subst; by left|by right]. }
  split; [done|]. intros Hnf. destruct (Hrest Hnf) as ((m' & ->) & Hrows & Hfiles). split_and!.
  - exists m'. do 2 f_equal. cbn [length]. lia.
  - intros y [->|Hy]%elem_of_cons; [|by apply Hrows]. intros Hy. by apply Hx1, (kp_rows _ _ _ Hk2).
  - intros Hdf y [->|Hy]%elem_of_cons Hreg; [|by apply Hfiles]. apply (kp_gone _ _ _ Hk2), Hf1.
    pose proof Hok as [_ _ Hnm]. rewrite Forall_forall in Hnm. destruct (Hnm x Hx) as [(Hne & _ & Hnorm) _].
    revert Et. unfold try_delete, delete_artifact, storage_for_backend. cbn [storage_backend staged_artifact_from_session].
    change (sc_staged_storage_backend (ss_columns x)) with (fst (place x)). rewrite Hne, Hnorm, Hdf.
    destruct Hreg as [sto ->]. unfold on_backend. rewrite remove_deletes. by intros [= _ <-].
Qed.

(** An artifact that no row refers to is not where a session's is. *)
Lemma unreferenced_place a t y : normal_name (storage_backend a) -> artifacts_ok t -> y ∈ t ->
  is_stage_artifact_referenced (storage_backend a) (storage_key a) t = false ->
  place y <> (normalize_backend (storage_backend a), storage_key a).
Proof.
  intros (_ & Hs & Hn) [_ _ Hnm] Hy Hr Hp. rewrite Forall_forall in Hnm. destruct (Hnm y Hy) as [_ Hk].
  rewrite Hn in Hp. rewrite Hp in Hk. cbn [snd] in Hk. apply not_true_iff_false in Hr. apply Hr, existsb_exists.
  exists y. split; [by apply list_elem_of_In|]. unfold place in Hp. injection Hp as -> ->.
  by rewrite Hs, Hk, !String.eqb_refl.
Qed.

Lemma delete_orphans_kept (env : @cleanup_env Sto) i l n m s :
  artifacts_ok (st_sessions s) -> Forall (fun a => normal_name (storage_backend a)) l ->
  kept (fun _ => False) s (fst (delete_orphans b env i l n m s)).
Proof.
  revert i m s. induction l as [|a l IH]; intros i m s Hok Hn; cbn [delete_orphans]; [by apply kept_refl|].
  destruct (ce_reference_fault env i); [by apply kept_refl|]. apply Forall_cons in Hn as [Ha Hn].
  destruct (is_stage_artifact_referenced _ _ _) eqn:Hr; [by apply IH|].
  destruct (try_delete b (ce_orphan_fault env i) a s) as [s1 ok] eqn:Et.
  destruct (try_delete_spec (ce_orphan_fault env i) a s s1 ok (proj1 Ha) Et) as ([Ht Hd] & Hf & Hg & _).
  assert (Hk : kept (fun _ => False) s s1).
  { constructor; [done|by rewrite Ht|by rewrite Ht| |done|].
    - intros y Hy. rewrite Ht in Hy. apply Hf. by eapply unreferenced_place.
    - intros y Hy. left. by rewrite Ht. }
  eapply artifacts_kept_trans; [exact Hk|]. apply IH; [exact (kp_ok _ _ _ Hk)|done].
Qed.

Lemma gather_names listing l entries : gather listing l = Ret entries ->
  Forall (fun '(name, _) => exists sto : Sto, (name, sto) ∈ l) entries.
Proof.
  revert entries. induction l as [|[name sto] l IH]; intros entries; cbn [gather]; [by intros [= <-]|].
  destruct (listing name sto) as [es|]; [|done]. cbn. destruct (gather listing l) as [rest|]; [|done]. cbn. intros [= <-].
  apply Forall_app_2.
  - apply Forall_forall. intros [name' e] (e' & [= -> ->] & _)%list_elem_of_fmap. exists sto. by left.
  - eapply Forall_impl; [exact (IH rest eq_refl)|]. intros [name' e] [sto' H]. exists sto'. by right.
Qed.

Lemma list_orphan_candidates_normal listing limit_ l : registry_ok ->
  list_orphan_candidates b listing limit_ = Ret l -> Forall (fun a => normal_name (storage_backend a)) l.
Proof.
  intros Hreg. unfold list_orphan_candidates. destruct (gather _ _) as [entries|] eqn:E; [|done]. cbn. intros [= <-].
  apply gather_names in E. rewrite Forall_forall in E. apply Forall_forall.
  intros a ([name e] & -> & Hin)%list_elem_of_fmap. cbn [storage_backend]. apply Hreg.
  assert (Hin' : (name, e) ∈ entries).
  { rewrite <- (order_by_perm candidate_le entries). eapply sublist_elem; [apply sublist_take|exact Hin]. }
  destruct (E _ Hin') as [sto Hsto]. exists sto. by apply elem_of_map_to_list.
Qed.

Lemma cleanup_candidates_spec k n t : NoDup (map ss_session_id t) ->
  NoDup (list_cleanup_candidates k n t) /\
  Forall (fun x => x ∈ t /\ cleanup_due k x = true) (list_cleanup_candidates k n t).
Proof.
  intros Hnd. unfold list_cleanup_candidates, limit. split.
  - eapply sublist_NoDup; [|apply sublist_take]. rewrite order_by_perm. eapply sublist_NoDup; [|apply bool_filter_sublist].
    by eapply NoDup_fmap_1.
  - apply Forall_take. rewrite order_by_perm. apply Forall_forall. by intros x Hx%elem_select.
Qed.

Lemma process_once_spec c (env : @cleanup_env Sto) s : artifacts_ok (st_sessions s) -> registry_ok ->
  let '(s', r) := process_once b c env s in
  let candidates := list_cleanup_candidates (cutoffs_at c (ce_now env)) (scan_limit c) (st_sessions s) in
  kept (fun y => cleanup_due (cutoffs_at c (ce_now env)) y = true) s s' /\
  (ce_list_fault env = None -> (forall k, ce_row_fault env k = None) ->
   (forall x, x ∈ candidates -> x ∉ st_sessions s') /\
   ((forall k, ce_delete_fault env k = None) -> forall x, x ∈ candidates -> is_Some (storage_registry b !! fst (place x)) ->
      file_at (place x) s' = None)).
Proof.
  intros Hok Hreg. unfold process_once. destruct (ce_list_fault env) as [e|]; [split; [by apply kept_refl|done]|].
  set (cand := list_cleanup_candidates _ _ _).
  destruct (cleanup_candidates_spec (cutoffs_at c (ce_now env)) (scan_limit c) (st_sessions s) (ao_ids _ Hok)) as [Hnd Hall].
  fold cand in Hnd, Hall.
  assert (Hin : Forall (fun x => x ∈ st_sessions s) cand) by (eapply Forall_impl; [exact Hall|]; by intros x [? _]).
  pose proof (delete_candidates_spec env 0 cand 0 0 s Hok Hnd Hin) as H.
  destruct (delete_candidates _ _ _ _ _ _ s) as [s1 r]. destruct H as [Hk Hrest].
  assert (Hdue : kept (fun y => cleanup_due (cutoffs_at c (ce_now env)) y = true) s s1).
  { eapply kept_weaken; [|exact Hk]. intros y Hy. rewrite Forall_forall in Hall. by apply Hall. }
  assert (Hend : forall s2, kept (fun _ => False) s1 s2 ->
    kept (fun y => cleanup_due (cutoffs_at c (ce_now env)) y = true) s s2 /\
    (@None exn = None -> (forall k, ce_row_fault env k = None) ->
     (forall x, x ∈ cand -> x ∉ st_sessions s2) /\
     ((forall k, ce_delete_fault env k = None) -> forall x, x ∈ cand -> is_Some (storage_registry b !! fst (place x)) ->
        file_at (place x) s2 = None))).
  { intros s2 H2. split; [eapply artifacts_kept_trans; [exact Hdue|]; by eapply kept_weaken; [|exact H2]|].
    intros _ Hnf. destruct (Hrest Hnf) as (_ & Hrows & Hfiles). split.
    - intros x Hx Hin2. apply (Hrows x Hx). by apply (kp_rows _ _ _ H2).
    - intros Hdf x Hx Hsto. apply (kp_gone _ _ _ H2). by apply Hfiles. }
  destruct r as [[n m]|e]; [|apply Hend, kept_refl, (kp_ok _ _ _ Hdue)].
  destruct (list_orphan_candidates b (ce_listing env) (scan_limit c)) as [orphans|e] eqn:Eo;
    [|apply Hend, kept_refl, (kp_ok _ _ _ Hdue)].
  pose proof (delete_orphans_kept env 0 orphans n m s1 (kp_ok _ _ _ Hdue) (list_orphan_candidates_normal _ _ _ Hreg Eo)) as H2.
  destruct (delete_orphans _ _ _ _ _ _ s1) as [s2 r]. by apply Hend.
Qed.

(** C20: A round of the cleanup worker touches nothing live.  Whatever fails in
    between and whatever the storages list as old, after [process_once] every
    remaining session has its artifact as before, the batch tables are as
    before, and only sessions whose retention has run out are gone.  When the
    statements succeed all the sessions it lists are gone, and when the
    deletions succeed too, so are their artifacts.  (The sessions' artifacts are
    distinct and their keys have no blanks around.) *)
Theorem cleanup_keeps_live_artifacts c (env : @cleanup_env Sto) s :
  artifacts_ok (st_sessions s) -> registry_ok ->
  let '(s', r) := process_once b c env s in
  let k := cutoffs_at c (ce_now env) in
  let candidates := list_cleanup_candidates k (scan_limit c) (st_sessions s) in
  st_db s' = st_db s /\
  (forall y, y ∈ st_sessions s' -> y ∈ st_sessions s /\ file_at (place y) s' = file_at (place y) s) /\
  (forall y, y ∈ st_sessions s -> y ∈ st_sessions s' \/ cleanup_due k y = true) /\
  (ce_list_fault env = None -> (forall i, ce_row_fault env i = None) ->
   (forall x, x ∈ candidates -> x ∉ st_sessions s') /\
   ((forall i, ce_delete_fault env i = None) -> forall x, x ∈ candidates -> is_Some (storage_registry b !! fst (place x)) ->
      file_at (place x) s' = None)).
Proof.
  intros Hok Hreg. pose proof (process_once_spec c env s Hok Hreg) as H. destruct (process_once b c env s) as [s' r].
  cbv zeta in *. destruct H as [[D R _ F _ E] H]. split_and!; auto.
Qed.
End cleanup_lemmas.

(** ** Concrete rounds *)

Definition sample_row (id backend key : string) (status : create_status) : session :=
  mkSession id 0
    (mkSessionCreate ("batch-" +:+ id) "/v1/embeddings" "file" backend key 1 1 status None None None None None None None None
       None None None None 0 (Some "sk") None None None None (Some 5) None).

Definition sample_dir : files := {["s/1" := ["a"%char]; "s/2" := ["b"%char]; "s/3" := ["c"%char]]}.
Definition sample_cleanup_store : store :=
  mkStore [sample_row "u1" "local" "s/1" STAGED; sample_row "u2" "local" "s/2" FAILED_PERMANENT] empty_db {["local" := sample_dir]}.

Definition sample_day : datetime := mkDatetime 2024 1 1 0.
Definition sample_cleanup_env {Sto : Type} (keys : list string) : @cleanup_env Sto :=
  mkCleanupEnv (2000000 * usec) None (fun _ => None) (fun _ => None)
    (fun _ _ => Ret (map (fun k => mkListEntry k sample_day) keys)) (fun _ => None) (fun _ => None).

Definition sample_round : store * res create_exc (Z * Z) :=
  process_once (storage_class := local_backend (fun _ => "sum") MissingFile) sample_staging default_cleanup_config
    (sample_cleanup_env ["s/1"; "s/2"; "s/3"]) sample_cleanup_store.

(** The failed session goes with its artifact, the orphan goes, the staged one stays. *)
Lemma cleanup_keeps_live_artifacts_witness :
  snd sample_round = Ret (1, 3) /\ map ss_session_id (st_sessions (fst sample_round)) = ["u1"] /\
  file_at ("local", "s/1") (fst sample_round) = Some ["a"%char] /\ file_at ("local", "s/3") (fst sample_round) = None.
Proof.
  pose (laws := local_laws (fun _ => "sum") MissingFile).
  assert (Hok : artifacts_ok (st_sessions sample_cleanup_store)).
  { constructor; [apply (bool_decide_unpack _); vm_compute; exact I|apply (bool_decide_unpack _); vm_compute; exact I|].
    repeat constructor. }
  assert (Hreg : registry_ok (sample_staging)).
  { intros n [sto Hn]. unfold sample_staging, make_staging in Hn. cbn [storage_registry fold_left] in Hn.
    change (normalize_backend _) with "local" in Hn. rewrite lookup_empty in Hn.
    apply lookup_singleton_Some in Hn as [<- _]. repeat split. }
  pose proof (cleanup_keeps_live_artifacts (storage_class := local_backend (fun _ => "sum") MissingFile) (fun _ => "sum") sample_staging default_cleanup_config
    (sample_cleanup_env ["s/1"; "s/2"; "s/3"]) sample_cleanup_store Hok Hreg) as H. fold sample_round in H.
  assert (E : snd sample_round = Ret (1, 3)) by (vm_compute; reflexivity).
  assert (Hid : map ss_session_id (st_sessions (fst sample_round)) = ["u1"]) by (vm_compute; reflexivity).
  destruct sample_round as [s' r] eqn:Er. cbn [fst snd] in *. destruct H as (_ & H & _).
  split_and!; [exact E|exact Hid| |].
  - destruct (st_sessions s') as [|y [|z l]] eqn:Es; [done| |done].
    destruct (H y ltac:(by left)) as [Hy Hf].
    assert (Hu : y = sample_row "u1" "local" "s/1" STAGED).
    { apply elem_of_cons in Hy as [Hy|Hy]; [done|]. apply list_elem_of_singleton in Hy. subst y. discriminate Hid. }
    subst y. exact Hf.
  - assert (Es : s' = fst sample_round) by by rewrite Er. rewrite Es. vm_compute. reflexivity.
Defined.

(** A key that ends with a blank, as an upload named "in.jsonl " makes on S3: the
    sweep does not find the row that refers to it and deletes the artifact of
    the staged session. *)
Definition s3_staging : staging_backend :=
  make_staging (Sto := s3_storage) (storage_class := s3_backend (fun _ => "sum") MissingFile) (mkS3 "bucket" "") [] 3 100.
Definition blank_store : store :=
  mkStore [sample_row "u1" "s3" "s/in.jsonl " STAGED] empty_db {["s3" := {["s/in.jsonl " := ["a"%char]]}]}.

Theorem blank_key_artifact_lost :
  let s' := fst (process_once (storage_class := s3_backend (fun _ => "sum") MissingFile) s3_staging default_cleanup_config
                   (sample_cleanup_env ["s/in.jsonl "]) blank_store) in
  st_sessions s' = st_sessions blank_store /\ file_at ("s3", "s/in.jsonl ") blank_store = Some ["a"%char] /\
  file_at ("s3", "s/in.jsonl ") s' = None.
Proof. split_and!; vm_compute; reflexivity. Qed.
