(* ===== verification/CreateLife.v ===== *)
(** * The life of create sessions

    Staging, promotion, failures, expiry, cleanup and the batches themselves as
    interleaved steps of one store: a session is promoted at most once, its
    batch is made as the batch system promises, limits hold, and what was
    staged becomes the items of the batch. *)

From S2P Require Import Prelude PyVal Errors Calendar BatchStorage StorageBackends CreateModels BatchModels BatchDb Scheduling.
From S2P Require Import BatchItems BatchOutbox BatchBilling WorkClaim FairShare BatchJobs CreateSession CreatePromotion CreateCleanup.
Import CreateStatus Sessions Staging.

(** ** Steps *)

Inductive create_event : Type :=
  | Created (session_id : string)
  | Promoted (session_id : string)
  | Quiet.

Definition created_ids (tr : list create_event) : list string :=
  omap (fun e => match e with Created id => Some id | _ => None end) tr.
Definition promoted_ids (tr : list create_event) : list string :=
  omap (fun e => match e with Promoted id => Some id | _ => None end) tr.

(** An INSERT that added its row, acknowledged or not. *)
Definition created_event (env : stage_env) (c : session_create) (s : store) : create_event :=
  if (length (st_sessions (fst (insert_session env c s))) =? length (st_sessions s))%nat then Quiet else Created (se_uuid4 env).
Definition promotion_event (session_id : string) (r : res create_exc promotion_result) : create_event :=
  match r with Ret p => if pr_promoted p then Promoted session_id else Quiet | Raise _ => Quiet end.

(** The table after an INSERT. *)
Lemma insert_session_cases env c s :
  let s' := fst (insert_session env c s) in
  (st_sessions s' = st_sessions s /\ created_event env c s = Quiet) \/
  exists x, st_sessions s' = st_sessions s ++ [x] /\ new_row env c s x /\ created_event env c s = Created (ss_session_id x).
Proof.
  pose proof (insert_session_spec env c s) as H. unfold created_event.
  destruct (insert_session env c s) as [s' r]. cbn [fst]. destruct H as (_ & _ & H).
  assert (H' : st_sessions s' = st_sessions s \/ exists x, st_sessions s' = st_sessions s ++ [x] /\ new_row env c s x).
  { destruct r as [x|e]; [right; by exists x|]. destruct H as [H|(e' & x & _ & H)]; [by left|right; by exists x]. }
  destruct H' as [E|(x & E & Hn)]; [left|right; exists x]; rewrite E; [by rewrite Nat.eqb_refl|].
  rewrite length_app, (proj2 (Nat.eqb_neq _ _)) by (cbn; lia). by rewrite (nr_id _ _ _ _ Hn).
Qed.

Section life.
Context (json_dumps : pyval -> string) (json_loads : string -> option pyval) (py_str : pyval -> string).
Context (sha256_hex : string -> string) (model_group_resolver : option (string -> res exn (option string))).

#[local] Abbreviation chars := (dumps_chars json_dumps).
#[local] Abbreviation text := (str_or_empty py_str).
#[local] Abbreviation promote_spooled := (promote_spooled_session json_dumps json_loads py_str sha256_hex model_group_resolver).

(** One atomic step of some process: the row of a staged session, the
    transaction of a promotion with whatever was spooled, the record of a
    failure seen on some earlier row, an expiry, the deletion of a row that was
    read earlier, a write or a deletion in a storage, a step of the batch
    system. *)
Inductive create_step : store -> create_event -> store -> Prop :=
  | step_insert env c s : create_step s (created_event env c s) (fst (insert_session env c s))
  | step_promote cfg env id spool n summary s :
      create_step s (promotion_event id (snd (promote_spooled cfg env id spool n summary s)))
        (fst (promote_spooled cfg env id spool n summary s))
  | step_failure env x code message retryable s :
      create_step s Quiet (record_failure env x code message retryable s)
  | step_expire id now s :
      create_step s Quiet (on_sessions (fun t => fst (mark_session_expired id now EXPIRABLE t)) s)
  | step_cleanup x s : create_step s Quiet (on_sessions (fun t => fst (delete_cleanup_candidate x t)) s)
  | step_delete id s : create_step s Quiet (on_sessions (fun t => fst (delete_session id t)) s)
  | step_files f s : create_step s Quiet (mkStore (st_sessions s) (st_db s) f)
  | step_batch d s : batch_step sha256_hex model_group_resolver chars text (st_db s) d -> create_step s Quiet (with_db d s).

Inductive create_run : store -> list create_event -> store -> Prop :=
  | run_nil s : create_run s [] s
  | run_cons s e s1 tr s2 : create_step s e s1 -> create_run s1 tr s2 -> create_run s (e :: tr) s2.

Lemma run_app s1 tr1 s2 tr2 s3 : create_run s1 tr1 s2 -> create_run s2 tr2 s3 -> create_run s1 (tr1 ++ tr2) s3.
Proof. induction 1; [done|]. intros H'. cbn. econstructor; [done|auto]. Qed.

Lemma run_one s e s' : create_step s e s' -> create_run s [e] s'.
Proof. intros H. econstructor; [exact H|constructor]. Qed.

(** ** A session is promoted at most once *)

(** After the sessions [cr] were created and the sessions [pr] promoted. *)
Record life_ok (cr pr : list string) (s : store) : Prop := mkLifeOk {
  lo_unique : NoDup (session_ids (st_sessions s));
  lo_created : forall x, x ∈ st_sessions s -> ss_session_id x ∈ cr;
  lo_known : forall id, id ∈ pr -> id ∈ cr;
  lo_promoted : forall x, x ∈ st_sessions s -> ss_session_id x ∈ pr -> ss_status x = COMPLETED;
  lo_once : NoDup pr
}.

(** Rows are kept, removed, or change status, but a completed row only stays. *)
Definition settles (t t' : list session) : Prop :=
  sublist (session_ids t') (session_ids t) /\
  forall y, y ∈ t' -> exists x, x ∈ t /\ ss_session_id y = ss_session_id x /\
    (ss_status x = COMPLETED -> ss_status y = COMPLETED).

Lemma settles_ok cr pr s s' : settles (st_sessions s) (st_sessions s') -> life_ok cr pr s -> life_ok cr pr s'.
Proof.
  intros [Hids Hst] [Hu Hc Hk Hp Ho]. constructor; try done.
  - exact (sublist_NoDup _ _ Hu Hids).
  - intros y Hy. destruct (Hst y Hy) as (x & Hx & -> & _). by apply Hc.
  - intros y Hy Hid. destruct (Hst y Hy) as (x & Hx & E & Hs). apply Hs, Hp; [done|]. by rewrite <- E.
Qed.

Lemma settles_refl t : settles t t.
Proof. split; [done|]. intros y Hy. by exists y. Qed.

Lemma status_in_completed from x : COMPLETED ∉ from -> from <> [] -> status_in from x = true -> ss_status x <> COMPLETED.
Proof. intros Hc Hne H E. unfold status_in in H. destruct from; [done|]. apply bool_decide_eq_true in H. congruence. Qed.

Lemma settles_update id u from t : COMPLETED ∉ from -> from <> [] -> settles t (fst (update_session id u from t)).
Proof.
  intros Hc Hne. split; [by rewrite update_session_ids|]. intros y Hy.
  destruct (update_session_elem _ _ _ _ _ Hy) as (x & Hx & Hid & [->|(_ & Hs & _)]); [by exists x|].
  exists x. split_and!; [done|done|]. intros E. by destruct (status_in_completed from x Hc Hne Hs).
Qed.

Lemma settles_filter p t : settles t (select_where p t).
Proof.
  split.
  - unfold select_where. induction t as [|x t IH]; simpl; [done|]. destruct (p x); by constructor.
  - intros y [Hy _]%elem_select. by exists y.
Qed.

Lemma promotable_from : (COMPLETED ∉ PROMOTABLE) /\ PROMOTABLE <> [].
Proof. split; [|done]. apply (bool_decide_unpack _). vm_compute. exact I. Qed.
Lemma expirable_from : (COMPLETED ∉ EXPIRABLE) /\ EXPIRABLE <> [].
Proof. split; [|done]. apply (bool_decide_unpack _). vm_compute. exact I. Qed.

Lemma promotable_status_in x : promotable (ss_status x) = true -> status_in PROMOTABLE x = true.
Proof. unfold status_in, PROMOTABLE. intros H. by destruct (ss_status x). Qed.

Lemma promoted_event_inv cfg env id spool n summary s p :
  snd (promote_spooled cfg env id spool n summary s) = Ret p -> pr_promoted p = true ->
  exists x, get_session id (st_sessions s) = Some x /\ promotable (ss_status x) = true /\
    st_sessions (fst (promote_spooled cfg env id spool n summary s))
    = fst (mark_session_completed id (pe_now env) None true PROMOTABLE (st_sessions s)).
Proof.
  intros H Hp. destruct (promote_spooled cfg env id spool n summary s) as [s' r] eqn:E. cbn [fst snd] in *. subst r.
  destruct (promote_spooled_inv _ _ _ _ _ _ _ _ _ _ _ _ _ _ E Hp) as (x & l & d & H). exists x.
  destruct H as [Hx Hpr _ _ _ _ _ _ _ Hs _ _]. split_and!; [done|done|].
  pose proof (find_has_id _ _ _ Hx) as [_ Hid]. by rewrite Hs, Hid.
Qed.

(** A promotion leaves the sessions alone or completes one. *)
Lemma promote_sessions cfg env id spool n summary s :
  let s' := fst (promote_spooled cfg env id spool n summary s) in
  st_sessions s' = st_sessions s \/
  exists i now, st_sessions s' = fst (mark_session_completed i now None true PROMOTABLE (st_sessions s)).
Proof.
  destruct (snd (promote_spooled cfg env id spool n summary s)) as [p|e] eqn:Er.
  2: { left. destruct (promote_spooled cfg env id spool n summary s) as [s' r] eqn:E. cbn [fst snd] in *. subst r.
       unfold promote_spooled_session, store_transaction in E.
       destruct (match get_session_for_update _ _ with Some _ => _ | None => _ end) as [s1 [p|e1]]; [done|].
       by injection E as <- _. }
  destruct (pr_promoted p) eqn:Hp.
  { destruct (promoted_event_inv _ _ _ _ _ _ _ _ Er Hp) as (x & _ & _ & E). right. by eexists _, _. }
  destruct (promote_spooled cfg env id spool n summary s) as [s' r] eqn:E. cbn [fst snd] in *. subst r.
  unfold promote_spooled_session, store_transaction in E.
  destruct (get_session_for_update id (st_sessions s)) as [x|]; [|done].
  destruct (promote_locked _ _ _ _ _ _ _ _ _ _ _ s) as [s1 [p1|e]] eqn:Hl; [|done].
  destruct (pe_tx_fault env); [done|]. injection E as <- <-.
  destruct (job_row (ss_target x) (st_db s)) as [j|] eqn:Hj.
  2: { by rewrite (promote_locked_new _ _ _ _ _ _ _ _ _ _ _ _ _ _ Hj Hl) in Hp. }
  unfold promote_locked in Hl. rewrite Hj in Hl.
  destruct (ss_status x); try (injection Hl as <- _; by left);
    (apply bind_ret_inv in Hl as (s2 & y & H & Hl); injection Hl as <- _;
     apply complete_session_ret in H as [-> _]; right; by eexists _, _).
Qed.

Lemma promote_settles cfg env id spool n summary s :
  settles (st_sessions s) (st_sessions (fst (promote_spooled cfg env id spool n summary s))).
Proof.
  destruct (promote_sessions cfg env id spool n summary s) as [->|(i & now & ->)];
    [apply settles_refl|apply settles_update; apply promotable_from].
Qed.

Lemma promoted_life cfg env id spool n summary s p cr pr :
  snd (promote_spooled cfg env id spool n summary s) = Ret p -> pr_promoted p = true ->
  life_ok cr pr s -> life_ok cr (pr ++ [id]) (fst (promote_spooled cfg env id spool n summary s)).
Proof.
  intros H Hp [Hu Hc Hk Hpr Ho]. destruct (promoted_event_inv _ _ _ _ _ _ _ _ H Hp) as (x & Hx & Hpx & Es).
  pose proof (find_has_id _ _ _ Hx) as [Hin Hid].
  assert (Hnew : id ∉ pr) by (intros Hi; rewrite <- Hid in Hi; rewrite (Hpr x Hin Hi) in Hpx; done).
  pose proof (promote_settles cfg env id spool n summary s) as Hset.
  destruct (settles_ok _ _ _ _ Hset (mkLifeOk cr pr s Hu Hc Hk Hpr Ho)) as [Hu' Hc' Hk' Hp' _].
  constructor; [done|done| | |].
  - intros i [Hi|Hi%list_elem_of_singleton]%elem_of_app; [by apply Hk|]. subst i. rewrite <- Hid. by apply Hc.
  - intros y Hy [Hi|Hi%list_elem_of_singleton]%elem_of_app; [by apply Hp'|]. rewrite Es in Hy.
    destruct (update_session_row _ _ _ _ _ Hy) as (z & Hz & Ez & E).
    assert (z = x) as -> by (apply (NoDup_map_inj ss_session_id (st_sessions s)); [done..|congruence]).
    unfold has_id in E. rewrite Hid, String.eqb_refl, promotable_status_in in E by done. by rewrite E.
  - apply NoDup_app. split_and!; [done| |apply NoDup_singleton]. intros i Hi Hj%list_elem_of_singleton. by subst i.
Qed.

Lemma insert_life cr pr env c s : NoDup (cr ++ created_ids [created_event env c s]) -> life_ok cr pr s ->
  life_ok (cr ++ created_ids [created_event env c s]) pr (fst (insert_session env c s)).
Proof.
  intros Hf [Hu Hc Hk Hp Ho]. destruct (insert_session_cases env c s) as [[E Ev]|(x & E & Hn & Ev)]; rewrite Ev in *;
    unfold created_ids in *; cbn in *; [by rewrite app_nil_r; constructor; rewrite ?E|].
  assert (Hnew : ss_session_id x ∉ cr).
  { apply NoDup_app in Hf as (_ & Hf & _). intros Hx. by apply (Hf _ Hx), list_elem_of_singleton. }
  constructor; rewrite ?E.
  - rewrite map_app. apply NoDup_app. split_and!; [done| |apply NoDup_singleton].
    intros i (y & -> & Hy)%list_elem_of_fmap Hx%list_elem_of_singleton. apply Hnew. rewrite <- Hx. by apply Hc.
  - intros y [Hy|Hy%list_elem_of_singleton]%elem_of_app; apply elem_of_app; [left; by apply Hc|right; subst y; by apply list_elem_of_singleton].
  - intros i Hi'. apply elem_of_app. left. by apply Hk.
  - intros y [Hy|Hy%list_elem_of_singleton]%elem_of_app Hid; [by apply Hp|]. subst y. by destruct Hnew; apply Hk.
  - done.
Qed.

Lemma step_life cr pr s e s' : create_step s e s' -> NoDup (cr ++ created_ids [e]) -> life_ok cr pr s ->
  life_ok (cr ++ created_ids [e]) (pr ++ promoted_ids [e]) s'.
Proof.
  intros Hs Hn Hl.
  assert (Hquiet : forall s1, settles (st_sessions s) (st_sessions s1) -> life_ok (cr ++ created_ids [Quiet]) (pr ++ promoted_ids [Quiet]) s1)
    by (intros s1 Hs1; cbn; rewrite !app_nil_r; by eapply settles_ok).
  destruct Hs as [env c s|cfg env id spool n summary s|env x code m rt s|id now s|x s|id s|f s|d s _].
  - replace (promoted_ids [created_event env c s]) with (@nil string) by (unfold created_event; by destruct (_ =? _)%nat).
    rewrite app_nil_r. by apply insert_life.
  - pose proof (promote_settles cfg env id spool n summary s) as H.
    destruct (snd (promote_spooled cfg env id spool n summary s)) as [p|e] eqn:E; [|by apply Hquiet].
    cbn [promotion_event]. destruct (pr_promoted p) eqn:Hp; [|by apply Hquiet]. cbn. rewrite app_nil_r. by eapply promoted_life.
  - apply Hquiet. unfold record_failure. destruct (negb _); [apply settles_refl|].
    destruct (pe_record_fault env); [apply settles_refl|].
    destruct rt; apply settles_update; apply promotable_from.
  - apply Hquiet. apply settles_update; apply expirable_from.
  - apply Hquiet. apply settles_filter.
  - apply Hquiet. apply settles_filter.
  - apply Hquiet, settles_refl.
  - apply Hquiet, settles_refl.
Qed.

Lemma run_life s tr s' : create_run s tr s' -> forall cr pr, NoDup (cr ++ created_ids tr) -> life_ok cr pr s ->
  life_ok (cr ++ created_ids tr) (pr ++ promoted_ids tr) s'.
Proof.
  induction 1 as [s|s e s1 tr s2 Hs Hr IH]; intros cr pr Hn Hl; [by cbn; rewrite !app_nil_r|].
  change (created_ids (e :: tr)) with (created_ids ([e] ++ tr)) in *. change (promoted_ids (e :: tr)) with (promoted_ids ([e] ++ tr)).
  unfold created_ids, promoted_ids in *. rewrite !omap_app, !app_assoc in *. apply IH; [done|].
  apply step_life with s; [done| |done]. by apply NoDup_app in Hn as [Hn _].
Qed.
(** *** Whole operations are runs *)

Section whole.
Context {Sto : Type} {storage_class : ArtifactStorage Sto create_exc} (b : @staging_backend Sto).

Lemma fail_promotion_run {A} env x e s : exists tr, created_ids tr = [] /\ promoted_ids tr = [] /\
  create_run s tr (fst (fail_promotion (A := A) env x e s)).
Proof.
  unfold fail_promotion. destruct e; try (by exists []; repeat split; constructor).
  exists [Quiet]. repeat split. apply run_one. constructor.
Qed.

(** The operation on [id] is a run that promotes [id] when it says so. *)
Definition promotes (id : string) (s : store) (out : store * res create_exc promotion_result) : Prop :=
  exists tr, create_run s tr (fst out) /\ created_ids tr = [] /\
    promoted_ids tr = match snd out with Ret p => if pr_promoted p then [id] else [] | Raise _ => [] end.

Lemma promotes_nothing id s r : match r with Ret p => pr_promoted p = false | Raise _ => True end -> promotes id s (s, r).
Proof. intros Hr. exists []. repeat split; [constructor|]. cbn. destruct r as [p|]; [by rewrite Hr|done]. Qed.

Lemma fail_promotion_promotes id env x e s tr s1 :
  create_run s tr s1 -> created_ids tr = [] -> promoted_ids tr = [] -> promotes id s (fail_promotion env x e s1).
Proof.
  intros H1 Hc Hp. destruct (fail_promotion_run (A := promotion_result) env x e s1) as (tr2 & Hc2 & Hp2 & H2).
  exists (tr ++ tr2). split; [by eapply run_app|]. unfold created_ids, promoted_ids in *.
  rewrite !omap_app, Hc, Hc2, Hp, Hp2. split; [done|]. by destruct e.
Qed.

(** [promote_session] is a transaction, or a transaction and the record of its
    failure, or one of them, or nothing. *)
Lemma promote_session_run cfg env id s :
  promotes id s (promote_session json_dumps json_loads py_str sha256_hex model_group_resolver cfg b env id s).
Proof.
  unfold promote_session. destruct (pe_get_fault env); [by apply promotes_nothing|].
  destruct (get_session id (st_sessions s)) as [x|]; [|by apply promotes_nothing].
  assert (Hspooled : forall spool n summary, promotes id s
    match promote_spooled cfg env id spool n summary s with
    | (s', Ret result) => (s', Ret result)
    | (s', Raise (PromotionError _ _ _ as e)) => fail_promotion env x e s'
    | (s', Raise e) => fail_promotion env x (promotion_failed id e) s'
    end).
  { intros spool n summary. pose proof (step_promote cfg env id spool n summary s) as Hst. apply run_one in Hst.
    destruct (promote_spooled cfg env id spool n summary s) as [s1 [p|e]]; cbn [fst snd promotion_event] in Hst.
    - exists [if pr_promoted p then Promoted id else Quiet]. split; [done|]. cbn [snd]. by destruct (pr_promoted p).
    - destruct e; by eapply fail_promotion_promotes; [exact Hst|..]. }
  destruct (ss_status x); cbn [promotable negb]; try (by apply promotes_nothing).
  2: { apply promotes_nothing. unfold build_completed_result. by destruct (job_row _ _). }
  all: destruct (precheck_pending_capacity cfg env x s); [|by apply promotes_nothing].
  all: destruct (spool_staged_items _ _ _ _ _ _ _ _ _) as [[[spool n] summary]|e]; [apply Hspooled|].
  all: eapply fail_promotion_promotes; [constructor|done|done].
Qed.
End whole.

(** C5: A create session is promoted at most once, whatever interleaves with it.
    Take any run of the create sessions and the batch system: sessions being
    staged, promotions (each a transaction on what some process spooled earlier),
    failures recorded on rows read earlier, expiries, cleanups and deletions,
    files coming and going, and the steps of jobs and items, batch deletion
    included.  If the ids of the created sessions are distinct, no session is
    promoted twice, and every session that was promoted and still has its row is
    completed -- no failure or expiry recorded late undoes it. *)
Theorem promoted_at_most_once s0 tr s :
  st_sessions s0 = [] -> create_run s0 tr s -> NoDup (created_ids tr) ->
  NoDup (promoted_ids tr) /\
  forall x, x ∈ st_sessions s -> ss_session_id x ∈ promoted_ids tr -> ss_status x = COMPLETED.
Proof.
  intros H0 Hr Hn. destruct (run_life s0 tr s Hr [] []) as [_ _ _ Hp Ho]; [done| |done].
  constructor; rewrite ?H0; try constructor; intros ? ?%elem_of_nil; done.
Qed.
End life.

(** ** What a promotion makes *)

Section batches.
Context {Sto : Type} {storage_class : ArtifactStorage Sto create_exc}.
Context (json_dumps : pyval -> string) (json_loads : string -> option pyval) (py_str : pyval -> string).
Context (sha256_hex : string -> string) (model_group_resolver : option (string -> res exn (option string))).
Context (cfg : promoter) (b : @staging_backend Sto).
Implicit Types (x : session) (s : store).

#[local] Abbreviation chars := (dumps_chars json_dumps).
#[local] Abbreviation text := (str_or_empty py_str).
#[local] Abbreviation promote_session := (promote_session json_dumps json_loads py_str sha256_hex model_group_resolver cfg b).
#[local] Abbreviation promote_spooled := (promote_spooled_session json_dumps json_loads py_str sha256_hex model_group_resolver cfg).
#[local] Abbreviation spool_staged := (spool_staged_items json_dumps json_loads py_str model_group_resolver cfg b).
#[local] Abbreviation payload := (spool_payload json_dumps py_str model_group_resolver).
#[local] Abbreviation units := (units_of json_dumps py_str).
#[local] Abbreviation new_job := (new_job sha256_hex model_group_resolver).

Definition endpoint_of x : string := sc_endpoint (ss_columns x).

(** The requests of the session's artifact. *)
Definition staged_records (env : promotion_env) x s : stream staged_request create_exc :=
  read_records json_loads py_str b (pe_read_fault env) (staged_artifact_from_session x) s.

(** Well-formed requests with texts that read back. *)
Definition spoolable x (records : list staged_request) : Prop :=
  Forall (fun r => staged_ok r /\ json_line json_dumps json_loads (PyDict (payload (endpoint_of x) r))) records.

(** The rows of their items. *)
Definition batch_items (env : promotion_env) x (records : list staged_request) : list Item.batch_item :=
  rows_from json_dumps py_str (pe_now env) (pe_uuid4 env) (ss_target x) 0
    (map (fun r => item_create (spooled json_dumps py_str model_group_resolver (endpoint_of x) r)) records).

Lemma spool_staged_inv env x s spool n summary : spool_staged env x s = Ret (spool, n, summary) ->
  let records := yielded (staged_records env x s) in
  ended (staged_records env x s) = None /\ records <> [] /\
  spool = map (fun r => json_dumps (PyDict (payload (endpoint_of x) r))) records /\
  n = Z.of_nat (length records) /\ n = sc_expected_item_count (ss_columns x) /\
  sum_estimated_work_units summary = Z.max 1 (units (endpoint_of x) records) /\
  sum_remaining_work_units summary = Z.max 1 (units (endpoint_of x) records).
Proof.
  intros H records. unfold spool_staged_items in H. fold (staged_records env x s) in H. fold (endpoint_of x) in H.
  destruct (spool_records _ _ _ _ _ _ _ _) as [acc|] eqn:E; [|done].
  apply spool_records_lines in E as (He & Hl & Hc & Hu). fold records in Hl, Hc, Hu.
  change (sp_lines empty_spool) with (@nil string) in Hl. change (sp_count empty_spool) with 0 in Hc.
  change (sp_estimated_work_units empty_spool) with 0 in Hu. rewrite app_nil_l in Hl. rewrite Z.add_0_l in Hc, Hu.
  destruct (Z.leb_spec (sp_count acc) 0); [done|]. cbn [orb] in H.
  destruct (Z.eqb_spec (sp_count acc) (sc_expected_item_count (ss_columns x))) as [Ec|]; [|done]. cbn [negb] in H.
  injection H as <- <- <-. cbn. rewrite Hu. split_and!; try done. intros Hr. rewrite Hr in Hc. cbn in Hc. lia.
Qed.

(** A promotion is a spool and a transaction on it. *)
Lemma promote_session_inv env id s s' p : promote_session env id s = (s', Ret p) -> pr_promoted p = true ->
  exists x spool n summary, get_session id (st_sessions s) = Some x /\ spool_staged env x s = Ret (spool, n, summary) /\
    promote_spooled env id spool n summary s = (s', Ret p).
Proof.
  unfold CreatePromotion.promote_session. intros H Hp. destruct (pe_get_fault env); [done|].
  destruct (get_session id (st_sessions s)) as [x|]; [|done]. exists x.
  assert (H' : match spool_staged env x s with
               | Raise e => fail_promotion env x e s
               | Ret (spool, item_count, summary) =>
                 match promote_spooled env id spool item_count summary s with
                 | (s', Ret result) => (s', Ret result)
                 | (s', Raise (PromotionError _ _ _ as e)) => fail_promotion env x e s'
                 | (s', Raise e) => fail_promotion env x (promotion_failed id e) s'
                 end
               end = (s', Ret p)).
  { destruct (ss_status x); cbn [promotable negb] in H; try done.
    - by destruct (precheck_pending_capacity cfg env x s).
    - unfold build_completed_result in H. destruct (job_row _ _); [|done]. injection H as _ <-. done.
    - by destruct (precheck_pending_capacity cfg env x s). }
  clear H. destruct (spool_staged env x s) as [[[spool n] summary]|e]; [|by destruct e].
  exists spool, n, summary. split; [done|]. split; [done|].
  destruct (promote_spooled env id spool n summary s) as [s1 [p1|e]]; [|by destruct e]. by injection H' as <- <-.
Qed.

(** The tables after a promotion. *)
Lemma promotion_rows env id s s' p x : promote_session env id s = (s', Ret p) -> pr_promoted p = true ->
  get_session id (st_sessions s) = Some x -> spoolable x (yielded (staged_records env x s)) ->
  exists spool n summary j,
    spool_staged env x s = Ret (spool, n, summary) /\ pr_job p = Some j /\ pr_batch_id p = ss_target x /\
    j = new_job (pe_now env) (ss_target x) BatchJobStatus.QUEUED (promoted_job cfg (pe_now env) x n summary) /\
    jobs (st_db s') = jobs (st_db s) ++ [j] /\
    items (st_db s') = items (st_db s) ++ batch_items env x (yielded (staged_records env x s)) /\
    check_pending_capacity cfg x (st_db s) = Ret tt /\
    check_tenant_queued sha256_hex cfg (pe_now env) x summary (st_db s) = Ret tt /\
    job_row (ss_target x) (st_db s) = None.
Proof.
  intros H Hp Hx Hr. destruct (promote_session_inv _ _ _ _ _ H Hp) as (x' & spool & n & summary & Hx' & Hsp & Htx).
  rewrite Hx in Hx'. injection Hx' as <-. destruct (spool_staged_inv _ _ _ _ _ _ Hsp) as (_ & _ & Hl & Hn & _).
  destruct (promote_spooled_inv _ _ _ _ _ _ _ _ _ _ _ _ _ _ Htx Hp) as (x' & l & d & Hpd).
  assert (x' = x) as -> by (destruct Hpd; congruence).
  pose proof Hpd as Hrows. apply promoted_rows in Hrows as (_ & Hb & j & Hj & Ej & Hjobs & Hitems & _);
    [|by rewrite Hl, Hn, length_map].
  exists spool, n, summary, j.
  assert (l = map (fun r => item_create (spooled json_dumps py_str model_group_resolver (endpoint_of x) r))
                (yielded (staged_records env x s))) as El.
  { pose proof Hpd as [_ _ _ _ _ Hparse _ _ _ _ _ _]. rewrite Hl, parse_spool_payloads in Hparse by done.
    by injection Hparse as <-. }
  rewrite El in Hitems. split_and!; try done; by destruct Hpd.
Qed.

(** *** Limits *)

Lemma job_row_app t j d d' : jobs d' = jobs d ++ [j] ->
  job_row t d' = match job_row t d with Some k => Some k | None => if String.eqb (Job.batch_id j) t then Some j else None end.
Proof.
  intros E. unfold job_row. rewrite E, row_at_app. destruct (row_at Job.batch_id t (jobs d)); [done|].
  unfold row_at. cbn. case_bool_decide as Hb; [by rewrite Hb, String.eqb_refl|]. by destruct (String.eqb_spec (Job.batch_id j) t).
Qed.

Lemma queued_units_le now p d t :
  foldr (fun i n => (if queued_for now p d i then Z.max 1 (Item.estimated_work_units i) else 0) + n) 0 t
  <= foldr (fun i n => Z.max 1 (Item.estimated_work_units i) + n) 0 t.
Proof. induction t as [|i t IH]; cbn [foldr]; [lia|]. destruct (queued_for now p d i); lia. Qed.

Lemma queued_units_app now p d t1 t2 :
  foldr (fun i n => (if queued_for now p d i then Z.max 1 (Item.estimated_work_units i) else 0) + n) 0 (t1 ++ t2)
  = foldr (fun i n => (if queued_for now p d i then Z.max 1 (Item.estimated_work_units i) else 0) + n) 0 t1
    + foldr (fun i n => (if queued_for now p d i then Z.max 1 (Item.estimated_work_units i) else 0) + n) 0 t2.
Proof. induction t1 as [|i t1 IH]; cbn [foldr app]; [lia|]. rewrite IH. lia. Qed.

(** The items of a batch without its job are new. *)
Lemma queued_units_promoted now p d d' j rows : jobs d' = jobs d ++ [j] -> items d' = items d ++ rows ->
  Forall (fun i => Item.batch_id i <> Job.batch_id j) (items d) ->
  queued_units now p d' <= queued_units now p d + foldr (fun i n => Z.max 1 (Item.estimated_work_units i) + n) 0 rows.
Proof.
  intros Hj Hi Hold. unfold queued_units. rewrite Hi, queued_units_app. pose proof (queued_units_le now p d' rows).
  assert (E : foldr (fun i n => (if queued_for now p d' i then Z.max 1 (Item.estimated_work_units i) else 0) + n) 0 (items d)
              = foldr (fun i n => (if queued_for now p d i then Z.max 1 (Item.estimated_work_units i) else 0) + n) 0 (items d));
    [|lia].
  clear Hi. induction Hold as [|i t Hne _ IH]; [done|]. cbn [foldr]. rewrite IH. do 2 f_equal.
  unfold queued_for. rewrite (job_row_app _ _ _ _ Hj). destruct (job_row (Item.batch_id i) d); [done|].
  by rewrite (proj2 (String.eqb_neq _ _)) by congruence.
Qed.

Lemma batch_items_units env x records :
  foldr (fun i n => Z.max 1 (Item.estimated_work_units i) + n) 0 (batch_items env x records) = units (endpoint_of x) records.
Proof.
  unfold batch_items. generalize 0%nat. induction records as [|r records IH]; intros k; [done|]. cbn [map].
  change (?c :: ?l) with ([c] ++ l) at 1. rewrite rows_from_app. cbn [rows_from imap app foldr length units_of].
  fold (units (endpoint_of x) records). rewrite IH. f_equal.
  pose proof (item_work_units_pos json_dumps py_str (endpoint_of x) r) as Hu. cbn.
  rewrite (proj2 (Z.eqb_neq (item_work_units json_dumps py_str (endpoint_of x) r) 0)) by lia.
  rewrite (proj2 (Z.eqb_neq (item_work_units json_dumps py_str (endpoint_of x) r) 0)) by lia. lia.
Qed.

(** The tenant's queued work does not depend on the summary. *)
Lemma tenant_queued_summary now x (sum1 sum2 : scheduling_summary) d :
  tenant_queued sha256_hex cfg now x sum1 d = tenant_queued sha256_hex cfg now x sum2 d.
Proof. reflexivity. Qed.

Lemma get_tenant_queued_promoted now ty id k t o u d d' j rows n : jobs d' = jobs d ++ [j] -> items d' = items d ++ rows ->
  Forall (fun i => Item.batch_id i <> Job.batch_id j) (items d) ->
  get_tenant_queued_work_units sha256_hex now ty id k t o u d = Ret n ->
  exists n', get_tenant_queued_work_units sha256_hex now ty id k t o u d' = Ret n' /\
    n' <= n + foldr (fun i n => Z.max 1 (Item.estimated_work_units i) + n) 0 rows.
Proof.
  intros Hj Hi Hold. assert (Hpos : 0 <= foldr (fun i n => Z.max 1 (Item.estimated_work_units i) + n) 0 rows)
    by (clear; induction rows; cbn [foldr]; lia).
  unfold get_tenant_queued_work_units. destruct (String.eqb (Str.strip ty) "api_key").
  - destruct (_ && Str.startswith _ _); [done|]. intros [= <-]. eexists. split; [done|].
    pose proof (fun p => queued_units_promoted now p d d' j rows Hj Hi Hold) as H.
    match goal with |- Z.max 0 (queued_units now ?p d') <= _ => specialize (H p) end. lia.
  - intros [= <-]. eexists. split; [done|].
    pose proof (fun p => queued_units_promoted now p d d' j rows Hj Hi Hold) as H.
    match goal with |- Z.max 0 (queued_units now ?p d') <= _ => specialize (H p) end. lia.
Qed.

(** C24: A promotion keeps both limits.  After [promote_session] has promoted a
    session, the active batches of its team (or, without a team, of its API key)
    are at most the pending limit, and the work its tenant has queued is at most
    the tenant's limit, each when the limit is set: the batch is counted with
    exactly the units its items are queued with. *)
Theorem promotion_within_limits env id s s' p x :
  promote_session env id s = (s', Ret p) -> pr_promoted p = true -> get_session id (st_sessions s) = Some x ->
  spoolable x (yielded (staged_records env x s)) ->
  Forall (fun i => Item.batch_id i <> ss_target x) (items (st_db s)) ->
  (0 < max_pending_batches_per_scope cfg ->
   forall n, active_jobs x (st_db s') = Some n -> n <= max_pending_batches_per_scope cfg) /\
  (0 < tenant_max_queued_work_units cfg ->
   exists n, (forall summary, tenant_queued sha256_hex cfg (pe_now env) x summary (st_db s') = Ret n) /\
     n <= tenant_max_queued_work_units cfg).
Proof.
  intros H Hp Hx Hr Hold.
  destruct (promotion_rows _ _ _ _ _ _ H Hp Hx Hr) as (spool & k & summary & j & Hsp & _ & _ & Ej & Hj & Hi & Hc1 & Hc2 & _).
  assert (Hb : Job.batch_id j = ss_target x) by by rewrite Ej. split.
  - intros H0 n. unfold check_pending_capacity in Hc1. destruct (Z.leb_spec (max_pending_batches_per_scope cfg) 0); [lia|].
    unfold active_jobs in *. destruct (batch_pending_scope_target_for_session x) as [[[[ty i] key] team]|]; [|done].
    destruct (Z.ltb_spec (count_active_jobs_for_scope key team (st_db s)) (max_pending_batches_per_scope cfg)); [|done].
    intros [= <-]. unfold count_active_jobs_for_scope in *. rewrite Hj.
    destruct (text_orelse team None); [rewrite cnt_app, cnt_cons; case_match; cbn; lia|].
    destruct (text_orelse key None); [rewrite cnt_app, cnt_cons; case_match; cbn; lia|lia].
  - intros H0. unfold check_tenant_queued in Hc2. destruct (Z.leb_spec (tenant_max_queued_work_units cfg) 0); [lia|].
    destruct (tenant_queued sha256_hex cfg (pe_now env) x summary (st_db s)) as [n|] eqn:En; [|done].
    destruct (Z.leb_spec (n + Z.max 0 (sum_remaining_work_units summary)) (tenant_max_queued_work_units cfg)); [|done].
    unfold tenant_queued in En. eapply get_tenant_queued_promoted in En as (n' & En' & Hn'); [|exact Hj|exact Hi|by rewrite Hb].
    exists n'. split; [intros summary'; rewrite (tenant_queued_summary _ _ summary' summary); exact En'|].
    rewrite batch_items_units in Hn'. destruct (spool_staged_inv _ _ _ _ _ _ Hsp) as (_ & _ & _ & _ & _ & _ & Hu).
    rewrite Hu in *. lia.
Qed.

(** *** A promotion that nothing stops *)

Definition no_promotion_fault (env : promotion_env) : Prop :=
  pe_get_fault env = None /\ pe_precheck_fault env = None /\ pe_tx_fault env = None.

(** The job as it is created. *)
Definition batch_job (env : promotion_env) x (n : Z) (summary : scheduling_summary) : Job.batch_job :=
  new_job (pe_now env) (ss_target x) BatchJobStatus.QUEUED (promoted_job cfg (pe_now env) x n summary).

(** The row of the new job's flow can be written. *)
Definition flow_writable (now : Z) (j : Job.batch_job) (d : db) : Prop :=
  exists f, snd (upsert_scheduler_flow_for_job sha256_hex now j 16 8 (on_jobs (fun t => t ++ [j]) d)) = Ret f.

Lemma create_job_ok now target c d : jc_status c = inl BatchJobStatus.QUEUED -> job_row target d = None ->
  flow_writable now (new_job now target BatchJobStatus.QUEUED c) d ->
  exists d', create_job sha256_hex model_group_resolver now "" (Some target) c d
             = (d', Ret (Some (new_job now target BatchJobStatus.QUEUED c))) /\
    items d' = items d /\ jobs d' = jobs d ++ [new_job now target BatchJobStatus.QUEUED c].
Proof.
  intros Hc Hrow [f Hf]. unfold create_job. rewrite Hc, default_text. cbn [BatchJobStatus.normalize_batch_job_status].
  set (j := new_job now target BatchJobStatus.QUEUED c) in *. unfold mbind, st_bind, insert_job.
  replace (existsb (is_job (Job.batch_id j)) (jobs d)) with false.
  2: { symmetry. apply not_true_iff_false. intros (k & Hk & E)%existsb_exists. apply list_elem_of_In in Hk.
       unfold is_job in E. apply String.eqb_eq in E. apply (row_at_None Job.batch_id target (jobs d)); [exact Hrow|].
       change target with (Job.batch_id j). rewrite <- E. by apply list_elem_of_fmap_2. }
  pose proof (queue_flow_same sha256_hex now j 16 8 (on_jobs (fun t => t ++ [j]) d)) as [Hi Hj].
  destruct (upsert_scheduler_flow_for_job sha256_hex now j 16 8 _) as [d' r]. cbn [fst snd] in *. subst r.
  exists d'. split_and!; [done|by rewrite Hi|by rewrite Hj].
Qed.

Lemma complete_session_ok now id m s x : NoDup (session_ids (st_sessions s)) -> get_session id (st_sessions s) = Some x ->
  promotable (ss_status x) = true ->
  exists y, complete_session now id m s
    = (on_sessions (fun t => fst (mark_session_completed id now None true PROMOTABLE t)) s, Ret y)
    /\ ss_session_id y = id /\ ss_status y = COMPLETED /\ get_session id (fst (mark_session_completed id now None true PROMOTABLE (st_sessions s))) = Some y.
Proof.
  intros Hnd Hx Hp. pose proof (find_has_id _ _ _ Hx) as [_ Hid].
  pose proof (update_session_hit id (mkSessionUpdate COMPLETED (Some (Some now)) (Some (Some now)) (Some None) (Some None)
    (Some None) true) PROMOTABLE (st_sessions s) x Hnd Hx (promotable_status_in x Hp)) as H.
  eexists. split; [|split_and!; [| |]].
  - unfold complete_session, on_table, mbind, st_bind, mark_session_completed.
    destruct (update_session id _ PROMOTABLE (st_sessions s)) as [t r] eqn:E. cbn [snd] in H. subst r.
    unfold on_sessions. cbn [st_sessions st_db st_files mret]. rewrite E. reflexivity.
  - exact Hid.
  - done.
  - unfold mark_session_completed, update_session. cbn [fst]. revert Hx Hnd Hid. unfold get_session. clear H.
    generalize (st_sessions s). intros t. induction t as [|z t IH]; [done|]. cbn [List.find update_where map]. intros Hx Hnd Hid.
    destruct (has_id id z) eqn:Ez.
    + injection Hx as ->. rewrite promotable_status_in by done. cbn [andb].
      replace (has_id id (update_row _ x)) with true by (symmetry; unfold has_id; cbn; by rewrite Hid, String.eqb_refl). done.
    + cbn [andb]. rewrite Ez. apply IH; [done|by inversion Hnd|done].
Qed.

(** The session [x] can be promoted: its artifact reads back as [records], its
    batch and items are new, the limits leave room, and nothing fails. *)
Record ready (env : promotion_env) (id : string) s x (records : list staged_request) : Prop := mkReady {
  rd_session : get_session id (st_sessions s) = Some x;
  rd_unique : NoDup (session_ids (st_sessions s));
  rd_promotable : promotable (ss_status x) = true;
  rd_records : staged_records env x s = mkStream records None;
  rd_some : records <> [];
  rd_count : sc_expected_item_count (ss_columns x) = Z.of_nat (length records);
  rd_spoolable : spoolable x records;
  rd_fresh : job_row (ss_target x) (st_db s) = None;
  rd_keys : unique_keys (items (st_db s) ++ batch_items env x records);
  rd_flow : forall summary, flow_writable (pe_now env) (batch_job env x (Z.of_nat (length records)) summary) (st_db s);
  rd_pending : max_pending_batches_per_scope cfg <= 0 \/
    forall n, active_jobs x (st_db s) = Some n -> n < max_pending_batches_per_scope cfg;
  rd_tenant : tenant_max_queued_work_units cfg <= 0 \/
    exists n, (forall summary, tenant_queued sha256_hex cfg (pe_now env) x summary (st_db s) = Ret n) /\
      n + units (endpoint_of x) records <= tenant_max_queued_work_units cfg;
  rd_faults : no_promotion_fault env;
  rd_homogeneity : strict_model_homogeneity_enabled cfg = false
}.

Lemma units_pos endpoint records : records <> [] -> 1 <= units endpoint records.
Proof.
  assert (H0 : forall l, 0 <= units endpoint l)
    by (induction l as [|r l IH]; cbn; [lia|]; fold (units endpoint l); pose proof (item_work_units_pos json_dumps py_str endpoint r); lia).
  destruct records as [|r l]; [done|]. intros _. cbn. fold (units endpoint l).
  pose proof (item_work_units_pos json_dumps py_str endpoint r). specialize (H0 l). lia.
Qed.

Lemma ready_spools env id s x records : ready env id s x records ->
  exists spool summary, spool_staged env x s = Ret (spool, Z.of_nat (length records), summary) /\
    parse_spool json_loads py_str spool
    = Ret (map (fun r => item_create (spooled json_dumps py_str model_group_resolver (endpoint_of x) r)) records) /\
    sum_remaining_work_units summary = units (endpoint_of x) records.
Proof.
  intros [_ _ _ Hrec Hsome Hcount Hsp _ _ _ _ _ _ Hstrict].
  destruct (spool_staged env x s) as [[[spool n] summary]|e] eqn:E.
  - destruct (spool_staged_inv _ _ _ _ _ _ E) as (_ & _ & Hl & Hn & _ & _ & Hu). rewrite Hrec in *. cbn [yielded] in *.
    exists spool, summary. split; [by rewrite Hn|]. split; [by rewrite Hl, parse_spool_payloads|].
    rewrite Hu. pose proof (units_pos (endpoint_of x) records Hsome). lia.
  - exfalso. unfold spool_staged_items in E. fold (staged_records env x s) in E. rewrite Hrec in E. cbn [yielded ended] in E.
    destruct (spool_records_ok json_dumps py_str model_group_resolver cfg (sc_endpoint (ss_columns x)) empty_spool records Hstrict)
      as [acc Ha]. rewrite Ha in E. apply spool_records_lines in Ha as (_ & _ & Hc & _). cbn [empty_spool sp_count] in Hc.
    rewrite Hcount, Hc in E.
    destruct (Z.leb_spec (0 + Z.of_nat (length records)) 0) as [Hle|_]; [by destruct records; [|simpl in Hle; lia]|].
    cbn [orb] in E. by rewrite Z.add_0_l, Z.eqb_refl in E.
Qed.

Lemma ready_limits env id s x records summary : ready env id s x records ->
  sum_remaining_work_units summary = units (endpoint_of x) records ->
  check_pending_capacity cfg x (st_db s) = Ret tt /\ check_tenant_queued sha256_hex cfg (pe_now env) x summary (st_db s) = Ret tt.
Proof.
  intros [_ _ _ _ Hsome _ _ _ _ _ Hp Ht _ _] Hu. split.
  - unfold check_pending_capacity. destruct (Z.leb_spec (max_pending_batches_per_scope cfg) 0); [done|].
    destruct Hp as [Hp|Hp]; [lia|]. destruct (active_jobs x (st_db s)) as [n|]; [|done]. specialize (Hp n eq_refl).
    by rewrite (proj2 (Z.ltb_lt _ _) Hp).
  - unfold check_tenant_queued. destruct (Z.leb_spec (tenant_max_queued_work_units cfg) 0); [done|].
    destruct Ht as [Ht|(n & Hn & Ht)]; [lia|]. rewrite Hn, Hu. pose proof (units_pos (endpoint_of x) records Hsome).
    rewrite (proj2 (Z.leb_le _ _)) by lia. done.
Qed.

Lemma ready_transaction env id s x records : ready env id s x records ->
  forall spool summary,
  parse_spool json_loads py_str spool
    = Ret (map (fun r => item_create (spooled json_dumps py_str model_group_resolver (endpoint_of x) r)) records) ->
  sum_remaining_work_units summary = units (endpoint_of x) records ->
  exists s' p y, promote_spooled env id spool (Z.of_nat (length records)) summary s = (s', Ret p) /\ pr_promoted p = true /\
    get_session id (st_sessions s') = Some y /\ ss_status y = COMPLETED.
Proof.
  intros Hrd spool summary Hparse Hu. destruct (ready_limits _ _ _ _ _ summary Hrd Hu) as [Hc1 Hc2].
  destruct Hrd as [Hx Hnd Hpr _ _ _ _ Hfresh Hkeys Hflow _ _ (_ & _ & Htx) _].
  unfold promote_spooled_session, store_transaction, get_session_for_update. rewrite Hx. unfold promote_locked. rewrite Hfresh.
  assert (Hbody : exists s' p y, create_promoted json_dumps json_loads py_str sha256_hex model_group_resolver cfg env x spool
      (Z.of_nat (length records)) summary s = (s', Ret p) /\ pr_promoted p = true /\
      get_session id (st_sessions s') = Some y /\ ss_status y = COMPLETED).
  { unfold create_promoted, mbind, st_bind.
    destruct (create_job_ok (pe_now env) (ss_target x) (promoted_job cfg (pe_now env) x (Z.of_nat (length records)) summary)
      (st_db s) eq_refl Hfresh (Hflow summary)) as (d1 & Hjob & Hi1 & Hj1).
    unfold on_db at 1. rewrite Hjob. fold (batch_job env x (Z.of_nat (length records)) summary). set (j := batch_job _ _ _ _).
    change (Job.batch_id j) with (ss_target x).
    pose proof (insert_db_succeeds json_dumps py_str (pe_now env) (pe_uuid4 env) (insert_chunk_size cfg) (ss_target x) 0 []
      (map (fun r => item_create (spooled json_dumps py_str model_group_resolver (endpoint_of x) r)) records) d1
      (le_n 0) ltac:(rewrite Hi1; exact Hkeys)) as Hins.
    rewrite (insert_spool_ok json_dumps json_loads py_str cfg (pe_now env) (pe_uuid4 env) (ss_target x) 0 [] spool _
      (mkStore (st_sessions s) d1 (st_files s)) _ _ Hparse Hins).
    cbn [app]. rewrite length_map, Z.eqb_refl. cbn [negb].
    pose proof (find_has_id _ _ _ Hx) as [_ Hid]. rewrite Hid.
    destruct (complete_session_ok (pe_now env) id "Failed to mark batch create session completed"
      (with_db (on_items (fun t => t ++ rows_from json_dumps py_str (pe_now env) (pe_uuid4 env) (ss_target x) (0 - length (@nil BatchItemCreate))
         (map (fun r => item_create (spooled json_dumps py_str model_group_resolver (endpoint_of x) r)) records)) d1)
         (mkStore (st_sessions s) d1 (st_files s))) x Hnd Hx Hpr) as (y & Hy & Hyid & Hyst & Hget).
    rewrite Hy. eexists _, _, y. split; [reflexivity|]. split; [done|]. split; [exact Hget|exact Hyst]. }
  destruct Hbody as (s' & p & y & Hbody & Hp & Hy & Hst). exists s', p, y. split; [|done].
  rewrite Hc1, Hc2, Hbody, Htx. by destruct (ss_status x).
Qed.

(** C8: What was staged becomes the batch.  When nothing fails and the limits
    leave room, [promote_session] promotes a promotable session: the transaction
    leaves the session completed and, together, one queued job under the
    session's target id that counts the staged requests, and one pending item
    per request in the order staged, with its line number, custom id, body,
    scheduling model and group, work units and not-before time; and that is a
    step the batch system allows. *)
Theorem staged_session_becomes_batch env id s x records : ready env id s x records ->
  exists s' p j y, promote_session env id s = (s', Ret p) /\ pr_promoted p = true /\ pr_batch_id p = ss_target x /\
    jobs (st_db s') = jobs (st_db s) ++ [j] /\ pr_job p = Some j /\ Job.batch_id j = ss_target x /\
    Job.status j = BatchJobStatus.QUEUED /\ Job.total_items j = Z.of_nat (length records) /\
    items (st_db s') = items (st_db s) ++ batch_items env x records /\
    get_session id (st_sessions s') = Some y /\ ss_status y = COMPLETED /\
    batch_step sha256_hex model_group_resolver chars text (st_db s) (st_db s').
Proof.
  intros Hrd. destruct (ready_spools _ _ _ _ _ Hrd) as (spool & summary & Hsp & Hparse & Hu).
  destruct (ready_transaction _ _ _ _ _ Hrd spool summary Hparse Hu) as (s' & p & y & Htx & Hp & Hy & Hst).
  destruct (ready_limits _ _ _ _ _ summary Hrd Hu) as [Hc _].
  pose proof Hrd as [Hx _ Hpr Hrec _ _ Hspl _ _ _ _ _ (Hf1 & Hf2 & _) _].
  assert (Hprom : promote_session env id s = (s', Ret p)).
  { unfold CreatePromotion.promote_session. rewrite Hf1, Hx.
    assert (precheck_pending_capacity cfg env x s = Ret tt) as Hpre.
    { unfold precheck_pending_capacity. destruct (_ || _); [done|]. rewrite Hf2.
      by destruct (batch_pending_scope_target_for_session x) as [[[[? ?] ?] ?]|]. }
    rewrite Hpre, Hsp, Htx. by destruct (ss_status x). }
  pose proof (promotion_rows _ _ _ _ _ _ Hprom Hp Hx) as Hrows. rewrite Hrec in Hrows.
  destruct (Hrows Hspl) as (spool' & n & summary' & j & Hsp' & Hj & Hb & Ej & Hjobs & Hitems & _). clear Hrows.
  rewrite Hsp in Hsp'. injection Hsp' as <- <- <-.
  exists s', p, j, y. split_and!; try done; try (by rewrite Ej); [by rewrite Ej; cbn; lia|].
  destruct (promote_spooled_inv _ _ _ _ _ _ _ _ _ _ _ _ _ _ Htx Hp) as (x' & l & d & Hpd).
  destruct (spool_staged_inv _ _ _ _ _ _ Hsp) as (_ & _ & Hl & _). rewrite Hrec in Hl.
  apply promoted_refines in Hpd; [|by rewrite Hl, length_map].
  pose proof (sys_promote sha256_hex model_group_resolver chars text (pe_now env) (pe_uuid4 env) (insert_chunk_size cfg)
    (ss_target x') (promoted_job cfg (pe_now env) x' (Z.of_nat (length records)) summary) l (st_db s)) as Hstep.
  by rewrite Hpd in Hstep.
Qed.
End batches.

(** ** A concrete life *)

Definition sample_promoter : promoter := make_promoter 30 20 500 true false false None None false "standard" PrefOther 10.
Definition sample_promotion : promotion_env :=
  mkPromotionEnv None None None None None 2000 (fun i => "item-" +:+ Str.of_Z (Z.of_nat i)).
Definition sample_hex (s : string) : string := s.

Definition sample_promote (s : store) : store * res create_exc promotion_result :=
  promote_session (storage_class := local_backend (fun _ => "sum") MissingFile) sample_dumps sample_loads no_text sample_hex None
    sample_promoter sample_staging sample_promotion "u1" s.

(** The session staged by [sample_stage]. *)
Definition sample_session : session :=
  match get_session "u1" (st_sessions staged_store) with
  | Some x => x
  | None => mkSession "" 0 (sample_session_create "" (mkArtifact "" "" 0 None))
  end.
Definition sample_records : list staged_request := [sample_request 1 "a"; sample_request 2 "b"].

Lemma sample_request_ok n c : 1 <= n -> Str.strip c = c /\ Str.is_empty c = false -> staged_ok (sample_request n c).
Proof. intros Hn Hc. constructor; cbn; [lia|done|by intros ? [= <-]|by intros ? [= <-]|by intros ? [= <-]|done]. Qed.

Lemma sample_ready : ready (storage_class := local_backend (fun _ => "sum") MissingFile) sample_dumps sample_loads no_text
  sample_hex None sample_promoter sample_staging sample_promotion "u1" staged_store sample_session sample_records.
Proof.
  constructor.
  - vm_compute. reflexivity.
  - apply (bool_decide_unpack _). vm_compute. exact I.
  - vm_compute. reflexivity.
  - vm_compute. reflexivity.
  - done.
  - vm_compute. reflexivity.
  - unfold spoolable. constructor; [|constructor; [|constructor]];
      (split; [apply sample_request_ok; [lia|by split]|constructor]; try (vm_compute; reflexivity));
      apply (bool_decide_unpack _); vm_compute; exact I.
  - vm_compute. reflexivity.
  - repeat split; apply (bool_decide_unpack _); vm_compute; exact I.
  - intros summary. unfold flow_writable, upsert_scheduler_flow_for_job. cbv zeta.
    destruct (Str.is_empty _); [by eexists|]. unfold mbind, st_bind, upsert_flow.
    replace (flows (on_jobs _ (st_db staged_store))) with (@nil Flow.flow_row) by (vm_compute; reflexivity).
    cbn [List.find existsb]. by eexists.
  - right. intros n. vm_compute. intros [= <-]. reflexivity.
  - right. exists 0. split; [intros summary; rewrite (tenant_queued_summary _ _ _ _ summary (mkSummary None None 0 0 "" false)); vm_compute; reflexivity|].
    vm_compute. discriminate.
  - done.
  - done.
Qed.

Lemma staged_session_becomes_batch_witness : exists s' p, sample_promote staged_store = (s', Ret p) /\ pr_promoted p = true /\
  map (fun i => (Item.batch_id i, Item.line_number i, Item.custom_id i, Item.estimated_work_units i)) (items (st_db s'))
  = [("batch-1", 1, "a", 1); ("batch-1", 2, "b", 2)] /\ map Job.total_items (jobs (st_db s')) = [2].
Proof.
  destruct (staged_session_becomes_batch (storage_class := local_backend (fun _ => "sum") MissingFile) sample_dumps sample_loads
    no_text sample_hex None sample_promoter sample_staging sample_promotion "u1" staged_store sample_session sample_records
    sample_ready) as (s' & p & j & y & H & Hp & _ & Hj & _ & _ & _ & Ht & Hi & _).
  exists s', p. split; [exact H|]. split; [exact Hp|]. rewrite Hi, Hj. split; [vm_compute; reflexivity|].
  rewrite map_app. cbn [map]. rewrite Ht. vm_compute. reflexivity.
Defined.

Definition promoted_store : store := fst (sample_promote staged_store).
Definition sample_result : promotion_result :=
  match snd (sample_promote staged_store) with Ret p => p | Raise _ => mkPromotionResult "" "" false None end.

(** One active batch of the team, and three of ten units queued. *)
Lemma promotion_within_limits_witness :
  active_jobs sample_session (st_db promoted_store) = Some 1 /\ 1 <= 20 /\
  exists n, tenant_queued sample_hex sample_promoter 2000 sample_session (mkSummary None None 0 0 "" false)
              (st_db promoted_store) = Ret n /\ n = 3 /\ n <= 10.
Proof.
  destruct (promotion_within_limits (storage_class := local_backend (fun _ => "sum") MissingFile) sample_dumps sample_loads
    no_text sample_hex None sample_promoter sample_staging sample_promotion "u1" staged_store promoted_store sample_result sample_session)
    as [H1 H2].
  - vm_compute. reflexivity.
  - vm_compute. reflexivity.
  - vm_compute. reflexivity.
  - exact (rd_spoolable _ _ _ _ _ _ _ _ _ _ _ _ sample_ready).
  - vm_compute. constructor.
  - assert (E : active_jobs sample_session (st_db promoted_store) = Some 1) by (vm_compute; reflexivity).
    split; [exact E|]. split; [exact (H1 ltac:(reflexivity) 1 E)|].
    destruct (H2 ltac:(reflexivity)) as (n & Hn & Hle). exists n. specialize (Hn (mkSummary None None 0 0 "" false)).
    split; [exact Hn|]. split; [|exact Hle]. vm_compute in Hn. by injection Hn as <-.
Defined.

(** Staged, promoted, tried again and failed late on the row read at first. *)
Lemma promoted_at_most_once_witness : exists s,
  create_run sample_dumps sample_loads no_text sample_hex None empty_store [Created "u1"; Promoted "u1"; Quiet; Quiet] s /\
  map ss_status (st_sessions s) = [COMPLETED].
Proof.
  set (c := sample_session_create "batch-1" (mkArtifact "local" "k" 1 None)).
  set (s1 := fst (insert_session (sample_env "u1") c empty_store)).
  set (try s := promote_spooled_session sample_dumps sample_loads no_text sample_hex None sample_promoter sample_promotion "u1"
                  ["{a}"; "{b}"] 2 (mkSummary (Some "m") (Some "g") 3 3 "xs" false) s).
  set (x := match st_sessions s1 with x :: _ => x | [] => sample_session end).
  set (s4 := record_failure sample_promotion x "promotion_failed" "late" true (fst (try (fst (try s1))))).
  assert (Hr : create_run sample_dumps sample_loads no_text sample_hex None empty_store
                 [Created "u1"; Promoted "u1"; Quiet; Quiet] s4).
  { apply (run_cons _ _ _ _ _ _ (Created "u1") s1).
    { pose proof (step_insert sample_dumps sample_loads no_text sample_hex None (sample_env "u1") c empty_store) as H. exact H. }
    apply (run_cons _ _ _ _ _ _ (Promoted "u1") (fst (try s1))).
    { assert (E : Promoted "u1" = promotion_event "u1" (snd (try s1))) by (vm_compute; reflexivity). rewrite E. apply step_promote. }
    apply (run_cons _ _ _ _ _ _ Quiet (fst (try (fst (try s1))))).
    { assert (E : Quiet = promotion_event "u1" (snd (try (fst (try s1))))) by (vm_compute; reflexivity). rewrite E. apply step_promote. }
    apply run_one. apply step_failure. }
  exists s4. split; [exact Hr|].
  destruct (promoted_at_most_once sample_dumps sample_loads no_text sample_hex None empty_store _ s4 eq_refl Hr) as [_ H].
  - apply (bool_decide_unpack _). vm_compute. exact I.
  - assert (E : map ss_session_id (st_sessions s4) = ["u1"]) by (vm_compute; reflexivity).
    destruct (st_sessions s4) as [|y [|z l]]; [done| |done]. injection E as E. cbn. f_equal. apply H; [by left|]. rewrite E. by left.
Defined.
