(* ===== verification/CreateService.v ===== *)
(** * The batch create service

    src/batch/request_validation.py: a line of an input file.
    src/batch/create/service.py: a request for a batch, from the idempotency key
    to the promoted job.  The validation of a body by pydantic is a parameter. *)

From S2P Require Import Prelude PyVal Errors Auth Backend Billing Grants Calendar BatchStorage StorageBackends CreateModels.
From S2P Require Import BatchModels BatchDb Scheduling BatchItems BatchOutbox BatchJobs CreateSession CreatePromotion CreateCleanup CreateLife.
Import CreateStatus Sessions Staging.

(** ** Input files: src/batch/models.py and src/batch/repositories/file_repository.py *)

Record file_record : Type := mkFileRecord {
  fr_file_id : string;
  fr_purpose : string;
  fr_filename : string;
  fr_bytes : Z;
  fr_status : string;
  fr_storage_backend : string;
  fr_storage_key : string;
  fr_checksum : option string;
  fr_created_by_api_key : option string;
  fr_created_by_user_id : option string;
  fr_created_by_team_id : option string;
  fr_created_by_organization_id : option string;
  fr_created_at : Z;
  fr_expires_at : option Z
}.

Definition get_file (file_id : string) (files : list file_record) : option file_record :=
  List.find (fun f => String.eqb (fr_file_id f) file_id) files.

(** ** [==] of JSON values *)

Definition number_of (v : pyval) : option pyfloat :=
  match v with
  | PyBool c => Some (FFin (if c then 1 else 0))
  | PyInt n => Some (FFin (inject_Z n))
  | PyFloat f => Some f
  | _ => None
  end.

(** Dictionaries are equal in any order, and numbers across their types. *)
Fixpoint py_eq (v w : pyval) {struct v} : bool :=
  match v, w with
  | PyNone, PyNone => true
  | PyStr x, PyStr y => String.eqb x y
  | PyList l, PyList m =>
    (fix eq_list (l m : list pyval) : bool :=
       match l, m with
       | [], [] => true
       | x :: l', y :: m' => py_eq x y && eq_list l' m'
       | _, _ => false
       end) l m
  | PyDict d, PyDict e =>
    Nat.eqb (length d) (length e)
    && (fix eq_dict (d : list (string * pyval)) : bool :=
          match d with
          | [] => true
          | (k, x) :: d' => match dict_get e k with Some y => py_eq x y && eq_dict d' | None => false end
          end) d
  | _, _ => match number_of v, number_of w with Some x, Some y => Fl.eqb x y | _, _ => false end
  end.

(** ** One line of an input file *)

(** What pydantic makes of a body: the dump without [None]s, the model, and
    what the batch checks ask of a chat request. *)
Record validated : Type := mkValidated {
  va_dump : list (string * pyval);
  va_model : string;
  va_stream : bool;
  va_mcp_tools : bool
}.

Record parsed_line : Type := mkParsedLine {
  pl_line_number : Z;
  pl_custom_id : string;
  pl_request_body : list (string * pyval);
  pl_model : string
}.

Definition bad_request (detail : string) : create_exc := HTTPException 400 detail.
Definition at_line (line_number : Z) (text : string) : string := "Line " +:+ Str.of_Z line_number +:+ text.

Definition unsupported_endpoint (endpoint : string) : create_exc :=
  bad_request ("Unsupported batch endpoint '" +:+ endpoint +:+ "'. Supported endpoints: " +:+ supported_batch_endpoints_display).

(** [method.upper() == "POST"]: below code point 256 no other letter has one of
    these as its other case. *)
Definition is_post (method : string) : bool := String.eqb (Str.lower method) "post".

Section line.
Context (json_loads : string -> option pyval) (py_str : pyval -> string).
Context (embedding_validate chat_validate : list (string * pyval) -> res string validated).

(** [_validate_batch_chat_request] *)
Definition validate_batch_chat_request (payload : validated) (line_number : Z) : res create_exc unit :=
  if va_stream payload
  then Raise (bad_request (at_line line_number
         " chat batch requests support non-streaming requests only; stream must be false"))
  else if va_mcp_tools payload
  then Raise (bad_request (at_line line_number " MCP tools are not supported in batch chat yet"))
  else Ret tt.

Definition invalid_body (line_number : Z) (message : string) : create_exc :=
  bad_request ("Invalid request body at line " +:+ Str.of_Z line_number +:+ ": " +:+ message).

Definition validate_batch_request_body (body : list (string * pyval)) (endpoint : string) (line_number : Z)
    : res create_exc (list (string * pyval) * string) :=
  if String.eqb endpoint BATCH_ENDPOINT_EMBEDDINGS then
    match embedding_validate body with
    | Raise message => Raise (invalid_body line_number message)
    | Ret v => Ret (va_dump v, va_model v)
    end
  else if String.eqb endpoint BATCH_ENDPOINT_CHAT_COMPLETIONS then
    match chat_validate body with
    | Raise message => Raise (invalid_body line_number message)
    | Ret v => _ ← validate_batch_chat_request v line_number; Ret (va_dump v, va_model v)
    end
  else Raise (unsupported_endpoint endpoint).

(** The answer of [model_access_validator]: its [HTTPException] is [exn]'s. *)
Definition of_access (r : res exn unit) : res create_exc unit :=
  match r with
  | Ret _ => Ret tt
  | Raise (EOther e) =>
    match oe_status_code e with
    | Some code => Raise (HTTPException code (oe_message e))
    | None => Raise (CreateOther (EOther e))
    end
  | Raise e => Raise (CreateOther e)
  end.

(** With the custom ids seen so far; [None] is a blank line. *)
Definition parse_batch_input_line (model_access_validator : UserAPIKeyAuth -> string -> res exn unit) (raw_line : string)
    (line_number : Z) (endpoint : string) (auth : UserAPIKeyAuth) (seen_custom_ids : gset string)
    : res create_exc (option (parsed_line * gset string)) :=
  let endpoint := Str.strip endpoint in
  if negb (supported_endpoint endpoint) then Raise (unsupported_endpoint endpoint)
  else
    let line := Str.strip raw_line in
    if Str.is_empty line then Ret None
    else
      match json_loads line with
      | None => Raise (bad_request ("Invalid JSONL at line " +:+ Str.of_Z line_number))
      | Some (PyDict obj) =>
        let method := let v := vget obj "method" in if truthy v then text_of py_str v else "POST" in
        if negb (is_post (Str.strip method)) then Raise (bad_request (at_line line_number " method must be POST"))
        else
          let custom_id := stripped_text py_str (vget obj "custom_id") in
          if Str.is_empty custom_id then Raise (bad_request (at_line line_number " missing custom_id"))
          else if bool_decide (custom_id ∈ seen_custom_ids)
          then Raise (bad_request ("Duplicate custom_id at line " +:+ Str.of_Z line_number))
          else
            let url := let v := vget obj "url" in if truthy v then text_of py_str v else endpoint in
            if negb (String.eqb url endpoint) then Raise (bad_request (at_line line_number (" must target " +:+ endpoint)))
            else
              match vget obj "body" with
              | PyDict body =>
                '(request_body, model) ← validate_batch_request_body body endpoint line_number;
                _ ← of_access (model_access_validator auth model);
                Ret (Some (mkParsedLine line_number custom_id request_body model, {[custom_id]} ∪ seen_custom_ids))
              | _ => Raise (bad_request (at_line line_number " missing body"))
              end
      | Some _ => Raise (bad_request (at_line line_number " must be an object"))
      end.
End line.

(** ** The service *)

Record service (Sto : Type) : Type := mkCreateService {
  sv_storage_registry : gmap string Sto;
  sv_max_file_bytes : Z;
  sv_max_items_per_batch : Z;
  sv_max_line_bytes : Z;
  sv_storage_chunk_size : nat;
  sv_max_pending_batches_per_scope : Z;
  sv_grant_service : option GrantService;
  sv_policy_mode : pyval;
  sv_idempotency_enabled : bool;
  sv_strict_model_homogeneity_enabled : bool;
  sv_default_service_tier : string
}.
Arguments mkCreateService {Sto}.
Arguments sv_storage_registry {Sto}.
Arguments sv_max_file_bytes {Sto}.
Arguments sv_max_items_per_batch {Sto}.
Arguments sv_max_line_bytes {Sto}.
Arguments sv_storage_chunk_size {Sto}.
Arguments sv_max_pending_batches_per_scope {Sto}.
Arguments sv_grant_service {Sto}.
Arguments sv_policy_mode {Sto}.
Arguments sv_idempotency_enabled {Sto}.
Arguments sv_strict_model_homogeneity_enabled {Sto}.
Arguments sv_default_service_tier {Sto}.

Definition make_service {Sto} (registry : list (string * Sto)) (max_file_bytes max_items max_line_bytes chunk_size max_pending : Z)
    (grants : option GrantService) (mode : pyval) (idempotency strict : bool) (tier : string) : service Sto :=
  mkCreateService (fold_left (fun m '(k, v) => <[normalize_backend k := v]> m) registry ∅)
    (Z.max 1 max_file_bytes) (Z.max 1 max_items) (Z.max 1 max_line_bytes) (Z.to_nat (Z.max 1 chunk_size))
    (Z.max 0 max_pending) grants mode idempotency strict (normal_tier tier).

Definition configure_service {Sto} (v : service Sto) (strict : bool) (tier : string) : service Sto :=
  mkCreateService (sv_storage_registry v) (sv_max_file_bytes v) (sv_max_items_per_batch v) (sv_max_line_bytes v)
    (sv_storage_chunk_size v) (sv_max_pending_batches_per_scope v) (sv_grant_service v) (sv_policy_mode v)
    (sv_idempotency_enabled v) strict (normal_tier tier).

(** A call of [create_batch]. *)
Record create_request : Type := mkCreateRequest {
  rq_auth : UserAPIKeyAuth;
  rq_input_file_id : string;
  rq_endpoint : string;
  rq_metadata : pyval;
  rq_completion_window : pyval;
  rq_idempotency_key : option string
}.

Record service_result : Type := mkServiceResult {
  res_job : Job.batch_job;
  res_create_session_id : string;
  res_idempotency_key_present : bool;
  res_idempotency_resolution : string;
  res_promoted : bool
}.

(** What a call meets: errors of its statements and of the reading of the input
    file, what other processes commit before it stages (0), before it looks for
    the winner of a race (1) and before it promotes (2), and the surroundings
    of staging and promotion. *)
Record service_env : Type := mkServiceEnv {
  ve_lookup_fault : option exn;
  ve_file_fault : option exn;
  ve_count_fault : option exn;
  ve_read_fault : option create_exc;
  ve_race_fault : option exn;
  ve_meanwhile : nat -> store -> store;
  ve_target : string;
  ve_stage : stage_env;
  ve_promotion : promotion_env
}.

Section service.
Context {Sto : Type} {storage_class : ArtifactStorage Sto create_exc} {repr : PyRepr}.
Context (json_dumps : pyval -> string) (json_loads : string -> option pyval) (sha256_hex : string -> string).
Context (embedding_validate chat_validate : list (string * pyval) -> res string validated).
Context (model_group_resolver : option (string -> res exn (option string))).
Context (cfg : service Sto) (pcfg : promoter) (b : @staging_backend Sto).

(** *** Staging a new session *)

(** The variables of [_stage_new_session]. *)
Record input_state : Type := mkInputState {
  in_seen_custom_ids : gset string;
  in_inferred_model : option string;
  in_inferred_model_group : option string;
  in_expected_item_count : Z
}.
Definition no_input : input_state := mkInputState ∅ None None 0.

Definition storage_of_file (backend : string) : res create_exc (string * Sto) :=
  let normalized := normalize_backend (if Str.is_empty backend then "local" else backend) in
  match sv_storage_registry cfg !! normalized with
  | Some s => Ret (normalized, s)
  | None => Raise (HTTPException 503 ("Storage backend '" +:+ normalized
      +:+ "' is unavailable; keep create-session artifact storage configured until sessions expire"))
  end.

Definition line_error (e : read_exc) : create_exc :=
  match e with
  | LineTooLong n m =>
    bad_request (at_line n (" exceeds embeddings_batch_max_line_bytes (" +:+ Str.of_Z (sv_max_line_bytes cfg) +:+ ")"))
  | _ => of_read_exc e
  end.

(** The lines of the input file, and how reading them ended. *)
Definition iter_storage_lines (fault : option create_exc) (name : string) (sto : Sto) (key : string) (s : store)
    : stream string create_exc :=
  match iter_bytes sto fault (sv_storage_chunk_size cfg) key (files_of name s) with
  | Raise e => throw e
  | Ret chunks =>
    let lines := iter_lines (Some (sv_max_line_bytes cfg)) chunks in mkStream (yielded lines) (line_error <$> ended lines)
  end.

Definition model_allowed (auth : UserAPIKeyAuth) (model : string) : res exn unit :=
  ensure_batch_model_allowed auth model (sv_grant_service cfg) (sv_policy_mode cfg).

(** The constructor of a staged request; its errors are not the client's. *)
Definition new_staged (line_number : Z) (custom_id : string) (body : list (string * pyval)) (model group : option string)
    (units : option Z) : res create_exc staged_request :=
  match make_staged py_str line_number (PyStr custom_id) (PyDict body) (opt_pystr model) (opt_pystr group)
          (match units with Some n => PyInt n | None => PyNone end) PyNone with
  | Ret r => Ret r
  | Raise e => Raise (StagedRequestError e)
  end.

Definition parse_input_line (raw_line : string) (line_number : Z) (endpoint : string) (auth : UserAPIKeyAuth)
    (seen_custom_ids : gset string) : res create_exc (option (staged_request * string * gset string)) :=
  parsed ← parse_batch_input_line json_loads py_str embedding_validate chat_validate model_allowed raw_line line_number
             endpoint auth seen_custom_ids;
  match (parsed : option (parsed_line * gset string)) with
  | None => Ret None
  | Some (p, seen) =>
    item ← new_staged (pl_line_number p) (pl_custom_id p) (pl_request_body p) None None None;
    Ret (Some (item, pl_model p, seen))
  end.

Definition too_many_items : create_exc :=
  bad_request ("Batch exceeds embeddings_batch_max_items_per_batch (" +:+ Str.of_Z (sv_max_items_per_batch cfg) +:+ ")").
Definition mixed_models : create_exc :=
  bad_request "Batch items must target one model while embeddings_batch_scheduler_strict_model_homogeneity_enabled=true".

(** The body of the loop after [item is None]: the request and the variables. *)
Definition accept_item (endpoint : string) (acc : input_state) (item : staged_request) (model : string) (seen : gset string)
    : res create_exc (staged_request * input_state) :=
  let count := in_expected_item_count acc + 1 in
  if sv_max_items_per_batch cfg <? count then Raise too_many_items
  else
    let group := Dimensions.resolve_model_group (Some model) model_group_resolver in
    let units := Estimator.estimate_request_work_units (dumps_chars json_dumps) (str_or_empty py_str) (Some endpoint)
                   (PyDict (sr_request_body item)) in
    let continue inferred inferred_group :=
      r ← new_staged (sr_line_number item) (sr_custom_id item) (sr_request_body item) (Some model) group (Some units);
      Ret (r, mkInputState seen inferred inferred_group count) in
    match in_inferred_model acc with
    | None => continue (Some model) group
    | Some m =>
      if negb (String.eqb model m && bool_decide (group = in_inferred_model_group acc))
         && sv_strict_model_homogeneity_enabled cfg
      then Raise mixed_models
      else continue (in_inferred_model acc) (in_inferred_model_group acc)
    end.

(** [_records()] and the variables when it ended. *)
Fixpoint input_records (endpoint : string) (auth : UserAPIKeyAuth) (line_number : Z) (acc : input_state)
    (lines : list string) (ended : option create_exc) : stream staged_request create_exc * input_state :=
  match lines with
  | [] => (mkStream [] ended, acc)
  | raw_line :: lines' =>
    match parse_input_line raw_line (line_number + 1) endpoint auth (in_seen_custom_ids acc) with
    | Raise e => (throw e, acc)
    | Ret None => input_records endpoint auth (line_number + 1) acc lines' ended
    | Ret (Some (item, model, seen)) =>
      match accept_item endpoint acc item model seen with
      | Raise e => (throw e, acc)
      | Ret (r, acc') =>
        let '(records, last) := input_records endpoint auth (line_number + 1) acc' lines' ended in (yield r records, last)
      end
    end
  end.

Definition build_session (target endpoint : string) (auth : UserAPIKeyAuth) (file : file_record)
    (metadata : option (list (string * pyval))) (scope key : option string) (last : input_state) (a : artifact)
    : res create_exc session_create :=
  if in_expected_item_count last <=? 0 then Raise (bad_request "No valid batch items found in file")
  else
    match normalize_idempotency_pair scope key with
    | Raise e => Raise (CreateOther e)
    | Ret (scope, key) =>
      Ret (mkSessionCreate target endpoint (fr_file_id file) (storage_backend a) (storage_key a) (bytes_size a)
             (in_expected_item_count last) STAGED (checksum a) (in_inferred_model last) metadata None
             (Some (sv_default_service_tier cfg)) None (batch_pending_scope_key_for_auth auth)
             (batch_pending_scope_key_for_auth auth) scope key None None 0 (Some (api_key auth)) (user_id auth)
             (team_id auth) (organization_id auth) None None None)
    end.

(** The name of the file is part of the key drawn. *)
Definition stage_new_session (env : service_env) (auth : UserAPIKeyAuth) (file : file_record) (endpoint : string)
    (metadata : option (list (string * pyval))) (scope key : option string) : st store create_exc session := fun s =>
  match storage_of_file (fr_storage_backend file) with
  | Raise e => (s, Raise e)
  | Ret (name, sto) =>
    let lines := iter_storage_lines (ve_read_fault env) name sto (fr_storage_key file) s in
    let '(records, last) := input_records endpoint auth 0 no_input (yielded lines) (ended lines) in
    stage_session json_dumps b (ve_stage env) records
      (build_session (ve_target env) endpoint auth file metadata scope key last) s
  end.

(** *** Idempotency *)

(** [auth] without a team, an organization or a key has no scope. *)
Definition idempotency_pair (auth : UserAPIKeyAuth) (idempotency_key : option string) : option string * option string :=
  if negb (sv_idempotency_enabled cfg) then (None, None)
  else match clean_text idempotency_key with
       | None => (None, None)
       | Some key => (batch_idempotency_scope_key auth, Some key)
       end.

(** [_normalize_metadata]: an empty dictionary is [None]. *)
Definition normalize_metadata (metadata : pyval) : option (list (string * pyval)) :=
  match metadata with PyDict ((_ :: _) as d) => Some d | _ => None end.
Definition metadata_of (x : session) : option (list (string * pyval)) :=
  match sc_metadata (ss_columns x) with Some d => normalize_metadata (PyDict d) | None => None end.

Definition request_matches_session (x : session) (input_file_id endpoint : string) (metadata : option (list (string * pyval)))
    : bool :=
  String.eqb (sc_input_file_id (ss_columns x)) input_file_id && String.eqb (sc_endpoint (ss_columns x)) endpoint
  && match metadata_of x, metadata with
     | None, None => true
     | Some d, Some e => py_eq (PyDict d) (PyDict e)
     | _, _ => false
     end.

Definition owns_session (x : session) (auth : UserAPIKeyAuth) : bool :=
  can_access_owned_resource (sc_created_by_api_key (ss_columns x)) (sc_created_by_team_id (ss_columns x))
    (sc_created_by_organization_id (ss_columns x)) auth.

Definition key_conflict : create_exc :=
  HTTPException 409 "Idempotency-Key conflicts with an existing batch create request".

Definition promotion_answer {A} (e : create_exc) : res create_exc A :=
  match e with PromotionError message code _ => Raise (http_exception_for_promotion_error code message) | _ => Raise e end.

Definition promote_session_result (env : service_env) (session_id resolution : string) (key_present : bool)
    : st store create_exc service_result := fun s =>
  match promote_session json_dumps json_loads py_str sha256_hex model_group_resolver pcfg b (ve_promotion env) session_id s with
  | (s', Raise e) => (s', promotion_answer e)
  | (s', Ret p) =>
    match (match pr_job p with Some j => Some j | None => job_row (pr_batch_id p) (st_db s') end) with
    | None => (s', Raise (HTTPException 503 ("Batch '" +:+ pr_batch_id p +:+ "' was not available after promotion")))
    | Some j =>
      (s', Ret (mkServiceResult j session_id key_present (if key_present then resolution else "not_requested") (pr_promoted p)))
    end
  end.

Definition text_or_default (d : string) (o : option string) : string := default d (set_text_of o).

Definition resolve_existing_session (env : service_env) (x : session) (auth : UserAPIKeyAuth)
    (input_file_id endpoint : string) (metadata : option (list (string * pyval))) (resolution : string)
    : st store create_exc service_result := fun s =>
  if negb (owns_session x auth) then (s, Raise key_conflict)
  else if negb (request_matches_session x input_file_id endpoint metadata) then (s, Raise key_conflict)
  else
    match ss_status x with
    | FAILED_PERMANENT =>
      (s, Raise (http_exception_for_promotion_error
                   (text_or_default "promotion_failed" (sc_last_error_code (ss_columns x)))
                   (text_or_default "Batch create session failed permanently" (sc_last_error_message (ss_columns x)))))
    | EXPIRED => (s, Raise (HTTPException 409 "Idempotency-Key refers to an expired batch create session"))
    | _ => promote_session_result env (ss_session_id x) resolution true (ve_meanwhile env 2 s)
    end.

(** *** Admission *)

Definition load_authorized_input_file (env : service_env) (auth : UserAPIKeyAuth) (input_file_id : string)
    (files : list file_record) : res create_exc file_record :=
  match ve_file_fault env with
  | Some e => Raise (CreateOther e)
  | None =>
    match get_file input_file_id files with
    | None => Raise (HTTPException 404 "Input file not found")
    | Some f =>
      if negb (can_access_owned_resource (fr_created_by_api_key f) (fr_created_by_team_id f)
                 (fr_created_by_organization_id f) auth)
      then Raise (HTTPException 403 "Input file access denied")
      else if sv_max_file_bytes cfg <? fr_bytes f
      then Raise (HTTPException 413 ("Input file exceeds embeddings_batch_max_file_bytes ("
                                     +:+ Str.of_Z (sv_max_file_bytes cfg) +:+ ")"))
      else Ret f
    end
  end.

Definition precheck_pending_batch_capacity (env : service_env) (auth : UserAPIKeyAuth) (s : store) : res create_exc unit :=
  if sv_max_pending_batches_per_scope cfg <=? 0 then Ret tt
  else
    match batch_pending_scope_target_for_auth auth with
    | None => Ret tt
    | Some (_, _, created_by_api_key, created_by_team_id) =>
      match ve_count_fault env with
      | Some e => Raise (CreateOther e)
      | None =>
        if sv_max_pending_batches_per_scope cfg <=? count_active_jobs_for_scope created_by_api_key created_by_team_id (st_db s)
        then Raise (HTTPException 429 ("Active batch count exceeds embeddings_batch_max_pending_batches_per_scope ("
                                       +:+ Str.of_Z (sv_max_pending_batches_per_scope cfg) +:+ ")"))
        else Ret tt
      end
    end.

(** A lookup of the session under the pair, if there is a pair. *)
Definition lookup_session (fault : option exn) (pair : option string * option string) (s : store)
    : res create_exc (option session) :=
  match pair with
  | (Some scope, Some key) =>
    match fault with
    | Some e => Raise (CreateOther e)
    | None =>
      match get_session_by_idempotency_key scope key (st_sessions s) with
      | Ret x => Ret x
      | Raise e => Raise (CreateOther e)
      end
    end
  | _ => Ret None
  end.

(** The part of [create_batch] after the lookup found nothing. *)
Definition create_new_batch (env : service_env) (rq : create_request) (files : list file_record) (endpoint : string)
    (pair : option string * option string) : st store create_exc service_result := fun s =>
  let metadata := normalize_metadata (rq_metadata rq) in
  match load_authorized_input_file env (rq_auth rq) (rq_input_file_id rq) files with
  | Raise e => (s, Raise e)
  | Ret file =>
    match precheck_pending_batch_capacity env (rq_auth rq) s with
    | Raise e => (s, Raise e)
    | Ret _ =>
      match stage_new_session env (rq_auth rq) file endpoint metadata (fst pair) (snd pair) (ve_meanwhile env 0 s) with
      | (s', Ret x) =>
        promote_session_result env (ss_session_id x) "created" (bool_decide (is_Some (snd pair))) (ve_meanwhile env 2 s')
      | (s', Raise e) =>
        let s'' := ve_meanwhile env 1 s' in
        match lookup_session (ve_race_fault env) pair s'' with
        | Raise e' => (s'', Raise e')
        | Ret None => (s'', Raise e)
        | Ret (Some raced) =>
          resolve_existing_session env raced (rq_auth rq) (rq_input_file_id rq) endpoint metadata "race_resolved" s''
        end
      end
    end
  end.

Definition create_batch (env : service_env) (rq : create_request) (files : list file_record)
    : st store create_exc service_result := fun s =>
  let endpoint := Str.strip (rq_endpoint rq) in
  if negb (supported_endpoint endpoint) then (s, Raise (unsupported_endpoint endpoint))
  else
    match normalize_batch_completion_window (rq_completion_window rq) with
    | Raise e => (s, Raise (bad_request (exn_str e)))
    | Ret _ =>
      let pair := idempotency_pair (rq_auth rq) (rq_idempotency_key rq) in
      match lookup_session (ve_lookup_fault env) pair s with
      | Raise e => (s, Raise e)
      | Ret (Some existing) =>
        resolve_existing_session env existing (rq_auth rq) (rq_input_file_id rq) endpoint
          (normalize_metadata (rq_metadata rq)) "existing" s
      | Ret None => create_new_batch env rq files endpoint pair s
      end
    end.
End service.

(** ** Sessions keep their identity *)

Section identity.
Context (json_dumps : pyval -> string) (json_loads : string -> option pyval) (py_str : pyval -> string).
Context (sha256_hex : string -> string) (model_group_resolver : option (string -> res exn (option string))).
Implicit Types (x y : session) (s : store) (t : list session).

#[local] Abbreviation run := (create_run json_dumps json_loads py_str sha256_hex model_group_resolver).
#[local] Abbreviation step := (create_step json_dumps json_loads py_str sha256_hex model_group_resolver).

Definition pair_of x : option (string * string) := idempotency_of (ss_columns x).
Definition identity x : string * string * option (string * string) := (ss_session_id x, ss_target x, pair_of x).

Lemma identity_eq x y : identity x = identity y ->
  ss_session_id x = ss_session_id y /\ ss_target x = ss_target y /\ pair_of x = pair_of y.
Proof. unfold identity. by intros [= -> -> ->]. Qed.

(** The ids are unique, and so are the idempotency pairs. *)
Record keyed t : Prop := mkKeyed {
  ky_ids : NoDup (session_ids t);
  ky_pairs : forall x y, x ∈ t -> y ∈ t -> pair_of x = pair_of y -> pair_of x <> None -> x = y
}.

Definition from_rows t t' : Prop :=
  sublist (session_ids t') (session_ids t) /\ forall y, y ∈ t' -> exists x, x ∈ t /\ identity y = identity x.

Lemma from_rows_refl t : from_rows t t.
Proof. split; [done|]. intros y Hy. by exists y. Qed.

Lemma from_rows_update id u from t : from_rows t (fst (update_session id u from t)).
Proof.
  split; [by rewrite update_session_ids|]. intros y Hy. destruct (update_session_row _ _ _ _ _ Hy) as (x & Hx & _ & E).
  exists x. split; [done|]. subst y. by destruct (has_id id x && status_in from x).
Qed.

Lemma from_rows_filter p t : from_rows t (select_where p t).
Proof. split; [exact (proj1 (settles_filter p t))|]. intros y [Hy _]%elem_select. by exists y. Qed.

Lemma keyed_from t t' : from_rows t t' -> keyed t -> keyed t'.
Proof.
  intros [Hs Hr] [Hi Hp]. assert (Hi' : NoDup (session_ids t')) by exact (sublist_NoDup _ _ Hi Hs).
  constructor; [done|]. intros y1 y2 H1 H2 E Hne.
  destruct (Hr y1 H1) as (x1 & Hx1 & E1), (Hr y2 H2) as (x2 & Hx2 & E2).
  apply identity_eq in E1 as (Ei1 & _ & Ep1), E2 as (Ei2 & _ & Ep2).
  apply (NoDup_map_inj ss_session_id t'); [done..|]. rewrite Ei1, Ei2. f_equal. apply Hp; congruence.
Qed.

(** A new row conflicts with none. *)
Lemma keyed_insert t x : Forall (fun y => conflicts x y = false) t -> keyed t -> keyed (t ++ [x]).
Proof.
  intros Hc [Hi Hp]. rewrite Forall_forall in Hc.
  assert (Hno : forall y, y ∈ t -> ss_session_id y <> ss_session_id x /\ (pair_of x = pair_of y -> pair_of x = None)).
  { intros y Hy. specialize (Hc y Hy). unfold conflicts in Hc. apply orb_false_iff in Hc as [[Hid _]%orb_false_iff Hc].
    split; [intros E; rewrite E, String.eqb_refl in Hid; done|]. fold (pair_of x) (pair_of y) in Hc. intros E.
    destruct (pair_of x) as [a|]; [|done]. rewrite <- E in Hc. by rewrite bool_decide_true in Hc. }
  constructor.
  - rewrite map_app. apply NoDup_app. split_and!; [done| |apply NoDup_singleton].
    intros i (y & -> & Hy)%list_elem_of_fmap Hx%list_elem_of_singleton. by apply (proj1 (Hno y Hy)).
  - intros y z [Hy|Hy%list_elem_of_singleton]%elem_of_app [Hz|Hz%list_elem_of_singleton]%elem_of_app E Hne.
    + by apply Hp.
    + subst z. destruct Hne. rewrite E. by apply (proj2 (Hno y Hy)).
    + subst y. destruct Hne. by apply (proj2 (Hno z Hz)).
    + congruence.
Qed.

(** Where the rows after a step or a run come from. *)
Definition traced t t' (created : list string) : Prop :=
  forall y, y ∈ t' -> (exists x, x ∈ t /\ identity y = identity x) \/ ss_session_id y ∈ created.

Lemma step_traced s e s' : step s e s' -> keyed (st_sessions s) ->
  keyed (st_sessions s') /\ traced (st_sessions s) (st_sessions s') (created_ids [e]).
Proof.
  intros Hs Hk.
  assert (Hquiet : forall s1 e1, from_rows (st_sessions s) (st_sessions s1) ->
    keyed (st_sessions s1) /\ traced (st_sessions s) (st_sessions s1) (created_ids [e1])).
  { intros s1 e1 H. split; [by eapply keyed_from|]. intros y Hy. left. by apply (proj2 H). }
  destruct Hs as [env c s|cfg env id spool n summary s|env x code m rt s|id now s|x s|id s|f s|d s _].
  - destruct (insert_session_cases env c s) as [[E _]|(x & E & Hn & ->)]; [apply Hquiet; rewrite E; apply from_rows_refl|].
    rewrite E. split; [apply keyed_insert; [apply Hn|done]|].
    intros y [Hy|Hy%list_elem_of_singleton]%elem_of_app; [left; by exists y|right]. subst y. by left.
  - apply Hquiet. destruct (promote_sessions json_dumps json_loads py_str sha256_hex model_group_resolver cfg env id spool n summary s)
      as [->|(i & now & ->)]; [apply from_rows_refl|apply from_rows_update].
  - apply Hquiet. unfold record_failure. destruct (negb _); [apply from_rows_refl|].
    destruct (pe_record_fault env); [apply from_rows_refl|]. destruct rt; apply from_rows_update.
  - apply Hquiet, from_rows_update.
  - apply Hquiet, from_rows_filter.
  - apply Hquiet, from_rows_filter.
  - apply Hquiet, from_rows_refl.
  - apply Hquiet, from_rows_refl.
Qed.

Lemma run_traced s tr s' : run s tr s' -> keyed (st_sessions s) ->
  keyed (st_sessions s') /\ traced (st_sessions s) (st_sessions s') (created_ids tr).
Proof.
  induction 1 as [s|s e s1 tr s2 Hs Hr IH]; intros Hk; [split; [done|]; intros y Hy; left; by exists y|].
  destruct (step_traced _ _ _ Hs Hk) as [Hk1 Ht1]. destruct (IH Hk1) as [Hk2 Ht2]. split; [done|]. intros y Hy.
  change (created_ids (e :: tr)) with (created_ids ([e] ++ tr)). unfold created_ids in *. rewrite omap_app.
  destruct (Ht2 y Hy) as [(x & Hx & E)|Hin]; [|right; apply elem_of_app; by right].
  destruct (Ht1 x Hx) as [(z & Hz & E')|Hin]; [left; exists z; split; [done|congruence]|].
  right. apply elem_of_app. left. apply identity_eq in E as (-> & _). done.
Qed.

Lemma run_keyed s0 tr s : st_sessions s0 = [] -> run s0 tr s -> keyed (st_sessions s).
Proof.
  intros H0 Hr. apply (run_traced _ _ _ Hr). rewrite H0. constructor; [constructor|]. by intros x y ?%elem_of_nil.
Qed.

(** A row whose id is not drawn again is the row it was. *)
Lemma run_same_row s tr s' x y : run s tr s' -> keyed (st_sessions s) -> x ∈ st_sessions s -> y ∈ st_sessions s' ->
  ss_session_id y = ss_session_id x -> ss_session_id x ∉ created_ids tr -> identity y = identity x.
Proof.
  intros Hr Hk Hx Hy E Hno. destruct (run_traced _ _ _ Hr Hk) as [_ Ht].
  destruct (Ht y Hy) as [(z & Hz & Ez)|Hin]; [|by rewrite E in Hin].
  rewrite Ez. f_equal. apply (NoDup_map_inj ss_session_id (st_sessions s)); [apply Hk|done|done|].
  apply identity_eq in Ez as (Ez & _). congruence.
Qed.
End identity.

(** ** Answers to one idempotency key *)

Section answers.
Context {Sto : Type} {storage_class : ArtifactStorage Sto create_exc} {repr : PyRepr}.
Context (json_dumps : pyval -> string) (json_loads : string -> option pyval) (sha256_hex : string -> string).
Context (embedding_validate chat_validate : list (string * pyval) -> res string validated).
Context (model_group_resolver : option (string -> res exn (option string))).
Context (cfg : service Sto) (pcfg : promoter) (b : @staging_backend Sto).
Implicit Types (x y : session) (s : store).

#[local] Abbreviation run := (create_run json_dumps json_loads py_str sha256_hex model_group_resolver).
#[local] Abbreviation promote := (promote_session json_dumps json_loads py_str sha256_hex model_group_resolver pcfg b).
#[local] Abbreviation create_batch := (create_batch json_dumps json_loads sha256_hex embedding_validate chat_validate
  model_group_resolver cfg pcfg b).
#[local] Abbreviation stage_new := (stage_new_session json_dumps json_loads embedding_validate chat_validate
  model_group_resolver cfg b).
#[local] Abbreviation resolve := (resolve_existing_session json_dumps json_loads sha256_hex model_group_resolver pcfg b).
#[local] Abbreviation answer := (promote_session_result json_dumps json_loads sha256_hex model_group_resolver pcfg b).

Lemma job_row_id target d j : job_row target d = Some j -> Job.batch_id j = target.
Proof. intros H. by apply row_at_key in H as [_ H]. Qed.

(** What a promotion returns is the batch of its session. *)
Lemma promote_answer env id s s' p : promote env id s = (s', Ret p) ->
  exists x j, get_session id (st_sessions s) = Some x /\ pr_job p = Some j /\ Job.batch_id j = ss_target x.
Proof.
  unfold promote_session. intros H. destruct (pe_get_fault env); [done|].
  destruct (get_session id (st_sessions s)) as [x|] eqn:Hx; [|done]. exists x.
  assert (Hspooled : forall spool n summary, match promote_spooled_session json_dumps json_loads py_str sha256_hex model_group_resolver
      pcfg env id spool n summary s with
    | (s', Ret result) => (s', Ret result)
    | (s', Raise (PromotionError _ _ _ as e)) => fail_promotion env x e s'
    | (s', Raise e) => fail_promotion env x (promotion_failed id e) s'
    end = (s', Ret p) -> exists j, pr_job p = Some j /\ Job.batch_id j = ss_target x).
  { intros spool n summary Ht.
    destruct (promote_spooled_session _ _ _ _ _ _ _ _ _ _ _ _) as [s1 [p1|e]] eqn:E; [|by destruct e].
    injection Ht as -> ->. destruct (pr_promoted p) eqn:Hp.
    - destruct (promote_spooled_inv _ _ _ _ _ _ _ _ _ _ _ _ _ _ E Hp) as (z & l & d & Hpd).
      destruct Hpd as [Hz _ _ _ _ _ Hjob [j [Hj _]] _ _ _ _]. rewrite Hx in Hz. injection Hz as <-.
      rewrite Hj in Hjob. apply create_job_rows in Hjob as (-> & _); [|done]. by eexists.
    - unfold promote_spooled_session, store_transaction, get_session_for_update in E. rewrite Hx in E.
      destruct (promote_locked _ _ _ _ _ _ _ _ _ _ _ s) as [s2 [p2|e]] eqn:Hl; [|done].
      destruct (pe_tx_fault env); [done|]. injection E as _ ->.
      destruct (job_row (ss_target x) (st_db s)) as [j|] eqn:Hj.
      2: { by rewrite (promote_locked_new _ _ _ _ _ _ _ _ _ _ _ _ _ _ Hj Hl) in Hp. }
      exists j. split; [|by eapply job_row_id]. unfold promote_locked in Hl. rewrite Hj in Hl.
      destruct (ss_status x); try (by injection Hl as _ <-); (apply bind_ret_inv in Hl as (s3 & y & _ & Hl); by injection Hl as _ <-). }
  assert (Hsome : exists j, pr_job p = Some j /\ Job.batch_id j = ss_target x).
  2: { destruct Hsome as (j & Hj). by exists j. }
  destruct (ss_status x); cbn [promotable negb] in H; try done.
  2: { unfold build_completed_result in H. destruct (job_row _ _) as [j|] eqn:Hj; [|done]. injection H as _ <-.
       exists j. split; [done|by eapply job_row_id]. }
  all: destruct (precheck_pending_capacity pcfg env x s); [|done].
  all: destruct (spool_staged_items _ _ _ _ _ _ _ _ _) as [[[spool n] summary]|e]; [by eapply Hspooled|by destruct e].
Qed.

Lemma promote_run env id s : exists tr, run s tr (fst (promote env id s)) /\ created_ids tr = [].
Proof.
  destruct (promote_session_run json_dumps json_loads py_str sha256_hex model_group_resolver b pcfg env id s) as (tr & Hr & Hc & _).
  by exists tr.
Qed.

Lemma answer_spec env id res kp s s' r : answer env id res kp s = (s', Ret r) ->
  (exists x, get_session id (st_sessions s) = Some x /\ Job.batch_id (res_job r) = ss_target x) /\
  res_create_session_id r = id /\ res_idempotency_resolution r = (if kp then res else "not_requested") /\
  exists tr, run s tr s' /\ created_ids tr = [].
Proof.
  unfold promote_session_result. intros H. destruct (promote_run (ve_promotion env) id s) as (tr & Hr & Hc).
  destruct (promote (ve_promotion env) id s) as [s1 [p|e]] eqn:E; [|by destruct e].
  destruct (promote_answer _ _ _ _ _ E) as (x & j & Hx & Hj & Hid). rewrite Hj in H. injection H as <- <-.
  split_and!; [by exists x|done|done|by exists tr].
Qed.

(** What other processes do is a run of the system; the ids they draw are new. *)
Definition fair (env : service_env) : Prop :=
  forall i s, exists tr, run s tr (ve_meanwhile env i s) /\
    forall id, id ∈ session_ids (st_sessions s) -> id ∉ created_ids tr.

(** An answer [r] for the session [x] of [s], reached with [x] kept. *)
Definition answers (s s' : store) x (r : service_result) : Prop :=
  res_create_session_id r = ss_session_id x /\ Job.batch_id (res_job r) = ss_target x /\
  exists tr, run s tr s' /\ ss_session_id x ∉ created_ids tr.

Lemma answer_after env x res kp s s' r : fair env -> keyed (st_sessions s) -> x ∈ st_sessions s ->
  answer env (ss_session_id x) res kp (ve_meanwhile env 2 s) = (s', Ret r) ->
  answers s s' x r /\ res_idempotency_resolution r = (if kp then res else "not_requested") /\
  exists tr, run (ve_meanwhile env 2 s) tr s' /\ created_ids tr = [].
Proof.
  intros Hf Hk Hx H. apply answer_spec in H as ((y & Hy & Hj) & Hid & Hres & tr & Hr & Hc).
  destruct (Hf 2%nat s) as (tr1 & Hr1 & Hnew). specialize (Hnew (ss_session_id x) ltac:(by apply list_elem_of_fmap_2)).
  apply find_has_id in Hy as [Hin Hyid].
  pose proof (run_same_row _ _ _ _ _ _ _ _ _ _ Hr1 Hk Hx Hin Hyid Hnew) as E. apply identity_eq in E as (_ & Et & _).
  split; [|split; [done|by exists tr]]. split_and!; [done|congruence|]. exists (tr1 ++ tr). split; [by eapply run_app|].
  unfold created_ids in *. rewrite omap_app, Hc, app_nil_r. done.
Qed.

Lemma resolve_spec env x auth file endpoint metadata res s s' r :
  fair env -> keyed (st_sessions s) -> x ∈ st_sessions s ->
  resolve env x auth file endpoint metadata res s = (s', Ret r) ->
  answers s s' x r /\ res_idempotency_resolution r = res /\
  exists tr, run (ve_meanwhile env 2 s) tr s' /\ created_ids tr = [].
Proof.
  intros Hf Hk Hx. unfold resolve_existing_session. destruct (negb (owns_session x auth)); [done|].
  destruct (negb (request_matches_session x file endpoint metadata)); [done|].
  destruct (ss_status x); try done; intros H; exact (answer_after _ _ _ _ _ _ _ Hf Hk Hx H).
Qed.

(** Staging only adds its row to the sessions. *)
Lemma on_backend_tables {A} n (m : st files create_exc A) s : same_tables s (fst (on_backend n m s)).
Proof. unfold on_backend. by destruct (m (files_of n s)). Qed.

Lemma write_records_tables d key temp records s : same_tables s (fst (write_records json_dumps b d key temp records s)).
Proof.
  unfold write_records, mbind, st_bind. cbv zeta.
  match goal with |- context [on_backend ?n ?m s] => pose proof (on_backend_tables n m s) as H; destruct (on_backend n m s) as [s1 [[[k size] sum]|e]] end;
    cbn [fst] in H; [|done].
  by destruct ((size <=? 0) || Str.is_empty k).
Qed.

Lemma delete_artifact_tables fault a s : same_tables s (fst (delete_artifact b fault a s)).
Proof. unfold delete_artifact. destruct (storage_for_backend b _) as [[n sto]|e]; [apply on_backend_tables|done]. Qed.

Lemma compensate_tables fault n a s : same_tables s (compensate_orphaned_artifact b fault n a s).
Proof.
  revert s. induction n as [|n IH]; intros s; cbn [compensate_orphaned_artifact]; [done|].
  pose proof (delete_artifact_tables (fault (COMPENSATION_ATTEMPTS - S n)%nat) a s) as [H1 H2].
  destruct (delete_artifact _ _ _ s) as [s1 [u|e]]; cbn [fst] in *; [done|].
  destruct (IH s1) as [H3 H4]. split; congruence.
Qed.

Lemma clean_text_idemp o : clean_text (clean_text o) = clean_text o.
Proof.
  unfold clean_text, or_none. destruct (Str.is_empty (Str.strip (default "" o))) eqn:E; [done|].
  change (default "" (Some ?t)) with t. by rewrite strip_idemp, E.
Qed.

Lemma normalize_pair_idemp scope key p q : normalize_idempotency_pair scope key = Ret (p, q) ->
  normalize_idempotency_pair p q = Ret (p, q).
Proof.
  unfold normalize_idempotency_pair. intros H. pose proof (clean_text_idemp scope) as H1. pose proof (clean_text_idemp key) as H2.
  destruct (clean_text scope), (clean_text key); try done; injection H as <- <-; by rewrite ?H1, ?H2.
Qed.

(** The row of a new session has the columns given, and the normalised pair. *)
Lemma insert_session_columns env c s s' x scope key : insert_session env c s = (s', Ret x) ->
  normalize_idempotency_pair (sc_idempotency_scope_key c) (sc_idempotency_key c) = Ret (scope, key) ->
  ss_columns x = set_idempotency scope key c.
Proof.
  unfold insert_session, Sessions.create_session. intros H E. rewrite E in H.
  destruct (se_insert_fault env); try done; (destruct (existsb _ _); try done). by injection H as _ <-.
Qed.

(** The columns of a staged session are those built. *)
Lemma staged_columns env records build s s' x : stage_session json_dumps b env records build s = (s', Ret x) ->
  exists a c p q, build a = Ret c /\ ss_columns x = set_idempotency p q c.
Proof.
  unfold stage_session, mbind, st_bind, register_session. intros H.
  destruct (write_records _ _ _ _ _ _ s) as [s1 [a|e]]; [|done].
  destruct (build a) as [c|e] eqn:Ec; [|done]. destruct (insert_session env c s1) as [s2 [y|e]] eqn:Ei; [|done].
  injection H as <- <-. exists a, c. revert Ei. unfold insert_session, Sessions.create_session.
  destruct (normalize_idempotency_pair _ _) as [[p q]|e]; [|done]. destruct (se_insert_fault env); try done;
    (destruct (existsb _ _); try done).
  intros [= <- <-]. by exists p, q.
Qed.

Lemma stage_new_sessions env auth file endpoint metadata scope key s :
  let '(s', r) := stage_new env auth file endpoint metadata scope key s in
  match r with
  | Raise _ => st_sessions s' = st_sessions s \/
               exists x, st_sessions s' = st_sessions s ++ [x] /\ Forall (fun y => conflicts x y = false) (st_sessions s)
  | Ret x => st_sessions s' = st_sessions s ++ [x] /\ Forall (fun y => conflicts x y = false) (st_sessions s) /\
             exists p q, normalize_idempotency_pair scope key = Ret (p, q) /\
               pair_of x = match p, q with Some p, Some q => Some (p, q) | _, _ => None end
  end.
Proof.
  unfold stage_new_session. destruct (storage_of_file cfg _) as [[n sto]|e]; [|by left].
  destruct (input_records _ _ _ _ _ _ _ _ _ _ _ _) as [records last]. unfold stage_session, mbind, st_bind.
  pose proof (write_records_tables (se_disk (ve_stage env)) (se_key (ve_stage env)) (se_temp (ve_stage env)) records s) as [Ht _].
  destruct (write_records _ _ _ _ _ _ s) as [s1 [a|e]]; cbn [fst] in Ht; [|by left]. unfold register_session.
  destruct (build_session cfg _ _ _ _ _ _ _ last a) as [c|e] eqn:Ec.
  2: { destruct (compensate_tables (se_delete_fault (ve_stage env)) COMPENSATION_ATTEMPTS a s1). left. congruence. }
  pose proof (insert_session_spec (ve_stage env) c s1) as Hi.
  destruct (insert_session (ve_stage env) c s1) as [s2 [x|e]] eqn:Ei; destruct Hi as (_ & _ & Hi).
  2: { destruct (compensate_tables (se_delete_fault (ve_stage env)) COMPENSATION_ATTEMPTS a s2) as [-> _]. rewrite <- Ht.
       destruct Hi as [->|(e' & x & _ & -> & [Hc _ _ _ _])]; [by left|right; by exists x]. }
  destruct Hi as (E & [Hc _ _ _ _]). rewrite <- Ht. split; [done|]. split; [done|].
  unfold build_session in Ec. destruct (_ <=? 0); [done|].
  destruct (normalize_idempotency_pair scope key) as [[p q]|e] eqn:En; [|done]. injection Ec as <-.
  exists p, q. split; [done|]. unfold pair_of, idempotency_of.
  by rewrite (insert_session_columns _ _ _ _ _ p q Ei ltac:(by eapply normalize_pair_idemp)).
Qed.

Lemma keyed_stage env auth file endpoint metadata scope key s : keyed (st_sessions s) ->
  keyed (st_sessions (fst (stage_new env auth file endpoint metadata scope key s))).
Proof.
  intros Hk. pose proof (stage_new_sessions env auth file endpoint metadata scope key s) as H.
  destruct (stage_new _ _ _ _ _ _ _ s) as [s' [x|e]]; cbn [fst].
  - destruct H as (-> & Hc & _). by apply keyed_insert.
  - destruct H as [->|(x & -> & Hc)]; [done|by apply keyed_insert].
Qed.

(** The pair as the table has it. *)
Definition normal_pair (pair : option string * option string) : option (string * string) :=
  match normalize_idempotency_pair (fst pair) (snd pair) with Ret (Some p, Some q) => Some (p, q) | _ => None end.

Lemma lookup_spec fault scope key s o : lookup_session fault (Some scope, Some key) s = Ret o ->
  exists pq, normal_pair (Some scope, Some key) = Some pq /\
    match o with
    | Some x => x ∈ st_sessions s /\ pair_of x = Some pq
    | None => forall y, y ∈ st_sessions s -> pair_of y <> Some pq
    end.
Proof.
  unfold lookup_session, normal_pair, get_session_by_idempotency_key. cbn [fst snd]. destruct fault; [done|].
  destruct (normalize_idempotency_pair (Some scope) (Some key)) as [[[p|] [q|]]|e]; try done.
  assert (Hh : forall y, has_idempotency p q y = true <-> pair_of y = Some (p, q)).
  { intros y. unfold has_idempotency, pair_of, idempotency_of, sql_eq.
    destruct (sc_idempotency_scope_key _) as [p'|], (sc_idempotency_key _) as [q'|]; cbn; rewrite ?andb_false_r; try done.
    rewrite andb_true_iff, !String.eqb_eq. naive_solver. }
  intros [= <-]. exists (p, q). split; [done|]. destruct (List.find _ _) as [x|] eqn:E.
  - apply find_some in E as [Hin E]. split; [by apply list_elem_of_In|by apply Hh].
  - intros y Hy Hp. apply Hh in Hp. eapply find_none_forall in E; [|exact Hy]. congruence.
Qed.

(** Whatever path a call takes, its answer is for a session under its key. *)
Lemma create_batch_spec env rq files s s' r scope key : fair env -> keyed (st_sessions s) ->
  idempotency_pair cfg (rq_auth rq) (rq_idempotency_key rq) = (Some scope, Some key) ->
  create_batch env rq files s = (s', Ret r) ->
  exists s1 x, keyed (st_sessions s1) /\ x ∈ st_sessions s1 /\ pair_of x = normal_pair (Some scope, Some key) /\ answers s1 s' x r.
Proof.
  intros Hf Hk Hp. unfold CreateService.create_batch. destruct (negb _); [done|].
  destruct (normalize_batch_completion_window _); [|done]. rewrite Hp.
  destruct (lookup_session _ _ s) as [[x|]|e] eqn:El; [| |done]; apply lookup_spec in El as (pq & En & El).
  { destruct El as [Hx Hpx]. intros H. apply resolve_spec in H as (Ha & _); [|done..]. exists s, x. rewrite En. done. }
  unfold create_new_batch. destruct (load_authorized_input_file _ _ _ _ _) as [file|e]; [|done].
  destruct (precheck_pending_batch_capacity _ _ _ s); [|done].
  destruct (Hf 0%nat s) as (tr0 & Hr0 & _). destruct (run_traced _ _ _ _ _ _ _ _ Hr0 Hk) as [Hk0 _].
  cbn [fst snd].
  pose proof (stage_new_sessions env (rq_auth rq) file (Str.strip (rq_endpoint rq)) (normalize_metadata (rq_metadata rq))
    (Some scope) (Some key) (ve_meanwhile env 0 s)) as Hs.
  pose proof (keyed_stage env (rq_auth rq) file (Str.strip (rq_endpoint rq)) (normalize_metadata (rq_metadata rq))
    (Some scope) (Some key) (ve_meanwhile env 0 s) Hk0) as Hk1.
  destruct (stage_new _ _ _ _ _ _ _ _) as [s1 [x|e]]; cbn [fst] in Hk1.
  - destruct Hs as (Es & _ & p & q & Hn & Hpx). intros H.
    assert (Hx : x ∈ st_sessions s1) by (rewrite Es; apply elem_of_app; right; by apply list_elem_of_singleton).
    apply answer_after in H as (Ha & _); [|done..]. exists s1, x. split_and!; [done|done| |done].
    rewrite Hpx. unfold normal_pair in *. cbn [fst snd] in *. rewrite Hn in *. by destruct p, q.
  - destruct (Hf 1%nat s1) as (tr1 & Hr1 & _). destruct (run_traced _ _ _ _ _ _ _ _ Hr1 Hk1) as [Hk2 _].
    destruct (lookup_session (ve_race_fault env) _ (ve_meanwhile env 1 s1)) as [[x|]|e'] eqn:El2; [|done|done].
    apply lookup_spec in El2 as (pq' & En' & Hx & Hpx). intros H.
    apply resolve_spec in H as (Ha & _); [|done..]. exists (ve_meanwhile env 1 s1), x. by rewrite En'.
Qed.

(** C6: An idempotency key names one batch.  Let a call of [create_batch] with
    an idempotency key return a batch, from any reachable store and whatever
    other processes commit while it runs -- it may have staged the session, found
    one, or lost a race to one and compensated.  As long as that session is not
    cleaned up, every later call with the same key in the same scope that
    returns at all returns the same batch and the same session, resolved as
    "existing", and creates no session: a client that repeats its request never
    gets a second batch. *)
Theorem idempotent_create env1 env2 rq1 rq2 files1 files2 s0 tr0 s1 s2 tr s3 s4 scope key r1 r2 :
  st_sessions s0 = [] -> run s0 tr0 s1 -> fair env1 -> fair env2 ->
  idempotency_pair cfg (rq_auth rq1) (rq_idempotency_key rq1) = (Some scope, Some key) ->
  idempotency_pair cfg (rq_auth rq2) (rq_idempotency_key rq2) = (Some scope, Some key) ->
  create_batch env1 rq1 files1 s1 = (s2, Ret r1) -> run s2 tr s3 ->
  res_create_session_id r1 ∈ session_ids (st_sessions s3) -> res_create_session_id r1 ∉ created_ids tr ->
  create_batch env2 rq2 files2 s3 = (s4, Ret r2) ->
  res_create_session_id r2 = res_create_session_id r1 /\ Job.batch_id (res_job r2) = Job.batch_id (res_job r1) /\
  res_idempotency_resolution r2 = "existing" /\
  exists tr', run (ve_meanwhile env2 2 s3) tr' s4 /\ created_ids tr' = [].
Proof.
  intros H0 Hr0 Hf1 Hf2 Hp1 Hp2 Hc1 Hr Hid Hno Hc2.
  destruct (create_batch_spec _ _ _ _ _ _ _ _ Hf1 (run_keyed _ _ _ _ _ _ _ _ H0 Hr0) Hp1 Hc1)
    as (sx & x & Hkx & Hx & Hpx & Hsid & Hjob & trx & Hrx & Hnx).
  assert (Hk2 : keyed (st_sessions s2)) by exact (proj1 (run_traced _ _ _ _ _ _ _ _ Hrx Hkx)).
  assert (Hk3 : keyed (st_sessions s3)) by exact (proj1 (run_traced _ _ _ _ _ _ _ _ Hr Hk2)).
  apply list_elem_of_fmap in Hid as (y & Hyid & Hy).
  assert (E : identity y = identity x).
  { apply (run_same_row json_dumps json_loads py_str sha256_hex model_group_resolver sx (trx ++ tr) s3); try done;
      [by eapply run_app|congruence|]. unfold created_ids in *. rewrite omap_app. intros [Hi|Hi]%elem_of_app; [done|].
    by rewrite <- Hsid in Hi. }
  apply identity_eq in E as (Ei & Et & Ep).
  unfold CreateService.create_batch in Hc2. destruct (negb _); [done|].
  destruct (normalize_batch_completion_window _); [|done]. rewrite Hp2 in Hc2.
  destruct (lookup_session _ _ s3) as [[z|]|e] eqn:El; [| |done]; apply lookup_spec in El as (pq & En & El);
    rewrite En in Hpx; [|by destruct (El y Hy); congruence].
  destruct El as [Hz Hpz].
  assert (z = y) as -> by (apply Hk3; [done|done|congruence|congruence]).
  destruct (resolve_spec _ _ _ _ _ _ _ _ _ _ Hf2 Hk3 Hz Hc2) as ((Hs2 & Hj2 & _) & Hres & Hrun).
  split_and!; [congruence|congruence|done|done].
Qed.
End answers.

(** ** What is accepted *)

Lemma stripped_text_pystr text t : stripped_text text (PyStr t) = Str.strip t.
Proof. unfold stripped_text. cbn. destruct (Str.is_empty t) eqn:E; [|done]. by apply String.eqb_eq in E as ->. Qed.

Lemma stripped_text_opt text o : or_none (stripped_text text (opt_pystr o)) = clean_text o.
Proof. destruct o as [t|]; [|done]. cbn [opt_pystr]. by rewrite stripped_text_pystr. Qed.

Lemma new_staged_inv `{PyRepr} n c d m g u r : (forall k, u = Some k -> 1 <= k) -> new_staged n c d m g u = Ret r ->
  staged_ok r /\ r = mkStaged n (Str.strip c) d (clean_text m) (clean_text g) u None.
Proof.
  intros Hu. unfold new_staged.
  destruct (make_staged py_str n (PyStr c) (PyDict d) (opt_pystr m) (opt_pystr g) _ PyNone) as [r'|e] eqn:E; [|done].
  intros [= ->]. split; [by eapply make_staged_ok|]. unfold make_staged in E. destruct (n <=? 0); [done|].
  rewrite stripped_text_pystr, !stripped_text_opt in E. destruct (Str.is_empty _); [done|].
  destruct u as [k|]; cbn -[Z.max] in E; injection E as <-; [|done]. by rewrite Z.max_r by (by apply Hu).
Qed.

Section accepted.
Context {Sto : Type} {storage_class : ArtifactStorage Sto create_exc} {repr : PyRepr}.
Context (sha256 : bytes -> string) {storage_laws : ArtifactStorageLaws Sto create_exc sha256 MissingFile}.
Context (json_dumps : pyval -> string) (json_loads : string -> option pyval).
Context (embedding_validate chat_validate : list (string * pyval) -> res string validated).
Context (model_group_resolver : option (string -> res exn (option string))).
Context (cfg : service Sto) (b : @staging_backend Sto).
Implicit Types (r : staged_request) (s : store) (acc last : input_state).

#[local] Abbreviation parse_line := (parse_input_line json_loads embedding_validate chat_validate cfg).
#[local] Abbreviation records_of := (input_records json_dumps json_loads embedding_validate chat_validate model_group_resolver cfg).
#[local] Abbreviation validate := (validate_batch_request_body embedding_validate chat_validate).
#[local] Abbreviation stage_new := (stage_new_session json_dumps json_loads embedding_validate chat_validate
  model_group_resolver cfg b).

Definition units_of_body (endpoint : string) (d : list (string * pyval)) : Z :=
  Estimator.estimate_request_work_units (dumps_chars json_dumps) (str_or_empty py_str) (Some endpoint) (PyDict d).

(** The request [r] is what line [n] asks for, and the caller may ask for it. *)
Definition accepts (endpoint : string) (auth : UserAPIKeyAuth) (numbered : Z * string) r : Prop :=
  exists obj body model,
    json_loads (Str.strip (snd numbered)) = Some (PyDict obj) /\ vget obj "body" = PyDict body /\
    validate body endpoint (fst numbered) = Ret (sr_request_body r, model) /\ model_allowed cfg auth model = Ret tt /\
    sr_line_number r = fst numbered /\ sr_custom_id r = stripped_text py_str (vget obj "custom_id") /\
    sr_scheduling_model r = clean_text (Some model) /\
    sr_scheduling_model_group r = clean_text (Dimensions.resolve_model_group (Some model) model_group_resolver) /\
    sr_estimated_work_units r = Some (units_of_body endpoint (sr_request_body r)).

(** The lines that are not blank, with their numbers from [n]. *)
Fixpoint numbered_from (n : Z) (lines : list string) : list (Z * string) :=
  match lines with
  | [] => []
  | line :: lines' =>
    if Str.is_empty (Str.strip line) then numbered_from (n + 1) lines' else (n, line) :: numbered_from (n + 1) lines'
  end.

(** A line that was parsed. *)
Lemma parse_line_inv endpoint auth line n seen o : Str.strip endpoint = endpoint -> parse_line line n endpoint auth seen = Ret o ->
  match o with
  | None => Str.is_empty (Str.strip line) = true
  | Some (item, model, seen') =>
    Str.is_empty (Str.strip line) = false /\ sr_custom_id item ∉ seen /\ seen' = {[sr_custom_id item]} ∪ seen /\
    exists obj body, json_loads (Str.strip line) = Some (PyDict obj) /\ vget obj "body" = PyDict body /\
      validate body endpoint n = Ret (sr_request_body item, model) /\ model_allowed cfg auth model = Ret tt /\
      sr_line_number item = n /\ sr_custom_id item = stripped_text py_str (vget obj "custom_id")
  end.
Proof.
  intros Hend. unfold parse_input_line, parse_batch_input_line. rewrite Hend.
  destruct (negb (supported_endpoint endpoint)); [done|]. destruct (Str.is_empty (Str.strip line)) eqn:El; [by intros [= <-]|].
  destruct (json_loads (Str.strip line)) as [[| | | | | |obj]|] eqn:Ej; try done.
  destruct (negb (is_post _)); [done|]. set (c := stripped_text py_str (vget obj "custom_id")).
  destruct (Str.is_empty c); [done|]. case_bool_decide as Hseen; [done|]. destruct (negb (String.eqb _ endpoint)); [done|].
  destruct (vget obj "body") as [| | | | | |body] eqn:Eb; try done.
  destruct (validate body endpoint n) as [[d model]|e] eqn:Ev; [|done]. cbn [mbind res_bind].
  destruct (of_access (model_allowed cfg auth model)) as [[]|e] eqn:Ea; [|done]. cbn [mbind res_bind].
  destruct (new_staged _ _ _ _ _ _) as [item|e] eqn:En; [|done]. cbn [mbind res_bind]. intros [= <-].
  apply new_staged_inv in En as (_ & ->); [|done]. cbn [pl_line_number pl_custom_id pl_request_body sr_custom_id sr_request_body sr_line_number].
  assert (Str.strip c = c) as -> by apply stripped_text_idemp.
  split_and!; [done|done|done|]. exists obj, body. split_and!; try done.
  destruct (model_allowed cfg auth model) as [[]|e]; [done|]. unfold of_access in Ea. repeat case_match; done.
Qed.

Lemma accept_item_inv endpoint acc item model seen r acc' :
  accept_item json_dumps model_group_resolver cfg endpoint acc item model seen = Ret (r, acc') ->
  staged_ok r /\ sr_line_number r = sr_line_number item /\ sr_custom_id r = Str.strip (sr_custom_id item) /\
  sr_request_body r = sr_request_body item /\ sr_scheduling_model r = clean_text (Some model) /\
  sr_scheduling_model_group r = clean_text (Dimensions.resolve_model_group (Some model) model_group_resolver) /\
  sr_estimated_work_units r = Some (units_of_body endpoint (sr_request_body item)) /\
  in_seen_custom_ids acc' = seen /\ in_expected_item_count acc' = in_expected_item_count acc + 1 /\
  in_expected_item_count acc' <= sv_max_items_per_batch cfg.
Proof.
  unfold accept_item. destruct (Z.ltb_spec (sv_max_items_per_batch cfg) (in_expected_item_count acc + 1)); [done|].
  set (group := Dimensions.resolve_model_group _ _). fold (units_of_body endpoint (sr_request_body item)).
  assert (Hgo : forall i g, (r' ← new_staged (sr_line_number item) (sr_custom_id item) (sr_request_body item) (Some model) group
      (Some (units_of_body endpoint (sr_request_body item))); Ret (r', mkInputState seen i g (in_expected_item_count acc + 1)))
    = Ret (r, acc') -> staged_ok r /\ r = mkStaged (sr_line_number item) (Str.strip (sr_custom_id item)) (sr_request_body item)
        (clean_text (Some model)) (clean_text group) (Some (units_of_body endpoint (sr_request_body item))) None /\
      acc' = mkInputState seen i g (in_expected_item_count acc + 1)).
  { intros i g Hn. destruct (new_staged _ _ _ _ _ _) as [r'|e] eqn:E; [|done]. cbn [mbind res_bind] in Hn. injection Hn as -> <-.
    apply new_staged_inv in E as [Hok ->]; [done|]. intros k [= <-]. apply Estimator.estimate_pos. }
  destruct (in_inferred_model acc) as [m|]; [destruct (_ && _); [done|]|]; intros (Hok & -> & ->)%Hgo;
    cbn; split_and!; try done; apply Hok.
Qed.

(** The requests of a file that was read to its end. *)
Lemma input_records_inv endpoint auth : Str.strip endpoint = endpoint -> forall lines n acc ended_ records last,
  records_of endpoint auth n acc lines ended_ = (records, last) -> ended records = None ->
  ended_ = None /\ Forall2 (accepts endpoint auth) (numbered_from (n + 1) lines) (yielded records) /\
  NoDup (map sr_custom_id (yielded records)) /\
  (forall r, r ∈ yielded records -> sr_custom_id r ∉ in_seen_custom_ids acc) /\
  in_expected_item_count last = in_expected_item_count acc + Z.of_nat (length (yielded records)) /\
  (yielded records <> [] -> in_expected_item_count last <= sv_max_items_per_batch cfg).
Proof.
  intros Hend lines. induction lines as [|line lines IH]; intros n acc ended_ records last; cbn [input_records].
  { intros [= <- <-]. cbn. intros ->. split_and!; try done; try constructor; [by intros r ?%elem_of_nil|lia]. }
  destruct (parse_line line (n + 1) endpoint auth (in_seen_custom_ids acc)) as [[[[item model] seen]|]|e] eqn:Ep;
    [| |by intros [= <- <-]]; apply parse_line_inv in Ep; [|done| |done].
  - destruct Ep as (El & Hnew & -> & obj & body & Hj & Hb & Hv & Ha & Hln & Hc).
    destruct (accept_item _ _ _ _ _ _ _ _) as [[r acc']|e] eqn:Eacc; [|by intros [= <- <-]].
    apply accept_item_inv in Eacc as (_ & Hn & Hcid & Hbody & Hm & Hg & Hu & Hseen & Hcount & Hmax).
    destruct (records_of endpoint auth (n + 1) acc' lines ended_) as [recs last'] eqn:Er. intros [= <- <-] He.
    destruct (IH _ _ _ _ _ Er He) as (-> & Hf & Hnd & Hfresh & Hlen & Hle).
    assert (Hcid' : sr_custom_id r = sr_custom_id item).
    { rewrite Hcid, Hc. apply stripped_text_idemp. }
    cbn [yielded yield numbered_from length map]. rewrite El. split_and!; try done.
    + constructor; [|done]. exists obj, body, model. rewrite Hn, Hcid', Hbody, Hu. done.
    + constructor; [|done]. intros (r' & Hr' & Hin)%list_elem_of_fmap. apply (Hfresh r' Hin). rewrite Hseen, <- Hr', Hcid'.
      set_solver.
    + intros r' [->|Hin]%elem_of_cons; [by rewrite Hcid'|]. intros Hs. apply (Hfresh r' Hin). rewrite Hseen. set_solver.
    + lia.
    + intros _. destruct (yielded recs) as [|r1 l1]; [cbn in Hlen; lia|by apply Hle].
  - cbn [numbered_from]. rewrite Ep. apply IH.
Qed.

Lemma input_records_ok endpoint auth lines n acc ended_ :
  Forall staged_ok (yielded (fst (records_of endpoint auth n acc lines ended_))).
Proof.
  revert n acc. induction lines as [|line lines IH]; intros n acc; cbn [input_records]; [constructor|].
  destruct (parse_line line (n + 1) endpoint auth (in_seen_custom_ids acc)) as [[[[item model] seen]|]|e]; [|apply IH|constructor].
  destruct (accept_item _ _ _ _ _ _ _ _) as [[r acc']|e] eqn:Eacc; [|constructor].
  apply accept_item_inv in Eacc as (Hok & _). specialize (IH (n + 1) acc').
  destruct (records_of endpoint auth (n + 1) acc' lines ended_) as [recs last]. by constructor.
Qed.

(** The lines of the input file, and the requests made of them. *)
Definition input_lines (env : service_env) (file : file_record) s : stream string create_exc :=
  match storage_of_file cfg (fr_storage_backend file) with
  | Raise e => throw e
  | Ret (name, sto) => iter_storage_lines cfg (ve_read_fault env) name sto (fr_storage_key file) s
  end.
Definition new_records (env : service_env) (auth : UserAPIKeyAuth) (file : file_record) (endpoint : string) s
    : stream staged_request create_exc * input_state :=
  records_of endpoint auth 0 no_input (yielded (input_lines env file s)) (ended (input_lines env file s)).

(** C9: What is staged is what the caller may ask for.  When a session is staged
    for an input file, the file was read to its end and the staged artifact
    reads back as exactly one request per line that is not blank, in order:
    each line parsed as an object with that custom id, its body validated, its
    model allowed for the caller by the grants, its work estimated from the
    validated body.  The custom ids are distinct, there are between one and
    max_items_per_batch requests, the session expects exactly that many and is
    staged in the caller's name.  Otherwise the call raises: no artifact is left
    unless all three compensating deletions failed, and no session appears
    unless its row was committed and the acknowledgement lost, when that row is
    left pointing to the drawn key.  Assumed: the endpoint has no blanks around
    it, the storage is registered under its own name, the drawn key and
    temporary name are unused, and the JSON text of each request is one line
    that reads back. *)
Theorem staged_input_accepted env auth file endpoint metadata scope key s :
  Str.strip endpoint = endpoint -> staging_ok b ->
  new_key (se_key (ve_stage env)) (se_temp (ve_stage env)) (files_of (active_key b) s) ->
  Forall (fun r => json_line json_dumps json_loads (PyDict (to_jsonable r)))
    (yielded (fst (new_records env auth file endpoint s))) ->
  let '(s', out) := stage_new env auth file endpoint metadata scope key s in
  st_db s' = st_db s /\
  match out with
  | Ret x =>
    let c := ss_columns x in
    exists records, st_sessions s' = st_sessions s ++ [x] /\ ended (input_lines env file s) = None /\
      read_records json_loads py_str b None (staged_artifact_from_session x) s' = mkStream records None /\
      Forall2 (accepts endpoint auth) (numbered_from 1 (yielded (input_lines env file s))) records /\
      NoDup (map sr_custom_id records) /\ 1 <= Z.of_nat (length records) <= sv_max_items_per_batch cfg /\
      sc_expected_item_count c = Z.of_nat (length records) /\ sc_status c = STAGED /\
      sc_endpoint c = endpoint /\ sc_input_file_id c = fr_file_id file /\
      sc_created_by_api_key c = Some (api_key auth) /\ sc_created_by_team_id c = team_id auth /\
      sc_created_by_organization_id c = organization_id auth
  | Raise _ => (st_sessions s' = st_sessions s \/
                exists e x, se_insert_fault (ve_stage env) = AckLost e /\ st_sessions s' = st_sessions s ++ [x] /\
                  ss_session_id x = se_uuid4 (ve_stage env) /\
                  storage_key (staged_artifact_from_session x) = se_key (ve_stage env)) /\
               (same_files s s' \/ forall i, (i < COMPENSATION_ATTEMPTS)%nat -> se_delete_fault (ve_stage env) i <> None)
  end.
Proof.
  intros Hend Hb Hkey Hjson. unfold stage_new_session.
  destruct (storage_of_file cfg (fr_storage_backend file)) as [[name sto]|e] eqn:Esto.
  2: { split; [done|]. split; [by left|]. left. by intros n. }
  assert (Elines : input_lines env file s = iter_storage_lines cfg (ve_read_fault env) name sto (fr_storage_key file) s)
    by (unfold input_lines; by rewrite Esto).
  rewrite <- Elines. fold (new_records env auth file endpoint s).
  assert (Hok : Forall staged_ok (yielded (fst (new_records env auth file endpoint s)))) by apply input_records_ok.
  destruct (new_records env auth file endpoint s) as [records last] eqn:Er. cbn [fst] in *.
  assert (Hlines : Forall (staged_line json_dumps json_loads) (yielded records)).
  { rewrite Forall_forall in *. intros r Hr. split; [by apply Hok|by apply Hjson]. }
  pose proof (stage_session_spec sha256 json_dumps json_loads py_str b (ve_stage env) records
    (build_session cfg (ve_target env) endpoint auth file metadata scope key last) s Hb Hkey Hlines) as H.
  assert (Hbuild : forall a c, build_session cfg (ve_target env) endpoint auth file metadata scope key last a = Ret c ->
    mkArtifact (sc_staged_storage_backend c) (sc_staged_storage_key c) (sc_staged_bytes c) (sc_staged_checksum c) = a).
  { intros a c. unfold build_session. destruct (_ <=? 0); [done|].
    destruct (normalize_idempotency_pair scope key) as [[p q]|]; [|done]. intros [= <-]. by destruct a. }
  specialize (H Hbuild).
  destruct (stage_session json_dumps b (ve_stage env) records _ s) as [s' [x|e]] eqn:Est; destruct H as [Hd H]; (split; [done|]); [|done].
  destruct H as (Hs & He & Hne & Hread).
  destruct (input_records_inv endpoint auth Hend _ _ _ _ _ _ Er He) as (Hend' & Hf & Hnd & _ & Hlen & Hle).
  change (in_expected_item_count no_input) with 0 in Hlen.
  destruct (staged_columns _ _ _ _ _ _ _ _ Est) as (a & c & p & q & Hc & -> ).
  exists (yielded records). unfold build_session in Hc. destruct (_ <=? 0); [done|].
  destruct (normalize_idempotency_pair scope key) as [[p' q']|]; [|done]. injection Hc as <-. cbn.
  specialize (Hle Hne). destruct (yielded records) as [|r0 l0] eqn:Ey; [done|]. cbn [length] in *.
  split_and!; try done; lia.
Qed.
End accepted.

(** ** A concrete call, repeated *)

#[local] Instance plain_repr : PyRepr := fun _ => "".

Definition caller : UserAPIKeyAuth :=
  mkAuth "sk" (Some "u") (Some "t") None ["m"] [] None None None None None None None None
    None None None None None None None None None None None None None None None None None None None
    None.

Definition sample_body : list (string * pyval) := [("model", PyStr "m"); ("input", PyStr "text")].
Definition input_object (custom : string) : pyval := PyDict [("custom_id", PyStr custom); ("body", PyDict sample_body)].
Definition accepted_request (n : Z) (custom : string) : staged_request :=
  mkStaged n custom sample_body (Some "m") (Some "m") (Some 1) None.

(** "A" and "B" are lines of the input, "[{a}]" and "[{b}]" staged requests. *)
Definition service_loads (s : string) : option pyval :=
  if String.eqb s "A" then Some (input_object " a ")
  else if String.eqb s "B" then Some (input_object "b")
  else if String.eqb s "{a}" then Some (PyDict (to_jsonable (accepted_request 1 "a")))
  else if String.eqb s "{b}" then Some (PyDict (to_jsonable (accepted_request 3 "b"))) else None.

Definition any_body (d : list (string * pyval)) : res string validated :=
  match vget d "model" with PyStr m => Ret (mkValidated d m false false) | _ => Raise "Field required" end.

Definition sample_service : service local_storage :=
  make_service [("Local ", mkLocal "/data")] 1000 10 100 3 20 None (PyStr "shadow") true true "standard".

Definition input_file : file_record :=
  mkFileRecord "file-1" "batch" "in.jsonl" 6 "processed" "local" "in" None (Some "sk") None (Some "t") None 0 None.
Definition upload_store : store := mkStore [] empty_db {["local" := {["in" := lines_file ["A"; ""; "B"]]}]}.

Definition call_env (uuid target : string) : service_env :=
  mkServiceEnv None None None None None (fun _ s => s) target (sample_env uuid) sample_promotion.
Definition call_request : create_request :=
  mkCreateRequest caller "file-1" "/v1/embeddings" (PyDict []) PyNone (Some " key ").

Definition call (uuid target : string) (s : store) : store * res create_exc service_result :=
  create_batch (storage_class := local_backend (fun _ => "sum") MissingFile) sample_dumps service_loads sample_hex any_body any_body
    None sample_service sample_promoter sample_staging (call_env uuid target) call_request [input_file] s.
Definition called_store : store := fst (call "u1" "batch-1" upload_store).

Lemma call_env_fair uuid target : fair sample_dumps service_loads sample_hex None (call_env uuid target).
Proof. intros i s. exists []. split; [constructor|]. intros id _ []%elem_of_nil. Qed.

Lemma idempotent_create_witness : exists r1 r2,
  snd (call "u1" "batch-1" upload_store) = Ret r1 /\ snd (call "u2" "batch-2" called_store) = Ret r2 /\
  Job.batch_id (res_job r1) = "batch-1" /\ Job.batch_id (res_job r2) = "batch-1" /\
  res_idempotency_resolution r1 = "created" /\ res_idempotency_resolution r2 = "existing".
Proof.
  destruct (call "u1" "batch-1" upload_store) as [s2 [r1|e]] eqn:E1; [|vm_compute in E1; discriminate].
  assert (Es : called_store = s2) by (unfold called_store; by rewrite E1).
  destruct (call "u2" "batch-2" called_store) as [s4 [r2|e]] eqn:E2; [|vm_compute in E2; discriminate].
  rewrite Es in E2. exists r1, r2. split; [done|]. split; [done|].
  assert (H : res_create_session_id r1 = "u1" /\ Job.batch_id (res_job r1) = "batch-1" /\ res_idempotency_resolution r1 = "created").
  { vm_compute in E1. injection E1 as _ <-. repeat split. }
  destruct H as (Hid & Hb & Hr).
  destruct (idempotent_create (storage_class := local_backend (fun _ => "sum") MissingFile) sample_dumps service_loads sample_hex
    any_body any_body None sample_service sample_promoter sample_staging (call_env "u1" "batch-1") (call_env "u2" "batch-2")
    call_request call_request [input_file] [input_file] upload_store [] upload_store s2 [] s2 s4 "team:t" "key" r1 r2)
    as (_ & Hb2 & Hr2 & _); [..|split_and!; congruence].
  - reflexivity.
  - constructor.
  - apply call_env_fair.
  - apply call_env_fair.
  - vm_compute. reflexivity.
  - vm_compute. reflexivity.
  - exact E1.
  - constructor.
  - rewrite Hid, <- Es. apply (bool_decide_unpack _). vm_compute. exact I.
  - intros []%elem_of_nil.
  - exact E2.
Defined.

(** The blank line is skipped, and the padded id is trimmed. *)
Lemma staged_input_accepted_witness : exists x records,
  snd (stage_new_session (storage_class := local_backend (fun _ => "sum") MissingFile) sample_dumps service_loads any_body any_body
         None sample_service sample_staging (call_env "u1" "batch-1") caller input_file "/v1/embeddings" None None None upload_store)
  = Ret x /\
  Forall2 (accepts sample_dumps service_loads any_body any_body None sample_service "/v1/embeddings" caller)
    [(1, "A"); (3, "B")] records /\ sc_expected_item_count (ss_columns x) = 2.
Proof.
  pose (laws := local_laws (fun _ => "sum") MissingFile).
  pose proof (staged_input_accepted (storage_class := local_backend (fun _ => "sum") MissingFile) (fun _ => "sum") sample_dumps
    service_loads any_body any_body None sample_service sample_staging (call_env "u1" "batch-1") caller input_file "/v1/embeddings"
    None None None upload_store) as H.
  destruct (stage_new_session _ _ _ _ _ _ _ _ _ _ _ _ _ _ upload_store) as [s' [x|e]] eqn:E; [|vm_compute in E; discriminate].
  assert (Hc : sc_expected_item_count (ss_columns x) = 2) by (vm_compute in E; injection E as _ <-; reflexivity).
  destruct H as (_ & records & _ & _ & _ & Hf & _).
  - vm_compute. reflexivity.
  - split_and!; [vm_compute; reflexivity|cbn; lia|cbn; lia].
  - split_and!; [done|vm_compute; reflexivity|vm_compute; reflexivity|done].
  - replace (yielded _) with [accepted_request 1 "a"; accepted_request 3 "b"] by (vm_compute; reflexivity).
    constructor; [|constructor; [|constructor]]; constructor; try (vm_compute; reflexivity);
      apply (bool_decide_unpack _); vm_compute; exact I.
  - exists x, records. split; [done|]. split; [|done].
    replace [(1, "A"); (3, "B")] with (numbered_from 1 (yielded (input_lines (storage_class := local_backend (fun _ => "sum") MissingFile)
      sample_service (call_env "u1" "batch-1") input_file upload_store))) by (vm_compute; reflexivity). exact Hf.
Defined.

(** The staged form of a line is longer than the line, and both have the same
    limit: a line within it can end the call with an error that is no answer
    for the client. *)
Lemma long_record_not_answered :
  let limits := make_service [("local", mkLocal "/data")] 1000 10 2 3 20 None (PyStr "shadow") true true "standard" in
  let staging := make_staging (Sto := local_storage) (storage_class := local_backend (fun _ => "sum") MissingFile)
                   (mkLocal "/data") [] 3 2 in
  snd (create_batch (storage_class := local_backend (fun _ => "sum") MissingFile) sample_dumps service_loads sample_hex any_body
         any_body None limits sample_promoter staging (call_env "u1" "batch-1") call_request [input_file] upload_store)
  = Raise (ArtifactLineTooLong 1 2).
Proof. vm_compute. reflexivity. Qed.
