(* ===== verification/BatchService.v ===== *)
(** * The public batch and file endpoints: src/batch/service.py

    Uploads, file contents, and the batches a caller may read, list and cancel.
    Creation is [CreateService]'s.  The job row of the model has neither the
    input file nor the metadata of a batch, so a response does not echo them. *)

From S2P Require Import Prelude PyVal Errors Auth Calendar BatchStorage StorageBackends BatchModels BatchDb BatchItems BatchOutbox BatchJobs.
From S2P Require Import CreateModels CreateSession CreatePromotion CreateService.
Import Sessions Staging.

(** ** The store and the table of files *)

Record service_world : Type := mkServiceWorld { sw_store : store; sw_files : list file_record }.

Definition on_store {A} (m : st store create_exc A) : st service_world create_exc A := fun w =>
  let '(s, r) := m (sw_store w) in (mkServiceWorld s (sw_files w), r).

(** The INSERT of the file repository: the row and the answer, no row, or the
    row without the answer. *)
Definition insert_file_record (insert_fault : fault) (f : file_record) : st service_world create_exc file_record := fun w =>
  let w' := mkServiceWorld (sw_store w) (sw_files w ++ [f]) in
  match insert_fault with
  | NoFault => (w', Ret f)
  | RolledBack e => (w, Raise (CreateOther e))
  | AckLost e => (w', Raise (CreateOther e))
  end.

(** ** Responses *)

(** [int(value.timestamp())] *)
Definition timestamp (t : Z) : Z := Z.quot t usec.

Record file_response : Type := mkFileResponse {
  fres_id : string;
  fres_bytes : Z;
  fres_created_at : Z;
  fres_filename : string;
  fres_purpose : string;
  fres_status : string
}.
Definition file_to_response (f : file_record) : file_response :=
  mkFileResponse (fr_file_id f) (fr_bytes f) (timestamp (fr_created_at f)) (fr_filename f) (fr_purpose f) (fr_status f).

Definition OPENAI_BATCH_STATUS_VALUES : list string :=
  ["validating"; "failed"; "in_progress"; "finalizing"; "completed"; "expired"; "cancelling"; "cancelled"].

Definition public_batch_status (j : Job.batch_job) : string :=
  match Job.status j, Job.cancel_requested_at j with
  | BatchJobStatus.QUEUED, _ => "validating"
  | BatchJobStatus.IN_PROGRESS, Some _ => "cancelling"
  | status, _ => BatchJobStatus.job_status_value status
  end.

Definition terminal_status_timestamp (j : Job.batch_job) (terminal_status : BatchJobStatus.job_status) : option Z :=
  if bool_decide (Job.status j = terminal_status) then Some (timestamp (Job.status_last_updated_at j)) else None.

Record request_counts : Type := mkCounts {
  rc_total : Z;
  rc_completed : Z;
  rc_failed : Z;
  rc_cancelled : Z;
  rc_in_progress : Z
}.
Record batch_response : Type := mkBatchResponse {
  bres_id : string;
  bres_endpoint : string;
  bres_completion_window : string;
  bres_status : string;
  bres_output_file_id : option string;
  bres_error_file_id : option string;
  bres_created_at : Z;
  bres_expires_at : option Z;
  bres_in_progress_at : option Z;
  bres_completed_at : option Z;
  bres_failed_at : option Z;
  bres_expired_at : option Z;
  bres_request_counts : request_counts
}.

Definition job_to_response (j : Job.batch_job) : batch_response :=
  mkBatchResponse (Job.batch_id j) (Job.endpoint j) OPENAI_BATCH_COMPLETION_WINDOW (public_batch_status j)
    (Job.output_file_id j) (Job.error_file_id j) (timestamp (Job.created_at j)) (timestamp <$> Job.expires_at j)
    (timestamp <$> Job.started_at j) (timestamp <$> Job.completed_at j)
    (terminal_status_timestamp j BatchJobStatus.FAILED) (terminal_status_timestamp j BatchJobStatus.EXPIRED)
    (mkCounts (Job.total_items j) (Job.completed_items j) (Job.failed_items j) (Job.cancelled_items j) (Job.in_progress_items j)).

(** ** Batches *)

Definition not_found (what : string) : create_exc := HTTPException 404 (what +:+ " not found").
Definition denied (what : string) : create_exc := HTTPException 403 (what +:+ " access denied").

Definition owns_job (j : Job.batch_job) (auth : UserAPIKeyAuth) : bool :=
  can_access_owned_resource (Job.created_by_api_key j) (Job.created_by_team_id j) (Job.created_by_organization_id j) auth.
Definition owns_file (f : file_record) (auth : UserAPIKeyAuth) : bool :=
  can_access_owned_resource (fr_created_by_api_key f) (fr_created_by_team_id f) (fr_created_by_organization_id f) auth.

Definition get_batch (batch_id : string) (auth : UserAPIKeyAuth) (w : service_world) : res create_exc batch_response :=
  match job_row batch_id (st_db (sw_store w)) with
  | None => Raise (not_found "Batch")
  | Some j => if negb (owns_job j auth) then Raise (denied "Batch") else Ret (job_to_response j)
  end.

(** [interfere] is what other processes commit after the job was read. *)
Definition cancel_batch (interfere : store -> store) (now : Z) (batch_id : string) (auth : UserAPIKeyAuth)
    : st service_world create_exc batch_response := fun w =>
  match job_row batch_id (st_db (sw_store w)) with
  | None => (w, Raise (not_found "Batch"))
  | Some j =>
    if negb (owns_job j auth) then (w, Raise (denied "Batch"))
    else
      let s := interfere (sw_store w) in
      match request_cancel now batch_id (st_db s) with
      | (d, Ret (Some j')) => (mkServiceWorld (with_db d s) (sw_files w), Ret (job_to_response j'))
      | (d, Ret None) => (mkServiceWorld (with_db d s) (sw_files w), Raise (not_found "Batch"))
      | (d, Raise e) => (mkServiceWorld (with_db d s) (sw_files w), Raise (CreateOther e))
      end
  end.

(** [list_jobs]: the columns given are joined by OR; none gives no WHERE. *)
Definition listed_for (api_key team organization : option string) (j : Job.batch_job) : bool :=
  let holds column value := match value with Some v => sql_eq column v | None => false end in
  match set_text_of api_key, set_text_of team, set_text_of organization with
  | None, None, None => true
  | k, t, o =>
    holds (Job.created_by_api_key j) k || holds (Job.created_by_team_id j) t || holds (Job.created_by_organization_id j) o
  end.
Definition newest_first (x y : Job.batch_job) : bool := Job.created_at y <=? Job.created_at x.
Definition list_jobs (limit_ : Z) (api_key team organization : option string) (s : db) : list Job.batch_job :=
  limit (Z.max 1 (Z.min limit_ 200)) (order_by newest_first (select_where (listed_for api_key team organization) (jobs s))).

Definition list_batches (auth : UserAPIKeyAuth) (limit_ : Z) (w : service_world) : list batch_response :=
  map job_to_response
    (list_jobs limit_ (Some (api_key auth)) (team_id auth)
       (match team_id auth with None => organization_id auth | Some _ => None end) (st_db (sw_store w))).

(** ** Files *)

Section files.
Context {Sto : Type} {storage_class : ArtifactStorage Sto create_exc}.

Record batch_service : Type := mkBatchService {
  bs_storage : Sto;
  bs_storage_registry : gmap string Sto;
  bs_metadata_retention_days : Z;
  bs_max_file_bytes : Z
}.

Definition make_batch_service (storage : Sto) (registry : list (string * Sto)) (retention_days max_file_bytes : Z) : batch_service :=
  let m := fold_left (fun m '(k, v) => <[normalize_backend k := v]> m) registry ∅ in
  let active := normalize_backend (backend_name_or_local storage) in
  mkBatchService storage (match m !! active with Some _ => m | None => <[active := storage]> m end) retention_days max_file_bytes.

Definition service_storage (v : batch_service) (backend : string) : res create_exc (string * Sto) :=
  let normalized := normalize_backend (if Str.is_empty backend then backend_name_or_local (bs_storage v) else backend) in
  match bs_storage_registry v !! normalized with
  | Some s => Ret (normalized, s)
  | None => Raise (HTTPException 503 ("Storage backend '" +:+ normalized
      +:+ "' is unavailable; keep legacy batch storage configured until referenced files expire"))
  end.

(** The reads of an upload; an empty one is its end. *)
Fixpoint upload_chunks (v : batch_service) (total_bytes : Z) (reads : list bytes) (ended_ : option create_exc)
    : stream bytes create_exc :=
  match reads with
  | [] => mkStream [] ended_
  | chunk :: reads' =>
    match chunk with
    | [] => finish
    | _ =>
      let total := total_bytes + Z.of_nat (length chunk) in
      if bs_max_file_bytes v <? total
      then throw (HTTPException 413 ("Uploaded file exceeds embeddings_batch_max_file_bytes ("
                                     +:+ Str.of_Z (bs_max_file_bytes v) +:+ ")"))
      else yield chunk (upload_chunks v total reads' ended_)
    end
  end.

Record upload : Type := mkUpload {
  up_filename : string;
  up_reads : list bytes;
  up_ended : option create_exc
}.

(** The disk, the key drawn, the INSERT with the id drawn, and the clean-up. *)
Record upload_env : Type := mkUploadEnv {
  ue_disk : disk create_exc;
  ue_key : string;
  ue_temp : string;
  ue_insert_fault : fault;
  ue_delete_fault : option create_exc;
  ue_file_id : string;
  ue_now : Z
}.

(** An error of the clean-up is logged. *)
Definition cleanup_unrecorded_artifact (v : batch_service) (env : upload_env) (storage_key : string) (w : service_world)
    : service_world :=
  if Str.is_empty storage_key then w
  else fst (on_store (on_backend (normalize_backend (backend_name_or_local (bs_storage v)))
                       (remove (bs_storage v) (ue_delete_fault env) storage_key)) w).

Definition new_file (v : batch_service) (env : upload_env) (auth : UserAPIKeyAuth) (purpose filename key : string) (size : Z)
    (sum : string) : file_record :=
  mkFileRecord (ue_file_id env) purpose filename size "processed" (backend_name_or_local (bs_storage v)) key (Some sum)
    (Some (api_key auth)) (user_id auth) (team_id auth) (organization_id auth) (ue_now env)
    (Some (ue_now env + bs_metadata_retention_days v * 86400 * usec)).

Definition create_file (v : batch_service) (env : upload_env) (auth : UserAPIKeyAuth) (up : upload) (purpose : string)
    : st service_world create_exc file_response := fun w =>
  let filename := if Str.is_empty (up_filename up) then "batch.jsonl" else up_filename up in
  match on_store (on_backend (normalize_backend (backend_name_or_local (bs_storage v)))
          (put_chunks (bs_storage v) (ue_disk env) (ue_key env) (ue_temp env) (upload_chunks v 0 (up_reads up) (up_ended up)))) w with
  | (w1, Raise e) => (w1, Raise e)
  | (w1, Ret (storage_key, bytes_size, sum)) =>
    let recorded :=
      if bytes_size <=? 0 then (w1, Raise (bad_request "Uploaded file is empty"))
      else insert_file_record (ue_insert_fault env) (new_file v env auth purpose filename storage_key bytes_size sum) w1 in
    match recorded with
    | (w2, Ret f) => (w2, Ret (file_to_response f))
    | (w2, Raise e) => (cleanup_unrecorded_artifact v env storage_key w2, Raise e)
    end
  end.

(** [read_bytes] of the storage that holds the file. *)
Definition get_file_content (v : batch_service) (fault : option create_exc) (file_id : string) (auth : UserAPIKeyAuth)
    (w : service_world) : res create_exc bytes :=
  match get_file file_id (sw_files w) with
  | None => Raise (not_found "File")
  | Some f =>
    if negb (owns_file f auth) then Raise (denied "File")
    else
      match service_storage v (fr_storage_backend f) with
      | Raise e => Raise e
      | Ret (name, sto) =>
        match iter_bytes sto fault (Z.to_nat 65536) (fr_storage_key f) (files_of name (sw_store w)) with
        | Ret chunks => Ret (read_bytes chunks)
        | Raise e => Raise e
        end
      end
  end.
End files.

(** ** Lemmas *)

Lemma get_file_snoc id files f : get_file id files = None -> fr_file_id f = id -> get_file id (files ++ [f]) = Some f.
Proof.
  unfold get_file. induction files as [|g files IH]; cbn; intros Hn Hf; [by rewrite Hf, String.eqb_refl|].
  destruct (String.eqb (fr_file_id g) id); [done|by apply IH].
Qed.

Section files_lemmas.
Context {Sto : Type} {storage_class : ArtifactStorage Sto create_exc}.
Context (sha256 : bytes -> string) {storage_laws : ArtifactStorageLaws Sto create_exc sha256 MissingFile}.
Implicit Types (v : @batch_service Sto) (w : service_world).

Definition service_key v : string := normalize_backend (backend_name_or_local (bs_storage v)).

(** What an upload reads before an empty read. *)
Fixpoint until_empty (reads : list bytes) : list bytes :=
  match reads with [] => [] | chunk :: reads' => match chunk with [] => [] | _ => chunk :: until_empty reads' end end.

Lemma upload_chunks_spec v total reads e : ended (upload_chunks v total reads e) = None -> total <= bs_max_file_bytes v ->
  yielded (upload_chunks v total reads e) = until_empty reads /\
  total + Z.of_nat (length (read_bytes (until_empty reads))) <= bs_max_file_bytes v.
Proof.
  revert total. induction reads as [|chunk reads IH]; intros total; cbn [upload_chunks until_empty].
  { intros _ H. split; [done|]. unfold read_bytes. cbn. lia. }
  destruct chunk as [|a chunk]; [intros _ H; split; [done|]; unfold read_bytes; cbn; lia|].
  destruct (Z.ltb_spec (bs_max_file_bytes v) (total + Z.of_nat (length (a :: chunk)))); [done|].
  intros He _. specialize (IH _ He ltac:(lia)) as [Hy Hl]. cbn [yielded yield]. rewrite Hy. split; [done|].
  unfold read_bytes in *. cbn [concat]. rewrite length_app. lia.
Qed.

Lemma cleanup_spec v env key w : Str.is_empty key = false ->
  let w' := cleanup_unrecorded_artifact v env key w in
  sw_files w' = sw_files w /\ same_tables (sw_store w) (sw_store w') /\
  forall n, files_of n (sw_store w')
    = files_of n (match ue_delete_fault env with
                  | Some _ => sw_store w
                  | None => set_files (service_key v) (delete key (files_of (service_key v) (sw_store w))) (sw_store w)
                  end).
Proof.
  intros Hk. unfold cleanup_unrecorded_artifact. rewrite Hk. fold (service_key v). unfold on_store, on_backend.
  destruct (ue_delete_fault env) as [e|].
  - rewrite remove_fails. cbn. split_and!; try done. intros n.
    pose proof (same_files_set (service_key v) (sw_store w) n) as H. exact H.
  - rewrite remove_deletes. cbn. done.
Qed.

(** The upload is undone by deleting its key. *)
Lemma delete_undoes k key data s : files_of k s !! key = None ->
  let s1 := set_files k (<[key := data]> (files_of k s)) s in
  same_files s (set_files k (delete key (files_of k s1)) s1).
Proof.
  intros Hn s1 n. destruct (decide (n = k)) as [->|Hne].
  - rewrite files_of_set. unfold s1. rewrite files_of_set, delete_insert_eq. by apply delete_id.
  - rewrite files_of_set_ne by done. unfold s1. by rewrite files_of_set_ne.
Qed.

(** After an upload under a new key, the clean-up leaves the files as they were
    unless its deletion fails. *)
Lemma cleanup_undoes v env key data files s : Str.is_empty key = false -> files_of (service_key v) s !! key = None ->
  let w' := cleanup_unrecorded_artifact v env key
    (mkServiceWorld (set_files (service_key v) (<[key := data]> (files_of (service_key v) s)) s) files) in
  sw_files w' = files /\ same_tables s (sw_store w') /\ (same_files s (sw_store w') \/ ue_delete_fault env <> None).
Proof.
  intros Hk Hnew. destruct (cleanup_spec v env key
    (mkServiceWorld (set_files (service_key v) (<[key := data]> (files_of (service_key v) s)) s) files) Hk) as (Hf & Ht & Hn).
  split; [exact Hf|]. split; [exact Ht|]. destruct (ue_delete_fault env); [by right|]. left. intros n. rewrite Hn.
  apply (delete_undoes (service_key v) key data s Hnew n).
Qed.

(** C30: An upload is recorded whole or leaves nothing.  If [create_file]
    answers, one row was added to the files, in the caller's name, with the size
    and the checksum of the bytes read from the upload up to its end, between
    one and the limit, and [get_file_content] gives the caller exactly those
    bytes.  If it raises -- the disk, the reads, the limit, an empty upload or
    the INSERT -- the files of every backend are as before unless the deletion
    that cleans up failed too, and the tables are as before unless the row was
    committed and its acknowledgement lost, when that row is left pointing to
    the drawn key.  Assumed: the active storage is registered under its name,
    the drawn key, temporary name and file id are unused, and the caller has a
    key. *)
Theorem upload_recorded_or_undone v env auth up purpose w :
  bs_storage_registry v !! service_key v = Some (bs_storage v) -> 0 <= bs_max_file_bytes v ->
  new_key (ue_key env) (ue_temp env) (files_of (service_key v) (sw_store w)) ->
  get_file (ue_file_id env) (sw_files w) = None -> Str.is_empty (api_key auth) = false ->
  let '(w', r) := create_file v env auth up purpose w in
  let data := read_bytes (until_empty (up_reads up)) in
  same_tables (sw_store w) (sw_store w') /\
  match r with
  | Ret resp =>
    exists f, sw_files w' = sw_files w ++ [f] /\ resp = file_to_response f /\ fr_file_id f = ue_file_id env /\
      fr_created_by_api_key f = Some (api_key auth) /\ fr_created_by_team_id f = team_id auth /\
      fr_bytes f = Z.of_nat (length data) /\ 1 <= fr_bytes f <= bs_max_file_bytes v /\ fr_checksum f = Some (sha256 data) /\
      get_file_content v None (fr_file_id f) auth w' = Ret data
  | Raise _ => (sw_files w' = sw_files w \/
                exists e f, ue_insert_fault env = AckLost e /\ sw_files w' = sw_files w ++ [f] /\
                  fr_file_id f = ue_file_id env /\ fr_storage_key f = ue_key env) /\
               (same_files (sw_store w) (sw_store w') \/ ue_delete_fault env <> None)
  end.
Proof.
  intros Hreg Hmax Hk Hid Hauth. unfold create_file. fold (service_key v). unfold on_store, on_backend.
  pose proof (put_all_or_nothing (bs_storage v) (ue_disk env) (ue_key env) (ue_temp env)
    (upload_chunks v 0 (up_reads up) (up_ended up)) _ Hk) as Hput.
  destruct (put_chunks _ _ _ _ _ _) as [fs [[[k size] sum]|e]].
  2: { split; [done|]. split; [by left|]. left. rewrite Hput. apply same_files_set. }
  destruct Hput as (He & Hsize & Hsum & Hfs). destruct (upload_chunks_spec _ _ _ _ He Hmax) as [Hy Hl]. rewrite Hy in *.
  set (data := read_bytes (until_empty (up_reads up))) in *.
  destruct (Z.leb_spec size 0) as [Hz|Hz].
  { destruct data as [|a d]; [|cbn in Hsize; lia]. destruct Hfs as [-> ->]. cbn [cleanup_unrecorded_artifact Str.is_empty].
    split; [done|]. split; [by left|]. left. apply same_files_set. }
  assert (Hd : data <> []) by (intros E; rewrite E in Hsize; cbn in Hsize; lia).
  assert (Hfs' : k = ue_key env /\ fs = <[ue_key env := data]> (files_of (service_key v) (sw_store w))) by (by destruct data).
  destruct Hfs' as [-> ->]. unfold insert_file_record. destruct Hk as (Hne & Hnew & _).
  assert (Hke : Str.is_empty (ue_key env) = false) by by destruct (ue_key env).
  destruct (ue_insert_fault env) as [|e|e] eqn:Ef.
  2: { destruct (cleanup_undoes v env (ue_key env) data (sw_files w) (sw_store w) Hke Hnew) as (Hf & Ht & Hs).
       split; [exact Ht|]. split; [by left|exact Hs]. }
  2: { set (f := new_file _ _ _ _ _ _ _ _).
       destruct (cleanup_undoes v env (ue_key env) data (sw_files w ++ [f]) (sw_store w) Hke Hnew) as (Hf & Ht & Hs).
       split; [exact Ht|]. split; [|exact Hs]. right. by exists e, f. }
  - split; [done|]. set (f := new_file _ _ _ _ _ _ _ _). exists f. cbn [sw_files sw_store].
    change (fr_bytes f) with size. change (fr_checksum f) with (Some sum).
    split_and!; try done; [lia|lia|by rewrite Hsum|].
    unfold get_file_content. cbn [sw_files sw_store].
    assert (Hget : get_file (fr_file_id f) (sw_files w ++ [f]) = Some f) by by apply get_file_snoc.
    rewrite Hget. assert (Hown : owns_file f auth = true).
    { unfold owns_file, can_access_owned_resource. change (fr_created_by_api_key f) with (Some (api_key auth)).
      cbn [set_text_of]. unfold or_none. rewrite Hauth, String.eqb_refl. done. }
    rewrite Hown. cbn [negb].
    assert (Hsto : service_storage v (fr_storage_backend f) = Ret (service_key v, bs_storage v)).
    { unfold service_storage. change (fr_storage_backend f) with (backend_name_or_local (bs_storage v)).
      assert (Str.is_empty (backend_name_or_local (bs_storage v)) = false) as ->
        by (unfold backend_name_or_local; by destruct (Str.is_empty (backend_name (bs_storage v))) eqn:E).
      fold (service_key v). by rewrite Hreg. }
    rewrite Hsto, files_of_set. change (fr_storage_key f) with (ue_key env).
    pose proof (bytes_of (bs_storage v) (Z.to_nat 65536) (ue_key env)
      (<[ue_key env := data]> (files_of (service_key v) (sw_store w))) ltac:(lia)) as Hb.
    rewrite lookup_insert_eq in Hb. destruct Hb as (chunks & -> & ->). done.
Qed.
End files_lemmas.

(** ** What a caller reaches *)

(** Who may reach a resource with these owner columns: its key, its team, or,
    for one that no team owns, its organization. *)
Inductive owned_by (auth : UserAPIKeyAuth) : option string * option string * option string -> Prop :=
  | owned_by_key team organization : api_key auth <> "" -> owned_by auth (Some (api_key auth), team, organization)
  | owned_by_team t key organization : t <> "" -> team_id auth = Some t -> owned_by auth (key, Some t, organization)
  | owned_by_organization o key : o <> "" -> organization_id auth = Some o -> owned_by auth (key, None, Some o).

Definition job_owner (j : Job.batch_job) : option string * option string * option string :=
  (Job.created_by_api_key j, Job.created_by_team_id j, Job.created_by_organization_id j).
Definition file_owner (f : file_record) : option string * option string * option string :=
  (fr_created_by_api_key f, fr_created_by_team_id f, fr_created_by_organization_id f).

Lemma set_text_of_Some o t : set_text_of o = Some t <-> o = Some t /\ t <> "".
Proof.
  unfold set_text_of, or_none. destruct o as [s|]; [|naive_solver]. destruct s as [|a s]; cbn; naive_solver.
Qed.

Lemma can_access_spec key team organization auth :
  can_access_owned_resource key team organization auth = true <-> owned_by auth (key, team, organization).
Proof.
  unfold can_access_owned_resource. rewrite !orb_true_iff. split.
  - intros [[H|H]|H].
    + destruct (set_text_of key) as [k|] eqn:E; [|done]. apply set_text_of_Some in E as [-> E].
      apply String.eqb_eq in H as ->. by constructor.
    + destruct (set_text_of team) as [t|] eqn:E, (set_text_of (team_id auth)) as [t'|] eqn:E'; try done.
      apply set_text_of_Some in E as [-> E], E' as [E' _]. apply String.eqb_eq in H as ->. by econstructor.
    + destruct team; [done|].
      destruct (set_text_of organization) as [o|] eqn:E, (set_text_of (organization_id auth)) as [o'|] eqn:E'; try done.
      apply set_text_of_Some in E as [-> E], E' as [E' _]. apply String.eqb_eq in H as ->. by econstructor.
  - assert (Hset : forall t, t <> "" -> set_text_of (Some t) = Some t) by (intros t Ht; by apply set_text_of_Some).
    inversion 1 as [te org Hne|t k org Hne Ht|o k Hne Ho]; subst.
    + left; left. rewrite Hset by done. apply String.eqb_refl.
    + left; right. rewrite Ht, Hset by done. apply String.eqb_refl.
    + right. rewrite Ho, Hset by done. apply String.eqb_refl.
Qed.

Lemma owns_job_spec j auth : owns_job j auth = true <-> owned_by auth (job_owner j).
Proof. apply can_access_spec. Qed.
Lemma owns_file_spec f auth : owns_file f auth = true <-> owned_by auth (file_owner f).
Proof. apply can_access_spec. Qed.

(** A row after a request to cancel it. *)
Definition cancelled_row (now : Z) (j j' : Job.batch_job) : Prop :=
  Job.cancel_requested_at j' = Some now /\
  (BatchJobStatus.terminal_job (Job.status j) = true -> Job.status j' = Job.status j) /\
  (BatchJobStatus.terminal_job (Job.status j) = false -> BatchJobStatus.terminal_job (Job.status j') = false) /\
  job_owner j' = job_owner j /\ Job.output_file_id j' = Job.output_file_id j /\ Job.error_file_id j' = Job.error_file_id j /\
  bres_request_counts (job_to_response j') = bres_request_counts (job_to_response j).

Lemma request_cancel_spec now id d :
  exists d', request_cancel now id d = (d', Ret (job_row id d')) /\ items d' = items d /\
    (forall other, other <> id -> job_row other d' = job_row other d) /\
    match job_row id d, job_row id d' with
    | Some j, Some j' => cancelled_row now j j'
    | None, None => True
    | _, _ => False
    end.
Proof.
  unfold request_cancel. rewrite update_job_eq. eexists. split; [by rewrite job_row_is_job|]. split; [done|]. split.
  - intros other Hne. rewrite job_row_update by done. destruct (job_row other d) as [j|] eqn:E; [|done]. cbn.
    unfold is_job. apply job_row_id in E. rewrite E. by rewrite (proj2 (String.eqb_neq _ _) Hne).
  - rewrite job_row_is_job by done. destruct (job_row id d) as [j|]; [|done]. cbn.
    unfold cancelled_row. cbn. split_and!; try done; by destruct (Job.status j).
Qed.

Section privacy.
Context {Sto : Type} {storage_class : ArtifactStorage Sto create_exc}.
Context (sha256 : bytes -> string) {storage_laws : ArtifactStorageLaws Sto create_exc sha256 MissingFile}.
Context (v : @batch_service Sto).

(** C15: Batches and files answer only to their owners.  [get_batch] answers
    exactly for an existing batch that the caller owns, and shows that row: by
    its key, by its team, or, when the batch has no team, by its organization
    ([owned_by], none of them the empty text).  What [get_file_content] returns
    is the stored content of a file the caller owns in the same sense.
    [cancel_batch] on a batch that does not exist or that the caller does not
    own is refused with 404 or 403 and changes nothing; on the caller's own it
    asks that batch to stop, whatever was committed since the check: a finished
    batch keeps its status, an unfinished one stays unfinished, its owner,
    counts and artifacts are untouched, and no other batch, no item, no session
    and no file changes. *)
Theorem batch_api_private interfere now id auth w :
  (forall resp, get_batch id auth w = Ret resp <->
     exists j, job_row id (st_db (sw_store w)) = Some j /\ owned_by auth (job_owner j) /\ resp = job_to_response j) /\
  (forall data, get_file_content v None id auth w = Ret data ->
     exists f name sto, get_file id (sw_files w) = Some f /\ owned_by auth (file_owner f) /\
       service_storage v (fr_storage_backend f) = Ret (name, sto) /\
       files_of name (sw_store w) !! fr_storage_key f = Some data) /\
  let '(w', r) := cancel_batch interfere now id auth w in
  match job_row id (st_db (sw_store w)) with
  | None => w' = w /\ r = Raise (not_found "Batch")
  | Some j =>
    (owned_by auth (job_owner j) ->
      let s := interfere (sw_store w) in
      sw_files w' = sw_files w /\ st_sessions (sw_store w') = st_sessions s /\ st_files (sw_store w') = st_files s /\
      items (st_db (sw_store w')) = items (st_db s) /\
      (forall other, other <> id -> job_row other (st_db (sw_store w')) = job_row other (st_db s)) /\
      match job_row id (st_db s), job_row id (st_db (sw_store w')) with
      | Some j1, Some j2 => cancelled_row now j1 j2 /\ r = Ret (job_to_response j2)
      | None, None => r = Raise (not_found "Batch")
      | _, _ => False
      end) /\
    (~ owned_by auth (job_owner j) -> w' = w /\ r = Raise (denied "Batch"))
  end.
Proof.
  split_and!.
  - intros resp. unfold get_batch. destruct (job_row id _) as [j|]; [|naive_solver].
    destruct (owns_job j auth) eqn:E; cbn [negb].
    + apply owns_job_spec in E. naive_solver.
    + split; [done|]. intros (j' & [= <-] & Ho & _). apply owns_job_spec in Ho. congruence.
  - intros data. unfold get_file_content. destruct (get_file id _) as [f|]; [|done].
    destruct (owns_file f auth) eqn:E; [|done]. apply owns_file_spec in E. cbn [negb].
    destruct (service_storage v (fr_storage_backend f)) as [[name sto]|e] eqn:Es; [|done].
    pose proof (bytes_of sto (Z.to_nat 65536) (fr_storage_key f) (files_of name (sw_store w)) ltac:(lia)) as H.
    destruct (files_of name (sw_store w) !! fr_storage_key f) as [d|] eqn:Ed; [|by rewrite H].
    destruct H as (chunks & -> & Hd). intros [= <-]. exists f, name, sto. split_and!; try done. by rewrite Hd.
  - unfold cancel_batch. destruct (job_row id _) as [j|]; [|done]. pose proof (owns_job_spec j auth) as Hown.
    destruct (owns_job j auth); [|split; [intros Ho; by apply Hown in Ho|done]]. cbn [negb].
    destruct (request_cancel_spec now id (st_db (interfere (sw_store w)))) as (d' & -> & Hi & Ho & Hc).
    destruct (job_row id d') as [j2|] eqn:E2; cbn [sw_store sw_files with_db st_db st_sessions st_files]; rewrite E2;
      (split; [intros _|by intros []; apply Hown]); split_and!; try done; by destruct (job_row id (st_db _)).
Qed.

(** The status shown is one of the API's, and "cancelling" only while a batch
    that was asked to stop still runs. *)
Lemma public_status_documented j : public_batch_status j ∈ OPENAI_BATCH_STATUS_VALUES /\
  (public_batch_status j = "cancelling" -> Job.status j = BatchJobStatus.IN_PROGRESS /\ is_Some (Job.cancel_requested_at j)).
Proof.
  unfold public_batch_status. destruct (Job.status j), (Job.cancel_requested_at j) as [t|]; (split; [|try done]);
    apply (bool_decide_unpack _); vm_compute; exact I.
Qed.
End privacy.

(** ** Concrete calls *)

(** A team's batch in the organization "o". *)
Definition team_batch : Job.batch_job :=
  Job.mkJob "b1" "/v1/embeddings" BatchJobStatus.IN_PROGRESS (Some "m") None None None 2 1 1 0 0 None None None 0 None None None None
    None None "standard" 2 1 "xs" None None None None (Some "sk-team") None (Some "t") (Some "o") 5 None None None.
Definition team_file : file_record :=
  mkFileRecord "f1" "batch" "in.jsonl" 1 "processed" "local" "in" None (Some "sk-team") None (Some "t") (Some "o") 0 None.
Definition sample_world : service_world :=
  mkServiceWorld (mkStore [] (on_jobs (fun _ => [team_batch]) empty_db) {["local" := {["in" := ["x"%char]]}]}) [team_file].

Definition team_member : UserAPIKeyAuth := plain_auth "sk-member" None (Some "t") (Some "o").
Definition org_caller : UserAPIKeyAuth := plain_auth "sk-org" None None (Some "o").

#[local] Abbreviation local := (local_backend (fun _ => "sum") MissingFile).
Definition sample_batch_service : batch_service :=
  make_batch_service (storage_class := local) (mkLocal "/data") [] 30 10.

(** The listing is wider than the access: a key of the organization is shown
    its teams' batches, which it may not read. *)
Lemma listing_wider_than_access :
  list_batches org_caller 20 sample_world = [job_to_response team_batch] /\
  get_batch "b1" org_caller sample_world = Raise (denied "Batch").
Proof. split; vm_compute; reflexivity. Qed.

Definition cancelled_world (auth : UserAPIKeyAuth) : service_world * res create_exc batch_response :=
  cancel_batch (fun s => s) 9 "b1" auth sample_world.

(** A member of the team cancels the batch, a key of the organization is
    refused, and the file is the team's. *)
Lemma batch_api_private_witness :
  map Job.cancel_requested_at (jobs (st_db (sw_store (fst (cancelled_world team_member))))) = [Some 9] /\
  cancelled_world org_caller = (sample_world, Raise (denied "Batch")) /\
  get_file_content (storage_class := local) sample_batch_service None "f1" team_member sample_world = Ret ["x"%char] /\
  get_file_content (storage_class := local) sample_batch_service None "f1" org_caller sample_world = Raise (denied "File").
Proof.
  pose (laws := local_laws (fun _ => "sum") MissingFile).
  destruct (batch_api_private (storage_class := local) (fun _ => "sum") sample_batch_service (fun s => s) 9 "b1" org_caller sample_world)
    as (_ & _ & H).
  fold (cancelled_world org_caller) in H. destruct (cancelled_world org_caller) as [w' r].
  assert (E1 : job_row "b1" (st_db (sw_store sample_world)) = Some team_batch) by (vm_compute; reflexivity).
  assert (E2 : owns_job team_batch org_caller = false) by (vm_compute; reflexivity).
  rewrite E1 in H. destruct (proj2 H) as [-> ->]; [rewrite <- owns_job_spec, E2; discriminate|]. split_and!; vm_compute; reflexivity.
Defined.

Definition sample_upload_env (insert_fault : fault) : upload_env :=
  mkUploadEnv (mkDisk (fun _ => None) None) "batch/key" ".tmp" insert_fault None "f2" 7.
Definition sample_upload (reads : list bytes) (fault : fault) : service_world * res create_exc file_response :=
  create_file (storage_class := local) sample_batch_service (sample_upload_env fault) team_member
    (mkUpload "" reads None) "batch" sample_world.

(** A row that was committed without an answer: the caller sees an error, the
    file is listed, and its content is gone. *)
Example unacknowledged_upload_dangles :
  let '(w', r) := sample_upload [["a"%char]] (AckLost EAsyncioTimeout) in
  r = Raise (CreateOther EAsyncioTimeout) /\ map fr_file_id (sw_files w') = ["f1"; "f2"] /\
  get_file_content (storage_class := local) sample_batch_service None "f2" team_member w' = Raise (MissingFile "batch/key").
Proof. by vm_compute. Qed.

(** Two reads are one file; a failed INSERT leaves nothing. *)
Lemma upload_recorded_or_undone_witness :
  (exists resp, snd (sample_upload [["a"%char]; ["b"%char]; []] NoFault) = Ret resp /\ fres_bytes resp = 2) /\
  get_file_content (storage_class := local) sample_batch_service None "f2" team_member
    (fst (sample_upload [["a"%char]; ["b"%char]; []] NoFault)) = Ret ["a"%char; "b"%char] /\
  sw_files (fst (sample_upload [["a"%char]] (RolledBack EAsyncioTimeout))) = [team_file].
Proof.
  pose (laws := local_laws (fun _ => "sum") MissingFile).
  assert (Hall : forall reads fault, let '(w', r) := sample_upload reads fault in
    match r with
    | Ret resp => exists f, resp = file_to_response f /\ fr_file_id f = "f2" /\ fr_bytes f = Z.of_nat (length (read_bytes (until_empty reads))) /\
        get_file_content (storage_class := local) sample_batch_service None (fr_file_id f) team_member w' = Ret (read_bytes (until_empty reads))
    | Raise _ => (forall e, fault <> AckLost e) -> sw_files w' = [team_file]
    end).
  { intros reads fault.
    pose proof (upload_recorded_or_undone (storage_class := local) (fun _ => "sum") sample_batch_service (sample_upload_env fault)
      team_member (mkUpload "" reads None) "batch" sample_world ltac:(vm_compute; reflexivity) ltac:(cbn; lia)
      ltac:(split_and!; [done|vm_compute; reflexivity|vm_compute; reflexivity|done]) ltac:(vm_compute; reflexivity)
      ltac:(vm_compute; reflexivity)) as H.
    fold (sample_upload reads fault) in H. destruct (sample_upload reads fault) as [w' [resp|e]]; destruct H as [_ H].
    - destruct H as (f & _ & Hr & Hid & _ & _ & Hb & _ & _ & Hc). by exists f.
    - intros Hf. destruct H as [[H|(e' & f & He & _)] _]; [exact H|by destruct (Hf e')]. }
  pose proof (Hall [["a"%char]; ["b"%char]; []] NoFault) as H1. pose proof (Hall [["a"%char]] (RolledBack EAsyncioTimeout)) as H2.
  assert (E1 : exists resp, snd (sample_upload [["a"%char]; ["b"%char]; []] NoFault) = Ret resp) by (eexists; vm_compute; reflexivity).
  assert (E2 : exists e, snd (sample_upload [["a"%char]] (RolledBack EAsyncioTimeout)) = Raise e) by (eexists; vm_compute; reflexivity).
  destruct E1 as [resp E1], E2 as [e E2].
  destruct (sample_upload [["a"%char]; ["b"%char]; []] NoFault) as [w1 r1], (sample_upload [["a"%char]] (RolledBack EAsyncioTimeout)) as [w2 r2].
  cbn [fst snd] in *. subst r1 r2. destruct H1 as (f & -> & Hid & Hb & Hc). rewrite Hid in Hc. split_and!; [|exact Hc|by apply H2].
  exists (file_to_response f). split; [done|]. exact Hb.
Defined.
