(* ===== verification/ChatBatching.v ===== *)
(** * Chat micro-batches: src/batch/chat_batching.py

    The batching settings of a deployment ([ChatBatchingConfig] of
    src/config.py), which chat requests may share one upstream call, and the
    reading of the result list such a call returns: every result is attributed
    to the request it answers, by its index, its custom id or both.  The
    provider label of a deployment is [resolve_provider] of
    src/providers/resolution.py. *)

From S2P Require Import Prelude PyVal Errors Billing RouterState Backend Strategies.

(** ** Settings *)

Inductive ChatBatchingMode : Type := disabled | concurrent | sync_microbatch.
#[export] Instance ChatBatchingMode_eq_dec : EqDecision ChatBatchingMode.
Proof. solve_decision. Defined.

Definition mode_value (m : ChatBatchingMode) : string :=
  match m with disabled => "disabled" | concurrent => "concurrent" | sync_microbatch => "sync_microbatch" end.

Record ChatBatchingConfig : Type := mkBatchingConfig {
  cb_mode : ChatBatchingMode;
  cb_max_in_flight : option Z;
  cb_upstream_max_batch_size : option Z;
  cb_max_total_input_tokens : option Z;
  cb_require_homogeneous_params : bool
}.

(** [Field(default=None, ge=1)] *)
Definition at_least_one (v : option Z) : bool := match v with Some n => 1 <=? n | None => true end.

Definition validate_sync_microbatch_limits (c : ChatBatchingConfig) : bool :=
  negb (bool_decide (cb_mode c = sync_microbatch))
  || (negb (default 0 (cb_upstream_max_batch_size c) <? 2) && cb_require_homogeneous_params c).

Definition batching_config_ok (c : ChatBatchingConfig) : bool :=
  at_least_one (cb_max_in_flight c) && at_least_one (cb_upstream_max_batch_size c)
  && at_least_one (cb_max_total_input_tokens c) && validate_sync_microbatch_limits c.

Record ChatBatchingSettings : Type := mkChatSettings {
  cs_mode : ChatBatchingMode;
  cs_max_in_flight : option Z;
  cs_upstream_max_batch_size : Z;
  cs_max_total_input_tokens : option Z;
  cs_require_homogeneous_params : bool
}.
#[export] Instance ChatBatchingSettings_eq_dec : EqDecision ChatBatchingSettings.
Proof. solve_decision. Defined.

Definition default_settings : ChatBatchingSettings := mkChatSettings concurrent None 1 None true.

Definition settings_of (c : ChatBatchingConfig) : ChatBatchingSettings :=
  mkChatSettings (cb_mode c) (cb_max_in_flight c) (Z.max 1 (default 1 (cb_upstream_max_batch_size c)))
    (cb_max_total_input_tokens c) (cb_require_homogeneous_params c).

(** ** Requests *)

Record ChatMessage : Type := mkMessage { msg_role : string; msg_content : pyval }.

Inductive tool : Type := MCPToolDefinition | OtherTool.

(** The fields read here, and the remaining ones as one value. *)
Record ChatCompletionRequest : Type := mkChat {
  cr_model : string;
  cr_messages : list ChatMessage;
  cr_stream : option bool;
  cr_tools : option (list tool);
  cr_response_format : option pyval;
  cr_n : option Z;
  cr_other : pyval
}.

Definition is_mcp (t : tool) : bool := match t with MCPToolDefinition => true | OtherTool => false end.
Definition tools_of (r : ChatCompletionRequest) : list tool := default [] (cr_tools r).

(** ** Provider labels *)

(** [sanitize_label] of src/metrics/prometheus.py, of a string. *)
Definition sanitize_label (s : string) : string :=
  let text := Str.strip s in
  if Str.is_empty text then "unknown"
  else
    let blank a := if (nat_of_ascii a =? 10)%nat || (nat_of_ascii a =? 13)%nat then " "%char else a in
    Str.take 128 (string_of_list_ascii (map blank (list_ascii_of_string text))).

Definition provider_from_model (model : string) : string :=
  match Str.split "/" (Str.strip model) with
  | p :: _ :: _ => Str.lower (sanitize_label p)
  | _ => "unknown"
  end.

Section requests.
Context `{PyRepr}.
(** [json.dumps(value, sort_keys=True, separators=(",", ":"), default=str)],
    [model_dump] of a request without its messages, and [id] of an object. *)
Context (dumps : pyval -> string) (request_shape : ChatCompletionRequest -> pyval) (object_id : Deployment -> string).
(** The fields pydantic reads from the value of [chat_batching]. *)
Context (read_config : pyval -> option ChatBatchingConfig).

Definition resolve_chat_batching_settings (deltallm_params : pydict) : ChatBatchingSettings :=
  let raw_config := vget deltallm_params "chat_batching" in
  if is_none raw_config then default_settings
  else match read_config raw_config with
       | Some c => if batching_config_ok c then settings_of c else default_settings
       | None => default_settings
       end.

Definition resolve_provider (params : pydict) : string :=
  match params with
  | [] => "unknown"
  | _ =>
    let explicit := vget params "provider" in
    if negb (is_none explicit) && negb (Str.is_empty (Str.strip (py_str explicit)))
    then Str.lower (sanitize_label (py_str explicit))
    else provider_from_model (py_str (py_or (vget params "model") (PyStr "")))
  end.

Definition message_chars (m : ChatMessage) : Z :=
  Z.of_nat (String.length (msg_role m)) +
  match msg_content m with
  | PyStr s => Z.of_nat (String.length s)
  | v => Z.of_nat (String.length (dumps v))
  end.

Definition estimate_chat_input_tokens (r : ChatCompletionRequest) : Z :=
  let total_chars := zsum (map message_chars (cr_messages r)) in
  Z.max 1 ((total_chars + 3) / 4).

Record group_key : Type := mkGroupKey {
  gk_deployment_id : string;
  gk_model_group : string;
  gk_provider : string;
  gk_api_base : string;
  gk_model : string;
  gk_request_shape : string;
  gk_failover : string
}.

#[export] Instance group_key_eq_dec : EqDecision group_key.
Proof. solve_decision. Defined.

Record ChatMicrobatchEligibility : Type := mkEligibility {
  el_eligible : bool;
  el_reason : option string;
  el_group_key : option group_key;
  el_input_tokens : Z
}.

(** [str(deployment.deployment_id or id(deployment))] *)
Definition deployment_key (d : Deployment) : string :=
  if Str.is_empty (deployment_id d) then object_id d else deployment_id d.

Definition classify_chat_microbatch_request (r : ChatCompletionRequest) (d : Deployment) (model_group : string)
    (failover_kwargs : pydict) : ChatMicrobatchEligibility :=
  let input_tokens := estimate_chat_input_tokens r in
  let no reason := mkEligibility false (Some reason) None input_tokens in
  let param k := py_str (py_or (vget (deltallm_params d) k) (PyStr "")) in
  if bool_decide (cr_stream r = Some true) then no "streaming"
  else if existsb is_mcp (tools_of r) then no "mcp_tools"
  else if negb (bool_decide (length (tools_of r) = 0%nat)) then no "tools"
  else if match cr_response_format r with Some _ => true | None => false end then no "response_format"
  else if negb (bool_decide (default 1 (cr_n r) = 1)) then no "multiple_choices"
  else
    mkEligibility true None
      (Some (mkGroupKey (deployment_key d) model_group (resolve_provider (deltallm_params d)) (param "api_base")
               (param "model") (dumps (request_shape r)) (dumps (PyDict failover_kwargs)))) input_tokens.
End requests.

(** ** Results of a shared call *)

(** A value of a result row: an exception object may stand in it. *)
Inductive field : Type := FVal (v : pyval) | FExn (e : exn).

(** One result: a mapping, a dataclass or an object with attributes, read as a
    mapping; or something else. *)
Inductive raw_result : Type := ResultMapping (d : list (string * field)) | ResultOpaque.

Inductive raw_results : Type := NotASequence | Results (l : list raw_result).

Record NormalizedChatMicrobatchResult : Type := mkResult {
  nr_index : Z;
  nr_response_body : option pydict;
  nr_usage : option pydict;
  nr_error : option exn;
  nr_api_latency_ms : option pyfloat
}.

Definition shape_error {A} (message : string) : res exn A := Raise (EResponseShape message).

Definition fget_or (d : list (string * field)) (k : string) (dflt : field) : field := default dflt (dict_get d k).
Definition fget (d : list (string * field)) (k : string) : field := fget_or d k (FVal PyNone).
Definition f_none (f : field) : bool := match f with FVal v => is_none v | FExn _ => false end.
Definition f_or (a b : field) : field :=
  match a with FVal v => if truthy v then a else b | FExn _ => a end.

Definition result_mapping (r : raw_result) : res exn (list (string * field)) :=
  match r with
  | ResultMapping d => Ret d
  | ResultOpaque => shape_error "chat microbatch response item is not an object"
  end.

Definition coerce_result_index (f : field) : res exn Z :=
  let bad := shape_error "chat microbatch response item has invalid index" in
  match f with
  | FVal (PyInt n) => Ret n
  | FVal (PyStr s) =>
    let stripped := Str.strip s in
    if Str.is_empty stripped then bad
    else match int_of_string stripped with Ret n => Ret n | Raise _ => bad end
  | _ => bad
  end.

(** [{custom_id: index for index, custom_id in enumerate(custom_ids)}] *)
Definition custom_id_to_index (custom_ids : list string) : list (string * Z) :=
  foldl (fun d ic => dict_set d ic.2 (Z.of_nat ic.1)) [] (imap pair custom_ids).

(** An attribute that may be absent. *)
Definition optionally {A} (f : field) (read : field -> res exn A) : res exn (option A) :=
  if f_none f then Ret None else a ← read f; Ret (Some a).

Section results.
Context `{PyRepr}.

Definition field_str (f : field) : string := match f with FVal v => py_str v | FExn e => exn_str e end.

Definition custom_id_result_index (index : list (string * Z)) (f : field) : res exn Z :=
  match dict_get index (field_str f) with
  | Some i => Ret i
  | None => shape_error "chat microbatch response item has unknown custom_id"
  end.

Definition result_index (result : list (string * field)) (ids : list (string * Z)) : res exn Z :=
  item_index ← optionally (fget result "item_index") coerce_result_index;
  raw_index ← optionally (fget result "index") coerce_result_index;
  let index := if f_none (fget result "index") then item_index else raw_index in
  if match item_index, index with Some a, Some b => negb (a =? b) | _, _ => false end
  then shape_error "chat microbatch response item has mismatched item_index and index"
  else
    custom_id_index ← optionally (fget result "custom_id") (custom_id_result_index ids);
    match index, custom_id_index with
    | Some i, Some c =>
      if i =? c then Ret i else shape_error "chat microbatch response item has mismatched index and custom_id"
    | Some i, None => Ret i
    | None, Some c => Ret c
    | None, None => shape_error "chat microbatch response item is missing index or custom_id"
    end.

Definition as_mapping (f : field) : option pydict := match f with FVal (PyDict d) => Some d | _ => None end.

Definition result_response_body (result : list (string * field)) : option pydict :=
  as_mapping (fget_or result "response_body" (fget_or result "response" (fget result "body"))).

Definition result_usage (result : list (string * field)) (response_body : option pydict) : option pydict :=
  let raw_usage := fget result "usage" in
  if f_none raw_usage
  then match response_body with
       | Some body => match vget body "usage" with PyDict d => Some d | _ => None end
       | None => None
       end
  else as_mapping raw_usage.

(** [OverflowError] is not among the exceptions caught. *)
Definition optional_float (f : field) : res exn (option pyfloat) :=
  match f with
  | FExn _ | FVal PyNone => Ret None
  | FVal v => match py_float v with
              | Ret x => Ret (Some x)
              | Raise OverflowError => Raise (exn_of_pyexc OverflowError)
              | Raise _ => Ret None
              end
  end.

Definition optional_int (v : pyval) : res exn (option Z) :=
  match (x ← py_float v; py_int (PyFloat x)) with
  | Ret n => Ret (Some n)
  | Raise OverflowError => Raise (exn_of_pyexc OverflowError)
  | Raise _ => Ret None
  end.

Fixpoint first_optional_int (values : list pyval) : res exn (option Z) :=
  match values with
  | [] => Ret None
  | v :: values' => parsed ← optional_int v;
                    match parsed with Some n => Ret (Some n) | None => first_optional_int values' end
  end.

Definition nested_error_mapping (raw : pydict) : option pydict :=
  match vget raw "error" with PyDict d => Some d | _ => None end.

Definition error_message (raw : pydict) : string :=
  let message := match nested_error_mapping raw with
                 | Some nested => py_or (vget nested "message") (vget nested "detail")
                 | None => py_or (vget raw "message") (py_or (vget raw "detail") (vget raw "error"))
                 end in
  py_str (py_or message (PyDict raw)).

Definition error_kind (raw : pydict) : string :=
  let nested_values := match nested_error_mapping raw with
                       | Some nested => [vget nested "type"; vget nested "code"]
                       | None => []
                       end in
  let values := [vget raw "type"; vget raw "error_type"; vget raw "code"; vget raw "status"] ++ nested_values in
  Str.join " " (map (fun v => Str.lower (py_str v)) (List.filter (fun v => negb (is_none v)) values)).

Definition nested_get (raw : pydict) (k : string) : pyval :=
  match nested_error_mapping raw with Some nested => vget nested k | None => PyNone end.

Definition normalize_error_mapping (raw : pydict) : res exn exn :=
  let message := Some (error_message raw) in
  status_code ← first_optional_int
    ([vget raw "status_code"; vget raw "status"; vget raw "http_status"; vget raw "code"] ++
     map (nested_get raw) ["status_code"; "status"; "http_status"; "code"]%string);
  let kind := error_kind raw in
  retry_after ← first_optional_int
    ([vget raw "retry_after"; vget raw "retry_after_seconds"] ++
     map (nested_get raw) ["retry_after"; "retry_after_seconds"]%string);
  let mentions token := Str.contains token kind in
  let status_is n := bool_decide (status_code = Some n) in
  Ret (EProxy (
    if status_is 429 || mentions "rate_limit"%string || mentions "rate limit"%string
    then mkRateLimitError message None None None retry_after
    else if status_is 408 || mentions "timeout"%string || mentions "timed_out"%string
    then mk_proxy ProxyTimeoutError message None None None None
    else if match status_code with Some n => 500 <=? n | None => false end ||
            existsb mentions ["service_unavailable"; "server_error"; "overload"; "upstream_5xx"]%string
    then mk_proxy ServiceUnavailableError message None None (Some true) None
    else mk_proxy InvalidRequestError message None None None None)).

Definition normalize_result_error (f : field) : res exn (option exn) :=
  match f with
  | FVal PyNone => Ret None
  | FExn e => Ret (Some e)
  | FVal (PyDict raw) => e ← normalize_error_mapping raw; Ret (Some e)
  | FVal v => Ret (Some (EProxy (mk_proxy InvalidRequestError (Some (py_str v)) None None None None)))
  end.

(** The row of a result whose index is known. *)
Definition result_row (row_number : nat) (index : Z) (result : list (string * field))
    : res exn NormalizedChatMicrobatchResult :=
  let missing what := EResponseShape ("chat microbatch response item " +:+ Str.of_Z (Z.of_nat row_number) +:+
                                      " is missing " +:+ what) in
  api_latency_ms ← optional_float (f_or (fget result "api_latency_ms") (fget result "latency_ms"));
  error ← normalize_result_error (f_or (fget result "error") (fget result "exception"));
  let response_body := result_response_body result in
  let usage := result_usage result response_body in
  let error := match error, response_body with
               | None, None => Some (missing "response body"%string)
               | _, _ => error
               end in
  let error := match error, usage with
               | None, (None | Some []) => Some (missing "per-item usage"%string)
               | _, _ => error
               end in
  Ret (mkResult index response_body usage error api_latency_ms).

(** The body of the loop over the results. *)
Definition place_result (expected_count : Z) (ids : list (string * Z))
    (rows : list (option NormalizedChatMicrobatchResult)) (row_number : nat) (raw : raw_result)
    : res exn (list (option NormalizedChatMicrobatchResult)) :=
  result ← result_mapping raw;
  index ← result_index result ids;
  if (index <? 0) || (expected_count <=? index)
  then shape_error ("chat microbatch response item " +:+ Str.of_Z (Z.of_nat row_number) +:+
                    " index out of range index=" +:+ Str.of_Z index)
  else match rows !! Z.to_nat index with
       | Some (Some _) =>
         shape_error ("chat microbatch response contains duplicate index=" +:+ Str.of_Z index)
       | _ => row ← result_row row_number index result; Ret (<[Z.to_nat index := Some row]> rows)
       end.

Fixpoint place_results (expected_count : Z) (ids : list (string * Z))
    (rows : list (option NormalizedChatMicrobatchResult)) (row_number : nat) (raws : list raw_result)
    : res exn (list (option NormalizedChatMicrobatchResult)) :=
  match raws with
  | [] => Ret rows
  | raw :: raws' =>
    rows' ← place_result expected_count ids rows row_number raw;
    place_results expected_count ids rows' (S row_number) raws'
  end.

Definition normalize_chat_microbatch_results (raw : raw_results) (expected_count : Z) (custom_ids : list string)
    : res exn (list NormalizedChatMicrobatchResult) :=
  match raw with
  | NotASequence => shape_error "chat microbatch response is not a result list"
  | Results l =>
    let actual := Z.of_nat (length l) in
    if negb (actual =? expected_count)
    then shape_error ("chat microbatch response length mismatch expected=" +:+ Str.of_Z expected_count +:+
                      " actual=" +:+ Str.of_Z actual)
    else
      rows ← place_results expected_count (custom_id_to_index custom_ids)
               (replicate (Z.to_nat expected_count) None) 0 l;
      if existsb (fun r => match r with None => true | Some _ => false end) rows
      then shape_error "chat microbatch response is missing one or more expected indexes"
      else Ret (omap id rows)
  end.
End results.

(** ** Results are attributed to the requests they answer *)

Section attribution.
Context `{PyRepr}.

Lemma index_of_ids_spec (l : list (nat * string)) (d : list (string * Z)) c z :
  dict_get (foldl (fun d ic => dict_set d ic.2 (Z.of_nat ic.1)) d l) c = Some z ->
  dict_get d c = Some z \/ exists i, (i, c) ∈ l /\ z = Z.of_nat i.
Proof.
  revert d. induction l as [|[i c'] l IH]; intros d; simpl; [by left|]. intros [Hd|(j & Hj & ->)]%IH.
  - destruct (decide (c' = c)) as [->|Hne].
    + rewrite dict_get_set in Hd. injection Hd as <-. right. exists i. split; [left|done].
    + rewrite dict_get_set_ne in Hd by done. by left.
  - right. exists j. split; [by right|done].
Qed.

Lemma custom_id_to_index_spec ids c z :
  dict_get (custom_id_to_index ids) c = Some z -> 0 <= z /\ ids !! Z.to_nat z = Some c.
Proof.
  intros [Hn|(i & Hi & ->)]%index_of_ids_spec; [done|]. split; [lia|]. rewrite Nat2Z.id.
  apply list_elem_of_lookup in Hi as [k Hk]. rewrite list_lookup_imap in Hk.
  destruct (ids !! k) as [x|] eqn:Ek; [|done]. by injection Hk as -> ->.
Qed.

(** Every address a result carries names the request [i], and there is one. *)
Definition addressed (custom_ids : list string) (result : list (string * field)) (i : nat) : Prop :=
  (forall k, k ∈ ["index"; "item_index"]%string -> f_none (fget result k) = false ->
     coerce_result_index (fget result k) = Ret (Z.of_nat i)) /\
  (f_none (fget result "custom_id") = false -> custom_ids !! i = Some (field_str (fget result "custom_id"))) /\
  exists k, k ∈ ["index"; "item_index"; "custom_id"]%string /\ f_none (fget result k) = false.

Lemma optionally_spec {A} f (read : field -> res exn A) o :
  optionally f read = Ret o ->
  match o with Some a => f_none f = false /\ read f = Ret a | None => f_none f = true end.
Proof.
  unfold optionally. destruct (f_none f); [by intros [= <-]|]. destruct (read f); [|done]. by intros [= <-].
Qed.

Lemma result_index_addressed custom_ids result i :
  0 <= i -> result_index result (custom_id_to_index custom_ids) = Ret i ->
  addressed custom_ids result (Z.to_nat i).
Proof.
  intros Hi. unfold result_index. intros (item & Hitem%optionally_spec & E)%res_bind_ret.
  apply res_bind_ret in E as (raw & Hraw%optionally_spec & E). cbv zeta in E.
  destruct (match item, _ with Some a, Some b => _ | _, _ => _ end) eqn:Em; [done|].
  apply res_bind_ret in E as (cid & Hcid%optionally_spec & E).
  assert (Hc : forall c, cid = Some c -> f_none (fget result "custom_id") = false /\
     custom_ids !! Z.to_nat c = Some (field_str (fget result "custom_id"))).
  { intros c ->. destruct Hcid as [Hn Hc]. split; [done|]. unfold custom_id_result_index in Hc.
    destruct (dict_get _ _) as [z|] eqn:Ez; [|done]. injection Hc as ->. by destruct (custom_id_to_index_spec _ _ _ Ez). }
  unfold addressed, shape_error in *. rewrite Z2Nat.id by done.
  assert (Hin : "index"%string ∈ ["index"; "item_index"; "custom_id"]%string) by set_solver.
  assert (Hin2 : "item_index"%string ∈ ["index"; "item_index"; "custom_id"]%string) by set_solver.
  assert (Hin3 : "custom_id"%string ∈ ["index"; "item_index"; "custom_id"]%string) by set_solver.
  assert (Hix : forall j, (if f_none (fget result "index") then item else raw) = Some j -> j = i).
  { intros j Hj. rewrite Hj in E. destruct cid as [c|]; [destruct (Z.eqb_spec j c); [|done]|]; by injection E. }
  split_and!.
  - intros k Hk Hn. apply elem_of_cons in Hk as [->|Hk]; [|apply list_elem_of_singleton in Hk as ->].
    + rewrite Hn in Hix. destruct raw as [r|]; [|congruence]. destruct Hraw as [_ ->]. by rewrite (Hix r eq_refl).
    + destruct item as [r|]; [|congruence]. destruct Hitem as [_ ->].
      destruct (f_none (fget result "index")); [by rewrite (Hix r eq_refl)|].
      destruct raw as [r'|]; [|done]. apply negb_false_iff, Z.eqb_eq in Em. subst r'.
      by rewrite (Hix r eq_refl).
  - intros Hn. destruct cid as [c|]; [|congruence]. destruct (Hc c eq_refl) as [_ Hl].
    destruct (if f_none (fget result "index") then item else raw) as [j|]; [|by injection E as <-].
    rewrite (Hix j eq_refl) in E. destruct (Z.eqb_spec i c); [by subst|done].
  - destruct cid as [c|]; [exists "custom_id"%string; by destruct Hcid|].
    destruct (f_none (fget result "index")) eqn:En; [|by exists "index"%string].
    destruct item as [r|]; [|done]. exists "item_index"%string. by destruct Hitem.
Qed.

Lemma result_row_spec k i result row : result_row k i result = Ret row ->
  nr_index row = i /\ nr_response_body row = result_response_body result /\
  nr_usage row = result_usage result (result_response_body result) /\
  (nr_error row = None -> nr_response_body row <> None /\ exists e u, nr_usage row = Some (e :: u)).
Proof.
  unfold result_row. intros (lat & _ & E)%res_bind_ret. apply res_bind_ret in E as (err & _ & E).
  cbv zeta in E. injection E as <-. cbn. do 3 (split; [done|]).
  destruct err; [done|]. destruct (result_response_body result) as [body|]; [|done].
  destruct (result_usage result (Some body)) as [[|e u]|]; [done| |done]. intros _. split; [done|eauto].
Qed.

(** What a placed result is. *)
Definition answers (custom_ids : list string) (row_number : nat) (raw : raw_result) (i : nat)
    (row : NormalizedChatMicrobatchResult) : Prop :=
  exists result, raw = ResultMapping result /\ addressed custom_ids result i /\
    result_row row_number (Z.of_nat i) result = Ret row.

Lemma place_result_spec n custom_ids rows k raw rows' :
  length rows = Z.to_nat n ->
  place_result n (custom_id_to_index custom_ids) rows k raw = Ret rows' ->
  exists i row, rows !! i = Some None /\ rows' = <[i := Some row]> rows /\ answers custom_ids k raw i row.
Proof.
  intros Hlen. unfold place_result. destruct raw as [result|]; [|done]. cbn [result_mapping mbind res_bind].
  intros (z & Hz & E)%res_bind_ret. destruct (Z.ltb_spec z 0); [done|]. destruct (Z.leb_spec n z); [done|].
  cbn [orb] in E. destruct (rows !! Z.to_nat z) as [[?|]|] eqn:Er; [done| |].
  - apply res_bind_ret in E as (row & Hrow & E). injection E as <-. exists (Z.to_nat z), row. split_and!; [done..|].
    exists result. split_and!; [done| |by rewrite Z2Nat.id]. by apply result_index_addressed.
  - apply lookup_ge_None in Er. lia.
Qed.

Lemma place_results_spec n custom_ids raws : forall rows k rows',
  length rows = Z.to_nat n ->
  place_results n (custom_id_to_index custom_ids) rows k raws = Ret rows' ->
  exists order, length rows' = length rows /\ length order = length raws /\ NoDup order /\
    Forall (fun i => rows !! i = Some None) order /\
    (forall j raw, raws !! j = Some raw -> exists i row, order !! j = Some i /\ rows' !! i = Some (Some row) /\
       answers custom_ids (k + j) raw i row) /\
    (forall i, i ∉ order -> rows' !! i = rows !! i).
Proof.
  induction raws as [|raw raws IH]; intros rows k rows' Hlen; cbn [place_results].
  { intros [= <-]. exists []. split_and!; [done..|constructor|constructor|by intros [|]|done]. }
  intros (rows1 & H1 & E)%res_bind_ret.
  destruct (place_result_spec _ _ _ _ _ _ Hlen H1) as (i & row & Hi & -> & Hans).
  destruct (IH _ _ _ ltac:(by rewrite length_insert) E) as (order & Hl & Hlo & Hnd & Hfree & Hall & Hrest).
  rewrite length_insert in Hl. pose proof (lookup_lt_Some _ _ _ Hi) as Hlt.
  assert (Hni : i ∉ order).
  { intros Hin. rewrite Forall_forall in Hfree. specialize (Hfree i Hin). by rewrite list_lookup_insert_eq in Hfree. }
  exists (i :: order). split_and!; [done|simpl; congruence|by constructor| | |].
  - constructor; [done|]. rewrite Forall_forall in *. intros j Hj. specialize (Hfree j Hj).
    rewrite list_lookup_insert_ne in Hfree; [done|]. by intros ->.
  - intros [|j] r Hj.
    + injection Hj as <-. exists i, row. rewrite Nat.add_0_r, Hrest, list_lookup_insert_eq by done. done.
    + destruct (Hall j r Hj) as (i' & row' & Ho & Hr & Ha). exists i', row'.
      by replace (k + S j)%nat with (S k + j)%nat by lia.
  - intros j [Hne Hj]%not_elem_of_cons. rewrite Hrest by done. by rewrite list_lookup_insert_ne.
Qed.

Lemma omap_id_lookup {A} (l : list (option A)) i :
  existsb (fun r => match r with None => true | Some _ => false end) l = false ->
  omap id l !! i = (l !! i ≫= id).
Proof.
  revert i. induction l as [|[x|] l IH]; intros i Hl; [done| |done]. destruct i as [|i]; [done|]. by apply IH.
Qed.

Lemma permutation_of_seq (order : list nat) n :
  NoDup order -> length order = n -> (forall i, i ∈ order -> (i < n)%nat) -> order ≡ₚ seq 0 n.
Proof.
  intros Hnd Hl Hlt. apply submseteq_length_Permutation; [|by rewrite length_seq; lia].
  apply NoDup_submseteq; [done|]. intros i Hi. apply elem_of_seq. specialize (Hlt i Hi). lia.
Qed.

(** What an accepted result list is. *)
Lemma normalize_results_spec raw n custom_ids rows :
  normalize_chat_microbatch_results raw n custom_ids = Ret rows ->
  exists l order, raw = Results l /\ Z.of_nat (length l) = n /\ length rows = length l /\
    order ≡ₚ seq 0 (length l) /\
    (forall k r, l !! k = Some r -> exists i row, order !! k = Some i /\ rows !! i = Some row /\
       answers custom_ids k r i row) /\
    (forall i row, rows !! i = Some row -> nr_index row = Z.of_nat i /\
       (nr_error row = None -> nr_response_body row <> None /\ exists e u, nr_usage row = Some (e :: u))).
Proof.
  unfold normalize_chat_microbatch_results. destruct raw as [|l]; [done|].
  destruct (Z.eqb_spec (Z.of_nat (length l)) n) as [Hn|]; [|done]. cbn [negb].
  intros (rows' & Hp & E)%res_bind_ret. destruct (existsb _ rows') eqn:Enone; [done|]. injection E as <-.
  destruct (place_results_spec _ _ _ _ _ _ (length_replicate _ _) Hp) as (order & Hl & Hlo & Hnd & Hfree & Hall & _).
  rewrite length_replicate in Hl. assert (Hlen : Z.to_nat n = length l) by lia. rewrite Hlen in *.
  assert (Hperm : order ≡ₚ seq 0 (length l)).
  { apply permutation_of_seq; [done..|]. intros i Hi. rewrite Forall_forall in Hfree.
    pose proof (lookup_lt_Some _ _ _ (Hfree i Hi)) as Hlt. by rewrite length_replicate in Hlt. }
  assert (Hrows : length (omap id rows') = length l).
  { rewrite <- Hl. clear -Enone. induction rows' as [|[x|] rs IH]; [done|simpl; f_equal; by apply IH|done]. }
  assert (Hans : forall k r, l !! k = Some r -> exists i row, order !! k = Some i /\ omap id rows' !! i = Some row /\
     answers custom_ids k r i row).
  { intros k r Hk. destruct (Hall k r Hk) as (i & row & Ho & Hr & Ha). exists i, row.
    by rewrite omap_id_lookup, Hr by done. }
  exists l, order. split_and!; [done..|]. intros i row Hrow.
  assert (Hio : i ∈ order).
  { rewrite Hperm. apply elem_of_seq. apply lookup_lt_Some in Hrow. lia. }
  apply list_elem_of_lookup in Hio as [k Hk].
  destruct (lookup_lt_is_Some_2 l k) as [r Hr]; [rewrite <- Hlo; by eapply lookup_lt_Some|].
  destruct (Hans k r Hr) as (i' & row' & Ho' & Hrow' & res & _ & _ & Hres). rewrite Hk in Ho'. injection Ho' as <-.
  rewrite Hrow in Hrow'. injection Hrow' as <-. destruct (result_row_spec _ _ _ _ Hres) as (-> & _ & _ & Herr). split; [done|exact Herr].
Qed.
(** C17: results go to the requests they answer.  When the result list of a
    shared call is accepted, it holds exactly one result per request, in some
    order: each is placed at the request that its [index], its [item_index]
    and its [custom_id] all name, as far as it carries them, and it carries at
    least one; no two land on the same request, none is dropped.  A result
    that ends without an error has a response body and non-empty usage to
    bill. *)
Theorem results_answer_items raw n custom_ids rows :
  normalize_chat_microbatch_results raw n custom_ids = Ret rows ->
  exists l order, raw = Results l /\ Z.of_nat (length l) = n /\ length rows = length l /\
    order ≡ₚ seq 0 (length l) /\
    (forall k r, l !! k = Some r -> exists i row, order !! k = Some i /\ rows !! i = Some row /\
       answers custom_ids k r i row) /\
    (forall i row, rows !! i = Some row -> nr_index row = Z.of_nat i /\
       (nr_error row = None -> nr_response_body row <> None /\ exists e u, nr_usage row = Some (e :: u))).
Proof. apply normalize_results_spec. Qed.
End attribution.

(** *** Examples *)

#[local] Existing Instance no_repr.

Definition sample_result (address : list (string * pyval)) (tokens : Z) : raw_result :=
  ResultMapping (map (fun kv => (kv.1, FVal kv.2)) address ++
    [("response_body", FVal (PyDict [("id", PyStr "r")])); ("usage", FVal (PyDict [("total_tokens", PyInt tokens)]))]).

(** The second answer names its request by position, the first by custom id. *)
Definition sample_results : raw_results :=
  Results [sample_result [("custom_id", PyStr "b")] 7; sample_result [("index", PyStr " 0 ")] 5].

Example sample_results_reordered :
  match normalize_chat_microbatch_results sample_results 2 ["a"; "b"] with
  | Ret rows => map nr_usage rows = [Some [("total_tokens", PyInt 5)]; Some [("total_tokens", PyInt 7)]]%string
  | Raise _ => False
  end.
Proof. vm_compute. reflexivity. Qed.

Lemma results_answer_items_witness :
  exists rows l order, normalize_chat_microbatch_results sample_results 2 ["a"; "b"] = Ret rows /\
    sample_results = Results l /\ order ≡ₚ seq 0 (length l).
Proof.
  destruct (normalize_chat_microbatch_results sample_results 2 ["a"; "b"]) as [rows|e] eqn:E;
    [|vm_compute in E; discriminate E].
  destruct (results_answer_items sample_results 2 ["a"; "b"] rows E) as (l & order & Hl & _ & _ & Ho & _).
  exists rows, l, order. done.
Defined.
