(* ===== verification/ChatPlan.v ===== *)
(** * Planning the chat items of a claim: src/batch/chat_worker_execution.py

    [_process_chat_items] turns the prepared items of a claim into work units:
    items that run alone, and micro-batches of compatible items for one
    deployment; a pool of runners then takes the units from a queue, at most so
    many at a time for each deployment. *)

From S2P Require Import Prelude PyVal Errors Auth Billing RouterState Backend Strategies.
From S2P Require Import BatchModels BatchDb ChatBatching.

(** ** Grouping in insertion order *)

(** [groups.setdefault(key, []).append(a)] *)
Fixpoint group_add {K A} `{EqDecision K} (k : K) (a : A) (groups : list (K * list A)) : list (K * list A) :=
  match groups with
  | [] => [(k, [a])]
  | (k', l) :: groups' => if decide (k' = k) then (k', l ++ [a]) :: groups' else (k', l) :: group_add k a groups'
  end.

Definition group_by {K A} `{EqDecision K} (key : A -> K) (l : list A) : list (K * list A) :=
  foldl (fun groups a => group_add (key a) a groups) [] l.

Section grouping.
Context {K A : Type} `{EqDecision K}.
Implicit Types (groups : list (K * list A)).

Lemma group_add_perm k a groups : concat (map snd (group_add k a groups)) ≡ₚ a :: concat (map snd groups).
Proof.
  induction groups as [|[k' l] groups IH]; simpl; [done|]. destruct (decide (k' = k)); simpl.
  - rewrite <- app_assoc. by rewrite Permutation_middle.
  - rewrite IH. by rewrite Permutation_middle.
Qed.

(** Every group is inhabited, by elements of its key. *)
Definition keyed (key : A -> K) groups : Prop :=
  Forall (fun g => g.2 <> [] /\ Forall (fun a => key a = g.1) g.2) groups.

Lemma group_add_keyed (key : A -> K) a groups : keyed key groups -> keyed key (group_add (key a) a groups).
Proof.
  induction 1 as [|[k l] groups [Hne Hk] Hg IH]; simpl; [repeat constructor; discriminate|].
  destruct (decide (k = key a)) as [->|]; constructor; try done. simpl. split; [by destruct l|].
  apply Forall_app. split; [done|by constructor].
Qed.

Lemma group_fold_spec (key : A -> K) (l : list A) : forall groups, keyed key groups ->
  let groups' := foldl (fun groups a => group_add (key a) a groups) groups l in
  concat (map snd groups') ≡ₚ l ++ concat (map snd groups) /\ keyed key groups'.
Proof.
  induction l as [|a l IH]; intros groups Hg; simpl; [done|].
  destruct (IH _ (group_add_keyed key a groups Hg)) as [Hp Hk]. split; [|done].
  rewrite Hp, group_add_perm. by rewrite Permutation_middle.
Qed.

Lemma group_by_spec (key : A -> K) (l : list A) :
  concat (map snd (group_by key l)) ≡ₚ l /\ keyed key (group_by key l).
Proof.
  destruct (group_fold_spec key l [] (Forall_nil_2 _)) as [Hp Hk]. split; [|done].
  unfold group_by. by rewrite Hp, app_nil_r.
Qed.

(** The groups after the elements [seen]: each starts with its first element. *)
Definition leads (key : A -> K) (seen : list A) groups : Prop :=
  (forall a, a ∈ seen -> key a ∈ map fst groups) /\
  forall k g, (k, g) ∈ groups -> exists a, head g = Some a /\ List.find (fun b => bool_decide (key b = k)) seen = Some a.

Lemma group_add_fst k a groups k' : k' ∈ map fst (group_add k a groups) <-> k' = k \/ k' ∈ map fst groups.
Proof.
  induction groups as [|[k1 l] groups IH]; simpl; [set_solver|]. destruct (decide (k1 = k)) as [->|]; simpl; set_solver.
Qed.

Lemma group_add_elem k a groups k' g : (k', g) ∈ group_add k a groups ->
  (k', g) ∈ groups \/ k' = k /\ ((k ∉ map fst groups) /\ g = [a] \/ exists g0, (k, g0) ∈ groups /\ g = g0 ++ [a]).
Proof.
  induction groups as [|[k1 l] groups IH]; simpl.
  { intros [= -> ->]%list_elem_of_singleton. right. split; [done|]. left. split; [by intros ?%elem_of_nil|done]. }
  destruct (decide (k1 = k)) as [->|Hne]; intros [E|Hin]%elem_of_cons.
  - injection E as -> ->. right. split; [done|]. right. exists l. by split; [left|].
  - left. by right.
  - left. rewrite E. left.
  - destruct (IH Hin) as [H|(-> & [[Hn ->]|(g0 & Hg & ->)])]; [left; by right|right|right]; (split; [done|]).
    + left. split; [|done]. intros [E|Hk]%elem_of_cons; [by destruct Hne|done].
    + right. exists g0. by split; [right|].
Qed.

Lemma find_app (q : A -> bool) l1 l2 : List.find q (l1 ++ l2) = match List.find q l1 with Some a => Some a | None => List.find q l2 end.
Proof. induction l1 as [|a l1 IH]; simpl; [done|]. by destruct (q a). Qed.

Lemma leads_add (key : A -> K) a seen groups : leads key seen groups -> leads key (seen ++ [a]) (group_add (key a) a groups).
Proof.
  intros [Hk Hg]. split.
  - intros b [Hb|Hb%list_elem_of_singleton]%elem_of_app; apply group_add_fst; [right; auto|left; by subst b].
  - intros k g [Hin|(-> & [[Hn ->]|(g0 & Hin & ->)])]%group_add_elem.
    + destruct (Hg _ _ Hin) as (b & Hb & Hf). exists b. by rewrite find_app, Hf.
    + exists a. split; [done|]. rewrite find_app. destruct (List.find _ seen) as [b|] eqn:E.
      * apply find_some in E as [Hin E%bool_decide_eq_true_1]. destruct Hn. rewrite <- E. by apply Hk, list_elem_of_In.
      * simpl. by rewrite bool_decide_true.
    + destruct (Hg _ _ Hin) as (b & Hb & Hf). exists b. rewrite find_app, Hf. split; [|done]. by destruct g0.
Qed.

Lemma group_by_leads (key : A -> K) (l : list A) : leads key l (group_by key l).
Proof.
  unfold group_by. assert (Hgen : forall seen groups, leads key seen groups ->
    leads key (seen ++ l) (foldl (fun groups a => group_add (key a) a groups) groups l)).
  { induction l as [|a l IH]; intros seen groups H; simpl; [by rewrite app_nil_r|].
    replace (seen ++ a :: l) with ((seen ++ [a]) ++ l) by (by rewrite <- app_assoc). by apply IH, leads_add. }
  apply (Hgen []). split; [by intros a ?%elem_of_nil|by intros k g ?%elem_of_nil].
Qed.
End grouping.

(** ** _split_chat_microbatch_candidates *)

Record split_state (A : Type) : Type := mkSplit {
  sp_chunks : list (list A);
  sp_fallbacks : list (A * string);
  sp_current : list A;
  sp_tokens : Z
}.
Arguments mkSplit {A} sp_chunks sp_fallbacks sp_current sp_tokens.
Arguments sp_chunks {A} s.
Arguments sp_fallbacks {A} s.
Arguments sp_current {A} s.
Arguments sp_tokens {A} s.

Definition flush_current {A} (s : split_state A) : split_state A :=
  match sp_current s with
  | [] => mkSplit (sp_chunks s) (sp_fallbacks s) [] 0
  | [a] => mkSplit (sp_chunks s) (sp_fallbacks s ++ [(a, "single_candidate"%string)]) [] 0
  | chunk => mkSplit (sp_chunks s ++ [chunk]) (sp_fallbacks s) [] 0
  end.

Definition over_cap (token_cap : option Z) (tokens : Z) : bool :=
  match token_cap with Some cap => cap <? tokens | None => false end.

Definition split_step {A} (max_batch_size : Z) (token_cap : option Z) (s : split_state A) (candidate : A * Z)
    : split_state A :=
  let '(prepared, input_tokens) := candidate in
  if over_cap token_cap input_tokens
  then let s := flush_current s in
       mkSplit (sp_chunks s) (sp_fallbacks s ++ [(prepared, "token_limit"%string)]) (sp_current s) (sp_tokens s)
  else
    let exceeds_count := max_batch_size <=? Z.of_nat (length (sp_current s)) in
    let exceeds_tokens := negb (bool_decide (length (sp_current s) = 0%nat))
                          && over_cap token_cap (sp_tokens s + input_tokens) in
    let s := if exceeds_count || exceeds_tokens then flush_current s else s in
    mkSplit (sp_chunks s) (sp_fallbacks s) (sp_current s ++ [prepared]) (sp_tokens s + input_tokens).

Definition split_chat_microbatch_candidates {A} (candidates : list (A * Z)) (settings : ChatBatchingSettings)
    : list (list A) * list (A * string) :=
  let max_batch_size := Z.max 2 (cs_upstream_max_batch_size settings) in
  let s := flush_current (foldl (split_step max_batch_size (cs_max_total_input_tokens settings))
                            (mkSplit [] [] [] 0) candidates) in
  (sp_chunks s, sp_fallbacks s).

Section split.
Context {A : Type} (tokens : A -> Z) (max_batch_size : Z) (token_cap : option Z).
Hypothesis Hmax : 2 <= max_batch_size.
Implicit Types (s : split_state A).

Definition within_cap (l : list A) : Prop :=
  match token_cap with Some cap => zsum (map tokens l) <= cap | None => True end.

Definition chunk_fits (l : list A) : Prop := (2 <= length l)%nat /\ Z.of_nat (length l) <= max_batch_size /\ within_cap l.

Definition all_of s : list A := concat (sp_chunks s) ++ map fst (sp_fallbacks s) ++ sp_current s.

Record split_ok (s : split_state A) (seen : list A) : Prop := {
  so_perm : all_of s ≡ₚ seen;
  so_chunks : Forall chunk_fits (sp_chunks s);
  so_tokens : sp_tokens s = zsum (map tokens (sp_current s));
  so_count : Z.of_nat (length (sp_current s)) <= max_batch_size;
  so_cap : within_cap (sp_current s) \/ sp_current s = []
}.

Lemma over_cap_false t : over_cap token_cap t = false ->
  match token_cap with Some cap => t <= cap | None => True end.
Proof. unfold over_cap. destruct token_cap; [|done]. by intros ?%Z.ltb_ge. Qed.

Lemma zsum_snoc l a : zsum (map tokens (l ++ [a])) = zsum (map tokens l) + tokens a.
Proof. rewrite map_app, zsum_app. cbn [map]. rewrite zsum_cons. unfold zsum at 2. simpl. lia. Qed.

Lemma flush_ok s seen : split_ok s seen -> split_ok (flush_current s) seen /\ sp_current (flush_current s) = [].
Proof.
  intros [Hp Hc Ht Hn Hcap]. split; [|by unfold flush_current; destruct (sp_current s) as [|a [|b l]]].
  unfold flush_current, all_of in *. destruct (sp_current s) as [|a [|b l]] eqn:E.
  - constructor; simpl; try done; by right.
  - constructor; simpl; try done; [|lia|by right]. unfold all_of. simpl. rewrite map_app, app_nil_r. done.
  - constructor; simpl; try done; [|apply Forall_app; split; [done|]|lia|by right].
    + unfold all_of. simpl. rewrite concat_app. simpl. rewrite !app_nil_r, <- Hp, <- app_assoc. apply Permutation_app_head.
      apply Permutation_app_comm.
    + constructor; [|done]. destruct Hcap as [Hcap|]; [|done]. split_and!; [simpl; lia|done|done].
Qed.

Lemma split_step_ok s seen a t : tokens a = t -> split_ok s seen ->
  split_ok (split_step max_batch_size token_cap s (a, t)) (seen ++ [a]).
Proof.
  intros Hta Hs. unfold split_step. destruct (over_cap token_cap t) eqn:Eo.
  - destruct (flush_ok _ _ Hs) as [[Hp Hc Ht Hn Hcap] Hcur]. rewrite Hcur in *.
    constructor; simpl; try done. unfold all_of in *. simpl. rewrite Hcur in Hp. rewrite app_nil_r in *.
    by rewrite map_app, app_assoc, Hp.
  - apply over_cap_false in Eo. cbv zeta. set (full := _ || _).
    assert (Hs' : split_ok (if full then flush_current s else s) seen /\
       (Z.of_nat (length (sp_current (if full then flush_current s else s))) < max_batch_size /\
        (match token_cap with
         | Some cap => sp_tokens (if full then flush_current s else s) + t <= cap \/
                       sp_current (if full then flush_current s else s) = []
         | None => True end))).
    { destruct full eqn:Ef.
      - destruct (flush_ok _ _ Hs) as [Hf Hcur]. rewrite Hcur. split; [done|]. split; [simpl; lia|].
        destruct token_cap; [by right|done].
      - unfold full in Ef. apply orb_false_iff in Ef as [E1%Z.leb_gt E2]. split; [done|]. split; [lia|].
        destruct token_cap as [cap|]; [|done]. apply andb_false_iff in E2 as [E2|E2%Z.ltb_ge]; [right|by left].
        apply negb_false_iff, bool_decide_eq_true_1 in E2. by destruct (sp_current s). }
    destruct Hs' as ([Hp Hc Ht Hn Hcap] & Hlt & Hfit). set (s1 := if full then _ else _) in *.
    constructor; simpl; try done.
    + unfold all_of in *. simpl. by rewrite !app_assoc in *; rewrite Hp.
    + by rewrite zsum_snoc, Ht, Hta.
    + rewrite length_app. simpl. lia.
    + left. unfold within_cap in *. destruct token_cap as [cap|]; [|done].
      rewrite zsum_snoc, <- Ht, Hta. destruct Hfit as [?|Hnil]; [lia|]. rewrite Ht, Hnil. cbn. lia.
Qed.

Lemma split_fold_ok (candidates : list (A * Z)) s seen :
  Forall (fun c => tokens c.1 = c.2) candidates -> split_ok s seen ->
  split_ok (foldl (split_step max_batch_size token_cap) s candidates) (seen ++ map fst candidates).
Proof.
  intros Hc. revert s seen. induction Hc as [|[a t] l Ht Hl IH]; intros s seen Hs; simpl; [by rewrite app_nil_r|].
  replace (seen ++ a :: map fst l) with ((seen ++ [a]) ++ map fst l) by (by rewrite <- app_assoc).
  apply IH. by apply split_step_ok.
Qed.
End split.

Lemma split_spec {A} (tokens : A -> Z) candidates settings :
  Forall (fun c => tokens c.1 = c.2) candidates ->
  let '(chunks, fallbacks) := split_chat_microbatch_candidates candidates settings in
  concat chunks ++ map fst fallbacks ≡ₚ map fst candidates /\
  Forall (chunk_fits tokens (Z.max 2 (cs_upstream_max_batch_size settings)) (cs_max_total_input_tokens settings)) chunks.
Proof.
  intros Hc. unfold split_chat_microbatch_candidates. set (m := Z.max 2 _). set (cap := cs_max_total_input_tokens settings).
  assert (Hm : 2 <= m) by (unfold m; lia).
  assert (H0 : split_ok tokens m cap (mkSplit [] [] [] 0) []) by (constructor; simpl; (done || lia || by right)).
  pose proof (split_fold_ok tokens m cap Hm candidates _ [] Hc H0) as Hf.
  apply flush_ok in Hf as [[Hp Hch _ _ _] Hcur]; [|done].
  split; [|done]. unfold all_of in Hp. rewrite Hcur, app_nil_r in Hp. done.
Qed.

(** ** Planning *)

(** [_PreparedChatItem]; the policy lease it may hold is state of the
    execution. *)
Record PreparedChatItem : Type := mkPrepared {
  pc_item : Item.batch_item;
  pc_payload : ChatCompletionRequest;
  pc_model_name : string;
  pc_model_group : string;
  pc_primary_deployment : Deployment;
  pc_failover_kwargs : pydict;
  pc_policy_auth : option UserAPIKeyAuth
}.

Definition pc_item_id (p : PreparedChatItem) : string := Item.item_id (pc_item p).

Inductive work_unit : Type :=
  | Single (p : PreparedChatItem) (mode : string)
  | Chunk (ps : list PreparedChatItem).

Definition unit_items (u : work_unit) : list PreparedChatItem :=
  match u with Single p _ => [p] | Chunk ps => ps end.

(** A queue entry: the deployment it is limited by, its settings, the work. *)
Definition planned_unit : Type := string * ChatBatchingSettings * work_unit.

Section planning.
Context `{PyRepr}.
Context (dumps : pyval -> string) (request_shape : ChatCompletionRequest -> pyval) (object_id : Deployment -> string).
Context (read_config : pyval -> option ChatBatchingConfig).
(** The executors of shared calls: the one of the application, if it is set,
    or the one a provider's adapter is. *)
Context {X : Type} (explicit_executor : option X) (adapter_executor : Deployment -> option X).

Definition resolve_chat_microbatch_executor (d : Deployment) : option X :=
  match explicit_executor with Some e => Some e | None => adapter_executor d end.

Definition chat_deployment_key (p : PreparedChatItem) : string := deployment_key object_id (pc_primary_deployment p).

Definition settings_for (d : Deployment) : ChatBatchingSettings :=
  resolve_chat_batching_settings read_config (deltallm_params d).

Definition eligibility (p : PreparedChatItem) : ChatMicrobatchEligibility :=
  classify_chat_microbatch_request dumps request_shape object_id (pc_payload p) (pc_primary_deployment p)
    (pc_model_group p) (pc_failover_kwargs p).

(** The key of an eligible item. *)
Definition candidate_key (p : PreparedChatItem) : option group_key :=
  if el_eligible (eligibility p) then el_group_key (eligibility p) else None.

Definition queue_single (settings : ChatBatchingSettings) (mode : string) (p : PreparedChatItem) : planned_unit :=
  (chat_deployment_key p, settings, Single p mode).

(** The units of one group of candidates. *)
Definition plan_candidates (deployment_key : string) (settings : ChatBatchingSettings)
    (candidates : list (PreparedChatItem * Z)) : list planned_unit :=
  let '(chunks, fallbacks) := split_chat_microbatch_candidates candidates settings in
  map (fun f => queue_single settings "sync_microbatch_fallback" f.1) fallbacks ++
  map (fun chunk => (deployment_key, settings, Chunk chunk)) chunks.

Definition with_tokens (p : PreparedChatItem) : PreparedChatItem * Z := (p, el_input_tokens (eligibility p)).

(** The units of the items of one deployment. *)
Definition plan_deployment (deployment_key : string) (items : list PreparedChatItem) : list planned_unit :=
  match items with
  | [] => []
  | first :: _ =>
    let settings := settings_for (pc_primary_deployment first) in
    match cs_mode settings with
    | disabled | concurrent => map (queue_single settings (mode_value (cs_mode settings))) items
    | sync_microbatch =>
      match resolve_chat_microbatch_executor (pc_primary_deployment first) with
      | None => map (queue_single settings "sync_microbatch_fallback") items
      | Some _ =>
        let eligible p := match candidate_key p with Some _ => true | None => false end in
        map (queue_single settings "sync_microbatch_fallback") (List.filter (fun p => negb (eligible p)) items) ++
        concat (map (fun g => plan_candidates deployment_key settings (map with_tokens g.2))
                  (group_by candidate_key (List.filter eligible items)))
      end
    end
  end.

Definition plan_work_units (prepared_items : list PreparedChatItem) : list planned_unit :=
  concat (map (fun g => plan_deployment g.1 g.2) (group_by chat_deployment_key prepared_items)).

(** ** What a plan is *)

Definition tokens_of (p : PreparedChatItem) : Z := estimate_chat_input_tokens dumps (pc_payload p).

Lemma with_tokens_of p : (with_tokens p).2 = tokens_of p.
Proof.
  unfold with_tokens, eligibility, classify_chat_microbatch_request, tokens_of. cbn [snd].
  repeat case_match; reflexivity.
Qed.

(** Requests that one upstream call can answer: the same deployment, model group,
    provider, target, parameters (all but the messages) and failover. *)
Record compatible (p q : PreparedChatItem) : Prop := mkCompatible {
  cm_deployment : chat_deployment_key p = chat_deployment_key q;
  cm_model_group : pc_model_group p = pc_model_group q;
  cm_provider : resolve_provider (deltallm_params (pc_primary_deployment p))
                = resolve_provider (deltallm_params (pc_primary_deployment q));
  cm_target k : k ∈ ["api_base"; "model"]%string ->
    py_str (py_or (vget (deltallm_params (pc_primary_deployment p)) k) (PyStr ""))
    = py_str (py_or (vget (deltallm_params (pc_primary_deployment q)) k) (PyStr ""));
  cm_parameters : dumps (request_shape (pc_payload p)) = dumps (request_shape (pc_payload q));
  cm_failover : dumps (PyDict (pc_failover_kwargs p)) = dumps (PyDict (pc_failover_kwargs q))
}.

(** A request that may share a call: no stream, no tools, free text, one choice. *)
Record shareable (p : PreparedChatItem) : Prop := mkShareable {
  sh_stream : cr_stream (pc_payload p) <> Some true;
  sh_tools : tools_of (pc_payload p) = [];
  sh_format : cr_response_format (pc_payload p) = None;
  sh_choices : default 1 (cr_n (pc_payload p)) = 1
}.

Lemma candidate_shareable p k : candidate_key p = Some k -> shareable p.
Proof.
  unfold candidate_key, eligibility, classify_chat_microbatch_request. cbv zeta.
  destruct (bool_decide_reflect (cr_stream (pc_payload p) = Some true)) as [|H1]; [done|].
  destruct (existsb _ _); [done|]. destruct (bool_decide_reflect (length (tools_of (pc_payload p)) = 0%nat)) as [H2|]; [|done]. cbn [negb].
  destruct (cr_response_format (pc_payload p)) eqn:H3; [done|].
  destruct (bool_decide_reflect (default 1 (cr_n (pc_payload p)) = 1)) as [H4|]; [|done].
  intros _. constructor; try done. by apply nil_length_inv.
Qed.

Lemma candidate_key_eq p k : candidate_key p = Some k ->
  k = mkGroupKey (chat_deployment_key p) (pc_model_group p) (resolve_provider (deltallm_params (pc_primary_deployment p)))
        (py_str (py_or (vget (deltallm_params (pc_primary_deployment p)) "api_base") (PyStr "")))
        (py_str (py_or (vget (deltallm_params (pc_primary_deployment p)) "model") (PyStr "")))
        (dumps (request_shape (pc_payload p))) (dumps (PyDict (pc_failover_kwargs p))).
Proof.
  unfold candidate_key, eligibility, classify_chat_microbatch_request. cbv zeta.
  repeat (match goal with |- context [if ?c then _ else _] => destruct c end; try done). by intros [= <-].
Qed.

Lemma candidates_compatible p q k : candidate_key p = Some k -> candidate_key q = Some k -> compatible p q.
Proof.
  intros Hp%candidate_key_eq Hq%candidate_key_eq. rewrite Hp in Hq. injection Hq as H1 H2 H3 H4 H5 H6 H7.
  constructor; try done. intros t [->|[->|?%elem_of_nil]%elem_of_cons]%elem_of_cons; done.
Qed.

(** A shared call that may be made: an executor is there, at least two requests,
    within the size and token limits of the settings, each shareable and all
    compatible. *)
Definition chunk_planned (d : Deployment) (ps : list PreparedChatItem) : Prop :=
  let settings := settings_for d in
  cs_mode settings = sync_microbatch /\ resolve_chat_microbatch_executor d <> None /\ (2 <= length ps)%nat /\
  Z.of_nat (length ps) <= cs_upstream_max_batch_size settings /\
  match cs_max_total_input_tokens settings with Some cap => zsum (map tokens_of ps) <= cap | None => True end /\
  Forall shareable ps /\ forall p q, p ∈ ps -> q ∈ ps -> compatible p q.

(** How an item runs alone. *)
Definition single_mode (m : ChatBatchingMode) : string :=
  match m with sync_microbatch => "sync_microbatch_fallback" | m => mode_value m end.

(** The first of the claim's items for a deployment. *)
Definition first_for (all : list PreparedChatItem) (key : string) : option PreparedChatItem :=
  List.find (fun p => bool_decide (chat_deployment_key p = key)) all.

Definition unit_planned (all : list PreparedChatItem) (u : planned_unit) : Prop :=
  let '(key, settings, work) := u in
  Forall (fun p => chat_deployment_key p = key) (unit_items work) /\
  exists first, first_for all key = Some first /\ settings = settings_for (pc_primary_deployment first) /\
    match work with
    | Single _ mode => mode = single_mode (cs_mode settings)
    | Chunk ps => chunk_planned (pc_primary_deployment first) ps
    end.

Lemma settings_size d : cs_mode (settings_for d) = sync_microbatch -> 2 <= cs_upstream_max_batch_size (settings_for d).
Proof.
  unfold settings_for, resolve_chat_batching_settings. destruct (is_none _); [done|].
  destruct (read_config _) as [c|]; [|done]. destruct (batching_config_ok c) eqn:E; [|done].
  unfold batching_config_ok, validate_sync_microbatch_limits in E. rewrite !andb_true_iff, orb_true_iff, negb_true_iff in E.
  simpl. intros Hm. destruct E as [_ [E|E]]; [by apply bool_decide_eq_false_1 in E|].
  apply andb_true_iff in E as [E _]. apply negb_true_iff, Z.ltb_ge in E.
  destruct (cb_upstream_max_batch_size c); simpl in *; lia.
Qed.

Section of_claim.
Context (all : list PreparedChatItem).

Definition covers (units : list planned_unit) (items : list PreparedChatItem) : Prop :=
  concat (map (fun u => unit_items u.2) units) ≡ₚ items /\ Forall (unit_planned all) units.

Lemma covers_app us1 us2 l1 l2 : covers us1 l1 -> covers us2 l2 -> covers (us1 ++ us2) (l1 ++ l2).
Proof.
  intros [H1 F1] [H2 F2]. split; [|by apply Forall_app]. by rewrite map_app, concat_app, H1, H2.
Qed.

Lemma covers_perm us l l' : l ≡ₚ l' -> covers us l -> covers us l'.
Proof. intros Hp [Hc F]. split; [|done]. by rewrite Hc. Qed.

Lemma covers_concat {A} (units : A -> list planned_unit) (items : A -> list PreparedChatItem) (l : list A) :
  (forall a, a ∈ l -> covers (units a) (items a)) -> covers (concat (map units l)) (concat (map items l)).
Proof.
  induction l as [|a l IH]; intros Hl; simpl; [by split|]. apply covers_app; [apply Hl; left|].
  apply IH. intros x Hx. apply Hl. by right.
Qed.

Lemma concat_singles {A} (l : list A) : concat (map (fun a => [a]) l) = l.
Proof. induction l as [|a l IH]; simpl; congruence. Qed.

Section of_deployment.
Context (key : string) (first : PreparedChatItem) (Hfirst : first_for all key = Some first).
Local Abbreviation settings := (settings_for (pc_primary_deployment first)).

Lemma covers_singles mode items : mode = single_mode (cs_mode settings) ->
  Forall (fun p => chat_deployment_key p = key) items -> covers (map (queue_single settings mode) items) items.
Proof.
  intros Hmode Hk. split.
  - rewrite map_map. simpl. by rewrite concat_singles.
  - apply Forall_map. eapply Forall_impl; [exact Hk|]. intros p Hp. cbn. split; [by constructor|].
    exists first. by rewrite Hp.
Qed.

Lemma covers_candidates k items :
  cs_mode settings = sync_microbatch -> resolve_chat_microbatch_executor (pc_primary_deployment first) <> None ->
  Forall (fun p => chat_deployment_key p = key) items ->
  Forall (fun p => candidate_key p = Some k) items ->
  covers (plan_candidates key settings (map with_tokens items)) items.
Proof.
  intros Hm Hex Hkey Hk. unfold plan_candidates.
  pose proof (split_spec tokens_of (map with_tokens items) settings) as Hs.
  destruct (split_chat_microbatch_candidates _ _) as [chunks fallbacks].
  destruct Hs as [Hp Hf].
  { apply Forall_map, Forall_true. intros p. by rewrite with_tokens_of. }
  rewrite map_map in Hp. simpl in Hp. rewrite map_id in Hp.
  assert (Hin : forall p, p ∈ concat chunks ++ map fst fallbacks -> chat_deployment_key p = key /\ candidate_key p = Some k).
  { intros p Hp'. rewrite Hp in Hp'. rewrite Forall_forall in Hkey, Hk. auto. }
  eapply covers_perm; [rewrite <- Hp; apply Permutation_app_comm|]. apply covers_app.
  - rewrite <- (map_map fst (queue_single settings "sync_microbatch_fallback")). apply covers_singles; [by rewrite Hm|].
    apply Forall_forall. intros p Hp'. apply Hin, elem_of_app. by right.
  - split; [by rewrite map_map; simpl; rewrite map_id|]. apply Forall_map, Forall_forall. intros c Hc.
    assert (Hel : forall p, p ∈ c -> chat_deployment_key p = key /\ candidate_key p = Some k).
    { intros p Hp'. apply Hin, elem_of_app. left. apply list_elem_of_In, in_concat. exists c.
      split; by apply list_elem_of_In. }
    rewrite Forall_forall in Hf. destruct (Hf c Hc) as (H2 & Hmax & Hcap). pose proof (settings_size _ Hm).
    cbn. split; [by apply Forall_forall; intros p Hp'; apply Hel|]. exists first. split; [done|]. split; [done|].
    split_and!; [done..|lia| | |].
    + unfold within_cap in Hcap. destruct (cs_max_total_input_tokens _); [done|done].
    + apply Forall_forall. intros p Hp'. eapply candidate_shareable. by apply Hel.
    + intros p q Hp' Hq. eapply candidates_compatible; by apply Hel.
Qed.
End of_deployment.

Lemma plan_deployment_covers key first rest : first_for all key = Some first ->
  Forall (fun p => chat_deployment_key p = key) (first :: rest) ->
  covers (plan_deployment key (first :: rest)) (first :: rest).
Proof.
  intros Hfirst. unfold plan_deployment.
  generalize (first :: rest) as items. intros items Hk.
  destruct (cs_mode _) eqn:Em; [by eapply covers_singles; [done|rewrite Em|]..|].
  destruct (resolve_chat_microbatch_executor _) eqn:Ex; [|by eapply covers_singles; [done|rewrite Em|]].
  set (eligible := fun p => match candidate_key p with Some _ => true | None => false end).
  destruct (group_by_spec candidate_key (List.filter eligible items)) as [Hp Hg].
  apply (covers_perm _ (List.filter (fun p => negb (eligible p)) items ++ List.filter eligible items)).
  { clear. induction items as [|p items IH]; [done|]. simpl. destruct (eligible p); simpl; [|by rewrite IH].
    by rewrite <- Permutation_middle, IH. }
  assert (Hsub : forall (q : PreparedChatItem -> bool) p, p ∈ List.filter q items -> p ∈ items /\ q p = true).
  { intros q p Hp'. apply list_elem_of_In, filter_In in Hp' as [? ?]. split; [by apply list_elem_of_In|done]. }
  rewrite Forall_forall in Hk. apply covers_app.
  - eapply covers_singles; [done|by rewrite Em|]. apply Forall_forall. intros p [Hp' _]%Hsub. auto.
  - eapply covers_perm; [exact Hp|]. apply covers_concat. intros [k g] Hin. unfold keyed in Hg.
    rewrite Forall_forall in Hg. destruct (Hg _ Hin) as [Hne Hgk]. simpl in *.
    assert (Hmem : forall p, p ∈ g -> p ∈ List.filter eligible items).
    { intros p Hp'. rewrite <- Hp. apply list_elem_of_In, in_concat. exists g. split; [|by apply list_elem_of_In].
      apply list_elem_of_In. by apply (list_elem_of_fmap_2 snd) in Hin. }
    destruct k as [k|].
    + eapply covers_candidates; [done|done|by rewrite Ex| |done]. apply Forall_forall. intros p Hp'%Hmem. apply Hk. by destruct (Hsub _ _ Hp').
    + destruct g as [|p g]; [done|]. inversion Hgk as [|? ? E _]. destruct (Hsub eligible p) as [_ Hel]; [apply Hmem; left|].
      unfold eligible in Hel. by rewrite E in Hel.
Qed.

End of_claim.

(** C19: the plan of a claim covers it exactly.  Every prepared chat item is in
    exactly one work unit.  A unit runs under the limit of the deployment its
    items were prepared for and with the settings of the first of the claim's
    items for that deployment.  A shared call is planned only where those
    settings ask for micro-batches and an executor is there: it holds two
    requests or more, no more than the upstream accepts, together within the
    token limit, none of them streaming, with tools, with a response format or
    with several choices, and any two of them compatible: the same deployment,
    model group, provider, API base, model, request apart from the messages,
    and failover parameters.  An item that runs alone carries the mode of those
    settings, or is marked as a fallback. *)
Theorem chat_plan_exact (prepared_items : list PreparedChatItem) :
  concat (map (fun u => unit_items u.2) (plan_work_units prepared_items)) ≡ₚ prepared_items /\
  Forall (unit_planned prepared_items) (plan_work_units prepared_items).
Proof.
  change (covers prepared_items (plan_work_units prepared_items) prepared_items).
  destruct (group_by_spec chat_deployment_key prepared_items) as [Hp Hg].
  destruct (group_by_leads chat_deployment_key prepared_items) as [_ Hlead].
  eapply covers_perm; [exact Hp|]. apply covers_concat. intros [key g] Hin. unfold keyed in Hg. rewrite Forall_forall in Hg.
  destruct (Hg _ Hin) as [Hne Hk]. destruct (Hlead _ _ Hin) as (first & Hh & Hf). destruct g as [|first' rest]; [done|].
  injection Hh as ->. by apply plan_deployment_covers.
Qed.
End planning.

(** ** The runners *)

(** [max(1, min(int(settings.max_in_flight or worker_concurrency), max(1, worker_concurrency)))] *)
Definition in_flight_limit (worker_concurrency : Z) (settings : ChatBatchingSettings) : Z :=
  let limit := match cs_max_in_flight settings with
               | Some n => if n =? 0 then worker_concurrency else n
               | None => worker_concurrency
               end in
  Z.max 1 (Z.min limit (Z.max 1 worker_concurrency)).

(** [semaphores.setdefault(deployment_key, Semaphore(...))]: the first unit of
    a deployment sets its limit. *)
Definition semaphore_limit (worker_concurrency : Z) (units : list planned_unit) (key : string) : Z :=
  match find (fun u => String.eqb u.1.1 key) units with
  | Some u => in_flight_limit worker_concurrency u.1.2
  | None => 1
  end.

Definition runner_count (worker_concurrency : Z) (units : list planned_unit) : nat :=
  Z.to_nat (Z.min (Z.max 1 worker_concurrency) (Z.of_nat (length units))).

(** [Raised]: its unit raised.  [Cancelled]: the task group cancelled it, with
    the unit it held. *)
Inductive runner : Type :=
  | Idle
  | Waiting (u : planned_unit)
  | Running (u : planned_unit)
  | Stopped
  | Raised (u : planned_unit)
  | Cancelled (held : list planned_unit).

Record pool : Type := mkPool { pl_queue : list planned_unit; pl_runners : list runner; pl_finished : list planned_unit }.

Definition held_unit (r : runner) : list planned_unit :=
  match r with Waiting u | Running u | Raised u => [u] | Cancelled held => held | Idle | Stopped => [] end.
(** A task that has ended. *)
Definition ended_runner (r : runner) : bool :=
  match r with Stopped | Raised _ | Cancelled _ => true | Idle | Waiting _ | Running _ => false end.
Definition raised (r : runner) : bool := match r with Raised _ => true | _ => false end.
Definition runs_for (key : string) (r : runner) : bool :=
  match r with Running u => String.eqb u.1.1 key | _ => false end.
Definition running (s : pool) (key : string) : Z := cnt (runs_for key) (pl_runners s).

(** The steps of [_execution_runner]: a unit is taken from the queue under its
    lock, waits for the semaphore of its deployment, runs and ends; a runner
    stops when it finds the queue empty.  A unit that raises ends its runner, and
    then the task group cancels the runners that have not ended, wherever they
    are: what is in the queue stays there. *)
Inductive pool_step (limit : string -> Z) : pool -> pool -> Prop :=
  | take_unit i u q rs f : rs !! i = Some Idle ->
      pool_step limit (mkPool (u :: q) rs f) (mkPool q (<[i := Waiting u]> rs) f)
  | stop_runner i rs f : rs !! i = Some Idle ->
      pool_step limit (mkPool [] rs f) (mkPool [] (<[i := Stopped]> rs) f)
  | enter_unit i u q rs f : rs !! i = Some (Waiting u) -> cnt (runs_for u.1.1) rs < limit u.1.1 ->
      pool_step limit (mkPool q rs f) (mkPool q (<[i := Running u]> rs) f)
  | finish_unit i u q rs f : rs !! i = Some (Running u) ->
      pool_step limit (mkPool q rs f) (mkPool q (<[i := Idle]> rs) (f ++ [u]))
  | raise_unit i u q rs f : rs !! i = Some (Running u) ->
      pool_step limit (mkPool q rs f) (mkPool q (<[i := Raised u]> rs) f)
  | cancel_runner i r q rs f : rs !! i = Some r -> ended_runner r = false -> Exists (fun r => raised r = true) rs ->
      pool_step limit (mkPool q rs f) (mkPool q (<[i := Cancelled (held_unit r)]> rs) f).

Definition start_pool (worker_concurrency : Z) (units : list planned_unit) : pool :=
  mkPool units (replicate (runner_count worker_concurrency units) Idle) [].

Section pool.
Context (units : list planned_unit) (limit : string -> Z) (Hlimit : forall k, 1 <= limit k).

Definition all_units (s : pool) : list planned_unit :=
  pl_queue s ++ concat (map held_unit (pl_runners s)) ++ pl_finished s.

Record pool_ok (s : pool) : Prop := {
  po_units : all_units s ≡ₚ units;
  po_limits : forall k, running s k <= limit k;
  po_stopped : Stopped ∈ pl_runners s -> pl_queue s = [];
  po_cancelled : forall held, Cancelled held ∈ pl_runners s -> Exists (fun r => raised r = true) (pl_runners s)
}.

Lemma held_insert rs i r r' : rs !! i = Some r ->
  held_unit r ++ concat (map held_unit (<[i := r']> rs)) ≡ₚ held_unit r' ++ concat (map held_unit rs).
Proof.
  revert i. induction rs as [|x rs IH]; intros [|i] Hi; simplify_eq/=.
  - by rewrite Permutation_app_swap_app.
  - rewrite Permutation_app_swap_app, (IH i) by done. apply Permutation_app_swap_app.
Qed.

(** A runner of the list after an update. *)
Lemma elem_of_insert (rs : list runner) i r r' : r ∈ <[i := r']> rs -> r = r' \/ r ∈ rs.
Proof.
  intros (j & Hj)%list_elem_of_lookup. destruct (decide (j = i)) as [->|Hne].
  - destruct (decide (i < length rs)%nat) as [Hlt|]; [rewrite list_lookup_insert_eq in Hj by done; left; congruence|].
    rewrite list_insert_ge in Hj by lia. right. by eapply list_elem_of_lookup_2.
  - rewrite list_lookup_insert_ne in Hj by done. right. by eapply list_elem_of_lookup_2.
Qed.

Lemma raised_insert (rs : list runner) i r r' : rs !! i = Some r -> raised r = false ->
  Exists (fun r => raised r = true) rs -> Exists (fun r => raised r = true) (<[i := r']> rs).
Proof.
  intros Hi Hr (r0 & Hin & H0)%Exists_exists. apply Exists_exists. exists r0. split; [|done].
  apply list_elem_of_lookup in Hin as [j Hj]. apply list_elem_of_lookup. exists j.
  rewrite list_lookup_insert_ne; [done|]. intros ->. congruence.
Qed.

(** A step that puts [r'] in the place of a runner that holds the same units. *)
Lemma pool_ok_insert q rs f i r r' : rs !! i = Some r -> raised r = false ->
  held_unit r ≡ₚ held_unit r' -> (forall k, runs_for k r' = true -> runs_for k r = true \/ cnt (runs_for k) rs < limit k) ->
  (r' = Stopped -> q = []) -> (forall held, r' = Cancelled held -> Exists (fun r => raised r = true) rs) ->
  pool_ok (mkPool q rs f) -> pool_ok (mkPool q (<[i := r']> rs) f).
Proof.
  intros Hi Hr Hh Hrun Hs Hc [Hu Hl Hst Hcan]. unfold all_units, running in *. cbn [pl_queue pl_runners pl_finished] in *.
  pose proof (held_insert rs i r r' Hi) as Hp. rewrite Hh in Hp. apply Permutation_app_inv_l in Hp.
  constructor; unfold all_units, running; cbn [pl_queue pl_runners pl_finished].
  - by rewrite Hp.
  - intros k. rewrite (cnt_insert _ _ _ _ _ Hi). specialize (Hl k). specialize (Hrun k).
    destruct (runs_for k r'), (runs_for k r); try lia; destruct (Hrun eq_refl); (done || lia).
  - intros [E|Hin]%elem_of_insert; [by apply Hs|by apply Hst].
  - intros held [E|Hin]%elem_of_insert; eapply (raised_insert _ _ r); [done|done|by eapply Hc|done|done|by eapply Hcan].
Qed.

Lemma pool_step_ok s s' : pool_step limit s s' -> pool_ok s -> pool_ok s'.
Proof.
  destruct 1 as [i u q rs f Hi|i rs f Hi|i u q rs f Hi Hlt|i u q rs f Hi|i u q rs f Hi|i r q rs f Hi Hr Hex]; intros Hok.
  - destruct Hok as [Hu Hl Hst Hcan]. unfold all_units, running in *. cbn [pl_queue pl_runners pl_finished] in *.
    pose proof (held_insert rs i _ (Waiting u) Hi) as H2. cbn [held_unit app] in H2.
    constructor; unfold all_units, running; cbn [pl_queue pl_runners pl_finished].
    + rewrite <- Hu, H2. symmetry. apply Permutation_middle.
    + intros k. rewrite (cnt_insert _ _ _ _ _ Hi). cbn [runs_for]. specialize (Hl k). lia.
    + intros [E|Hin]%elem_of_insert; [done|]. by specialize (Hst Hin).
    + intros held [E|Hin]%elem_of_insert; [done|]. eapply raised_insert; [done|done|by eapply Hcan].
  - by eapply pool_ok_insert; [done..| | | |].
  - eapply pool_ok_insert; [done..| |done|done|done]. intros k. cbn. intros <-%String.eqb_eq. by right.
  - destruct Hok as [Hu Hl Hst Hcan]. unfold all_units, running in *. cbn [pl_queue pl_runners pl_finished] in *.
    pose proof (held_insert rs i _ Idle Hi) as H0. cbn [held_unit app] in H0.
    constructor; unfold all_units, running; cbn [pl_queue pl_runners pl_finished].
    + rewrite <- Hu, <- H0. apply Permutation_app_head. rewrite (Permutation_app_comm f [u]). cbn [app].
      symmetry. apply Permutation_middle.
    + intros k. rewrite (cnt_insert _ _ _ _ _ Hi). cbn [runs_for]. specialize (Hl k). destruct (String.eqb _ _); lia.
    + intros [E|Hin]%elem_of_insert; [done|by apply Hst].
    + intros held [E|Hin]%elem_of_insert; [done|]. eapply raised_insert; [done|done|by eapply Hcan].
  - by eapply pool_ok_insert; [done..| | | |].
  - eapply pool_ok_insert; [done|by destruct r|done|done|done|done|done].
Qed.

(** A runner that has not ended can step, or waits for one that can. *)
Lemma pool_progress s : Forall (fun r => ended_runner r = true) (pl_runners s) \/ exists s', pool_step limit s s'.
Proof.
  set (live := fun r => negb (ended_runner r)).
  destruct (existsb live (pl_runners s)) eqn:He.
  2:{ left. apply Forall_forall. intros r Hr. destruct (ended_runner r) eqn:El; [done|].
      rewrite <- not_true_iff_false in He. exfalso. apply He, existsb_exists. exists r. split; [by apply list_elem_of_In|].
      unfold live. by rewrite El. }
  right. apply existsb_exists in He as (r & Hr%list_elem_of_In & Hns). apply list_elem_of_lookup in Hr as [i Hi].
  destruct s as [q rs f]. cbn in *. destruct r as [|u|u| | |]; [| | |done..].
  - destruct q as [|u q]; eexists; [by apply (stop_runner _ i)|by apply (take_unit _ i)].
  - destruct (Z.ltb_spec (cnt (runs_for u.1.1) rs) (limit u.1.1)) as [Hlt|Hge]; [eexists; by apply (enter_unit _ i u)|].
    assert (Hex : exists r, r ∈ rs /\ runs_for u.1.1 r = true).
    { destruct (existsb (runs_for u.1.1) rs) eqn:E.
      - apply existsb_exists in E as (r & Hr & Hk). exists r. split; [by apply list_elem_of_In|done].
      - rewrite cnt_zero in Hge; [specialize (Hlimit u.1.1); lia|]. intros r Hr.
        destruct (runs_for u.1.1 r) eqn:Ek; [|done]. rewrite <- E. symmetry. apply existsb_exists. exists r.
        split; [by apply list_elem_of_In|done]. }
    destruct Hex as (r & Hr & Hk). destruct r as [| |u'| | |]; try done. apply list_elem_of_lookup in Hr as [j Hj].
    eexists. by apply (finish_unit _ j u').
  - eexists. by apply (finish_unit _ i u).
Qed.

(** Every step uses up one unit of this measure. *)
Definition runner_work (r : runner) : nat :=
  match r with Idle => 1 | Waiting _ => 3 | Running _ => 2 | Stopped | Raised _ | Cancelled _ => 0 end.
Definition pool_work (s : pool) : nat := 3 * length (pl_queue s) + sum_list_with runner_work (pl_runners s).

Lemma work_insert rs i r r' : rs !! i = Some r ->
  (sum_list_with runner_work (<[i := r']> rs) + runner_work r = sum_list_with runner_work rs + runner_work r')%nat.
Proof.
  revert i. induction rs as [|x rs IH]; intros [|i] Hi; simplify_eq/=; [lia|]. specialize (IH i Hi). lia.
Qed.

Lemma pool_step_work s s' : pool_step limit s s' -> (pool_work s' < pool_work s)%nat.
Proof.
  unfold pool_work. intros [i u q rs f Hi|i rs f Hi|i u q rs f Hi _|i u q rs f Hi|i u q rs f Hi|i r q rs f Hi Hr _];
    cbn [pl_queue pl_runners length].
  - pose proof (work_insert rs i _ (Waiting u) Hi). cbn in *. lia.
  - pose proof (work_insert rs i _ Stopped Hi). cbn in *. lia.
  - pose proof (work_insert rs i _ (Running u) Hi). cbn in *. lia.
  - pose proof (work_insert rs i _ Idle Hi). cbn in *. lia.
  - pose proof (work_insert rs i _ (Raised u) Hi). cbn in *. lia.
  - pose proof (work_insert rs i _ (Cancelled (held_unit r)) Hi). destruct r; cbn in *; (lia || done).
Qed.

Lemma pool_steps_work n s s' : nsteps (pool_step limit) n s s' -> (n + pool_work s' <= pool_work s)%nat.
Proof. induction 1 as [|n s s1 s' Hs%pool_step_work _ IH]; lia. Qed.
End pool.

Lemma semaphore_limit_pos wc units k : 1 <= semaphore_limit wc units k.
Proof. unfold semaphore_limit, in_flight_limit. destruct (find _ _); lia. Qed.

Lemma start_pool_ok wc units : pool_ok units (semaphore_limit wc units) (start_pool wc units).
Proof.
  constructor; unfold all_units, running, start_pool; cbn [pl_queue pl_runners pl_finished].
  - rewrite app_nil_r. assert (Hc : concat (map held_unit (replicate (runner_count wc units) Idle)) = []).
    { generalize (runner_count wc units). intros n. by induction n. }
    by rewrite Hc, app_nil_r.
  - intros k. rewrite cnt_zero; [pose proof (semaphore_limit_pos wc units k); lia|].
    intros r [-> _]%elem_of_replicate. done.
  - by intros [? _]%elem_of_replicate.
  - by intros held [? _]%elem_of_replicate.
Qed.

(** C25: the runners run every planned unit once, within the limits, as long as
    no unit raises.  However the runners of a claim interleave, and whatever
    unit raises: no more units of a deployment run at a time than its limit
    allows; every unit is in the queue, with one runner, or finished, and in
    one of them only; the pool is never stuck, and all runners have ended after
    a bounded number of steps.  When they have ended and none has raised, every
    unit has been run; when one has raised, the task group has ended with it,
    and the units that were queued or held then are not run. *)
Theorem pool_runs_every_unit (worker_concurrency : Z) (units : list planned_unit) n s :
  nsteps (pool_step (semaphore_limit worker_concurrency units)) n (start_pool worker_concurrency units) s ->
  (forall key, running s key <= semaphore_limit worker_concurrency units key) /\
  pl_queue s ++ concat (map held_unit (pl_runners s)) ++ pl_finished s ≡ₚ units /\
  (n <= 3 * length units + runner_count worker_concurrency units)%nat /\
  (Forall (fun r => ended_runner r = true) (pl_runners s) \/
   exists s', pool_step (semaphore_limit worker_concurrency units) s s') /\
  (Forall (fun r => ended_runner r = true) (pl_runners s) ->
   pl_finished s ≡ₚ units \/ exists u, Raised u ∈ pl_runners s).
Proof.
  intros Hn. pose proof (pool_steps_work _ _ _ _ Hn) as Hw. set (limit := semaphore_limit _ _) in *.
  assert (Hruns : length (pl_runners s) = runner_count worker_concurrency units).
  { assert (Hlen : length (pl_runners (start_pool worker_concurrency units)) = length (pl_runners s)).
    { clear Hw. induction Hn as [|n s0 s1 s' Hs _ IH]; [done|]. rewrite <- IH. destruct Hs; cbn; by rewrite length_insert. }
    rewrite <- Hlen. cbn. apply length_replicate. }
  assert (Hok : pool_ok units limit s).
  { pose proof (start_pool_ok worker_concurrency units) as H0. fold limit in H0. clear Hw Hruns. revert H0.
    induction Hn as [|n s0 s1 s' Hs _ IH]; [done|]. intros H0. apply IH. by eapply pool_step_ok. }
  pose proof Hok as [Hu Hl Hst Hcan]. split_and!; [done|done| | |].
  - unfold pool_work in Hw. cbn in Hw.
    assert (Hr : sum_list_with runner_work (replicate (runner_count worker_concurrency units) Idle)
                 = runner_count worker_concurrency units).
    { clear. induction (runner_count worker_concurrency units) as [|k IH]; cbn; [done|]. by rewrite IH. }
    rewrite Hr in Hw. lia.
  - apply pool_progress. intros k. apply semaphore_limit_pos.
  - intros Hall. rewrite Forall_forall in Hall. unfold all_units in Hu.
    destruct (decide (Exists (fun r => raised r = true) (pl_runners s))) as [(r & Hin & Hr)%Exists_exists|Hno].
    { right. destruct r as [| | | |u|]; try done. by exists u. }
    left. assert (Hstopped : forall r, r ∈ pl_runners s -> r = Stopped).
    { intros r Hr. specialize (Hall r Hr). destruct r as [| | | |u|held]; try done; exfalso; apply Hno.
      - apply Exists_exists. by exists (Raised u).
      - by eapply Hcan. }
    assert (Hheld : concat (map held_unit (pl_runners s)) = []).
    { clear -Hstopped. induction (pl_runners s) as [|r rs IH]; [done|]. cbn. rewrite (Hstopped r ltac:(left)).
      apply IH. intros r' Hr'. apply Hstopped. by right. }
    rewrite Hheld in Hu. destruct (pl_runners s) as [|r rs] eqn:Er.
    + cbn in Hruns. unfold runner_count in Hruns. destruct units as [|u us]; [|cbn [length] in Hruns; lia].
      apply Permutation_nil_r in Hu. apply app_eq_nil in Hu as [_ Hf]. cbn in Hf. by rewrite Hf.
    + rewrite Hst in Hu; [exact Hu|]. rewrite <- (Hstopped r ltac:(left)). left.
Qed.

(** *** Examples *)

#[local] Existing Instance no_repr.

Definition sample_item (id : string) : Item.batch_item :=
  Item.mkItem id "batch" 1 id BatchItemStatus.IN_PROGRESS (PyDict []) None None None 0 0 1 1 None (Some "w"%string) (Some 0)
    None None 1 None None 0 (Some 0) None.

Definition sample_deployment : Deployment :=
  mkDeployment "d" "m" [("model", PyStr "openai/gpt"); ("chat_batching", PyDict [])]%string [] 1 0 [] Fl.zero Fl.zero
    None None None None None None.

Definition sample_prepared (id content : string) : PreparedChatItem :=
  mkPrepared (sample_item id) (mkChat "m" [mkMessage "user" (PyStr content)] (Some false) None None (Some 1) (PyDict []))
    "m" "m" sample_deployment [] (Some (plain_auth "k" None None None)).

Definition sample_config (v : pyval) : option ChatBatchingConfig :=
  Some (mkBatchingConfig sync_microbatch (Some 1) (Some 2) (Some 10) true).

Definition sample_plan : list planned_unit :=
  plan_work_units (fun _ => ""%string) (fun _ => PyNone) (fun _ => ""%string) sample_config (Some tt) (fun _ => None)
    [sample_prepared "1" "hello"; sample_prepared "2" "there"; sample_prepared "3" "!"].

(** Two of three compatible requests share a call; the third is left alone. *)
Example sample_plan_units :
  map (fun u => map pc_item_id (unit_items u.2)) sample_plan = [["3"]; ["1"; "2"]]%string.
Proof. vm_compute. reflexivity. Qed.

Lemma pool_runs_every_unit_witness :
  exists s, nsteps (pool_step (semaphore_limit 1 sample_plan)) 7 (start_pool 1 sample_plan) s /\
    pl_finished s ≡ₚ sample_plan.
Proof.
  assert (Hsteps : exists s, nsteps (pool_step (semaphore_limit 1 sample_plan)) 7 (start_pool 1 sample_plan) s /\
    Forall (fun r => ended_runner r = true) (pl_runners s) /\ Forall (fun r => raised r = false) (pl_runners s)).
  { assert (Hs : start_pool 1 sample_plan = mkPool sample_plan [Idle] []) by (vm_compute; reflexivity).
    destruct sample_plan as [|u1 [|u2 [|]]] eqn:Ep; try (vm_compute in Ep; discriminate Ep). rewrite Hs.
    eexists. split.
    - eapply nsteps_l; [by apply (take_unit _ 0%nat)|]. eapply nsteps_l; [apply (enter_unit _ 0%nat u1); [done|apply (Z.lt_le_trans _ 1); [reflexivity|apply semaphore_limit_pos]]|].
      eapply nsteps_l; [by apply (finish_unit _ 0%nat u1)|]. eapply nsteps_l; [by apply (take_unit _ 0%nat)|].
      eapply nsteps_l; [apply (enter_unit _ 0%nat u2); [done|apply (Z.lt_le_trans _ 1); [reflexivity|apply semaphore_limit_pos]]|].
      eapply nsteps_l; [by apply (finish_unit _ 0%nat u2)|]. eapply nsteps_l; [by apply (stop_runner _ 0%nat)|]. constructor.
    - split; repeat constructor. }
  destruct Hsteps as (s & Hn & Hstop & Hno). exists s. split; [exact Hn|].
  destruct (proj2 (proj2 (proj2 (proj2 (pool_runs_every_unit 1 sample_plan 7 s Hn)))) Hstop) as [H|[u Hu]]; [exact H|].
  rewrite Forall_forall in Hno. specialize (Hno _ Hu). discriminate Hno.
Defined.
