(* ===== verification/ChatExecution.v ===== *)
(** * Executing chat items: src/batch/chat_worker_execution.py

    What a work unit of the plan does: an item alone
    ([_execute_prepared_chat_item]), or a micro-batch
    ([_execute_prepared_chat_microbatch_chunk]) with its fallback to single
    calls, its release for a retry and the handling of its results.  The policy
    leases are those of src/batch/worker_persistence.py and
    src/batch/policy.py.

    The upstream calls, the clocks, the faults of the database and the moments
    at which a heartbeat reports a lost lease are inputs ([exec_env]).  The
    heartbeat tasks themselves, the metrics and the passive-health hooks, which
    swallow their errors, are left out; single calls that a fallback starts
    together run one after the other. *)

From S2P Require Import Prelude PyVal Errors ErrorPolicy LimitCounter Auth RateLimitPolicy Billing RouterState Backend.
From S2P Require Import Strategies Router Backpressure BatchModels BatchDb Scheduling BatchItems BatchOutbox BatchBilling.
From S2P Require Import BatchJobs WorkerFailure ChatBatching ChatPlan.
Import BatchRetry.

Definition CHAT_MICROBATCH_UNSUPPORTED_CODE : string := "chat_microbatch_unsupported".
(** ** The inputs of an execution *)

(** What the world answers, by the id of the item it concerns; for a shared
    call, of its first item. *)
Record exec_env : Type := mkEnv {
  en_acquire : string -> Z;                            (* the clock at the rate-limit check *)
  en_failure : string -> failure_clock;                (* the clocks of a failure report *)
  en_lost_in_call : string -> bool;                    (* lease lost before the upstream call ends *)
  en_lost_at_result : string -> bool;                  (* lost when its result is looked at *)
  en_lost_at_end : string -> bool;                     (* lost before its last renewal *)
  en_renew : string -> Z * fault;
  en_persist : string -> attempt_env * attempt_env;
  en_release : string -> Z * fault;
  en_answer : string -> res exn (pydict * Deployment); (* [execute_with_failover] on one request *)
  (* the deployments it tries for a shared call, with what their executors
     answer, and what it concludes of the outcomes *)
  en_tried : string -> list (Deployment * res exn raw_results);
  en_conclude : string -> list (Deployment * res exn raw_results) -> res exn (raw_results * Deployment);
  en_now : string -> Z;
  en_refresh : string -> Z
}.

(** ** Upstream capability *)

Definition is_chat_microbatch_unsupported_error (e : exn) : bool :=
  match e with
  | EProxy p => bool_decide (pe_code p = Some CHAT_MICROBATCH_UNSUPPORTED_CODE)
  | _ => false
  end.

Definition chat_microbatch_unsupported_error (d : Deployment) (reason : string) : exn :=
  let id := if Str.is_empty (deployment_id d) then "unknown"%string else deployment_id d in
  EProxy (mk_proxy ServiceUnavailableError
            (Some ("Deployment '" +:+ id +:+ "' does not support sync chat microbatch: " +:+ reason))
            (Some reason) (Some CHAT_MICROBATCH_UNSUPPORTED_CODE) (Some false) None).

(** ** Retry metadata of a failed micro-batch *)

Definition chat_microbatch_metadata (error_body : option pyval) : pydict :=
  match error_body with
  | Some (PyDict d) => match vget d "microbatch" with PyDict m => m | _ => [] end
  | _ => []
  end.

(** [max(lo, int(metadata.get(key) or fallback))], the fallback when [int]
    rejects it; [OverflowError] is not caught. *)
Definition metadata_count (error_body : option pyval) (key : string) (lo fallback : Z) : res pyexc Z :=
  match py_int (py_or (vget (chat_microbatch_metadata error_body) key) (PyInt fallback)) with
  | Ret n => Ret (Z.max lo n)
  | Raise OverflowError => Raise OverflowError
  | Raise _ => Ret (Z.max lo fallback)
  end.
Definition chat_microbatch_retry_count (error_body : option pyval) : res pyexc Z :=
  metadata_count error_body "retry_count" 0 0.
Definition chat_microbatch_original_size (error_body : option pyval) (fallback : Z) : res pyexc Z :=
  metadata_count error_body "original_size" 1 fallback.

Definition chat_microbatch_retry_fits_job_deadline (now : Z) (job : Job.batch_job) (retry_delay_seconds : Z) : bool :=
  match Job.expires_at job with
  | None => true
  | Some t => after_seconds now retry_delay_seconds <? t
  end.

(** The largest of the counts of the items. *)
Fixpoint max_count (counts : list (res pyexc Z)) (best : Z) : res pyexc Z :=
  match counts with
  | [] => Ret best
  | c :: counts' => n ← c; max_count counts' (Z.max best n)
  end.

Section execution.
Context {S R : Type} `{RedisExec S} `{RedisServer R} `{PyRepr}.
(** As in the failure handling, the planning and the billing. *)
Context (digest : string -> string) (dumps_deferral : string -> Z -> Z -> string) (parsedate : string -> option Z).
Context (class_name : exn -> string) (dumps : pyval -> string) (dump_request : ChatCompletionRequest -> string).
Context (read_config : pyval -> option ChatBatchingConfig).
Context {X : Type} (explicit_executor : option X) (adapter_executor : Deployment -> option X).
(** The decimal the database keeps of a cost. *)
Context (decimal : pyfloat -> Q).
Context (cfg : BatchWorkerConfig) (draw : Z -> Z -> Z) (microbatch_retry_enabled : bool).
(** The model group a model name resolves to, when it does. *)
Context (resolve_group : string -> option string).
Context (env : exec_env) (job : Job.batch_job) (execution_mode : string).

(** The database and coordinator; the limiter of the application, if it has
    one; the policy leases the prepared items hold, by item; the items whose
    work was dropped with a warning that a lease was lost. *)
Record exec_state : Type := mkExec {
  ex_world : @world S;
  ex_limiter : option (counter R);
  ex_leases : gmap string RateLimitLease;
  ex_dropped : list string
}.
Local Abbreviation op := (st exec_state exn).

Definition on_world {A} (m : st (@world S) exn A) : op A := fun s =>
  let '(w, r) := m (ex_world s) in (mkExec w (ex_limiter s) (ex_leases s) (ex_dropped s), r).
Definition on_store {A} (m : st db exn A) : op A := on_world (on_db m).

(** The warnings that the work on these items is dropped after a lease loss. *)
Definition drop_items (ps : list PreparedChatItem) : op unit := fun s =>
  (mkExec (ex_world s) (ex_limiter s) (ex_leases s) (ex_dropped s ++ map pc_item_id ps), Ret tt).

(** ** Policy leases *)

Definition acquire_prepared_policy_lease (p : PreparedChatItem) : op unit := fun s =>
  let id := pc_item_id p in
  match ex_leases s !! id, pc_policy_auth p, ex_limiter s with
  | Some _, _, _ | _, None, _ | _, _, None => (s, Ret tt)
  | None, Some auth, Some limiter =>
    match acquire_rate_limit_controls (en_acquire env id) auth (estimate_tokens (JsonPayload (dump_request (pc_payload p))))
            (Some (cr_model (pc_payload p))) limiter with
    | (limiter', Ret (lease, _)) => (mkExec (ex_world s) (Some limiter') (<[id := lease]> (ex_leases s)) (ex_dropped s), Ret tt)
    | (limiter', Raise e) => (mkExec (ex_world s) (Some limiter') (ex_leases s) (ex_dropped s), Raise e)
    end
  end.

(** The item forgets its lease first; errors of the limiter are swallowed. *)
Definition release_prepared_policy_lease (p : PreparedChatItem) : op unit := fun s =>
  let id := pc_item_id p in
  let leases := delete id (ex_leases s) in
  match ex_leases s !! id, ex_limiter s with
  | Some lease, Some limiter =>
    (mkExec (ex_world s) (Some (fst (release_rate_limit_controls lease limiter))) leases (ex_dropped s), Ret tt)
  | _, _ => (mkExec (ex_world s) (ex_limiter s) leases (ex_dropped s), Ret tt)
  end.

Definition release_prepared_policy_leases (ps : list PreparedChatItem) : op unit :=
  for_each ps release_prepared_policy_lease.

(** ** Failures *)

(** [_mark_item_failed] *)
Definition fail_item (p : PreparedChatItem) (exc : exn) : op unit :=
  on_world (handle_failure digest dumps_deferral parsedate class_name cfg draw (en_failure env (pc_item_id p))
              (Job.batch_id job) (pc_item p) (resolve_group (pc_model_name p)) exc).

(** ** Completions *)

Definition deployment_pricing (d : Deployment) : option ModelPricing :=
  let i := dep_input_cost_per_token d in
  let o := dep_output_cost_per_token d in
  if negb (Fl.eqb i Fl.zero) || negb (Fl.eqb o Fl.zero) then Some (mkPricing i o None None Fl.zero 8192 None) else None.

Definition text_param (v : pyval) : option string := match v with PyStr s => Some s | _ => None end.

(** [_build_chat_completion_persistence_row] *)
Definition build_chat_completion_persistence_row (p : PreparedChatItem) (response_body usage : pydict)
    (served : Deployment) : res exn item_completion :=
  let params := deltallm_params served in
  let cost tier := completion_cost (cr_model (pc_payload p)) usage false None (deployment_pricing served) tier
                     (model_info served) in
  let model := py_str (py_or (vget params "model") (PyStr "")) in
  billed ← lift_exn (cost true);
  provider ← lift_exn (cost false);
  Ret (completion_row (en_now env (pc_item_id p)) job (pc_item_id p) (Item.claim_epoch (pc_item p))
         (cr_model (pc_payload p)) execution_mode (dict_set response_body "usage" (PyDict usage)) usage
         (decimal provider) (decimal billed) (resolve_provider params) (text_param (vget params "api_base"))
         (if Str.is_empty model then None else Some model)).

(** Whether the worker still holds the item when its completion is due. *)
Definition still_held (p : PreparedChatItem) : op bool :=
  if en_lost_at_end env (pc_item_id p) then mret false
  else let '(now, f) := en_renew env (pc_item_id p) in
       on_store (renew_item_lease_once now cfg f (pc_item_id p) (Some (Item.claim_epoch (pc_item p)))).

Definition persist (id : string) (rows : list item_completion) : op bool :=
  let '(first, second) := en_persist env id in
  let '(now, f) := en_release env id in
  on_store (persist_completion_rows_with_outbox cfg first second now f rows).

(** ** _execute_prepared_chat_item *)

(** [dict(response_body.get("usage") or {})] *)
Definition body_usage (response_body : pydict) : res exn pydict :=
  let v := vget response_body "usage" in
  if truthy v then lift_exn (as_dict v) else Ret [].

(** The [try] body: a lost lease ends it with a warning. *)
Definition call_and_persist (p : PreparedChatItem) : op unit :=
  let id := pc_item_id p in
  if en_lost_in_call env id then drop_items [p]
  else
    answer ← lift (en_answer env id);
    let '(response_body, served) := answer in
    usage ← lift (body_usage response_body);
    held ← still_held p;
    if negb (held : bool) then drop_items [p]
    else
      row ← lift (build_chat_completion_persistence_row p response_body usage served);
      _ ← persist id [row];
      mret tt.

Definition execute_prepared_chat_item (p : PreparedChatItem) : op unit := fun s =>
  match acquire_prepared_policy_lease p s with
  | (s', Raise exc) => fail_item p exc s'
  | (s', Ret _) => try_finally (try_except (call_and_persist p) (fail_item p)) (release_prepared_policy_lease p) s'
  end.

(** ** _execute_prepared_chat_microbatch_chunk *)

(** [_acquire_chat_policy_leases_for_chunk]: an item the limiter rejects has
    failed and leaves the chunk. *)
Fixpoint acquire_chat_policy_leases_for_chunk (ps : list PreparedChatItem) : op (list PreparedChatItem) :=
  match ps with
  | [] => mret []
  | p :: ps' => fun s =>
    match acquire_prepared_policy_lease p s with
    | (s', Ret _) => (allowed ← acquire_chat_policy_leases_for_chunk ps'; mret (p :: allowed)) s'
    | (s', Raise exc) => (_ ← fail_item p exc; acquire_chat_policy_leases_for_chunk ps') s'
    end
  end.

(** [_resolve_chat_microbatch_capable_executor], as the reason it refuses for. *)
Definition capability_refusal (d : Deployment) (chunk_size input_tokens : Z) : option string :=
  let settings := settings_for read_config d in
  if negb (bool_decide (cs_mode settings = sync_microbatch)) then Some ("mode=" +:+ mode_value (cs_mode settings))
  else if cs_upstream_max_batch_size settings <? chunk_size then Some "upstream_max_batch_size"%string
  else if match cs_max_total_input_tokens settings with Some cap => cap <? input_tokens | None => false end
  then Some "max_total_input_tokens"%string
  else match resolve_chat_microbatch_executor explicit_executor adapter_executor d with
       | None => Some "executor_unavailable"%string
       | Some _ => None
       end.

(** [_execute_for_deployment] on each deployment tried; [executor] is what the
    deployment's executor answers.  With it, the last failure that speaks for a
    retry of the shared call. *)
Definition execute_for_deployment (ps : list PreparedChatItem) (d : Deployment) (executor : res exn raw_results)
    : res exn raw_results :=
  match capability_refusal d (Z.of_nat (length ps)) (zsum (map (tokens_of dumps) ps)) with
  | Some reason => Raise (chat_microbatch_unsupported_error d reason)
  | None => executor
  end.

Definition retry_evidence (now : Z) (outcomes : list (Deployment * res exn raw_results)) : option exn :=
  foldl (fun last o =>
    match o.2 with
    | Raise exc =>
      if negb (is_chat_microbatch_unsupported_error exc) && retryable (classify_batch_retry parsedate now exc)
         && HealthPolicy.affects_deployment_health exc
      then Some exc else last
    | Ret _ => last
    end) None outcomes.

(** [_release_failed_chat_microbatch_for_retry]: whether the items wait for a
    new attempt. *)
Definition retry_error_payload (exc : exn) (d : decision) (delay retry_count original_size failed_size : Z) : pyval :=
  PyDict [("message", PyStr (exn_str exc)); ("type", PyStr (class_name exc)); ("retryable", PyBool true);
          ("retry_category", PyStr (category_value (cat d))); ("retry_delay_seconds", PyInt delay);
          ("microbatch", PyDict [("retry_count", PyInt retry_count); ("original_size", PyInt original_size);
                                 ("failed_size", PyInt failed_size)])].

Definition retry_release (first : PreparedChatItem) (ps : list PreparedChatItem) (exc : exn) (d : decision) (delay : Z)
    : op bool :=
  let id := pc_item_id first in
  let size := Z.of_nat (length ps) in
  let bodies := map (fun p => Item.error_body (pc_item p)) ps in
  retry_count ← lift_py (max_count (map chat_microbatch_retry_count bodies) 0);
  original_size ← lift_py (max_count (map (fun b => chat_microbatch_original_size b size) bodies) 0);
  let ids := map pc_item_id ps in
  let '(now, f) := en_release env id in
  released ← on_store (try_except
    (l ← with_fault f (release_items_for_retry now ids (wk_worker_id cfg) delay
            (Some (retry_error_payload exc d delay (retry_count + 1) original_size size)) (Some (exn_str exc))
            (Some (list_to_map (rev (map (fun p => (pc_item_id p, Item.claim_epoch (pc_item p))) ps)) : gmap string Z)));
     mret (Some l)) (fun _ => mret None));
  match (released : option (list string)) with
  | None | Some [] => mret false
  | Some _ => _ ← on_store (refresh_job_progress (en_refresh env id) (Job.batch_id job)); mret true
  end.

Definition release_failed_chat_microbatch_for_retry (first : PreparedChatItem) (ps : list PreparedChatItem) (exc : exn)
    (d : decision) : op bool :=
  let now := en_now env (pc_item_id first) in
  if negb (retryable d) || negb microbatch_retry_enabled then mret false
  else
    retry_delay ← lift_py (retry_delay_seconds cfg draw (foldr Z.max (Item.attempts (pc_item first))
                             (map (fun p => Item.attempts (pc_item p)) ps)) d);
    _ ← on_world (on_coordinator (maybe_defer_model_group_for_retry digest dumps_deferral now
                                    (Some (pc_model_group first)) exc d retry_delay));
    if negb (chat_microbatch_retry_fits_job_deadline now job retry_delay) then mret false
    else if negb (forallb (fun p => can_retry_item cfg (pc_item p) d) ps) then mret false
    else retry_release first ps exc d retry_delay.

(** The [except Exception] block around the shared call. *)
Definition fail_chunk (first : PreparedChatItem) (ps : list PreparedChatItem) (exc : exn) : op unit :=
  let d := classify_batch_retry parsedate (en_now env (pc_item_id first)) exc in
  requeued ← release_failed_chat_microbatch_for_retry first ps exc d;
  _ ← (if (requeued : bool) then mret tt else for_each ps (fun p => fail_item p exc));
  release_prepared_policy_leases ps.

Definition chunk_failed (first : PreparedChatItem) (ps : list PreparedChatItem) (evidence : option exn) (exc : exn)
    : op unit :=
  if is_chat_microbatch_unsupported_error exc
  then match evidence with
       | None => for_each ps execute_prepared_chat_item
       | Some exc' => fail_chunk first ps exc'
       end
  else fail_chunk first ps exc.

(** The loop over the results; [None]: a lost lease ended it. *)
Fixpoint collect_results (ps : list PreparedChatItem) (served : Deployment) (rows : list NormalizedChatMicrobatchResult)
    : op (option (list (PreparedChatItem * item_completion))) :=
  match rows with
  | [] => mret (Some [])
  | row :: rows' =>
    match ps !! Z.to_nat (nr_index row) with
    | None => raise index_error
    | Some p =>
      if en_lost_at_result env (pc_item_id p) then mret None
      else match nr_error row, nr_response_body row, nr_usage row with
           | None, Some body, Some usage =>
             completion ← lift (build_chat_completion_persistence_row p body usage served);
             more ← collect_results ps served rows';
             mret ((fun l => (p, completion) :: l) <$> (more : option _))
           | Some exc, _, _ => _ ← fail_item p exc; collect_results ps served rows'
           | None, _, _ =>
             _ ← fail_item p (EResponseShape "chat microbatch result is missing response body or per-item usage");
             collect_results ps served rows'
           end
    end
  end.

(** The renewals before persistence; false: a lease was lost. *)
Fixpoint renew_all (ps : list PreparedChatItem) : op bool :=
  match ps with
  | [] => mret true
  | p :: ps' => held ← still_held p; if (held : bool) then renew_all ps' else mret false
  end.

Definition chunk_answered (first : PreparedChatItem) (ps : list PreparedChatItem) (served : Deployment)
    (rows : list NormalizedChatMicrobatchResult) : op unit :=
  collected ← collect_results ps served rows;
  match (collected : option (list (PreparedChatItem * item_completion))) with
  | None => drop_items ps
  | Some success =>
    held ← renew_all (map fst success);
    if negb (held : bool) then drop_items (map fst success)
    else try_finally
           (match success with
            | [] => mret tt
            | _ => _ ← persist (pc_item_id first) (map snd success); mret tt
            end)
           (release_prepared_policy_leases ps)
  end.

Definition call_chunk (first : PreparedChatItem) (ps : list PreparedChatItem) : op unit :=
  let id := pc_item_id first in
  if en_lost_in_call env id then drop_items ps
  else
    let outcomes := map (fun t => (t.1, execute_for_deployment ps t.1 t.2)) (en_tried env id) in
    match (answer ← en_conclude env id outcomes;
           rows ← normalize_chat_microbatch_results answer.1 (Z.of_nat (length ps))
                    (map (fun p => Item.custom_id (pc_item p)) ps);
           Ret (answer.2, rows)) with
    | Ret (served, rows) => chunk_answered first ps served rows
    | Raise exc => chunk_failed first ps (retry_evidence (en_now env id) outcomes) exc
    end.

Definition execute_prepared_chat_microbatch_chunk (ps : list PreparedChatItem) : op unit :=
  allowed ← acquire_chat_policy_leases_for_chunk ps;
  match (allowed : list PreparedChatItem) with
  | [] => mret tt
  | [p] => execute_prepared_chat_item p
  | first :: _ => call_chunk first allowed
  end.

(** ** The units of a plan *)

Definition run_unit (u : work_unit) : op unit :=
  match u with
  | Single p _ => execute_prepared_chat_item p
  | Chunk ps => execute_prepared_chat_microbatch_chunk ps
  end.
End execution.
Arguments mkExec {S R} ex_world ex_limiter ex_leases ex_dropped.
Arguments ex_world {S R} e.
Arguments ex_limiter {S R} e.
Arguments ex_leases {S R} e.
Arguments ex_dropped {S R} e.
