(* ===== verification/ChatLife.v ===== *)
(** * What executing chat items guarantees

    Theorems on [ChatExecution]: a completed item holds the answer to its own
    request and the bill of that answer; the parallel slots taken for the items
    of a unit are given back, but for a lost lease. *)

From S2P Require Import Prelude PyVal Errors ErrorPolicy LimitCounter Auth RateLimitPolicy Billing RouterState Backend.
From S2P Require Import Strategies Router Backpressure BatchModels BatchDb Scheduling BatchItems BatchOutbox BatchBilling.
From S2P Require Import BatchJobs WorkerFailure ChatBatching ChatPlan ChatExecution.
Import BatchRetry.

(** ** Completions of the table and the outbox *)

Section completions.
(** The completions an execution may record, and where it starts. *)
Context (good : item_completion -> Prop) (s0 : db) (U0 : unique_keys (items s0)).

Definition holds_completion (r : Item.batch_item) (c : item_completion) : Prop :=
  Item.item_id r = icp_item_id c /\
  Item.response_body r = Some (cm_response_body (icp_completion c)) /\
  Item.usage r = Some (default (PyDict []) (cm_usage (icp_completion c))) /\
  Item.billed_cost r = cm_billed_cost (icp_completion c).

(** Whatever is new among the completed items and in the outbox comes from an
    allowed completion. *)
Record only_good (s : db) : Prop := {
  og_steps : rtc items_step s0 s;
  og_items : forall r, r ∈ items s -> Item.status r = BatchItemStatus.COMPLETED ->
    r ∈ items s0 \/ exists c, good c /\ holds_completion r c;
  og_outbox : forall o, o ∈ outbox s ->
    o ∈ outbox s0 \/ exists c, good c /\ Outbox.item_id o = icp_item_id c /\ Outbox.payload_json o = icp_outbox_payload c
}.

Lemma only_good_start : only_good s0.
Proof. split; [done|by left|by left]. Qed.

Lemma only_good_unique s : only_good s -> unique_keys (items s).
Proof. intros [Hs _ _]. by eapply items_steps_unique. Qed.

(** An update of items that completes none. *)
Lemma only_good_update s s' p f : only_good s -> items_step s s' -> outbox s' = outbox s ->
  items s' = update_where p f (items s) ->
  (forall r, p r = true -> Item.status (f r) <> BatchItemStatus.COMPLETED) -> only_good s'.
Proof.
  intros [Hs Hi Ho] Hstep Eo Ei Hf. split; [by eapply rtc_r| |by rewrite Eo].
  intros r Hr Hst. rewrite Ei in Hr. apply list_elem_of_fmap in Hr as (r0 & -> & Hr0).
  destruct (p r0) eqn:Ep; [by destruct (Hf r0 Ep)|]. by apply Hi.
Qed.

Lemma only_good_same s s' : only_good s -> items s' = items s -> outbox s' = outbox s -> only_good s'.
Proof.
  intros [Hs Hi Ho] Ei Eo. split; [eapply rtc_r; [done|by apply items_step_same]| |by rewrite Eo].
  by rewrite Ei.
Qed.

Lemma only_good_fail now id w body msg retryable delay e s :
  only_good s -> only_good (fst (mark_item_failed now id w body msg retryable delay e s)).
Proof.
  intros Hg. pose proof (run_item_op_step (fun _ => None) (fun _ => "") (OpFail now id w body msg retryable delay e) s eq_refl)
    as Hstep. cbn [run_item_op] in Hstep. revert Hstep. unfold mark_item_failed.
  destruct w as [w|]; [|done]. destruct e as [e|]; [|done]. destruct retryable; intros Hstep;
    by eapply only_good_update.
Qed.

Lemma only_good_renew now id w lease e s : only_good s -> only_good (fst (renew_item_lease now id w lease e s)).
Proof.
  intros Hg. pose proof (run_item_op_step (fun _ => None) (fun _ => "") (OpRenew now id w lease e) s eq_refl) as Hstep.
  eapply only_good_update; [exact Hg|exact Hstep|reflexivity|reflexivity|].
  intros r Hr. destruct e as [e|]; [|done]. apply owned_spec in Hr as (_ & _ & _ & Hst). cbn. by rewrite Hst.
Qed.

Lemma only_good_release now ids w delay body msg epochs s :
  only_good s -> only_good (fst (release_items_for_retry now ids w delay body msg epochs s)).
Proof.
  intros Hg. pose proof (run_item_op_step (fun _ => None) (fun _ => "") (OpReleaseForRetry now ids w delay body msg epochs) s eq_refl)
    as Hstep. cbn [run_item_op] in Hstep. revert Hstep. unfold release_items_for_retry.
  destruct ids as [|i ids]; [done|]. destruct epochs as [epochs|]; [|done]. destruct (existsb _ _); [done|].
  intros Hstep. by eapply only_good_update.
Qed.

Lemma only_good_refresh now b s : only_good s -> only_good (fst (refresh_job_progress now b s)).
Proof. intros Hg. by eapply only_good_same. Qed.

Lemma only_good_record_failure class_name cfg t b item exc d delay s :
  only_good s -> only_good (fst (record_failure class_name cfg t b item exc d delay s)).
Proof.
  unfold record_failure. cbv zeta. apply bind_keeps; [intros; by apply only_good_fail|].
  intros u s1. apply bind_keeps; [intros s2 H2; destruct (_ && _); [by apply only_good_fail|done]|].
  intros u' s2 H2. destruct (negb u'); [done|]. rewrite fst_bind_tt. by apply only_good_refresh.
Qed.

(** The rows completed by one bulk update. *)
Lemma only_good_complete now held uuid4 l worker s : Forall good l -> NoDup (map icp_item_id l) ->
  only_good s -> only_good (fst (complete_items_with_outbox_bulk now held uuid4 l worker s)).
Proof.
  intros Hl Hnd Hg. pose proof (complete_is_step now held uuid4 l worker s) as Hstep.
  destruct (complete_spec now held uuid4 l worker s (only_good_unique s Hg) Hnd)
    as [E|(w & rows & _ & _ & _ & Ei & Eo & _ & _ & _ & _ & Hrows)]; [by rewrite E|].
  set (s' := fst _) in *. destruct Hg as [Hs Hi Ho]. rewrite Forall_forall in Hl. split; [by eapply rtc_r| |].
  - intros r Hr Hst. rewrite Ei in Hr. apply list_elem_of_fmap in Hr as (r0 & -> & Hr0).
    destruct (id_in _ r0) eqn:Eid; [right|by apply Hi]. unfold id_in in Eid.
    apply bool_decide_eq_true_1, list_elem_of_fmap in Eid as (c & Hc & Hcl).
    unfold complete_from in *. destruct (payload_for_some (Item.item_id r0) (map icp_completion l) (icp_completion c)) as [c' Hc'];
      [by apply list_elem_of_fmap_2|by unfold icp_item_id in Hc|]. rewrite Hc' in *.
    apply find_some in Hc' as [Hc' Hid%String.eqb_eq]. apply list_elem_of_In, list_elem_of_fmap in Hc' as (x & -> & Hx).
    exists x. split; [by apply Hl|]. done.
  - intros o Hin. rewrite Eo in Hin. apply elem_of_app in Hin as [?|Hin]; [by apply Ho|]. right.
    apply list_elem_of_lookup in Hin as [k Hk]. destruct (Forall2_lookup_r _ _ _ _ _ Hrows Hk) as (c & Hc & Hid & Hp & _).
    exists c. split; [apply Hl; by eapply list_elem_of_lookup_2|done].
Qed.

Lemma only_good_attempts cfg l attempts s : Forall good l -> NoDup (map icp_item_id l) ->
  only_good s -> only_good (fst (persist_attempts cfg l attempts s)).
Proof.
  intros Hl Hnd. revert s. induction attempts as [|a attempts IH]; intros s Hs; [done|]. cbn [persist_attempts].
  pose proof (with_fault_keeps only_good (at_fault a) (complete_items_with_outbox_bulk (at_now a) (at_held a) (at_uuid4 a) l
    (Some (wk_worker_id cfg))) s Hs (only_good_complete _ _ _ _ _ _ Hl Hnd Hs)) as Ha.
  destruct (with_fault _ _ s) as [s1 [[| |]|e]]; cbn [fst] in *; [done..|by apply IH].
Qed.

Lemma try_except_keeps {A B} (P : A -> Prop) (m : st A exn B) (h : exn -> st A exn B) s :
  P (fst (m s)) -> (forall e s', P s' -> P (fst (h e s'))) -> P (fst (try_except m h s)).
Proof. unfold try_except. destruct (m s) as [s' [b|e]]; cbn; auto. Qed.

Lemma only_good_persist cfg first second now f l s : Forall good l -> NoDup (map icp_item_id l) ->
  only_good s -> only_good (fst (persist_completion_rows_with_outbox cfg first second now f l s)).
Proof.
  intros Hl Hnd. unfold persist_completion_rows_with_outbox.
  apply bind_keeps; [intros s' Hs'; by apply only_good_attempts|]. intros [b|] s1 H1; [done|].
  apply try_except_keeps; [|done]. rewrite fst_bind_ret. by apply (with_fault_keeps only_good), only_good_release.
Qed.

Lemma only_good_renew_once now cfg f id e s :
  only_good s -> only_good (fst (renew_item_lease_once now cfg f id e s)).
Proof.
  intros Hs. unfold renew_item_lease_once. apply try_except_keeps; [|done].
  by apply (with_fault_keeps only_good), only_good_renew.
Qed.
End completions.

(** ** Executions *)

Section execution.
Context {S R : Type} `{RedisExec S} `{RedisServer R} `{PyRepr}.
Context (digest : string -> string) (dumps_deferral : string -> Z -> Z -> string) (parsedate : string -> option Z).
Context (class_name : exn -> string) (dumps : pyval -> string) (dump_request : ChatCompletionRequest -> string).
Context (read_config : pyval -> option ChatBatchingConfig).
Context {X : Type} (explicit_executor : option X) (adapter_executor : Deployment -> option X).
Context (decimal : pyfloat -> Q).
Context (cfg : BatchWorkerConfig) (draw : Z -> Z -> Z) (microbatch_retry_enabled : bool).
Context (resolve_group : string -> option string).
Context (env : exec_env) (job : Job.batch_job) (execution_mode : string).
Local Abbreviation state := (@exec_state S R).
Local Abbreviation acquire := (acquire_prepared_policy_lease (S := S) dump_request env).
Local Abbreviation fail_item := (fail_item (R := R) digest dumps_deferral parsedate class_name cfg draw resolve_group env job).
Local Abbreviation build := (build_chat_completion_persistence_row decimal env job execution_mode).
Local Abbreviation call_and_persist := (call_and_persist (S := S) (R := R) decimal cfg env job execution_mode).
Local Abbreviation execute_item := (execute_prepared_chat_item digest dumps_deferral parsedate class_name dump_request
  decimal cfg draw resolve_group env job execution_mode).
Local Abbreviation collect := (collect_results (R := R) digest dumps_deferral parsedate class_name decimal cfg draw
  resolve_group env job execution_mode).
Local Abbreviation acquire_all := (acquire_chat_policy_leases_for_chunk digest dumps_deferral parsedate class_name
  dump_request cfg draw resolve_group env job).
Local Abbreviation outcomes_of := (fun ps first => map (fun t => (t.1, execute_for_deployment dumps read_config
  explicit_executor adapter_executor ps t.1 t.2)) (en_tried env (pc_item_id first))).
Local Abbreviation run_unit := (run_unit (R := R) digest dumps_deferral parsedate class_name dumps dump_request read_config
  explicit_executor adapter_executor decimal cfg draw microbatch_retry_enabled resolve_group env job execution_mode).
Local Abbreviation chunk_failed := (chunk_failed (R := R) digest dumps_deferral parsedate class_name dump_request
  decimal cfg draw microbatch_retry_enabled resolve_group env job execution_mode).
Local Abbreviation fail_chunk := (fail_chunk (R := R) digest dumps_deferral parsedate class_name cfg draw
  microbatch_retry_enabled resolve_group env job).

(** *** What the steps leave alone *)

Lemma acquire_world p (s : state) : ex_world (fst (acquire p s)) = ex_world s.
Proof.
  unfold acquire_prepared_policy_lease. destruct (ex_leases s !! _); [done|]. destruct (pc_policy_auth p); [|done].
  destruct (ex_limiter s) as [c|]; [|done]. by destruct (acquire_rate_limit_controls _ _ _ _ _) as [c' [[l sta]|e]].
Qed.

Lemma release_world p (s : state) : ex_world (fst (release_prepared_policy_lease p s)) = ex_world s.
Proof. unfold release_prepared_policy_lease. by destruct (ex_leases s !! _), (ex_limiter s). Qed.

Lemma on_world_fst {A} (m : st (@world S) exn A) (s : state) :
  fst (on_world m s) = mkExec (fst (m (ex_world s))) (ex_limiter s) (ex_leases s) (ex_dropped s).
Proof. unfold on_world. by destruct (m (ex_world s)). Qed.

Lemma lift_fst {A T} (r : res exn A) (s : T) : fst (lift r s) = s.
Proof. by destruct r. Qed.

Lemma lift_py_fst {A T} (r : res pyexc A) (s : T) : fst (lift_py r s) = s.
Proof. by destruct r. Qed.

(** *** Results of a shared call *)

Definition built_from (ps : list PreparedChatItem) (served : Deployment) (rows : list NormalizedChatMicrobatchResult)
    (pc : PreparedChatItem * item_completion) : Prop :=
  exists row body usage, row ∈ rows /\ ps !! Z.to_nat (nr_index row) = Some pc.1 /\ nr_error row = None /\
    nr_response_body row = Some body /\ nr_usage row = Some usage /\ build pc.1 body usage served = Ret pc.2.

Lemma collect_built ps served rows : forall k (s s' : state) success,
  (forall j row, rows !! j = Some row -> nr_index row = Z.of_nat (k + j)) ->
  collect ps served rows s = (s', Ret (Some success)) ->
  sublist (map fst success) (drop k ps) /\ Forall (built_from ps served rows) success.
Proof.
  induction rows as [|row rows IH]; intros k s s' success Hidx.
  { intros [= _ <-]. split; [apply sublist_nil_l|constructor]. }
  pose proof (Hidx 0%nat row eq_refl) as Hk. rewrite Nat.add_0_r in Hk. cbn [collect_results]. rewrite Hk, Nat2Z.id.
  assert (Hnext : forall j r, rows !! j = Some r -> nr_index r = Z.of_nat (Datatypes.S k + j)).
  { intros j r Hj. rewrite (Hidx (Datatypes.S j) r Hj). f_equal. lia. }
  assert (Hweak : forall l, Forall (built_from ps served rows) l -> Forall (built_from ps served (row :: rows)) l).
  { intros l Hl. eapply Forall_impl; [exact Hl|]. intros pc (r & body & usage & Hr & Hrest). exists r, body, usage. split; [by right|done]. }
  destruct (ps !! k) as [p|] eqn:Ep; [|done]. rewrite (drop_S _ _ _ Ep).
  destruct (en_lost_at_result env (pc_item_id p)); [done|].
  assert (Hskip : forall exc, (fail_item p exc ≫= fun _ => collect ps served rows) s = (s', Ret (Some success)) ->
    sublist (map fst success) (p :: drop (Datatypes.S k) ps) /\ Forall (built_from ps served (row :: rows)) success).
  { intros exc (s1 & u & _ & E)%bind_ret_inv. destruct (IH _ _ _ _ Hnext E). split; [by apply sublist_cons|auto]. }
  destruct (nr_error row) as [exc|] eqn:Ee; [by apply Hskip|].
  destruct (nr_response_body row) as [body|] eqn:Eb; [|by apply Hskip].
  destruct (nr_usage row) as [usage|] eqn:Eu; [|by apply Hskip].
  intros (s1 & c & Hc & E)%bind_ret_inv. apply bind_ret_inv in E as (s2 & [l|] & Hl & E); [|done].
  injection E as _ <-. destruct (IH _ _ _ _ Hnext Hl) as [Hsub Hf]. split; [by apply sublist_skip|].
  constructor; [|auto]. exists row, body, usage. rewrite Hk, Nat2Z.id. unfold lift in Hc. injection Hc as _ Hc.
  split_and!; [left|done..].
Qed.

Lemma build_item p body usage served c : build p body usage served = Ret c ->
  icp_item_id c = pc_item_id p /\ cm_response_body (icp_completion c) = PyDict (dict_set body "usage" (PyDict usage)) /\
  cm_usage (icp_completion c) = Some (PyDict usage) /\ cp_item_id (icp_outbox_payload c) = pc_item_id p /\
  cp_usage (icp_outbox_payload c) = PyDict usage /\
  cp_billed_cost (icp_outbox_payload c) = cm_billed_cost (icp_completion c).
Proof.
  unfold build_chat_completion_persistence_row. cbv zeta. intros (billed & _ & E)%res_bind_ret.
  apply res_bind_ret in E as (provider & _ & E). by injection E as <-.
Qed.

Lemma acquire_all_sublist ps : forall (s s' : state) allowed,
  acquire_all ps s = (s', Ret allowed) -> sublist allowed ps.
Proof.
  induction ps as [|p ps IH]; intros s s' allowed; [intros [= _ <-]; constructor|].
  cbn [acquire_chat_policy_leases_for_chunk]. destruct (acquire p s) as [s1 [u|exc]].
  - intros (s2 & l & Hl & E)%bind_ret_inv. injection E as _ <-. apply sublist_skip. eauto.
  - intros (s2 & u & _ & E)%bind_ret_inv. apply sublist_cons. eauto.
Qed.

(** *** Answers *)

(** The upstream's answer to a request that ran alone. *)
Definition single_answer (p : PreparedChatItem) (body usage : pydict) (served : Deployment) : Prop :=
  en_answer env (pc_item_id p) = Ret (body, served) /\ body_usage body = Ret usage.

(** A result of a shared call that is addressed to the request. *)
Definition shared_answer (ps : list PreparedChatItem) (p : PreparedChatItem) (body usage : pydict) (served : Deployment)
    : Prop :=
  exists first allowed l result i, sublist (first :: allowed) ps /\
    en_conclude env (pc_item_id first) (outcomes_of (first :: allowed) first) = Ret (Results l, served) /\
    ResultMapping result ∈ l /\ (first :: allowed) !! i = Some p /\
    addressed (map (fun p => Item.custom_id (pc_item p)) (first :: allowed)) result i /\
    result_response_body result = Some body /\ result_usage result (Some body) = Some usage.

(** A completion that records the answer to an item of the unit. *)
Definition recorded_answer (u : work_unit) (c : item_completion) : Prop :=
  exists p body usage served, p ∈ unit_items u /\ build p body usage served = Ret c /\
    (single_answer p body usage served \/ match u with Chunk ps => shared_answer ps p body usage served | _ => False end).

Section recorded.
Context (good : item_completion -> Prop) (s0 : db) (U0 : unique_keys (items s0)).
Definition ok (s : state) : Prop := only_good good s0 (ex_world s).1.

Lemma ok_world (s s' : state) : ex_world s' = ex_world s -> ok s -> ok s'.
Proof. unfold ok. by intros ->. Qed.

Lemma ok_on_store {A} (m : st db exn A) (s : state) :
  (forall d, only_good good s0 d -> only_good good s0 (fst (m d))) -> ok s -> ok (fst (on_store m s)).
Proof.
  unfold ok. intros Hm Hs. unfold on_store. rewrite on_world_fst. cbn. unfold on_db. specialize (Hm _ Hs).
  by destruct (m (ex_world s).1).
Qed.

Lemma ok_fail p exc (s : state) : ok s -> ok (fst (fail_item p exc s)).
Proof.
  intros Hs. unfold ChatExecution.fail_item. rewrite on_world_fst. unfold ok in *. cbn. revert Hs.
  destruct (ex_world s) as [d c]. cbn. intros Hs.
  destruct (handle_failure_eq digest dumps_deferral parsedate class_name cfg draw (en_failure env (pc_item_id p))
    (Job.batch_id job) (pc_item p) (resolve_group (pc_model_name p)) exc d c) as [c' ->].
  destruct (candidate_delay _ _ _ _); cbn [fst snd]; [|exact Hs]. apply only_good_record_failure. exact Hs.
Qed.

Lemma ok_still_held p (s : state) : ok s -> ok (fst (still_held cfg env p s)).
Proof.
  unfold still_held. destruct (en_lost_at_end env _); [done|]. destruct (en_renew env _) as [now f].
  apply ok_on_store. intros d. by apply only_good_renew_once.
Qed.

Lemma ok_persist id rows (s : state) : Forall good rows -> NoDup (map icp_item_id rows) ->
  ok s -> ok (fst (persist cfg env id rows s)).
Proof.
  intros Hg Hnd. unfold persist. destruct (en_persist env id) as [a b]. destruct (en_release env id) as [now f].
  apply ok_on_store. intros d. by apply only_good_persist.
Qed.

Lemma ok_execute_item p (s : state) :
  (forall body usage served c, single_answer p body usage served -> build p body usage served = Ret c -> good c) ->
  ok s -> ok (fst (execute_item p s)).
Proof.
  intros Hgood Hs. unfold execute_prepared_chat_item. pose proof (acquire_world p s) as Ha.
  destruct (acquire p s) as [s1 [u|exc]]; cbn [fst] in Ha; [|by apply ok_fail, (ok_world s)].
  assert (K1 : ok s1) by (by apply (ok_world s)). clear Ha Hs. unfold try_finally.
  assert (Hb : ok (fst (try_except (call_and_persist p) (fail_item p) s1))).
  { apply (try_except_keeps ok); [|intros e s' Hs'; by apply ok_fail].
    unfold ChatExecution.call_and_persist. destruct (en_lost_in_call env _); [done|]. unfold mbind at 1, st_bind at 1, lift at 1.
    destruct (en_answer env (pc_item_id p)) as [[body served]|e] eqn:Ea; [|done].
    unfold mbind at 1, st_bind at 1, lift at 1. destruct (body_usage body) as [usage|e] eqn:Eu; [|done].
    apply bind_keeps; [intros; by apply ok_still_held| |done]. intros held s2 K2. destruct (negb held); [done|].
    unfold mbind at 1, st_bind at 1, lift at 1. destruct (build p body usage served) as [c|e] eqn:Ec; [|done].
    rewrite fst_bind_tt. apply ok_persist; [|by constructor; [apply not_elem_of_nil|constructor]|done].
    constructor; [|done]. by apply (Hgood body usage served). }
  destruct (try_except _ _ s1) as [s2 r]. cbn [fst] in Hb.
  pose proof (release_world p s2) as Hr. destruct (release_prepared_policy_lease p s2) as [s3 [[]|e]]; cbn in *; by apply (ok_world s2).
Qed.

Lemma ok_collect ps served rows (s : state) : ok s -> ok (fst (collect ps served rows s)).
Proof.
  revert s. induction rows as [|row rows IH]; intros s Hs; [done|]. cbn [collect_results].
  destruct (ps !! _) as [p|]; [|done]. destruct (en_lost_at_result env _); [done|].
  assert (Hskip : forall exc, ok (fst ((fail_item p exc ≫= fun _ => collect ps served rows) s))).
  { intros exc. apply (bind_keeps ok); [intros; by apply ok_fail|intros; by apply IH|done]. }
  destruct (nr_error row); [apply Hskip|]. destruct (nr_response_body row) as [body|]; [|apply Hskip].
  destruct (nr_usage row) as [usage|]; [|apply Hskip].
  apply (bind_keeps ok); [intros; by rewrite lift_fst| |done]. intros c s1 K1. rewrite fst_bind_ret. by apply IH.
Qed.

Lemma ok_renew_all ps (s : state) : ok s -> ok (fst (renew_all cfg env ps s)).
Proof.
  revert s. induction ps as [|p ps IH]; intros s Hs; [done|]. cbn [renew_all].
  apply (bind_keeps ok); [intros; by apply ok_still_held| |done]. intros [] s1 K1; [by apply IH|done].
Qed.

Lemma ok_release_all ps (s : state) : ok s -> ok (fst (release_prepared_policy_leases ps s)).
Proof. apply (for_each_keeps ok). intros p s1 _ K1. apply (ok_world s1); [apply release_world|done]. Qed.

Lemma ok_acquire_all ps (s : state) : ok s -> ok (fst (acquire_all ps s)).
Proof.
  revert s. induction ps as [|p ps IH]; intros s Hs; [done|]. cbn [acquire_chat_policy_leases_for_chunk].
  pose proof (acquire_world p s) as Ha. destruct (acquire p s) as [s1 [u|exc]]; cbn [fst] in Ha.
  - rewrite fst_bind_ret. by apply IH, (ok_world s).
  - apply (bind_keeps ok); [intros; by apply ok_fail|intros; by apply IH|by apply (ok_world s)].
Qed.
Lemma ok_retry_release first ps exc d delay (s : state) :
  ok s -> ok (fst (retry_release class_name cfg env job first ps exc d delay s)).
Proof.
  unfold retry_release. cbv zeta. destruct (en_release env _) as [now f].
  apply (bind_keeps ok); [intros; by rewrite lift_py_fst|]. intros n s1. apply (bind_keeps ok); [intros; by rewrite lift_py_fst|].
  intros size s2. apply (bind_keeps ok).
  - intros s3. apply ok_on_store. intros db0 Hd. apply (try_except_keeps (only_good good s0)); [|done].
    rewrite fst_bind_ret. by apply (with_fault_keeps (only_good good s0)), only_good_release.
  - intros [[|i l]|] s3 K3; [done| |done]. rewrite fst_bind_ret. apply ok_on_store; [|done].
    intros db0. by apply only_good_refresh.
Qed.

Lemma ok_fail_chunk first ps exc (s : state) : ok s -> ok (fst (fail_chunk first ps exc s)).
Proof.
  unfold ChatExecution.fail_chunk. cbv zeta. apply (bind_keeps ok).
  - intros s1 K1. unfold release_failed_chat_microbatch_for_retry. cbv zeta. destruct (_ || _); [done|].
    revert K1. apply (bind_keeps ok); [intros; by rewrite lift_py_fst|]. intros delay s2. apply (bind_keeps ok).
    { intros s3. unfold ok. rewrite on_world_fst. cbn. unfold on_coordinator. by destruct (maybe_defer_model_group_for_retry _ _ _ _ _ _ _ _). }
    intros u s3 K3. destruct (negb _); [done|]. destruct (negb _); [done|]. by apply ok_retry_release.
  - intros requeued s1. apply (bind_keeps ok); [|intros; by apply ok_release_all].
    intros s2 K2. destruct requeued; [done|]. revert K2. apply (for_each_keeps ok). intros p s3 _. by apply ok_fail.
Qed.

Lemma ok_chunk_failed first ps evidence exc (s : state) :
  (forall p body usage served c, p ∈ ps -> single_answer p body usage served -> build p body usage served = Ret c -> good c) ->
  ok s -> ok (fst (chunk_failed first ps evidence exc s)).
Proof.
  intros Hgood. unfold ChatExecution.chunk_failed. destruct (is_chat_microbatch_unsupported_error exc); [|apply ok_fail_chunk].
  destruct evidence as [exc'|]; [apply ok_fail_chunk|]. apply (for_each_keeps ok). intros p s1 Hp.
  apply ok_execute_item. intros body usage served c. by apply Hgood.
Qed.

Lemma ok_chunk_answered first ps served rows (s : state) :
  NoDup (map pc_item_id ps) -> (forall j row, rows !! j = Some row -> nr_index row = Z.of_nat j) ->
  (forall pc, built_from ps served rows pc -> good pc.2) ->
  ok s -> ok (fst (chunk_answered (R := R) digest dumps_deferral parsedate class_name decimal cfg draw
    resolve_group env job execution_mode first ps served rows s)).
Proof.
  intros Hnd Hidx Hgood Hs. unfold chunk_answered. unfold mbind at 1, st_bind at 1.
  pose proof (ok_collect ps served rows s Hs) as K1.
  destruct (collect ps served rows s) as [s1 [[success|]|e]] eqn:Ec; cbn [fst] in K1; [|done|done].
  destruct (collect_built ps served rows 0 s s1 success Hidx Ec) as [Hsub Hbuilt]. rewrite drop_0 in Hsub.
  apply (bind_keeps ok); [intros; by apply ok_renew_all| |done]. intros held s2 K2. destruct (negb held); [done|].
  unfold try_finally.
  assert (K3 : ok (fst ((match success with [] => mret tt | _ => _ ← persist cfg env (pc_item_id first) (map snd success); mret tt end) s2))).
  { destruct success as [|x l] eqn:El; [done|]. rewrite <- El in *. rewrite fst_bind_tt.
    apply ok_persist; [| |done].
    - apply Forall_map. eapply Forall_impl; [exact Hbuilt|]. intros pc Hpc. by apply Hgood.
    - assert (Hids : map icp_item_id (map snd success) = map pc_item_id (map fst success)).
      { rewrite !map_map. clear -Hbuilt. induction Hbuilt as [|pc l (row & body & usage & _ & _ & _ & _ & _ & Hb) _ IH]; [done|].
        cbn. rewrite IH. by destruct (build_item _ _ _ _ _ Hb) as [-> _]. }
      rewrite Hids. eapply sublist_NoDup; [exact Hnd|by apply fmap_sublist]. }
  match type of K3 with ok (fst ?x) => destruct x as [s3 r] end. cbn [fst] in K3.
  pose proof (ok_release_all ps s3 K3) as K4. by destruct (release_prepared_policy_leases ps s3) as [s4 [u|e]].
Qed.

Lemma ok_run_unit u (s : state) : NoDup (map pc_item_id (unit_items u)) ->
  (forall c, recorded_answer u c -> good c) -> ok s -> ok (fst (run_unit u s)).
Proof.
  intros Hnd Hgood Hs. unfold ChatExecution.run_unit. destruct u as [p mode|ps].
  { apply ok_execute_item; [|done]. intros body usage served c Ha Hb. apply Hgood. exists p, body, usage, served.
    split; [by left|]. split; [done|by left]. }
  unfold execute_prepared_chat_microbatch_chunk. unfold mbind at 1, st_bind at 1.
  pose proof (ok_acquire_all ps s Hs) as K1. pose proof (acquire_all_sublist ps s) as Hsub.
  destruct (acquire_all ps s) as [s1 [allowed|e]]; cbn [fst] in K1; [|done]. specialize (Hsub s1 allowed eq_refl).
  assert (Hin : forall p body usage served c, p ∈ allowed -> single_answer p body usage served ->
    build p body usage served = Ret c -> good c).
  { intros p body usage served c Hp Ha Hb. apply Hgood. exists p, body, usage, served.
    split; [by eapply sublist_elem|]. split; [done|by left]. }
  destruct allowed as [|first [|second rest]]; [done| |].
  { apply ok_execute_item; [|done]. intros body usage served c. apply Hin. left. }
  set (allowed := first :: second :: rest) in *. unfold call_chunk. cbv zeta.
  destruct (en_lost_in_call env _); [done|].
  destruct (_ ≫= _) as [[served rows]|exc] eqn:Ecall; [|by apply ok_chunk_failed].
  apply res_bind_ret in Ecall as ([raw served'] & Hcon & E). apply res_bind_ret in E as (rows' & Hnorm & E).
  injection E as -> <-. cbn [fst] in Hnorm.
  destruct (normalize_results_spec _ _ _ _ Hnorm) as (l & order & -> & _ & Hlen & Hperm & Hans & Hrow).
  apply ok_chunk_answered; [|intros j row Hj; by apply Hrow| |done].
  { eapply sublist_NoDup; [exact Hnd|by apply fmap_sublist]. }
  intros [p c] (row & body & usage & Hr & Hp & He & Hb & Hu & Hbuild). cbn [fst snd] in *.
  apply list_elem_of_lookup in Hr as [i Hi]. destruct (Hrow i row Hi) as [Hri _]. rewrite Hri, Nat2Z.id in Hp.
  assert (Hio : i ∈ order).
  { rewrite Hperm. apply elem_of_seq. apply lookup_lt_Some in Hi. lia. }
  apply list_elem_of_lookup in Hio as [k Hk].
  destruct (lookup_lt_is_Some_2 l k) as [raw Hraw].
  { rewrite <- (length_seq (length l) 0), <- (Permutation_length Hperm). by eapply lookup_lt_Some. }
  destruct (Hans k raw Hraw) as (i' & row' & Ho' & Hrow' & result & -> & Haddr & Hres).
  rewrite Hk in Ho'. injection Ho' as <-. rewrite Hi in Hrow'. injection Hrow' as <-.
  destruct (result_row_spec _ _ _ _ Hres) as (_ & Hbody & Husage & _). rewrite Hb in Hbody. rewrite Hu, <- Hbody in Husage.
  apply Hgood. exists p, body, usage, served. split; [eapply sublist_elem; [exact Hsub|by eapply list_elem_of_lookup_2]|].
  split; [done|right]. exists first, (second :: rest), l, result, i. fold allowed.
  split_and!; [done|done|by eapply list_elem_of_lookup_2|done..].
Qed.
End recorded.

(** [answer_of u p body usage served]: what the upstream answered to the
    request of [p], an item of the unit. *)
Definition answer_of (u : work_unit) (p : PreparedChatItem) (body usage : pydict) (served : Deployment) : Prop :=
  p ∈ unit_items u /\
  (single_answer p body usage served \/ match u with Chunk ps => shared_answer ps p body usage served | _ => False end).

(** C4: every completed item holds the answer to its own request.  Whatever
    the upstream, the database and the heartbeats do while work units of a
    claim are executed: an item that is completed afterwards was completed
    before, or its row holds the response and the usage the upstream returned
    for that very request, by a call of its own or as the result of a shared
    call that is addressed to it; and a new outbox row bills exactly the usage
    of such an answer, for that item. *)
Theorem chat_answers_stored (units : list work_unit) (s : state) :
  unique_keys (items (ex_world s).1) ->
  Forall (fun u => NoDup (map pc_item_id (unit_items u))) units ->
  let d := (ex_world s).1 in
  let d' := (ex_world (fst (for_each units run_unit s))).1 in
  (forall r, r ∈ items d' -> Item.status r = BatchItemStatus.COMPLETED -> r ∈ items d \/
     exists u p body usage served, u ∈ units /\ answer_of u p body usage served /\ Item.item_id r = pc_item_id p /\
       Item.response_body r = Some (PyDict (dict_set body "usage" (PyDict usage))) /\
       Item.usage r = Some (PyDict usage)) /\
  (forall o, o ∈ outbox d' -> o ∈ outbox d \/
     exists u p body usage served c, u ∈ units /\ answer_of u p body usage served /\ Outbox.item_id o = pc_item_id p /\
       build p body usage served = Ret c /\ Outbox.payload_json o = icp_outbox_payload c /\
       cp_usage (icp_outbox_payload c) = PyDict usage).
Proof.
  intros U Hnd. cbv zeta. set (good := fun c => exists u, u ∈ units /\ recorded_answer u c).
  assert (Hok : ok good (ex_world s).1 (fst (for_each units run_unit s))).
  { apply (for_each_keeps (ok good (ex_world s).1)); [|apply only_good_start].
    intros u s1 Hu. apply ok_run_unit; [done| |].
    - rewrite Forall_forall in Hnd. by apply Hnd.
    - intros c Hc. by exists u. }
  destruct Hok as [_ Hi Ho]. split.
  - intros r Hr Hst. destruct (Hi r Hr Hst) as [?|(c & (u & Hu & p & body & usage & served & Hp & Hb & Ha) & Hid & Hresp & Hus & _)];
      [by left|right]. destruct (build_item _ _ _ _ _ Hb) as (Eid & Eresp & Eus & _).
    exists u, p, body, usage, served. rewrite Hid, Hresp, Hus, Eid, Eresp, Eus. done.
  - intros o Hin. destruct (Ho o Hin) as [?|(c & (u & Hu & p & body & usage & served & Hp & Hb & Ha) & Hid & Hpay)];
      [by left|right]. destruct (build_item _ _ _ _ _ Hb) as (Eid & _ & _ & _ & Eus & _).
    exists u, p, body, usage, served, c. rewrite Hid, Eid, Hpay. done.
Qed.

(** *** Parallel slots *)

(** A property that updates of the database, leases taken and given back, and
    warnings keep. *)
Section keeps.
Context (P : state -> Prop).
Context (Pworld : forall A (m : st (@world S) exn A) s, P s -> P (fst (on_world m s))).
Context (Pacquire : forall p s, P s -> P (fst (acquire p s))).
Context (Prelease : forall p s, P s -> P (fst (release_prepared_policy_lease p s))).
Context (Pdrop : forall ps s, P s -> P (fst (drop_items ps s))).

Lemma P_held p s : P s -> P (fst (still_held cfg env p s)).
Proof. unfold still_held. destruct (en_lost_at_end env _); [done|]. destruct (en_renew env _). apply Pworld. Qed.

Lemma P_persist id rows s : P s -> P (fst (persist cfg env id rows s)).
Proof. unfold persist. destruct (en_persist env id). destruct (en_release env id). apply Pworld. Qed.

Lemma P_call p s : P s -> P (fst (call_and_persist p s)).
Proof.
  unfold ChatExecution.call_and_persist. cbv zeta. destruct (en_lost_in_call env _); [apply Pdrop|].
  apply (bind_keeps P); [intros; by rewrite lift_fst|]. intros [body served] s1.
  apply (bind_keeps P); [intros; by rewrite lift_fst|]. intros usage s2.
  apply (bind_keeps P); [intros; by apply P_held|]. intros held s3. destruct (negb held); [apply Pdrop|].
  apply (bind_keeps P); [intros; by rewrite lift_fst|]. intros c s4 K. rewrite fst_bind_tt. by apply P_persist.
Qed.

Lemma P_item p s : P s -> P (fst (execute_item p s)).
Proof.
  intros Hs. unfold execute_prepared_chat_item. pose proof (Pacquire p s Hs) as Ha.
  destruct (acquire p s) as [s1 [u|exc]]; cbn [fst] in Ha; [|by apply Pworld]. unfold try_finally.
  assert (Hb : P (fst (try_except (call_and_persist p) (fail_item p) s1))).
  { apply (try_except_keeps P); [by apply P_call|]. intros e s'. apply Pworld. }
  destruct (try_except _ _ s1) as [s2 r]. cbn [fst] in Hb. pose proof (Prelease p s2 Hb) as Hr.
  by destruct (release_prepared_policy_lease p s2) as [s3 [[]|e]].
Qed.

Lemma P_collect ps served rows s : P s -> P (fst (collect ps served rows s)).
Proof.
  revert s. induction rows as [|row rows IH]; intros s Hs; [done|]. cbn [collect_results].
  destruct (ps !! _) as [p|]; [|done]. destruct (en_lost_at_result env _); [done|].
  assert (Hskip : forall exc, P (fst ((fail_item p exc ≫= fun _ => collect ps served rows) s))).
  { intros exc. apply (bind_keeps P); [intros; by apply Pworld|intros; by apply IH|done]. }
  destruct (nr_error row); [apply Hskip|]. destruct (nr_response_body row) as [body|]; [|apply Hskip].
  destruct (nr_usage row) as [usage|]; [|apply Hskip].
  apply (bind_keeps P); [intros; by rewrite lift_fst| |done]. intros c s1 K. rewrite fst_bind_ret. by apply IH.
Qed.

Lemma P_renew_all ps s : P s -> P (fst (renew_all cfg env ps s)).
Proof.
  revert s. induction ps as [|p ps IH]; intros s Hs; [done|]. cbn [renew_all].
  apply (bind_keeps P); [intros; by apply P_held| |done]. intros [] s1 K; [by apply IH|done].
Qed.

Lemma P_release_all ps s : P s -> P (fst (release_prepared_policy_leases ps s)).
Proof. apply (for_each_keeps P). intros p s1 _. apply Prelease. Qed.

Lemma P_retry first ps exc d s : P s ->
  P (fst (release_failed_chat_microbatch_for_retry digest dumps_deferral class_name cfg draw microbatch_retry_enabled
            env job first ps exc d s)).
Proof.
  unfold release_failed_chat_microbatch_for_retry. cbv zeta. destruct (_ || _); [done|].
  apply (bind_keeps P); [intros; by rewrite lift_py_fst|]. intros delay s1.
  apply (bind_keeps P); [intros; by apply Pworld|]. intros u s2 K. destruct (negb _); [done|]. destruct (negb _); [done|].
  revert K. unfold retry_release. cbv zeta. destruct (en_release env _) as [now f].
  apply (bind_keeps P); [intros; by rewrite lift_py_fst|]. intros n s3.
  apply (bind_keeps P); [intros; by rewrite lift_py_fst|]. intros size s4.
  apply (bind_keeps P); [intros; by apply Pworld|]. intros [[|i l]|] s5 K; [done| |done].
  rewrite fst_bind_ret. by apply Pworld.
Qed.

Lemma P_fail_chunk first ps exc s : P s -> P (fst (fail_chunk first ps exc s)).
Proof.
  unfold ChatExecution.fail_chunk. cbv zeta. apply (bind_keeps P); [intros; by apply P_retry|].
  intros requeued s1. apply (bind_keeps P); [|intros; by apply P_release_all].
  intros s2 K. destruct requeued; [done|]. revert K. apply (for_each_keeps P). intros p s3 _. apply Pworld.
Qed.

Lemma P_acquire_all ps s : P s -> P (fst (acquire_all ps s)).
Proof.
  revert s. induction ps as [|p ps IH]; intros s Hs; [done|]. cbn [acquire_chat_policy_leases_for_chunk].
  pose proof (Pacquire p s Hs) as Ha. destruct (acquire p s) as [s1 [u|exc]]; cbn [fst] in Ha.
  - rewrite fst_bind_ret. by apply IH.
  - apply (bind_keeps P); [intros; by apply Pworld|intros; by apply IH|done].
Qed.

Lemma P_unit u s : P s -> P (fst (run_unit u s)).
Proof.
  intros Hs. destruct u as [p mode|ps]; [by apply P_item|]. unfold ChatExecution.run_unit, execute_prepared_chat_microbatch_chunk.
  apply (bind_keeps P); [intros; by apply P_acquire_all| |done]. intros [|first [|second rest]] s1 K1; [done|by apply P_item|].
  unfold call_chunk. cbv zeta. destruct (en_lost_in_call env _); [by apply Pdrop|].
  destruct (_ ≫= _) as [[served rows]|exc].
  - unfold chunk_answered. revert K1. apply (bind_keeps P); [intros; by apply P_collect|].
    intros [success|] s2; [|apply Pdrop]. apply (bind_keeps P); [intros; by apply P_renew_all|].
    intros held s3 K3. destruct (negb held); [by apply Pdrop|]. unfold try_finally.
    assert (K4 : P (fst ((match success with [] => mret tt
        | _ => _ ← persist cfg env (pc_item_id first) (map snd success); mret tt end) s3))).
    { destruct success; [done|]. rewrite fst_bind_tt. by apply P_persist. }
    match type of K4 with P (fst ?x) => destruct x as [s4 r] end. cbn [fst] in K4.
    pose proof (P_release_all (first :: second :: rest) s4 K4) as K5.
    by destruct (release_prepared_policy_leases _ s4) as [s5 [u|e]].
  - unfold ChatExecution.chunk_failed. destruct (is_chat_microbatch_unsupported_error exc); [|by apply P_fail_chunk].
    destruct (retry_evidence _ _ _); [by apply P_fail_chunk|]. revert K1. apply (for_each_keeps P).
    intros p s2 _. apply P_item.
Qed.
End keeps.

(** *** Which leases remain *)

Lemma acquire_leases p (s : state) :
  let '(s1, r) := acquire p s in
  ex_dropped s1 = ex_dropped s /\
  match r with
  | Ret _ => forall id, id <> pc_item_id p -> ex_leases s1 !! id = ex_leases s !! id
  | Raise _ => ex_leases s1 = ex_leases s /\ ex_leases s !! pc_item_id p = None
  end.
Proof.
  unfold acquire_prepared_policy_lease. destruct (ex_leases s !! _) eqn:El; [done|].
  destruct (pc_policy_auth p); [|done]. destruct (ex_limiter s) as [c|]; [|done].
  destruct (acquire_rate_limit_controls _ _ _ _ _) as [c' [[l sta]|e]]; cbn; [|done].
  split; [done|]. intros id Hid. by rewrite lookup_insert_ne.
Qed.

Lemma release_leases p (s : state) :
  release_prepared_policy_lease p s = (fst (release_prepared_policy_lease p s), Ret tt) /\
  ex_leases (fst (release_prepared_policy_lease p s)) = delete (pc_item_id p) (ex_leases s) /\
  ex_dropped (fst (release_prepared_policy_lease p s)) = ex_dropped s.
Proof. unfold release_prepared_policy_lease. by destruct (ex_leases s !! _), (ex_limiter s). Qed.

(** Leases are held for items of the list only. *)
Definition within (ps : list PreparedChatItem) (s : state) : Prop :=
  forall id, id ∉ map pc_item_id ps -> ex_leases s !! id = None.

Lemma within_nil s : within [] s -> ex_leases s = ∅.
Proof. intros Hw. apply map_eq. intros id. rewrite lookup_empty. apply Hw, not_elem_of_nil. Qed.

Lemma within_world ps {A} (m : st (@world S) exn A) s : within ps s -> within ps (fst (on_world m s)).
Proof. intros Hw id Hid. rewrite on_world_fst. by apply Hw. Qed.

Lemma within_drop ps qs s : within ps s -> within ps (fst (drop_items qs s)).
Proof. intros Hw id Hid. by apply Hw. Qed.

(** An item alone gives its lease back on every path. *)
Lemma item_leases p ps s : within (p :: ps) s -> within ps (fst (execute_item p s)).
Proof.
  intros Hw. unfold execute_prepared_chat_item. pose proof (acquire_leases p s) as Ha.
  destruct (acquire p s) as [s1 [u|exc]]; destruct Ha as [_ Ha].
  2:{ destruct Ha as [Hl Hn]. apply within_world. intros id Hid. rewrite Hl.
      destruct (decide (id = pc_item_id p)) as [->|Hne]; [done|]. apply Hw. by rewrite map_cons, not_elem_of_cons. }
  assert (Hw1 : within (p :: ps) s1).
  { intros id Hid. pose proof Hid as [Hne _]%not_elem_of_cons. rewrite Ha by done. by apply Hw. }
  unfold try_finally. assert (Hb : within (p :: ps) (fst (try_except (call_and_persist p) (fail_item p) s1))).
  { apply (try_except_keeps (within (p :: ps))); [|intros; by apply within_world].
    by apply (P_call (within (p :: ps)) (@within_world _) (within_drop _)). }
  destruct (try_except _ _ s1) as [s2 r]. cbn [fst] in Hb. destruct (release_leases p s2) as (E & Hl & _). rewrite E. cbn [fst].
  intros id Hid. rewrite Hl. destruct (decide (id = pc_item_id p)) as [->|Hne]; [apply lookup_delete_eq|].
  rewrite lookup_delete_ne by done. apply Hb. by rewrite map_cons, not_elem_of_cons.
Qed.

Lemma items_leases ps s s' : within ps s -> for_each ps execute_item s = (s', Ret tt) -> within [] s'.
Proof.
  revert s. induction ps as [|p ps IH]; intros s Hw; [by intros [= <-]|]. cbn [for_each].
  intros (s1 & u & K1 & E)%bind_ret_inv. apply (IH s1); [|done]. pose proof (item_leases p ps s Hw) as Hi.
  by rewrite K1 in Hi.
Qed.

Lemma release_all_leases ps s : exists s', release_prepared_policy_leases ps s = (s', Ret tt) /\
  ex_dropped s' = ex_dropped s /\ (within ps s -> within [] s').
Proof.
  unfold release_prepared_policy_leases. revert s. induction ps as [|p ps IH]; intros s; [by exists s|]. cbn [for_each].
  destruct (release_leases p s) as (E & Hl & Hd). destruct (IH (fst (release_prepared_policy_lease p s))) as (s' & E' & Hd' & Hw').
  exists s'. rewrite (bind_run _ _ _ _ _ E). split_and!; [done|congruence|]. intros Hw. apply Hw'. intros id Hid. rewrite Hl.
  destruct (decide (id = pc_item_id p)) as [->|Hne]; [apply lookup_delete_eq|].
  rewrite lookup_delete_ne by done. apply Hw. by rewrite map_cons, not_elem_of_cons.
Qed.

Lemma acquire_all_leases ps : forall held s s' allowed, within held s -> acquire_all ps s = (s', Ret allowed) ->
  within (allowed ++ held) s'.
Proof.
  induction ps as [|p ps IH]; intros held s s' allowed Hw; [by intros [= <- <-]|].
  cbn [acquire_chat_policy_leases_for_chunk]. pose proof (acquire_leases p s) as Ha.
  destruct (acquire p s) as [s1 [u|exc]]; destruct Ha as [_ Ha].
  - intros (s2 & l & Hl & E)%bind_ret_inv. injection E as <- <-.
    assert (Hw1 : within (p :: held) s1).
    { intros id [Hne Hid]%not_elem_of_cons. rewrite Ha by done. by apply Hw. }
    pose proof (IH _ _ _ _ Hw1 Hl) as Hw2. intros id Hid. apply Hw2. intros Hin. apply Hid.
    rewrite map_app in Hin. rewrite map_app. cbn [map app] in *. set_solver.
  - destruct Ha as [Hl _]. intros (s2 & u & Hf & E)%bind_ret_inv. eapply IH; [|exact E].
    assert (Hw1 : within held s1) by (intros id Hid; rewrite Hl; by apply Hw).
    pose proof (within_world held (handle_failure digest dumps_deferral parsedate class_name cfg draw
      (en_failure env (pc_item_id p)) (Job.batch_id job) (pc_item p) (resolve_group (pc_model_name p)) exc) s1 Hw1) as Hw2.
    unfold ChatExecution.fail_item in Hf. by rewrite Hf in Hw2.
Qed.

(** Steps that neither warn nor touch leases. *)
Definition same_leases (s s' : state) : Prop := ex_leases s' = ex_leases s /\ ex_dropped s' = ex_dropped s.

Lemma same_leases_world s0 {A} (m : st (@world S) exn A) s : same_leases s0 s -> same_leases s0 (fst (on_world m s)).
Proof. intros [H1' H2']. by split; rewrite on_world_fst. Qed.

(** A chunk whose call returned gives its leases back, or warned. *)
Lemma chunk_leases first rest s s' : within (first :: rest) s ->
  call_chunk (R := R) digest dumps_deferral parsedate class_name dumps dump_request read_config
    explicit_executor adapter_executor decimal cfg draw microbatch_retry_enabled resolve_group env job execution_mode
    first (first :: rest) s = (s', Ret tt) ->
  within [] s' \/ exists id l, ex_dropped s' = ex_dropped s ++ id :: l.
Proof.
  set (ps := first :: rest). intros Hw. unfold call_chunk. cbv zeta.
  destruct (en_lost_in_call env _); [intros [= <-]; right; by exists (pc_item_id first), (map pc_item_id rest)|].
  destruct (_ ≫= _) as [[served rows]|exc].
  - unfold chunk_answered. intros (s1 & collected & Hc & E)%bind_ret_inv.
    assert (H1' : same_leases s s1).
    { pose proof (P_collect (same_leases s) (@same_leases_world s) ps served rows s (conj eq_refl eq_refl)) as Hk.
      by rewrite Hc in Hk. }
    destruct H1' as [Hl1 Hd1]. destruct collected as [success|].
    2:{ injection E as <-. right. exists (pc_item_id first), (map pc_item_id rest). cbn. by rewrite Hd1. }
    apply bind_ret_inv in E as (s2 & held & Hh & E).
    assert (H2' : same_leases s s2).
    { pose proof (P_renew_all (same_leases s) (@same_leases_world s) (map fst success) s1 (conj Hl1 Hd1)) as Hk.
      by rewrite Hh in Hk. }
    destruct H2' as [Hl2 Hd2]. destruct held; cbn [negb] in E.
    + unfold try_finally in E. left.
      assert (Hk : same_leases s (fst ((match success with [] => mret tt
        | _ => _ ← persist cfg env (pc_item_id first) (map snd success); mret tt end) s2))).
      { destruct success; [done|]. rewrite fst_bind_tt. by apply (P_persist (same_leases s) (@same_leases_world s)). }
      match type of Hk with same_leases _ (fst ?x) => destruct x as [s3 r] end. cbn [fst] in Hk.
      destruct (release_all_leases ps s3) as (s4 & E4 & _ & Hw4). rewrite E4 in E. injection E as <- _. apply Hw4.
      intros id Hid. rewrite (proj1 Hk). by apply Hw.
    + right. injection E as <-. cbn. rewrite Hd2. destruct success as [|[p c] success]; [by injection Hh|].
      by exists (pc_item_id p), (map pc_item_id (map fst success)).
  - unfold ChatExecution.chunk_failed. intros E. left.
    assert (Hfc : forall e, fail_chunk first ps e s = (s', Ret tt) -> within [] s').
    { intros e. unfold ChatExecution.fail_chunk. intros (s1 & requeued & Hr & E1)%bind_ret_inv.
      apply bind_ret_inv in E1 as (s2 & u & Hf & E2).
      assert (Hk : same_leases s s2).
      { assert (Hk1 : same_leases s s1).
        { pose proof (P_retry (same_leases s) (@same_leases_world s) first ps e
            (classify_batch_retry parsedate (en_now env (pc_item_id first)) e) s (conj eq_refl eq_refl)) as Hk. by rewrite Hr in Hk. }
        destruct requeued; [by injection Hf as <- _|].
        pose proof (for_each_keeps (same_leases s) ps (fun p => fail_item p e) s1) as Hk2. rewrite Hf in Hk2. apply Hk2; [|done].
        intros p s3 _. apply same_leases_world. }
      destruct (release_all_leases ps s2) as (s4 & E4 & _ & Hw4). rewrite E4 in E2. injection E2 as <-. apply Hw4.
      intros id Hid. rewrite (proj1 Hk). by apply Hw. }
    destruct (is_chat_microbatch_unsupported_error exc); [|by eapply Hfc].
    destruct (retry_evidence _ _ _); [by eapply Hfc|]. by apply (items_leases ps s).
Qed.

(** *** The account of the slots *)

Section slots.
Context `{!RedisLaws R}.

(** The slots of a key that leases stand for. *)
Definition leased (key : string) (l : RateLimitLease) : bool := bool_decide (parallel_entity_id l = Some key).
Definition leased_slots (leases : gmap string RateLimitLease) (key : string) : Z :=
  cnt (fun kv => leased key kv.2) (map_to_list leases).

Definition proper_lease (l : RateLimitLease) : Prop :=
  l = mkLease None None \/ exists k, k <> ""%string /\ l = mkLease (Some "key"%string) (Some k).

(** A limiter without Redis, whose slots are the ones it had and those that the
    held leases stand for. *)
Definition balanced (base : string -> Z) (s : state) : Prop :=
  (forall id l, ex_leases s !! id = Some l -> proper_lease l) /\
  exists c, ex_limiter s = Some c /\ LimitCounter.redis c = None /\ LimitCounter.degraded_mode c = LimitCounter.fail_open /\
    forall k, k <> ""%string -> key_slots c k = base k + leased_slots (ex_leases s) k.

Lemma cnt_perm {A} (p : A -> bool) l l' : l ≡ₚ l' -> cnt p l = cnt p l'.
Proof. intros Hp. unfold cnt. by rewrite Hp. Qed.

Lemma leased_insert leases id l key : leases !! id = None ->
  leased_slots (<[id := l]> leases) key = leased_slots leases key + (if leased key l then 1 else 0).
Proof.
  intros Hn. unfold leased_slots. rewrite (cnt_perm _ _ _ (map_to_list_insert leases id l Hn)), cnt_cons. cbn. lia.
Qed.

Lemma leased_delete leases id l key : leases !! id = Some l ->
  leased_slots (delete id leases) key = leased_slots leases key - (if leased key l then 1 else 0).
Proof.
  intros Hl. rewrite <- (insert_delete_id leases id l Hl) at 2. rewrite leased_insert by apply lookup_delete_eq. lia.
Qed.

Lemma leased_empty key : leased_slots ∅ key = 0.
Proof. unfold leased_slots. by rewrite map_to_list_empty. Qed.

Lemma leased_nonneg leases key : 0 <= leased_slots leases key.
Proof. apply cnt_nonneg. Qed.

Lemma leased_pos leases id l key : leases !! id = Some l -> leased key l = true -> 1 <= leased_slots leases key.
Proof.
  intros Hl Hk. pose proof (leased_delete leases id l key Hl). rewrite Hk in *. pose proof (leased_nonneg (delete id leases) key). lia.
Qed.

Lemma slot_key_inj k k' : ("key:" +:+ k)%string = ("key:" +:+ k')%string -> k = k'.
Proof. intros E. by injection E. Qed.

(** The slots of other keys are not touched. *)
Lemma acquire_other_slots now auth tokens model (c : counter R) k :
  LimitCounter.redis c = None -> LimitCounter.degraded_mode c = LimitCounter.fail_open -> k <> api_key auth ->
  let c' := fst (acquire_rate_limit_controls now auth tokens model c) in
  LimitCounter.degraded_mode c' = LimitCounter.fail_open /\ key_slots c' k = key_slots c k.
Proof.
  intros Hr Hm Hk. cbv zeta. unfold acquire_rate_limit_controls, mbind, st_bind.
  destruct (check_rate_limits_atomic now _ c) as [c1 r1] eqn:Ec.
  destruct (check_local_keeps now c _ c1 r1 Hr Ec) as (Hr1 & Hm1 & Hp1). rewrite Hm in Hm1.
  assert (Hs1 : key_slots c1 k = key_slots c k) by (unfold key_slots; by rewrite Hp1).
  destruct r1 as [result|e]; [|done]. unfold acquire_parallel.
  destruct (max_parallel_requests auth) as [n|]; [|done]. destruct (n <=? 0); [done|]. rewrite Hr1.
  unfold acquire_parallel_fallback, acquire_increment, acquire_undo. rewrite Hm1.
  assert (Hne : ("key" +:+ ":" +:+ api_key auth)%string <> ("key:" +:+ k)%string).
  { change ("key" +:+ ":" +:+ api_key auth)%string with ("key:" +:+ api_key auth)%string.
    intros E%slot_key_inj. congruence. }
  cbv zeta. destruct (n <? _); cbn [fst]; (split; [done|]); rewrite <- Hs1; unfold key_slots, mret, st_ret, set_parallel;
    cbn [fst LimitCounter.fallback_parallel]; by rewrite !lookup_insert_ne.
Qed.

Lemma release_other_slots key (c : counter R) k : LimitCounter.redis c = None -> k <> key ->
  key_slots (fst (release_parallel "key" key c)) k = key_slots c k.
Proof.
  intros Hr Hk. unfold release_parallel. rewrite Hr. unfold release_parallel_fallback, release_slot. cbn [fst].
  assert (Hne : ("key" +:+ ":" +:+ key)%string <> ("key:" +:+ k)%string).
  { change ("key" +:+ ":" +:+ key)%string with ("key:" +:+ key)%string. intros E%slot_key_inj. congruence. }
  unfold key_slots, set_parallel. cbn [LimitCounter.fallback_parallel]. destruct (_ =? 0); [by rewrite lookup_delete_ne|by rewrite lookup_insert_ne].
Qed.

(** What else an acquisition leaves of a limiter without Redis. *)
Lemma acquire_keeps_mode now auth tokens model (c : counter R) :
  LimitCounter.redis c = None -> LimitCounter.degraded_mode c = LimitCounter.fail_open ->
  let '(c', r) := acquire_rate_limit_controls now auth tokens model c in
  LimitCounter.redis c' = None /\ LimitCounter.degraded_mode c' = LimitCounter.fail_open /\
  match r with Ret (lease, _) => lease = lease_of auth | Raise _ => True end.
Proof.
  intros Hr Hm. unfold acquire_rate_limit_controls, mbind, st_bind.
  destruct (check_rate_limits_atomic now _ c) as [c1 r1] eqn:Ec.
  destruct (check_local_keeps now c _ c1 r1 Hr Ec) as (Hr1 & Hm1 & _). rewrite Hm in Hm1.
  destruct r1 as [result|e]; [|done]. unfold acquire_parallel.
  destruct (max_parallel_requests auth) as [n|]; [|done]. destruct (n <=? 0); [done|]. rewrite Hr1.
  unfold acquire_parallel_fallback, acquire_increment. rewrite Hm1. cbv zeta. by destruct (n <? _).
Qed.

Lemma lease_of_proper auth : proper_lease (lease_of auth).
Proof.
  unfold lease_of, proper_lease. destruct (Str.is_empty (api_key auth)) eqn:Ee; cbn; [by left|].
  apply String.eqb_neq in Ee. destruct (match max_parallel_requests auth with Some n => _ | None => _ end); [right; eauto|by left].
Qed.

(** An acquisition takes exactly the slots its lease stands for. *)
Lemma acquire_slots_of_lease now auth tokens model (c : counter R) k :
  LimitCounter.redis c = None -> LimitCounter.degraded_mode c = LimitCounter.fail_open ->
  k <> ""%string -> 0 <= key_slots c k ->
  let '(c', r) := acquire_rate_limit_controls now auth tokens model c in
  key_slots c' k = key_slots c k + match r with Ret (lease, _) => if leased k lease then 1 else 0 | Raise _ => 0 end.
Proof.
  intros Hr Hm Hk Hs. pose proof (acquire_other_slots now auth tokens model c k Hr Hm) as Hoth.
  pose proof (acquire_keeps_mode now auth tokens model c Hr Hm) as Hmode.
  destruct (decide (k = api_key auth)) as [->|Hne].
  - pose proof (acquire_controls_slots now tokens c auth model Hr Hm Hs) as Hown.
    destruct (acquire_rate_limit_controls now auth tokens model c) as [c' [[lease sta]|e]]; destruct Hown as [_ Hown]; [|lia].
    destruct Hown as [-> ->]. f_equal. unfold leased, lease_of.
    rewrite (proj2 (String.eqb_neq _ _) Hk : Str.is_empty (api_key auth) = false). cbn [negb andb].
    destruct (match max_parallel_requests auth with Some n => 0 <? n | None => false end); cbn;
      [by rewrite bool_decide_eq_true_2|by rewrite bool_decide_eq_false_2].
  - destruct (Hoth Hne) as [_ Heq]. destruct (acquire_rate_limit_controls now auth tokens model c) as [c' [[lease sta]|e]];
      cbn [fst] in Heq; rewrite Heq; [|lia]. destruct Hmode as (_ & _ & ->). unfold leased, lease_of.
    destruct (_ && _); (rewrite bool_decide_eq_false_2; [lia|cbn; congruence]).
Qed.

Context (base : string -> Z) (Hbase : forall k, 0 <= base k).

Lemma balanced_acquire p s : balanced base s -> balanced base (fst (acquire p s)).
Proof.
  intros (Hwf & c & Hc & Hr & Hm & Hs). unfold acquire_prepared_policy_lease.
  destruct (ex_leases s !! pc_item_id p) eqn:El; [by split; [|exists c]|].
  destruct (pc_policy_auth p) as [auth|]; [|by split; [|exists c]]. rewrite Hc.
  set (tokens := estimate_tokens _). set (model := Some _). set (now := en_acquire env _).
  pose proof (acquire_keeps_mode now auth tokens model c Hr Hm) as Hmode.
  assert (Hslots : forall k, k <> ""%string -> _) by (intros k Hk; exact (acquire_slots_of_lease now auth tokens model c k Hr Hm Hk
    ltac:(rewrite Hs by done; pose proof (leased_nonneg (ex_leases s) k); specialize (Hbase k); lia))).
  destruct (acquire_rate_limit_controls now auth tokens model c) as [c' [[lease sta]|e]];
    destruct Hmode as (Hr' & Hm' & Hl); cbn [fst].
  - split.
    + intros id l. cbn. destruct (decide (id = pc_item_id p)) as [->|Hne]; [|rewrite lookup_insert_ne by done; apply Hwf].
      rewrite lookup_insert_eq. intros [= <-]. rewrite Hl. apply lease_of_proper.
    + exists c'. split_and!; [done..|]. intros k Hk. cbn. rewrite Hslots, Hs, leased_insert by done. lia.
  - split; [done|]. exists c'. split_and!; [done..|]. intros k Hk. cbn. rewrite Hslots, Hs by done. lia.
Qed.

Lemma balanced_release p s : balanced base s -> balanced base (fst (release_prepared_policy_lease p s)).
Proof.
  intros (Hwf & c & Hc & Hr & Hm & Hs). unfold release_prepared_policy_lease. rewrite Hc.
  assert (Hwf' : forall id l, delete (pc_item_id p) (ex_leases s) !! id = Some l -> proper_lease l).
  { intros id l. rewrite lookup_delete_Some. intros [_ ?]. by eapply Hwf. }
  destruct (ex_leases s !! pc_item_id p) as [l|] eqn:El; cbn [fst].
  2:{ split; [done|]. exists c. split_and!; [done..|]. cbn. by rewrite delete_id. }
  split; [done|]. cbn [ex_limiter ex_leases].
  destruct (Hwf _ _ El) as [->|(k0 & Hk0 & ->)].
  { exists c. split_and!; [done..|]. intros k Hk. rewrite (leased_delete _ _ _ _ El), Hs by done.
    unfold leased. rewrite bool_decide_eq_false_2 by done. cbn [release_rate_limit_controls parallel_scope parallel_entity_id]. lia. }
  unfold release_rate_limit_controls. cbn [parallel_scope parallel_entity_id].
  rewrite (proj2 (String.eqb_neq _ _) Hk0 : Str.is_empty k0 = false). cbn [orb Str.is_empty String.eqb].
  assert (Hpos : 0 < key_slots c k0).
  { rewrite Hs by done. assert (1 <= leased_slots (ex_leases s) k0); [|specialize (Hbase k0); lia].
    eapply leased_pos; [exact El|]. unfold leased. by apply bool_decide_eq_true_2. }
  destruct (release_parallel_local c k0 Hr Hpos) as (m & Em & Hm2). pose proof (release_other_slots k0 c) as Hoth. rewrite Em in Hoth |- *.
  cbn [fst] in *. exists (set_parallel c m). split_and!; [done..|]. intros k Hk. rewrite (leased_delete _ _ _ _ El).
  unfold leased. cbn [parallel_entity_id]. destruct (decide (k = k0)) as [->|Hne].
  - rewrite Hm2, Hs, bool_decide_eq_true_2 by done. lia.
  - rewrite Hoth, Hs, bool_decide_eq_false_2 by (congruence || done). lia.
Qed.

Lemma balanced_on_world {A} (m : st (@world S) exn A) s : balanced base s -> balanced base (fst (on_world m s)).
Proof. unfold balanced. by rewrite on_world_fst. Qed.

Lemma balanced_units units s : balanced base s -> balanced base (fst (for_each units run_unit s)).
Proof.
  apply (for_each_keeps (balanced base)). intros u s1 _.
  apply (P_unit (balanced base) (@balanced_on_world) balanced_acquire balanced_release). done.
Qed.

Definition dropped_since (s0 s : state) : Prop := exists l, ex_dropped s = ex_dropped s0 ++ l.

Lemma dropped_grows units s : dropped_since s (fst (for_each units run_unit s)).
Proof.
  apply (for_each_keeps (dropped_since s)); [|exists []; by rewrite app_nil_r].
  intros u s1 _. apply (P_unit (dropped_since s)).
  - intros A m s2. unfold dropped_since. by rewrite on_world_fst.
  - intros p s2 [l Hl]. pose proof (acquire_leases p s2) as Ha. destruct (acquire p s2) as [s3 r]. cbn [fst].
    exists l. by rewrite (proj1 Ha).
  - intros p s2 [l Hl]. exists l. by rewrite (proj2 (proj2 (release_leases p s2))).
  - intros ps s2 [l Hl]. exists (l ++ map pc_item_id ps). cbn. by rewrite Hl, app_assoc.
Qed.

Lemma unit_leases u s s' : ex_leases s = ∅ -> run_unit u s = (s', Ret tt) -> ex_dropped s' = ex_dropped s ->
  ex_leases s' = ∅.
Proof.
  intros Hl Hu Hd. apply within_nil. assert (Hw : forall ps, within ps s) by (intros ps id _; by rewrite Hl).
  destruct u as [p mode|ps].
  { pose proof (item_leases p [] s (Hw [p])) as Hi. unfold ChatExecution.run_unit in Hu. by rewrite Hu in Hi. }
  unfold ChatExecution.run_unit, execute_prepared_chat_microbatch_chunk in Hu.
  apply bind_ret_inv in Hu as (s1 & allowed & Ha & E). pose proof (acquire_all_leases ps [] s s1 allowed (Hw []) Ha) as Hw1.
  rewrite app_nil_r in Hw1.
  destruct allowed as [|first [|second rest]]; [by injection E as <-| |].
  - pose proof (item_leases first [] s1 Hw1) as Hi. by rewrite E in Hi.
  - destruct (chunk_leases first (second :: rest) s1 s' Hw1 E) as [?|(id & l & Hgrow)]; [done|].
    assert (Hd1 : exists l1, ex_dropped s1 = ex_dropped s ++ l1).
    { pose proof (P_acquire_all (dropped_since s)) as Hp. specialize (Hp ltac:(intros A m s2; unfold dropped_since; by rewrite on_world_fst)).
      specialize (Hp ltac:(intros p s2 [l0 Hl0]; pose proof (acquire_leases p s2) as Hq; destruct (acquire p s2) as [s3 r];
        cbn [fst]; exists l0; by rewrite (proj1 Hq)) ps s ltac:(exists []; by rewrite app_nil_r)).
      by rewrite Ha in Hp. }
    destruct Hd1 as [l1 Hd1]. rewrite Hd, Hd1, <- app_assoc in Hgrow.
    apply (f_equal length) in Hgrow. rewrite length_app in Hgrow. cbn in Hgrow. rewrite length_app in Hgrow. cbn in Hgrow. lia.
Qed.

Lemma units_leases units s s' : ex_leases s = ∅ -> for_each units run_unit s = (s', Ret tt) ->
  ex_dropped s' = ex_dropped s -> ex_leases s' = ∅.
Proof.
  revert s. induction units as [|u units IH]; intros s Hl; [by intros [= <-]|]. cbn [for_each].
  intros (s1 & [] & K & E)%bind_ret_inv Hd.
  pose proof (dropped_grows [u] s) as [l1 Hl1]. cbn [for_each] in Hl1. rewrite fst_bind_tt, K in Hl1. cbn [fst] in Hl1.
  pose proof (dropped_grows units s1) as [l2 Hl2]. rewrite E in Hl2. cbn [fst] in Hl2.
  assert (Hnil : l1 = [] /\ l2 = []).
  { rewrite Hl1, <- app_assoc in Hl2. rewrite Hd in Hl2. apply (f_equal length) in Hl2. rewrite !length_app in Hl2.
    destruct l1, l2; cbn in Hl2; (done || lia). }
  destruct Hnil as [-> ->]. rewrite app_nil_r in *. apply (IH s1); [|done|congruence]. by apply (unit_leases u s).
Qed.
End slots.

(** C13: the parallel slots taken for chat items are accounted for and come
    back, where the limiter counts in memory.  At any time, on every path, the slots a key holds beyond those it
    held before are exactly the ones that leases of prepared items stand for.
    And when the units of a claim have been executed, without an exception
    that escaped and without a warning that work was dropped for a lost lease,
    no lease is left: every key has the slots it had.  An item that runs alone
    gives its slot back even then. *)
Theorem chat_slots_returned `{!RedisLaws R} (units : list work_unit) (s : state) (c : counter R) :
  ex_limiter s = Some c -> LimitCounter.redis c = None -> LimitCounter.degraded_mode c = LimitCounter.fail_open ->
  ex_leases s = ∅ -> (forall k, 0 <= key_slots c k) ->
  let '(s', r) := for_each units run_unit s in
  exists c', ex_limiter s' = Some c' /\
    (forall k, k <> ""%string -> key_slots c' k = key_slots c k + leased_slots (ex_leases s') k) /\
    (r = Ret tt -> ex_dropped s' = ex_dropped s ->
     ex_leases s' = ∅ /\ forall k, k <> ""%string -> key_slots c' k = key_slots c k) /\
    (forall p mode, units = [Single p mode] -> ex_leases s' = ∅).
Proof.
  intros Hc Hr Hm Hl Hs.
  assert (Hb : balanced (key_slots c) s).
  { split; [intros id l; by rewrite Hl|]. exists c. split_and!; [done..|]. intros k _. rewrite Hl, leased_empty. lia. }
  pose proof (balanced_units (key_slots c) Hs units s Hb) as Hb'. pose proof (units_leases units s) as Hu.
  assert (Hsingle : forall p mode, units = [Single p mode] -> ex_leases (fst (for_each units run_unit s)) = ∅).
  { intros p mode ->. cbn [for_each]. rewrite fst_bind_tt. apply within_nil, (item_leases p []). intros id _. by rewrite Hl. }
  destruct (for_each units run_unit s) as [s' r]. cbn [fst] in *. destruct Hb' as (_ & c' & Hc' & _ & _ & Hs').
  exists c'. split_and!; [done|done| |done]. intros -> Hd. specialize (Hu s' Hl eq_refl Hd). split; [done|].
  intros k Hk. rewrite Hs' by done. rewrite Hu, leased_empty. lia.
Qed.
End execution.

(** *** Examples *)

#[local] Existing Instances no_server no_repr.

(** Items "0" and "1", claimed by "a", share one call to [sample_deployment];
    its results come in the other order. *)
Definition shared_auth : UserAPIKeyAuth :=
  mkAuth "k1" None None (Some "acme"%string) [] [] None None None None None None None None None
    (Some 5) None None None None (Some 2) None None None None None None None None None None None
    None None.

Definition shared_item (id : string) : PreparedChatItem :=
  mkPrepared (sample_row id bill2) (mkChat "m" [mkMessage "user" (PyStr "hi")] (Some false) None None (Some 1) (PyDict []))
    "m" "m" sample_deployment [] (Some shared_auth).

Definition shared_chunk : list work_unit := [Chunk [shared_item "0"; shared_item "1"]].

Definition shared_results : raw_results :=
  Results [sample_result [("custom_id", PyStr "y")] 7; sample_result [("custom_id", PyStr "x")] 5].

Definition sample_env (lost_in_call : bool) : exec_env :=
  let t := 2 * usec in
  let a f := mkAttempt t nothing_held (fun n => "c" ++ sample_uuid n)%string f in
  mkEnv (fun _ => 0) (fun _ => mkFailureClock t t t t) (fun _ => lost_in_call) (fun _ => false) (fun _ => false)
    (fun _ => (t, NoFault)) (fun _ => (a NoFault, a NoFault)) (fun _ => (t, NoFault)) (fun _ => Raise EAsyncioTimeout)
    (fun _ => [(sample_deployment, Ret shared_results)])
    (fun _ l => match l with (d, Ret r) :: _ => Ret (r, d) | (_, Raise e) :: _ => Raise e | [] => Raise EAsyncioTimeout end)
    (fun _ => t) (fun _ => t).

Definition sample_state : @exec_state unit (gmap string Z) :=
  mkExec (bill2, init_coordinator (None : option (connection unit)) true 5 60)
    (Some (init_counter (None : option (redis_client (gmap string Z))) "fail_open")) ∅ [].

Definition run_shared (lost_in_call : bool) : @exec_state unit (gmap string Z) * res exn unit :=
  for_each shared_chunk
    (run_unit (fun s => s) (fun _ _ _ => ""%string) (fun _ => None) (fun _ => "E"%string) (fun _ => ""%string)
       (fun _ => ""%string) sample_config (Some tt) (fun _ => None) (fun _ => 0%Q) (mkWorkerConfig "a" 60 3 5 300 2 false)
       (fun a _ => a) true (fun _ => None) (sample_env lost_in_call) ended_job "managed_internal") sample_state.

Lemma elem_same_image {A B} (f : A -> B) (l : list A) b n x : map f l = replicate n b -> x ∈ l -> f x = b.
Proof. intros E Hx. apply (list_elem_of_fmap_2 f) in Hx. change (f <$> l) with (map f l) in Hx. rewrite E in Hx. by apply elem_of_replicate in Hx as [? _]. Qed.

Lemma chat_answers_stored_witness :
  let d' := (ex_world (fst (run_shared false))).1 in
  map Item.status (items d') = [BatchItemStatus.COMPLETED; BatchItemStatus.COMPLETED] /\
  forall r, r ∈ items d' -> r ∉ items bill2 ->
    exists u p usage, u ∈ shared_chunk /\ p ∈ unit_items u /\ Item.item_id r = pc_item_id p /\ Item.usage r = Some (PyDict usage).
Proof.
  cbv zeta. assert (Hst : map Item.status (items (ex_world (fst (run_shared false))).1)
    = [BatchItemStatus.COMPLETED; BatchItemStatus.COMPLETED]) by (vm_compute; reflexivity).
  split; [exact Hst|]. intros r Hr Hnew.
  pose proof (elem_same_image Item.status _ BatchItemStatus.COMPLETED 2 r Hst Hr) as Hc.
  pose proof (chat_answers_stored (fun s => s) (fun _ _ _ => ""%string) (fun _ => None) (fun _ => "E"%string) (fun _ => ""%string)
       (fun _ => ""%string) sample_config (Some tt) (fun _ => None) (fun _ => 0%Q) (mkWorkerConfig "a" 60 3 5 300 2 false)
       (fun a _ => a) true (fun _ => None) (sample_env false) ended_job "managed_internal" shared_chunk sample_state
       ltac:(split_and!; apply (bool_decide_unpack _); vm_compute; exact I)
       ltac:(apply Forall_singleton; apply (bool_decide_unpack _); vm_compute; exact I)) as H.
  cbv zeta in H. fold (run_shared false) in H. destruct H as [Hi _]. clear Hst. revert Hr Hi.
  generalize (run_shared false). intros x Hr Hi.
  destruct (Hi r Hr Hc) as [Hold|(u & p & body & usage & served & Hu & [Hp _] & Hid & _ & Hus)]; [destruct (Hnew Hold)|].
  exists u, p, usage. split; [exact Hu|]. split; [exact Hp|]. split; [exact Hid|exact Hus].
Defined.

Lemma chat_slots_returned_witness :
  exists c', ex_limiter (fst (run_shared false)) = Some c' /\ key_slots c' "k1" = 0.
Proof.
  pose proof (chat_slots_returned (fun s => s) (fun _ _ _ => ""%string) (fun _ => None) (fun _ => "E"%string) (fun _ => ""%string)
       (fun _ => ""%string) sample_config (Some tt) (fun _ => None) (fun _ => 0%Q) (mkWorkerConfig "a" 60 3 5 300 2 false)
       (fun a _ => a) true (fun _ => None) (sample_env false) ended_job "managed_internal" shared_chunk sample_state
       (init_counter (None : option (redis_client (gmap string Z))) "fail_open") eq_refl eq_refl eq_refl eq_refl
       ltac:(intros k; vm_compute; discriminate)) as H.
  fold (run_shared false) in H.
  assert (Hr : snd (run_shared false) = Ret tt) by (vm_compute; reflexivity).
  assert (Hd : ex_dropped (fst (run_shared false)) = ex_dropped sample_state) by (vm_compute; reflexivity).
  destruct (run_shared false) as [s' r]. cbn [fst snd] in *. destruct H as (c' & Hc' & _ & Hback & _).
  exists c'. split; [exact Hc'|]. destruct (Hback Hr Hd) as [_ ->]; [reflexivity|discriminate].
Defined.

(** A shared call cut off by a lost lease returns without giving the slots of
    its items back: both stay taken when the claim is over. *)
Lemma lost_chunk_keeps_slots :
  snd (run_shared true) = Ret tt /\ map_to_list (ex_leases (fst (run_shared true))) <> [] /\
  match ex_limiter (fst (run_shared true)) with Some c => key_slots c "k1" = 2 | None => False end.
Proof. split_and!; [vm_compute; reflexivity|vm_compute; discriminate|vm_compute; reflexivity]. Qed.
